(* ===== verification/_CoqProject ===== *)
-Q . S2P
Prelude.v
Bytes.v
Text.v
Float.v
StateMachine.v
Reconnect.v
Instability.v
Errors.v
Endpoint.v
Ip.v
RoundRobin.v
Failover.v
Session.v
Profile.v
Lives.v
Config.v
Reload.v
Orchestrator.v
KnownHosts.v
HostKey.v
Limits.v
TargetAcl.v
Dynamic.v
Bidir.v
Ssh3Frame.v
Ber.v
Pdu.v
Message.v
Usm.v
Mib.v
Dispatch.v
Discovery.v
Agent.v
Schema.v
Fields.v
Policy.v
Address.v
Validate.v
ValidateProfile.v
Base64.v
Bind.v
Runner.v
Crypto.v
Gate.v
McpPolicy.v
McpTools.v
McpServer.v
Spool.v
Events.v
Template.v
Dns.v
Hosts.v
Updater.v
Sftp.v
Calendar.v
Ftp.v
FtpSession.v
StateLock.v
StateFiles.v
EventLog.v
Status.v
StatusApi.v
SealedConfig.v
RemoteConfig.v
