(* ===== verification/Prelude.v ===== *)
(** * A verification development for spt (ssh-perma-tunnel)

    [spt] keeps SSH tunnels alive.  A configuration names profiles; an
    orchestrator runs a supervisor per profile, which picks an endpoint,
    connects to it, checks its host key, opens the profile's forwards, watches
    the session, and on any loss backs off and starts again.  Around that core
    stand the configuration with its validation and its administrator policy,
    the forwards and their limits, the ways of watching and steering the
    program (SNMP, a management interface, events), the names it serves, the
    transfer of files and its updates.  This development models these parts
    from the sources under [src/crates] and proves what makes them correct.

    ** The parts and where they are modelled

    Shared ground:
    - [Prelude]: results, panics, machine integers, durations, the random
      generator, decimal numbers, list lemmas, the tactics and hint databases.
    - [Bytes], [Text], [Float], [Ip]: byte strings and UTF-8, the operations of
      [str], the floating-point operations, addresses as text.
    - [Errors]: [Error], [ExitCode] and [Diagnostic] of [spt-core]; [Endpoint]:
      endpoints and their keys; [Address]: addresses, durations, sizes.

    The supervisor ([spt-supervisor]):
    - [StateMachine] ([state_machine.rs]), [Reconnect] ([reconnect.rs]),
      [Instability] ([instability.rs]), [RoundRobin] ([round_robin.rs]),
      [Failover] ([failover.rs]), [Session] ([session.rs]).
    - [Profile] ([profile.rs], [control.rs]): the task as a step function over
      phases (its await points) and stimuli (what wakes it), composed of the
      components above in the order the code calls them.
    - [Lives] ([profile.rs], [Drop] and the teardown; [controller.rs] of
      [spt-bin]): several supervisors of a profile, dropped at any await, over
      one session registry.
    - [Config] ([diff.rs]), [Reload] ([reload.rs]), [Orchestrator]
      ([orchestrator.rs]): differences, plans and their application under
      interleaved operations.

    Trust and forwards ([spt-trust], [spt-ssh2], [spt-ssh3], [spt-forward],
    [spt-net]):
    - [KnownHosts], [HostKey]: known_hosts, pins, trust on first use and the
      decision about a presented key.
    - [Limits], [TargetAcl], [Dynamic], [Bidir]: rate limits and source lists,
      destination lists, SOCKS and CONNECT requests, the copy of a connection.
    - [Ssh3Frame]: the frames of the SSH3 backend.
    - [Bind], [Runner]: bind modes and the start of a forward.

    The configuration ([spt-config]):
    - [Schema], [Fields]: the document and its assignable fields.
    - [Policy]: the overlay of administrator policy on the document.
    - [Validate], [ValidateProfile], [Base64]: the validator; [Crypto]
      ([crypto.rs] of [spt-ssh2], [profile_factory.rs] of [spt-bin]): the
      algorithms a session offers; [Gate]: what the overlay, the validator, the
      algorithms and the runner guarantee together, for every login of a
      profile, its endpoints and its hops.

    The SNMP agent ([spt-snmp]):
    - [Ber], [Pdu], [Message], [Usm], [Mib], [Dispatch], [Discovery], [Agent]:
      codec, values, messages, user-based security, the managed objects, the
      request handlers, the rate limit of unauthenticated replies, the agent.

    Steering and watching:
    - [McpPolicy], [McpTools], [McpServer] ([spt-mcp]): the management
      interface, its policy and redaction, its tools, its connections and their
      subscriptions.
    - [Spool] ([spt-state]), [Events], [Template] ([spt-events]): the disk queue
      with every file operation able to fail, the dispatch of events to sinks,
      the drain of a spool while pushes go on, the texts sent.

    Names, files, updates:
    - [Dns], [Hosts] ([spt-dns]): managed zones and the hosts file.
    - [Sftp] ([spt-sftp]): the client and the recursive transfers; [Calendar]:
      dates; [Ftp], [FtpSession] ([spt-ftp-translator]): the FTP translator and
      the theorems about its sessions.
    - [Updater] ([spt-updater]): releases, verification and the update cycle,
      in which the source is asked twice and the staged file read three times.

    The state directory and its API ([spt-state], [spt-status-api]):
    - [StateLock] ([lock.rs]): acquisition and release of the lock by handles
      whose steps interleave, fail and crash.
    - [StateFiles], [EventLog] ([events.rs]), [Status] ([status.rs],
      [runtime.rs]): names, directories with open handles, the daily event files
      and the status snapshots with their ring.
    - [StatusApi]: launch, authentication, rate limit and handlers, and what the
      daemon writes for them ([cli_dispatch.rs]).

    Sealed and remote configuration ([spt-config-crypt], [spt-remote-config]):
    - [SealedConfig]: envelopes, key derivation, sealing and signatures; its
      module [Toy] is the instance the witnesses run on.
    - [RemoteConfig]: the pinned download with its cache, the poller, references
      to keys, the gates on signature and encryption ([config_ops.rs]) and their
      callers ([cli_dispatch.rs]).

    ** How the code is translated

    A Rust struct is a [Record], an enum an [Inductive] with the source's
    constructors (prefixed where two enums share a name), a method a function
    from the old value to the result and the new value.  Fallible code returns
    a [Result] or an [option], code that can panic an [Outcome].  Durations and
    instants are nanoseconds in [Z]; integers of a width are [Z] with their
    wrap-around or saturation written out.  Tasks and connections are step
    functions over what can happen to them, or computations that record the
    calls they make, answered by an arbitrary environment.

    Code that is not in the repository is an argument, most often a class
    whose laws are what its documentation says and what the code relies on:
    [Rng], [Semaphore], [BytesCrate], [UsmCrypto], [SshKey], [HostHash],
    [IpNets], [HumanTime], [ByteSizes], [EventText], [EventCodec], [SemVer],
    [Crypto], [Lowercase], [Base64Crate], [TomlDoc], [SealCrypto], [ByteRng],
    [SidecarJson], and as plain parameters the JSON reader and printer, the
    matching of routes, base64, the resolver, the enumeration of interfaces,
    hashes and clocks.  [Environment] and [Outside] are what a file server, a
    client, a network or a disk answer; they have no laws.  Every theorem
    under such an assumption has a witness with a concrete
    instance.  Interfaces inside the program are classes too: [PolicySelector]
    is proved against and discharged by [boxed_policy]; [ConfigSource],
    [StateSource] and [Controller] are what the management interface is given;
    [SftpIo] is what the SFTP client needs of the monad it runs in, which the
    recursive transfers and the FTP sessions provide.

    ** What the theorems show

    - Supervision: in every reachable configuration the published state agrees
      with the await point; the registry holds one row for each supervisor
      with a session and for each that was dropped before it could take its
      row out, and no other; stopping works from everywhere; which errors are
      terminal; delays stay in their range in spite of rounding; the queue of
      disconnects is the sliding window; selection neither starves nor picks
      what it may not; a session needs authentication; a reload converges and
      a shutdown is final however operations interleave.
    - Trust: a connection goes on exactly for the keys it should, the indexed
      lookup is the plain one, a key accepted on first use is pinned.
    - Forwards: a dynamic client reaches only destinations the lists allow,
      under every spelling of an address; requests and frames are read back as
      written; no pattern of requests exceeds a configured rate.
    - Configuration: the overlay gives each field the value the precedence
      rules prescribe, and no valid configuration escapes an enforced gate.
    - SNMP: writes need an authentic request of a permitted user, verification
      is exact, messages survive the wire, whatever parses is well typed, a
      walk visits every managed object once.
    - Management and events: nothing is served without the token, every call is
      audited, redaction is exact; the spool is a bounded queue across restarts
      and failing file operations, beside the files it lost sight of; a drain
      takes out exactly what was delivered, refused for good or put aside,
      whatever is pushed meanwhile; no failed delivery goes unspooled, escaped
      values stay data.
    - Names, files, updates: the upstream is asked for unmanaged names only;
      the hosts file keeps what is not managed; a download acts within its
      root and makes only links that lead there; an FTP session uses the
      backend only after a login and only at plain paths; dates are the
      calendar's; the binary is replaced only from a release that was newer
      when it was installed, inside the window and after the required checks.
    - State and status: one process at most holds the state directory and a
      crash is reported exactly; while the file operations succeed, days come
      in order and nothing is appended after the signal to end, every accepted
      event reaches the file of its day; a flush keeps the newest copies; a
      request without the credential learns nothing of the state.
    - Sealed and remote configuration: what is sealed unseals and what is signed
      verifies, for every kind of key; what the daemon applies from a server has
      the pinned digest and passed the required signature and decryption; a
      poller applies one body at most.
    - Behaviour worth changing is stated as theorems about concrete runs,
      beside the component they concern: among them a changed forward that
      keeps the active loop spinning, an unknown override that wedges
      selection, a session row left behind by a dropped supervisor, the
      overflows of the SNMP codec, policies that share one deduplication
      state, a marker that swallows lines of the hosts file, an archive
      installed as the binary, a staged file replaced after its checks, a
      chain of links that leaves the download root, a command cut off by the
      end of a connection that runs, a late event written to a file without a
      name, a health check that does not see the tunnels, a remote
      configuration that an ETag keeps from being applied.

    ** Bounds and fuel

    Fuel stands for a bound the source has or a measure the loop decreases:
    [scan] runs [for _ in 0..n]; the byte loops of [Ber] and [Pdu] run at most
    eight and five times, as the width of the number allows, and those over
    arcs and bindings once per byte ([decode_arcs_fuel],
    [bindings_loop_ends]); bucket loops once per request; [evict_while] and
    [drain_loop] once per queue entry; the template and whitespace loops once
    per character; [glob_fuel] bounds the wildcard loop by pattern and text; a
    walk of the MIB ends within the number of its objects; [read_fuel_enough]
    shows that the FTP line reader never runs out; [event_log_exact] gives the
    number of steps in which the event writer ends.  A recursive download has
    no bound, since a server may nest directories without end: its theorem
    holds for every fuel.  [boxed_ok] keeps the [usize] cursors away from
    their wrap at [2^64]; [next_delay_bounds] is stated for ceilings below
    [2^50] ms, far above any configurable delay.

    ** What is not modelled

    Logging and metrics; the transports (russh, QUIC, HTTP/3, TLS, HTTP) and
    the sockets around them; the command line, the terminal interface and the
    service managers, which are glue over the parts above and the operating
    system; loading, migrating and editing TOML, which is serde and file
    effects; cryptography; the bounded waits of a teardown, which show only as
    a later clock reading; the vault and the keychain.  Candidates for more
    work are the SSH3 channel handling, the UDP flow table and the vault. *)

From Stdlib Require Export ZArith Lia Bool Ascii String.
From stdpp Require Export base list strings gmap pretty sorting.

#[global] Open Scope Z_scope.

(** ** Results *)

(** Rust's [Result<T, E>], error type first so that [Result E] is a monad. *)
Inductive Result (E T : Type) : Type :=
| Ok (t : T)
| Err (e : E).
Arguments Ok {E T} t.
Arguments Err {E T} e.

#[global] Instance result_ret {E} : MRet (Result E) := fun _ x => Ok x.
#[global] Instance result_bind {E} : MBind (Result E) := fun _ _ f m =>
  match m with Ok x => f x | Err e => Err e end.

(** [Option::ok_or]. *)
Definition ok_or {E T} (e : E) (o : option T) : Result E T :=
  match o with Some x => Ok x | None => Err e end.

Definition is_ok {E T} (r : Result E T) : bool :=
  match r with Ok _ => true | Err _ => false end.

(** A computation that may panic, for the code's [unwrap], [expect] and
    indexing. *)
Inductive Outcome (A : Type) : Type :=
| Return (a : A)
| Panic.
Arguments Return {A} a.
Arguments Panic {A}.

(** [Option::unwrap] and [Option::expect]. *)
Definition unwrap {A} (o : option A) : Outcome A :=
  match o with Some x => Return x | None => Panic end.

Definition outcome_map {A B} (f : A -> B) (o : Outcome A) : Outcome B :=
  match o with Return x => Return (f x) | Panic => Panic end.

#[global] Instance outcome_ret : MRet Outcome := fun _ x => Return x.
#[global] Instance outcome_bind : MBind Outcome := fun _ _ f m =>
  match m with Return x => f x | Panic => Panic end.

(** ** Machine integers

    An unsigned [w]-bit integer is a [Z] in [0, 2^w); the functions below are
    Rust's wrapping, saturating and checked operations on that range. *)

Definition umax (w : Z) : Z := 2 ^ w - 1.
Definition wrap (w z : Z) : Z := z mod 2 ^ w.
Definition in_u (w z : Z) : Prop := 0 <= z <= umax w.
Definition sat_add (w a b : Z) : Z := Z.min (a + b) (umax w).
Definition sat_mul (w a b : Z) : Z := Z.min (a * b) (umax w).
Definition sat_sub (a b : Z) : Z := Z.max 0 (a - b).

(** Two's-complement reading of the low [w] bits. *)
Definition sign_wrap (w z : Z) : Z :=
  let m := z mod 2 ^ w in if m <? 2 ^ (w - 1) then m else m - 2 ^ w.

(** ** Durations and instants

    A [Duration] is a non-negative number of nanoseconds.  An [Instant] is a
    reading of the monotonic clock in nanoseconds. *)

Definition NANOS_PER_MS : Z := 1000000.
Definition from_secs (s : Z) : Z := s * 1000000000.
Definition from_millis (ms : Z) : Z := ms * NANOS_PER_MS.
Definition as_millis (d : Z) : Z := d / NANOS_PER_MS.
Definition as_secs (d : Z) : Z := d / 1000000000.
(** [now.duration_since(t)]: saturates at zero. *)
Definition duration_since (now t : Z) : Z := sat_sub now t.

(** ** Random numbers

    The [rand] crate is outside the repository; the code relies on
    [gen_range(lo..=hi)] returning a number of that range. *)

Class Rng (R : Type) : Type := {
  gen_range : R -> Z -> Z -> Z * R;
  gen_range_in : forall r lo hi, lo <= hi -> lo <= (gen_range r lo hi).1 <= hi
}.

(** A scripted generator, used by the witnesses. *)
Definition script_gen (l : list Z) (lo hi : Z) : Z * list Z :=
  (lo + (default 0 (head l)) mod (hi - lo + 1), tail l).

#[global, program] Instance script_rng : Rng (list Z) := {| gen_range := script_gen |}.
Next Obligation.
  intros l lo hi Hle. unfold script_gen; cbn [fst].
  pose proof (Z.mod_pos_bound (default 0 (head l)) (hi - lo + 1)). lia.
Qed.

(** ** Strings *)

(** [str::rsplit_once]: split at the last occurrence of [c]. *)
Fixpoint rsplit_once (c : ascii) (s : string) : option (string * string) :=
  match s with
  | EmptyString => None
  | String a s' =>
      match rsplit_once c s' with
      | Some (h, t) => Some (String a h, t)
      | None => if Ascii.eqb a c then Some (EmptyString, s') else None
      end
  end.

Definition digit_val (a : ascii) : option Z :=
  let n := Z.of_nat (nat_of_ascii a) in
  if (48 <=? n) && (n <=? 57) then Some (n - 48) else None.

(** The digit loop of [uN::from_str], with its overflow check. *)
Fixpoint parse_digits (w : Z) (s : string) (acc : Z) : option Z :=
  match s with
  | EmptyString => Some acc
  | String a s' =>
      match digit_val a with
      | None => None
      | Some d =>
          let acc' := acc * 10 + d in
          if acc' <=? umax w then parse_digits w s' acc' else None
      end
  end.

(** [uN::from_str]: a leading [+] is accepted, the empty string is not. *)
Definition parse_uint (w : Z) (s : string) : option Z :=
  match s with
  | EmptyString => None
  | String a s' =>
      if Ascii.eqb a "+"%char
      then match s' with EmptyString => None | _ => parse_digits w s' 0 end
      else parse_digits w s 0
  end.

(** [format!("{}:{}", host, port)], the composite endpoint key. *)
Definition host_port (host : string) (port : Z) : string :=
  (host +:+ ":" +:+ pretty port)%string.

(** ** Lists *)

(** [Iterator::min_by_key]: the first element whose key is least. *)
Fixpoint min_by {A} (lt : A -> A -> bool) (x : A) (l : list A) : A :=
  match l with
  | [] => x
  | y :: l' => min_by lt (if lt y x then y else x) l'
  end.

(** [None < Some _], the derived ordering of [Option<Instant>]. *)
Definition opt_ltb (a b : option Z) : bool :=
  match a, b with
  | None, None => false
  | None, Some _ => true
  | Some _, None => false
  | Some x, Some y => x <? y
  end.

Definition opt_le (a b : option Z) : Prop := opt_ltb b a = false.

(** Sum of the weights of a list. *)
Definition sum_by {A} (f : A -> Z) (l : list A) : Z := foldr (fun x acc => f x + acc) 0 l.

(** The numbers [0 .. n-1]. *)
Definition zrange (n : Z) : list Z := Z.of_nat <$> seq 0 (Z.to_nat n).

(** What a [for] loop over [l] pushes, [f x] being the pushes of one round. *)
Definition collect {A B} (f : A -> list B) (l : list A) : list B := l ≫= f.

(** ** Automation *)

(** Turn boolean comparisons in the context and the goal into propositions. *)
Ltac bool_prop :=
  repeat match goal with
  | H : (_ && _)%bool = true |- _ => apply andb_true_iff in H; destruct H
  | H : (_ || _)%bool = false |- _ => apply orb_false_iff in H; destruct H
  | H : negb _ = true |- _ => apply negb_true_iff in H
  | H : negb _ = false |- _ => apply negb_false_iff in H
  | H : (_ <? _) = true |- _ => apply Z.ltb_lt in H
  | H : (_ <? _) = false |- _ => apply Z.ltb_ge in H
  | H : (_ <=? _) = true |- _ => apply Z.leb_le in H
  | H : (_ <=? _) = false |- _ => apply Z.leb_gt in H
  | H : (_ =? _) = true |- _ => apply Z.eqb_eq in H
  | H : (_ =? _) = false |- _ => apply Z.eqb_neq in H
  | H : String.eqb _ _ = true |- _ => apply String.eqb_eq in H
  | H : String.eqb _ _ = false |- _ => apply String.eqb_neq in H
  end.

(** Split on the scrutinee of the first [if] or [match] of the goal. *)
Ltac split_goal :=
  match goal with
  | |- context [if ?b then _ else _] => let E := fresh "E" in destruct b eqn:E
  | |- context [match ?x with _ => _ end] => let E := fresh "E" in destruct x eqn:E
  end.

(** The same on a hypothesis. *)
Ltac split_in H :=
  match type of H with
  | context [if ?b then _ else _] => let E := fresh "E" in destruct b eqn:E
  | context [match ?x with _ => _ end] => let E := fresh "E" in destruct x eqn:E
  end.

Create HintDb spt.
Create Rewrite HintDb spt_rw.

(** ** Lemmas: machine integers *)

Lemma umax_nonneg w : 0 <= w -> 0 <= umax w.
Proof. intros Hw. unfold umax. pose proof (Z.pow_pos_nonneg 2 w). lia. Qed.

Lemma wrap_in_u w z : 0 <= w -> in_u w (wrap w z).
Proof.
  intros Hw. unfold in_u, umax, wrap.
  pose proof (Z.mod_pos_bound z (2 ^ w)). pose proof (Z.pow_pos_nonneg 2 w). lia.
Qed.

Lemma wrap_small w z : in_u w z -> wrap w z = z.
Proof. unfold in_u, umax, wrap. intros H. apply Z.mod_small. lia. Qed.

Lemma sat_add_small w a b : a + b <= umax w -> sat_add w a b = a + b.
Proof. unfold sat_add. lia. Qed.

Lemma sat_add_in_u w a b : in_u w a -> 0 <= b -> in_u w (sat_add w a b).
Proof. unfold in_u, sat_add. lia. Qed.

Lemma sat_add_le w a b : sat_add w a b <= a + b.
Proof. unfold sat_add. lia. Qed.

Lemma sat_mul_le w a b : sat_mul w a b <= a * b.
Proof. unfold sat_mul. lia. Qed.

(** Clamping after a saturating product loses nothing below the bound. *)
Lemma sat_mul_min w a b m : m <= umax w -> Z.min (sat_mul w a b) m = Z.min (a * b) m.
Proof. unfold sat_mul. lia. Qed.

#[export] Hint Resolve umax_nonneg wrap_in_u sat_add_in_u sat_add_le sat_mul_le : spt.

(** ** Lemmas: endpoint keys *)

Fixpoint no_char (c : ascii) (s : string) : bool :=
  match s with
  | EmptyString => true
  | String a s' => negb (Ascii.eqb a c) && no_char c s'
  end.

Lemma rsplit_once_no_char c t : no_char c t = true -> rsplit_once c t = None.
Proof.
  induction t as [|a t IH]; cbn; [done|]. intros [Ha Ht]%andb_true_iff.
  rewrite IH by done. apply negb_true_iff in Ha. by rewrite Ha.
Qed.

Lemma rsplit_once_app c h t :
  no_char c t = true -> rsplit_once c (h +:+ String c t) = Some (h, t).
Proof.
  intros Ht. induction h as [|a h IH].
  - change ("" +:+ String c t) with (String c t). cbn.
    rewrite rsplit_once_no_char by done. by rewrite Ascii.eqb_refl.
  - change (String a h +:+ String c t) with (String a (h +:+ String c t)). cbn.
    by rewrite IH.
Qed.

Lemma pretty_N_char_digit x : (x < 10)%N -> digit_val (pretty_N_char x) = Some (Z.of_N x).
Proof.
  intros Hx.
  assert (x = 0 \/ x = 1 \/ x = 2 \/ x = 3 \/ x = 4 \/ x = 5 \/ x = 6 \/ x = 7
          \/ x = 8 \/ x = 9)%N as Hc by lia.
  repeat (destruct Hc as [->|Hc]; [reflexivity|]). subst. reflexivity.
Qed.

Lemma pretty_N_char_no_char c x : digit_val c = None -> no_char c (String (pretty_N_char x) "") = true.
Proof.
  intros Hc. unfold pretty_N_char. cbn. rewrite andb_true_r.
  repeat case_match; apply negb_true_iff, Ascii.eqb_neq; intros <-; discriminate Hc.
Qed.

Lemma pretty_N_go_no_char c x s :
  digit_val c = None -> no_char c s = true -> no_char c (pretty_N_go x s) = true.
Proof.
  intros Hd. revert s. induction (N.lt_wf_0 x) as [x _ IH]; intros s Hs.
  assert (x = 0 \/ 0 < x)%N as [->|Hx] by lia; [by rewrite pretty_N_go_0|].
  rewrite pretty_N_go_step by done. apply IH; [by apply N.div_lt|].
  pose proof (pretty_N_char_no_char c (x mod 10) Hd) as Hc. cbn in *.
  rewrite andb_true_r in Hc. by rewrite Hc.
Qed.

Lemma parse_digits_go w x s :
  Z.of_N x <= umax w ->
  parse_digits w (pretty_N_go x s) 0 = parse_digits w s (Z.of_N x).
Proof.
  revert s. induction (N.lt_wf_0 x) as [x _ IH]; intros s Hx.
  assert (x = 0 \/ 0 < x)%N as [->|Hpos] by lia; [by rewrite pretty_N_go_0|].
  rewrite pretty_N_go_step by done.
  assert (x = 10 * (x / 10) + x mod 10 /\ x mod 10 < 10)%N as [Hdm Hm]
    by (split; [by apply N.div_mod|by apply N.mod_lt]).
  assert (Z.of_N x = 10 * Z.of_N (x / 10) + Z.of_N (x mod 10)) as HZ by lia.
  pose proof (N2Z.is_nonneg (x / 10)). pose proof (N2Z.is_nonneg (x mod 10)).
  rewrite IH; [|by apply N.div_lt|clear - HZ Hx H H0; generalize dependent (Z.of_N (x / 10));
    generalize dependent (Z.of_N (x mod 10)); lia].
  cbn [parse_digits]. rewrite pretty_N_char_digit by lia.
  replace (Z.of_N (x / 10) * 10 + Z.of_N (x mod 10)) with (Z.of_N x) by (rewrite HZ; ring).
  by destruct (Z.leb_spec (Z.of_N x) (umax w)); [|lia].
Qed.

Lemma pretty_N_go_head x a s :
  Ascii.eqb a "+" = false ->
  exists b s', pretty_N_go x (String a s) = String b s' /\ Ascii.eqb b "+" = false.
Proof.
  revert a s. induction (N.lt_wf_0 x) as [x _ IH]; intros a s Ha.
  assert (x = 0 \/ 0 < x)%N as [->|Hpos] by lia; [rewrite pretty_N_go_0; eauto|].
  rewrite pretty_N_go_step by done. apply IH; [by apply N.div_lt|].
  unfold pretty_N_char. by repeat case_match.
Qed.

(** Parsing the decimal rendering of an in-range number gives it back. *)
Lemma parse_uint_pretty w n : in_u w n -> parse_uint w (pretty n) = Some n.
Proof.
  intros [Hlo Hhi]. destruct n as [|p|p]; [|change (pretty (Z.pos p)) with (pretty (N.pos p))|lia].
  - change (parse_uint w (pretty 0)) with (if 0 <=? umax w then Some 0 else None).
    by destruct (Z.leb_spec 0 (umax w)); [|lia].
  - unfold pretty, pretty_N. case_decide as Hz; [done|].
    rewrite pretty_N_go_step by lia.
    destruct (pretty_N_go_head (N.pos p / 10) (pretty_N_char (N.pos p mod 10)) "")
      as (b & s' & Hs & Hb).
    { unfold pretty_N_char. by repeat case_match. }
    rewrite Hs. unfold parse_uint. rewrite Hb, <- Hs.
    rewrite <- pretty_N_go_step by lia. by rewrite parse_digits_go.
Qed.

Lemma pretty_no_char c n : digit_val c = None -> 0 <= n -> no_char c (pretty n) = true.
Proof.
  intros Hc Hn. assert (c <> "0"%char) as Hz by (by intros ->). destruct n as [|p|p]; [| |lia].
  - change (pretty 0) with "0"%string. unfold no_char. rewrite andb_true_r.
    apply negb_true_iff, Ascii.eqb_neq. congruence.
  - change (pretty (Z.pos p)) with (pretty (N.pos p)).
    unfold pretty, pretty_N. case_decide; [done|]. by apply pretty_N_go_no_char.
Qed.

Lemma pretty_z_no_char c (n : Z) : digit_val c = None -> Ascii.eqb "-" c = false -> no_char c (pretty n) = true.
Proof.
  intros Hd Hm. destruct (decide (0 <= n)) as [H|H]; [by apply pretty_no_char|].
  destruct n as [|q|q]; [lia|lia|]. change (pretty (Z.neg q)) with (String "-" (pretty (Z.pos q))). cbn [no_char]. rewrite Hm. cbn.
  apply (pretty_no_char c (Z.pos q)); [done|lia].
Qed.

Lemma pretty_no_colon n : 0 <= n -> no_char ":" (pretty n) = true.
Proof. by apply pretty_no_char. Qed.

Lemma rsplit_host_port h p :
  0 <= p -> rsplit_once ":" (host_port h p) = Some (h, pretty p).
Proof. intros Hp. apply rsplit_once_app, pretty_no_colon, Hp. Qed.

(** The composite key determines the endpoint it was made from. *)
Lemma host_port_inj h1 p1 h2 p2 :
  0 <= p1 -> 0 <= p2 -> host_port h1 p1 = host_port h2 p2 -> h1 = h2 /\ p1 = p2.
Proof.
  intros H1 H2 Heq. pose proof (rsplit_host_port h1 p1 H1) as E.
  rewrite Heq, rsplit_host_port in E by done. by simplify_eq.
Qed.

(** ** Lemmas: lists *)

Section MinBy.
Context {A : Type} (lt : A -> A -> bool).
Context (lt_asym : forall a b, lt a b = true -> lt b a = false).
Context (ge_trans : forall a b c, lt b a = false -> lt c b = false -> lt c a = false).

Lemma min_by_in x l : min_by lt x l = x \/ min_by lt x l ∈ l.
Proof.
  revert x. induction l as [|y l IH]; intros x; cbn; [by left|].
  destruct (IH (if lt y x then y else x)) as [->|Hin]; [|right; by constructor].
  destruct (lt y x); [right; constructor|by left].
Qed.

Lemma min_by_le_head x l : lt x (min_by lt x l) = false.
Proof.
  clear - lt_asym ge_trans. revert x. induction l as [|y l IH]; intros x; cbn.
  - destruct (lt x x) eqn:E; [|done]. by rewrite (lt_asym _ _ E) in E.
  - destruct (lt y x) eqn:E; [|done]. eapply ge_trans; [apply IH|by apply lt_asym].
Qed.

(** No element of the list lies strictly below the selected one. *)
Lemma min_by_least x l y : y ∈ x :: l -> lt y (min_by lt x l) = false.
Proof.
  revert x. induction l as [|z l IH]; intros x Hy.
  - apply list_elem_of_singleton in Hy as ->. apply (min_by_le_head x []).
  - apply elem_of_cons in Hy as [->|Hy]; [apply (min_by_le_head x (z :: l))|].
    cbn. apply elem_of_cons in Hy as [->|Hy].
    + destruct (lt z x) eqn:E; [apply min_by_le_head|].
      eapply ge_trans; [apply min_by_le_head|done].
    + apply IH. by constructor.
Qed.
End MinBy.

Lemma opt_ltb_asym a b : opt_ltb a b = true -> opt_ltb b a = false.
Proof. destruct a, b; cbn; intros; bool_prop; try done. apply Z.ltb_ge. lia. Qed.

Lemma opt_ltb_ge_trans a b c :
  opt_ltb b a = false -> opt_ltb c b = false -> opt_ltb c a = false.
Proof. destruct a, b, c; cbn; intros; bool_prop; try done. apply Z.ltb_ge. lia. Qed.

Lemma find_some_elem {A} (f : A -> bool) l x : List.find f l = Some x -> x ∈ l /\ f x = true.
Proof. intros [Hin Hf]%find_some. split; [by apply list_elem_of_In|done]. Qed.

Lemma find_none_elem {A} (f : A -> bool) l x : List.find f l = None -> x ∈ l -> f x = false.
Proof. intros Hf Hx%list_elem_of_In. by eapply find_none. Qed.

Lemma find_is_some {A} (f : A -> bool) l x :
  x ∈ l -> f x = true -> exists y, List.find f l = Some y.
Proof.
  intros Hx Hf. destruct (List.find f l) eqn:E; [eauto|].
  by rewrite (find_none_elem _ _ _ E Hx) in Hf.
Qed.

Lemma elem_of_filter_bool {A} (f : A -> bool) l x :
  x ∈ List.filter f l <-> x ∈ l /\ f x = true.
Proof. by rewrite !list_elem_of_In, filter_In. Qed.

(** ** Weighted selection

    The loop both weighted selectors run over the candidates: accumulate the
    weights and stop at the first candidate whose running total passes [roll]. *)
Fixpoint weighted_walk {A} (w : A -> Z) (roll acc : Z) (l : list A) : option A :=
  match l with
  | [] => None
  | e :: l' => if roll <? acc + w e then Some e else weighted_walk w roll (acc + w e) l'
  end.

Section WeightedWalk.
Context {A : Type} (w : A -> Z) (Hw : forall x, 1 <= w x).

Lemma sum_by_nonneg l : 0 <= sum_by w l.
Proof. induction l as [|x l IH]; cbn; [lia|]. pose proof (Hw x). unfold sum_by in IH. lia. Qed.

Lemma sum_by_pos l : l <> [] -> 1 <= sum_by w l.
Proof.
  destruct l as [|x l]; [done|]. intros _. cbn. pose proof (Hw x).
  pose proof (sum_by_nonneg l). unfold sum_by in *. lia.
Qed.

(** The candidate at position [length l1] owns the rolls from the sum of the
    weights before it up to that sum plus its own weight. *)
Lemma weighted_walk_interval l1 e l2 acc roll :
  acc + sum_by w l1 <= roll < acc + sum_by w l1 + w e ->
  weighted_walk w roll acc (l1 ++ e :: l2) = Some e.
Proof.
  revert acc. induction l1 as [|x l1 IH]; intros acc; cbn.
  - intros H. by destruct (Z.ltb_spec roll (acc + w e)); [|lia].
  - intros H. pose proof (sum_by_nonneg l1).
    change (foldr _ 0 l1) with (sum_by w l1) in H.
    destruct (Z.ltb_spec roll (acc + w x)); [lia|]. apply IH. lia.
Qed.

Lemma weighted_walk_in l roll acc e : weighted_walk w roll acc l = Some e -> e ∈ l.
Proof.
  revert acc. induction l as [|x l IH]; intros acc; cbn; [done|].
  destruct (_ <? _); [intros [= ->]; constructor|]. intros H. constructor. eauto.
Qed.

Lemma weighted_walk_total l roll acc :
  acc <= roll < acc + sum_by w l -> exists e, weighted_walk w roll acc l = Some e.
Proof.
  revert acc. induction l as [|x l IH]; intros acc; unfold sum_by; cbn; intros H; [lia|].
  destruct (Z.ltb_spec roll (acc + w x)); [eauto|]. apply IH. unfold sum_by. lia.
Qed.
End WeightedWalk.

(** ** Lemmas: loops that push *)

Lemma elem_of_collect {A B} (f : A -> list B) l y : y ∈ collect f l <-> exists x, x ∈ l /\ y ∈ f x.
Proof. unfold collect. rewrite list_elem_of_bind. naive_solver. Qed.

Lemma collect_nil {A B} (f : A -> list B) l : collect f l = [] <-> forall x, x ∈ l -> f x = [].
Proof.
  unfold collect. induction l as [|x l IH]; cbn; [split; [intros _ y Hy; by apply elem_of_nil in Hy|done]|].
  rewrite app_nil, IH. set_solver.
Qed.

Lemma find_name {A} (name : A -> string) n l x :
  find (fun a => String.eqb (name a) n) l = Some x -> x ∈ l /\ name x = n.
Proof. intros H. apply find_some in H as [Hin Hn]. bool_prop. split; [by apply list_elem_of_In|done]. Qed.

Lemma find_name_none {A} (name : A -> string) n l :
  find (fun a => String.eqb (name a) n) l = None <-> n ∉ name <$> l.
Proof.
  split.
  - intros H Hn. apply list_elem_of_fmap in Hn as (x & -> & Hx).
    eapply find_none in H; [|by apply list_elem_of_In]. by rewrite String.eqb_refl in H.
  - intros Hn. destruct (find _ l) as [x|] eqn:E; [|done]. apply find_name in E as [Hx <-].
    exfalso. apply Hn. by apply list_elem_of_fmap_2.
Qed.

Lemma find_name_nodup {A} (name : A -> string) l x :
  NoDup (name <$> l) -> x ∈ l -> find (fun a => String.eqb (name a) (name x)) l = Some x.
Proof.
  intros Hnd Hx. destruct (find _ l) as [y|] eqn:E.
  - apply find_name in E as [Hy Hn]. f_equal. symmetry. clear -Hnd Hx Hy Hn.
    induction l as [|z l IH]; [by apply elem_of_nil in Hx|]. cbn in Hnd. apply NoDup_cons in Hnd as [Hz Hnd].
    apply elem_of_cons in Hx as [->|Hx], Hy as [->|Hy]; try done; [| |by apply IH].
    + exfalso. apply Hz. rewrite <- Hn. by apply list_elem_of_fmap_2.
    + exfalso. apply Hz. rewrite Hn. by apply list_elem_of_fmap_2.
  - exfalso. apply find_name_none in E. apply E. by apply list_elem_of_fmap_2.
Qed.

Lemma existsb_name {A} (name : A -> string) n l :
  existsb (fun a => String.eqb (name a) n) l = true <-> n ∈ name <$> l.
Proof.
  rewrite existsb_exists. split.
  - intros (x & Hx & E). bool_prop. subst n. by apply list_elem_of_fmap_2, list_elem_of_In.
  - intros H. apply list_elem_of_fmap in H as (x & -> & Hx). exists x.
    split; [by apply list_elem_of_In|apply String.eqb_refl].
Qed.

Lemma filter_keep {A} (P : A -> Prop) `{!forall x, Decision (P x)} (l : list A) : (forall x, x ∈ l -> P x) -> filter P l = l.
Proof.
  induction l as [|x l IH]; intros Hl; [done|]. rewrite filter_cons_True by (apply Hl; set_solver).
  f_equal. apply IH. set_solver.
Qed.

Lemma filter_drop {A} (P : A -> Prop) `{!forall x, Decision (P x)} (l : list A) : (forall x, x ∈ l -> ~ P x) -> filter P l = [].
Proof.
  induction l as [|x l IH]; intros Hl; [done|]. rewrite filter_cons_False by (apply Hl; set_solver).
  apply IH. set_solver.
Qed.
