(* ===== verification/Bytes.v ===== *)
(** * Bytes

    Byte strings, big-endian numbers and UTF-8, as the codecs of the SNMP agent
    and of the SSH3 backend share them.  A byte is a [Z] in [0, 256). *)

From S2P Require Import Prelude.

Definition byte_ok (b : Z) : Prop := 0 <= b < 256.

(** [to_be_bytes], for [k] bytes. *)
Fixpoint to_be_bytes (k : nat) (v : Z) : list Z :=
  match k with
  | O => []
  | S k' => (v / 256 ^ Z.of_nat k') mod 256 :: to_be_bytes k' v
  end.

Lemma land_low a b k : 0 <= k -> 0 <= b < 2 ^ k -> Z.land (a * 2 ^ k) b = 0.
Proof.
  intros Hk Hb. apply Z.bits_inj'. intros n Hn. rewrite Z.land_spec, Z.bits_0, <- Z.shiftl_mul_pow2 by lia.
  destruct (Z.lt_ge_cases n k) as [Hlt|Hge].
  - by rewrite Z.shiftl_spec_low.
  - apply andb_false_iff. right.
    rewrite <- (Z.mod_small b (2 ^ k)) by lia. by apply Z.mod_pow2_bits_high.
Qed.

Lemma lor_low a b k : 0 <= k -> 0 <= b < 2 ^ k -> Z.lor (a * 2 ^ k) b = a * 2 ^ k + b.
Proof.
  intros Hk Hb. pose proof (land_low a b k Hk Hb) as Hl.
  rewrite <- Z.lxor_lor by done. symmetry. by apply Z.add_nocarry_lxor.
Qed.

Lemma byte_high b : byte_ok b -> (Z.land b 0x80 =? 0) = (b <? 128).
Proof.
  intros Hb. assert (forallb (fun x => Bool.eqb (Z.land x 0x80 =? 0) (x <? 128)) (zrange 256) = true) as Hall
    by (vm_compute; reflexivity).
  apply Bool.eqb_prop. eapply forallb_forall in Hall; [exact Hall|].
  apply list_elem_of_In. unfold zrange. apply list_elem_of_fmap. exists (Z.to_nat b). unfold byte_ok in Hb.
  split; [lia|]. apply elem_of_seq. lia.
Qed.

Lemma land_ff v : Z.land v 0xFF = v mod 256.
Proof. change 0xFF with (Z.ones 8). by rewrite Z.land_ones by lia. Qed.

Lemma land_7f v : Z.land v 0x7F = v mod 128.
Proof. change 0x7F with (Z.ones 7). by rewrite Z.land_ones by lia. Qed.

Lemma sign_wrap_congr x y : x mod 2 ^ 64 = y mod 2 ^ 64 -> sign_wrap 64 x = sign_wrap 64 y.
Proof. unfold sign_wrap. by intros ->. Qed.

Lemma sign_wrap_mod x : sign_wrap 64 x mod 2 ^ 64 = x mod 2 ^ 64.
Proof.
  unfold sign_wrap. destruct (_ <? _); [by apply Z.mod_mod|].
  replace (x mod 2 ^ 64 - 2 ^ 64) with (x mod 2 ^ 64 + (-1) * 2 ^ 64) by lia.
  rewrite Z.mod_add by lia. by apply Z.mod_mod.
Qed.

Lemma sign_wrap_id x : - 2 ^ 63 <= x < 2 ^ 63 -> sign_wrap 64 x = x.
Proof.
  intros Hx. unfold sign_wrap. change (64 - 1) with 63.
  destruct (Z.lt_ge_cases x 0).
  - assert (x mod 2 ^ 64 = x + 2 ^ 64) as ->.
    { symmetry. apply Z.mod_unique with (q := -1); lia. }
    destruct (Z.ltb_spec (x + 2 ^ 64) (2 ^ 63)); lia.
  - rewrite Z.mod_small by lia. destruct (Z.ltb_spec x (2 ^ 63)); lia.
Qed.

(** One byte more, as numbers. *)
Definition addb (acc b : Z) : Z := acc * 256 + b.

Lemma to_be_bytes_ok k v : Forall byte_ok (to_be_bytes k v).
Proof. induction k as [|k IH]; cbn; constructor; [|done]. apply Z.mod_pos_bound. lia. Qed.

Lemma to_be_bytes_length k v : length (to_be_bytes k v) = k.
Proof. induction k as [|k IH]; cbn; congruence. Qed.

(** Reading back the big-endian bytes. *)
Lemma to_be_bytes_value k v a : foldl addb a (to_be_bytes k v) = a * 256 ^ Z.of_nat k + v mod 256 ^ Z.of_nat k.
Proof.
  revert a. induction k as [|k IH]; intros a; cbn [to_be_bytes foldl].
  - change (256 ^ Z.of_nat 0) with 1. rewrite Z.mod_1_r. lia.
  - rewrite IH, Nat2Z.inj_succ, Z.pow_succ_r by lia. unfold addb.
    rewrite (Z.mul_comm 256), (Z.rem_mul_r v) by lia. lia.
Qed.

Lemma foldl_addb_bound l a :
  Forall byte_ok l -> 0 <= a -> 0 <= foldl addb a l < (a + 1) * 256 ^ Z.of_nat (length l).
Proof.
  intros Hl. revert a. induction Hl as [|b l Hb Hl IH]; intros a Ha.
  - change (256 ^ Z.of_nat (length (@nil Z))) with 1. cbn. lia.
  - cbn [foldl length]. rewrite Nat2Z.inj_succ, Z.pow_succ_r by lia. unfold byte_ok in Hb.
    assert (0 <= addb a b < (a + 1) * 256) as Hab by (unfold addb; lia).
    specialize (IH (addb a b) ltac:(lia)). pose proof (Z.pow_pos_nonneg 256 (Z.of_nat (length l)) ltac:(lia) ltac:(lia)).
    nia.
Qed.

Lemma foldl_addb_lower l a :
  Forall byte_ok l -> 0 <= a -> a * 256 ^ Z.of_nat (length l) <= foldl addb a l.
Proof.
  intros Hl. revert a. induction Hl as [|b l Hb Hl IH]; intros a Ha.
  - change (256 ^ Z.of_nat (length (@nil Z))) with 1. cbn. lia.
  - cbn [foldl length]. rewrite Nat2Z.inj_succ, Z.pow_succ_r by lia. unfold byte_ok in Hb.
    specialize (IH (addb a b) ltac:(unfold addb; lia)). unfold addb in *.
    pose proof (Z.pow_pos_nonneg 256 (Z.of_nat (length l)) ltac:(lia) ltac:(lia)). nia.
Qed.

(** ** UTF-8

    A Rust [String] is its bytes, which are UTF-8; [std::str::from_utf8] checks
    them: no overlong forms, no surrogates, nothing above U+10FFFF. *)

Definition between (lo hi b : Z) : bool := (lo <=? b) && (b <=? hi).

Definition continuation (b : Z) : bool := between 0x80 0xBF b.

Fixpoint utf8_valid (l : list Z) : bool :=
  match l with
  | [] => true
  | b0 :: r0 =>
      if between 0 0x7F b0 then utf8_valid r0
      else
        match r0 with
        | [] => false
        | b1 :: r1 =>
            if between 0xC2 0xDF b0 then continuation b1 && utf8_valid r1
            else
              match r1 with
              | [] => false
              | b2 :: r2 =>
                  if between 0xE0 0xEF b0 then
                    between (if b0 =? 0xE0 then 0xA0 else 0x80) (if b0 =? 0xED then 0x9F else 0xBF) b1
                    && continuation b2 && utf8_valid r2
                  else
                    match r2 with
                    | [] => false
                    | b3 :: r3 =>
                        between 0xF0 0xF4 b0
                        && between (if b0 =? 0xF0 then 0x90 else 0x80) (if b0 =? 0xF4 then 0x8F else 0xBF) b1
                        && continuation b2 && continuation b3 && utf8_valid r3
                    end
              end
        end
  end.

Definition from_utf8 (l : list Z) : option (list Z) := if utf8_valid l then Some l else None.

(** The bytes of a [String]. *)
Definition string_ok (l : list Z) : Prop := Forall byte_ok l /\ utf8_valid l = true.

(** [uN::from_be_bytes]. *)
Definition from_be_bytes (l : list Z) : Z := foldl addb 0 l.

Lemma from_to_be_bytes k v : 0 <= v < 256 ^ Z.of_nat k -> from_be_bytes (to_be_bytes k v) = v.
Proof. intros Hv. unfold from_be_bytes. rewrite to_be_bytes_value, Z.mod_small; lia. Qed.

Lemma to_be_bytes_congr k x y :
  x mod 256 ^ Z.of_nat k = y mod 256 ^ Z.of_nat k -> to_be_bytes k x = to_be_bytes k y.
Proof.
  revert x y. induction k as [|k IH]; intros x y E; [done|]. cbn [to_be_bytes].
  rewrite Nat2Z.inj_succ, Z.pow_succ_r in E by lia.
  pose proof (Z.pow_pos_nonneg 256 (Z.of_nat k) ltac:(lia) ltac:(lia)) as Hp.
  rewrite (Z.mul_comm 256), !Z.rem_mul_r in E by lia.
  pose proof (Z.mod_pos_bound x (256 ^ Z.of_nat k) Hp). pose proof (Z.mod_pos_bound y (256 ^ Z.of_nat k) Hp).
  pose proof (Z.mod_pos_bound (x / 256 ^ Z.of_nat k) 256 ltac:(lia)). pose proof (Z.mod_pos_bound (y / 256 ^ Z.of_nat k) 256 ltac:(lia)).
  assert ((x / 256 ^ Z.of_nat k) mod 256 = (y / 256 ^ Z.of_nat k) mod 256) as E1 by nia.
  f_equal; [done|]. apply IH. nia.
Qed.

(** Big-endian bytes are determined by their number. *)
Lemma be_bytes_from k l : Forall byte_ok l -> length l = k -> to_be_bytes k (from_be_bytes l) = l.
Proof.
  intros Hl. revert l Hl. induction k as [|k IH]; intros l Hl Hk; [by destruct l|].
  destruct l as [|b l]; [done|]. apply Forall_cons in Hl as [Hb Hl]. injection Hk as Hk.
  unfold from_be_bytes in *. cbn [foldl to_be_bytes]. change (addb 0 b) with (0 * 256 + b). rewrite Z.add_0_l.
  pose proof (foldl_addb_bound l 0 Hl ltac:(lia)) as Hr. rewrite Hk in Hr.
  assert (foldl addb b l = b * 256 ^ Z.of_nat k + foldl addb 0 l) as E.
  { clear -Hk. revert k b Hk. induction l as [|x l IHl] using rev_ind; intros k b Hk.
    - cbn in Hk. subst k. cbn. lia.
    - rewrite length_app in Hk. cbn in Hk. destruct k as [|k]; [lia|]. rewrite !foldl_snoc, (IHl k b) by lia.
      unfold addb. rewrite Nat2Z.inj_succ, Z.pow_succ_r by lia. lia. }
  unfold byte_ok in Hb. rewrite E. f_equal.
  - rewrite Z.div_add_l, Z.div_small, Z.add_0_r by lia. by apply Z.mod_small.
  - rewrite <- (IH l Hl Hk) at 2. apply to_be_bytes_congr.
    rewrite Z.add_comm, Z.mod_add by lia. done.
Qed.

Lemma ascii_string_ok n b : 0 <= b < 128 -> string_ok (replicate n b).
Proof.
  intros Hb. split; [apply Forall_replicate; unfold byte_ok; lia|]. induction n as [|n IH]; [done|].
  cbn [replicate utf8_valid]. unfold between. by rewrite (proj2 (Z.leb_le 0 b)), (proj2 (Z.leb_le b 127)) by lia.
Qed.
