(* ===== verification/Text.v ===== *)
(** * Text

    The operations of [str] that the parsers of the repository use.  A string
    is the sequence of its UTF-8 bytes.  A character with the Unicode property
    White_Space is recognised by its encoding, which no other position of valid
    UTF-8 matches, so trimming and splitting on bytes is what the library does
    on characters. *)

From S2P Require Import Prelude Bytes.

(** ** Whitespace *)

Definition code (a : ascii) : Z := Z.of_nat (nat_of_ascii a).

(** Whitespace of one byte. *)
Definition ascii_ws (a : ascii) : bool := ((9 <=? code a) && (code a <=? 13)) || (code a =? 32).

(** What follows the whitespace character the string begins with. *)
Definition strip_ws (s : string) : option string :=
  match s with
  | EmptyString => None
  | String a s1 =>
      if ascii_ws a then Some s1
      else
        match s1 with
        | EmptyString => None
        | String b s2 =>
            if (code a =? 0xC2) && ((code b =? 0x85) || (code b =? 0xA0)) then Some s2
            else
              match s2 with
              | EmptyString => None
              | String c s3 =>
                  if ((code a =? 0xE1) && (code b =? 0x9A) && (code c =? 0x80))
                     || ((code a =? 0xE2) && (code b =? 0x80)
                         && (((0x80 <=? code c) && (code c <=? 0x8A)) || (code c =? 0xA8) || (code c =? 0xA9) || (code c =? 0xAF)))
                     || ((code a =? 0xE2) && (code b =? 0x81) && (code c =? 0x9F))
                     || ((code a =? 0xE3) && (code b =? 0x80) && (code c =? 0x80))
                  then Some s3 else None
              end
        end
  end.

(** [str::trim_start]; one round per byte is enough. *)
Fixpoint trim_start_fuel (fuel : nat) (s : string) : string :=
  match fuel with
  | O => s
  | S fuel' => match strip_ws s with Some s' => trim_start_fuel fuel' s' | None => s end
  end.

Definition trim_start (s : string) : string := trim_start_fuel (String.length s) s.

Definition is_blank (s : string) : bool := (trim_start s =? "")%string.

(** [str::trim_end]: what is left before a blank rest. *)
Fixpoint trim_end (s : string) : string :=
  if is_blank s then ""%string
  else match s with EmptyString => ""%string | String a s' => String a (trim_end s') end.

Definition trim (s : string) : string := trim_end (trim_start s).

(** [str::splitn(2, char::is_whitespace)]: the first part and the rest, if any. *)
Fixpoint split_ws (s : string) : string * option string :=
  match strip_ws s with
  | Some r => (""%string, Some r)
  | None =>
      match s with
      | EmptyString => (""%string, None)
      | String a s' => let '(h, r) := split_ws s' in (String a h, r)
      end
  end.

(** ** Characters *)

(** [str::contains(char)]. *)
Definition contains_char (c : ascii) (s : string) : bool := negb (no_char c s).

(** [str::trim_start_matches(char)], [trim_end_matches] and [trim_matches]. *)
Fixpoint trim_start_matches (c : ascii) (s : string) : string :=
  match s with
  | String a s' => if Ascii.eqb a c then trim_start_matches c s' else s
  | EmptyString => s
  end.

Fixpoint trim_end_matches (c : ascii) (s : string) : string :=
  match s with
  | EmptyString => EmptyString
  | String a s' =>
      match trim_end_matches c s' with
      | EmptyString => if Ascii.eqb a c then EmptyString else String a EmptyString
      | r => String a r
      end
  end.

Definition trim_matches (c : ascii) (s : string) : string := trim_end_matches c (trim_start_matches c s).

(** [str::split(char)]. *)
Fixpoint split_on (c : ascii) (s : string) : list string :=
  match s with
  | EmptyString => [EmptyString]
  | String a s' =>
      match split_on c s' with
      | [] => []
      | h :: t => if Ascii.eqb a c then EmptyString :: h :: t else String a h :: t
      end
  end.

(** [str::split_once(char)]. *)
Fixpoint split_once (c : ascii) (s : string) : option (string * string) :=
  match s with
  | EmptyString => None
  | String a s' =>
      if Ascii.eqb a c then Some (EmptyString, s')
      else match split_once c s' with Some (h, t) => Some (String a h, t) | None => None end
  end.

(** [str::strip_prefix]. *)
Fixpoint strip_prefix (p s : string) : option string :=
  match p, s with
  | EmptyString, _ => Some s
  | String a p', String b s' => if Ascii.eqb a b then strip_prefix p' s' else None
  | String _ _, EmptyString => None
  end.

Definition starts_with (p s : string) : bool := bool_decide (is_Some (strip_prefix p s)).

(** [str::strip_suffix]. *)
Fixpoint strip_suffix (suf s : string) : option string :=
  if (s =? suf)%string then Some ""%string
  else match s with EmptyString => None | String a r => String a <$> strip_suffix suf r end.

(** [str::ends_with(char)]. *)
Fixpoint ends_with (c : ascii) (s : string) : bool :=
  match s with
  | EmptyString => false
  | String a EmptyString => Ascii.eqb a c
  | String _ s' => ends_with c s'
  end.

(** ** Lines *)

Definition newline : ascii := "010"%char.
Definition quote : ascii := "034"%char.
Definition carriage : ascii := "013"%char.

(** One trailing carriage return. *)
Fixpoint strip_cr (s : string) : string :=
  match s with
  | EmptyString => EmptyString
  | String a EmptyString => if Ascii.eqb a carriage then EmptyString else s
  | String a s' => String a (strip_cr s')
  end.

(** The pieces between newlines: all but the last were ended by one. *)
Fixpoint lines_of (pieces : list string) : list string :=
  match pieces with
  | [] => []
  | [p] => if (p =? "")%string then [] else [p]
  | p :: r => strip_cr p :: lines_of r
  end.

(** [str::lines]. *)
Definition lines (s : string) : list string := lines_of (split_on newline s).

(** ** Case *)

(** [u8::to_ascii_lowercase]. *)
Definition lower (a : ascii) : ascii :=
  if (65 <=? code a) && (code a <=? 90) then ascii_of_nat (nat_of_ascii a + 32) else a.

Fixpoint to_ascii_lowercase (s : string) : string :=
  match s with
  | EmptyString => EmptyString
  | String a s' => String (lower a) (to_ascii_lowercase s')
  end.

Definition eq_ignore_ascii_case (a b : ascii) : bool := Ascii.eqb (lower a) (lower b).

(** ** Lemmas *)

Lemma str_cons_app a s t : (String a s +:+ t = String a (s +:+ t))%string.
Proof. done. Qed.

Lemma str_nil_app t : ("" +:+ t = t)%string.
Proof. done. Qed.

Lemma str_app_nil s : (s +:+ "" = s)%string.
Proof. induction s as [|a s IH]; [done|]. by rewrite str_cons_app, IH. Qed.

Lemma str_app_assoc s t u : ((s +:+ t) +:+ u = s +:+ (t +:+ u))%string.
Proof. induction s as [|a s IH]; [done|]. by rewrite !str_cons_app, IH. Qed.

Lemma strip_prefix_app p s : strip_prefix p (p +:+ s) = Some s.
Proof. induction p as [|a p IH]; [done|]. rewrite str_cons_app. cbn. by rewrite Ascii.eqb_refl. Qed.

Lemma strip_prefix_spec p s r : strip_prefix p s = Some r <-> s = (p +:+ r)%string.
Proof.
  split; [|intros ->; apply strip_prefix_app].
  revert s. induction p as [|a p IH]; intros s; cbn; [by intros [= ->]|].
  destruct s as [|b s]; [done|]. destruct (Ascii.eqb_spec a b) as [->|]; [|done].
  intros H. by rewrite str_cons_app, <- (IH _ H).
Qed.

Lemma no_char_app c s t : no_char c (s +:+ t) = no_char c s && no_char c t.
Proof. induction s as [|a s IH]; [done|]. rewrite str_cons_app. cbn. by rewrite IH, andb_assoc. Qed.

Lemma split_on_nonempty c s : split_on c s <> [].
Proof. induction s as [|a s IH]; cbn; [done|]. destruct (split_on c s); [done|]. by destruct (Ascii.eqb a c). Qed.

Lemma split_on_app c h t : no_char c h = true -> split_on c (h +:+ String c t) = h :: split_on c t.
Proof.
  induction h as [|a h IH]; intros Hh.
  - rewrite str_nil_app. cbn. rewrite Ascii.eqb_refl.
    pose proof (split_on_nonempty c t). by destruct (split_on c t).
  - cbn in Hh. apply andb_true_iff in Hh as [Ha%negb_true_iff Hh].
    rewrite str_cons_app. cbn. by rewrite (IH Hh), Ha.
Qed.

Lemma split_on_no_char c h : no_char c h = true -> split_on c h = [h].
Proof.
  induction h as [|a h IH]; [done|]. cbn. intros [Ha%negb_true_iff Hh]%andb_true_iff. by rewrite (IH Hh), Ha.
Qed.

(** A piece of a split holds no separator, and any other missing character is
    missing from the pieces. *)
Lemma split_on_pieces c s : Forall (fun p => no_char c p = true) (split_on c s).
Proof.
  induction s as [|a s IH]; cbn; [by repeat constructor|].
  destruct (split_on c s) as [|h t]; [done|]. inversion IH as [|? ? Hh Ht]; subst.
  destruct (Ascii.eqb a c) eqn:E; repeat constructor; try done. cbn. by rewrite E, Hh.
Qed.

Lemma split_on_keeps c d s : no_char d s = true -> Forall (fun p => no_char d p = true) (split_on c s).
Proof.
  induction s as [|a s IH]; cbn; [by repeat constructor|]. intros [Ha Hs]%andb_true_iff.
  specialize (IH Hs). destruct (split_on c s) as [|h t]; [done|]. inversion IH as [|? ? Hh Ht]; subst.
  destruct (Ascii.eqb a c) eqn:E; repeat constructor; try done. cbn. by rewrite Ha, Hh.
Qed.

(** ** Lemmas: whitespace *)

Lemma strip_ws_shorter s r : strip_ws s = Some r -> (String.length r < String.length s)%nat.
Proof.
  destruct s as [|a [|b [|c s]]]; cbn; repeat case_match; intros [= <-]; cbn; lia.
Qed.

Lemma trim_start_enough n m s :
  (String.length s <= n)%nat -> (String.length s <= m)%nat -> trim_start_fuel n s = trim_start_fuel m s.
Proof.
  revert m s. induction n as [|n IH]; intros m s Hn Hm.
  - destruct s; cbn in Hn; [|lia]. by destruct m.
  - destruct m as [|m]; [destruct s; cbn in Hm; [done|lia]|]. cbn.
    destruct (strip_ws s) as [r|] eqn:E; [|done]. apply strip_ws_shorter in E. apply IH; lia.
Qed.

Lemma trim_start_step s :
  trim_start s = match strip_ws s with Some r => trim_start r | None => s end.
Proof.
  unfold trim_start at 1. destruct (strip_ws s) as [r|] eqn:E.
  - destruct s as [|a s]; [done|]. cbn [String.length trim_start_fuel]. rewrite E.
    apply strip_ws_shorter in E. cbn in E. apply trim_start_enough; lia.
  - destruct (String.length s); cbn; by rewrite ?E.
Qed.

(** A one-byte whitespace character never completes a longer one. *)
Lemma strip_ws_app w q t :
  ascii_ws w = true -> q <> ""%string ->
  strip_ws (q +:+ String w t) = (fun r => r +:+ String w t)%string <$> strip_ws q.
Proof.
  intros Hw Hq. assert (code w < 0x80) as Hc by (unfold ascii_ws in Hw; lia).
  assert (0 <= code w) by (unfold code; lia).
  destruct q as [|a [|b [|c q]]]; [done| | |]; rewrite ?str_cons_app, ?str_nil_app; cbn [strip_ws].
  - destruct (ascii_ws a); [done|]. cbn [fmap option_fmap option_map].
    destruct (_ && (_ || _)) eqn:E; [lia|]. destruct t as [|t0 t]; [done|].
    match goal with |- (if ?c then _ else _) = _ => destruct c eqn:E2 end; [lia|done].
  - destruct (ascii_ws a); [done|]. destruct (_ && (_ || _)); [done|].
    match goal with |- (if ?c then _ else _) = _ => destruct c eqn:E2 end; [lia|done].
  - destruct (ascii_ws a); [done|]. destruct (_ && (_ || _)); [done|].
    by match goal with |- (if ?c then _ else _) = _ => destruct c end.
Qed.

(** No whitespace anywhere. *)
Fixpoint ws_free (s : string) : bool :=
  match strip_ws s with
  | Some _ => false
  | None => match s with EmptyString => true | String _ s' => ws_free s' end
  end.

Lemma ws_free_cons a s : ws_free (String a s) = true -> strip_ws (String a s) = None /\ ws_free s = true.
Proof. cbn [ws_free]. by destruct (strip_ws _). Qed.

Lemma ws_free_head s : ws_free s = true -> strip_ws s = None.
Proof. destruct s as [|a s]; [done|]. by intros [? _]%ws_free_cons. Qed.

Lemma split_ws_app h w t :
  ws_free h = true -> ascii_ws w = true -> split_ws (h +:+ String w t) = (h, Some t).
Proof.
  intros Hh Hw. induction h as [|a h IH].
  - rewrite str_nil_app. cbn [split_ws strip_ws]. by rewrite Hw.
  - apply ws_free_cons in Hh as [Ha Hh].
    pose proof (strip_ws_app w (String a h) t Hw ltac:(done)) as E. rewrite Ha in E.
    rewrite str_cons_app in *. cbn [split_ws]. rewrite E. cbn [fmap option_fmap option_map]. by rewrite (IH Hh).
Qed.

Lemma trim_start_free s : strip_ws s = None -> trim_start s = s.
Proof. intros H. by rewrite trim_start_step, H. Qed.

Lemma trim_start_app w q t :
  ascii_ws w = true ->
  trim_start (q +:+ String w t) = if is_blank q then trim_start t else (trim_start q +:+ String w t)%string.
Proof.
  intros Hw. unfold is_blank. remember (String.length q) as n eqn:En. assert (String.length q <= n)%nat as Hn by lia. clear En.
  revert q Hn. induction n as [|n IH]; intros q Hn.
  - destruct q; cbn in Hn; [|lia]. rewrite str_nil_app.
    rewrite trim_start_step. cbn [strip_ws]. by rewrite Hw.
  - destruct (decide (q = ""%string)) as [->|Hq]; [apply (IH ""%string); cbn; lia|].
    rewrite (trim_start_step (q +:+ String w t)), strip_ws_app by done. rewrite (trim_start_step q).
    destruct (strip_ws q) as [r|] eqn:E; cbn [fmap option_fmap option_map].
    + apply strip_ws_shorter in E. apply IH. lia.
    + by rewrite (proj2 (String.eqb_neq _ _) Hq).
Qed.

Lemma is_blank_app_ws q w : ascii_ws w = true -> is_blank (q +:+ String w "") = is_blank q.
Proof.
  intros Hw. unfold is_blank at 1. rewrite trim_start_app by done. destruct (is_blank q) eqn:E; [done|].
  apply String.eqb_neq. by destruct (trim_start q).
Qed.

Lemma trim_end_app_ws q w : ascii_ws w = true -> trim_end (q +:+ String w "") = trim_end q.
Proof.
  intros Hw. induction q as [|a q IH].
  - rewrite str_nil_app. cbn [trim_end]. replace (is_blank _) with true; [done|].
    symmetry. apply (is_blank_app_ws ""%string w Hw).
  - pose proof (is_blank_app_ws (String a q) w Hw) as E. rewrite str_cons_app in *. cbn [trim_end]. rewrite E, IH. done.
Qed.

Lemma trim_app_ws q w : ascii_ws w = true -> trim (q +:+ String w "") = trim q.
Proof.
  intros Hw. unfold trim. rewrite trim_start_app by done. destruct (is_blank q) eqn:E.
  - unfold is_blank in E. apply String.eqb_eq in E. by rewrite E.
  - by apply trim_end_app_ws.
Qed.

(** Trimming makes a carriage return irrelevant. *)
Lemma trim_strip_cr s : trim (strip_cr s) = trim s.
Proof.
  assert (strip_cr s = s \/ s = (strip_cr s +:+ String carriage "")%string) as [E|E].
  - induction s as [|a [|b s] IH]; [by left| |].
    + cbn. destruct (Ascii.eqb_spec a carriage) as [->|]; [by right|by left].
    + cbn [strip_cr] in *. destruct IH as [IH|IH]; [left|right].
      * f_equal. exact IH.
      * rewrite str_cons_app. f_equal. exact IH.
  - by rewrite E.
  - rewrite E at 2. symmetry. by apply trim_app_ws.
Qed.

Lemma trim_end_free s : ws_free s = true -> trim_end s = s.
Proof.
  induction s as [|a s IH]; [done|]. intros Hs. pose proof (ws_free_head _ Hs) as Hh.
  apply ws_free_cons in Hs as [_ Hs]. cbn [trim_end]. unfold is_blank. rewrite trim_start_free by done.
  by rewrite (IH Hs).
Qed.

Lemma trim_free s : ws_free s = true -> trim s = s.
Proof.
  intros Hs. unfold trim. rewrite trim_start_free by by apply ws_free_head. by apply trim_end_free.
Qed.

(** ** Lemmas: lines *)

Lemma split_on_join c s t :
  exists init x y rest, split_on c s = init ++ [x] /\ split_on c t = y :: rest
    /\ split_on c (s +:+ t) = init ++ [(x +:+ y)%string] ++ rest.
Proof.
  induction s as [|a s (init & x & y & rest & Es & Et & Est)].
  - pose proof (split_on_nonempty c t). destruct (split_on c t) as [|y rest] eqn:Et; [done|].
    exists [], ""%string, y, rest. by rewrite !str_nil_app.
  - rewrite str_cons_app. cbn [split_on]. rewrite Es, Est.
    destruct init as [|i init]; cbn [app]; destruct (Ascii.eqb a c).
    + by exists [""%string], x, y, rest.
    + exists [], (String a x), y, rest. by rewrite str_cons_app.
    + by exists (""%string :: i :: init), x, y, rest.
    + by exists (String a i :: init), x, y, rest.
Qed.

Lemma lines_of_cons p r : r <> [] -> lines_of (p :: r) = strip_cr p :: lines_of r.
Proof. by destruct r. Qed.

Lemma lines_of_app l r : r <> [] -> lines_of (l ++ r) = (strip_cr <$> l) ++ lines_of r.
Proof.
  intros Hr. induction l as [|p l IH]; [done|]. cbn [app fmap list_fmap].
  rewrite lines_of_cons by (by destruct l, r). by rewrite IH.
Qed.

(** The last piece is empty exactly after a newline. *)
Lemma split_on_last c s init x :
  split_on c s = init ++ [x] -> s <> ""%string -> (x = ""%string <-> ends_with c s = true).
Proof.
  revert init x. induction s as [|a s IH]; intros init x E Hs; [done|]. clear Hs. cbn [split_on] in E.
  destruct (decide (s = ""%string)) as [->|Hs].
  - cbn in E |- *. destruct (Ascii.eqb a c).
    + destruct init as [|i [|j init]]; [done| |by destruct init]. injection E as _ <-. done.
    + destruct init as [|i init]; [|by destruct init]. injection E as <-. done.
  - assert (ends_with c (String a s) = ends_with c s) as -> by (by destruct s).
    destruct (split_on c s) as [|h t] eqn:Es; [by destruct (split_on_nonempty c s)|].
    destruct (Ascii.eqb a c).
    + destruct init as [|i init]; [done|]. injection E as _ E. by apply (IH init).
    + destruct t as [|h' t].
      * destruct init as [|i init]; [|by destruct init]. injection E as <-.
        pose proof (IH [] h eq_refl Hs) as H.
        pose proof (split_on_pieces c s) as Hp. rewrite Es in Hp. inversion Hp as [|? ? Hh _]; subst.
        split; [done|]. intros He. apply H in He as ->.
        exfalso. clear -Es Hs. destruct s as [|b s]; [done|]. cbn in Es.
        destruct (split_on c s); [done|]. by destruct (Ascii.eqb b c).
      * destruct init as [|i init]; [done|]. injection E as _ E.
        apply (IH (h :: init) x); [|done]. cbn. by rewrite E.
Qed.

(** A line put after the last newline is a line of its own. *)
Lemma lines_snoc s l :
  s = ""%string \/ ends_with newline s = true -> no_char newline l = true ->
  lines (s +:+ l +:+ String newline "") = lines s ++ [strip_cr l].
Proof.
  intros Hs Hl. unfold lines.
  destruct (split_on_join newline s (l +:+ String newline "")) as (init & x & y & rest & Es & Et & Est).
  rewrite split_on_app in Et by done. injection Et as <- <-. rewrite Est, Es.
  assert (x = ""%string) as ->.
  { destruct Hs as [->|He]; [destruct init as [|? [|]]; by inversion Es|].
    eapply split_on_last; [done| |done]. by destruct s. }
  rewrite str_nil_app, !lines_of_app by done. cbn. by rewrite app_nil_r.
Qed.

(** After a torn last line the newline completes it. *)
Lemma lines_torn s :
  s <> ""%string -> ends_with newline s = false ->
  exists ls l, lines s = ls ++ [l] /\ lines (s +:+ String newline "") = ls ++ [strip_cr l].
Proof.
  intros Hs He. unfold lines.
  destruct (split_on_join newline s (String newline "")) as (init & x & y & rest & Es & Et & Est).
  cbn in Et. injection Et as <- <-. rewrite Est, Es, str_app_nil.
  assert (x <> ""%string) as Hx by (rewrite (split_on_last _ _ _ _ Es Hs); by rewrite He).
  exists (strip_cr <$> init), x. rewrite !lines_of_app by done. cbn.
  by rewrite (proj2 (String.eqb_neq _ _) Hx).
Qed.

Lemma ends_with_snoc c s : ends_with c (s +:+ String c "") = true.
Proof.
  induction s as [|a s IH]; [rewrite str_nil_app; cbn; apply Ascii.eqb_refl|].
  rewrite str_cons_app. cbn. by destruct (s +:+ _)%string eqn:E; [destruct s|].
Qed.

(** ** Lemmas: case *)

Lemma lowercase_app s t : to_ascii_lowercase (s +:+ t) = (to_ascii_lowercase s +:+ to_ascii_lowercase t)%string.
Proof. induction s as [|a s IH]; [done|]. rewrite !str_cons_app. cbn. by rewrite IH. Qed.

Lemma lowercase_empty s : to_ascii_lowercase s = ""%string <-> s = ""%string.
Proof. by destruct s. Qed.

(** ** Lemmas: what trimming keeps *)

Lemma strip_ws_keeps c s r : strip_ws s = Some r -> no_char c s = true -> no_char c r = true.
Proof.
  destruct s as [|a [|b [|d s]]]; cbn; repeat case_match; intros [= <-]; cbn; try done;
    rewrite ?andb_true_iff; tauto.
Qed.

Lemma trim_start_keeps c s : no_char c s = true -> no_char c (trim_start s) = true.
Proof.
  unfold trim_start. generalize (String.length s) as n. intros n. revert s.
  induction n as [|n IH]; intros s Hs; cbn; [done|].
  destruct (strip_ws s) as [r|] eqn:E; [|done]. by apply IH, (strip_ws_keeps c s r).
Qed.

Lemma trim_end_keeps c s : no_char c s = true -> no_char c (trim_end s) = true.
Proof.
  induction s as [|a s IH]; cbn [trim_end]; [by destruct (is_blank _)|]. cbn [no_char].
  intros [Ha Hs]%andb_true_iff. destruct (is_blank _); [done|]. cbn [no_char]. by rewrite Ha, IH.
Qed.

Lemma trim_keeps c s : no_char c s = true -> no_char c (trim s) = true.
Proof. intros Hs. by apply trim_end_keeps, trim_start_keeps. Qed.

Lemma trim_matches_keeps c d s : no_char c s = true -> no_char c (trim_matches d s) = true.
Proof.
  intros Hs. unfold trim_matches.
  assert (no_char c (trim_start_matches d s) = true) as Hs'.
  { induction s as [|a s IH]; [done|]. cbn [trim_start_matches]. destruct (Ascii.eqb a d); [|done].
    cbn in Hs. apply andb_true_iff in Hs as [_ Hs]. by apply IH. }
  generalize dependent (trim_start_matches d s). clear s Hs. intros s.
  induction s as [|a s IH]; [done|]. cbn [no_char trim_end_matches]. intros [Ha Hs]%andb_true_iff. specialize (IH Hs).
  destruct (trim_end_matches d s) as [|b r]; [destruct (Ascii.eqb a d); cbn; by rewrite ?Ha|].
  cbn [no_char] in IH |- *. by rewrite Ha.
Qed.

Lemma no_char_prefix c s : no_char c s = true -> strip_prefix (String c "") s = None.
Proof.
  destruct s as [|a s]; [done|]. cbn. intros [Ha _]%andb_true_iff. rewrite Ascii.eqb_sym.
  apply negb_true_iff in Ha. by rewrite Ha.
Qed.

#[export] Hint Resolve trim_keeps trim_matches_keeps : spt.

(** ** Lemmas: trimmed text *)

Lemma strip_ws_ascii a s : code a < 0x80 -> ascii_ws a = false -> strip_ws (String a s) = None.
Proof.
  intros Ha Hw. cbn [strip_ws]. rewrite Hw. destruct s as [|b [|c s]]; [done| |].
  - destruct (_ && (_ || _)) eqn:E; [lia|done].
  - destruct (_ && (_ || _)) eqn:E; [lia|].
    match goal with |- (if ?c then _ else _) = _ => destruct c eqn:E2 end; [lia|done].
Qed.

Lemma is_blank_app q w t : ascii_ws w = true -> is_blank (q +:+ String w t) = is_blank q && is_blank t.
Proof.
  intros Hw. unfold is_blank at 1. rewrite trim_start_app by done. destruct (is_blank q) eqn:E; [done|].
  apply String.eqb_neq. by destruct (trim_start q).
Qed.

Lemma trim_end_app_word q w t :
  ascii_ws w = true -> is_blank t = false -> trim_end t = t -> trim_end (q +:+ String w t) = (q +:+ String w t)%string.
Proof.
  intros Hw Hb Ht. induction q as [|a q IH].
  - pose proof (is_blank_app "" w t Hw) as E. rewrite str_nil_app in *. cbn [trim_end]. rewrite E, Hb, andb_false_r. by rewrite Ht.
  - pose proof (is_blank_app (String a q) w t Hw) as E. rewrite str_cons_app in *. cbn [trim_end].
    rewrite E, Hb, andb_false_r. by rewrite IH.
Qed.

Lemma trim_start_length s : trim_start s = s \/ (String.length (trim_start s) < String.length s)%nat.
Proof.
  remember (String.length s) as n eqn:En. revert s En. induction n as [n IH] using lt_wf_ind. intros s ->.
  rewrite trim_start_step. destruct (strip_ws s) as [r|] eqn:E; [|by left].
  apply strip_ws_shorter in E. right. destruct (IH _ E r eq_refl) as [->|]; lia.
Qed.

Lemma trim_end_length s : (String.length (trim_end s) <= String.length s)%nat.
Proof. induction s as [|a s IH]; cbn [trim_end]; destruct (is_blank _); cbn; lia. Qed.

(** A trimmed text neither begins nor ends with whitespace. *)
Lemma trimmed_ends s : trim s = s -> trim_start s = s /\ trim_end s = s.
Proof.
  unfold trim. intros E. destruct (trim_start_length s) as [Hs|Hs]; [by rewrite Hs in E|].
  pose proof (trim_end_length (trim_start s)) as Hl. rewrite E in Hl. lia.
Qed.

Lemma trim_word_text h w s :
  ascii_ws w = true -> h <> ""%string -> strip_ws h = None -> s <> ""%string -> trim s = s ->
  trim (h +:+ String w s) = (h +:+ String w s)%string.
Proof.
  intros Hw Hh Hn Hs [Et Ee]%trimmed_ends. unfold trim.
  rewrite trim_start_free by (by rewrite strip_ws_app, Hn).
  apply trim_end_app_word; [done| |done]. unfold is_blank. rewrite Et. by apply String.eqb_neq.
Qed.

Lemma ws_free_no_newline s : ws_free s = true -> no_char newline s = true.
Proof.
  induction s as [|a s IH]; [done|]. intros Hs. pose proof (ws_free_head _ Hs) as Hh.
  apply ws_free_cons in Hs as [_ Hs]. cbn [no_char]. rewrite (IH Hs), andb_true_r.
  apply negb_true_iff, Ascii.eqb_neq. intros ->. done.
Qed.

Lemma lines_cons l t : no_char newline l = true -> lines (l +:+ String newline t) = strip_cr l :: lines t.
Proof. intros Hl. unfold lines. rewrite split_on_app by done. apply lines_of_cons, split_on_nonempty. Qed.

Lemma starts_with_head c a s : starts_with (String c "") (String a s) = Ascii.eqb c a.
Proof.
  unfold starts_with. cbn [strip_prefix]. destruct (Ascii.eqb c a);
    [by apply bool_decide_eq_true_2|apply bool_decide_eq_false_2; by intros [? ?]].
Qed.

Lemma trim_matches_free c s : no_char c s = true -> trim_matches c s = s.
Proof.
  intros Hs. unfold trim_matches.
  assert (trim_start_matches c s = s) as ->.
  { destruct s as [|a s]; [done|]. cbn in *. apply andb_true_iff in Hs as [Ha%negb_true_iff _]. by rewrite Ha. }
  induction s as [|a s IH]; [done|]. cbn in *. apply andb_true_iff in Hs as [Ha%negb_true_iff Hs].
  rewrite (IH Hs), Ha. by destruct s.
Qed.

Lemma split_once_app c h t : no_char c h = true -> split_once c (h +:+ String c t) = Some (h, t).
Proof.
  induction h as [|a h IH]; intros Hh; rewrite ?str_nil_app, ?str_cons_app; cbn; [by rewrite Ascii.eqb_refl|].
  cbn in Hh. apply andb_true_iff in Hh as [Ha%negb_true_iff Hh]. by rewrite Ha, (IH Hh).
Qed.

(** [str::split_whitespace]. *)
Fixpoint ws_pieces (fuel : nat) (s : string) : list string :=
  match fuel with
  | O => [s]
  | S fuel' =>
      let '(h, r) := split_ws s in
      match r with None => [h] | Some r => h :: ws_pieces fuel' r end
  end.

Definition split_whitespace (s : string) : list string :=
  List.filter (fun p => negb (p =? "")%string) (ws_pieces (S (String.length s)) s).

(** ** Text and bytes *)

(** The bytes of a text and the text of bytes. *)
Definition bytes_of (s : string) : list Z := code <$> list_ascii_of_string s.
Definition string_of (l : list Z) : string := string_of_list_ascii ((fun b => ascii_of_nat (Z.to_nat b)) <$> l).

(** [String::from_utf8]. *)
Definition text_of (l : list Z) : option string := string_of <$> from_utf8 l.

Lemma string_of_bytes s : string_of (bytes_of s) = s.
Proof.
  unfold string_of, bytes_of. rewrite <- list_fmap_compose. rewrite <- (string_of_list_ascii_of_string s) at 2. f_equal.
  induction (list_ascii_of_string s) as [|a l IH]; [done|]. cbn. rewrite IH. f_equal.
  unfold code. by rewrite Nat2Z.id, ascii_nat_embedding.
Qed.

(** ** Suffixes *)

Lemma string_length_app s t : String.length (s +:+ t) = (String.length s + String.length t)%nat.
Proof. induction s as [|a s IH]; [done|]. rewrite str_cons_app. cbn. by rewrite IH. Qed.

Lemma strip_suffix_spec suf s h : strip_suffix suf s = Some h <-> s = (h +:+ suf)%string.
Proof.
  revert h. induction s as [|a s IH]; intros h; cbn [strip_suffix].
  - destruct (String.eqb_spec "" suf) as [<-|Hn].
    + rewrite str_app_nil. split; [by intros [= <-]|by intros <-].
    + split; [done|]. destruct h; [by rewrite str_nil_app|by rewrite str_cons_app].
  - destruct (String.eqb_spec (String a s) suf) as [<-|Hn].
    + split; [intros [= <-]; by rewrite str_nil_app|]. intros Hs. apply (f_equal String.length) in Hs as Hl. rewrite string_length_app in Hl.
      destruct h; [done|cbn in Hl; lia].
    + destruct (strip_suffix suf s) as [h'|]; cbn [fmap option_fmap option_map].
      * pose proof (proj1 (IH h') eq_refl) as Hs. destruct h as [|b h]; [rewrite str_nil_app; split; [done|]; by intros E; destruct Hn|].
        rewrite str_cons_app. split; [intros [= <- <-]; by rewrite <- Hs|]. intros [= -> E]. apply IH in E. by injection E as ->.
      * split; [done|]. destruct h as [|b h]; [rewrite str_nil_app; by intros E; destruct Hn|]. rewrite str_cons_app. intros [= -> Hs].
        by apply IH in Hs.
Qed.

Lemma app_suffix s t h u :
  (s +:+ t = h +:+ u)%string -> (String.length u <= String.length t)%nat -> exists m, t = (m +:+ u)%string.
Proof.
  revert h. induction s as [|a s IH]; intros h; [rewrite str_nil_app; eauto|].
  rewrite str_cons_app. destruct h as [|b h].
  - rewrite str_nil_app. intros <-. cbn [String.length]. rewrite string_length_app. lia.
  - rewrite str_cons_app. intros [= _ E]. by apply (IH h).
Qed.

Lemma strip_suffix_none u s t :
  strip_suffix u t = None -> (String.length u <= String.length t)%nat -> strip_suffix u (s +:+ t) = None.
Proof.
  intros Hn Hl. destruct (strip_suffix u (s +:+ t)) as [h|] eqn:E; [|done]. apply strip_suffix_spec in E.
  destruct (app_suffix _ _ _ _ E Hl) as [m Hm]. apply strip_suffix_spec in Hm. congruence.
Qed.

(** ** Numbers *)

Lemma ws_free_ascii a s : code a < 0x80 -> ascii_ws a = false -> ws_free s = true -> ws_free (String a s) = true.
Proof. intros Ha Hw Hs. cbn [ws_free]. by rewrite strip_ws_ascii. Qed.

Lemma digit_plain a d : digit_val a = Some d -> code a < 0x80 /\ ascii_ws a = false.
Proof. destruct a as [[] [] [] [] [] [] [] []]; vm_compute; intros [= <-]; done. Qed.

Lemma parse_digits_free w s acc n : parse_digits w s acc = Some n -> ws_free s = true.
Proof.
  revert acc. induction s as [|a s IH]; intros acc; [done|]. cbn [parse_digits]. destruct (digit_val a) as [d|] eqn:Ed; [|done].
  destruct (digit_plain a d Ed). intros Hp. apply ws_free_ascii; [done|done|]. revert Hp. destruct (_ <=? _); [apply IH|done].
Qed.

Lemma parse_uint_word w s n : parse_uint w s = Some n -> ws_free s = true /\ s <> ""%string.
Proof.
  destruct s as [|a s]; [done|]. intros Hp. split; [|done]. unfold parse_uint in Hp. destruct (Ascii.eqb_spec a "+") as [->|Hn].
  - apply ws_free_ascii; [done|done|]. destruct s; [done|]. by eapply parse_digits_free.
  - by eapply parse_digits_free.
Qed.
