(* ===== verification/Float.v ===== *)
(** * Floating point

    The [f64] operations the supervisor uses, on non-negative finite values.
    A finite float is a dyadic number [m * 2^e]; [round53] is the
    round-to-nearest, ties-to-even rounding to the 53-bit significand of [f64].
    The operands in the code lie between [2^-24] and [2^64] (or are zero), so
    neither overflow nor subnormal rounding occurs and the exponent is left
    unbounded. *)

From S2P Require Import Prelude.

(** An [f32]: the finite value [m * 2^e], an infinity, or NaN. *)
Inductive f32 :=
| F32 (m e : Z)
| F32PosInf
| F32NegInf
| F32NaN.

(** A non-negative finite [f64] value [m * 2^e]. *)
Record f64 := mkF64 { f_m : Z; f_e : Z }.

(** Round an exact dyadic value to 53 significant bits, ties to even. *)
Definition round53 (x : f64) : f64 :=
  let b := Z.log2 (f_m x) + 1 in
  if b <=? 53 then x
  else
    let k := b - 53 in
    let q := f_m x / 2 ^ k in
    let r := f_m x mod 2 ^ k in
    let half := 2 ^ (k - 1) in
    let up := (half <? r) || ((r =? half) && Z.odd q) in
    mkF64 (if up then q + 1 else q) (f_e x + k).

Definition f64_of_u64 (n : Z) : f64 := round53 (mkF64 n 0).
Definition f64_mul (a b : f64) : f64 := round53 (mkF64 (f_m a * f_m b) (f_e a + f_e b)).

(** [x.ceil() as usize] for a value in range. *)
Definition f64_ceil (x : f64) : Z :=
  if 0 <=? f_e x then f_m x * 2 ^ f_e x else - ((- f_m x) / 2 ^ (- f_e x)).

(** [x as u64]: truncation, saturating at the top. *)
Definition f64_to_u64 (x : f64) : Z :=
  Z.min (if 0 <=? f_e x then f_m x * 2 ^ f_e x else f_m x / 2 ^ (- f_e x)) (umax 64).

(** ** Lemmas *)

Lemma round53_small m e : 0 <= m < 2 ^ 53 -> round53 (mkF64 m e) = mkF64 m e.
Proof.
  intros Hm. unfold round53. cbn [f_m].
  destruct (Z.leb_spec (Z.log2 m + 1) 53) as [|Hb]; [done|].
  pose proof (Z.log2_nonneg m).
  assert (Z.log2 m < 53); [|lia].
  destruct (Z.eq_dec m 0) as [->|]; [done|]. apply Z.log2_lt_pow2; lia.
Qed.

(** Rounding shifts by some [k >= 0] and errs by at most [2^-53] relatively. *)
Lemma round53_error x :
  0 <= f_m x ->
  exists k, 0 <= k /\ f_e (round53 x) = f_e x + k /\ 0 <= f_m (round53 x) /\
    2 ^ 53 * Z.abs (f_m (round53 x) * 2 ^ k - f_m x) <= f_m x.
Proof.
  intros Hm. unfold round53. cbv zeta.
  destruct (Z.leb_spec (Z.log2 (f_m x) + 1) 53) as [Hb|Hb].
  { exists 0. rewrite Z.pow_0_r. split_and!; lia. }
  set (k := Z.log2 (f_m x) + 1 - 53) in *. exists k.
  assert (0 < f_m x) as Hpos.
  { destruct (Z.eq_dec (f_m x) 0) as [E|]; [|lia]. subst k. rewrite E in Hb. cbn in Hb. lia. }
  pose proof (Z.log2_spec (f_m x) Hpos) as [Hlo _].
  assert (2 ^ 52 * 2 ^ k <= f_m x) as Hbig.
  { rewrite <- Z.pow_add_r by lia. replace (52 + k) with (Z.log2 (f_m x)) by lia. done. }
  assert (0 < 2 ^ k) as Hk by (apply Z.pow_pos_nonneg; lia).
  assert (2 ^ k = 2 * 2 ^ (k - 1)) as Hhalf.
  { rewrite <- Z.pow_succ_r by lia. f_equal. lia. }
  pose proof (Z.div_mod (f_m x) (2 ^ k) ltac:(lia)) as Hdm.
  pose proof (Z.mod_pos_bound (f_m x) (2 ^ k) Hk) as Hr.
  set (q := f_m x / 2 ^ k) in *. set (r := f_m x mod 2 ^ k) in *.
  assert (0 <= q) as Hq by (apply Z.div_pos; lia).
  cbn [f_m f_e]. split_and!; [lia|lia|destruct (_ || _); lia|].
  change (2 ^ 53) with (2 * 2 ^ 52).
  destruct (Z.ltb_spec (2 ^ (k - 1)) r) as [Hup|Hdown]; cbn [orb].
  - replace ((q + 1) * 2 ^ k - f_m x) with (2 ^ k - r) by lia. nia.
  - destruct ((r =? 2 ^ (k - 1)) && Z.odd q) eqn:Et; bool_prop.
    + replace ((q + 1) * 2 ^ k - f_m x) with (2 ^ k - r) by lia. nia.
    + replace (q * 2 ^ k - f_m x) with (- r) by lia. nia.
Qed.

(** [m * 2^e], truncated, for a value given with the exponent [a - k]. *)
Lemma to_u64_floor q a k :
  0 <= q -> 0 <= a -> 0 <= k ->
  f64_to_u64 (mkF64 q (a - k)) = Z.min (q * 2 ^ a / 2 ^ k) (umax 64).
Proof.
  intros Hq Ha Hk. unfold f64_to_u64. cbn [f_m f_e]. f_equal.
  destruct (Z.leb_spec 0 (a - k)) as [Hle|Hlt].
  - replace (2 ^ a) with (2 ^ (a - k) * 2 ^ k) by (rewrite <- Z.pow_add_r by lia; f_equal; lia).
    rewrite Z.mul_assoc, Z.div_mul; [done|]. apply Z.pow_nonzero; lia.
  - replace (2 ^ k) with (2 ^ a * 2 ^ (- (a - k))) by (rewrite <- Z.pow_add_r by lia; f_equal; lia).
    rewrite <- Z.div_div by (try apply Z.pow_nonzero; try apply Z.pow_pos_nonneg; lia).
    rewrite Z.div_mul; [done|]. apply Z.pow_nonzero; lia.
Qed.
