(* ===== verification/StateMachine.v ===== *)
(** * The profile state machine

    Models [crates/spt-supervisor/src/state_machine.rs]: the thirteen profile
    states, the nineteen stimuli, the transition function [step] and the
    transition table of the module's documentation, which the last theorem
    compares with the code cell by cell. *)

From S2P Require Import Prelude.

(** ** States and events *)

Inductive ProfileStateName :=
| Disabled
| Idle
| Resolving
| Connecting
| Authenticating
| EstablishingForwards
| Active
| Degraded
| Reconnecting
| FailingOver
| Unstable
| Stopping
| Stopped.

#[global] Instance ProfileStateName_eq_dec : EqDecision ProfileStateName.
Proof. solve_decision. Defined.

(** [ProfileStateName::is_terminal]. *)
Definition is_terminal (s : ProfileStateName) : bool :=
  match s with Stopped | Disabled => true | _ => false end.

(** [Display for ProfileStateName]. *)
Definition state_display (s : ProfileStateName) : string :=
  match s with
  | Disabled => "disabled"
  | Idle => "idle"
  | Resolving => "resolving"
  | Connecting => "connecting"
  | Authenticating => "authenticating"
  | EstablishingForwards => "establishing_forwards"
  | Active => "active"
  | Degraded => "degraded"
  | Reconnecting => "reconnecting"
  | FailingOver => "failing_over"
  | Unstable => "unstable"
  | Stopping => "stopping"
  | Stopped => "stopped"
  end.

(** The stimuli, [state_machine::ProfileEvent]; the constructors carry an [E]
    prefix because [Stopped] is also the name of a state. *)
Inductive SmEvent :=
| EStart
| EDisable
| EStop
| EStopped
| EResolveOk
| EResolveFail
| EConnectOk
| EConnectFail
| EAuthOk
| EAuthFail
| EForwardsUp
| EForwardUp
| EForwardDown
| ESessionLost
| EInstabilityHit
| EInstabilityClear
| EFailoverPick
| EEndpointReady
| ERetryNow.

#[global] Instance SmEvent_eq_dec : EqDecision SmEvent.
Proof. solve_decision. Defined.

(** ** The machine *)

Record ProfileStateMachine := mkSM { sm_state : ProfileStateName }.

Definition sm_new : ProfileStateMachine := mkSM Idle.
Definition sm_disabled : ProfileStateMachine := mkSM Disabled.

(** The [match (self.state, event)] of [step], arm by arm and in its order. *)
Definition next_state (s : ProfileStateName) (e : SmEvent) : option ProfileStateName :=
  match e with
  | EDisable => if negb (is_terminal s) then Some Disabled else None
  | EStop =>
      match s with Stopping | Stopped | Disabled => None | _ => Some Stopping end
  | EStopped => match s with Stopping => Some Stopped | _ => None end
  | EStart => match s with Idle => Some Resolving | _ => None end
  | EResolveOk => match s with Resolving => Some Connecting | _ => None end
  | EResolveFail => match s with Resolving => Some Reconnecting | _ => None end
  | EConnectOk => match s with Connecting => Some Authenticating | _ => None end
  | EConnectFail => match s with Connecting => Some Reconnecting | _ => None end
  | EAuthOk => match s with Authenticating => Some EstablishingForwards | _ => None end
  | EAuthFail => match s with Authenticating => Some Reconnecting | _ => None end
  | EForwardsUp =>
      match s with EstablishingForwards | Degraded | Unstable => Some Active | _ => None end
  | EForwardDown =>
      match s with
      | EstablishingForwards => Some Degraded
      | Active => Some Degraded
      | Unstable => Some Degraded
      | _ => None
      end
  | EForwardUp => match s with Degraded => Some Active | Unstable => Some Active | _ => None end
  | ESessionLost =>
      match s with
      | Active | Degraded | EstablishingForwards | Unstable => Some Reconnecting
      | _ => None
      end
  | EInstabilityHit =>
      match s with Active | Degraded | EstablishingForwards => Some Unstable | _ => None end
  | EInstabilityClear => match s with Unstable => Some Active | _ => None end
  | EFailoverPick => match s with Reconnecting | FailingOver => Some FailingOver | _ => None end
  | EEndpointReady => match s with Reconnecting | FailingOver => Some Resolving | _ => None end
  | ERetryNow => match s with Reconnecting => Some Resolving | _ => None end
  end.

(** [ProfileStateMachine::step]: the result and the machine afterwards. *)
Definition sm_step (sm : ProfileStateMachine) (e : SmEvent)
  : Result ProfileStateName ProfileStateName * ProfileStateMachine :=
  match next_state (sm_state sm) e with
  | Some s => (Ok s, mkSM s)
  | None => (Err (sm_state sm), sm)
  end.

(** A sequence of stimuli, rejected ones being no-ops for the caller. *)
Definition sm_run (sm : ProfileStateMachine) (es : list SmEvent) : ProfileStateMachine :=
  foldl (fun m e => (sm_step m e).2) sm es.

(** The states in which a session is up. *)
Definition session_up (s : ProfileStateName) : bool :=
  match s with EstablishingForwards | Active | Degraded | Unstable => true | _ => false end.

(** ** The documented transition table

    The table of the module's documentation, row by row; a dash is [None].
    It has a column for every state but [Disabled] and [Stopped]. *)
Definition doc_table (e : SmEvent) (s : ProfileStateName) : option ProfileStateName :=
  match e, s with
  | EStart, Idle => Some Resolving
  | EResolveOk, Resolving => Some Connecting
  | EResolveFail, Resolving => Some Reconnecting
  | EConnectOk, Connecting => Some Authenticating
  | EConnectFail, Connecting => Some Reconnecting
  | EAuthOk, Authenticating => Some EstablishingForwards
  | EAuthFail, Authenticating => Some Reconnecting
  | EForwardsUp, EstablishingForwards => Some Active
  | EForwardDown, (Active | Degraded | Unstable) => Some Degraded
  | EForwardUp, (Degraded | Unstable) => Some Active
  | ESessionLost, (EstablishingForwards | Active | Degraded | Unstable) => Some Reconnecting
  | EInstabilityHit, (EstablishingForwards | Active | Degraded) => Some Unstable
  | EInstabilityClear, Unstable => Some Active
  | EFailoverPick, (Reconnecting | FailingOver) => Some FailingOver
  | EEndpointReady, (Reconnecting | FailingOver) => Some Resolving
  | ERetryNow, Reconnecting => Some Resolving
  | EStop, (Idle | Resolving | Connecting | Authenticating | EstablishingForwards | Active
           | Degraded | Reconnecting | FailingOver | Unstable) => Some Stopping
  | EStopped, Stopping => Some Stopped
  | EDisable, (Idle | Resolving | Connecting | Authenticating | EstablishingForwards | Active
              | Degraded | Reconnecting | FailingOver | Unstable) => Some Disabled
  | _, _ => None
  end.

(** The cells in which the code departs from the table. *)
Definition divergent_cells : list (SmEvent * ProfileStateName) :=
  [ (EForwardsUp, Degraded); (EForwardsUp, Unstable);
    (EForwardDown, EstablishingForwards); (EForwardDown, Degraded);
    (EDisable, Stopping) ].

(** ** Lemmas *)

Lemma sm_step_state sm e :
  sm_state (sm_step sm e).2 = default (sm_state sm) (next_state (sm_state sm) e).
Proof. unfold sm_step. by destruct (next_state _ e). Qed.

Lemma sm_run_snoc sm es e : sm_run sm (es ++ [e]) = (sm_step (sm_run sm es) e).2.
Proof. unfold sm_run. by rewrite foldl_app. Qed.

Lemma sm_run_app sm es es' : sm_run sm (es ++ es') = sm_run (sm_run sm es) es'.
Proof. unfold sm_run. by rewrite foldl_app. Qed.

Lemma next_state_terminal s e : is_terminal s = true -> next_state s e = None.
Proof. by destruct s, e. Qed.

(** A session comes up only through [AuthOk], and every other accepted event
    that ends in a session-up state started from one. *)
Lemma session_up_step s e s' :
  next_state s e = Some s' -> session_up s' = true ->
  session_up s = true \/ (e = EAuthOk /\ s = Authenticating).
Proof. destruct s, e; cbn; intros [= <-]; cbn; auto. Qed.

(** A run that authenticated and stayed up can be extended by one stimulus. *)
Lemma extend_up_run es e :
  session_up (sm_state (sm_run sm_new (es ++ [e]))) = true ->
  (exists pre post,
    es = pre ++ EAuthOk :: post /\
    sm_state (sm_run sm_new pre) = Authenticating /\
    forall k, session_up (sm_state (sm_run sm_new (pre ++ EAuthOk :: take k post))) = true) ->
  exists pre post,
    es ++ [e] = pre ++ EAuthOk :: post /\
    sm_state (sm_run sm_new pre) = Authenticating /\
    forall k, session_up (sm_state (sm_run sm_new (pre ++ EAuthOk :: take k post))) = true.
Proof.
  intros Hend (pre & post & -> & Ha & Hall). rewrite <- app_assoc in Hend.
  exists pre, (post ++ [e]). split_and!; [by rewrite <- app_assoc|done|].
  intros k. destruct (decide (k <= length post)%nat).
  - rewrite take_app_le by done. apply Hall.
  - by rewrite take_ge by (rewrite length_app; cbn; lia).
Qed.

#[export] Hint Rewrite sm_step_state sm_run_snoc : spt_rw.

(** ** Theorems *)

(** the terminal states are exactly the states no stimulus leaves:
    [Stopped] and [Disabled] absorb every event sequence, and every other
    state has an outgoing transition. *)
Theorem terminal_absorbing (s : ProfileStateName) :
  is_terminal s = true <-> forall es, sm_state (sm_run (mkSM s) es) = s.
Proof.
  split.
  - intros Ht es. induction es as [|e es IH] using rev_ind; [done|].
    rewrite sm_run_snoc, sm_step_state, IH.
    by rewrite next_state_terminal.
  - intros H. pose proof (H [EDisable]) as Hd. pose proof (H [EStop]).
    by destruct s.
Qed.

(** C9: a session is only ever up after an accepted authentication. Whenever a
    run from the initial state ends in [EstablishingForwards], [Active],
    [Degraded] or [Unstable], the sequence contains an [AuthOk] that was taken
    in [Authenticating], and the machine stayed in session-up states from
    there to the end. *)
Theorem session_up_requires_auth (es : list SmEvent) :
  session_up (sm_state (sm_run sm_new es)) = true ->
  exists pre post,
    es = pre ++ EAuthOk :: post /\
    sm_state (sm_run sm_new pre) = Authenticating /\
    forall k, session_up (sm_state (sm_run sm_new (pre ++ EAuthOk :: take k post))) = true.
Proof.
  induction es as [|e es IH] using rev_ind; [done|]. intros Hup. pose proof Hup as Hend.
  rewrite sm_run_snoc, sm_step_state in Hup.
  destruct (next_state (sm_state (sm_run sm_new es)) e) as [s'|] eqn:E; cbn [default] in Hup.
  2:{ by apply extend_up_run, IH. }
  destruct (session_up_step _ _ _ E Hup) as [Hprev|[-> Hauth]]; [by apply extend_up_run, IH|].
  exists es, []. split_and!; [done..|]. intros k. by rewrite take_nil.
Qed.

Lemma session_up_requires_auth_witness :
  session_up (sm_state (sm_run sm_new [EStart; EResolveOk; EConnectOk; EAuthOk; EForwardsUp]))
    = true /\
  exists pre post,
    [EStart; EResolveOk; EConnectOk; EAuthOk; EForwardsUp] = pre ++ EAuthOk :: post /\
    sm_state (sm_run sm_new pre) = Authenticating /\
    forall k, session_up (sm_state (sm_run sm_new (pre ++ EAuthOk :: take k post))) = true.
Proof. split; [reflexivity|]. apply (session_up_requires_auth _). reflexivity. Defined.

(** no non-terminal state is a trap. From each of them some sequence of at
    most two stimuli shuts the machine down, and, unless it is already
    stopping, some sequence of at most six brings it to [Active]. *)
Theorem no_trap_state (s : ProfileStateName) :
  is_terminal s = false ->
  (exists es, (length es <= 2)%nat /\ sm_state (sm_run (mkSM s) es) = Stopped) /\
  (s <> Stopping ->
   exists es, (length es <= 6)%nat /\ sm_state (sm_run (mkSM s) es) = Active).
Proof.
  intros Ht. split.
  - exists match s with Stopping => [EStopped] | _ => [EStop; EStopped] end.
    destruct s; cbn; try done; split; try done; lia.
  - intros Hs.
    exists match s with
      | Idle => [EStart; EResolveOk; EConnectOk; EAuthOk; EForwardsUp]
      | Resolving => [EResolveOk; EConnectOk; EAuthOk; EForwardsUp]
      | Connecting => [EConnectOk; EAuthOk; EForwardsUp]
      | Authenticating => [EAuthOk; EForwardsUp]
      | EstablishingForwards | Degraded | Unstable => [EForwardsUp]
      | Reconnecting | FailingOver =>
          [EEndpointReady; EResolveOk; EConnectOk; EAuthOk; EForwardsUp]
      | _ => []
      end.
    destruct s; cbn; try done; split; try done; lia.
Qed.

Lemma no_trap_state_witness :
  is_terminal FailingOver = false /\
  ((exists es, (length es <= 2)%nat /\ sm_state (sm_run (mkSM FailingOver) es) = Stopped) /\
   (FailingOver <> Stopping ->
    exists es, (length es <= 6)%nat /\ sm_state (sm_run (mkSM FailingOver) es) = Active)).
Proof. split; [reflexivity|]. apply no_trap_state. reflexivity. Defined.

(** the code and the documented table agree on every cell of the table
    except five: the code also takes [ForwardsUp] in [Degraded] and [Unstable],
    takes [ForwardDown] in [EstablishingForwards], rejects it in [Degraded],
    and takes [Disable] in [Stopping]. *)
Theorem doc_table_agreement (e : SmEvent) (s : ProfileStateName) :
  s <> Disabled -> s <> Stopped ->
  (next_state s e = doc_table e s <-> (e, s) ∉ divergent_cells).
Proof.
  intros Hd Hs. split.
  - intros Heq Hin. unfold divergent_cells in Hin.
    repeat (apply elem_of_cons in Hin as [[= -> ->]|Hin]; [by cbn in Heq|]).
    by apply not_elem_of_nil in Hin.
  - intros Hout. destruct s, e; try done; exfalso; apply Hout; unfold divergent_cells;
      repeat ((by apply list_elem_of_here) || apply list_elem_of_further).
Qed.

Lemma doc_table_agreement_witness :
  Active <> Disabled /\ Active <> Stopped /\
  (next_state Active EForwardDown = doc_table EForwardDown Active
   <-> (EForwardDown, Active) ∉ divergent_cells).
Proof. split; [done|]. split; [done|]. apply doc_table_agreement; done. Defined.
