(* ===== verification/Reconnect.v ===== *)
(** * Reconnect backoff

    Models [crates/spt-supervisor/src/reconnect.rs]: the backoff configuration,
    the attempt counter, the exponential ceiling and the jittered delay.

    [sample_jitter] multiplies the ceiling (a [u64] converted to [f64]) by
    [1.0 - jitter] and truncates; the floating-point operations are those of
    [Float]. *)

From S2P Require Import Prelude Float.

(** ** Jitter ratios *)

(** [jitter.clamp(0.0, 1.0)]; NaN is left alone. *)
Definition clamp01 (j : f32) : f32 :=
  match j with
  | F32NaN => F32NaN
  | F32PosInf => F32 1 0
  | F32NegInf => F32 0 0
  | F32 m e =>
      if m <=? 0 then F32 0 0
      else if 0 <=? e then F32 1 0
      else if 2 ^ (- e) <? m then F32 1 0
      else F32 m e
  end.

(** [1.0 - j as f64] for a clamped [j]; [None] is NaN. *)
Definition one_minus (j : f32) : option f64 :=
  match j with
  | F32 m e => Some (round53 (if 0 <=? e then mkF64 (1 - m * 2 ^ e) 0
                              else mkF64 (2 ^ (- e) - m) e))
  | _ => None
  end.

(** ** Configuration and state *)

Record BackoffConfig := mkBackoffConfig {
  initial_delay : Z;
  max_delay : Z;
  reset_after : Z;
  jitter : f32;
  max_attempts : Z;
  retry_auth_failures : bool
}.

Definition BackoffConfig_default : BackoffConfig := {|
  initial_delay := from_secs 1;
  max_delay := from_secs 60;
  reset_after := from_secs 120;
  jitter := F32 1 0;
  max_attempts := 0;
  retry_auth_failures := false
|}.

Record Backoff := mkBackoff { bk_cfg : BackoffConfig; bk_attempt : Z }.

(** ** Operations *)

Definition Backoff_new (cfg : BackoffConfig) : Backoff := mkBackoff cfg 0.

Definition exhausted (b : Backoff) : bool :=
  negb (max_attempts (bk_cfg b) =? 0) && (max_attempts (bk_cfg b) <=? bk_attempt b).

Definition Backoff_reset (b : Backoff) : Backoff := mkBackoff (bk_cfg b) 0.

(** [u64::checked_shl]: [None] when the shift amount reaches the width. *)
Definition checked_shl64 (x k : Z) : option Z :=
  if k <? 64 then Some (wrap 64 (Z.shiftl x k)) else None.

Definition ceiling_for_attempt (initial max n : Z) : option Z :=
  let initial_ms := wrap 64 (as_millis initial) in
  let max_ms := wrap 64 (as_millis max) in
  if initial_ms =? 0 then Some 0
  else
    factor ← checked_shl64 1 (Z.min n 31);
    let ceiling_ms := Z.min (sat_mul 64 initial_ms factor) (Z.max max_ms initial_ms) in
    Some (from_millis ceiling_ms).

(** The fixed, non-random part of the delay. *)
Definition fixed_ms (max_ms : Z) (j : f32) : Z :=
  match one_minus (clamp01 j) with
  | Some f => f64_to_u64 (f64_mul (f64_of_u64 max_ms) f)
  | None => 0
  end.

Definition sample_jitter {R} `{Rng R} (ceiling : Z) (j : f32) (rng : R) : Z * R :=
  let max_ms := wrap 64 (as_millis ceiling) in
  if max_ms =? 0 then (0, rng)
  else
    let fixed := fixed_ms max_ms j in
    let span_ms := sat_sub max_ms fixed in
    let '(rand_ms, rng') := if span_ms =? 0 then (0, rng) else gen_range rng 0 span_ms in
    (from_millis (Z.min (sat_add 64 fixed rand_ms) max_ms), rng').

Definition next_delay {R} `{Rng R} (b : Backoff) (rng : R) : Z * Backoff * R :=
  let n := bk_attempt b in
  let b' := mkBackoff (bk_cfg b) (sat_add 32 n 1) in
  match ceiling_for_attempt (initial_delay (bk_cfg b)) (max_delay (bk_cfg b)) n with
  | Some c => let '(d, rng') := sample_jitter c (jitter (bk_cfg b)) rng in (d, b', rng')
  | None => (0, b', rng)
  end.

(** [k] scheduled delays in a row. *)
Fixpoint next_delays {R} `{Rng R} (k : nat) (b : Backoff) (rng : R) : Backoff * R :=
  match k with
  | O => (b, rng)
  | S k' => let '(_, b', rng') := next_delay b rng in next_delays k' b' rng'
  end.

(** The reference ceiling, in milliseconds and unbounded arithmetic. *)
Definition ceiling_spec (initial max n : Z) : Z :=
  Z.min (as_millis initial * 2 ^ Z.min n 31) (Z.max (as_millis max) (as_millis initial)).

(** Durations whose milliseconds fit the [as u64] casts of the code. *)
Definition cfg_ok (c : BackoffConfig) : Prop :=
  in_u 64 (as_millis (initial_delay c)) /\ in_u 64 (as_millis (max_delay c)).

(** ** Lemmas: ceilings and jitter *)

Lemma ceiling_total initial max n :
  exists c, ceiling_for_attempt initial max n = Some c.
Proof.
  unfold ceiling_for_attempt, checked_shl64. destruct (_ =? 0); [eauto|].
  destruct (Z.ltb_spec (Z.min n 31) 64); [cbn; eauto|lia].
Qed.

Lemma shift_factor n : 0 <= n -> checked_shl64 1 (Z.min n 31) = Some (2 ^ Z.min n 31).
Proof.
  intros Hn. unfold checked_shl64. destruct (Z.ltb_spec (Z.min n 31) 64); [|lia].
  rewrite Z.shiftl_1_l. f_equal. apply wrap_small. unfold in_u, umax.
  pose proof (Z.pow_le_mono_r 2 (Z.min n 31) 31). pose proof (Z.pow_pos_nonneg 2 (Z.min n 31)).
  change (2 ^ 31) with 2147483648 in *. change (2 ^ 64) with 18446744073709551616. lia.
Qed.

Lemma ceiling_eq_spec initial max n :
  0 <= n -> in_u 64 (as_millis initial) -> in_u 64 (as_millis max) ->
  ceiling_for_attempt initial max n = Some (from_millis (ceiling_spec initial max n)).
Proof.
  intros Hn Hi Hm. unfold ceiling_for_attempt, ceiling_spec.
  rewrite !wrap_small by done. rewrite shift_factor by done. cbn [mbind option_bind].
  destruct (Z.eqb_spec (as_millis initial) 0) as [->|Hne].
  - unfold in_u in *. by replace (Z.min _ _) with 0 by lia.
  - unfold in_u in *. by rewrite sat_mul_min by lia.
Qed.

Lemma ceiling_spec_range initial max n :
  in_u 64 (as_millis initial) -> in_u 64 (as_millis max) ->
  in_u 64 (ceiling_spec initial max n).
Proof.
  unfold in_u, ceiling_spec. intros [Hi1 Hi2] [Hm1 Hm2].
  assert (0 <= as_millis initial * 2 ^ Z.min n 31).
  { apply Z.mul_nonneg_nonneg; [done|]. apply Z.pow_nonneg. lia. }
  lia.
Qed.

Lemma as_from_millis ms : as_millis (from_millis ms) = ms.
Proof. unfold as_millis, from_millis, NANOS_PER_MS. by apply Z.div_mul. Qed.

Section Jitter.
Context {R : Type} `{Rng R}.

(** The delay in milliseconds as the code computes it from the fixed part. *)
Lemma sample_jitter_eq ms j rng :
  in_u 64 ms ->
  exists rand, 0 <= rand <= sat_sub ms (fixed_ms ms j) /\
    (sample_jitter (from_millis ms) j rng).1 =
      from_millis (if ms =? 0 then 0 else Z.min (sat_add 64 (fixed_ms ms j) rand) ms).
Proof.
  intros Hms. unfold sample_jitter. rewrite as_from_millis, wrap_small by done.
  destruct (ms =? 0); [exists 0; split; [unfold sat_sub; lia|done]|].
  destruct (Z.eqb_spec (sat_sub ms (fixed_ms ms j)) 0) as [E|E]; [exists 0; split; [lia|done]|].
  assert (0 <= sat_sub ms (fixed_ms ms j)) by (unfold sat_sub; lia).
  pose proof (gen_range_in rng 0 (sat_sub ms (fixed_ms ms j))) as Hg.
  destruct (gen_range rng 0 _) as [x r'] eqn:Ex. cbn in *. exists x. split; [lia|done].
Qed.

Lemma next_delay_sample b rng :
  0 <= bk_attempt b -> cfg_ok (bk_cfg b) ->
  (next_delay b rng).1.1 =
    (sample_jitter (from_millis (ceiling_spec (initial_delay (bk_cfg b)) (max_delay (bk_cfg b))
       (bk_attempt b))) (jitter (bk_cfg b)) rng).1.
Proof.
  intros Ha [Hi Hm]. unfold next_delay. rewrite ceiling_eq_spec by done.
  by destruct (sample_jitter _ _ rng).
Qed.

Lemma next_delay_state b rng :
  (next_delay b rng).1.2 = mkBackoff (bk_cfg b) (sat_add 32 (bk_attempt b) 1).
Proof.
  unfold next_delay. destruct (ceiling_for_attempt _ _ _); [|done].
  by destruct (sample_jitter _ _ rng).
Qed.

Lemma next_delays_state k b rng :
  in_u 32 (bk_attempt b) ->
  (next_delays k b rng).1 = mkBackoff (bk_cfg b) (Z.min (bk_attempt b + Z.of_nat k) (umax 32)).
Proof.
  revert b rng. induction k as [|k IH]; intros b rng Hb.
  - cbn. destruct b as [c a]. cbn in *. unfold in_u in Hb. f_equal. lia.
  - cbn [next_delays]. pose proof (next_delay_state b rng) as Hs.
    destruct (next_delay b rng) as [[d b'] rng']. cbn [fst snd] in Hs. subst b'.
    rewrite IH by (cbn; apply sat_add_in_u; [done|lia]). cbn [bk_cfg bk_attempt].
    unfold sat_add, in_u in *. f_equal. lia.
Qed.
End Jitter.

(** ** Lemmas: the fixed part *)

(** The product [ms * p/2^k], rounded twice and truncated, is below the exact
    value by less than two. *)
Lemma fixed_product ms p k :
  0 <= ms < 2 ^ 50 -> 0 <= k -> 0 <= p <= 2 ^ k ->
  ms * p <= 2 ^ k * (f64_to_u64 (f64_mul (f64_of_u64 ms) (round53 (mkF64 p (- k)))) + 2).
Proof.
  intros Hms Hk Hp. unfold f64_mul, f64_of_u64.
  rewrite (round53_small ms 0) by (change (2 ^ 53) with (8 * 2 ^ 50); lia).
  destruct (round53_error (mkF64 p (- k)) ltac:(cbn; lia)) as (a & Ha & He1 & Hm1 & Herr1).
  set (r1 := round53 (mkF64 p (- k))) in *. cbn [f_m f_e] in *.
  destruct (round53_error (mkF64 (ms * f_m r1) (0 + f_e r1)) ltac:(cbn; nia))
    as (b & Hb & He2 & Hm2 & Herr2).
  set (r2 := round53 (mkF64 (ms * f_m r1) (0 + f_e r1))) in *. cbn [f_m f_e] in *.
  replace r2 with (mkF64 (f_m r2) (a + b - k)) by (destruct r2; cbn in *; f_equal; lia).
  rewrite to_u64_floor by lia. clearbody r2 r1.
  assert (0 < 2 ^ a) by (apply Z.pow_pos_nonneg; lia).
  assert (0 < 2 ^ b) by (apply Z.pow_pos_nonneg; lia).
  assert (0 < 2 ^ k) by (apply Z.pow_pos_nonneg; lia).
  rewrite Z.pow_add_r by lia.
  set (A := 2 ^ a) in *. set (B := 2 ^ b) in *. set (K := 2 ^ k) in *.
  set (p1 := f_m r1) in *. set (q := f_m r2) in *. clearbody A B K p1 q. clear He1 He2 r1 r2.
  change (2 ^ 53) with (8 * 2 ^ 50) in *. set (T := 2 ^ 50) in *.
  assert (1024 <= T) as HT by (subst T; cbn; lia).
  assert (8 * T <= umax 64) as HT2 by (subst T; vm_compute; discriminate). clearbody T.
  set (d1 := Z.abs (p1 * A - p)) in *. set (d2 := Z.abs (q * B - ms * p1)) in *.
  assert (0 <= d1 /\ p - d1 <= p1 * A <= p + d1) as Hd1 by lia.
  assert (0 <= d2 /\ ms * p1 - d2 <= q * B <= ms * p1 + d2) as Hd2 by lia.
  clearbody d1 d2.
  assert (8 * (d1 * ms) <= K) as Hn1 by nia.
  assert (p1 * A <= 2 * K) as Hn2 by nia.
  assert (8 * T * (d2 * A) <= ms * (p1 * A)) as Hn3 by nia.
  assert (4 * (d2 * A) <= K) as Hn4 by nia.
  assert (ms * (p1 * A) - d2 * A <= q * (A * B) <= ms * (p1 * A) + d2 * A) as Hn5 by nia.
  assert (ms * p - d1 * ms <= ms * (p1 * A)) as Hn6 by nia.
  assert (ms * (p1 * A) <= 2 * T * K) as Hn7 by nia.
  pose proof (Z.div_mod (q * (A * B)) K ltac:(lia)) as Hdm.
  pose proof (Z.mod_pos_bound (q * (A * B)) K ltac:(lia)) as Hmod.
  set (D := q * (A * B) / K) in *. clearbody D.
  assert (D <= 4 * T) by nia.
  rewrite Z.min_l by lia. nia.
Qed.

(** The fixed part covers the share [1 - m/2^k] of the ceiling up to 2 ms. *)
Lemma fixed_lower ms m k :
  0 <= ms < 2 ^ 50 -> 0 <= k -> 0 <= m <= 2 ^ k ->
  ms * (2 ^ k - m) <= 2 ^ k * (fixed_ms ms (F32 m (- k)) + 2).
Proof.
  intros Hms Hk Hm. unfold fixed_ms, clamp01.
  destruct (Z.leb_spec m 0) as [Hz|Hz].
  { pose proof (fixed_product ms 1 0 Hms ltac:(lia) ltac:(cbn; lia)) as H. cbn [one_minus].
    cbn [Z.leb Z.compare]. change (mkF64 (1 - 0 * 2 ^ 0) 0) with (mkF64 1 (- 0)).
    set (D := f64_to_u64 _) in *. rewrite Z.pow_0_r in H.
    assert (0 <= 2 ^ k) by (apply Z.pow_nonneg; lia). nia. }
  destruct (Z.leb_spec 0 (- k)) as [Hz2|Hz2].
  { replace k with 0 in * by lia. change (2 ^ 0) with 1 in *.
    replace m with 1 by lia. pose proof (fixed_product ms 0 0 Hms ltac:(lia) ltac:(cbn; lia)).
    cbn [one_minus Z.leb Z.compare]. change (mkF64 (1 - 1 * 2 ^ 0) 0) with (mkF64 0 (- 0)).
    change (2 ^ 0) with 1 in *. lia. }
  replace (- - k) with k by lia. destruct (Z.ltb_spec (2 ^ k) m) as [|_]; [lia|].
  cbn [one_minus]. destruct (Z.leb_spec 0 (- k)); [lia|]. replace (- - k) with k by lia.
  apply fixed_product; lia.
Qed.

(** ** Theorems *)

(** the ceiling computed with [u64] wrapping casts, a checked shift and a
    saturating product is the exact [min(initial * 2^min(n,31),
    max(max_delay, initial))] in milliseconds, for every attempt number and
    every pair of durations whose milliseconds fit 64 bits; in particular the
    shift never fails. *)
Theorem ceiling_exact (initial max n : Z) :
  0 <= n -> in_u 64 (as_millis initial) -> in_u 64 (as_millis max) ->
  ceiling_for_attempt initial max n = Some (from_millis (ceiling_spec initial max n)).
Proof. apply ceiling_eq_spec. Qed.

Lemma ceiling_exact_witness :
  ceiling_for_attempt (from_secs 1) (from_secs 60) 5
  = Some (from_millis (ceiling_spec (from_secs 1) (from_secs 60) 5)).
Proof. apply ceiling_exact; [lia|split; vm_compute; discriminate..]. Defined.

(** C18: every scheduled delay lies between the deterministic share of the
    ceiling and the ceiling: with jitter [m/2^k] in [0, 1] and ceilings below
    2^50 ms, a delay of [d] ms on attempt [n] satisfies
    [ceiling * (1 - m/2^k) - 2 <= d <= ceiling], whatever the generator
    returns and despite the floating-point rounding. *)
Theorem next_delay_bounds {R} `{Rng R} (b : Backoff) (rng : R) (m k : Z) :
  0 <= bk_attempt b -> cfg_ok (bk_cfg b) ->
  jitter (bk_cfg b) = F32 m (- k) -> 0 <= k -> 0 <= m <= 2 ^ k ->
  let c := ceiling_spec (initial_delay (bk_cfg b)) (max_delay (bk_cfg b)) (bk_attempt b) in
  c < 2 ^ 50 ->
  exists d, (next_delay b rng).1.1 = from_millis d /\
    d <= c /\ c * (2 ^ k - m) <= 2 ^ k * (d + 2).
Proof.
  intros Ha Hok Hj Hk Hm c Hc. rewrite next_delay_sample by done. fold c. rewrite Hj.
  assert (in_u 64 c) as Hcu by (destruct Hok; by apply ceiling_spec_range).
  destruct (sample_jitter_eq c (F32 m (- k)) rng Hcu) as (rand & Hrand & ->).
  eexists. split; [done|]. unfold in_u in Hcu.
  assert (0 < 2 ^ k) by (apply Z.pow_pos_nonneg; lia).
  pose proof (fixed_lower c m k ltac:(lia) Hk Hm) as Hlow.
  set (f := fixed_ms c _) in *. clearbody f. unfold sat_add, sat_sub in *.
  destruct (Z.eqb_spec c 0) as [->|Hne]; [split; [lia|nia]|].
  split; [lia|]. assert (c * (2 ^ k - m) <= 2 ^ k * c) by nia.
  destruct (Z.min_spec (Z.min (f + rand) (umax 64)) c) as [[_ ->]|[_ ->]]; [|nia].
  destruct (Z.min_spec (f + rand) (umax 64)) as [[_ ->]|[_ ->]]; nia.
Qed.

Lemma next_delay_bounds_witness :
  let b := mkBackoff (mkBackoffConfig (from_secs 1) (from_secs 60) 0 (F32 1 (- 1)) 0 false) 3 in
  exists d, (next_delay b [1234]).1.1 = from_millis d /\
    d <= 8000 /\ 8000 * (2 ^ 1 - 1) <= 2 ^ 1 * (d + 2).
Proof.
  apply (next_delay_bounds (R := list Z) (mkBackoff (mkBackoffConfig (from_secs 1) (from_secs 60) 0
    (F32 1 (- 1)) 0 false) 3) [1234] 1 1);
    [cbn; lia|split; split; vm_compute; discriminate|reflexivity|lia|cbn; lia|vm_compute; reflexivity].
Defined.

(** with [max_attempts = n > 0] exactly [n] delays are handed out before the
    backoff reports exhaustion: after [k] calls from a fresh backoff it is
    exhausted iff [k >= n]; [n = 0] never exhausts; and the [u32] counter
    saturates instead of wrapping back to an unexhausted value. *)
Theorem exhausted_after_max_attempts {R} `{Rng R} (cfg : BackoffConfig) (k : nat) (rng : R) :
  in_u 32 (max_attempts cfg) ->
  let b := (next_delays k (Backoff_new cfg) rng).1 in
  (exhausted b = true <-> max_attempts cfg <> 0 /\ max_attempts cfg <= Z.of_nat k) /\
  bk_attempt b = Z.min (Z.of_nat k) (umax 32) /\
  exhausted (Backoff_reset b) = false.
Proof.
  intros Hmax b. subst b.
  rewrite next_delays_state by (cbn; unfold in_u, umax; lia). cbn [Backoff_new bk_cfg bk_attempt].
  unfold exhausted, Backoff_reset, in_u in *. cbn [bk_cfg bk_attempt]. split_and!; [split|lia|].
  - intros H'. bool_prop. lia.
  - intros [H1 H2]. apply andb_true_iff. split; [by apply negb_true_iff, Z.eqb_neq|].
    apply Z.leb_le. lia.
  - destruct (Z.eqb_spec (max_attempts cfg) 0); [done|]. cbn. apply Z.leb_gt. lia.
Qed.

Lemma exhausted_after_max_attempts_witness :
  let cfg := mkBackoffConfig (from_secs 1) (from_secs 60) 0 (F32 1 0) 3 false in
  let b := (next_delays 3 (Backoff_new cfg) [5; 6; 7]).1 in
  (exhausted b = true <-> max_attempts cfg <> 0 /\ max_attempts cfg <= Z.of_nat 3) /\
  bk_attempt b = Z.min (Z.of_nat 3) (umax 32) /\
  exhausted (Backoff_reset b) = false.
Proof.
  apply (exhausted_after_max_attempts (R := list Z)
    (mkBackoffConfig (from_secs 1) (from_secs 60) 0 (F32 1 0) 3 false)).
  split; vm_compute; discriminate.
Defined.

(** two edges of the ceiling that the documented formula
    [min(max_delay, initial_delay * 2^n)] does not have. When [max_delay] is
    below [initial_delay] the cap is [initial_delay], so every ceiling exceeds
    [max_delay]; and when [initial_delay] is below one millisecond every
    ceiling is zero, whatever [max_delay] says. *)
Theorem ceiling_edges (initial max n : Z) :
  0 <= n -> in_u 64 (as_millis initial) -> in_u 64 (as_millis max) ->
  (as_millis max < as_millis initial ->
   ceiling_for_attempt initial max n = Some (from_millis (as_millis initial))) /\
  (as_millis initial = 0 -> ceiling_for_attempt initial max n = Some 0).
Proof.
  intros Hn Hi Hm. rewrite ceiling_eq_spec by done. unfold ceiling_spec. unfold in_u in *.
  split; intros Hc.
  - do 2 f_equal. assert (1 <= 2 ^ Z.min n 31); [|nia].
    change 1 with (2 ^ 0). apply Z.pow_le_mono_r; lia.
  - rewrite Hc. by replace (Z.min _ _) with 0 by lia.
Qed.

Lemma ceiling_edges_witness :
  (as_millis (from_secs 10) < as_millis (from_secs 30) ->
   ceiling_for_attempt (from_secs 30) (from_secs 10) 0
   = Some (from_millis (as_millis (from_secs 30)))) /\
  (as_millis (from_secs 30) = 0 ->
   ceiling_for_attempt (from_secs 30) (from_secs 10) 0 = Some 0).
Proof.
  apply ceiling_edges; [lia|split; vm_compute; discriminate..].
Defined.
