(* ===== verification/Instability.v ===== *)
(** * The instability detector

    Models [crates/spt-supervisor/src/instability.rs]: the sliding window of
    disconnects, the rolling p95 latency estimator, the consecutive-miss
    counter, and the latch with its clean-uptime clock.

    [Instant::checked_sub] fails when the result is before the earliest instant
    the platform's monotonic clock can represent; that instant is the argument
    [earliest] of [record_disconnect]. *)

From S2P Require Import Prelude Float.

(** ** Configuration *)

Inductive InstabilityAction :=
| MarkDegraded
| AFailover
| IncreaseKeepalive
| IncreaseBackoff
| EmitEvent
| ARestartSession.

#[global] Instance InstabilityAction_eq_dec : EqDecision InstabilityAction.
Proof. solve_decision. Defined.

Record InstabilityWindow := mkInstabilityWindow {
  iw_enabled : bool;
  iw_window : Z;
  iw_max_disconnects : Z;
  iw_clear_after : Z;
  iw_max_keepalive_misses : option Z;
  iw_max_latency_p95 : option Z;
  iw_action : InstabilityAction
}.

Definition InstabilityWindow_default : InstabilityWindow := {|
  iw_enabled := true;
  iw_window := from_secs 60;
  iw_max_disconnects := 3;
  iw_clear_after := from_secs 120;
  iw_max_keepalive_misses := None;
  iw_max_latency_p95 := None;
  iw_action := MarkDegraded
|}.

(** ** Rolling latency *)

Definition LATENCY_WINDOW : nat := 64.

(** [LatencyEstimator::record] on the samples, oldest first. *)
Definition latency_record (samples : list Z) (rtt : Z) : list Z :=
  (if decide (length samples = LATENCY_WINDOW) then tail samples else samples) ++ [rtt].

(** The literal [0.95_f64]. *)
Definition f64_095 : f64 := mkF64 8556839292003942 (-53).

(** [((0.95 * n as f64).ceil() as usize).max(1)]. *)
Definition p95_rank (n : nat) : nat :=
  Nat.max (Z.to_nat (f64_ceil (f64_mul f64_095 (f64_of_u64 (Z.of_nat n))))) 1.

(** [LatencyEstimator::p95]: the sample of that rank in the sorted window. *)
Definition p95 (samples : list Z) : option Z :=
  let n := length samples in
  if decide (n = 0%nat) then None
  else merge_sort Z.le samples !! (Nat.min (p95_rank n) n - 1)%nat.

(** ** The detector *)

Record InstabilityDetector := mkDetector {
  d_cfg : InstabilityWindow;
  d_events : list Z;
  d_triggered : bool;
  d_last_clean : option Z;
  d_latency : list Z;
  d_misses : Z
}.

Definition InstabilityDetector_new (cfg : InstabilityWindow) : InstabilityDetector :=
  mkDetector cfg [] false None [] 0.

Definition is_unstable (d : InstabilityDetector) : bool := d_triggered d.

(** [Instant::checked_sub]. *)
Definition instant_checked_sub (earliest now d : Z) : option Z :=
  if earliest <=? now - d then Some (now - d) else None.

(** The [while] loop that pops expired events from the front. *)
Fixpoint drop_older (cutoff : Z) (events : list Z) : list Z :=
  match events with
  | t :: rest => if t <? cutoff then drop_older cutoff rest else events
  | [] => []
  end.

(** [record_disconnect]: the returned flag and the detector afterwards. *)
Definition record_disconnect (earliest : Z) (d : InstabilityDetector) (now : Z)
  : bool * InstabilityDetector :=
  if negb (iw_enabled (d_cfg d)) then (false, d)
  else
    let cutoff := default now (instant_checked_sub earliest now (iw_window (d_cfg d))) in
    let events := drop_older cutoff (d_events d) ++ [now] in
    let count := wrap 32 (Z.of_nat (length events)) in
    let newly := negb (d_triggered d) && (iw_max_disconnects (d_cfg d) <? count) in
    (newly, mkDetector (d_cfg d) events (d_triggered d || newly) None (d_latency d) (d_misses d)).

(** [record_probe]: [Some rtt] for a successful probe, [None] for a miss. *)
Definition record_probe (d : InstabilityDetector) (rtt : option Z)
  : bool * InstabilityDetector :=
  if negb (iw_enabled (d_cfg d)) then (false, d)
  else
    match rtt with
    | Some sample =>
        let latency := latency_record (d_latency d) sample in
        let newly :=
          match iw_max_latency_p95 (d_cfg d) with
          | Some ceiling =>
              match p95 latency with
              | Some p => (ceiling <? p) && negb (d_triggered d)
              | None => false
              end
          | None => false
          end in
        (newly, mkDetector (d_cfg d) (d_events d) (d_triggered d || newly)
                  (if newly then None else d_last_clean d) latency 0)
    | None =>
        let misses := sat_add 32 (d_misses d) 1 in
        let newly :=
          match iw_max_keepalive_misses (d_cfg d) with
          | Some threshold => (0 <? threshold) && (threshold <=? misses) && negb (d_triggered d)
          | None => false
          end in
        (newly, mkDetector (d_cfg d) (d_events d) (d_triggered d || newly)
                  (if newly then None else d_last_clean d) (d_latency d) misses)
    end.

(** [tick_healthy]: whether the flag was cleared, and the detector. *)
Definition tick_healthy (d : InstabilityDetector) (now : Z) : bool * InstabilityDetector :=
  match d_last_clean d with
  | None =>
      (false, mkDetector (d_cfg d) (d_events d) (d_triggered d) (Some now) (d_latency d) (d_misses d))
  | Some started =>
      if negb (d_triggered d) then (false, d)
      else if iw_clear_after (d_cfg d) <=? duration_since now started
      then (true, mkDetector (d_cfg d) [] false (d_last_clean d) [] 0)
      else (false, d)
  end.

(** ** Histories

    A run of the detector together with what it should remember: every
    disconnect since the flag was last cleared, the time of the last
    disconnect and the time of the last trip.  A probe carries the time at
    which the supervisor made it, which the detector itself does not see. *)

Inductive DetectorOp :=
| ODisconnect (now : Z)
| OProbe (now : Z) (rtt : option Z)
| OTick (now : Z).

Definition op_time (o : DetectorOp) : Z :=
  match o with ODisconnect t | OProbe t _ | OTick t => t end.

Record History := mkHistory {
  h_det : InstabilityDetector;
  h_disconnects : list Z;
  h_last : option Z;
  h_trip : option Z
}.

Definition history_new (cfg : InstabilityWindow) : History :=
  mkHistory (InstabilityDetector_new cfg) [] None None.

Definition history_step (earliest : Z) (h : History) (o : DetectorOp) : History :=
  match o with
  | ODisconnect now =>
      let '(newly, d) := record_disconnect earliest (h_det h) now in
      mkHistory d (h_disconnects h ++ [now]) (Some now) (if newly then Some now else h_trip h)
  | OProbe now rtt =>
      let '(newly, d) := record_probe (h_det h) rtt in
      mkHistory d (h_disconnects h) (h_last h) (if newly then Some now else h_trip h)
  | OTick now =>
      let '(cleared, d) := tick_healthy (h_det h) now in
      mkHistory d (if cleared then [] else h_disconnects h) (h_last h)
        (if cleared then None else h_trip h)
  end.

Definition history_run (earliest : Z) (h : History) (os : list DetectorOp) : History :=
  foldl (history_step earliest) h os.

(** The window the detector promises: the disconnects since the last clear that
    are no older than [window] at the time of the last disconnect. *)
Definition window_spec (w : Z) (h : History) : list Z :=
  match h_last h with
  | None => []
  | Some t => List.filter (fun x => t - w <=? x) (h_disconnects h)
  end.

(** Operations in time order. *)
Fixpoint times_from (t : Z) (os : list DetectorOp) : Prop :=
  match os with
  | [] => True
  | o :: os' => t <= op_time o /\ times_from (op_time o) os'
  end.

(** How many samples satisfy a test. *)
Definition count_if (f : Z -> bool) (l : list Z) : nat := length (List.filter f l).

(** ** Lemmas: the window *)

Lemma filter_all (f : Z -> bool) l : (forall x, x ∈ l -> f x = true) -> List.filter f l = l.
Proof.
  induction l as [|a l IH]; cbn; intros H; [done|].
  rewrite (H a) by constructor. f_equal. apply IH. intros x Hx. apply H. by constructor.
Qed.

(** Popping expired events from the front of a time-ordered queue is filtering. *)
Lemma drop_older_filter c0 c l :
  c0 <= c -> StronglySorted Z.le l ->
  drop_older c (List.filter (fun x => c0 <=? x) l) = List.filter (fun x => c <=? x) l.
Proof.
  intros Hc. induction 1 as [|a l Hs IH Hall]; [done|]. cbn [List.filter].
  rewrite Forall_forall in Hall.
  destruct (Z.leb_spec c0 a) as [H0|H0]; destruct (Z.leb_spec c a) as [H1|H1]; try lia; try done.
  - rewrite !filter_all; cbn.
    + by destruct (Z.ltb_spec a c); [lia|].
    + intros x Hx. apply Z.leb_le. specialize (Hall x Hx). lia.
    + intros x Hx. apply Z.leb_le. specialize (Hall x Hx). lia.
  - cbn. by destruct (Z.ltb_spec a c); [|lia].
Qed.

Lemma sorted_snoc l x :
  StronglySorted Z.le l -> (forall y, y ∈ l -> y <= x) -> StronglySorted Z.le (l ++ [x]).
Proof.
  intros Hs Hx. induction Hs as [|a l Hs IH Hall]; cbn; [repeat constructor|].
  constructor; [apply IH; intros y Hy; apply Hx; by constructor|].
  apply Forall_app. split; [done|]. constructor; [apply Hx; constructor|constructor].
Qed.

(** ** Lemmas: histories *)

Lemma record_disconnect_cfg e d now : d_cfg (record_disconnect e d now).2 = d_cfg d.
Proof. unfold record_disconnect. by destruct (negb _). Qed.

Lemma record_probe_cfg d rtt : d_cfg (record_probe d rtt).2 = d_cfg d.
Proof. unfold record_probe. destruct (negb _); [done|]. by destruct rtt. Qed.

Lemma tick_healthy_cfg d now : d_cfg (tick_healthy d now).2 = d_cfg d.
Proof. unfold tick_healthy. by repeat split_goal. Qed.

Lemma history_step_cfg e h o : d_cfg (h_det (history_step e h o)) = d_cfg (h_det h).
Proof.
  destruct o as [now|now rtt|now]; cbn.
  - pose proof (record_disconnect_cfg e (h_det h) now). by destruct (record_disconnect _ _ _).
  - pose proof (record_probe_cfg (h_det h) rtt). by destruct (record_probe _ _).
  - pose proof (tick_healthy_cfg (h_det h) now). by destruct (tick_healthy _ _).
Qed.

#[export] Hint Rewrite record_disconnect_cfg record_probe_cfg tick_healthy_cfg history_step_cfg
  : spt_rw.

Lemma history_run_snoc e h os o :
  history_run e h (os ++ [o]) = history_step e (history_run e h os) o.
Proof. unfold history_run. by rewrite foldl_app. Qed.

Lemma history_run_cfg e h os : d_cfg (h_det (history_run e h os)) = d_cfg (h_det h).
Proof.
  induction os as [|o os IH] using rev_ind; [done|].
  by rewrite history_run_snoc, history_step_cfg.
Qed.

Lemma times_from_app_l t os os' : times_from t (os ++ os') -> times_from t os.
Proof. revert t. induction os as [|o os IH]; cbn; [done|]. intros t [? ?]. eauto. Qed.

Lemma record_probe_events d rtt : d_events (record_probe d rtt).2 = d_events d.
Proof. unfold record_probe. destruct (negb _); [done|]. by destruct rtt. Qed.

Lemma tick_healthy_events d now :
  d_events (tick_healthy d now).2 = if (tick_healthy d now).1 then [] else d_events d.
Proof. unfold tick_healthy. by repeat split_goal. Qed.

(** Everything the proofs below need to know of a history at time [t]. *)
Record history_inv (w : Z) (h : History) (t : Z) : Prop := {
  hi_enabled : iw_enabled (d_cfg (h_det h)) = true;
  hi_window : iw_window (d_cfg (h_det h)) = w;
  hi_sorted : StronglySorted Z.le (h_disconnects h);
  hi_past : forall x, x ∈ h_disconnects h -> x <= t;
  hi_last : forall x, h_last h = Some x -> x <= t;
  hi_none : h_last h = None -> h_disconnects h = [];
  hi_events : d_events (h_det h) = window_spec w h
}.

Lemma history_inv_disconnect e w h t now :
  0 <= w -> history_inv w h t -> t <= now -> e <= now - w ->
  history_inv w (history_step e h (ODisconnect now)) now.
Proof.
  intros Hw0 [Hen Hw Hso Hpa Hla Hno Hev] Ht He. cbn. unfold record_disconnect. rewrite Hen. cbn [negb].
  split; cbn [h_det h_disconnects h_last d_cfg d_events].
  - done.
  - done.
  - apply sorted_snoc; [done|]. intros y Hy. specialize (Hpa y Hy). lia.
  - intros x [Hx|Hx%list_elem_of_singleton]%elem_of_app; [specialize (Hpa x Hx)|subst]; lia.
  - intros x [= <-]. lia.
  - done.
  - unfold instant_checked_sub, window_spec. rewrite Hw. cbn [h_last h_disconnects].
    destruct (Z.leb_spec e (now - w)); [|lia]. unfold default, id.
    rewrite List.filter_app. cbn [List.filter]. rewrite Hev. unfold window_spec.
    destruct (h_last h) as [t0|] eqn:El.
    + pose proof (Hla t0 eq_refl). rewrite drop_older_filter by (done || lia).
      f_equal. destruct (Z.leb_spec (now - w) now); [done|lia].
    + rewrite (Hno eq_refl). cbn. destruct (Z.leb_spec (now - w) now); [done|lia].
Qed.

Lemma history_inv_step e w h t o :
  0 <= w -> history_inv w h t -> t <= op_time o ->
  (forall now, o = ODisconnect now -> e <= now - w) ->
  history_inv w (history_step e h o) (op_time o).
Proof.
  intros Hw0 Hinv Ht He. destruct o as [now|now rtt|now]; cbn [op_time] in *.
  { eapply history_inv_disconnect; eauto. }
  all: destruct Hinv as [Hen Hw Hso Hpa Hla Hno Hev]; cbn [history_step].
  - pose proof (record_probe_cfg (h_det h) rtt) as Hc. pose proof (record_probe_events (h_det h) rtt).
    destruct (record_probe _ _) as [n d]. cbn [snd] in *.
    split; cbn; try congruence; try done.
    + intros x Hx. specialize (Hpa x Hx). lia.
    + intros x Hx. specialize (Hla x Hx). lia.
    + unfold window_spec in *. cbn. congruence.
  - pose proof (tick_healthy_cfg (h_det h) now) as Hc.
    destruct (tick_healthy (h_det h) now) as [cl d] eqn:E. cbn [snd] in *.
    pose proof (tick_healthy_events (h_det h) now) as Hd. rewrite E in Hd. cbn [fst snd] in Hd.
    split; cbn; try congruence.
    + destruct cl; [constructor|done].
    + destruct cl; [by intros ? ?%not_elem_of_nil|]. intros x Hx. specialize (Hpa x Hx). lia.
    + intros x Hx. specialize (Hla x Hx). lia.
    + intros Hl. destruct cl; auto.
    + rewrite Hd. destruct cl; [|done]. unfold window_spec. cbn. by destruct (h_last h).
Qed.

Lemma history_inv_run e w h t os :
  0 <= w -> history_inv w h t -> times_from t os ->
  (forall now, ODisconnect now ∈ os -> e <= now - w) ->
  exists t', t <= t' /\ history_inv w (history_run e h os) t' /\
    forall now, times_from t (os ++ [ODisconnect now]) -> t' <= now.
Proof.
  intros Hw. revert h t. induction os as [|o os IH]; intros h t Hinv Ht He; cbn.
  - exists t. split_and!; [lia|done|]. intros now [H _]. done.
  - destruct Ht as [Ht Hts].
    destruct (IH (history_step e h o) (op_time o)) as (t' & Hle & Hi & Hn); [|done| |].
    + eapply history_inv_step; [done|done|done|]. intros now ->. apply He. constructor.
    + intros now Hin. apply He. by constructor.
    + exists t'. split_and!; [lia|done|]. intros now [_ H]. by apply Hn.
Qed.

Lemma history_inv_new cfg t :
  iw_enabled cfg = true -> history_inv (iw_window cfg) (history_new cfg) t.
Proof.
  intros He. split; cbn; try done; try constructor. intros x Hx. by apply not_elem_of_nil in Hx.
Qed.

Lemma drop_older_length c l : (length (drop_older c l) <= length l)%nat.
Proof. induction l as [|t l IH]; cbn; [done|]. destruct (_ <? _); cbn; lia. Qed.

Lemma history_events_length e h os :
  (length (d_events (h_det (history_run e h os))) <= length (d_events (h_det h)) + length os)%nat.
Proof.
  revert h. induction os as [|o os IH]; intros h; cbn; [lia|].
  etrans; [apply IH|].
  assert (length (d_events (h_det (history_step e h o))) <= length (d_events (h_det h)) + 1)%nat; [|lia].
  destruct o as [now|now rtt|now]; cbn.
  - unfold record_disconnect. destruct (negb _); cbn; [lia|].
    rewrite length_app. cbn. match goal with
    |- context [drop_older ?c ?l] => pose proof (drop_older_length c l) end. lia.
  - pose proof (record_probe_events (h_det h) rtt) as H. destruct (record_probe _ _). cbn in *.
    rewrite H. lia.
  - pose proof (tick_healthy_events (h_det h) now) as H. destruct (tick_healthy _ _) as [[] d].
    all: cbn in *; rewrite H; cbn; lia.
Qed.

(** ** Lemmas: the latch *)

(** A trip restarts the clean-uptime clock, and only a tick sets the clock. *)
Record latch_inv (h : History) (t : Z) : Prop := {
  li_clean : forall c, d_last_clean (h_det h) = Some c -> c <= t;
  li_trip : d_triggered (h_det h) = true ->
    exists trip, h_trip h = Some trip /\ trip <= t /\
      forall c, d_last_clean (h_det h) = Some c -> trip <= c
}.

Lemma latch_inv_step e h t o :
  latch_inv h t -> t <= op_time o -> latch_inv (history_step e h o) (op_time o).
Proof.
  intros [Hc Htr] Ht. destruct o as [now|now rtt|now]; cbn [op_time history_step] in *.
  - unfold record_disconnect. destruct (iw_enabled _); cbn [negb].
    2:{ split; cbn; [intros c E; specialize (Hc c E); lia|]. intros E.
        destruct (Htr E) as (trip & ? & ? & ?). eexists. split_and!; eauto; lia. }
    split; cbn; [done|]. intros E.
    destruct (negb (d_triggered (h_det h)) && _) eqn:En; [eexists; split_and!; [done|lia|done]|].
    rewrite orb_false_r in E. destruct (Htr E) as (trip & ? & ? & ?).
    eexists. split_and!; [done|lia|done].
  - assert (forall newly d', record_probe (h_det h) rtt = (newly, d') ->
      d_last_clean d' = (if newly then None else d_last_clean (h_det h)) /\
      d_triggered d' = d_triggered (h_det h) || newly) as Hp.
    { unfold record_probe. intros newly d'. destruct (iw_enabled _); cbn [negb].
      - destruct rtt; intros [= <- <-]; done.
      - intros [= <- <-]. by rewrite orb_false_r. }
    destruct (record_probe _ _) as [newly d'] eqn:E. destruct (Hp _ _ eq_refl) as [Hl Hd].
    split; cbn; rewrite Hl; destruct newly; try done.
    + intros c E'. specialize (Hc c E'). lia.
    + intros _. eexists. split_and!; [done|lia|done].
    + rewrite Hd, orb_false_r. intros E'. destruct (Htr E') as (trip & ? & ? & ?).
      eexists. split_and!; eauto; lia.
  - unfold tick_healthy. destruct (d_last_clean (h_det h)) as [c|] eqn:El.
    + destruct (d_triggered (h_det h)) eqn:Et; cbn [negb].
      * destruct (_ <=? _); split; cbn; try done.
        -- intros c'. rewrite ?El. intros [= <-]. specialize (Hc c eq_refl). lia.
        -- intros c'. rewrite ?El. intros [= <-]. specialize (Hc c eq_refl). lia.
        -- intros _. destruct (Htr eq_refl) as (trip & ? & ? & ?).
           eexists. split_and!; [done|lia|]. intros c'. rewrite El. auto.
      * split; cbn; [intros c'; rewrite El; intros [= <-]; specialize (Hc c eq_refl); lia|].
        by rewrite Et.
    + split; cbn; [intros c [= <-]; lia|]. intros E. destruct (Htr E) as (trip & ? & ? & ?).
      eexists. split_and!; [done|lia|]. intros c [= <-]. lia.
Qed.

Lemma latch_inv_run e h t os now :
  latch_inv h t -> times_from t (os ++ [OTick now]) ->
  exists t', t' <= now /\ latch_inv (history_run e h os) t'.
Proof.
  revert h t. induction os as [|o os IH]; intros h t Hi Ht; cbn in *.
  - exists t. destruct Ht. by split; [lia|].
  - destruct Ht as [H1 H2]. eapply IH; [|done]. by eapply latch_inv_step.
Qed.

(** ** Lemmas: the percentile *)

Lemma count_if_perm f l l' : l ≡ₚ l' -> count_if f l = count_if f l'.
Proof.
  unfold count_if. induction 1 as [|x l l' _ IH|x y l|l l' l'' _ IH1 _ IH2]; cbn.
  - done.
  - destruct (f x); cbn; lia.
  - by destruct (f x), (f y).
  - lia.
Qed.

Lemma count_if_all f l : (forall x, x ∈ l -> f x = true) -> count_if f l = length l.
Proof. intros H. unfold count_if. by rewrite filter_all. Qed.

Lemma count_if_none f l : (forall x, x ∈ l -> f x = false) -> count_if f l = 0%nat.
Proof.
  unfold count_if. induction l as [|a l IH]; cbn; intros H; [done|].
  rewrite (H a) by constructor. apply IH. intros x Hx. apply H. by constructor.
Qed.

Lemma count_if_app f l l' : count_if f (l ++ l') = (count_if f l + count_if f l')%nat.
Proof. unfold count_if. by rewrite List.filter_app, length_app. Qed.

(** The element at index [i] of a sorted list has at least [i + 1] elements
    below or at it and at most [i] strictly below it. *)
Lemma sorted_rank s i v :
  StronglySorted Z.le s -> s !! i = Some v ->
  (i + 1 <= count_if (fun x => (x <=? v)%Z) s /\ count_if (fun x => (x <? v)%Z) s <= i)%nat.
Proof.
  intros Hs Hi. pose proof (take_drop_middle s i v Hi) as Heq.
  pose proof (lookup_lt_Some _ _ _ Hi) as Hlt. rewrite <- Heq in Hs.
  apply StronglySorted_app in Hs as (Hlow & _ & Htail).
  apply StronglySorted_inv in Htail as [_ Hup]. rewrite Forall_forall in Hup.
  rewrite <- Heq, !count_if_app.
  rewrite (count_if_all (fun x => x <=? v) (take i s)).
  2:{ intros x Hx. apply Z.leb_le, Hlow; [done|constructor]. }
  rewrite (count_if_none (fun x => x <? v) (v :: drop (S i) s)).
  2:{ intros x [->|Hx]%elem_of_cons; apply Z.ltb_ge; [lia|]. by apply Hup. }
  pose proof (filter_length_le (fun x => x <? v) (take i s)).
  rewrite length_take in *. unfold count_if. cbn. rewrite Z.leb_refl. cbn. lia.
Qed.

(** The floating-point rank is the exact [ceil(19 n / 20)] for every window. *)
Lemma p95_rank_exact n :
  (1 <= n <= LATENCY_WINDOW)%nat -> p95_rank n = ((19 * n + 19) / 20)%nat.
Proof.
  intros Hn. assert (Forall (fun n => p95_rank n = ((19 * n + 19) / 20)%nat) (seq 1 64)) as H.
  { repeat (constructor; [vm_compute; reflexivity|]). constructor. }
  rewrite Forall_forall in H. apply H. apply elem_of_seq. unfold LATENCY_WINDOW in Hn. lia.
Qed.

Lemma p95_some l :
  (1 <= length l <= LATENCY_WINDOW)%nat ->
  exists v, p95 l = Some v /\ v ∈ l /\
    (19 * length l <= 20 * count_if (fun x => (x <=? v)%Z) l)%nat /\
    (20 * count_if (fun x => (x <? v)%Z) l < 19 * length l)%nat.
Proof.
  intros Hl. unfold p95. destruct (decide (length l = 0)%nat); [lia|].
  set (s := merge_sort Z.le l). pose proof (merge_sort_Permutation Z.le l) as Hp.
  assert (StronglySorted Z.le s) as Hs by (apply StronglySorted_merge_sort; apply _).
  assert (length s = length l) as Hlen by (by apply Permutation_length).
  rewrite p95_rank_exact by done.
  pose proof (Nat.div_mod_eq (19 * length l + 19) 20). pose proof (Nat.mod_upper_bound (19 * length l + 19) 20).
  set (r := ((19 * length l + 19) / 20)%nat) in *.
  rewrite Nat.min_l by lia.
  destruct (lookup_lt_is_Some_2 s (r - 1)) as [v Hv]; [lia|]. exists v.
  split_and!; [done|apply list_elem_of_In, (Permutation_in _ Hp), list_elem_of_In;
    by eapply list_elem_of_lookup_2|..];
    destruct (sorted_rank s (r - 1) v Hs Hv) as [H1 H2];
    rewrite <- (count_if_perm _ _ _ Hp); fold s; lia.
Qed.

Lemma latency_record_suffix l rtt :
  (length l <= LATENCY_WINDOW)%nat ->
  latency_record l rtt = drop (length (l ++ [rtt]) - LATENCY_WINDOW) (l ++ [rtt]).
Proof.
  intros Hl. unfold latency_record. rewrite length_app. cbn [length]. case_decide as E.
  - rewrite E. replace (LATENCY_WINDOW + 1 - LATENCY_WINDOW)%nat with 1%nat by lia.
    destruct l; [done|]. done.
  - by replace (length l + 1 - LATENCY_WINDOW)%nat with 0%nat by lia.
Qed.

Lemma latency_run_suffix os :
  foldl latency_record [] os = drop (length os - LATENCY_WINDOW) os.
Proof.
  induction os as [|x os IH] using rev_ind; [done|].
  rewrite foldl_app, IH. cbn [foldl].
  rewrite latency_record_suffix by (rewrite length_drop; lia).
  rewrite !length_app, length_drop. cbn [length].
  destruct (decide (length os <= LATENCY_WINDOW)%nat).
  - replace (length os - LATENCY_WINDOW)%nat with 0%nat by lia. rewrite drop_0. f_equal. lia.
  - replace (length os - (length os - LATENCY_WINDOW) + 1 - LATENCY_WINDOW)%nat with 1%nat by lia.
    rewrite <- drop_app_le, drop_drop by lia. f_equal. lia.
Qed.

(** ** Theorems *)

(** C31: the event queue is exactly the sliding window. For every time-ordered
    run of disconnects, probes and healthy ticks, and one further disconnect,
    the queue holds the disconnects since the last clear that are at most
    [window] old, and the call reports a new trip iff the detector was not
    already latched and that window has more than [max_disconnects] entries. *)
Theorem window_exact (earliest : Z) (cfg : InstabilityWindow) (os : list DetectorOp) (t0 now : Z) :
  iw_enabled cfg = true -> 0 <= iw_window cfg ->
  times_from t0 (os ++ [ODisconnect now]) ->
  (forall t, ODisconnect t ∈ os ++ [ODisconnect now] -> earliest <= t - iw_window cfg) ->
  Z.of_nat (length os) < umax 32 ->
  let h := history_run earliest (history_new cfg) os in
  let h' := history_step earliest h (ODisconnect now) in
  d_events (h_det h') = window_spec (iw_window cfg) h' /\
  ((record_disconnect earliest (h_det h) now).1 = true <->
   d_triggered (h_det h) = false /\
   iw_max_disconnects cfg < Z.of_nat (length (window_spec (iw_window cfg) h'))).
Proof.
  intros Hen Hw Ht He Hlen h h'.
  destruct (history_inv_run earliest (iw_window cfg) (history_new cfg) t0 os) as (t' & _ & Hi & Hn);
    [done|by apply history_inv_new|by eapply times_from_app_l
    |intros t Hin; apply He, elem_of_app; by left|].
  fold h in Hi. assert (history_inv (iw_window cfg) h' now) as Hi'.
  { apply history_inv_step with (o := ODisconnect now) (t := t'); [done|done|by apply Hn|].
    intros t [= <-]. apply He, elem_of_app. right. constructor. }
  pose proof (hi_events _ _ _ Hi') as Hev. split; [done|]. rewrite <- Hev.
  pose proof (history_events_length earliest (history_new cfg) (os ++ [ODisconnect now])) as Hbound.
  rewrite history_run_snoc, length_app in Hbound. fold h h' in Hbound.
  subst h'. cbn [history_step] in *. unfold record_disconnect in *.
  assert (d_cfg (h_det h) = cfg) as Hcfg by (subst h; apply history_run_cfg).
  rewrite Hcfg, Hen in *. cbn [negb fst snd h_det d_events] in *.
  rewrite wrap_small by (unfold in_u; cbn in Hbound; lia).
  rewrite andb_true_iff, negb_true_iff, Z.ltb_lt. done.
Qed.

Lemma window_exact_witness :
  let cfg := mkInstabilityWindow true 10 1 30 None None MarkDegraded in
  let h := history_run 0 (history_new cfg) [ODisconnect 20; OTick 21] in
  let h' := history_step 0 h (ODisconnect 25) in
  d_events (h_det h') = window_spec 10 h' /\
  ((record_disconnect 0 (h_det h) 25).1 = true <->
   d_triggered (h_det h) = false /\ 1 < Z.of_nat (length (window_spec 10 h'))).
Proof.
  apply (window_exact 0 (mkInstabilityWindow true 10 1 30 None None MarkDegraded)
    [ODisconnect 20; OTick 21] 0 25); [reflexivity|cbn; lia|cbn; lia| |vm_compute; reflexivity].
  intros t Ht%list_elem_of_In. cbn in *. destruct Ht as [[= <-]|[?|[[= <-]|[]]]]; [lia|done|lia].
Defined.

(** a trip holds for the full [clear_after]. In every time-ordered run, a
    healthy tick that clears the unstable flag comes at least [clear_after]
    after the trip it clears, whether a disconnect, the p95 latency or missed
    keepalives caused it; so a probe that trips the detector is never undone
    by the tick of the same probe cycle. *)
Theorem clear_waits_clear_after (earliest : Z) (cfg : InstabilityWindow) (os : list DetectorOp) (t0 now : Z) :
  0 <= iw_clear_after cfg ->
  times_from t0 (os ++ [OTick now]) ->
  let h := history_run earliest (history_new cfg) os in
  (tick_healthy (h_det h) now).1 = true ->
  d_triggered (h_det h) = true /\
  exists trip, h_trip h = Some trip /\ trip + iw_clear_after cfg <= now.
Proof.
  intros Hc Ht h Hcl.
  destruct (latch_inv_run earliest (history_new cfg) t0 os now) as (t' & Hle & [Hpast Htrip]);
    [by split|done|]. fold h in Hpast, Htrip.
  assert (d_cfg (h_det h) = cfg) as Hcfg by (subst h; apply history_run_cfg).
  unfold tick_healthy in Hcl. destruct (d_last_clean (h_det h)) as [c|]; [|done].
  destruct (d_triggered (h_det h)); [|done]. cbn [negb] in Hcl. split; [done|].
  destruct (Htrip eq_refl) as (trip & Etrip & _ & Hge). exists trip. split; [done|].
  specialize (Hge c eq_refl). specialize (Hpast c eq_refl). rewrite Hcfg in Hcl.
  destruct (Z.leb_spec (iw_clear_after cfg) (duration_since now c)); [|done].
  unfold duration_since, sat_sub in *. lia.
Qed.

Lemma clear_waits_clear_after_witness :
  let h := history_run 0 (history_new (mkInstabilityWindow true 10 1 30 None None MarkDegraded))
             [ODisconnect 20; ODisconnect 21; OTick 22] in
  (tick_healthy (h_det h) 60).1 = true /\
  (d_triggered (h_det h) = true /\ exists trip, h_trip h = Some trip /\ trip + 30 <= 60).
Proof.
  split; [reflexivity|].
  apply (clear_waits_clear_after 0 (mkInstabilityWindow true 10 1 30 None None MarkDegraded)
    [ODisconnect 20; ODisconnect 21; OTick 22] 0 60); [cbn; lia|cbn; lia|reflexivity].
Defined.

(** the p95 of the rolling window is the nearest-rank 95th percentile. After
    any sequence of successful probes the estimator holds the last 64 samples;
    if there is one, [p95] returns a sample [v] such that at least 95% of the
    window is at most [v] and less than 95% of it is strictly below [v], the
    binary rounding of [0.95 * n] notwithstanding. *)
Theorem p95_nearest_rank (samples : list Z) :
  samples <> [] ->
  let w := foldl latency_record [] samples in
  w = drop (length samples - LATENCY_WINDOW) samples /\
  exists v, p95 w = Some v /\ v ∈ w /\
    (19 * length w <= 20 * count_if (fun x => (x <=? v)%Z) w)%nat /\
    (20 * count_if (fun x => (x <? v)%Z) w < 19 * length w)%nat.
Proof.
  intros Hne w. assert (w = drop (length samples - LATENCY_WINDOW) samples) as Hw
    by apply latency_run_suffix.
  split; [done|]. apply p95_some. rewrite Hw, length_drop.
  destruct samples; [done|]. unfold LATENCY_WINDOW. cbn. lia.
Qed.

Lemma p95_nearest_rank_witness :
  let w := foldl latency_record [] [30; 10; 20] in
  w = drop (length [30; 10; 20] - LATENCY_WINDOW) [30; 10; 20] /\
  exists v, p95 w = Some v /\ v ∈ w /\
    (19 * length w <= 20 * count_if (fun x => (x <=? v)%Z) w)%nat /\
    (20 * count_if (fun x => (x <? v)%Z) w < 19 * length w)%nat.
Proof. apply p95_nearest_rank. discriminate. Defined.

(** the detector is blind while the monotonic clock is younger than the
    window. When [now - window] is before the earliest representable instant,
    [checked_sub] fails, the cutoff becomes [now], every earlier disconnect is
    discarded and the call reports no trip, however many there were. *)
Theorem early_clock_blind (earliest : Z) (d : InstabilityDetector) (now : Z) :
  iw_enabled (d_cfg d) = true -> 1 <= iw_max_disconnects (d_cfg d) ->
  now - iw_window (d_cfg d) < earliest ->
  (forall t, t ∈ d_events d -> t < now) ->
  d_events (record_disconnect earliest d now).2 = [now] /\
  (record_disconnect earliest d now).1 = false.
Proof.
  intros Hen Hmax He Hev. unfold record_disconnect. rewrite Hen. cbn [negb].
  unfold instant_checked_sub. destruct (Z.leb_spec earliest (now - iw_window (d_cfg d))); [lia|].
  assert (drop_older now (d_events d) = []) as Hd.
  { induction (d_events d) as [|t l IH]; [done|]. cbn.
    destruct (Z.ltb_spec t now); [|specialize (Hev t ltac:(constructor)); lia].
    apply IH. intros x Hx. apply Hev. by constructor. }
  unfold default, id. rewrite Hd. cbn [app fst snd d_events]. split; [done|].
  apply andb_false_iff. right. apply Z.ltb_ge. change (wrap 32 (Z.of_nat (length [now]))) with 1. lia.
Qed.

Lemma early_clock_blind_witness :
  let d := mkDetector InstabilityWindow_default [from_secs 1; from_secs 2; from_secs 3; from_secs 4]
             false None [] 0 in
  d_events (record_disconnect 0 d (from_secs 5)).2 = [from_secs 5] /\
  (record_disconnect 0 d (from_secs 5)).1 = false.
Proof.
  apply early_clock_blind; [reflexivity|cbn; lia|vm_compute; reflexivity|].
  intros t Ht%list_elem_of_In. cbn [d_events In] in Ht. unfold from_secs in *. lia.
Defined.
