(* ===== verification/Errors.v ===== *)
(** * Errors and exit codes

    Models [Error] of [crates/spt-core/src/error.rs], [Diagnostic] of
    [diagnostic.rs] and [ExitCode] of [exit_code.rs], with the mapping from
    errors to process exit codes, and the classifiers of connect errors of
    [crates/spt-supervisor/src/profile.rs]. *)

From S2P Require Import Prelude.

Inductive RetryAdvice :=
| NotRetryable
| RetryAfter (d : Z)
| RetryImmediately
| RetryWithBackoff.

(** Paths are strings. *)
Record Diagnostic := mkDiagnostic {
  dg_what : string;
  dg_why : option string;
  dg_how_to_fix : option string;
  dg_file_path : option string;
  dg_line_no : option Z;
  dg_endpoint : option string;
  dg_retry_advice : option RetryAdvice
}.

Inductive Error :=
| InvalidArgs (payload : string)
| InvalidConfig (payload : string)
| RuntimeFailure (payload : string)
| RequiredProfileFailed (profile : string) (reason : string)
| AuthFailed (payload : string)
| TrustFailed (payload : string)
| LocalBindFailed (address : string) (reason : string)
| RemoteBindFailed (address : string) (reason : string)
| ServiceManagerFailed (payload : string)
| UnsupportedPlatform (payload : string)
| DnsFailed (payload : string)
| NetworkUnreachable (payload : string)
| KeepaliveTimeout (after_ms : Z)
| ReloadFailed (payload : string)
| LoggingSinkUnavailable (sink : string) (reason : string)
| StateLockFailed (path : string) (reason : string)
| SecretUnavailable (reference : string) (reason : string)
| SecretCryptoFailed (payload : string)
| KeyFailure (payload : string)
| PermissionDenied (payload : string)
| ResourceExhausted (payload : string)
| RateLimited (payload : string)
| FailoverExhausted (profile : string)
| SnmpOrMetricsFailed (payload : string)
| WindowsEventLogFailed (payload : string)
| McpFailed (payload : string)
| RemoteSinkRejected (sink : string) (reason : string)
| PartialDegraded (payload : list string)
| HealthCheckFailed (check : string) (reason : string)
| VersionOrMigrationFailed (payload : string)
| InternalError (payload : string)
| DiagnosticFailed (check : string) (reason : string)
| DiagnosticBundleFailed (payload : string)
| BenchmarkFailed (payload : string)
| BenchmarkRefused (payload : string)
| SessionNotFound (payload : string)
| SessionCloseFailed (payload : string)
| InvalidConfigDiagnostic (d : Diagnostic)
| RuntimeFailureDiagnostic (d : Diagnostic)
| AuthFailedDiagnostic (d : Diagnostic)
| NetworkUnreachableDiagnostic (d : Diagnostic).

(** The codes carry an [X] prefix, being named like the errors. *)
Inductive ExitCode :=
| XSuccess
| XInvalidArgs
| XInvalidConfig
| XRuntimeFailure
| XRequiredProfileFailed
| XAuthFailed
| XTrustFailed
| XLocalBindFailed
| XRemoteBindFailed
| XServiceManagerFailed
| XUnsupportedPlatform
| XDnsFailed
| XNetworkUnreachable
| XKeepaliveTimeout
| XReloadFailed
| XLoggingSinkUnavailable
| XStateLockFailed
| XSecretUnavailable
| XSecretCryptoFailed
| XKeyFailure
| XPermissionDenied
| XResourceExhausted
| XRateLimited
| XFailoverExhausted
| XSnmpOrMetricsFailed
| XWindowsEventLogFailed
| XMcpFailed
| XRemoteSinkRejected
| XPartialDegraded
| XHealthCheckFailed
| XVersionOrMigrationFailed
| XInternalError
| XDiagnosticFailed
| XDiagnosticBundleFailed
| XBenchmarkFailed
| XBenchmarkRefused
| XSessionNotFound
| XSessionCloseFailed.

#[global] Instance ExitCode_eq_dec : EqDecision ExitCode.
Proof. solve_decision. Defined.

(** [ExitCode::as_i32]: the discriminants. *)
Definition as_i32 (c : ExitCode) : Z :=
  match c with
  | XSuccess => 0
  | XInvalidArgs => 1
  | XInvalidConfig => 2
  | XRuntimeFailure => 3
  | XRequiredProfileFailed => 4
  | XAuthFailed => 5
  | XTrustFailed => 6
  | XLocalBindFailed => 7
  | XRemoteBindFailed => 8
  | XServiceManagerFailed => 9
  | XUnsupportedPlatform => 10
  | XDnsFailed => 11
  | XNetworkUnreachable => 12
  | XKeepaliveTimeout => 13
  | XReloadFailed => 14
  | XLoggingSinkUnavailable => 15
  | XStateLockFailed => 16
  | XSecretUnavailable => 17
  | XSecretCryptoFailed => 18
  | XKeyFailure => 19
  | XPermissionDenied => 20
  | XResourceExhausted => 21
  | XRateLimited => 22
  | XFailoverExhausted => 23
  | XSnmpOrMetricsFailed => 24
  | XWindowsEventLogFailed => 25
  | XMcpFailed => 26
  | XRemoteSinkRejected => 27
  | XPartialDegraded => 28
  | XHealthCheckFailed => 29
  | XVersionOrMigrationFailed => 30
  | XInternalError => 31
  | XDiagnosticFailed => 32
  | XDiagnosticBundleFailed => 33
  | XBenchmarkFailed => 34
  | XBenchmarkRefused => 35
  | XSessionNotFound => 36
  | XSessionCloseFailed => 37
  end.

(** [Error::exit_code]. *)
Definition exit_code (e : Error) : ExitCode :=
  match e with
  | InvalidArgs _ => XInvalidArgs
  | InvalidConfig _ => XInvalidConfig
  | RuntimeFailure _ => XRuntimeFailure
  | RequiredProfileFailed _ _ => XRequiredProfileFailed
  | AuthFailed _ => XAuthFailed
  | TrustFailed _ => XTrustFailed
  | LocalBindFailed _ _ => XLocalBindFailed
  | RemoteBindFailed _ _ => XRemoteBindFailed
  | ServiceManagerFailed _ => XServiceManagerFailed
  | UnsupportedPlatform _ => XUnsupportedPlatform
  | DnsFailed _ => XDnsFailed
  | NetworkUnreachable _ => XNetworkUnreachable
  | KeepaliveTimeout _ => XKeepaliveTimeout
  | ReloadFailed _ => XReloadFailed
  | LoggingSinkUnavailable _ _ => XLoggingSinkUnavailable
  | StateLockFailed _ _ => XStateLockFailed
  | SecretUnavailable _ _ => XSecretUnavailable
  | SecretCryptoFailed _ => XSecretCryptoFailed
  | KeyFailure _ => XKeyFailure
  | PermissionDenied _ => XPermissionDenied
  | ResourceExhausted _ => XResourceExhausted
  | RateLimited _ => XRateLimited
  | FailoverExhausted _ => XFailoverExhausted
  | SnmpOrMetricsFailed _ => XSnmpOrMetricsFailed
  | WindowsEventLogFailed _ => XWindowsEventLogFailed
  | McpFailed _ => XMcpFailed
  | RemoteSinkRejected _ _ => XRemoteSinkRejected
  | PartialDegraded _ => XPartialDegraded
  | HealthCheckFailed _ _ => XHealthCheckFailed
  | VersionOrMigrationFailed _ => XVersionOrMigrationFailed
  | InternalError _ => XInternalError
  | DiagnosticFailed _ _ => XDiagnosticFailed
  | DiagnosticBundleFailed _ => XDiagnosticBundleFailed
  | BenchmarkFailed _ => XBenchmarkFailed
  | BenchmarkRefused _ => XBenchmarkRefused
  | SessionNotFound _ => XSessionNotFound
  | SessionCloseFailed _ => XSessionCloseFailed
  | InvalidConfigDiagnostic _ => XInvalidConfig
  | RuntimeFailureDiagnostic _ => XRuntimeFailure
  | AuthFailedDiagnostic _ => XAuthFailed
  | NetworkUnreachableDiagnostic _ => XNetworkUnreachable
  end.

(** [Error::diagnostic]. *)
Definition diagnostic (e : Error) : option Diagnostic :=
  match e with
  | InvalidConfigDiagnostic d
  | RuntimeFailureDiagnostic d
  | AuthFailedDiagnostic d
  | NetworkUnreachableDiagnostic d => Some d
  | _ => None
  end.

(** The classifiers of a failed [connect]. *)
Definition is_auth_failure (e : Error) : bool :=
  match e with AuthFailed _ | AuthFailedDiagnostic _ => true | _ => false end.

Definition is_terminal_connect_error (e : Error) : bool :=
  match e with TrustFailed _ | KeyFailure _ => true | _ => false end.

(** Every code, in numeric order. *)
Definition all_codes : list ExitCode :=
  [XSuccess; XInvalidArgs; XInvalidConfig; XRuntimeFailure; XRequiredProfileFailed;
   XAuthFailed; XTrustFailed; XLocalBindFailed; XRemoteBindFailed; XServiceManagerFailed;
   XUnsupportedPlatform; XDnsFailed; XNetworkUnreachable; XKeepaliveTimeout; XReloadFailed;
   XLoggingSinkUnavailable; XStateLockFailed; XSecretUnavailable; XSecretCryptoFailed; XKeyFailure;
   XPermissionDenied; XResourceExhausted; XRateLimited; XFailoverExhausted; XSnmpOrMetricsFailed;
   XWindowsEventLogFailed; XMcpFailed; XRemoteSinkRejected; XPartialDegraded; XHealthCheckFailed;
   XVersionOrMigrationFailed; XInternalError; XDiagnosticFailed; XDiagnosticBundleFailed; XBenchmarkFailed;
   XBenchmarkRefused; XSessionNotFound; XSessionCloseFailed].

(** An error with each code but [Success]. *)
Definition sample_error (c : ExitCode) : option Error :=
  match c with
  | XSuccess => None
  | XInvalidArgs => Some (InvalidArgs "x")
  | XInvalidConfig => Some (InvalidConfig "x")
  | XRuntimeFailure => Some (RuntimeFailure "x")
  | XRequiredProfileFailed => Some (RequiredProfileFailed "x" "x")
  | XAuthFailed => Some (AuthFailed "x")
  | XTrustFailed => Some (TrustFailed "x")
  | XLocalBindFailed => Some (LocalBindFailed "x" "x")
  | XRemoteBindFailed => Some (RemoteBindFailed "x" "x")
  | XServiceManagerFailed => Some (ServiceManagerFailed "x")
  | XUnsupportedPlatform => Some (UnsupportedPlatform "x")
  | XDnsFailed => Some (DnsFailed "x")
  | XNetworkUnreachable => Some (NetworkUnreachable "x")
  | XKeepaliveTimeout => Some (KeepaliveTimeout 0)
  | XReloadFailed => Some (ReloadFailed "x")
  | XLoggingSinkUnavailable => Some (LoggingSinkUnavailable "x" "x")
  | XStateLockFailed => Some (StateLockFailed "x" "x")
  | XSecretUnavailable => Some (SecretUnavailable "x" "x")
  | XSecretCryptoFailed => Some (SecretCryptoFailed "x")
  | XKeyFailure => Some (KeyFailure "x")
  | XPermissionDenied => Some (PermissionDenied "x")
  | XResourceExhausted => Some (ResourceExhausted "x")
  | XRateLimited => Some (RateLimited "x")
  | XFailoverExhausted => Some (FailoverExhausted "x")
  | XSnmpOrMetricsFailed => Some (SnmpOrMetricsFailed "x")
  | XWindowsEventLogFailed => Some (WindowsEventLogFailed "x")
  | XMcpFailed => Some (McpFailed "x")
  | XRemoteSinkRejected => Some (RemoteSinkRejected "x" "x")
  | XPartialDegraded => Some (PartialDegraded [])
  | XHealthCheckFailed => Some (HealthCheckFailed "x" "x")
  | XVersionOrMigrationFailed => Some (VersionOrMigrationFailed "x")
  | XInternalError => Some (InternalError "x")
  | XDiagnosticFailed => Some (DiagnosticFailed "x" "x")
  | XDiagnosticBundleFailed => Some (DiagnosticBundleFailed "x")
  | XBenchmarkFailed => Some (BenchmarkFailed "x")
  | XBenchmarkRefused => Some (BenchmarkRefused "x")
  | XSessionNotFound => Some (SessionNotFound "x")
  | XSessionCloseFailed => Some (SessionCloseFailed "x")
  end.

Lemma as_i32_nth c : all_codes !! Z.to_nat (as_i32 c) = Some c.
Proof. by destruct c. Qed.

Lemma as_i32_inj c c' : as_i32 c = as_i32 c' -> c = c'.
Proof. intros E. pose proof (as_i32_nth c) as H. rewrite E, as_i32_nth in H. by simplify_eq. Qed.

(** the exit-code contract.  The 38 codes are exactly [0..37] without
    repetition; no error exits with [Success]; every other code is produced by
    some error; and the connect errors that end a profile for good, the
    authentication failures among them, exit with codes of their own, which no
    retryable error shares. *)
Theorem exit_code_contract :
  (as_i32 <$> all_codes) = zrange 38 /\
  (forall c c', as_i32 c = as_i32 c' -> c = c') /\
  (forall e, exit_code e <> XSuccess) /\
  (forall c, c <> XSuccess -> exists e, sample_error c = Some e /\ exit_code e = c) /\
  (forall e, is_auth_failure e = true <-> exit_code e = XAuthFailed) /\
  (forall e, is_terminal_connect_error e = true <-> exit_code e = XTrustFailed \/ exit_code e = XKeyFailure).
Proof.
  split_and!.
  - reflexivity.
  - apply as_i32_inj.
  - by intros [].
  - intros []; try done; intros _; by eexists.
  - intros []; cbn; split; done.
  - intros []; cbn; split; intuition done.
Qed.
