(* ===== verification/Endpoint.v ===== *)
(** * Endpoints

    Models [Endpoint] and [AddressFamily] of [crates/spt-protocol/src/endpoint.rs]
    and the composite key [host:port] by which the supervisor names an endpoint
    ([endpoint_id] of [round_robin.rs], [parse_endpoint_key] of [profile.rs]). *)

From S2P Require Import Prelude.

Inductive AddressFamily := Ipv4 | Ipv6.

#[global] Instance AddressFamily_eq_dec : EqDecision AddressFamily.
Proof. solve_decision. Defined.

Record Endpoint := mkEndpoint {
  ep_host : string;
  ep_port : Z;
  ep_address_family : option AddressFamily;
  ep_priority : Z;
  ep_weight : Z
}.

#[global] Instance Endpoint_eq_dec : EqDecision Endpoint.
Proof. solve_decision. Defined.

Definition Endpoint_new (host : string) (port : Z) : Endpoint :=
  mkEndpoint host port None 0 1.

(** IP addresses as the numbers of their 32 or 128 bits. *)
Inductive IpAddr := V4 (a : Z) | V6 (a : Z).

#[global] Instance IpAddr_eq_dec : EqDecision IpAddr.
Proof. solve_decision. Defined.

(** [endpoint_id]: the stable id ["host:port"]. *)
Definition endpoint_id (ep : Endpoint) : string := host_port (ep_host ep) (ep_port ep).

(** The ways [parse_endpoint_key] rejects a key; both are [Error::InvalidArgs]. *)
Inductive KeyError := MissingPort (key : string) | BadPort (port : string).

Definition parse_endpoint_key (s : string) : Result KeyError (string * Z) :=
  '(host, port) ← ok_or (MissingPort s) (rsplit_once ":" s);
  p ← ok_or (BadPort port) (parse_uint 16 port);
  Ok (host, p).

(** Ports are [u16]. *)
Definition port_ok (ep : Endpoint) : Prop := in_u 16 (ep_port ep).

(** an endpoint key parses back to the endpoint it names: for every host
    (IPv6 literals with colons included) and every port,
    [parse_endpoint_key] inverts [endpoint_id]. *)
Theorem endpoint_key_roundtrip (ep : Endpoint) :
  port_ok ep -> parse_endpoint_key (endpoint_id ep) = Ok (ep_host ep, ep_port ep).
Proof.
  intros Hp. unfold parse_endpoint_key, endpoint_id.
  rewrite rsplit_host_port by (destruct Hp; lia). cbn.
  by rewrite parse_uint_pretty.
Qed.

Lemma endpoint_key_roundtrip_witness :
  parse_endpoint_key (endpoint_id (Endpoint_new "2001:db8::1" 22)) = Ok ("2001:db8::1"%string, 22).
Proof. apply (endpoint_key_roundtrip (Endpoint_new "2001:db8::1" 22)). split; vm_compute; discriminate. Defined.

Lemma endpoint_id_inj ep1 ep2 :
  port_ok ep1 -> port_ok ep2 -> endpoint_id ep1 = endpoint_id ep2 ->
  ep_host ep1 = ep_host ep2 /\ ep_port ep1 = ep_port ep2.
Proof. intros [H1 _] [H2 _]. by apply host_port_inj. Qed.

Lemma host_port_eqb h1 p1 h2 p2 :
  0 <= p1 -> 0 <= p2 ->
  String.eqb (host_port h1 p1) (host_port h2 p2) = String.eqb h1 h2 && (p1 =? p2).
Proof.
  intros H1 H2. destruct (String.eqb_spec (host_port h1 p1) (host_port h2 p2)) as [E|E].
  - apply host_port_inj in E as [-> ->]; [|done..]. by rewrite String.eqb_refl, Z.eqb_refl.
  - destruct (String.eqb_spec h1 h2) as [->|]; [|done].
    destruct (Z.eqb_spec p1 p2) as [->|]; [|done]. by destruct E.
Qed.

(** The endpoint [Endpoint_new] builds is well formed when its port is. *)
Lemma Endpoint_new_ok h p : in_u 16 p -> port_ok (Endpoint_new h p).
Proof. done. Qed.

#[export] Hint Resolve Endpoint_new_ok : spt.
