(* ===== verification/Ip.v ===== *)
(** * IP addresses as text

    The parts of [std::net] the dynamic forwards rely on: [Ipv4Addr::to_string],
    [Ipv6Addr::to_string], [IpAddr::from_str], [IpAddr::to_canonical], and
    [u32::from_str_radix].  An address is the number of its bits, as in
    [Endpoint.v]. *)

From S2P Require Import Prelude Text Bytes Endpoint.

(** ** Digits *)

(** [char::to_digit]. *)
Definition to_digit (radix : Z) (a : ascii) : option Z :=
  let c := code a in
  let v := if between 48 57 c then Some (c - 48)
           else if between 97 122 c then Some (c - 87)
           else if between 65 90 c then Some (c - 55)
           else None in
  match v with Some d => if d <? radix then Some d else None | None => None end.

(** The digit loop of [from_str_radix], after the sign. *)
Fixpoint radix_digits (w radix : Z) (s : string) (acc : Z) : option Z :=
  match s with
  | EmptyString => Some acc
  | String a s' =>
      match to_digit radix a with
      | None => None
      | Some d => let acc' := acc * radix + d in if acc' <=? umax w then radix_digits w radix s' acc' else None
      end
  end.

(** [uN::from_str_radix]: a leading [+] is accepted, no digits are not. *)
Definition from_str_radix (w radix : Z) (s : string) : option Z :=
  match s with
  | EmptyString => None
  | String a s' =>
      if Ascii.eqb a "+" then match s' with EmptyString => None | _ => radix_digits w radix s' 0 end
      else radix_digits w radix s 0
  end.

(** ** Printing *)

(** Octet [i] of four, group [i] of eight, from the left. *)
Definition octet (a i : Z) : Z := Z.land (Z.shiftr a (8 * (3 - i))) 0xFF.
Definition group (a i : Z) : Z := Z.land (Z.shiftr a (16 * (7 - i))) 0xFFFF.

Definition ipv4_to_string (a : Z) : string :=
  (pretty (octet a 0) +:+ "." +:+ pretty (octet a 1) +:+ "." +:+ pretty (octet a 2) +:+ "." +:+ pretty (octet a 3))%string.

Definition hex_char (d : Z) : ascii := ascii_of_nat (Z.to_nat (if d <? 10 then 48 + d else 87 + d)).

(** [{:x}] of a [u16]. *)
Definition hex16 (g : Z) : string :=
  let d i := hex_char (Z.land (Z.shiftr g (4 * i)) 0xF) in
  if g <? 16 then String (d 0) ""
  else if g <? 256 then String (d 1) (String (d 0) "")
  else if g <? 4096 then String (d 2) (String (d 1) (String (d 0) ""))
  else String (d 3) (String (d 2) (String (d 1) (String (d 0) ""))).

Fixpoint join_groups (l : list Z) : string :=
  match l with
  | [] => ""
  | [g] => hex16 g
  | g :: r => (hex16 g +:+ ":" +:+ join_groups r)%string
  end.

(** The longest run of zero groups, the first of several: start and length. *)
Fixpoint zero_span (l : list Z) (i cur_start cur_len best_start best_len : nat) : nat * nat :=
  match l with
  | [] => (best_start, best_len)
  | g :: r =>
      if g =? 0 then
        let cur_start := if (cur_len =? 0)%nat then i else cur_start in
        let cur_len := S cur_len in
        if (best_len <? cur_len)%nat then zero_span r (S i) cur_start cur_len cur_start cur_len
        else zero_span r (S i) cur_start cur_len best_start best_len
      else zero_span r (S i) 0 0 best_start best_len
  end.

Definition ipv6_groups (a : Z) : list Z := group a <$> [0; 1; 2; 3; 4; 5; 6; 7].

(** [Ipv6Addr::to_ipv4_mapped]. *)
Definition to_ipv4_mapped (a : Z) : option Z :=
  if Z.shiftr a 32 =? 0xFFFF then Some (Z.land a 0xFFFFFFFF) else None.

Definition ipv6_to_string (a : Z) : string :=
  match to_ipv4_mapped a with
  | Some v4 => ("::ffff:" +:+ ipv4_to_string v4)%string
  | None =>
      let gs := ipv6_groups a in
      let '(start, len) := zero_span gs 0 0 0 0 0 in
      if (1 <? len)%nat then (join_groups (take start gs) +:+ "::" +:+ join_groups (drop (start + len) gs))%string
      else join_groups gs
  end.

(** ** Parsing *)

(** [read_number]: digits as far as they go; too many or too large is an error. *)
Fixpoint read_number_loop (radix max : Z) (max_digits : nat) (s : string) (acc : Z) (count : nat) : option (Z * nat * string) :=
  match s with
  | EmptyString => Some (acc, count, s)
  | String a s' =>
      match to_digit radix a with
      | None => Some (acc, count, s)
      | Some d =>
          let acc' := acc * radix + d in
          if max <? acc' then None
          else if (max_digits <? S count)%nat then None
          else read_number_loop radix max max_digits s' acc' (S count)
      end
  end.

Definition read_number (radix max : Z) (max_digits : nat) (allow_zero_prefix : bool) (s : string) : option (Z * string) :=
  match read_number_loop radix max max_digits s 0 0 with
  | None => None
  | Some (v, count, r) =>
      if (count =? 0)%nat then None
      else if negb allow_zero_prefix && (1 <? count)%nat && starts_with "0" s then None
      else Some (v, r)
  end.

(** [read_separator]: the character comes before every element but the first. *)
Definition read_separator {A} (sep : ascii) (i : nat) (p : string -> option (A * string)) (s : string) : option (A * string) :=
  if (i =? 0)%nat then p s
  else match strip_prefix (String sep "") s with Some s' => p s' | None => None end.

Definition read_ipv4 (s : string) : option (Z * string) :=
  let num i := read_separator "." i (read_number 10 255 3 false) in
  '(a, s) ← num 0%nat s; '(b, s) ← num 1%nat s; '(c, s) ← num 2%nat s; '(d, s) ← num 3%nat s;
  Some (a * 2 ^ 24 + b * 2 ^ 16 + c * 2 ^ 8 + d, s).

(** [read_groups] into [left] more slots: the groups read, and whether they end
    with an embedded IPv4 address. *)
Fixpoint read_groups (left i : nat) (s : string) : list Z * bool * string :=
  match left with
  | O => ([], false, s)
  | S left' =>
      match (if (1 <? left)%nat then read_separator ":" i read_ipv4 s else None) with
      | Some (v4, r) => ([Z.shiftr v4 16; Z.land v4 0xFFFF], true, r)
      | None =>
          match read_separator ":" i (read_number 16 0xFFFF 4 true) s with
          | Some (g, r) => let '(gs, v4, r') := read_groups left' (S i) r in (g :: gs, v4, r')
          | None => ([], false, s)
          end
      end
  end.

Definition groups_value (l : list Z) : Z := foldl (fun acc g => acc * 2 ^ 16 + g) 0 l.

Definition read_ipv6 (s : string) : option (Z * string) :=
  let '(head, head_ipv4, r) := read_groups 8 0 s in
  if (length head =? 8)%nat then Some (groups_value head, r)
  else if head_ipv4 : bool then None
  else
    match strip_prefix "::" r with
    | None => None
    | Some r =>
        let limit := (8 - (length head + 1))%nat in
        let '(tail, _, r') := read_groups limit 0 r in
        Some (groups_value (head ++ replicate (8 - length head - length tail) 0 ++ tail), r')
    end.

(** [IpAddr::from_str]. *)
Definition parse_ip (s : string) : option IpAddr :=
  match read_ipv4 s with
  | Some (a, r) => if (r =? "")%string then Some (V4 a) else None
  | None =>
      match read_ipv6 s with
      | Some (a, r) => if (r =? "")%string then Some (V6 a) else None
      | None => None
      end
  end.

(** [IpAddr::to_canonical]. *)
Definition to_canonical (ip : IpAddr) : IpAddr :=
  match ip with
  | V4 a => V4 a
  | V6 a => match to_ipv4_mapped a with Some v4 => V4 v4 | None => V6 a end
  end.

(** ** Lemmas *)

(** Text that no decimal number runs into. *)
Definition number_ends (t : string) : bool :=
  match t with EmptyString => true | String a _ => match to_digit 10 a with None => true | Some _ => false end end.

Lemma read_octet n t :
  0 <= n <= 255 -> number_ends t = true -> read_number 10 255 3 false (pretty n +:+ t) = Some (n, t).
Proof.
  intros Hn Ht.
  assert (forall acc count, read_number_loop 10 255 3 t acc count = Some (acc, count, t)) as Hstop.
  { intros acc count. destruct t as [|a t]; [done|]. cbn in *. by destruct (to_digit 10 a). }
  assert (exists p, pretty n = p /\ In (n, p) ((fun k => (k, pretty k)) <$> zrange 256)) as (p & -> & Hin).
  { eexists. split; [done|]. apply list_elem_of_In, list_elem_of_fmap. exists n. split; [done|].
    unfold zrange. apply list_elem_of_fmap. exists (Z.to_nat n). split; [lia|]. apply elem_of_seq. lia. }
  vm_compute in Hin.
  repeat (destruct Hin as [Hin|Hin]; [injection Hin as <- <-; rewrite ?str_cons_app, ?str_nil_app;
    unfold read_number; cbn [read_number_loop to_digit]; vm_compute (to_digit _ _); cbn; rewrite Hstop; reflexivity|]).
  destruct Hin.
Qed.

Lemma octet_range a i : 0 <= octet a i <= 255.
Proof. unfold octet. rewrite land_ff. pose proof (Z.mod_pos_bound (Z.shiftr a (8 * (3 - i))) 256). lia. Qed.

Lemma octets_value a :
  in_u 32 a -> octet a 0 * 2 ^ 24 + octet a 1 * 2 ^ 16 + octet a 2 * 2 ^ 8 + octet a 3 = a.
Proof.
  intros Ha. unfold in_u, umax, octet in *. rewrite !land_ff, !Z.shiftr_div_pow2 by lia. cbn.
  change (Z.pow_pos 2 24) with 16777216. change (Z.pow_pos 2 16) with 65536. change (Z.pow_pos 2 8) with 256.
  rewrite Z.div_1_r. Z.to_euclidean_division_equations. lia.
Qed.

(** A printed IPv4 address reads back. *)
Lemma parse_ipv4_printed a : in_u 32 a -> parse_ip (ipv4_to_string a) = Some (V4 a).
Proof.
  intros Ha. unfold parse_ip, read_ipv4, ipv4_to_string, read_separator. cbn [Nat.eqb].
  rewrite read_octet by (done || apply octet_range). cbn [mbind option_bind]. rewrite strip_prefix_app.
  rewrite read_octet by (done || apply octet_range). cbn [mbind option_bind]. rewrite strip_prefix_app.
  rewrite read_octet by (done || apply octet_range). cbn [mbind option_bind]. rewrite strip_prefix_app.
  rewrite <- (str_app_nil (pretty (octet a 3))), read_octet by (done || apply octet_range).
  cbn [mbind option_bind String.eqb]. by rewrite octets_value.
Qed.
