(* ===== verification/RoundRobin.v ===== *)
(** * Selection policies

    Models [crates/spt-supervisor/src/round_robin.rs] and the configuration of
    [crates/spt-config/src/round_robin.rs]: the shared health map with its
    cooldowns and manual pin, the five selection policies, the factory, and
    the DNS address cycler.

    The trait [EndpointSelector] is the class [PolicySelector], whose laws are
    what the failover selector relies on; [boxed_policy] discharges them for
    every policy.  Each operation samples the selector's clock once, as the
    argument [now].  [usize] is 64 bits wide.  [IpAddr::from_str], used only
    for the informative [addr] of a pick, is the parameter [parse_ip]. *)

From S2P Require Import Prelude Endpoint.

(** ** Configuration *)

Inductive SelectionPolicy := RoundRobin | Random | Weighted | Sticky | LeastErrors.

Record RoundRobinConfig := mkRoundRobinConfig {
  rc_enabled : bool;
  rc_policy : SelectionPolicy;
  rc_dns_round_robin : bool;
  rc_dns_refresh_interval : Z;
  rc_cooldown_after_failure : Z;
  rc_sticky_session_ttl : Z
}.

Definition RoundRobinConfig_default : RoundRobinConfig :=
  mkRoundRobinConfig false RoundRobin false (from_secs 60) (from_secs 30) (from_secs 300).

(** ** Picks and health *)

Record EndpointPick := mkPick {
  pick_id : string;
  pick_addr : IpAddr * Z;
  pick_weight : Z
}.

Inductive EndpointHealth := Healthy | Cooldown (until : Z) | Failed.

Record SelectorCore := mkCore {
  sc_endpoints : list Endpoint;
  sc_health : gmap string EndpointHealth;
  sc_cooldown : Z;
  sc_manual : option string
}.

Definition SelectorCore_new (endpoints : list Endpoint) (cfg : RoundRobinConfig) : SelectorCore :=
  mkCore endpoints (list_to_map ((fun e => (endpoint_id e, Healthy)) <$> endpoints))
    (rc_cooldown_after_failure cfg) None.

(** [is_healthy]: is endpoint [id] selectable at [now]? *)
Definition is_healthy (core : SelectorCore) (now : Z) (id : string) : bool :=
  match sc_health core !! id with
  | Some Healthy => true
  | Some (Cooldown until) => until <=? now
  | Some Failed | None => false
  end.

(** [refresh_health]: promote every expired cooldown. *)
Definition refresh_entry (now : Z) (h : EndpointHealth) : EndpointHealth :=
  match h with
  | Cooldown t => if t <=? now then Healthy else h
  | _ => h
  end.

Definition refresh_health (core : SelectorCore) (now : Z) : SelectorCore :=
  mkCore (sc_endpoints core) (refresh_entry now <$> sc_health core) (sc_cooldown core)
    (sc_manual core).

Definition core_record_success (core : SelectorCore) (id : string) : SelectorCore :=
  mkCore (sc_endpoints core) (<[id := Healthy]> (sc_health core)) (sc_cooldown core)
    (sc_manual core).

Definition core_record_failure (core : SelectorCore) (now : Z) (id : string) : SelectorCore :=
  mkCore (sc_endpoints core) (<[id := Cooldown (now + sc_cooldown core)]> (sc_health core))
    (sc_cooldown core) (sc_manual core).

Definition core_manual_override (core : SelectorCore) (id : string) : SelectorCore :=
  mkCore (sc_endpoints core) (sc_health core) (sc_cooldown core)
    (if String.eqb id "" then None else Some id).

Section Policies.
Context (parse_ip : string -> option IpAddr).

Definition make_pick (ep : Endpoint) : EndpointPick :=
  mkPick (endpoint_id ep) (default (V4 0) (parse_ip (ep_host ep)), ep_port ep) (ep_weight ep).

(** [manual_pick]: the pin, honoured only while its endpoint is selectable. *)
Definition manual_pick (core : SelectorCore) (now : Z) : option EndpointPick :=
  id ← sc_manual core;
  if negb (is_healthy core now id) then None
  else make_pick <$> List.find (fun e => String.eqb (endpoint_id e) id) (sc_endpoints core).

(** The healthy endpoints, in declared order. *)
Definition healthy_endpoints (core : SelectorCore) (now : Z) : list Endpoint :=
  List.filter (fun e => is_healthy core now (endpoint_id e)) (sc_endpoints core).

(** The loop [for _ in 0..n] that advances the cursor to the next healthy
    endpoint; it is the same in the round-robin and the sticky selector. *)
Fixpoint scan (fuel : nat) (core : SelectorCore) (now cursor : Z) : option Endpoint * Z :=
  match fuel with
  | O => (None, cursor)
  | S fuel' =>
      let idx := Z.to_nat (cursor mod Z.of_nat (length (sc_endpoints core))) in
      let cursor' := wrap 64 (cursor + 1) in
      match sc_endpoints core !! idx with
      | Some ep =>
          if is_healthy core now (endpoint_id ep) then (Some ep, cursor')
          else scan fuel' core now cursor'
      | None => (None, cursor')
      end
  end.

(** *** Round robin *)

Record RoundRobinSelector := mkRR { rr_core : SelectorCore; rr_cursor : Z }.

Definition RoundRobinSelector_new (eps : list Endpoint) (cfg : RoundRobinConfig) : RoundRobinSelector :=
  mkRR (SelectorCore_new eps cfg) 0.

Definition rr_next (s : RoundRobinSelector) (now : Z) : option EndpointPick * RoundRobinSelector :=
  let core := refresh_health (rr_core s) now in
  match manual_pick core now with
  | Some p => (Some p, mkRR core (rr_cursor s))
  | None =>
      if decide (length (sc_endpoints core) = 0%nat) then (None, mkRR core (rr_cursor s))
      else
        let '(r, cursor) := scan (length (sc_endpoints core)) core now (rr_cursor s) in
        (make_pick <$> r, mkRR core cursor)
  end.

(** *** Random *)

Context {R : Type} `{Rng R}.

Record RandomSelector := mkRandom { rnd_core : SelectorCore; rnd_rng : R }.

Definition RandomSelector_new (eps : list Endpoint) (cfg : RoundRobinConfig) (rng : R) : RandomSelector :=
  mkRandom (SelectorCore_new eps cfg) rng.

Definition random_next (s : RandomSelector) (now : Z) : option EndpointPick * RandomSelector :=
  let core := refresh_health (rnd_core s) now in
  match manual_pick core now with
  | Some p => (Some p, mkRandom core (rnd_rng s))
  | None =>
      let healthy := healthy_endpoints core now in
      if decide (length healthy = 0%nat) then (None, mkRandom core (rnd_rng s))
      else
        let '(idx, rng) := gen_range (rnd_rng s) 0 (Z.of_nat (length healthy) - 1) in
        (make_pick <$> healthy !! Z.to_nat idx, mkRandom core rng)
  end.

(** *** Weighted *)

Record WeightedSelector := mkWeighted { wt_core : SelectorCore; wt_rng : R }.

Definition WeightedSelector_new (eps : list Endpoint) (cfg : RoundRobinConfig) (rng : R) : WeightedSelector :=
  mkWeighted (SelectorCore_new eps cfg) rng.

(** [e.weight.max(1)]. *)
Definition eff_weight (e : Endpoint) : Z := Z.max (ep_weight e) 1.

Definition weighted_next (s : WeightedSelector) (now : Z) : option EndpointPick * WeightedSelector :=
  let core := refresh_health (wt_core s) now in
  match manual_pick core now with
  | Some p => (Some p, mkWeighted core (wt_rng s))
  | None =>
      let healthy := healthy_endpoints core now in
      if decide (length healthy = 0%nat) then (None, mkWeighted core (wt_rng s))
      else
        let total := sum_by eff_weight healthy in
        if total =? 0 then (make_pick <$> head healthy, mkWeighted core (wt_rng s))
        else
          let '(roll, rng) := gen_range (wt_rng s) 0 (total - 1) in
          let chosen := match weighted_walk eff_weight roll 0 healthy with
                        | Some e => Some e
                        | None => last healthy
                        end in
          (make_pick <$> chosen, mkWeighted core rng)
  end.

(** *** Sticky *)

Record StickySelector := mkSticky {
  st_core : SelectorCore;
  st_ttl : Z;
  st_pinned_id : option string;
  st_pinned_until : option Z;
  st_cursor : Z
}.

Definition StickySelector_new (eps : list Endpoint) (cfg : RoundRobinConfig) : StickySelector :=
  mkSticky (SelectorCore_new eps cfg) (rc_sticky_session_ttl cfg) None None 0.

(** The live pin, if it can be reused at [now]. *)
Definition sticky_reuse (core : SelectorCore) (pin : option string) (until : option Z) (now : Z)
  : option Endpoint :=
  id ← pin; u ← until;
  if (now <? u) && is_healthy core now id
  then List.find (fun e => String.eqb (endpoint_id e) id) (sc_endpoints core)
  else None.

Definition sticky_next (s : StickySelector) (now : Z) : option EndpointPick * StickySelector :=
  let core := refresh_health (st_core s) now in
  let s0 := mkSticky core (st_ttl s) (st_pinned_id s) (st_pinned_until s) (st_cursor s) in
  match manual_pick core now with
  | Some p => (Some p, s0)
  | None =>
      match sticky_reuse core (st_pinned_id s) (st_pinned_until s) now with
      | Some ep => (Some (make_pick ep), s0)
      | None =>
          if decide (length (sc_endpoints core) = 0%nat) then (None, s0)
          else
            let '(r, cursor) := scan (length (sc_endpoints core)) core now (st_cursor s) in
            match r with
            | Some ep =>
                (Some (make_pick ep),
                 mkSticky core (st_ttl s) (Some (endpoint_id ep)) (Some (now + st_ttl s)) cursor)
            | None => (None, mkSticky core (st_ttl s) (st_pinned_id s) (st_pinned_until s) cursor)
            end
      end
  end.

Definition sticky_record_failure (s : StickySelector) (now : Z) (id : string) : StickySelector :=
  let core := core_record_failure (st_core s) now id in
  if decide (st_pinned_id s = Some id)
  then mkSticky core (st_ttl s) None None (st_cursor s)
  else mkSticky core (st_ttl s) (st_pinned_id s) (st_pinned_until s) (st_cursor s).

(** *** Least errors

    The counters are [u64] with checked addition; they are unbounded here,
    the check being [2^64] failures away. *)

Record LeastErrorsSelector := mkLeast { le_core : SelectorCore; le_errors : gmap string Z }.

Definition LeastErrorsSelector_new (eps : list Endpoint) (cfg : RoundRobinConfig) : LeastErrorsSelector :=
  mkLeast (SelectorCore_new eps cfg) (list_to_map ((fun e => (endpoint_id e, 0)) <$> eps)).

Definition error_count (errors : gmap string Z) (e : Endpoint) : Z :=
  default 0 (errors !! endpoint_id e).

(** The loop that keeps the first endpoint with the lowest count. *)
Fixpoint least_errors_loop (core : SelectorCore) (now : Z) (errors : gmap string Z)
    (best : option (Endpoint * Z)) (eps : list Endpoint) : option (Endpoint * Z) :=
  match eps with
  | [] => best
  | e :: eps' =>
      if negb (is_healthy core now (endpoint_id e))
      then least_errors_loop core now errors best eps'
      else
        let n := error_count errors e in
        let best' := match best with
                     | None => Some (e, n)
                     | Some (_, cur) => if n <? cur then Some (e, n) else best
                     end in
        least_errors_loop core now errors best' eps'
  end.

Definition least_next (s : LeastErrorsSelector) (now : Z) : option EndpointPick * LeastErrorsSelector :=
  let core := refresh_health (le_core s) now in
  let s0 := mkLeast core (le_errors s) in
  match manual_pick core now with
  | Some p => (Some p, s0)
  | None =>
      ((fun b => make_pick b.1) <$>
         least_errors_loop core now (le_errors s) None (sc_endpoints core), s0)
  end.

Definition least_record_failure (s : LeastErrorsSelector) (now : Z) (id : string) : LeastErrorsSelector :=
  mkLeast (core_record_failure (le_core s) now id)
    (<[id := default 0 (le_errors s !! id) + 1]> (le_errors s)).

(** *** The boxed selector and its factory *)

Inductive BoxedSelector :=
| BRoundRobin (s : RoundRobinSelector)
| BRandom (s : RandomSelector)
| BWeighted (s : WeightedSelector)
| BSticky (s : StickySelector)
| BLeastErrors (s : LeastErrorsSelector).

(** [make_selector]; [rng] is the generator seeded from entropy. *)
Definition make_selector (eps : list Endpoint) (cfg : RoundRobinConfig) (rng : R) : option BoxedSelector :=
  if negb (rc_enabled cfg) then None
  else Some match rc_policy cfg with
    | RoundRobin => BRoundRobin (RoundRobinSelector_new eps cfg)
    | Random => BRandom (RandomSelector_new eps cfg rng)
    | Weighted => BWeighted (WeightedSelector_new eps cfg rng)
    | Sticky => BSticky (StickySelector_new eps cfg)
    | LeastErrors => BLeastErrors (LeastErrorsSelector_new eps cfg)
    end.

Definition boxed_core (b : BoxedSelector) : SelectorCore :=
  match b with
  | BRoundRobin s => rr_core s
  | BRandom s => rnd_core s
  | BWeighted s => wt_core s
  | BSticky s => st_core s
  | BLeastErrors s => le_core s
  end.

Definition boxed_next (b : BoxedSelector) (now : Z) : option EndpointPick * BoxedSelector :=
  match b with
  | BRoundRobin s => let '(p, s') := rr_next s now in (p, BRoundRobin s')
  | BRandom s => let '(p, s') := random_next s now in (p, BRandom s')
  | BWeighted s => let '(p, s') := weighted_next s now in (p, BWeighted s')
  | BSticky s => let '(p, s') := sticky_next s now in (p, BSticky s')
  | BLeastErrors s => let '(p, s') := least_next s now in (p, BLeastErrors s')
  end.

(** The operations every policy passes on to its core. *)
Definition boxed_map_core (f : SelectorCore -> SelectorCore) (b : BoxedSelector) : BoxedSelector :=
  match b with
  | BRoundRobin s => BRoundRobin (mkRR (f (rr_core s)) (rr_cursor s))
  | BRandom s => BRandom (mkRandom (f (rnd_core s)) (rnd_rng s))
  | BWeighted s => BWeighted (mkWeighted (f (wt_core s)) (wt_rng s))
  | BSticky s => BSticky (mkSticky (f (st_core s)) (st_ttl s) (st_pinned_id s) (st_pinned_until s) (st_cursor s))
  | BLeastErrors s => BLeastErrors (mkLeast (f (le_core s)) (le_errors s))
  end.

Definition boxed_record_success (b : BoxedSelector) (id : string) : BoxedSelector :=
  boxed_map_core (fun c => core_record_success c id) b.

Definition boxed_manual_override (b : BoxedSelector) (id : string) : BoxedSelector :=
  boxed_map_core (fun c => core_manual_override c id) b.

Definition boxed_record_failure (b : BoxedSelector) (now : Z) (id : string) : BoxedSelector :=
  match b with
  | BSticky s => BSticky (sticky_record_failure s now id)
  | BLeastErrors s => BLeastErrors (least_record_failure s now id)
  | _ => boxed_map_core (fun c => core_record_failure c now id) b
  end.

Definition boxed_cooldown (b : BoxedSelector) : option Z := Some (sc_cooldown (boxed_core b)).

(** The cursor of the policies that have one stays clear of the [usize] wrap. *)
Definition boxed_ok (b : BoxedSelector) : Prop :=
  match b with
  | BRoundRobin s => 0 <= rr_cursor s /\ rr_cursor s + Z.of_nat (length (sc_endpoints (rr_core s))) <= umax 64
  | BSticky s => 0 <= st_cursor s /\ st_cursor s + Z.of_nat (length (sc_endpoints (st_core s))) <= umax 64
  | _ => True
  end.

(** *** DNS address cycling *)

Record DnsState := mkDnsState {
  dns_host : string;
  dns_cached : list IpAddr;
  dns_last_refresh : option Z;
  dns_cursor : Z
}.

Definition DnsRoundRobinResolver_new (host : string) : DnsState := mkDnsState host [] None 0.

(** [next_address]; [resolve] is what the injected resolver answers now. *)
Definition next_address (resolve : string -> list IpAddr) (refresh_interval : Z) (st : DnsState)
    (now : Z) : option IpAddr * DnsState :=
  let needs_refresh := match dns_last_refresh st with
                       | None => true
                       | Some t => refresh_interval <=? duration_since now t
                       end in
  let st1 := if needs_refresh then mkDnsState (dns_host st) (resolve (dns_host st)) (Some now) 0
             else st in
  if decide (length (dns_cached st1) = 0%nat) then (None, st1)
  else
    let idx := Z.to_nat (dns_cursor st1 mod Z.of_nat (length (dns_cached st1))) in
    (dns_cached st1 !! idx,
     mkDnsState (dns_host st1) (dns_cached st1) (dns_last_refresh st1) (wrap 64 (dns_cursor st1 + 1))).

Definition invalidate (st : DnsState) : DnsState := mkDnsState (dns_host st) [] None 0.

End Policies.

Arguments RandomSelector : clear implicits.
Arguments WeightedSelector : clear implicits.
Arguments BoxedSelector : clear implicits.

(** ** The interface

    What a selection policy promises to the failover selector: picks are
    selectable endpoints of its list, and it yields nothing only when no
    endpoint is selectable. *)
Class PolicySelector (P : Type) : Type := {
  ps_next : P -> Z -> option EndpointPick * P;
  ps_record_success : P -> string -> P;
  ps_record_failure : P -> Z -> string -> P;
  ps_manual_override : P -> string -> P;
  ps_cooldown_after_failure : P -> option Z;
  ps_endpoints : P -> list Endpoint;
  ps_selectable : P -> Z -> string -> bool;
  ps_ok : P -> Prop;
  ps_next_endpoints : forall p now, ps_endpoints (ps_next p now).2 = ps_endpoints p;
  ps_success_endpoints : forall p id, ps_endpoints (ps_record_success p id) = ps_endpoints p;
  ps_failure_endpoints : forall p now id, ps_endpoints (ps_record_failure p now id) = ps_endpoints p;
  ps_override_endpoints : forall p id, ps_endpoints (ps_manual_override p id) = ps_endpoints p;
  ps_next_some : forall p now pk, (ps_next p now).1 = Some pk ->
    exists ep, ep ∈ ps_endpoints p /\ pick_id pk = endpoint_id ep /\
      ps_selectable p now (endpoint_id ep) = true;
  ps_next_none : forall p now, ps_ok p -> (ps_next p now).1 = None ->
    forall ep, ep ∈ ps_endpoints p -> ps_selectable p now (endpoint_id ep) = false
}.

(** ** Lemmas: health *)

Lemma is_healthy_refresh core now id :
  is_healthy (refresh_health core now) now id = is_healthy core now id.
Proof.
  unfold is_healthy, refresh_health. cbn. rewrite lookup_fmap.
  destruct (sc_health core !! id) as [[|t|]|]; cbn; try done.
  by destruct (t <=? now) eqn:E; rewrite ?E.
Qed.

Lemma elem_of_healthy core now ep :
  ep ∈ healthy_endpoints core now <->
  ep ∈ sc_endpoints core /\ is_healthy core now (endpoint_id ep) = true.
Proof. unfold healthy_endpoints. by rewrite elem_of_filter_bool. Qed.

Lemma no_healthy core now :
  length (healthy_endpoints core now) = 0%nat ->
  forall ep, ep ∈ sc_endpoints core -> is_healthy core now (endpoint_id ep) = false.
Proof.
  intros Hl ep Hin. apply nil_length_inv in Hl.
  destruct (is_healthy _ _ _) eqn:E; [|done].
  assert (ep ∈ healthy_endpoints core now) as Hx by (by apply elem_of_healthy).
  rewrite Hl in Hx. by apply not_elem_of_nil in Hx.
Qed.

Lemma failure_health core now id now' :
  is_healthy (core_record_failure core now id) now' id = (now + sc_cooldown core <=? now').
Proof. unfold is_healthy, core_record_failure. cbn. by rewrite lookup_insert_eq. Qed.

Lemma failure_health_other core now id id' now' :
  id <> id' -> is_healthy (core_record_failure core now id) now' id' = is_healthy core now' id'.
Proof. intros Hne. unfold is_healthy, core_record_failure. cbn. by rewrite lookup_insert_ne. Qed.

Lemma success_health core id now :
  is_healthy (core_record_success core id) now id = true.
Proof. unfold is_healthy, core_record_success. cbn. by rewrite lookup_insert_eq. Qed.

Section PolicyLemmas.
Context (parse_ip : string -> option IpAddr).

Lemma manual_pick_some core now p :
  manual_pick parse_ip core now = Some p ->
  exists ep, p = make_pick parse_ip ep /\ ep ∈ sc_endpoints core /\
    is_healthy core now (endpoint_id ep) = true /\ sc_manual core = Some (endpoint_id ep).
Proof.
  unfold manual_pick. destruct (sc_manual core) as [id|]; cbn; [|done].
  destruct (is_healthy core now id) eqn:Eh; cbn; [|done].
  destruct (List.find _ _) as [ep|] eqn:Ef; cbn; [|done]. intros [= <-].
  apply find_some_elem in Ef as [Hin Heq]. bool_prop. subst id. eauto.
Qed.

Lemma scan_some fuel core now c ep c' :
  scan fuel core now c = (Some ep, c') ->
  ep ∈ sc_endpoints core /\ is_healthy core now (endpoint_id ep) = true.
Proof.
  revert c. induction fuel as [|fuel IH]; intros c; cbn; [done|].
  destruct (sc_endpoints core !! _) as [e|] eqn:El; [|done].
  destruct (is_healthy core now (endpoint_id e)) eqn:Eh; [|apply IH].
  intros [= <- <-]. split; [by eapply list_elem_of_lookup_2|done].
Qed.

(** A scan that fails has looked at [fuel] consecutive cursor positions. *)
Lemma scan_none fuel core now c c' k ep :
  scan fuel core now c = (None, c') ->
  0 <= c -> c + Z.of_nat fuel <= umax 64 -> 0 <= k < Z.of_nat fuel ->
  sc_endpoints core !! Z.to_nat ((c + k) mod Z.of_nat (length (sc_endpoints core))) = Some ep ->
  is_healthy core now (endpoint_id ep) = false.
Proof.
  revert c k. induction fuel as [|fuel IH]; intros c k; cbn [scan]; [lia|].
  intros Hs Hc Hb Hk Hl.
  destruct (Z.eq_dec k 0) as [->|Hk0].
  - rewrite Z.add_0_r in Hl. rewrite Hl in Hs. by destruct (is_healthy _ _ _).
  - destruct (sc_endpoints core !! Z.to_nat (c mod _)) as [e|] eqn:El.
    + destruct (is_healthy core now (endpoint_id e)); [done|].
      rewrite wrap_small in Hs by (unfold in_u; lia).
      eapply (IH (c + 1) (k - 1)); [done|lia|lia|lia|]. by replace (c + 1 + (k - 1)) with (c + k) by lia.
    + exfalso. apply lookup_ge_None in El.
      pose proof (lookup_lt_Some _ _ _ Hl).
      pose proof (Z.mod_pos_bound c (Z.of_nat (length (sc_endpoints core)))). lia.
Qed.

Lemma scan_none_all core now c c' ep :
  scan (length (sc_endpoints core)) core now c = (None, c') ->
  0 <= c -> c + Z.of_nat (length (sc_endpoints core)) <= umax 64 ->
  ep ∈ sc_endpoints core -> is_healthy core now (endpoint_id ep) = false.
Proof.
  intros Hs Hc Hb [i Hi]%list_elem_of_lookup_1.
  set (n := Z.of_nat (length (sc_endpoints core))) in *.
  pose proof (lookup_lt_Some _ _ _ Hi).
  apply (scan_none _ _ _ _ _ ((Z.of_nat i - c) mod n) _ Hs Hc Hb).
  - apply Z.mod_pos_bound. lia.
  - fold n. rewrite Z.add_mod_idemp_r by lia. replace (c + (Z.of_nat i - c)) with (Z.of_nat i) by lia.
    rewrite Z.mod_small by lia. by rewrite Nat2Z.id.
Qed.

(** The first hit of a scan over healthy endpoints only is the cursor's. *)
Lemma scan_first core now c ep :
  (0 < length (sc_endpoints core))%nat ->
  sc_endpoints core !! Z.to_nat (c mod Z.of_nat (length (sc_endpoints core))) = Some ep ->
  is_healthy core now (endpoint_id ep) = true ->
  scan (length (sc_endpoints core)) core now c = (Some ep, wrap 64 (c + 1)).
Proof.
  intros Hl He Hh. set (n := length (sc_endpoints core)) in *.
  assert (exists m, n = S m) as [m Hm] by (exists (n - 1)%nat; lia).
  rewrite Hm at 1. cbn [scan]. fold n. by rewrite He, Hh.
Qed.

(** What a successful pick is: a selectable endpoint of the list. *)
Definition pick_of (core : SelectorCore) (now : Z) (p : EndpointPick) : Prop :=
  exists ep, p = make_pick parse_ip ep /\ ep ∈ sc_endpoints core /\
    is_healthy core now (endpoint_id ep) = true.

Lemma pick_of_refresh core now p : pick_of (refresh_health core now) now p -> pick_of core now p.
Proof. intros (ep & -> & Hin & Hh). rewrite is_healthy_refresh in Hh. by exists ep. Qed.

Lemma manual_pick_of core now p : manual_pick parse_ip core now = Some p -> pick_of core now p.
Proof. intros (ep & ? & ? & ? & _)%manual_pick_some. by exists ep. Qed.

Lemma scan_pick_of fuel core now c ep c' :
  scan fuel core now c = (Some ep, c') -> pick_of core now (make_pick parse_ip ep).
Proof. intros [? ?]%scan_some. by exists ep. Qed.

Lemma healthy_pick_of core now ep :
  ep ∈ healthy_endpoints core now -> pick_of core now (make_pick parse_ip ep).
Proof. intros [? ?]%elem_of_healthy. by exists ep. Qed.

Lemma refresh_unhealthy core now ep :
  is_healthy (refresh_health core now) now (endpoint_id ep) = false ->
  is_healthy core now (endpoint_id ep) = false.
Proof. by rewrite is_healthy_refresh. Qed.

Create HintDb policy.
Hint Resolve pick_of_refresh manual_pick_of scan_pick_of healthy_pick_of refresh_unhealthy : policy.

Lemma rr_next_spec s now :
  let core := rr_core s in
  rr_core (rr_next parse_ip s now).2 = refresh_health core now /\
  (forall p, (rr_next parse_ip s now).1 = Some p -> pick_of core now p) /\
  (boxed_ok (R := unit) (BRoundRobin s) -> (rr_next parse_ip s now).1 = None ->
   forall ep, ep ∈ sc_endpoints core -> is_healthy core now (endpoint_id ep) = false).
Proof.
  cbn. unfold rr_next. destruct (manual_pick _ _ now) as [p|] eqn:Em.
  { split_and!; try done. intros ? [= <-]. eauto with policy. }
  case_decide as Hn; cbn in Hn.
  { apply nil_length_inv in Hn. split_and!; try done. intros _ _ ep. rewrite Hn.
    by intros ?%not_elem_of_nil. }
  destruct (scan _ _ now _) as [[ep|] c] eqn:Es; cbn; split_and!; try done.
  - intros p [= <-]. eauto with policy.
  - intros [H1 H2] _ ep Hin. eapply refresh_unhealthy, scan_none_all; cbn; eauto.
Qed.

Lemma sticky_next_spec s now :
  let core := st_core s in
  st_core (sticky_next parse_ip s now).2 = refresh_health core now /\
  (forall p, (sticky_next parse_ip s now).1 = Some p -> pick_of core now p) /\
  (boxed_ok (R := unit) (BSticky s) -> (sticky_next parse_ip s now).1 = None ->
   forall ep, ep ∈ sc_endpoints core -> is_healthy core now (endpoint_id ep) = false).
Proof.
  cbn. unfold sticky_next. destruct (manual_pick _ _ now) as [p|] eqn:Em.
  { split_and!; try done. intros ? [= <-]. eauto with policy. }
  destruct (sticky_reuse _ _ _ now) as [ep|] eqn:Er.
  { split_and!; [done| |done]. intros ? [= <-]. apply pick_of_refresh. unfold sticky_reuse in Er.
    destruct (st_pinned_id s) as [id|]; cbn in Er; [|done].
    destruct (st_pinned_until s) as [u|]; cbn in Er; [|done].
    destruct ((now <? u) && _) eqn:Eh; [|done]. bool_prop.
    apply find_some_elem in Er as [Hin Heq]. bool_prop. subst id. by exists ep. }
  case_decide as Hn; cbn in Hn.
  { apply nil_length_inv in Hn. split_and!; try done. intros _ _ ep. rewrite Hn.
    by intros ?%not_elem_of_nil. }
  destruct (scan _ _ now _) as [[ep|] c] eqn:Es; cbn; split_and!; try done.
  - intros p [= <-]. eauto with policy.
  - intros [H1 H2] _ ep Hin. eapply refresh_unhealthy, scan_none_all; cbn; eauto.
Qed.

(** The loop of the least-errors policy returns a healthy endpoint none of the
    healthy ones beats, and the first such; it returns nothing only without a
    healthy endpoint. *)
Lemma least_errors_loop_spec core now errors eps best :
  (forall e n, best = Some (e, n) -> n = error_count errors e) ->
  match least_errors_loop core now errors best eps with
  | Some (e, n) =>
      n = error_count errors e /\
      (best = Some (e, n) \/ (e ∈ eps /\ is_healthy core now (endpoint_id e) = true)) /\
      (forall b m, best = Some (b, m) -> n <= m) /\
      (forall x, x ∈ eps -> is_healthy core now (endpoint_id x) = true -> n <= error_count errors x)
  | None => best = None /\ forall x, x ∈ eps -> is_healthy core now (endpoint_id x) = false
  end.
Proof.
  revert best. induction eps as [|e eps IH]; intros best Hb; cbn [least_errors_loop].
  { destruct best as [[b m]|]; split_and!; auto; intros; simplify_eq; try lia.
    - by apply not_elem_of_nil in H.
    - by apply not_elem_of_nil in H. }
  destruct (is_healthy core now (endpoint_id e)) eqn:Eh; cbn [negb].
  2:{ specialize (IH best Hb). destruct (least_errors_loop _ _ _ _ _) as [[e' n]|].
      - destruct IH as (H1 & H2 & H3 & H4). split_and!; [done| |done|].
        + destruct H2 as [|[? ?]]; [by left|right; split; [by constructor|done]].
        + intros x [->|Hx]%elem_of_cons; [congruence|]. by apply H4.
      - destruct IH as [H1 H2]. split; [done|]. intros x [->|Hx]%elem_of_cons; [done|by apply H2]. }
  set (n := error_count errors e).
  set (best' := match best with None => _ | Some _ => _ end).
  assert (exists e' n', best' = Some (e', n') /\ n' = error_count errors e' /\ n' <= n /\
    (forall b m, best = Some (b, m) -> n' <= m) /\ (best = Some (e', n') \/ e' = e)) as
    (e' & n' & Hbest & Hn' & Hle & Hle2 & Hwhich).
  { subst best'. destruct best as [[b m]|].
    - destruct (Z.ltb_spec n m).
      + exists e, n. split_and!; auto; intros; simplify_eq; lia.
      + exists b, m. split_and!; auto; intros; simplify_eq; lia.
    - exists e, n. split_and!; auto; intros; simplify_eq; lia. }
  clearbody best'. specialize (IH best'). rewrite Hbest in IH |- *.
  specialize (IH ltac:(intros ? ? [= <- <-]; done)).
  destruct (least_errors_loop _ _ _ _ _) as [[r m]|]; [|by destruct IH].
  destruct IH as (H1 & H2 & H3 & H4). specialize (H3 _ _ eq_refl). split_and!; [done| | |].
  - destruct H2 as [Heq|[? ?]]; [injection Heq as -> ->|right; split; [by constructor|done]].
    destruct Hwhich as [?| ->]; [by left|right; split; [constructor|done]].
  - intros b m' Hbm. specialize (Hle2 _ _ Hbm). lia.
  - intros x [->|Hx]%elem_of_cons Hh; [fold n; lia|by apply H4].
Qed.

Lemma least_next_spec s now :
  let core := le_core s in
  le_core (least_next parse_ip s now).2 = refresh_health core now /\
  (forall p, (least_next parse_ip s now).1 = Some p -> pick_of core now p) /\
  ((least_next parse_ip s now).1 = None ->
   forall ep, ep ∈ sc_endpoints core -> is_healthy core now (endpoint_id ep) = false).
Proof.
  cbn. unfold least_next. destruct (manual_pick _ _ now) as [p|] eqn:Em.
  { split_and!; try done. intros ? [= <-]. eauto with policy. }
  pose proof (least_errors_loop_spec (refresh_health (le_core s) now) now (le_errors s)
    (sc_endpoints (refresh_health (le_core s) now)) None ltac:(done)) as Hl.
  destruct (least_errors_loop _ _ _ _ _) as [[e n]|]; cbn; split_and!; try done.
  - intros p [= <-]. destruct Hl as (_ & [?|[Hin Hh]] & _); [done|].
    apply pick_of_refresh. by exists e.
  - intros _ ep Hin. destruct Hl as [_ Hl]. by apply refresh_unhealthy, Hl.
Qed.

Context {R : Type} `{Rng R}.

Lemma random_next_spec (s : RandomSelector R) now :
  let core := rnd_core s in
  rnd_core (random_next parse_ip s now).2 = refresh_health core now /\
  (forall p, (random_next parse_ip s now).1 = Some p -> pick_of core now p) /\
  ((random_next parse_ip s now).1 = None ->
   forall ep, ep ∈ sc_endpoints core -> is_healthy core now (endpoint_id ep) = false).
Proof.
  cbn. unfold random_next. destruct (manual_pick _ _ now) as [p|] eqn:Em.
  { split_and!; try done. intros ? [= <-]. eauto with policy. }
  case_decide as Hn.
  { split_and!; try done. intros _ ep Hin. eapply refresh_unhealthy, no_healthy; done. }
  set (hs := healthy_endpoints (refresh_health (rnd_core s) now) now) in *.
  assert (0 <= Z.of_nat (length hs) - 1) as Hle by lia.
  pose proof (gen_range_in (rnd_rng s) _ _ Hle) as Hg.
  destruct (gen_range _ 0 _) as [idx rng]. cbn [fst] in Hg.
  destruct (lookup_lt_is_Some_2 hs (Z.to_nat idx)) as [ep Hep]; [lia|]. rewrite Hep. cbn [fst snd].
  split_and!; try done. intros p [= <-].
  apply pick_of_refresh, healthy_pick_of. by eapply list_elem_of_lookup_2.
Qed.

Lemma eff_weight_pos e : 1 <= eff_weight e.
Proof. unfold eff_weight. lia. Qed.

(** The generator's roll selects a healthy endpoint: the walk never falls
    through to the [last] fallback, and the total is never zero. *)
Lemma weighted_roll core now roll :
  length (healthy_endpoints core now) <> 0%nat ->
  0 <= roll <= sum_by eff_weight (healthy_endpoints core now) - 1 ->
  exists e, weighted_walk eff_weight roll 0 (healthy_endpoints core now) = Some e /\
    e ∈ healthy_endpoints core now.
Proof.
  intros Hl Hr.
  destruct (weighted_walk_total eff_weight (healthy_endpoints core now) roll 0)
    as [e He]; [lia|].
  exists e. split; [done|]. by eapply weighted_walk_in.
Qed.

Lemma weighted_next_spec (s : WeightedSelector R) now :
  let core := wt_core s in
  wt_core (weighted_next parse_ip s now).2 = refresh_health core now /\
  (forall p, (weighted_next parse_ip s now).1 = Some p -> pick_of core now p) /\
  ((weighted_next parse_ip s now).1 = None ->
   forall ep, ep ∈ sc_endpoints core -> is_healthy core now (endpoint_id ep) = false).
Proof.
  cbn. unfold weighted_next. destruct (manual_pick _ _ now) as [p|] eqn:Em.
  { split_and!; try done. intros ? [= <-]. eauto with policy. }
  case_decide as Hn.
  { split_and!; try done. intros _ ep Hin. eapply refresh_unhealthy, no_healthy; done. }
  set (core := refresh_health (wt_core s) now) in *.
  assert (1 <= sum_by eff_weight (healthy_endpoints core now)) as Hsum.
  { apply sum_by_pos; [apply eff_weight_pos|]. intros E. by rewrite E in Hn. }
  destruct (Z.eqb_spec (sum_by eff_weight (healthy_endpoints core now)) 0); [lia|].
  assert (0 <= sum_by eff_weight (healthy_endpoints core now) - 1) as Hle by lia.
  pose proof (gen_range_in (wt_rng s) _ _ Hle) as Hg.
  destruct (gen_range _ 0 _) as [roll rng]. cbn in Hg.
  destruct (weighted_roll core now roll Hn Hg) as (e & -> & Hin). cbn.
  split_and!; try done. intros p [= <-]. by apply pick_of_refresh, healthy_pick_of.
Qed.

(** What [next] does, uniformly in the policy. *)
Lemma boxed_next_spec (b : BoxedSelector R) now :
  boxed_core (boxed_next parse_ip b now).2 = refresh_health (boxed_core b) now /\
  (forall p, (boxed_next parse_ip b now).1 = Some p -> pick_of (boxed_core b) now p) /\
  (boxed_ok b -> (boxed_next parse_ip b now).1 = None ->
   forall ep, ep ∈ sc_endpoints (boxed_core b) ->
     is_healthy (boxed_core b) now (endpoint_id ep) = false).
Proof.
  destruct b as [s|s|s|s|s]; cbn [boxed_next boxed_core].
  - pose proof (rr_next_spec s now). by destruct (rr_next _ s now).
  - pose proof (random_next_spec s now). destruct (random_next _ s now). cbn in *. tauto.
  - pose proof (weighted_next_spec s now). destruct (weighted_next _ s now). cbn in *. tauto.
  - pose proof (sticky_next_spec s now). by destruct (sticky_next _ s now).
  - pose proof (least_next_spec s now). destruct (least_next _ s now). cbn in *. tauto.
Qed.

Lemma boxed_failure_core (b : BoxedSelector R) now id :
  boxed_core (boxed_record_failure b now id) = core_record_failure (boxed_core b) now id.
Proof. destruct b as [|s|s|s|s]; try done. cbn. unfold sticky_record_failure. by case_decide. Qed.

Lemma boxed_map_core_core f (b : BoxedSelector R) : boxed_core (boxed_map_core f b) = f (boxed_core b).
Proof. by destruct b. Qed.

#[export, program] Instance boxed_policy : PolicySelector (BoxedSelector R) := {|
  ps_next := boxed_next parse_ip;
  ps_record_success := boxed_record_success;
  ps_record_failure := boxed_record_failure;
  ps_manual_override := boxed_manual_override;
  ps_cooldown_after_failure := boxed_cooldown;
  ps_endpoints b := sc_endpoints (boxed_core b);
  ps_selectable b := is_healthy (boxed_core b);
  ps_ok := boxed_ok
|}.
Next Obligation. intros b now. cbv beta. by rewrite (proj1 (boxed_next_spec b now)). Qed.
Next Obligation. intros b id. cbv beta. unfold boxed_record_success. by rewrite boxed_map_core_core. Qed.
Next Obligation. intros b now id. cbv beta. by rewrite boxed_failure_core. Qed.
Next Obligation. intros b id. cbv beta. unfold boxed_manual_override. by rewrite boxed_map_core_core. Qed.
Next Obligation.
  intros b now pk Hp. destruct (boxed_next_spec b now) as (_ & Hs & _).
  destruct (Hs _ Hp) as (ep & -> & Hin & Hh). by exists ep.
Qed.
Next Obligation. intros b now Hok Hn. destruct (boxed_next_spec b now) as (_ & _ & Hs). by apply Hs. Qed.

End PolicyLemmas.

(** ** Properties *)

(** every selection policy is sound and complete.  What [next] returns is
    one of the configured endpoints and is selectable at that instant, it
    returns nothing exactly when no endpoint is selectable, and the only other
    effect on the shared health map is the promotion of expired cooldowns. *)
Theorem policy_next_correct (parse_ip : string -> option IpAddr) {R : Type} `{Rng R}
    (b : BoxedSelector R) (now : Z) :
  boxed_ok b ->
  boxed_core (boxed_next parse_ip b now).2 = refresh_health (boxed_core b) now /\
  match (boxed_next parse_ip b now).1 with
  | Some p => exists ep, p = make_pick parse_ip ep /\ ep ∈ sc_endpoints (boxed_core b) /\
                is_healthy (boxed_core b) now (endpoint_id ep) = true
  | None => forall ep, ep ∈ sc_endpoints (boxed_core b) ->
                is_healthy (boxed_core b) now (endpoint_id ep) = false
  end.
Proof.
  intros Hok. destruct (boxed_next_spec parse_ip b now) as (Hc & Hs & Hn).
  split; [done|]. destruct (boxed_next parse_ip b now).1 as [p|]; [by apply Hs|by apply Hn].
Qed.

(** Two endpoints under a weighted policy, the first one cooling down. *)
Definition demo_eps : list Endpoint :=
  [mkEndpoint "a" 22 None 0 1; mkEndpoint "b" 22 None 0 3; mkEndpoint "c" 22 None 0 2].

Definition demo_cfg (p : SelectionPolicy) : RoundRobinConfig :=
  mkRoundRobinConfig true p false (from_secs 60) (from_secs 30) (from_secs 300).

Definition demo_boxed : BoxedSelector (list Z) :=
  boxed_record_failure (BRoundRobin (RoundRobinSelector_new demo_eps (demo_cfg RoundRobin))) 0 "a:22".

Lemma policy_next_correct_witness :
  (boxed_next (fun _ => None) demo_boxed (from_secs 1)).1
    = Some (mkPick "b:22" (V4 0, 22) 3) /\
  match (boxed_next (fun _ => None) demo_boxed (from_secs 1)).1 with
  | Some p => exists ep, p = make_pick (fun _ => None) ep /\ ep ∈ sc_endpoints (boxed_core demo_boxed) /\
                is_healthy (boxed_core demo_boxed) (from_secs 1) (endpoint_id ep) = true
  | None => forall ep, ep ∈ sc_endpoints (boxed_core demo_boxed) ->
                is_healthy (boxed_core demo_boxed) (from_secs 1) (endpoint_id ep) = false
  end.
Proof.
  split; [vm_compute; reflexivity|].
  apply (policy_next_correct (fun _ => None) demo_boxed (from_secs 1)).
  split; vm_compute; discriminate.
Defined.

(** *** Failure cooldowns *)

(** a failed endpoint sits out its cooldown under every policy.  After
    [record_failure] at [t], no [next] before [t + cooldown] returns that
    endpoint; from [t + cooldown] on, or at once after [record_success], it is
    selectable again; and no other endpoint's health changes. *)
Theorem failure_cooldown_respected (parse_ip : string -> option IpAddr) {R : Type} `{Rng R}
    (b : BoxedSelector R) (t now : Z) (id id' : string) :
  let b' := boxed_record_failure b t id in
  let c := sc_cooldown (boxed_core b) in
  (forall p, now < t + c -> (boxed_next parse_ip b' now).1 = Some p -> pick_id p <> id) /\
  is_healthy (boxed_core b') now id = (t + c <=? now) /\
  is_healthy (boxed_core (boxed_record_success b' id)) now id = true /\
  (id <> id' -> is_healthy (boxed_core b') now id' = is_healthy (boxed_core b) now id').
Proof.
  intros b' c. subst b' c. unfold boxed_record_success.
  rewrite boxed_map_core_core, boxed_failure_core. split_and!.
  - intros p Hlt Hp Heq. destruct (boxed_next_spec parse_ip (boxed_record_failure b t id) now)
      as (_ & Hs & _). destruct (Hs _ Hp) as (ep & -> & _ & Hh). cbn in Heq. subst id.
    rewrite boxed_failure_core, failure_health in Hh. bool_prop. lia.
  - apply failure_health.
  - apply success_health.
  - apply failure_health_other.
Qed.

Lemma failure_cooldown_respected_witness :
  (boxed_next (fun _ => None) demo_boxed (from_secs 29)).1 = Some (mkPick "b:22" (V4 0, 22) 3) /\
  pick_id (mkPick "b:22" (V4 0, 22) 3) <> "a:22"%string.
Proof.
  split; [vm_compute; reflexivity|].
  apply (failure_cooldown_respected (fun _ => None)
           (BRoundRobin (R := list Z) (RoundRobinSelector_new demo_eps (demo_cfg RoundRobin)))
           0 (from_secs 29) "a:22" "b:22"); vm_compute; reflexivity.
Defined.

(** *** Manual pin *)

Lemma find_endpoint_id eps ep :
  ep ∈ eps ->
  exists ep', List.find (fun e => String.eqb (endpoint_id e) (endpoint_id ep)) eps = Some ep' /\
    endpoint_id ep' = endpoint_id ep.
Proof.
  intros Hin. destruct (find_is_some (fun e => String.eqb (endpoint_id e) (endpoint_id ep)) eps ep Hin)
    as [e He]; [apply String.eqb_refl|].
  exists e. split; [done|]. apply find_some_elem in He as [_ Heq]. by bool_prop.
Qed.

(** With a pin whose endpoint is selectable, every policy returns the pick of
    [manual_pick] and keeps its own cursor or generator. *)
Lemma boxed_next_manual parse_ip {R} `{Rng R} (b : BoxedSelector R) now p :
  manual_pick parse_ip (refresh_health (boxed_core b) now) now = Some p ->
  boxed_next parse_ip b now = (Some p, boxed_map_core (fun c => refresh_health c now) b).
Proof.
  destruct b as [s|s|s|s|s]; cbn [boxed_core]; intros Hm; cbn [boxed_next];
    unfold rr_next, random_next, weighted_next, sticky_next, least_next; by rewrite Hm.
Qed.

(** the manual pin wins over every policy while its endpoint is selectable,
    leaving the policy's own state alone; while the endpoint cools down the
    policy chooses among the others; the empty id removes the pin. *)
Theorem manual_pin_priority (parse_ip : string -> option IpAddr) {R : Type} `{Rng R}
    (b : BoxedSelector R) (now : Z) (ep : Endpoint) :
  ep ∈ sc_endpoints (boxed_core b) ->
  let b' := boxed_manual_override b (endpoint_id ep) in
  (is_healthy (boxed_core b) now (endpoint_id ep) = true ->
   exists p, boxed_next parse_ip b' now = (Some p, boxed_map_core (fun c => refresh_health c now) b') /\
     pick_id p = endpoint_id ep) /\
  (is_healthy (boxed_core b) now (endpoint_id ep) = false ->
   manual_pick parse_ip (refresh_health (boxed_core b') now) now = None) /\
  sc_manual (boxed_core (boxed_manual_override b' "")) = None.
Proof.
  intros Hin b'.
  assert (boxed_core b' = core_manual_override (boxed_core b) (endpoint_id ep)) as Hc
    by (apply (boxed_map_core_core (fun c => core_manual_override c (endpoint_id ep)))).
  assert (sc_manual (boxed_core b') = Some (endpoint_id ep)) as Hm.
  { rewrite Hc. cbn. destruct (String.eqb_spec (endpoint_id ep) ""); [|done].
    unfold endpoint_id, host_port in e. by destruct (ep_host ep). }
  assert (forall i, is_healthy (refresh_health (boxed_core b') now) now i
            = is_healthy (boxed_core b) now i) as Hh.
  { intros i. rewrite is_healthy_refresh, Hc. done. }
  split_and!.
  - intros Hsel. destruct (find_endpoint_id _ _ Hin) as (ep' & Hf & Hid).
    exists (make_pick parse_ip ep'). split; [|done]. apply boxed_next_manual.
    unfold manual_pick. cbn [sc_manual refresh_health]. rewrite Hm. cbn [mbind option_bind].
    rewrite Hh, Hsel. cbn [negb refresh_health sc_endpoints]. rewrite Hc.
    cbn [core_manual_override sc_endpoints]. by rewrite Hf.
  - intros Hsel. unfold manual_pick. cbn [sc_manual refresh_health]. rewrite Hm. cbn [mbind option_bind].
    by rewrite Hh, Hsel.
  - unfold boxed_manual_override. by rewrite boxed_map_core_core.
Qed.

Lemma manual_pin_priority_witness :
  exists p, boxed_next (fun _ => None) (boxed_manual_override demo_boxed "c:22") (from_secs 1)
    = (Some p, boxed_map_core (fun c => refresh_health c (from_secs 1))
                 (boxed_manual_override demo_boxed "c:22")) /\ pick_id p = "c:22"%string.
Proof.
  apply (manual_pin_priority (fun _ => None) demo_boxed (from_secs 1) (mkEndpoint "c" 22 None 0 2));
    [|vm_compute; reflexivity].
  apply list_elem_of_In. vm_compute. auto.
Defined.

(** *** Round robin: no starvation *)

(** What the supervisor reports between two calls. *)
Inductive Report := Succeeded (id : string) | FailedAt (at_ : Z) (id : string).

Definition rr_report (s : RoundRobinSelector) (r : Report) : RoundRobinSelector :=
  match r with
  | Succeeded id => mkRR (core_record_success (rr_core s) id) (rr_cursor s)
  | FailedAt at_ id => mkRR (core_record_failure (rr_core s) at_ id) (rr_cursor s)
  end.

(** Successive calls of [next], each at its own instant and after its own
    reports. *)
Fixpoint rr_turns (parse_ip : string -> option IpAddr) (ts : list (list Report * Z)) (s : RoundRobinSelector)
  : list (option EndpointPick) :=
  match ts with
  | [] => []
  | (reports, now) :: ts' =>
      let '(p, s') := rr_next parse_ip (foldl rr_report s reports) now in p :: rr_turns parse_ip ts' s'
  end.

(** [id] is selectable at every call. *)
Fixpoint selectable_throughout (parse_ip : string -> option IpAddr) (id : string) (ts : list (list Report * Z)) (s : RoundRobinSelector) : Prop :=
  match ts with
  | [] => True
  | (reports, now) :: ts' =>
      let s1 := foldl rr_report s reports in
      is_healthy (rr_core s1) now id = true /\ selectable_throughout parse_ip id ts' (rr_next parse_ip s1 now).2
  end.

(** Reports change neither the endpoints nor the pin nor the cursor. *)
Lemma reports_keep rs s :
  sc_endpoints (rr_core (foldl rr_report s rs)) = sc_endpoints (rr_core s)
  /\ sc_manual (rr_core (foldl rr_report s rs)) = sc_manual (rr_core s) /\ rr_cursor (foldl rr_report s rs) = rr_cursor s.
Proof. revert s. induction rs as [|r rs IH]; intros s; [done|]. cbn [foldl]. destruct (IH (rr_report s r)) as (-> & -> & ->). by destruct r. Qed.

(** Where a scan ends: past the end of the counter, or at the first healthy
    position, or after all of them. *)
Lemma scan_walk fuel core now c r c' :
  (0 < length (sc_endpoints core))%nat -> in_u 64 c -> scan fuel core now c = (r, c') ->
  (0 <= c' < Z.of_nat fuel /\ c' <= umax 64 /\ umax 64 < c + Z.of_nat fuel)
  \/ (c <= c' <= umax 64
      /\ (forall q e, c <= q < (match r with Some _ => c' - 1 | None => c' end) ->
            sc_endpoints core !! Z.to_nat (q mod Z.of_nat (length (sc_endpoints core))) = Some e -> is_healthy core now (endpoint_id e) = false)
      /\ match r with
         | Some ep => c < c' <= c + Z.of_nat fuel /\ sc_endpoints core !! Z.to_nat ((c' - 1) mod Z.of_nat (length (sc_endpoints core))) = Some ep
         | None => c' = c + Z.of_nat fuel
         end).
Proof.
  intros Hn. revert c. induction fuel as [|fuel IH]; intros c Hc; cbn [scan].
  { intros [= <- <-]. right. unfold in_u in Hc. split_and!; [lia|lia|intros; lia|lia]. }
  destruct (lookup_lt_is_Some_2 (sc_endpoints core) (Z.to_nat (c mod Z.of_nat (length (sc_endpoints core))))) as [e El].
  { pose proof (Z.mod_pos_bound c (Z.of_nat (length (sc_endpoints core))) ltac:(lia)). lia. }
  rewrite El. unfold in_u in Hc. destruct (Z.eq_dec c (umax 64)) as [->|Hne].
  - change (wrap 64 (umax 64 + 1)) with 0. destruct (is_healthy core now (endpoint_id e)).
    + intros [= <- <-]. left. unfold umax. lia.
    + intros Hs. left. destruct (IH 0 ltac:(unfold in_u, umax; lia) Hs) as [H|(H1 & _ & H2)]; [lia|].
      destruct r; lia.
  - rewrite wrap_small by (unfold in_u; lia). destruct (is_healthy core now (endpoint_id e)) eqn:Eh.
    + intros [= <- <-]. right. split_and!; try lia. by replace (c + 1 - 1) with c by lia.
    + intros Hs. destruct (IH (c + 1) ltac:(unfold in_u; lia) Hs) as [H|(H1 & H2 & H3)]; [left; lia|]. right.
      split_and!; [lia|lia| |].
      * intros q x Hq Hx. destruct (Z.eq_dec q c) as [->|]; [congruence|]. by apply (H2 q x); [lia|].
      * destruct r; [destruct H3; split; [lia|done]|lia].
Qed.

(** One call without a pin, as a scan. *)
Lemma rr_next_scan parse_ip s now :
  sc_manual (rr_core s) = None -> (0 < length (sc_endpoints (rr_core s)))%nat ->
  rr_next parse_ip s now
  = let '(r, c) := scan (length (sc_endpoints (rr_core s))) (refresh_health (rr_core s) now) now (rr_cursor s) in
    (make_pick parse_ip <$> r, mkRR (refresh_health (rr_core s) now) c).
Proof.
  intros Hm Hn. unfold rr_next, manual_pick. cbn [refresh_health sc_manual sc_endpoints]. rewrite Hm. cbn [mbind option_bind].
  rewrite decide_False by lia. done.
Qed.

Section Coverage.
Context (parse_ip : string -> option IpAddr) (eps : list Endpoint) (ep : Endpoint).
Notation n := (Z.of_nat (length eps)).

(** A selector over [eps] without a pin. *)
Definition unpinned (s : RoundRobinSelector) : Prop :=
  sc_endpoints (rr_core s) = eps /\ sc_manual (rr_core s) = None /\ in_u 64 (rr_cursor s).

(** One turn: the endpoint is returned, or the cursor has not reached its
    position yet, or the counter has wrapped. *)
Lemma turn_covers reports now s q :
  unpinned s -> (0 < length eps)%nat -> rr_cursor s <= q < rr_cursor s + n -> eps !! Z.to_nat (q mod n) = Some ep ->
  let s1 := foldl rr_report s reports in
  is_healthy (rr_core s1) now (endpoint_id ep) = true ->
  let '(p, s') := rr_next parse_ip s1 now in
  unpinned s' /\ (p = Some (make_pick parse_ip ep) \/ rr_cursor s < rr_cursor s' <= q \/ rr_cursor s' < n /\ umax 64 < rr_cursor s + n).
Proof.
  intros (He & Hm & Hc) Hn Hq Hl s1 Hh. destruct (reports_keep reports s) as (He1 & Hm1 & Hc1). fold s1 in He1, Hm1, Hc1.
  rewrite He in He1. rewrite Hm in Hm1. rewrite rr_next_scan by (rewrite ?He1; done). rewrite He1, Hc1.
  destruct (scan _ _ now _) as [r c] eqn:Es.
  apply scan_walk in Es; [|cbn; by rewrite He1|done]. cbn [refresh_health sc_endpoints] in Es. rewrite He1 in Es.
  assert (in_u 64 c) as Hcu by (unfold in_u in *; destruct Es as [?|[? _]]; lia).
  split; [by split_and!|]. cbn [rr_cursor]. destruct Es as [H1|(H1 & H2 & H3)]; [right; right; lia|].
  destruct (Z.lt_ge_cases q (match r with Some _ => c - 1 | None => c end)) as [Hlt|Hge].
  { pose proof (H2 q ep ltac:(lia) Hl) as Hf. rewrite is_healthy_refresh in Hf. congruence. }
  destruct r as [e|]; [|lia]. destruct H3 as [H3 H4]. destruct (Z.eq_dec q (c - 1)) as [->|]; [left; cbn; congruence|right; left; lia].
Qed.

(** While the counter does not wrap. *)
Lemma turns_cover ts s q :
  unpinned s -> (0 < length eps)%nat -> rr_cursor s <= q < rr_cursor s + n -> eps !! Z.to_nat (q mod n) = Some ep ->
  q - rr_cursor s < Z.of_nat (length ts) -> rr_cursor s + (q - rr_cursor s + 1) * n <= umax 64 ->
  selectable_throughout parse_ip (endpoint_id ep) ts s -> Some (make_pick parse_ip ep) ∈ rr_turns parse_ip ts s.
Proof.
  revert s. induction ts as [|[reports now] ts IH]; intros s Hs Hn Hq Hl Hlen Hw; [cbn in Hlen; lia|]. cbn [selectable_throughout rr_turns]. intros [Hh Ht].
  pose proof (turn_covers reports now s q Hs Hn Hq Hl Hh) as H. destruct (rr_next _ _ now) as [p s']. destruct H as [Hs' [->|[H|H]]]; [left| |nia].
  right. apply (IH s'); try done; [lia|cbn [length] in Hlen; lia|nia].
Qed.

(** Twice the number of endpoints is enough wherever the cursor stands. *)
Lemma turns_cover_wrapping ts s q :
  unpinned s -> (0 < length eps)%nat -> n < 2 ^ 32 - 1 -> rr_cursor s <= q < rr_cursor s + n -> eps !! Z.to_nat (q mod n) = Some ep ->
  ep ∈ eps -> q - rr_cursor s + n < Z.of_nat (length ts) ->
  selectable_throughout parse_ip (endpoint_id ep) ts s -> Some (make_pick parse_ip ep) ∈ rr_turns parse_ip ts s.
Proof.
  intros Hs Hn Hbig Hq Hl Hin. revert s Hs Hq. induction ts as [|[reports now] ts IH]; intros s Hs Hq Hlen; [cbn in Hlen; lia|].
  cbn [selectable_throughout rr_turns length] in *. intros [Hh Ht].
  pose proof (turn_covers reports now s q Hs Hn Hq Hl Hh) as H. destruct (rr_next _ _ now) as [p s']. destruct H as [Hs' [->|[H|[H _]]]]; [left| |].
  - right. apply IH; try done; lia.
  - right. apply list_elem_of_lookup_1 in Hin as [i Hi]. pose proof (lookup_lt_Some _ _ _ Hi).
    pose proof Hs' as (_ & _ & [Hc0 _]).
    pose proof (Z.mod_pos_bound (Z.of_nat i - rr_cursor s') n ltac:(lia)) as Hd.
    apply (turns_cover ts s' (rr_cursor s' + (Z.of_nat i - rr_cursor s') mod n)); try done; try lia.
    + rewrite Z.add_mod_idemp_r by lia. replace (rr_cursor s' + (Z.of_nat i - rr_cursor s')) with (Z.of_nat i) by lia.
      rewrite Z.mod_small by lia. by rewrite Nat2Z.id.
    + unfold umax. change (2 ^ 64) with 18446744073709551616. change (2 ^ 32) with 4294967296 in Hbig. nia.
Qed.

End Coverage.

(** C37: round robin starves nobody.  Take any sequence of calls, each at its own
    instant and after any reports of successes and failures, on a selector
    without a manual pin over [n] endpoints, [n < 2^32 - 1].  An endpoint that is
    selectable at each of the calls is returned by one of the first [n], if the
    cursor cannot wrap at [2^64] meanwhile, and by one of the first [2 n]
    wherever the cursor stands. *)
Theorem rr_no_starvation (parse_ip : string -> option IpAddr) (s : RoundRobinSelector) (ts : list (list Report * Z)) (ep : Endpoint) :
  let n := Z.of_nat (length (sc_endpoints (rr_core s))) in
  sc_manual (rr_core s) = None -> in_u 64 (rr_cursor s) -> n < 2 ^ 32 - 1 ->
  ep ∈ sc_endpoints (rr_core s) -> selectable_throughout parse_ip (endpoint_id ep) ts s ->
  n <= Z.of_nat (length ts) /\ rr_cursor s + n * n <= umax 64 \/ 2 * n <= Z.of_nat (length ts) ->
  Some (make_pick parse_ip ep) ∈ rr_turns parse_ip ts s.
Proof.
  intros n Hm Hc Hn Hin Ht Hlen. pose proof Hin as [i Hi]%list_elem_of_lookup_1. pose proof (lookup_lt_Some _ _ _ Hi).
  pose proof (Z.mod_pos_bound (Z.of_nat i - rr_cursor s) n ltac:(lia)) as Hd.
  assert (sc_endpoints (rr_core s) !! Z.to_nat ((rr_cursor s + (Z.of_nat i - rr_cursor s) mod n) mod n) = Some ep) as Hl.
  { rewrite Z.add_mod_idemp_r by lia. replace (rr_cursor s + (Z.of_nat i - rr_cursor s)) with (Z.of_nat i) by lia.
    rewrite Z.mod_small by lia. by rewrite Nat2Z.id. }
  assert (unpinned (sc_endpoints (rr_core s)) s) as Hs by by split_and!.
  destruct Hlen as [[Hlen Hw]|Hlen].
  - eapply turns_cover; try done; [lia|fold n; lia|fold n; lia|fold n; nia].
  - eapply turns_cover_wrapping; try done; [lia|fold n; lia|fold n; lia].
Qed.

(** The cursor at its very end, a failed endpoint and six calls. *)
Lemma rr_no_starvation_witness :
  Some (mkPick "c:22" (V4 0, 22) 2) ∈
    rr_turns (fun _ => None) [([FailedAt 0 "a:22"], 1); ([], 2); ([Succeeded "a:22"], 3); ([], 4); ([], 5); ([], 6)]
      (mkRR (SelectorCore_new demo_eps (demo_cfg RoundRobin)) (umax 64)).
Proof.
  apply (rr_no_starvation (fun _ => None) (mkRR (SelectorCore_new demo_eps (demo_cfg RoundRobin)) (umax 64))
    [([FailedAt 0 "a:22"], 1); ([], 2); ([Succeeded "a:22"], 3); ([], 4); ([], 5); ([], 6)] (mkEndpoint "c" 22 None 0 2)).
  - reflexivity.
  - vm_compute. split; discriminate.
  - vm_compute. reflexivity.
  - apply list_elem_of_In. vm_compute. auto.
  - vm_compute. repeat split.
  - right. vm_compute. discriminate.
Defined.

(** *** Weighted: shares *)

(** the weighted policy gives each endpoint its share.  With no pin, the
    generator draws from a range whose size is the sum of the effective
    weights, and the endpoint behind the prefix [l1] of the selectable ones is
    returned for exactly its own [eff_weight] consecutive rolls; a weight of
    zero counts as one. *)
Theorem weighted_share (parse_ip : string -> option IpAddr) {R : Type} `{Rng R}
    (s : WeightedSelector R) (now : Z) (l1 l2 : list Endpoint) (e : Endpoint) :
  sc_manual (wt_core s) = None ->
  healthy_endpoints (wt_core s) now = l1 ++ e :: l2 ->
  let total := sum_by eff_weight (l1 ++ e :: l2) in
  let roll := (gen_range (wt_rng s) 0 (total - 1)).1 in
  0 <= roll < total /\
  (sum_by eff_weight l1 <= roll < sum_by eff_weight l1 + eff_weight e ->
   (weighted_next parse_ip s now).1 = Some (make_pick parse_ip e)).
Proof.
  intros Hm Hh total roll.
  assert (1 <= total) as Ht by (apply sum_by_pos; [apply eff_weight_pos|by destruct l1]).
  assert (healthy_endpoints (refresh_health (wt_core s) now) now = l1 ++ e :: l2) as Hh'.
  { rewrite <- Hh. unfold healthy_endpoints. cbn [sc_endpoints refresh_health].
    apply filter_ext. intros x. apply is_healthy_refresh. }
  split; [pose proof (gen_range_in (wt_rng s) 0 (total - 1)); unfold roll; lia|].
  intros Hr. unfold weighted_next, manual_pick. cbn [sc_manual refresh_health]. rewrite Hm.
  cbn [mbind option_bind]. fold (refresh_health (wt_core s) now). rewrite Hh'. fold total.
  case_decide as Hl; [by destruct l1|].
  destruct (Z.eqb_spec total 0); [lia|].
  destruct (gen_range (wt_rng s) 0 (total - 1)) as [r rng] eqn:Eg. cbn in roll. subst roll.
  rewrite (weighted_walk_interval _ eff_weight_pos l1 e l2) by lia. done.
Qed.

Lemma weighted_share_witness :
  (weighted_next (fun _ => None)
     (WeightedSelector_new demo_eps (demo_cfg Weighted) [3]) 0).1
  = Some (mkPick "b:22" (V4 0, 22) 3).
Proof.
  apply (weighted_share (fun _ => None) (WeightedSelector_new demo_eps (demo_cfg Weighted) [3]) 0
    [mkEndpoint "a" 22 None 0 1] [mkEndpoint "c" 22 None 0 2] (mkEndpoint "b" 22 None 0 3));
    vm_compute; [reflexivity..|split; [discriminate|reflexivity]].
Defined.

(** *** Least errors *)

(** the least-errors policy returns a selectable endpoint that no
    selectable endpoint beats on recorded failures, and a recorded failure
    raises exactly that endpoint's count by one. *)
Theorem least_errors_minimal (parse_ip : string -> option IpAddr) (s : LeastErrorsSelector) (now t : Z)
    (id : string) (p : EndpointPick) :
  sc_manual (le_core s) = None ->
  (least_next parse_ip s now).1 = Some p ->
  (exists ep, p = make_pick parse_ip ep /\ ep ∈ sc_endpoints (le_core s) /\
    is_healthy (le_core s) now (endpoint_id ep) = true /\
    forall x, x ∈ sc_endpoints (le_core s) -> is_healthy (le_core s) now (endpoint_id x) = true ->
      error_count (le_errors s) ep <= error_count (le_errors s) x) /\
  (forall x, error_count (le_errors (least_record_failure s t id)) x =
     if decide (endpoint_id x = id) then error_count (le_errors s) x + 1
     else error_count (le_errors s) x).
Proof.
  intros Hm Hp. split.
  - unfold least_next, manual_pick in Hp. cbn [sc_manual refresh_health] in Hp. rewrite Hm in Hp.
    cbn [mbind option_bind] in Hp. fold (refresh_health (le_core s) now) in Hp.
    pose proof (least_errors_loop_spec (refresh_health (le_core s) now) now (le_errors s)
      (sc_endpoints (refresh_health (le_core s) now)) None ltac:(done)) as Hl.
    destruct (least_errors_loop _ _ _ _ _) as [[e n]|]; [|done].
    injection Hp as <-. destruct Hl as (-> & Hin & _ & Hmin). destruct Hin as [|[Hin Hh]]; [done|].
    exists e. rewrite is_healthy_refresh in Hh. split_and!; try done.
    intros x Hx Hxh. apply Hmin; [done|]. by rewrite is_healthy_refresh.
  - intros x. unfold error_count. cbn [least_record_failure le_errors].
    case_decide as Hid; [subst id; by rewrite lookup_insert_eq|by rewrite lookup_insert_ne].
Qed.

Definition demo_least : LeastErrorsSelector :=
  least_record_failure (LeastErrorsSelector_new demo_eps (demo_cfg LeastErrors)) 0 "a:22".

Lemma least_errors_minimal_witness :
  (least_next (fun _ => None) demo_least (from_secs 60)).1 = Some (mkPick "b:22" (V4 0, 22) 3) /\
  exists ep, mkPick "b:22" (V4 0, 22) 3 = make_pick (fun _ => None) ep /\
    ep ∈ sc_endpoints (le_core demo_least) /\
    is_healthy (le_core demo_least) (from_secs 60) (endpoint_id ep) = true /\
    forall x, x ∈ sc_endpoints (le_core demo_least) ->
      is_healthy (le_core demo_least) (from_secs 60) (endpoint_id x) = true ->
      error_count (le_errors demo_least) ep <= error_count (le_errors demo_least) x.
Proof.
  split; [vm_compute; reflexivity|].
  apply (least_errors_minimal (fun _ => None) demo_least (from_secs 60) 0 "b:22"
    (mkPick "b:22" (V4 0, 22) 3)); vm_compute; reflexivity.
Defined.

(** *** Sticky sessions *)

(** What [next] leaves behind: a pin on the endpoint it returned. *)
Lemma sticky_next_pins parse_ip s now p s' :
  sc_manual (st_core s) = None ->
  sticky_next parse_ip s now = (Some p, s') ->
  st_core s' = refresh_health (st_core s) now /\
  exists ep u, p = make_pick parse_ip ep /\ ep ∈ sc_endpoints (st_core s) /\
    st_pinned_id s' = Some (endpoint_id ep) /\ st_pinned_until s' = Some u /\
    (sticky_reuse (refresh_health (st_core s) now) (st_pinned_id s) (st_pinned_until s) now = None ->
     u = now + st_ttl s).
Proof.
  intros Hm. unfold sticky_next, manual_pick. cbn [sc_manual refresh_health]. rewrite Hm.
  cbn [mbind option_bind]. fold (refresh_health (st_core s) now).
  destruct (sticky_reuse _ _ _ now) as [ep|] eqn:Er.
  - intros [= <- <-]. unfold sticky_reuse in Er.
    destruct (st_pinned_id s) as [id|] eqn:Ei; cbn in Er; [|done].
    destruct (st_pinned_until s) as [u|] eqn:Eu; cbn in Er; [|done].
    destruct ((now <? u) && _) eqn:Eh; [|done].
    apply find_some_elem in Er as [Hin Heq]. bool_prop. subst id.
    split; [done|]. exists ep, u. by split_and!.
  - case_decide; [done|]. destruct (scan _ _ now _) as [[ep|] c] eqn:Es; [|done].
    intros [= <- <-]. apply scan_some in Es as [? _]. split; [done|].
    exists ep, (now + st_ttl s). by split_and!.
Qed.

(** A live pin on a selectable endpoint is reused. *)
Lemma sticky_next_reuses parse_ip s now ep u :
  sc_manual (st_core s) = None ->
  ep ∈ sc_endpoints (st_core s) ->
  st_pinned_id s = Some (endpoint_id ep) -> st_pinned_until s = Some u -> now < u ->
  is_healthy (st_core s) now (endpoint_id ep) = true ->
  exists p, sticky_next parse_ip s now =
    (Some p, mkSticky (refresh_health (st_core s) now) (st_ttl s) (st_pinned_id s)
               (st_pinned_until s) (st_cursor s)) /\ pick_id p = endpoint_id ep.
Proof.
  intros Hm Hin Hid Hu Hlt Hh. destruct (find_endpoint_id _ _ Hin) as (ep' & Hf & He).
  exists (make_pick parse_ip ep'). split; [|done].
  unfold sticky_next, manual_pick. cbn [sc_manual refresh_health]. rewrite Hm.
  cbn [mbind option_bind]. fold (refresh_health (st_core s) now).
  unfold sticky_reuse. rewrite Hid, Hu. cbn [mbind option_bind]. rewrite is_healthy_refresh, Hh.
  destruct (Z.ltb_spec now u); [|lia]. cbn [andb sc_endpoints refresh_health]. by rewrite Hf.
Qed.

(** sticky sessions stick.  The endpoint a [next] returned (no manual pin)
    stays pinned until some instant [u], which for a fresh pin is one TTL
    ahead: every later [next] before [u] at which the endpoint is selectable
    returns that endpoint and renews nothing, and a failure of the pinned
    endpoint drops the pin at once. *)
Theorem sticky_pin_stable (parse_ip : string -> option IpAddr) (s s' : StickySelector) (now t : Z)
    (p : EndpointPick) :
  sc_manual (st_core s) = None ->
  sticky_next parse_ip s now = (Some p, s') ->
  st_pinned_id s' = Some (pick_id p) /\
  st_pinned_id (sticky_record_failure s' t (pick_id p)) = None /\
  exists u, st_pinned_until s' = Some u /\
    (sticky_reuse (refresh_health (st_core s) now) (st_pinned_id s) (st_pinned_until s) now = None ->
     u = now + st_ttl s) /\
    forall now', now' < u -> is_healthy (st_core s') now' (pick_id p) = true ->
      exists p', sticky_next parse_ip s' now' =
        (Some p', mkSticky (refresh_health (st_core s') now') (st_ttl s') (st_pinned_id s')
                    (st_pinned_until s') (st_cursor s')) /\ pick_id p' = pick_id p.
Proof.
  intros Hm Hs. destruct (sticky_next_pins _ _ _ _ _ Hm Hs) as (Hc & ep & u & -> & Hin & Hid & Hu & Httl).
  split; [done|]. split.
  { unfold sticky_record_failure. by rewrite decide_True. }
  exists u. split; [done|]. split; [done|]. intros now' Hlt Hh.
  apply (sticky_next_reuses _ _ _ ep u); rewrite ?Hc; try done. by rewrite <- Hc.
Qed.

Definition demo_sticky : StickySelector := StickySelector_new demo_eps (demo_cfg Sticky).

Lemma sticky_pin_stable_witness :
  st_pinned_id (sticky_next (fun _ => None) demo_sticky 0).2 = Some "a:22"%string.
Proof.
  apply (sticky_pin_stable (fun _ => None) demo_sticky (sticky_next (fun _ => None) demo_sticky 0).2 0 0
    (mkPick "a:22" (V4 0, 22) 1)); vm_compute; reflexivity.
Defined.

(** *** DNS cycling *)

(** Successive calls of [next_address] at the given instants. *)
Fixpoint dns_run (resolve : string -> list IpAddr) (interval : Z) (st : DnsState) (times : list Z)
  : list (option IpAddr) :=
  match times with
  | [] => []
  | t :: times' =>
      let '(a, st') := next_address resolve interval st t in a :: dns_run resolve interval st' times'
  end.

Lemma dns_run_cached resolve interval times host l t0 c :
  l <> [] -> 0 <= c -> c + Z.of_nat (length times) <= umax 64 ->
  Forall (fun t => t0 <= t < t0 + interval) times ->
  dns_run resolve interval (mkDnsState host l (Some t0) c) times =
  (fun i => l !! Z.to_nat ((c + Z.of_nat i) mod Z.of_nat (length l))) <$> seq 0 (length times).
Proof.
  intros Hl. revert c. induction times as [|t times IH]; intros c Hc Hb Hf; [done|].
  apply Forall_cons in Hf as [Ht Hf]. cbn [length] in Hb.
  assert ((interval <=? duration_since t t0) = false) as Hd
    by (apply Z.leb_gt; unfold duration_since, sat_sub; lia).
  cbn [dns_run length]. unfold next_address. cbn [dns_last_refresh]. rewrite Hd. cbn [dns_cached dns_cursor].
  rewrite decide_False by (by destruct l).
  rewrite wrap_small by (unfold in_u; lia). cbn [dns_host dns_last_refresh].
  rewrite IH by (done || lia). cbn [seq fmap list_fmap]. rewrite Z.add_0_r. f_equal.
  rewrite <- fmap_S_seq, <- list_fmap_compose. apply list_fmap_ext. intros i x _. cbn.
  do 3 f_equal. lia.
Qed.

(** the DNS cycler walks the resolved addresses.  After a resolution at
    [t0], the calls made within the refresh interval return the addresses in
    order and wrap around, without resolving again; the first call at or past
    the interval resolves again and starts over. *)
Theorem dns_cycle (resolve : string -> list IpAddr) (interval : Z) (st : DnsState) (t0 : Z) (times : list Z) :
  let l := resolve (dns_host st) in
  l <> [] -> Z.of_nat (length times) < umax 64 ->
  Forall (fun t => t0 <= t < t0 + interval) times ->
  match dns_last_refresh st with Some t => interval <= t0 - t | None => True end -> 0 <= interval ->
  dns_run resolve interval st (t0 :: times) =
  (fun i => l !! (i mod length l)%nat) <$> seq 0 (S (length times)).
Proof.
  intros l Hl Hn Hf Hr Hi. cbn [dns_run]. unfold next_address.
  assert (match dns_last_refresh st with
          | None => true | Some t => interval <=? duration_since t0 t end = true) as ->.
  { destruct (dns_last_refresh st); [|done]. apply Z.leb_le. unfold duration_since, sat_sub. lia. }
  cbn [dns_cached dns_host dns_cursor dns_last_refresh]. fold l. rewrite decide_False by (by destruct l).
  assert (wrap 64 (0 + 1) = 1) as -> by reflexivity.
  rewrite (dns_run_cached _ _ _ _ l) by (done || lia). cbn [seq fmap list_fmap].
  assert (0 < length l)%nat by (destruct l; [done|cbn; lia]). f_equal.
  - rewrite Z.mod_0_l, Nat.Div0.mod_0_l by lia. done.
  - rewrite <- fmap_S_seq, <- list_fmap_compose. apply list_fmap_ext. intros i x _. cbn [compose].
    replace (1 + Z.of_nat x) with (Z.of_nat (S x)) by lia. by rewrite <- Nat2Z.inj_mod, Nat2Z.id.
Qed.

Lemma dns_cycle_witness :
  dns_run (fun _ => [V4 1; V4 2]) 10 (DnsRoundRobinResolver_new "h") [100; 101; 109]
  = [Some (V4 1); Some (V4 2); Some (V4 1)].
Proof.
  apply (dns_cycle (fun _ => [V4 1; V4 2]) 10 (DnsRoundRobinResolver_new "h") 100 [101; 109]).
  - discriminate.
  - reflexivity.
  - repeat constructor; vm_compute; discriminate || reflexivity.
  - exact I.
  - discriminate.
Defined.
