(* ===== verification/Failover.v ===== *)
(** * Endpoint failover

    Models [EndpointSelector] of [crates/spt-supervisor/src/failover.rs]: the
    priority, weighted and manual modes, the manual override, per-endpoint
    cooldowns, the least-bad fallback and the hook that delegates to a
    selection policy.

    The policy is any type [P] with the [PolicySelector] interface.  It lives
    behind an [Arc<Mutex<_>>] that [pick] locks, so [pick] returns the selector
    with the policy's new state.  The policy reads its own clock: [pnow] is
    that reading, [now] is the caller's. *)

From S2P Require Import Prelude Endpoint RoundRobin.

Inductive FailoverMode := MPriority | MWeighted | MManual.

#[global] Instance FailoverMode_eq_dec : EqDecision FailoverMode.
Proof. solve_decision. Defined.

Record ManualOverride := mkManual { mo_host : string; mo_port : Z }.

Inductive SelectorError := Empty | AllCoolingDown | ManualUnknown (host : string) (port : Z).

#[global] Instance SelectorError_eq_dec : EqDecision SelectorError.
Proof. solve_decision. Defined.

Record EndpointEntry := mkEntry {
  en_ep : Endpoint;
  en_cooldown_until : option Z;
  en_consecutive_failures : Z
}.

(** The test [e.ep.host == host && e.ep.port == port]. *)
Definition entry_is (host : string) (port : Z) (e : EndpointEntry) : bool :=
  String.eqb (ep_host (en_ep e)) host && (ep_port (en_ep e) =? port).

(** [cooldown_until.map(|t| t <= now).unwrap_or(true)]. *)
Definition eligible (now : Z) (e : EndpointEntry) : bool :=
  match en_cooldown_until e with Some t => t <=? now | None => true end.

(** [iter_mut().find(..)] followed by an update: change the first match. *)
Fixpoint update_first {A} (f : A -> bool) (g : A -> A) (l : list A) : list A :=
  match l with
  | [] => []
  | x :: l' => if f x then g x :: l' else x :: update_first f g l'
  end.

Section Selector.
Context {P : Type} `{PolicySelector P}.

Record EndpointSelector := mkSelector {
  es_mode : FailoverMode;
  es_entries : list EndpointEntry;
  es_cooldown_secs_per_failure : Z;
  es_fail_after : Z;
  es_manual : option ManualOverride;
  es_policy : option P
}.

Definition EndpointSelector_new (mode : FailoverMode) (endpoints : list Endpoint) : EndpointSelector :=
  mkSelector mode ((fun ep => mkEntry ep None 0) <$> endpoints) 5 1 None None.

Definition set_policy_selector (s : EndpointSelector) (ps : option P) : EndpointSelector :=
  mkSelector (es_mode s) (es_entries s) (es_cooldown_secs_per_failure s) (es_fail_after s)
    (es_manual s) ps.

Definition has_policy_selector (s : EndpointSelector) : bool :=
  match es_policy s with Some _ => true | None => false end.

Definition with_cooldown (s : EndpointSelector) (secs : Z) : EndpointSelector :=
  mkSelector (es_mode s) (es_entries s) secs (es_fail_after s) (es_manual s) (es_policy s).

Definition with_fail_after (s : EndpointSelector) (n : Z) : EndpointSelector :=
  mkSelector (es_mode s) (es_entries s) (es_cooldown_secs_per_failure s) n (es_manual s) (es_policy s).

(** [pick_via_policy]: [None] without a policy. *)
Definition pick_via_policy (s : EndpointSelector) (pnow : Z)
  : option (Result SelectorError Endpoint) * EndpointSelector :=
  match es_policy s with
  | None => (None, s)
  | Some ps =>
      let '(pick, ps') := ps_next ps pnow in
      (Some match pick with
            | None => Err AllCoolingDown
            | Some p =>
                ok_or Empty (en_ep <$>
                  List.find (fun e => String.eqb (endpoint_id (en_ep e)) (pick_id p)) (es_entries s))
            end,
       set_policy_selector s (Some ps'))
  end.

Definition set_manual (s : EndpointSelector) (m : option ManualOverride) : EndpointSelector :=
  let ps := match es_policy s with
            | None => None
            | Some ps =>
                let id := match m with
                          | Some o => host_port (mo_host o) (mo_port o)
                          | None => ""%string
                          end in
                Some (ps_manual_override ps id)
            end in
  mkSelector (es_mode s) (es_entries s) (es_cooldown_secs_per_failure s) (es_fail_after s) m ps.

Definition healthy_count (s : EndpointSelector) (now : Z) : Z :=
  Z.of_nat (length (List.filter (eligible now) (es_entries s))).

(** [min_by_key(|e| e.cooldown_until)]; [None] is the case
    the caller's [expect] excludes. *)
Definition least_bad_fallback (s : EndpointSelector) : option Endpoint :=
  match es_entries s with
  | [] => None
  | e :: es =>
      Some (en_ep (min_by (fun a b => opt_ltb (en_cooldown_until a) (en_cooldown_until b)) e es))
  end.

(** An endpoint the code gets by [expect], [unwrap] or indexing, returned as
    [Ok]. *)
Definition ok_unwrap (o : option Endpoint) : Outcome (Result SelectorError Endpoint) :=
  outcome_map Ok (unwrap o).

(** The lowest-priority cohort of the eligible entries. *)
Definition min_priority (l : list EndpointEntry) : option Z :=
  match l with
  | [] => None
  | e :: es => Some (foldl (fun m x => Z.min m (ep_priority (en_ep x))) (ep_priority (en_ep e)) es)
  end.

Definition cohort (healthy : list EndpointEntry) : list EndpointEntry :=
  match min_priority healthy with
  | None => []
  | Some m => List.filter (fun e => ep_priority (en_ep e) =? m) healthy
  end.

Definition entry_weight (e : EndpointEntry) : Z := Z.max (ep_weight (en_ep e)) 1.

Context {R : Type} `{Rng R}.

(** [pick] past the manual pin and the policy. *)
Definition pick_by_mode (s : EndpointSelector) (rng : R) (now : Z)
  : Outcome (Result SelectorError Endpoint) * R :=
  match es_mode s with
  | MManual => (Return (Err Empty), rng)
  | m =>
      let healthy := List.filter (eligible now) (es_entries s) in
      match healthy with
      | [] => (ok_unwrap (least_bad_fallback s), rng)
      | _ =>
          let co := cohort healthy in
          match m with
          | MPriority => (ok_unwrap (en_ep <$> head co), rng)
          | MWeighted =>
              let total := sum_by entry_weight co in
              if total =? 0 then (ok_unwrap (en_ep <$> head co), rng)
              else
                let '(roll, rng') := gen_range rng 0 (total - 1) in
                (ok_unwrap (en_ep <$> match weighted_walk entry_weight roll 0 co with
                                     | Some e => Some e
                                     | None => last co
                                     end), rng')
          | MManual => (Return (Err Empty), rng)
          end
      end
  end.

(** [pick] past the manual pin. *)
Definition pick_auto (s : EndpointSelector) (rng : R) (now pnow : Z)
  : Outcome (Result SelectorError Endpoint) * R * EndpointSelector :=
  match pick_via_policy s pnow with
  | (Some (Ok ep), s') => (Return (Ok ep), rng, s')
  | (Some (Err _), s') => (ok_unwrap (least_bad_fallback s'), rng, s')
  | (None, s') => (pick_by_mode s' rng now, s')
  end.

Definition pick (s : EndpointSelector) (rng : R) (now pnow : Z)
  : Outcome (Result SelectorError Endpoint) * R * EndpointSelector :=
  match es_entries s with
  | [] => (Return (Err Empty), rng, s)
  | _ =>
      match es_manual s with
      | None => pick_auto s rng now pnow
      | Some m =>
          match List.find (entry_is (mo_host m) (mo_port m)) (es_entries s) with
          | None => (Return (Err (ManualUnknown (mo_host m) (mo_port m))), rng, s)
          | Some pinned =>
              let cooling := match en_cooldown_until pinned with Some t => now <? t | None => false end in
              if negb cooling then (Return (Ok (en_ep pinned)), rng, s)
              else pick_auto s rng now pnow
          end
      end
  end.

Definition with_entries (s : EndpointSelector) (es : list EndpointEntry) : EndpointSelector :=
  mkSelector (es_mode s) es (es_cooldown_secs_per_failure s) (es_fail_after s) (es_manual s) (es_policy s).

Definition with_policy (s : EndpointSelector) (f : P -> P) : EndpointSelector :=
  set_policy_selector s (f <$> es_policy s).

Definition record_success (s : EndpointSelector) (host : string) (port : Z) : EndpointSelector :=
  let s1 := with_entries s
    (update_first (entry_is host port) (fun e => mkEntry (en_ep e) None 0) (es_entries s)) in
  let clear_pin := match es_manual s1 with
                   | Some m => String.eqb (mo_host m) host && (mo_port m =? port)
                   | None => false
                   end in
  let s2 := if clear_pin then set_manual s1 None else s1 in
  with_policy s2 (fun ps => ps_record_success ps (host_port host port)).

(** The update of the failed entry. *)
Definition bench (fail_after unit_secs now : Z) (e : EndpointEntry) : EndpointEntry :=
  let n := sat_add 32 (en_consecutive_failures e) 1 in
  if fail_after <=? n
  then mkEntry (en_ep e) (Some (now + from_secs (sat_mul 64 n unit_secs))) n
  else mkEntry (en_ep e) (en_cooldown_until e) n.

Definition record_failure (s : EndpointSelector) (host : string) (port now pnow : Z) : EndpointSelector :=
  let s1 := with_entries s
    (update_first (entry_is host port)
       (bench (es_fail_after s) (es_cooldown_secs_per_failure s) now) (es_entries s)) in
  with_policy s1 (fun ps => ps_record_failure ps pnow (host_port host port)).

(** [cooldowns]: collected into a map, so a later duplicate key wins. *)
Definition cooldowns (s : EndpointSelector) : gmap string (option Z) :=
  foldl (fun m e => <[endpoint_id (en_ep e) := en_cooldown_until e]> m) ∅ (es_entries s).

End Selector.

Arguments EndpointSelector : clear implicits.

(** ** Lemmas: lists *)

Lemma update_first_fmap {A B} (f : A -> bool) (g : A -> A) (h : A -> B) l :
  (forall x, h (g x) = h x) -> h <$> update_first f g l = h <$> l.
Proof. intros Hh. induction l as [|x l IH]; cbn; [done|]. destruct (f x); cbn; by rewrite ?Hh, ?IH. Qed.

Lemma find_update_first {A} (f : A -> bool) (g : A -> A) l :
  (forall x, f (g x) = f x) -> List.find f (update_first f g l) = g <$> List.find f l.
Proof.
  intros Hg. induction l as [|x l IH]; cbn; [done|].
  destruct (f x) eqn:E; cbn; rewrite ?Hg, E; done.
Qed.

Lemma find_update_other {A} (f f' : A -> bool) (g : A -> A) l :
  (forall x, f x = true -> f' x = false) -> (forall x, f' (g x) = f' x) ->
  List.find f' (update_first f g l) = List.find f' l.
Proof.
  intros Hd Hg. induction l as [|x l IH]; cbn; [done|].
  destruct (f x) eqn:E; cbn; rewrite ?Hg.
  - by rewrite (Hd _ E).
  - by rewrite IH.
Qed.

Lemma find_fmap_entry f l :
  (forall e e', en_ep e = en_ep e' -> f e = f e') ->
  forall l', en_ep <$> l = en_ep <$> l' -> en_ep <$> List.find f l = en_ep <$> List.find f l'.
Proof.
  intros Hf. induction l as [|e l IH]; intros [|e' l']; cbn; try done.
  intros [= He Hl]. rewrite (Hf _ _ He). destruct (f e'); cbn; [by rewrite He|by apply IH].
Qed.

Lemma entry_is_ep host port e e' : en_ep e = en_ep e' -> entry_is host port e = entry_is host port e'.
Proof. unfold entry_is. by intros ->. Qed.

Section SelectorLemmas.
Context {P : Type} `{PolicySelector P} {R : Type} `{Rng R}.
Implicit Types s : EndpointSelector P.

(** Entry [e] recovers no later than any other. *)
Definition soonest s (e : EndpointEntry) : Prop :=
  e ∈ es_entries s /\
  forall x, x ∈ es_entries s -> opt_ltb (en_cooldown_until x) (en_cooldown_until e) = false.

Lemma least_bad_total s :
  es_entries s <> [] -> exists e, least_bad_fallback s = Some (en_ep e) /\ soonest s e.
Proof.
  unfold least_bad_fallback, soonest. destruct (es_entries s) as [|e es]; [done|]. intros _.
  set (lt := fun a b => _). exists (min_by lt e es). split; [done|]. split.
  - destruct (min_by_in lt e es) as [->|]; constructor; done.
  - intros x Hx. apply (min_by_least lt); [| |done]; subst lt; cbn; intros *;
      eauto using opt_ltb_asym, opt_ltb_ge_trans.
Qed.

Lemma min_priority_spec (l : list EndpointEntry) :
  l <> [] -> exists m, min_priority l = Some m /\
    (exists e, e ∈ l /\ ep_priority (en_ep e) = m) /\ forall e, e ∈ l -> m <= ep_priority (en_ep e).
Proof.
  destruct l as [|e l]; [done|]. intros _. unfold min_priority. eexists. split; [done|].
  assert (forall m0, let m := foldl (fun m x => Z.min m (ep_priority (en_ep x))) m0 l in
    (m = m0 \/ exists x, x ∈ l /\ ep_priority (en_ep x) = m) /\ m <= m0 /\
    forall x, x ∈ l -> m <= ep_priority (en_ep x)) as Hgen.
  { induction l as [|x l IH]; intros m0; cbn.
    - split; [by left|]. split; [lia|]. intros x Hx. by apply not_elem_of_nil in Hx.
    - destruct (IH (Z.min m0 (ep_priority (en_ep x)))) as (Hw & Hle & Hall). split_and!; [|lia|].
      + destruct Hw as [Hw|(y & Hy & Hm)]; [|right; exists y; split; [by constructor|done]].
        rewrite Hw. destruct (Z.min_spec m0 (ep_priority (en_ep x))) as [[? ->]|[? ->]];
          [by left|right; exists x; split; [constructor|done]].
      + intros y [->|Hy]%elem_of_cons; [lia|by apply Hall]. }
  destruct (Hgen (ep_priority (en_ep e))) as (Hw & Hle & Hall). split.
  - destruct Hw as [Hw|(x & Hx & Hm)]; [exists e; split; [constructor|done]|].
    exists x. split; [by constructor|done].
  - intros x [->|Hx]%elem_of_cons; [done|by apply Hall].
Qed.

(** The cohort is the eligible entries of the lowest priority. *)
Lemma cohort_spec (l : list EndpointEntry) :
  l <> [] -> cohort l <> [] /\
  forall e, e ∈ cohort l -> e ∈ l /\ forall x, x ∈ l -> ep_priority (en_ep e) <= ep_priority (en_ep x).
Proof.
  intros Hl. destruct (min_priority_spec l Hl) as (m & Hm & (e & He & Hpri) & Hmin).
  unfold cohort. rewrite Hm. split.
  - intros Hnil. assert (e ∈ List.filter (fun e => ep_priority (en_ep e) =? m) l) as Hin.
    { apply elem_of_filter_bool. split; [done|]. by apply Z.eqb_eq. }
    rewrite Hnil in Hin. by apply not_elem_of_nil in Hin.
  - intros x [Hx Hxm]%elem_of_filter_bool. bool_prop. split; [done|]. intros y Hy.
    rewrite Hxm. by apply Hmin.
Qed.

Lemma entry_weight_pos e : 1 <= entry_weight e.
Proof. unfold entry_weight. lia. Qed.

(** The weighted roll lands in the cohort. *)
Lemma weighted_cohort (co : list EndpointEntry) roll :
  0 <= roll <= sum_by entry_weight co - 1 ->
  exists e, weighted_walk entry_weight roll 0 co = Some e /\ e ∈ co.
Proof.
  intros Hr. destruct (weighted_walk_total entry_weight co roll 0) as [e He]; [lia|].
  exists e. split; [done|]. by eapply weighted_walk_in.
Qed.

(** What the modes choose: an eligible entry of the lowest priority if there
    is an eligible entry, the soonest to recover otherwise. *)
Definition preferred s (now : Z) (e : EndpointEntry) : Prop :=
  if existsb (eligible now) (es_entries s)
  then e ∈ es_entries s /\ eligible now e = true /\
       forall x, x ∈ es_entries s -> eligible now x = true ->
         ep_priority (en_ep e) <= ep_priority (en_ep x)
  else soonest s e.

Lemma existsb_filter_nil {A} (f : A -> bool) l : existsb f l = false <-> List.filter f l = [].
Proof. induction l as [|x l IH]; cbn; [done|]. by destruct (f x). Qed.

Lemma pick_by_mode_spec s (rng : R) now :
  es_entries s <> [] -> es_mode s <> MManual ->
  exists e, (pick_by_mode s rng now).1 = Return (Ok (en_ep e)) /\ preferred s now e.
Proof.
  intros Hne Hm. unfold pick_by_mode, preferred.
  set (hs := List.filter (eligible now) (es_entries s)).
  destruct (existsb (eligible now) (es_entries s)) eqn:Ex.
  - assert (hs <> []) as Hhs. { intros E. apply existsb_filter_nil in E. congruence. }
    destruct (cohort_spec hs Hhs) as [Hco Hin].
    assert (forall e, e ∈ cohort hs -> e ∈ es_entries s /\ eligible now e = true /\
       forall x, x ∈ es_entries s -> eligible now x = true ->
         ep_priority (en_ep e) <= ep_priority (en_ep x)) as Hgood.
    { intros e He. apply Hin in He as [[He1 He2]%elem_of_filter_bool He3]. split_and!; [done..|].
      intros x Hx Hxe. apply He3. by apply elem_of_filter_bool. }
    destruct hs as [|h hs'] eqn:Ehs; [done|]. rewrite <- Ehs in *.
    destruct (cohort hs) as [|c0 co] eqn:Eco; [done|].
    assert (1 <= sum_by entry_weight (c0 :: co)) as Hsum
      by (apply sum_by_pos; [apply entry_weight_pos|done]).
    destruct (es_mode s); [|destruct (Z.eqb_spec (sum_by entry_weight (c0 :: co)) 0) as [Hz|Hz]|done].
    + exists c0. split; [done|]. apply Hgood. constructor.
    + lia.
    + assert (0 <= sum_by entry_weight (c0 :: co) - 1) as Hle by lia.
      pose proof (gen_range_in rng _ _ Hle) as Hg.
      destruct (gen_range rng 0 _) as [roll rng']. cbn [fst] in Hg.
      destruct (weighted_cohort _ _ Hg) as (e & -> & He). exists e. split; [done|]. by apply Hgood.
  - apply existsb_filter_nil in Ex. fold hs in Ex. rewrite Ex.
    destruct (least_bad_total s Hne) as (e & -> & Hs). exists e. by destruct (es_mode s).
Qed.

Lemma pick_via_policy_entries s pnow : es_entries (pick_via_policy s pnow).2 = es_entries s.
Proof. unfold pick_via_policy. destruct (es_policy s); [|done]. by destruct (ps_next _ _). Qed.

(** Past the pin, only the manual mode without a policy fails. *)
Lemma pick_auto_spec s (rng : R) now pnow :
  es_entries s <> [] ->
  (es_mode s = MManual /\ es_policy s = None /\ (pick_auto s rng now pnow).1.1 = Return (Err Empty)) \/
  ((es_mode s <> MManual \/ es_policy s <> None) /\
   exists e, e ∈ es_entries s /\ (pick_auto s rng now pnow).1.1 = Return (Ok (en_ep e))).
Proof.
  intros Hne. unfold pick_auto, pick_via_policy. destruct (es_policy s) as [ps|] eqn:Ep.
  - right. split; [by right|]. destruct (ps_next ps pnow) as [[pk|] ps'].
    + destruct (List.find _ _) as [e|] eqn:Ef.
      * exists e. apply find_some_elem in Ef as [? _]. done.
      * destruct (least_bad_total (set_policy_selector s (Some ps'))) as (e & Hb & Hs); [done|].
        exists e. cbn -[least_bad_fallback]. rewrite Hb. split; [by destruct Hs|done].
    + destruct (least_bad_total (set_policy_selector s (Some ps'))) as (e & Hb & Hs); [done|].
      exists e. cbn -[least_bad_fallback]. rewrite Hb. split; [by destruct Hs|done].
  - cbn. destruct (decide (es_mode s = MManual)) as [Hm|Hm].
    + left. unfold pick_by_mode. by rewrite Hm.
    + right. split; [by left|]. destruct (pick_by_mode_spec s rng now Hne Hm) as (e & He & Hp).
      exists e. split; [|done]. unfold preferred, soonest in Hp. destruct (existsb _ _); tauto.
Qed.

(** The pin of [s] names one of its entries. *)
Definition pinned_entry s : option EndpointEntry :=
  match es_manual s with
  | Some m => List.find (entry_is (mo_host m) (mo_port m)) (es_entries s)
  | None => None
  end.

Lemma cooling_eligible now e :
  match en_cooldown_until e with Some t => now <? t | None => false end = negb (eligible now e).
Proof. unfold eligible. destruct (en_cooldown_until e); [|done]. by rewrite Z.leb_antisym, negb_involutive. Qed.

(** [pick] by cases, for a list that is not empty. *)
Lemma pick_cases s (rng : R) now pnow :
  es_entries s <> [] ->
  pick s rng now pnow =
  match es_manual s, pinned_entry s with
  | Some m, None => (Return (Err (ManualUnknown (mo_host m) (mo_port m))), rng, s)
  | _, Some e => if eligible now e then (Return (Ok (en_ep e)), rng, s) else pick_auto s rng now pnow
  | None, None => pick_auto s rng now pnow
  end.
Proof.
  unfold pick, pinned_entry. destruct (es_entries s) eqn:Ee; [done|]. intros _.
  destruct (es_manual s) as [m|]; [|done]. destruct (List.find _ _) as [e'|]; [|done].
  rewrite cooling_eligible. by destruct (eligible now e').
Qed.

(** The policy knows the same endpoints as the selector. *)
Definition coherent s : Prop :=
  forall ps, es_policy s = Some ps -> ps_endpoints ps = en_ep <$> es_entries s.

Lemma with_policy_policy s f : es_policy (with_policy s f) = f <$> es_policy s.
Proof. done. Qed.

Lemma bench_ep a b c e : en_ep (bench a b c e) = en_ep e.
Proof. unfold bench. by destruct (_ <=? _). Qed.

Lemma entry_is_bench h p a b c e : entry_is h p (bench a b c e) = entry_is h p e.
Proof. apply entry_is_ep, bench_ep. Qed.

Lemma record_success_eps s h p : en_ep <$> es_entries (record_success s h p) = en_ep <$> es_entries s.
Proof.
  unfold record_success. cbn. rewrite <- (update_first_fmap (entry_is h p)
    (fun e => mkEntry (en_ep e) None 0) en_ep (es_entries s)) by done. by split_goal.
Qed.

Lemma record_failure_eps s h p now pnow :
  en_ep <$> es_entries (record_failure s h p now pnow) = en_ep <$> es_entries s.
Proof. unfold record_failure. cbn. apply update_first_fmap. intros. apply bench_ep. Qed.

End SelectorLemmas.

#[export] Hint Rewrite @record_success_eps @record_failure_eps : spt_rw.

(** ** Properties *)

Section Properties.
Context {P : Type} `{PolicySelector P} {R : Type} `{Rng R}.
Implicit Types s : EndpointSelector P.

(** the selector never panics and its errors are exactly these: [Empty]
    without endpoints, [ManualUnknown] for a pin that names no endpoint, and
    [Empty] in manual mode when there is no policy and no pin it can honour.
    In every other state [pick] yields one of the configured endpoints, so a
    profile whose endpoints all cool down is not stranded; [AllCoolingDown]
    never reaches the caller. *)
Theorem pick_errors s (rng : R) (now pnow : Z) :
  let r := (pick s rng now pnow).1.1 in
  r <> Panic /\
  (forall ep, r = Return (Ok ep) -> ep ∈ en_ep <$> es_entries s) /\
  (forall e, r = Return (Err e) <->
     (es_entries s = [] /\ e = Empty) \/
     (es_entries s <> [] /\ pinned_entry s = None /\
        exists m, es_manual s = Some m /\ e = ManualUnknown (mo_host m) (mo_port m)) \/
     (es_entries s <> [] /\ es_mode s = MManual /\ es_policy s = None /\ e = Empty /\
        match pinned_entry s with
        | Some x => eligible now x = false
        | None => es_manual s = None
        end)).
Proof.
  destruct (decide (es_entries s = [])) as [He|Hne].
  { unfold pick. rewrite He. cbn. split_and!; [done|done|]. intros e. split.
    - intros [= <-]. by left.
    - intros [[_ ->]|[[? _]|[? _]]]; done. }
  cbv zeta. rewrite pick_cases by done.
  assert (forall e, pinned_entry s = Some e -> e ∈ es_entries s) as Hpin.
  { unfold pinned_entry. intros e. destruct (es_manual s); [|done]. by intros [? _]%find_some_elem. }
  destruct (pick_auto_spec s rng now pnow Hne) as [(Hm & Hp & Hr)|(Hmp & e0 & Hin & Hr)];
    destruct (es_manual s) as [m|] eqn:Em; destruct (pinned_entry s) as [x|] eqn:Ex;
    try destruct (eligible now x) eqn:Ee; cbn [fst]; rewrite ?Hr;
    (split_and!; [done|intros ep Hep; simplify_eq; apply list_elem_of_fmap; eauto
                 |intros e; split; [intros Hep; simplify_eq|]; naive_solver]).
Qed.

(** without a pin and a policy, [pick] prefers health over priority over
    recovery: an endpoint out of cooldown whose priority no other endpoint out
    of cooldown undercuts, and only if all endpoints cool down one that
    recovers first. *)
Theorem pick_prefers_healthy s (rng : R) (now pnow : Z) :
  es_entries s <> [] -> es_mode s <> MManual -> es_manual s = None -> es_policy s = None ->
  exists e, (pick s rng now pnow).1.1 = Return (Ok (en_ep e)) /\
    if existsb (eligible now) (es_entries s)
    then e ∈ es_entries s /\ eligible now e = true /\
         forall x, x ∈ es_entries s -> eligible now x = true ->
           ep_priority (en_ep e) <= ep_priority (en_ep x)
    else e ∈ es_entries s /\
         forall x, x ∈ es_entries s -> opt_le (en_cooldown_until e) (en_cooldown_until x).
Proof.
  intros Hne Hm Hman Hpol. rewrite pick_cases by done. unfold pinned_entry. rewrite Hman.
  unfold pick_auto, pick_via_policy. rewrite Hpol.
  destruct (pick_by_mode_spec s rng now Hne Hm) as (e & He & Hp). by exists e.
Qed.

(** the policy decides when it can, and otherwise nobody is stranded.  With
    a policy over the same endpoints and no pin, [pick] returns the endpoint
    the policy picked, which the policy holds selectable; when the policy
    yields nothing, which a well-formed policy does only with every endpoint
    unselectable, [pick] returns an endpoint that recovers first by the
    selector's own cooldowns.  The guard for a pick outside the list is dead. *)
Theorem policy_delegation s (ps : P) (rng : R) (now pnow : Z) :
  es_entries s <> [] -> es_manual s = None -> es_policy s = Some ps -> coherent s ->
  exists e, e ∈ es_entries s /\ (pick s rng now pnow).1.1 = Return (Ok (en_ep e)) /\
    match (ps_next ps pnow).1 with
    | Some pk => endpoint_id (en_ep e) = pick_id pk /\ ps_selectable ps pnow (pick_id pk) = true
    | None => soonest s e /\
        (ps_ok ps -> forall x, x ∈ es_entries s -> ps_selectable ps pnow (endpoint_id (en_ep x)) = false)
    end.
Proof.
  intros Hne Hman Hpol Hco. specialize (Hco _ Hpol). rewrite pick_cases by done.
  unfold pinned_entry. rewrite Hman. unfold pick_auto, pick_via_policy. rewrite Hpol.
  pose proof (ps_next_some ps pnow) as Hs. pose proof (ps_next_none ps pnow) as Hn.
  destruct (ps_next ps pnow) as [[pk|] ps']; cbn [fst] in *.
  - destruct (Hs _ eq_refl) as (ep & Hin & Hid & Hsel). rewrite Hco in Hin.
    apply list_elem_of_fmap in Hin as (e0 & -> & Hin0).
    destruct (find_is_some (fun e => String.eqb (endpoint_id (en_ep e)) (pick_id pk)) _ e0 Hin0)
      as [e He]; [rewrite Hid; apply String.eqb_refl|].
    rewrite He. exists e. apply find_some_elem in He as [Hine Heq]. bool_prop.
    split_and!; try done. by rewrite Hid.
  - destruct (least_bad_total (set_policy_selector s (Some ps'))) as (e & Hb & Hse); [done|].
    exists e. rewrite Hb. split_and!; [by destruct Hse|done|done|].
    intros Hok x Hx. apply Hn; [done..|]. rewrite Hco. apply list_elem_of_fmap. eauto.
Qed.

(** The operations of the supervisor on the selector. *)
Inductive SelOp :=
| OpSetManual (m : option ManualOverride)
| OpSuccess (host : string) (port : Z)
| OpFailure (host : string) (port now pnow : Z)
| OpPick (rng : R) (now pnow : Z).

Definition sel_op s (o : SelOp) : EndpointSelector P :=
  match o with
  | OpSetManual m => set_manual s m
  | OpSuccess h p => record_success s h p
  | OpFailure h p now pnow => record_failure s h p now pnow
  | OpPick rng now pnow => (pick s rng now pnow).2
  end.

Lemma pick_state s (rng : R) now pnow :
  (pick s rng now pnow).2 = s \/
  exists ps, es_policy s = Some ps /\
    (pick s rng now pnow).2 = set_policy_selector s (Some (ps_next ps pnow).2).
Proof.
  assert ((pick_auto s rng now pnow).2 = s \/ exists ps, es_policy s = Some ps /\
    (pick_auto s rng now pnow).2 = set_policy_selector s (Some (ps_next ps pnow).2)) as Ha.
  { unfold pick_auto, pick_via_policy. destruct (es_policy s) as [ps|]; [|by left].
    right. exists ps. split; [done|]. destruct (ps_next ps pnow) as [[pk|] ps']; [|done].
    by destruct (List.find _ _). }
  destruct (decide (es_entries s = [])) as [He|Hne]; [left; unfold pick; by rewrite He|].
  rewrite pick_cases by done.
  destruct (es_manual s), (pinned_entry s) as [x|]; try destruct (eligible now x); auto.
Qed.

(** the selector and its policy agree on the endpoints forever.  Coherence
    holds once the policy is attached and every operation preserves it; the
    list of endpoints itself never changes. *)
Theorem coherent_invariant (mode : FailoverMode) (eps : list Endpoint) (ps : P) (ops : list SelOp) :
  ps_endpoints ps = eps ->
  let s := foldl sel_op (set_policy_selector (EndpointSelector_new mode eps) (Some ps)) ops in
  coherent s /\ en_ep <$> es_entries s = eps.
Proof.
  intros Hps.
  assert (forall s, coherent s /\ en_ep <$> es_entries s = eps ->
    forall o, coherent (sel_op s o) /\ en_ep <$> es_entries (sel_op s o) = eps) as Hstep.
  { unfold coherent. intros s [Hc He] o. destruct o as [m|h p|h p now pnow|rng now pnow]; cbn [sel_op].
    - split; [|done]. intros q. cbn. destruct (es_policy s) as [q0|]; [|done].
      intros [= <-]. rewrite ps_override_endpoints. by apply Hc.
    - rewrite record_success_eps, He. split; [|done]. intros q Hq. rewrite <- He.
      unfold record_success in Hq. rewrite with_policy_policy in Hq.
      apply fmap_Some in Hq as (q1 & Hq1 & ->). rewrite ps_success_endpoints.
      destruct (match es_manual _ with Some _ => _ | None => _ end); [|by apply Hc].
      cbn in Hq1. destruct (es_policy s) as [q0|]; [|done].
      injection Hq1 as <-. rewrite ps_override_endpoints. by apply Hc.
    - rewrite record_failure_eps, He. split; [|done]. intros q Hq. rewrite <- He.
      unfold record_failure in Hq. rewrite with_policy_policy in Hq.
      apply fmap_Some in Hq as (q1 & Hq1 & ->). rewrite ps_failure_endpoints. by apply Hc.
    - destruct (pick_state s rng now pnow) as [->|(q0 & Hq0 & ->)]; [done|].
      cbn. split; [|done]. intros q [= <-]. rewrite ps_next_endpoints. by apply Hc. }
  cbv zeta. assert (coherent (set_policy_selector (EndpointSelector_new mode eps) (Some ps)) /\
    en_ep <$> es_entries (set_policy_selector (EndpointSelector_new mode eps) (Some ps)) = eps) as H0'.
  { assert (en_ep <$> ((fun ep => mkEntry ep None 0) <$> eps) = eps) as E
      by (rewrite <- list_fmap_compose; apply list_fmap_id).
    split; [|done]. intros q [= <-]. cbn. by rewrite E. }
  revert H0'. generalize (set_policy_selector (EndpointSelector_new mode eps) (Some ps)).
  induction ops as [|o ops IH]; intros s Hs; [done|]. apply IH, Hstep, Hs.
Qed.

(** The entry of endpoint [host:port]. *)
Definition entry_of s (host : string) (port : Z) : option EndpointEntry :=
  List.find (entry_is host port) (es_entries s).

Lemma entry_of_failure s h p now pnow :
  entry_of (record_failure s h p now pnow) h p =
  bench (es_fail_after s) (es_cooldown_secs_per_failure s) now <$> entry_of s h p.
Proof. apply find_update_first. intros. apply entry_is_bench. Qed.

Lemma entry_of_failure_other s h p h' p' now pnow :
  (h, p) <> (h', p') -> entry_of (record_failure s h p now pnow) h' p' = entry_of s h' p'.
Proof.
  intros Hne. apply find_update_other; [|intros; apply entry_is_bench].
  intros x. unfold entry_is. intros [H1 H2]%andb_true_iff. bool_prop. subst.
  destruct (String.eqb_spec (ep_host (en_ep x)) h') as [<-|]; [|done].
  destruct (Z.eqb_spec (ep_port (en_ep x)) p') as [<-|]; [|done]. by destruct Hne.
Qed.

Lemma record_failure_config s h p now pnow :
  es_fail_after (record_failure s h p now pnow) = es_fail_after s /\
  es_cooldown_secs_per_failure (record_failure s h p now pnow) = es_cooldown_secs_per_failure s.
Proof. done. Qed.

(** Consecutive failures of one endpoint at the given instants. *)
Definition fail_at s (h : string) (p : Z) (times : list Z) : EndpointSelector P :=
  foldl (fun s t => record_failure s h p t t) s times.

Lemma fail_at_count s h p times e :
  entry_of s h p = Some e -> 0 <= en_consecutive_failures e ->
  en_consecutive_failures e + Z.of_nat (length times) <= umax 32 ->
  es_fail_after (fail_at s h p times) = es_fail_after s /\
  es_cooldown_secs_per_failure (fail_at s h p times) = es_cooldown_secs_per_failure s /\
  exists e', entry_of (fail_at s h p times) h p = Some e' /\
    en_consecutive_failures e' = en_consecutive_failures e + Z.of_nat (length times).
Proof.
  revert s e. induction times as [|t times IH]; intros s e He H0' Hb; cbn [fail_at foldl].
  { split_and!; [done..|]. exists e. split; [done|]. cbn. lia. }
  cbn [length] in Hb.
  assert (en_consecutive_failures (bench (es_fail_after s) (es_cooldown_secs_per_failure s) t e)
    = en_consecutive_failures e + 1) as Hn.
  { unfold bench. rewrite sat_add_small by lia. by destruct (_ <=? _). }
  destruct (IH (record_failure s h p t t) _ ltac:(rewrite entry_of_failure, He; reflexivity))
    as (H1 & H2 & e' & H3 & H4); [lia|lia|]. fold (fail_at (record_failure s h p t t) h p times) in *.
  split_and!; [done..|]. exists e'. split; [done|]. rewrite H4, Hn. cbn [length]. lia.
Qed.

(** cooldowns scale exactly.  After [k] consecutive failures of an
    endpoint, the last at [t], the endpoint cools down until
    [t + k * cooldown_secs_per_failure] seconds once [k] has reached
    [fail_after]; other endpoints are not affected; one success makes it
    eligible again and restarts the count. *)
Theorem cooldown_scales s (h : string) (p : Z) (e : EndpointEntry) (times : list Z) (t now : Z)
    (h' : string) (p' : Z) :
  entry_of s h p = Some e -> en_consecutive_failures e = 0 -> en_cooldown_until e = None ->
  let k := Z.of_nat (length times) + 1 in
  k <= umax 32 -> es_fail_after s <= k -> k * es_cooldown_secs_per_failure s <= umax 64 ->
  let s' := fail_at s h p (times ++ [t]) in
  entry_of s' h p = Some (mkEntry (en_ep e) (Some (t + from_secs (k * es_cooldown_secs_per_failure s))) k) /\
  entry_of (record_success s' h p) h p = Some (mkEntry (en_ep e) None 0) /\
  ((h, p) <> (h', p') -> entry_of s' h' p' = entry_of s h' p').
Proof.
  intros He H0' Hc k Hk Hfa Hmul s'.
  destruct (fail_at_count s h p times e He) as (Hf1 & Hf2 & e1 & He1 & Hn1); [lia|lia|].
  assert (en_ep e1 = en_ep e) as Hep.
  { clear - He He1. revert s e He He1. induction times as [|t0 times IH]; intros s e He He1.
    - cbn in He1. congruence.
    - specialize (IH (record_failure s h p t0 t0)). rewrite entry_of_failure, He in IH.
      rewrite (IH _ eq_refl He1). apply bench_ep. }
  assert (entry_of s' h p =
    Some (mkEntry (en_ep e) (Some (t + from_secs (k * es_cooldown_secs_per_failure s))) k)) as Hs'.
  { subst s'. unfold fail_at. rewrite foldl_app. cbn [foldl]. fold (fail_at s h p times).
    rewrite entry_of_failure, He1. cbn. unfold bench. rewrite Hf1, Hf2, Hep, Hn1, H0'.
    rewrite Z.add_0_l, sat_add_small by lia. fold k.
    destruct (Z.leb_spec (es_fail_after s) k); [|lia]. unfold sat_mul. by rewrite Z.min_l. }
  split_and!; [done| |].
  - assert (entry_of (record_success s' h p) h p
      = (fun x => mkEntry (en_ep x) None 0) <$> entry_of s' h p) as ->; [|by rewrite Hs'].
    unfold record_success, entry_of. rewrite <- find_update_first by done. cbn. by split_goal.
  - intros Hne. subst s'. unfold fail_at. clear - Hne. revert s.
    induction (times ++ [t]) as [|t0 l IH]; intros s; cbn; [done|].
    rewrite IH. by apply entry_of_failure_other.
Qed.

(** a manual override lasts one cycle.  Pinning a configured endpoint makes
    [pick] return it whenever it is out of cooldown; a success on another
    endpoint keeps the pin; the first success on the pinned endpoint removes
    it from the selector and from the attached policy. *)
Theorem one_cycle_pin s (rng : R) (now pnow : Z) (h h' : string) (p p' : Z) (e : EndpointEntry) :
  entry_of s h p = Some e ->
  let s' := set_manual s (Some (mkManual h p)) in
  (eligible now e = true -> pick s' rng now pnow = (Return (Ok (en_ep e)), rng, s')) /\
  ((h', p') <> (h, p) -> es_manual (record_success s' h' p') = Some (mkManual h p)) /\
  es_manual (record_success s' h p) = None /\
  es_policy (record_success s' h p) =
    (fun ps => ps_record_success (ps_manual_override (ps_manual_override ps (host_port h p)) "")
                 (host_port h p)) <$> es_policy s.
Proof.
  intros He s'. split_and!.
  - intros Hel. assert (es_entries s' <> []) as Hne.
    { cbn. intros E. unfold entry_of in He. by rewrite E in He. }
    rewrite pick_cases by done. unfold pinned_entry. cbn. unfold entry_of in He. by rewrite He, Hel.
  - intros Hne. unfold record_success. cbn.
    destruct (String.eqb_spec h h') as [<-|]; [|done].
    destruct (Z.eqb_spec p p') as [<-|]; [|done]. by destruct Hne.
  - unfold record_success. cbn. by rewrite String.eqb_refl, Z.eqb_refl.
  - unfold record_success. cbn. rewrite String.eqb_refl, Z.eqb_refl. cbn. by destruct (es_policy s).
Qed.

(** an override that names no configured endpoint wedges the selector: it
    is accepted, and from then on every [pick] fails with [ManualUnknown],
    through any number of failures, picks and successes of configured
    endpoints; nothing but another override ends it. *)
Theorem unknown_pin_wedges s (h : string) (p : Z) (ops : list SelOp) (rng : R) (now pnow : Z) :
  es_entries s <> [] -> entry_of s h p = None ->
  Forall (fun o => match o with
                   | OpSetManual _ => False
                   | OpSuccess h' p' => entry_of s h' p' <> None
                   | _ => True
                   end) ops ->
  (pick (foldl sel_op (set_manual s (Some (mkManual h p))) ops) rng now pnow).1.1
  = Return (Err (ManualUnknown h p)).
Proof.
  intros Hne Hun Hops.
  assert (forall s', en_ep <$> es_entries s' = en_ep <$> es_entries s -> forall h' p',
    en_ep <$> entry_of s' h' p' = en_ep <$> entry_of s h' p') as Hlook.
  { intros s' E h' p'. apply find_fmap_entry; [intros; by apply entry_is_ep|done]. }
  assert (forall s', en_ep <$> es_entries s' = en_ep <$> es_entries s /\ es_manual s' = Some (mkManual h p) ->
    (pick s' rng now pnow).1.1 = Return (Err (ManualUnknown h p))) as Hpick.
  { intros s' [E Em]. rewrite pick_cases; [|intros E'; rewrite E' in E; by destruct (es_entries s)].
    unfold pinned_entry. rewrite Em. cbn. specialize (Hlook _ E h p). rewrite Hun in Hlook.
    unfold entry_of in Hlook. by destruct (List.find _ _). }
  apply Hpick. assert (en_ep <$> es_entries (set_manual s (Some (mkManual h p))) = en_ep <$> es_entries s
    /\ es_manual (set_manual s (Some (mkManual h p))) = Some (mkManual h p)) as Hinit by done.
  revert Hinit. generalize (set_manual s (Some (mkManual h p))).
  induction Hops as [|o ops Ho Hops IH]; intros s' Hs'; [done|]. apply IH. destruct Hs' as [E Em].
  destruct o as [m|h' p'|h' p' n1 n2|r n1 n2]; cbn [sel_op].
  - done.
  - rewrite record_success_eps. split; [done|]. unfold record_success. cbn. rewrite Em. cbn.
    destruct (String.eqb_spec h h') as [<-|]; [|done].
    destruct (Z.eqb_spec p p') as [<-|]; [|done]. by destruct Ho.
  - by rewrite record_failure_eps.
  - destruct (pick_state s' r n1 n2) as [->|(q & _ & ->)]; done.
Qed.

End Properties.

(** ** Witnesses *)

#[local] Instance demo_policy : PolicySelector (BoxedSelector (list Z)) := boxed_policy (fun _ => None).

Definition demo_sel : EndpointSelector (BoxedSelector (list Z)) := EndpointSelector_new MPriority demo_eps.

Definition demo_rr : BoxedSelector (list Z) :=
  BRoundRobin (RoundRobinSelector_new demo_eps (demo_cfg RoundRobin)).

Definition demo_sel_policy : EndpointSelector (BoxedSelector (list Z)) :=
  set_policy_selector demo_sel (Some demo_rr).

Lemma pick_prefers_healthy_witness :
  exists e, (pick (record_failure demo_sel "a" 22 0 0) ([] : list Z) 1 1).1.1 = Return (Ok (en_ep e)) /\
    eligible 1 e = true.
Proof.
  destruct (pick_prefers_healthy (R := list Z) (record_failure demo_sel "a" 22 0 0) [] 1 1)
    as (e & He & _ & Hel & _); try (vm_compute; first [discriminate|reflexivity]).
  exists e. split; [exact He|exact Hel].
Defined.

Lemma policy_delegation_witness :
  exists e, (pick demo_sel_policy ([] : list Z) 1 1).1.1 = Return (Ok (en_ep e)) /\
    endpoint_id (en_ep e) = "a:22"%string.
Proof.
  destruct (policy_delegation (R := list Z) demo_sel_policy demo_rr [] 1 1)
    as (e & _ & He & Hid & _); try (vm_compute; first [discriminate|reflexivity]).
  - intros ps [= <-]. vm_compute. reflexivity.
  - exists e. split; [exact He|exact Hid].
Defined.

Lemma coherent_invariant_witness :
  coherent (foldl sel_op demo_sel_policy [OpFailure (R := list Z) "a" 22 0 0; OpPick [] 1 1; OpSuccess "b" 22]).
Proof.
  apply (coherent_invariant (R := list Z) MPriority demo_eps demo_rr
    [OpFailure "a" 22 0 0; OpPick [] 1 1; OpSuccess "b" 22]). vm_compute. reflexivity.
Defined.

Lemma cooldown_scales_witness :
  entry_of (fail_at demo_sel "a" 22 [1; 2; 3]) "a" 22 =
  Some (mkEntry (mkEndpoint "a" 22 None 0 1) (Some (3 + from_secs 15)) 3).
Proof.
  destruct (cooldown_scales demo_sel "a" 22 (mkEntry (mkEndpoint "a" 22 None 0 1) None 0) [1; 2] 3 0 "b" 22)
    as [Hx _]; [vm_compute; first [reflexivity|discriminate]..|].
  cbn [app] in Hx. rewrite Hx. reflexivity.
Defined.

Lemma one_cycle_pin_witness :
  es_manual (record_success (set_manual demo_sel (Some (mkManual "b" 22))) "b" 22) = None.
Proof.
  apply (one_cycle_pin (R := list Z) demo_sel [] 0 0 "b" "a" 22 22
    (mkEntry (mkEndpoint "b" 22 None 0 3) None 0)). vm_compute. reflexivity.
Defined.

Lemma unknown_pin_wedges_witness :
  (pick (foldl sel_op (set_manual demo_sel (Some (mkManual "z" 22)))
           [OpSuccess (R := list Z) "a" 22; OpFailure "b" 22 0 0]) [] 5 5).1.1
  = Return (Err (ManualUnknown "z" 22)).
Proof.
  apply (unknown_pin_wedges (R := list Z) demo_sel "z" 22 [OpSuccess "a" 22; OpFailure "b" 22 0 0] [] 5 5).
  - vm_compute. discriminate.
  - vm_compute. reflexivity.
  - repeat constructor. vm_compute. discriminate.
Defined.
