(* ===== verification/Session.v ===== *)
(** * The session registry

    Models [crates/spt-supervisor/src/session.rs]: the process-wide table of
    live sessions the profile tasks publish into.  The concurrent map is a
    [gmap] keyed by the session id; ids are the strings of their UUIDs. *)

From S2P Require Import Prelude.

Record SessionRow := mkRow {
  sr_id : string;
  sr_profile : string;
  sr_protocol : string;
  sr_endpoint : string;
  sr_since : Z;
  sr_state : string;
  sr_bytes_in : Z;
  sr_bytes_out : Z;
  sr_conns_open : Z
}.

#[global] Instance SessionRow_eq_dec : EqDecision SessionRow.
Proof. solve_decision. Defined.

Abbreviation SessionRegistry := (gmap string SessionRow).

Definition registry_new : SessionRegistry := ∅.

Definition registry_insert (r : SessionRegistry) (row : SessionRow) : SessionRegistry :=
  <[sr_id row := row]> r.

Definition registry_remove (r : SessionRegistry) (id : string) : option SessionRow * SessionRegistry :=
  (r !! id, delete id r).

Definition registry_get (r : SessionRegistry) (id : string) : option SessionRow := r !! id.

Definition registry_len (r : SessionRegistry) : Z := Z.of_nat (size r).

(** [by_profile]; the order of the map's iterator is not specified. *)
Definition by_profile (r : SessionRegistry) (profile : string) : list SessionRow :=
  List.filter (fun row => String.eqb (sr_profile row) profile) ((map_to_list r).*2).

Definition registry_update (r : SessionRegistry) (id : string) (f : SessionRow -> SessionRow) : SessionRegistry :=
  match r !! id with Some row => <[id := f row]> r | None => r end.

Definition add_bytes (r : SessionRegistry) (id : string) (bytes_in bytes_out : Z) : SessionRegistry :=
  registry_update r id (fun row =>
    mkRow (sr_id row) (sr_profile row) (sr_protocol row) (sr_endpoint row) (sr_since row) (sr_state row)
      (sat_add 64 (sr_bytes_in row) bytes_in) (sat_add 64 (sr_bytes_out row) bytes_out) (sr_conns_open row)).

Lemma elem_of_by_profile r profile row :
  row ∈ by_profile r profile <-> sr_profile row = profile /\ exists id, r !! id = Some row.
Proof.
  unfold by_profile. rewrite elem_of_filter_bool, list_elem_of_fmap, String.eqb_eq. split.
  - intros [([id row'] & -> & Hin) ->]. apply elem_of_map_to_list in Hin. eauto.
  - intros [<- [id Hid]]. split; [|done]. exists (id, row). split; [done|]. by apply elem_of_map_to_list.
Qed.
