(* ===== verification/Profile.v ===== *)
(** * The profile supervisor

    Models the task of [crates/spt-supervisor/src/profile.rs]: [ProfileTask],
    its [run] loop and [run_active], the control messages of [control.rs] and
    their handling in every phase, failure accounting, the instability
    remedies, backoff, forward reopening and the bounded event channel.

    The task is a step function.  Its program counter [Phase] names the points
    at which the code awaits; a [Stimulus] is what wakes it there (a control
    message, the outcome of [connect], of a probe or of opening the forwards,
    a timer, a state change of a forward), and [step] runs the code up to the
    next await.  [step] returns [None] for a stimulus that cannot occur in the
    phase.  The clock is read once per stretch of code without an await, and
    the waits that only bound a teardown ([stop_runners_bounded],
    [close_session_bounded]) show as the later reading [after].  The protocol
    backend, the forward runners and the credentials are outside: their
    outcomes are part of the stimuli, and a credential is an opaque [A].
    Logging, metrics and the canonical event bus have no effect on the task
    and are left out. *)

From S2P Require Import Prelude Float StateMachine Reconnect Instability Errors Endpoint RoundRobin Failover Session.

(** ** Data *)

(** [spt_protocol::ForwardState], prefixed because of the profile states. *)
Inductive ForwardState :=
| FDisabled | FBinding | FListening | FRemoteRequested | FActive | FDegraded | FRetryWait | FStopped | FFailed.

#[global] Instance ForwardState_eq_dec : EqDecision ForwardState.
Proof. solve_decision. Defined.

Definition forward_is_terminal (s : ForwardState) : bool :=
  match s with FStopped | FFailed | FDisabled => true | _ => false end.

(** The configuration of a forward, as far as the supervisor reads it. *)
Record Forward := mkForward { fw_name : string; fw_required : option bool }.

Inductive ProfileEvent :=
| StateChanged (profile : string) (from to : ProfileStateName)
| ReconnectScheduled (profile : string) (delay attempt : Z)
| BackoffExhausted (profile : string)
| InstabilityHit (profile : string)
| InstabilityCleared (profile : string)
| FailoverRequested (profile : string) (override_to : option string).

Inductive HealthCheckStyle := TcpConnect | SshHandshake | SshAuthPreflight | Ssh3Endpoint.

Record ProfileSupervisorConfig := mkSupCfg {
  pc_backoff : BackoffConfig;
  pc_failover_mode : FailoverMode;
  pc_failover_fail_after : Z;
  pc_failover_cooldown : Z;
  pc_health_check : HealthCheckStyle;
  pc_instability : InstabilityWindow;
  pc_keepalive_interval : Z;
  pc_keepalive_timeout : Z
}.

Definition ProfileSupervisorConfig_default : ProfileSupervisorConfig :=
  mkSupCfg BackoffConfig_default MPriority 1 (from_secs 5) SshHandshake InstabilityWindow_default
    (from_secs 30) (from_secs 10).

(** The [keepalive_timeout] of [run_active]: a zero is replaced by the default. *)
Definition keepalive_timeout (cfg : ProfileSupervisorConfig) : Z :=
  if pc_keepalive_timeout cfg =? 0 then from_secs 10 else pc_keepalive_timeout cfg.

Definition FORWARD_REOPEN_BACKOFF : Z := from_millis 500.
Definition PROFILE_EVENTS_CHANNEL_CAP : nat := 256.
Definition INSTABILITY_ACTION_MIN_INTERVAL : Z := from_secs 10.

Record DrainReport := mkDrainReport { dr_drained : Z; dr_force_closed : Z; dr_already_closed : Z }.
Definition DrainReport_default : DrainReport := mkDrainReport 0 0 0.

(** The messages of the control channel; the reply senders are the [Reply]
    values of the step. *)
Inductive Control :=
| CShutdown
| CFailover (override_to : option string)
| CCloseSession
| CDrain (grace : Z)
| COpenBenchForward.

Inductive Reply :=
| RFailover (r : Result KeyError unit)
| RClosed
| RDrained (r : DrainReport)
| RBench (r : Result Error unit).

(** A forward slot of [run_active].  [sl_unseen] says that a wait on the slot's
    watch receiver resolves at once, because the channel holds a value newer
    than the version the receiver has seen or its sender is gone.  The code
    waits on clones of that receiver, so a wait never marks anything seen. *)
Record ForwardSlot := mkSlot {
  sl_runner : bool;
  sl_state : ForwardState;
  sl_unseen : bool;
  sl_name : string;
  sl_cfg : option Forward
}.

(** [ForwardSlot::is_healthy]. *)
Definition slot_is_healthy (s : ForwardSlot) : bool :=
  sl_runner s && match sl_state s with FFailed | FStopped | FDisabled => false | _ => true end.

Inductive InstabilityOutcome := Handled | FailoverRotate | RestartSession.

Inductive ActiveDecision :=
| DShutdownExit
| DFailover (override_to : option string)
| DCloseSession
| DDrain (joined : list bool)
| DSessionLost
| DInstabilityAction (cool : bool).

Inductive LoopAction := Retry (delay : Z) | Exit.

(** [drain_runners]: each runner with whether it was already terminal and
    whether its stop finished within the grace period. *)
Definition drain_runners (runners : list (bool * bool)) : DrainReport :=
  foldl (fun r x =>
    match x with
    | (true, true) => mkDrainReport (dr_drained r) (dr_force_closed r) (dr_already_closed r + 1)
    | (false, true) => mkDrainReport (dr_drained r + 1) (dr_force_closed r) (dr_already_closed r)
    | (_, false) => mkDrainReport (dr_drained r) (dr_force_closed r + 1) (dr_already_closed r)
    end) DrainReport_default runners.

(** The kinds of load-time warnings [warn_unsupported_config] emits. *)
Inductive ConfigWarning := WInstabilityAction | WHealthCheck.

Definition warn_unsupported_config (cfg : ProfileSupervisorConfig) : list ConfigWarning :=
  match iw_action (pc_instability cfg) with
  | IncreaseKeepalive | IncreaseBackoff => [WInstabilityAction]
  | _ => []
  end ++
  match pc_health_check cfg with SshHandshake => [] | _ => [WHealthCheck] end.

Definition no_live_session_err : Error :=
  RuntimeFailureDiagnostic
    (mkDiagnostic "Cannot open a benchmark forward: no live session"
       (Some "the profile is between sessions (connecting, reconnecting, or idle); a live benchmark forward can only be opened while a session is Active"%string)
       (Some "Wait until `spt status` shows the profile Active, then re-run the benchmark. For a deterministic measurement, run against a synthetic loopback connector instead of `--live`."%string)
       None None None (Some RetryWithBackoff)).

Section Task.
Context {P : Type} `{PolicySelector P} {R : Type} `{Rng R} {A : Type}.
(** The earliest instant the clock can represent. *)
Context (earliest : Z).

(** The fields of [ProfileTask] that never change. *)
Record TaskConf := mkConf {
  tc_name : string;
  tc_auth : A;
  tc_auth_by_endpoint : gmap (string * Z) A;
  tc_forwards : list Forward;
  tc_cfg : ProfileSupervisorConfig
}.

Record ProfileTask := mkTask {
  tk_conf : TaskConf;
  tk_state_tx : ProfileStateName;
  tk_events : list ProfileEvent;
  tk_events_open : bool;
  tk_sm : ProfileStateMachine;
  tk_backoff : Backoff;
  tk_instability : InstabilityDetector;
  tk_selector : EndpointSelector P;
  tk_registry : SessionRegistry;
  tk_current_session : option string;
  tk_session_up_since : option Z;
  tk_rng : R;
  tk_current_endpoint : option Endpoint;
  tk_last_instability_action : option Z
}.

Definition set_state_tx (x : ProfileStateName) (t : ProfileTask) : ProfileTask :=
  mkTask (tk_conf t) x (tk_events t) (tk_events_open t) (tk_sm t) (tk_backoff t) (tk_instability t)
    (tk_selector t) (tk_registry t) (tk_current_session t) (tk_session_up_since t) (tk_rng t)
    (tk_current_endpoint t) (tk_last_instability_action t).
Definition set_events (x : list ProfileEvent) (t : ProfileTask) : ProfileTask :=
  mkTask (tk_conf t) (tk_state_tx t) x (tk_events_open t) (tk_sm t) (tk_backoff t) (tk_instability
    t) (tk_selector t) (tk_registry t) (tk_current_session t) (tk_session_up_since t) (tk_rng t)
    (tk_current_endpoint t) (tk_last_instability_action t).
Definition set_events_open (x : bool) (t : ProfileTask) : ProfileTask :=
  mkTask (tk_conf t) (tk_state_tx t) (tk_events t) x (tk_sm t) (tk_backoff t) (tk_instability t)
    (tk_selector t) (tk_registry t) (tk_current_session t) (tk_session_up_since t) (tk_rng t)
    (tk_current_endpoint t) (tk_last_instability_action t).
Definition set_sm (x : ProfileStateMachine) (t : ProfileTask) : ProfileTask :=
  mkTask (tk_conf t) (tk_state_tx t) (tk_events t) (tk_events_open t) x (tk_backoff t)
    (tk_instability t) (tk_selector t) (tk_registry t) (tk_current_session t) (tk_session_up_since
    t) (tk_rng t) (tk_current_endpoint t) (tk_last_instability_action t).
Definition set_backoff (x : Backoff) (t : ProfileTask) : ProfileTask :=
  mkTask (tk_conf t) (tk_state_tx t) (tk_events t) (tk_events_open t) (tk_sm t) x (tk_instability t)
    (tk_selector t) (tk_registry t) (tk_current_session t) (tk_session_up_since t) (tk_rng t)
    (tk_current_endpoint t) (tk_last_instability_action t).
Definition set_instability (x : InstabilityDetector) (t : ProfileTask) : ProfileTask :=
  mkTask (tk_conf t) (tk_state_tx t) (tk_events t) (tk_events_open t) (tk_sm t) (tk_backoff t) x
    (tk_selector t) (tk_registry t) (tk_current_session t) (tk_session_up_since t) (tk_rng t)
    (tk_current_endpoint t) (tk_last_instability_action t).
Definition set_selector (x : EndpointSelector P) (t : ProfileTask) : ProfileTask :=
  mkTask (tk_conf t) (tk_state_tx t) (tk_events t) (tk_events_open t) (tk_sm t) (tk_backoff t)
    (tk_instability t) x (tk_registry t) (tk_current_session t) (tk_session_up_since t) (tk_rng t)
    (tk_current_endpoint t) (tk_last_instability_action t).
Definition set_registry (x : SessionRegistry) (t : ProfileTask) : ProfileTask :=
  mkTask (tk_conf t) (tk_state_tx t) (tk_events t) (tk_events_open t) (tk_sm t) (tk_backoff t)
    (tk_instability t) (tk_selector t) x (tk_current_session t) (tk_session_up_since t) (tk_rng t)
    (tk_current_endpoint t) (tk_last_instability_action t).
Definition set_current_session (x : option string) (t : ProfileTask) : ProfileTask :=
  mkTask (tk_conf t) (tk_state_tx t) (tk_events t) (tk_events_open t) (tk_sm t) (tk_backoff t)
    (tk_instability t) (tk_selector t) (tk_registry t) x (tk_session_up_since t) (tk_rng t)
    (tk_current_endpoint t) (tk_last_instability_action t).
Definition set_session_up_since (x : option Z) (t : ProfileTask) : ProfileTask :=
  mkTask (tk_conf t) (tk_state_tx t) (tk_events t) (tk_events_open t) (tk_sm t) (tk_backoff t)
    (tk_instability t) (tk_selector t) (tk_registry t) (tk_current_session t) x (tk_rng t)
    (tk_current_endpoint t) (tk_last_instability_action t).
Definition set_rng (x : R) (t : ProfileTask) : ProfileTask :=
  mkTask (tk_conf t) (tk_state_tx t) (tk_events t) (tk_events_open t) (tk_sm t) (tk_backoff t)
    (tk_instability t) (tk_selector t) (tk_registry t) (tk_current_session t) (tk_session_up_since
    t) x (tk_current_endpoint t) (tk_last_instability_action t).
Definition set_current_endpoint (x : option Endpoint) (t : ProfileTask) : ProfileTask :=
  mkTask (tk_conf t) (tk_state_tx t) (tk_events t) (tk_events_open t) (tk_sm t) (tk_backoff t)
    (tk_instability t) (tk_selector t) (tk_registry t) (tk_current_session t) (tk_session_up_since
    t) (tk_rng t) x (tk_last_instability_action t).
Definition set_last_instability_action (x : option Z) (t : ProfileTask) : ProfileTask :=
  mkTask (tk_conf t) (tk_state_tx t) (tk_events t) (tk_events_open t) (tk_sm t) (tk_backoff t)
    (tk_instability t) (tk_selector t) (tk_registry t) (tk_current_session t) (tk_session_up_since
    t) (tk_rng t) (tk_current_endpoint t) x.


(** ** Operations of the task *)

(** [emit_event]: [try_send] on the bounded channel; a full or closed channel
    drops the event. *)
Definition emit_event (ev : ProfileEvent) (t : ProfileTask) : ProfileTask :=
  if tk_events_open t && (length (tk_events t) <? PROFILE_EVENTS_CHANNEL_CAP)%nat
  then set_events (tk_events t ++ [ev]) t
  else t.

Definition name (t : ProfileTask) : string := tc_name (tk_conf t).
Definition cfg (t : ProfileTask) : ProfileSupervisorConfig := tc_cfg (tk_conf t).
Definition state (t : ProfileTask) : ProfileStateName := sm_state (tk_sm t).

(** [fire]: a rejected stimulus is ignored; a change of state is published and
    announced. *)
Definition fire (ev : SmEvent) (t : ProfileTask) : ProfileTask :=
  let prev := state t in
  match sm_step (tk_sm t) ev with
  | (Ok new, sm) =>
      let t1 := set_sm sm t in
      if decide (new = prev) then t1
      else emit_event (StateChanged (name t) prev new) (set_state_tx new t1)
  | (Err _, sm) => set_sm sm t
  end.

Definition enter_resolving (t : ProfileTask) : ProfileTask :=
  match state t with
  | Reconnecting => fire ERetryNow t
  | FailingOver => fire EEndpointReady t
  | _ => t
  end.

Definition apply_manual_override (override_to : option string) (t : ProfileTask)
  : Result KeyError unit * ProfileTask :=
  match override_to with
  | Some key =>
      match parse_endpoint_key key with
      | Ok (host, port) =>
          (Ok tt, set_selector (set_manual (tk_selector t) (Some (mkManual host port))) t)
      | Err e => (Err e, t)
      end
  | None => (Ok tt, set_selector (set_manual (tk_selector t) None) t)
  end.

(** The [Debug] name of a state, as the session row stores it. *)
Definition state_debug (s : ProfileStateName) : string :=
  match s with
  | Disabled => "Disabled"
  | Idle => "Idle"
  | Resolving => "Resolving"
  | Connecting => "Connecting"
  | Authenticating => "Authenticating"
  | EstablishingForwards => "EstablishingForwards"
  | Active => "Active"
  | Degraded => "Degraded"
  | Reconnecting => "Reconnecting"
  | FailingOver => "FailingOver"
  | Unstable => "Unstable"
  | Stopping => "Stopping"
  | Stopped => "Stopped"
  end.

Definition publish_session (id : string) (endpoint : Endpoint) (backend : string) (now : Z) (t : ProfileTask)
  : ProfileTask :=
  let row := mkRow id (name t) backend (endpoint_id endpoint) now (state_debug (state t)) 0 0 0 in
  set_current_session (Some id) (set_registry (registry_insert (tk_registry t) row) t).

Definition unpublish_session (t : ProfileTask) : ProfileTask :=
  match tk_current_session t with
  | Some id => set_registry (registry_remove (tk_registry t) id).2 (set_current_session None t)
  | None => t
  end.

Definition cleanup_session (t : ProfileTask) : ProfileTask := unpublish_session t.

Definition pick_endpoint (now : Z) (t : ProfileTask) : Outcome (option Endpoint) * ProfileTask :=
  let '(r, rng, sel) := pick (tk_selector t) (tk_rng t) now now in
  let t' := set_rng rng (set_selector sel t) in
  match r with
  | Return (Ok ep) => (Return (Some ep), t')
  | Return (Err _) => (Return None, t')
  | Panic => (Panic, t')
  end.

Definition allow_instability_action (now : Z) (t : ProfileTask) : bool * ProfileTask :=
  let allow := match tk_last_instability_action t with
               | Some t0 => INSTABILITY_ACTION_MIN_INTERVAL <=? duration_since now t0
               | None => true
               end in
  (allow, if allow then set_last_instability_action (Some now) t else t).

Definition on_instability_trip (now : Z) (t : ProfileTask) : InstabilityOutcome * ProfileTask :=
  let t1 := emit_event (InstabilityHit (name t)) t in
  match iw_action (pc_instability (cfg t)) with
  | EmitEvent => (Handled, t1)
  | AFailover =>
      let t2 := fire EInstabilityHit (emit_event (FailoverRequested (name t) None) t1) in
      let '(allow, t3) := allow_instability_action now t2 in
      (if allow then FailoverRotate else Handled, t3)
  | ARestartSession =>
      let '(allow, t2) := allow_instability_action now (fire EInstabilityHit t1) in
      (if allow then RestartSession else Handled, t2)
  | MarkDegraded | IncreaseKeepalive | IncreaseBackoff => (Handled, fire EInstabilityHit t1)
  end.

Definition handle_session_failure (endpoint : Endpoint) (now : Z) (t : ProfileTask) : ProfileTask :=
  let t1 := set_selector (record_failure (tk_selector t) (ep_host endpoint) (ep_port endpoint) now now) t in
  let '(tripped, d) := record_disconnect earliest (tk_instability t1) now in
  let t2 := set_instability d t1 in
  if tripped then (on_instability_trip now t2).2 else t2.

(** [next_backoff]; [jrng] is the thread generator that draws the jitter.  The
    attempt number for the event is a checked [u32] addition, which panics on a
    saturated counter. *)
Definition next_backoff (now : Z) (jrng : R) (t : ProfileTask) : Outcome Z * ProfileTask :=
  let t1 := match tk_session_up_since t with
            | Some since =>
                let t' := set_session_up_since None t in
                if reset_after (pc_backoff (cfg t)) <=? duration_since now since
                then set_backoff (Backoff_reset (tk_backoff t')) t'
                else t'
            | None => t
            end in
  if bk_attempt (tk_backoff t1) =? umax 32 then (Panic, t1)
  else
    let attempt := bk_attempt (tk_backoff t1) + 1 in
    let '(delay, b, _) := next_delay (tk_backoff t1) jrng in
    (Return delay, emit_event (ReconnectScheduled (name t) delay attempt) (set_backoff b t1)).

(** [open_forwards]; [start i] is what starting the [i]-th forward yields: the
    runner's state and whether its watch has an unseen change. *)
Fixpoint open_forwards (i : nat) (start : nat -> Result Error (ForwardState * bool)) (fs : list Forward)
  : Result Error (list (string * ForwardState * bool)) :=
  match fs with
  | [] => Ok []
  | f :: fs' =>
      match start i with
      | Ok (st, unseen) =>
          runners ← open_forwards (S i) start fs';
          Ok ((fw_name f, st, unseen) :: runners)
      | Err e =>
          if default false (fw_required f) then Err e else open_forwards (S i) start fs'
      end
  end.

Definition make_slot (fs : list Forward) (r : string * ForwardState * bool) : ForwardSlot :=
  let '(n, st, unseen) := r in
  mkSlot true st unseen n (List.find (fun f => String.eqb (fw_name f) n) fs).

(** [reopen_failed_forwards]. *)
Definition reopen_slot (r : Result Error (ForwardState * bool)) (s : ForwardSlot) : ForwardSlot :=
  if slot_is_healthy s then s
  else match sl_cfg s with
       | None => s
       | Some _ =>
           match r with
           | Ok (st, unseen) => mkSlot true st unseen (sl_name s) (sl_cfg s)
           | Err _ => mkSlot false (sl_state s) (sl_unseen s) (sl_name s) (sl_cfg s)
           end
       end.

Definition reopen_failed_forwards (start : nat -> Result Error (ForwardState * bool)) (slots : list ForwardSlot)
  : list ForwardSlot :=
  imap (fun i s => reopen_slot (start i) s) slots.

(** ** Phases and stimuli *)

(** The locals of [run_active]. *)
Record ActiveState := mkActive {
  as_forwards : list ForwardSlot;
  as_degraded : bool;
  as_reopen_at : option Z
}.

Inductive Phase :=
| PTop
| PConnect (endpoint : Endpoint) (auth : A)
| POpen (endpoint : Endpoint)
| PActive (a : ActiveState)
| PSleep (until : Z)
| PDone
| PPanicked.

(** The instant, the generator for jitter, and for a drain which runners
    stopped in time. *)
Record Env := mkEnv { ev_now : Z; ev_after : Z; ev_jrng : R; ev_joined : list bool }.

(** What can wake the task.  [SControl m] is a received message ([None]: the
    channel is closed); [STryEmpty] is a [try_recv] that finds nothing;
    [SConnected] carries the outcome of [connect] and the fresh session id;
    [SBench] is a bench request on a live session with the backend's outcome;
    [SProbe] a keepalive tick with the probe's outcome; [SRunner] a forward's
    own change of state, [SForward] the task noticing it.  The last four are
    the outside world: the consumer of the event channel, the policy attached
    after spawning, and the other users of the session registry. *)
Inductive Stimulus :=
| SControl (m : option Control)
| STryEmpty
| SConnected (r : Result Error string) (id : string)
| SOpened (start : nat -> Result Error (ForwardState * bool))
| SBench (r : Result Error unit)
| SProbe (started : Z) (r : option (Result Error unit))
| SRunner (idx : nat) (st : ForwardState)
| SForward (idx : nat)
| SReopen (start : nat -> Result Error (ForwardState * bool))
| STimer
| STakeEvent
| SDropEvents
| SSetPolicy (ps : option P)
| SShared (r : SessionRegistry).

Definition Stepped : Type := ProfileTask * Phase * list Reply.

(** The epilogue of [run]. *)
Definition finish (t : ProfileTask) (rs : list Reply) : Stepped :=
  (fire EStopped (fire EStop (cleanup_session t)), PDone, rs).

(** [next_backoff] followed by the wait of [sleep_or_control]. *)
Definition back_off (e : Env) (t : ProfileTask) (rs : list Reply) : Stepped :=
  match next_backoff (ev_after e) (ev_jrng e) t with
  | (Return delay, t') => (t', PSleep (ev_after e + delay), rs)
  | (Panic, t') => (t', PPanicked, rs)
  end.

(** ** The phases of [run] *)

Definition emit_failover_requested (override_to : option string) (t : ProfileTask) : ProfileTask :=
  emit_event (FailoverRequested (name t) override_to) t.

(** [handle_control_idle]: [true] is [ControlFlow::Break]. *)
Definition handle_control_idle (m : Control) (t : ProfileTask) : bool * ProfileTask * list Reply :=
  match m with
  | CShutdown => (true, t, [])
  | CFailover o =>
      let '(res, t1) := apply_manual_override o t in
      (false, emit_failover_requested o t1, [RFailover res])
  | CCloseSession => (false, t, [RClosed])
  | CDrain _ => (true, t, [RDrained DrainReport_default])
  | COpenBenchForward => (false, t, [RBench (Err no_live_session_err)])
  end.

(** The loop body up to the [connect] await. *)
Definition loop_top (e : Env) (t : ProfileTask) : option Stepped :=
  if exhausted (tk_backoff t) then Some (finish (emit_event (BackoffExhausted (name t)) t) [])
  else
    match pick_endpoint (ev_now e) (enter_resolving t) with
    | (Panic, _) => None
    | (Return None, t1) => Some (back_off e (fire EFailoverPick t1) [])
    | (Return (Some ep), t1) =>
        let auth := default (tc_auth (tk_conf t)) (tc_auth_by_endpoint (tk_conf t) !! (ep_host ep, ep_port ep)) in
        Some (fire EResolveOk t1, PConnect ep auth, [])
    end.

(** The control arm of the [select!] around [connect]. *)
Definition connect_control (m : option Control) (t : ProfileTask) : Stepped :=
  match m with
  | Some CShutdown | None => finish t []
  | Some (CFailover o) => let '(res, t1) := apply_manual_override o t in (t1, PTop, [RFailover res])
  | Some CCloseSession => (t, PTop, [RClosed])
  | Some COpenBenchForward => (t, PTop, [RBench (Err no_live_session_err)])
  | Some (CDrain _) => finish t [RDrained DrainReport_default]
  end.

(** The outcome of [connect]; [Ok backend] is a live session. *)
Definition connected (e : Env) (ep : Endpoint) (r : Result Error string) (id : string) (t : ProfileTask)
  : Stepped :=
  match r with
  | Ok backend =>
      let t1 := set_selector (record_success (tk_selector t) (ep_host ep) (ep_port ep)) t in
      let t2 := set_current_endpoint (Some ep) (fire EAuthOk (fire EConnectOk t1)) in
      (publish_session id ep backend (ev_now e) t2, POpen ep, [])
  | Err err =>
      if is_terminal_connect_error err
      then finish (handle_session_failure ep (ev_now e) (fire EConnectFail t)) []
      else if is_auth_failure err && negb (retry_auth_failures (pc_backoff (cfg t)))
      then finish (handle_session_failure ep (ev_now e) (fire EAuthFail t)) []
      else back_off e (handle_session_failure ep (ev_now e) (fire EConnectFail t)) []
  end.

(** The outcome of [open_forwards]. *)
Definition opened (e : Env) (ep : Endpoint) (start : nat -> Result Error (ForwardState * bool)) (t : ProfileTask)
  : Stepped :=
  match open_forwards 0 start (tc_forwards (tk_conf t)) with
  | Err err =>
      back_off e (handle_session_failure ep (ev_after e) (unpublish_session (fire ESessionLost t))) []
  | Ok runners =>
      let t1 := set_session_up_since (Some (ev_now e)) (fire EForwardsUp t) in
      (t1, PActive (mkActive (make_slot (tc_forwards (tk_conf t)) <$> runners) false None), [])
  end.

(** ** The active session *)

(** What [run_active] does with its decision. *)
Definition act_on (e : Env) (a : ActiveState) (d : ActiveDecision) (t : ProfileTask)
  : Outcome LoopAction * ProfileTask * list Reply :=
  match d with
  | DShutdownExit => (Return Exit, t, [])
  | DFailover o =>
      let '(res, t1) := apply_manual_override o t in
      (Return (Retry 0), fire ESessionLost (emit_failover_requested o t1), [RFailover res])
  | DCloseSession => (Return (Retry 0), fire ESessionLost t, [RClosed])
  | DDrain joined =>
      let runners := List.filter sl_runner (as_forwards a) in
      let report := drain_runners (imap (fun i s =>
        (forward_is_terminal (sl_state s), default false (joined !! i))) runners) in
      (Return Exit, t, [RDrained report])
  | DSessionLost =>
      let t1 := fire ESessionLost t in
      let t2 := match tk_current_endpoint t1 with
                | Some ep => handle_session_failure ep (ev_after e) t1
                | None => t1
                end in
      let '(delay, t3) := next_backoff (ev_after e) (ev_jrng e) t2 in
      (outcome_map Retry delay, t3, [])
  | DInstabilityAction cool =>
      let t1 := fire ESessionLost t in
      let t2 := if cool then
                  match tk_current_endpoint t1 with
                  | Some ep =>
                      set_selector (record_failure (tk_selector t1) (ep_host ep) (ep_port ep)
                                      (ev_after e) (ev_after e)) t1
                  | None => t1
                  end
                else t1 in
      (Return (Retry 0), t2, [])
  end.

(** [run_active] has broken out of its loop; back in [run]. *)
Definition leave_active (e : Env) (a : ActiveState) (d : ActiveDecision) (t : ProfileTask) : Stepped :=
  let '(action, t1, rs) := act_on e a d t in
  match action with
  | Return Exit => finish (unpublish_session t1) rs
  | Return (Retry delay) => (unpublish_session t1, PSleep (ev_after e + delay), rs)
  | Panic => (t1, PPanicked, rs)
  end.

Definition active_control (e : Env) (a : ActiveState) (m : option Control) (t : ProfileTask) : option Stepped :=
  match m with
  | None | Some CShutdown => Some (leave_active e a DShutdownExit t)
  | Some (CFailover o) => Some (leave_active e a (DFailover o) t)
  | Some CCloseSession => Some (leave_active e a DCloseSession t)
  | Some (CDrain _) => Some (leave_active e a (DDrain (ev_joined e)) t)
  | Some COpenBenchForward => None
  end.

(** The keepalive arm; [None] is a probe that ran into [keepalive_timeout]. *)
Definition probed (e : Env) (a : ActiveState) (started : Z) (r : option (Result Error unit)) (t : ProfileTask)
  : Stepped :=
  match r with
  | Some (Ok _) =>
      let '(tripped, d) := record_probe (tk_instability t) (Some (duration_since (ev_now e) started)) in
      let t1 := set_instability d t in
      let '(outcome, t2) := if tripped then on_instability_trip (ev_now e) t1 else (Handled, t1) in
      match outcome with
      | FailoverRotate => leave_active e a (DInstabilityAction true) t2
      | RestartSession => leave_active e a (DInstabilityAction false) t2
      | Handled =>
          let '(cleared, d') := tick_healthy (tk_instability t2) (ev_now e) in
          let t3 := set_instability d' t2 in
          (if cleared
           then fire EInstabilityClear (emit_event (InstabilityCleared (name t)) t3)
           else t3, PActive a, [])
      end
  | Some (Err _) | None =>
      let '(tripped, d) := record_probe (tk_instability t) None in
      let t1 := set_instability d t in
      let t2 := if tripped then (on_instability_trip (ev_now e) t1).2 else t1 in
      leave_active e a DSessionLost t2
  end.

(** A probe times out no sooner than [keepalive_timeout] after its start. *)
Definition probe_possible (e : Env) (started : Z) (r : option (Result Error unit))
    (c : ProfileSupervisorConfig) : bool :=
  match r with
  | None => keepalive_timeout c <=? duration_since (ev_now e) started
  | Some _ => true
  end.

(** The arm for a changed forward. *)
Definition forward_changed (e : Env) (a : ActiveState) (s : ForwardSlot) (t : ProfileTask) : Stepped :=
  if match sl_state s with FFailed | FStopped => true | _ => false end
     && match sl_cfg s with Some _ => true | None => false end
  then
    let t1 := if as_degraded a then t
              else emit_event (StateChanged (name t) Active Degraded) (fire EForwardDown t) in
    let at_ := match as_reopen_at a with
               | None => Some (ev_now e + FORWARD_REOPEN_BACKOFF)
               | Some d => Some d
               end in
    (t1, PActive (mkActive (as_forwards a) true at_), [])
  else (t, PActive a, []).

(** The reopen arm. *)
Definition reopened (e : Env) (a : ActiveState) (start : nat -> Result Error (ForwardState * bool))
    (t : ProfileTask) : Stepped :=
  let slots := reopen_failed_forwards start (as_forwards a) in
  let all_up := forallb slot_is_healthy slots in
  if all_up && as_degraded a
  then (fire EForwardsUp t, PActive (mkActive slots false None), [])
  else if negb all_up
  then (t, PActive (mkActive slots (as_degraded a) (Some (ev_after e + FORWARD_REOPEN_BACKOFF))), [])
  else (t, PActive (mkActive slots (as_degraded a) None), []).

(** A runner publishes a new state on its watch channel. *)
Definition runner_changed (a : ActiveState) (idx : nat) (st : ForwardState) : option ActiveState :=
  s ← as_forwards a !! idx;
  if sl_runner s
  then Some (mkActive (<[idx := mkSlot true st true (sl_name s) (sl_cfg s)]> (as_forwards a))
               (as_degraded a) (as_reopen_at a))
  else None.

(** [sleep_or_control]. *)
Definition sleep_control (m : option Control) (t : ProfileTask) : Stepped :=
  match m with
  | None | Some CShutdown => finish t []
  | Some (CFailover o) =>
      let '(res, t1) := apply_manual_override o t in
      (emit_failover_requested o t1, PTop, [RFailover res])
  | Some CCloseSession => (t, PTop, [RClosed])
  | Some COpenBenchForward => (t, PTop, [RBench (Err no_live_session_err)])
  | Some (CDrain _) => finish t [RDrained DrainReport_default]
  end.

(** ** The task *)

Definition step (e : Env) (s : Stimulus) (t : ProfileTask) (ph : Phase) : option Stepped :=
  match ph, s with
  | _, STakeEvent => Some (set_events (tail (tk_events t)) t, ph, [])
  | _, SDropEvents => Some (set_events_open false (set_events [] t), ph, [])
  | _, SSetPolicy ps => Some (set_selector (set_policy_selector (tk_selector t) ps) t, ph, [])
  | _, SShared r => Some (set_registry r t, ph, [])
  | PTop, SControl (Some m) =>
      let '(break, t1, rs) := handle_control_idle m t in
      Some (if break then finish t1 rs else (t1, PTop, rs))
  | PTop, STryEmpty => loop_top e t
  | PConnect ep _, SControl m => Some (connect_control m t)
  | PConnect ep _, SConnected r id => Some (connected e ep r id t)
  | POpen ep, SOpened start => Some (opened e ep start t)
  | PActive a, SControl m => active_control e a m t
  | PActive a, SBench r => Some (t, PActive a, [RBench r])
  | PActive a, SProbe started r =>
      if probe_possible e started r (cfg t) then Some (probed e a started r t) else None
  | PActive a, SRunner idx st => a' ← runner_changed a idx st; Some (t, PActive a', [])
  | PActive a, SForward idx =>
      sl ← as_forwards a !! idx; if sl_unseen sl then Some (forward_changed e a sl t) else None
  | PActive a, SReopen start =>
      d ← as_reopen_at a; if d <=? ev_now e then Some (reopened e a start t) else None
  | PSleep until, STimer => if until <=? ev_now e then Some (t, PTop, []) else None
  | PSleep _, SControl m => Some (sleep_control m t)
  | _, _ => None
  end.

(** [spawn_with_auth] and the prologue of [run]. *)
Definition task_init (conf : TaskConf) (endpoints : list Endpoint) (registry : SessionRegistry) (rng : R)
  : ProfileTask :=
  let c := tc_cfg conf in
  let sel := with_cooldown (with_fail_after (EndpointSelector_new (pc_failover_mode c) endpoints)
                              (pc_failover_fail_after c)) (as_secs (pc_failover_cooldown c)) in
  fire EStart
    (mkTask conf Idle [] true sm_new (Backoff_new (pc_backoff c)) (InstabilityDetector_new (pc_instability c))
       sel registry None None rng None None).

End Task.

Arguments TaskConf : clear implicits.
Arguments ProfileTask : clear implicits.
Arguments Phase : clear implicits.
Arguments Env : clear implicits.
Arguments Stimulus : clear implicits.

(** ** Lemmas: what the operations keep *)

Section TaskLemmas.
Context {P : Type} `{PolicySelector P} {R : Type} `{Rng R} {A : Type}.
Context (earliest : Z).
Abbreviation Task := (ProfileTask P R A).
Implicit Types t : Task.

(** The published state is the machine's, the event queue is within its
    capacity, and the attempt counter is a [u32]. *)
Definition sane t : Prop :=
  tk_state_tx t = state t /\ (length (tk_events t) <= PROFILE_EVENTS_CHANNEL_CAP)%nat /\
  in_u 32 (bk_attempt (tk_backoff t)).

(** The session bookkeeping and the configuration are the same, and sanity is
    not lost. *)
Definition keeps t t' : Prop :=
  tk_conf t' = tk_conf t /\ tk_registry t' = tk_registry t /\
  tk_current_session t' = tk_current_session t /\ (sane t -> sane t').

#[global] Instance keeps_preorder : PreOrder keeps.
Proof.
  split; [done|]. intros t1 t2 t3 (A1 & B1 & C1 & D1) (A2 & B2 & C2 & D2).
  split_and!; [congruence..|auto].
Qed.

Lemma state_fire ev t : state (fire ev t) = default (state t) (next_state (state t) ev).
Proof.
  unfold fire, sm_step, state. destruct (next_state _ ev) as [s|] eqn:E; [|done].
  case_decide; [done|]. unfold emit_event. by destruct (_ && _).
Qed.

Lemma state_emit ev t : state (emit_event ev t) = state t.
Proof. unfold emit_event, state. by destruct (_ && _). Qed.

Lemma keeps_emit ev t : keeps t (emit_event ev t).
Proof.
  unfold emit_event. destruct (tk_events_open t && _) eqn:E; [|done].
  apply andb_true_iff in E as [_ E]. apply Nat.ltb_lt in E.
  split_and!; try done. intros (H1 & H2 & H3). split_and!; try done.
  cbn. rewrite length_app. cbn. lia.
Qed.

Lemma keeps_fire ev t : keeps t (fire ev t).
Proof.
  unfold fire. destruct (sm_step (tk_sm t) ev) as [r sm] eqn:E.
  unfold sm_step in E. destruct (next_state _ ev) as [s|] eqn:En; injection E as <- <-.
  - case_decide as Hd.
    + split_and!; try done. intros (H1 & H2 & H3). split_and!; try done. unfold state in *. cbn. congruence.
    + etrans; [|apply keeps_emit]. split_and!; try done. by intros (H1 & H2 & H3).
  - split_and!; try done.
Qed.

Lemma keeps_override o t : keeps t (apply_manual_override o t).2.
Proof.
  unfold apply_manual_override. destruct o as [key|]; [|done].
  by destruct (parse_endpoint_key key) as [[h p]|e].
Qed.

Lemma state_override o t : state (apply_manual_override o t).2 = state t.
Proof.
  unfold apply_manual_override. destruct o as [key|]; [|done].
  by destruct (parse_endpoint_key key) as [[h p]|e].
Qed.

Lemma keeps_allow now t : keeps t (allow_instability_action now t).2.
Proof. unfold allow_instability_action. cbn. by split_goal; split_and!. Qed.

Lemma state_allow now t : state (allow_instability_action now t).2 = state t.
Proof. unfold allow_instability_action. cbn. by split_goal. Qed.

Lemma keeps_trip now t : keeps t (on_instability_trip now t).2.
Proof.
  unfold on_instability_trip. destruct (iw_action _).
  all: try (cbn; etrans; [apply keeps_emit|]; try apply keeps_fire; done).
  - pose proof (keeps_allow now (fire EInstabilityHit (emit_event (FailoverRequested (name t) None)
      (emit_event (InstabilityHit (name t)) t)))) as Ha.
    destruct (allow_instability_action now _) as [b t3]. cbn in *.
    etrans; [apply keeps_emit|]. etrans; [apply keeps_emit|]. etrans; [apply keeps_fire|exact Ha].
  - pose proof (keeps_allow now (fire EInstabilityHit (emit_event (InstabilityHit (name t)) t))) as Ha.
    destruct (allow_instability_action now _) as [b t3]. cbn in *.
    etrans; [apply keeps_emit|]. etrans; [apply keeps_fire|exact Ha].
Qed.

(** A trip leaves the state or applies [InstabilityHit] to it. *)
Lemma state_trip now t :
  state (on_instability_trip now t).2 = state t \/
  state (on_instability_trip now t).2 = default (state t) (next_state (state t) EInstabilityHit).
Proof.
  unfold on_instability_trip. destruct (iw_action _).
  all: try (cbn; rewrite ?state_fire, ?state_emit; by auto).
  - pose proof (state_allow now (fire EInstabilityHit (emit_event (FailoverRequested (name t) None)
      (emit_event (InstabilityHit (name t)) t)))) as Ha.
    destruct (allow_instability_action now _) as [b t3]. cbn in *.
    right. by rewrite Ha, state_fire, !state_emit.
  - pose proof (state_allow now (fire EInstabilityHit (emit_event (InstabilityHit (name t)) t))) as Ha.
    destruct (allow_instability_action now _) as [b t3]. cbn in *.
    right. by rewrite Ha, state_fire, !state_emit.
Qed.

Lemma keeps_failure ep now t : keeps t (handle_session_failure earliest ep now t).
Proof.
  unfold handle_session_failure. destruct (record_disconnect _ _ now) as [b d].
  destruct b; [|by split_and!]. etrans; [|apply keeps_trip]. by split_and!.
Qed.

(** Failure accounting leaves a state that ignores [InstabilityHit]. *)
Lemma state_failure ep now t :
  next_state (state t) EInstabilityHit = None -> state (handle_session_failure earliest ep now t) = state t.
Proof.
  intros Hn. unfold handle_session_failure. destruct (record_disconnect _ _ now) as [b d].
  destruct b; [|done]. set (t2 := set_instability d _).
  assert (state t2 = state t) as E by done.
  destruct (state_trip now t2) as [Ht|Ht]; rewrite Ht; [done|]. by rewrite E, Hn.
Qed.

Lemma keeps_backoff now jrng t : keeps t (next_backoff now jrng t).2.
Proof.
  unfold next_backoff. set (t1 := match tk_session_up_since t with Some _ => _ | None => _ end).
  assert (keeps t t1) as Hk.
  { subst t1. destruct (tk_session_up_since t); [|done]. split_goal; split_and!; try done.
    intros (H1 & H2 & _). by split_and!. }
  destruct (_ =? _); [done|]. pose proof (next_delay_state (tk_backoff t1) jrng) as Hs.
  destruct (next_delay (tk_backoff t1) jrng) as [[delay b] r]. cbn in Hs |- *. subst b.
  etrans; [exact Hk|]. etrans; [|apply keeps_emit]. split_and!; try done.
  intros (H1 & H2 & H3). split_and!; try done; by apply sat_add_in_u.
Qed.

Lemma state_backoff now jrng t : state (next_backoff now jrng t).2 = state t.
Proof.
  unfold next_backoff. set (t1 := match tk_session_up_since t with Some _ => _ | None => _ end).
  assert (state t1 = state t) as Hk by (subst t1; destruct (tk_session_up_since t); [by split_goal|done]).
  destruct (_ =? _); [done|].
  destruct (next_delay (tk_backoff t1) jrng) as [[delay b] r]. cbn. by rewrite state_emit.
Qed.

(** A panic means a saturated attempt counter. *)
Lemma next_backoff_panic now jrng t :
  (next_backoff now jrng t).1 = Panic -> bk_attempt (tk_backoff (next_backoff now jrng t).2) = umax 32.
Proof.
  unfold next_backoff. set (t1 := match tk_session_up_since t with Some _ => _ | None => _ end).
  destruct (Z.eqb_spec (bk_attempt (tk_backoff t1)) (umax 32)) as [E|E]; [done|].
  by destruct (next_delay (tk_backoff t1) jrng) as [[delay b] r].
Qed.

(** ** Lemmas: the invariant *)

(** The states the machine can be in at each await. *)
Definition phase_state (ph : Phase A) (s : ProfileStateName) : bool :=
  match ph, s with
  | (PTop | PSleep _ | PPanicked), (Resolving | Connecting | Reconnecting) => true
  | PConnect _ _, Connecting => true
  | POpen _, EstablishingForwards => true
  | PActive _, (Active | Degraded | Unstable) => true
  | PDone, Stopped => true
  | _, _ => false
  end.

(** No session of the profile is registered. *)
Definition down t : Prop :=
  tk_current_session t = None /\
  forall id row, tk_registry t !! id = Some row -> sr_profile row <> name t.

(** Exactly one session of the profile is registered, the current one. *)
Definition up t : Prop :=
  exists id row, tk_current_session t = Some id /\ tk_registry t !! id = Some row /\
    sr_profile row = name t /\
    forall id' row', tk_registry t !! id' = Some row' -> sr_profile row' = name t -> id' = id.

Definition session_ok t (ph : Phase A) : Prop :=
  match ph with
  | POpen _ | PActive _ => up t
  | PPanicked => (up t \/ down t) /\ bk_attempt (tk_backoff t) = umax 32
  | _ => down t
  end.

Definition inv t (ph : Phase A) : Prop :=
  sane t /\ phase_state ph (state t) = true /\ session_ok t ph.

Lemma keeps_sane t t' : keeps t t' -> sane t -> sane t'.
Proof. intros (_ & _ & _ & Hs). done. Qed.

Lemma keeps_down t t' : keeps t t' -> down t -> down t'.
Proof. intros (Hc & Hr & Hs & _) [H1 H2]. unfold down, name. by rewrite Hc, Hr, Hs. Qed.

Lemma keeps_up t t' : keeps t t' -> up t -> up t'.
Proof. intros (Hc & Hr & Hs & _) Hu. unfold up, name in *. by rewrite Hc, Hr, Hs. Qed.

Lemma unpublish_up t : up t -> down (unpublish_session t).
Proof.
  intros (id & row & Hc & Hr & Hn & Hu). unfold unpublish_session. rewrite Hc.
  split; [done|]. intros id' row' Hl Hp. cbn in Hl.
  apply lookup_delete_Some in Hl as [Hne Hl]. by apply Hne; symmetry; eapply Hu.
Qed.

Lemma unpublish_down t : down t -> unpublish_session t = t.
Proof. intros [Hc _]. unfold unpublish_session. by rewrite Hc. Qed.

Lemma unpublish_frame t :
  (sane t -> sane (unpublish_session t)) /\ state (unpublish_session t) = state t /\
  tk_conf (unpublish_session t) = tk_conf t.
Proof. unfold unpublish_session. by destruct (tk_current_session t). Qed.

Lemma cleanup_any t : up t \/ down t -> down (cleanup_session t).
Proof.
  intros [Hu|Hd]; [by apply unpublish_up|]. unfold cleanup_session. by rewrite unpublish_down.
Qed.

Lemma publish_up id ep backend now t :
  down t -> tk_registry t !! id = None -> up (publish_session id ep backend now t).
Proof.
  intros [Hc Hd] Hf. unfold publish_session. set (row := mkRow _ _ _ _ _ _ _ _ _).
  set (t' := set_current_session _ _).
  assert (tk_registry t' = <[id := row]> (tk_registry t)) as Hr by done.
  exists id, row. rewrite Hr, lookup_insert_eq. split_and!; try done.
  intros id' row' [[<- _]|[Hne Hl]]%lookup_insert_Some Hp; [done|]. by destruct (Hd _ _ Hl).
Qed.

(** A result that satisfies the invariant. *)
Definition good (x : Stepped (P := P) (R := R) (A := A)) : Prop := inv x.1.1 x.1.2.

Lemma finish_good t rs :
  sane t -> up t \/ down t -> next_state (state t) EStop = Some Stopping -> good (finish t rs).
Proof.
  intros Hs Hd Hn. unfold good, finish. cbn. destruct (unpublish_frame t) as (Hf1 & Hf2 & _).
  assert (keeps (cleanup_session t) (fire EStopped (fire EStop (cleanup_session t)))) as Hk
    by (etrans; apply keeps_fire).
  split_and!.
  - eapply keeps_sane; [exact Hk|]. by apply Hf1.
  - rewrite !state_fire. unfold cleanup_session. rewrite Hf2, Hn. done.
  - eapply keeps_down; [exact Hk|]. by apply cleanup_any.
Qed.

Lemma back_off_good e t rs :
  sane t -> down t -> phase_state (PSleep 0) (state t) = true -> good (back_off e t rs).
Proof.
  intros Hs Hd Hp. unfold good, back_off.
  pose proof (keeps_backoff (ev_after e) (ev_jrng e) t) as Hk.
  pose proof (state_backoff (ev_after e) (ev_jrng e) t) as Hst.
  pose proof (next_backoff_panic (ev_after e) (ev_jrng e) t) as Hpn.
  assert (sane (next_backoff (ev_after e) (ev_jrng e) t).2 /\ down (next_backoff (ev_after e) (ev_jrng e) t).2)
    as [Hs' Hd'] by (split; [by eapply keeps_sane|by eapply keeps_down]).
  destruct (next_backoff _ _ t) as [[delay|] t']; cbn in *; unfold inv; cbn; rewrite Hst; [done|].
  split_and!; [done|done|by right|by apply Hpn].
Qed.

(** [pick] never panics (the lemma behind the selector's error theorem). *)
Lemma pick_no_panic (sel : EndpointSelector P) (rng : R) now pnow : (pick sel rng now pnow).1.1 <> Panic.
Proof.
  destruct (decide (es_entries sel = [])) as [He|Hne]; [unfold pick; by rewrite He|].
  rewrite pick_cases by done.
  assert ((pick_auto sel rng now pnow).1.1 <> Panic) as Ha
    by (destruct (pick_auto_spec sel rng now pnow Hne) as [(_ & _ & Hr)|(_ & e & _ & Hr)]; by rewrite Hr).
  destruct (es_manual sel), (pinned_entry sel) as [x|]; try destruct (eligible now x); done.
Qed.

Lemma pick_endpoint_spec now t :
  exists o t', pick_endpoint now t = (Return o, t') /\ keeps t t' /\ state t' = state t.
Proof.
  unfold pick_endpoint. pose proof (pick_no_panic (tk_selector t) (tk_rng t) now now) as Hp.
  destruct (pick _ _ now now) as [[r rng] sel]. cbn in Hp.
  destruct r as [[ep|e]|]; [| |done]; eexists _, _; by split_and!.
Qed.

Lemma state_enter t :
  phase_state PTop (state t) = true ->
  state (enter_resolving t) = match state t with Connecting => Connecting | _ => Resolving end.
Proof. unfold enter_resolving. destruct (state t) eqn:E; try done; by rewrite ?state_fire, ?E. Qed.

Lemma keeps_enter t : keeps t (enter_resolving t).
Proof. unfold enter_resolving. destruct (state t); try done; apply keeps_fire. Qed.

Lemma loop_top_good e t :
  inv t PTop -> exists x, loop_top e t = Some x /\ good x.
Proof.
  intros (Hs & Hp & Hd). unfold loop_top. destruct (exhausted _).
  { eexists. split; [done|]. apply finish_good.
    - eapply keeps_sane; [apply keeps_emit|done].
    - right. eapply keeps_down; [apply keeps_emit|done].
    - rewrite state_emit. by destruct (state t). }
  destruct (pick_endpoint_spec (ev_now e) (enter_resolving t)) as (o & t' & -> & Hk & Hst).
  assert (keeps t t') as Hk' by (etrans; [apply keeps_enter|done]).
  rewrite state_enter in Hst by done.
  destruct o as [ep|]; eexists; (split; [done|]).
  - split_and!; cbn [fst snd].
    + eapply keeps_sane; [|exact Hs]. etrans; [exact Hk'|apply keeps_fire].
    + rewrite state_fire, Hst. by destruct (state t).
    + eapply keeps_down; [|exact Hd]. etrans; [exact Hk'|apply keeps_fire].
  - assert (keeps t (fire EFailoverPick t')) as Hk2 by (etrans; [exact Hk'|apply keeps_fire]).
    apply back_off_good; [by eapply keeps_sane|by eapply keeps_down|].
    rewrite state_fire, Hst. by destruct (state t).
Qed.

Lemma connect_control_good m t ep au : inv t (PConnect ep au) -> good (connect_control m t).
Proof.
  intros (Hs & Hp & Hd). assert (state t = Connecting) as Hst by (cbn in Hp; by destruct (state t)).
  assert (forall rs, good (finish t rs)) as Hfin.
  { intros rs. apply finish_good; [done|by right|by rewrite Hst]. }
  assert (forall rs, good (t, PTop, rs)) as Htop by (intros rs; unfold good, inv; cbn; by rewrite Hst).
  destruct m as [[|o| |g|]|]; cbn; try done.
  pose proof (keeps_override o t) as Hk. pose proof (state_override o t) as Hso.
  destruct (apply_manual_override o t) as [res t1]. cbn in *. split_and!; cbn [fst snd].
  - by eapply keeps_sane.
  - by rewrite Hso, Hst.
  - by eapply keeps_down.
Qed.

Lemma connected_good e ep au r id t :
  inv t (PConnect ep au) -> tk_registry t !! id = None -> good (connected earliest e ep r id t).
Proof.
  intros (Hs & Hp & Hd) Hf. assert (state t = Connecting) as Hst by (cbn in Hp; by destruct (state t)).
  unfold connected. destruct r as [backend|err].
  - set (t2 := set_current_endpoint _ _).
    assert (keeps t t2) as Hk.
    { subst t2. etrans; [|split_and!; [reflexivity..|done]].
      etrans; [|apply keeps_fire]. etrans; [|apply keeps_fire]. by split_and!. }
    assert (state t2 = EstablishingForwards) as Hst2.
    { subst t2. change (state (set_current_endpoint (Some ep) ?x)) with (state x).
      rewrite !state_fire. change (state (set_selector ?y t)) with (state t). by rewrite Hst. }
    assert (down t2) as Hd2 by (by eapply keeps_down).
    assert (tk_registry t2 !! id = None) as Hf2 by (destruct Hk as (_ & -> & _); done).
    split_and!; cbn [fst snd].
    + pose proof (keeps_sane _ _ Hk Hs) as (? & ? & ?). by split_and!.
    + unfold publish_session. change (state (set_current_session _ ?x)) with (state x).
      change (state (set_registry _ ?x)) with (state x). by rewrite Hst2.
    + by apply publish_up.
  - assert (forall ev, keeps t (handle_session_failure earliest ep (ev_now e) (fire ev t))) as Hk.
    { intros ev. etrans; [apply keeps_fire|apply keeps_failure]. }
    assert (state (handle_session_failure earliest ep (ev_now e) (fire EConnectFail t)) = Reconnecting)
      as Hc by (rewrite state_failure; rewrite state_fire, Hst; done).
    assert (state (handle_session_failure earliest ep (ev_now e) (fire EAuthFail t)) = Connecting)
      as Ha by (rewrite state_failure; rewrite state_fire, Hst; done).
    destruct (is_terminal_connect_error err); [|destruct (is_auth_failure err && _)].
    + apply finish_good; [by eapply keeps_sane, Hs; apply Hk|right; by eapply keeps_down, Hd; apply Hk|by rewrite Hc].
    + apply finish_good; [by eapply keeps_sane, Hs; apply Hk|right; by eapply keeps_down, Hd; apply Hk|by rewrite Ha].
    + apply back_off_good; [by eapply keeps_sane, Hs; apply Hk|by eapply keeps_down, Hd; apply Hk|by rewrite Hc].
Qed.

Lemma opened_good e ep start t : inv t (POpen ep) -> good (opened earliest e ep start t).
Proof.
  intros (Hs & Hp & Hu). assert (state t = EstablishingForwards) as Hst by (cbn in Hp; by destruct (state t)).
  unfold opened. destruct (open_forwards 0 start _) as [runners|err].
  - set (t1 := set_session_up_since _ _).
    assert (keeps t t1) as Hk by (etrans; [apply (keeps_fire EForwardsUp)|by split_and!]).
    split_and!; cbn [fst snd]; [by eapply keeps_sane| |by eapply keeps_up].
    subst t1. change (state (set_session_up_since _ ?x)) with (state x). by rewrite state_fire, Hst.
  - set (t1 := fire ESessionLost t).
    assert (keeps t t1) as Hk by apply keeps_fire.
    assert (state t1 = Reconnecting) as Hst1 by (subst t1; by rewrite state_fire, Hst).
    destruct (unpublish_frame t1) as (Hf1 & Hf2 & _).
    pose proof (keeps_failure ep (ev_after e) (unpublish_session t1)) as Hkf.
    apply back_off_good.
    + eapply keeps_sane; [exact Hkf|]. apply Hf1. by eapply keeps_sane.
    + eapply keeps_down; [exact Hkf|]. apply unpublish_up. by eapply keeps_up.
    + rewrite state_failure; rewrite Hf2, Hst1; done.
Qed.

(** The states of a live session. *)
Definition live (s : ProfileStateName) : bool :=
  match s with Active | Degraded | Unstable => true | _ => false end.

Lemma act_on_spec e a d t :
  live (state t) = true ->
  let x := act_on earliest e a d t in
  keeps t x.1.2 /\
  state x.1.2 = match x.1.1 with Return Exit => state t | _ => Reconnecting end /\
  (x.1.1 = Panic -> bk_attempt (tk_backoff x.1.2) = umax 32).
Proof.
  intros Hl. assert (state (fire ESessionLost t) = Reconnecting) as Hr
    by (rewrite state_fire; by destruct (state t)).
  assert (keeps t (fire ESessionLost t)) as Hk by apply keeps_fire.
  destruct d as [|o| |j| |cool]; cbn; try done.
  - pose proof (keeps_override o t) as Hko. pose proof (state_override o t) as Hso.
    destruct (apply_manual_override o t) as [res t1]. cbn in *. split_and!; [| |done].
    + etrans; [exact Hko|]. etrans; [apply keeps_emit|apply keeps_fire].
    + rewrite state_fire. unfold emit_failover_requested. rewrite state_emit, Hso. by destruct (state t).
  - set (t2 := match tk_current_endpoint (fire ESessionLost t) with Some _ => _ | None => _ end).
    assert (keeps t t2 /\ state t2 = Reconnecting) as [Hk2 Hs2].
    { subst t2. destruct (tk_current_endpoint _) as [ep|]; [|done]. split.
      - etrans; [exact Hk|apply keeps_failure].
      - rewrite state_failure; by rewrite Hr. }
    pose proof (keeps_backoff (ev_after e) (ev_jrng e) t2) as Hkb.
    pose proof (state_backoff (ev_after e) (ev_jrng e) t2) as Hsb.
    pose proof (next_backoff_panic (ev_after e) (ev_jrng e) t2) as Hpn.
    destruct (next_backoff _ _ t2) as [delay t3]. cbn in *.
    split_and!; [by etrans|destruct delay; cbn; congruence|]. destruct delay; [done|]. intros _. by apply Hpn.
  - destruct cool; [|done]. destruct (tk_current_endpoint _); [|done].
    split_and!; [|done|done]. etrans; [exact Hk|]. by split_and!.
Qed.

Lemma leave_active_good e a d t :
  sane t -> up t -> live (state t) = true -> good (leave_active earliest e a d t).
Proof.
  intros Hs Hu Hl. destruct (act_on_spec e a d t Hl) as (Hk & Hst & Hpn).
  unfold leave_active. destruct (act_on _ e a d t) as [[action t1] rs]. cbn in *.
  destruct (unpublish_frame t1) as (Hf1 & Hf2 & _).
  pose proof (Hf1 (keeps_sane _ _ Hk Hs)) as Hs1.
  pose proof (unpublish_up _ (keeps_up _ _ Hk Hu)) as Hd1.
  destruct action as [[delay|]|].
  - split_and!; cbn [fst snd]; [done|by rewrite Hf2, Hst|done].
  - apply finish_good; [done|by right|]. rewrite Hf2, Hst. by destruct (state t).
  - unfold good, inv. cbn. rewrite Hst.
    split_and!; [by eapply keeps_sane|done|left; by eapply keeps_up|by apply Hpn].
Qed.

Lemma live_trip now t : live (state t) = true -> live (state (on_instability_trip now t).2) = true.
Proof. intros Hl. destruct (state_trip now t) as [E|E]; rewrite E; by destruct (state t). Qed.

Lemma probed_good e a started r t : inv t (PActive a) -> good (probed earliest e a started r t).
Proof.
  intros (Hs & Hp & Hu). assert (live (state t) = true) as Hl by (cbn in Hp; by destruct (state t)).
  assert (forall d, keeps t (set_instability d t)) as Hki by (by intros; split_and!).
  assert (forall d, live (state (set_instability d t)) = true) as Hli by done.
  assert (forall b d, let t2 := if b : bool then (on_instability_trip (ev_now e) (set_instability d t)).2
    else set_instability d t in keeps t t2 /\ live (state t2) = true) as Htrip.
  { intros b d. destruct b; [|done]. split; [etrans; [apply (Hki d)|apply keeps_trip]|].
    by apply live_trip. }
  assert (forall t2, keeps t t2 -> live (state t2) = true -> forall d, good (leave_active earliest e a d t2))
    as Hleave.
  { intros t2 Hk Hl2 d. apply leave_active_good; [by eapply keeps_sane|by eapply keeps_up|done]. }
  unfold probed. destruct r as [[u|err]|].
  - destruct (record_probe _ _) as [b d]. destruct (Htrip b d) as [Hk Hl2].
    assert ((if b then (on_instability_trip (ev_now e) (set_instability d t)).2 else set_instability d t)
      = (if b then on_instability_trip (ev_now e) (set_instability d t) else (Handled, set_instability d t)).2)
      as E by (by destruct b).
    rewrite E in Hk, Hl2. destruct (if b then _ else _) as [o t2]. cbn in Hk, Hl2.
    destruct o; [|by apply Hleave..].
    destruct (tick_healthy _ _) as [c d']. set (t3 := set_instability d' t2).
    assert (keeps t t3) as Hk3 by (etrans; [exact Hk|by split_and!]).
    assert (live (state t3) = true) as Hl3 by done.
    destruct c; split_and!; cbn [fst snd].
    + eapply keeps_sane, Hs. etrans; [exact Hk3|]. etrans; [apply keeps_emit|apply keeps_fire].
    + rewrite state_fire, state_emit. by destruct (state t3).
    + eapply keeps_up, Hu. etrans; [exact Hk3|]. etrans; [apply keeps_emit|apply keeps_fire].
    + by eapply keeps_sane.
    + by destruct (state t3).
    + by eapply keeps_up.
  - destruct (record_probe _ _) as [b d]. destruct (Htrip b d) as [Hk Hl2]. by apply Hleave.
  - destruct (record_probe _ _) as [b d]. destruct (Htrip b d) as [Hk Hl2]. by apply Hleave.
Qed.

Lemma active_stay_good t t' (a a' : ActiveState) rs :
  inv t (PActive a) -> keeps t t' -> live (state t') = true -> good (t', PActive a', rs).
Proof.
  intros (Hs & Hp & Hu) Hk Hl. split_and!; cbn [fst snd]; [by eapply keeps_sane| |by eapply keeps_up].
  by destruct (state t').
Qed.

Lemma forward_changed_good e a s t : inv t (PActive a) -> good (forward_changed e a s t).
Proof.
  intros Hi. assert (live (state t) = true) as Hl by (destruct Hi as (_ & Hp & _); cbn in Hp; by destruct (state t)).
  unfold forward_changed. destruct (_ && _); [|by eapply active_stay_good].
  destruct (as_degraded a); [by eapply active_stay_good|].
  eapply active_stay_good; [exact Hi| |].
  - etrans; [apply keeps_fire|apply keeps_emit].
  - rewrite state_emit, state_fire. by destruct (state t).
Qed.

Lemma reopened_good e a start t : inv t (PActive a) -> good (reopened e a start t).
Proof.
  intros Hi. assert (live (state t) = true) as Hl by (destruct Hi as (_ & Hp & _); cbn in Hp; by destruct (state t)).
  unfold reopened. destruct (_ && _); [|destruct (negb _); by eapply active_stay_good].
  eapply active_stay_good; [exact Hi|apply keeps_fire|]. rewrite state_fire. by destruct (state t).
Qed.

(** The phases between sessions: nothing registered, and a state the loop can
    resume from. *)
Definition idle (ph : Phase A) : bool := match ph with PTop | PSleep _ => true | _ => false end.

Lemma sleep_control_good m t ph : idle ph = true -> inv t ph -> good (sleep_control m t).
Proof.
  intros Hid (Hs & Hp & Hd).
  assert (phase_state PTop (state t) = true /\ down t) as [Hp' Hd'] by (by destruct ph).
  assert (forall rs, good (finish t rs)) as Hfin.
  { intros rs. apply finish_good; [done|by right|by destruct (state t)]. }
  assert (forall rs, good (t, PTop, rs)) as Htop by (intros rs; by split_and!).
  destruct m as [[|o| |g|]|]; cbn; try done.
  pose proof (keeps_override o t) as Hk. pose proof (state_override o t) as Hso.
  destruct (apply_manual_override o t) as [res t1]. cbn in *.
  assert (keeps t (emit_failover_requested o t1)) as Hk2 by (etrans; [exact Hk|apply keeps_emit]).
  split_and!; cbn [fst snd]; [by eapply keeps_sane| |by eapply keeps_down].
  unfold emit_failover_requested. by rewrite state_emit, Hso.
Qed.

Lemma idle_control_good m t :
  inv t PTop ->
  good (let '(break, t1, rs) := handle_control_idle m t in if break : bool then finish t1 rs else (t1, PTop, rs)).
Proof.
  intros Hi. pose proof (sleep_control_good (Some m) t PTop eq_refl Hi) as Hg.
  destruct m as [|o| |g|]; cbn in *; try done.
  by destruct (apply_manual_override o t).
Qed.

(** ** Runs *)

(** What the outside world guarantees: a session id is fresh, and the other
    users of the registry leave the rows of this profile alone. *)
Definition admissible (s : Stimulus P) t : Prop :=
  match s with
  | SConnected _ id => tk_registry t !! id = None
  | SShared r => forall id row, sr_profile row = name t ->
      (r !! id = Some row <-> tk_registry t !! id = Some row)
  | _ => True
  end.

(** The states a task can reach from its start. *)
Inductive reach (t0 : Task) : Task -> Phase A -> Prop :=
| reach_init : reach t0 t0 PTop
| reach_step t ph e s t' ph' rs :
    reach t0 t ph -> admissible s t -> step earliest e s t ph = Some (t', ph', rs) -> reach t0 t' ph'.

Lemma shared_ok r t ph :
  admissible (SShared r) t -> inv t ph -> inv (set_registry r t) ph.
Proof.
  intros Ha (Hs & Hp & Hi). cbn in Ha. split_and!; [done..|].
  assert (down t -> down (set_registry r t)) as Hd.
  { intros [Hc Hd]. split; [done|]. intros id row Hl Hn. cbn in Hl. apply (Ha _ _ Hn) in Hl.
    by apply Hd in Hl. }
  assert (up t -> up (set_registry r t)) as Hu.
  { intros (id & row & Hc & Hr & Hn & Hu). exists id, row. cbn. split_and!; [done|by apply Ha|done|].
    intros id' row' Hl Hn'. apply (Ha _ _ Hn') in Hl. by eapply Hu. }
  unfold session_ok in *. destruct ph; auto. cbn. intuition.
Qed.

Lemma inv_keeps t t' ph :
  inv t ph -> keeps t t' -> state t' = state t -> tk_backoff t' = tk_backoff t -> inv t' ph.
Proof.
  intros (Hs & Hp & Hi) Hk Hst Hb. split_and!; [by eapply keeps_sane|by rewrite Hst|].
  destruct ph; try first [by eapply keeps_down|by eapply keeps_up].
  cbn in Hi |- *. rewrite Hb. destruct Hi as [Hi ?]. split; [|done].
  destruct Hi; [left; by eapply keeps_up|right; by eapply keeps_down].
Qed.

Lemma step_good e s t ph x :
  inv t ph -> admissible s t -> step earliest e s t ph = Some x -> good x.
Proof.
  intros Hi Ha Hx.
  assert (s = STakeEvent \/ s = SDropEvents \/ (exists ps, s = SSetPolicy ps) \/ (exists r, s = SShared r) \/
    match s with STakeEvent | SDropEvents | SSetPolicy _ | SShared _ => False | _ => True end) as Hcase
    by (destruct s; eauto 10).
  destruct Hcase as [->|[->|[[ps ->]|[[r ->]|Hs]]]].
  - assert (x = (set_events (tail (tk_events t)) t, ph, [])) as -> by (destruct ph; cbn in Hx; by simplify_eq).
    eapply inv_keeps; [exact Hi| |done|done]. split_and!; try done. intros (H1 & H2 & H3).
    split_and!; try done. cbn. destruct (tk_events t); cbn [tail length] in *; lia.
  - assert (x = (set_events_open false (set_events [] t), ph, [])) as ->
      by (destruct ph; cbn in Hx; by simplify_eq).
    eapply inv_keeps; [exact Hi| |done|done]. split_and!; try done. intros (H1 & H2 & H3).
    split_and!; try done. cbn. lia.
  - assert (x = (set_selector (set_policy_selector (tk_selector t) ps) t, ph, [])) as ->
      by (destruct ph; cbn in Hx; by simplify_eq).
    eapply inv_keeps; [exact Hi| |done|done]. by split_and!.
  - assert (x = (set_registry r t, ph, [])) as -> by (destruct ph; cbn in Hx; by simplify_eq).
    by apply shared_ok.
  - destruct ph as [|ep au|ep|a|until| |], s; cbn in Hx; try done.
    + destruct m as [m|]; [|done]. pose proof (idle_control_good m t Hi) as Hg.
      destruct (handle_control_idle m t) as [[b t1] rs]. by injection Hx as <-.
    + destruct (loop_top_good e t Hi) as (y & Hy & Hg). rewrite Hx in Hy. by injection Hy as ->.
    + injection Hx as <-. by eapply connect_control_good.
    + injection Hx as <-. by eapply connected_good.
    + injection Hx as <-. by apply opened_good.
    + unfold active_control in Hx. assert (live (state t) = true) as Hl
        by (destruct Hi as (_ & Hp & _); cbn in Hp; by destruct (state t)).
      destruct Hi as (Hsa & _ & Hu).
      destruct m as [[|o| |g|]|]; try done; injection Hx as <-; by apply leave_active_good.
    + injection Hx as <-. exact Hi.
    + destruct (probe_possible _ _ _ _); [|done]. injection Hx as <-. by apply probed_good.
    + destruct (runner_changed a idx st) as [a'|]; [|done]. injection Hx as <-.
      destruct Hi as (Hsa & Hp & Hu). by split_and!.
    + destruct (as_forwards a !! idx) as [sl|]; cbn in Hx; [|done]. destruct (sl_unseen sl); [|done].
      injection Hx as <-. by apply forward_changed_good.
    + destruct (as_reopen_at a) as [d|]; cbn in Hx; [|done]. destruct (d <=? ev_now e); [|done].
      injection Hx as <-. by apply reopened_good.
    + injection Hx as <-. by apply (sleep_control_good _ _ (PSleep until)).
    + destruct (until <=? ev_now e); [|done]. injection Hx as <-. exact Hi.
Qed.

Lemma init_inv (conf : TaskConf A) eps reg (rng : R) :
  (forall id row, reg !! id = Some row -> sr_profile row <> tc_name conf) ->
  inv (task_init (P := P) conf eps reg rng) PTop.
Proof.
  intros Hr. unfold task_init. set (t0 := mkTask _ _ _ _ _ _ _ _ _ _ _ _ _ _).
  pose proof (keeps_fire EStart t0) as Hk. split_and!.
  - eapply keeps_sane; [exact Hk|]. split_and!; [done|cbn; lia|vm_compute; by split].
  - by rewrite state_fire.
  - eapply keeps_down; [exact Hk|]. split; [done|]. intros id row. apply Hr.
Qed.

Lemma reach_inv t0 t ph : inv t0 PTop -> reach t0 t ph -> inv t ph.
Proof.
  intros H0' Hr. induction Hr as [|t ph e s t' ph' rs Hr IH Ha Hs]; [done|].
  exact (step_good _ _ _ _ _ IH Ha Hs).
Qed.

(** ** Lemmas: backoff and the storm guard *)

(** The backoff, the uptime mark and the storm guard are untouched. *)
Definition quiet t t' : Prop :=
  tk_conf t' = tk_conf t /\ tk_backoff t' = tk_backoff t /\
  tk_session_up_since t' = tk_session_up_since t /\
  tk_last_instability_action t' = tk_last_instability_action t.

(** The backoff and the uptime mark are untouched, and the storm guard is
    re-armed, if at all, at one of the instants [n1] and [n2] and no sooner
    than the minimum interval after its last arming. *)
Definition guarded (n1 n2 : Z) t t' : Prop :=
  tk_conf t' = tk_conf t /\ tk_backoff t' = tk_backoff t /\
  tk_session_up_since t' = tk_session_up_since t /\
  (tk_last_instability_action t' = tk_last_instability_action t \/
   exists n, (n = n1 \/ n = n2) /\ tk_last_instability_action t' = Some n /\
     forall z, tk_last_instability_action t = Some z ->
       INSTABILITY_ACTION_MIN_INTERVAL <= duration_since n z).

Lemma quiet_guarded n1 n2 t t' : quiet t t' -> guarded n1 n2 t t'.
Proof. intros (H1 & H2 & H3 & H4). split_and!; try done. by left. Qed.

Lemma interval_trans n n' z :
  INSTABILITY_ACTION_MIN_INTERVAL <= duration_since n z ->
  INSTABILITY_ACTION_MIN_INTERVAL <= duration_since n' n ->
  INSTABILITY_ACTION_MIN_INTERVAL <= duration_since n' z.
Proof. unfold INSTABILITY_ACTION_MIN_INTERVAL, duration_since, sat_sub, from_secs. lia. Qed.

#[global] Instance guarded_preorder n1 n2 : PreOrder (guarded n1 n2).
Proof.
  split; [intros t; split_and!; try done; by left|].
  intros t1 t2 t3 (A1 & B1 & C1 & D1) (A2 & B2 & C2 & D2). split_and!; [congruence..|].
  destruct D2 as [D2|(n' & Hn' & D2 & G2)].
  - rewrite D2. destruct D1 as [D1|(n & Hn & D1 & G1)]; [by left|right; by exists n].
  - right. exists n'. split_and!; [done..|]. intros z Hz.
    destruct D1 as [D1|(n & Hn & D1 & G1)]; [apply G2; congruence|].
    eapply interval_trans; [by apply G1|by apply G2].
Qed.

#[global] Instance quiet_preorder : PreOrder quiet.
Proof.
  split; [intros t; by split_and!|]. intros t1 t2 t3 (A1 & B1 & C1 & D1) (A2 & B2 & C2 & D2).
  split_and!; congruence.
Qed.

Lemma quiet_emit ev t : quiet t (emit_event ev t).
Proof. unfold emit_event. destruct (_ && _); by split_and!. Qed.

Lemma quiet_fire ev t : quiet t (fire ev t).
Proof.
  unfold fire. destruct (sm_step _ ev) as [[new|] sm]; [|by split_and!].
  case_decide; [by split_and!|]. etrans; [|apply quiet_emit]. by split_and!.
Qed.

Lemma quiet_override o t : quiet t (apply_manual_override o t).2.
Proof.
  unfold apply_manual_override. destruct o as [key|]; [|by split_and!].
  destruct (parse_endpoint_key key) as [[h p]|e]; by split_and!.
Qed.

Lemma quiet_unpublish t : quiet t (unpublish_session t).
Proof. unfold unpublish_session. destruct (tk_current_session t); by split_and!. Qed.

Lemma quiet_enter t : quiet t (enter_resolving t).
Proof. unfold enter_resolving. destruct (state t); try reflexivity; apply quiet_fire. Qed.

Lemma quiet_pick now t : quiet t (pick_endpoint now t).2.
Proof.
  unfold pick_endpoint. destruct (pick _ _ now now) as [[r rng] sel].
  destruct r as [[ep|er]|]; by split_and!.
Qed.

Lemma quiet_finish t rs : quiet t (finish t rs).1.1.
Proof.
  unfold finish, cleanup_session. cbn [fst]. etrans; [apply quiet_unpublish|].
  etrans; [apply quiet_fire|apply quiet_fire].
Qed.

Lemma guarded_allow n1 n2 now t :
  now = n1 \/ now = n2 -> guarded n1 n2 t (allow_instability_action now t).2.
Proof.
  intros Hn. unfold allow_instability_action. cbn.
  destruct (match tk_last_instability_action t with Some _ => _ | None => _ end) eqn:E; [|reflexivity].
  split_and!; try done. right. exists now. split_and!; try done.
  intros z Hz. rewrite Hz in E. by bool_prop.
Qed.

Lemma guarded_trip n1 n2 now t :
  now = n1 \/ now = n2 -> guarded n1 n2 t (on_instability_trip now t).2.
Proof.
  intros Hn. unfold on_instability_trip.
  assert (forall t', quiet t t' -> guarded n1 n2 t (allow_instability_action now t').2) as Hallow.
  { intros t' Hq. etrans; [by apply quiet_guarded|by apply guarded_allow]. }
  destruct (iw_action _).
  - apply quiet_guarded. etrans; [apply quiet_emit|apply quiet_fire].
  - set (t2 := fire EInstabilityHit _). assert (quiet t t2) as Hq.
    { subst t2. etrans; [apply quiet_emit|]. etrans; [apply quiet_emit|apply quiet_fire]. }
    specialize (Hallow t2 Hq). by destruct (allow_instability_action now t2).
  - apply quiet_guarded. etrans; [apply quiet_emit|apply quiet_fire].
  - apply quiet_guarded. etrans; [apply quiet_emit|apply quiet_fire].
  - apply quiet_guarded, quiet_emit.
  - set (t2 := fire EInstabilityHit _). assert (quiet t t2) as Hq.
    { subst t2. etrans; [apply quiet_emit|apply quiet_fire]. }
    specialize (Hallow t2 Hq). by destruct (allow_instability_action now t2).
Qed.

Lemma guarded_failure n1 n2 ep now t :
  now = n1 \/ now = n2 -> guarded n1 n2 t (handle_session_failure earliest ep now t).
Proof.
  intros Hn. unfold handle_session_failure. destruct (record_disconnect _ _ now) as [b d].
  set (t2 := set_instability d _). assert (quiet t t2) as Hq by (by split_and!).
  destruct b; [|by apply quiet_guarded]. etrans; [by apply quiet_guarded|by apply guarded_trip].
Qed.

(** What a step does to the backoff: nothing, one more attempt, or a restart
    at one after a session that was up for [reset_after]. *)
Definition backoff_step (now : Z) t t' : Prop :=
  tk_backoff t' = tk_backoff t \/
  bk_attempt (tk_backoff t') = sat_add 32 (bk_attempt (tk_backoff t)) 1 \/
  (bk_attempt (tk_backoff t') = 1 /\
   exists since, tk_session_up_since t = Some since /\
     reset_after (pc_backoff (cfg t)) <= duration_since now since).

Lemma backoff_next n1 n2 now jrng t t1 :
  guarded n1 n2 t t1 ->
  backoff_step now t (next_backoff now jrng t1).2 /\
  tk_last_instability_action (next_backoff now jrng t1).2 = tk_last_instability_action t1.
Proof.
  intros (Hc & Hb & Hu & _). unfold backoff_step, cfg. rewrite <- Hc, <- Hb, <- Hu. unfold next_backoff.
  set (t2 := match tk_session_up_since t1 with Some _ => _ | None => _ end).
  destruct (Z.eqb_spec (bk_attempt (tk_backoff t2)) (umax 32)) as [Emax|_].
  { cbn. subst t2. destruct (tk_session_up_since t1); [|by split; [left|]].
    destruct (_ <=? _); [discriminate Emax|by split; [left|]]. }
  pose proof (next_delay_state (tk_backoff t2) jrng) as Hs.
  destruct (next_delay (tk_backoff t2) jrng) as [[delay b] r]. cbn in Hs |- *. subst b.
  set (t3 := set_backoff _ t2).
  destruct (quiet_emit (ReconnectScheduled (name t1) delay (bk_attempt (tk_backoff t2) + 1)) t3)
    as (_ & -> & _ & ->).
  subst t3 t2. cbn [tk_backoff set_backoff bk_attempt tk_last_instability_action].
  destruct (tk_session_up_since t1) as [since|] eqn:Eu; [|split; [by right; left|done]].
  destruct (Z.leb_spec (reset_after (pc_backoff (cfg t1))) (duration_since now since)).
  - split; [|done]. right; right. split; [done|]. exists since. by split.
  - split; [by right; left|done].
Qed.

(** An unsaturated counter does not panic. *)
Lemma backoff_saturated n1 n2 now jrng t t1 :
  guarded n1 n2 t t1 -> bk_attempt (tk_backoff t) <> umax 32 -> (next_backoff now jrng t1).1 <> Panic.
Proof.
  intros (_ & Hb & _) Hm. unfold next_backoff. rewrite <- Hb in Hm.
  set (t2 := match tk_session_up_since t1 with Some _ => _ | None => _ end).
  destruct (Z.eqb_spec (bk_attempt (tk_backoff t2)) (umax 32)) as [E|_].
  - exfalso. subst t2. destruct (tk_session_up_since t1); [|done].
    destruct (_ <=? _); [discriminate E|done].
  - by destruct (next_delay _ _) as [[delay b] r].
Qed.

(** The storm guard of a step, and the pace of a step altogether. *)
Definition armed (n1 n2 : Z) t t' : Prop :=
  tk_last_instability_action t' = tk_last_instability_action t \/
  exists n, (n = n1 \/ n = n2) /\ tk_last_instability_action t' = Some n /\
    forall z, tk_last_instability_action t = Some z ->
      INSTABILITY_ACTION_MIN_INTERVAL <= duration_since n z.

Definition paced (e : Env R) t t' : Prop :=
  backoff_step (ev_after e) t t' /\ armed (ev_now e) (ev_after e) t t'.

Lemma guarded_paced e t t' : guarded (ev_now e) (ev_after e) t t' -> paced e t t'.
Proof. intros (_ & Hb & _ & Ha). split; [by left|done]. Qed.

Lemma paced_quiet e t t1 t2 : paced e t t1 -> quiet t1 t2 -> paced e t t2.
Proof.
  intros [Hb Ha] (_ & Hq & _ & Hl). unfold paced, backoff_step, armed. by rewrite Hq, Hl.
Qed.

Lemma quiet_paced e t t' : quiet t t' -> paced e t t'.
Proof. intros Hq. by apply guarded_paced, quiet_guarded. Qed.

Lemma next_backoff_paced e t t1 :
  guarded (ev_now e) (ev_after e) t t1 -> paced e t (next_backoff (ev_after e) (ev_jrng e) t1).2.
Proof.
  intros Hg. destruct (backoff_next _ _ (ev_after e) (ev_jrng e) _ _ Hg) as [Hb Hl].
  split; [done|]. unfold armed. rewrite Hl. by destruct Hg as (_ & _ & _ & Ha).
Qed.

Lemma back_off_paced e t t1 rs :
  guarded (ev_now e) (ev_after e) t t1 -> paced e t (back_off e t1 rs).1.1.
Proof.
  intros Hg. pose proof (next_backoff_paced e t t1 Hg). unfold back_off.
  by destruct (next_backoff _ _ t1) as [[delay|] t'].
Qed.

Lemma finish_paced e t t1 rs :
  guarded (ev_now e) (ev_after e) t t1 -> paced e t (finish t1 rs).1.1.
Proof. intros Hg. eapply paced_quiet; [by apply guarded_paced|apply quiet_finish]. Qed.

Lemma leave_active_paced e a d t t1 :
  guarded (ev_now e) (ev_after e) t t1 -> paced e t (leave_active earliest e a d t1).1.1.
Proof.
  intros Hg. assert (paced e t (act_on earliest e a d t1).1.2) as Hact.
  { assert (forall t2, quiet t1 t2 -> paced e t t2) as Hq.
    { intros t2 Hq. eapply paced_quiet; [by apply guarded_paced|done]. }
    assert (quiet t1 (fire ESessionLost t1)) as Hl by apply quiet_fire.
    destruct d as [|o| |j| |cool]; cbn; try (apply Hq; done).
    - pose proof (quiet_override o t1) as Ho. destruct (apply_manual_override o t1) as [res t2].
      apply Hq. cbn in *. etrans; [exact Ho|]. etrans; [apply quiet_emit|apply quiet_fire].
    - set (t2 := match tk_current_endpoint _ with Some _ => _ | None => _ end).
      assert (guarded (ev_now e) (ev_after e) t t2) as Hg2.
      { etrans; [exact Hg|]. etrans; [apply quiet_guarded, Hl|]. subst t2.
        destruct (tk_current_endpoint _); [|reflexivity]. apply guarded_failure. by right. }
      pose proof (next_backoff_paced e t t2 Hg2). by destruct (next_backoff _ _ t2).
    - destruct cool; [|by apply Hq]. destruct (tk_current_endpoint _); [|by apply Hq].
      apply Hq. etrans; [exact Hl|]. by split_and!. }
  unfold leave_active. destruct (act_on earliest e a d t1) as [[action t2] rs]. cbn in Hact.
  destruct action as [[delay|]|]; cbn [fst].
  - eapply paced_quiet; [exact Hact|apply quiet_unpublish].
  - eapply paced_quiet; [exact Hact|]. etrans; [apply quiet_unpublish|apply quiet_finish].
  - exact Hact.
Qed.

Lemma probed_paced e a started r t : paced e t (probed earliest e a started r t).1.1.
Proof.
  assert (forall (b : bool) d, guarded (ev_now e) (ev_after e) t
    (if b then (on_instability_trip (ev_now e) (set_instability d t)).2 else set_instability d t)) as Ht.
  { intros b d. assert (quiet t (set_instability d t)) as Hq by (by split_and!).
    destruct b; [|by apply quiet_guarded].
    etrans; [by apply quiet_guarded|]. apply guarded_trip. by left. }
  unfold probed. destruct r as [[u|err]|].
  - destruct (record_probe _ _) as [b d]. specialize (Ht b d).
    assert ((if b then (on_instability_trip (ev_now e) (set_instability d t)).2 else set_instability d t)
      = (if b then on_instability_trip (ev_now e) (set_instability d t) else (Handled, set_instability d t)).2)
      as E by (by destruct b).
    rewrite E in Ht. destruct (if b then _ else _) as [o t2]. cbn in Ht.
    destruct o; [|by apply leave_active_paced..].
    destruct (tick_healthy _ _) as [c d']. cbn [fst].
    eapply paced_quiet; [by apply guarded_paced|]. destruct c; [|by split_and!].
    etrans; [|apply quiet_fire]. etrans; [|apply quiet_emit]. by split_and!.
  - destruct (record_probe _ _) as [b d]. apply leave_active_paced, Ht.
  - destruct (record_probe _ _) as [b d]. apply leave_active_paced, Ht.
Qed.

Lemma connected_paced e ep r id t : paced e t (connected earliest e ep r id t).1.1.
Proof.
  unfold connected. destruct r as [backend|err].
  - apply quiet_paced. cbn [fst]. etrans; [|by split_and!].
    etrans; [|apply quiet_fire]. etrans; [|apply quiet_fire]. by split_and!.
  - assert (forall ev, guarded (ev_now e) (ev_after e) t
      (handle_session_failure earliest ep (ev_now e) (fire ev t))) as Hg.
    { intros ev. etrans; [apply quiet_guarded, quiet_fire|]. apply guarded_failure. by left. }
    destruct (is_terminal_connect_error err); [by apply finish_paced|].
    destruct (_ && _); [by apply finish_paced|by apply back_off_paced].
Qed.

Lemma loop_top_paced e t x : loop_top e t = Some x -> paced e t x.1.1.
Proof.
  unfold loop_top. destruct (exhausted _).
  - intros [= <-]. apply finish_paced, quiet_guarded, quiet_emit.
  - pose proof (quiet_pick (ev_now e) (enter_resolving t)) as Hq.
    destruct (pick_endpoint _ _) as [[[ep|]|] t']; cbn in Hq; intros [= <-].
    + apply quiet_paced. cbn. etrans; [apply quiet_enter|]. etrans; [exact Hq|apply quiet_fire].
    + apply back_off_paced, quiet_guarded. etrans; [apply quiet_enter|].
      etrans; [exact Hq|apply quiet_fire].
Qed.

Lemma control_paced e m t : paced e t (connect_control m t).1.1 /\ paced e t (sleep_control m t).1.1.
Proof.
  assert (forall rs, paced e t (finish t rs).1.1) as Hf by (intros; apply finish_paced; reflexivity).
  assert (paced e t t) as Hr by (apply quiet_paced; reflexivity).
  destruct m as [[|o| |g|]|]; cbn -[finish]; try (split; done || apply Hf).
  pose proof (quiet_override o t) as Ho. destruct (apply_manual_override o t) as [res t1]. cbn in *.
  split; apply quiet_paced; [done|]. etrans; [exact Ho|apply quiet_emit].
Qed.

Lemma opened_paced e ep start t : paced e t (opened earliest e ep start t).1.1.
Proof.
  unfold opened. destruct (open_forwards 0 start _).
  - pose proof (quiet_fire EForwardsUp t) as (Hc & Hb & _ & Hl). split; [by left|by left].
  - apply back_off_paced. etrans; [apply quiet_guarded, quiet_fire|].
    etrans; [apply quiet_guarded, quiet_unpublish|]. apply guarded_failure. by right.
Qed.

Lemma step_paced e s t ph t' ph' rs :
  step earliest e s t ph = Some (t', ph', rs) -> paced e t t'.
Proof.
  intros Hx. assert (paced e t t) as Hr by (apply quiet_paced; reflexivity).
  assert (forall x, Some x = Some (t', ph', rs) -> paced e t x.1.1 -> paced e t t') as Hx'
    by (by intros x [= ->]).
  destruct ph as [|ep au|ep|a|until| |], s; cbn in Hx; try discriminate Hx;
    try (eapply Hx'; [exact Hx|]; first [done|apply quiet_paced; by split_and!]).
  - destruct m as [m|]; [|done]. destruct (control_paced e (Some m) t) as [_ Hs].
    destruct m as [|o| |g|]; cbn in Hx, Hs; try (eapply Hx'; [exact Hx|exact Hs]).
    destruct (apply_manual_override o t). eapply Hx'; [exact Hx|exact Hs].
  - by apply loop_top_paced in Hx.
  - eapply Hx'; [exact Hx|]. apply control_paced.
  - eapply Hx'; [exact Hx|]. apply connected_paced.
  - eapply Hx'; [exact Hx|]. apply opened_paced.
  - assert (guarded (ev_now e) (ev_after e) t t) as Hg by reflexivity.
    unfold active_control in Hx.
    destruct m as [[|o| |g|]|]; try done; (eapply Hx'; [exact Hx|]; by apply leave_active_paced).
  - destruct (probe_possible _ _ _ _); [|done]. eapply Hx'; [exact Hx|]. apply probed_paced.
  - destruct (runner_changed a idx st); [|done]. by eapply Hx'.
  - destruct (as_forwards a !! idx) as [sl|]; cbn in Hx; [|done]. destruct (sl_unseen sl); [|done].
    eapply Hx'; [exact Hx|]. unfold forward_changed. destruct (_ && _); [|done].
    destruct (as_degraded a); [done|]. apply quiet_paced. etrans; [apply quiet_fire|apply quiet_emit].
  - destruct (as_reopen_at a) as [d|]; cbn in Hx; [|done]. destruct (d <=? ev_now e); [|done].
    eapply Hx'; [exact Hx|]. unfold reopened. destruct (_ && _); [|by destruct (negb _)].
    apply quiet_paced, quiet_fire.
  - eapply Hx'; [exact Hx|]. apply control_paced.
  - destruct (until <=? ev_now e); [|done]. by eapply Hx'.
Qed.

End TaskLemmas.

(** ** Properties *)

Section TaskProperties.
Context {P : Type} `{PolicySelector P} {R : Type} `{Rng R} {A : Type}.
Context (earliest : Z).
Implicit Types t : ProfileTask P R A.

(** C1: the published state tells the truth about the driver.  In every
    reachable configuration the state on the watch channel is the machine's,
    each await point of the task allows only its own states, the event channel
    never holds more than its 256 events, and the task panics in one situation
    only, an attempt counter saturated at [2^32 - 1].  In particular the driver never reports [FailingOver], [Disabled] or [Idle],
    and reports [Stopped] exactly when it has ended. *)
Theorem driver_invariant (conf : TaskConf A) (eps : list Endpoint) (reg : SessionRegistry) (rng : R)
    t (ph : Phase A) :
  (forall id row, reg !! id = Some row -> sr_profile row <> tc_name conf) ->
  reach earliest (task_init conf eps reg rng) t ph ->
  tk_state_tx t = state t /\
  (length (tk_events t) <= PROFILE_EVENTS_CHANNEL_CAP)%nat /\
  match ph with
  | PTop | PSleep _ => state t ∈ [Resolving; Connecting; Reconnecting]
  | PConnect _ _ => state t = Connecting
  | POpen _ => state t = EstablishingForwards
  | PActive _ => state t ∈ [Active; Degraded; Unstable]
  | PDone => state t = Stopped
  | PPanicked => bk_attempt (tk_backoff t) = umax 32
  end /\
  (state t ∉ [FailingOver; Disabled; Idle]) /\
  (state t = Stopped <-> ph = PDone) /\
  (ph = PTop -> forall e, step earliest e STryEmpty t ph <> None).
Proof.
  intros Hreg Hr. pose proof (reach_inv _ _ _ _ (init_inv conf eps reg rng Hreg) Hr) as Hi.
  pose proof Hi as ((H1 & H2 & _) & Hp & _). split_and!; [done|done| | | |].
  - destruct ph; cbn in Hp; [..|by destruct Hi as (_ & _ & _ & ?)];
      destruct (state t); try discriminate Hp; try done; set_solver.
  - intros Hin. destruct ph; cbn in Hp; destruct (state t); try discriminate Hp; set_solver.
  - destruct ph; cbn in Hp; destruct (state t); done.
  - intros -> e. destruct (loop_top_good e t Hi) as (x & Hx & _). cbn. by rewrite Hx.
Qed.

(** C3: a profile can always be stopped.  [Shutdown] and [Drain] end the task
    from every phase that listens to control messages: the state is [Stopped],
    the session is unpublished, a drain is answered with a report.  The only
    phase that does not listen, opening the forwards, ends in one that does,
    whatever the outcome, and an ended task stays ended. *)
Theorem stop_everywhere (conf : TaskConf A) (eps : list Endpoint) (reg : SessionRegistry) (rng : R)
    t (ph : Phase A) (e : Env R) (m : Control) :
  (forall id row, reg !! id = Some row -> sr_profile row <> tc_name conf) ->
  reach earliest (task_init conf eps reg rng) t ph ->
  m = CShutdown \/ (exists g, m = CDrain g) ->
  match ph with
  | PDone => forall s t' ph' rs, step earliest e s t ph = Some (t', ph', rs) -> ph' = PDone /\ state t' = Stopped
  | POpen ep => forall start, exists t' ph' rs, step earliest e (SOpened start) t ph = Some (t', ph', rs) /\
      match ph' with
      | PActive _ | PSleep _ => True
      | PPanicked => bk_attempt (tk_backoff t') = umax 32
      | _ => False
      end
  | PPanicked => bk_attempt (tk_backoff t) = umax 32
  | _ => exists t' rs, step earliest e (SControl (Some m)) t ph = Some (t', PDone, rs) /\
      state t' = Stopped /\ tk_current_session t' = None /\
      by_profile (tk_registry t') (name t') = [] /\
      (m <> CShutdown -> exists r, rs = [RDrained r])
  end.
Proof.
  intros Hreg Hr Hm. pose proof (reach_inv _ _ _ _ (init_inv conf eps reg rng Hreg) Hr) as Hi.
  assert (forall x, step earliest e (SControl (Some m)) t ph = Some x -> x.1.2 = PDone ->
    (m <> CShutdown -> exists r, x.2 = [RDrained r]) ->
    exists t' rs, step earliest e (SControl (Some m)) t ph = Some (t', PDone, rs) /\
      state t' = Stopped /\ tk_current_session t' = None /\
      by_profile (tk_registry t') (name t') = [] /\
      (m <> CShutdown -> exists r, rs = [RDrained r])) as Hdone.
  { intros [[t' ph'] rs] Hx Hph Hrs. cbn in Hph, Hrs. subst ph'. exists t', rs.
    destruct (step_good earliest e (SControl (Some m)) t ph _ Hi I Hx) as (_ & Hp & Hc & Hd).
    cbn in Hp, Hc, Hd. split_and!; [done|by destruct (state t')|done| |done].
    apply elem_of_nil_inv. intros row [Hn [id Hl]]%elem_of_by_profile. by destruct (Hd _ _ Hl). }
  destruct ph as [|ep au|ep|a|until| |].
  1, 2, 5: destruct Hm as [->|[g ->]]; eapply Hdone; cbn; try reflexivity; try done; by eexists.
  - intros start. cbn. unfold opened. destruct (open_forwards 0 start _) as [r|er].
    + do 3 eexists. by split.
    + unfold back_off. pose proof (next_backoff_panic (ev_after e) (ev_jrng e) (handle_session_failure earliest ep
        (ev_after e) (unpublish_session (fire ESessionLost t)))) as Hpn.
      destruct (next_backoff _ _ _) as [[d|] t']; do 3 eexists; (split; [done|]); [done|by apply Hpn].
  - destruct Hm as [->|[g ->]]; eapply Hdone; cbn; try reflexivity; try done; by eexists.
  - intros s t' ph' rs Hx.
    assert (ph' = PDone) as -> by (destruct s; cbn in Hx; by simplify_eq).
    split; [done|]. destruct Hi as (_ & Hp & _).
    assert (state t' = state t) as -> by (destruct s; cbn in Hx; by simplify_eq).
    cbn in Hp. by destruct (state t).
  - by destruct Hi as (_ & _ & _ & ?).
Qed.

Lemma selector_emit ev t : tk_selector (emit_event ev t) = tk_selector t.
Proof. unfold emit_event. by destruct (_ && _). Qed.

Lemma selector_fire ev t : tk_selector (fire ev t) = tk_selector t.
Proof.
  unfold fire. destruct (sm_step _ ev) as [[new|] sm]; [|done].
  case_decide; [done|]. by rewrite selector_emit.
Qed.

Lemma selector_allow now t : tk_selector (allow_instability_action now t).2 = tk_selector t.
Proof. unfold allow_instability_action. cbn. by split_goal. Qed.

Lemma selector_trip now t : tk_selector (on_instability_trip now t).2 = tk_selector t.
Proof.
  unfold on_instability_trip. destruct (iw_action _).
  all: try (cbn [snd]; rewrite ?selector_fire, ?selector_emit; done).
  - set (t2 := fire _ _). pose proof (selector_allow now t2) as Ha.
    destruct (allow_instability_action now t2). cbn in *. subst t2.
    by rewrite Ha, selector_fire, !selector_emit.
  - set (t2 := fire _ _). pose proof (selector_allow now t2) as Ha.
    destruct (allow_instability_action now t2). cbn in *. subst t2.
    by rewrite Ha, selector_fire, !selector_emit.
Qed.

Lemma selector_failure ep now t :
  tk_selector (handle_session_failure earliest ep now t) =
  record_failure (tk_selector t) (ep_host ep) (ep_port ep) now now.
Proof.
  unfold handle_session_failure. destruct (record_disconnect _ _ now) as [b d].
  destruct b; [|done]. by rewrite selector_trip.
Qed.

Lemma unpublish_selector t : tk_selector (cleanup_session t) = tk_selector t.
Proof. unfold cleanup_session, unpublish_session. by destruct (tk_current_session t). Qed.

Lemma selector_backoff now jrng t : tk_selector (next_backoff now jrng t).2 = tk_selector t.
Proof.
  unfold next_backoff. set (t1 := match tk_session_up_since t with Some _ => _ | None => _ end).
  assert (tk_selector t1 = tk_selector t) as E by (subst t1; destruct (tk_session_up_since t); [by split_goal|done]).
  destruct (_ =? _); [done|]. destruct (next_delay _ _) as [[delay b] r]. cbn. by rewrite selector_emit.
Qed.

(** The charge, written out. *)
Lemma bench_charge fail_after unit_secs now x :
  let n := Z.min (en_consecutive_failures x + 1) (2 ^ 32 - 1) in
  bench fail_after unit_secs now x =
    mkEntry (en_ep x)
      (if fail_after <=? n then Some (now + 1000000000 * Z.min (n * unit_secs) (2 ^ 64 - 1)) else en_cooldown_until x) n.
Proof. intros n. unfold bench, from_secs, sat_add, sat_mul, umax in *. subst n. rewrite (Z.mul_comm 1000000000). by destruct (_ <=? _). Qed.

(** C35: which connect errors end a profile.  A failed [connect] of a task whose
    attempt counter is not saturated, to an endpoint its selector knows, ends
    the task exactly when the error is [TrustFailed] or [KeyFailure], or is
    [AuthFailed] (plain or with a diagnostic) while [retry_auth_failures] is
    off; any other error leads to a wait before another attempt.  In every
    case the failure is charged to the endpoint that was tried: its count of
    consecutive failures rises by one, up to [2^32 - 1], and from [fail_after]
    failures on it is benched for that many times the configured number of
    seconds. *)
Theorem connect_error_policy t (ep : Endpoint) (au : A) (e : Env R) (err : Error) (id : string)
    t' (ph' : Phase A) (rs : list Reply) (x : EndpointEntry) :
  step earliest e (SConnected (Err err) id) t (PConnect ep au) = Some (t', ph', rs) ->
  entry_of (tk_selector t) (ep_host ep) (ep_port ep) = Some x ->
  bk_attempt (tk_backoff t) <> umax 32 ->
  (ph' = PDone <->
     match err with
     | TrustFailed _ | KeyFailure _ => True
     | AuthFailed _ | AuthFailedDiagnostic _ => retry_auth_failures (pc_backoff (cfg t)) = false
     | _ => False
     end) /\
  (ph' = PDone \/ exists until, ph' = PSleep until) /\
  (let n := Z.min (en_consecutive_failures x + 1) (2 ^ 32 - 1) in
   entry_of (tk_selector t') (ep_host ep) (ep_port ep) =
     Some (mkEntry (en_ep x)
       (if es_fail_after (tk_selector t) <=? n
        then Some (ev_now e + 1000000000 * Z.min (n * es_cooldown_secs_per_failure (tk_selector t)) (2 ^ 64 - 1))
        else en_cooldown_until x) n)).
Proof.
  intros Hx He Hmax. cbn in Hx. unfold connected in Hx.
  assert (forall ev, tk_selector (handle_session_failure earliest ep (ev_now e) (fire ev t))
    = record_failure (tk_selector t) (ep_host ep) (ep_port ep) (ev_now e) (ev_now e)) as Hsel
    by (intros; by rewrite selector_failure, selector_fire).
  assert (entry_of (record_failure (tk_selector t) (ep_host ep) (ep_port ep) (ev_now e) (ev_now e))
    (ep_host ep) (ep_port ep) =
    Some (bench (es_fail_after (tk_selector t)) (es_cooldown_secs_per_failure (tk_selector t)) (ev_now e) x))
    as Hent by (rewrite entry_of_failure, He; done).
  rewrite bench_charge in Hent. cbn zeta in *. rewrite <- Hent. clear Hent.
  destruct (is_terminal_connect_error err) eqn:Et;
    [|destruct (is_auth_failure err && _) eqn:Ea].
  - injection Hx as <- <- <-. split_and!; [by destruct err|by left|].
    by rewrite !selector_fire, unpublish_selector, Hsel.
  - apply andb_true_iff in Ea as [Ea1 Ea2]. apply negb_true_iff in Ea2.
    injection Hx as <- <- <-. split_and!; [by destruct err|by left|].
    by rewrite !selector_fire, unpublish_selector, Hsel.
  - unfold back_off in Hx. pose proof (selector_backoff (ev_after e) (ev_jrng e)
      (handle_session_failure earliest ep (ev_now e) (fire EConnectFail t))) as Hb.
    assert (guarded (ev_now e) (ev_after e) t (handle_session_failure earliest ep (ev_now e) (fire EConnectFail t)))
      as Hg by (etrans; [apply quiet_guarded, quiet_fire|apply guarded_failure; by left]).
    pose proof (backoff_saturated _ _ (ev_after e) (ev_jrng e) _ _ Hg Hmax) as Hns.
    destruct (next_backoff _ _ _) as [[delay|] t2]; [|done].
    injection Hx as <- <- <-. cbn in Hb.
    split_and!; [|right; by eexists|by rewrite Hb, Hsel].
    split; [done|]. destruct err; try done; intros Hr; cbn in Ea; by rewrite Hr in Ea.
Qed.

(** how the attempt counter moves.  Every step of the task leaves the
    counter alone, raises it by one (saturating), or restarts it at one, the
    last only if forwards had come up at least [reset_after] earlier; and an
    exhausted backoff ends the profile at the next turn of the loop. *)
Theorem backoff_pace (conf : TaskConf A) (eps : list Endpoint) (reg : SessionRegistry) (rng : R)
    t (ph : Phase A) (e : Env R) (s : Stimulus P) t' (ph' : Phase A) (rs : list Reply) :
  (forall id row, reg !! id = Some row -> sr_profile row <> tc_name conf) ->
  reach earliest (task_init conf eps reg rng) t ph ->
  step earliest e s t ph = Some (t', ph', rs) ->
  (bk_attempt (tk_backoff t) <= bk_attempt (tk_backoff t') <= bk_attempt (tk_backoff t) + 1 \/
   (bk_attempt (tk_backoff t') = 1 /\
    exists since, tk_session_up_since t = Some since /\
      reset_after (pc_backoff (cfg t)) <= duration_since (ev_after e) since)) /\
  (ph = PTop -> s = STryEmpty -> exhausted (tk_backoff t) = true -> ph' = PDone).
Proof.
  intros Hreg Hr Hx. destruct (reach_inv _ _ _ _ (init_inv conf eps reg rng Hreg) Hr) as ((_ & _ & Hu) & _).
  split.
  - destruct (step_paced _ _ _ _ _ _ _ _ Hx) as [[Hb|[Hb|Hb]] _]; [left..|by right].
    + rewrite Hb. lia.
    + rewrite Hb. unfold sat_add, in_u in *. lia.
  - intros -> -> Hex. cbn in Hx. unfold loop_top in Hx. rewrite Hex in Hx. by injection Hx as _ <- _.
Qed.

Lemma allow_armed now t t1 :
  quiet t t1 -> (allow_instability_action now t1).1 = true ->
  tk_last_instability_action (allow_instability_action now t1).2 = Some now /\
  forall z, tk_last_instability_action t = Some z -> INSTABILITY_ACTION_MIN_INTERVAL <= duration_since now z.
Proof.
  intros (_ & _ & _ & E). unfold allow_instability_action. rewrite E. cbn. intros Ha. rewrite Ha.
  split; [done|]. intros z Hz. rewrite Hz in Ha. by bool_prop.
Qed.

Lemma trip_remedy now t :
  (on_instability_trip now t).1 <> Handled ->
  tk_last_instability_action (on_instability_trip now t).2 = Some now /\
  forall z, tk_last_instability_action t = Some z -> INSTABILITY_ACTION_MIN_INTERVAL <= duration_since now z.
Proof.
  unfold on_instability_trip. destruct (iw_action _); try done; set (t2 := fire EInstabilityHit _).
  - assert (quiet t t2) as Hq
      by (etrans; [apply quiet_emit|]; etrans; [apply quiet_emit|apply quiet_fire]).
    pose proof (allow_armed now t t2 Hq) as Ha. destruct (allow_instability_action now t2) as [[|] t3]; [|done].
    intros _. by apply Ha.
  - assert (quiet t t2) as Hq by (etrans; [apply quiet_emit|apply quiet_fire]).
    pose proof (allow_armed now t t2 Hq) as Ha. destruct (allow_instability_action now t2) as [[|] t3]; [|done].
    intros _. by apply Ha.
Qed.

(** the storm guard.  A successful probe that tears the live session down
    (the failover or restart remedy) records its instant, and that instant is
    at least ten seconds after the previous one recorded; no step records an
    instant closer than that, so live teardowns by instability are never less
    than ten seconds apart. *)
Theorem storm_guard t (a : ActiveState) (e : Env R) (started : Z) t' (ph' : Phase A) (rs : list Reply)
    (s : Stimulus P) t1 (ph ph1 : Phase A) (rs1 : list Reply) :
  step earliest e (SProbe started (Some (Ok tt))) t (PActive a) = Some (t', ph', rs) ->
  step earliest e s t ph = Some (t1, ph1, rs1) ->
  ((exists until, ph' = PSleep until) ->
   tk_last_instability_action t' = Some (ev_now e) /\
   forall z, tk_last_instability_action t = Some z ->
     INSTABILITY_ACTION_MIN_INTERVAL <= duration_since (ev_now e) z) /\
  (tk_last_instability_action t1 = tk_last_instability_action t \/
   exists n, (n = ev_now e \/ n = ev_after e) /\ tk_last_instability_action t1 = Some n /\
     forall z, tk_last_instability_action t = Some z ->
       INSTABILITY_ACTION_MIN_INTERVAL <= duration_since n z).
Proof.
  intros Hx Hx1. split; [|by destruct (step_paced _ _ _ _ _ _ _ _ Hx1)].
  intros [until ->].
  change (Some (probed earliest e a started (Some (Ok tt)) t) = Some (t', PSleep until, rs)) in Hx.
  apply (inj Some) in Hx. unfold probed in Hx.
  destruct (record_probe _ _) as [b d]. set (t2 := set_instability d t) in Hx.
  destruct b; [|by destruct (tick_healthy _ _)].
  pose proof (trip_remedy (ev_now e) t2) as Hrem.
  destruct (on_instability_trip (ev_now e) t2) as [o t3]. cbn [fst snd] in Hrem.
  assert (forall cool, tk_last_instability_action (leave_active earliest e a (DInstabilityAction cool) t3).1.1
    = tk_last_instability_action t3) as Hleave.
  { intros cool. unfold leave_active. cbn [act_on fst].
    destruct (quiet_unpublish (if cool then match tk_current_endpoint (fire ESessionLost t3) with
      | Some ep => set_selector (record_failure (tk_selector (fire ESessionLost t3)) (ep_host ep) (ep_port ep)
          (ev_after e) (ev_after e)) (fire ESessionLost t3) | None => fire ESessionLost t3 end
      else fire ESessionLost t3)) as (_ & _ & _ & ->).
    destruct (quiet_fire ESessionLost t3) as (_ & _ & _ & Hf).
    destruct cool; [destruct (tk_current_endpoint _)|]; exact Hf. }
  destruct o.
  - by destruct (tick_healthy _ _).
  - destruct Hrem as [H1 H2]; [done|]. specialize (Hleave true). split; [|exact H2].
    assert (leave_active earliest e a (DInstabilityAction true) t3 = (t', PSleep until, rs)) as E by exact Hx.
    rewrite E in Hleave. cbn in Hleave. by rewrite Hleave.
  - destruct Hrem as [H1 H2]; [done|]. specialize (Hleave false). split; [|exact H2].
    assert (leave_active earliest e a (DInstabilityAction false) t3 = (t', PSleep until, rs)) as E by exact Hx.
    rewrite E in Hleave. cbn in Hleave. by rewrite Hleave.
Qed.

(** a forward's change of state is never consumed.  Once a forward has
    changed its state the wait for changes stays ready, because it waits on a
    clone of the receiver: with any state but [Failed] or [Stopped], noticing
    the change brings the task back to exactly the configuration it was in,
    with the wait ready again, so the loop can turn without end. *)
Theorem forward_change_spins t (a a1 : ActiveState) (idx : nat) (st : ForwardState) (e e' : Env R) :
  step earliest e (SRunner idx st) t (PActive a) = Some (t, PActive a1, []) ->
  st <> FFailed -> st <> FStopped ->
  step earliest e' (SForward idx) t (PActive a1) = Some (t, PActive a1, []).
Proof.
  cbn. intros Hx H1 H2. destruct (runner_changed a idx st) as [a'|] eqn:Er; [|done].
  injection Hx as ->. unfold runner_changed in Er.
  destruct (as_forwards a !! idx) as [sl|] eqn:El; cbn in Er; [|done].
  destruct (sl_runner sl); [|done]. injection Er as <-. cbn.
  rewrite list_lookup_insert_eq by (by eapply lookup_lt_Some). cbn.
  unfold forward_changed. cbn. by destruct st.
Qed.

(** A concrete run, checking what the outside world guarantees. *)
Fixpoint run_steps (l : list (Env R * Stimulus P)) t (ph : Phase A) : option (ProfileTask P R A * Phase A) :=
  match l with
  | [] => Some (t, ph)
  | (e, s) :: l' =>
      if match s with
         | SConnected _ id => bool_decide (tk_registry t !! id = None)
         | SShared _ => false
         | _ => true
         end
      then '(t', ph', _) ← step earliest e s t ph; run_steps l' t' ph'
      else None
  end.

Lemma run_steps_reach t0 l t ph t' ph' :
  reach earliest t0 t ph -> run_steps l t ph = Some (t', ph') -> reach earliest t0 t' ph'.
Proof.
  revert t ph. induction l as [|[e s] l IH]; intros t ph Hr Hl; cbn in Hl; [by simplify_eq|].
  destruct (match s with SConnected _ _ => _ | _ => _ end) eqn:Ea; [|done].
  destruct (step earliest e s t ph) as [[[t1 ph1] rs]|] eqn:Es; cbn in Hl; [|done].
  eapply IH; [|exact Hl]. eapply reach_step; [exact Hr| |exact Es].
  destruct s; cbn; try done. by apply bool_decide_eq_true in Ea.
Qed.

End TaskProperties.

(** ** Example runs and witnesses *)

#[local] Instance demo_ps : PolicySelector (BoxedSelector (list Z)) := boxed_policy (fun _ => None).

Abbreviation DemoTask := (ProfileTask (BoxedSelector (list Z)) (list Z) unit).

Definition demo_sup_cfg : ProfileSupervisorConfig :=
  mkSupCfg BackoffConfig_default MPriority 1 (from_secs 5) SshHandshake
    (mkInstabilityWindow true (from_secs 60) 3 (from_secs 120) None (Some (from_secs 1)) MarkDegraded)
    (from_secs 30) (from_secs 10).

Definition demo_conf : TaskConf unit :=
  mkConf "office" tt ∅ [mkForward "web" None] demo_sup_cfg.

Definition demo_task : DemoTask := task_init demo_conf demo_eps ∅ [].

Definition at_ (n : Z) : Env (list Z) := mkEnv n n [] [].

(** Connect, open the forward, become active. *)
Definition demo_up : list (Env (list Z) * Stimulus (BoxedSelector (list Z))) :=
  [(at_ 0, STryEmpty); (at_ 1, SConnected (Ok "ssh2"%string) "s1");
   (at_ 2, SOpened (fun _ => Ok (FActive, false)))].

(** The forward dies and cannot be reopened, a slow probe trips the detector,
    two fast ones clear it. *)
Definition demo_hidden : list (Env (list Z) * Stimulus (BoxedSelector (list Z))) :=
  demo_up ++
  [(at_ 3, SRunner 0 FFailed); (at_ 4, SForward 0);
   (at_ (from_secs 1), SReopen (fun _ => Err (LocalBindFailed "127.0.0.1:80" "in use")));
   (at_ (from_secs 10), SProbe (from_secs 7) (Some (Ok tt)));
   (at_ (from_secs 100), SProbe (from_secs 100) (Some (Ok tt)));
   (at_ (from_secs 260), SProbe (from_secs 260) (Some (Ok tt)))].

(** The task after a run. *)
Definition after (l : list (Env (list Z) * Stimulus (BoxedSelector (list Z)))) : DemoTask * Phase unit :=
  default (demo_task, PTop) (run_steps 0 l demo_task PTop).

Lemma demo_reach l :
  run_steps 0 l demo_task PTop <> None -> reach 0 demo_task (after l).1 (after l).2.
Proof.
  unfold after. destruct (run_steps 0 l demo_task PTop) as [[t ph]|] eqn:E; [|done]. intros _.
  eapply run_steps_reach; [apply reach_init|exact E].
Qed.

Lemma demo_registry_empty :
  forall id row, (∅ : SessionRegistry) !! id = Some row -> sr_profile row <> tc_name demo_conf.
Proof. intros id row Hl. by rewrite lookup_empty in Hl. Qed.

(** the state can hide a dead forward.  There is a run that ends in [Active]
    with no trip pending although a forward is down and waiting to be reopened:
    an instability trip while degraded, followed by its clearing, forgets the
    degradation. *)
Theorem degraded_hidden :
  exists t a, reach 0 demo_task t (PActive a) /\ state t = Active /\ tk_state_tx t = Active /\
    is_unstable (tk_instability t) = false /\ as_degraded a = true /\
    forallb slot_is_healthy (as_forwards a) = false.
Proof.
  assert (run_steps 0 demo_hidden demo_task PTop <> None) as Hr by (by vm_compute).
  assert (exists a, (after demo_hidden).2 = PActive a /\ as_degraded a = true /\
    forallb slot_is_healthy (as_forwards a) = false) as (a & Ha & Hd & Hf)
    by (eexists; vm_compute; by split_and!).
  exists (after demo_hidden).1, a. rewrite <- Ha. split_and!; [by apply demo_reach|done..].
Qed.

(** An operator's close leaves the uptime mark of the closed session behind. *)
Lemma uptime_mark_survives_close :
  exists t until, reach 0 demo_task t (PSleep until) /\ tk_current_session t = None /\
    tk_session_up_since t = Some 2.
Proof.
  exists (after (demo_up ++ [(at_ 3, SControl (Some CCloseSession))])).1, 3.
  assert ((after (demo_up ++ [(at_ 3, SControl (Some CCloseSession))])).2 = PSleep 3) as <- by (by vm_compute).
  split_and!; [by apply demo_reach; vm_compute|done..].
Qed.

(** A forward's death is announced twice on the event channel. *)
Lemma forward_death_announced_twice :
  tk_events (after (demo_up ++ [(at_ 3, SRunner 0 FFailed); (at_ 4, SForward 0)])).1 =
  tk_events (after demo_up).1 ++ [StateChanged "office" Active Degraded; StateChanged "office" Active Degraded].
Proof. vm_compute. reflexivity. Qed.

Lemma driver_invariant_witness : state (after demo_up).1 ∈ [Active; Degraded; Unstable].
Proof.
  destruct (driver_invariant 0 demo_conf demo_eps ∅ [] (after demo_up).1 (after demo_up).2)
    as (_ & _ & Hs & _).
  - exact demo_registry_empty.
  - apply demo_reach. vm_compute. discriminate.
  - exact Hs.
Defined.

Lemma stop_everywhere_witness :
  exists t' rs, step 0 (at_ 5) (SControl (Some (CDrain 0))) (after demo_up).1 (after demo_up).2
    = Some (t', PDone, rs) /\ state t' = Stopped /\ tk_current_session t' = None /\
    by_profile (tk_registry t') (name t') = [] /\ (CDrain 0 <> CShutdown -> exists r, rs = [RDrained r]).
Proof.
  apply (stop_everywhere 0 demo_conf demo_eps ∅ [] (after demo_up).1 (after demo_up).2 (at_ 5) (CDrain 0)).
  - exact demo_registry_empty.
  - apply demo_reach. vm_compute. discriminate.
  - right. exists 0. reflexivity.
Defined.

(** The first endpoint of the example. *)
Definition demo_ep : Endpoint := mkEndpoint "a" 22 None 0 1.

Lemma connect_error_policy_witness :
  exists t' rs, step 0 (at_ 1) (SConnected (Err (KeyFailure "bad key")) "s1")
    (after [(at_ 0, STryEmpty)]).1 (PConnect demo_ep tt) = Some (t', PDone, rs).
Proof.
  destruct (step 0 (at_ 1) (SConnected (Err (KeyFailure "bad key")) "s1")
    (after [(at_ 0, STryEmpty)]).1 (PConnect demo_ep tt)) as [[[t' ph'] rs]|] eqn:E; [|discriminate E].
  destruct (connect_error_policy 0 (after [(at_ 0, STryEmpty)]).1 demo_ep tt (at_ 1) (KeyFailure "bad key") "s1"
    t' ph' rs (mkEntry demo_ep None 0)) as [Hd _].
  - exact E.
  - vm_compute. reflexivity.
  - vm_compute. discriminate.
  - exists t', rs. destruct Hd as [_ Hd]. rewrite Hd; [reflexivity|exact I].
Defined.

(** A connect that fails once. *)
Definition demo_fail : list (Env (list Z) * Stimulus (BoxedSelector (list Z))) :=
  [(at_ 0, STryEmpty); (at_ 1, SConnected (Err (NetworkUnreachable "no route")) "s1")].

Lemma backoff_pace_witness :
  bk_attempt (tk_backoff (after [(at_ 0, STryEmpty)]).1) <= bk_attempt (tk_backoff (after demo_fail).1)
    <= bk_attempt (tk_backoff (after [(at_ 0, STryEmpty)]).1) + 1.
Proof.
  destruct (backoff_pace 0 demo_conf demo_eps ∅ [] (after [(at_ 0, STryEmpty)]).1 (PConnect demo_ep tt) (at_ 1)
    (SConnected (Err (NetworkUnreachable "no route")) "s1") (after demo_fail).1 (after demo_fail).2 [])
    as [[Hb|(_ & since & Hs & _)] _].
  - exact demo_registry_empty.
  - apply (demo_reach [(at_ 0, STryEmpty)]). vm_compute. discriminate.
  - vm_compute. reflexivity.
  - exact Hb.
  - discriminate Hs.
Defined.

(** The restart remedy on a slow probe. *)
Definition demo_restart_conf : TaskConf unit :=
  mkConf "office" tt ∅ [mkForward "web" None]
    (mkSupCfg BackoffConfig_default MPriority 1 (from_secs 5) SshHandshake
       (mkInstabilityWindow true (from_secs 60) 3 (from_secs 120) None (Some (from_secs 1)) ARestartSession)
       (from_secs 30) (from_secs 10)).

Definition demo_restart : DemoTask * Phase unit :=
  default (demo_task, PTop) (run_steps 0 demo_up (task_init demo_restart_conf demo_eps ∅ []) PTop).

Lemma storm_guard_witness :
  exists t' a until rs, demo_restart.2 = PActive a /\
    step 0 (at_ (from_secs 10)) (SProbe (from_secs 7) (Some (Ok tt))) demo_restart.1 (PActive a)
    = Some (t', PSleep until, rs) /\ tk_last_instability_action t' = Some (from_secs 10).
Proof.
  destruct demo_restart.2 as [| | |a| | |] eqn:Ea; try (vm_compute in Ea; discriminate Ea).
  destruct (step 0 (at_ (from_secs 10)) (SProbe (from_secs 7) (Some (Ok tt))) demo_restart.1 (PActive a))
    as [[[t' ph'] rs]|] eqn:E; [|discriminate E].
  assert (exists until, ph' = PSleep until) as Hp.
  { vm_compute in Ea. injection Ea as <-. vm_compute in E. injection E as _ <- _. eexists. reflexivity. }
  destruct (storm_guard 0 demo_restart.1 a (at_ (from_secs 10)) (from_secs 7) t' ph' rs
    (SProbe (from_secs 7) (Some (Ok tt))) t' (PActive a) ph' rs E E) as [Hg _].
  destruct (Hg Hp) as [Hl _]. destruct Hp as [until ->]. exists t', a, until, rs. auto.
Defined.

Lemma forward_change_spins_witness :
  exists a1, step 0 (at_ 9) (SForward 0) (after demo_up).1 (PActive a1) = Some ((after demo_up).1, PActive a1, []).
Proof.
  exists (mkActive [mkSlot true FListening true "web" (Some (mkForward "web" None))] false None).
  apply (forward_change_spins 0 (after demo_up).1
    (mkActive [mkSlot true FActive false "web" (Some (mkForward "web" None))] false None) _ 0 FListening (at_ 3)).
  - reflexivity.
  - discriminate.
  - discriminate.
Defined.
