(* ===== verification/Lives.v ===== *)
(** * The lives of a profile's supervisors

    [Profile] runs one task by itself, the closing of a session in one step.
    Here the awaits of the teardown are points of their own
    ([ProfileTask::run_active] after its loop, and the failed [open_forwards]
    of [run]), a [ProfileSupervisor] can be dropped, which aborts its task at
    whatever await it stands (crates/spt-supervisor/src/profile.rs, [Drop]),
    and any number of supervisors of one profile share the session registry,
    as they do when [profile_start] displaces a running one
    (crates/spt-bin/src/controller.rs).  The main theorem says which rows the
    registry holds in every such interleaving. *)


From S2P Require Import Prelude Float StateMachine Reconnect Instability Errors Endpoint RoundRobin Failover Session Profile.

#[local] Open Scope Z_scope.

Section Lives.
Context {P : Type} `{PolicySelector P} {R : Type} `{Rng R} {A : Type}.
Context (earliest : Z).
Abbreviation Task := (ProfileTask P R A).
Implicit Types t : Task.

(** ** The teardown of a session, await by await *)

(** What [run_active] does with its decision before the first await. *)
Definition teardown_begin (d : ActiveDecision) t : Task * list Reply :=
  match d with
  | DShutdownExit | DDrain _ => (t, [])
  | DFailover o =>
      let '(res, t1) := apply_manual_override o t in
      (fire ESessionLost (emit_failover_requested o t1), [RFailover res])
  | DCloseSession | DSessionLost | DInstabilityAction _ => (fire ESessionLost t, [])
  end.

(** ... and after the runners and the session are closed. *)
Definition teardown_end (e : Env R) (a : ActiveState) (d : ActiveDecision) t : Outcome LoopAction * Task * list Reply :=
  match d with
  | DShutdownExit => (Return Exit, t, [])
  | DFailover _ => (Return (Retry 0), t, [])
  | DCloseSession => (Return (Retry 0), t, [RClosed])
  | DDrain joined =>
      let runners := List.filter sl_runner (as_forwards a) in
      let report := drain_runners (imap (fun i s =>
        (forward_is_terminal (sl_state s), default false (joined !! i))) runners) in
      (Return Exit, t, [RDrained report])
  | DSessionLost =>
      let t2 := match tk_current_endpoint t with
                | Some ep => handle_session_failure earliest ep (ev_after e) t
                | None => t
                end in
      let '(delay, t3) := next_backoff (ev_after e) (ev_jrng e) t2 in
      (outcome_map Retry delay, t3, [])
  | DInstabilityAction cool =>
      let t2 := if cool then
                  match tk_current_endpoint t with
                  | Some ep =>
                      set_selector (record_failure (tk_selector t) (ep_host ep) (ep_port ep)
                                      (ev_after e) (ev_after e)) t
                  | None => t
                  end
                else t in
      (Return (Retry 0), t2, [])
  end.

(** Back in [run]: the row goes only now. *)
Definition after_teardown (e : Env R) (a : ActiveState) (d : ActiveDecision) t : Stepped (P := P) (R := R) (A := A) :=
  let '(action, t1, rs) := teardown_end e a d t in
  match action with
  | Return Exit => finish (unpublish_session t1) rs
  | Return (Retry delay) => (unpublish_session t1, PSleep (ev_after e + delay), rs)
  | Panic => (t1, PPanicked, rs)
  end.

Lemma leave_active_split e a d t :
  leave_active earliest e a d t
  = let '(t1, rs1) := teardown_begin d t in
    let '(t2, ph, rs2) := after_teardown e a d t1 in (t2, ph, rs1 ++ rs2).
Proof.
  unfold leave_active, after_teardown. destruct d as [|o| |j| |cool]; cbn; try done.
  - by destruct (apply_manual_override o t).
  - destruct (next_backoff _ _ _) as [[delay|] t3]; done.
Qed.

(** The decision with which an iteration of the [select!] breaks its loop. *)
Definition decision (e : Env R) (s : Stimulus P) t : option (ActiveDecision * Task) :=
  match s with
  | SControl None | SControl (Some CShutdown) => Some (DShutdownExit, t)
  | SControl (Some (CFailover o)) => Some (DFailover o, t)
  | SControl (Some CCloseSession) => Some (DCloseSession, t)
  | SControl (Some (CDrain _)) => Some (DDrain (ev_joined e), t)
  | SProbe started r =>
      if probe_possible e started r (cfg t) then
        match r with
        | Some (Ok _) =>
            let '(tripped, d) := record_probe (tk_instability t) (Some (duration_since (ev_now e) started)) in
            let t1 := set_instability d t in
            match if tripped then on_instability_trip (ev_now e) t1 else (Handled, t1) with
            | (FailoverRotate, t2) => Some (DInstabilityAction true, t2)
            | (RestartSession, t2) => Some (DInstabilityAction false, t2)
            | (Handled, _) => None
            end
        | _ =>
            let '(tripped, d) := record_probe (tk_instability t) None in
            let t1 := set_instability d t in
            Some (DSessionLost, if tripped then (on_instability_trip (ev_now e) t1).2 else t1)
        end
      else None
  | _ => None
  end.

Lemma decision_leaves e s t a d t' :
  decision e s t = Some (d, t') -> step earliest e s t (PActive a) = Some (leave_active earliest e a d t').
Proof.
  destruct s as [m| | | |r|started r| | | | | | | |]; cbn; try done.
  - destruct m as [[]|]; cbn; by intros [= <- <-].
  - destruct (probe_possible _ _ _ _); [|done]. unfold probed. destruct r as [[]|].
    1: destruct (record_probe _ _) as [tr d'], (if tr then _ else _) as [[] t2].
    all: try done; try by intros [= <- <-].
    all: destruct (record_probe _ _) as [tr d']; by intros [= <- <-].
Qed.

(** ** Where a task stands *)

Inductive Place :=
| At (ph : Phase A)
| Tearing (a : ActiveState) (d : ActiveDecision)
| Abandoning (ep : Endpoint).

(** What can happen next: one of the task's stimuli, or the end of the close. *)
Inductive Move := Stim (s : Stimulus P) | Closed.

Definition at_place (x : Stepped (P := P) (R := R) (A := A)) : Task * Place * list Reply :=
  let '(t, ph, rs) := x in (t, At ph, rs).

(** The stimuli that do not wait for the task. *)
Definition ambient (e : Env R) (s : Stimulus P) t : option Task := (fun x => x.1.1) <$> step earliest e s t PDone.

Definition place_step (e : Env R) (m : Move) t (pl : Place) : option (Task * Place * list Reply) :=
  match pl, m with
  | At (PActive a), Stim s =>
      match decision e s t with
      | Some (d, t') => let '(t1, rs) := teardown_begin d t' in Some (t1, Tearing a d, rs)
      | None => at_place <$> step earliest e s t (PActive a)
      end
  | At (POpen ep), Stim (SOpened start) =>
      match open_forwards 0 start (tc_forwards (tk_conf t)) with
      | Err _ => Some (unpublish_session (fire ESessionLost t), Abandoning ep, [])
      | Ok _ => at_place <$> step earliest e (SOpened start) t (POpen ep)
      end
  | At ph, Stim s => at_place <$> step earliest e s t ph
  | Tearing a d, Closed => Some (at_place (after_teardown e a d t))
  | Abandoning ep, Closed => Some (at_place (back_off e (handle_session_failure earliest ep (ev_after e) t) []))
  | _, Stim s => (fun t' => (t', pl, [])) <$> ambient e s t
  | _, Closed => None
  end.

(** The detailed steps refine those of [Profile]: with nothing between the two
    halves of a close, they are one step of the task. *)
Lemma place_step_refines e s t ph t1 pl rs :
  place_step e (Stim s) t (At ph) = Some (t1, pl, rs) ->
  match pl with
  | At ph' => step earliest e s t ph = Some (t1, ph', rs)
  | _ => exists t2 ph' rs', place_step e Closed t1 pl = Some (t2, At ph', rs') /\
           step earliest e s t ph = Some (t2, ph', rs ++ rs')
  end.
Proof.
  assert (forall x, at_place <$> x = Some (t1, pl, rs) ->
    match pl with At ph' => x = Some (t1, ph', rs) | _ => False end) as Hat.
  { intros [[[t2 ph2] rs2]|]; cbn; [|done]. by intros [= -> <- ->]. }
  destruct ph as [|ep au|ep|a|until| |]; cbn [place_step]; intros Hp.
  all: try (apply Hat in Hp; by destruct pl).
  - destruct s; try (apply Hat in Hp; by destruct pl).
    cbn [step]. unfold opened.
    destruct (open_forwards _ _ _) as [r|er] eqn:Eo.
    + apply Hat in Hp. destruct pl; try done. cbn [step] in Hp. unfold opened in Hp. by rewrite Eo in Hp.
    + injection Hp as <- <- <-. cbn [place_step].
      destruct (back_off _ _ _) as [[t2 ph2] rs2]. by exists t2, ph2, rs2.
  - destruct (decision e s t) as [[d t']|] eqn:Ed; [|apply Hat in Hp; by destruct pl].
    pose proof (decision_leaves _ _ _ a _ _ Ed) as Hs. rewrite leave_active_split in Hs.
    destruct (teardown_begin d t') as [t2 rs2]. injection Hp as <- <- <-. cbn [place_step].
    destruct (after_teardown e a d t2) as [[t3 ph3] rs3]. by exists t3, ph3, rs3.
Qed.

(** ** What a move does to the registry *)

(** The places at which the task's session is published. *)
Definition holds (pl : Place) : bool :=
  match pl with At (POpen _) | At (PActive _) | Tearing _ _ => true | _ => false end.

Definition agrees (pl : Place) t : Prop :=
  match pl with
  | At PPanicked => True
  | _ => if holds pl then is_Some (tk_current_session t) else tk_current_session t = None
  end.

(** The session id a move comes with. *)
Definition offers (m : Move) : option string :=
  match m with Stim (SConnected _ id) => Some id | _ => None end.

(** Nothing, the publication of a session under the id at hand, or the removal
    of the current one. *)
Inductive effect (o : option string) t t' : Prop :=
| effect_none : tk_registry t' = tk_registry t -> tk_current_session t' = tk_current_session t -> effect o t t'
| effect_publish id row :
    o = Some id -> tk_current_session t = None -> tk_current_session t' = Some id -> sr_id row = id -> sr_profile row = name t ->
    tk_registry t' = <[id := row]> (tk_registry t) -> effect o t t'
| effect_unpublish id :
    tk_current_session t = Some id -> tk_current_session t' = None -> tk_registry t' = delete id (tk_registry t) -> effect o t t'.

(** The effect of a move, with the configuration kept and the place in step. *)
Definition lawful (o : option string) t (x : Task * Place * list Reply) : Prop :=
  tk_conf x.1.1 = tk_conf t /\ effect o t x.1.1 /\ agrees x.1.2 x.1.1.

Lemma lawful_keeps o t t' pl pl' rs :
  keeps t t' -> agrees pl t -> pl <> At PPanicked -> (pl' = At PPanicked \/ holds pl' = holds pl) -> lawful o t (t', pl', rs).
Proof.
  intros (Hc & Hr & Hs & _) Ha Hpl Hpl'. split_and!; cbn; [done|by apply effect_none|].
  assert (if holds pl then is_Some (tk_current_session t) else tk_current_session t = None) as Hx
    by (destruct pl as [[]| |]; done).
  destruct Hpl' as [->|Hh]; [done|]. rewrite <- Hh, <- Hs in Hx. destruct pl' as [[]| |]; done.
Qed.

Lemma lawful_unpublish o t t1 t' pl rs :
  keeps t t1 -> keeps (unpublish_session t1) t' -> holds pl = false -> lawful o t (t', pl, rs).
Proof.
  intros (Hc & Hr & Hs & _) (Hc' & Hr' & Hs' & _) Hpl.
  assert (tk_current_session t' = None /\ tk_conf t' = tk_conf t1) as [Hn Hct].
  { rewrite Hs', Hc'. unfold unpublish_session. by destruct (tk_current_session t1) eqn:E. }
  split_and!; cbn; [congruence| |by destruct pl as [[]| |]].
  unfold unpublish_session in *. rewrite Hs in *. destruct (tk_current_session t) as [id|] eqn:E.
  - apply (effect_unpublish _ _ _ id); [done..|]. rewrite Hr'. cbn. by rewrite Hr.
  - apply effect_none; congruence.
Qed.

Lemma unpublish_idle t : tk_current_session t = None -> unpublish_session t = t.
Proof. intros E. unfold unpublish_session. by rewrite E. Qed.

Lemma lawful_finish o t t1 rs : keeps t t1 -> lawful o t (at_place (finish t1 rs)).
Proof. intros Hk. eapply lawful_unpublish; [exact Hk| |done]. unfold cleanup_session. etrans; apply keeps_fire. Qed.

Lemma lawful_back_off o e t t1 pl rs :
  keeps t t1 -> agrees pl t -> pl <> At PPanicked -> holds pl = false -> lawful o t (at_place (back_off e t1 rs)).
Proof.
  intros Hk Ha Hn Hh. unfold back_off. pose proof (keeps_backoff (ev_after e) (ev_jrng e) t1) as Hb.
  destruct (next_backoff _ _ t1) as [[d|] t2]; (eapply lawful_keeps; [by etrans|exact Ha|done|]); [by right|by left].
Qed.

Lemma keeps_teardown_begin d t : keeps t (teardown_begin d t).1.
Proof.
  destruct d as [|o| | | |]; cbn; try done; try apply keeps_fire.
  pose proof (keeps_override o t). destruct (apply_manual_override o t) as [res t1]. cbn in *.
  etrans; [done|]. etrans; [apply keeps_emit|apply keeps_fire].
Qed.

Lemma keeps_teardown_end e a d t : keeps t (teardown_end e a d t).1.2.
Proof.
  destruct d as [|o| | | |cool]; cbn; try done.
  - set (t2 := match tk_current_endpoint t with Some _ => _ | None => _ end).
    assert (keeps t t2) as Hk by (subst t2; destruct (tk_current_endpoint t); [apply keeps_failure|done]).
    pose proof (keeps_backoff (ev_after e) (ev_jrng e) t2) as Hb. destruct (next_backoff _ _ t2). cbn in *. by etrans.
  - by destruct cool, (tk_current_endpoint t).
Qed.

Lemma lawful_after_teardown o e a d t : agrees (Tearing a d) t -> lawful o t (at_place (after_teardown e a d t)).
Proof.
  intros Ha. unfold after_teardown. pose proof (keeps_teardown_end e a d t) as Hk.
  destruct (teardown_end e a d t) as [[[[delay|]|] t1] rs]; cbn in Hk.
  - eapply lawful_unpublish; [exact Hk|reflexivity|done].
  - eapply (lawful_unpublish _ t t1); [done| |done]. unfold cleanup_session.
    etrans; [|etrans; apply keeps_fire].
    rewrite (unpublish_idle (unpublish_session t1)); [done|]. unfold unpublish_session. by destruct (tk_current_session t1) eqn:E.
  - eapply lawful_keeps; [done|exact Ha|done|by left].
Qed.

Lemma keeps_decision e s t d t' : decision e s t = Some (d, t') -> keeps t t'.
Proof.
  destruct s as [m| | | |r|started r| | | | | | | |]; cbn; try done.
  - destruct m as [[]|]; cbn; by intros [= <- <-].
  - destruct (probe_possible _ _ _ _); [|done].
    assert (forall dd, keeps t (set_instability dd t)) as Hi by (by intros; split_and!).
    destruct r as [[]|].
    1: destruct (record_probe _ _) as [[] d'].
    1: pose proof (keeps_trip (ev_now e) (set_instability d' t)) as Ht; destruct (on_instability_trip _ _) as [[] t2].
    all: try done; try (by intros [= <- <-]; etrans; [apply Hi|exact Ht]).
    all: destruct (record_probe _ _) as [[] d']; intros [= <- <-]; [|done]; etrans; [apply Hi|apply keeps_trip].
Qed.

(** What goes on beside the task keeps it where it is. *)
Lemma step_ambient e s t ph x :
  match s with STakeEvent | SDropEvents | SSetPolicy _ => true | _ => false end = true ->
  step earliest e s t ph = Some x -> exists t', keeps t t' /\ x = (t', ph, []).
Proof.
  intros Ea Hx. destruct s; try done.
  all: destruct ph; injection Hx as <-; eexists; (split; [|reflexivity]); split_and!; try done;
    intros (H1 & H2 & H3); split_and!; try done; cbn.
  all: destruct (tk_events t); cbn [tail length] in *; lia.
Qed.

Lemma step_lawful e s t ph x :
  agrees (At ph) t -> (forall r, s <> SShared r) -> ph <> PPanicked ->
  match ph with PActive _ => decision e s t = None | _ => True end ->
  match ph, s with POpen _, SOpened start => exists r, open_forwards 0 start (tc_forwards (tk_conf t)) = Ok r | _, _ => True end ->
  step earliest e s t ph = Some x -> lawful (offers (Stim s)) t (at_place x).
Proof.
  intros Ha Hsh Hnp Hd Ho Hx.
  assert (forall t' rs, keeps t t' -> lawful (offers (Stim s)) t (at_place (t', ph, rs))) as Hstay.
  { intros t' rs Hk. by eapply lawful_keeps; [exact Hk|exact Ha|congruence|right]. }
  destruct (match s with STakeEvent | SDropEvents | SSetPolicy _ => true | _ => false end) eqn:Ea.
  { destruct (step_ambient _ _ _ _ _ Ea Hx) as (t' & Hk & ->). by apply Hstay. }
  destruct ph as [|ep au|ep|a|until| |], s; cbn in Hx, Ea; try done; try (by destruct (Hsh r)).
  - destruct m as [[|o| |g|]|]; try done; cbn in Hx; try (injection Hx as <-; first [by apply lawful_finish|by apply Hstay]).
    pose proof (keeps_override o t) as Hk. destruct (apply_manual_override o t) as [res t1]. injection Hx as <-. apply Hstay. cbn in Hk.
    etrans; [exact Hk|apply keeps_emit].
  - unfold loop_top in Hx. destruct (exhausted _); [injection Hx as <-; apply lawful_finish, keeps_emit|].
    destruct (pick_endpoint_spec (ev_now e) (enter_resolving t)) as (o & t1 & Ep & Hp & _). rewrite Ep in Hx.
    pose proof (keeps_enter t) as He. destruct o as [ep|]; injection Hx as <-.
    + eapply lawful_keeps; [|exact Ha|done|by right]. etrans; [exact He|]. etrans; [exact Hp|apply keeps_fire].
    + eapply lawful_back_off; [|exact Ha|done|done]. etrans; [exact He|]. etrans; [exact Hp|apply keeps_fire].
  - injection Hx as <-. destruct m as [[|o| |g|]|]; cbn; try (by apply lawful_finish); try (by eapply lawful_keeps; [reflexivity|exact Ha|done|right]).
    pose proof (keeps_override o t) as Hk. destruct (apply_manual_override o t) as [res t1].
    eapply lawful_keeps; [exact Hk|exact Ha|done|by right].
  - injection Hx as <-. unfold connected. destruct r as [backend|err].
    + cbn [agrees holds] in Ha. set (t2 := set_current_endpoint _ _).
      assert (keeps t t2) as (Hc & Hr & Hs & _).
      { etrans; [|apply (keeps_fire EAuthOk)]. etrans; [|apply (keeps_fire EConnectOk)]. by split_and!. }
      split_and!; [exact Hc| |by eexists]. cbn [at_place fst]. unfold publish_session.
      set (row := mkRow _ _ _ _ _ _ _ _ _). apply (effect_publish _ _ _ id row); [done..| |].
      * cbn. unfold name. by rewrite Hc.
      * cbn [tk_registry set_current_session set_registry]. by rewrite Hr.
    + assert (forall ev, keeps t (handle_session_failure earliest ep (ev_now e) (fire ev t))) as Hk
        by (intros ev; etrans; [apply keeps_fire|apply keeps_failure]).
      destruct (is_terminal_connect_error err); [by apply lawful_finish|].
      destruct (_ && _); [by apply lawful_finish|by eapply lawful_back_off; [|exact Ha| |]].
  - injection Hx as <-. destruct Ho as [r Ho]. unfold opened. rewrite Ho.
    eapply lawful_keeps; [|exact Ha|done|by right]. etrans; [apply (keeps_fire EForwardsUp)|by split_and!].
  - destruct m as [[]|]; done.
  - injection Hx as <-. by apply Hstay.
  - cbn [decision] in Hd. destruct (probe_possible _ _ _ _); [|done]. injection Hx as <-. unfold probed.
    destruct r as [[u|err]|]; [|by destruct (record_probe _ _)..].
    destruct (record_probe _ _) as [b d]. set (t1 := set_instability d t) in *.
    assert (keeps t (if b then on_instability_trip (ev_now e) t1 else (Handled, t1)).2) as Hk.
    { destruct b; [|by split_and!]. etrans; [|apply keeps_trip]. by split_and!. }
    destruct (if b then _ else _) as [[] t2]; [|done..]. destruct (tick_healthy _ _) as [c d'].
    eapply lawful_keeps; [|exact Ha|done|by right]. destruct c; [|etrans; [exact Hk|by split_and!]].
    etrans; [|apply keeps_fire]. etrans; [|apply keeps_emit]. etrans; [exact Hk|by split_and!].
  - destruct (runner_changed a idx st) as [a'|]; [|done]. injection Hx as <-. eapply lawful_keeps; [reflexivity|exact Ha|done|by right].
  - destruct (as_forwards a !! idx) as [sl|]; cbn in Hx; [|done]. destruct (sl_unseen sl); [|done]. injection Hx as <-.
    unfold forward_changed. destruct (_ && _); [|by apply Hstay]. eapply lawful_keeps; [|exact Ha|done|by right].
    destruct (as_degraded a); [done|]. etrans; [apply keeps_fire|apply keeps_emit].
  - destruct (as_reopen_at a) as [d|]; cbn in Hx; [|done]. destruct (d <=? ev_now e); [|done]. injection Hx as <-.
    unfold reopened. destruct (_ && _); [|destruct (negb _)]; eapply lawful_keeps; try exact Ha; try done; try (by right). apply keeps_fire.
  - injection Hx as <-. destruct m as [[|o| |g|]|]; cbn; try (by apply lawful_finish); try (by eapply lawful_keeps; [reflexivity|exact Ha|done|right]).
    pose proof (keeps_override o t) as Hk. destruct (apply_manual_override o t) as [res t1]. cbn in Hk.
    eapply lawful_keeps; [|exact Ha|done|by right]. etrans; [exact Hk|apply keeps_emit].
  - destruct (until <=? ev_now e); [|done]. injection Hx as <-. eapply lawful_keeps; [reflexivity|exact Ha|done|by right].
Qed.

Lemma place_step_lawful e m t pl x :
  agrees pl t -> (forall r, m <> Stim (SShared r)) -> pl <> At PPanicked -> place_step e m t pl = Some x -> lawful (offers m) t x.
Proof.
  intros Ha Hm Hnp Hx.
  assert (forall s y, m = Stim s -> (fun t' => (t', pl, [])) <$> ambient e s t = Some y -> lawful (offers m) t y) as Hamb.
  { intros s y -> Hy. unfold ambient in Hy. destruct (step earliest e s t PDone) as [z|] eqn:Es; [|done].
    assert (match s with STakeEvent | SDropEvents | SSetPolicy _ => true | _ => false end = true) as Ea
      by (destruct s; try done; by destruct (Hm r)).
    destruct (step_ambient _ _ _ _ _ Ea Es) as (t' & Hk & ->). injection Hy as <-.
    eapply lawful_keeps; [exact Hk|exact Ha|done|by right]. }
  assert (forall s ph y, m = Stim s -> pl = At ph ->
    match ph with PActive _ => decision e s t = None | _ => True end ->
    match ph, s with POpen _, SOpened start => exists r, open_forwards 0 start (tc_forwards (tk_conf t)) = Ok r | _, _ => True end ->
    at_place <$> step earliest e s t ph = Some y -> lawful (offers m) t y) as Hat.
  { intros s ph y -> -> Hd Ho Hy. destruct (step earliest e s t ph) as [z|] eqn:Es; [|done]. injection Hy as <-.
    eapply (step_lawful _ s); [exact Ha|intros r Hr; apply (Hm r); by rewrite Hr|congruence|exact Hd|exact Ho|exact Es]. }
  destruct pl as [ph|a d|ep], m as [s|]; cbn [place_step] in Hx; try (by eapply Hamb).
  - destruct ph as [|ep au|ep|a|until| |]; try (by eapply Hat).
    + destruct s; try (by eapply Hat). destruct (open_forwards _ _ _) as [r|er] eqn:Eo.
      * eapply Hat; try done. by exists r.
      * injection Hx as <-. eapply lawful_unpublish; [apply keeps_fire|reflexivity|done].
    + destruct (decision e s t) as [[d t']|] eqn:Ed; [|by eapply Hat].
      pose proof (keeps_teardown_begin d t') as Hk. destruct (teardown_begin d t') as [t1 rs]. injection Hx as <-.
      eapply lawful_keeps; [|exact Ha|done|by right]. etrans; [by eapply keeps_decision|exact Hk].
  - by destruct ph.
  - injection Hx as <-. by apply lawful_after_teardown.
  - injection Hx as <-. eapply lawful_back_off; [apply keeps_failure|exact Ha|done|done].
Qed.

(** ** The supervisors of one profile *)

(** [Dropped]: the handle is gone and [abort] was called; the task still runs
    up to its next await.  [Gone]: the runtime has dropped the task there. *)
Inductive Life := Held | Dropped | Gone.

Record Sup := mkSup { sp_task : Task; sp_place : Place; sp_life : Life }.

(** The registry and every supervisor started so far. *)
Record World := mkWorld { w_registry : SessionRegistry; w_sups : list Sup }.

Inductive Happening :=
| Spawn (conf : TaskConf A) (eps : list Endpoint) (rng : R)
| Moves (i : nat) (e : Env R) (m : Move)
| DropSup (i : nat)
| CutOff (i : nat)
| Others (r : SessionRegistry).

(** [Drop for ProfileSupervisor] on a task that still runs. *)
Definition drop_supervisor (s : Sup) : Sup :=
  mkSup (sp_task s) (sp_place s) match sp_life s with Held => Dropped | l => l end.

Definition happen (h : Happening) (w : World) : option World :=
  match h with
  | Spawn conf eps rng =>
      Some (mkWorld (w_registry w) (w_sups w ++ [mkSup (task_init conf eps (w_registry w) rng) (At PTop) Held]))
  | Moves i e m =>
      s ← w_sups w !! i;
      match sp_life s, sp_place s with
      | Gone, _ | _, At PPanicked => None
      | _, _ =>
          '(t', pl', _) ← place_step e m (set_registry (w_registry w) (sp_task s)) (sp_place s);
          Some (mkWorld (tk_registry t') (<[i := mkSup t' pl' (sp_life s)]> (w_sups w)))
      end
  | DropSup i => s ← w_sups w !! i; Some (mkWorld (w_registry w) (<[i := drop_supervisor s]> (w_sups w)))
  | CutOff i =>
      s ← w_sups w !! i;
      match sp_life s with
      | Dropped => Some (mkWorld (w_registry w) (<[i := mkSup (sp_task s) (sp_place s) Gone]> (w_sups w)))
      | _ => None
      end
  | Others r => Some (mkWorld r (w_sups w))
  end.

Section Profile.
Context (profile : string).

(** All supervisors are of this profile, a session id is fresh, and the other
    profiles leave its rows alone. *)
Definition allowed (h : Happening) (w : World) : Prop :=
  match h with
  | Spawn conf _ _ => tc_name conf = profile
  | Moves _ _ (Stim (SConnected _ id)) => w_registry w !! id = None
  | Moves _ _ (Stim (SShared _)) => False
  | Others r => forall id row, sr_profile row = profile -> (r !! id = Some row <-> w_registry w !! id = Some row)
  | _ => True
  end.

(** From a registry without rows of the profile and before any start. *)
Inductive world_reach : World -> Prop :=
| world_init r : (forall id row, r !! id = Some row -> sr_profile row <> profile) -> world_reach (mkWorld r [])
| world_next w h w' : world_reach w -> allowed h w -> happen h w = Some w' -> world_reach w'.

Definition session_of (s : Sup) : option string := tk_current_session (sp_task s).

(** Every session held by a task has its row, every row of the profile is some
    task's session, and no two tasks hold the same. *)
Definition registered (r : SessionRegistry) (ss : list Sup) : Prop :=
  (forall i s, ss !! i = Some s -> name (sp_task s) = profile /\ agrees (sp_place s) (sp_task s)
     /\ forall id, session_of s = Some id -> exists row, r !! id = Some row /\ sr_id row = id /\ sr_profile row = profile) /\
  (forall i j s s' id, ss !! i = Some s -> ss !! j = Some s' -> session_of s = Some id -> session_of s' = Some id -> i = j) /\
  (forall id row, r !! id = Some row -> sr_profile row = profile -> exists i s, ss !! i = Some s /\ session_of s = Some id).

Lemma session_of_sup t pl l : session_of (mkSup t pl l) = tk_current_session t.
Proof. done. Qed.

Lemma registered_keep r ss i s t' pl' l :
  registered r ss -> ss !! i = Some s -> name t' = profile -> agrees pl' t' -> tk_current_session t' = session_of s ->
  registered r (<[i := mkSup t' pl' l]> ss).
Proof.
  intros (H1 & H2 & H3) Hi Hn Ha Hs. destruct (H1 _ _ Hi) as (_ & _ & Hrow). split_and!.
  - intros j sj [(<- & <- & Hl)|[Hne Hj]]%list_lookup_insert_Some; [|by apply (H1 j)].
    split_and!; [done|done|]. rewrite session_of_sup, Hs. exact Hrow.
  - intros j k sj sk id Hj Hk Ej Ek.
    apply list_lookup_insert_Some in Hj as [(<- & <- & _)|[Hj1 Hj]], Hk as [(<- & <- & _)|[Hk1 Hk]]; rewrite ?session_of_sup in *; rewrite ?Hs in *; eauto.
  - intros id row Hr Hp. destruct (H3 _ _ Hr Hp) as (j & sj & Hj & Ej). destruct (decide (i = j)) as [<-|Hne].
    + exists i. eexists. split; [apply list_lookup_insert_eq; by eapply lookup_lt_Some|]. rewrite session_of_sup. congruence.
    + exists j, sj. split; [by rewrite list_lookup_insert_ne|done].
Qed.

Lemma registered_publish r ss i s t' pl' l id row :
  registered r ss -> ss !! i = Some s -> name t' = profile -> agrees pl' t' ->
  session_of s = None -> tk_current_session t' = Some id -> r !! id = None -> sr_id row = id -> sr_profile row = profile ->
  registered (<[id := row]> r) (<[i := mkSup t' pl' l]> ss).
Proof.
  intros (H1 & H2 & H3) Hi Hn Ha Hs Hs' Hf Hid Hp.
  assert (forall j sj id', ss !! j = Some sj -> session_of sj = Some id' -> id' <> id) as Hne.
  { intros j sj id' Hj Ej ->. destruct (H1 _ _ Hj) as (_ & _ & Hx). destruct (Hx _ Ej) as (? & ? & _). congruence. }
  split_and!.
  - intros j sj [(<- & <- & Hl)|[Hij Hj]]%list_lookup_insert_Some.
    + split_and!; [done|done|]. rewrite session_of_sup, Hs'. intros ? [= <-]. exists row. by rewrite lookup_insert_eq.
    + destruct (H1 _ _ Hj) as (? & ? & Hx). split_and!; [done|done|]. intros id' Ej. rewrite lookup_insert_ne; [by apply Hx|].
      symmetry. by eapply Hne.
  - intros j k sj sk id' Hj Hk Ej Ek.
    apply list_lookup_insert_Some in Hj as [(<- & <- & _)|[Hj1 Hj]], Hk as [(<- & <- & _)|[Hk1 Hk]]; [done| | |by eapply H2].
    + rewrite session_of_sup, Hs' in Ej. injection Ej as <-. by destruct (Hne _ _ _ Hk Ek).
    + rewrite session_of_sup, Hs' in Ek. injection Ek as <-. by destruct (Hne _ _ _ Hj Ej).
  - intros id' row' [[<- <-]|[Hne' Hr]]%lookup_insert_Some Hp'.
    + exists i. eexists. split; [apply list_lookup_insert_eq; by eapply lookup_lt_Some|done].
    + destruct (H3 _ _ Hr Hp') as (j & sj & Hj & Ej). exists j, sj. split; [|done].
      rewrite list_lookup_insert_ne; [done|]. intros <-. congruence.
Qed.

Lemma registered_unpublish r ss i s t' pl' l id :
  registered r ss -> ss !! i = Some s -> name t' = profile -> agrees pl' t' ->
  session_of s = Some id -> tk_current_session t' = None ->
  registered (delete id r) (<[i := mkSup t' pl' l]> ss).
Proof.
  intros (H1 & H2 & H3) Hi Hn Ha Hs Hs'. split_and!.
  - intros j sj [(<- & <- & Hl)|[Hij Hj]]%list_lookup_insert_Some.
    + split_and!; [done|done|]. by rewrite session_of_sup, Hs'.
    + destruct (H1 _ _ Hj) as (? & ? & Hx). split_and!; [done|done|]. intros id' Ej. rewrite lookup_delete_ne; [by apply Hx|].
      intros <-. by apply Hij, (H2 _ _ _ _ id Hi Hj).
  - intros j k sj sk id' Hj Hk Ej Ek.
    apply list_lookup_insert_Some in Hj as [(<- & <- & _)|[Hj1 Hj]], Hk as [(<- & <- & _)|[Hk1 Hk]]; rewrite ?session_of_sup in *; try congruence. by eapply H2.
  - intros id' row' [Hne Hr]%lookup_delete_Some Hp. destruct (H3 _ _ Hr Hp) as (j & sj & Hj & Ej). exists j, sj. split; [|done].
    rewrite list_lookup_insert_ne; [done|]. intros <-. congruence.
Qed.

Lemma registered_move o r ss i s x l :
  registered r ss -> ss !! i = Some s -> lawful o (set_registry r (sp_task s)) x ->
  (forall id, o = Some id -> r !! id = None) ->
  registered (tk_registry x.1.1) (<[i := mkSup x.1.1 x.1.2 l]> ss).
Proof.
  intros Hr Hi (Hc & He & Ha) Hf. pose proof Hr as (H1 & _). destruct (H1 _ _ Hi) as (Hn & _).
  assert (name x.1.1 = profile) as Hn' by (unfold name in *; rewrite Hc; done).
  destruct He as [Hreg Hs|id row Ho Hs Hs' Hid Hp Hreg|id Hs Hs' Hreg]; rewrite Hreg; cbn in *.
  - by eapply registered_keep.
  - eapply registered_publish; try done; [by apply Hf|]. by rewrite Hp.
  - by eapply registered_unpublish.
Qed.

Lemma init_task (conf : TaskConf A) eps reg (rng : R) :
  tk_current_session (task_init (P := P) conf eps reg rng) = None /\ tk_conf (task_init (P := P) conf eps reg rng) = conf.
Proof.
  unfold task_init. set (t0 := mkTask _ _ _ _ _ _ _ _ _ _ _ _ _ _). destruct (keeps_fire EStart t0) as (Hc & _ & Hs & _).
  split; [exact Hs|exact Hc].
Qed.

Lemma world_registered w : world_reach w -> registered (w_registry w) (w_sups w).
Proof.
  induction 1 as [r Hr|w h w' _ IH Hal Hh]; [split_and!; [done..|intros id row Hl Hp; by destruct (Hr _ _ Hl)]|].
  destruct h as [conf eps rng|i e m|i|i|r]; cbn in Hal, Hh.
  - injection Hh as <-. cbn. destruct IH as (H1 & H2 & H3).
    set (s0 := mkSup _ _ _).
    assert (session_of s0 = None /\ name (sp_task s0) = profile) as [E0 N0].
    { destruct (init_task conf eps (w_registry w) rng) as [Hs Hc]. split; [exact Hs|]. transitivity (tc_name conf); [exact (f_equal tc_name Hc)|exact Hal]. }
    split_and!.
    + intros i s [[_ Hi]|[-> <-]]%lookup_snoc_Some; [by eapply H1|]. split_and!; [done|exact E0|]. rewrite E0. done.
    + intros i j s s' id [[_ Hi]|[-> <-]]%lookup_snoc_Some [[_ Hj]|[-> <-]]%lookup_snoc_Some; try congruence. by eapply H2.
    + intros id row Hl Hp. destruct (H3 _ _ Hl Hp) as (i & s & Hi & Es). exists i, s. split; [|done]. by apply lookup_app_l_Some.
  - destruct (w_sups w !! i) as [s|] eqn:Hi; [|done]. cbn in Hh.
    assert (sp_place s <> At PPanicked) as Hp by (intros E; rewrite E in Hh; by destruct (sp_life s)).
    assert (exists x, place_step e m (set_registry (w_registry w) (sp_task s)) (sp_place s) = Some x /\
      w' = mkWorld (tk_registry x.1.1) (<[i := mkSup x.1.1 x.1.2 (sp_life s)]> (w_sups w))) as (x & Hx & ->).
    { destruct (sp_life s), (sp_place s) as [[]| |]; try done;
        (destruct (place_step _ _ _ _) as [[[t' pl'] rs]|] eqn:E; [|done]); injection Hh as <-; by eexists. }
    pose proof IH as (H1 & _). destruct (H1 _ _ Hi) as (_ & Ha & _). cbn.
    apply (registered_move (offers m) (w_registry w) _ _ s); [done|done| |].
    + eapply place_step_lawful; [exact Ha| |exact Hp|exact Hx]. intros r ->. done.
    + intros id Ho. destruct m as [[]|]; try done. by injection Ho as <-.
  - destruct (w_sups w !! i) as [s|] eqn:Hi; [|done]. injection Hh as <-. pose proof IH as (H1 & _).
    destruct (H1 _ _ Hi) as (? & ? & _). by eapply registered_keep.
  - destruct (w_sups w !! i) as [s|] eqn:Hi; [|done]. pose proof IH as (H1 & _).
    destruct (H1 _ _ Hi) as (? & ? & _). cbn in Hh. destruct (sp_life s); try done. injection Hh as <-. by eapply registered_keep.
  - injection Hh as <-. cbn. destruct IH as (H1 & H2 & H3). split_and!; [|done|].
    + intros i s Hi. destruct (H1 _ _ Hi) as (? & ? & Hx). split_and!; [done..|]. intros id Es.
      destruct (Hx _ Es) as (row & Hl & ? & Hp). exists row. split_and!; [by apply Hal|done..].
    + intros id row Hl Hp. eapply H3; [by apply Hal|done].
Qed.

(** ** The registry in every interleaving *)

Lemma by_profile_NoDup r :
  (forall id row, r !! id = Some row -> sr_profile row = profile -> sr_id row = id) -> NoDup (by_profile r profile).
Proof.
  intros Hid. unfold by_profile.
  assert (forall l : list (string * SessionRow), NoDup l -> (forall p, p ∈ l -> r !! p.1 = Some p.2) ->
    NoDup (List.filter (fun row => String.eqb (sr_profile row) profile) l.*2)) as Hl.
  { induction l as [|[id row] l IH]; [constructor|]. rewrite NoDup_cons. intros [Hn Hd] Hin. cbn.
    assert (NoDup (List.filter (fun row => String.eqb (sr_profile row) profile) l.*2)) as Hrec by (apply IH; [done|]; intros p Hp; apply Hin; by right).
    destruct (String.eqb_spec (sr_profile row) profile) as [E|]; [|done]. constructor; [|done].
    rewrite elem_of_filter_bool. intros [([id' row'] & -> & Hp)%list_elem_of_fmap _]. cbn in *.
    pose proof (Hid _ _ (Hin (id, row') ltac:(by left)) E) as E1. pose proof (Hid _ _ (Hin (id', row') ltac:(by right)) E) as E2.
    cbn in E1, E2. by subst. }
  apply Hl; [apply NoDup_map_to_list|]. intros [id row] Hp. by apply elem_of_map_to_list in Hp.
Qed.

(** The rows of the sessions the tasks hold. *)
Definition session_rows (w : World) : list SessionRow :=
  omap (fun s => session_of s ≫= fun id => w_registry w !! id) (w_sups w).

Lemma session_rows_NoDup w : registered (w_registry w) (w_sups w) -> NoDup (session_rows w).
Proof.
  intros (H1 & H2 & _). unfold session_rows.
  assert (forall i s row, w_sups w !! i = Some s -> session_of s ≫= (fun id => w_registry w !! id) = Some row ->
    session_of s = Some (sr_id row)) as Hid.
  { intros i s row Hi Hr. destruct (session_of s) as [id|] eqn:E; [|done]. cbn in Hr.
    destruct (H1 _ _ Hi) as (_ & _ & Hx). destruct (Hx _ E) as (row' & Hl & <- & _). congruence. }
  revert H2 Hid. clear H1. generalize (w_sups w). induction l as [|s l IH]; intros H2 Hid; [constructor|].
  assert (NoDup (omap (fun s => session_of s ≫= fun id => w_registry w !! id) l)) as Hrec.
  { apply IH; [|intros i; apply (Hid (S i))]. intros i j s1 s2 id Hi Hj E1 E2.
    pose proof (H2 (S i) (S j) s1 s2 id Hi Hj E1 E2). lia. }
  cbn. destruct (session_of s ≫= _) as [row|] eqn:E; [|done]. constructor; [|done].
  intros (s' & [j Hj]%list_elem_of_lookup & E')%list_elem_of_omap.
  pose proof (H2 0%nat (S j) s s' (sr_id row) eq_refl Hj (Hid 0%nat s row eq_refl E) (Hid (S j) s' row Hj E')). lia.
Qed.

(** C2: the session registry is exact.  Over any interleaving of starts, drops
    and steps of the supervisors of one profile and of changes by other
    profiles, from a registry without rows of the profile: its rows are exactly
    one for each task that holds a session, and a task holds one exactly while
    it opens forwards, is active or closes the session (the row goes only after
    the close).  A task that was aborted counts where it was cut off: its row
    stays for good if its session was up, so the rows are those of the current
    supervisor alone only if no supervisor was dropped with its session up. *)
Theorem session_registry_exact w :
  world_reach w ->
  by_profile (w_registry w) profile ≡ₚ session_rows w /\
  (forall i s, w_sups w !! i = Some s ->
     match sp_place s with
     | At (POpen _) | At (PActive _) | Tearing _ _ =>
         exists row, session_of s = Some (sr_id row) /\ w_registry w !! sr_id row = Some row /\ sr_profile row = profile
     | At PPanicked => True
     | _ => session_of s = None
     end) /\
  (forall s, last (w_sups w) = Some s ->
     (forall i s', w_sups w !! i = Some s' -> S i <> length (w_sups w) -> session_of s' = None) ->
     by_profile (w_registry w) profile = option_list (session_of s ≫= fun id => w_registry w !! id)).
Proof.
  intros Hr%world_registered. pose proof Hr as (H1 & H2 & H3).
  assert (by_profile (w_registry w) profile ≡ₚ session_rows w) as Hperm.
  { apply NoDup_Permutation; [apply by_profile_NoDup|by apply session_rows_NoDup|].
    - intros id row Hl Hp. destruct (H3 _ _ Hl Hp) as (i & s & Hi & Es). destruct (H1 _ _ Hi) as (_ & _ & Hx).
      destruct (Hx _ Es) as (row' & Hl' & <- & _). congruence.
    - intros row. rewrite elem_of_by_profile. unfold session_rows. rewrite list_elem_of_omap. split.
      + intros [Hp [id Hl]]. destruct (H3 _ _ Hl Hp) as (i & s & Hi & Es). exists s. rewrite Es. split; [by eapply list_elem_of_lookup_2|done].
      + intros (s & [i Hi]%list_elem_of_lookup & Es). destruct (H1 _ _ Hi) as (_ & _ & Hx).
        destruct (session_of s) as [id|] eqn:E; [|done]. destruct (Hx _ eq_refl) as (row' & Hl & Hid & Hp). cbn in Es.
        assert (row' = row) as -> by congruence. eauto. }
  split_and!; [exact Hperm| |].
  - intros i s Hi. destruct (H1 _ _ Hi) as (_ & Ha & Hx).
    assert (is_Some (session_of s) -> exists row, session_of s = Some (sr_id row) /\ w_registry w !! sr_id row = Some row /\ sr_profile row = profile) as Hrow.
    { intros [id E]. destruct (Hx _ E) as (row & Hl & <- & Hp). by exists row. }
    unfold agrees in Ha. destruct (sp_place s) as [[]| |]; cbn in Ha; auto.
  - intros s Hs Ho. apply last_Some in Hs as [ss Hs]. unfold session_rows in Hperm. rewrite Hs in Hperm, Ho.
    rewrite omap_app in Hperm. assert (omap (fun s => session_of s ≫= fun id => w_registry w !! id) ss = []) as E.
    { apply elem_of_nil_inv. intros row (s' & [i Hi]%list_elem_of_lookup & Es')%list_elem_of_omap.
      rewrite (Ho i s') in Es'; [done|by apply lookup_app_l_Some|]. rewrite length_app. cbn.
      apply lookup_lt_Some in Hi. lia. }
    rewrite E in Hperm. cbn in Hperm. destruct (session_of s ≫= _) as [row|]; cbn in *.
    + by apply Permutation_singleton_r in Hperm.
    + by apply Permutation_nil_r in Hperm.
Qed.

(** What an abort leaves behind stays: whatever happens next, the row of a task
    that was cut off with its session up is still in the registry. *)
Theorem abort_leaves_row w i s id h w' :
  world_reach w -> w_sups w !! i = Some s -> sp_life s = Gone -> session_of s = Some id ->
  allowed h w -> happen h w = Some w' ->
  w_sups w' !! i = Some s /\ exists row, w_registry w' !! id = Some row /\ sr_profile row = profile.
Proof.
  intros Hr Hi Hg Hs Ha Hh.
  assert (forall j s1 s2, w_sups w !! j = Some s1 -> (sp_life s1 = Gone -> s2 = s1) -> <[j := s2]> (w_sups w) !! i = Some s) as Hput.
  { intros j s1 s2 Hj Hsame. destruct (decide (j = i)) as [->|Hne]; [|by rewrite list_lookup_insert_ne].
    rewrite list_lookup_insert_eq by (by eapply lookup_lt_Some). f_equal. assert (s1 = s) as -> by congruence. auto. }
  assert (w_sups w' !! i = Some s) as Hi'.
  { destruct h as [conf eps rng|j e m|j|j|r]; cbn in Hh.
    - injection Hh as <-. by apply lookup_app_l_Some.
    - destruct (w_sups w !! j) as [sj|] eqn:Hj; [|done]. cbn in Hh.
      destruct (sp_life sj) eqn:El, (sp_place sj) as [[]| |]; try done;
        (destruct (place_step _ _ _ _) as [[[t' pl'] rs]|]; [|done]); injection Hh as <-; (eapply Hput; [done|congruence]).
    - destruct (w_sups w !! j) as [sj|] eqn:Hj; [|done]. injection Hh as <-. eapply Hput; [done|].
      intros E. unfold drop_supervisor. rewrite E. destruct sj. cbn in *. by subst.
    - destruct (w_sups w !! j) as [sj|] eqn:Hj; [|done]. cbn in Hh. destruct (sp_life sj) eqn:E; try done. injection Hh as <-.
      eapply Hput; [done|]. congruence.
    - by injection Hh as <-. }
  split; [done|]. destruct (world_registered w') as (H1 & _ & _); [by eapply world_next|].
  destruct (H1 _ _ Hi') as (_ & _ & Hx). destruct (Hx _ Hs) as (row & Hl & _ & Hp). eauto.
Qed.

(** A run, with the freshness of session ids checked. *)
Fixpoint world_run (hs : list Happening) (w : World) : option World :=
  match hs with
  | [] => Some w
  | h :: hs =>
      if match h with
         | Spawn conf _ _ => String.eqb (tc_name conf) profile
         | Moves _ _ (Stim (SConnected _ id)) => bool_decide (w_registry w !! id = None)
         | Moves _ _ (Stim (SShared _)) | Others _ => false
         | _ => true
         end
      then w' ← happen h w; world_run hs w'
      else None
  end.

Lemma world_run_reach hs w w' : world_reach w -> world_run hs w = Some w' -> world_reach w'.
Proof.
  revert w. induction hs as [|h hs IH]; intros w Hr Hh; cbn in Hh; [by simplify_eq|].
  destruct (match h with Spawn _ _ _ => _ | _ => _ end) eqn:Ea; [|done].
  destruct (happen h w) as [w1|] eqn:E; [|done]. eapply IH; [|exact Hh]. eapply world_next; [exact Hr| |exact E].
  destruct h as [conf eps rng|i e [[]|]|i|i|r]; cbn in *; try done; [by apply String.eqb_eq|by apply bool_decide_eq_true in Ea].
Qed.

End Profile.
End Lives.

(** ** A started profile is started again *)

#[local] Instance lives_ps : PolicySelector (BoxedSelector (list Z)) := boxed_policy (fun _ => None).

Abbreviation LivesHappening := (Happening (P := BoxedSelector (list Z)) (R := list Z) (A := unit)).

(** Connect, open the forward, become active. *)
Definition comes_up (i : nat) (id : string) : list LivesHappening :=
  [Moves i (at_ 0) (Stim STryEmpty); Moves i (at_ 1) (Stim (SConnected (Ok "ssh2"%string) id));
   Moves i (at_ 2) (Stim (SOpened (fun _ => Ok (FActive, false))))].

Definition shuts_down (i : nat) : list LivesHappening :=
  [Moves i (at_ 5) (Stim (SControl (Some CShutdown))); Moves i (at_ 6) Closed].

Definition demo_spawn : LivesHappening := Spawn demo_conf demo_eps [].

(** [profile_start] on a running profile, and a graceful end of the new task. *)
Definition started_twice : list LivesHappening :=
  demo_spawn :: comes_up 0 "s1" ++ [DropSup 0; demo_spawn; CutOff 0] ++ comes_up 1 "s2" ++ shuts_down 1.

Definition world_after (hs : list LivesHappening) : World :=
  default (mkWorld ∅ []) (world_run 0 "office" hs (mkWorld ∅ [])).

Lemma world_after_reach hs : is_Some (world_run 0 "office" hs (mkWorld ∅ [])) -> world_reach 0 "office" (world_after hs).
Proof.
  intros [w Hw]. unfold world_after. rewrite Hw. eapply world_run_reach; [|exact Hw]. apply world_init.
  intros id row Hl. by rewrite lookup_empty in Hl.
Qed.

(** While the session closes its row is still listed; a graceful end removes it. *)
Example closing_is_listed :
  sr_id <$> by_profile (w_registry (world_after (demo_spawn :: comes_up 0 "s1" ++ take 1 (shuts_down 0)))) "office" = ["s1"%string]
  /\ by_profile (w_registry (world_after (demo_spawn :: comes_up 0 "s1" ++ shuts_down 0))) "office" = [].
Proof. vm_compute. done. Qed.

(** No task of the profile runs any more, and the registry still lists the
    session of the displaced one. *)
Example start_on_running_leaves_row :
  sr_id <$> by_profile (w_registry (world_after started_twice)) "office" = ["s1"%string]
  /\ (sp_life <$> w_sups (world_after started_twice)) = [Gone; Held]
  /\ match sp_place <$> last (w_sups (world_after started_twice)) with Some (At PDone) => True | _ => False end.
Proof. vm_compute. done. Qed.

Lemma session_registry_exact_witness :
  by_profile (w_registry (world_after started_twice)) "office" ≡ₚ session_rows (world_after started_twice).
Proof.
  apply (session_registry_exact 0 "office" (world_after started_twice)).
  apply world_after_reach. vm_compute. eexists. reflexivity.
Defined.
