(* ===== verification/Config.v ===== *)
(** * Configurations and their difference

    Models [Config], [Profile] and [Forward] of
    [crates/spt-config/src/schema.rs], as far as the supervisor tells them
    apart, and [crates/spt-config/src/diff.rs].  The sub-tables are compared
    and handed on, never looked into: they are values of a type [Tbl] with
    decidable equality.  Of a forward the name is told apart; its other fields
    are one value. *)

From S2P Require Import Prelude.

Section Schema.
Context {Tbl : Type}.

Record Forward := mkForward { f_name : string; f_fields : Tbl }.

Record Profile := mkProfile {
  p_name : string;
  p_description : option string;
  p_enabled : option bool;
  p_protocol : string;
  p_host : option string;
  p_port : option Z;
  p_endpoint : option string;
  p_acknowledge_experimental : option bool;
  p_user : option string;
  p_connect_timeout : option string;
  p_dns_resolution : option string;
  p_network_change_reconnect : option bool;
  p_startup : option string;
  p_failure_policy : option string;
  p_tags : option (list string);
  p_connection : option Tbl;
  p_crypto : option Tbl;
  p_auth : option Tbl;
  p_trust : option Tbl;
  p_tls : option Tbl;
  p_ssh3 : option Tbl;
  p_keepalive : option Tbl;
  p_reconnect : option Tbl;
  p_instability : option Tbl;
  p_failover : option Tbl;
  p_limits : option Tbl;
  p_endpoints : list Tbl;
  p_hops : list Tbl;
  p_forwards : list Forward;
  p_sftp_mounts : list Tbl;
  p_script : option Tbl;
  p_transport : option Tbl
}.

Record Config := mkConfig {
  c_version : Z;
  c_runtime : option Tbl;
  c_logging : option Tbl;
  c_secrets : option Tbl;
  c_dns : option Tbl;
  c_firewall : option Tbl;
  c_network : option Tbl;
  c_observability : option Tbl;
  c_events : option Tbl;
  c_mcp : option Tbl;
  c_mem_hygiene : option Tbl;
  c_updater : option Tbl;
  c_diagnostics : option Tbl;
  c_benchmark : option Tbl;
  c_capabilities : option Tbl;
  c_service : option Tbl;
  c_round_robin : Tbl;
  c_status_api : Tbl;
  c_profiles : list Profile
}.
End Schema.
Arguments Forward : clear implicits.
Arguments Profile : clear implicits.
Arguments Config : clear implicits.

Inductive ChangeKind := Added | Removed | Modified.
Record Change := mkChange { ch_kind : ChangeKind; ch_path : string }.

Section Diff.
Context {Tbl : Type} `{!EqDecision Tbl}.

#[export] Instance Forward_eq_dec : EqDecision (Forward Tbl).
Proof. solve_decision. Defined.

(** [if a != b] of the macros: one [Modified] at [path]. *)
Definition changed {A} `{!EqDecision A} (path : string) (a b : A) : list Change :=
  if decide (a = b) then [] else [mkChange Modified path].

(** [names.contains(name)]. *)
Definition contains_name (n : string) (l : list string) : bool := bool_decide (n ∈ l).

(** [iter().find(|x| x.name == n)]. *)
Definition find_forward (n : string) (l : list (Forward Tbl)) : option (Forward Tbl) :=
  find (fun f => String.eqb (f_name f) n) l.
Definition find_profile (n : string) (l : list (Profile Tbl)) : option (Profile Tbl) :=
  find (fun p => String.eqb (p_name p) n) l.

Definition forwards_path (prefix name : string) : string := (prefix +:+ ".forwards[" +:+ name +:+ "]")%string.
Definition profile_path (name : string) : string := ("profiles[" +:+ name +:+ "]")%string.

(** [diff_forwards] of [diff.rs]. *)
Definition config_diff_forwards (prefix : string) (a b : list (Forward Tbl)) : list Change :=
  let a_names := f_name <$> a in
  let b_names := f_name <$> b in
  (collect (fun n => if contains_name n b_names then [] else [mkChange Removed (forwards_path prefix n)]) a_names)
  ++ (collect (fun n => if contains_name n a_names then [] else [mkChange Added (forwards_path prefix n)]) b_names)
  ++ (collect (fun af => match find_forward (f_name af) b with
                 | Some bf => changed (forwards_path prefix (f_name af)) af bf
                 | None => []
                 end) a).

Definition diff_profile (a b : Profile Tbl) : list Change :=
  let p := profile_path (p_name a) in
  changed (p +:+ ".description")%string (p_description a) (p_description b) ++
  changed (p +:+ ".enabled")%string (p_enabled a) (p_enabled b) ++
  changed (p +:+ ".protocol")%string (p_protocol a) (p_protocol b) ++
  changed (p +:+ ".host")%string (p_host a) (p_host b) ++
  changed (p +:+ ".port")%string (p_port a) (p_port b) ++
  changed (p +:+ ".endpoint")%string (p_endpoint a) (p_endpoint b) ++
  changed (p +:+ ".acknowledge_experimental")%string (p_acknowledge_experimental a) (p_acknowledge_experimental b) ++
  changed (p +:+ ".user")%string (p_user a) (p_user b) ++
  changed (p +:+ ".connect_timeout")%string (p_connect_timeout a) (p_connect_timeout b) ++
  changed (p +:+ ".dns_resolution")%string (p_dns_resolution a) (p_dns_resolution b) ++
  changed (p +:+ ".network_change_reconnect")%string (p_network_change_reconnect a) (p_network_change_reconnect b) ++
  changed (p +:+ ".startup")%string (p_startup a) (p_startup b) ++
  changed (p +:+ ".failure_policy")%string (p_failure_policy a) (p_failure_policy b) ++
  changed (p +:+ ".tags")%string (p_tags a) (p_tags b) ++
  changed (p +:+ ".connection")%string (p_connection a) (p_connection b) ++
  changed (p +:+ ".crypto")%string (p_crypto a) (p_crypto b) ++
  changed (p +:+ ".auth")%string (p_auth a) (p_auth b) ++
  changed (p +:+ ".trust")%string (p_trust a) (p_trust b) ++
  changed (p +:+ ".tls")%string (p_tls a) (p_tls b) ++
  changed (p +:+ ".ssh3")%string (p_ssh3 a) (p_ssh3 b) ++
  changed (p +:+ ".keepalive")%string (p_keepalive a) (p_keepalive b) ++
  changed (p +:+ ".reconnect")%string (p_reconnect a) (p_reconnect b) ++
  changed (p +:+ ".instability")%string (p_instability a) (p_instability b) ++
  changed (p +:+ ".failover")%string (p_failover a) (p_failover b) ++
  changed (p +:+ ".limits")%string (p_limits a) (p_limits b) ++
  changed (p +:+ ".endpoints")%string (p_endpoints a) (p_endpoints b) ++
  changed (p +:+ ".hops")%string (p_hops a) (p_hops b) ++
  changed (p +:+ ".sftp_mounts")%string (p_sftp_mounts a) (p_sftp_mounts b) ++
  changed (p +:+ ".script")%string (p_script a) (p_script b) ++
  changed (p +:+ ".transport")%string (p_transport a) (p_transport b) ++
  config_diff_forwards p (p_forwards a) (p_forwards b).

Definition diff_profiles (a b : Config Tbl) : list Change :=
  let a_names := p_name <$> c_profiles a in
  let b_names := p_name <$> c_profiles b in
  (collect (fun n => if contains_name n b_names then [] else [mkChange Removed (profile_path n)]) a_names)
  ++ (collect (fun n => if contains_name n a_names then [] else [mkChange Added (profile_path n)]) b_names)
  ++ (collect (fun ap => match find_profile (p_name ap) (c_profiles b) with
                 | Some bp => diff_profile ap bp
                 | None => []
                 end) (c_profiles a)).

Definition diff (a b : Config Tbl) : list Change :=
  changed "version" (c_version a) (c_version b) ++
  changed "runtime" (c_runtime a) (c_runtime b) ++
  changed "logging" (c_logging a) (c_logging b) ++
  changed "secrets" (c_secrets a) (c_secrets b) ++
  changed "dns" (c_dns a) (c_dns b) ++
  changed "firewall" (c_firewall a) (c_firewall b) ++
  changed "network" (c_network a) (c_network b) ++
  changed "observability" (c_observability a) (c_observability b) ++
  changed "events" (c_events a) (c_events b) ++
  changed "mcp" (c_mcp a) (c_mcp b) ++
  changed "updater" (c_updater a) (c_updater b) ++
  changed "diagnostics" (c_diagnostics a) (c_diagnostics b) ++
  changed "benchmark" (c_benchmark a) (c_benchmark b) ++
  changed "capabilities" (c_capabilities a) (c_capabilities b) ++
  changed "round_robin" (c_round_robin a) (c_round_robin b) ++
  changed "status_api" (c_status_api a) (c_status_api b) ++
  diff_profiles a b.
End Diff.

(** ** What a difference means *)

Section DiffLemmas.
Context {Tbl : Type} `{!EqDecision Tbl}.

(** The same forwards, whatever their order. *)
Definition forwards_same (a b : list (Forward Tbl)) : Prop := forall n, find_forward n a = find_forward n b.

(** A profile without its forwards. *)
Definition without_forwards (p : Profile Tbl) : Profile Tbl :=
  mkProfile (p_name p) (p_description p) (p_enabled p) (p_protocol p) (p_host p) (p_port p) (p_endpoint p) (p_acknowledge_experimental p) (p_user p) (p_connect_timeout p) (p_dns_resolution p) (p_network_change_reconnect p) (p_startup p) (p_failure_policy p) (p_tags p) (p_connection p) (p_crypto p) (p_auth p) (p_trust p) (p_tls p) (p_ssh3 p) (p_keepalive p) (p_reconnect p) (p_instability p) (p_failover p) (p_limits p) (p_endpoints p) (p_hops p) [] (p_sftp_mounts p) (p_script p) (p_transport p).

Definition profile_same (a b : Profile Tbl) : Prop :=
  without_forwards a = without_forwards b /\ forwards_same (p_forwards a) (p_forwards b).

(** A configuration without its profiles and without the two tables the
    comparison leaves out, [mem_hygiene] and [service]. *)
Definition compared_tables (c : Config Tbl) : Config Tbl :=
  mkConfig (c_version c) (c_runtime c) (c_logging c) (c_secrets c) (c_dns c) (c_firewall c) (c_network c) (c_observability c) (c_events c) (c_mcp c) None (c_updater c) (c_diagnostics c) (c_benchmark c) (c_capabilities c) None (c_round_robin c) (c_status_api c) [].

(** Names are unique, as the validator requires. *)
Definition config_ok (c : Config Tbl) : Prop :=
  NoDup (p_name <$> c_profiles c) /\ Forall (fun p => NoDup (f_name <$> p_forwards p)) (c_profiles c).

Lemma changed_nil {A} `{!EqDecision A} path (a b : A) : changed path a b = [] <-> a = b.
Proof. unfold changed. destruct (decide (a = b)); split; done. Qed.

Lemma contains_name_spec n l : contains_name n l = true <-> n ∈ l.
Proof. unfold contains_name. by rewrite bool_decide_eq_true. Qed.

(** The loops over the names of one side. *)
Lemma missing_nil (l names : list string) (f : string -> Change) :
  collect (fun n => if contains_name n names then [] else [f n]) l = [] <-> l ⊆ names.
Proof.
  rewrite collect_nil. split.
  - intros H n Hn. specialize (H n Hn). destruct (contains_name n names) eqn:E; [|done]. by apply contains_name_spec.
  - intros H n Hn. by rewrite (proj2 (contains_name_spec n names)) by (by apply H).
Qed.

(** Two lists of named items with the same names, each item found on the
    other side related to it. *)
Lemma named_same {A} (name : A -> string) (R : A -> A -> Prop) a b :
  NoDup (name <$> a) -> (forall x y, R x y -> name x = name y) ->
  name <$> a ⊆ name <$> b -> name <$> b ⊆ name <$> a ->
  ((forall x, x ∈ a -> match find (fun y => String.eqb (name y) (name x)) b with Some y => R x y | None => True end)
   <-> forall n, option_Forall2 R (find (fun y => String.eqb (name y) n) a) (find (fun y => String.eqb (name y) n) b)).
Proof.
  intros Hnd HR Hab Hba. split.
  - intros H n. destruct (find _ a) as [x|] eqn:Ea.
    + apply find_name in Ea as [Hx <-]. specialize (H x Hx).
      destruct (find _ b) as [y|] eqn:Eb; [by constructor|]. apply find_name_none in Eb.
      exfalso. apply Eb, Hab. by apply list_elem_of_fmap_2.
    + apply find_name_none in Ea. rewrite (proj2 (find_name_none name n b)) by (intros Hn; apply Ea, Hba, Hn). constructor.
  - intros H x Hx. specialize (H (name x)). rewrite (find_name_nodup name a x) in H by done.
    by inversion H as [? y ? E1 E2|].
Qed.

Lemma config_diff_forwards_nil prefix a b :
  NoDup (f_name <$> a) -> config_diff_forwards prefix a b = [] <-> forwards_same a b.
Proof.
  intros Hnd. unfold config_diff_forwards. rewrite !app_nil, !missing_nil, collect_nil. unfold forwards_same, find_forward. split.
  - intros (H1 & H2 & H3) n. pose proof (named_same f_name eq a b Hnd ltac:(congruence) H1 H2) as [Hs _].
    assert (option_Forall2 eq (find (fun y => String.eqb (f_name y) n) a) (find (fun y => String.eqb (f_name y) n) b)) as Hf.
    { apply Hs. intros x Hx. specialize (H3 x Hx). destruct (find _ b); [|done]. by apply changed_nil in H3. }
    inversion Hf; congruence.
  - intros H. assert (f_name <$> a ⊆ f_name <$> b /\ f_name <$> b ⊆ f_name <$> a) as [H1 H2].
    { split; intros n Hn; apply dec_stable; intros Hc; apply (find_name_none f_name) in Hc;
        [rewrite <- H in Hc|rewrite H in Hc]; by apply (find_name_none f_name) in Hc. }
    split_and!; try done. intros x Hx. rewrite <- H, (find_name_nodup f_name a x) by done. by apply changed_nil.
Qed.

Lemma diff_profile_nil a b :
  NoDup (f_name <$> p_forwards a) -> p_name a = p_name b -> diff_profile a b = [] <-> profile_same a b.
Proof.
  intros Hnd Hn. unfold diff_profile, profile_same. cbv zeta. rewrite !app_nil, !changed_nil, config_diff_forwards_nil by done.
  destruct a, b. cbn in *. unfold without_forwards. cbn. subst. split.
  - intros H. repeat match type of H with _ /\ _ => destruct H as [-> H] end. split; [reflexivity|done].
  - intros [E H]. injection E as E. split_and!; done.
Qed.

Lemma diff_profiles_nil a b :
  config_ok a ->
  diff_profiles a b = [] <->
  forall n, option_Forall2 profile_same (find_profile n (c_profiles a)) (find_profile n (c_profiles b)).
Proof.
  intros [Hnd Hf]. unfold diff_profiles. cbv zeta. rewrite !app_nil, !missing_nil, collect_nil.
  assert (HR : forall x y, profile_same x y -> p_name x = p_name y).
  { intros x y [E _]. by injection E. }
  assert (Hd : forall x, x ∈ c_profiles a ->
    (match find_profile (p_name x) (c_profiles b) with Some bp => diff_profile x bp | None => [] end = [])
    <-> match find_profile (p_name x) (c_profiles b) with Some bp => profile_same x bp | None => True end).
  { intros x Hx. destruct (find_profile (p_name x) (c_profiles b)) as [y|] eqn:E; [|done].
    apply (find_name p_name) in E as [_ E]. apply diff_profile_nil; [|done]. by eapply Forall_forall in Hf. }
  split.
  - intros (H1 & H2 & H3) n. apply (named_same p_name profile_same); try done. intros x Hx. by apply Hd, H3.
  - intros H. assert (p_name <$> c_profiles a ⊆ p_name <$> c_profiles b /\ p_name <$> c_profiles b ⊆ p_name <$> c_profiles a) as [H1 H2].
    { split; intros n Hn; apply dec_stable; intros Hc; apply (find_name_none p_name) in Hc;
        specialize (H n); unfold find_profile in H; rewrite Hc in H; inversion H as [|E1 E2];
        apply (find_name_none p_name n) in Hn; done. }
    split_and!; try done. intros x Hx. apply Hd; [done|].
    by apply (proj2 (named_same p_name profile_same (c_profiles a) (c_profiles b) Hnd HR H1 H2)).
Qed.
End DiffLemmas.

(** ** Properties *)

(** The reload difference is exact on what it compares.  For
    configurations with unique names it is empty exactly when the version, the
    fifteen tables it covers and the profiles agree, profiles and forwards
    matched by name whatever their order.  The tables [mem_hygiene] and
    [service] are not among them: a change there is invisible. *)
Theorem diff_exact {Tbl} `{!EqDecision Tbl} (a b : Config Tbl) :
  config_ok a ->
  diff a b = [] <->
  compared_tables a = compared_tables b
  /\ forall n, option_Forall2 profile_same (find_profile n (c_profiles a)) (find_profile n (c_profiles b)).
Proof.
  intros Ha. rewrite <- diff_profiles_nil by done. unfold diff. rewrite !app_nil, !changed_nil.
  unfold compared_tables. destruct a, b. cbn. split.
  - intros H. repeat match type of H with _ /\ _ => destruct H as [-> H] end. split; [reflexivity|done].
  - intros [E H]. injection E as E. split_and!; done.
Qed.

(** Small configurations over [Z] tables. *)
Definition demo_profile (name : string) (enabled : option bool) (host : string) (forwards : list (Forward Z)) : Profile Z :=
  mkProfile name None enabled "ssh2" (Some host) None None None None None None None None None None None None None None None None None None None None None [] [] forwards [] None None.

Definition demo_config (mem_hygiene : option Z) (profiles : list (Profile Z)) : Config Z :=
  mkConfig 1 None None None None None None None None None mem_hygiene None None None None None 0 0 profiles.

(** Reordered forwards and another [mem_hygiene] table: no difference. *)
Lemma diff_exact_witness :
  diff (demo_config (Some 1) [demo_profile "p" None "h" [mkForward "f" 1; mkForward "g" 2]])
       (demo_config (Some 2) [demo_profile "p" None "h" [mkForward "g" 2; mkForward "f" 1]]) = [].
Proof.
  apply diff_exact.
  - split; [|repeat constructor]; repeat constructor; set_solver.
  - split; [reflexivity|]. intros n. unfold find_profile. cbn [find c_profiles p_name demo_config demo_profile]. destruct (String.eqb "p" n); [|constructor].
    constructor. split; [reflexivity|]. intros m. unfold find_forward. cbn [find p_forwards f_name demo_profile].
    destruct (String.eqb "f" m) eqn:E1, (String.eqb "g" m) eqn:E2; bool_prop; congruence.
Defined.
