(* ===== verification/Reload.v ===== *)
(** * Reload plans

    Models [crates/spt-supervisor/src/reload.rs]: the list of actions that
    takes the supervised profiles from one configuration to the next.  The
    warnings and the notice about top-level tables are logging. *)

From S2P Require Import Prelude Config.

Inductive ReloadAction :=
| StartProfile (n : string)
| StopProfile (n : string)
| RestartProfile (n : string)
| AddForward (profile forward : string)
| RemoveForward (profile forward : string)
| RestartForward (profile forward : string).

Section Reload.
Context {Tbl : Type} `{!EqDecision Tbl}.

(** [diff_forwards] of [reload.rs]. *)
Definition diff_forwards (profile : string) (old new : list (Forward Tbl)) : list ReloadAction :=
  (collect (fun ofw => if existsb (fun nf => String.eqb (f_name nf) (f_name ofw)) new
              then [] else [RemoveForward profile (f_name ofw)]) old)
  ++ (collect (fun nf => match find_forward (f_name nf) old with
                 | None => [AddForward profile (f_name nf)]
                 | Some ofw => if decide (ofw = nf) then [] else [RestartForward profile (f_name nf)]
                 end) new).

Definition connection_level_changed (a b : Profile Tbl) : bool :=
  bool_decide (p_protocol a <> p_protocol b)
  || bool_decide (p_host a <> p_host b)
  || bool_decide (p_port a <> p_port b)
  || bool_decide (p_endpoint a <> p_endpoint b)
  || bool_decide (p_user a <> p_user b)
  || bool_decide (p_connect_timeout a <> p_connect_timeout b)
  || bool_decide (p_connection a <> p_connection b)
  || bool_decide (p_crypto a <> p_crypto b)
  || bool_decide (p_auth a <> p_auth b)
  || bool_decide (p_trust a <> p_trust b)
  || bool_decide (p_tls a <> p_tls b)
  || bool_decide (p_ssh3 a <> p_ssh3 b)
  || bool_decide (p_endpoints a <> p_endpoints b)
  || bool_decide (p_hops a <> p_hops b)
  || bool_decide (p_enabled a <> p_enabled b)
  || bool_decide (p_transport a <> p_transport b)
  || bool_decide (p_script a <> p_script b)
  || bool_decide (p_sftp_mounts a <> p_sftp_mounts b).

(** [warn_restart_only_changes]: the fields it names. *)
Definition restart_only_changes (a b : Profile Tbl) : list string :=
  (if bool_decide (p_keepalive a <> p_keepalive b) then ["keepalive"%string] else []) ++
  (if bool_decide (p_reconnect a <> p_reconnect b) then ["reconnect"%string] else []) ++
  (if bool_decide (p_instability a <> p_instability b) then ["instability"%string] else []) ++
  (if bool_decide (p_failover a <> p_failover b) then ["failover"%string] else []) ++
  (if bool_decide (p_limits a <> p_limits b) then ["limits"%string] else []) ++
  (if bool_decide (p_dns_resolution a <> p_dns_resolution b) then ["dns_resolution"%string] else []) ++
  (if bool_decide (p_network_change_reconnect a <> p_network_change_reconnect b) then ["network_change_reconnect"%string] else []) ++
  (if bool_decide (p_startup a <> p_startup b) then ["startup"%string] else []) ++
  (if bool_decide (p_failure_policy a <> p_failure_policy b) then ["failure_policy"%string] else []) ++
  (if bool_decide (p_acknowledge_experimental a <> p_acknowledge_experimental b) then ["acknowledge_experimental"%string] else []).

Definition disabled (p : Profile Tbl) : bool := bool_decide (p_enabled p = Some false).

(** [ReloadPlan::compute]. *)
Definition compute (old new : Config Tbl) : list ReloadAction :=
  let old_profiles := c_profiles old in
  let new_profiles := c_profiles new in
  (collect (fun op => if existsb (fun np => String.eqb (p_name np) (p_name op)) new_profiles
              then [] else [StopProfile (p_name op)]) old_profiles)
  ++ (collect (fun np => if existsb (fun op => String.eqb (p_name op) (p_name np)) old_profiles then []
                 else if disabled np then [] else [StartProfile (p_name np)]) new_profiles)
  ++ (collect (fun op => match find_profile (p_name op) new_profiles with
                 | None => []
                 | Some np =>
                     if disabled np then if disabled op then [] else [StopProfile (p_name op)]
                     else if connection_level_changed op np then [RestartProfile (p_name op)]
                     else diff_forwards (p_name op) (p_forwards op) (p_forwards np)
                 end) old_profiles).
End Reload.

(** ** What a plan asks of one profile *)

(** The profile an action is about. *)
Definition touches (a : ReloadAction) : string :=
  match a with
  | StartProfile n | StopProfile n | RestartProfile n => n
  | AddForward p _ | RemoveForward p _ | RestartForward p _ => p
  end.

Definition about (n : string) (l : list ReloadAction) : list ReloadAction := filter (fun a => touches a = n) l.

Lemma about_app n l1 l2 : about n (l1 ++ l2) = about n l1 ++ about n l2.
Proof. apply filter_app. Qed.

Definition is_forward_action (a : ReloadAction) : bool :=
  match a with AddForward _ _ | RemoveForward _ _ | RestartForward _ _ => true | _ => false end.

Section PlanLemmas.
Context {Tbl : Type} `{!EqDecision Tbl}.

(** The actions of a loop over items with unique names, each pushing actions
    about its own item. *)
Lemma about_collect {A} (name : A -> string) (f : A -> list ReloadAction) l n :
  NoDup (name <$> l) -> (forall x a, a ∈ f x -> touches a = name x) ->
  about n (collect f l) = match find (fun x => String.eqb (name x) n) l with Some x => f x | None => [] end.
Proof.
  intros Hnd Hf. unfold about, collect. induction l as [|x l IH]; [done|]. cbn [fmap list_fmap] in Hnd.
  apply NoDup_cons in Hnd as [Hx Hnd]. cbn [mbind list_bind find]. rewrite filter_app.
  fold (collect f l) in *. destruct (String.eqb (name x) n) eqn:E; bool_prop.
  - subst n. rewrite filter_keep by (intros a Ha; by apply Hf). rewrite IH by done.
    rewrite (proj2 (find_name_none name (name x) l)) by done. apply app_nil_r.
  - rewrite filter_drop; [by apply IH|]. intros a Ha Ht. apply E. rewrite <- Ht. symmetry. by apply Hf.
Qed.

Lemma diff_forwards_about n old new a : a ∈ diff_forwards (Tbl := Tbl) n old new -> touches a = n /\ is_forward_action a = true.
Proof.
  unfold diff_forwards. rewrite elem_of_app, !elem_of_collect. intros [(x & _ & Hx)|(x & _ & Hx)].
  - destruct (existsb _ new); set_solver.
  - destruct (find_forward _ old); [case_decide|]; set_solver.
Qed.

Lemma diff_forwards_nil n (old new : list (Forward Tbl)) :
  NoDup (f_name <$> old) -> NoDup (f_name <$> new) -> diff_forwards n old new = [] <-> forwards_same old new.
Proof.
  intros Ho Hn. unfold diff_forwards. rewrite app_nil, !collect_nil. split.
  - intros [H1 H2] m. unfold find_forward. destruct (find _ new) as [nf|] eqn:E.
    + apply (find_name f_name) in E as [Hin <-]. specialize (H2 nf Hin).
      unfold find_forward in H2. destruct (find _ old) as [ofw|]; [|done]. by case_decide; simplify_eq.
    + apply find_name_none in E. apply find_name_none. intros Hm. apply list_elem_of_fmap in Hm as (ofw & -> & Hin).
      specialize (H1 ofw Hin). destruct (existsb _ new) eqn:Ex; [|done]. by apply (existsb_name f_name) in Ex.
  - intros H. split.
    + intros ofw Hin. destruct (existsb _ new) eqn:Ex; [done|]. exfalso.
      specialize (H (f_name ofw)). unfold find_forward in H. rewrite (find_name_nodup f_name old ofw Ho Hin) in H.
      symmetry in H. apply (find_name f_name) in H as [Hx _].
      apply (list_elem_of_fmap_2 f_name) in Hx. apply (existsb_name f_name) in Hx. congruence.
    + intros nf Hin. rewrite H. unfold find_forward. rewrite (find_name_nodup f_name new nf Hn Hin). by case_decide.
Qed.

(** Everything the plan says about [n]. *)
Definition actions_for (n : string) (old new : Config Tbl) : list ReloadAction :=
  match find_profile n (c_profiles old), find_profile n (c_profiles new) with
  | None, None => []
  | Some op, None => [StopProfile n]
  | None, Some np => if disabled np then [] else [StartProfile n]
  | Some op, Some np =>
      if disabled np then if disabled op then [] else [StopProfile n]
      else if connection_level_changed op np then [RestartProfile n]
      else diff_forwards n (p_forwards op) (p_forwards np)
  end.

Lemma about_compute n old new :
  config_ok old -> config_ok new -> about n (compute old new) = actions_for n old new.
Proof.
  intros [Ho _] [Hn _]. unfold compute, actions_for. cbv zeta. rewrite !about_app, !(about_collect p_name).
  2, 4, 6: done.
  2: { intros op a Ha. destruct (find_profile (p_name op) (c_profiles new)) as [np|]; [|set_solver].
       destruct (disabled np); [destruct (disabled op); set_solver|]. destruct (connection_level_changed op np); [set_solver|].
       by apply diff_forwards_about in Ha as [? _]. }
  2: { intros np a Ha. destruct (existsb _ _); [set_solver|]. destruct (disabled np); set_solver. }
  2: { intros op a Ha. destruct (existsb _ _); set_solver. }
  fold (find_profile n (c_profiles old)). fold (find_profile n (c_profiles new)).
  assert (Hex : forall (l : list (Profile Tbl)), existsb (fun p => String.eqb (p_name p) n) l
                = match find_profile n l with Some _ => true | None => false end).
  { intros l. unfold find_profile. destruct (find _ l) as [x|] eqn:E.
    - apply (find_name p_name) in E as [Hx <-]. apply (existsb_name p_name). by apply list_elem_of_fmap_2.
    - apply find_name_none in E. apply not_true_iff_false. intros Hx. by apply (existsb_name p_name) in Hx. }
  destruct (find_profile n (c_profiles old)) as [op|] eqn:Eo; destruct (find_profile n (c_profiles new)) as [np|] eqn:En;
    try (apply (find_name p_name) in Eo as Eo'; destruct Eo' as [_ Eon]; rewrite Eon);
    try (apply (find_name p_name) in En as En'; destruct En' as [_ Enn]; rewrite Enn);
    rewrite ?Hex, ?Eo, ?En, ?app_nil_r; done.
Qed.
End PlanLemmas.
