(* ===== verification/Orchestrator.v ===== *)
(** * The orchestrator

    Models [crates/spt-supervisor/src/orchestrator.rs]: the map of running
    supervisors, start, stop, restart, the application of a reload plan, and
    shutdown.  A supervisor is an identity and the profile it was started
    from; [running] is the set of supervisor tasks nobody has stopped or
    dropped yet, and [spawned] the log of starts.  What the provider resolves
    beside the profile (protocol, credentials, endpoints, settings) is a value
    of a type [X] handed on to the supervisor.

    The operations come twice: as functions, for one caller at a time, and as
    threads of atomic steps, one per critical section, for callers that
    interleave; [apply_runs] relates the two. *)

From S2P Require Import Prelude Config Reload.

Section Orchestrator.
Context {Tbl : Type} `{!EqDecision Tbl} {X C : Type}.

Record Sup := mkSup { sup_id : nat; sup_profile : Profile Tbl; sup_extra : X }.

Record Orch := mkOrch {
  profiles : gmap string Sup;
  live_overrides : gmap string C;
  shutting_down : bool;
  next_id : nat;
  running : gset nat;
  spawned : list string
}.

Definition Orchestrator_new : Orch := mkOrch ∅ ∅ false 0 ∅ [].

Definition set_profiles (m : gmap string Sup) (o : Orch) : Orch :=
  mkOrch m (live_overrides o) (shutting_down o) (next_id o) (running o) (spawned o).
Definition remove_override (n : string) (o : Orch) : Orch :=
  mkOrch (profiles o) (delete n (live_overrides o)) (shutting_down o) (next_id o) (running o) (spawned o).

(** A supervisor is stopped, or dropped, which aborts its task. *)
Definition end_sups (l : list Sup) (o : Orch) : Orch :=
  mkOrch (profiles o) (live_overrides o) (shutting_down o) (next_id o)
    (running o ∖ list_to_set (sup_id <$> l)) (spawned o).

Definition of_option (s : option Sup) : list Sup := match s with Some s => [s] | None => [] end.

(** [ProfileSupervisor::spawn_with_auth]. *)
Definition spawn (p : Profile Tbl) (x : X) (o : Orch) : Sup * Orch :=
  (mkSup (next_id o) p x,
   mkOrch (profiles o) (live_overrides o) (shutting_down o) (S (next_id o))
     ({[next_id o]} ∪ running o) (spawned o ++ [p_name p])).

(** ** One caller *)

Definition start_profile_with_auth (p : Profile Tbl) (x : X) (o : Orch) : Orch :=
  if shutting_down o then o
  else
    let displaced := profiles o !! p_name p in
    let o := remove_override (p_name p) (set_profiles (delete (p_name p) (profiles o)) o) in
    let o := end_sups (of_option displaced) o in
    if disabled p then o
    else
      let '(sup, o) := spawn p x o in
      if shutting_down o then end_sups [sup] o
      else end_sups (of_option (profiles o !! p_name p)) (set_profiles (<[p_name p := sup]> (profiles o)) o).

Definition stop_profile (n : string) (o : Orch) : Orch :=
  let sup := profiles o !! n in
  end_sups (of_option sup) (remove_override n (set_profiles (delete n (profiles o)) o)).

Definition restart_profile_with_auth (p : Profile Tbl) (x : X) (o : Orch) : Orch :=
  start_profile_with_auth p x (stop_profile (p_name p) o).

(** [if let Some(..) = provider(n)] and the restart. *)
Definition provide (provider : string -> option (Profile Tbl * X)) (n : string) (o : Orch) : Orch :=
  match provider n with
  | Some (p, x) => restart_profile_with_auth p x o
  | None => o
  end.

(** One round of the loop over the plan. *)
Definition apply_action (provider : string -> option (Profile Tbl * X)) (st : Orch * list string) (a : ReloadAction) :
    Orch * list string :=
  let '(o, forward_restart) := st in
  match a with
  | StopProfile n => (stop_profile n o, forward_restart)
  | StartProfile n | RestartProfile n => (provide provider n o, forward_restart)
  | AddForward profile _ | RemoveForward profile _ | RestartForward profile _ =>
      (o, if existsb (String.eqb profile) forward_restart then forward_restart else forward_restart ++ [profile])
  end.

Definition apply_with_auth (plan : list ReloadAction) (provider : string -> option (Profile Tbl * X)) (o : Orch) : Orch :=
  if shutting_down o then o
  else
    let '(o, forward_restart) := foldl (apply_action provider) (o, []) plan in
    foldl (fun o n => provide provider n o) o forward_restart.

Definition shutdown (o : Orch) : Orch :=
  let sups := (map_to_list (profiles o)).*2 in
  let o := mkOrch ∅ (live_overrides o) true (next_id o) (running o) (spawned o) in
  let o := mkOrch (profiles o) ∅ (shutting_down o) (next_id o) (running o) (spawned o) in
  end_sups sups o.

(** What [live_connector] hands out. *)
Inductive Connector := Override (c : C) | Session (s : Sup) | Unavailable.

Definition live_connector (n : string) (o : Orch) : Connector :=
  match live_overrides o !! n with
  | Some c => Override c
  | None => match profiles o !! n with Some s => Session s | None => Unavailable end
  end.

(** ** Interleaved callers *)

(** What a caller does next, up to its next lock or await. *)
Inductive Pc :=
| PcStart (p : Profile Tbl) (x : X)
| PcStartRemove (p : Profile Tbl) (x : X)
| PcStartOverride (p : Profile Tbl) (x : X) (displaced : option Sup)
| PcStartSpawn (p : Profile Tbl) (x : X) (displaced : option Sup)
| PcStartInsert (p : Profile Tbl) (sup : Sup)
| PcStop (n : string)
| PcStopOverride (n : string) (sup : option Sup)
| PcStopWait (sup : option Sup)
| PcApply (plan : list ReloadAction) (provider : string -> option (Profile Tbl * X))
| PcShutdown
| PcShutClear (sups : list Sup)
| PcShutStop (sups : list Sup).

(** What [apply_with_auth] goes through for one action, and at the end for
    the profiles whose forwards changed. *)
Definition provide_pcs (provider : string -> option (Profile Tbl * X)) (n : string) : list Pc :=
  match provider n with Some (p, x) => [PcStop (p_name p); PcStart p x] | None => [] end.

Definition action_pcs (provider : string -> option (Profile Tbl * X)) (a : ReloadAction) : list Pc :=
  match a with
  | StopProfile n => [PcStop n]
  | StartProfile n | RestartProfile n => provide_pcs provider n
  | _ => []
  end.

Definition forward_restart_step (acc : list string) (a : ReloadAction) : list string :=
  match a with
  | AddForward p _ | RemoveForward p _ | RestartForward p _ =>
      if existsb (String.eqb p) acc then acc else acc ++ [p]
  | _ => acc
  end.

Definition apply_body (plan : list ReloadAction) (provider : string -> option (Profile Tbl * X)) : list Pc :=
  collect (action_pcs provider) plan ++ collect (provide_pcs provider) (foldl forward_restart_step [] plan).

(** One atomic step, and what the caller goes on with. *)
Definition pc_step (pc : Pc) (o : Orch) : Orch * list Pc :=
  match pc with
  | PcStart p x => (o, if shutting_down o then [] else [PcStartRemove p x])
  | PcStartRemove p x =>
      (set_profiles (delete (p_name p) (profiles o)) o, [PcStartOverride p x (profiles o !! p_name p)])
  | PcStartOverride p x d => (remove_override (p_name p) o, [PcStartSpawn p x d])
  | PcStartSpawn p x d =>
      let o := end_sups (of_option d) o in
      if disabled p then (o, []) else let '(sup, o) := spawn p x o in (o, [PcStartInsert p sup])
  | PcStartInsert p sup =>
      if shutting_down o then (end_sups [sup] o, [])
      else (end_sups (of_option (profiles o !! p_name p)) (set_profiles (<[p_name p := sup]> (profiles o)) o), [])
  | PcStop n => (set_profiles (delete n (profiles o)) o, [PcStopOverride n (profiles o !! n)])
  | PcStopOverride n s => (remove_override n o, [PcStopWait s])
  | PcStopWait s => (end_sups (of_option s) o, [])
  | PcApply plan provider => (o, if shutting_down o then [] else apply_body plan provider)
  | PcShutdown =>
      (mkOrch ∅ (live_overrides o) true (next_id o) (running o) (spawned o),
       [PcShutClear (map_to_list (profiles o)).*2])
  | PcShutClear l => (mkOrch (profiles o) ∅ (shutting_down o) (next_id o) (running o) (spawned o), [PcShutStop l])
  | PcShutStop l => (end_sups l o, [])
  end.

(** Callers that interleave: any of them may take the next step. *)
Inductive sys_step : Orch * list (list Pc) -> Orch * list (list Pc) -> Prop :=
| sys_step_intro o ts1 pc rest ts2 :
    sys_step (o, ts1 ++ (pc :: rest) :: ts2)
             ((pc_step pc o).1, ts1 ++ ((pc_step pc o).2 ++ rest) :: ts2).

Inductive sys_steps : Orch * list (list Pc) -> Orch * list (list Pc) -> Prop :=
| sys_steps_refl s : sys_steps s s
| sys_steps_step s1 s2 s3 : sys_step s1 s2 -> sys_steps s2 s3 -> sys_steps s1 s3.

(** ** Lemmas: one caller alone *)

(** A thread that runs to its end without interference. *)
Inductive runs : list Pc -> Orch -> Orch -> Prop :=
| runs_done o : runs [] o o
| runs_step pc rest o o' : runs ((pc_step pc o).2 ++ rest) (pc_step pc o).1 o' -> runs (pc :: rest) o o'.

Lemma runs_app l1 l2 o1 o2 o3 : runs l1 o1 o2 -> runs l2 o2 o3 -> runs (l1 ++ l2) o1 o3.
Proof.
  induction 1 as [o|pc rest o o' H IH]; intros H2; [done|]. cbn. apply runs_step. rewrite app_assoc. by apply IH.
Qed.

Lemma start_runs p x o : runs [PcStart p x] o (start_profile_with_auth p x o).
Proof.
  apply runs_step. unfold start_profile_with_auth. cbn. destruct (shutting_down o) eqn:E; [constructor|]. cbn.
  apply runs_step. cbn. apply runs_step. cbn. apply runs_step. cbn. destruct (disabled p); [constructor|]. cbn.
  apply runs_step. cbn. rewrite E. cbn. constructor.
Qed.

Lemma stop_runs n o : runs [PcStop n] o (stop_profile n o).
Proof. do 3 apply runs_step; cbn. constructor. Qed.

Lemma provide_runs provider n o : runs (provide_pcs provider n) o (provide provider n o).
Proof.
  unfold provide_pcs, provide. destruct (provider n) as [[p x]|]; [|constructor].
  apply (runs_app [PcStop (p_name p)] [PcStart p x] o (stop_profile (p_name p) o)); [apply stop_runs|apply start_runs].
Qed.

(** [apply_with_auth] is its thread run alone. *)
Lemma apply_runs plan provider o : runs [PcApply plan provider] o (apply_with_auth plan provider o).
Proof.
  apply runs_step. cbn [pc_step fst snd]. unfold apply_with_auth, apply_body. destruct (shutting_down o); [constructor|].
  rewrite app_nil_r. generalize (@nil string). revert o. induction plan as [|a plan IH]; intros o acc.
  - cbn. clear. revert o. induction acc as [|n acc IH]; intros o; cbn; [constructor|].
    eapply runs_app; [apply provide_runs|apply IH].
  - unfold collect in *. cbn [mbind list_bind foldl]. rewrite <- app_assoc.
    destruct (apply_action provider (o, acc) a) as [o1 acc1] eqn:E.
    apply (runs_app _ _ o o1).
    + destruct a; injection E as <- _; try apply runs_done; cbn; [apply provide_runs|apply stop_runs|apply provide_runs].
    + destruct a; injection E as <- <-; apply IH.
Qed.
End Orchestrator.
Arguments Sup : clear implicits.
Arguments Orch : clear implicits.
Arguments Pc : clear implicits.

Section Gate.
Context {Tbl : Type} `{!EqDecision Tbl} {X C : Type}.
Implicit Types (o : Orch Tbl X C) (pc : Pc Tbl X) (ts : list (list (Pc Tbl X))).

(** The supervisors a caller holds between its steps. *)
Definition held pc : list nat :=
  match pc with
  | PcStartOverride _ _ d | PcStartSpawn _ _ d => sup_id <$> of_option d
  | PcStartInsert _ s => [sup_id s]
  | PcStopOverride _ s | PcStopWait s => sup_id <$> of_option s
  | PcShutClear l | PcShutStop l => sup_id <$> l
  | _ => []
  end.

Definition in_map o (i : nat) : Prop := exists n s, profiles o !! n = Some s /\ sup_id s = i.
Definition held_by (t : list (Pc Tbl X)) (i : nat) : Prop := exists pc, pc ∈ t /\ i ∈ held pc.

(** No supervisor runs without an owner, and none is in the map once
    shutdown has begun. *)
Definition shutdown_inv (st : Orch Tbl X C * list (list (Pc Tbl X))) : Prop :=
  (forall i, i ∈ running st.1 -> in_map st.1 i \/ exists t, t ∈ st.2 /\ held_by t i)
  /\ (shutting_down st.1 = true -> profiles st.1 = ∅).

Lemma held_by_app t1 t2 i : held_by (t1 ++ t2) i <-> held_by t1 i \/ held_by t2 i.
Proof. unfold held_by. setoid_rewrite elem_of_app. naive_solver. Qed.

Lemma held_by_one pc i : held_by [pc] i <-> i ∈ held pc.
Proof. unfold held_by. setoid_rewrite list_elem_of_singleton. naive_solver. Qed.

Lemma in_map_delete o n i :
  in_map o i -> in_map (set_profiles (delete n (profiles o)) o) i \/ i ∈ sup_id <$> of_option (profiles o !! n).
Proof.
  intros (m & s & Hm & <-). destruct (decide (m = n)) as [->|Hne].
  - right. rewrite Hm. cbn. set_solver.
  - left. exists m, s. cbn. by rewrite lookup_delete_ne.
Qed.

Lemma in_map_insert o n s i :
  in_map o i -> in_map (set_profiles (<[n := s]> (profiles o)) o) i \/ i ∈ sup_id <$> of_option (profiles o !! n).
Proof.
  intros (m & s' & Hm & <-). destruct (decide (m = n)) as [->|Hne].
  - right. rewrite Hm. cbn. set_solver.
  - left. exists m, s'. cbn. by rewrite lookup_insert_ne.
Qed.

(** One step keeps every running supervisor owned. *)
Lemma pc_step_owned pc o i :
  i ∈ running (pc_step pc o).1 ->
  (in_map o i \/ i ∈ held pc \/ i ∉ running o) ->
  in_map (pc_step pc o).1 i \/ held_by (pc_step pc o).2 i.
Proof.
  destruct pc as [p x|p x|p x d|p x d|p s|n|n s|s|plan pr| |l|l]; cbn [pc_step held].
  - destruct (shutting_down o); cbn; set_solver.
  - cbn. intros Hr [Hm|[Hh|Hn]]; [|set_solver..]. apply (in_map_delete o (p_name p)) in Hm as [Hm|Hm]; [by left|].
    right. by apply held_by_one.
  - cbn. intros Hr [Hm|[Hh|Hn]]; [by left|right; by apply held_by_one|done].
  - destruct (disabled p); cbn.
    + intros Hr [Hm|[Hh|Hn]]; [by left|set_solver..].
    + intros Hr [Hm|[Hh|Hn]]; [by left| |].
      * right. apply held_by_one. set_solver.
      * right. apply held_by_one. set_solver.
  - destruct (shutting_down o); cbn.
    + intros Hr [Hm|[Hh|Hn]]; [by left|set_solver..].
    + intros Hr [Hm|[Hh|Hn]].
      * left. destruct (in_map_insert o (p_name p) s i Hm) as [H|H]; [done|set_solver].
      * left. exists (p_name p), s. cbn. rewrite lookup_insert_eq. set_solver.
      * set_solver.
  - cbn. intros Hr [Hm|[Hh|Hn]]; [|set_solver..]. apply (in_map_delete o n) in Hm as [Hm|Hm]; [by left|].
    right. by apply held_by_one.
  - cbn. intros Hr [Hm|[Hh|Hn]]; [by left|right; by apply held_by_one|done].
  - cbn. intros Hr [Hm|[Hh|Hn]]; [by left|set_solver..].
  - destruct (shutting_down o); cbn; intros Hr [Hm|[Hh|Hn]]; [by left|set_solver..|by left|set_solver|done].
  - cbn. intros Hr [Hm|[Hh|Hn]]; [|set_solver..]. right. apply held_by_one. cbn.
    destruct Hm as (n & s & Hm & <-). apply list_elem_of_fmap_2.
    apply list_elem_of_fmap. exists (n, s). split; [done|]. by apply elem_of_map_to_list.
  - cbn. intros Hr [Hm|[Hh|Hn]]; [by left|right; by apply held_by_one|done].
  - cbn. intros Hr [Hm|[Hh|Hn]]; [by left|set_solver..].
Qed.

Lemma pc_step_gate pc o :
  (shutting_down o = true -> profiles o = ∅) ->
  shutting_down (pc_step pc o).1 = true -> profiles (pc_step pc o).1 = ∅.
Proof.
  intros H. destruct pc as [p x|p x|p x d|p x d|p s|n|n s|s|plan pr| |l|l]; cbn [pc_step]; cbn; try done.
  - intros Hs. by rewrite H, delete_empty.
  - destruct (disabled p); cbn; done.
  - destruct (shutting_down o) eqn:E; cbn; rewrite ?E; done.
  - intros Hs. by rewrite H, delete_empty.
Qed.

Lemma sys_step_inv s s' : sys_step s s' -> shutdown_inv s -> shutdown_inv s'.
Proof.
  destruct 1 as [o ts1 pc rest ts2]. intros [H1 H2]. cbn [fst snd] in *. split; [|by apply pc_step_gate].
  intros i Hi. cbn [fst snd] in *.
  assert (Hcase : in_map o i \/ i ∈ held pc \/ i ∉ running o \/ exists t, (t ∈ ts1 \/ t = rest \/ t ∈ ts2) /\ held_by t i).
  { destruct (decide (i ∈ running o)) as [Hr|]; [|auto]. destruct (H1 i Hr) as [Hm|(t & Ht & Hh)]; [by left|].
    apply elem_of_app in Ht as [Ht|Ht]; [right; right; right; eauto|]. apply elem_of_cons in Ht as [->|Ht].
    - destruct Hh as (q & Hq & Hqi). apply elem_of_cons in Hq as [->|Hq]; [auto|].
      right; right; right. exists rest. split; [auto|]. by exists q.
    - right; right; right. eauto. }
  destruct Hcase as [Hc|[Hc|[Hc|(t & Ht & Hh)]]].
  1-3: destruct (pc_step_owned pc o i Hi) as [Hm|Hh]; [tauto|by left|];
    right; exists ((pc_step pc o).2 ++ rest); split; [set_solver|]; apply held_by_app; by left.
  right. destruct Ht as [Ht|[->|Ht]].
  - exists t. split; [set_solver|done].
  - exists ((pc_step pc o).2 ++ rest). split; [set_solver|]. apply held_by_app. by right.
  - exists t. split; [set_solver|done].
Qed.

Lemma sys_steps_inv s s' : sys_steps s s' -> shutdown_inv s -> shutdown_inv s'.
Proof. induction 1 as [|s1 s2 s3 Hs _ IH]; [done|]. intros Hi. by apply IH, (sys_step_inv s1). Qed.
End Gate.

Section Apply.
Context {Tbl : Type} `{!EqDecision Tbl} {X C : Type}.
Implicit Types (o : Orch Tbl X C).
Context (provider : string -> option (Profile Tbl * X)).
Hypothesis provider_name : forall n p x, provider n = Some (p, x) -> p_name p = n.

(** The profile [n] runs with, if it runs. *)
Definition runs_with o (n : string) : option (Profile Tbl) := sup_profile <$> profiles o !! n.

(** How often [n] was started. *)
Definition starts o (n : string) : nat := length (filter (fun m => m = n) (spawned o)).

(** What a provided profile comes to. *)
Definition provided (n : string) (v : option (Profile Tbl)) : option (Profile Tbl) :=
  match provider n with Some (p, _) => if disabled p then None else Some p | None => v end.

Lemma stop_effect m o n :
  profiles (stop_profile m o) !! n = (if decide (m = n) then None else profiles o !! n)
  /\ starts (stop_profile m o) n = starts o n /\ shutting_down (stop_profile m o) = shutting_down o.
Proof.
  cbn. split_and!; try done. case_decide as E; [subst; apply lookup_delete_eq|by apply lookup_delete_ne].
Qed.

Lemma provide_effect m o n :
  shutting_down o = false ->
  runs_with (provide provider m o) n = (if decide (m = n) then provided n (runs_with o n) else runs_with o n)
  /\ (m <> n -> profiles (provide provider m o) !! n = profiles o !! n)
  /\ (starts (provide provider m o) n <= starts o n + if decide (m = n) then 1 else 0)%nat
  /\ shutting_down (provide provider m o) = false.
Proof.
  intros Hs. unfold provide, provided. destruct (provider m) as [[p x]|] eqn:E.
  2: { split_and!; try done; [|case_decide; lia]. case_decide as D; [|done]. subst m. by rewrite E. }
  pose proof (provider_name _ _ _ E) as <-. unfold restart_profile_with_auth, start_profile_with_auth, runs_with. cbn.
  rewrite Hs. cbn. destruct (disabled p) eqn:Hd; cbn.
  - split_and!; try done.
    + case_decide as D; [subst n; by rewrite E, Hd, !lookup_delete_eq|by rewrite !lookup_delete_ne].
    + intros D. by rewrite !lookup_delete_ne.
    + unfold starts. cbn. case_decide; lia.
  - split_and!; try done.
    + case_decide as D; [subst n; by rewrite E, Hd, lookup_insert_eq|by rewrite lookup_insert_ne, !lookup_delete_ne].
    + intros D. by rewrite lookup_insert_ne, !lookup_delete_ne.
    + unfold starts. cbn. rewrite filter_app, length_app. case_decide; [by rewrite filter_cons_True|by rewrite filter_cons_False].
Qed.

(** What an action does to the profile it is about. *)
Definition act (n : string) (v : option (Profile Tbl)) (a : ReloadAction) : option (Profile Tbl) :=
  match a with
  | StopProfile _ => None
  | StartProfile _ | RestartProfile _ => provided n v
  | _ => v
  end.

Definition is_start (a : ReloadAction) : bool :=
  match a with StartProfile _ | RestartProfile _ => true | _ => false end.

Lemma existsb_eqb p l : existsb (String.eqb p) l = true <-> p ∈ l.
Proof.
  rewrite existsb_exists. split.
  - intros (x & Hx & E). bool_prop. subst. by apply list_elem_of_In.
  - intros H. exists p. split; [by apply list_elem_of_In|apply String.eqb_refl].
Qed.

(** The loop over the plan, seen from one profile. *)
Lemma fold_effect plan o acc n :
  shutting_down o = false -> NoDup acc ->
  let st := foldl (apply_action provider) (o, acc) plan in
  runs_with st.1 n = foldl (act n) (runs_with o n) (about n plan)
  /\ (about n plan = [] -> profiles st.1 !! n = profiles o !! n)
  /\ (starts st.1 n <= starts o n + length (filter (fun a => is_start a = true) (about n plan)))%nat
  /\ NoDup st.2
  /\ (n ∈ st.2 <-> n ∈ acc \/ exists a, a ∈ about n plan /\ is_forward_action a = true)
  /\ shutting_down st.1 = false.
Proof.
  revert o acc. induction plan as [|a plan IH]; intros o acc Hs Hacc; cbn [foldl].
  { cbn. split_and!; try done; [lia|]. split; [by left|]. intros [H|(a & Ha & _)]; [done|set_solver]. }
  destruct (apply_action provider (o, acc) a) as [o1 acc1] eqn:E.
  assert (Hstep : runs_with o1 n = (if decide (touches a = n) then act n (runs_with o n) a else runs_with o n)
    /\ (touches a <> n -> profiles o1 !! n = profiles o !! n)
    /\ (starts o1 n <= starts o n + if decide (touches a = n) then (if is_start a then 1 else 0) else 0)%nat
    /\ NoDup acc1 /\ shutting_down o1 = false
    /\ (n ∈ acc1 <-> n ∈ acc \/ (touches a = n /\ is_forward_action a = true))).
  { assert (Hfwd : forall p, NoDup (if existsb (String.eqb p) acc then acc else acc ++ [p])
      /\ (n ∈ (if existsb (String.eqb p) acc then acc else acc ++ [p]) <-> n ∈ acc \/ p = n)).
    { intros p. destruct (existsb (String.eqb p) acc) eqn:Ex.
      - apply existsb_eqb in Ex. split; [done|]. naive_solver.
      - split; [|set_solver]. apply NoDup_app. split_and!; [done| |apply NoDup_singleton].
        intros x Hx Hp. apply list_elem_of_singleton in Hp as ->. apply existsb_eqb in Hx. congruence. }
    destruct a as [m|m|m|m f|m f|m f]; injection E as <- <-; cbn [touches act is_start is_forward_action].
    2: { destruct (stop_effect m o n) as (H1 & H2 & H3). split_and!;
           [unfold runs_with; rewrite H1; by case_decide|intros D; rewrite H1; by case_decide
           |rewrite H2; case_decide; lia|done|by rewrite H3|naive_solver]. }
    1, 2: destruct (provide_effect m o n Hs) as (H1 & H2 & H3 & H4); split_and!; try done; naive_solver.
    all: destruct (Hfwd m) as [H1 H2]; split_and!; try done; [by case_decide|case_decide; lia|naive_solver]. }
  destruct Hstep as (S1 & S2 & S3 & S4 & S5 & S6). destruct (IH o1 acc1 S5 S4) as (I1 & I2 & I3 & I4 & I5 & I6).
  unfold about. rewrite filter_cons. fold (about n plan). destruct (decide (touches a = n)) as [D|D].
  - split_and!; try done.
    + rewrite I1, S1. done.
    + rewrite filter_cons. destruct (decide (is_start a = true)) as [Hst|Hst]; cbn [length]; destruct (is_start a); lia || done.
    + rewrite I5, S6. set_solver.
  - split_and!; try done.
    + by rewrite I1, S1.
    + intros Hn. by rewrite I2, S2.
    + lia.
    + rewrite I5, S6. set_solver.
Qed.

(** The loop over the profiles whose forwards changed. *)
Lemma provide_all_effect l o n :
  shutting_down o = false -> NoDup l ->
  let o' := foldl (fun o m => provide provider m o) o l in
  runs_with o' n = (if decide (n ∈ l) then provided n (runs_with o n) else runs_with o n)
  /\ (n ∉ l -> profiles o' !! n = profiles o !! n)
  /\ (starts o' n <= starts o n + if decide (n ∈ l) then 1 else 0)%nat /\ shutting_down o' = false.
Proof.
  revert o. induction l as [|m l IH]; intros o Hs Hnd; cbn [foldl].
  { split_and!; try done; case_decide; set_solver || lia. }
  apply NoDup_cons in Hnd as [Hm Hnd]. destruct (provide_effect m o n Hs) as (P1 & P2 & P3 & P4).
  destruct (IH (provide provider m o) P4 Hnd) as (I1 & I2 & I3 & I4). split_and!; try done.
  - rewrite I1, P1. destruct (decide (m = n)) as [->|D].
    + rewrite decide_False by done. rewrite decide_True by set_solver. done.
    + destruct (decide (n ∈ l)); [rewrite decide_True by set_solver|rewrite decide_False by set_solver]; done.
  - intros Hn. rewrite I2, P2; set_solver.
  - destruct (decide (m = n)) as [->|D].
    + rewrite decide_False in I3 by done. rewrite decide_True by set_solver. lia.
    + destruct (decide (n ∈ l)); [rewrite decide_True by set_solver|rewrite decide_False by set_solver]; lia.
Qed.

(** [apply_with_auth], seen from one profile. *)
Lemma apply_effect plan o n :
  shutting_down o = false ->
  let o' := apply_with_auth plan provider o in
  let v := foldl (act n) (runs_with o n) (about n plan) in
  let fwd := existsb is_forward_action (about n plan) in
  runs_with o' n = (if fwd then provided n v else v)
  /\ (about n plan = [] -> profiles o' !! n = profiles o !! n)
  /\ (starts o' n <= starts o n + length (filter (fun a => is_start a = true) (about n plan)) + if fwd then 1 else 0)%nat
  /\ shutting_down o' = false.
Proof.
  intros Hs o' v fwd. unfold o', apply_with_auth. rewrite Hs.
  destruct (fold_effect plan o [] n Hs (NoDup_nil_2)) as (F1 & F2 & F3 & F4 & F5 & F6).
  destruct (foldl (apply_action provider) (o, []) plan) as [o1 l]. cbn [fst snd] in *.
  destruct (provide_all_effect l o1 n F6 F4) as (P1 & P2 & P3 & P4). rewrite P1, F1. fold v.
  assert (n ∈ l <-> fwd = true) as Hl.
  { rewrite F5. unfold fwd. rewrite existsb_exists. setoid_rewrite list_elem_of_In. set_solver. }
  case_decide as Hin.
  - destruct fwd; [|by apply Hl in Hin]. split_and!; [done| |lia|done].
    intros Hn. exfalso. apply F5 in Hin as [Hx|(a & Ha & _)]; [by apply elem_of_nil in Hx|].
    rewrite Hn in Ha. by apply elem_of_nil in Ha.
  - destruct fwd; [by destruct Hin; apply Hl|]. split_and!; [done| |lia|done]. intros Hn. by rewrite P2, F2.
Qed.
End Apply.

(** ** A reload, seen from one profile *)

Section Converge.
Context {Tbl : Type} `{!EqDecision Tbl} {X C : Type}.

(** What the connection of a supervisor depends on: its profile without the
    name, the forwards, the descriptive fields and the settings of the
    supervision itself. *)
Definition connection_view (p : Profile Tbl) : Profile Tbl :=
  mkProfile "" None (p_enabled p) (p_protocol p) (p_host p) (p_port p) (p_endpoint p) None (p_user p)
    (p_connect_timeout p) None None None None None (p_connection p) (p_crypto p) (p_auth p) (p_trust p) (p_tls p)
    (p_ssh3 p) None None None None None (p_endpoints p) (p_hops p) [] (p_sftp_mounts p) (p_script p) (p_transport p).

(** A supervisor that was started from [q] is as good as one started from
    [p]: the connection and every forward are the same. *)
Definition up_to_date (q p : Profile Tbl) : Prop :=
  connection_view q = connection_view p /\ forwards_same (p_forwards q) (p_forwards p).

(** The orchestrator runs exactly the enabled profiles of [c], up to date. *)
Definition mirrors (o : Orch Tbl X C) (c : Config Tbl) : Prop :=
  forall n, match find_profile n (c_profiles c) with
  | Some p => if disabled p then runs_with o n = None else exists q, runs_with o n = Some q /\ up_to_date q p
  | None => runs_with o n = None
  end.

(** The provider resolves every enabled profile of [c]. *)
Definition provides (provider : string -> option (Profile Tbl * X)) (c : Config Tbl) : Prop :=
  (forall n p x, provider n = Some (p, x) -> p_name p = n)
  /\ forall p, p ∈ c_profiles c -> disabled p = false -> exists x, provider (p_name p) = Some (p, x).

Lemma start_other p x (o : Orch Tbl X C) n :
  p_name p <> n -> profiles (start_profile_with_auth p x o) !! n = profiles o !! n.
Proof.
  intros Hn. unfold start_profile_with_auth. destruct (shutting_down o) eqn:E; [done|]. cbn. destruct (disabled p); cbn.
  - by rewrite lookup_delete_ne.
  - rewrite E. cbn. by rewrite lookup_insert_ne, lookup_delete_ne.
Qed.

Lemma connection_unchanged p q :
  connection_level_changed p q = false <-> connection_view p = connection_view q.
Proof.
  unfold connection_level_changed. rewrite !orb_false_iff, !bool_decide_eq_false. split.
  - intros H. repeat match type of H with _ /\ _ => destruct H as [H ?] end.
    repeat match goal with H : ~ (_ <> _) |- _ => apply dec_stable in H end.
    destruct p, q. cbn in *. by subst.
  - unfold connection_view. intros E. injection E as E. split_and!; by intros [].
Qed.

Lemma view_enabled p q : connection_view p = connection_view q -> disabled p = disabled q.
Proof. intros E. unfold disabled. by replace (p_enabled q) with (p_enabled p) by (by injection E). Qed.

Lemma up_to_date_refl p : up_to_date p p.
Proof. by split. Qed.

Lemma provided_new provider new n p v :
  provides provider new -> find_profile n (c_profiles new) = Some p -> disabled p = false ->
  provided provider n v = Some p.
Proof.
  intros [_ Hp] Hf Hd. apply (find_name p_name) in Hf as [Hin <-]. destruct (Hp p Hin Hd) as [x Hx].
  unfold provided. by rewrite Hx, Hd.
Qed.

Lemma forwards_nodup (c : Config Tbl) n p :
  config_ok c -> find_profile n (c_profiles c) = Some p -> NoDup (f_name <$> p_forwards p).
Proof. intros [_ Hf] H. apply (find_name p_name) in H as [Hin _]. by eapply Forall_forall in Hf. Qed.

(** The forwards differ, or they are the same forwards. *)
Lemma forward_actions n (l1 l2 : list (Forward Tbl)) :
  existsb is_forward_action (diff_forwards n l1 l2) = negb (bool_decide (diff_forwards n l1 l2 = [])).
Proof.
  pose proof (fun a => diff_forwards_about n l1 l2 a) as H. destruct (diff_forwards n l1 l2) as [|a l]; [done|].
  cbn. destruct (H a) as [_ ->]; [set_solver|]. done.
Qed.

Lemma forward_acts provider n (v : option (Profile Tbl)) (l1 l2 : list (Forward Tbl)) :
  foldl (act (X := X) provider n) v (diff_forwards n l1 l2) = v
  /\ filter (fun a => is_start a = true) (diff_forwards n l1 l2) = [].
Proof.
  assert (H : Forall (fun a => is_forward_action a = true) (diff_forwards n l1 l2)).
  { apply Forall_forall. intros a Ha. by apply diff_forwards_about in Ha as [_ ?]. }
  split; [|apply filter_drop; intros a Ha; eapply Forall_forall in H; [|done]; by destruct a].
  induction H as [|a l Ha Hl IH]; [done|]. cbn. by destruct a.
Qed.
End Converge.

(** ** Schedules *)

Section Schedule.
Context {Tbl : Type} `{!EqDecision Tbl} {X C : Type}.

(** The callers take their steps in the order the schedule names them. *)
Definition run_one (st : Orch Tbl X C * list (list (Pc Tbl X))) (i : nat) : Orch Tbl X C * list (list (Pc Tbl X)) :=
  match st.2 !! i with
  | Some (pc :: rest) => ((pc_step pc st.1).1, <[i := (pc_step pc st.1).2 ++ rest]> st.2)
  | _ => st
  end.

Definition run_schedule (sched : list nat) st : Orch Tbl X C * list (list (Pc Tbl X)) := foldl run_one st sched.

Lemma run_schedule_steps sched st : sys_steps st (run_schedule sched st).
Proof.
  revert st. induction sched as [|i sched IH]; intros [o ts]; [constructor|]. unfold run_schedule. cbn [foldl].
  destruct (ts !! i) as [[|pc rest]|] eqn:E; unfold run_one at 2; cbn [fst snd]; rewrite E; try apply IH.
  eapply sys_steps_step; [|apply IH]. rewrite <- (take_drop_middle ts i (pc :: rest)) at 1 by done.
  rewrite insert_take_drop by (by eapply lookup_lt_Some). constructor.
Qed.
End Schedule.

(** ** Properties *)

(** C4: A reload brings the running profiles to the new configuration.  If the
    orchestrator runs exactly the enabled profiles of the old configuration,
    each up to date in its connection-level fields and its forwards, then after
    the plan for the new configuration is applied it runs exactly the enabled
    profiles of the new one, up to date in the same sense; so the same holds
    after any sequence of reloads. *)
Theorem reload_converges {Tbl} `{!EqDecision Tbl} {X C} (o : Orch Tbl X C) old new provider :
  config_ok old -> config_ok new -> provides provider new -> shutting_down o = false -> mirrors o old ->
  mirrors (apply_with_auth (compute old new) provider o) new.
Proof.
  intros Ho Hn Hp Hs Hm n. specialize (Hm n).
  destruct (apply_effect provider (proj1 Hp) (compute old new) o n Hs) as (E & _). rewrite about_compute in E by done.
  unfold actions_for in E.
  destruct (find_profile n (c_profiles new)) as [np|] eqn:En.
  - destruct (disabled np) eqn:Hd.
    { destruct (find_profile n (c_profiles old)) as [op|]; [destruct (disabled op)|]; cbn in E; by rewrite E. }
    pose proof (provided_new provider new n np) as Hprov.
    destruct (find_profile n (c_profiles old)) as [op|] eqn:Eo; [|cbn in E; exists np; rewrite E, Hprov by done; eauto using up_to_date_refl].
    destruct (connection_level_changed op np) eqn:Hc; [cbn in E; exists np; rewrite E, Hprov by done; eauto using up_to_date_refl|].
    rewrite (proj1 (forward_acts provider n _ _ _)), forward_actions in E.
    case_bool_decide as Hf; cbn in E; [|exists np; rewrite E, Hprov by done; eauto using up_to_date_refl].
    rewrite diff_forwards_nil in Hf by (exact (forwards_nodup old n op Ho Eo) || exact (forwards_nodup new n np Hn En)).
    apply connection_unchanged in Hc. rewrite <- (view_enabled op np) in Hd by done. rewrite Hd in Hm. destruct Hm as (q & Hq & Hq1 & Hq2).
    exists q. rewrite E. split; [done|]. split; [by rewrite Hq1|intros m; by rewrite Hq2].
  - destruct (find_profile n (c_profiles old)) as [op|]; cbn in E; [by rewrite E|by rewrite E].
Qed.

(** Two profiles: one gains a forward, one is disabled, one appears. *)
Definition old_config : Config Z :=
  demo_config None [demo_profile "a" None "h1" [mkForward "f" 1]; demo_profile "b" None "h2" []].
Definition new_config : Config Z :=
  demo_config None [demo_profile "a" None "h1" [mkForward "g" 2; mkForward "f" 1]; demo_profile "b" (Some false) "h2" [];
                    demo_profile "c" (Some true) "h3" []].

Definition demo_provider (n : string) : option (Profile Z * unit) :=
  match find_profile n (c_profiles new_config) with Some p => Some (p, tt) | None => None end.

Definition demo_orch : Orch Z unit unit :=
  start_profile_with_auth (demo_profile "b" None "h2" []) tt
    (start_profile_with_auth (demo_profile "a" None "h1" [mkForward "f" 1]) tt Orchestrator_new).

Lemma demo_provides : provides demo_provider new_config.
Proof.
  split.
  - intros n p x. unfold demo_provider. destruct (find_profile n _) as [q|] eqn:E; [|done].
    intros [= <- <-]. by apply (find_name p_name) in E as [_ ?].
  - intros p Hp _. unfold demo_provider, find_profile. rewrite (find_name_nodup p_name); [by exists tt| |done].
    repeat constructor; set_solver.
Qed.

Lemma demo_mirrors : mirrors demo_orch old_config.
Proof.
  intros n. unfold find_profile. cbn [find c_profiles old_config demo_config p_name demo_profile].
  destruct (String.eqb "a" n) eqn:Ea; bool_prop; [subst n|].
  - exists (demo_profile "a" None "h1" [mkForward "f" 1]). split; [reflexivity|apply up_to_date_refl].
  - destruct (String.eqb "b" n) eqn:Eb; bool_prop; [subst n|].
    + exists (demo_profile "b" None "h2" []). split; [reflexivity|apply up_to_date_refl].
    + unfold runs_with, demo_orch. by rewrite !start_other.
Qed.

Lemma demo_configs_ok : config_ok old_config /\ config_ok new_config.
Proof. split; split; try (repeat constructor; set_solver). Qed.

Lemma reload_converges_witness :
  mirrors (apply_with_auth (compute old_config new_config) demo_provider demo_orch) new_config.
Proof.
  apply (reload_converges demo_orch old_config new_config demo_provider).
  - apply demo_configs_ok.
  - apply demo_configs_ok.
  - apply demo_provides.
  - reflexivity.
  - apply demo_mirrors.
Defined.

(** A reload disturbs no more than it must.  Whatever the two
    configurations, a profile is started at most once; and a profile that is
    enabled in both with the same connection-level fields and the same
    forwards keeps its running supervisor, whatever else of it changed. *)
Theorem reload_minimal {Tbl} `{!EqDecision Tbl} {X C} (o : Orch Tbl X C) old new provider n :
  config_ok old -> config_ok new -> provides provider new -> shutting_down o = false ->
  let o' := apply_with_auth (compute old new) provider o in
  (starts o' n <= starts o n + 1)%nat
  /\ forall op np, find_profile n (c_profiles old) = Some op -> find_profile n (c_profiles new) = Some np ->
       disabled np = false -> up_to_date op np -> profiles o' !! n = profiles o !! n.
Proof.
  intros Ho Hn Hp Hs o'. destruct (apply_effect provider (proj1 Hp) (compute old new) o n Hs) as (_ & E2 & E3 & _).
  rewrite about_compute in E2, E3 by done. fold o' in E2, E3. unfold actions_for in *. split.
  - clear E2. etrans; [exact E3|]. clear E3. rewrite <- Nat.add_assoc. apply Nat.add_le_mono_l.
    assert (Hone : forall a, (length (filter (fun a => is_start a = true) [a]) + (if existsb is_forward_action [a] then 1 else 0) <= 1)%nat).
    { intros a. destruct a; first [rewrite filter_cons_True by done | rewrite filter_cons_False by done]; rewrite filter_nil; cbn; lia. }
    destruct (find_profile n (c_profiles old)) as [op|], (find_profile n (c_profiles new)) as [np|]; [|apply Hone| |cbn; lia].
    + destruct (disabled np); [destruct (disabled op); [cbn; lia|apply Hone]|].
      destruct (connection_level_changed op np); [apply Hone|].
      rewrite (proj2 (forward_acts provider n None _ _)). destruct (existsb _ _); cbn; lia.
    + destruct (disabled np); [cbn; lia|apply Hone].
  - intros op np Eo En Hd [Hc Hf]. apply connection_unchanged in Hc. apply E2. rewrite Eo, En, Hd, Hc. apply diff_forwards_nil; [| |done].
    + exact (forwards_nodup old n op Ho Eo).
    + exact (forwards_nodup new n np Hn En).
Qed.

Lemma reload_minimal_witness :
  let o' := apply_with_auth (compute old_config new_config) demo_provider demo_orch in
  (starts o' "a" <= starts demo_orch "a" + 1)%nat.
Proof.
  apply (reload_minimal demo_orch old_config new_config demo_provider "a").
  - apply demo_configs_ok.
  - apply demo_configs_ok.
  - apply demo_provides.
  - reflexivity.
Defined.

(** C5: Nothing survives a shutdown.  However starts, stops, reloads and
    shutdowns interleave, a running supervisor always has an owner, the map
    or a caller in the middle of an operation; once a shutdown has drained
    the map it stays empty; so when the callers that were under way have
    finished, no supervisor runs. *)
Theorem shutdown_final {Tbl} `{!EqDecision Tbl} {X C} (o0 o : Orch Tbl X C) ts0 ts :
  shutdown_inv (o0, ts0) -> sys_steps (o0, ts0) (o, ts) ->
  (forall i, i ∈ running o -> in_map o i \/ exists t, t ∈ ts /\ held_by t i)
  /\ (shutting_down o = true -> profiles o = ∅ /\ (Forall (fun t => t = []) ts -> running o = ∅)).
Proof.
  intros Hi Hs. destruct (sys_steps_inv _ _ Hs Hi) as [H1 H2]. cbn [fst snd] in *. split; [done|].
  intros Hd. split; [by apply H2|]. intros Ht. apply set_eq. intros i. split; [|set_solver].
  intros Hr. exfalso. destruct (H1 i Hr) as [(n & s & Hm & _)|(t & Hin & (pc & Hpc & _))].
  - rewrite H2 in Hm by done. by rewrite lookup_empty in Hm.
  - eapply Forall_forall in Ht; [|done]. subst t. by apply elem_of_nil in Hpc.
Qed.

(** A start that passed the first check spawns after the shutdown has drained
    the map; its supervisor is discarded at the insertion. *)
Lemma shutdown_final_witness :
  let st := run_schedule [0; 1; 0; 0; 0; 1; 1; 0]%nat
    (Orchestrator_new (Tbl := Z) (X := unit) (C := unit), [[PcStart (demo_profile "a" None "h" []) tt]; [PcShutdown]]) in
  spawned st.1 = ["a"%string] /\ profiles st.1 = ∅ /\ running st.1 = ∅.
Proof.
  set (s0 := (Orchestrator_new (Tbl := Z) (X := unit) (C := unit), [[PcStart (demo_profile "a" None "h" []) tt]; [PcShutdown]])).
  intros st. split; [reflexivity|].
  destruct (shutdown_final s0.1 st.1 s0.2 st.2) as [_ H].
  - split; [intros i Hi; set_solver|done].
  - pose proof (run_schedule_steps [0; 1; 0; 0; 0; 1; 1; 0]%nat s0) as Hr. rewrite (surjective_pairing (run_schedule _ s0)) in Hr. exact Hr.
  - destruct H as [H1 H2]; [reflexivity|]. split; [exact H1|]. apply H2. repeat constructor.
Defined.
