(* ===== verification/KnownHosts.v ===== *)
(** * The known_hosts file

    Models [crates/spt-trust/src/known_hosts.rs] and [sha256_pin.rs]: parsing,
    host patterns, the exact-match index, verification, and rendering.  The
    key type of the [ssh_key] crate, Base64 and HMAC-SHA1 are outside the
    repository: the classes [SshKey] and [HostHash].  The text of a file is an
    argument, and so is what the operating system says when it cannot be read. *)

From S2P Require Import Prelude Text Errors.

(** [ssh_key::PublicKey].  A host key that was never given a comment has a wire
    form, and its text is one trimmed line that parses back to it. *)
Class SshKey (K : Type) := {
  to_bytes : K -> option string;
  to_openssh : K -> Result string string;
  from_openssh : string -> Result string K;
  fingerprint_sha256 : K -> string;
  uncommented : K -> bool;
  wire_form : forall k, uncommented k = true -> is_Some (to_bytes k);
  text_form : forall k, uncommented k = true -> exists s,
    to_openssh k = Ok s /\ from_openssh s = Ok k /\ s <> ""%string /\ trim s = s /\ no_char newline s = true
}.

(** The [base64] and [hmac] crates: Base64 decodes what it encoded, and its
    alphabet has neither whitespace nor a bar. *)
Class HostHash := {
  b64_encode : string -> string;
  b64_decode : string -> option string;
  hmac_sha1 : string -> string -> string;
  b64_inverse : forall s, b64_decode (b64_encode s) = Some s;
  b64_alphabet : forall s, no_char "|" (b64_encode s) = true
}.

Inductive Marker := MCertAuthority | MRevoked.

#[global] Instance Marker_eq_dec : EqDecision Marker.
Proof. solve_decision. Defined.

(** [Entry]. *)
Record Entry (K : Type) := mkEntry { marker : option Marker; host_field : string; e_key : K }.
Arguments mkEntry {K}.
Arguments marker {K}.
Arguments host_field {K}.
Arguments e_key {K}.

(** [HostIndex]. *)
Record HostIndex := mkHostIndex { exact : gmap string (list nat); needs_scan : list nat }.

Record KnownHosts (K : Type) := mkKnownHosts {
  kh_path : option string;
  entries : list (Entry K);
  index : option HostIndex
}.
Arguments mkKnownHosts {K}.
Arguments kh_path {K}.
Arguments entries {K}.
Arguments index {K}.

Inductive KnownHostsResult (K : Type) :=
| KMatch
| KMismatch (stored : list K)
| KNotFound
| KRevoked.
Arguments KMatch {K}.
Arguments KMismatch {K}.
Arguments KNotFound {K}.
Arguments KRevoked {K}.

(** ** Host patterns *)

Definition format_host (host : string) (port : Z) : string :=
  if port =? 22 then host else ("[" +:+ host +:+ "]:" +:+ pretty port)%string.

(** [glob_match]: the recursion on the pattern and, under a star, on the text. *)
Fixpoint glob_match (p : string) : string -> bool :=
  fix rec (t : string) : bool :=
    match p with
    | EmptyString => match t with EmptyString => true | String _ _ => false end
    | String a p' =>
        if Ascii.eqb a "*" then
          if glob_match p' t then true
          else match t with EmptyString => false | String _ t' => rec t' end
        else
          match t with
          | EmptyString => false
          | String b t' =>
              if Ascii.eqb a "?" then glob_match p' t'
              else if eq_ignore_ascii_case a b then glob_match p' t' else false
          end
    end.

(** The loop over a comma-separated list. *)
Fixpoint match_patterns (candidate : string) (raws : list string) (positive_hit : bool) : bool :=
  match raws with
  | [] => positive_hit
  | raw :: r =>
      let pat := trim raw in
      if (pat =? "")%string then match_patterns candidate r positive_hit
      else
        let '(neg, pat) := match strip_prefix "!" pat with Some p => (true, p) | None => (false, pat) end in
        let pat_norm := trim_matches quote pat in
        if glob_match pat_norm candidate
        then if (neg : bool) then false else match_patterns candidate r true
        else match_patterns candidate r positive_hit
  end.

Section KnownHosts.
Context {K : Type} `{SshKey K} `{HostHash}.

Definition verify_hashed (salt_b64 hash_b64 host : string) (port : Z) : bool :=
  match b64_decode salt_b64 with
  | None => false
  | Some salt =>
      match b64_decode hash_b64 with
      | None => false
      | Some want => (hmac_sha1 salt (format_host host port) =? want)%string
      end
  end.

Definition host_matches (field host : string) (port : Z) : bool :=
  match strip_prefix "|1|" field with
  | Some rest =>
      match split_once "|" rest with
      | Some (salt_b64, hash_b64) => verify_hashed salt_b64 hash_b64 host port
      | None => false
      end
  | None => match_patterns (format_host host port) (split_on "," field) false
  end.

(** [hash_host_random]; the salt is the random draw. *)
Definition hash_host (salt host_text : string) : string :=
  ("|1|" +:+ b64_encode salt +:+ "|" +:+ b64_encode (hmac_sha1 salt host_text))%string.

Definition keys_equal (a b : K) : bool :=
  match to_bytes a, to_bytes b with
  | Some x, Some y => (x =? y)%string
  | _, _ => false
  end.

(** ** The index *)

(** The literals of a plain list, as the index stores them. *)
Definition index_literal (i : nat) (exact : gmap string (list nat)) (raw : string) : gmap string (list nat) :=
  let pat := trim_matches quote (trim raw) in
  if (pat =? "")%string then exact
  else
    let k := to_ascii_lowercase pat in
    <[k := default [] (exact !! k) ++ [i]]> exact.

Definition index_one (idx : HostIndex) (i : nat) (field : string) : HostIndex :=
  if starts_with "|1|" field then mkHostIndex (exact idx) (needs_scan idx ++ [i])
  else if contains_char "*" field || contains_char "?" field || contains_char "!" field
  then mkHostIndex (exact idx) (needs_scan idx ++ [i])
  else mkHostIndex (foldl (index_literal i) (exact idx) (split_on "," field)) (needs_scan idx).

Fixpoint build_from (idx : HostIndex) (i : nat) (es : list (Entry K)) : HostIndex :=
  match es with
  | [] => idx
  | e :: r => build_from (index_one idx i (host_field e)) (S i) r
  end.

Definition build_index (es : list (Entry K)) : HostIndex := build_from (mkHostIndex ∅ []) 0 es.

(** ** Parsing *)

Definition parse_line (line : string) (lineno : Z) : Result Error (Entry K) :=
  let '(marker, rest) :=
    match strip_prefix "@cert-authority" line with
    | Some after => (Some MCertAuthority, trim_start after)
    | None =>
        match strip_prefix "@revoked" line with
        | Some after => (Some MRevoked, trim_start after)
        | None => (None, line)
        end
    end in
  let '(host_field, blob) := split_ws rest in
  key_blob ← ok_or (InvalidConfig ("known_hosts line " +:+ pretty lineno +:+ ": missing key")%string) blob;
  match from_openssh (trim key_blob) with
  | Err e => Err (InvalidConfig ("known_hosts line " +:+ pretty lineno +:+ ": parse key: " +:+ e)%string)
  | Ok key => Ok (mkEntry marker host_field key)
  end.

(** The loop of [parse]: blanks, comments and broken lines are passed over. *)
Fixpoint parse_lines (lineno : Z) (raws : list string) : list (Entry K) :=
  match raws with
  | [] => []
  | raw :: r =>
      let line := trim raw in
      if (line =? "")%string || starts_with "#" line then parse_lines (lineno + 1) r
      else
        match parse_line line (lineno + 1) with
        | Ok entry => entry :: parse_lines (lineno + 1) r
        | Err _ => parse_lines (lineno + 1) r
        end
  end.

Definition parse (text : string) : Result Error (KnownHosts K) :=
  let es := parse_lines 0 (lines text) in
  Ok (mkKnownHosts None es (Some (build_index es))).

(** [load]: [read] is what reading the file gave. *)
Definition load (path : string) (read : Result string string) : Result Error (KnownHosts K) :=
  match read with
  | Err e => Err (RuntimeFailure ("read known_hosts `" +:+ path +:+ "`: " +:+ e)%string)
  | Ok text => k ← parse text; Ok (mkKnownHosts (Some path) (entries k) (index k))
  end.

(** ** Verification *)

(** The variables [consider] updates. *)
Record Tally := mkTally { found_host : bool; stored : list K; matched_key : bool }.

(** [consider]: [None] is the early return of [Revoked]. *)
Definition consider (key : K) (e : Entry K) (t : Tally) : option Tally :=
  match marker e with
  | Some MRevoked => if keys_equal (e_key e) key then None else Some t
  | Some MCertAuthority => Some t
  | None => Some (mkTally true (stored t ++ [e_key e]) (keys_equal (e_key e) key || matched_key t))
  end.

(** A loop over indices of entries; an index out of range panics. *)
Fixpoint visit (key : K) (es : list (Entry K)) (want : Entry K -> bool) (ids : list nat) (t : Tally)
  : Outcome (option Tally) :=
  match ids with
  | [] => Return (Some t)
  | i :: r =>
      match es !! i with
      | None => Panic
      | Some e =>
          if want e then
            match consider key e t with
            | None => Return None
            | Some t' => visit key es want r t'
            end
          else visit key es want r t
      end
  end.

(** The loop without an index. *)
Fixpoint visit_all (key : K) (want : Entry K -> bool) (es : list (Entry K)) (t : Tally) : option Tally :=
  match es with
  | [] => Some t
  | e :: r =>
      if want e then
        match consider key e t with
        | None => None
        | Some t' => visit_all key want r t'
        end
      else visit_all key want r t
  end.

Definition verdict (t : option Tally) : KnownHostsResult K :=
  match t with
  | None => KRevoked
  | Some t => if matched_key t then KMatch else if found_host t then KMismatch (stored t) else KNotFound
  end.

Definition kh_verify (kh : KnownHosts K) (host : string) (port : Z) (key : K) : Outcome (KnownHostsResult K) :=
  let start := mkTally false [] false in
  let want e := host_matches (host_field e) host port in
  match index kh with
  | Some idx =>
      let hits := default [] (exact idx !! to_ascii_lowercase (format_host host port)) in
      r ← visit key (entries kh) (fun _ => true) hits start;
      match r with
      | None => Return KRevoked
      | Some t => r' ← visit key (entries kh) want (needs_scan idx) t; Return (verdict r')
      end
  | None => Return (verdict (visit_all key want (entries kh) start))
  end.

(** ** Changing and writing *)

(** [add]; [salt] is drawn only for a hashed entry. *)
Definition add (salt host : string) (port : Z) (key : K) (hashed : bool) (kh : KnownHosts K) : KnownHosts K :=
  let field := if hashed then hash_host salt (format_host host port) else format_host host port in
  mkKnownHosts (kh_path kh) (entries kh ++ [mkEntry None field key])
    ((fun idx => index_one idx (length (entries kh)) field) <$> index kh).

Definition render_entry (e : Entry K) : string :=
  (match marker e with
   | Some MCertAuthority => "@cert-authority "
   | Some MRevoked => "@revoked "
   | None => ""
   end +:+ host_field e +:+ " "
   +:+ match to_openssh (e_key e) with Ok s => s | Err _ => "" end +:+ String newline "")%string.

Fixpoint render_entries (es : list (Entry K)) : string :=
  match es with [] => "" | e :: r => (render_entry e +:+ render_entries r)%string end.

Definition render (kh : KnownHosts K) : string := render_entries (entries kh).

(** [save]: where the text goes and the text; [wrote] is how the atomic write
    ended. *)
Definition save (path : option string) (kh : KnownHosts K) (wrote : Result string ()) : Result Error (string * string) :=
  dest ← ok_or (InvalidArgs "KnownHosts::save: no destination path") (match path with Some p => Some p | None => kh_path kh end);
  match wrote with
  | Err e => Err (RuntimeFailure ("save known_hosts `" +:+ dest +:+ "`: " +:+ e)%string)
  | Ok _ => Ok (dest, render kh)
  end.

(** ** Pins *)

(** [Sha256HostPin]. *)
Record Sha256HostPin := mkSha256HostPin { pins : gmap string (list string) }.

Definition pin_insert (host : string) (port : Z) (fp : string) (p : Sha256HostPin) : Sha256HostPin :=
  let k := host_port host port in
  mkSha256HostPin (<[k := default [] (pins p !! k) ++ [fp]]> (pins p)).

Definition pin_verify (p : Sha256HostPin) (host : string) (port : Z) (key : K) : KnownHostsResult K :=
  let want := fingerprint_sha256 key in
  match pins p !! host_port host port with
  | None => KNotFound
  | Some list => if existsb (fun entry => (entry =? want)%string) list then KMatch else KMismatch [key]
  end.
End KnownHosts.

(** ** Lemmas: patterns *)

(** What a pattern means: a star is any run, a question mark any byte, and
    letters match without regard to case. *)
Inductive globs : string -> string -> Prop :=
| globs_end : globs "" ""
| globs_star_none p t : globs p t -> globs (String "*" p) t
| globs_star_one p b t : globs (String "*" p) t -> globs (String "*" p) (String b t)
| globs_any p b t : globs p t -> globs (String "?" p) (String b t)
| globs_char a p b t : a <> "*"%char -> a <> "?"%char -> lower a = lower b -> globs p t -> globs (String a p) (String b t).

Lemma glob_match_spec p t : glob_match p t = true <-> globs p t.
Proof.
  revert t. induction p as [|a p IH]; intros t.
  - destruct t; split; try done; [constructor|by inversion 1].
  - induction t as [|b t IHt].
    + cbn. destruct (Ascii.eqb_spec a "*") as [->|Ha]; [|split; [done|]; by inversion 1].
      destruct (glob_match p "") eqn:E; split; try done; [intros _; apply globs_star_none; by apply IH|].
      inversion 1 as [|? ? Hg| | |]; subst. by rewrite (proj2 (IH _) Hg) in E.
    + change (glob_match (String a p) (String b t)) with
        (if Ascii.eqb a "*" then if glob_match p (String b t) then true else glob_match (String a p) t
         else if Ascii.eqb a "?" then glob_match p t else if eq_ignore_ascii_case a b then glob_match p t else false).
      destruct (Ascii.eqb_spec a "*") as [->|Ha]; [|destruct (Ascii.eqb_spec a "?") as [->|Hq]].
      * destruct (glob_match p (String b t)) eqn:E.
        { split; [|done]. intros _. apply globs_star_none. by apply IH. }
        rewrite IHt. split; [by apply globs_star_one|]. inversion 1; subst; try done.
        exfalso. assert (glob_match p (String b t) = true) as Hc by by apply IH. by rewrite E in Hc.
      * rewrite IH. split; [by constructor|]. by inversion 1.
      * unfold eq_ignore_ascii_case. destruct (Ascii.eqb_spec (lower a) (lower b)) as [E|E].
        { rewrite IH. split; [by apply globs_char|]. by inversion 1. }
        split; [done|]. by inversion 1.
Qed.

(** Without wildcards a pattern matches itself, whatever the case. *)
Lemma glob_match_plain p t :
  no_char "*" p = true -> no_char "?" p = true ->
  glob_match p t = (to_ascii_lowercase p =? to_ascii_lowercase t)%string.
Proof.
  revert t. induction p as [|a p IH]; intros t; [by destruct t|].
  cbn [no_char]. intros [Ha%negb_true_iff Hp]%andb_true_iff [Hb%negb_true_iff Hq]%andb_true_iff.
  destruct t as [|b t]; cbn [glob_match to_ascii_lowercase String.eqb]; rewrite ?Ha, ?Hb; [done|].
  unfold eq_ignore_ascii_case. rewrite IH by done. by destruct (Ascii.eqb _ _).
Qed.

Section Lemmas.
Context {K : Type} `{SshKey K} `{HostHash}.
Implicit Types (e : Entry K) (es : list (Entry K)).

(** A field that the index resolves. *)
Definition plain_field (field : string) : bool :=
  negb (starts_with "|1|" field)
  && (no_char "*" field && no_char "?" field && no_char "!" field).

(** Its literals. *)
Definition literals (field : string) : list string :=
  to_ascii_lowercase <$> List.filter (fun p => negb (p =? "")%string) ((fun raw => trim_matches quote (trim raw)) <$> split_on "," field).

Lemma match_patterns_plain candidate raws hit :
  candidate <> ""%string ->
  Forall (fun raw => no_char "*" raw = true /\ no_char "?" raw = true /\ no_char "!" raw = true) raws ->
  match_patterns candidate raws hit
  = hit || existsb (fun raw => (to_ascii_lowercase (trim_matches quote (trim raw)) =? to_ascii_lowercase candidate)%string) raws.
Proof.
  intros Hc Hr. revert hit. induction Hr as [|raw raws (Hs & Hq & Hn) Hr IH]; intros hit; [by rewrite orb_false_r|].
  cbn [match_patterns existsb].
  assert ((to_ascii_lowercase "" =? to_ascii_lowercase candidate)%string = false) as Hemp.
  { apply String.eqb_neq. intros E. symmetry in E. by apply (proj1 (lowercase_empty _)) in E. }
  destruct (String.eqb_spec (trim raw) "") as [E|E].
  { rewrite IH, E. change (trim_matches quote "") with ""%string. by rewrite Hemp. }
  rewrite (no_char_prefix "!") by eauto with spt.
  rewrite glob_match_plain by eauto with spt.
  destruct (String.eqb_spec (to_ascii_lowercase (trim_matches quote (trim raw))) (to_ascii_lowercase candidate)); rewrite IH.
  - by rewrite orb_true_r.
  - done.
Qed.

Lemma plain_matches field host port :
  plain_field field = true -> format_host host port <> ""%string ->
  host_matches field host port = true <-> to_ascii_lowercase (format_host host port) ∈ literals field.
Proof.
  unfold plain_field, starts_with. intros [Hp [[Hs Hq]%andb_true_iff Hn]%andb_true_iff]%andb_true_iff Hc.
  apply negb_true_iff, bool_decide_eq_false, eq_None_not_Some in Hp. unfold host_matches. rewrite Hp.
  rewrite match_patterns_plain; [|done|].
  2:{ apply Forall_forall. intros raw Hraw. repeat split.
      - eapply Forall_forall in Hraw; [exact Hraw|by apply split_on_keeps].
      - eapply Forall_forall in Hraw; [exact Hraw|by apply split_on_keeps].
      - eapply Forall_forall in Hraw; [exact Hraw|by apply split_on_keeps]. }
  cbn [orb]. rewrite existsb_exists. unfold literals. rewrite list_elem_of_fmap. split.
  - intros (raw & Hin & E%String.eqb_eq). exists (trim_matches quote (trim raw)). split; [done|].
    apply list_elem_of_In, filter_In. split; [apply list_elem_of_In, list_elem_of_fmap; exists raw; by rewrite list_elem_of_In|].
    apply negb_true_iff, String.eqb_neq. intros Ez. rewrite Ez in E. symmetry in E. by apply (proj1 (lowercase_empty _)) in E.
  - intros (p & E & Hin). apply list_elem_of_In, filter_In in Hin as [Hin _].
    apply list_elem_of_In, list_elem_of_fmap in Hin as (raw & -> & Hraw).
    exists raw. split; [by apply list_elem_of_In|]. by apply String.eqb_eq.
Qed.

(** ** Lemmas: the index *)

(** What the index promises about the entries it was built from. *)
Definition index_spec (idx : HostIndex) es : Prop :=
  (forall key i, i ∈ default [] (exact idx !! key)
     <-> exists e, es !! i = Some e /\ plain_field (host_field e) = true /\ key ∈ literals (host_field e))
  /\ (forall i, i ∈ needs_scan idx <-> exists e, es !! i = Some e /\ plain_field (host_field e) = false).

Lemma index_literals_spec i raws m key j :
  j ∈ default [] (foldl (index_literal i) m raws !! key)
  <-> j ∈ default [] (m !! key)
      \/ (j = i /\ key ∈ to_ascii_lowercase <$> List.filter (fun p => negb (p =? "")%string) ((fun raw => trim_matches quote (trim raw)) <$> raws)).
Proof.
  revert m. induction raws as [|raw raws IH]; intros m; cbn [foldl fmap list_fmap List.filter]; [set_solver|].
  rewrite IH. unfold index_literal. destruct (String.eqb_spec (trim_matches quote (trim raw)) "") as [E|E]; cbn [negb]; [done|].
  cbn [fmap list_fmap]. rewrite elem_of_cons. destruct (decide (key = to_ascii_lowercase (trim_matches quote (trim raw)))) as [->|Hk].
  - rewrite lookup_insert_eq. cbn. rewrite elem_of_app, list_elem_of_singleton. tauto.
  - rewrite lookup_insert_ne by done. tauto.
Qed.

Lemma index_one_spec idx es e :
  index_spec idx es -> index_spec (index_one idx (length es) (host_field e)) (es ++ [e]).
Proof.
  intros [Hex Hns].
  assert (forall i P, (exists e', (es ++ [e]) !! i = Some e' /\ P e')
    <-> (exists e', es !! i = Some e' /\ P e') \/ (i = length es /\ P e)) as Hsnoc.
  { intros i P. split.
    - intros (e' & [Hl|[Hi Hl2]]%lookup_app_Some & HP); [by left; exists e'|].
      right. apply lookup_lt_Some in Hl2 as Hlt. cbn in Hlt. assert (i = length es) as -> by lia. rewrite Nat.sub_diag in Hl2. by injection Hl2 as ->.
    - intros [(e' & Hl & HP)|[-> HP]]; [exists e'; split; [by apply lookup_app_l_Some|done]|].
      exists e. by rewrite list_lookup_middle. }
  assert (plain_field (host_field e) = negb (starts_with "|1|" (host_field e)
    || (contains_char "*" (host_field e) || contains_char "?" (host_field e) || contains_char "!" (host_field e)))) as Hpl.
  { unfold plain_field, contains_char. by rewrite !negb_orb, !negb_involutive. }
  split.
  - intros key i. rewrite (Hsnoc i (fun e' => _ /\ _)), <- Hex. unfold index_one.
    destruct (starts_with _ _); [|destruct (_ || _ || _) eqn:E]; cbn [exact negb orb] in *; rewrite Hpl.
    + split; [by left|]. by intros [?|(_ & ? & _)].
    + split; [by left|]. by intros [?|(_ & ? & _)].
    + rewrite index_literals_spec. unfold literals. tauto.
  - intros i. rewrite (Hsnoc i (fun e' => _)), <- Hns. unfold index_one.
    destruct (starts_with _ _); [|destruct (_ || _ || _) eqn:E]; cbn [needs_scan negb orb] in *; rewrite Hpl.
    + rewrite elem_of_app, list_elem_of_singleton. tauto.
    + rewrite elem_of_app, list_elem_of_singleton. tauto.
    + split; [by left|]. by intros [?|[_ ?]].
Qed.

Lemma build_from_snoc idx i es e :
  build_from idx i (es ++ [e]) = index_one (build_from idx i es) (i + length es) (host_field e).
Proof.
  revert idx i. induction es as [|e' es IH]; intros idx i; cbn; [by rewrite Nat.add_0_r|].
  rewrite IH. f_equal. lia.
Qed.

Lemma build_index_snoc es e :
  build_index (es ++ [e]) = index_one (build_index es) (length es) (host_field e).
Proof. apply build_from_snoc. Qed.

Lemma build_index_spec es : index_spec (build_index es) es.
Proof.
  induction es as [|e es IH] using rev_ind.
  - split; [intros key i; cbn; rewrite lookup_empty|intros i]; cbn; split; try by intros ?%elem_of_nil.
    + by intros (? & ? & _).
    + by intros (? & ? & _).
  - rewrite build_index_snoc. by apply index_one_spec.
Qed.

(** ** Lemmas: verification *)

(** The tally after a list of matching entries. *)
Fixpoint tally (key : K) es (t : Tally) : option Tally :=
  match es with
  | [] => Some t
  | e :: r => match consider key e t with None => None | Some t' => tally key r t' end
  end.

Definition vouches e : bool := match marker e with None => true | Some _ => false end.
Definition revokes (key : K) e : bool :=
  match marker e with Some MRevoked => keys_equal (e_key e) key | _ => false end.

Lemma tally_app key es1 es2 t :
  tally key (es1 ++ es2) t = match tally key es1 t with Some t' => tally key es2 t' | None => None end.
Proof. revert t. induction es1 as [|e es1 IH]; intros t; cbn; [done|]. by destruct (consider key e t). Qed.

Lemma tally_spec key es t :
  match tally key es t with
  | None => exists e, e ∈ es /\ revokes key e = true
  | Some t' =>
      (forall e, e ∈ es -> revokes key e = false)
      /\ stored t' = stored t ++ (e_key <$> List.filter vouches es)
      /\ found_host t' = found_host t || existsb vouches es
      /\ matched_key t' = matched_key t || existsb (fun e => vouches e && keys_equal (e_key e) key) es
  end.
Proof.
  revert t. induction es as [|e es IH]; intros t; cbn.
  { rewrite !orb_false_r, app_nil_r. split; [set_solver|done]. }
  destruct (consider key e t) as [t1|] eqn:Ec.
  - specialize (IH t1). unfold consider in Ec. unfold revokes in *.
    assert (vouches e = match marker e with None => true | _ => false end) as Hv by done. rewrite Hv.
    destruct (tally key es t1) as [t'|].
    + destruct IH as (Hr & Hs & Hf & Hm). split.
      * intros e' [->|He]%elem_of_cons; [|by apply Hr]. destruct (marker e) as [[]|]; [done| |done].
        by destruct (keys_equal _ _).
      * rewrite Hs, Hf, Hm. destruct (marker e) as [[]|]; [by injection Ec as <-| |].
        { destruct (keys_equal _ _); [done|]. by injection Ec as <-. }
        injection Ec as <-. cbn. rewrite orb_true_r, <- app_assoc.
        split; [done|split; [done|]]. by rewrite (orb_comm (keys_equal _ _)), orb_assoc.
    + destruct IH as (e' & He & Hr). exists e'. split; [set_solver|done].
  - exists e. split; [set_solver|]. unfold consider in Ec. unfold revokes.
    destruct (marker e) as [[]|]; try done. by destruct (keys_equal _ _).
Qed.

(** The entries a loop over indices looks at. *)
Definition picked es (want : Entry K -> bool) (ids : list nat) : list (Entry K) :=
  List.filter want (omap (fun i => es !! i) ids).

Lemma visit_tally key es want ids t :
  Forall (fun i => is_Some (es !! i)) ids -> visit key es want ids t = Return (tally key (picked es want ids) t).
Proof.
  intros Hi. revert t. unfold picked. induction Hi as [|i ids [e He] Hi IH]; intros t; cbn; [done|].
  rewrite He. cbn. destruct (want e); [|apply IH]. cbn. destruct (consider key e t); [apply IH|done].
Qed.

Lemma visit_all_tally key es want t : visit_all key want es t = tally key (List.filter want es) t.
Proof.
  revert t. induction es as [|e es IH]; intros t; cbn; [done|].
  destruct (want e); [|apply IH]. cbn. destruct (consider key e t); [apply IH|done].
Qed.

Lemma elem_of_picked es want ids e :
  e ∈ picked es want ids <-> want e = true /\ exists i, i ∈ ids /\ es !! i = Some e.
Proof.
  unfold picked. rewrite list_elem_of_In, filter_In, <- list_elem_of_In, list_elem_of_omap. tauto.
Qed.

(** The index, when there is one, was built from the entries. *)
Definition coherent (kh : KnownHosts K) : Prop :=
  match index kh with None => True | Some idx => idx = build_index (entries kh) end.

(** Verification is a tally over entries that are exactly the matching ones. *)
Lemma verify_tally kh host port key :
  coherent kh -> format_host host port <> ""%string ->
  exists es, kh_verify kh host port key = Return (verdict (tally key es (mkTally false [] false)))
    /\ forall e, e ∈ es <-> e ∈ entries kh /\ host_matches (host_field e) host port = true.
Proof.
  intros Hc Hh. unfold kh_verify, coherent in *. destruct (index kh) as [idx|].
  2:{ rewrite visit_all_tally. eexists. split; [done|]. intros e.
      rewrite list_elem_of_In, filter_In, <- list_elem_of_In. done. }
  subst idx. destruct (build_index_spec (entries kh)) as [Hex Hns].
  set (k := to_ascii_lowercase (format_host host port)).
  rewrite visit_tally by (apply Forall_forall; intros i (e & -> & _)%Hex; eauto).
  set (hits := picked _ _ _). cbn [mbind outcome_bind].
  set (want := fun e => _).
  exists (hits ++ picked (entries kh) want (needs_scan (build_index (entries kh)))). rewrite tally_app. split.
  - destruct (tally key hits _); [|done].
    by rewrite visit_tally by (apply Forall_forall; intros i (e & -> & _)%Hns; eauto).
  - intros e. subst hits want. rewrite elem_of_app, !elem_of_picked. split.
    + intros [[_ (i & (e' & Hl & Hp & Hk)%Hex & Hl')]|[Hm (i & _ & Hl)]].
      * assert (e' = e) as -> by congruence. split; [by eapply list_elem_of_lookup_2|]. by apply plain_matches.
      * split; [by eapply list_elem_of_lookup_2|done].
    + intros [[i Hl]%list_elem_of_lookup_1 Hm]. destruct (plain_field (host_field e)) eqn:Hp.
      * left. split; [done|]. exists i. split; [|done]. apply Hex. exists e. split_and!; try done. by apply plain_matches.
      * right. split; [done|]. exists i. split; [|done]. apply Hns. by exists e.
Qed.

Lemma parse_coherent text : exists kh, parse text = Ok kh /\ coherent kh.
Proof. by eexists. Qed.

Lemma add_coherent salt host port key hashed kh : coherent kh -> coherent (add salt host port key hashed kh).
Proof.
  unfold coherent, add. cbn [index entries]. destruct (index kh) as [idx|]; [|done].
  cbn [fmap option_fmap option_map]. intros ->. by rewrite build_index_snoc.
Qed.

(** ** Lemmas: text *)

(** The entry of one line, if it has one. *)
Definition line_entry (raw : string) : option (Entry K) :=
  let line := trim raw in
  if (line =? "")%string || starts_with "#" line then None
  else match parse_line line 0 with Ok e => Some e | Err _ => None end.

Lemma parse_line_lineno line n m :
  match parse_line line n with Ok e => Some e | Err _ => None end
  = match parse_line line m with Ok e => Some e | Err _ => None end :> option (Entry K).
Proof.
  unfold parse_line. destruct (match strip_prefix "@cert-authority" line with Some _ => _ | None => _ end) as [mk rest].
  destruct (split_ws rest) as [h [b|]]; [|done]. cbn. by destruct (from_openssh (trim b)).
Qed.

Lemma parse_lines_omap n raws : parse_lines n raws = omap line_entry raws.
Proof.
  revert n. induction raws as [|raw raws IH]; intros n; cbn [parse_lines omap list_omap]; [done|].
  unfold line_entry at 1. destruct (_ || _); [apply IH|].
  rewrite (parse_line_lineno (trim raw) 0 (n + 1)). destruct (parse_line _ _); by rewrite IH.
Qed.

Lemma line_entry_strip_cr raw : line_entry (strip_cr raw) = line_entry raw.
Proof. unfold line_entry. by rewrite trim_strip_cr. Qed.

(** A host field that a line can carry. *)
Definition field_ok (field : string) : bool :=
  negb (field =? "")%string && ws_free field && negb (starts_with "#" field) && negb (starts_with "@" field).

Definition entry_ok (e : Entry K) : Prop := field_ok (host_field e) = true /\ uncommented (e_key e) = true.

(** [render_entry] without its newline. *)
Definition entry_line (e : Entry K) (text : string) : string :=
  (match marker e with
   | Some MCertAuthority => "@cert-authority "
   | Some MRevoked => "@revoked "
   | None => ""
   end +:+ host_field e +:+ String " " text)%string.

Lemma trim_start_space x : strip_ws x = None -> trim_start (String " " x) = x.
Proof. intros Hx. rewrite trim_start_step. by apply trim_start_free. Qed.

(** The line of an entry reads back as the entry. *)
Lemma entry_line_parses e s :
  field_ok (host_field e) = true -> from_openssh s = Ok (e_key e) -> s <> ""%string -> trim s = s ->
  line_entry (entry_line e s) = Some e.
Proof.
  unfold field_ok. intros [[[Hne Hws]%andb_true_iff Hh%negb_true_iff]%andb_true_iff Ha%negb_true_iff]%andb_true_iff Hk Hs Ht.
  apply negb_true_iff, String.eqb_neq in Hne. destruct e as [m field key]. cbn [host_field e_key marker] in *.
  assert (split_ws (field +:+ String " " s) = (field, Some s)) as Hsp by by apply split_ws_app.
  assert (strip_ws (field +:+ String " " s) = None) as Hst by by rewrite strip_ws_app, ws_free_head.
  destruct field as [|c field]; [done|].
  unfold line_entry, entry_line. cbn [marker host_field].
  set (pre := match m with Some MCertAuthority => "@cert-authority "%string | Some MRevoked => "@revoked "%string | None => ""%string end).
  assert (trim (pre +:+ String c field +:+ String " " s) = (pre +:+ String c field +:+ String " " s)%string) as ->.
  { rewrite <- str_app_assoc. apply trim_word_text; try done.
    - by destruct m as [[]|].
    - destruct m as [[]|]; subst pre; [rewrite str_cons_app; by apply strip_ws_ascii..|]. by apply ws_free_head. }
  assert (starts_with "#" (pre +:+ String c field +:+ String " " s) = false) as ->.
  { destruct m as [[]|]; try done. subst pre. rewrite str_nil_app, str_cons_app. by rewrite starts_with_head in *. }
  rewrite (proj2 (String.eqb_neq _ _)) by (by destruct m as [[]|]). cbn [orb].
  assert (match strip_prefix "@cert-authority" (pre +:+ String c field +:+ String " " s) with
    | Some after => (Some MCertAuthority, trim_start after)
    | None =>
        match strip_prefix "@revoked" (pre +:+ String c field +:+ String " " s) with
        | Some after => (Some MRevoked, trim_start after)
        | None => (None, pre +:+ String c field +:+ String " " s)
        end
    end = (m, String c field +:+ String " " s))%string as Hm.
  { destruct m as [[]|]; subst pre.
    - change "@cert-authority "%string with ("@cert-authority" +:+ " ")%string.
      rewrite str_app_assoc, strip_prefix_app. f_equal. by apply trim_start_space.
    - change "@revoked "%string with ("@revoked" +:+ " ")%string.
      rewrite str_app_assoc, strip_prefix_app. f_equal. by apply trim_start_space.
    - rewrite str_nil_app, str_cons_app. rewrite starts_with_head in Ha. cbn [strip_prefix]. by rewrite Ha. }
  unfold parse_line. rewrite Hm, Hsp. cbn [ok_or mbind result_bind]. by rewrite Ht, Hk.
Qed.

(** Rendered entries read back. *)
Lemma parse_render_entries es : Forall entry_ok es -> omap line_entry (lines (render_entries es)) = es.
Proof.
  induction 1 as [|e es [Hf Hk] Hes IH]; [done|].
  destruct (text_form (e_key e) Hk) as (s & Eo & Ei & Hs & Ht & Hn).
  assert (render_entry e = (entry_line e s +:+ String newline "")%string) as Er.
  { unfold render_entry, entry_line. rewrite Eo. by rewrite !str_app_assoc. }
  cbn [render_entries]. rewrite Er, str_app_assoc.
  rewrite str_cons_app, str_nil_app, lines_cons.
  - cbn. rewrite line_entry_strip_cr, entry_line_parses by done. by rewrite IH.
  - unfold entry_line. unfold field_ok in Hf. apply andb_true_iff in Hf as [[[_ Hws]%andb_true_iff _]%andb_true_iff _].
    rewrite !no_char_app, (ws_free_no_newline _ Hws). cbn. rewrite Hn.
    by destruct (marker e) as [[]|].
Qed.

(** ** Lemmas: added hosts *)

(** A host name that is no pattern: nothing in it has a meaning in a host
    field. *)
Definition name_ok (text : string) : bool :=
  field_ok text && plain_field text && no_char "," text && no_char quote text.

Lemma name_matches host port :
  name_ok (format_host host port) = true -> host_matches (format_host host port) host port = true.
Proof.
  unfold name_ok, field_ok.
  intros [[[[[[Hne Hws]%andb_true_iff _]%andb_true_iff _]%andb_true_iff Hp]%andb_true_iff Hc]%andb_true_iff Hq]%andb_true_iff.
  apply negb_true_iff, String.eqb_neq in Hne.
  apply plain_matches; [done|done|]. unfold literals. rewrite split_on_no_char by done.
  cbn [fmap list_fmap List.filter]. rewrite trim_free, trim_matches_free by done.
  rewrite (proj2 (String.eqb_neq _ _) Hne). by apply list_elem_of_singleton.
Qed.

Lemma hashed_matches salt host port : host_matches (hash_host salt (format_host host port)) host port = true.
Proof.
  unfold host_matches, hash_host. rewrite strip_prefix_app, (str_cons_app "|" ""), str_nil_app, split_once_app by apply b64_alphabet.
  unfold verify_hashed. rewrite !b64_inverse. by apply String.eqb_eq.
Qed.

Lemma keys_equal_refl k : uncommented k = true -> keys_equal k k = true.
Proof. intros Hk. unfold keys_equal. destruct (wire_form k Hk) as [b ->]. apply String.eqb_refl. Qed.
End Lemmas.

(** ** What verification decides *)

Section Verdict.
Context {K : Type} `{SshKey K} `{HostHash}.

(** The entries whose pattern matches the host. *)
Definition applies (kh : KnownHosts K) (host : string) (port : Z) (e : Entry K) : Prop :=
  e ∈ entries kh /\ host_matches (host_field e) host port = true.

(** The meaning of each verdict. *)
Definition decides (kh : KnownHosts K) (host : string) (port : Z) (key : K) (r : KnownHostsResult K) : Prop :=
  let revoked := exists e, applies kh host port e /\ marker e = Some MRevoked /\ keys_equal (e_key e) key = true in
  let known := exists e, applies kh host port e /\ marker e = None /\ keys_equal (e_key e) key = true in
  match r with
  | KRevoked => revoked
  | KMatch => ~ revoked /\ known
  | KMismatch ks => ~ revoked /\ ~ known /\ ks <> []
      /\ forall k, k ∈ ks <-> exists e, applies kh host port e /\ marker e = None /\ e_key e = k
  | KNotFound => ~ revoked /\ forall e, applies kh host port e -> marker e <> None
  end.

Lemma revokes_true key (e : Entry K) :
  revokes key e = true <-> marker e = Some MRevoked /\ keys_equal (e_key e) key = true.
Proof. unfold revokes. destruct (marker e) as [[]|]; split; try done; by intros []. Qed.

Lemma vouches_true (e : Entry K) : vouches e = true <-> marker e = None.
Proof. unfold vouches. by destruct (marker e) as [[]|]. Qed.

Lemma verdict_decides kh host port key es :
  (forall e, e ∈ es <-> applies kh host port e) ->
  decides kh host port key (verdict (tally key es (mkTally false [] false))).
Proof.
  intros Hes. pose proof (tally_spec key es (mkTally false [] false)) as Ht.
  destruct (tally key es _) as [t|]; cbn [verdict].
  2:{ destruct Ht as (e & He%Hes & Hr%revokes_true). by exists e. }
  destruct Ht as (Hr & Hst & Hf & Hm). cbn [stored found_host matched_key app orb] in *.
  assert (~ exists e, applies kh host port e /\ marker e = Some MRevoked /\ keys_equal (e_key e) key = true) as Hnr.
  { intros (e & He%Hes & Hk%revokes_true). by rewrite (Hr _ He) in Hk. }
  assert (matched_key t = true <-> exists e, applies kh host port e /\ marker e = None /\ keys_equal (e_key e) key = true) as Hmk.
  { rewrite Hm, existsb_exists. split.
    - intros (e & He%list_elem_of_In%Hes & [Hv%vouches_true Hk]%andb_true_iff). by exists e.
    - intros (e & He%Hes%list_elem_of_In & Hv%vouches_true & Hk). exists e. split; [done|]. by rewrite Hv, Hk. }
  destruct (matched_key t) eqn:Em; [split; [done|by apply Hmk]|].
  assert (forall k, k ∈ stored t <-> exists e, applies kh host port e /\ marker e = None /\ e_key e = k) as Hks.
  { intros k. rewrite Hst, list_elem_of_fmap. split.
    - intros (e & -> & [He%list_elem_of_In%Hes Hv%vouches_true]%list_elem_of_In%filter_In). by exists e.
    - intros (e & He%Hes & Hv%vouches_true & <-). exists e. split; [done|].
      apply list_elem_of_In, filter_In. by rewrite <- list_elem_of_In. }
  destruct (found_host t) eqn:Ef.
  - split_and!; [done| |  |done].
    + intros Hk. apply Hmk in Hk. congruence.
    + symmetry in Hf. apply existsb_exists in Hf as (e & He%list_elem_of_In%Hes & Hv%vouches_true).
      intros En. apply (not_elem_of_nil (e_key e)). rewrite <- En. apply Hks. by exists e.
  - split; [done|]. intros e He%Hes Hv%vouches_true.
    assert (existsb vouches es = true) as Hx; [|congruence]. apply existsb_exists. exists e. by rewrite <- list_elem_of_In.
Qed.
End Verdict.

(** ** A key type for examples *)

(** Keys that are their own wire form. *)
Definition toy_text (k : string) : string := ("ssh-toy" +:+ String " " k)%string.

#[global, program] Instance toy_key : SshKey string := {|
  to_bytes k := Some k;
  to_openssh k := Ok (toy_text k);
  from_openssh s := match strip_prefix "ssh-toy " s with Some k => Ok k | None => Err "not a key"%string end;
  fingerprint_sha256 k := ("SHA256:" +:+ k)%string;
  uncommented k := ws_free k && negb (k =? "")%string
|}.
Next Obligation. by intros k _. Qed.
Next Obligation.
  intros k [Hws Hk%negb_true_iff%String.eqb_neq]%andb_true_iff. exists (toy_text k). unfold toy_text. split_and!; try done.
  - apply trim_word_text; try done. by apply trim_free.
  - rewrite no_char_app. cbn. by rewrite ws_free_no_newline.
Qed.

(** Two letters for a byte, and a checksum that is the text itself. *)
Definition hex_digit (n : nat) : ascii := ascii_of_nat (65 + n).
Definition hex_value (a : ascii) : nat := nat_of_ascii a - 65.

Fixpoint hex_encode (s : string) : string :=
  match s with
  | EmptyString => EmptyString
  | String a s' => String (hex_digit (nat_of_ascii a / 16)) (String (hex_digit (nat_of_ascii a mod 16)) (hex_encode s'))
  end.

Fixpoint hex_decode (s : string) : option string :=
  match s with
  | EmptyString => Some EmptyString
  | String a (String b s') => String (ascii_of_nat (hex_value a * 16 + hex_value b)) <$> hex_decode s'
  | _ => None
  end.

#[global, program] Instance toy_hash : HostHash := {|
  b64_encode := hex_encode;
  b64_decode := hex_decode;
  hmac_sha1 salt text := (salt +:+ text)%string
|}.
Next Obligation.
  induction s as [|a s IH]; [done|]. cbn [hex_encode hex_decode]. rewrite IH. cbn. do 2 f_equal.
  destruct a as [[] [] [] [] [] [] [] []]; vm_compute; reflexivity.
Qed.
Next Obligation.
  induction s as [|a s IH]; [done|]. cbn [hex_encode no_char]. rewrite IH.
  destruct a as [[] [] [] [] [] [] [] []]; vm_compute; reflexivity.
Qed.

(** ** Theorems *)

Section Theorems.
Context {K : Type} `{SshKey K} `{HostHash}.

(** C19: The verdict on a host key is what the entries say, index or not.  For a
    file as parsed and added to, [verify] never indexes out of range and its
    answer is exactly this: [Revoked] when a matching [@revoked] entry has the
    key, wherever in the file it stands; otherwise [Match] when a matching
    ordinary entry has it; otherwise [Mismatch] with precisely the keys of the
    matching ordinary entries, if there are any; otherwise [NotFound].  The
    exact-match index therefore changes no answer. *)
Theorem known_hosts_verify_exact (kh : KnownHosts K) (host : string) (port : Z) (key : K) :
  coherent kh -> format_host host port <> ""%string ->
  exists r, kh_verify kh host port key = Return r /\ decides kh host port key r.
Proof.
  intros Hc Hh. destruct (verify_tally kh host port key Hc Hh) as (es & E & Hes).
  eexists. split; [exact E|]. by apply verdict_decides.
Qed.

(** A saved file reads back: for entries whose host fields are single words that
    are neither comments nor markers, parsing the rendered text gives the same
    entries in the same order, with their index. *)
Theorem known_hosts_roundtrip (kh : KnownHosts K) :
  Forall entry_ok (entries kh) ->
  parse (render kh) = Ok (mkKnownHosts None (entries kh) (Some (build_index (entries kh)))).
Proof.
  intros Hes. unfold parse. rewrite parse_lines_omap. unfold render.
  by rewrite (parse_render_entries _ Hes).
Qed.

(** A key that was added is known: hashed or in plain text, [verify] then
    answers [Match], unless the file revokes the key. *)
Theorem added_key_known (kh : KnownHosts K) (salt host : string) (port : Z) (key : K) (hashed : bool) :
  coherent kh -> name_ok (format_host host port) = true -> uncommented key = true ->
  kh_verify (add salt host port key hashed kh) host port key = Return KMatch
  \/ kh_verify (add salt host port key hashed kh) host port key = Return KRevoked.
Proof.
  intros Hc Hn Hk. set (kh' := add salt host port key hashed kh).
  assert (format_host host port <> ""%string) as Hh.
  { intros E. rewrite E in Hn. done. }
  destruct (verify_tally kh' host port key (add_coherent _ _ _ _ _ _ Hc) Hh) as (es & E & Hes).
  pose proof (verdict_decides kh' host port key es Hes) as Hd. rewrite E.
  set (f := if hashed then hash_host salt (format_host host port) else format_host host port).
  assert (applies kh' host port (mkEntry None f key)) as Ha.
  { split; [cbn; apply elem_of_app; right; by apply list_elem_of_singleton|]. cbn. subst f.
    destruct hashed; [apply hashed_matches|by apply name_matches]. }
  destruct (verdict _) as [|ks| |]; [by left| | |by right]; cbn [decides] in Hd.
  - destruct Hd as (_ & Hd & _). destruct Hd. exists (mkEntry None f key). by rewrite keys_equal_refl.
  - destruct Hd as [_ Hd]. by destruct (Hd _ Ha).
Qed.
End Theorems.

(** A file with a wildcard, a hashed and a revoked entry and a broken line. *)
Definition demo_hosts : string :=
  ("# fleet" +:+ String newline "*.example.com,!bad.example.com ssh-toy KA" +:+ String newline "broken"
   +:+ String newline "Git.example.com,alias ssh-toy KB" +:+ String newline "@revoked * ssh-toy KX" +:+ String newline "")%string.

Definition demo_kh : KnownHosts string :=
  match parse demo_hosts with Ok kh => kh | Err _ => mkKnownHosts None [] None end.

Lemma known_hosts_verify_exact_witness :
  length (entries demo_kh) = 3%nat
  /\ kh_verify demo_kh "bad.example.com" 22 "KA" = Return KNotFound
  /\ kh_verify demo_kh "git.EXAMPLE.com" 22 "KX" = Return KRevoked
  /\ kh_verify demo_kh "git.example.com" 22 "KC" = Return (KMismatch ["KB"; "KA"]%string)
  /\ exists r, kh_verify demo_kh "git.example.com" 22 "KC" = Return r /\ decides demo_kh "git.example.com" 22 "KC" r.
Proof.
  split_and!; try (vm_compute; reflexivity). apply known_hosts_verify_exact; [vm_compute; reflexivity|done].
Defined.

Lemma known_hosts_roundtrip_witness : parse (render demo_kh) = Ok demo_kh.
Proof. apply (known_hosts_roundtrip demo_kh). repeat constructor; vm_compute; reflexivity. Defined.

Lemma added_key_known_witness :
  kh_verify (add "salt" "new.host" 2222 "KN" true demo_kh) "new.host" 2222 "KN"%string = Return KMatch
  \/ kh_verify (add "salt" "new.host" 2222 "KN" true demo_kh) "new.host" 2222 "KN"%string = Return KRevoked.
Proof. apply added_key_known; vm_compute; reflexivity. Defined.
