(* ===== verification/HostKey.v ===== *)
(** * Host-key trust

    Models [crates/spt-ssh2/src/hostkey.rs], the handler [check_server_key] of
    [russh_backend.rs] and [build_trust_policy] of
    [crates/spt-bin/src/profile_factory.rs].  The file system is a map from
    paths to files; how each operation on the disk ends is an argument.  A
    policy is built once per profile and every connection of the profile
    verifies with a copy of it. *)

From S2P Require Import Prelude Text Errors KnownHosts.

(** ** Files *)

(** A file holds text, or cannot be read for the reason given. *)
Inductive File := TextFile (text : string) | Unreadable (why : string).

Abbreviation FileSystem := (gmap string File).

(** How the steps of an append end. *)
Record Disk := mkDisk {
  lock_opened : Result string ();
  lock_taken : Result string ();
  temp_created : Result string ();
  mode_set : Result string ();
  temp_written : Result string ();
  temp_synced : Result string ();
  target_replaced : Result string ()
}.

Definition Disk_ok : Disk := mkDisk (Ok tt) (Ok tt) (Ok tt) (Ok tt) (Ok tt) (Ok tt) (Ok tt).

(** [map_err] with a text in front of the system's. *)
Definition trust_error (what : string) (r : Result string ()) : Result Error () :=
  match r with Ok u => Ok u | Err e => Err (TrustFailed (what +:+ ": " +:+ e)%string) end.

(** [KnownHostsAppendLock::acquire]. *)
Definition acquire_lock (d : Disk) (path : string) : Result Error () :=
  _ ← trust_error ("open known_hosts lock " +:+ path +:+ ".spt-tofu.lock") (lock_opened d);
  trust_error ("lock known_hosts " +:+ path +:+ " via " +:+ path +:+ ".spt-tofu.lock") (lock_taken d).

(** [write_atomic_known_hosts]: the target changes only in the last step. *)
Definition write_atomic_known_hosts (d : Disk) (path content : string) (fs : FileSystem)
  : Result Error () * FileSystem :=
  let r :=
    _ ← trust_error ("create temp for known_hosts " +:+ path) (temp_created d);
    _ ← trust_error ("set 0600 on temp for known_hosts " +:+ path) (mode_set d);
    _ ← trust_error ("write temp for known_hosts " +:+ path) (temp_written d);
    _ ← trust_error ("fsync temp for known_hosts " +:+ path) (temp_synced d);
    trust_error ("atomically replace known_hosts " +:+ path) (target_replaced d) in
  match r with
  | Ok _ => (Ok tt, <[path := TextFile content]> fs)
  | Err e => (Err e, fs)
  end.

Section HostKey.
Context {K : Type} `{SshKey K} `{HostHash}.

(** [append_known_hosts]. *)
Definition append_known_hosts (d : Disk) (path host : string) (port : Z) (key : K) (fs : FileSystem)
  : Result Error () * FileSystem :=
  let host_prefix := format_host host port in
  match to_openssh key with
  | Err e => (Err (TrustFailed ("encode host key for TOFU append: " +:+ e)%string), fs)
  | Ok encoded =>
      let line := (host_prefix +:+ String " " (encoded +:+ String newline ""))%string in
      match acquire_lock d path with
      | Err e => (Err e, fs)
      | Ok _ =>
          match fs !! path with
          | Some (Unreadable e) =>
              (Err (TrustFailed ("read known_hosts " +:+ path +:+ " for TOFU append: " +:+ e)%string), fs)
          | file =>
              let content := match file with Some (TextFile s) => s | _ => ""%string end in
              let content :=
                if negb (content =? "")%string && negb (ends_with newline content)
                then (content +:+ String newline "")%string else content in
              write_atomic_known_hosts d path (content +:+ line)%string fs
          end
      end
  end.

(** ** The verifier *)

Record TrustVerifier := mkTrustVerifier {
  tv_known_hosts : option (KnownHosts K);
  sha256_pins : option Sha256HostPin;
  known_hosts_path : option string;
  strict : bool;
  accept_new : bool
}.

Inductive HostKeyOutcome := OMatch | ONotFound | OTofuAdded.

(** [host:port] in a message. *)
Definition at_host (before host : string) (port : Z) (after : string) : Error :=
  TrustFailed (before +:+ host_port host port +:+ after)%string.

(** The part of [verify] after the sources: trust on first use, strictness. *)
Definition verify_unknown (d : Disk) (v : TrustVerifier) (host : string) (port : Z) (key : K) (fs : FileSystem)
  : Result Error HostKeyOutcome * FileSystem :=
  let refuse :=
    if strict v then (Err (at_host "host " host port " not found in any trust source (strict mode)"), fs)
    else (Ok ONotFound, fs) in
  if accept_new v then
    match known_hosts_path v with
    | Some path =>
        let '(r, fs') := append_known_hosts d path host port key fs in
        match r with
        | Err e => (Err e, fs')
        | Ok _ => (Ok OTofuAdded, fs')
        end
    | None => refuse
    end
  else refuse.

Definition verify_pins (d : Disk) (v : TrustVerifier) (host : string) (port : Z) (key : K) (fs : FileSystem)
  : Result Error HostKeyOutcome * FileSystem :=
  match sha256_pins v with
  | None => verify_unknown d v host port key fs
  | Some pin =>
      match pin_verify pin host port key with
      | KMatch => (Ok OMatch, fs)
      | KMismatch _ => (Err (at_host "SHA-256 pin mismatch for " host port ""), fs)
      | KRevoked => (Err (at_host "SHA-256 pin: revoked key for " host port ""), fs)
      | KNotFound => verify_unknown d v host port key fs
      end
  end.

(** [TrustVerifier::verify]. *)
Definition trust_verify (d : Disk) (v : TrustVerifier) (host : string) (port : Z) (key : K) (fs : FileSystem)
  : Outcome (Result Error HostKeyOutcome * FileSystem) :=
  match tv_known_hosts v with
  | None => Return (verify_pins d v host port key fs)
  | Some kh =>
      r ← kh_verify kh host port key;
      Return (match r with
              | KMatch => (Ok OMatch, fs)
              | KMismatch _ => (Err (at_host "known_hosts mismatch for " host port ""), fs)
              | KRevoked => (Err (at_host "host key for " host port " is @revoked in known_hosts"), fs)
              | KNotFound => verify_pins d v host port key fs
              end)
  end.

(** [check_server_key]: whether the connection goes on, the reason kept in
    [trust_failure], and the files.  [key] is what [russh_key_to_ssh_key] made
    of the server's key. *)
Definition check_server_key (d : Disk) (v : TrustVerifier) (host : string) (port : Z) (key : Result Error K) (fs : FileSystem)
  : Outcome (bool * option Error * FileSystem) :=
  match key with
  | Err e => Return (false, Some e, fs)
  | Ok key =>
      '(r, fs') ← trust_verify d v host port key fs;
      Return (match r with
              | Err e => (false, Some e, fs')
              | Ok OMatch | Ok OTofuAdded => (true, None, fs')
              | Ok ONotFound =>
                  (false, Some (at_host "host " host port " not found in any trust source and accept_new is disabled"), fs')
              end)
  end.

(** ** Building a policy *)

(** [Trust] of [schema.rs]. *)
Record TrustCfg := mkTrustCfg {
  tr_mode : option string;
  tr_known_hosts_file : option string;
  tr_strict : option bool;
  tr_accept_new : option bool;
  tr_pin_sha256 : option (list string)
}.

(** The configurations [build_trust_policy] turns down, all [InvalidConfig]
    diagnostics, and the file that cannot be loaded. *)
Inductive PolicyError :=
| NoTrustBlock
| KnownHostsWithoutSource
| PinnedWithoutPins
| PinnedWithAcceptNew
| UnknownMode (mode : string)
| AcceptNewWithoutFile
| NoTrustSource
| LoadFailed (e : Error).

(** The cross-checks on [mode]. *)
Definition check_mode (t : TrustCfg) : Result PolicyError () :=
  match tr_mode t with
  | None => Ok tt
  | Some mode =>
      let normalized := to_ascii_lowercase (trim mode) in
      if (normalized =? "known_hosts")%string then
        if bool_decide (tr_known_hosts_file t = None) && negb (default false (tr_accept_new t))
        then Err KnownHostsWithoutSource else Ok tt
      else if (normalized =? "pinned")%string then
        if match tr_pin_sha256 t with None => true | Some l => bool_decide (l = []) end then Err PinnedWithoutPins
        else if default false (tr_accept_new t) then Err PinnedWithAcceptNew
        else Ok tt
      else Err (UnknownMode normalized)
  end.

(** The pin map: every pin for every host. *)
Definition pin_map (hosts : list (string * Z)) (pins : list string) : Sha256HostPin :=
  foldl (fun m hp => foldl (fun m pin => pin_insert hp.1 hp.2 pin m) m pins) (mkSha256HostPin ∅) hosts.

Definition build_trust_policy (trust : option TrustCfg) (hosts : list (string * Z)) (fs : FileSystem)
  : Result PolicyError TrustVerifier :=
  match trust with
  | None => Err NoTrustBlock
  | Some t =>
      _ ← check_mode t;
      let accept_new := default false (tr_accept_new t) in
      let path := tr_known_hosts_file t in
      if accept_new && bool_decide (path = None) then Err AcceptNewWithoutFile
      else
        known_hosts ←
          match path with
          | None => Ok None
          | Some p =>
              match fs !! p with
              | None => Ok None
              | Some file =>
                  match load p (match file with TextFile s => Ok s | Unreadable e => Err e end) with
                  | Err e => Err (LoadFailed e)
                  | Ok kh => Ok (Some kh)
                  end
              end
          end;
        let pins := pin_map hosts <$> tr_pin_sha256 t in
        if bool_decide (known_hosts = None :> option (KnownHosts K)) && bool_decide (pins = None :> option Sha256HostPin) && negb accept_new && bool_decide (path = None)
        then Err NoTrustSource
        else Ok (mkTrustVerifier known_hosts pins path (default false (tr_strict t)) accept_new)
  end.
End HostKey.
Arguments TrustVerifier : clear implicits.

(** ** Lemmas: the appended file *)

Section Lemmas.
Context {K : Type} `{SshKey K} `{HostHash}.

(** The entries of a file that can be read. *)
Definition file_entries (fs : FileSystem) (path : string) : list (Entry K) :=
  match fs !! path with Some (TextFile s) => parse_lines 0 (lines s) | _ => [] end.

Lemma appended_text old l e :
  no_char newline l = true -> line_entry l = Some e ->
  omap line_entry (lines ((if negb (old =? "")%string && negb (ends_with newline old)
     then (old +:+ String newline "")%string else old) +:+ l +:+ String newline ""))
  = omap line_entry (lines old) ++ [e] :> list (Entry K).
Proof.
  intros Hl He.
  assert (omap line_entry [strip_cr l] = [e]) as El by (cbn; by rewrite line_entry_strip_cr, He).
  destruct (String.eqb_spec old "") as [->|Ho]; cbn [negb andb].
  { rewrite lines_snoc by (try done; by left). by rewrite omap_app, El. }
  destruct (ends_with newline old) eqn:En; cbn [negb].
  { rewrite lines_snoc by (try done; by right). by rewrite omap_app, El. }
  rewrite lines_snoc by (try done; right; apply ends_with_snoc).
  destruct (lines_torn old Ho En) as (ls & x & -> & ->). rewrite !omap_app, El. f_equal. f_equal.
  cbn. by rewrite line_entry_strip_cr.
Qed.

(** A successful append adds exactly one entry, for exactly this host and key. *)
Lemma append_entries d path host port (key : K) fs fs' :
  field_ok (format_host host port) = true -> uncommented key = true ->
  append_known_hosts d path host port key fs = (Ok tt, fs') ->
  (exists text, fs' = <[path := TextFile text]> fs)
  /\ file_entries fs' path = file_entries fs path ++ [mkEntry None (format_host host port) key].
Proof.
  intros Hf Hk. unfold append_known_hosts.
  destruct (text_form key Hk) as (s & Eo & Ei & Hs & Ht & Hn). rewrite Eo.
  destruct (acquire_lock d path); [|done].
  set (e := mkEntry None (format_host host port) key).
  assert (no_char newline (entry_line e s) = true) as Hnl.
  { unfold field_ok in Hf. apply andb_true_iff in Hf as [[[_ Hws]%andb_true_iff _]%andb_true_iff _].
    unfold entry_line, e. cbn [marker host_field]. rewrite str_nil_app, no_char_app, (ws_free_no_newline _ Hws). cbn. by rewrite Hn. }
  assert (format_host host port +:+ String " " (s +:+ String newline "") = entry_line e s +:+ String newline "")%string as El.
  { unfold entry_line, e. cbn [marker host_field]. by rewrite str_nil_app, str_app_assoc. }
  assert (line_entry (entry_line e s) = Some e) as Hle by by apply entry_line_parses.
  unfold write_atomic_known_hosts. rewrite El.
  destruct (fs !! path) as [[old|]|] eqn:Ef; [|done|]; case_match; try done; intros [= <-].
  - split; [eauto|]. unfold file_entries. rewrite lookup_insert_eq, Ef, !parse_lines_omap. by apply appended_text.
  - split; [eauto|]. unfold file_entries. rewrite lookup_insert_eq, Ef, !parse_lines_omap. by apply (appended_text "").
Qed.

(** With a willing disk the append succeeds. *)
Lemma append_succeeds path host port (key : K) fs :
  uncommented key = true -> (forall e, fs !! path <> Some (Unreadable e)) ->
  exists fs', append_known_hosts Disk_ok path host port key fs = (Ok tt, fs').
Proof.
  intros Hk Hr. unfold append_known_hosts. destruct (text_form key Hk) as (s & -> & _). cbn.
  destruct (fs !! path) as [[old|e]|]; [by eexists|by destruct (Hr e)|by eexists].
Qed.

(** ** Lemmas: policies *)

(** The snapshot of a policy agrees with the file. *)
Definition fresh (v : TrustVerifier K) (fs : FileSystem) : Prop :=
  match tv_known_hosts v with
  | Some kh => coherent kh /\ exists p, known_hosts_path v = Some p /\ entries kh = file_entries fs p
  | None => match known_hosts_path v with Some p => file_entries fs p = [] | None => True end
  end.

Lemma build_policy_fresh t hosts fs (v : TrustVerifier K) :
  build_trust_policy (Some t) hosts fs = Ok v ->
  fresh v fs /\ known_hosts_path v = tr_known_hosts_file t /\ sha256_pins v = (pin_map hosts <$> tr_pin_sha256 t)
  /\ accept_new v = default false (tr_accept_new t) /\ strict v = default false (tr_strict t).
Proof.
  unfold build_trust_policy. destruct (check_mode t) as [[]|]; [|done]. cbn.
  destruct (_ && _); [done|].
  destruct (tr_known_hosts_file t) as [p|]; [destruct (fs !! p) as [[text|]|] eqn:Ef|]; cbn; try done;
    repeat case_match; try done; intros [= <-]; (split; [|done]); unfold fresh, coherent, file_entries; cbn; rewrite ?Ef; try done.
  split; [done|]. exists p. by rewrite Ef.
Qed.

(** The files do not matter to whether a configuration is turned down, as long
    as the known_hosts file can be read. *)
Lemma build_policy_again t hosts fs fs' (v : TrustVerifier K) p text :
  build_trust_policy (Some t) hosts fs = Ok v -> tr_known_hosts_file t = Some p -> fs' !! p = Some (TextFile text) ->
  exists kh, build_trust_policy (Some t) hosts fs'
    = Ok (mkTrustVerifier (Some kh) (sha256_pins v) (known_hosts_path v) (strict v) (accept_new v))
    /\ coherent kh /\ entries kh = file_entries fs' p.
Proof.
  intros Hb Hp Hf. destruct (build_policy_fresh _ _ _ _ Hb) as (_ & -> & -> & -> & ->).
  unfold build_trust_policy in *. destruct (check_mode t) as [[]|]; [|done]. cbn in *.
  rewrite Hp in *. rewrite bool_decide_eq_false_2, andb_false_r in * by done. rewrite Hf. cbn.
  eexists. split; [by rewrite ?(bool_decide_eq_false_2 (Some _ = None)) by done|]. split; [done|]. unfold file_entries. by rewrite Hf.
Qed.
End Lemmas.

(** ** Lemmas: verdicts of a policy *)

Section Policies.
Context {K : Type} `{SshKey K} `{HostHash}.
Implicit Types (v : TrustVerifier K) (kh : KnownHosts K) (key : K).

(** What the sources say about a host. *)
Definition in_known_hosts v host port key : Prop :=
  exists kh, tv_known_hosts v = Some kh /\ decides kh host port key KMatch.
Definition not_in_known_hosts v host port key : Prop :=
  forall kh, tv_known_hosts v = Some kh -> decides kh host port key KNotFound.
Definition pinned_for v host port : option (list string) :=
  p ← sha256_pins v; pins p !! host_port host port.

(** When a presented key is trusted.  A pin only counts for a host that the
    known_hosts file does not know. *)
Definition trusted d v host port key fs : Prop :=
  in_known_hosts v host port key
  \/ not_in_known_hosts v host port key
     /\ match pinned_for v host port with
        | Some l => fingerprint_sha256 key ∈ l
        | None => accept_new v = true
            /\ exists path fs', known_hosts_path v = Some path /\ append_known_hosts d path host port key fs = (Ok tt, fs')
        end.

Lemma decides_unique kh host port key r1 r2 :
  decides kh host port key r1 -> decides kh host port key r2 ->
  (r1 = KMatch <-> r2 = KMatch) /\ (r1 = KNotFound <-> r2 = KNotFound).
Proof.
  assert (forall ks, ks <> [] -> (forall k, k ∈ ks <-> exists e, applies kh host port e /\ marker e = None /\ e_key e = k) ->
    ~ forall e, applies kh host port e -> marker e <> None) as Hks.
  { intros [|k ks] Hne Hk Hno; [done|]. destruct (proj1 (Hk k) (list_elem_of_here _ _)) as (e & Ha & Hm & _). by apply (Hno e). }
  assert ((exists e, applies kh host port e /\ marker e = None /\ keys_equal (e_key e) key = true) ->
    ~ forall e, applies kh host port e -> marker e <> None) as Hkn.
  { intros (e & Ha & Hm & _) Hno. by apply (Hno e). }
  destruct r1, r2; cbn [decides]; intros H1 H2; try (by split; split; done); exfalso;
    repeat match goal with H : _ /\ _ |- _ => destruct H end; try contradiction;
    first [by eapply Hks|by apply Hkn].
Qed.

Lemma verify_pins_accepts d v host port key fs r fs' :
  verify_pins d v host port key fs = (r, fs') ->
  r = Ok OMatch \/ r = Ok OTofuAdded <->
  match pinned_for v host port with
  | Some l => fingerprint_sha256 key ∈ l
  | None => accept_new v = true
      /\ exists path fs', known_hosts_path v = Some path /\ append_known_hosts d path host port key fs = (Ok tt, fs')
  end.
Proof.
  assert (verify_unknown d v host port key fs = (r, fs') ->
    r = Ok OMatch \/ r = Ok OTofuAdded <-> accept_new v = true
    /\ exists path fs', known_hosts_path v = Some path /\ append_known_hosts d path host port key fs = (Ok tt, fs')) as Hu.
  { unfold verify_unknown. destruct (accept_new v); [destruct (known_hosts_path v) as [p|]|].
    - destruct (append_known_hosts d p host port key fs) as [[[]|e] fs1] eqn:E; intros [= <- <-].
      + split; [|by right]. intros _. split; [done|]. by exists p, fs1.
      + split; [by intros [|]|]. intros (_ & p' & f & [= <-] & E'). congruence.
    - destruct (strict v); intros [= <- <-]; (split; [by intros [|]|]); by intros (_ & ? & ? & ? & _).
    - destruct (strict v); intros [= <- <-]; (split; [by intros [|]|]); by intros (? & _). }
  unfold verify_pins, pinned_for, pin_verify. destruct (sha256_pins v) as [p|]; [|exact Hu]. cbn.
  destruct (pins p !! host_port host port) as [l|]; [|exact Hu].
  destruct (existsb _ l) eqn:Ex; intros [= <- <-].
  - apply existsb_exists in Ex as (x & Hx%list_elem_of_In & ->%String.eqb_eq). split; [done|]. by left.
  - split; [by intros [|]|]. intros Hin. exfalso.
    assert (existsb (fun entry => (entry =? fingerprint_sha256 key)%string) l = true) as Hc; [|congruence].
    apply existsb_exists. eexists. split; [by apply list_elem_of_In|apply String.eqb_refl].
Qed.

(** The verdict of a file after one more entry for the host, when it had none. *)
Lemma verify_after_append kh kh' host port key k :
  coherent kh' -> name_ok (format_host host port) = true -> uncommented key = true ->
  entries kh' = entries kh ++ [mkEntry None (format_host host port) key] ->
  decides kh host port key KNotFound ->
  (keys_equal key k = true -> kh_verify kh' host port k = Return KMatch)
  /\ (keys_equal key k = false ->
      kh_verify kh' host port k = Return KRevoked \/ exists ks, kh_verify kh' host port k = Return (KMismatch ks)).
Proof.
  intros Hc Hn Hk He [Hnr Hnk].
  assert (format_host host port <> ""%string) as Hh by (intros E; by rewrite E in Hn).
  destruct (verify_tally kh' host port k Hc Hh) as (es & -> & Hes).
  pose proof (verdict_decides kh' host port k es Hes) as Hd.
  assert (applies kh' host port (mkEntry None (format_host host port) key)) as Hnew.
  { split; [rewrite He; apply elem_of_app; right; by apply list_elem_of_singleton|by apply name_matches]. }
  assert (forall e, applies kh' host port e -> e = mkEntry None (format_host host port) key \/ applies kh host port e) as Hold.
  { intros e [Hin Hm]. rewrite He in Hin. apply elem_of_app in Hin as [Hin| ->%list_elem_of_singleton]; [right; by split|by left]. }
  split; intros Hkk; destruct (verdict _) as [|ks| |]; try done; cbn [decides] in Hd.
  - destruct Hd as (_ & Hd & _). destruct Hd. by exists (mkEntry None (format_host host port) key).
  - destruct Hd as [_ Hd]. by destruct (Hd _ Hnew).
  - destruct Hd as (e & Ha & Hm & Hke). destruct (Hold e Ha) as [->|Ha']; [done|].
    destruct Hnr. exists e. split_and!; [done|done|]. revert Hkk Hke. unfold keys_equal.
    destruct (to_bytes key), (to_bytes k), (to_bytes (e_key e)); try done.
    by intros ->%String.eqb_eq ->%String.eqb_eq; apply String.eqb_refl.
  - destruct Hd as [_ (e & Ha & Hm & Hke)]. destruct (Hold e Ha) as [->|Ha']; [cbn in Hke; congruence|].
    by destruct (Hnk e Ha').
  - right. by exists ks.
  - destruct Hd as [_ Hd]. by destruct (Hd _ Hnew).
  - by left.
Qed.
End Policies.

(** ** Theorems *)

Section Theorems.
Context {K : Type} `{SshKey K} `{HostHash}.

Lemma check_ok d (v : TrustVerifier K) host port key fs r fs' :
  trust_verify d v host port key fs = Return (r, fs') ->
  exists ok why, check_server_key d v host port (Ok key) fs = Return (ok, why, fs')
    /\ (ok = true <-> r = Ok OMatch \/ r = Ok OTofuAdded) /\ (ok = false <-> why <> None).
Proof.
  intros E. unfold check_server_key. rewrite E. cbn.
  destruct r as [[]|e]; do 2 eexists; (split; [done|]); naive_solver.
Qed.

Lemma decides_iff kh host port (key : K) r :
  decides kh host port key r ->
  (r = KMatch <-> decides kh host port key KMatch) /\ (r = KNotFound <-> decides kh host port key KNotFound).
Proof.
  intros Hr. pose proof (decides_unique kh host port key r KMatch Hr). pose proof (decides_unique kh host port key r KNotFound Hr).
  naive_solver.
Qed.

Lemma verify_accepts d (v : TrustVerifier K) host port key fs :
  (forall kh, tv_known_hosts v = Some kh -> coherent kh) -> format_host host port <> ""%string ->
  exists r fs', trust_verify d v host port key fs = Return (r, fs')
    /\ (r = Ok OMatch \/ r = Ok OTofuAdded <-> trusted d v host port key fs).
Proof.
  intros Hc Hh. unfold trust_verify, trusted, in_known_hosts, not_in_known_hosts.
  destruct (verify_pins d v host port key fs) as [r fs'] eqn:Ep.
  pose proof (verify_pins_accepts _ _ _ _ _ _ _ _ Ep) as Hp.
  destruct (tv_known_hosts v) as [kh|] eqn:Ek.
  2:{ exists r, fs'. split; [done|]. rewrite Hp. split; [by right|]. by intros [(? & ? & _)|[_ ?]]. }
  destruct (verify_tally kh host port key (Hc kh eq_refl) Hh) as (es & -> & Hes).
  destruct (decides_iff _ _ _ _ _ (verdict_decides kh host port key es Hes)) as [Hm Hn]. cbn [mbind outcome_bind].
  destruct (verdict _) as [|ks| |].
  - do 2 eexists. split; [done|]. split; [|by left]. intros _. left. exists kh. by rewrite <- Hm.
  - do 2 eexists. split; [done|]. split; [by intros [|]|].
    intros [(kh' & [= <-] & ?%Hm)|[Hx _]]; [done|]. by apply Hn in Hx.
  - exists r, fs'. split; [done|]. rewrite Hp. split.
    + intros ?. right. split; [|done]. intros kh' [= <-]. by apply Hn.
    + intros [(kh' & [= <-] & ?%Hm)|[_ ?]]; done.
  - do 2 eexists. split; [done|]. split; [by intros [|]|].
    intros [(kh' & [= <-] & ?%Hm)|[Hx _]]; [done|]. by apply Hn in Hx.
Qed.

(** C8: A connection goes on exactly when the presented host key is trusted: the
    known_hosts file has it, or the file does not know the host and a pin for
    the host has its fingerprint, or neither source knows the host, trust on
    first use is configured and the key has been written down.  In every other
    case the handler refuses and keeps a reason; a revoked or a changed key is
    never accepted, whatever the pins and the flags say.  This is the rule of
    the code: the documentation of combined sources and of several pins asks
    for more than it ([combined_sources_either]). *)
Theorem host_key_accepted_exactly (d : Disk) (v : TrustVerifier K) (host : string) (port : Z) (key : K) (fs : FileSystem) :
  (forall kh, tv_known_hosts v = Some kh -> coherent kh) -> format_host host port <> ""%string ->
  exists ok why fs', check_server_key d v host port (Ok key) fs = Return (ok, why, fs')
    /\ (ok = true <-> trusted d v host port key fs) /\ (ok = false <-> why <> None).
Proof.
  intros Hc Hh. destruct (verify_accepts d v host port key fs Hc Hh) as (r & fs' & E & Hr).
  destruct (check_ok _ _ _ _ _ _ _ _ E) as (ok & why & -> & Hok & Hw).
  exists ok, why, fs'. split; [done|]. by rewrite Hok.
Qed.

Lemma tofu_added_inv d (v : TrustVerifier K) host port key fs fs' :
  trust_verify d v host port key fs = Return (Ok OTofuAdded, fs') ->
  (forall kh, tv_known_hosts v = Some kh -> kh_verify kh host port key = Return KNotFound)
  /\ pinned_for v host port = None /\ accept_new v = true
  /\ exists path, known_hosts_path v = Some path /\ append_known_hosts d path host port key fs = (Ok tt, fs').
Proof.
  assert (verify_pins d v host port key fs = (Ok OTofuAdded, fs') ->
    pinned_for v host port = None /\ accept_new v = true
    /\ exists path, known_hosts_path v = Some path /\ append_known_hosts d path host port key fs = (Ok tt, fs')) as Hp.
  { assert (verify_unknown d v host port key fs = (Ok OTofuAdded, fs') -> accept_new v = true
      /\ exists path, known_hosts_path v = Some path /\ append_known_hosts d path host port key fs = (Ok tt, fs')) as Hu.
    { unfold verify_unknown. destruct (accept_new v); [|by destruct (strict v)].
      destruct (known_hosts_path v) as [p|]; [|by destruct (strict v)].
      destruct (append_known_hosts _ _ _ _ _ _) as [[[]|] f] eqn:E; [|done]. intros [= <-]. split; [done|]. by exists p. }
    unfold verify_pins, pinned_for, pin_verify. destruct (sha256_pins v) as [p|]; cbn; [|by intros ?%Hu].
    destruct (pins p !! _) as [l|]; [by destruct (existsb _ l)|by intros ?%Hu]. }
  unfold trust_verify. destruct (tv_known_hosts v) as [kh|]; [|intros [= E]; split; [done|by apply Hp]].
  destruct (kh_verify kh host port key) as [r|] eqn:Ek; [|done]. cbn. destruct r; try done.
  intros [= E]. split; [by intros ? [= <-]|by apply Hp].
Qed.

Lemma trust_verify_tofu d (v : TrustVerifier K) host port key fs path fs' :
  (forall kh, tv_known_hosts v = Some kh -> kh_verify kh host port key = Return KNotFound) ->
  pinned_for v host port = None -> accept_new v = true -> known_hosts_path v = Some path ->
  append_known_hosts d path host port key fs = (Ok tt, fs') ->
  trust_verify d v host port key fs = Return (Ok OTofuAdded, fs').
Proof.
  intros Hk Hp Ha Hpath Happ.
  assert (verify_pins d v host port key fs = (Ok OTofuAdded, fs')) as E.
  { assert (verify_unknown d v host port key fs = (Ok OTofuAdded, fs')) as Eu by (unfold verify_unknown; by rewrite Ha, Hpath, Happ).
    unfold verify_pins, pin_verify, pinned_for in *. destruct (sha256_pins v); [|done]. cbn in Hp. by rewrite Hp. }
  unfold trust_verify. destruct (tv_known_hosts v) as [kh|]; [|by rewrite E]. rewrite (Hk kh eq_refl). cbn. by rewrite E.
Qed.

Lemma not_found_decides kh host port (key : K) :
  coherent kh -> format_host host port <> ""%string -> kh_verify kh host port key = Return KNotFound ->
  decides kh host port key KNotFound.
Proof.
  intros Hc Hh E. destruct (verify_tally kh host port key Hc Hh) as (es & E' & Hes).
  pose proof (verdict_decides kh host port key es Hes) as Hd. rewrite E in E'. injection E' as E'. by rewrite <- E' in Hd.
Qed.

(** An unknown host stays unknown under another key. *)
Lemma not_found_again kh host port (key key2 : K) :
  coherent kh -> format_host host port <> ""%string -> kh_verify kh host port key = Return KNotFound ->
  (forall e, e ∈ entries kh -> revokes key2 e = false) -> kh_verify kh host port key2 = Return KNotFound.
Proof.
  intros Hc Hh E Hr. destruct (not_found_decides kh host port key Hc Hh E) as [_ Hno].
  destruct (verify_tally kh host port key2 Hc Hh) as (es & -> & Hes).
  destruct (decides_iff _ _ _ _ _ (verdict_decides kh host port key2 es Hes)) as [_ Hiff].
  f_equal. apply Hiff. split; [|done]. intros (e' & [Hin _] & Hm' & Hk').
  pose proof (proj2 (revokes_true key2 e') (conj Hm' Hk')) as Hrev. by rewrite (Hr _ Hin) in Hrev.
Qed.

(** C20: Trust on first use pins the key for good.  When a policy built from the
    files as they are accepts an unknown host's key, then after the next start
    the policy built from the same configuration accepts that key for the host
    and refuses every other one as a mismatch or a revocation; every other
    entry of the file is kept, torn last line or not. *)
Theorem tofu_pins_across_restart (d : Disk) (t : TrustCfg) (hosts : list (string * Z)) (v : TrustVerifier K)
    (host : string) (port : Z) (key : K) (fs fs' : FileSystem) :
  build_trust_policy (Some t) hosts fs = Ok v -> name_ok (format_host host port) = true -> uncommented key = true ->
  trust_verify d v host port key fs = Return (Ok OTofuAdded, fs') ->
  exists v' path, build_trust_policy (Some t) hosts fs' = Ok v' /\ known_hosts_path v = Some path
    /\ file_entries fs' path = file_entries fs path ++ [mkEntry None (format_host host port) key]
    /\ forall d2 k fs2,
       (keys_equal key k = true -> trust_verify d2 v' host port k fs2 = Return (Ok OMatch, fs2))
       /\ (keys_equal key k = false -> exists why, trust_verify d2 v' host port k fs2 = Return (Err (TrustFailed why), fs2)).
Proof.
  intros Hb Hn Hk Ht. destruct (tofu_added_inv _ _ _ _ _ _ _ Ht) as (Hkh & Hpin & Ha & path & Hpath & Happ).
  assert (field_ok (format_host host port) = true) as Hf.
  { unfold name_ok in Hn. by apply andb_true_iff in Hn as [[[? _]%andb_true_iff _]%andb_true_iff _]. }
  assert (format_host host port <> ""%string) as Hh by (intros E; by rewrite E in Hn).
  destruct (append_entries _ _ _ _ _ _ _ Hf Hk Happ) as [[text Hfs'] Hent].
  destruct (build_policy_fresh _ _ _ _ Hb) as (Hfresh & Hpt & _). rewrite Hpath in Hpt.
  destruct (build_policy_again t hosts fs fs' v path text Hb (eq_sym Hpt)) as (kh' & Hb' & Hc' & He').
  { rewrite Hfs'. apply lookup_insert_eq. }
  exists (mkTrustVerifier (Some kh') (sha256_pins v) (known_hosts_path v) (strict v) (accept_new v)), path. split_and!; try done.
  set (kh := match tv_known_hosts v with Some kh => kh | None => mkKnownHosts None [] None end).
  assert (entries kh = file_entries fs path /\ decides kh host port key KNotFound) as [Hek Hdk].
  { unfold fresh in Hfresh. subst kh. rewrite Hpath in Hfresh. destruct (tv_known_hosts v) as [kh|].
    - destruct Hfresh as (Hc & p & [= <-] & He). split; [done|]. by apply not_found_decides, Hkh.
    - split; [by rewrite Hfresh|]. split; [|intros e [Hin _]; by apply elem_of_nil in Hin].
      intros (e & [Hin _] & _). by apply elem_of_nil in Hin. }
  intros d2 k fs2. unfold trust_verify. cbn [tv_known_hosts].
  destruct (verify_after_append kh kh' host port key k Hc' Hn Hk) as [Hsame Hother]; [by rewrite He', Hent, Hek|done|].
  split; intros Hkk.
  - by rewrite (Hsame Hkk).
  - destruct (Hother Hkk) as [->|[ks ->]]; by eexists.
Qed.

Lemma verify_match kh host port (k : K) e :
  coherent kh -> format_host host port <> ""%string ->
  applies kh host port e -> marker e = None -> keys_equal (e_key e) k = true ->
  (forall e', e' ∈ entries kh -> revokes k e' = false) -> kh_verify kh host port k = Return KMatch.
Proof.
  intros Hc Hh He Hm Hk Hr. destruct (verify_tally kh host port k Hc Hh) as (es & -> & Hes).
  destruct (decides_iff _ _ _ _ _ (verdict_decides kh host port k es Hes)) as [Hiff _].
  f_equal. apply Hiff. split; [|by exists e]. intros (e' & [Hin _] & Hm' & Hk'). pose proof (proj2 (revokes_true k e') (conj Hm' Hk')) as Hrev. by rewrite (Hr _ Hin) in Hrev.
Qed.

(** Within one run nothing is pinned.  The policy that accepted a first key
    keeps its snapshot of the file, and each connection of the profile verifies
    with a copy of it: on the next connection the same policy accepts any other
    key for the same host in the same way, and writes it down as well, so that
    after a restart both keys match. *)
Theorem tofu_accepts_changed_key (d : Disk) (t : TrustCfg) (hosts : list (string * Z)) (v : TrustVerifier K)
    (host : string) (port : Z) (key key2 : K) (fs fs' : FileSystem) :
  build_trust_policy (Some t) hosts fs = Ok v -> name_ok (format_host host port) = true ->
  uncommented key = true -> uncommented key2 = true ->
  (forall kh e, tv_known_hosts v = Some kh -> e ∈ entries kh -> revokes key e = false /\ revokes key2 e = false) ->
  trust_verify d v host port key fs = Return (Ok OTofuAdded, fs') ->
  exists fs'' v'', trust_verify Disk_ok v host port key2 fs' = Return (Ok OTofuAdded, fs'')
    /\ build_trust_policy (Some t) hosts fs'' = Ok v''
    /\ forall d2 fs2 k, k = key \/ k = key2 -> trust_verify d2 v'' host port k fs2 = Return (Ok OMatch, fs2).
Proof.
  intros Hb Hn Hk Hk2 Hrev Ht. destruct (tofu_added_inv _ _ _ _ _ _ _ Ht) as (Hkh & Hpin & Ha & path & Hpath & Happ).
  assert (field_ok (format_host host port) = true) as Hf.
  { unfold name_ok in Hn. by apply andb_true_iff in Hn as [[[? _]%andb_true_iff _]%andb_true_iff _]. }
  assert (format_host host port <> ""%string) as Hh by (intros E; by rewrite E in Hn).
  destruct (append_entries _ _ _ _ _ _ _ Hf Hk Happ) as [[text Hfs'] Hent].
  destruct (append_succeeds path host port key2 fs' Hk2) as [fs'' Happ2].
  { intros e. rewrite Hfs', lookup_insert_eq. done. }
  destruct (append_entries _ _ _ _ _ _ _ Hf Hk2 Happ2) as [[text2 Hfs''] Hent2].
  destruct (build_policy_fresh _ _ _ _ Hb) as (Hfresh & Hpt & _). rewrite Hpath in Hpt.
  destruct (build_policy_again t hosts fs fs'' v path text2 Hb (eq_sym Hpt)) as (kh'' & Hb'' & Hc'' & He'').
  { rewrite Hfs''. apply lookup_insert_eq. }
  eexists fs'', _. split_and!; [|exact Hb''|].
  - eapply trust_verify_tofu; try done. intros kh Ek. unfold fresh in Hfresh. rewrite Ek in Hfresh. destruct Hfresh as [Hc _].
    apply not_found_again with key; [done|done|by apply Hkh|]. intros e He. by destruct (Hrev kh e Ek He).
  - intros d2 fs2 k Hkk. unfold trust_verify. cbn [tv_known_hosts].
    rewrite Hent, <- app_assoc in Hent2. cbn [app] in Hent2. rewrite Hent2 in He''.
    rewrite (verify_match kh'' host port k (mkEntry None (format_host host port) k)); [done|done|done| |done| |].
    + split; [rewrite He''|by apply name_matches]. apply elem_of_app. right. destruct Hkk as [-> | ->]; set_solver.
    + apply keys_equal_refl. by destruct Hkk as [-> | ->].
    + intros e' He'. rewrite He'' in He'. apply elem_of_app in He' as [He'|He'].
      * unfold fresh in Hfresh. rewrite Hpath in Hfresh. destruct (tv_known_hosts v) as [kh|] eqn:Ek.
        { destruct Hfresh as (_ & p & [= <-] & Hee). rewrite <- Hee in He'. destruct (Hrev kh e' eq_refl He') as [? ?].
          by destruct Hkk as [-> | ->]. }
        rewrite Hfresh in He'. by apply elem_of_nil in He'.
      * by apply elem_of_cons in He' as [->|[->|He'%elem_of_nil]%elem_of_cons].
Qed.

End Theorems.

(** ** Examples *)

(** Trust on first use with a file whose last line is torn. *)
Definition demo_trust : TrustCfg := mkTrustCfg None (Some "/kh"%string) None (Some true) None.
Definition demo_fs : FileSystem := {[ "/kh" := TextFile "old.host ssh-toy KO" ]}.
Definition demo_policy : TrustVerifier string :=
  match build_trust_policy (Some demo_trust) [("gw"%string, 22)] demo_fs with
  | Ok v => v
  | Err _ => mkTrustVerifier None None None true false
  end.
Definition demo_fs1 : FileSystem :=
  {[ "/kh" := TextFile ("old.host ssh-toy KO" +:+ String newline "gw ssh-toy K1" +:+ String newline "") ]}.

Lemma host_key_accepted_exactly_witness :
  exists ok why fs', check_server_key Disk_ok demo_policy "old.host" 22 (Ok "KX"%string) demo_fs = Return (ok, why, fs')
    /\ (ok = true <-> trusted Disk_ok demo_policy "old.host" 22 "KX"%string demo_fs) /\ (ok = false <-> why <> None).
Proof.
  apply host_key_accepted_exactly; [|done]. intros kh E. vm_compute in E. injection E as <-. vm_compute. reflexivity.
Defined.

Lemma tofu_pins_across_restart_witness :
  exists v' path, build_trust_policy (Some demo_trust) [("gw"%string, 22)] demo_fs1 = Ok v' /\ known_hosts_path demo_policy = Some path
    /\ file_entries demo_fs1 path = file_entries demo_fs path ++ [mkEntry None (format_host "gw" 22) "K1"%string]
    /\ forall d2 k fs2,
       (keys_equal "K1"%string k = true -> trust_verify d2 v' "gw" 22 k fs2 = Return (Ok OMatch, fs2))
       /\ (keys_equal "K1"%string k = false -> exists why, trust_verify d2 v' "gw" 22 k fs2 = Return (Err (TrustFailed why), fs2)).
Proof.
  apply (tofu_pins_across_restart Disk_ok demo_trust [("gw"%string, 22)] demo_policy "gw" 22 "K1"%string demo_fs demo_fs1);
    vm_compute; reflexivity.
Defined.

Lemma tofu_accepts_changed_key_witness :
  exists fs'' v'', trust_verify Disk_ok demo_policy "gw" 22 "K2"%string demo_fs1 = Return (Ok OTofuAdded, fs'')
    /\ build_trust_policy (Some demo_trust) [("gw"%string, 22)] fs'' = Ok v''
    /\ forall d2 fs2 k, k = "K1"%string \/ k = "K2"%string -> trust_verify d2 v'' "gw" 22 k fs2 = Return (Ok OMatch, fs2).
Proof.
  apply (tofu_accepts_changed_key Disk_ok demo_trust [("gw"%string, 22)] demo_policy "gw" 22 "K1"%string "K2"%string demo_fs demo_fs1);
    try (vm_compute; reflexivity).
  intros kh e E He. vm_compute in E. injection E as <-. vm_compute in He. apply list_elem_of_singleton in He as ->.
  split; vm_compute; reflexivity.
Defined.

(** In pinned mode a key needs no pin: the policy still looks at the known_hosts
    file first when one is configured, and accepts a key found there although
    its fingerprint is none of the pins. *)
Definition pinned_trust : TrustCfg :=
  mkTrustCfg (Some "pinned"%string) (Some "/kh"%string) (Some true) None (Some ["SHA256:other"%string]).

Theorem pinned_mode_without_pin :
  exists v : TrustVerifier string,
    build_trust_policy (Some pinned_trust) [("old.host"%string, 22)] demo_fs = Ok v
    /\ pinned_for v "old.host" 22 = Some ["SHA256:other"%string]
    /\ check_server_key Disk_ok v "old.host" 22 (Ok "KO"%string) demo_fs = Return (true, None, demo_fs).
Proof. eexists. split; [vm_compute; reflexivity|]. split; vm_compute; reflexivity. Qed.

(** The strictest mode of the documentation, [known_hosts] with pins.  The key
    is not asked for both: one in the file needs no pin, and one that is pinned
    for a host the file does not know needs no entry.  Of several pins one is
    enough. *)
Definition combined_trust : TrustCfg :=
  mkTrustCfg (Some "known_hosts"%string) (Some "/kh"%string) (Some true) (Some false) (Some ["SHA256:KP"; "SHA256:KQ"]%string).

Theorem combined_sources_either :
  exists v : TrustVerifier string,
    build_trust_policy (Some combined_trust) [("old.host"%string, 22); ("gw"%string, 22)] demo_fs = Ok v
    /\ check_server_key Disk_ok v "old.host" 22 (Ok "KO"%string) demo_fs = Return (true, None, demo_fs)
    /\ pinned_for v "old.host" 22 = Some ["SHA256:KP"; "SHA256:KQ"]%string
    /\ check_server_key Disk_ok v "gw" 22 (Ok "KP"%string) demo_fs = Return (true, None, demo_fs)
    /\ (forall kh, tv_known_hosts v = Some kh -> kh_verify kh "gw" 22 "KP"%string = Return KNotFound).
Proof.
  eexists. split; [vm_compute; reflexivity|]. split_and!; try (vm_compute; reflexivity).
  intros kh E. vm_compute in E. injection E as <-. vm_compute. reflexivity.
Qed.
