(* ===== verification/Limits.v ===== *)
(** * Rate limits, connection caps and source lists of the forwards

    Models [crates/spt-forward/src/limits.rs] (the byte bucket, the event gate
    and the connection gate), [crates/spt-net/src/cidr.rs] and
    [crates/spt-forward/src/acl.rs].  A bucket is its configuration and the
    state behind its mutex; a call takes the reading of the clock it makes
    under the lock.  Tokens are counted in bytes times nanoseconds per second,
    as a [u128].  The semaphore of the connection gate and the CIDR matching of
    the [ipnet] crate are outside the repository: the first is the class
    [Semaphore], the second an argument. *)

From S2P Require Import Prelude Endpoint.

Definition NANOS_PER_SEC : Z := 1000000000.

(** ** The byte bucket *)

(** [TokenBucketInner] with its [State]. *)
Record TokenBucket := mkTokenBucket {
  rate_bps : Z;
  burst : Z;
  capacity_scaled : Z;
  tokens_scaled : Z;
  last : Z
}.

Definition TokenBucket_new (now rate_bps burst : Z) : TokenBucket :=
  let burst := Z.max burst (Z.max rate_bps 1) in
  let capacity_scaled := sat_mul 128 burst NANOS_PER_SEC in
  mkTokenBucket rate_bps burst capacity_scaled capacity_scaled now.

Definition TokenBucket_unlimited (now : Z) : TokenBucket := TokenBucket_new now 0 0.

Definition bucket_is_active (b : TokenBucket) : bool := 0 <? rate_bps b.

(** The refill both limiters make: tokens for the time since the last call, up
    to the capacity. *)
Definition refilled (tokens elapsed_nanos rate cap : Z) : Z :=
  Z.min (sat_add 128 tokens (sat_mul 128 elapsed_nanos rate)) cap.

Definition set_tokens (tokens now : Z) (b : TokenBucket) : TokenBucket :=
  mkTokenBucket (rate_bps b) (burst b) (capacity_scaled b) tokens now.

(** [TokenBucket::try_acquire]: the time to wait, or [None] when the tokens
    were taken. *)
Definition bucket_try_acquire (now n : Z) (b : TokenBucket) : option Z * TokenBucket :=
  if negb (bucket_is_active b) then (None, b)
  else
    let need_scaled := sat_mul 128 n NANOS_PER_SEC in
    let tokens := refilled (tokens_scaled b) (duration_since now (last b)) (rate_bps b) (capacity_scaled b) in
    if need_scaled <=? tokens then (None, set_tokens (tokens - need_scaled) now b)
    else
      let deficit := need_scaled - tokens in
      let wait_nanos := deficit / rate_bps b + 1 in
      (Some (Z.min wait_nanos (umax 64)), set_tokens tokens now b).

Section Acquire.
(** The timer: a sleep until [t] resumes at [wake t]. *)
Context (wake : Z -> Z).

(** The inner loop of [acquire]: try, sleep, try again.  The result is the
    instant at which the tokens were taken. *)
Fixpoint acquire_chunk (fuel : nat) (now take : Z) (b : TokenBucket) : option (Z * TokenBucket) :=
  match bucket_try_acquire now take b with
  | (None, b') => Some (now, b')
  | (Some wait, b') =>
      match fuel with
      | O => None
      | S fuel' => acquire_chunk fuel' (wake (now + wait)) take b'
      end
  end.

(** The outer loop: at most [burst] at a time. *)
Fixpoint acquire_loop (fuel : nat) (sleeps : nat) (now remaining : Z) (b : TokenBucket) : option (Z * TokenBucket) :=
  if 0 <? remaining then
    match fuel with
    | O => None
    | S fuel' =>
        let take := Z.min remaining (burst b) in
        match acquire_chunk sleeps now take b with
        | None => None
        | Some (now', b') => acquire_loop fuel' sleeps now' (remaining - take) b'
        end
    end
  else Some (now, b).

Definition bucket_acquire (fuel sleeps : nat) (now n : Z) (b : TokenBucket) : option (Z * TokenBucket) :=
  if negb (bucket_is_active b) || (n =? 0) then Some (now, b)
  else acquire_loop fuel sleeps now n b.
End Acquire.

(** ** The event gate *)

(** [RateGateInner] with its [RateGateState]. *)
Record RateGate := mkRateGate {
  rg_rate : Z;
  rg_capacity_scaled : Z;
  rg_tokens_scaled : Z;
  rg_last : Z
}.

Definition RateGate_new (now rate burst : Z) : RateGate :=
  let burst_events := Z.max burst (Z.max rate 1) in
  let capacity_scaled := sat_mul 128 burst_events NANOS_PER_SEC in
  mkRateGate rate capacity_scaled capacity_scaled now.

Definition RateGate_unlimited (now : Z) : RateGate := RateGate_new now 0 0.

Definition gate_is_active (g : RateGate) : bool := 0 <? rg_rate g.

Definition rate_admit (now : Z) (g : RateGate) : bool * RateGate :=
  if negb (gate_is_active g) then (true, g)
  else
    let need_scaled := NANOS_PER_SEC in
    let tokens := refilled (rg_tokens_scaled g) (duration_since now (rg_last g)) (rg_rate g) (rg_capacity_scaled g) in
    if need_scaled <=? tokens
    then (true, mkRateGate (rg_rate g) (rg_capacity_scaled g) (tokens - need_scaled) now)
    else (false, mkRateGate (rg_rate g) (rg_capacity_scaled g) tokens now).

(** ** The connection gate *)

(** What [tokio]'s semaphore promises: a permit is granted exactly while one is
    available, and a dropped permit is available again. *)
Class Semaphore (S : Type) : Type := {
  sem_new : Z -> S;
  available_permits : S -> Z;
  try_acquire_owned : S -> option S;
  release : S -> S;
  available_new : forall n, 0 <= n -> available_permits (sem_new n) = n;
  acquire_some : forall s, 0 < available_permits s ->
    exists s', try_acquire_owned s = Some s' /\ available_permits s' = available_permits s - 1;
  acquire_none : forall s, available_permits s <= 0 -> try_acquire_owned s = None;
  available_release : forall s, available_permits (release s) = available_permits s + 1
}.

(** A counter of permits. *)
#[global, program] Instance counter_semaphore : Semaphore Z := {|
  sem_new := fun n => n;
  available_permits := fun s => s;
  try_acquire_owned := fun s => if 0 <? s then Some (s - 1) else None;
  release := fun s => s + 1
|}.
Next Obligation. intros n _. reflexivity. Qed.
Next Obligation. intros s Hs. cbn in *. exists (s - 1). by rewrite (proj2 (Z.ltb_lt _ _)). Qed.
Next Obligation. intros s Hs. cbn in *. by rewrite (proj2 (Z.ltb_ge _ _)). Qed.
Next Obligation. intros s. reflexivity. Qed.

(** [Semaphore::MAX_PERMITS] is [usize::MAX >> 3]. *)
Definition MAX_PERMITS : Z := Z.shiftr (umax 64) 3.

Record ConnectionGate (S : Type) := mkConnectionGate { sem : S; cap : Z }.
Arguments mkConnectionGate {S}.
Arguments sem {S}.
Arguments cap {S}.

Section Gate.
Context {S : Type} `{!Semaphore S}.

Definition ConnectionGate_new (c : Z) : ConnectionGate S :=
  let permits := if c =? 0 then MAX_PERMITS else c in
  mkConnectionGate (sem_new permits) c.

(** The gate after a permit is handed out, if one is. *)
Definition gate_try_acquire (g : ConnectionGate S) : option (ConnectionGate S) :=
  match try_acquire_owned (sem g) with
  | Some s => Some (mkConnectionGate s (cap g))
  | None => None
  end.

(** A [ConnectionPermit] is dropped. *)
Definition gate_release (g : ConnectionGate S) : ConnectionGate S :=
  mkConnectionGate (release (sem g)) (cap g).

(** The subtraction on [usize] is checked. *)
Definition in_flight (g : ConnectionGate S) : Outcome Z :=
  if cap g =? 0 then Return 0
  else if cap g <? available_permits (sem g) then Panic
  else Return (wrap 32 (cap g - available_permits (sem g))).
End Gate.

(** ** Source lists *)

(** [Ipv6Addr::segments]: segment [i], from the left. *)
Definition segment (v6 i : Z) : Z := Z.land (Z.shiftr v6 (16 * (7 - i))) 0xFFFF.

(** The last four octets as an IPv4 address. *)
Definition v4_from_mapped (v6 : Z) : option Z :=
  if forallb (fun i => segment v6 i =? 0) [0; 1; 2; 3; 4] && (segment v6 5 =? 0xFFFF)
  then Some (Z.land v6 0xFFFFFFFF)
  else None.

Definition unmap_v4 (ip : IpAddr) : IpAddr :=
  match ip with
  | V6 v6 => match v4_from_mapped v6 with Some v4 => V4 v4 | None => V6 v6 end
  | V4 _ => ip
  end.

Inductive AclDecision := Allow | Deny.

Record CidrAcl (N : Type) := mkCidrAcl { allow : list N; deny : list N }.
Arguments mkCidrAcl {N}.
Arguments allow {N}.
Arguments deny {N}.

Record ForwardAcl (N : Type) := mkForwardAcl { inner : CidrAcl N; default_allow : bool }.
Arguments mkForwardAcl {N}.
Arguments inner {N}.
Arguments default_allow {N}.

Section Acl.
(** [IpNet] and [IpNet::contains]. *)
Context {N : Type} (contains : N -> IpAddr -> bool).

Definition acl_matches (acl : CidrAcl N) (ip : IpAddr) : bool :=
  let ip := unmap_v4 ip in
  if existsb (fun net => contains net ip) (deny acl) then false
  else
    match allow acl with
    | [] => true
    | _ => existsb (fun net => contains net ip) (allow acl)
    end.

Definition allow_all : ForwardAcl N := mkForwardAcl (mkCidrAcl [] []) true.
Definition deny_all : ForwardAcl N := mkForwardAcl (mkCidrAcl [] []) false.

Definition decide_acl (acl : ForwardAcl N) (ip : IpAddr) : AclDecision :=
  if default_allow acl then if acl_matches (inner acl) ip then Allow else Deny
  else
    match allow (inner acl) with
    | [] => Deny
    | _ => if acl_matches (inner acl) ip then Allow else Deny
    end.
End Acl.

(** ** Lemmas: buckets *)

(** The bucket of unbounded arithmetic the limiters stand for: it fills at
    [rate] per nanosecond, up to [cap]. *)
Definition fluid (tokens elapsed rate cap : Z) : Z := Z.min (tokens + elapsed * rate) cap.

(** The saturation points of the [u128] are never reached below the capacity. *)
Lemma refilled_fluid tokens elapsed rate cap :
  0 <= tokens -> 0 <= elapsed * rate -> cap <= umax 128 ->
  refilled tokens elapsed rate cap = fluid tokens elapsed rate cap.
Proof. unfold refilled, fluid, sat_add, sat_mul. lia. Qed.

Record bucket_ok (b : TokenBucket) : Prop := {
  ok_rate : 0 <= rate_bps b <= umax 64;
  ok_burst : rate_bps b <= burst b <= umax 64;
  ok_burst_pos : 1 <= burst b;
  ok_cap : capacity_scaled b = burst b * NANOS_PER_SEC;
  ok_tokens : 0 <= tokens_scaled b <= capacity_scaled b
}.

Lemma scaled_fits n : 0 <= n <= umax 64 -> sat_mul 128 n NANOS_PER_SEC = n * NANOS_PER_SEC.
Proof. unfold sat_mul, umax, NANOS_PER_SEC. lia. Qed.

Lemma TokenBucket_new_ok now rate b :
  0 <= rate <= umax 64 -> 0 <= b <= umax 64 -> bucket_ok (TokenBucket_new now rate b).
Proof.
  intros Hr Hb. unfold TokenBucket_new. rewrite scaled_fits by (unfold umax in *; lia).
  constructor; cbn; unfold umax, NANOS_PER_SEC in *; lia.
Qed.

(** One call as a step of the fluid bucket: what it answers and what it leaves. *)
Lemma try_acquire_spec now n b :
  bucket_ok b -> 0 < rate_bps b -> 0 <= n <= umax 64 -> last b <= now ->
  let tokens := fluid (tokens_scaled b) (now - last b) (rate_bps b) (capacity_scaled b) in
  bucket_try_acquire now n b
  = if n * NANOS_PER_SEC <=? tokens
    then (None, set_tokens (tokens - n * NANOS_PER_SEC) now b)
    else (Some (Z.min ((n * NANOS_PER_SEC - tokens) / rate_bps b + 1) (umax 64)), set_tokens tokens now b).
Proof.
  intros Hb Hr Hn Ht tokens. destruct Hb as [? Hbu ? Hc Htok]. unfold bucket_try_acquire, bucket_is_active.
  rewrite (proj2 (Z.ltb_lt _ _)) by lia. cbn [negb]. rewrite scaled_fits by done.
  assert (duration_since now (last b) = now - last b) as E by (unfold duration_since, sat_sub; lia).
  rewrite E, refilled_fluid; [done|lia|nia|].
  rewrite Hc. unfold umax, NANOS_PER_SEC in *. lia.
Qed.

Lemma try_acquire_ok now n b :
  bucket_ok b -> 0 < rate_bps b -> 0 <= n <= umax 64 -> last b <= now ->
  bucket_ok (bucket_try_acquire now n b).2 /\ last (bucket_try_acquire now n b).2 = now
  /\ rate_bps (bucket_try_acquire now n b).2 = rate_bps b /\ burst (bucket_try_acquire now n b).2 = burst b.
Proof.
  intros Hb Hr Hn Ht. rewrite try_acquire_spec by done. cbv zeta. destruct Hb as [? ? ? ? ?].
  assert (0 <= (now - last b) * rate_bps b) by nia. unfold fluid.
  destruct (Z.leb_spec (n * NANOS_PER_SEC) (Z.min (tokens_scaled b + (now - last b) * rate_bps b) (capacity_scaled b)));
    cbn [snd]; split_and!; try done; constructor; cbn; unfold NANOS_PER_SEC in *; lia.
Qed.

(** Retrying after the wait. *)
Lemma retry_succeeds now n b w b' later :
  bucket_ok b -> 0 < rate_bps b -> 0 <= n <= burst b -> last b <= now ->
  n * NANOS_PER_SEC <= rate_bps b * (umax 64 - 1) ->
  bucket_try_acquire now n b = (Some w, b') -> now + w <= later ->
  (bucket_try_acquire later n b').1 = None.
Proof.
  intros Hb Hr Hn Ht Hfit E Hl. assert (Hb0 := Hb). destruct Hb as [? ? ? Hc ?].
  destruct (try_acquire_ok now n b) as (Hb' & Hlast & Hrate & Hburst); try done; [lia|].
  rewrite E in *. cbn [snd] in *. rewrite try_acquire_spec in E by (done || lia). cbv zeta in E.
  set (t := fluid (tokens_scaled b) (now - last b) (rate_bps b) (capacity_scaled b)) in *.
  destruct (Z.leb_spec (n * NANOS_PER_SEC) t) as [|Hd]; [done|]. injection E as Ew Eb.
  assert (0 <= t) as Ht0.
  { unfold t, fluid. assert (0 <= (now - last b) * rate_bps b) by nia. unfold NANOS_PER_SEC in *. lia. }
  assert ((n * NANOS_PER_SEC - t) / rate_bps b + 1 <= umax 64) as Hw.
  { enough ((n * NANOS_PER_SEC - t) / rate_bps b <= umax 64 - 1) by lia. apply Z.div_le_upper_bound; lia. }
  rewrite Z.min_l in Ew by done.
  assert (n * NANOS_PER_SEC - t < rate_bps b * w) as Hmul.
  { pose proof (Z.mul_succ_div_gt (n * NANOS_PER_SEC - t) (rate_bps b) ltac:(lia)). lia. }
  rewrite try_acquire_spec; [|done|lia|lia|].
  2: { rewrite Hlast. pose proof (Z.div_pos (n * NANOS_PER_SEC - t) (rate_bps b)). lia. }
  subst b'. cbv zeta. cbn [tokens_scaled last rate_bps capacity_scaled set_tokens].
  assert (rate_bps b * w <= (later - now) * rate_bps b) by nia.
  rewrite (proj2 (Z.leb_le _ _)); [done|]. unfold fluid. nia.
Qed.

(** A history of calls on one bucket, by any number of callers: the clock
    readings made under the lock, and the amounts asked for.  The result is
    the number of bytes granted and the bucket after it. *)
Fixpoint bucket_history (calls : list (Z * Z)) (b : TokenBucket) : Z * TokenBucket :=
  match calls with
  | [] => (0, b)
  | (now, n) :: r =>
      match bucket_try_acquire now n b with
      | (None, b') => let '(g, b'') := bucket_history r b' in (n + g, b'')
      | (Some _, b') => bucket_history r b'
      end
  end.

(** Readings of a monotonic clock, from [t] on, and amounts that are [u64]. *)
Fixpoint calls_ok (t : Z) (calls : list (Z * Z)) : Prop :=
  match calls with
  | [] => True
  | (now, n) :: r => t <= now /\ 0 <= n <= umax 64 /\ calls_ok now r
  end.

(** Tokens are conserved: what was granted came out of the bucket or was
    earned since. *)
Lemma history_conserved calls b :
  bucket_ok b -> 0 < rate_bps b -> calls_ok (last b) calls ->
  let '(g, b') := bucket_history calls b in
  g * NANOS_PER_SEC + tokens_scaled b' <= tokens_scaled b + rate_bps b * (last b' - last b)
  /\ last b <= last b' /\ 0 <= tokens_scaled b'.
Proof.
  revert b. induction calls as [|[now n] calls IH]; intros b Hb Hr Hc; cbn [bucket_history].
  - destruct Hb. lia.
  - destruct Hc as (Ht & Hn & Hc).
    destruct (try_acquire_ok now n b Hb Hr Hn Ht) as (Hb' & Hl & Hrate & Hbu).
    destruct (bucket_try_acquire now n b) as [r b1] eqn:E. cbn [snd] in *.
    specialize (IH b1 Hb' ltac:(lia)). rewrite Hl in IH. specialize (IH Hc).
    rewrite try_acquire_spec in E by done. cbv zeta in E. unfold fluid in E.
    set (t := Z.min (tokens_scaled b + (now - last b) * rate_bps b) (capacity_scaled b)) in *.
    assert (t <= tokens_scaled b + (now - last b) * rate_bps b) as Ht' by lia.
    destruct (n * NANOS_PER_SEC <=? t); injection E as <- <-; destruct (bucket_history calls _) as [g b2];
      cbn [tokens_scaled last rate_bps set_tokens] in *; lia.
Qed.

Definition gate_history (times : list Z) (g : RateGate) : list bool * RateGate :=
  foldl (fun acc now => let '(ok, g') := rate_admit now acc.2 in (acc.1 ++ [ok], g')) ([], g) times.

(** An event gate is a byte bucket that is asked for one byte at a time. *)
Definition as_bucket (b : Z) (g : RateGate) : TokenBucket :=
  mkTokenBucket (rg_rate g) b (rg_capacity_scaled g) (rg_tokens_scaled g) (rg_last g).

Lemma admit_as_bucket b now g :
  bucket_try_acquire now 1 (as_bucket b g)
  = (if (rate_admit now g).1 then None
     else Some (Z.min ((NANOS_PER_SEC - refilled (rg_tokens_scaled g) (duration_since now (rg_last g))
                          (rg_rate g) (rg_capacity_scaled g)) / rg_rate g + 1) (umax 64)),
     as_bucket b (rate_admit now g).2).
Proof.
  unfold bucket_try_acquire, bucket_is_active, rate_admit, gate_is_active, as_bucket. cbn [rate_bps tokens_scaled last capacity_scaled].
  destruct (0 <? rg_rate g); [|done]. cbn [negb]. change (sat_mul 128 1 NANOS_PER_SEC) with NANOS_PER_SEC.
  by destruct (NANOS_PER_SEC <=? _).
Qed.

(** ** Lemmas: the connection gate *)

Section GateLemmas.
Context {S : Type} `{!Semaphore S}.

(** What clients do with a gate: ask for a permit, drop one they hold. *)
Inductive GateOp := GAcquire | GDrop.

(** The gate and the number of permits held. *)
Definition gate_step (op : GateOp) (st : ConnectionGate S * Z) : ConnectionGate S * Z :=
  match op with
  | GAcquire => match gate_try_acquire st.1 with Some g => (g, st.2 + 1) | None => st end
  | GDrop => if 0 <? st.2 then (gate_release st.1, st.2 - 1) else st
  end.

Definition gate_limit (c : Z) : Z := if c =? 0 then MAX_PERMITS else c.

Definition gate_inv (c : Z) (st : ConnectionGate S * Z) : Prop :=
  cap st.1 = c /\ 0 <= st.2 /\ available_permits (sem st.1) = gate_limit c - st.2 /\ st.2 <= gate_limit c.

Lemma gate_step_inv c op st : 0 <= c -> gate_inv c st -> gate_inv c (gate_step op st).
Proof.
  destruct st as [g held]. intros Hc (H1 & H2 & H3 & H4). cbn [fst snd] in *. destruct op; cbn [gate_step fst snd].
  - unfold gate_try_acquire. destruct (Z.lt_ge_cases 0 (available_permits (sem g))) as [Hp|Hp].
    + destruct (acquire_some _ Hp) as (s' & -> & Hs). unfold gate_inv. cbn. lia.
    + rewrite acquire_none by lia. done.
  - destruct (Z.ltb_spec 0 held); [|done]. unfold gate_inv, gate_release. cbn.
    rewrite available_release. lia.
Qed.

Lemma gate_ops_inv c ops : 0 <= c -> gate_inv c (foldr gate_step (ConnectionGate_new c, 0) ops).
Proof.
  intros Hc. induction ops as [|op ops IH]; cbn [foldr]; [|by apply gate_step_inv].
  unfold gate_inv, ConnectionGate_new. cbn. fold (gate_limit c).
  assert (0 <= gate_limit c) by (unfold gate_limit; destruct (c =? 0); [vm_compute; discriminate|lia]).
  rewrite available_new by done. lia.
Qed.
End GateLemmas.

(** ** Lemmas: waiting *)

Section AcquireLemmas.
Context (wake : Z -> Z) (Hwake : forall t, t <= wake t).

Record served (n now : Z) (b : TokenBucket) (now' : Z) (b' : TokenBucket) : Prop := {
  served_ok : bucket_ok b';
  served_last : last b' <= now';
  served_time : now <= now';
  served_rate : rate_bps b' = rate_bps b;
  served_burst : burst b' = burst b
}.

Lemma acquire_chunk_served now take b :
  bucket_ok b -> 0 < rate_bps b -> 0 <= take <= burst b -> last b <= now ->
  take * NANOS_PER_SEC <= rate_bps b * (umax 64 - 1) ->
  exists now' b', acquire_chunk wake 1 now take b = Some (now', b') /\ served take now b now' b'
    /\ ((forall t, wake t = t) -> rate_bps b * (now' - now) <= take * NANOS_PER_SEC + rate_bps b).
Proof.
  intros Hb Hr Ht Hl Hfit. assert (0 <= take <= umax 64) as Hu by (destruct Hb; lia).
  destruct (try_acquire_ok now take b Hb Hr Hu Hl) as (Hb1 & Hl1 & Hr1 & Hbu1).
  cbn [acquire_chunk]. destruct (bucket_try_acquire now take b) as [[w|] b1] eqn:E; cbn [snd] in *.
  2: { exists now, b1. split; [done|]. split; [constructor; lia || done|]. intros _. unfold NANOS_PER_SEC. lia. }
  pose proof (retry_succeeds now take b w b1 (wake (now + w)) Hb Hr Ht Hl Hfit E (Hwake _)) as Hok.
  assert (0 <= w /\ rate_bps b * w <= take * NANOS_PER_SEC + rate_bps b) as [Hw Hmul].
  { rewrite try_acquire_spec in E by done. cbv zeta in E. unfold fluid in E. destruct Hb.
    assert (0 <= (now - last b) * rate_bps b) by nia.
    destruct (Z.leb_spec (take * NANOS_PER_SEC) (Z.min (tokens_scaled b + (now - last b) * rate_bps b) (capacity_scaled b))); [done|].
    injection E as <- _. unfold NANOS_PER_SEC in *. set (d := take * _ - _) in *.
    pose proof (Z.mul_div_le d (rate_bps b) ltac:(lia)). pose proof (Z.div_pos d (rate_bps b)).
    unfold umax in *. split; [lia|nia]. }
  pose proof (Hwake (now + w)). destruct (try_acquire_ok (wake (now + w)) take b1) as (Hb2 & Hl2 & Hr2 & Hbu2); try done; try lia.
  destruct (bucket_try_acquire (wake (now + w)) take b1) as [[w2|] b2]; [done|]. cbn [snd] in *.
  exists (wake (now + w)), b2. split; [done|]. split; [constructor; lia || done|].
  intros Hexact. rewrite Hexact. lia.
Qed.
End AcquireLemmas.

Lemma acquire_loop_served wake (Hwake : forall t, t <= wake t) k now n b :
  bucket_ok b -> 0 < rate_bps b -> last b <= now -> 0 <= n ->
  burst b * NANOS_PER_SEC <= rate_bps b * (umax 64 - 1) -> n <= Z.of_nat k * burst b ->
  exists now' b', acquire_loop wake k 1 now n b = Some (now', b') /\ served n now b now' b'
  /\ ((forall t, wake t = t) -> rate_bps b * (now' - now) <= n * NANOS_PER_SEC + Z.of_nat k * rate_bps b).
Proof.
  revert now n b. induction k as [|k IH]; intros now n b Hb Hr Hl Hn Hfit Hk; cbn [acquire_loop].
  - assert (n = 0) as -> by lia. exists now, b. cbn. split; [done|]. split; [constructor; done || lia|]. intros _. lia.
  - destruct (Z.ltb_spec 0 n).
    2: { exists now, b. split; [done|]. split; [constructor; done || lia|]. intros _. unfold NANOS_PER_SEC. nia. }
    assert (1 <= burst b) as Hb1 by (by destruct Hb). set (take := Z.min n (burst b)).
    destruct (acquire_chunk_served wake Hwake now take b) as (n1 & b1 & E1 & [S1 S2 S3 S4 S5] & T1); try done; try lia.
    { unfold take, NANOS_PER_SEC in *. nia. }
    rewrite E1. destruct (IH n1 (n - take) b1) as (n2 & b2 & E2 & [R1 R2 R3 R4 R5] & T2); try done; try lia.
    all: rewrite ?S4, ?S5; unfold take; try nia.
    exists n2, b2. split; [done|]. split; [constructor; congruence || lia|].
    intros He. specialize (T1 He). specialize (T2 He). rewrite S4 in T2. unfold take in *. nia.
Qed.

(** ** Lemmas: the event gate as a bucket *)

Lemma gate_history_snoc times t g :
  gate_history (times ++ [t]) g
  = let '(a, g') := gate_history times g in let '(ok, g'') := rate_admit t g' in (a ++ [ok], g'').
Proof. unfold gate_history. rewrite foldl_snoc. by destruct (foldl _ _ times). Qed.

Lemma bucket_history_app c1 c2 b :
  bucket_history (c1 ++ c2) b
  = let '(g1, b1) := bucket_history c1 b in let '(g2, b2) := bucket_history c2 b1 in (g1 + g2, b2).
Proof.
  revert b. induction c1 as [|[now n] c1 IH]; intros b; cbn [app bucket_history].
  - by destruct (bucket_history c2 b).
  - destruct (bucket_try_acquire now n b) as [[w|] b']; rewrite IH; [done|].
    destruct (bucket_history c1 b') as [g1 b1], (bucket_history c2 b1) as [g2 b2]. f_equal. lia.
Qed.

Lemma gate_history_bucket bu times g :
  bucket_history ((fun t => (t, 1)) <$> times) (as_bucket bu g)
  = let '(a, g') := gate_history times g in
    (Z.of_nat (length (filter (fun x => x = true) a)), as_bucket bu g').
Proof.
  induction times as [|t times IH] using rev_ind; [done|].
  rewrite fmap_app, bucket_history_app, IH, gate_history_snoc. destruct (gate_history times g) as [a g'].
  cbn [fmap list_fmap bucket_history]. rewrite admit_as_bucket. destruct (rate_admit t g') as [ok g'']. cbn [fst snd].
  rewrite filter_app, length_app. destruct ok.
  - change (filter (fun x => x = true) [true]) with [true]. cbn [length]. f_equal. lia.
  - change (filter (fun x => x = true) [false]) with (@nil bool). cbn [length]. f_equal. lia.
Qed.

(** ** Lemmas: mapped addresses *)

Lemma segment_mapped v4 i : 0 <= v4 < 2 ^ 32 -> 0 <= i <= 5 ->
  segment (0xFFFF * 2 ^ 32 + v4) i = if i =? 5 then 0xFFFF else 0.
Proof.
  intros Hv Hi. unfold segment. change 0xFFFF with (Z.ones 16) at 2. rewrite Z.land_ones, Z.shiftr_div_pow2 by lia.
  assert (Hd : forall k, 48 <= k -> (65535 * 2 ^ 32 + v4) / 2 ^ k = 0).
  { intros k Hk. apply Z.div_small. pose proof (Z.pow_le_mono_r 2 48 k). lia. }
  destruct (Z.eqb_spec i 5) as [->|Hne].
  - change (16 * (7 - 5)) with 32. rewrite Z.div_add_l, (Z.div_small v4) by lia. done.
  - rewrite Hd by lia. done.
Qed.

Lemma mapped_v4 v4 : 0 <= v4 < 2 ^ 32 -> unmap_v4 (V6 (0xFFFF * 2 ^ 32 + v4)) = V4 v4.
Proof.
  intros Hv. unfold unmap_v4, v4_from_mapped. cbn [forallb]. rewrite !segment_mapped by lia. cbn [Z.eqb Pos.eqb andb].
  change 0xFFFFFFFF with (Z.ones 32). rewrite Z.land_ones by lia. f_equal.
  rewrite Z.add_comm, Z.mod_add by lia. by apply Z.mod_small.
Qed.

(** ** Properties *)

(** C33: A limiter never lets through more than it is configured for.  Over any
    history of calls, by any callers and however the requests are sized and
    timed, the bytes a bucket grants are at most what it held plus [rate_bps]
    per second since, so at most [burst] plus the rate over any window; and an
    event gate admits at most its capacity plus [rate] per second. *)
Theorem limiter_rate_bound :
  (forall calls b, bucket_ok b -> 0 < rate_bps b -> calls_ok (last b) calls ->
     let '(granted, b') := bucket_history calls b in
     granted * NANOS_PER_SEC <= burst b * NANOS_PER_SEC + rate_bps b * (last b' - last b))
  /\ (forall bu times g, bucket_ok (as_bucket bu g) -> 0 < rg_rate g ->
     calls_ok (rg_last g) ((fun t => (t, 1)) <$> times) ->
     let '(answers, g') := gate_history times g in
     Z.of_nat (length (filter (fun a => a = true) answers)) * NANOS_PER_SEC
     <= rg_capacity_scaled g + rg_rate g * (rg_last g' - rg_last g)).
Proof.
  split.
  - intros calls b Hb Hr Hc. pose proof (history_conserved calls b Hb Hr Hc) as H.
    destruct (bucket_history calls b). destruct Hb. lia.
  - intros bu times g Hg Hr Hc. pose proof (history_conserved _ _ Hg Hr Hc) as H.
    rewrite gate_history_bucket in H. destruct (gate_history times g) as [answers g'].
    destruct Hg. cbn in *. lia.
Qed.

Lemma limiter_rate_bound_witness :
  let '(granted, b') := bucket_history [(0, 1500); (0, 1); (500000000, 500); (500000000, 1)] (TokenBucket_new 0 1000 1500) in
  granted = 2000 /\ granted * NANOS_PER_SEC <= 1500 * NANOS_PER_SEC + 1000 * (last b' - 0).
Proof.
  split; [reflexivity|].
  apply (proj1 limiter_rate_bound [(0, 1500); (0, 1); (500000000, 500); (500000000, 1)] (TokenBucket_new 0 1000 1500)).
  - apply TokenBucket_new_ok; unfold umax; lia.
  - cbn. lia.
  - cbn. unfold umax. lia.
Defined.

(** A transfer through the bucket completes.  When no one else draws on the
    bucket, [acquire] gets any number of bytes with one pass of the outer loop
    per [burst] and at most one sleep per pass, whatever delay the timer adds;
    and with an exact timer it takes no longer than the bytes take at the
    configured rate, plus one nanosecond per pass. *)
Theorem bucket_acquire_completes wake now n b k :
  (forall t, t <= wake t) -> bucket_ok b -> last b <= now -> 0 <= n <= umax 64 ->
  burst b * NANOS_PER_SEC <= rate_bps b * (umax 64 - 1) -> n <= Z.of_nat k * burst b ->
  exists now' b', bucket_acquire wake k 1 now n b = Some (now', b') /\ now <= now'
  /\ ((forall t, wake t = t) -> rate_bps b * (now' - now) <= n * NANOS_PER_SEC + Z.of_nat k * rate_bps b).
Proof.
  intros Hw Hb Hl Hn Hfit Hk. unfold bucket_acquire. destruct (Z.eqb_spec n 0) as [->|Hne].
  { rewrite orb_true_r. exists now, b. split; [done|]. destruct Hb. split; [lia|]. intros _. nia. }
  unfold bucket_is_active. assert (0 < rate_bps b) as Hr by (destruct Hb; unfold NANOS_PER_SEC, umax in *; nia).
  rewrite (proj2 (Z.ltb_lt _ _)) by done. cbn [negb orb].
  destruct (acquire_loop_served wake Hw k now n b) as (now' & b' & E & Hs & Ht); try done; [lia|].
  exists now', b'. split; [done|]. by destruct Hs.
Qed.

(** Three bursts through an empty bucket, with a timer that is a millisecond late. *)
Lemma bucket_acquire_completes_witness :
  exists now' b', bucket_acquire (fun t => t + 1000000) 3 1 0 3000 (TokenBucket_new 0 1000 1000) = Some (now', b') /\ 0 <= now'
  /\ ((forall t, t + 1000000 = t) -> 1000 * (now' - 0) <= 3000 * NANOS_PER_SEC + Z.of_nat 3 * 1000).
Proof.
  apply (bucket_acquire_completes (fun t => t + 1000000) 0 3000 (TokenBucket_new 0 1000 1000) 3).
  - intros t. lia.
  - apply TokenBucket_new_ok; unfold umax; lia.
  - cbn. lia.
  - unfold umax. lia.
  - cbn. unfold umax, NANOS_PER_SEC. lia.
  - cbn. lia.
Defined.

(** The connection gate counts exactly.  Whatever permits are taken and
    dropped, a gate with a cap never has more than [cap] permits out, hands one
    out exactly while fewer are, and [in_flight] returns their number without
    underflow. *)
Theorem connection_gate_exact {S} `{!Semaphore S} c ops :
  0 < c <= umax 32 ->
  let '(g, held) := foldr gate_step (ConnectionGate_new (S := S) c, 0) ops in
  0 <= held <= c /\ in_flight g = Return held /\ (gate_try_acquire g = None <-> held = c).
Proof.
  intros Hc. pose proof (gate_ops_inv (S := S) c ops ltac:(lia)) as (H1 & H2 & H3 & H4).
  destruct (foldr _ _ ops) as [g held]. cbn [fst snd] in *. unfold gate_limit in *.
  rewrite (proj2 (Z.eqb_neq c 0)) in * by lia. split; [lia|]. unfold in_flight. rewrite H1, H3.
  rewrite (proj2 (Z.eqb_neq c 0)), (proj2 (Z.ltb_ge _ _)) by lia. split.
  - rewrite wrap_small; [f_equal; lia|]. unfold in_u. lia.
  - unfold gate_try_acquire. destruct (Z.lt_ge_cases held c).
    + destruct (acquire_some (sem g)) as (s' & -> & _); [lia|]. split; [done|lia].
    + rewrite acquire_none by lia. split; [lia|done].
Qed.

Lemma connection_gate_exact_witness :
  let '(g, held) := foldr gate_step (ConnectionGate_new (S := Z) 2, 0) [GAcquire; GDrop; GAcquire; GAcquire; GAcquire] in
  0 <= held <= 2 /\ in_flight g = Return held /\ (gate_try_acquire g = None <-> held = 2).
Proof.
  apply (connection_gate_exact (S := Z) 2 [GAcquire; GDrop; GAcquire; GAcquire; GAcquire]). unfold umax. lia.
Defined.

(** The source list of a forward decides as documented.  A peer is let in
    exactly when no deny rule covers it and either an allow rule covers it or
    there are no allow rules and the forward is open by default; and an
    IPv4-mapped IPv6 peer is judged as the IPv4 address it carries. *)
Theorem acl_decision {N} (contains : N -> IpAddr -> bool) (acl : ForwardAcl N) ip :
  (decide_acl contains acl ip = Allow <->
     existsb (fun net => contains net (unmap_v4 ip)) (deny (inner acl)) = false
     /\ (existsb (fun net => contains net (unmap_v4 ip)) (allow (inner acl)) = true
         \/ (allow (inner acl) = [] /\ default_allow acl = true)))
  /\ (forall v4, 0 <= v4 < 2 ^ 32 ->
        decide_acl contains acl (V6 (0xFFFF * 2 ^ 32 + v4)) = decide_acl contains acl (V4 v4)).
Proof.
  split.
  - unfold decide_acl, acl_matches. cbv zeta.
    destruct (existsb _ (deny (inner acl))) eqn:Ed, (default_allow acl), (allow (inner acl)) as [|n l] eqn:Ea;
      cbn [existsb]; try (split; [done|naive_solver]); try naive_solver;
      destruct (_ || _); naive_solver.
  - intros v4 Hv. assert (unmap_v4 (V6 (0xFFFF * 2 ^ 32 + v4)) = unmap_v4 (V4 v4)) as E by (by apply mapped_v4).
    unfold decide_acl, acl_matches. by rewrite E.
Qed.

(** Networks as prefixes; 10.0.0.0/8 denied, 10.1.2.3 also through its mapped form. *)
Lemma acl_decision_witness :
  let contains := fun (net : Z * Z) ip =>
    match ip with V4 a => Z.shiftr a (32 - net.2) =? Z.shiftr net.1 (32 - net.2) | V6 _ => false end in
  let acl := mkForwardAcl (mkCidrAcl [(0, 0)] [(0x0A000000, 8)]) false in
  decide_acl contains acl (V6 (0xFFFF * 2 ^ 32 + 0x0A010203)) = decide_acl contains acl (V4 0x0A010203)
  /\ decide_acl contains acl (V4 0x0A010203) = Deny /\ decide_acl contains acl (V4 0x08080808) = Allow.
Proof.
  intros contains acl. split; [|split; reflexivity].
  apply (proj2 (acl_decision contains acl (V4 0))). lia.
Defined.
