(* ===== verification/TargetAcl.v ===== *)
(** * Destination lists of the dynamic forwards

    Models [crates/spt-ssh2/src/target_acl.rs].  Networks and their parsing
    belong to the [ipnet] crate: the class [IpNets].  The wildcard matcher is
    the loop of the source over four indices; [stars] says what a pattern
    means, and the loop agrees with it. *)

From S2P Require Import Prelude Text Bytes Endpoint Ip.

(** [ipnet::IpNet]: [IpNet::from(ip)] holds exactly that address. *)
Class IpNets (N : Type) := {
  parse_net : string -> option N;
  net_contains : N -> IpAddr -> bool;
  net_of_ip : IpAddr -> N;
  net_of_ip_contains : forall ip ip', net_contains (net_of_ip ip) ip' = true <-> ip = ip'
}.

Inductive TargetRule (N : Type) := RNet (net : N) | RGlob (pattern : string).
Arguments RNet {N}.
Arguments RGlob {N}.

Inductive TargetAclError := TEmpty | TBadCidr (pattern : string).

Record TargetAcl (N : Type) := mkTargetAcl { t_allow : list (TargetRule N); t_deny : list (TargetRule N) }.
Arguments mkTargetAcl {N}.
Arguments t_allow {N}.
Arguments t_deny {N}.

(** ** Numeric spellings of IPv4 addresses *)

Definition parse_ipv4_number (part : string) : option Z :=
  let '(digits, radix) :=
    match (match strip_prefix "0x" part with Some h => Some h | None => strip_prefix "0X" part end) with
    | Some hex => (hex, 16)
    | None =>
        if (1 <? String.length part)%nat && starts_with "0" part
        then (match part with String _ r => r | EmptyString => EmptyString end, 8)
        else (part, 10)
    end in
  if (digits =? "")%string then Some 0 else from_str_radix 32 radix digits.

(** The loop over the parts; a fifth part ends it. *)
Fixpoint parse_parts (raws : list string) (parts : list Z) : option (list Z) :=
  match raws with
  | [] => Some parts
  | part :: r =>
      if (part =? "")%string then None
      else
        n ← parse_ipv4_number part;
        let parts := parts ++ [n] in
        if (4 <? length parts)%nat then None else parse_parts r parts
  end.

(** The [match] on the parts: the last fills what the others leave. *)
Definition assemble (parts : list Z) : option Z :=
  match parts with
  | [a] => Some a
  | [a; b] => if (a <=? 0xff) && (b <=? 0x00ffffff) then Some (Z.lor (Z.shiftl a 24) b) else None
  | [a; b; c] =>
      if (a <=? 0xff) && (b <=? 0xff) && (c <=? 0xffff)
      then Some (Z.lor (Z.lor (Z.shiftl a 24) (Z.shiftl b 16)) c) else None
  | [a; b; c; d] =>
      if (a <=? 0xff) && (b <=? 0xff) && (c <=? 0xff) && (d <=? 0xff)
      then Some (Z.lor (Z.lor (Z.lor (Z.shiftl a 24) (Z.shiftl b 16)) (Z.shiftl c 8)) d) else None
  | _ => None
  end.

Definition parse_legacy_ipv4 (host : string) : option Z :=
  if (host =? "")%string || contains_char ":" host then None
  else parts ← parse_parts (split_on "." host) []; assemble parts.

Definition parse_target_ip (host : string) : option IpAddr :=
  match to_canonical <$> parse_ip host with
  | Some ip => Some ip
  | None => V4 <$> parse_legacy_ipv4 host
  end.

(** ** The wildcard matcher *)

(** The variables of the loop. *)
Record Cursor := mkCursor { pi : nat; ti : nat; star : option nat; star_ti : nat }.

(** One turn of [while ti < t.len()]: the next cursor, or [None] for
    [return false]. *)
Definition glob_turn (p t : list ascii) (c : Cursor) : option Cursor :=
  match p !! pi c with
  | Some a =>
      if Ascii.eqb a "*" then Some (mkCursor (S (pi c)) (ti c) (Some (pi c)) (ti c))
      else if bool_decide (t !! ti c = Some a) then Some (mkCursor (S (pi c)) (S (ti c)) (star c) (star_ti c))
      else match star c with
           | Some sp => Some (mkCursor (S sp) (S (star_ti c)) (star c) (S (star_ti c)))
           | None => None
           end
  | None =>
      match star c with
      | Some sp => Some (mkCursor (S sp) (S (star_ti c)) (star c) (S (star_ti c)))
      | None => None
      end
  end.

(** [while pi < p.len() && p[pi] == b'*'] and the final comparison. *)
Definition only_stars (p : list ascii) (i : nat) : bool := forallb (fun a => Ascii.eqb a "*") (drop i p).

Fixpoint glob_loop (fuel : nat) (p t : list ascii) (c : Cursor) : option bool :=
  if (length t <=? ti c)%nat then Some (only_stars p (pi c))
  else
    match fuel with
    | O => None
    | S fuel' =>
        match glob_turn p t c with
        | None => Some false
        | Some c' => glob_loop fuel' p t c'
        end
    end.

Definition glob_fuel (p t : list ascii) : nat :=
  ((length p + 2) * ((length t + 2) * (length p + length t + 2)))%nat.

Definition target_glob (pattern text : string) : bool :=
  let p := list_ascii_of_string pattern in
  let t := list_ascii_of_string text in
  default false (glob_loop (glob_fuel p t) p t (mkCursor 0 0 None 0)).

(** ** Rules *)

Section TargetAcl.
Context {N : Type} `{IpNets N}.

Definition rule_parse (pattern : string) : Result TargetAclError (TargetRule N) :=
  let pattern := trim pattern in
  if (pattern =? "")%string then Err TEmpty
  else
    match parse_net pattern with
    | Some net => Ok (RNet net)
    | None =>
        match parse_target_ip pattern with
        | Some ip => Ok (RNet (net_of_ip ip))
        | None =>
            let bad :=
              match split_once "/" pattern with
              | Some (addr, _) => bool_decide (is_Some (parse_target_ip addr))
              | None => false
              end in
            if bad then Err (TBadCidr pattern) else Ok (RGlob (to_ascii_lowercase pattern))
        end
    end.

Definition rule_matches (r : TargetRule N) (host : string) (host_ip : option IpAddr) : bool :=
  match r with
  | RNet net => match host_ip with Some ip => net_contains net ip | None => false end
  | RGlob pat => target_glob pat (to_ascii_lowercase host)
  end.

Definition target_allow_all : TargetAcl N := mkTargetAcl [] [].

Definition is_unrestricted (acl : TargetAcl N) : bool :=
  bool_decide (t_allow acl = []) && bool_decide (t_deny acl = []).

(** [map(TargetRule::parse).collect()]: the first error wins. *)
Fixpoint parse_rules (patterns : list string) : Result TargetAclError (list (TargetRule N)) :=
  match patterns with
  | [] => Ok []
  | p :: r => rule ← rule_parse p; rules ← parse_rules r; Ok (rule :: rules)
  end.

Definition from_patterns (allow deny : option (list string)) : Result TargetAclError (TargetAcl N) :=
  a ← parse_rules (default [] allow);
  d ← parse_rules (default [] deny);
  Ok (mkTargetAcl a d).

(** [host.strip_suffix('.').unwrap_or(host)]. *)
Fixpoint strip_dot (s : string) : string :=
  match s with
  | EmptyString => EmptyString
  | String a EmptyString => if Ascii.eqb a "." then EmptyString else s
  | String a s' => String a (strip_dot s')
  end.

Definition permits (acl : TargetAcl N) (host : string) (port : Z) : bool :=
  if is_unrestricted acl then true
  else
    let host := strip_dot host in
    let host_ip := parse_target_ip host in
    if existsb (fun r => rule_matches r host host_ip) (t_deny acl) then false
    else if bool_decide (t_allow acl = []) then true
    else existsb (fun r => rule_matches r host host_ip) (t_allow acl).
End TargetAcl.

(** ** Lemmas: the matcher *)

(** What a pattern means: a star is any run of bytes, any other byte itself. *)
Inductive stars : list ascii -> list ascii -> Prop :=
| stars_end : stars [] []
| stars_skip p t : stars p t -> stars ("*"%char :: p) t
| stars_more p b t : stars ("*"%char :: p) t -> stars ("*"%char :: p) (b :: t)
| stars_char a p t : a <> "*"%char -> stars p t -> stars (a :: p) (a :: t).

Lemma stars_drop p t : stars ("*"%char :: p) t <-> exists k, (k <= length t)%nat /\ stars p (drop k t).
Proof.
  split.
  - intros H. remember ("*"%char :: p) as q eqn:Eq. revert Eq. induction H as [|q t H _|q b t H IH|a q t Ha H _]; intros [= ->]; try done.
    + exists 0%nat. split; [lia|done].
    + destruct (IH eq_refl) as (k & Hk & Hs). exists (S k). split; [cbn; lia|done].
  - intros (k & Hk & Hs). revert k Hk Hs. induction t as [|b t IH]; intros k Hk Hs.
    + cbn in Hk. assert (k = 0%nat) as -> by lia. by apply stars_skip.
    + destruct k as [|k]; [by apply stars_skip|]. apply stars_more, (IH k); [cbn in Hk; lia|done].
Qed.

Lemma stars_literal seg p t :
  Forall (fun a => a <> "*"%char) seg -> stars (seg ++ p) t <-> exists t', t = seg ++ t' /\ stars p t'.
Proof.
  intros Hseg. revert t. induction Hseg as [|a seg Ha Hseg IH]; intros t; cbn [app].
  - split; [by exists t|]. by intros (? & -> & ?).
  - split.
    + inversion 1; subst; try done. match goal with H : stars (seg ++ p) _ |- _ => apply IH in H as (t' & -> & Ht') end. by exists t'.
    + intros (t' & -> & Ht'). apply stars_char; [done|]. apply IH. by exists t'.
Qed.

Lemma stars_same seg p t : Forall (fun a => a <> "*"%char) seg -> stars (seg ++ p) (seg ++ t) <-> stars p t.
Proof.
  intros Hseg. rewrite stars_literal by done. split; [|by exists t]. intros (t' & E%app_inv_head & ?). by subst.
Qed.

Lemma stars_nil p : stars p [] <-> forallb (fun a => Ascii.eqb a "*") p = true.
Proof.
  induction p as [|a p IH]; [split; [done|constructor]|]. cbn [forallb]. rewrite andb_true_iff, Ascii.eqb_eq. split.
  - inversion 1; subst. split; [done|]. by apply IH.
  - intros [-> Hp]. apply stars_skip. by apply IH.
Qed.

(** A star takes what precedes. *)
Lemma stars_absorb p t k : stars ("*"%char :: p) (drop k t) -> stars ("*"%char :: p) t.
Proof.
  rewrite !stars_drop. intros (j & Hj & Hs). rewrite length_drop in Hj. rewrite drop_drop in Hs.
  destruct (Nat.le_ge_cases k (length t)).
  - exists (k + j)%nat. split; [lia|done].
  - exists (length t). split; [lia|]. rewrite drop_ge in Hs by lia. by rewrite drop_ge by lia.
Qed.

Section Matcher.
Context (p t : list ascii).

(** Where the loop stands: since the last star it has matched the bytes [seg],
    and the whole question is whether the star's tail fits. *)
Definition cursor_ok (c : Cursor) : Prop :=
  exists seg prest trest, Forall (fun a => a <> "*"%char) seg /\
  match star c with
  | None => p = seg ++ prest /\ t = seg ++ trest /\ pi c = length seg /\ ti c = length seg
  | Some sp => exists pre tpre, p = pre ++ "*"%char :: seg ++ prest /\ t = tpre ++ seg ++ trest
      /\ length pre = sp /\ length tpre = star_ti c
      /\ pi c = (S sp + length seg)%nat /\ ti c = (star_ti c + length seg)%nat
      /\ (stars p t <-> stars ("*"%char :: seg ++ prest) (seg ++ trest))
  end.

(** Nothing fits when the next bytes differ. *)
Lemma stars_stuck prest b trest :
  match prest with [] => True | a :: _ => a <> "*"%char /\ a <> b end -> ~ stars prest (b :: trest).
Proof. destruct prest; [intros _ Hs; inversion Hs|intros [? ?] Hs; inversion Hs; by subst]. Qed.

(** A new star takes over from the old one. *)
Lemma new_star seg q trest :
  Forall (fun a => a <> "*"%char) seg ->
  stars ("*"%char :: seg ++ "*"%char :: q) (seg ++ trest) <-> stars ("*"%char :: q) trest.
Proof.
  intros Hseg. split.
  - intros (k & Hk & Hs)%stars_drop. apply stars_literal in Hs as (u & Eu & Hs); [|done].
    assert (u = drop k trest) as ->; [|by apply stars_absorb in Hs].
    assert (drop (length seg) (drop k (seg ++ trest)) = u) as <- by (rewrite Eu; by rewrite drop_app_length).
    rewrite drop_drop, Nat.add_comm, <- drop_drop. by rewrite drop_app_length.
  - intros Hs. apply stars_skip. by apply stars_same.
Qed.

(** After a mismatch the star takes one more byte. *)
Lemma star_takes_one seg prest x u b trest :
  Forall (fun a => a <> "*"%char) seg -> seg ++ b :: trest = x :: u ->
  match prest with [] => True | a :: _ => a <> "*"%char /\ a <> b end ->
  stars ("*"%char :: seg ++ prest) (x :: u) <-> stars ("*"%char :: seg ++ prest) u.
Proof.
  intros Hseg E Hst. split; [|by apply stars_more]. inversion 1 as [|? ? Hs|? ? ? Hs|]; subst; [|done|done].
  exfalso. rewrite <- E in Hs. apply stars_same in Hs; [|done]. by apply stars_stuck in Hs.
Qed.

Lemma lookup_front {A} (l front rest : list A) i : l = front ++ rest -> i = length front -> l !! i = head rest.
Proof. intros -> ->. rewrite lookup_app_r, Nat.sub_diag by lia. by destruct rest. Qed.

Lemma glob_turn_ok c :
  cursor_ok c -> (ti c < length t)%nat ->
  match glob_turn p t c with None => ~ stars p t | Some c' => cursor_ok c' end.
Proof.
  intros (seg & prest & trest & Hseg & Hc) Hlt. unfold glob_turn.
  assert (exists front tfront, p = front ++ prest /\ pi c = length front /\ t = tfront ++ trest /\ ti c = length tfront
    /\ (stars p t <-> match star c with None => stars prest trest | Some _ => stars ("*"%char :: seg ++ prest) (seg ++ trest) end))
    as (front & tfront & Ep & Epi & Et & Eti & Hiff).
  { destruct (star c) as [sp|].
    - destruct Hc as (pre & tpre & Ep & Et & El & Etl & Epi & Eti & Hiff).
      exists (pre ++ "*"%char :: seg), (tpre ++ seg). rewrite !length_app. cbn.
      split_and!; [by rewrite <- app_assoc|lia|by rewrite <- app_assoc|lia|done].
    - destruct Hc as (Ep & Et & Epi & Eti). exists seg, seg. split_and!; try done.
      rewrite Ep, Et. by apply stars_same. }
  destruct trest as [|b trest]; [rewrite app_nil_r in Et; subst tfront; lia|].
  rewrite (lookup_front _ _ _ _ Ep Epi), (lookup_front _ _ _ _ Et Eti). cbn [head].
  assert (match prest with [] => True | a :: _ => a <> "*"%char /\ a <> b end ->
    match match star c with
      | Some sp => Some (mkCursor (S sp) (S (star_ti c)) (star c) (S (star_ti c)))
      | None => None end with None => ~ stars p t | Some c' => cursor_ok c' end) as Hback.
  { intros Hst. destruct (star c) as [sp|] eqn:Es; [|rewrite Hiff; by apply stars_stuck].
    destruct Hc as (pre & tpre & Ep' & Et' & El & Etl & _).
    destruct (seg ++ b :: trest) as [|x u] eqn:Ex; [by destruct seg|].
    exists [], (seg ++ prest), u. split; [done|]. cbn [star pi ti star_ti]. exists pre, (tpre ++ [x]).
    rewrite length_app. cbn. split_and!; [done|by rewrite <- app_assoc|done|lia|lia|lia|].
    rewrite Hiff. by apply (star_takes_one seg prest x u b trest). }
  destruct prest as [|a prest]; cbn [head]; [by apply Hback|].
  destruct (Ascii.eqb_spec a "*") as [->|Ha]; [|case_bool_decide as Hb].
  - exists [], prest, (b :: trest). split; [done|]. cbn [star pi ti star_ti app]. exists front, tfront.
    split_and!; [done|done|done|done|cbn; lia|cbn; lia|]. rewrite Hiff. destruct (star c); [by apply new_star|done].
  - injection Hb as ->. exists (seg ++ [a]), prest, trest. split; [apply Forall_app; split; [done|by constructor]|].
    cbn [star pi ti star_ti]. destruct (star c) as [sp|].
    + destruct Hc as (pre & tpre & Ep' & Et' & El & Etl & Epi' & Eti' & Hiff'). exists pre, tpre.
      rewrite length_app, <- !app_assoc. cbn. split_and!; [done|done|done|done|lia|lia|done].
    + destruct Hc as (Ep' & Et' & Epi' & Eti'). rewrite length_app, <- !app_assoc. cbn. split_and!; [done|done|lia|lia].
  - apply Hback. split; [done|]. congruence.
Qed.

Lemma glob_end_ok c : cursor_ok c -> (length t <= ti c)%nat -> only_stars p (pi c) = true <-> stars p t.
Proof.
  intros (seg & prest & trest & Hseg & Hc) Hle. unfold only_stars. rewrite <- stars_nil.
  destruct (star c) as [sp|].
  - destruct Hc as (pre & tpre & Ep & Et & El & Etl & Epi & Eti & ->).
    assert (trest = []) as -> by (apply length_zero_iff_nil; rewrite Et, !length_app in Hle; lia).
    rewrite app_nil_r, Epi, Ep. replace (pre ++ "*"%char :: seg ++ prest) with ((pre ++ "*"%char :: seg) ++ prest) by by rewrite <- app_assoc.
    rewrite drop_app_length' by (rewrite length_app; cbn; lia). split.
    + intros Hs. apply stars_skip. rewrite <- (app_nil_r seg) at 2. by apply stars_same.
    + intros (k & Hk & Hs)%stars_drop. apply stars_literal in Hs as (u & Eu & Hs); [|done].
      apply (f_equal length) in Eu. rewrite length_drop, length_app in Eu. by destruct u; [|cbn in Eu; lia].
  - destruct Hc as (-> & Et & -> & Eti).
    assert (trest = []) as -> by (apply length_zero_iff_nil; rewrite Et, length_app in Hle; lia).
    rewrite drop_app_length, Et. rewrite (stars_same seg prest []) by done. done.
Qed.

(** How much the loop can still do: a new star, a longer run under the star, one
    more matched byte. *)
Definition glob_measure (c : Cursor) : nat :=
  let width := (length p + length t + 2)%nat in
  ((length p + 1 - match star c with None => 0 | Some sp => S sp end) * ((length t + 2) * width)
   + (length t + 1 - match star c with None => 0 | Some _ => star_ti c end) * width
   + (length t - ti c))%nat.

Lemma glob_turn_decreases c c' :
  cursor_ok c -> (ti c < length t)%nat -> glob_turn p t c = Some c' -> (glob_measure c' < glob_measure c)%nat.
Proof.
  intros (seg & prest & trest & _ & Hc) Hlt.
  assert (match star c with None => pi c <= length p | Some sp => sp < pi c <= length p /\ star_ti c <= ti c end)%nat as Hb.
  { destruct (star c) as [sp|].
    - destruct Hc as (pre & tpre & -> & _ & ? & ? & ? & ? & _). rewrite !length_app. cbn. rewrite length_app. lia.
    - destruct Hc as (-> & _ & ? & _). rewrite length_app. lia. }
  unfold glob_turn, glob_measure. intros Ht.
  set (L := length p) in *. set (T := length t) in *. set (w := (L + T + 2)%nat).
  assert (T < w)%nat as Hw by lia. clearbody w.
  assert (forall sp, star c = Some sp -> c' = mkCursor (S sp) (S (star_ti c)) (star c) (S (star_ti c)) ->
    ((L + 1 - match star c' with None => 0 | Some sp => S sp end) * ((T + 2) * w)
     + (T + 1 - match star c' with None => 0 | Some _ => star_ti c' end) * w + (T - ti c')
     < (L + 1 - match star c with None => 0 | Some sp => S sp end) * ((T + 2) * w)
     + (T + 1 - match star c with None => 0 | Some _ => star_ti c end) * w + (T - ti c))%nat) as Hback.
  { intros sp Es ->. cbn [star star_ti ti]. rewrite Es in *.
    assert ((T + 1 - star_ti c) = S (T + 1 - S (star_ti c)))%nat as -> by lia. rewrite Nat.mul_succ_l. lia. }
  destruct (p !! pi c) as [a|] eqn:Ea; [destruct (Ascii.eqb a "*"); [|case_bool_decide]|].
  - injection Ht as <-. cbn [star star_ti ti]. apply lookup_lt_Some in Ea. fold L in Ea.
    assert (exists d, L + 1 - match star c with None => 0 | Some sp => S sp end = S d + (L + 1 - S (pi c)))%nat as [d ->].
    { exists (L - match star c with None => 0 | Some sp => S sp end - (L + 1 - S (pi c)))%nat. destruct (star c); lia. }
    rewrite (Nat.mul_add_distr_r (S d)), (Nat.mul_succ_l d).
    assert ((T + 1 - ti c) * w <= (T + 1) * w)%nat by (apply Nat.mul_le_mono_r; lia).
    assert ((T + 2) * w = (T + 1) * w + w)%nat as -> by lia.
    generalize dependent ((T + 1) * w)%nat. intros X HX.
    generalize (d * (X + w))%nat ((L + 1 - S (pi c)) * (X + w))%nat. intros A B.
    generalize dependent ((T + 1 - ti c) * w)%nat. intros C HC.
    generalize ((T + 1 - match star c with Some _ => star_ti c | None => 0 end) * w)%nat. clear Hback. lia.
  - injection Ht as <-. cbn [star star_ti ti]. lia.
  - destruct (star c) as [sp|] eqn:Es; [|done]. injection Ht as <-. by apply (Hback sp).
  - destruct (star c) as [sp|] eqn:Es; [|done]. injection Ht as <-. by apply (Hback sp).
Qed.

Lemma glob_loop_spec fuel c :
  cursor_ok c -> (glob_measure c < fuel)%nat ->
  exists b, glob_loop fuel p t c = Some b /\ (b = true <-> stars p t).
Proof.
  revert c. induction fuel as [|fuel IH]; intros c Hc Hf; [lia|]. cbn [glob_loop].
  destruct (Nat.leb_spec (length t) (ti c)) as [Hle|Hlt]; [eexists; split; [done|by apply glob_end_ok]|].
  pose proof (glob_turn_ok c Hc Hlt) as Hok. destruct (glob_turn p t c) as [c'|] eqn:Et.
  - apply (glob_turn_decreases c c' Hc Hlt) in Et. apply IH; [done|lia].
  - exists false. split; [done|]. split; [done|]. intros Hs. by destruct Hok.
Qed.
End Matcher.

(** The matcher always answers, and the answer is the pattern's meaning. *)
Lemma target_glob_spec pattern text :
  target_glob pattern text = true <-> stars (list_ascii_of_string pattern) (list_ascii_of_string text).
Proof.
  unfold target_glob. set (p := list_ascii_of_string pattern). set (t := list_ascii_of_string text).
  destruct (glob_loop_spec p t (glob_fuel p t) (mkCursor 0 0 None 0)) as (b & -> & Hb); [| |done].
  - exists [], p, t. by split.
  - unfold glob_measure, glob_fuel. cbn [star ti]. set (w := (length p + length t + 2)%nat).
    assert (length t < w)%nat as Hw by lia. clearbody w.
    replace ((length p + 2) * ((length t + 2) * w))%nat
      with ((length p + 1) * ((length t + 2) * w) + ((length t + 1) * w + w))%nat by lia.
    rewrite !Nat.sub_0_r. lia.
Qed.

(** ** Lemmas: numerals *)

(** The value of a string of digits. *)
Fixpoint digits_value (radix : Z) (s : string) (acc : Z) : option Z :=
  match s with
  | EmptyString => Some acc
  | String a s' => match to_digit radix a with Some d => digits_value radix s' (acc * radix + d) | None => None end
  end.

Lemma to_digit_range radix a d : to_digit radix a = Some d -> 0 <= d < radix.
Proof.
  unfold to_digit, between. pose proof (Nat2Z.is_nonneg (nat_of_ascii a)) as Ha. fold (code a) in Ha.
  repeat (case_match; try done); intros [= <-]; simplify_eq; lia.
Qed.

Lemma digits_value_mono radix s acc n : 1 <= radix -> 0 <= acc -> digits_value radix s acc = Some n -> acc <= n.
Proof.
  intros Hr. revert acc. induction s as [|a s IH]; intros acc Ha; cbn; [intros [= ->]; lia|].
  destruct (to_digit radix a) as [d|] eqn:Ed; [|done]. apply to_digit_range in Ed. intros Hs%IH; nia.
Qed.

Lemma radix_digits_value w radix s acc n :
  1 <= radix -> 0 <= acc -> digits_value radix s acc = Some n -> n <= umax w -> radix_digits w radix s acc = Some n.
Proof.
  intros Hr. revert acc. induction s as [|a s IH]; intros acc Ha; cbn; [done|].
  destruct (to_digit radix a) as [d|] eqn:Ed; [|done]. apply to_digit_range in Ed. intros Hs Hn.
  pose proof (digits_value_mono radix s (acc * radix + d) n Hr ltac:(nia) Hs).
  rewrite (proj2 (Z.leb_le _ _)) by lia. apply IH; [nia|done|done].
Qed.

(** A digit is none of the characters with a meaning. *)
Lemma digits_no_char radix s acc n c :
  digits_value radix s acc = Some n -> to_digit radix c = None -> no_char c s = true.
Proof.
  revert acc. induction s as [|a s IH]; intros acc; cbn; [done|]. intros Hs Hc.
  destruct (to_digit radix a) as [d|] eqn:Ed; [|done]. rewrite (IH _ Hs Hc), andb_true_r.
  apply negb_true_iff, Ascii.eqb_neq. intros ->. congruence.
Qed.

Lemma from_radix_value radix s n :
  1 <= radix <= 36 -> s <> ""%string -> digits_value radix s 0 = Some n -> n <= umax 32 -> from_str_radix 32 radix s = Some n.
Proof.
  intros Hr Hs Hv Hn. unfold from_str_radix. destruct s as [|a s]; [done|].
  assert (Ascii.eqb a "+" = false) as ->; [|apply radix_digits_value; [lia|lia|done|done]].
  pose proof (digits_no_char radix (String a s) 0 n "+" Hv) as Hc. cbn in Hc.
  apply negb_true_iff. by destruct (andb_prop _ _ (Hc eq_refl)).
Qed.

(** The ways to write a number: decimal without a leading zero, hexadecimal
    after [0x] or [0X], octal after [0]. *)
Inductive Numeral : Z -> string -> Prop :=
| num_decimal n s : s <> ""%string -> (s = "0"%string \/ starts_with "0" s = false) -> digits_value 10 s 0 = Some n -> Numeral n s
| num_hex n s : digits_value 16 s 0 = Some n -> Numeral n ("0x" +:+ s)
| num_hex_upper n s : digits_value 16 s 0 = Some n -> Numeral n ("0X" +:+ s)
| num_octal n s : s <> ""%string -> digits_value 8 s 0 = Some n -> Numeral n ("0" +:+ s).

Lemma numeral_nonempty n s : Numeral n s -> s <> ""%string.
Proof. by destruct 1. Qed.

Lemma digit_x radix s acc n c : digits_value radix (String c s) acc = Some n -> to_digit radix c = None -> False.
Proof. cbn. intros H Hc. by rewrite Hc in H. Qed.

Lemma numeral_parses n s : Numeral n s -> n <= umax 32 -> parse_ipv4_number s = Some n.
Proof.
  intros Hs Hn. unfold parse_ipv4_number. destruct Hs as [n s Hne Hz Hv|n s Hv|n s Hv|n s Hne Hv].
  - assert (strip_prefix "0x" s = None /\ strip_prefix "0X" s = None) as [-> ->].
    { destruct (strip_prefix "0x" s) as [r|] eqn:E; [|destruct (strip_prefix "0X" s) as [r|] eqn:E2; [|done]].
      - apply strip_prefix_spec in E as ->. destruct Hz as [Hz|Hz]; [by inversion Hz|by rewrite str_cons_app, starts_with_head in Hz].
      - apply strip_prefix_spec in E2 as ->. destruct Hz as [Hz|Hz]; [by inversion Hz|by rewrite str_cons_app, starts_with_head in Hz]. }
    assert ((1 <? String.length s)%nat && starts_with "0" s = false) as ->.
    { destruct Hz as [->| ->]; [done|apply andb_false_r]. }
    rewrite (proj2 (String.eqb_neq _ _) Hne). by apply from_radix_value.
  - rewrite strip_prefix_app. cbv beta iota. destruct (decide (s = ""%string)) as [->|Hne]; [by injection Hv as ->|].
    rewrite (proj2 (String.eqb_neq _ _) Hne). by apply from_radix_value.
  - rewrite strip_prefix_app. change (strip_prefix "0x" ("0X" +:+ s)) with (@None string).
    cbv beta iota. destruct (decide (s = ""%string)) as [->|Hne]; [by injection Hv as ->|].
    rewrite (proj2 (String.eqb_neq _ _) Hne). by apply from_radix_value.
  - assert (strip_prefix "0x" ("0" +:+ s) = None /\ strip_prefix "0X" ("0" +:+ s) = None) as [-> ->].
    { rewrite str_cons_app, str_nil_app. cbn [strip_prefix]. rewrite !Ascii.eqb_refl. destruct s as [|c s]; [done|].
      destruct (Ascii.eqb_spec "x" c) as [<-|]; [by destruct (digit_x _ _ _ _ _ Hv)|].
      destruct (Ascii.eqb_spec "X" c) as [<-|]; [by destruct (digit_x _ _ _ _ _ Hv)|done]. }
    rewrite str_cons_app, str_nil_app, starts_with_head. destruct s as [|c s]; [done|]. cbn [String.length Nat.ltb Nat.leb Ascii.eqb andb].
    by apply from_radix_value.
Qed.

Lemma numeral_no_char n s c :
  Numeral n s -> to_digit 16 c = None -> c <> "x"%char -> c <> "X"%char -> no_char c s = true.
Proof.
  intros Hs Hc Hx HX.
  assert (forall radix, radix <= 16 -> to_digit radix c = None) as Hr.
  { intros radix Hr. revert Hc. unfold to_digit. by repeat (case_match; try done); lia. }
  assert (c <> "0"%char) as H0 by (intros ->; done).
  assert (forall a b, a <> b -> negb (Ascii.eqb b a) = true) as Hn by (intros a b ?; apply negb_true_iff, Ascii.eqb_neq; congruence).
  destruct Hs as [n s Hne Hz Hv|n s Hv|n s Hv|n s Hne Hv];
    rewrite ?no_char_app; cbn [no_char]; rewrite ?Hn, ?(digits_no_char _ _ _ _ c Hv) by (by auto || by apply Hr); done.
Qed.

(** ** Lemmas: spellings of an address *)

Fixpoint join_dots (ss : list string) : string :=
  match ss with
  | [] => ""
  | [s] => s
  | s :: r => (s +:+ "." +:+ join_dots r)%string
  end.

(** The address that one to four numbers stand for: the last fills what the
    others leave. *)
Definition quad (ns : list Z) : option Z :=
  match ns with
  | [a] => if a <=? umax 32 then Some a else None
  | [a; b] => if (a <=? 255) && (b <=? umax 24) then Some (a * 2 ^ 24 + b) else None
  | [a; b; c] => if (a <=? 255) && (b <=? 255) && (c <=? umax 16) then Some (a * 2 ^ 24 + b * 2 ^ 16 + c) else None
  | [a; b; c; d] =>
      if (a <=? 255) && (b <=? 255) && (c <=? 255) && (d <=? 255)
      then Some (a * 2 ^ 24 + b * 2 ^ 16 + c * 2 ^ 8 + d) else None
  | _ => None
  end.

(** A resolver's spellings of an IPv4 address. *)
Definition Spelling (a : Z) (host : string) : Prop :=
  exists ns ss, Forall2 Numeral ns ss /\ quad ns = Some a /\ host = join_dots ss.

Lemma split_join ss :
  ss <> [] -> Forall (fun s => no_char "." s = true) ss -> split_on "." (join_dots ss) = ss.
Proof.
  intros Hne Hs. induction Hs as [|s ss Hs Hss IH]; [done|]. destruct ss as [|s' ss].
  - by apply split_on_no_char.
  - change (join_dots (s :: s' :: ss)) with (s +:+ "." +:+ join_dots (s' :: ss))%string.
    rewrite str_cons_app, str_nil_app, split_on_app by done. by rewrite IH.
Qed.

Lemma join_no_char c ss :
  c <> "."%char -> Forall (fun s => no_char c s = true) ss -> no_char c (join_dots ss) = true.
Proof.
  intros Hc Hs. induction Hs as [|s ss Hs Hss IH]; [done|]. destruct ss as [|s' ss]; [done|].
  change (join_dots (s :: s' :: ss)) with (s +:+ "." +:+ join_dots (s' :: ss))%string.
  rewrite !no_char_app, Hs, IH. cbn [no_char]. rewrite !andb_true_r. apply negb_true_iff, Ascii.eqb_neq. congruence.
Qed.

Lemma parse_parts_numerals ns ss acc :
  Forall2 Numeral ns ss -> Forall (fun n => n <= umax 32) ns -> (length acc + length ns <= 4)%nat ->
  parse_parts ss acc = Some (acc ++ ns).
Proof.
  intros Hn. revert acc. induction Hn as [|n s ns ss Hn Hns IH]; intros acc Hmax Hl; cbn [parse_parts].
  - by rewrite app_nil_r.
  - inversion Hmax; subst. rewrite (proj2 (String.eqb_neq _ _) (numeral_nonempty _ _ Hn)).
    rewrite (numeral_parses _ _ Hn) by done. cbn [mbind option_bind]. cbn in Hl.
    rewrite (proj2 (Nat.ltb_ge _ _)) by (rewrite length_app; cbn; lia).
    rewrite IH by (try done; rewrite length_app; cbn; lia). by rewrite <- app_assoc.
Qed.

Lemma numeral_nonneg n s : Numeral n s -> 0 <= n.
Proof. destruct 1 as [? ? _ _ Hv|? ? Hv|? ? Hv|? ? _ Hv]; apply digits_value_mono in Hv; lia. Qed.

Lemma lor_shift a b k : 0 <= k -> 0 <= b < 2 ^ k -> Z.lor (Z.shiftl a k) b = a * 2 ^ k + b.
Proof. intros. rewrite Z.shiftl_mul_pow2 by lia. by apply lor_low. Qed.

Lemma lor_shift2 a b c :
  0 <= b < 256 -> 0 <= c < 2 ^ 16 -> Z.lor (Z.lor (Z.shiftl a 24) (Z.shiftl b 16)) c = a * 2 ^ 24 + b * 2 ^ 16 + c.
Proof.
  intros. rewrite (lor_shift a (Z.shiftl b 16)) by (rewrite ?Z.shiftl_mul_pow2 by lia; lia). rewrite Z.shiftl_mul_pow2 by lia.
  replace (a * 2 ^ 24 + b * 2 ^ 16) with ((a * 2 ^ 8 + b) * 2 ^ 16) by lia. apply lor_low; lia.
Qed.

Lemma lor_shift3 a b c d :
  0 <= b < 256 -> 0 <= c < 256 -> 0 <= d < 256 ->
  Z.lor (Z.lor (Z.lor (Z.shiftl a 24) (Z.shiftl b 16)) (Z.shiftl c 8)) d = a * 2 ^ 24 + b * 2 ^ 16 + c * 2 ^ 8 + d.
Proof.
  intros. rewrite lor_shift2 by (rewrite ?Z.shiftl_mul_pow2 by lia; lia). rewrite Z.shiftl_mul_pow2 by lia.
  replace (a * 2 ^ 24 + b * 2 ^ 16 + c * 2 ^ 8) with ((a * 2 ^ 16 + b * 2 ^ 8 + c) * 2 ^ 8) by lia. apply lor_low; lia.
Qed.

Lemma assemble_quad ns : Forall (fun n => 0 <= n <= umax 32) ns -> assemble ns = quad ns.
Proof.
  intros Hn. destruct ns as [|a [|b [|c [|d [|]]]]]; cbn [assemble quad]; try done;
    repeat match goal with H : Forall _ (_ :: _) |- _ => inversion H; clear H; subst end.
  - by rewrite (proj2 (Z.leb_le _ _)) by lia.
  - change (umax 24) with 0xffffff. destruct (_ && _) eqn:E; [|done]. rewrite lor_shift by lia. done.
  - change (umax 16) with 0xffff. destruct (_ && _) eqn:E; [|done]. rewrite lor_shift2 by lia. done.
  - destruct (_ && _) eqn:E; [|done]. rewrite lor_shift3 by lia. done.
Qed.

Lemma spelling_parses a host : Spelling a host -> parse_legacy_ipv4 host = Some a.
Proof.
  intros (ns & ss & Hn & Hq & ->). unfold parse_legacy_ipv4.
  assert (Forall (fun n => 0 <= n <= umax 32) ns) as Hmax.
  { assert (Forall (fun n => 0 <= n) ns) as H0 by (clear Hq; induction Hn as [|n s ? ? Hh ? IH]; constructor; [by apply numeral_nonneg in Hh|done]).
    destruct ns as [|x1 [|x2 [|x3 [|x4 [|]]]]]; cbn [quad] in Hq; try done;
      repeat match goal with H : Forall _ (_ :: _) |- _ => inversion H; clear H; subst end;
      repeat (case_match; try done); change (umax 24) with 0xffffff in *; change (umax 16) with 0xffff in *;
      change (umax 32) with 0xffffffff in *; repeat constructor; lia. }
  assert (forall c, to_digit 16 c = None -> c <> "x"%char -> c <> "X"%char -> Forall (fun s => no_char c s = true) ss) as Hfree.
  { intros c Hc Hx HX. clear Hq Hmax. induction Hn; constructor; [by eapply numeral_no_char|done]. }
  assert (ss <> []) as Hne by (intros ->; inversion Hn; subst; done).
  assert (join_dots ss <> ""%string) as Hj.
  { destruct ss as [|s ss]; [done|]. inversion Hn as [|? ? ? ? H1]; subst. apply numeral_nonempty in H1.
    destruct ss; [done|]. cbn [join_dots]. destruct s; [done|]. by rewrite str_cons_app. }
  rewrite (proj2 (String.eqb_neq _ _) Hj). unfold contains_char.
  rewrite (join_no_char ":") by (try done; by apply Hfree). cbn [negb orb].
  rewrite split_join by (try done; by apply Hfree).
  rewrite (parse_parts_numerals ns ss []); [cbn [mbind option_bind app]; by rewrite assemble_quad|done| |].
  - eapply Forall_impl; [exact Hmax|]. cbn. lia.
  - destruct ns as [|x1 [|x2 [|x3 [|x4 [|]]]]]; cbn; try lia. done.
Qed.

(** ** Lemmas: the library's parser and the numeric one agree *)

Lemma read_number_loop_inv max k s acc count v count' r :
  0 <= acc -> max <= umax 32 -> read_number_loop 10 max k s acc count = Some (v, count', r) ->
  exists d, s = (d +:+ r)%string /\ digits_value 10 d acc = Some v /\ count' = (count + String.length d)%nat /\ (d <> ""%string -> v <= max).
Proof.
  intros Ha Hm. revert acc count Ha. induction s as [|a s IH]; intros acc count Ha; cbn [read_number_loop].
  { intros [= <- <- <-]. exists ""%string. cbn. split_and!; [done|done|lia|done]. }
  destruct (to_digit 10 a) as [x|] eqn:Ex.
  2:{ intros [= <- <- <-]. exists ""%string. rewrite str_nil_app. cbn. split_and!; [done|done|lia|done]. }
  pose proof (to_digit_range _ _ _ Ex). destruct (Z.ltb_spec max (acc * 10 + x)) as [|Hle]; [done|].
  destruct (_ <? _)%nat; [done|]. intros (d & -> & Hd & -> & Hv)%IH; [|lia].
  exists (String a d). rewrite str_cons_app. cbn. rewrite Ex. split_and!; [done|done|lia|]. intros _.
  destruct d; [|by apply Hv]. cbn in Hd. injection Hd as <-. done.
Qed.

(** A number the library reads is a decimal numeral. *)
Lemma read_number_numeral s n r :
  read_number 10 255 3 false s = Some (n, r) -> exists d, s = (d +:+ r)%string /\ Numeral n d /\ n <= 255.
Proof.
  unfold read_number. destruct (read_number_loop 10 255 3 s 0 0) as [[[v count] r']|] eqn:E; [|done].
  apply read_number_loop_inv in E as (d & -> & Hd & -> & Hv); [|lia|done]. cbn [Nat.add negb andb].
  destruct (Nat.eqb_spec (String.length d) 0) as [|Hl]; [done|].
  destruct ((1 <? String.length d)%nat && starts_with "0" (d +:+ r')) eqn:Ez; [done|]. intros [= -> ->].
  assert (d <> ""%string) as Hne by (by intros ->).
  exists d. split_and!; [done| |by apply Hv]. apply num_decimal; [done| |done].
  destruct d as [|a d]; [done|]. rewrite str_cons_app, starts_with_head in Ez. rewrite starts_with_head. destruct d as [|b d].
  - destruct (Ascii.eqb "0" a) eqn:E0; [left; apply Ascii.eqb_eq in E0; by subst|by right].
  - right. by apply andb_false_iff in Ez as [Ez|Ez].
Qed.

(** An IPv4 literal is a spelling of its address. *)
Lemma read_ipv4_spelling s v r : read_ipv4 s = Some (v, r) -> exists h, s = (h +:+ r)%string /\ Spelling v h.
Proof.
  unfold read_ipv4, read_separator. cbn [Nat.eqb].
  destruct (read_number 10 255 3 false s) as [[a s1]|] eqn:E1; cbn [mbind option_bind]; [|done].
  destruct (strip_prefix "." s1) as [t1|] eqn:D1; cbn [mbind option_bind]; [|done].
  destruct (read_number 10 255 3 false t1) as [[b s2]|] eqn:E2; cbn [mbind option_bind]; [|done].
  destruct (strip_prefix "." s2) as [t2|] eqn:D2; cbn [mbind option_bind]; [|done].
  destruct (read_number 10 255 3 false t2) as [[c s3]|] eqn:E3; cbn [mbind option_bind]; [|done].
  destruct (strip_prefix "." s3) as [t3|] eqn:D3; cbn [mbind option_bind]; [|done].
  destruct (read_number 10 255 3 false t3) as [[d s4]|] eqn:E4; cbn [mbind option_bind]; [|done]. intros [= <- <-].
  apply read_number_numeral in E1 as (d1 & -> & N1 & L1), E2 as (d2 & -> & N2 & L2), E3 as (d3 & -> & N3 & L3), E4 as (d4 & -> & N4 & L4).
  apply strip_prefix_spec in D1 as ->, D2 as ->, D3 as ->.
  exists (join_dots [d1; d2; d3; d4]). split; [cbn [join_dots]; by rewrite !str_app_assoc|].
  exists [a; b; c; d], [d1; d2; d3; d4]. split_and!; [do 4 (constructor; [done|]); constructor| |done].
  cbn [quad]. by rewrite !(proj2 (Z.leb_le _ _)) by done.
Qed.

(** Without a colon there is no IPv6 literal. *)
Lemma read_ipv6_colon s : no_char ":" s = true -> read_ipv4 s = None -> read_ipv6 s = None.
Proof.
  intros Hc H4. unfold read_ipv6.
  assert (forall left i t, read_groups (S left) i t =
    match (if (1 <? S left)%nat then read_separator ":" i read_ipv4 t else None) with
    | Some (v4, r) => ([Z.shiftr v4 16; Z.land v4 0xFFFF], true, r)
    | None =>
        match read_separator ":" i (read_number 16 0xFFFF 4 true) t with
        | Some (g, r) => let '(gs, v4, r') := read_groups left (S i) r in (g :: gs, v4, r')
        | None => ([], false, t)
        end
    end) as Hstep by done.
  assert (forall t, no_char ":" t = true -> read_groups 7 1 t = ([], false, t)) as Hone.
  { intros t Ht. rewrite Hstep. unfold read_separator. cbn [Nat.eqb Nat.ltb Nat.leb]. by rewrite (no_char_prefix ":" t Ht). }
  rewrite Hstep. unfold read_separator at 1. cbn [Nat.ltb Nat.leb Nat.eqb]. rewrite H4.
  assert (forall t, no_char ":" t = true -> strip_prefix "::" t = None) as Hsep.
  { intros t Ht. destruct (strip_prefix "::" t) as [u|] eqn:E; [|done]. apply strip_prefix_spec in E as ->. done. }
  unfold read_separator at 1. cbn [Nat.eqb].
  destruct (read_number 16 0xFFFF 4 true s) as [[g r]|] eqn:Eg; [|cbn [length Nat.eqb]; by rewrite Hsep].
  assert (no_char ":" r = true) as Hr.
  { unfold read_number in Eg. destruct (read_number_loop _ _ _ _ _ _) as [[[v cnt] r']|] eqn:El; [|done].
    destruct (_ =? _)%nat; [done|]. cbn in Eg. injection Eg as _ ->. clear -El Hc. revert El. generalize 4%nat as m. generalize 0 as acc, 0%nat as k.
    induction s as [|x s IH]; intros acc k m; cbn [read_number_loop]; [by intros [= _ _ <-]|].
    destruct (to_digit 16 x); [|by intros [= _ _ <-]]. destruct (_ <? _); [done|]. destruct (_ <? _)%nat; [done|].
    apply IH. cbn in Hc. by apply andb_true_iff in Hc as [_ ?]. }
  rewrite (Hone r Hr). cbn [length Nat.eqb]. by rewrite Hsep.
Qed.

(** Whatever the numeric parser takes for an address, the target is that address. *)
Lemma legacy_agrees host a : parse_legacy_ipv4 host = Some a -> parse_target_ip host = Some (V4 a).
Proof.
  intros Hl. unfold parse_target_ip, parse_ip.
  assert (no_char ":" host = true) as Hc.
  { unfold parse_legacy_ipv4, contains_char in Hl. destruct (no_char ":" host); [done|]. by rewrite orb_true_r in Hl. }
  destruct (read_ipv4 host) as [[v r]|] eqn:E4.
  - destruct (String.eqb_spec r "") as [->|Hr]; cbn; [|by rewrite Hl].
    apply read_ipv4_spelling in E4 as (h & -> & Hs). rewrite str_app_nil in *. apply spelling_parses in Hs. congruence.
  - rewrite (read_ipv6_colon _ Hc E4). cbn. by rewrite Hl.
Qed.

(** ** Lemmas: the trailing dot *)

Lemma strip_dot_dot s : strip_dot (s +:+ ".") = s.
Proof.
  induction s as [|a s IH]; [done|]. rewrite str_cons_app. cbn [strip_dot].
  destruct (s +:+ ".")%string eqn:E; [by destruct s|]. by rewrite IH.
Qed.

Lemma strip_dot_other s : ends_with "." s = false -> strip_dot s = s.
Proof.
  induction s as [|a [|b s] IH]; [done| |].
  - cbn [ends_with strip_dot]. by intros ->.
  - intros E. cbn [strip_dot]. f_equal. by apply IH.
Qed.

Lemma ends_with_app c s t : t <> ""%string -> ends_with c (s +:+ t) = ends_with c t.
Proof.
  intros Ht. induction s as [|a s IH]; [done|]. rewrite str_cons_app, <- IH. cbn [ends_with].
  by destruct (s +:+ t)%string eqn:E; [destruct s, t|].
Qed.

Lemma ends_with_no_char c s : no_char c s = true -> ends_with c s = false.
Proof.
  induction s as [|a s IH]; [done|]. cbn [no_char ends_with]. intros [Ha%negb_true_iff Hs]%andb_true_iff.
  destruct s; [done|by apply IH].
Qed.

Lemma spelling_no_dot a h : Spelling a h -> ends_with "." h = false.
Proof.
  intros (ns & ss & Hn & _ & ->). clear a. induction Hn as [|n s ns ss Hh Hn IH]; [done|].
  assert (ends_with "." s = false) as Hs by (by eapply ends_with_no_char, numeral_no_char).
  destruct ss as [|s' ss]; [done|].
  change (join_dots (s :: s' :: ss)) with (s +:+ "." +:+ join_dots (s' :: ss))%string.
  assert (join_dots (s' :: ss) <> ""%string) as Hne.
  { inversion Hn as [|? ? ? ? H1]; subst. apply numeral_nonempty in H1. destruct ss; [done|]. cbn [join_dots].
    destruct s'; [done|]. by rewrite str_cons_app. }
  by rewrite !ends_with_app by (done || by destruct (join_dots (s' :: ss))).
Qed.

(** ** What a list decides *)

Section Theorems.
Context {N : Type} `{IpNets N}.

(** A rule covers a host. *)
Definition covers (host : string) (r : TargetRule N) : Prop :=
  match r with
  | RNet net => exists ip, parse_target_ip host = Some ip /\ net_contains net ip = true
  | RGlob p => stars (list_ascii_of_string p) (list_ascii_of_string (to_ascii_lowercase host))
  end.

Lemma rule_matches_covers r host : rule_matches r host (parse_target_ip host) = true <-> covers host r.
Proof.
  destruct r as [net|p]; cbn; [|apply target_glob_spec].
  destruct (parse_target_ip host) as [ip|]; [|split; [done|by intros (? & ? & _)]].
  split; [by exists ip|]. by intros (? & [= <-] & ?).
Qed.

Lemma any_covers l host :
  existsb (fun r => rule_matches r host (parse_target_ip host)) l = true <-> Exists (covers host) l.
Proof.
  rewrite existsb_exists, List.Exists_exists. by setoid_rewrite rule_matches_covers.
Qed.

Lemma permits_covers (acl : TargetAcl N) host port :
  permits acl host port = true
  <-> ~ Exists (covers (strip_dot host)) (t_deny acl)
      /\ (t_allow acl = [] \/ Exists (covers (strip_dot host)) (t_allow acl)).
Proof.
  unfold permits, is_unrestricted. rewrite <- !any_covers.
  destruct (bool_decide_reflect (t_allow acl = [])) as [Ha|Ha]; cbn [andb];
    [destruct (bool_decide_reflect (t_deny acl = [])) as [Hd|Hd]|].
  - rewrite Ha, Hd. cbn. naive_solver.
  - destruct (existsb _ (t_deny acl)); naive_solver.
  - destruct (existsb _ (t_deny acl)); naive_solver.
Qed.

(** The destination list decides as documented.  A target is permitted exactly
    when no deny rule covers its host and, if there are allow rules, one of them
    does; the host is taken without its final dot, networks are looked up under
    the address it stands for, and patterns match by the meaning of [*].  The
    matcher, a loop with backtracking over four indices, always comes to an end
    and finds a match whenever there is one. *)
Theorem target_acl_exact (acl : TargetAcl N) (host : string) (port : Z) :
  permits acl host port = true
  <-> ~ Exists (covers (strip_dot host)) (t_deny acl)
      /\ (t_allow acl = [] \/ Exists (covers (strip_dot host)) (t_allow acl)).
Proof. apply permits_covers. Qed.

(** C21: An address on the deny list is refused under every spelling of it.  For
    one to four numbers, each decimal, octal or hexadecimal, with the last one
    filling what the others leave, for an IPv6 literal that maps the address,
    and with or without a final dot, a target that a resolver would take for an
    address of a denied network is not permitted. *)
Theorem denied_address_every_spelling (acl : TargetAcl N) (net : N) (a : Z) (h host : string) (port : Z) :
  RNet net ∈ t_deny acl -> net_contains net (V4 a) = true ->
  Spelling a h \/ (parse_ip h = Some (V6 (0xFFFF * 2 ^ 32 + a)) /\ in_u 32 a /\ ends_with "." h = false) ->
  host = h \/ host = (h +:+ ".")%string ->
  permits acl host port = false.
Proof.
  intros Hin Hnet Hsp Hhost. apply not_true_iff_false. rewrite permits_covers. intros [Hno _]. apply Hno.
  assert (ends_with "." h = false) as Hdot by (destruct Hsp as [Hs|(_ & _ & ?)]; [by eapply spelling_no_dot|done]).
  assert (strip_dot host = h) as -> by (destruct Hhost as [-> | ->]; [by apply strip_dot_other|apply strip_dot_dot]).
  apply List.Exists_exists. exists (RNet net). split; [by apply list_elem_of_In|].
  exists (V4 a). split; [|done]. destruct Hsp as [Hs|(Hp & Ha & _)].
  - by apply legacy_agrees, spelling_parses.
  - unfold parse_target_ip. rewrite Hp. cbn [fmap option_fmap option_map to_canonical]. unfold to_ipv4_mapped.
    assert (Z.shiftr (0xFFFF * 2 ^ 32 + a) 32 = 0xFFFF) as Hsh.
    { rewrite Z.shiftr_div_pow2, Z.div_add_l by lia. unfold in_u, umax in Ha. rewrite Z.div_small by lia. lia. }
    rewrite Hsh, Z.eqb_refl. do 2 f_equal. change 0xFFFFFFFF with (Z.ones 32). rewrite Z.land_ones by lia.
    rewrite Z.add_comm, Z.mod_add by lia. apply Z.mod_small. unfold in_u, umax in Ha. lia.
Qed.
End Theorems.

(** ** Examples *)

(** Networks as a prefix and a length of IPv4, as far as the examples need them:
    a number and how many addresses follow it. *)
Definition toy_contains (n : IpAddr * Z) (ip : IpAddr) : bool :=
  match n, ip with
  | (V4 lo, k), V4 a => (lo <=? a) && (a <=? lo + k)
  | (V6 lo, k), V6 a => (lo <=? a) && (a <=? lo + k)
  | _, _ => false
  end.

#[global, program] Instance toy_nets : IpNets (IpAddr * Z) := {|
  parse_net s := if (s =? "127.0.0.0/8")%string then Some (V4 0x7F000000, 0xFFFFFF) else None;
  net_contains := toy_contains;
  net_of_ip ip := (ip, 0)
|}.
Next Obligation. intros [lo|lo] [a|a]; cbn; rewrite ?andb_true_iff, ?Z.leb_le; split; intros E; try done; [f_equal; lia|injection E; lia|f_equal; lia|injection E; lia]. Qed.

Definition demo_acl : TargetAcl (IpAddr * Z) :=
  match from_patterns (Some ["*.internal"; "10.0.0.1"]%string) (Some [" 127.0.0.0/8 "; "*secret*"]%string) with
  | Ok acl => acl
  | Err _ => target_allow_all
  end.

Lemma denied_address_every_spelling_witness :
  permits demo_acl "0x7f.1." 80 = false /\ permits demo_acl "::ffff:127.0.0.1" 80 = false
  /\ permits demo_acl "top-secret.internal" 80 = false /\ permits demo_acl "db.internal." 80 = true.
Proof.
  split; [|split; [|split; vm_compute; reflexivity]].
  - apply (denied_address_every_spelling demo_acl (V4 0x7F000000, 0xFFFFFF) 2130706433 "0x7f.1").
    + vm_compute. apply list_elem_of_here.
    + reflexivity.
    + left. exists [127; 1], ["0x7f"; "1"]%string. split; [|split; reflexivity].
      constructor; [apply (num_hex 127 "7f"); reflexivity|].
      constructor; [apply num_decimal; [done|by right|reflexivity]|constructor].
    + by right.
  - apply (denied_address_every_spelling demo_acl (V4 0x7F000000, 0xFFFFFF) 2130706433 "::ffff:127.0.0.1").
    + vm_compute. apply list_elem_of_here.
    + reflexivity.
    + right. split; [vm_compute; reflexivity|]. split; [vm_compute; split; discriminate|reflexivity].
    + by left.
Defined.
