(* ===== verification/Dynamic.v ===== *)
(** * Dynamic forwards

    Models [crates/spt-ssh2/src/dynamic.rs] (SOCKS4, SOCKS4A, SOCKS5 and HTTP
    CONNECT requests), [open_dynamic], [bridge_dynamic] and the accept gate of
    [russh_backend.rs], and [escape_control] of [crates/spt-core/src/redaction.rs].
    A socket is the bytes the client will send and the bytes written to it so
    far.  A read that wants more than the client sends is [Starved]: an error if
    the client has closed, a time-out if it has not.  Messages carry the texts of
    the source without those of the operating system. *)

From S2P Require Import Prelude Text Bytes Errors Endpoint Ip TargetAcl Limits.

(** ** Constants *)

Definition MAX_HTTP_CONNECT_HEADER : Z := 16 * 1024.
Definition SOCKS4_VERSION : Z := 0x04.
Definition SOCKS4_CONNECT : Z := 0x01.
Definition SOCKS4_GRANTED : Z := 0x5a.
Definition SOCKS4_REJECTED : Z := 0x5b.
Definition MAX_SOCKS4_USER_ID : Z := 1024.
Definition MAX_SOCKS4_DOMAIN : Z := 255.
Definition SOCKS5_VERSION : Z := 0x05.
Definition SOCKS5_NO_AUTH : Z := 0x00.
Definition SOCKS5_CONNECT : Z := 0x01.
Definition SOCKS5_ATYP_IPV4 : Z := 0x01.
Definition SOCKS5_ATYP_DOMAIN : Z := 0x03.
Definition SOCKS5_ATYP_IPV6 : Z := 0x04.

Inductive DynamicProxyProtocol := Socks4 | Socks4a | Socks5 | HttpConnect.

Record DynamicProxyProtocolSet := mkProtocols { socks4 : bool; socks4a : bool; socks5 : bool; http_connect : bool }.

(** [TargetAddr] of [spt-protocol]. *)
Record TargetAddr := mkTarget { ta_host : string; ta_port : Z }.

Record DynamicProxyRequest := mkRequest { rq_target : TargetAddr; rq_protocol : DynamicProxyProtocol }.

(** ** Sockets *)

(** What a read or a parse comes to; [Starved e]: [e] if the client has closed. *)
Inductive Reading (A : Type) := Got (a : A) | Failed (e : Error) | Starved (e : Error).
Arguments Got {A}.
Arguments Failed {A}.
Arguments Starved {A}.

(** The bytes to come, the bytes written, and why writing fails, if it does. *)
Record Sock := mkSock { sk_in : list Z; sk_out : list Z; sk_broken : option string }.

Definition Io (A : Type) : Type := Sock -> Reading A * Sock.

#[global] Instance io_ret : MRet Io := fun _ x s => (Got x, s).
#[global] Instance io_bind : MBind Io := fun _ _ f m s =>
  match m s with
  | (Got x, s') => f x s'
  | (Failed e, s') => (Failed e, s')
  | (Starved e, s') => (Starved e, s')
  end.

Definition fail {A} (e : Error) : Io A := fun s => (Failed e, s).

(** [Option::ok_or] inside a handler. *)
Definition require {A} (e : Error) (o : option A) : Io A :=
  match o with Some x => mret x | None => fail e end.

(** [read_exact]. *)
Definition read_bytes (n : nat) (label : string) : Io (list Z) := fun s =>
  if (length (sk_in s) <? n)%nat then (Starved (RuntimeFailure label), mkSock [] (sk_out s) (sk_broken s))
  else (Got (take n (sk_in s)), mkSock (drop n (sk_in s)) (sk_out s) (sk_broken s)).

(** [write_all(..).await.map_err(..)?]. *)
Definition write_all (bytes : list Z) (label : string) : Io () := fun s =>
  match sk_broken s with
  | Some _ => (Failed (RuntimeFailure label), s)
  | None => (Got tt, mkSock (sk_in s) (sk_out s ++ bytes) None)
  end.

(** [let _ = write_all(..).await]. *)
Definition write_ignored (bytes : list Z) : Io () := fun s =>
  match sk_broken s with
  | Some _ => (Got tt, s)
  | None => (Got tt, mkSock (sk_in s) (sk_out s ++ bytes) None)
  end.

(** ** Replies *)

Definition socks4_reply (granted : bool) : list Z :=
  [0; if granted then SOCKS4_GRANTED else SOCKS4_REJECTED; 0; 0; 0; 0; 0; 0].

Definition socks5_reply (code : Z) : list Z := [SOCKS5_VERSION; code; 0; SOCKS5_ATYP_IPV4; 0; 0; 0; 0; 0; 0].

(** CR and LF. *)
Definition crlf : string := String carriage (String newline "").

Definition reply_success (protocol : DynamicProxyProtocol) : Io () :=
  match protocol with
  | Socks4 | Socks4a => write_all (socks4_reply true) "SOCKS4 reply"
  | Socks5 => write_all (socks5_reply 0) "SOCKS5 success reply"
  | HttpConnect => write_all (bytes_of ("HTTP/1.1 200 Connection Established" +:+ crlf +:+ crlf)) "HTTP CONNECT success reply"
  end.

Definition reply_failure (protocol : DynamicProxyProtocol) : Io () :=
  match protocol with
  | Socks4 | Socks4a => write_all (socks4_reply false) "SOCKS4 reply"
  | Socks5 => write_all (socks5_reply 1) "SOCKS5 failure reply"
  | HttpConnect => write_all (bytes_of ("HTTP/1.1 502 Bad Gateway" +:+ crlf +:+ "Connection: close" +:+ crlf +:+ crlf)) "HTTP CONNECT failure reply"
  end.

Definition reply_denied (protocol : DynamicProxyProtocol) : Io () :=
  match protocol with
  | Socks4 | Socks4a => write_all (socks4_reply false) "SOCKS4 reply"
  | Socks5 => write_all (socks5_reply 2) "SOCKS5 deny reply"
  | HttpConnect => write_all (bytes_of ("HTTP/1.1 403 Forbidden" +:+ crlf +:+ "Connection: close" +:+ crlf +:+ crlf)) "HTTP CONNECT deny reply"
  end.

(** [let _ = reply_...(..).await]. *)
Definition ignore_result {A} (m : Io A) : Io () := fun s => (Got tt, (m s).2).

(** ** SOCKS4 *)

(** The loop of [read_cstring]. *)
Fixpoint cstring_loop (label : string) (max : Z) (inp bytes : list Z) : Reading (list Z) * list Z :=
  match inp with
  | [] => (Starved (RuntimeFailure label), [])
  | b :: r =>
      if b =? 0 then (Got bytes, r)
      else if max <=? Z.of_nat (length bytes)
      then (Failed (InvalidConfig (label +:+ " exceeded " +:+ pretty max +:+ " bytes before NUL terminator")), r)
      else cstring_loop label max r (bytes ++ [b])
  end.

Definition read_cstring (label : string) (max : Z) : Io (list Z) := fun s =>
  let '(r, rest) := cstring_loop label max (sk_in s) [] in
  (r, mkSock rest (sk_out s) (sk_broken s)).

(** A refusal that first answers. *)
Definition reject4 {A} (e : Error) : Io A := _ ← write_ignored (socks4_reply false); fail e.

Definition read_socks4 (protocols : DynamicProxyProtocolSet) : Io DynamicProxyRequest :=
  head ← read_bytes 8 "SOCKS4 request header";
  let h i := nth i head 0 in
  if negb (h 0%nat =? SOCKS4_VERSION) then fail (InvalidConfig "SOCKS4 request version mismatch")
  else if negb (h 1%nat =? SOCKS4_CONNECT) then reject4 (UnsupportedPlatform "SOCKS4 dynamic forward supports CONNECT only")
  else
    let port := from_be_bytes [h 2%nat; h 3%nat] in
    if port =? 0 then reject4 (InvalidConfig "SOCKS4 target port cannot be zero")
    else
      let octets := [h 4%nat; h 5%nat; h 6%nat; h 7%nat] in
      _ ← read_cstring "SOCKS4 user id" MAX_SOCKS4_USER_ID;
      if (h 4%nat =? 0) && (h 5%nat =? 0) && (h 6%nat =? 0) && negb (h 7%nat =? 0) then
        domain ← read_cstring "SOCKS4A domain" MAX_SOCKS4_DOMAIN;
        if bool_decide (domain = []) then reject4 (InvalidConfig "SOCKS4A domain cannot be empty")
        else if negb (socks4a protocols) then reject4 (UnsupportedPlatform "SOCKS4A is disabled for this dynamic forward")
        else
          match text_of domain with
          | None => reject4 (InvalidConfig "SOCKS4A domain is not UTF-8")
          | Some host => mret (mkRequest (mkTarget host port) Socks4a)
          end
      else if bool_decide (octets = [0; 0; 0; 0]) then reject4 (InvalidConfig "SOCKS4 IPv4 target cannot be 0.0.0.0")
      else if negb (socks4 protocols) then reject4 (UnsupportedPlatform "SOCKS4 is disabled for this dynamic forward")
      else mret (mkRequest (mkTarget (ipv4_to_string (from_be_bytes octets)) port) Socks4).

(** ** SOCKS5 *)

(** [0x{:02x}]. *)
Definition hex_byte (b : Z) : string := String (hex_char (b / 16)) (String (hex_char (b mod 16)) "").

Definition read_socks5_host (atyp : Z) : Io string :=
  if atyp =? SOCKS5_ATYP_IPV4 then
    octets ← read_bytes 4 "SOCKS5 IPv4 address"; mret (ipv4_to_string (from_be_bytes octets))
  else if atyp =? SOCKS5_ATYP_IPV6 then
    octets ← read_bytes 16 "SOCKS5 IPv6 address"; mret (ipv6_to_string (from_be_bytes octets))
  else if atyp =? SOCKS5_ATYP_DOMAIN then
    len ← read_bytes 1 "SOCKS5 domain length";
    name ← read_bytes (Z.to_nat (nth 0 len 0)) "SOCKS5 domain";
    require (InvalidConfig "SOCKS5 domain is not UTF-8") (text_of name)
  else fail (UnsupportedPlatform ("SOCKS5 address type 0x" +:+ hex_byte atyp +:+ " is not supported")).

Definition read_socks5 : Io DynamicProxyRequest :=
  greeting ← read_bytes 2 "SOCKS5 greeting";
  if negb (nth 0 greeting 0 =? SOCKS5_VERSION) then fail (InvalidConfig "SOCKS5 greeting version mismatch")
  else
    methods ← read_bytes (Z.to_nat (nth 1 greeting 0)) "SOCKS5 auth methods";
    if negb (bool_decide (SOCKS5_NO_AUTH ∈ methods)) then
      _ ← write_ignored [SOCKS5_VERSION; 0xff];
      fail (UnsupportedPlatform "SOCKS5 client offered no supported authentication method")
    else
      _ ← write_all [SOCKS5_VERSION; SOCKS5_NO_AUTH] "SOCKS5 method select";
      head ← read_bytes 4 "SOCKS5 request header";
      if negb (nth 0 head 0 =? SOCKS5_VERSION) then fail (InvalidConfig "SOCKS5 request version mismatch")
      else if negb (nth 1 head 0 =? SOCKS5_CONNECT) then
        _ ← write_ignored (socks5_reply 7);
        fail (UnsupportedPlatform "SOCKS5 dynamic forward supports CONNECT only")
      else
        host ← read_socks5_host (nth 3 head 0);
        port_bytes ← read_bytes 2 "SOCKS5 port";
        let port := from_be_bytes port_bytes in
        if port =? 0 then fail (InvalidConfig "SOCKS5 target port cannot be zero")
        else mret (mkRequest (mkTarget host port) Socks5).

(** ** HTTP CONNECT *)

Definition parse_authority (authority : string) : Result Error TargetAddr :=
  '(host, port) ←
    match strip_prefix "[" authority with
    | Some rest =>
        '(host, after) ← ok_or (InvalidConfig "IPv6 CONNECT authority missing `]`") (split_once "]" rest);
        port ← ok_or (InvalidConfig "IPv6 CONNECT authority missing port") (strip_prefix ":" after);
        Ok (host, port)
    | None => ok_or (InvalidConfig "CONNECT authority must be `host:port`") (rsplit_once ":" authority)
    end;
  if (host =? "")%string then Err (InvalidConfig "CONNECT host cannot be empty")
  else
    p ← ok_or (InvalidConfig ("CONNECT port `" +:+ port +:+ "`")) (parse_uint 16 port);
    if p =? 0 then Err (InvalidConfig "CONNECT port cannot be zero") else Ok (mkTarget host p).

(** [header.ends_with(CRLF CRLF)]. *)
Definition header_ends (header : list Z) : bool :=
  match reverse header with 10 :: 13 :: 10 :: 13 :: _ => true | _ => false end.

(** The loop that reads the header byte by byte. *)
Fixpoint http_header (inp header : list Z) : Reading (list Z) * list Z :=
  if MAX_HTTP_CONNECT_HEADER <=? Z.of_nat (length header)
  then (Failed (InvalidConfig ("HTTP CONNECT header exceeded " +:+ pretty MAX_HTTP_CONNECT_HEADER +:+ " bytes")), inp)
  else
    match inp with
    | [] => (Starved (RuntimeFailure "HTTP CONNECT header"), [])
    | b :: r => let header := header ++ [b] in if header_ends header then (Got header, r) else http_header r header
    end.

(** The request line. *)
Definition parse_connect (line : string) : Result Error DynamicProxyRequest :=
  let parts := split_whitespace line in
  let method := nth 0 parts ""%string in
  let authority := nth 1 parts ""%string in
  let version := nth 2 parts ""%string in
  if negb (to_ascii_lowercase method =? "connect")%string
  then Err (InvalidConfig ("dynamic HTTP proxy expected CONNECT, got `" +:+ method +:+ "`"))
  else if (authority =? "")%string || negb (starts_with "HTTP/" version)
  then Err (InvalidConfig "malformed HTTP CONNECT request line")
  else target ← parse_authority authority; Ok (mkRequest target HttpConnect).

Definition read_http_connect : Io DynamicProxyRequest := fun s =>
  let '(r, rest) := http_header (sk_in s) [] in
  let s' := mkSock rest (sk_out s) (sk_broken s) in
  match r with
  | Failed e => (Failed e, s')
  | Starved e => (Starved e, s')
  | Got header =>
      (text ← require (InvalidConfig "HTTP CONNECT header is not UTF-8") (text_of header);
       line ← require (InvalidConfig "HTTP CONNECT request line missing") (head (lines text));
       match parse_connect line with Ok rq => mret rq | Err e => fail e end) s'
  end.

(** ** The request *)

Definition read_request (protocols : DynamicProxyProtocolSet) : Io DynamicProxyRequest := fun s =>
  match sk_in s with
  | [] => (Starved (RuntimeFailure "dynamic proxy client closed before handshake"), s)
  | first :: _ =>
      (if first =? SOCKS4_VERSION then
         if socks4 protocols || socks4a protocols then read_socks4 protocols
         else reject4 (UnsupportedPlatform "SOCKS4/SOCKS4A are disabled for this dynamic forward")
       else if first =? SOCKS5_VERSION then
         if socks5 protocols then read_socks5 else fail (UnsupportedPlatform "SOCKS5 is disabled for this dynamic forward")
       else if (first =? 67) || (first =? 99) then
         if http_connect protocols then read_http_connect
         else fail (UnsupportedPlatform "HTTP CONNECT is disabled for this dynamic forward")
       else fail (InvalidConfig ("dynamic proxy expected SOCKS4/SOCKS4A/SOCKS5 or HTTP CONNECT, got first byte 0x" +:+ hex_byte first))) s
  end.

(** [read_request_with_timeout]: a starved read errs if the client has closed
    and runs into the deadline if it has not. *)
Definition read_request_with_timeout (closed : bool) (protocols : DynamicProxyProtocolSet) (s : Sock)
  : Result Error DynamicProxyRequest * Sock :=
  match read_request protocols s with
  | (Got rq, s') => (Ok rq, s')
  | (Failed e, s') => (Err e, s')
  | (Starved e, s') => (Err (if closed then e else RuntimeFailure "dynamic proxy handshake timed out"), s')
  end.

(** ** Messages *)

(** [char::escape_default] of a control character. *)
Definition escape_char (c : Z) : string :=
  if c =? 9 then "\t" else if c =? 10 then "\n" else if c =? 13 then "\r"
  else ("\u{" +:+ hex16 c +:+ "}")%string.

(** [escape_control]: C0, DEL and, as two bytes of UTF-8, C1. *)
Fixpoint escape_control (s : string) : string :=
  match s with
  | EmptyString => EmptyString
  | String a r =>
      if (code a <? 0x20) || (code a =? 0x7f) then (escape_char (code a) +:+ escape_control r)%string
      else
        match r with
        | String b r' =>
            if (code a =? 0xC2) && between 0x80 0x9F (code b) then (escape_char (code b) +:+ escape_control r')%string
            else String a (escape_control r)
        | EmptyString => String a EmptyString
        end
  end.

Definition dynamic_target_denied_msg (host : string) (port : Z) : string :=
  ("dynamic proxy target " +:+ escape_control host +:+ ":" +:+ pretty port +:+ " denied by ruleset")%string.

Definition dynamic_dial_failure_msg (host : string) (port : Z) (err : string) : string :=
  ("russh dynamic direct-tcpip to " +:+ escape_control host +:+ ":" +:+ pretty port +:+ ": " +:+ err)%string.

(** ** A connection *)

(** What a connection did: the channel it asked the server to open, if any,
    whether bytes were then copied, how it ended, and its socket. *)
Record Bridged := mkBridged { dialled : option TargetAddr; copying : bool; ended : Result Error (); br_sock : Sock }.

Section Bridge.
Context {N : Type} `{IpNets N}.

(** [bridge_dynamic]: [dial] is the server's answer to [direct-tcpip], [copied]
    how the copy ended. *)
Definition bridge_dynamic (closed : bool) (protocols : DynamicProxyProtocolSet) (acl : TargetAcl N)
    (dial : TargetAddr -> Result string ()) (copied : Result string ()) (s : Sock) : Bridged :=
  match read_request_with_timeout closed protocols s with
  | (Err e, s1) => mkBridged None false (Err e) s1
  | (Ok rq, s1) =>
      let target := rq_target rq in
      if negb (permits acl (ta_host target) (ta_port target)) then
        mkBridged None false (Err (RuntimeFailure (dynamic_target_denied_msg (ta_host target) (ta_port target))))
          (reply_denied (rq_protocol rq) s1).2
      else
        match dial target with
        | Err e =>
            mkBridged (Some target) false (Err (RuntimeFailure (dynamic_dial_failure_msg (ta_host target) (ta_port target) e)))
              (reply_failure (rq_protocol rq) s1).2
        | Ok _ =>
            match reply_success (rq_protocol rq) s1 with
            | (Got _, s2) =>
                mkBridged (Some target) true
                  (match copied with Ok _ => Ok tt | Err _ => Err (RuntimeFailure "russh dynamic bridge I/O") end) s2
            | (Failed e, s2) | (Starved e, s2) => mkBridged (Some target) false (Err e) s2
            end
        end
  end.

(** The dynamic part of a forward's specification. *)
Record DynamicForwardSpec := mkDynamicSpec {
  allow_socks4 : bool; allow_socks4a : bool; allow_socks5 : bool; allow_http_connect : bool;
  allow_targets : list string; deny_targets : list string
}.

(** [open_dynamic], after its listener is bound: what the accept loop gets. *)
Definition open_dynamic (name : string) (spec : DynamicForwardSpec) : Result Error (DynamicProxyProtocolSet * TargetAcl N) :=
  match from_patterns (Some (allow_targets spec)) (Some (deny_targets spec)) with
  | Err _ => Err (InvalidConfig ("dynamic forward `" +:+ name +:+ "` target ACL"))
  | Ok acl => Ok (mkProtocols (allow_socks4 spec) (allow_socks4a spec) (allow_socks5 spec) (allow_http_connect spec), acl)
  end.
End Bridge.

(** ** The accept gate *)

(** [ConnLimiter], and the same variables inside [local_loop] and
    [dynamic_loop]. *)
Record ConnLimiter := mkConnLimiter { cl_active : Z; cl_max_connections : option Z; cl_rate_gate : RateGate }.

Definition ConnLimiter_new (now : Z) (max_connections : option Z) (max_new_conns_per_sec : Z) : ConnLimiter :=
  mkConnLimiter 0 max_connections (RateGate_new now max_new_conns_per_sec max_new_conns_per_sec).

(** [try_admit]: the rate gate first, then the cap. *)
Definition try_accept (now : Z) (l : ConnLimiter) : bool * ConnLimiter :=
  let '(ok, gate) := rate_admit now (cl_rate_gate l) in
  let l := mkConnLimiter (cl_active l) (cl_max_connections l) gate in
  if negb ok then (false, l)
  else
    match cl_max_connections l with
    | Some limit =>
        if limit <=? cl_active l then (false, l)
        else (true, mkConnLimiter (wrap 32 (cl_active l + 1)) (cl_max_connections l) gate)
    | None => (true, mkConnLimiter (wrap 32 (cl_active l + 1)) (cl_max_connections l) gate)
    end.

(** A [ConnPermit] is dropped. *)
Definition conn_release (l : ConnLimiter) : ConnLimiter :=
  mkConnLimiter (wrap 32 (cl_active l - 1)) (cl_max_connections l) (cl_rate_gate l).

(** ** Lemmas: what a handshake reads and writes *)

(** [m] reads at most [k] bytes, keeps the rest, only adds to what was written,
    and what it returns satisfies [Q]. *)
Definition handshake {A} (k : Z) (m : Io A) (Q : A -> Prop) : Prop :=
  forall s r s', Forall byte_ok (sk_in s) -> m s = (r, s') ->
  (exists used, sk_in s = used ++ sk_in s' /\ Z.of_nat (length used) <= k)
  /\ (exists w, sk_out s' = sk_out s ++ w) /\ sk_broken s' = sk_broken s
  /\ forall a, r = Got a -> Q a.

Lemma handshake_bind {A B} k1 k2 k (m : Io A) (f : A -> Io B) P Q :
  handshake k1 m P -> (forall a, P a -> handshake k2 (f a) Q) -> k1 + k2 <= k /\ 0 <= k2 -> handshake k (m ≫= f) Q.
Proof.
  intros Hm Hf [Hk Hk2] s r s' Hb. cbn [mbind io_bind]. unfold mbind, io_bind. destruct (m s) as [[a|e|e] s1] eqn:E.
  - destruct (Hm s _ s1 Hb E) as ((u1 & E1 & L1) & (w1 & W1) & B1 & HP). intros E2.
    assert (Forall byte_ok (sk_in s1)) as Hb1 by (rewrite E1 in Hb; by apply Forall_app in Hb as [_ ?]).
    destruct (Hf a (HP a eq_refl) s1 _ s' Hb1 E2) as ((u2 & E3 & L2) & (w2 & W2) & B2 & HQ).
    split_and!; [exists (u1 ++ u2)|exists (w1 ++ w2)| |done].
    + rewrite <- app_assoc, <- E3, length_app. split; [done|lia].
    + by rewrite W2, W1, app_assoc.
    + congruence.
  - intros [= <- <-]. destruct (Hm s _ s1 Hb E) as ((u1 & E1 & L1) & HW & HB & _).
    split_and!; [exists u1; split; [done|lia]|done|done|done].
  - intros [= <- <-]. destruct (Hm s _ s1 Hb E) as ((u1 & E1 & L1) & HW & HB & _).
    split_and!; [exists u1; split; [done|lia]|done|done|done].
Qed.

Lemma handshake_still {A} k (m : Io A) (Q : A -> Prop) :
  0 <= k -> (forall s, sk_in (m s).2 = sk_in s /\ (exists w, sk_out (m s).2 = sk_out s ++ w) /\ sk_broken (m s).2 = sk_broken s
    /\ forall a, (m s).1 = Got a -> Q a) -> handshake k m Q.
Proof.
  intros Hk Hm s r s' _ E. destruct (Hm s) as (Hi & Ho & Hbr & HQ). rewrite E in *. cbn in *.
  split_and!; [exists []; split; [by rewrite Hi|cbn; lia]|done|done|done].
Qed.

Lemma handshake_ret {A} k (a : A) (Q : A -> Prop) : 0 <= k -> Q a -> handshake k (mret a) Q.
Proof. intros Hk HQ. apply handshake_still; [done|]. intros s. cbn. split_and!; [done|exists []; by rewrite app_nil_r|done|by intros ? [= <-]]. Qed.

Lemma handshake_fail {A} k e (Q : A -> Prop) : 0 <= k -> handshake k (fail e) Q.
Proof. intros Hk. apply handshake_still; [done|]. intros s. cbn. split_and!; [done|exists []; by rewrite app_nil_r|done|done]. Qed.

Lemma handshake_require {A} k e (o : option A) (Q : A -> Prop) :
  0 <= k -> (forall a, o = Some a -> Q a) -> handshake k (require e o) Q.
Proof. intros Hk. destruct o as [a|]; cbn; intros HQ; [by apply handshake_ret; [|apply HQ]|by apply handshake_fail]. Qed.

Lemma handshake_write k bytes label : 0 <= k -> handshake k (write_all bytes label) (fun _ => True).
Proof.
  intros Hk. apply handshake_still; [done|]. intros s. unfold write_all. destruct (sk_broken s) eqn:E; cbn; rewrite ?E; split_and!; try done.
  - exists []. by rewrite app_nil_r.
  - by exists bytes.
Qed.

Lemma handshake_write_ignored k bytes : 0 <= k -> handshake k (write_ignored bytes) (fun _ => True).
Proof.
  intros Hk. apply handshake_still; [done|]. intros s. unfold write_ignored. destruct (sk_broken s) eqn:E; cbn; rewrite ?E; split_and!; try done.
  - exists []. by rewrite app_nil_r.
  - by exists bytes.
Qed.

Lemma handshake_read n label :
  handshake (Z.of_nat n) (read_bytes n label) (fun l => length l = n /\ Forall byte_ok l).
Proof.
  intros s r s' Hb. unfold read_bytes. destruct (Nat.ltb_spec (length (sk_in s)) n) as [Hlt|Hge]; intros [= <- <-]; cbn.
  - split_and!; [|exists []; by rewrite app_nil_r|done|done]. exists (sk_in s). rewrite app_nil_r. split; [done|lia].
  - split_and!; [|exists []; by rewrite app_nil_r|done|].
    + exists (take n (sk_in s)). rewrite take_drop, length_take. split; [done|lia].
    + intros a [= <-]. rewrite length_take. split; [lia|by apply Forall_take].
Qed.

Lemma cstring_loop_spec label max inp bytes r rest :
  cstring_loop label max inp bytes = (r, rest) -> Z.of_nat (length bytes) <= max ->
  exists used, inp = used ++ rest /\ Z.of_nat (length used) + Z.of_nat (length bytes) <= max + 1.
Proof.
  revert bytes. induction inp as [|b inp IH]; intros bytes; cbn; [intros [= <- <-] Hl; exists []; split; [done|cbn; lia]|].
  destruct (b =? 0); [intros [= <- <-] Hl; exists [b]; split; [done|cbn; lia]|].
  destruct (Z.leb_spec max (Z.of_nat (length bytes))) as [Hle|Hlt]; [intros [= <- <-] Hl; exists [b]; split; [done|cbn; lia]|].
  intros E Hl. apply IH in E as (u & -> & Hu); [|rewrite length_app; cbn; lia].
  exists (b :: u). split; [done|]. rewrite length_app in Hu. cbn [length] in *. lia.
Qed.

Lemma handshake_cstring label max :
  0 <= max -> handshake (max + 1) (read_cstring label max) (fun _ => True).
Proof.
  intros Hm s r s' _. unfold read_cstring. destruct (cstring_loop label max (sk_in s) []) as [x rest] eqn:E. intros [= <- <-].
  destruct (cstring_loop_spec _ _ _ _ _ _ E) as (u & Eu & Hu); [cbn; lia|]. cbn in *.
  split_and!; [exists u; split; [done|lia]|exists []; by rewrite app_nil_r|done|done].
Qed.

Lemma handshake_reject4 {A} k e (Q : A -> Prop) : 0 <= k -> handshake k (reject4 e) Q.
Proof. intros Hk. eapply (handshake_bind 0 0 k _ _ (fun _ => True)); [by apply handshake_write_ignored|intros; by apply handshake_fail|lia]. Qed.

(** What every accepted request is like. *)
Definition request_ok (protocols : DynamicProxyProtocolSet) (rq : DynamicProxyRequest) : Prop :=
  1 <= ta_port (rq_target rq) <= umax 16
  /\ match rq_protocol rq with
     | Socks4 => socks4 protocols = true
     | Socks4a => socks4a protocols = true
     | Socks5 => socks5 protocols = true
     | HttpConnect => http_connect protocols = true
     end.

Lemma be_port a b : byte_ok a -> byte_ok b -> 0 <= from_be_bytes [a; b] <= umax 16.
Proof. unfold byte_ok, umax. cbn. unfold addb. lia. Qed.

Create HintDb handshake.
#[export] Hint Extern 1 (_ <= _) => lia : handshake.
#[export] Hint Resolve handshake_fail handshake_reject4 handshake_write handshake_write_ignored handshake_read : handshake.

Lemma handshake_socks4 protocols : handshake 1289 (read_socks4 protocols) (request_ok protocols).
Proof.
  eapply (handshake_bind 8 1281); [apply handshake_read| |lia]. intros head [Hl Hb].
  assert (forall i, byte_ok (nth i head 0)) as Hn.
  { intros i. destruct (Nat.lt_ge_cases i (length head)) as [Hi|Hi].
    - eapply Forall_forall; [exact Hb|]. by apply list_elem_of_In, nth_In.
    - rewrite nth_overflow by lia. unfold byte_ok. lia. }
  cbv zeta. destruct (negb _); [auto with handshake|]. destruct (negb _); [auto with handshake|].
  pose proof (be_port _ _ (Hn 2%nat) (Hn 3%nat)) as Hp.
  destruct (Z.eqb_spec (from_be_bytes [nth 2 head 0; nth 3 head 0]) 0) as [|Hp0]; [auto with handshake|].
  eapply (handshake_bind 1025 256); [by apply (handshake_cstring "SOCKS4 user id" 1024)| |lia]. intros _ _.
  destruct (_ && _).
  - eapply (handshake_bind 256 0); [by apply (handshake_cstring "SOCKS4A domain" 255)| |lia]. intros domain _.
    case_bool_decide; [auto with handshake|]. destruct (socks4a protocols) eqn:E4; cbn [negb]; [|auto with handshake].
    destruct (text_of domain); [|auto with handshake]. apply handshake_ret; [lia|]. split; cbn [ta_port rq_target rq_protocol]; [lia|done].
  - case_bool_decide; [auto with handshake|]. destruct (socks4 protocols) eqn:E4; cbn [negb]; [|auto with handshake].
    apply handshake_ret; [lia|]. split; cbn [ta_port rq_target rq_protocol]; [lia|done].
Qed.

Lemma byte_nat b : byte_ok b -> Z.of_nat (Z.to_nat b) <= 255.
Proof. unfold byte_ok. lia. Qed.

Lemma handshake_weaken {A} k k' (m : Io A) (P Q : A -> Prop) :
  handshake k m P -> k <= k' -> (forall a, P a -> Q a) -> handshake k' m Q.
Proof.
  intros Hm Hk HPQ s r s' Hb E. destruct (Hm s r s' Hb E) as ((u & Eu & Lu) & Hw & Hbr & HP).
  split_and!; [exists u; split; [done|lia]|done|done|]. intros a Ea. by apply HPQ, HP.
Qed.

Lemma handshake_socks5_host atyp : byte_ok atyp -> handshake 256 (read_socks5_host atyp) (fun _ => True).
Proof.
  intros Ha. unfold read_socks5_host. destruct (_ =? _); [|destruct (_ =? _); [|destruct (_ =? _); [|auto with handshake]]].
  - eapply (handshake_bind 4 0); [apply handshake_read|intros; by apply handshake_ret|lia].
  - eapply (handshake_bind 16 0); [apply handshake_read|intros; by apply handshake_ret|lia].
  - eapply (handshake_bind 1 255); [apply handshake_read| |lia]. intros len [Hl Hb].
    eapply (handshake_bind 255 0); [|intros; by apply handshake_require|lia].
    eapply handshake_weaken; [apply handshake_read| |done]. apply byte_nat.
    destruct len as [|b [|]]; [done| |done]. by inversion Hb.
Qed.

Lemma handshake_socks5 protocols : socks5 protocols = true -> handshake 519 read_socks5 (request_ok protocols).
Proof.
  intros H5. eapply (handshake_bind 2 517); [apply handshake_read| |lia]. intros g [Hgl Hg].
  destruct g as [|g0 [|g1 [|]]]; try done. inversion Hg as [|? ? _ Hg']; subst. inversion Hg' as [|? ? Hg1 _]; subst. cbn [nth].
  destruct (negb _); [auto with handshake|].
  eapply (handshake_bind 255 262); [eapply handshake_weaken; [apply handshake_read|by apply byte_nat|done]| |lia]. intros methods _.
  destruct (negb _); [eapply (handshake_bind 0 0 262 _ _ (fun _ => True)); [auto with handshake|auto with handshake|lia]|].
  eapply (handshake_bind 0 262); [by apply handshake_write| |lia]. intros _ _.
  eapply (handshake_bind 4 258); [apply handshake_read| |lia]. intros h [Hhl Hh].
  destruct h as [|h0 [|h1 [|h2 [|h3 [|]]]]]; try done. cbn [nth].
  destruct (negb _); [auto with handshake|].
  destruct (negb _); [eapply (handshake_bind 0 0 258 _ _ (fun _ => True)); [auto with handshake|auto with handshake|lia]|].
  eapply (handshake_bind 256 2); [apply handshake_socks5_host| |lia].
  { do 3 (inversion Hh as [|? ? _ Hh']; subst; clear Hh; rename Hh' into Hh). by inversion Hh. }
  intros host _. eapply (handshake_bind 2 0); [apply handshake_read| |lia]. intros pb [Hpl Hpb].
  destruct pb as [|p0 [|p1 [|]]]; try done. inversion Hpb as [|? ? H0 Hpb']; subst. inversion Hpb' as [|? ? H1 _]; subst.
  pose proof (be_port _ _ H0 H1). destruct (Z.eqb_spec (from_be_bytes [p0; p1]) 0); [auto with handshake|].
  apply handshake_ret; [lia|]. split; cbn [ta_port rq_target rq_protocol]; [lia|done].
Qed.

Lemma parse_uint_range w s v : 0 <= w -> parse_uint w s = Some v -> 0 <= v <= umax w.
Proof.
  intros Hw. pose proof (umax_nonneg w Hw) as Hu.
  assert (forall t acc, 0 <= acc <= umax w -> parse_digits w t acc = Some v -> 0 <= v <= umax w) as Hd.
  { induction t as [|a t IH]; intros acc Ha; cbn; [by intros [= <-]|]. unfold digit_val.
    destruct (_ && _) eqn:E; [|done]. destruct (Z.leb_spec (acc * 10 + (Z.of_nat (nat_of_ascii a) - 48)) (umax w)); [|done].
    apply IH. lia. }
  destruct s as [|a s]; [done|]. unfold parse_uint. destruct (Ascii.eqb a "+"); [destruct s; [done|]|]; apply Hd; lia.
Qed.

Lemma parse_authority_port authority t : parse_authority authority = Ok t -> 1 <= ta_port t <= umax 16.
Proof.
  unfold parse_authority. destruct (match strip_prefix "[" authority with Some _ => _ | None => _ end) as [[h p]|]; [|done].
  cbn [mbind result_bind]. destruct (_ =? "")%string; [done|]. destruct (parse_uint 16 p) as [v|] eqn:E; [|done].
  apply parse_uint_range in E; [|lia]. cbn [ok_or mbind result_bind]. destruct (Z.eqb_spec v 0); [done|].
  intros [= <-]. cbn. lia.
Qed.

Lemma http_header_spec inp header r rest :
  http_header inp header = (r, rest) -> Z.of_nat (length header) <= MAX_HTTP_CONNECT_HEADER ->
  exists used, inp = used ++ rest /\ Z.of_nat (length used) + Z.of_nat (length header) <= MAX_HTTP_CONNECT_HEADER.
Proof.
  revert header. induction inp as [|b inp IH]; intros header; cbn [http_header].
  - destruct (_ <=? _); intros [= <- <-] Hl; exists []; (split; [done|cbn; lia]).
  - destruct (Z.leb_spec MAX_HTTP_CONNECT_HEADER (Z.of_nat (length header))) as [Hle|Hlt]; [intros [= <- <-] Hl; exists []; split; [done|cbn; lia]|].
    destruct (header_ends _); [intros [= <- <-] Hl; exists [b]; split; [done|cbn; lia]|].
    intros E Hl. apply IH in E as (u & -> & Hu); [|rewrite length_app; cbn; lia].
    exists (b :: u). split; [done|]. rewrite length_app in Hu. cbn [length] in *. lia.
Qed.

Lemma handshake_http protocols : http_connect protocols = true -> handshake 16384 read_http_connect (request_ok protocols).
Proof.
  intros Hh s r s' Hb. unfold read_http_connect. destruct (http_header (sk_in s) []) as [x rest] eqn:E.
  apply http_header_spec in E as (u & Eu & Hu); [|unfold MAX_HTTP_CONNECT_HEADER; cbn; lia].
  unfold MAX_HTTP_CONNECT_HEADER in Hu. cbn [length] in Hu.
  set (s1 := mkSock rest (sk_out s) (sk_broken s)).
  assert (forall r1 s2, handshake 0 (fun t => (r1, t)) (request_ok protocols) -> (r1, s1) = (r, s2) ->
    (exists used, sk_in s = used ++ sk_in s2 /\ Z.of_nat (length used) <= 16384)
    /\ (exists w, sk_out s2 = sk_out s ++ w) /\ sk_broken s2 = sk_broken s /\ forall a, r = Got a -> request_ok protocols a) as Hend.
  { intros r1 s2 Hr [= <- <-]. split_and!; [exists u; split; [done|lia]|exists []; by rewrite app_nil_r|done|].
    intros a ->. eapply (Hr (mkSock [] [] None)); [constructor|done|done]. }
  destruct x as [header|e|e]; [|intros [= <- <-]; by apply (Hend (Failed e) s1); [apply (handshake_fail 0 e)|]
    |intros [= <- <-]; apply (Hend (Starved e) s1); [|done]].
  2:{ intros t r1 t' _ [= <- <-]. split_and!; [by exists []|exists []; by rewrite app_nil_r|done|done]. }
  assert (handshake 0 (text ← require (InvalidConfig "HTTP CONNECT header is not UTF-8") (text_of header);
       line ← require (InvalidConfig "HTTP CONNECT request line missing") (head (lines text));
       match parse_connect line with Ok rq => mret rq | Err e => fail e end) (request_ok protocols)) as Hk.
  { eapply (handshake_bind 0 0); [by apply (handshake_require 0 _ _ (fun _ => True))| |lia]. intros text _.
    eapply (handshake_bind 0 0); [by apply (handshake_require 0 _ _ (fun _ => True))| |lia]. intros line _.
    destruct (parse_connect line) as [rq|] eqn:Ep; [|auto with handshake]. apply handshake_ret; [lia|].
    revert Ep. unfold parse_connect. destruct (negb _); [done|]. destruct (_ || _); [done|].
    destruct (parse_authority _) as [t|] eqn:Ea; [|done]. intros [= <-]. split; [by eapply parse_authority_port|done]. }
  intros E. assert (Forall byte_ok (sk_in s1)) as Hb1 by (cbn; rewrite Eu in Hb; by apply Forall_app in Hb as [_ ?]).
  destruct (Hk s1 r s' Hb1 E) as ((u2 & E2 & L2) & (w & Ew) & Ebr & HQ). cbn in E2, Ew, Ebr.
  split_and!; [|by exists w|done|done]. exists (u ++ u2). rewrite <- app_assoc, <- E2, length_app. split; [done|lia].
Qed.

Lemma handshake_request protocols : handshake 16384 (read_request protocols) (request_ok protocols).
Proof.
  intros s r s' Hb. unfold read_request. destruct (sk_in s) as [|first inp] eqn:Ei.
  { intros [= <- <-]. split_and!; [exists []; by rewrite Ei|exists []; by rewrite app_nil_r|done|done]. }
  rewrite <- Ei in *. revert s r s' Hb Ei.
  assert (handshake 16384 (if first =? SOCKS4_VERSION then
         if socks4 protocols || socks4a protocols then read_socks4 protocols
         else reject4 (UnsupportedPlatform "SOCKS4/SOCKS4A are disabled for this dynamic forward")
       else if first =? SOCKS5_VERSION then
         if socks5 protocols then read_socks5 else fail (UnsupportedPlatform "SOCKS5 is disabled for this dynamic forward")
       else if (first =? 67) || (first =? 99) then
         if http_connect protocols then read_http_connect
         else fail (UnsupportedPlatform "HTTP CONNECT is disabled for this dynamic forward")
       else fail (InvalidConfig ("dynamic proxy expected SOCKS4/SOCKS4A/SOCKS5 or HTTP CONNECT, got first byte 0x" +:+ hex_byte first)))
    (request_ok protocols)) as Hm; [|intros s r s' Hb _; by apply Hm].
  destruct (_ =? _); [destruct (_ || _); [|auto with handshake]; eapply handshake_weaken; [apply handshake_socks4|lia|done]|].
  destruct (_ =? _); [destruct (socks5 protocols) eqn:E5; [|auto with handshake]; eapply handshake_weaken; [by apply handshake_socks5|lia|done]|].
  destruct (_ || _); [destruct (http_connect protocols) eqn:Eh; [by apply handshake_http|auto with handshake]|auto with handshake].
Qed.

(** ** Clients *)

(** What a well-behaved client sends. *)
Definition socks5_hello (methods name : list Z) (port : Z) : list Z :=
  [5; Z.of_nat (length methods)] ++ methods ++ [5; 1; 0; 3] ++ [Z.of_nat (length name)] ++ name ++ to_be_bytes 2 port.
Definition socks5_hello_v4 (methods : list Z) (a port : Z) : list Z :=
  [5; Z.of_nat (length methods)] ++ methods ++ [5; 1; 0; 1] ++ to_be_bytes 4 a ++ to_be_bytes 2 port.
Definition socks4_hello (user : list Z) (a port : Z) : list Z :=
  ([4; 1] ++ to_be_bytes 2 port ++ to_be_bytes 4 a) ++ user ++ [0].
Definition socks4a_hello (user name : list Z) (port : Z) : list Z :=
  ([4; 1] ++ to_be_bytes 2 port ++ [0; 0; 0; 1]) ++ user ++ 0 :: name ++ [0].
Definition http_line (host : string) (port : Z) : string :=
  ("CONNECT" +:+ String " " (host_port host port +:+ String " " "HTTP/1.1"))%string.
Definition http_hello (host : string) (port : Z) (headers : list Z) : list Z :=
  bytes_of (http_line host port) ++ [13; 10] ++ headers ++ [13; 10].

Lemma read_bytes_app l r o b n label :
  length l = n -> read_bytes n label (mkSock (l ++ r) o b) = (Got l, mkSock r o b).
Proof.
  intros <-. unfold read_bytes. cbn [sk_in sk_out sk_broken]. rewrite (proj2 (Nat.ltb_ge _ _)) by (rewrite length_app; lia).
  by rewrite take_app_length, drop_app_length.
Qed.

Lemma cstring_app label max user rest acc :
  Forall (fun b => b <> 0) user -> Z.of_nat (length acc + length user) <= max ->
  cstring_loop label max (user ++ 0 :: rest) acc = (Got (acc ++ user), rest).
Proof.
  intros Hu. revert acc. induction Hu as [|b user Hb Hu IH]; intros acc Hl; cbn [app cstring_loop]; [by rewrite app_nil_r|].
  rewrite (proj2 (Z.eqb_neq _ _) Hb). cbn in Hl. rewrite (proj2 (Z.leb_gt _ _)) by lia.
  rewrite IH by (rewrite length_app; cbn; lia). by rewrite <- app_assoc.
Qed.

Lemma read_cstring_app label max user rest o b :
  Forall (fun b => b <> 0) user -> Z.of_nat (length user) <= max ->
  read_cstring label max (mkSock (user ++ 0 :: rest) o b) = (Got user, mkSock rest o b).
Proof. intros Hu Hl. unfold read_cstring. cbn [sk_in sk_out sk_broken]. by rewrite cstring_app. Qed.

Lemma io_step {A B} (m : Io A) (f : A -> Io B) s a s' : m s = (Got a, s') -> (m ≫= f) s = f a s'.
Proof. intros E. unfold mbind, io_bind. by rewrite E. Qed.

Lemma port_bytes p : 0 <= p <= umax 16 -> from_be_bytes (to_be_bytes 2 p) = p.
Proof. intros Hp. apply from_to_be_bytes. unfold umax in Hp. lia. Qed.

Lemma v4_bytes a : in_u 32 a -> from_be_bytes (to_be_bytes 4 a) = a.
Proof. intros Ha. apply from_to_be_bytes. unfold in_u, umax in Ha. lia. Qed.

Lemma socks5_domain_parses protocols methods name host port rest o :
  socks5 protocols = true -> 0 ∈ methods -> (length methods <= 255)%nat -> (length name <= 255)%nat ->
  text_of name = Some host -> 1 <= port <= umax 16 ->
  read_request protocols (mkSock (socks5_hello methods name port ++ rest) o None)
  = (Got (mkRequest (mkTarget host port) Socks5), mkSock rest (o ++ [5; 0]) None).
Proof.
  intros H5 Hm Hml Hnl Ht Hp. unfold read_request, socks5_hello. rewrite <- !app_assoc. cbn [sk_in app Z.eqb Pos.eqb SOCKS4_VERSION SOCKS5_VERSION].
  rewrite H5. unfold read_socks5.
  erewrite io_step by by apply (read_bytes_app [5; Z.of_nat (length methods)]). cbn [nth Z.eqb Pos.eqb negb SOCKS5_VERSION].
  erewrite io_step by (apply read_bytes_app; lia).
  rewrite bool_decide_eq_true_2 by done. cbn [negb].
  erewrite io_step by done. cbn [sk_in sk_out].
  erewrite io_step by by apply (read_bytes_app [5; 1; 0; 3]). cbn [nth Z.eqb Pos.eqb negb SOCKS5_VERSION SOCKS5_CONNECT].
  unfold read_socks5_host. cbn [Z.eqb Pos.eqb SOCKS5_ATYP_IPV4 SOCKS5_ATYP_IPV6 SOCKS5_ATYP_DOMAIN].
  erewrite io_step.
  2:{ erewrite io_step by by apply (read_bytes_app [Z.of_nat (length name)]). cbn [nth].
      erewrite io_step by (apply read_bytes_app; lia). rewrite Ht. done. }
  erewrite io_step by (apply read_bytes_app; apply to_be_bytes_length).
  rewrite port_bytes by lia.
  rewrite (proj2 (Z.eqb_neq _ _)) by lia. done.
Qed.

Lemma socks5_v4_parses protocols methods a port rest o :
  socks5 protocols = true -> 0 ∈ methods -> (length methods <= 255)%nat -> in_u 32 a -> 1 <= port <= umax 16 ->
  read_request protocols (mkSock (socks5_hello_v4 methods a port ++ rest) o None)
  = (Got (mkRequest (mkTarget (ipv4_to_string a) port) Socks5), mkSock rest (o ++ [5; 0]) None).
Proof.
  intros H5 Hm Hml Ha Hp. unfold read_request, socks5_hello_v4. rewrite <- !app_assoc. cbn [sk_in app Z.eqb Pos.eqb SOCKS4_VERSION SOCKS5_VERSION].
  rewrite H5. unfold read_socks5.
  erewrite io_step by by apply (read_bytes_app [5; Z.of_nat (length methods)]). cbn [nth Z.eqb Pos.eqb negb SOCKS5_VERSION].
  erewrite io_step by (apply read_bytes_app; lia).
  rewrite bool_decide_eq_true_2 by done. cbn [negb].
  erewrite io_step by done. cbn [sk_in sk_out].
  erewrite io_step by by apply (read_bytes_app [5; 1; 0; 1]). cbn [nth Z.eqb Pos.eqb negb SOCKS5_VERSION SOCKS5_CONNECT].
  unfold read_socks5_host. cbn [Z.eqb Pos.eqb SOCKS5_ATYP_IPV4].
  erewrite io_step.
  2:{ erewrite io_step by (apply read_bytes_app; apply to_be_bytes_length). rewrite v4_bytes by done. done. }
  erewrite io_step by (apply read_bytes_app; apply to_be_bytes_length).
  rewrite port_bytes by lia. rewrite (proj2 (Z.eqb_neq _ _)) by lia. done.
Qed.

(** The eight bytes before the user id. *)
Lemma socks4_head p0 p1 a0 a1 a2 a3 tail o protocols :
  socks4 protocols || socks4a protocols = true ->
  read_request protocols (mkSock ([4; 1; p0; p1; a0; a1; a2; a3] ++ tail) o None)
  = (if from_be_bytes [p0; p1] =? 0 then reject4 (InvalidConfig "SOCKS4 target port cannot be zero")
     else
      _ ← read_cstring "SOCKS4 user id" MAX_SOCKS4_USER_ID;
      if (a0 =? 0) && (a1 =? 0) && (a2 =? 0) && negb (a3 =? 0) then
        domain ← read_cstring "SOCKS4A domain" MAX_SOCKS4_DOMAIN;
        if bool_decide (domain = []) then reject4 (InvalidConfig "SOCKS4A domain cannot be empty")
        else if negb (socks4a protocols) then reject4 (UnsupportedPlatform "SOCKS4A is disabled for this dynamic forward")
        else
          match text_of domain with
          | None => reject4 (InvalidConfig "SOCKS4A domain is not UTF-8")
          | Some host => mret (mkRequest (mkTarget host (from_be_bytes [p0; p1])) Socks4a)
          end
      else if bool_decide ([a0; a1; a2; a3] = [0; 0; 0; 0]) then reject4 (InvalidConfig "SOCKS4 IPv4 target cannot be 0.0.0.0")
      else if negb (socks4 protocols) then reject4 (UnsupportedPlatform "SOCKS4 is disabled for this dynamic forward")
      else mret (mkRequest (mkTarget (ipv4_to_string (from_be_bytes [a0; a1; a2; a3])) (from_be_bytes [p0; p1])) Socks4)) (mkSock tail o None).
Proof.
  intros H4. unfold read_request. cbn [sk_in app Z.eqb Pos.eqb SOCKS4_VERSION]. rewrite H4. unfold read_socks4.
  erewrite io_step by by apply (read_bytes_app [4; 1; p0; p1; a0; a1; a2; a3]). done.
Qed.

Lemma socks4_parses protocols user a port rest o :
  socks4 protocols = true -> Forall (fun b => b <> 0) user -> Z.of_nat (length user) <= 1024 ->
  in_u 32 a -> 256 <= a -> 1 <= port <= umax 16 ->
  read_request protocols (mkSock (socks4_hello user a port ++ rest) o None)
  = (Got (mkRequest (mkTarget (ipv4_to_string a) port) Socks4), mkSock rest o None).
Proof.
  intros H4 Hu Hul Ha Ha1 Hp. unfold socks4_hello. rewrite <- !app_assoc. cbn [app].
  pose proof (port_bytes port ltac:(lia)) as Ep. pose proof (v4_bytes a Ha) as Ea.
  pose proof (to_be_bytes_length 2 port) as L2. pose proof (to_be_bytes_length 4 a) as L4.
  pose proof (to_be_bytes_ok 4 a) as B4.
  destruct (to_be_bytes 2 port) as [|p0 [|p1 [|]]]; try done.
  destruct (to_be_bytes 4 a) as [|a0 [|a1 [|a2 [|a3 [|]]]]]; try done. cbn [app].
  change (4 :: 1 :: p0 :: p1 :: a0 :: a1 :: a2 :: a3 :: user ++ 0 :: rest) with ([4; 1; p0; p1; a0; a1; a2; a3] ++ user ++ 0 :: rest).
  rewrite socks4_head by by rewrite H4. rewrite Ep, (proj2 (Z.eqb_neq _ _)) by lia.
  erewrite io_step by by apply read_cstring_app.
  assert ((a0 =? 0) && (a1 =? 0) && (a2 =? 0) = false) as ->.
  { apply not_true_iff_false. intros [[->%Z.eqb_eq ->%Z.eqb_eq]%andb_true_iff ->%Z.eqb_eq]%andb_true_iff.
    apply Forall_cons_1 in B4 as [_ [_ [_ [B _]%Forall_cons_1]%Forall_cons_1]%Forall_cons_1].
    unfold byte_ok in B. unfold from_be_bytes, addb in Ea. cbn in Ea. lia. }
  cbn [andb]. rewrite bool_decide_eq_false_2; [|intros E; injection E as -> -> -> ->; unfold from_be_bytes, addb in Ea; cbn in Ea; lia]. rewrite H4, Ea. done.
Qed.

Lemma socks4a_parses protocols user name host port rest o :
  socks4a protocols = true -> Forall (fun b => b <> 0) user -> Z.of_nat (length user) <= 1024 ->
  Forall (fun b => b <> 0) name -> name <> [] -> Z.of_nat (length name) <= 255 -> text_of name = Some host -> 1 <= port <= umax 16 ->
  read_request protocols (mkSock (socks4a_hello user name port ++ rest) o None)
  = (Got (mkRequest (mkTarget host port) Socks4a), mkSock rest o None).
Proof.
  intros H4 Hu Hul Hn Hne Hnl Ht Hp. unfold socks4a_hello. rewrite <- !app_assoc. cbn [app]. rewrite <- !app_assoc. cbn [app].
  pose proof (port_bytes port ltac:(lia)) as Ep. pose proof (to_be_bytes_length 2 port) as L2.
  destruct (to_be_bytes 2 port) as [|p0 [|p1 [|]]]; try done. cbn [app].
  change (4 :: 1 :: p0 :: p1 :: 0 :: 0 :: 0 :: 1 :: user ++ 0 :: name ++ 0 :: rest)
    with ([4; 1; p0; p1; 0; 0; 0; 1] ++ user ++ 0 :: name ++ 0 :: rest).
  rewrite socks4_head by by rewrite H4, orb_true_r. rewrite Ep, (proj2 (Z.eqb_neq _ _)) by lia.
  erewrite io_step by by apply read_cstring_app. cbn [Z.eqb andb negb].
  erewrite io_step by by apply read_cstring_app.
  rewrite bool_decide_eq_false_2 by done. rewrite H4, Ht. done.
Qed.

(** The header is over where it first ends with an empty line. *)
Lemma http_header_app pre post rest :
  post <> [] -> header_ends (pre ++ post) = true -> Z.of_nat (length (pre ++ post)) <= MAX_HTTP_CONNECT_HEADER ->
  (forall n, (length pre < n < length (pre ++ post))%nat -> header_ends (take n (pre ++ post)) = false) ->
  http_header (post ++ rest) pre = (Got (pre ++ post), rest).
Proof.
  revert pre. induction post as [|b post IH]; intros pre Hne He Hl Hp; [done|]. rewrite length_app in *. cbn [app http_header length] in *.
  rewrite (proj2 (Z.leb_gt _ _)) by lia.
  replace (pre ++ b :: post) with ((pre ++ [b]) ++ post) in * by by rewrite <- app_assoc.
  destruct post as [|b' post]; [rewrite app_nil_r in *; by rewrite He|].
  assert (header_ends (pre ++ [b]) = false) as ->.
  { rewrite <- (Hp (S (length pre))) by (cbn; lia). f_equal. rewrite take_app_length' by (rewrite length_app; cbn; lia). done. }
  rewrite IH; [done|done|done|rewrite !length_app; cbn [length] in *; lia|].
  intros n Hn. apply Hp. rewrite !length_app in Hn. cbn [length] in *. lia.
Qed.

Lemma string_of_app a b : string_of (a ++ b) = (string_of a +:+ string_of b)%string.
Proof.
  unfold string_of. rewrite fmap_app. induction ((fun b => ascii_of_nat (Z.to_nat b)) <$> a) as [|x l IH]; [done|].
  cbn [app string_of_list_ascii]. by rewrite IH, str_cons_app.
Qed.

Lemma strip_cr_snoc s : strip_cr (s +:+ String carriage "") = s.
Proof.
  induction s as [|a s IH]; [done|]. rewrite str_cons_app. cbn [strip_cr].
  destruct (s +:+ String carriage "")%string eqn:E; [by destruct s|]. by rewrite IH.
Qed.

Lemma split_ws_free s : ws_free s = true -> split_ws s = (s, None).
Proof.
  induction s as [|a s IH]; [done|]. intros Hs. pose proof (ws_free_head _ Hs) as Hh. apply ws_free_cons in Hs as [_ Hs].
  cbn [split_ws]. by rewrite Hh, (IH Hs).
Qed.

Lemma split_whitespace_line host port :
  ws_free (host_port host port) = true -> host_port host port <> ""%string ->
  split_whitespace (http_line host port) = ["CONNECT"; host_port host port; "HTTP/1.1"]%string.
Proof.
  intros Hw Hne. unfold split_whitespace, http_line. generalize (host_port host port) Hw Hne. clear. intros h Hw Hne.
  rewrite str_cons_app. cbn [String.length]. destruct (String.length _) as [|n] eqn:E; [done|].
  rewrite <- str_cons_app. cbn [ws_pieces]. rewrite split_ws_app by done. rewrite split_ws_app by done.
  assert (exists m, n = S m) as [m ->] by (destruct n; [done|by eexists]).
  cbn [ws_pieces]. rewrite (split_ws_free "HTTP/1.1") by done. cbn [List.filter String.eqb negb].
  by rewrite (proj2 (String.eqb_neq _ _) Hne).
Qed.

Lemma http_parses protocols host port headers rest o :
  http_connect protocols = true -> host <> ""%string -> starts_with "[" host = false ->
  ws_free (host_port host port) = true -> 1 <= port <= umax 16 ->
  let hello := http_hello host port headers in
  utf8_valid hello = true -> header_ends hello = true -> Z.of_nat (length hello) <= MAX_HTTP_CONNECT_HEADER ->
  (forall n, (n < length hello)%nat -> header_ends (take n hello) = false) ->
  read_request protocols (mkSock (hello ++ rest) o None)
  = (Got (mkRequest (mkTarget host port) HttpConnect), mkSock rest o None).
Proof.
  intros Hh Hne Hbr Hw Hp hello Hu He Hl Hpre.
  assert (hello <> []) as Hhne by done.
  unfold read_request. cbn [sk_in]. replace (hello ++ rest) with (67 :: tail (hello ++ rest)) at 1 by done.
  cbn [Z.eqb Pos.eqb SOCKS4_VERSION SOCKS5_VERSION orb]. rewrite Hh. unfold read_http_connect. cbn [sk_in sk_out sk_broken].
  rewrite (http_header_app [] hello rest) by (done || by intros n [_ Hn]; apply Hpre). cbn [app].
  assert (text_of hello = Some (http_line host port +:+ String carriage (String newline (string_of (headers ++ [13; 10]))))%string) as ->.
  { unfold text_of, from_utf8. rewrite Hu. cbn [fmap option_fmap option_map]. f_equal. unfold hello, http_hello.
    rewrite !string_of_app, string_of_bytes. done. }
  erewrite io_step by done.
  assert (no_char newline (host_port host port) = true) as Hnl by by apply ws_free_no_newline.
  assert (lines (http_line host port +:+ String carriage (String newline (string_of (headers ++ [13; 10]))))
    = http_line host port :: lines (string_of (headers ++ [13; 10]))) as ->.
  { replace (http_line host port +:+ String carriage (String newline (string_of (headers ++ [13; 10]))))%string
      with ((http_line host port +:+ String carriage "") +:+ String newline (string_of (headers ++ [13; 10])))%string
      by by rewrite str_app_assoc.
    rewrite lines_cons, strip_cr_snoc; [done|]. unfold http_line. rewrite !no_char_app. cbn. rewrite no_char_app, Hnl. done. }
  cbn [head]. erewrite io_step by done.
  assert (host_port host port <> ""%string) as Hhp by (unfold host_port; by destruct host).
  unfold parse_connect. rewrite split_whitespace_line by done. cbn [nth].
  rewrite (proj2 (String.eqb_neq _ _) Hhp). change (starts_with "HTTP/" "HTTP/1.1") with true. cbn [orb negb].
  change (to_ascii_lowercase "CONNECT" =? "connect")%string with true. cbn [negb].
  assert (parse_authority (host_port host port) = Ok (mkTarget host port)) as ->; [|done].
  unfold parse_authority.
  assert (strip_prefix "[" (host_port host port) = None) as ->.
  { unfold host_port. destruct host as [|c host]; [done|]. rewrite starts_with_head in Hbr. rewrite str_cons_app. cbn [strip_prefix]. by rewrite Hbr. }
  rewrite rsplit_host_port by lia. cbn [ok_or mbind result_bind]. rewrite (proj2 (String.eqb_neq _ _) Hne).
  rewrite parse_uint_pretty by (unfold in_u; lia). cbn [ok_or mbind result_bind]. by rewrite (proj2 (Z.eqb_neq _ _)) by lia.
Qed.

(** A request, the bytes of a client that makes it, and what the proxy answers
    before it dials. *)
Inductive Hello (protocols : DynamicProxyProtocolSet) : DynamicProxyRequest -> list Z -> list Z -> Prop :=
| hello_socks5 methods name host port :
    socks5 protocols = true -> 0 ∈ methods -> (length methods <= 255)%nat -> (length name <= 255)%nat ->
    text_of name = Some host -> 1 <= port <= umax 16 ->
    Hello protocols (mkRequest (mkTarget host port) Socks5) (socks5_hello methods name port) [5; 0]
| hello_socks5_v4 methods a port :
    socks5 protocols = true -> 0 ∈ methods -> (length methods <= 255)%nat -> in_u 32 a -> 1 <= port <= umax 16 ->
    Hello protocols (mkRequest (mkTarget (ipv4_to_string a) port) Socks5) (socks5_hello_v4 methods a port) [5; 0]
| hello_socks4 user a port :
    socks4 protocols = true -> Forall (fun b => b <> 0) user -> Z.of_nat (length user) <= MAX_SOCKS4_USER_ID ->
    in_u 32 a -> 256 <= a -> 1 <= port <= umax 16 ->
    Hello protocols (mkRequest (mkTarget (ipv4_to_string a) port) Socks4) (socks4_hello user a port) []
| hello_socks4a user name host port :
    socks4a protocols = true -> Forall (fun b => b <> 0) user -> Z.of_nat (length user) <= MAX_SOCKS4_USER_ID ->
    Forall (fun b => b <> 0) name -> name <> [] -> Z.of_nat (length name) <= MAX_SOCKS4_DOMAIN -> text_of name = Some host ->
    1 <= port <= umax 16 ->
    Hello protocols (mkRequest (mkTarget host port) Socks4a) (socks4a_hello user name port) []
| hello_http host port headers :
    http_connect protocols = true -> host <> ""%string -> starts_with "[" host = false ->
    ws_free (host_port host port) = true -> 1 <= port <= umax 16 ->
    utf8_valid (http_hello host port headers) = true -> header_ends (http_hello host port headers) = true ->
    Z.of_nat (length (http_hello host port headers)) <= MAX_HTTP_CONNECT_HEADER ->
    (forall n, (n < length (http_hello host port headers))%nat -> header_ends (take n (http_hello host port headers)) = false) ->
    Hello protocols (mkRequest (mkTarget host port) HttpConnect) (http_hello host port headers) [].

(** ** Theorems *)

(** Every client is understood, and not a byte of its payload is lost.  For
    SOCKS5 with a domain or an IPv4 address, SOCKS4, SOCKS4A and HTTP CONNECT
    with any headers, [read_request] on what the client sends returns the target
    and the protocol it asked for, has written exactly the method selection that
    SOCKS5 calls for, and leaves the bytes that follow the handshake in the
    socket, for the tunnel. *)
Theorem proxy_request_roundtrip (protocols : DynamicProxyProtocolSet) (rq : DynamicProxyRequest) (bytes reply rest out : list Z) :
  Hello protocols rq bytes reply ->
  read_request protocols (mkSock (bytes ++ rest) out None) = (Got rq, mkSock rest (out ++ reply) None).
Proof.
  destruct 1; rewrite ?app_nil_r.
  - by apply socks5_domain_parses.
  - by apply socks5_v4_parses.
  - by apply socks4_parses.
  - by apply socks4a_parses.
  - by apply http_parses.
Qed.

(** What a printed address is looked up as. *)
Lemma printed_target a : in_u 32 a -> parse_target_ip (ipv4_to_string a) = Some (V4 a).
Proof. intros Ha. unfold parse_target_ip. by rewrite parse_ipv4_printed. Qed.

Lemma ipv4_no_dot a : ends_with "." (ipv4_to_string a) = false.
Proof.
  unfold ipv4_to_string. pose proof (octet_range a 3) as H3.
  assert (no_char "." (pretty (octet a 3)) = true) as Hn by (apply pretty_no_char; [done|lia]).
  assert (pretty (octet a 3) <> ""%string) as Hne.
  { pose proof (read_octet (octet a 3) "" H3 eq_refl) as Hr. rewrite str_app_nil in Hr. by intros E; rewrite E in Hr. }
  rewrite !ends_with_app by (first [done | by destruct (pretty (octet a 1)) | by destruct (pretty (octet a 2)) | done]).
  by apply ends_with_no_char.
Qed.

Section Theorems.
Context {N : Type} `{IpNets N}.

Lemma replies_keep (p : DynamicProxyProtocol) s :
  sk_in (reply_success p s).2 = sk_in s /\ sk_in (reply_failure p s).2 = sk_in s /\ sk_in (reply_denied p s).2 = sk_in s.
Proof.
  assert (forall b l, sk_in (write_all b l s).2 = sk_in s) as Hw by (intros b l; unfold write_all; by destruct (sk_broken s)).
  by destruct p; split_and!; apply Hw.
Qed.

(** C10: The server is asked to dial only where the destination list permits.
    Whatever bytes a local client sends, a channel is requested only for a
    target that the client's request names, that the list permits, with a port
    from 1 to 65535 and through a protocol that is enabled; bytes are copied
    only after the server has opened that channel; and at most 16384 bytes are
    read before that decision. *)
Theorem dynamic_targets_guarded (closed : bool) (protocols : DynamicProxyProtocolSet) (acl : TargetAcl N)
    (dial : TargetAddr -> Result string ()) (copied : Result string ()) (s : Sock) :
  Forall byte_ok (sk_in s) ->
  let b := bridge_dynamic closed protocols acl dial copied s in
  (forall t, dialled b = Some t ->
     permits acl (ta_host t) (ta_port t) = true
     /\ exists rq s1, read_request protocols s = (Got rq, s1) /\ rq_target rq = t /\ request_ok protocols rq)
  /\ (copying b = true -> exists t, dialled b = Some t /\ dial t = Ok tt)
  /\ exists used, sk_in s = used ++ sk_in (br_sock b) /\ Z.of_nat (length used) <= MAX_HTTP_CONNECT_HEADER.
Proof.
  intros Hb. unfold bridge_dynamic, read_request_with_timeout.
  destruct (read_request protocols s) as [r s1] eqn:Er.
  destruct (handshake_request protocols s r s1 Hb Er) as ((u & Eu & Lu) & _ & _ & Hok).
  destruct r as [rq|e|e]; cbn [dialled copying br_sock].
  - destruct (permits acl (ta_host (rq_target rq)) (ta_port (rq_target rq))) eqn:Ep; cbn [negb].
    2:{ cbn. split_and!; [done|done|]. exists u. by destruct (replies_keep (rq_protocol rq) s1) as (_ & _ & ->). }
    assert (forall t, Some (rq_target rq) = Some t -> permits acl (ta_host t) (ta_port t) = true
      /\ exists rq0 s2, (Got rq, s1) = (Got rq0, s2) /\ rq_target rq0 = t /\ request_ok protocols rq0) as Hdial.
    { intros t [= <-]. split; [done|]. exists rq, s1. split_and!; [done|done|by apply Hok]. }
    destruct (dial (rq_target rq)) as [[]|e] eqn:Ed.
    + destruct (replies_keep (rq_protocol rq) s1) as (Hs & _).
      destruct (reply_success (rq_protocol rq) s1) as [[[]|e|e] s2]; cbn in *; (split_and!; [done|try done|exists u; by rewrite Hs]).
      intros _. by exists (rq_target rq).
    + cbn. split_and!; [done|done|]. exists u. by destruct (replies_keep (rq_protocol rq) s1) as (_ & -> & _).
  - split_and!; [done|done|]. by exists u.
  - split_and!; [done|done|]. by exists u.
Qed.

(** A denied address is never dialled: a SOCKS5 client that asks for an IPv4
    address of a denied network is answered with the code for a ruleset. *)
Theorem denied_address_never_dialled (closed : bool) (protocols : DynamicProxyProtocolSet) (acl : TargetAcl N) (net : N)
    (dial : TargetAddr -> Result string ()) (copied : Result string ()) (methods : list Z) (a port : Z) (rest : list Z) :
  socks5 protocols = true -> 0 ∈ methods -> (length methods <= 255)%nat -> in_u 32 a -> 1 <= port <= umax 16 ->
  RNet net ∈ t_deny acl -> net_contains net (V4 a) = true ->
  let b := bridge_dynamic closed protocols acl dial copied (mkSock (socks5_hello_v4 methods a port ++ rest) [] None) in
  dialled b = None /\ sk_out (br_sock b) = [5; 0; 5; 2; 0; 1; 0; 0; 0; 0; 0; 0].
Proof.
  intros H5 Hm Hml Ha Hp Hin Hnet. unfold bridge_dynamic, read_request_with_timeout.
  rewrite socks5_v4_parses by done. cbn [rq_target rq_protocol ta_host ta_port].
  assert (permits acl (ipv4_to_string a) port = false) as ->; [|done].
  apply not_true_iff_false. rewrite permits_covers. intros [Hno _]. apply Hno.
  rewrite strip_dot_other by apply ipv4_no_dot.
  apply List.Exists_exists. exists (RNet net). split; [by apply list_elem_of_In|]. exists (V4 a). split; [|done]. by apply printed_target.
Qed.
End Theorems.

(** ** The accept gate holds its cap *)

(** Accepts at some time, and ends of connections. *)
Inductive AcceptOp := AAccept (now : Z) | ADone.

Definition accept_step (l : ConnLimiter) (op : AcceptOp) : ConnLimiter :=
  match op with
  | AAccept now => (try_accept now l).2
  | ADone => if 0 <? cl_active l then conn_release l else l
  end.

(** Connections in progress never exceed [max_connections]. *)
Theorem accept_cap_holds (l : ConnLimiter) (limit : Z) (ops : list AcceptOp) :
  cl_max_connections l = Some limit -> 0 <= limit < 2 ^ 32 -> 0 <= cl_active l <= limit ->
  0 <= cl_active (foldl accept_step l ops) <= limit.
Proof.
  intros Hm Hl. revert l Hm. induction ops as [|op ops IH]; intros l Hm Ha; [done|]. cbn [foldl].
  assert (cl_max_connections (accept_step l op) = Some limit /\ 0 <= cl_active (accept_step l op) <= limit) as [Hm' Ha']; [|by apply IH].
  destruct op as [now|]; cbn [accept_step].
  - unfold try_accept. destruct (rate_admit now (cl_rate_gate l)) as [[] g]; cbn [negb cl_max_connections cl_active]; [|by split].
    rewrite Hm. destruct (Z.leb_spec limit (cl_active l)); [by split|]. cbn. split; [done|].
    rewrite wrap_small by (unfold in_u, umax; lia). lia.
  - destruct (Z.ltb_spec 0 (cl_active l)); [|by split]. cbn. split; [done|]. rewrite wrap_small by (unfold in_u, umax; lia). lia.
Qed.

(** ** Examples *)

Definition all_protocols : DynamicProxyProtocolSet := mkProtocols true true true true.

Definition demo_connect : list Z := http_hello "db.internal" 443 (bytes_of ("Host: db.internal" +:+ crlf)).

Lemma proxy_request_roundtrip_witness :
  read_request all_protocols (mkSock (demo_connect ++ [1; 2; 3]) [] None)
  = (Got (mkRequest (mkTarget "db.internal" 443) HttpConnect), mkSock [1; 2; 3] [] None)
  /\ read_request all_protocols (mkSock (socks5_hello_v4 [2; 0] 2130706433 80 ++ [9]) [] None)
     = (Got (mkRequest (mkTarget "127.0.0.1" 80) Socks5), mkSock [9] [5; 0] None).
Proof.
  split.
  - apply (proxy_request_roundtrip all_protocols _ demo_connect []). unfold demo_connect.
    apply hello_http; try (vm_compute; reflexivity); try done.
    intros n Hn. vm_compute in Hn.
    assert (forallb (fun n => negb (header_ends (take n (http_hello "db.internal" 443 (bytes_of ("Host: db.internal" +:+ crlf)))))) (seq 0 55) = true) as Hall
      by (vm_compute; reflexivity).
    rewrite forallb_forall in Hall. apply negb_true_iff, Hall, in_seq. lia.
  - apply (proxy_request_roundtrip all_protocols (mkRequest (mkTarget (ipv4_to_string 2130706433) 80) Socks5) _ [5; 0] [9] []).
    apply hello_socks5_v4; try done; [vm_compute; apply list_elem_of_further, list_elem_of_here|cbn; lia].
Defined.

Lemma dynamic_targets_guarded_witness :
  let s := mkSock (socks5_hello_v4 [0] 0x0A000001 22 ++ [7]) [] None in
  let b := bridge_dynamic true all_protocols demo_acl (fun _ => Ok tt) (Ok tt) s in
  dialled b = Some (mkTarget "10.0.0.1" 22) /\ copying b = true /\ sk_in (br_sock b) = [7]
  /\ (forall t, dialled b = Some t ->
     permits demo_acl (ta_host t) (ta_port t) = true
     /\ exists rq s1, read_request all_protocols s = (Got rq, s1) /\ rq_target rq = t /\ request_ok all_protocols rq)
  /\ (copying b = true -> exists t, dialled b = Some t /\ (fun _ : TargetAddr => @Ok string () tt) t = Ok tt)
  /\ exists used, sk_in s = used ++ sk_in (br_sock b) /\ Z.of_nat (length used) <= MAX_HTTP_CONNECT_HEADER.
Proof.
  intros s b. split; [vm_compute; reflexivity|]. split; [vm_compute; reflexivity|]. split; [vm_compute; reflexivity|].
  apply (dynamic_targets_guarded true all_protocols demo_acl (fun _ => Ok tt) (Ok tt) s).
  vm_compute. repeat constructor; discriminate.
Defined.

(** ** Messages are printable *)

(** No control byte: nothing a terminal would act on. *)
Fixpoint printable (s : string) : bool :=
  match s with
  | EmptyString => true
  | String a r => (0x20 <=? code a) && negb (code a =? 0x7f) && printable r
  end.

Lemma printable_app s t : printable (s +:+ t) = printable s && printable t.
Proof. induction s as [|a s IH]; [done|]. rewrite str_cons_app. cbn [printable]. by rewrite IH, andb_assoc. Qed.

Lemma escape_char_printable c : 0 <= c < 256 -> printable (escape_char c) = true.
Proof.
  intros Hc. assert (forallb (fun c => printable (escape_char c)) (zrange 256) = true) as Hall by (vm_compute; reflexivity).
  rewrite forallb_forall in Hall. apply Hall, list_elem_of_In. unfold zrange. apply list_elem_of_fmap.
  exists (Z.to_nat c). split; [lia|]. apply elem_of_seq. lia.
Qed.

Lemma code_range a : 0 <= code a < 256.
Proof. unfold code. pose proof (nat_ascii_bounded a). lia. Qed.

(** A host name from a client reaches the log without its control characters. *)
Theorem escape_control_printable (s : string) : printable (escape_control s) = true.
Proof.
  remember (String.length s) as n eqn:En. revert s En. induction n as [n IH] using lt_wf_ind. intros s ->.
  destruct s as [|a r]; [done|]. cbn [escape_control].
  destruct ((code a <? 0x20) || (code a =? 0x7f)) eqn:Ea.
  { rewrite printable_app, escape_char_printable by apply code_range. apply (IH (String.length r)); [cbn; lia|done]. }
  assert ((0x20 <=? code a) && negb (code a =? 0x7f) = true) as Hp by lia.
  destruct r as [|b r']; [cbn [printable]; by rewrite Hp|].
  destruct (_ && between _ _ _).
  - rewrite printable_app, escape_char_printable by apply code_range. apply (IH (String.length r')); [cbn; lia|done].
  - cbn [printable]. rewrite Hp. apply (IH (String.length (String b r'))); [cbn; lia|done].
Qed.
