(* ===== verification/Bidir.v ===== *)
(** * The bidirectional copy of a forwarded connection

    Models [crates/spt-forward/src/bidir.rs].  Each direction is [copy_one] at
    one of its await points: reading, draining a chunk (the throttle and the
    write), or half-closing the other side at the end of the stream.  A
    stimulus is what wakes it: a read of some bytes (none at the end), a failed
    read, a finished drain, a finished half-close.  The idle watchdog samples the shared beacon each time its sleep ends.  Both
    directions and the watchdog run in one task, so a step is atomic. *)

From S2P Require Import Prelude.

Section Copy.
(** [std::io::Error]. *)
Context {IoError : Type}.

Definition BUF_SIZE : Z := 16 * 1024.

(** The atomics of the beacon. *)
Record ActivityBeacon := mkBeacon { generation : Z; beacon_in_flight : Z }.

Definition beacon_default : ActivityBeacon := mkBeacon 0 0.
Definition bump (b : ActivityBeacon) : ActivityBeacon := mkBeacon (wrap 64 (generation b + 1)) (beacon_in_flight b).
Definition enter_transfer (b : ActivityBeacon) : ActivityBeacon :=
  mkBeacon (generation b) (wrap 64 (beacon_in_flight b + 1)).
Definition exit_transfer (b : ActivityBeacon) : ActivityBeacon :=
  mkBeacon (generation b) (wrap 64 (beacon_in_flight b - 1)).
Definition sample (b : ActivityBeacon) : Z := generation b.
Definition is_busy (b : ActivityBeacon) : bool := 0 <? beacon_in_flight b.

Record CopyStats := mkCopyStats { a_to_b : Z; b_to_a : Z }.
Definition CopyStats_default : CopyStats := mkCopyStats 0 0.

(** Where [copy_one] stands. *)
Inductive CopyPhase :=
| Reading
| Draining (n : Z)
| Closing
| Finished (r : Result IoError Z).

(** A direction: its await point and [total]; [read_bytes] and
    [written_bytes] record what passed through the streams. *)
Record Direction := mkDirection {
  phase : CopyPhase; total : Z; read_bytes : Z; written_bytes : Z; shut : bool }.

Definition direction_new : Direction := mkDirection Reading 0 0 0 false.

Inductive CopyStim :=
| ReadDone (n : Z)
| ReadFailed (e : IoError)
| DrainDone (r : Result IoError unit)
| ShutdownDone (r : Result IoError unit).

(** One wake-up of [copy_one], with the beacon. *)
Definition copy_one_step (s : CopyStim) (d : Direction) (b : ActivityBeacon) : Direction * ActivityBeacon :=
  match phase d, s with
  | Reading, ReadDone n =>
      if n =? 0 then (mkDirection Closing (total d) (read_bytes d) (written_bytes d) (shut d), b)
      else (mkDirection (Draining n) (total d) (read_bytes d + n) (written_bytes d) (shut d), enter_transfer (bump b))
  | Reading, ReadFailed e =>
      (mkDirection (Finished (Err e)) (total d) (read_bytes d) (written_bytes d) (shut d), b)
  | Draining n, DrainDone r =>
      let b' := exit_transfer (bump b) in
      match r with
      | Err e => (mkDirection (Finished (Err e)) (total d) (read_bytes d) (written_bytes d) (shut d), b')
      | Ok _ => (mkDirection Reading (total d + n) (read_bytes d) (written_bytes d + n) (shut d), b')
      end
  | Closing, ShutdownDone _ =>
      (mkDirection (Finished (Ok (total d))) (total d) (read_bytes d) (written_bytes d) true, b)
  | _, _ => (d, b)
  end.

(** The connection under the idle watchdog. *)
Record Conn := mkConn {
  ab : Direction; ba : Direction; beacon : ActivityBeacon; last_seen : Z;
  returned : option (Result IoError CopyStats) }.

Definition conn_new : Conn :=
  mkConn direction_new direction_new beacon_default (sample beacon_default) None.

(** [tokio::join!] of the two directions and the [?] on their results. *)
Definition copies_result (ab ba : Direction) : option (Result IoError CopyStats) :=
  match phase ab, phase ba with
  | Finished r1, Finished r2 => Some (x ← r1; y ← r2; Ok (mkCopyStats x y))
  | _, _ => None
  end.

Inductive ConnStim :=
| AStim (s : CopyStim)
| BStim (s : CopyStim)
| SleepDone.

(** One turn of the [select!] of [copy_bidirectional_throttled_idle]. *)
Definition conn_step (c : Conn) (s : ConnStim) : Conn :=
  match returned c with
  | Some _ => c
  | None =>
      match s with
      | AStim s =>
          let '(d, b) := copy_one_step s (ab c) (beacon c) in
          mkConn d (ba c) b (last_seen c) (copies_result d (ba c))
      | BStim s =>
          let '(d, b) := copy_one_step s (ba c) (beacon c) in
          mkConn (ab c) d b (last_seen c) (copies_result (ab c) d)
      | SleepDone =>
          let now := sample (beacon c) in
          if (now =? last_seen c) && negb (is_busy (beacon c))
          then mkConn (ab c) (ba c) (beacon c) (last_seen c) (Some (Ok CopyStats_default))
          else mkConn (ab c) (ba c) (beacon c) now None
      end
  end.

Definition conn_run (c : Conn) (l : list ConnStim) : Conn := foldl conn_step c l.

(** ** Invariant *)

Definition draining (d : Direction) : Z := match phase d with Draining _ => 1 | _ => 0 end.

(** A direction's books: what was read and not written is the chunk in hand,
    or was lost to a failed write. *)
Definition direction_inv (d : Direction) : Prop :=
  0 <= written_bytes d /\ total d = written_bytes d /\
  match phase d with
  | Reading | Closing => read_bytes d = written_bytes d
  | Draining n => read_bytes d = written_bytes d + n /\ 0 < n
  | Finished (Ok t) => t = total d /\ read_bytes d = written_bytes d
  | Finished (Err _) => written_bytes d <= read_bytes d
  end.

Definition conn_inv (c : Conn) : Prop :=
  direction_inv (ab c) /\ direction_inv (ba c)
  /\ beacon_in_flight (beacon c) = draining (ab c) + draining (ba c)
  /\ in_u 64 (generation (beacon c)) /\ in_u 64 (last_seen c)
  /\ (returned c = None -> copies_result (ab c) (ba c) = None).

Definition read_ok (s : CopyStim) : Prop := match s with ReadDone n => 0 <= n <= BUF_SIZE | _ => True end.
Definition stim_ok (s : ConnStim) : Prop := match s with AStim s | BStim s => read_ok s | SleepDone => True end.

Lemma copy_one_step_inv s d b k :
  read_ok s -> direction_inv d -> beacon_in_flight b = draining d + k -> 0 <= k <= 1 -> in_u 64 (generation b) ->
  let '(d', b') := copy_one_step s d b in
  direction_inv d' /\ beacon_in_flight b' = draining d' + k /\ in_u 64 (generation b').
Proof.
  intros Hs Hd Hb Hk Hg. unfold copy_one_step. destruct d as [[|n| |r] t rd wr sh], s as [m|e|[u|e]|u]; cbn [phase] in *;
    try (split_and!; done); unfold direction_inv, draining in *; cbn in *.
  - destruct (Z.eqb_spec m 0); cbn; [split_and!; done || lia|].
    rewrite (wrap_small 64 (beacon_in_flight b + 1)) by (unfold in_u, umax; lia).
    split_and!; try lia. by apply wrap_in_u.
  - split_and!; done || lia.
  - rewrite (wrap_small 64 (beacon_in_flight b - 1)) by (unfold in_u, umax; lia).
    split_and!; try lia. by apply wrap_in_u.
  - rewrite (wrap_small 64 (beacon_in_flight b - 1)) by (unfold in_u, umax; lia).
    split_and!; try lia. by apply wrap_in_u.
  - split_and!; done || lia.
Qed.

Lemma draining_bound d : 0 <= draining d <= 1.
Proof. unfold draining. destruct (phase d); lia. Qed.

Lemma conn_step_inv c s : stim_ok s -> conn_inv c -> conn_inv (conn_step c s).
Proof.
  intros Hs (H1 & H2 & H3 & H4 & H5 & H6). unfold conn_step. destruct (returned c) eqn:R; [by split_and!; try rewrite R|].
  destruct s as [s|s|]; cbn [stim_ok] in Hs.
  - pose proof (copy_one_step_inv s (ab c) (beacon c) _ Hs H1 H3 (draining_bound _) H4) as Hi.
    destruct (copy_one_step s (ab c) (beacon c)) as [d b]. destruct Hi as (? & ? & ?). split_and!; done.
  - rewrite Z.add_comm in H3. pose proof (copy_one_step_inv s (ba c) (beacon c) _ Hs H2 H3 (draining_bound _) H4) as Hi.
    destruct (copy_one_step s (ba c) (beacon c)) as [d b]. destruct Hi as (? & ? & ?).
    split_and!; try done. cbn. lia.
  - cbv zeta. destruct (_ && _); split_and!; try done.
Qed.

Lemma conn_run_inv c l : Forall stim_ok l -> conn_inv c -> conn_inv (conn_run c l).
Proof.
  intros Hl. revert c. induction Hl as [|s l Hs Hl IH]; intros c Hc; [done|]. by apply IH, conn_step_inv.
Qed.

Lemma conn_new_inv : conn_inv conn_new.
Proof. unfold conn_inv, direction_inv, draining, in_u, umax. cbn. split_and!; done || lia. Qed.

(** ** What a window saw *)

(** The steps of a window that move bytes: a chunk read, a chunk drained. *)
Definition moves (c : Conn) (s : ConnStim) : bool :=
  let act d s := match phase d, s with
    | Reading, ReadDone n => negb (n =? 0) | Draining _, DrainDone _ => true | _, _ => false end in
  match returned c, s with
  | None, AStim s => act (ab c) s
  | None, BStim s => act (ba c) s
  | _, _ => false
  end.

Fixpoint activity (c : Conn) (l : list ConnStim) : nat :=
  match l with
  | [] => 0
  | s :: r => (if moves c s then 1 else 0) + activity (conn_step c s) r
  end.

Definition is_side (s : ConnStim) : bool := match s with SleepDone => false | _ => true end.

Lemma step_generation c s :
  is_side s = true -> in_u 64 (generation (beacon c)) ->
  generation (beacon (conn_step c s)) = wrap 64 (generation (beacon c) + Z.of_nat (if moves c s then 1 else 0))
  /\ last_seen (conn_step c s) = last_seen c.
Proof.
  intros Hs Hg. assert (wrap 64 (generation (beacon c) + Z.of_nat 0) = generation (beacon c)) as E
    by (change (Z.of_nat 0) with 0; rewrite Z.add_0_r; by apply wrap_small).
  unfold conn_step, moves. destruct (returned c); [split; [by rewrite E|done]|].
  destruct s as [s|s|]; [| |done]; unfold copy_one_step;
    [destruct (phase (ab c)) as [|n| |r], s as [m|e|[u|e]|u]|destruct (phase (ba c)) as [|n| |r], s as [m|e|[u|e]|u]];
    cbn [beacon last_seen]; try (split; [by rewrite E|done]); try (split; done);
    destruct (m =? 0); cbn; split; done.
Qed.

(** Over a window the generation counts the moves. *)
Lemma window_generation c l :
  forallb is_side l = true -> in_u 64 (generation (beacon c)) ->
  generation (beacon (conn_run c l)) = wrap 64 (generation (beacon c) + Z.of_nat (activity c l))
  /\ last_seen (conn_run c l) = last_seen c.
Proof.
  revert c. induction l as [|s l IH]; intros c Hl Hg.
  - cbn. rewrite Z.add_0_r, wrap_small by done. done.
  - cbn [forallb] in Hl. apply andb_true_iff in Hl as [Hs Hl]. destruct (step_generation c s Hs Hg) as [E1 E2].
    unfold conn_run. cbn [foldl]. destruct (IH (conn_step c s) Hl) as [E3 E4].
    { rewrite E1. by apply wrap_in_u. }
    fold (conn_run (conn_step c s) l). rewrite E3, E4, E1, E2. split; [|done]. cbn [activity].
    unfold wrap. rewrite Z.add_mod_idemp_l by lia. f_equal. lia.
Qed.

Lemma activity_length c l : (activity c l <= length l)%nat.
Proof. revert c. induction l as [|s l IH]; intros c; cbn; [lia|]. specialize (IH (conn_step c s)). destruct (moves c s); lia. Qed.

(** The connection just after the watchdog sampled it. *)
Definition sampled (c : Conn) : Prop := returned c = None /\ last_seen c = generation (beacon c).
End Copy.

(** ** Properties *)

(** The idle watchdog closes exactly the quiescent connections.  After a
    window that began with a sample, it closes exactly when no chunk was read
    and none was drained in the window and no direction is in the middle of
    one, however long the throttle holds it; and at a close every byte that
    was read has been written, unless a write had failed before. *)
Theorem idle_close_exact {IoError} (l0 w : list (ConnStim (IoError := IoError))) :
  let c := conn_run conn_new l0 in let c' := conn_run c w in
  Forall stim_ok (l0 ++ w) -> sampled c -> forallb is_side w = true -> returned c' = None ->
  Z.of_nat (length w) < 2 ^ 64 ->
  (returned (conn_step c' SleepDone) <> None
   <-> activity c w = 0%nat /\ draining (ab c') = 0 /\ draining (ba c') = 0)
  /\ (returned (conn_step c' SleepDone) <> None ->
      forall d, d = ab c' \/ d = ba c' ->
        read_bytes d = written_bytes d \/ exists e, phase d = Finished (Err e)).
Proof.
  intros c c' Hok [Hr Hls] Hside Hret Hlen. apply Forall_app in Hok as [Hok1 Hok2].
  pose proof (conn_run_inv conn_new l0 Hok1 conn_new_inv) as Hc. pose proof (conn_run_inv c w Hok2 Hc) as Hc'.
  assert (in_u 64 (generation (beacon c))) as Hg by (by destruct Hc as (_ & _ & _ & ? & _)).
  destruct (window_generation c w Hside Hg) as [Hgen Hlast]. fold c' in Hgen, Hlast, Hc'.
  assert (closes : returned (conn_step c' SleepDone) <> None <-> activity c w = 0%nat /\ draining (ab c') = 0 /\ draining (ba c') = 0).
  { destruct Hc' as (_ & _ & Hfl & _). unfold conn_step. rewrite Hret. unfold sample, is_busy.
    rewrite Hlast, Hls, Hgen, Hfl. pose proof (draining_bound (ab c')). pose proof (draining_bound (ba c')).
    pose proof (activity_length c w). unfold in_u, umax in Hg.
    assert (wrap 64 (generation (beacon c) + Z.of_nat (activity c w)) = generation (beacon c) <-> activity c w = 0%nat) as Hw.
    { unfold wrap. split; [|intros ->; rewrite Z.add_0_r; apply Z.mod_small; lia]. intros E.
      destruct (Z.lt_ge_cases (generation (beacon c) + Z.of_nat (activity c w)) (2 ^ 64)).
      - rewrite Z.mod_small in E; lia.
      - rewrite <- (Z.mod_unique (generation (beacon c) + Z.of_nat (activity c w)) (2 ^ 64) 1
          (generation (beacon c) + Z.of_nat (activity c w) - 2 ^ 64)) in E; lia. }
    destruct (Z.eqb_spec (wrap 64 (generation (beacon c) + Z.of_nat (activity c w))) (generation (beacon c))) as [E|E];
      destruct (Z.ltb_spec 0 (draining (ab c') + draining (ba c'))); cbn; split; try done;
      intros Hx; try (split_and!; tauto || lia); tauto || lia. }
  split; [exact closes|]. intros Hcl d Hd. apply closes in Hcl as (_ & Hda & Hdb).
  assert (direction_inv d /\ draining d = 0) as [Hi Hz].
  { destruct Hc' as (? & ? & _). by destruct Hd as [-> | ->]. }
  unfold direction_inv, draining in *. destruct (phase d) as [|n| |[t|e]]; [left; tauto|lia|left; tauto|left; tauto|right; by exists e].
Qed.

(** A chunk is read and held by the throttle over one sample, drained, and the
    connection closes after the first window with nothing in it. *)
Lemma idle_close_exact_witness :
  let l0 : list (ConnStim (IoError := unit)) := [AStim (ReadDone 5); SleepDone; AStim (DrainDone (Ok tt)); SleepDone] in
  returned (conn_step (conn_run (conn_run conn_new l0) [BStim (ReadDone 0)]) SleepDone) <> None.
Proof.
  intros l0. refine (proj2 (proj1 (idle_close_exact l0 [BStim (ReadDone 0)] _ _ _ _ _)) _).
  - repeat constructor; cbn; unfold BUF_SIZE; lia.
  - split; reflexivity.
  - reflexivity.
  - reflexivity.
  - cbn. lia.
  - split_and!; reflexivity.
Defined.

(** What the copy reports.  It returns on its own only when both directions
    are over, never on the first error alone; then it reports the bytes
    written in each direction, or the error of the first direction that has
    one.  When the watchdog closes the connection it reports zero bytes both
    ways, whatever was copied. *)
Theorem copy_report {IoError} (l : list (ConnStim (IoError := IoError))) s :
  Forall stim_ok (l ++ [s]) ->
  let c := conn_run conn_new l in let c' := conn_step c s in
  returned c = None -> forall r, returned c' = Some r ->
  (s = SleepDone /\ r = Ok (mkCopyStats 0 0))
  \/ (exists r1 r2, phase (ab c') = Finished r1 /\ phase (ba c') = Finished r2
      /\ r = (_ ← r1; _ ← r2; Ok (mkCopyStats (written_bytes (ab c')) (written_bytes (ba c'))))).
Proof.
  intros Hok c c' Hc r Hr. assert (conn_inv c') as (Ha & Hb & _).
  { unfold c'. replace (conn_step c s) with (conn_run conn_new (l ++ [s])) by (unfold conn_run; by rewrite foldl_snoc).
    apply conn_run_inv; [done|apply conn_new_inv]. }
  assert (returned c' = copies_result (ab c') (ba c') \/ (s = SleepDone /\ r = Ok (mkCopyStats 0 0))) as [E|E]; [|right|by left].
  { unfold c', conn_step in *. rewrite Hc in *. destruct s as [s|s|].
    - left. by destruct (copy_one_step s (ab c) (beacon c)).
    - left. by destruct (copy_one_step s (ba c) (beacon c)).
    - right. split; [done|]. cbv zeta in Hr. destruct (_ && _); cbn in Hr; [by injection Hr as <-|done]. }
  rewrite E in Hr. unfold copies_result, direction_inv in *.
  destruct (phase (ab c')) as [| | |r1], (phase (ba c')) as [| | |r2]; try done. injection Hr as <-.
  exists r1, r2. split_and!; try done. destruct r1 as [t1|e1], r2 as [t2|e2]; cbn; try done.
  destruct Ha as (_ & Ha & -> & _), Hb as (_ & Hb & -> & _). by rewrite Ha, Hb.
Qed.

(** Ten bytes copied and the connection left idle: the report says zero. *)
Lemma copy_report_witness :
  let l : list (ConnStim (IoError := unit)) := [AStim (ReadDone 10); AStim (DrainDone (Ok tt)); SleepDone] in
  written_bytes (ab (conn_run conn_new l)) = 10
  /\ returned (conn_step (conn_run conn_new l) SleepDone) = Some (Ok (mkCopyStats 0 0)).
Proof.
  intros l. split; [reflexivity|].
  assert (Forall stim_ok (l ++ [SleepDone])) as Hok by (repeat constructor; cbn; unfold BUF_SIZE; lia).
  destruct (copy_report l SleepDone Hok eq_refl (Ok (mkCopyStats 0 0)) eq_refl) as [[_ H]|(r1 & r2 & H & _)].
  - reflexivity.
  - discriminate H.
Defined.
