(* ===== verification/Ssh3Frame.v ===== *)
(** * The frames of the SSH3 backend

    Models [crates/spt-ssh3/src/frame.rs]: the frame of a kind byte, a 32-bit
    length and a payload, the payloads of the channel-opening frames, and the
    settings exchange.  Strings are their UTF-8 bytes.  The buffers of the
    [bytes] crate are outside the repository: their operations are the class
    [BytesCrate], with the behaviour the crate documents (big-endian numbers; a
    read past the end panics). *)

From S2P Require Import Prelude Bytes.

(** The methods of [Buf] and [BufMut] the module calls, on byte strings. *)
Class BytesCrate : Type := {
  put_u8 : list Z -> Z -> list Z;
  put_u16 : list Z -> Z -> list Z;
  put_u32 : list Z -> Z -> list Z;
  put_slice : list Z -> list Z -> list Z;
  get_u8 : list Z -> Outcome (Z * list Z);
  get_u16 : list Z -> Outcome (Z * list Z);
  get_u32 : list Z -> Outcome (Z * list Z);
  copy_to_bytes : Z -> list Z -> Outcome (list Z * list Z);
  put_u8_spec : forall buf v, put_u8 buf v = buf ++ [v];
  put_u16_spec : forall buf v, put_u16 buf v = buf ++ to_be_bytes 2 v;
  put_u32_spec : forall buf v, put_u32 buf v = buf ++ to_be_bytes 4 v;
  put_slice_spec : forall buf l, put_slice buf l = buf ++ l;
  get_u8_spec : forall b r, get_u8 (b :: r) = Return (b, r);
  get_u16_spec : forall l r, length l = 2%nat -> get_u16 (l ++ r) = Return (from_be_bytes l, r);
  get_u32_spec : forall l r, length l = 4%nat -> get_u32 (l ++ r) = Return (from_be_bytes l, r);
  copy_spec : forall l r, copy_to_bytes (Z.of_nat (length l)) (l ++ r) = Return (l, r)
}.

(** A big-endian read of [k] bytes. *)
Definition get_be (k : nat) (l : list Z) : Outcome (Z * list Z) :=
  if (length l <? k)%nat then Panic else Return (from_be_bytes (take k l), drop k l).

Lemma get_be_spec k l r : length l = k -> get_be k (l ++ r) = Return (from_be_bytes l, r).
Proof.
  intros <-. unfold get_be. rewrite length_app, (proj2 (Nat.ltb_ge _ _)) by lia.
  by rewrite take_app_length, drop_app_length.
Qed.

#[global, program] Instance plain_bytes : BytesCrate := {|
  put_u8 := fun buf v => buf ++ [v];
  put_u16 := fun buf v => buf ++ to_be_bytes 2 v;
  put_u32 := fun buf v => buf ++ to_be_bytes 4 v;
  put_slice := fun buf l => buf ++ l;
  get_u8 := fun l => match l with b :: r => Return (b, r) | [] => Panic end;
  get_u16 := get_be 2;
  get_u32 := get_be 4;
  copy_to_bytes := fun n l =>
    if Z.of_nat (length l) <? n then Panic else Return (take (Z.to_nat n) l, drop (Z.to_nat n) l)
|}.
Next Obligation. reflexivity. Qed.
Next Obligation. reflexivity. Qed.
Next Obligation. reflexivity. Qed.
Next Obligation. reflexivity. Qed.
Next Obligation. reflexivity. Qed.
Next Obligation. intros l r. by apply get_be_spec. Qed.
Next Obligation. intros l r. by apply get_be_spec. Qed.
Next Obligation.
  intros l r. cbn. rewrite length_app, (proj2 (Z.ltb_ge _ _)) by lia.
  by rewrite Nat2Z.id, take_app_length, drop_app_length.
Qed.

(** [Error::InvalidConfig], [Error::RuntimeFailure] and
    [Error::UnsupportedPlatform], with the reason in place of the text. *)
Inductive FrameReason :=
| ShortHeader | UnknownKind (k : Z) | TooLong (len : Z) | PayloadTruncated | BadUtf8.

Inductive FrameError :=
| InvalidFrame (r : FrameReason)
| ReadHeader
| ReadPayload
| MissingCapabilities (missing : list string).

Definition MAX_FRAME_LEN : Z := 16 * 1024 * 1024.

Inductive Ssh3FrameKind :=
| Settings | DirectTcpRequest | ForwardOpenResp | Data | Close | UdpAssociate | AppPing
| RemoteUdpForwardRequest | UdsForwardRequest | RemoteUdsForwardRequest.

(** [kind as u8]: the discriminants. *)
Definition kind_u8 (k : Ssh3FrameKind) : Z :=
  match k with
  | Settings => 0x01
  | DirectTcpRequest => 0x02
  | ForwardOpenResp => 0x03
  | Data => 0x04
  | Close => 0x05
  | UdpAssociate => 0x06
  | AppPing => 0x07
  | RemoteUdpForwardRequest => 0x08
  | UdsForwardRequest => 0x09
  | RemoteUdsForwardRequest => 0x0a
  end.

Definition kind_from_u8 (v : Z) : option Ssh3FrameKind :=
  if v =? 0x01 then Some Settings
  else if v =? 0x02 then Some DirectTcpRequest
  else if v =? 0x03 then Some ForwardOpenResp
  else if v =? 0x04 then Some Data
  else if v =? 0x05 then Some Close
  else if v =? 0x06 then Some UdpAssociate
  else if v =? 0x07 then Some AppPing
  else if v =? 0x08 then Some RemoteUdpForwardRequest
  else if v =? 0x09 then Some UdsForwardRequest
  else if v =? 0x0a then Some RemoteUdsForwardRequest
  else None.

Record Ssh3Frame := mkFrame { frame_kind : Ssh3FrameKind; payload : list Z }.

Record ChannelOpenPayload := mkChannelOpen { co_host : list Z; co_port : Z }.
Record UdsChannelOpenPayload := mkUdsOpen { uds_path : list Z }.
Record ForwardOpenResponse := mkOpenResponse { resp_ok : bool; reason : list Z }.
Record UdpAssociatePayload := mkUdpAssociate { flow_id : Z; udp_host : list Z; udp_port : Z }.

Record Ssh3Settings := mkSettings {
  direct_tcp : bool;
  remote_tcp : bool;
  udp_datagrams : bool;
  agent_forwarding : bool;
  max_forwards : option Z;
  version : option (list Z);
  extras : list (list Z * list Z)
}.

(** [AsyncReadExt::read_exact] on a stream that ends after the bytes given. *)
Definition read_exact (n : Z) (s : list Z) : option (list Z * list Z) :=
  if Z.of_nat (length s) <? n then None else Some (take (Z.to_nat n) s, drop (Z.to_nat n) s).

(** [Ssh3Frame::read_async]: the frame and the rest of the stream. *)
Definition frame_read_async (s : list Z) : Result FrameError (Ssh3Frame * list Z) :=
  match read_exact 5 s with
  | Some ([h0; h1; h2; h3; h4], s) =>
      match kind_from_u8 h0 with
      | None => Err (InvalidFrame (UnknownKind h0))
      | Some kind =>
          let len := from_be_bytes [h1; h2; h3; h4] in
          if MAX_FRAME_LEN <? len then Err (InvalidFrame (TooLong len))
          else if 0 <? len then
            match read_exact len s with
            | Some (p, s) => Ok (mkFrame kind p, s)
            | None => Err ReadPayload
            end
          else Ok (mkFrame kind [], s)
      end
  | _ => Err ReadHeader
  end.

(** [u16::try_from(n).unwrap_or(u16::MAX)] and the same for [u32]. *)
Definition clamp_len (w : Z) (l : list Z) : Z := Z.min (Z.of_nat (length l)) (umax w).

Definition zlen (l : list Z) : Z := Z.of_nat (length l).

Section Codec.
Context `{!BytesCrate}.

Definition frame_encode (f : Ssh3Frame) : list Z :=
  let buf := put_u8 [] (kind_u8 (frame_kind f)) in
  let len := clamp_len 32 (payload f) in
  let buf := put_u32 buf len in
  put_slice buf (take (Z.to_nat len) (payload f)).

(** The frame or the error, and what is left of the buffer. *)
Definition frame_decode (buf : list Z) : Outcome (Result FrameError Ssh3Frame * list Z) :=
  if zlen buf <? 5 then Return (Err (InvalidFrame ShortHeader), buf)
  else
    '(kind_raw, buf) ← get_u8 buf;
    match kind_from_u8 kind_raw with
    | None => Return (Err (InvalidFrame (UnknownKind kind_raw)), buf)
    | Some kind =>
        '(len, buf) ← get_u32 buf;
        if MAX_FRAME_LEN <? len then Return (Err (InvalidFrame (TooLong len)), buf)
        else if zlen buf <? len then Return (Err (InvalidFrame PayloadTruncated), buf)
        else
          '(p, buf) ← copy_to_bytes len buf;
          Return (Ok (mkFrame kind p), buf)
    end.

(** [write_async]: what reaches the sink. *)
Definition frame_write_async (f : Ssh3Frame) (sink : list Z) : list Z := sink ++ frame_encode f.

(** ** Payloads *)

Definition channel_open_encode (c : ChannelOpenPayload) : list Z :=
  let buf := put_u16 [] (clamp_len 16 (co_host c)) in
  let buf := put_slice buf (co_host c) in
  put_u16 buf (co_port c).

Definition channel_open_decode (p : list Z) : Outcome (Result FrameError ChannelOpenPayload) :=
  if zlen p <? 2 then Return (Err (InvalidFrame ShortHeader))
  else
    '(hlen, p) ← get_u16 p;
    if zlen p <? hlen + 2 then Return (Err (InvalidFrame PayloadTruncated))
    else
      '(host_bytes, p) ← copy_to_bytes hlen p;
      match from_utf8 host_bytes with
      | None => Return (Err (InvalidFrame BadUtf8))
      | Some host =>
          '(port, p) ← get_u16 p;
          Return (Ok (mkChannelOpen host port))
      end.

Definition uds_open_encode (u : UdsChannelOpenPayload) : list Z :=
  let buf := put_u16 [] (clamp_len 16 (uds_path u)) in
  put_slice buf (uds_path u).

Definition uds_open_decode (p : list Z) : Outcome (Result FrameError UdsChannelOpenPayload) :=
  if zlen p <? 2 then Return (Err (InvalidFrame ShortHeader))
  else
    '(plen, p) ← get_u16 p;
    if zlen p <? plen then Return (Err (InvalidFrame PayloadTruncated))
    else
      '(path_bytes, p) ← copy_to_bytes plen p;
      match from_utf8 path_bytes with
      | None => Return (Err (InvalidFrame BadUtf8))
      | Some path => Return (Ok (mkUdsOpen path))
      end.

Definition open_response_encode (r : ForwardOpenResponse) : list Z :=
  let buf := put_u8 [] (if resp_ok r then 1 else 0) in
  let buf := put_u16 buf (clamp_len 16 (reason r)) in
  put_slice buf (reason r).

Definition open_response_decode (p : list Z) : Outcome (Result FrameError ForwardOpenResponse) :=
  if zlen p <? 3 then Return (Err (InvalidFrame ShortHeader))
  else
    '(ok, p) ← get_u8 p;
    '(rlen, p) ← get_u16 p;
    if zlen p <? rlen then Return (Err (InvalidFrame PayloadTruncated))
    else
      '(reason_bytes, p) ← copy_to_bytes rlen p;
      match from_utf8 reason_bytes with
      | None => Return (Err (InvalidFrame BadUtf8))
      | Some reason => Return (Ok (mkOpenResponse (negb (ok =? 0)) reason))
      end.

Definition udp_associate_encode (u : UdpAssociatePayload) : list Z :=
  let buf := put_u32 [] (flow_id u) in
  let buf := put_u16 buf (clamp_len 16 (udp_host u)) in
  let buf := put_slice buf (udp_host u) in
  put_u16 buf (udp_port u).

Definition udp_associate_decode (p : list Z) : Outcome (Result FrameError UdpAssociatePayload) :=
  if zlen p <? 6 then Return (Err (InvalidFrame ShortHeader))
  else
    '(flow, p) ← get_u32 p;
    '(hlen, p) ← get_u16 p;
    if zlen p <? hlen + 2 then Return (Err (InvalidFrame PayloadTruncated))
    else
      '(host_bytes, p) ← copy_to_bytes hlen p;
      match from_utf8 host_bytes with
      | None => Return (Err (InvalidFrame BadUtf8))
      | Some host =>
          '(port, p) ← get_u16 p;
          Return (Ok (mkUdpAssociate flow host port))
      end.

(** ** Settings *)

Definition SETTINGS_FLAG_DIRECT_TCP : Z := 0x01.
Definition SETTINGS_FLAG_REMOTE_TCP : Z := 0x02.
Definition SETTINGS_FLAG_UDP : Z := 0x04.
Definition SETTINGS_FLAG_AGENT : Z := 0x08.

Definition settings_encode (s : Ssh3Settings) : list Z :=
  let flags := 0 in
  let flags := if direct_tcp s then Z.lor flags SETTINGS_FLAG_DIRECT_TCP else flags in
  let flags := if remote_tcp s then Z.lor flags SETTINGS_FLAG_REMOTE_TCP else flags in
  let flags := if udp_datagrams s then Z.lor flags SETTINGS_FLAG_UDP else flags in
  let flags := if agent_forwarding s then Z.lor flags SETTINGS_FLAG_AGENT else flags in
  let v := default [] (version s) in
  let buf := put_u8 [] flags in
  let buf := put_u32 buf (default 0 (max_forwards s)) in
  let buf := put_u16 buf (clamp_len 16 v) in
  put_slice buf v.

Definition settings_decode (p : list Z) : Outcome (Result FrameError Ssh3Settings) :=
  if zlen p <? 1 + 4 + 2 then Return (Err (InvalidFrame ShortHeader))
  else
    '(flags, p) ← get_u8 p;
    '(maxf, p) ← get_u32 p;
    '(vlen, p) ← get_u16 p;
    if zlen p <? vlen then Return (Err (InvalidFrame PayloadTruncated))
    else
      '(v_bytes, p) ← copy_to_bytes vlen p;
      match from_utf8 v_bytes with
      | None => Return (Err (InvalidFrame BadUtf8))
      | Some v =>
          Return (Ok (mkSettings
            (negb (Z.land flags SETTINGS_FLAG_DIRECT_TCP =? 0))
            (negb (Z.land flags SETTINGS_FLAG_REMOTE_TCP =? 0))
            (negb (Z.land flags SETTINGS_FLAG_UDP =? 0))
            (negb (Z.land flags SETTINGS_FLAG_AGENT =? 0))
            (if maxf =? 0 then None else Some maxf)
            (match v with [] => None | _ => Some v end)
            []))
      end.
End Codec.

(** [Ssh3Settings::satisfies]. *)
Definition satisfies (peer required : Ssh3Settings) : Result FrameError unit :=
  let missing := [] in
  let missing := if direct_tcp required && negb (direct_tcp peer) then missing ++ ["direct_tcp"%string] else missing in
  let missing := if remote_tcp required && negb (remote_tcp peer) then missing ++ ["remote_tcp"%string] else missing in
  let missing := if udp_datagrams required && negb (udp_datagrams peer) then missing ++ ["udp_datagrams"%string] else missing in
  let missing := if agent_forwarding required && negb (agent_forwarding peer) then missing ++ ["agent_forwarding"%string] else missing in
  match missing with [] => Ok tt | _ => Err (MissingCapabilities missing) end.

(** ** Lemmas *)

Section CodecLemmas.
Context `{!BytesCrate}.

Lemma get_u16_be v r : 0 <= v <= umax 16 -> get_u16 (to_be_bytes 2 v ++ r) = Return (v, r).
Proof.
  intros Hv. rewrite get_u16_spec by apply to_be_bytes_length. rewrite from_to_be_bytes; [done|].
  change (256 ^ Z.of_nat 2) with (2 ^ 16). unfold umax in Hv. lia.
Qed.

Lemma get_u32_be v r : 0 <= v <= umax 32 -> get_u32 (to_be_bytes 4 v ++ r) = Return (v, r).
Proof.
  intros Hv. rewrite get_u32_spec by apply to_be_bytes_length. rewrite from_to_be_bytes; [done|].
  change (256 ^ Z.of_nat 4) with (2 ^ 32). unfold umax in Hv. lia.
Qed.

Lemma copy_len n l r : n = Z.of_nat (length l) -> copy_to_bytes n (l ++ r) = Return (l, r).
Proof. intros ->. apply copy_spec. Qed.

(** Reads of any buffer that is long enough. *)
Lemma get_u16_any l :
  (2 <= length l)%nat -> get_u16 l = Return (from_be_bytes (take 2 l), drop 2 l).
Proof. intros Hl. rewrite <- (take_drop 2 l) at 1. apply get_u16_spec. rewrite length_take. lia. Qed.

Lemma get_u32_any l :
  (4 <= length l)%nat -> get_u32 l = Return (from_be_bytes (take 4 l), drop 4 l).
Proof. intros Hl. rewrite <- (take_drop 4 l) at 1. apply get_u32_spec. rewrite length_take. lia. Qed.

Lemma copy_any n l :
  0 <= n <= zlen l -> copy_to_bytes n l = Return (take (Z.to_nat n) l, drop (Z.to_nat n) l).
Proof.
  unfold zlen. intros Hn. rewrite <- (take_drop (Z.to_nat n) l) at 1. apply copy_len. rewrite length_take. lia.
Qed.

Lemma be_range k l : Forall byte_ok l -> 0 <= from_be_bytes (take k l) < 256 ^ Z.of_nat k.
Proof.
  intros Hl. pose proof (foldl_addb_bound (take k l) 0 (Forall_take _ _ _ Hl) ltac:(lia)) as Hb.
  unfold from_be_bytes. rewrite length_take in Hb.
  pose proof (Z.pow_le_mono_r 256 (Z.of_nat (Nat.min k (length l))) (Z.of_nat k)). lia.
Qed.

Lemma zlen_cons_to_be w v r : zlen (to_be_bytes w v ++ r) = Z.of_nat w + zlen r.
Proof. unfold zlen. rewrite length_app, to_be_bytes_length. lia. Qed.

Lemma kind_roundtrip k : kind_from_u8 (kind_u8 k) = Some k.
Proof. by destruct k. Qed.

Lemma clamp_small w l : zlen l <= umax w -> clamp_len w l = zlen l.
Proof. unfold clamp_len, zlen. lia. Qed.

Lemma frame_encode_bytes f :
  zlen (payload f) <= umax 32 ->
  frame_encode f = kind_u8 (frame_kind f) :: to_be_bytes 4 (zlen (payload f)) ++ payload f.
Proof.
  intros Hp. unfold frame_encode. rewrite put_u8_spec, put_u32_spec, put_slice_spec, clamp_small by done.
  unfold zlen. rewrite Nat2Z.id, firstn_all. by rewrite <- app_assoc.
Qed.

Lemma frame_decode_encode f rest :
  zlen (payload f) <= MAX_FRAME_LEN -> frame_decode (frame_encode f ++ rest) = Return (Ok f, rest).
Proof.
  intros Hp. assert (zlen (payload f) <= umax 32) by (unfold MAX_FRAME_LEN, umax in *; lia).
  rewrite frame_encode_bytes by done. cbn [app]. rewrite <- app_assoc. unfold frame_decode.
  rewrite (proj2 (Z.ltb_ge _ _)) by (unfold zlen; cbn [length]; rewrite length_app, to_be_bytes_length; lia).
  rewrite get_u8_spec. unfold mbind, outcome_bind. rewrite kind_roundtrip, get_u32_be by (unfold zlen in *; lia).
  rewrite (proj2 (Z.ltb_ge _ _)) by done.
  rewrite (proj2 (Z.ltb_ge _ _)) by (unfold zlen; rewrite length_app; lia).
  rewrite copy_len by done. by destruct f.
Qed.

Lemma read_exact_app n l r : n = zlen l -> read_exact n (l ++ r) = Some (l, r).
Proof.
  unfold zlen. intros ->. unfold read_exact. rewrite length_app, (proj2 (Z.ltb_ge _ _)) by lia.
  by rewrite Nat2Z.id, take_app_length, drop_app_length.
Qed.

Lemma frame_read_encode f rest :
  zlen (payload f) <= MAX_FRAME_LEN -> frame_read_async (frame_encode f ++ rest) = Ok (f, rest).
Proof.
  intros Hp. assert (zlen (payload f) <= umax 32) by (unfold MAX_FRAME_LEN, umax in *; lia).
  rewrite frame_encode_bytes by done. unfold frame_read_async.
  pose proof (to_be_bytes_length 4 (zlen (payload f))) as Hl.
  assert (from_be_bytes (to_be_bytes 4 (zlen (payload f))) = zlen (payload f)) as Hv.
  { apply from_to_be_bytes. change (256 ^ Z.of_nat 4) with (2 ^ 32). unfold umax, zlen in *. lia. }
  destruct (to_be_bytes 4 (zlen (payload f))) as [|h1 [|h2 [|h3 [|h4 [|? ?]]]]]; try discriminate Hl.
  cbn [app]. change (?a :: ?b :: ?c :: ?d :: ?e :: payload f ++ rest) with ([a; b; c; d; e] ++ payload f ++ rest).
  rewrite (read_exact_app 5 [kind_u8 (frame_kind f); h1; h2; h3; h4] (payload f ++ rest)) by done.
  rewrite kind_roundtrip, Hv. rewrite (proj2 (Z.ltb_ge _ _)) by done.
  destruct (Z.ltb_spec 0 (zlen (payload f))) as [Hpos|Hz].
  - rewrite read_exact_app by done. by destruct f.
  - destruct f as [k [|b p]]; [done|]. unfold zlen in Hz. cbn in Hz. lia.
Qed.

(** Whatever [frame_decode] takes off a buffer is the encoding of what it
    returns. *)
Lemma frame_decode_sound buf f rest :
  Forall byte_ok buf -> frame_decode buf = Return (Ok f, rest) ->
  buf = frame_encode f ++ rest /\ zlen (payload f) <= MAX_FRAME_LEN.
Proof.
  intros Hb. unfold frame_decode. destruct (Z.ltb_spec (zlen buf) 5) as [|Hlen]; [done|].
  destruct buf as [|k buf]; [unfold zlen in Hlen; cbn in Hlen; lia|]. rewrite get_u8_spec.
  unfold mbind, outcome_bind. destruct (kind_from_u8 k) as [kd|] eqn:Ek; [|done].
  apply Forall_cons in Hb as [_ Hb]. unfold zlen in Hlen. cbn [length] in Hlen.
  rewrite get_u32_any by lia. destruct (Z.ltb_spec MAX_FRAME_LEN (from_be_bytes (take 4 buf))) as [|Hmax]; [done|].
  destruct (Z.ltb_spec (zlen (drop 4 buf)) (from_be_bytes (take 4 buf))) as [|Hfit]; [done|].
  pose proof (be_range 4 buf Hb) as Hr. rewrite copy_any by lia. intros [= <- <-].
  set (len := from_be_bytes (take 4 buf)) in *. set (p := take (Z.to_nat len) (drop 4 buf)).
  assert (zlen p = len) as Hp by (unfold p, zlen in *; rewrite length_take; lia).
  assert (kind_u8 kd = k) as <-.
  { unfold kind_from_u8 in Ek. repeat match type of Ek with (if ?c =? ?d then _ else _) = _ =>
      destruct (Z.eqb_spec c d) as [->|]; [by injection Ek as <-|] end. done. }
  rewrite frame_encode_bytes by (cbn; unfold MAX_FRAME_LEN, umax in *; lia). cbn [payload frame_kind app]. split; [|lia].
  f_equal. rewrite <- app_assoc, Hp. unfold p. rewrite take_drop.
  assert (to_be_bytes 4 len = take 4 buf) as ->; [|by rewrite take_drop].
  unfold len. apply be_bytes_from; [by apply Forall_take|rewrite length_take; lia].
Qed.
End CodecLemmas.

(** ** Lemmas: payloads *)

(** Lengths of concatenations. *)
Ltac zlia := unfold zlen in *; cbn [length]; rewrite ?length_app, ?to_be_bytes_length; lia.

(** A string that fits a 16-bit length. *)
Definition str16_ok (s : list Z) : Prop := string_ok s /\ zlen s <= umax 16.

Definition u16_ok (v : Z) : Prop := 0 <= v <= umax 16.
Definition u32_range (v : Z) : Prop := 0 <= v <= umax 32.

(** What the wire keeps of a settings value. *)
Definition normal_settings (s : Ssh3Settings) : Ssh3Settings :=
  mkSettings (direct_tcp s) (remote_tcp s) (udp_datagrams s) (agent_forwarding s)
    (match max_forwards s with Some 0 => None | m => m end)
    (match version s with Some [] => None | v => v end) [].

Section PayloadLemmas.
Context `{!BytesCrate}.

Lemma from_utf8_ok s : string_ok s -> from_utf8 s = Some s.
Proof. intros [_ Hs]. unfold from_utf8. by rewrite Hs. Qed.

Lemma zlen_nonneg l : 0 <= zlen l.
Proof. unfold zlen. lia. Qed.

Lemma zlen_app l r : zlen (l ++ r) = zlen l + zlen r.
Proof. unfold zlen. rewrite length_app. lia. Qed.

Lemma channel_open_roundtrip c :
  str16_ok (co_host c) -> u16_ok (co_port c) -> channel_open_decode (channel_open_encode c) = Return (Ok c).
Proof.
  destruct c as [h p]. cbn [co_host co_port]. intros [Hs Hh] Hp. unfold channel_open_encode. cbn [co_host co_port].
  rewrite clamp_small, !put_u16_spec, put_slice_spec by done. pose proof (zlen_nonneg h).
  cbn [app]. rewrite <- app_assoc. unfold channel_open_decode.
  rewrite (proj2 (Z.ltb_ge _ _)) by zlia.
  rewrite get_u16_be by done. unfold mbind, outcome_bind.
  rewrite (proj2 (Z.ltb_ge _ _)) by zlia.
  rewrite copy_len, from_utf8_ok by done. rewrite <- (app_nil_r (to_be_bytes 2 p)). by rewrite get_u16_be.
Qed.

Lemma uds_open_roundtrip u : str16_ok (uds_path u) -> uds_open_decode (uds_open_encode u) = Return (Ok u).
Proof.
  destruct u as [h]. cbn [uds_path]. intros [Hs Hh]. unfold uds_open_encode. cbn [uds_path].
  rewrite clamp_small, put_u16_spec, put_slice_spec by done. pose proof (zlen_nonneg h). cbn [app]. unfold uds_open_decode.
  rewrite (proj2 (Z.ltb_ge _ _)) by zlia.
  rewrite get_u16_be by done. unfold mbind, outcome_bind. rewrite (proj2 (Z.ltb_ge _ _)) by lia.
  rewrite <- (app_nil_r h) at 2. by rewrite copy_len, from_utf8_ok.
Qed.

Lemma open_response_roundtrip r : str16_ok (reason r) -> open_response_decode (open_response_encode r) = Return (Ok r).
Proof.
  destruct r as [o h]. cbn [reason]. intros [Hs Hh]. unfold open_response_encode. cbn [reason resp_ok].
  rewrite clamp_small, put_u8_spec, put_u16_spec, put_slice_spec by done. pose proof (zlen_nonneg h).
  rewrite <- app_assoc. cbn [app]. unfold open_response_decode.
  rewrite (proj2 (Z.ltb_ge _ _)) by zlia.
  rewrite get_u8_spec. unfold mbind, outcome_bind. rewrite get_u16_be by done.
  rewrite (proj2 (Z.ltb_ge _ _)) by lia. rewrite <- (app_nil_r h) at 2. rewrite copy_len, from_utf8_ok by done.
  by destruct o.
Qed.

Lemma udp_associate_roundtrip u :
  u32_range (flow_id u) -> str16_ok (udp_host u) -> u16_ok (udp_port u) ->
  udp_associate_decode (udp_associate_encode u) = Return (Ok u).
Proof.
  destruct u as [f h p]. cbn [flow_id udp_host udp_port]. intros Hf [Hs Hh] Hp.
  unfold udp_associate_encode. cbn [flow_id udp_host udp_port].
  rewrite clamp_small, put_u32_spec, !put_u16_spec, put_slice_spec by done. pose proof (zlen_nonneg h).
  cbn [app]. rewrite <- !app_assoc. unfold udp_associate_decode.
  rewrite (proj2 (Z.ltb_ge _ _)) by zlia.
  rewrite get_u32_be by done. unfold mbind, outcome_bind. rewrite get_u16_be by done.
  rewrite (proj2 (Z.ltb_ge _ _)) by zlia.
  rewrite copy_len, from_utf8_ok by done. rewrite <- (app_nil_r (to_be_bytes 2 p)). by rewrite get_u16_be.
Qed.

Lemma settings_roundtrip s :
  u32_range (default 0 (max_forwards s)) -> str16_ok (default [] (version s)) ->
  settings_decode (settings_encode s) = Return (Ok (normal_settings s)).
Proof.
  intros Hm [Hs Hh]. unfold settings_encode. cbv zeta. set (fl := if agent_forwarding s then _ else _).
  set (v := default [] (version s)) in *. rewrite clamp_small, put_u8_spec, put_u32_spec, put_u16_spec, put_slice_spec by done.
  pose proof (zlen_nonneg v). rewrite <- !app_assoc. cbn [app]. unfold settings_decode.
  rewrite (proj2 (Z.ltb_ge _ _)).
  2: zlia.
  rewrite get_u8_spec. unfold mbind, outcome_bind. rewrite get_u32_be, get_u16_be by done.
  rewrite (proj2 (Z.ltb_ge _ _)) by lia. rewrite <- (app_nil_r v) at 2. rewrite copy_len, from_utf8_ok by done.
  unfold normal_settings. destruct s as [[] [] [] [] m ve ex]; cbn in *; repeat f_equal;
    first [by destruct m as [[|z|z]|]|by destruct ve as [[|? ?]|]].
Qed.
End PayloadLemmas.

(** ** Lemmas: no input makes a decoder panic *)

Definition returns {A} (o : Outcome A) : Prop := o <> Panic.

Section Totality.
Context `{!BytesCrate}.

(** A length field, the string behind it, and [tail] bytes after it. *)
Lemma string_field_total {A} tail p (bad : Outcome A) (k : list Z -> list Z -> Outcome A) :
  0 <= tail -> Forall byte_ok p -> (2 <= length p)%nat -> returns bad ->
  (forall s r, Forall byte_ok r -> tail <= zlen r -> returns (k s r)) ->
  returns ('(n, p) ← get_u16 p; if zlen p <? n + tail then bad else '(s, r) ← copy_to_bytes n p; k s r).
Proof.
  intros Ht Hp Hl Hbad Hk. rewrite get_u16_any by done. unfold mbind, outcome_bind.
  destruct (Z.ltb_spec (zlen (drop 2 p)) (from_be_bytes (take 2 p) + tail)); [done|].
  pose proof (be_range 2 p Hp). rewrite copy_any by lia. apply Hk; [by apply Forall_drop, Forall_drop|].
  unfold zlen in *. rewrite length_drop. lia.
Qed.

Lemma string_field_total0 {A} p (bad : Outcome A) (k : list Z -> list Z -> Outcome A) :
  Forall byte_ok p -> (2 <= length p)%nat -> returns bad -> (forall s r, returns (k s r)) ->
  returns ('(n, p) ← get_u16 p; if zlen p <? n then bad else '(s, r) ← copy_to_bytes n p; k s r).
Proof.
  intros Hp Hl Hbad Hk. pose proof (string_field_total 0 p bad k) as Hs. unfold mbind, outcome_bind in *.
  rewrite get_u16_any in * by done. rewrite Z.add_0_r in Hs. apply Hs; done || lia.
Qed.

Lemma port_total {A} s r (f : list Z -> Z -> Result FrameError A) :
  2 <= zlen r ->
  returns (match from_utf8 s with
           | None => Return (Err (InvalidFrame BadUtf8))
           | Some host => '(port, p) ← get_u16 r; Return (f host port)
           end).
Proof.
  intros Hr. destruct (from_utf8 s); [|done]. unfold zlen in Hr. by rewrite get_u16_any by lia.
Qed.

Lemma decoders_total p :
  Forall byte_ok p ->
  returns (channel_open_decode p) /\ returns (uds_open_decode p) /\ returns (open_response_decode p)
  /\ returns (udp_associate_decode p) /\ returns (settings_decode p).
Proof.
  intros Hp. split_and!.
  - unfold channel_open_decode. destruct (Z.ltb_spec (zlen p) 2) as [|Hl]; [done|].
    apply string_field_total; try done; [unfold zlen in Hl; lia|]. intros s r _ Hr. by apply port_total.
  - unfold uds_open_decode. destruct (Z.ltb_spec (zlen p) 2) as [|Hl]; [done|].
    apply string_field_total0; try done; [unfold zlen in Hl; lia|]. intros s r. by destruct (from_utf8 s).
  - unfold open_response_decode. destruct (Z.ltb_spec (zlen p) 3) as [|Hl]; [done|].
    destruct p as [|b p]; [by unfold zlen in Hl|]. apply Forall_cons in Hp as [_ Hp]. rewrite get_u8_spec.
    apply string_field_total0; try done; [unfold zlen in Hl; cbn in Hl; lia|]. intros s r. by destruct (from_utf8 s).
  - unfold udp_associate_decode. destruct (Z.ltb_spec (zlen p) 6) as [|Hl]; [done|]. unfold zlen in Hl.
    rewrite get_u32_any by lia. apply string_field_total; try done; [by apply Forall_drop|rewrite length_drop; lia|].
    intros s r _ Hr. by apply port_total.
  - unfold settings_decode. destruct (Z.ltb_spec (zlen p) (1 + 4 + 2)) as [|Hl]; [done|].
    destruct p as [|b p]; [by unfold zlen in Hl|]. apply Forall_cons in Hp as [_ Hp]. rewrite get_u8_spec.
    unfold zlen in Hl. cbn [length] in Hl. cbn [mbind outcome_bind]. unfold mbind at 1, outcome_bind at 1. rewrite get_u32_any by lia.
    apply string_field_total0; try done; [by apply Forall_drop|rewrite length_drop; lia|]. intros s r. by destruct (from_utf8 s).
Qed.

Lemma frame_decode_total buf : Forall byte_ok buf -> returns (frame_decode buf).
Proof.
  intros Hb. unfold frame_decode. destruct (Z.ltb_spec (zlen buf) 5) as [|Hl]; [done|].
  destruct buf as [|k buf]; [by unfold zlen in Hl|]. rewrite get_u8_spec. unfold mbind, outcome_bind.
  destruct (kind_from_u8 k); [|done]. apply Forall_cons in Hb as [_ Hb]. unfold zlen in Hl. cbn [length] in Hl.
  rewrite get_u32_any by lia. destruct (_ <? _); [done|]. destruct (Z.ltb_spec (zlen (drop 4 buf)) (from_be_bytes (take 4 buf))); [done|].
  pose proof (be_range 4 buf Hb). by rewrite copy_any by lia.
Qed.
End Totality.

(** Reading [n] frames off a stream. *)
Fixpoint read_frames (n : nat) (s : list Z) : Result FrameError (list Ssh3Frame * list Z) :=
  match n with
  | O => Ok ([], s)
  | S n' =>
      '(f, s) ← frame_read_async s;
      '(fs, s) ← read_frames n' s;
      Ok (f :: fs, s)
  end.

Lemma read_frames_written `{!BytesCrate} fs rest :
  Forall (fun f => zlen (payload f) <= MAX_FRAME_LEN) fs ->
  read_frames (length fs) (concat (frame_encode <$> fs) ++ rest) = Ok (fs, rest).
Proof.
  induction 1 as [|f fs Hf Hfs IH]; [done|]. cbn [length read_frames fmap list_fmap concat].
  rewrite <- app_assoc, frame_read_encode by done. unfold mbind, result_bind in *.
  fold (frame_encode <$> fs). unfold fmap in *. by rewrite IH.
Qed.

Lemma write_all_frames `{!BytesCrate} fs sink :
  foldl (fun s f => frame_write_async f s) sink fs = sink ++ concat (frame_encode <$> fs).
Proof.
  revert sink. induction fs as [|f fs IH]; intros sink; cbn; [by rewrite app_nil_r|].
  rewrite IH. unfold frame_write_async. by rewrite <- app_assoc.
Qed.

(** ** Properties *)

(** C25: Frames arrive as they were sent.  Any sequence of frames with payloads
    of at most 16 MiB, written one after the other to a stream, is read back
    by as many reads in the same order, and what follows it on the stream is
    left untouched. *)
Theorem frame_stream_roundtrip `{!BytesCrate} fs rest :
  Forall (fun f => zlen (payload f) <= MAX_FRAME_LEN) fs ->
  read_frames (length fs) (foldl (fun s f => frame_write_async f s) [] fs ++ rest) = Ok (fs, rest).
Proof. intros Hfs. rewrite write_all_frames. by apply read_frames_written. Qed.

Lemma frame_stream_roundtrip_witness :
  let fs := [mkFrame Settings [1; 2; 3]; mkFrame AppPing []; mkFrame Data [255]] in
  read_frames 3 (foldl (fun s f => frame_write_async f s) [] fs ++ [9]) = Ok (fs, [9]).
Proof.
  intros fs. apply (frame_stream_roundtrip fs [9]). repeat constructor; vm_compute; discriminate.
Defined.

(** The frame decoder is exact on hostile input.  On any bytes it returns,
    without a panic; it accepts exactly the encodings of frames of at most
    16 MiB: the frame it returns encodes to the bytes it took off the buffer,
    and every such encoding is accepted. *)
Theorem frame_decode_exact `{!BytesCrate} buf :
  Forall byte_ok buf ->
  (exists r rest, frame_decode buf = Return (r, rest))
  /\ forall f rest, frame_decode buf = Return (Ok f, rest)
       <-> buf = frame_encode f ++ rest /\ zlen (payload f) <= MAX_FRAME_LEN.
Proof.
  intros Hb. split.
  - pose proof (frame_decode_total buf Hb) as Ht. destruct (frame_decode buf) as [[r rest]|]; [|done]. by exists r, rest.
  - intros f rest. split; [by apply frame_decode_sound|]. intros [-> Hp]. by apply frame_decode_encode.
Qed.

Lemma frame_decode_exact_witness :
  frame_decode [4; 0; 0; 0; 2; 7; 8; 9] = Return (Ok (mkFrame Data [7; 8]), [9]).
Proof.
  refine (proj2 (proj2 (frame_decode_exact [4; 0; 0; 0; 2; 7; 8; 9] _) (mkFrame Data [7; 8]) [9]) _).
  - repeat constructor; unfold byte_ok; lia.
  - split; [reflexivity|vm_compute; discriminate].
Defined.

(** The payloads of the opening frames and the settings round-trip.  With
    strings of at most 65535 bytes each payload decodes to itself; of the
    settings, a limit of zero and an empty version come back as absent, and
    unrecognised keys are lost; and no payload bytes make a decoder panic. *)
Theorem payload_codecs `{!BytesCrate} :
  (forall c, str16_ok (co_host c) -> u16_ok (co_port c) -> channel_open_decode (channel_open_encode c) = Return (Ok c))
  /\ (forall u, str16_ok (uds_path u) -> uds_open_decode (uds_open_encode u) = Return (Ok u))
  /\ (forall r, str16_ok (reason r) -> open_response_decode (open_response_encode r) = Return (Ok r))
  /\ (forall u, u32_range (flow_id u) -> str16_ok (udp_host u) -> u16_ok (udp_port u) ->
        udp_associate_decode (udp_associate_encode u) = Return (Ok u))
  /\ (forall s, u32_range (default 0 (max_forwards s)) -> str16_ok (default [] (version s)) ->
        settings_decode (settings_encode s) = Return (Ok (normal_settings s)))
  /\ (forall p, Forall byte_ok p ->
        returns (channel_open_decode p) /\ returns (uds_open_decode p) /\ returns (open_response_decode p)
        /\ returns (udp_associate_decode p) /\ returns (settings_decode p)).
Proof.
  split_and!; [exact channel_open_roundtrip|exact uds_open_roundtrip|exact open_response_roundtrip
    |exact udp_associate_roundtrip|exact settings_roundtrip|exact decoders_total].
Qed.

(** [é:443] as a channel, and settings with an unknown key. *)
Lemma payload_codecs_witness :
  channel_open_decode (channel_open_encode (mkChannelOpen [195; 169] 443)) = Return (Ok (mkChannelOpen [195; 169] 443))
  /\ settings_decode (settings_encode (mkSettings true false true false (Some 0) (Some [49]) [([97], [98])]))
     = Return (Ok (mkSettings true false true false None (Some [49]) [])).
Proof.
  destruct payload_codecs as (H1 & _ & _ & _ & H5 & _). split.
  - apply (H1 (mkChannelOpen [195; 169] 443)).
    + split; [split; [repeat constructor; unfold byte_ok; lia|reflexivity]|vm_compute; discriminate].
    + unfold u16_ok, umax. cbn. lia.
  - apply (H5 (mkSettings true false true false (Some 0) (Some [49]) [([97], [98])])).
    + unfold u32_range, umax. cbn. lia.
    + split; [split; [repeat constructor; unfold byte_ok; lia|reflexivity]|vm_compute; discriminate].
Defined.

(** A host name over 65535 bytes is sent as another target.  The length
    field is clamped but the whole name is written, so the peer decodes the
    first 65535 bytes as the host and takes the next two bytes of the name
    for the port: the opening succeeds, for a host and a port nobody asked
    for. *)
Theorem long_host_retargets `{!BytesCrate} h1 p1 p2 h2 port :
  string_ok h1 -> zlen h1 = umax 16 -> byte_ok p1 -> byte_ok p2 ->
  channel_open_decode (channel_open_encode (mkChannelOpen (h1 ++ p1 :: p2 :: h2) port))
  = Return (Ok (mkChannelOpen h1 (256 * p1 + p2))).
Proof.
  intros Hs Hl H1 H2. unfold channel_open_encode. cbn [co_host co_port].
  rewrite !put_u16_spec, put_slice_spec. cbn [app].
  assert (clamp_len 16 (h1 ++ p1 :: p2 :: h2) = umax 16) as ->.
  { unfold clamp_len, zlen in *. rewrite length_app. cbn [length]. lia. }
  rewrite <- !app_assoc. cbn [app]. unfold channel_open_decode.
  rewrite (proj2 (Z.ltb_ge _ _)) by zlia. rewrite get_u16_be by (unfold umax; lia). unfold mbind, outcome_bind.
  rewrite (proj2 (Z.ltb_ge _ _)) by (unfold zlen in *; rewrite length_app; cbn [length]; lia).
  rewrite copy_len, from_utf8_ok by done.
  change (p1 :: p2 :: h2 ++ ?t) with ([p1; p2] ++ h2 ++ t). rewrite get_u16_spec by done.
  unfold from_be_bytes, addb. cbn [foldl]. do 3 f_equal. lia.
Qed.

(** 65535 letters a, then a suffix whose first two bytes are read as port 80. *)
Lemma long_host_retargets_witness :
  channel_open_decode (channel_open_encode (mkChannelOpen (replicate (Z.to_nat 65535) 97 ++ [0; 80; 98]) 443))
  = Return (Ok (mkChannelOpen (replicate (Z.to_nat 65535) 97) 80)).
Proof.
  apply (long_host_retargets (replicate (Z.to_nat 65535) 97) 0 80 [98] 443).
  - apply ascii_string_ok. lia.
  - unfold zlen. rewrite length_replicate, Z2Nat.id; unfold umax; lia.
  - unfold byte_ok. lia.
  - unfold byte_ok. lia.
Defined.
