(* ===== verification/Ber.v ===== *)
(** * The BER codec of the SNMP agent

    Models [crates/spt-snmp/src/ber.rs]: definite lengths, integers, unsigned
    application integers, object identifiers, and the TLV encoder and decoder
    built on them.  A byte is a [Z] in [0, 256); [usize] is 64 bits wide.  The
    encoder's buffer is the list of its bytes, the decoder a slice and a
    position.  Integer operations are checked, as the release profile has
    them: an overflow is a [Panic].  An error ends the decoding: every caller
    propagates it, so the position a failed read leaves behind is not kept. *)

From S2P Require Import Prelude Bytes.

(** [Error::Ber] and [Error::BerEncode], with the reason in place of the text. *)
Inductive BerReason :=
| Truncated | LengthOverflow | WrongTag (expected got : Z) | Indefinite | TooManyLengthBytes
| EmptyInteger | IntegerTooLarge | OutOfRange | NonEmptyNull | EmptyOid | ArcTooLarge | OidTooShort
| FirstArc | SecondArc | UnknownValueTag (tag : Z) | IpAddressLength.

(** [UsmError] of [crates/spt-snmp/src/error.rs]. *)
Inductive UsmError :=
| UnsupportedSecLevel | NotInTimeWindow | UnknownUserName | UnknownEngineId | WrongDigest | DecryptionError.

(** [Error] of the same file: [Ber], [BerEncode], the texts of [Message], [Usm],
    [Privacy] and [Internal]; [Io] and [Config] do not occur in what is
    modelled. *)
Inductive BerError :=
| BerDecode (r : BerReason) | BerEncode (r : BerReason) | UnknownPduTag (tag : Z) | FieldOverflow
| UnsupportedVersion (v : Z) | FlagsLength (n : Z) | WrongDataTag (tag : Z)
| Usm (e : UsmError) | Privacy | InternalError.

(** ** Tags *)

Definition TAG_INTEGER : Z := 0x02.
Definition TAG_OCTET_STRING : Z := 0x04.
Definition TAG_NULL : Z := 0x05.
Definition TAG_OID : Z := 0x06.
Definition TAG_SEQUENCE : Z := 0x30.
Definition TAG_IP_ADDRESS : Z := 0x40.
Definition TAG_COUNTER32 : Z := 0x41.
Definition TAG_GAUGE32 : Z := 0x42.
Definition TAG_TIMETICKS : Z := 0x43.
Definition TAG_OPAQUE : Z := 0x44.
Definition TAG_COUNTER64 : Z := 0x46.
Definition TAG_NO_SUCH_OBJECT : Z := 0x80.
Definition TAG_NO_SUCH_INSTANCE : Z := 0x81.
Definition TAG_END_OF_MIB : Z := 0x82.
Definition TAG_GET_REQUEST : Z := 0xA0.
Definition TAG_GET_NEXT_REQUEST : Z := 0xA1.
Definition TAG_RESPONSE : Z := 0xA2.
Definition TAG_SET_REQUEST : Z := 0xA3.
Definition TAG_GET_BULK_REQUEST : Z := 0xA5.
Definition TAG_INFORM_REQUEST : Z := 0xA6.
Definition TAG_SNMPV2_TRAP : Z := 0xA7.
Definition TAG_REPORT : Z := 0xA8.

(** ** Integers *)

(** The two stripping loops of [encode_int]. *)
Fixpoint strip_zeros (l : list Z) : list Z :=
  match l with
  | b0 :: ((b1 :: _) as r) => if (b0 =? 0) && (Z.land b1 0x80 =? 0) then strip_zeros r else l
  | _ => l
  end.

Fixpoint strip_ones (l : list Z) : list Z :=
  match l with
  | b0 :: ((b1 :: _) as r) => if (b0 =? 0xFF) && negb (Z.land b1 0x80 =? 0) then strip_ones r else l
  | _ => l
  end.

Definition encode_int (v : Z) : list Z :=
  if v =? 0 then [0]
  else
    let bytes := to_be_bytes 8 v in
    if 0 <? v then strip_zeros bytes else strip_ones bytes.

(** [(acc << 8) | b] on an [i64]. *)
Definition shift_in (acc b : Z) : Z := Z.lor (sign_wrap 64 (Z.shiftl acc 8)) b.

Definition decode_int (bytes : list Z) : Result BerError Z :=
  match bytes with
  | [] => Err (BerDecode EmptyInteger)
  | b0 :: _ =>
      if (9 <? length bytes)%nat then Err (BerDecode IntegerTooLarge)
      else
        let acc := foldl shift_in (if negb (Z.land b0 0x80 =? 0) then -1 else 0) bytes in
        if (length bytes =? 9)%nat && negb (b0 =? 0) then Err (BerDecode IntegerTooLarge)
        else Ok acc
  end.

(** The stripping loop of [encode_uint]. *)
Fixpoint strip_leading (l : list Z) : list Z :=
  match l with
  | b0 :: ((_ :: _) as r) => if b0 =? 0 then strip_leading r else l
  | _ => l
  end.

Definition encode_uint (v : Z) : list Z :=
  if v =? 0 then [0]
  else
    match strip_leading (to_be_bytes 8 v) with
    | [] => []
    | (b0 :: _) as bytes => if negb (Z.land b0 0x80 =? 0) then 0 :: bytes else bytes
    end.

(** [(acc << 8) | b] on a [w]-bit unsigned integer. *)
Definition shift_in_u (w acc b : Z) : Z := Z.lor (wrap w (Z.shiftl acc 8)) b.

Definition decode_uint (bytes : list Z) : Result BerError Z :=
  match bytes with
  | [] => Err (BerDecode EmptyInteger)
  | b0 :: r =>
      if (9 <? length bytes)%nat then Err (BerDecode IntegerTooLarge)
      else if (length bytes =? 9)%nat && negb (b0 =? 0) then Err (BerDecode IntegerTooLarge)
      else Ok (foldl (shift_in_u 64) 0 (if (length bytes =? 9)%nat then r else bytes))
  end.

(** ** Lengths *)

(** The loop that fills [tmp], least significant byte first; eight rounds
    exhaust a [usize]. *)
Fixpoint length_bytes (fuel : nat) (v : Z) : list Z :=
  match fuel with
  | O => []
  | S fuel' => if v =? 0 then [] else Z.land v 0xFF :: length_bytes fuel' (Z.shiftr v 8)
  end.

Definition write_length (len : Z) : list Z :=
  if len <? 128 then [len]
  else
    let tmp := length_bytes 8 len in
    Z.lor 0x80 (Z.of_nat (length tmp)) :: rev tmp.

(** ** Object identifiers *)

Fixpoint arc_groups (fuel : nat) (v : Z) : list Z :=
  match fuel with
  | O => []
  | S fuel' => if v =? 0 then [] else Z.land v 0x7F :: arc_groups fuel' (Z.shiftr v 7)
  end.

Definition encode_arc (v : Z) : list Z :=
  if v <? 0x80 then [v]
  else
    match arc_groups 5 v with
    | [] => []
    | g0 :: gs => ((fun g => Z.lor g 0x80) <$> rev gs) ++ [g0]
    end.

(** [encode_oid]; the sum [arcs[0] * 40 + arcs[1]] is checked. *)
Definition encode_oid (arcs : list Z) : Outcome (Result BerError (list Z)) :=
  match arcs with
  | a0 :: a1 :: rest =>
      if 2 <? a0 then Return (Err (BerEncode FirstArc))
      else if (a0 <? 2) && (40 <=? a1) then Return (Err (BerEncode SecondArc))
      else if umax 32 <? a0 * 40 + a1 then Panic
      else Return (Ok (encode_arc (a0 * 40 + a1) ++ concat (encode_arc <$> rest)))
  | _ => Return (Err (BerEncode OidTooShort))
  end.

(** [decode_arc]: the value and the bytes that are left. *)
Fixpoint decode_arc (acc : Z) (bytes : list Z) : Result BerError (Z * list Z) :=
  match bytes with
  | [] => Err (BerDecode Truncated)
  | b :: r =>
      if negb (Z.land acc 0xFE000000 =? 0) then Err (BerDecode ArcTooLarge)
      else
        let acc' := Z.lor (wrap 32 (Z.shiftl acc 7)) (Z.land b 0x7F) in
        if Z.land b 0x80 =? 0 then Ok (acc', r) else decode_arc acc' r
  end.

(** The loop [while idx < bytes.len()]; every arc takes at least one byte, so
    as many rounds as bytes are enough. *)
Fixpoint decode_arcs (fuel : nat) (bytes : list Z) : Result BerError (list Z) :=
  match fuel, bytes with
  | _, [] => Ok []
  | O, _ => Err (BerDecode Truncated)
  | S fuel', _ =>
      '(a, r) ← decode_arc 0 bytes;
      arcs ← decode_arcs fuel' r;
      Ok (a :: arcs)
  end.

Definition decode_oid (bytes : list Z) : Result BerError (list Z) :=
  match bytes with
  | [] => Err (BerDecode EmptyOid)
  | _ =>
      '(first, r) ← decode_arc 0 bytes;
      let '(a, b) := if first <? 40 then (0, first)
                     else if first <? 80 then (1, first - 40)
                     else (2, first - 80) in
      arcs ← decode_arcs (length r) r;
      Ok (a :: b :: arcs)
  end.

(** ** The encoder *)

Definition write_tlv (buf : list Z) (tag : Z) (value : list Z) : list Z :=
  buf ++ tag :: write_length (Z.of_nat (length value)) ++ value.

Definition write_i64 (buf : list Z) (v : Z) : list Z := write_tlv buf TAG_INTEGER (encode_int v).
Definition write_u32 (buf : list Z) (v : Z) : list Z := write_i64 buf v.
Definition write_app_u32 (buf : list Z) (tag v : Z) : list Z := write_tlv buf tag (encode_uint v).
Definition write_counter64 (buf : list Z) (v : Z) : list Z := write_tlv buf TAG_COUNTER64 (encode_uint v).
Definition write_octet_string (buf v : list Z) : list Z := write_tlv buf TAG_OCTET_STRING v.
Definition write_app_octet_string (buf : list Z) (tag : Z) (v : list Z) : list Z := write_tlv buf tag v.
Definition write_null (buf : list Z) : list Z := write_tlv buf TAG_NULL [].
Definition write_oid (buf arcs : list Z) : Outcome (Result BerError (list Z)) :=
  outcome_map (fun r => bytes ← r; Ok (write_tlv buf TAG_OID bytes)) (encode_oid arcs).
Definition write_raw (buf bytes : list Z) : list Z := buf ++ bytes.
Definition write_constructed (buf : list Z) (tag : Z) (body : list Z -> list Z) : list Z :=
  write_tlv buf tag (body []).
Definition write_sequence (buf : list Z) (body : list Z -> list Z) : list Z :=
  write_tlv buf TAG_SEQUENCE (body []).

(** ** The decoder *)

Record Decoder := mkDecoder { dec_bytes : list Z; dec_pos : Z }.

Definition Decoder_new (bytes : list Z) : Decoder := mkDecoder bytes 0.

Definition remaining (d : Decoder) : Z := sat_sub (Z.of_nat (length (dec_bytes d))) (dec_pos d).

Definition dec_is_empty (d : Decoder) : bool := Z.of_nat (length (dec_bytes d)) <=? dec_pos d.

Definition read_byte (d : Decoder) : Result BerError (Z * Decoder) :=
  match dec_bytes d !! Z.to_nat (dec_pos d) with
  | Some b => Ok (b, mkDecoder (dec_bytes d) (dec_pos d + 1))
  | None => Err (BerDecode Truncated)
  end.

Definition peek_tag (d : Decoder) : Result BerError Z :=
  ok_or (BerDecode Truncated) (dec_bytes d !! Z.to_nat (dec_pos d)).

(** The loop of [read_length]. *)
Fixpoint read_length_bytes (n : nat) (len : Z) (d : Decoder) : Result BerError (Z * Decoder) :=
  match n with
  | O => Ok (len, d)
  | S n' =>
      '(b, d') ← read_byte d;
      read_length_bytes n' (shift_in_u 64 len b) d'
  end.

Definition read_length (d : Decoder) : Result BerError (Z * Decoder) :=
  '(first, d') ← read_byte d;
  if first <? 0x80 then Ok (first, d')
  else if first =? 0x80 then Err (BerDecode Indefinite)
  else
    let n := Z.land first 0x7F in
    if 8 <? n then Err (BerDecode TooManyLengthBytes) else read_length_bytes (Z.to_nat n) 0 d'.

Definition read_tlv (d : Decoder) : Result BerError (Z * list Z * Decoder) :=
  '(tag, d1) ← read_byte d;
  '(len, d2) ← read_length d1;
  let end_ := dec_pos d2 + len in
  if umax 64 <? end_ then Err (BerDecode LengthOverflow)
  else if Z.of_nat (length (dec_bytes d2)) <? end_ then Err (BerDecode Truncated)
  else
    Ok (tag, take (Z.to_nat len) (drop (Z.to_nat (dec_pos d2)) (dec_bytes d2)),
        mkDecoder (dec_bytes d2) end_).

Definition read_expected (d : Decoder) (expected : Z) : Result BerError (list Z * Decoder) :=
  '(tag, v, d') ← read_tlv d;
  if tag =? expected then Ok (v, d') else Err (BerDecode (WrongTag expected tag)).

Definition read_sequence (d : Decoder) : Result BerError (Decoder * Decoder) :=
  '(body, d') ← read_expected d TAG_SEQUENCE;
  Ok (Decoder_new body, d').

Definition read_constructed (d : Decoder) (tag : Z) : Result BerError (Decoder * Decoder) :=
  '(body, d') ← read_expected d tag;
  Ok (Decoder_new body, d').

Definition read_i64 (d : Decoder) : Result BerError (Z * Decoder) :=
  '(v, d') ← read_expected d TAG_INTEGER;
  n ← decode_int v;
  Ok (n, d').

Definition read_u32 (d : Decoder) : Result BerError (Z * Decoder) :=
  '(v, d') ← read_i64 d;
  if (0 <=? v) && (v <=? umax 32) then Ok (v, d') else Err (BerDecode OutOfRange).

Definition read_octet_string (d : Decoder) : Result BerError (list Z * Decoder) :=
  read_expected d TAG_OCTET_STRING.

Definition read_null (d : Decoder) : Result BerError (unit * Decoder) :=
  '(v, d') ← read_expected d TAG_NULL;
  match v with [] => Ok (tt, d') | _ => Err (BerDecode NonEmptyNull) end.

Definition read_oid (d : Decoder) : Result BerError (list Z * Decoder) :=
  '(v, d') ← read_expected d TAG_OID;
  arcs ← decode_oid v;
  Ok (arcs, d').

Definition read_app_u32 (d : Decoder) (tag : Z) : Result BerError (Z * Decoder) :=
  '(v, d') ← read_expected d tag;
  n ← decode_uint v;
  if umax 32 <? n then Err (BerDecode OutOfRange) else Ok (n, d').

Definition read_counter64 (d : Decoder) : Result BerError (Z * Decoder) :=
  '(v, d') ← read_expected d TAG_COUNTER64;
  n ← decode_uint v;
  Ok (n, d').

(** ** Lemmas: signed integers *)

Lemma shift_in_add acc b : byte_ok b -> shift_in acc b = sign_wrap 64 (addb acc b).
Proof.
  intros Hb. unfold shift_in, addb, byte_ok in *. rewrite Z.shiftl_mul_pow2 by lia. change (2 ^ 8) with 256.
  assert ((acc * 256) mod 2 ^ 64 = (acc mod 2 ^ 56) * 256) as E1.
  { change (2 ^ 64) with (2 ^ 56 * 256). by rewrite Z.mul_mod_distr_r by lia. }
  assert ((acc * 256 + b) mod 2 ^ 64 = (acc mod 2 ^ 56) * 256 + b) as E2.
  { pose proof (Z.mod_pos_bound acc (2 ^ 56)).
    rewrite <- Z.add_mod_idemp_l, E1 by lia. apply Z.mod_small. lia. }
  pose proof (Z.mod_pos_bound acc (2 ^ 56) ltac:(lia)) as Hm.
  unfold sign_wrap. rewrite E1, E2. change (64 - 1) with 63. set (m := acc mod 2 ^ 56) in *.
  destruct (Z.ltb_spec (m * 256) (2 ^ 63)), (Z.ltb_spec (m * 256 + b) (2 ^ 63)); try lia.
  - apply (lor_low m b 8); lia.
  - replace (m * 256 - 2 ^ 64) with ((m - 2 ^ 56) * 2 ^ 8) by lia. rewrite lor_low by lia. lia.
Qed.

Lemma foldl_shift_in l a :
  l <> [] -> Forall byte_ok l -> foldl shift_in a l = sign_wrap 64 (foldl addb a l).
Proof.
  intros Hne Hl. induction l as [|x l IH] using rev_ind; [done|].
  apply Forall_app in Hl as [Hl Hx]. rewrite Forall_singleton in Hx.
  rewrite !foldl_snoc. rewrite shift_in_add by exact Hx. destruct l as [|y l']; [done|].
  rewrite IH by done. apply sign_wrap_congr. unfold addb.
  rewrite <- Z.add_mod_idemp_l, <- Z.mul_mod_idemp_l, sign_wrap_mod by lia.
  by rewrite Z.mul_mod_idemp_l, Z.add_mod_idemp_l by lia.
Qed.

(** The number a two's-complement byte string stands for. *)
Definition int_value (l : list Z) : Z :=
  match l with
  | [] => 0
  | b0 :: _ => foldl addb (if b0 <? 128 then 0 else -1) l
  end.

(** X.690: the first nine bits are not all equal. *)
Definition minimal (l : list Z) : Prop :=
  match l with
  | b0 :: b1 :: _ => ~ (b0 = 0 /\ b1 < 128) /\ ~ (b0 = 255 /\ 128 <= b1)
  | _ => l <> []
  end.

Lemma decode_int_value l :
  Forall byte_ok l -> (0 < length l <= 8)%nat -> - 2 ^ 63 <= int_value l < 2 ^ 63 ->
  decode_int l = Ok (int_value l).
Proof.
  intros Hl Hlen Hv. destruct l as [|b0 r]; [cbn in Hlen; lia|].
  unfold decode_int. rewrite (proj2 (Nat.ltb_ge _ _)) by lia.
  rewrite (proj2 (Nat.eqb_neq _ _)) by lia. cbn [andb].
  rewrite byte_high by (by inversion Hl). rewrite foldl_shift_in by done.
  unfold int_value in *. destruct (b0 <? 128); by rewrite sign_wrap_id.
Qed.

Lemma strip_zeros_spec l :
  Forall byte_ok l -> (match l with b0 :: _ => b0 < 128 | [] => False end) ->
  let r := strip_zeros l in
  int_value r = int_value l /\ Forall byte_ok r /\ (0 < length r <= length l)%nat /\ minimal r.
Proof.
  induction l as [|b0 l IH]; [done|]. intros Hl Hh. destruct l as [|b1 r]; [cbn; split_and!; try done; lia|].
  cbn zeta. change (strip_zeros (b0 :: b1 :: r)) with (if (b0 =? 0) && (Z.land b1 0x80 =? 0) then strip_zeros (b1 :: r) else b0 :: b1 :: r).
  rewrite byte_high by (inversion Hl as [|? ? ? Hl']; by inversion Hl').
  destruct (Z.eqb_spec b0 0) as [->|Hne]; [destruct (Z.ltb_spec b1 128) as [Hlt|Hge]|]; cbn [andb].
  - apply Forall_cons in Hl as [_ Hl]. destruct (IH Hl Hlt) as (H1 & H2 & H3 & H4).
    split_and!; [|done|cbn in *; lia..|done]. rewrite H1. unfold int_value. cbn.
    destruct (Z.ltb_spec b1 128); [done|lia].
  - split_and!; try done; cbn; try lia.
  - split_and!; try done; cbn; lia.
Qed.

Lemma strip_ones_spec l :
  Forall byte_ok l -> (match l with b0 :: _ => 128 <= b0 | [] => False end) ->
  let r := strip_ones l in
  int_value r = int_value l /\ Forall byte_ok r /\ (0 < length r <= length l)%nat /\ minimal r.
Proof.
  induction l as [|b0 l IH]; [done|]. intros Hl Hh. destruct l as [|b1 r]; [cbn; split_and!; try done; lia|].
  cbn zeta. change (strip_ones (b0 :: b1 :: r)) with (if (b0 =? 0xFF) && negb (Z.land b1 0x80 =? 0) then strip_ones (b1 :: r) else b0 :: b1 :: r).
  rewrite byte_high by (inversion Hl as [|? ? ? Hl']; by inversion Hl').
  destruct (Z.eqb_spec b0 255) as [->|Hne]; [destruct (Z.ltb_spec b1 128) as [Hlt|Hge]|]; cbn [andb negb].
  - split_and!; try done; cbn; lia.
  - apply Forall_cons in Hl as [_ Hl]. destruct (IH Hl Hge) as (H1 & H2 & H3 & H4).
    split_and!; [|done|cbn in *; lia..|done]. rewrite H1. unfold int_value. cbn.
    destruct (Z.ltb_spec b1 128); [lia|done].
  - split_and!; try done; cbn; lia.
Qed.

(** The head byte of an [i64] carries its sign. *)
Lemma to_be_bytes_sign v :
  - 2 ^ 63 <= v < 2 ^ 63 ->
  exists b0 r, to_be_bytes 8 v = b0 :: r /\ (b0 < 128 <-> 0 <= v).
Proof.
  intros Hv. exists ((v / 256 ^ 7) mod 256), (to_be_bytes 7 v). split; [done|].
  change (256 ^ 7) with (2 ^ 56).
  assert (-128 <= v / 2 ^ 56 < 128) as Hd.
  { split; [apply Z.div_le_lower_bound; lia|apply Z.div_lt_upper_bound; lia]. }
  destruct (Z.lt_ge_cases v 0) as [Hn|Hp].
  - assert (v / 2 ^ 56 < 0) by (apply Z.div_lt_upper_bound; lia).
    assert ((v / 2 ^ 56) mod 256 = v / 2 ^ 56 + 256) as ->
      by (symmetry; apply Z.mod_unique with (q := -1); lia).
    lia.
  - assert (0 <= v / 2 ^ 56) by (apply Z.div_pos; lia). rewrite Z.mod_small by lia. lia.
Qed.

Lemma int_value_be v : - 2 ^ 63 <= v < 2 ^ 63 -> int_value (to_be_bytes 8 v) = v.
Proof.
  intros Hv. destruct (to_be_bytes_sign v Hv) as (b0 & r & E & Hs). unfold int_value.
  rewrite E, <- E, to_be_bytes_value. change (256 ^ Z.of_nat 8) with (2 ^ 64).
  destruct (Z.ltb_spec b0 128) as [Hb|Hb].
  - rewrite Z.mod_small; lia.
  - assert (v mod 2 ^ 64 = v + 2 ^ 64) as -> by (symmetry; apply Z.mod_unique with (q := -1); lia). lia.
Qed.

Lemma encode_int_spec v :
  - 2 ^ 63 <= v < 2 ^ 63 ->
  int_value (encode_int v) = v /\ Forall byte_ok (encode_int v)
  /\ (0 < length (encode_int v) <= 8)%nat /\ minimal (encode_int v).
Proof.
  intros Hv. unfold encode_int. destruct (Z.eqb_spec v 0) as [->|Hne].
  { split_and!; try done; [|cbn; lia..]. repeat constructor; unfold byte_ok; lia. }
  destruct (to_be_bytes_sign v Hv) as (b0 & r & E & Hs).
  pose proof (to_be_bytes_ok 8 v) as Hok. pose proof (to_be_bytes_length 8 v) as Hlen.
  cbv zeta. destruct (Z.ltb_spec 0 v) as [Hp|Hn].
  - destruct (strip_zeros_spec (to_be_bytes 8 v) Hok) as (H1 & H2 & H3 & H4); [rewrite E; lia|].
    rewrite H1, int_value_be, Hlen in *; done.
  - destruct (strip_ones_spec (to_be_bytes 8 v) Hok) as (H1 & H2 & H3 & H4); [rewrite E; lia|].
    rewrite H1, int_value_be, Hlen in *; done.
Qed.

Lemma decode_encode_int v : - 2 ^ 63 <= v < 2 ^ 63 -> decode_int (encode_int v) = Ok v.
Proof.
  intros Hv. destruct (encode_int_spec v Hv) as (E & Hok & Hlen & _).
  rewrite decode_int_value by (done || lia). by rewrite E.
Qed.

(** ** Lemmas: unsigned integers *)

Lemma shift_in_u_add acc b : byte_ok b -> 0 <= acc < 2 ^ 56 -> shift_in_u 64 acc b = addb acc b.
Proof.
  intros Hb Ha. unfold shift_in_u, addb, wrap, byte_ok in *. rewrite Z.shiftl_mul_pow2 by lia.
  rewrite Z.mod_small by lia. apply (lor_low acc b 8); lia.
Qed.

(** Within eight bytes nothing is shifted out. *)
Lemma foldl_shift_in_u l :
  Forall byte_ok l -> (length l <= 8)%nat -> foldl (shift_in_u 64) 0 l = foldl addb 0 l.
Proof.
  induction l as [|x l IH] using rev_ind; [done|]. intros Hl Hlen.
  rewrite length_app in Hlen. cbn in Hlen. apply Forall_app in Hl as [Hl Hx]. rewrite Forall_singleton in Hx.
  rewrite !foldl_snoc, IH by (done || lia). apply shift_in_u_add; [exact Hx|].
  pose proof (foldl_addb_bound l 0 Hl ltac:(lia)) as Hb.
  assert (256 ^ Z.of_nat (length l) <= 256 ^ 7) by (apply Z.pow_le_mono_r; lia).
  change (256 ^ 7) with (2 ^ 56) in *. lia.
Qed.

Lemma strip_leading_spec l :
  Forall byte_ok l -> l <> [] ->
  let r := strip_leading l in
  foldl addb 0 r = foldl addb 0 l /\ Forall byte_ok r /\ (0 < length r <= length l)%nat
  /\ (match r with b0 :: _ :: _ => b0 <> 0 | _ => True end).
Proof.
  induction l as [|b0 l IH]; [done|]. intros Hl _. destruct l as [|b1 r]; [cbn; split_and!; done || lia|].
  cbn zeta. change (strip_leading (b0 :: b1 :: r)) with (if b0 =? 0 then strip_leading (b1 :: r) else b0 :: b1 :: r).
  destruct (Z.eqb_spec b0 0) as [->|Hne].
  - apply Forall_cons in Hl as [_ Hl]. destruct (IH Hl ltac:(done)) as (H1 & H2 & H3 & H4).
    split_and!; [by rewrite H1|done|cbn in *; lia..|done].
  - split_and!; try done; cbn; lia.
Qed.

Lemma decode_uint_value l :
  Forall byte_ok l -> (0 < length l <= 8)%nat -> decode_uint l = Ok (foldl addb 0 l).
Proof.
  intros Hl Hlen. destruct l as [|b0 r]; [cbn in Hlen; lia|]. unfold decode_uint.
  rewrite (proj2 (Nat.ltb_ge _ _)), (proj2 (Nat.eqb_neq _ _)) by lia. cbn [andb].
  by rewrite foldl_shift_in_u by (done || lia).
Qed.

(** The encoding of a [u64]: the value, one to nine bytes, a clear sign bit,
    and no byte to spare. *)
Lemma encode_uint_spec v :
  0 <= v < 2 ^ 64 ->
  decode_uint (encode_uint v) = Ok v /\ Forall byte_ok (encode_uint v)
  /\ (0 < length (encode_uint v) <= 9)%nat /\ minimal (encode_uint v)
  /\ int_value (encode_uint v) = v.
Proof.
  intros Hv. unfold encode_uint. destruct (Z.eqb_spec v 0) as [->|Hne].
  { split_and!; try done; [|cbn; lia..]. repeat constructor; unfold byte_ok; lia. }
  destruct (strip_leading_spec (to_be_bytes 8 v) (to_be_bytes_ok 8 v) ltac:(done)) as (H1 & H2 & H3 & H4).
  rewrite to_be_bytes_value, to_be_bytes_length in *. change (256 ^ Z.of_nat 8) with (2 ^ 64) in *.
  rewrite Z.mod_small in H1 by lia. destruct (strip_leading _) as [|b0 r]; [cbn in H3; lia|].
  rewrite byte_high by (by inversion H2). destruct (Z.ltb_spec b0 128) as [Hb|Hb]; cbn [negb].
  - rewrite decode_uint_value by done.
    split_and!; [f_equal; lia|done|lia|lia| |unfold int_value; rewrite (proj2 (Z.ltb_lt _ _)) by lia; lia].
    destruct r; cbn; [done|lia].
  - split_and!.
    + unfold decode_uint. rewrite (proj2 (Nat.ltb_ge _ _)) by (cbn in *; lia).
      destruct (Nat.eqb_spec (length (0 :: b0 :: r)) 9); cbn [andb negb Z.eqb];
        rewrite foldl_shift_in_u by (try (constructor; [unfold byte_ok; lia|done]); try done; cbn in *; lia);
        f_equal; exact H1.
    + constructor; [unfold byte_ok; lia|done].
    + cbn in *; lia.
    + cbn in *; lia.
    + cbn; lia.
    + exact H1.
Qed.

(** ** Lemmas: lengths and the decoder's window *)

Lemma length_bytes_value k v :
  0 <= v < 256 ^ Z.of_nat k -> foldl addb 0 (rev (length_bytes k v)) = v.
Proof.
  revert v. induction k as [|k IH]; intros v Hv.
  - change (256 ^ Z.of_nat 0) with 1 in Hv. cbn. lia.
  - cbn [length_bytes]. destruct (Z.eqb_spec v 0) as [->|Hne]; [done|].
    cbn [rev]. rewrite foldl_snoc, Z.shiftr_div_pow2, land_ff by lia. change (2 ^ 8) with 256.
    rewrite Nat2Z.inj_succ, Z.pow_succ_r in Hv by lia. rewrite IH.
    + unfold addb. pose proof (Z.div_mod v 256 ltac:(lia)). lia.
    + split; [apply Z.div_pos; lia|apply Z.div_lt_upper_bound; lia].
Qed.

Lemma length_bytes_ok k v : Forall byte_ok (length_bytes k v) /\ (length (length_bytes k v) <= k)%nat.
Proof.
  revert v. induction k as [|k IH]; intros v; [split; [constructor|done]|].
  cbn [length_bytes]. destruct (v =? 0); [split; [constructor|cbn; lia]|].
  destruct (IH (Z.shiftr v 8)) as [H1 H2]. rewrite land_ff. split; [constructor; [|done]|cbn; lia].
  apply Z.mod_pos_bound. lia.
Qed.

(** The number of length bytes is the least that holds the length. *)
Lemma length_bytes_least k v :
  0 < v -> (0 < k)%nat ->
  (0 < length (length_bytes k v))%nat /\ 256 ^ (Z.of_nat (length (length_bytes k v)) - 1) <= v.
Proof.
  revert v. induction k as [|k IH]; intros v Hv Hk; [lia|].
  cbn [length_bytes]. rewrite (proj2 (Z.eqb_neq v 0)) by lia. cbn [length]. split; [lia|].
  rewrite Nat2Z.inj_succ, Z.shiftr_div_pow2 by lia. change (2 ^ 8) with 256.
  replace (Z.succ _ - 1) with (Z.of_nat (length (length_bytes k (v / 256)))) by lia.
  destruct k as [|k]; [cbn; lia|]. destruct (Z.lt_ge_cases v 256) as [Hs|Hs].
  - rewrite Z.div_small by lia. cbn. lia.
  - assert (0 < v / 256) as Hq by (apply Z.div_str_pos; lia).
    destruct (IH (v / 256) Hq ltac:(lia)) as [Hl Hp].
    replace (Z.of_nat _) with (Z.succ (Z.of_nat (length (length_bytes (S k) (v / 256))) - 1)) by lia.
    rewrite Z.pow_succ_r by lia. pose proof (Z.mul_div_le v 256). lia.
Qed.

(** A decoder that has consumed [pre] and has [rest] ahead. *)
Definition decoder_at (pre rest : list Z) : Decoder := mkDecoder (pre ++ rest) (Z.of_nat (length pre)).

Lemma read_byte_at pre b rest :
  read_byte (decoder_at pre (b :: rest)) = Ok (b, decoder_at (pre ++ [b]) rest).
Proof.
  unfold read_byte, decoder_at. cbn [dec_bytes dec_pos]. rewrite Nat2Z.id, list_lookup_middle by done.
  rewrite <- app_assoc, length_app. cbn. do 3 f_equal. lia.
Qed.

Lemma read_length_bytes_at l a pre rest :
  read_length_bytes (length l) a (decoder_at pre (l ++ rest))
  = Ok (foldl (shift_in_u 64) a l, decoder_at (pre ++ l) rest).
Proof.
  revert a pre. induction l as [|b l IH]; intros a pre; cbn [length read_length_bytes app foldl].
  - by rewrite app_nil_r.
  - rewrite read_byte_at. cbn. rewrite IH, <- app_assoc. done.
Qed.

(** The length codec: what [write_length] writes, [read_length] reads. *)
Lemma read_write_length n pre rest :
  0 <= n < 2 ^ 64 ->
  read_length (decoder_at pre (write_length n ++ rest)) = Ok (n, decoder_at (pre ++ write_length n) rest).
Proof.
  intros Hn. unfold write_length, read_length. destruct (Z.ltb_spec n 128) as [Hs|Hl].
  - cbn [app]. rewrite read_byte_at. cbn. by rewrite (proj2 (Z.ltb_lt n 128)).
  - destruct (length_bytes_ok 8 n) as [Hok Hlen].
    destruct (length_bytes_least 8 n ltac:(lia) ltac:(lia)) as [Hpos _].
    pose proof (length_bytes_value 8 n ltac:(change (256 ^ Z.of_nat 8) with (2 ^ 64); lia)) as Hv.
    cbv zeta. set (tmp := length_bytes 8 n) in *. cbn [app]. rewrite read_byte_at. cbn [mbind].
    change 0x80 with (1 * 2 ^ 7). rewrite lor_low by lia. set (k := Z.of_nat (length tmp)).
    unfold result_bind. rewrite (proj2 (Z.ltb_ge _ _)) by lia. rewrite (proj2 (Z.eqb_neq _ _)) by lia.
    rewrite land_7f. replace ((1 * 2 ^ 7 + k) mod 128) with k by (apply Z.mod_unique with (q := 1); lia).
    rewrite (proj2 (Z.ltb_ge 8 k)) by lia. unfold k. rewrite Nat2Z.id, <- length_rev.
    rewrite read_length_bytes_at, foldl_shift_in_u, Hv, <- app_assoc; [done|by apply Forall_rev|by rewrite length_rev].
Qed.

(** A TLV as bytes. *)
Definition tlv (tag : Z) (value : list Z) : list Z := write_tlv [] tag value.

Lemma write_tlv_app buf tag value : write_tlv buf tag value = buf ++ tlv tag value.
Proof. done. Qed.

Lemma read_tlv_at tag value pre rest :
  Z.of_nat (length (pre ++ tlv tag value ++ rest)) <= umax 64 ->
  read_tlv (decoder_at pre (tlv tag value ++ rest)) = Ok (tag, value, decoder_at (pre ++ tlv tag value) rest).
Proof.
  intros Hfit. unfold read_tlv, tlv, write_tlv in *. cbn [app] in *. rewrite read_byte_at.
  rewrite !length_app in Hfit. cbn [length] in Hfit. rewrite !length_app in Hfit.
  unfold mbind, result_bind at 1. rewrite <- app_assoc, read_write_length by (change (umax 64) with (2 ^ 64 - 1) in *; lia).
  unfold mbind, result_bind. set (lb := write_length _) in *.
  set (pos := length ((pre ++ [tag]) ++ lb)). unfold decoder_at at 1 2 3. cbn [dec_pos dec_bytes]. fold pos.
  assert (pos = (length pre + 1 + length lb)%nat) as Hpos by (unfold pos; rewrite !length_app; cbn; lia).
  rewrite (proj2 (Z.ltb_ge _ _)) by lia.
  rewrite (proj2 (Z.ltb_ge _ _)) by (rewrite length_app; fold pos; rewrite length_app; lia).
  rewrite !Nat2Z.id. do 2 f_equal.
  - f_equal. unfold decoder_at. cbn [dec_bytes dec_pos]. rewrite Nat2Z.id, drop_app_length. by rewrite take_app_length.
  - unfold decoder_at. cbn [dec_bytes]. f_equal.
    + rewrite <- !app_assoc. cbn. by rewrite <- app_assoc.
    + rewrite !length_app. cbn. rewrite length_app. lia.
Qed.

Lemma read_expected_at tag value pre rest :
  Z.of_nat (length (pre ++ tlv tag value ++ rest)) <= umax 64 ->
  read_expected (decoder_at pre (tlv tag value ++ rest)) tag = Ok (value, decoder_at (pre ++ tlv tag value) rest).
Proof.
  intros Hfit. unfold read_expected. rewrite read_tlv_at by done.
  unfold mbind, result_bind. by rewrite Z.eqb_refl.
Qed.

(** ** Lemmas: object identifiers *)

Definition u32_ok (v : Z) : Prop := 0 <= v < 2 ^ 32.

Lemma arc_guard acc : 0 <= acc < 2 ^ 32 -> (Z.land acc 0xFE000000 =? 0) = (acc <? 2 ^ 25).
Proof.
  intros Ha. change 0xFE000000 with (0x7F * 2 ^ 25). destruct (Z.ltb_spec acc (2 ^ 25)) as [Hlt|Hge].
  - apply Z.eqb_eq. rewrite Z.land_comm. apply land_low; lia.
  - apply Z.eqb_neq. intros E.
    assert (Z.shiftr (Z.land acc (0x7F * 2 ^ 25)) 25 = 0) as E' by (by rewrite E).
    rewrite Z.shiftr_land, !Z.shiftr_div_pow2, Z.div_mul, land_7f in E' by lia.
    assert (0 < acc / 2 ^ 25 < 128) as Hq.
    { split; [apply Z.div_str_pos; lia|apply Z.div_lt_upper_bound; lia]. }
    rewrite Z.mod_small in E' by lia. lia.
Qed.

(** One base-128 digit more. *)
Definition add7 (acc d : Z) : Z := acc * 128 + d.

Definition digit_ok (d : Z) : Prop := 0 <= d < 128.

Lemma add7_mono ds acc : Forall digit_ok ds -> 0 <= acc -> acc <= foldl add7 acc ds.
Proof.
  intros Hds. revert acc. induction Hds as [|d ds Hd Hds IH]; intros acc Ha; cbn; [lia|].
  unfold digit_ok in Hd. specialize (IH (add7 acc d)). unfold add7 in *. lia.
Qed.

Lemma high_bit d : digit_ok d ->
  Z.land (Z.lor d 0x80) 0x7F = d /\ (Z.land (Z.lor d 0x80) 0x80 =? 0) = false
  /\ Z.land d 0x7F = d /\ (Z.land d 0x80 =? 0) = true.
Proof.
  unfold digit_ok. intros Hd. rewrite Z.lor_comm. change (Z.lor 0x80 d) with (Z.lor (1 * 2 ^ 7) d).
  rewrite lor_low, !land_7f, !byte_high by (unfold byte_ok; lia). split_and!.
  - symmetry. apply Z.mod_unique with (q := 1); lia.
  - apply Z.ltb_ge. lia.
  - apply Z.mod_small. lia.
  - apply Z.ltb_lt. lia.
Qed.

Lemma decode_arc_digits ds d acc r :
  Forall digit_ok ds -> digit_ok d -> 0 <= acc -> foldl add7 acc ds < 2 ^ 25 ->
  decode_arc acc (((fun g => Z.lor g 0x80) <$> ds) ++ d :: r) = Ok (add7 (foldl add7 acc ds) d, r).
Proof.
  intros Hds Hd. revert acc. induction Hds as [|g ds Hg Hds IH]; intros acc Ha Hb.
  - cbn in Hb. cbn [fmap list_fmap app decode_arc]. destruct (high_bit d Hd) as (_ & _ & E1 & E2).
    rewrite arc_guard, (proj2 (Z.ltb_lt _ _)) by lia. cbn [negb].
    rewrite E1, E2. cbn [foldl]. unfold wrap, add7, digit_ok in *. rewrite Z.shiftl_mul_pow2 by lia.
    rewrite Z.mod_small, lor_low by lia. done.
  - cbn [foldl] in Hb. pose proof (add7_mono ds (add7 acc g) Hds) as Hm. unfold digit_ok in Hg.
    assert (0 <= add7 acc g) as Hp by (unfold add7; lia). specialize (Hm Hp).
    cbn [fmap list_fmap app decode_arc]. destruct (high_bit g Hg) as (E1 & E2 & _ & _).
    rewrite arc_guard, (proj2 (Z.ltb_lt _ _)) by (unfold add7 in *; lia). cbn [negb].
    rewrite E1, E2, Z.shiftl_mul_pow2 by lia. unfold wrap.
    rewrite Z.mod_small, lor_low by (unfold add7 in *; lia). by apply IH.
Qed.

Lemma arc_groups_spec k v :
  0 <= v < 128 ^ Z.of_nat k ->
  foldl add7 0 (rev (arc_groups k v)) = v /\ Forall digit_ok (arc_groups k v).
Proof.
  revert v. induction k as [|k IH]; intros v Hv.
  - change (128 ^ Z.of_nat 0) with 1 in Hv. cbn. split; [lia|done].
  - cbn [arc_groups]. destruct (Z.eqb_spec v 0) as [->|Hne]; [done|].
    rewrite Nat2Z.inj_succ, Z.pow_succ_r in Hv by lia. cbn [rev].
    rewrite foldl_snoc, Z.shiftr_div_pow2, land_7f by lia. change (2 ^ 7) with 128.
    destruct (IH (v / 128)) as [E Hok].
    { split; [apply Z.div_pos; lia|apply Z.div_lt_upper_bound; lia]. }
    rewrite E. split.
    + unfold add7. pose proof (Z.div_mod v 128 ltac:(lia)). lia.
    + constructor; [apply Z.mod_pos_bound; lia|done].
Qed.

Lemma decode_encode_arc v r : u32_ok v -> decode_arc 0 (encode_arc v ++ r) = Ok (v, r).
Proof.
  unfold u32_ok. intros Hv. unfold encode_arc. destruct (Z.ltb_spec v 0x80) as [Hs|Hl].
  - apply (decode_arc_digits [] v 0 r); [done|unfold digit_ok; lia|lia|cbn; lia].
  - destruct (arc_groups_spec 5 v) as [E Hok]; [change (128 ^ Z.of_nat 5) with (2 ^ 35); lia|].
    destruct (arc_groups 5 v) as [|g0 gs]; [cbn in E; lia|].
    apply Forall_cons in Hok as [Hg0 Hgs]. cbn [rev] in E. rewrite foldl_snoc in E.
    unfold digit_ok in Hg0. rewrite <- app_assoc. cbn [app]. rewrite decode_arc_digits; [by rewrite E|by apply Forall_rev|done|lia|].
    unfold add7 in E at 1. lia.
Qed.

Lemma encode_arc_nonempty v : u32_ok v -> encode_arc v <> [].
Proof.
  intros Hv E. pose proof (decode_encode_arc v [] Hv) as D. rewrite E in D. done.
Qed.

Lemma decode_encode_arcs vs fuel :
  Forall u32_ok vs -> (length (concat (encode_arc <$> vs)) <= fuel)%nat ->
  decode_arcs fuel (concat (encode_arc <$> vs)) = Ok vs.
Proof.
  intros Hvs. revert fuel. induction Hvs as [|v vs Hv Hvs IH]; intros fuel Hf; [by destruct fuel|].
  cbn [fmap list_fmap concat] in *. rewrite length_app in Hf. pose proof (encode_arc_nonempty v Hv) as Hne.
  pose proof (decode_encode_arc v (concat (encode_arc <$> vs)) Hv) as D.
  destruct (encode_arc v) as [|b bs] eqn:E; [done|]. cbn [length] in Hf. destruct fuel as [|fuel]; [lia|].
  cbn [app decode_arcs] in *. rewrite D. unfold mbind, result_bind. rewrite IH by lia. done.
Qed.

(** The OIDs X.660 allows, in the range the encoder's sum can hold. *)
Definition oid_ok (arcs : list Z) : Prop :=
  match arcs with
  | a0 :: a1 :: rest =>
      0 <= a0 <= 2 /\ 0 <= a1 /\ (a0 < 2 -> a1 < 40) /\ a0 * 40 + a1 <= umax 32 /\ Forall u32_ok rest
  | _ => False
  end.

Lemma oid_codec arcs :
  oid_ok arcs -> exists bytes, encode_oid arcs = Return (Ok bytes) /\ decode_oid bytes = Ok arcs.
Proof.
  destruct arcs as [|a0 [|a1 rest]]; [done..|]. intros (H0 & H1 & H2 & H3 & Hr). unfold encode_oid.
  rewrite (proj2 (Z.ltb_ge _ _)) by lia.
  assert ((a0 <? 2) && (40 <=? a1) = false) as ->.
  { destruct (Z.ltb_spec a0 2), (Z.leb_spec 40 a1); cbn; done || lia. }
  rewrite (proj2 (Z.ltb_ge _ _)) by lia. eexists. split; [done|].
  assert (u32_ok (a0 * 40 + a1)) as Hv by (unfold u32_ok; change (umax 32) with (2 ^ 32 - 1) in *; lia).
  pose proof (decode_encode_arc _ (concat (encode_arc <$> rest)) Hv) as D.
  pose proof (encode_arc_nonempty _ Hv) as Hne. unfold decode_oid.
  destruct (encode_arc (a0 * 40 + a1)) as [|b bs]; [done|]. cbn [app] in *. rewrite D.
  unfold mbind, result_bind. rewrite decode_encode_arcs by done.
  destruct (Z.ltb_spec (a0 * 40 + a1) 40), (Z.ltb_spec (a0 * 40 + a1) 80); repeat f_equal; lia.
Qed.

Lemma decode_arc_range acc bytes v r :
  decode_arc acc bytes = Ok (v, r) -> u32_ok v /\ (length r < length bytes)%nat.
Proof.
  revert acc. induction bytes as [|b bytes IH]; intros acc; cbn [decode_arc]; [done|].
  destruct (negb _); [done|]. destruct (Z.land b 0x80 =? 0).
  - intros [= <- <-]. split; [|cbn; lia]. unfold u32_ok, wrap. rewrite Z.shiftl_mul_pow2, land_7f by lia.
    change (2 ^ 32) with (2 ^ 25 * 2 ^ 7). rewrite Z.mul_mod_distr_r by lia.
    pose proof (Z.mod_pos_bound acc (2 ^ 25) ltac:(lia)). pose proof (Z.mod_pos_bound b 128 ltac:(lia)).
    rewrite lor_low by lia. lia.
  - intros H. apply IH in H as [? ?]. cbn. split; [done|lia].
Qed.

Lemma decode_arcs_range fuel bytes vs : decode_arcs fuel bytes = Ok vs -> Forall u32_ok vs.
Proof.
  revert bytes vs. induction fuel as [|fuel IH]; intros [|b bytes] vs; cbn [decode_arcs]; try done;
    try (intros [= <-]; done).
  destruct (decode_arc 0 (b :: bytes)) as [[v r]|e] eqn:D; [|done]. unfold mbind, result_bind.
  destruct (decode_arcs fuel r) as [ws|e] eqn:R; [|done]. intros [= <-]. constructor; [|by eapply IH].
  by apply decode_arc_range in D as [? _].
Qed.

(** More rounds than bytes change nothing: the loop over the arcs ends. *)
Lemma decode_arcs_fuel fuel fuel' bytes :
  (length bytes <= fuel)%nat -> (length bytes <= fuel')%nat -> decode_arcs fuel bytes = decode_arcs fuel' bytes.
Proof.
  revert fuel' bytes. induction fuel as [|fuel IH]; intros [|fuel'] [|b bytes]; cbn [length]; intros H H'; try done; try lia.
  cbn [decode_arcs]. destruct (decode_arc 0 (b :: bytes)) as [[v r]|e] eqn:D; [|done].
  unfold mbind, result_bind. apply decode_arc_range in D as [_ Hr]. cbn [length] in Hr.
  by rewrite (IH fuel' r) by lia.
Qed.

(** Whatever the wire holds, a decoded identifier is one the encoder takes. *)
Lemma decode_oid_ok bytes arcs : decode_oid bytes = Ok arcs -> oid_ok arcs.
Proof.
  unfold decode_oid. destruct bytes as [|b bytes]; [done|].
  destruct (decode_arc 0 (b :: bytes)) as [[v r]|e] eqn:D; [|done]. unfold mbind, result_bind.
  apply decode_arc_range in D as [Hv _]. unfold u32_ok in Hv.
  destruct (decode_arcs (length r) r) as [ws|e] eqn:R; [|by destruct (v <? 40), (v <? 80)].
  apply decode_arcs_range in R. change (umax 32) with (2 ^ 32 - 1).
  destruct (Z.ltb_spec v 40); [|destruct (Z.ltb_spec v 80)]; intros [= <-]; cbn;
    change (umax 32) with (2 ^ 32 - 1); split_and!; done || lia.
Qed.

(** ** Lemmas: the decoder stays inside its slice *)

Lemma shift_in_u_range acc b : byte_ok b -> 0 <= shift_in_u 64 acc b < 2 ^ 64.
Proof.
  unfold byte_ok, shift_in_u, wrap. intros Hb. rewrite Z.shiftl_mul_pow2 by lia.
  change (2 ^ 64) with (2 ^ 56 * 2 ^ 8). rewrite Z.mul_mod_distr_r by lia.
  pose proof (Z.mod_pos_bound acc (2 ^ 56) ltac:(lia)). rewrite lor_low by lia. lia.
Qed.

(** A decoder over bytes, positioned in its slice. *)
Definition decoder_ok (d : Decoder) : Prop :=
  Forall byte_ok (dec_bytes d) /\ 0 <= dec_pos d <= Z.of_nat (length (dec_bytes d)).

Lemma read_byte_ok d b d' :
  decoder_ok d -> read_byte d = Ok (b, d') ->
  decoder_ok d' /\ dec_bytes d' = dec_bytes d /\ dec_pos d' = dec_pos d + 1 /\ byte_ok b
  /\ drop (Z.to_nat (dec_pos d)) (dec_bytes d) = b :: drop (Z.to_nat (dec_pos d')) (dec_bytes d).
Proof.
  intros [Hb Hp]. unfold read_byte. destruct (dec_bytes d !! Z.to_nat (dec_pos d)) as [x|] eqn:E; [|done].
  intros [= <- <-]. pose proof (lookup_lt_Some _ _ _ E) as Hlt. unfold decoder_ok. cbn.
  split_and!; try done; try lia.
  - by eapply Forall_lookup_1 in E.
  - replace (Z.to_nat (dec_pos d + 1)) with (S (Z.to_nat (dec_pos d))) by lia. by apply drop_S.
Qed.

Lemma read_length_bytes_ok n len d len' d' :
  decoder_ok d -> 0 <= len < 2 ^ 64 -> read_length_bytes n len d = Ok (len', d') ->
  decoder_ok d' /\ dec_bytes d' = dec_bytes d /\ dec_pos d' = dec_pos d + Z.of_nat n /\ 0 <= len' < 2 ^ 64.
Proof.
  revert len d. induction n as [|n IH]; intros len d Hd Hl; cbn [read_length_bytes].
  - intros [= <- <-]. split_and!; done || lia.
  - destruct (read_byte d) as [[b d1]|e] eqn:E; [|done]. unfold mbind, result_bind. intros H.
    destruct (read_byte_ok _ _ _ Hd E) as (Hd1 & Hb1 & Hp1 & Hb & _).
    destruct (IH _ _ Hd1 (shift_in_u_range _ _ Hb) H) as (? & ? & ? & ?).
    split_and!; done || lia || congruence.
Qed.

Lemma read_length_ok d len d' :
  decoder_ok d -> read_length d = Ok (len, d') ->
  decoder_ok d' /\ dec_bytes d' = dec_bytes d /\ dec_pos d + 1 <= dec_pos d' /\ 0 <= len < 2 ^ 64.
Proof.
  intros Hd. unfold read_length. destruct (read_byte d) as [[b d1]|e] eqn:E; [|done].
  destruct (read_byte_ok _ _ _ Hd E) as (Hd1 & Hb1 & Hp1 & Hb & _). unfold mbind, result_bind, byte_ok in *.
  destruct (Z.ltb_spec b 0x80); [intros [= <- <-]; split_and!; done || lia|].
  destruct (b =? 0x80); [done|]. cbv zeta. destruct (_ <? _); [done|]. intros Hr.
  destruct (read_length_bytes_ok _ 0 _ _ _ Hd1 ltac:(lia) Hr) as (? & ? & ? & ?).
  split_and!; done || lia || congruence.
Qed.

Lemma read_tlv_ok d tag v d' :
  decoder_ok d -> read_tlv d = Ok (tag, v, d') ->
  decoder_ok d' /\ dec_bytes d' = dec_bytes d /\ dec_pos d + 2 <= dec_pos d'
  /\ exists header,
       drop (Z.to_nat (dec_pos d)) (dec_bytes d)
       = (tag :: header) ++ v ++ drop (Z.to_nat (dec_pos d')) (dec_bytes d) /\ header <> [].
Proof.
  intros Hd. unfold read_tlv. destruct (read_byte d) as [[b d1]|e] eqn:E; [|done].
  destruct (read_byte_ok _ _ _ Hd E) as (Hd1 & Hb1 & Hp1 & Hb & Hdrop). unfold mbind, result_bind.
  destruct (read_length d1) as [[len d2]|e] eqn:E2; [|done].
  destruct (read_length_ok _ _ _ Hd1 E2) as ([Hok2 Hr2] & Hb2 & Hp2 & Hlen). cbv zeta.
  destruct (umax 64 <? dec_pos d2 + len); [done|]. destruct (Z.ltb_spec (Z.of_nat (length (dec_bytes d2))) (dec_pos d2 + len)); [done|].
  intros [= <- <- <-]. destruct Hd as [_ Hd], Hd1 as [_ Hd1]. rewrite Hb2, Hb1 in *. unfold decoder_ok. cbn [dec_bytes dec_pos].
  split_and!; try done; try lia.
  exists (take (Z.to_nat (dec_pos d2) - Z.to_nat (dec_pos d1)) (drop (Z.to_nat (dec_pos d1)) (dec_bytes d))).
  split.
  - rewrite Hdrop. cbn [app]. f_equal. replace (Z.to_nat (dec_pos d2 + len)) with (Z.to_nat (dec_pos d2) + Z.to_nat len)%nat by lia.
    rewrite <- drop_drop, take_drop.
    replace (drop (Z.to_nat (dec_pos d2)) (dec_bytes d))
      with (drop (Z.to_nat (dec_pos d2) - Z.to_nat (dec_pos d1)) (drop (Z.to_nat (dec_pos d1)) (dec_bytes d)))
      by (rewrite drop_drop; f_equal; lia).
    by rewrite take_drop.
  - intros En. apply (f_equal length) in En. rewrite length_take, length_drop in En. cbn in En. lia.
Qed.

(** ** Properties *)

(** The integer codecs are exact and minimal.  Every [i64] is written in
    one to eight bytes whose first nine bits are not all equal (X.690's
    shortest form), is the two's-complement value of those bytes, and is read
    back; every [u64] is written in one to nine bytes with the same
    minimality, with the sign bit clear, and is read back. *)
Theorem integer_codecs :
  (forall v, - 2 ^ 63 <= v < 2 ^ 63 ->
     decode_int (encode_int v) = Ok v /\ int_value (encode_int v) = v /\ Forall byte_ok (encode_int v)
     /\ (0 < length (encode_int v) <= 8)%nat /\ minimal (encode_int v))
  /\ (forall v, 0 <= v < 2 ^ 64 ->
     decode_uint (encode_uint v) = Ok v /\ int_value (encode_uint v) = v /\ Forall byte_ok (encode_uint v)
     /\ (0 < length (encode_uint v) <= 9)%nat /\ minimal (encode_uint v)).
Proof.
  split; intros v Hv.
  - destruct (encode_int_spec v Hv) as (? & ? & ? & ?). split; [by apply decode_encode_int|done].
  - destruct (encode_uint_spec v Hv) as (? & ? & ? & ? & ?). done.
Qed.

Lemma integer_codecs_witness :
  decode_int (encode_int (-129)) = Ok (-129) /\ decode_uint (encode_uint (2 ^ 64 - 1)) = Ok (2 ^ 64 - 1).
Proof.
  split.
  - exact (proj1 (proj1 integer_codecs (-129) ltac:(lia))).
  - exact (proj1 (proj2 integer_codecs (2 ^ 64 - 1) ltac:(lia))).
Defined.

(** A length or a value never leads outside the slice.  Whatever the bytes,
    a TLV that [read_tlv] accepts lies in the decoder's slice: the tag and at
    least one length byte, then exactly the value returned, then the rest, on
    which the decoder stands; so the position moves forward by two bytes or
    more and never past the end. *)
Theorem read_tlv_in_bounds d tag v d' :
  decoder_ok d -> read_tlv d = Ok (tag, v, d') ->
  decoder_ok d' /\ dec_bytes d' = dec_bytes d /\ dec_pos d + 2 <= dec_pos d'
  /\ exists header,
       drop (Z.to_nat (dec_pos d)) (dec_bytes d)
       = (tag :: header) ++ v ++ drop (Z.to_nat (dec_pos d')) (dec_bytes d) /\ header <> [].
Proof. exact (read_tlv_ok d tag v d'). Qed.

(** An OCTET STRING of two bytes, then one byte more. *)
Definition tlv_input : Decoder := Decoder_new [4; 2; 170; 187; 5].

Lemma read_tlv_in_bounds_witness :
  dec_pos tlv_input + 2 <= dec_pos (mkDecoder (dec_bytes tlv_input) 4).
Proof.
  refine (proj1 (proj2 (proj2 (read_tlv_in_bounds tlv_input 4 [170; 187] _ _ _)))).
  - split; [repeat constructor; unfold byte_ok; lia|cbn; lia].
  - reflexivity.
Defined.

(** Object identifiers survive the wire, and the wire cannot make the
    encoder fail.  An identifier with a legal first pair whose sum
    [40 * a + b] fits a [u32] is encoded and decodes to itself; whatever bytes
    [decode_oid] accepts, its result is such an identifier, so encoding it
    again neither errs nor overflows. *)
Theorem oid_roundtrip :
  (forall arcs, oid_ok arcs ->
     exists bytes, encode_oid arcs = Return (Ok bytes) /\ decode_oid bytes = Ok arcs)
  /\ (forall bytes arcs, decode_oid bytes = Ok arcs ->
     exists bytes', encode_oid arcs = Return (Ok bytes') /\ decode_oid bytes' = Ok arcs).
Proof.
  split; [exact oid_codec|]. intros bytes arcs H. apply oid_codec. by eapply decode_oid_ok.
Qed.

(** [sysDescr.0], and the same with a padded first arc. *)
Lemma oid_roundtrip_witness :
  (exists bytes, encode_oid [1; 3; 6; 1; 2; 1; 1; 1; 0] = Return (Ok bytes)
                 /\ decode_oid bytes = Ok [1; 3; 6; 1; 2; 1; 1; 1; 0])
  /\ (exists bytes, encode_oid [1; 3; 6] = Return (Ok bytes) /\ decode_oid bytes = Ok [1; 3; 6]).
Proof.
  split.
  - apply (proj1 oid_roundtrip). unfold oid_ok, umax. split_and!; try lia.
    repeat (apply Forall_cons; split; [unfold u32_ok; lia|]). constructor.
  - apply (proj2 oid_roundtrip [0x80; 43; 6]). reflexivity.
Defined.

(** The checks that are meant to reject what does not fit miss two cases.
    A nine-byte INTEGER [00 b1 ...] with [b1 >= 128] is a number above
    [i64::MAX] and passes [decode_int]'s overflow check: it comes out [2^64]
    too small, a negative number.  And an identifier under [2.*] whose second
    arc is within 80 of [u32::MAX] passes the checks of [encode_oid], whose
    sum then overflows and panics. *)
Theorem missed_overflows :
  (forall b1 r, Forall byte_ok (b1 :: r) -> length r = 7%nat -> 128 <= b1 ->
     2 ^ 63 <= int_value (0 :: b1 :: r)
     /\ decode_int (0 :: b1 :: r) = Ok (int_value (0 :: b1 :: r) - 2 ^ 64)
     /\ int_value (0 :: b1 :: r) - 2 ^ 64 < 0)
  /\ (forall a1 rest, umax 32 - 80 < a1 -> encode_oid (2 :: a1 :: rest) = Panic).
Proof.
  split.
  - intros b1 r Hok Hlen Hb1. pose proof Hok as [Hb Hr]%Forall_cons. unfold byte_ok in Hb.
    assert (int_value (0 :: b1 :: r) = foldl addb b1 r) as E by done.
    assert (b1 * 2 ^ 56 <= foldl addb b1 r < (b1 + 1) * 2 ^ 56) as Hv.
    { change (2 ^ 56) with (256 ^ Z.of_nat 7). rewrite <- Hlen. split; [|by apply foldl_addb_bound; [|lia]].
      apply foldl_addb_lower; [done|lia]. }
    assert (decode_int (0 :: b1 :: r) = Ok (sign_wrap 64 (foldl addb b1 r))) as ->.
    { unfold decode_int. cbn [length]. rewrite Hlen. cbn [Nat.ltb Nat.leb Nat.eqb andb negb Z.eqb].
      rewrite foldl_shift_in; [done|done|]. constructor; [unfold byte_ok; lia|done]. }
    rewrite E. unfold sign_wrap. change (64 - 1) with 63. rewrite Z.mod_small by lia.
    rewrite (proj2 (Z.ltb_ge _ _)) by lia. split_and!; [lia|done|lia].
  - intros a1 rest Ha. unfold encode_oid. cbn [Z.ltb Z.compare Pos.compare Pos.compare_cont andb].
    rewrite (proj2 (Z.ltb_lt _ _)) by lia. done.
Qed.

Lemma missed_overflows_witness :
  int_value [0; 128; 0; 0; 0; 0; 0; 0; 0] = 2 ^ 63
  /\ decode_int [0; 128; 0; 0; 0; 0; 0; 0; 0] = Ok (int_value [0; 128; 0; 0; 0; 0; 0; 0; 0] - 2 ^ 64)
  /\ encode_oid [2; 2 ^ 32 - 80; 1] = Panic.
Proof.
  split; [reflexivity|split].
  - refine (proj1 (proj2 (proj1 missed_overflows 128 [0; 0; 0; 0; 0; 0; 0] _ _ _))).
    + repeat constructor; unfold byte_ok; lia.
    + reflexivity.
    + lia.
  - apply (proj2 missed_overflows). unfold umax. lia.
Defined.
