(* ===== verification/Pdu.v ===== *)
(** * SNMP values, variable bindings and PDUs

    Models [crates/spt-snmp/src/value.rs] and [crates/spt-snmp/src/pdu.rs] over
    the codec of [Ber]: the thirteen value forms with their tags, the
    [SEQUENCE] of a name and a value, and the PDU around a list of bindings.
    An [ObjectIdentifier] is the list of its arcs. *)

From S2P Require Import Prelude Bytes Ber.

(** ** Values *)

Inductive Value :=
| Integer (v : Z)
| OctetString (v : list Z)
| Null
| Oid (o : list Z)
| Counter32 (v : Z)
| Gauge32 (v : Z)
| TimeTicks (v : Z)
| Opaque_ (v : list Z)
| Counter64 (v : Z)
| IpAddress (v : list Z)
| NoSuchObject
| NoSuchInstance
| EndOfMibView.

(** [?] after a call that may also panic. *)
Definition and_then {A B} (m : Outcome (Result BerError A)) (f : A -> Outcome (Result BerError B)) :
    Outcome (Result BerError B) :=
  match m with
  | Panic => Panic
  | Return (Err e) => Return (Err e)
  | Return (Ok a) => f a
  end.

(** [Value::encode]: the buffer after it. *)
Definition Value_encode (v : Value) (enc : list Z) : Outcome (Result BerError (list Z)) :=
  match v with
  | Integer v => Return (Ok (write_i64 enc v))
  | OctetString v => Return (Ok (write_octet_string enc v))
  | Null => Return (Ok (write_null enc))
  | Oid o => write_oid enc o
  | Counter32 v => Return (Ok (write_app_u32 enc TAG_COUNTER32 v))
  | Gauge32 v => Return (Ok (write_app_u32 enc TAG_GAUGE32 v))
  | TimeTicks v => Return (Ok (write_app_u32 enc TAG_TIMETICKS v))
  | Opaque_ v => Return (Ok (write_app_octet_string enc TAG_OPAQUE v))
  | Counter64 v => Return (Ok (write_counter64 enc v))
  | IpAddress v => Return (Ok (write_app_octet_string enc TAG_IP_ADDRESS v))
  | NoSuchObject => Return (Ok (write_tlv enc TAG_NO_SUCH_OBJECT []))
  | NoSuchInstance => Return (Ok (write_tlv enc TAG_NO_SUCH_INSTANCE []))
  | EndOfMibView => Return (Ok (write_tlv enc TAG_END_OF_MIB []))
  end.

(** [value.rs] has integer readers of its own. *)
Definition decode_i64 (body : list Z) : Result BerError Z :=
  match body with
  | [] => Err (BerDecode EmptyInteger)
  | b0 :: _ => Ok (foldl shift_in (if negb (Z.land b0 0x80 =? 0) then -1 else 0) body)
  end.

Definition value_decode_uint (body : list Z) : Result BerError Z :=
  match body with
  | [] => Err (BerDecode EmptyInteger)
  | b0 :: r =>
      if (9 <? length body)%nat then Err (BerDecode IntegerTooLarge)
      else if (length body =? 9)%nat && negb (b0 =? 0) then Err (BerDecode IntegerTooLarge)
      else Ok (foldl (shift_in_u 64) 0 (if (length body =? 9)%nat then r else body))
  end.

Definition decode_u32_app (body : list Z) : Result BerError Z :=
  v ← value_decode_uint body;
  if umax 32 <? v then Err (BerDecode OutOfRange) else Ok v.

Definition decode_u64_app (body : list Z) : Result BerError Z := value_decode_uint body.

(** The [match tag] of [Value::decode]. *)
Definition value_of_tlv (tag : Z) (body : list Z) : Result BerError Value :=
  if tag =? TAG_INTEGER then v ← decode_i64 body; Ok (Integer v)
  else if tag =? TAG_OCTET_STRING then Ok (OctetString body)
  else if tag =? TAG_NULL then
    match body with [] => Ok Null | _ => Err (BerDecode NonEmptyNull) end
  else if tag =? TAG_OID then o ← decode_oid body; Ok (Oid o)
  else if tag =? TAG_COUNTER32 then v ← decode_u32_app body; Ok (Counter32 v)
  else if tag =? TAG_GAUGE32 then v ← decode_u32_app body; Ok (Gauge32 v)
  else if tag =? TAG_TIMETICKS then v ← decode_u32_app body; Ok (TimeTicks v)
  else if tag =? TAG_OPAQUE then Ok (Opaque_ body)
  else if tag =? TAG_COUNTER64 then v ← decode_u64_app body; Ok (Counter64 v)
  else if tag =? TAG_IP_ADDRESS then
    if (length body =? 4)%nat then Ok (IpAddress body) else Err (BerDecode IpAddressLength)
  else if tag =? TAG_NO_SUCH_OBJECT then Ok NoSuchObject
  else if tag =? TAG_NO_SUCH_INSTANCE then Ok NoSuchInstance
  else if tag =? TAG_END_OF_MIB then Ok EndOfMibView
  else Err (BerDecode (UnknownValueTag tag)).

Definition Value_decode (dec : Decoder) : Result BerError (Value * Decoder) :=
  '(tag, body, dec') ← read_tlv dec;
  v ← value_of_tlv tag body;
  Ok (v, dec').

(** ** Variable bindings *)

Record VarBind := mkVarBind { vb_name : list Z; vb_value : Value }.

Definition VarBind_encode (vb : VarBind) (enc : list Z) : Outcome (Result BerError (list Z)) :=
  and_then (write_oid [] (vb_name vb)) (fun inner =>
  and_then (Value_encode (vb_value vb) inner) (fun inner =>
  Return (Ok (write_tlv enc TAG_SEQUENCE inner)))).

(** What follows the value in the sequence is dropped with its decoder. *)
Definition VarBind_decode (dec : Decoder) : Result BerError (VarBind * Decoder) :=
  '(seq, dec') ← read_sequence dec;
  '(name, seq) ← read_oid seq;
  '(value, _) ← Value_decode seq;
  Ok (mkVarBind name value, dec').

(** ** PDUs *)

Inductive PduKind :=
| GetRequest | GetNextRequest | Response | SetRequest | GetBulkRequest | InformRequest | SnmpV2Trap | Report.

Definition pdu_tag (k : PduKind) : Z :=
  match k with
  | GetRequest => TAG_GET_REQUEST
  | GetNextRequest => TAG_GET_NEXT_REQUEST
  | Response => TAG_RESPONSE
  | SetRequest => TAG_SET_REQUEST
  | GetBulkRequest => TAG_GET_BULK_REQUEST
  | InformRequest => TAG_INFORM_REQUEST
  | SnmpV2Trap => TAG_SNMPV2_TRAP
  | Report => TAG_REPORT
  end.

Definition from_tag (tag : Z) : Result BerError PduKind :=
  if tag =? TAG_GET_REQUEST then Ok GetRequest
  else if tag =? TAG_GET_NEXT_REQUEST then Ok GetNextRequest
  else if tag =? TAG_RESPONSE then Ok Response
  else if tag =? TAG_SET_REQUEST then Ok SetRequest
  else if tag =? TAG_GET_BULK_REQUEST then Ok GetBulkRequest
  else if tag =? TAG_INFORM_REQUEST then Ok InformRequest
  else if tag =? TAG_SNMPV2_TRAP then Ok SnmpV2Trap
  else if tag =? TAG_REPORT then Ok Report
  else Err (UnknownPduTag tag).

Record Pdu := mkPdu {
  kind : PduKind;
  request_id : Z;
  error_status : Z;
  error_index : Z;
  variable_bindings : list VarBind
}.

(** The loop over the bindings. *)
Fixpoint encode_bindings (vbs : list VarBind) (enc : list Z) : Outcome (Result BerError (list Z)) :=
  match vbs with
  | [] => Return (Ok enc)
  | vb :: r => and_then (VarBind_encode vb enc) (encode_bindings r)
  end.

Definition Pdu_encode (p : Pdu) (enc : list Z) : Outcome (Result BerError (list Z)) :=
  let body := write_i64 (write_i64 (write_i64 [] (request_id p)) (error_status p)) (error_index p) in
  and_then (encode_bindings (variable_bindings p) []) (fun vbs =>
  Return (Ok (write_tlv enc (pdu_tag (kind p)) (write_tlv body TAG_SEQUENCE vbs)))).

(** [i32::try_from]. *)
Definition i32_try_from (v : Z) : Result BerError Z :=
  if (- 2 ^ 31 <=? v) && (v <? 2 ^ 31) then Ok v else Err FieldOverflow.

(** [while !vbs.is_empty()]; a binding takes two bytes at least, so as many
    rounds as bytes are enough. *)
Fixpoint decode_bindings (fuel : nat) (d : Decoder) : Result BerError (list VarBind) :=
  if dec_is_empty d then Ok []
  else
    match fuel with
    | O => Err (BerDecode Truncated)
    | S fuel' =>
        '(vb, d') ← VarBind_decode d;
        vbs ← decode_bindings fuel' d';
        Ok (vb :: vbs)
    end.

Definition Pdu_decode (dec : Decoder) : Result BerError (Pdu * Decoder) :=
  '(tag, body, dec') ← read_tlv dec;
  k ← from_tag tag;
  '(n, bd) ← read_i64 (Decoder_new body);
  request_id ← i32_try_from n;
  '(n, bd) ← read_i64 bd;
  error_status ← i32_try_from n;
  '(n, bd) ← read_i64 bd;
  error_index ← i32_try_from n;
  '(vbs, _) ← read_sequence bd;
  bindings ← decode_bindings (length (dec_bytes vbs)) vbs;
  Ok (mkPdu k request_id error_status error_index bindings, dec').

(** ** What the types hold *)

Definition i64_ok (v : Z) : Prop := - 2 ^ 63 <= v < 2 ^ 63.

Definition value_ok (v : Value) : Prop :=
  match v with
  | Integer v => i64_ok v
  | Oid o => oid_ok o
  | Counter32 v | Gauge32 v | TimeTicks v => u32_ok v
  | Counter64 v => 0 <= v < 2 ^ 64
  | IpAddress v => length v = 4%nat
  | _ => True
  end.

Definition varbind_ok (vb : VarBind) : Prop := oid_ok (vb_name vb) /\ value_ok (vb_value vb).

Definition i32_ok (v : Z) : Prop := - 2 ^ 31 <= v < 2 ^ 31.

Definition pdu_ok (p : Pdu) : Prop :=
  i32_ok (request_id p) /\ i32_ok (error_status p) /\ i32_ok (error_index p)
  /\ Forall varbind_ok (variable_bindings p).

(** ** Lemmas *)

Lemma decode_i64_value l :
  Forall byte_ok l -> l <> [] -> decode_i64 l = Ok (sign_wrap 64 (int_value l)).
Proof.
  intros Hl Hne. destruct l as [|b0 r]; [done|]. unfold decode_i64.
  rewrite byte_high, foldl_shift_in by (done || by inversion Hl). unfold int_value. by destruct (b0 <? 128).
Qed.

Lemma decode_i64_encode v : i64_ok v -> decode_i64 (encode_int v) = Ok v.
Proof.
  intros Hv. destruct (encode_int_spec v Hv) as (E & Hok & Hlen & _).
  rewrite decode_i64_value, E, sign_wrap_id; [done|exact Hv|done|]. intros Hn. rewrite Hn in Hlen. cbn in Hlen. lia.
Qed.

Lemma value_uint_same body : value_decode_uint body = decode_uint body.
Proof. done. Qed.

Lemma decode_uint_encode v : 0 <= v < 2 ^ 64 -> value_decode_uint (encode_uint v) = Ok v.
Proof. intros Hv. rewrite value_uint_same. by destruct (encode_uint_spec v Hv). Qed.

Lemma decode_u32_app_encode v : u32_ok v -> decode_u32_app (encode_uint v) = Ok v.
Proof.
  unfold u32_ok. intros Hv. unfold decode_u32_app. rewrite decode_uint_encode by lia.
  unfold mbind, result_bind, umax. by rewrite (proj2 (Z.ltb_ge _ _)) by lia.
Qed.

(** A TLV that a write appends and that stands for [v]. *)
Definition value_codec (v : Value) (tag : Z) (body : list Z) : Prop :=
  (forall enc, Value_encode v enc = Return (Ok (enc ++ tlv tag body))) /\ value_of_tlv tag body = Ok v.

Lemma value_codec_exists v : value_ok v -> exists tag body, value_codec v tag body.
Proof.
  unfold value_codec.
  destruct v as [v|v| |o|v|v|v|v|v|v| | |]; cbn [value_ok]; intros Hv;
    try (do 2 eexists; split; [intros enc; reflexivity|]).
  - unfold value_of_tlv. cbn [Z.eqb Pos.eqb TAG_INTEGER]. by rewrite decode_i64_encode.
  - done.
  - done.
  - destruct (oid_codec o Hv) as (bytes & He & Hd). exists TAG_OID, bytes. split.
    + intros enc. unfold Value_encode, write_oid. by rewrite He.
    + unfold value_of_tlv. cbn. by rewrite Hd.
  - unfold value_of_tlv. cbn. by rewrite decode_u32_app_encode.
  - unfold value_of_tlv. cbn. by rewrite decode_u32_app_encode.
  - unfold value_of_tlv. cbn. by rewrite decode_u32_app_encode.
  - done.
  - unfold value_of_tlv. cbn. unfold decode_u64_app. by rewrite decode_uint_encode.
  - unfold value_of_tlv. cbn. by rewrite Hv.
  - done.
  - done.
  - done.
Qed.

(** What fits the address space. *)
Definition fits (bytes : list Z) : Prop := Z.of_nat (length bytes) <= umax 64.

Lemma tlv_longer tag value : (length value + 2 <= length (tlv tag value))%nat.
Proof.
  unfold tlv, write_tlv. cbn. rewrite length_app. unfold write_length.
  destruct (_ <? _); cbn; lia.
Qed.

Lemma fits_inner pre tag value rest : fits (pre ++ tlv tag value ++ rest) -> fits value.
Proof. unfold fits. pose proof (tlv_longer tag value). rewrite !length_app. lia. Qed.

(** The reads of [Ber] on what its writes appended, as rewrite rules. *)
Lemma read_sequence_at value pre rest :
  fits (pre ++ tlv TAG_SEQUENCE value ++ rest) ->
  read_sequence (decoder_at pre (tlv TAG_SEQUENCE value ++ rest))
  = Ok (decoder_at [] value, decoder_at (pre ++ tlv TAG_SEQUENCE value) rest).
Proof. intros Hf. unfold read_sequence. by rewrite read_expected_at. Qed.

Lemma read_i64_at v pre rest :
  i64_ok v -> fits (pre ++ tlv TAG_INTEGER (encode_int v) ++ rest) ->
  read_i64 (decoder_at pre (tlv TAG_INTEGER (encode_int v) ++ rest))
  = Ok (v, decoder_at (pre ++ tlv TAG_INTEGER (encode_int v)) rest).
Proof.
  intros Hv Hf. unfold read_i64. rewrite read_expected_at by done. unfold mbind, result_bind.
  by rewrite decode_encode_int.
Qed.

Lemma Value_decode_at v tag body pre rest :
  value_codec v tag body -> fits (pre ++ tlv tag body ++ rest) ->
  Value_decode (decoder_at pre (tlv tag body ++ rest)) = Ok (v, decoder_at (pre ++ tlv tag body) rest).
Proof.
  intros [_ Hd] Hf. unfold Value_decode. rewrite read_tlv_at by done. unfold mbind, result_bind. by rewrite Hd.
Qed.

Lemma varbind_codec vb :
  varbind_ok vb ->
  exists inner, (forall enc, VarBind_encode vb enc = Return (Ok (enc ++ tlv TAG_SEQUENCE inner)))
  /\ forall pre rest, fits (pre ++ tlv TAG_SEQUENCE inner ++ rest) ->
       VarBind_decode (decoder_at pre (tlv TAG_SEQUENCE inner ++ rest))
       = Ok (vb, decoder_at (pre ++ tlv TAG_SEQUENCE inner) rest).
Proof.
  destruct vb as [name value]. intros [Hn Hv]. cbn [vb_name vb_value] in *.
  destruct (oid_codec name Hn) as (nb & He & Hd). destruct (value_codec_exists value Hv) as (tag & body & Hc).
  exists (tlv TAG_OID nb ++ tlv tag body). split.
  - intros enc. unfold VarBind_encode, write_oid. cbn [vb_name vb_value]. rewrite He. cbn [outcome_map mbind result_bind and_then].
    rewrite (proj1 Hc). done.
  - intros pre rest Hf. unfold VarBind_decode. rewrite read_sequence_at by done.
    apply fits_inner in Hf. unfold mbind, result_bind at 1. unfold read_oid.
    rewrite (read_expected_at TAG_OID nb [] (tlv tag body)) by done. unfold mbind, result_bind. rewrite Hd. cbn [app].
    rewrite <- (app_nil_r (tlv tag body)) at 1.
    by rewrite (Value_decode_at value) by (rewrite ?app_nil_r; done).
Qed.

Lemma is_empty_at pre rest : dec_is_empty (decoder_at pre rest) = (length rest =? 0)%nat.
Proof.
  unfold dec_is_empty, decoder_at. cbn [dec_bytes dec_pos]. rewrite length_app.
  destruct (Nat.eqb_spec (length rest) 0); [apply Z.leb_le|apply Z.leb_gt]; lia.
Qed.

Lemma bindings_codec vbs :
  Forall varbind_ok vbs ->
  exists bytes, (forall enc, encode_bindings vbs enc = Return (Ok (enc ++ bytes)))
  /\ forall pre fuel, fits (pre ++ bytes) -> (length bytes <= fuel)%nat ->
       decode_bindings fuel (decoder_at pre bytes) = Ok vbs.
Proof.
  induction 1 as [|vb vbs Hvb Hvbs (bytes & IHe & IHd)].
  - exists []. split; [intros enc; cbn; by rewrite app_nil_r|]. intros pre fuel _ _.
    destruct fuel; cbn [decode_bindings]; by rewrite is_empty_at.
  - destruct (varbind_codec vb Hvb) as (inner & He & Hd). exists (tlv TAG_SEQUENCE inner ++ bytes). split.
    + intros enc. cbn [encode_bindings]. rewrite He. cbn [and_then]. by rewrite IHe, <- app_assoc.
    + intros pre fuel Hf Hlen. rewrite length_app in Hlen. pose proof (tlv_longer TAG_SEQUENCE inner).
      destruct fuel as [|fuel]; [lia|]. cbn [decode_bindings]. rewrite is_empty_at, length_app.
      rewrite (proj2 (Nat.eqb_neq _ _)) by lia. rewrite Hd by done. unfold mbind, result_bind.
      by rewrite IHd by (rewrite <- ?app_assoc; done || lia).
Qed.

Lemma from_tag_tag k : from_tag (pdu_tag k) = Ok k.
Proof. by destruct k. Qed.

Lemma i32_try_from_ok v : i32_ok v -> i32_try_from v = Ok v.
Proof.
  unfold i32_ok, i32_try_from. intros Hv.
  by rewrite (proj2 (Z.leb_le _ _)), (proj2 (Z.ltb_lt _ _)) by lia.
Qed.

Lemma i32_i64 v : i32_ok v -> i64_ok v.
Proof. unfold i32_ok, i64_ok. lia. Qed.

(** ** Lemmas: the loop over the bindings *)

Lemma read_expected_ok d tag v d' :
  decoder_ok d -> read_expected d tag = Ok (v, d') -> decoder_ok d' /\ remaining d' < remaining d.
Proof.
  intros Hd. unfold read_expected. destruct (read_tlv d) as [[[t w] d1]|e] eqn:E; [|done].
  destruct (read_tlv_ok _ _ _ _ Hd E) as (Hd1 & Hb & Hp & _). unfold mbind, result_bind.
  destruct (t =? tag); [|done]. intros [= <- <-]. split; [done|]. unfold remaining, sat_sub, decoder_ok in *.
  rewrite Hb in *. lia.
Qed.

Lemma VarBind_decode_ok d vb d' :
  decoder_ok d -> VarBind_decode d = Ok (vb, d') -> decoder_ok d' /\ remaining d' < remaining d.
Proof.
  intros Hd. unfold VarBind_decode, read_sequence. destruct (read_expected d TAG_SEQUENCE) as [[v d1]|e] eqn:E; [|done].
  unfold mbind, result_bind. destruct (read_oid _) as [[n s]|e]; [|done]. destruct (Value_decode s) as [[w s']|e]; [|done].
  intros [= <- <-]. by eapply read_expected_ok.
Qed.

(** ** Properties *)

(** A PDU survives the wire.  Every PDU whose fields are in their types'
    range and whose names are legal identifiers is encoded without an error
    or a panic, and wherever the encoding stands in a buffer that fits the
    address space, [Pdu::decode] returns the same PDU, with every binding in
    its order and of its own type, and leaves the decoder on the byte after
    it. *)
Lemma pdu_codec p :
  pdu_ok p ->
  exists bytes, (forall enc, Pdu_encode p enc = Return (Ok (enc ++ bytes)))
  /\ forall pre rest, fits (pre ++ bytes ++ rest) ->
       Pdu_decode (decoder_at pre (bytes ++ rest)) = Ok (p, decoder_at (pre ++ bytes) rest).
Proof.
  destruct p as [k rid es ei vbs]. intros (Hr & Hs & Hi & Hv). cbn [request_id error_status error_index variable_bindings] in *.
  destruct (bindings_codec vbs Hv) as (vb & He & Hd).
  set (b1 := tlv TAG_INTEGER (encode_int rid)). set (b2 := tlv TAG_INTEGER (encode_int es)).
  set (b3 := tlv TAG_INTEGER (encode_int ei)). set (b4 := tlv TAG_SEQUENCE vb).
  exists (tlv (pdu_tag k) (b1 ++ b2 ++ b3 ++ b4)). split.
  - intros enc. unfold Pdu_encode. cbn [variable_bindings request_id error_status error_index kind]. rewrite He. cbn [and_then].
    unfold write_i64. rewrite !write_tlv_app. cbn [app]. fold b1 b2 b3 b4. by rewrite <- !app_assoc.
  - intros pre rest Hf. unfold Pdu_decode. rewrite read_tlv_at by done. apply fits_inner in Hf.
    unfold mbind, result_bind. rewrite from_tag_tag.
    change (Decoder_new (b1 ++ b2 ++ b3 ++ b4)) with (decoder_at [] (b1 ++ b2 ++ b3 ++ b4)).
    pose proof (read_i64_at rid [] (b2 ++ b3 ++ b4) (i32_i64 _ Hr) Hf) as R1.
    pose proof (read_i64_at es b1 (b3 ++ b4) (i32_i64 _ Hs) Hf) as R2.
    assert (fits ((b1 ++ b2) ++ b3 ++ b4)) as Hf3 by (by rewrite <- app_assoc).
    pose proof (read_i64_at ei (b1 ++ b2) b4 (i32_i64 _ Hi) Hf3) as R3.
    assert (fits (((b1 ++ b2) ++ b3) ++ b4 ++ [])) as Hf4 by (by rewrite app_nil_r, <- !app_assoc).
    pose proof (read_sequence_at vb ((b1 ++ b2) ++ b3) [] Hf4) as R4.
    fold b1 in R1. fold b2 in R2. fold b3 in R3. fold b4 in R4. rewrite app_nil_r in R4.
    rewrite R1, (i32_try_from_ok rid Hr). cbn [app]. rewrite R2, (i32_try_from_ok es Hs), R3, (i32_try_from_ok ei Hi), R4.
    apply fits_inner in Hf4. by rewrite Hd.
Qed.

(** Two varbinds of a response. *)
Definition demo_pdu : Pdu :=
  mkPdu Response 12345 0 0
    [mkVarBind [1; 3; 6; 1; 2; 1; 1; 3; 0] (TimeTicks 99999);
     mkVarBind [1; 3; 6; 1; 2; 1; 1; 5; 0] (OctetString [104; 105])].

Lemma demo_pdu_ok : pdu_ok demo_pdu.
Proof.
  unfold demo_pdu, pdu_ok, i32_ok. cbn [request_id error_status error_index variable_bindings].
  repeat match goal with
  | |- Forall _ [] => constructor
  | |- Forall _ (_ :: _) => apply Forall_cons
  | |- varbind_ok _ => unfold varbind_ok; cbn [vb_name vb_value value_ok]; unfold oid_ok, umax
  | |- u32_ok _ => unfold u32_ok
  | |- True => exact I
  | |- _ /\ _ => split
  | |- _ => lia
  end.
Defined.

(** The loop over the variable bindings ends.  Each binding it takes moves
    the decoder forward, so the number of bytes left bounds its rounds on any
    input: two bounds that cover the bytes left give the same result, in
    particular the one [Pdu_decode] uses. *)
Theorem bindings_loop_ends fuel fuel' d :
  decoder_ok d -> remaining d <= Z.of_nat fuel -> remaining d <= Z.of_nat fuel' ->
  decode_bindings fuel d = decode_bindings fuel' d.
Proof.
  revert fuel' d. induction fuel as [|fuel IH]; intros fuel' d Hd Hf Hf'.
  - assert (dec_is_empty d = true) as He.
    { apply Z.leb_le. unfold remaining, sat_sub in Hf. lia. }
    destruct fuel'; cbn [decode_bindings]; by rewrite He.
  - destruct (dec_is_empty d) eqn:He; [destruct fuel'; cbn [decode_bindings]; by rewrite He|].
    apply Z.leb_gt in He as He'. destruct fuel' as [|fuel']; [unfold remaining, sat_sub in Hf'; lia|].
    cbn [decode_bindings]. rewrite He. destruct (VarBind_decode d) as [[vb d']|e] eqn:E; [|done].
    destruct (VarBind_decode_ok _ _ _ Hd E) as [Hd' Hlt]. unfold mbind, result_bind.
    by rewrite (IH fuel' d') by (done || lia).
Qed.

(** A truncated binding, with the bound of the code and a larger one. *)
Lemma bindings_loop_ends_witness :
  decode_bindings 3 (Decoder_new [48; 5; 6]) = decode_bindings 9 (Decoder_new [48; 5; 6]).
Proof.
  apply (bindings_loop_ends 3 9 (Decoder_new [48; 5; 6])).
  - split; [repeat constructor; unfold byte_ok; lia|cbn; lia].
  - vm_compute. discriminate.
  - vm_compute. discriminate.
Defined.

(** The INTEGER of a binding is read without a width check.  Whatever its
    length, [Value::decode] returns the low 64 bits of the number, in two's
    complement; past nine bytes the codec's own [decode_int] rejects the same
    body as too large. *)
Theorem varbind_integer_truncates body :
  Forall byte_ok body -> body <> [] ->
  value_of_tlv TAG_INTEGER body = Ok (Integer (sign_wrap 64 (int_value body)))
  /\ ((9 < length body)%nat -> decode_int body = Err (BerDecode IntegerTooLarge)).
Proof.
  intros Hb Hne. split.
  - unfold value_of_tlv. rewrite Z.eqb_refl. by rewrite decode_i64_value.
  - intros Hl. destruct body; [done|]. unfold decode_int. by rewrite (proj2 (Nat.ltb_lt _ _)) by lia.
Qed.

(** [2^72 + 7] is read as 7. *)
Lemma varbind_integer_truncates_witness :
  value_of_tlv TAG_INTEGER [1; 0; 0; 0; 0; 0; 0; 0; 0; 7] = Ok (Integer 7)
  /\ decode_int [1; 0; 0; 0; 0; 0; 0; 0; 0; 7] = Err (BerDecode IntegerTooLarge).
Proof.
  destruct (varbind_integer_truncates [1; 0; 0; 0; 0; 0; 0; 0; 0; 7]) as [H1 H2].
  - repeat constructor; unfold byte_ok; lia.
  - discriminate.
  - split; [exact H1|apply H2; cbn; lia].
Defined.
