(* ===== verification/Message.v ===== *)
(** * SNMPv3 messages

    Models [crates/spt-snmp/src/message.rs]: the header, the security
    parameters, the scoped PDU and the envelope, over the codec of [Ber] and
    [Pdu].  Byte strings are lists of bytes. *)

From S2P Require Import Prelude Bytes Ber Pdu.

Definition SNMP_VERSION_3 : Z := 3.
Definition SECURITY_MODEL_USM : Z := 3.
Definition FLAG_AUTH : Z := 1.
Definition FLAG_PRIV : Z := 2.
Definition FLAG_REPORTABLE : Z := 4.

Record GlobalData := mkGlobal {
  msg_id : Z;
  msg_max_size : Z;
  msg_flags : Z;
  msg_security_model : Z
}.

Definition auth_bit (g : GlobalData) : bool := negb (Z.land (msg_flags g) FLAG_AUTH =? 0).
Definition priv_bit (g : GlobalData) : bool := negb (Z.land (msg_flags g) FLAG_PRIV =? 0).
Definition reportable_bit (g : GlobalData) : bool := negb (Z.land (msg_flags g) FLAG_REPORTABLE =? 0).

(** ** Security parameters *)

Record SecurityParameters := mkSecurity {
  sec_engine_id : list Z;
  sec_engine_boots : Z;
  sec_engine_time : Z;
  sec_user_name : list Z;
  sec_auth_params : list Z;
  sec_priv_params : list Z
}.

Definition sec_encode_inner (s : SecurityParameters) (enc : list Z) : list Z :=
  write_sequence enc (fun inner =>
    let inner := write_octet_string inner (sec_engine_id s) in
    let inner := write_u32 inner (sec_engine_boots s) in
    let inner := write_u32 inner (sec_engine_time s) in
    let inner := write_octet_string inner (sec_user_name s) in
    let inner := write_octet_string inner (sec_auth_params s) in
    write_octet_string inner (sec_priv_params s)).

Definition to_inner_bytes (s : SecurityParameters) : list Z := sec_encode_inner s [].

Definition sec_decode_inner (bytes : list Z) : Result BerError SecurityParameters :=
  '(s, _) ← read_sequence (Decoder_new bytes);
  '(engine_id, s) ← read_octet_string s;
  '(engine_boots, s) ← read_u32 s;
  '(engine_time, s) ← read_u32 s;
  '(user_name, s) ← read_octet_string s;
  '(auth_params, s) ← read_octet_string s;
  '(priv_params, _) ← read_octet_string s;
  Ok (mkSecurity engine_id engine_boots engine_time user_name auth_params priv_params).

(** ** Scoped PDUs *)

Record ScopedPdu := mkScoped {
  context_engine_id : list Z;
  context_name : list Z;
  scoped_pdu : Pdu
}.

Definition scoped_to_bytes (p : ScopedPdu) : Outcome (Result BerError (list Z)) :=
  let inner := write_octet_string [] (context_engine_id p) in
  let inner := write_octet_string inner (context_name p) in
  and_then (Pdu_encode (scoped_pdu p) inner) (fun inner =>
  Return (Ok (write_tlv [] TAG_SEQUENCE inner))).

Definition scoped_from_bytes (bytes : list Z) : Result BerError ScopedPdu :=
  '(s, _) ← read_sequence (Decoder_new bytes);
  '(context_engine_id, s) ← read_octet_string s;
  '(context_name, s) ← read_octet_string s;
  '(pdu, _) ← Pdu_decode s;
  Ok (mkScoped context_engine_id context_name pdu).

(** ** The envelope *)

Inductive MessageData :=
| Plain (b : list Z)
| Encrypted (b : list Z).

Record Message := mkMessage {
  global : GlobalData;
  security : SecurityParameters;
  data : MessageData
}.

(** [Message::to_bytes], which never fails. *)
Definition message_to_bytes (m : Message) : list Z :=
  write_sequence [] (fun e =>
    let e := write_i64 e SNMP_VERSION_3 in
    let e := write_sequence e (fun g =>
      let g := write_i64 g (msg_id (global m)) in
      let g := write_i64 g (msg_max_size (global m)) in
      let g := write_octet_string g [msg_flags (global m)] in
      write_i64 g (msg_security_model (global m))) in
    let e := write_octet_string e (to_inner_bytes (security m)) in
    match data m with
    | Plain b => write_raw e b
    | Encrypted b => write_octet_string e b
    end).

Definition message_from_bytes (bytes : list Z) : Result BerError Message :=
  '(outer, _) ← read_sequence (Decoder_new bytes);
  '(v, outer) ← read_i64 outer;
  version ← i32_try_from v;
  if negb (version =? SNMP_VERSION_3) then Err (UnsupportedVersion version)
  else
    '(g, outer) ← read_sequence outer;
    '(v, g) ← read_i64 g;
    msg_id ← i32_try_from v;
    '(v, g) ← read_i64 g;
    msg_max_size ← i32_try_from v;
    '(flags_bytes, g) ← read_octet_string g;
    match flags_bytes with
    | [msg_flags] =>
        '(v, _) ← read_i64 g;
        msg_security_model ← i32_try_from v;
        '(sec_outer, outer) ← read_octet_string outer;
        security ← sec_decode_inner sec_outer;
        let priv_bit := negb (Z.land msg_flags FLAG_PRIV =? 0) in
        '(tag, body, _) ← read_tlv outer;
        data ← (if priv_bit then
                  if negb (tag =? TAG_OCTET_STRING) then Err (WrongDataTag tag) else Ok (Encrypted body)
                else
                  if negb (tag =? TAG_SEQUENCE) then Err (WrongDataTag tag)
                  else Ok (Plain (write_tlv [] TAG_SEQUENCE body)));
        Ok (mkMessage (mkGlobal msg_id msg_max_size msg_flags msg_security_model) security data)
    | _ => Err (FlagsLength (Z.of_nat (length flags_bytes)))
    end.

(** ** Well-formed messages *)

Definition global_ok (g : GlobalData) : Prop :=
  i32_ok (msg_id g) /\ i32_ok (msg_max_size g) /\ byte_ok (msg_flags g) /\ i32_ok (msg_security_model g).

Definition security_ok (s : SecurityParameters) : Prop := u32_ok (sec_engine_boots s) /\ u32_ok (sec_engine_time s).

(** The data agrees with the privacy flag, and plain data is one encoded
    sequence. *)
Definition data_ok (g : GlobalData) (d : MessageData) : Prop :=
  match d with
  | Plain b => priv_bit g = false /\ exists body, b = tlv TAG_SEQUENCE body
  | Encrypted _ => priv_bit g = true
  end.

(** ** Lemmas *)

Ltac fits :=
  unfold fits in *;
  repeat match goal with H : context [length (_ ++ _)] |- _ => rewrite length_app in H end;
  rewrite ?length_app; cbn [length]; lia.

Lemma read_octet_string_at v pre rest :
  fits (pre ++ tlv TAG_OCTET_STRING v ++ rest) ->
  read_octet_string (decoder_at pre (tlv TAG_OCTET_STRING v ++ rest))
  = Ok (v, decoder_at (pre ++ tlv TAG_OCTET_STRING v) rest).
Proof. intros Hf. unfold read_octet_string. by rewrite read_expected_at. Qed.

Lemma read_u32_at v pre rest :
  u32_ok v -> fits (pre ++ tlv TAG_INTEGER (encode_int v) ++ rest) ->
  read_u32 (decoder_at pre (tlv TAG_INTEGER (encode_int v) ++ rest))
  = Ok (v, decoder_at (pre ++ tlv TAG_INTEGER (encode_int v)) rest).
Proof.
  unfold u32_ok. intros Hv Hf. unfold read_u32. rewrite read_i64_at by (done || unfold i64_ok; lia).
  unfold mbind, result_bind, umax. by rewrite (proj2 (Z.leb_le 0 v)), (proj2 (Z.leb_le v (2 ^ 32 - 1))) by lia.
Qed.

(** The reads in a row: each rewrite consumes one encoded field. *)
Ltac read_field :=
  first [ rewrite read_octet_string_at by fits
        | rewrite read_u32_at by (assumption || fits)
        | rewrite read_i64_at by (assumption || (by apply i32_i64) || fits)
        | rewrite read_sequence_at by fits
        | rewrite i32_try_from_ok by assumption ];
  cbn [mbind result_bind].

Lemma decoder_new_at bytes : Decoder_new bytes = decoder_at [] bytes.
Proof. done. Qed.

Lemma sec_codec s : security_ok s -> fits (to_inner_bytes s) -> sec_decode_inner (to_inner_bytes s) = Ok s.
Proof.
  destruct s as [eid eb et un ap pp]. intros [Hb Ht]. cbn [sec_engine_boots sec_engine_time] in *.
  unfold to_inner_bytes, sec_encode_inner, write_sequence, write_u32, write_i64, write_octet_string.
  cbn [sec_engine_id sec_engine_boots sec_engine_time sec_user_name sec_auth_params sec_priv_params].
  rewrite !write_tlv_app, <- !app_assoc. cbn [app]. intros Hf. unfold sec_decode_inner. rewrite decoder_new_at.
  rewrite <- (app_nil_r (tlv TAG_SEQUENCE _)) in Hf |- *. read_field. apply (fits_inner []) in Hf.
  rewrite <- (app_nil_r (tlv TAG_OCTET_STRING pp)) in Hf |- *. by do 6 read_field.
Qed.

Lemma scoped_codec p :
  pdu_ok (scoped_pdu p) ->
  exists body, scoped_to_bytes p = Return (Ok (tlv TAG_SEQUENCE body))
  /\ (fits (tlv TAG_SEQUENCE body) -> scoped_from_bytes (tlv TAG_SEQUENCE body) = Ok p).
Proof.
  destruct p as [eid name pdu]. cbn [scoped_pdu]. intros Hp. destruct (pdu_codec pdu Hp) as (bytes & He & Hd).
  exists (tlv TAG_OCTET_STRING eid ++ tlv TAG_OCTET_STRING name ++ bytes). split.
  - unfold scoped_to_bytes, write_octet_string. cbn [context_engine_id context_name scoped_pdu].
    rewrite He, !write_tlv_app. cbn [and_then app]. by rewrite <- app_assoc.
  - intros Hf. unfold scoped_from_bytes. rewrite decoder_new_at. rewrite <- (app_nil_r (tlv TAG_SEQUENCE _)) in Hf |- *.
    read_field. apply (fits_inner []) in Hf. rewrite <- (app_nil_r bytes) in Hf |- *. do 2 read_field.
    by rewrite Hd by fits.
Qed.

(** The tag and the body of the data field. *)
Definition data_tlv (d : MessageData) : list Z :=
  match d with Plain b => b | Encrypted b => tlv TAG_OCTET_STRING b end.

Definition global_tlv (g : GlobalData) : list Z :=
  tlv TAG_SEQUENCE (tlv TAG_INTEGER (encode_int (msg_id g)) ++ tlv TAG_INTEGER (encode_int (msg_max_size g))
    ++ tlv TAG_OCTET_STRING [msg_flags g] ++ tlv TAG_INTEGER (encode_int (msg_security_model g))).

Lemma message_to_bytes_eq m :
  message_to_bytes m = tlv TAG_SEQUENCE (tlv TAG_INTEGER (encode_int SNMP_VERSION_3) ++ global_tlv (global m)
    ++ tlv TAG_OCTET_STRING (to_inner_bytes (security m)) ++ data_tlv (data m)).
Proof.
  unfold message_to_bytes, write_sequence, write_i64, write_octet_string, write_raw, global_tlv.
  destruct (data m); cbn [data_tlv]; rewrite !write_tlv_app, <- !app_assoc; done.
Qed.

(** The data field is one encoded element, read back as the data. *)
Lemma data_field g d :
  data_ok g d ->
  exists tag body, data_tlv d = tlv tag body
  /\ (if priv_bit g then
        if negb (tag =? TAG_OCTET_STRING) then Err (WrongDataTag tag) else Ok (Encrypted body)
      else
        if negb (tag =? TAG_SEQUENCE) then Err (WrongDataTag tag)
        else Ok (Plain (write_tlv [] TAG_SEQUENCE body))) = Ok (E := BerError) d.
Proof.
  destruct d as [b|b]; cbn [data_ok data_tlv].
  - intros (Hp & body & ->). exists TAG_SEQUENCE, body. by rewrite Hp.
  - intros Hp. exists TAG_OCTET_STRING, b. by rewrite Hp.
Qed.

Lemma message_codec m rest :
  global_ok (global m) -> security_ok (security m) -> data_ok (global m) (data m) ->
  fits (message_to_bytes m ++ rest) -> message_from_bytes (message_to_bytes m ++ rest) = Ok m.
Proof.
  destruct m as [g s d]. cbn [global security data]. intros Hg Hs Hd. destruct (data_field g d Hd) as (tag & body & Eb & Ed).
  rewrite message_to_bytes_eq. cbn [global security data]. rewrite Eb. intros Hf.
  unfold message_from_bytes. rewrite decoder_new_at. read_field. apply (fits_inner []) in Hf.
  assert (i32_ok SNMP_VERSION_3) as Hv by (unfold i32_ok, SNMP_VERSION_3; lia). do 2 read_field. cbn [Z.eqb SNMP_VERSION_3 Pos.eqb negb].
  unfold global_tlv in *. pose proof (fits_inner _ _ _ _ Hf) as Hf2. read_field.
  destruct g as [id size flags model], Hg as (H1 & H2 & H3 & H4). cbn [msg_id msg_max_size msg_flags msg_security_model] in *.
  rewrite <- (app_nil_r (tlv TAG_INTEGER (encode_int model))) in Hf, Hf2 |- *.
  do 8 read_field.
  change (negb (Z.land flags FLAG_PRIV =? 0)) with (priv_bit (mkGlobal id size flags model)).
  assert (fits (to_inner_bytes s)) as Hfs.
  { rewrite app_assoc in Hf. by apply fits_inner in Hf. }
  rewrite sec_codec by done. cbn [mbind result_bind].
  rewrite <- (app_nil_r (tlv tag body)). rewrite read_tlv_at; [|clear -Hf; fits].
  cbn [mbind result_bind]. by rewrite Ed.
Qed.

(** ** Lemmas: what the reads return *)

Lemma read_expected_bytes d tag v d' : decoder_ok d -> read_expected d tag = Ok (v, d') -> Forall byte_ok v /\ decoder_ok d'.
Proof.
  intros Hd. unfold read_expected. destruct (read_tlv d) as [[[t w] d1]|] eqn:E; [|done]. cbn.
  destruct (read_tlv_ok _ _ _ _ Hd E) as (Hd1 & _ & _ & header & Hdrop & _). destruct (t =? tag); [|done].
  intros [= <- <-]. split; [|done]. destruct Hd as [Hb _].
  assert (Forall byte_ok (drop (Z.to_nat (dec_pos d)) (dec_bytes d))) as H by (by apply Forall_drop).
  rewrite Hdrop in H. apply Forall_app in H as [_ H]. by apply Forall_app in H as [H _].
Qed.

Lemma read_sequence_ok d s d' : decoder_ok d -> read_sequence d = Ok (s, d') -> decoder_ok s /\ decoder_ok d'.
Proof.
  intros Hd. unfold read_sequence. destruct (read_expected d TAG_SEQUENCE) as [[v x]|] eqn:E; [|done]. cbn.
  apply (read_expected_bytes _ _ _ _ Hd) in E as [Hv Hx]. intros [= <- <-]. split; [|done]. split; [done|cbn; lia].
Qed.

Lemma read_i64_ok d n d' : decoder_ok d -> read_i64 d = Ok (n, d') -> decoder_ok d'.
Proof.
  intros Hd. unfold read_i64. destruct (read_expected d TAG_INTEGER) as [[v x]|] eqn:E; [|done]. cbn.
  apply (read_expected_bytes _ _ _ _ Hd) in E as [_ Hx]. destruct (decode_int v); [|done]. by intros [= _ <-].
Qed.

Lemma i32_try_from_range v n : i32_try_from v = Ok n -> i32_ok n.
Proof. unfold i32_try_from, i32_ok. destruct (_ && _) eqn:E; [|done]. intros [= <-]. bool_prop. lia. Qed.

Lemma read_u32_range d n d' : read_u32 d = Ok (n, d') -> u32_ok n.
Proof.
  unfold read_u32, u32_ok. destruct (read_i64 d) as [[v x]|]; [|done]. cbn. destruct (_ && _) eqn:E; [|done].
  intros [= <- _]. unfold umax in E. bool_prop. lia.
Qed.

Lemma sec_decode_typed bytes s : sec_decode_inner bytes = Ok s -> security_ok s.
Proof.
  unfold sec_decode_inner. destruct (read_sequence _) as [[s0 x]|]; [|done]. cbn [mbind result_bind].
  destruct (read_octet_string s0) as [[eid s1]|]; [|done]. cbn [mbind result_bind].
  destruct (read_u32 s1) as [[b s2]|] eqn:Eb; [|done]. cbn [mbind result_bind].
  destruct (read_u32 s2) as [[t s3]|] eqn:Et; [|done]. cbn [mbind result_bind].
  destruct (read_octet_string s3) as [[un s4]|]; [|done]. cbn [mbind result_bind].
  destruct (read_octet_string s4) as [[ap s5]|]; [|done]. cbn [mbind result_bind].
  destruct (read_octet_string s5) as [[pp s6]|]; [|done]. cbn [mbind result_bind].
  intros [= <-]. split; cbn; by eapply read_u32_range.
Qed.

(** ** Properties *)

(** C23: A message survives the wire.  Every scoped PDU with legal bindings is
    encoded without an error or a panic and decoded to itself, bindings in
    order; and the message that carries it, in the clear or encrypted as its
    flags say, is read back from its bytes, header, security parameters and
    data, whatever follows it in the datagram. *)
Theorem message_roundtrip g s p :
  global_ok g -> security_ok s -> pdu_ok (scoped_pdu p) ->
  exists body, scoped_to_bytes p = Return (Ok body)
  /\ (fits body -> scoped_from_bytes body = Ok p)
  /\ forall d rest, d = Plain body /\ priv_bit g = false \/ (exists c, d = Encrypted c /\ priv_bit g = true) ->
       fits (message_to_bytes (mkMessage g s d) ++ rest) ->
       message_from_bytes (message_to_bytes (mkMessage g s d) ++ rest) = Ok (mkMessage g s d).
Proof.
  intros Hg Hs Hp. destruct (scoped_codec p Hp) as (body & E & D). exists (tlv TAG_SEQUENCE body). split_and!; [done|done|].
  intros d rest Hd Hf. apply message_codec; [done|done| |done].
  destruct Hd as [[-> Hb]|(c & -> & Hb)]; cbn; [split; [done|by exists body]|done].
Qed.

Definition demo_global : GlobalData := mkGlobal 42 65507 (Z.lor FLAG_AUTH FLAG_REPORTABLE) SECURITY_MODEL_USM.
Definition demo_security : SecurityParameters := mkSecurity [128; 0; 0; 0; 1] 1 77 [117] [0; 0] [].

Lemma message_roundtrip_witness :
  exists body, scoped_to_bytes (mkScoped [128; 0; 0; 0; 1] [] demo_pdu) = Return (Ok body)
  /\ scoped_from_bytes body = Ok (mkScoped [128; 0; 0; 0; 1] [] demo_pdu)
  /\ message_from_bytes (message_to_bytes (mkMessage demo_global demo_security (Plain body)))
     = Ok (mkMessage demo_global demo_security (Plain body)).
Proof.
  destruct (message_roundtrip demo_global demo_security (mkScoped [128; 0; 0; 0; 1] [] demo_pdu)) as (body & E & D & M).
  - unfold global_ok, i32_ok, byte_ok. cbn [msg_id msg_max_size msg_flags msg_security_model demo_global].
    change (Z.lor FLAG_AUTH FLAG_REPORTABLE) with 5. unfold SECURITY_MODEL_USM. lia.
  - unfold security_ok, u32_ok. cbn. lia.
  - apply demo_pdu_ok.
  - exists body. split; [done|]. injection E as <-. split; [apply D; vm_compute; discriminate|].
    specialize (M (Plain _) [] (or_introl (conj eq_refl eq_refl))). rewrite app_nil_r in M. apply M.
    vm_compute. discriminate.
Defined.

(** C34: What the parser accepts is well typed and has one canonical encoding.
    Of any bytes, a message that parses has its identifiers and sizes in the
    range of [i32], its clock in that of [u32], one byte of flags, and data
    that agrees with the privacy flag; encoded again, however its fields were
    written on the wire, it parses to the same message. *)
Theorem parsed_well_typed bytes m :
  Forall byte_ok bytes -> message_from_bytes bytes = Ok m ->
  global_ok (global m) /\ security_ok (security m) /\ data_ok (global m) (data m)
  /\ (fits (message_to_bytes m) -> message_from_bytes (message_to_bytes m) = Ok m).
Proof.
  intros Hb E. assert (global_ok (global m) /\ security_ok (security m) /\ data_ok (global m) (data m)) as (Hg & Hs & Hd).
  2: { split_and!; try done. intros Hf. rewrite <- (app_nil_r (message_to_bytes m)) in Hf |- *. by apply message_codec. }
  assert (decoder_ok (Decoder_new bytes)) as Hd0 by (split; [done|cbn; lia]).
  revert E. unfold message_from_bytes. destruct (read_sequence (Decoder_new bytes)) as [[o0 x]|] eqn:E0; [|done].
  apply (read_sequence_ok _ _ _ Hd0) in E0 as [E0 _]. cbn [mbind result_bind].
  destruct (read_i64 o0) as [[v o1]|] eqn:E1; [|done]. apply (read_i64_ok _ _ _ E0) in E1. cbn [mbind result_bind].
  destruct (i32_try_from v) as [ver|]; [|done]. cbn [mbind result_bind]. destruct (negb _); [done|].
  destruct (read_sequence o1) as [[g0 o2]|] eqn:E2; [|done]. apply (read_sequence_ok _ _ _ E1) in E2 as [E2 _]. cbn [mbind result_bind].
  destruct (read_i64 g0) as [[v1 g1]|] eqn:E3; [|done]. apply (read_i64_ok _ _ _ E2) in E3. cbn [mbind result_bind].
  destruct (i32_try_from v1) as [id|] eqn:H1; [|done]. cbn [mbind result_bind].
  destruct (read_i64 g1) as [[v2 g2]|] eqn:E4; [|done]. apply (read_i64_ok _ _ _ E3) in E4. cbn [mbind result_bind].
  destruct (i32_try_from v2) as [size|] eqn:H2; [|done]. cbn [mbind result_bind].
  destruct (read_octet_string g2) as [[[|fl [|]] g3]|] eqn:E5; try done. apply (read_expected_bytes _ _ _ _ E4) in E5 as [E5 _]. cbn [mbind result_bind].
  destruct (read_i64 g3) as [[v3 g4]|]; [|done]. cbn [mbind result_bind].
  destruct (i32_try_from v3) as [model|] eqn:H3; [|done]. cbn [mbind result_bind].
  destruct (read_octet_string o2) as [[sec o3]|]; [|done]. cbn [mbind result_bind].
  destruct (sec_decode_inner sec) as [s|] eqn:Hsec; [|done]. cbn [mbind result_bind].
  destruct (read_tlv o3) as [[[tag body] y]|]; [|done]. cbn [mbind result_bind].
  change (negb (Z.land fl FLAG_PRIV =? 0)) with (priv_bit (mkGlobal id size fl model)).
  apply i32_try_from_range in H1, H2, H3. apply sec_decode_typed in Hsec. rewrite Forall_singleton in E5.
  assert (global_ok (mkGlobal id size fl model)) as Hg by (unfold global_ok; by split_and!).
  destruct (priv_bit (mkGlobal id size fl model)) eqn:Ep.
  - destruct (negb (tag =? TAG_OCTET_STRING)); [done|]. cbn [mbind result_bind]. intros [= <-]. by split_and!.
  - destruct (negb (tag =? TAG_SEQUENCE)); [done|]. cbn [mbind result_bind]. intros [= <-].
    split_and!; try done. split; [done|by exists body].
Qed.

Lemma parsed_well_typed_witness :
  exists m, message_from_bytes (message_to_bytes (mkMessage demo_global demo_security (Plain [48; 0]))) = Ok m
  /\ global_ok (global m) /\ security_ok (security m) /\ data_ok (global m) (data m).
Proof.
  exists (mkMessage demo_global demo_security (Plain [48; 0])). split; [vm_compute; reflexivity|].
  destruct (parsed_well_typed (message_to_bytes (mkMessage demo_global demo_security (Plain [48; 0])))
    (mkMessage demo_global demo_security (Plain [48; 0]))) as (H1 & H2 & H3 & _).
  - apply Forall_forall. intros b Hb. assert (forallb (fun b => (0 <=? b) && (b <? 256))
      (message_to_bytes (mkMessage demo_global demo_security (Plain [48; 0]))) = true) as Hall by (vm_compute; reflexivity).
    rewrite forallb_forall in Hall. apply list_elem_of_In, Hall in Hb. unfold byte_ok. bool_prop. lia.
  - vm_compute. reflexivity.
  - done.
Defined.
