(* ===== verification/Usm.v ===== *)
(** * Engine clock and user-based security

    Models [crates/spt-snmp/src/engine.rs] and [usm.rs]: the engine identity
    and its clock, security levels, users, counters, the authentication digest
    and the privacy transform.  The hash and cipher crates are the class
    [UsmCrypto]; the derivation of keys from passwords is not modelled, a
    user comes with its localized keys. *)

From S2P Require Import Prelude Bytes Ber Pdu Message.

(** ** The engine *)

(** [EngineId::new]: between 1 and 32 bytes. *)
Definition EngineId_new (bytes : list Z) : option (list Z) :=
  if bool_decide (bytes = []) || (32 <? Z.of_nat (length bytes)) then None else Some bytes.

Definition TIME_WINDOW_SECS : Z := 150.

(** [generate_engine_id]; [rnd] are the four random bytes. *)
Definition generate_engine_id (private_enterprise_number : Z) (rnd : list Z) : list Z :=
  let pen := Z.land private_enterprise_number 0x7FFFFFFF in
  match to_be_bytes 4 pen with
  | b0 :: pen_bytes => [Z.lor b0 0x80] ++ pen_bytes ++ [5] ++ rnd
  | [] => []
  end.

Record EngineClock := mkClock { clk_boots : Z; clk_started_at : Z }.

Definition EngineClock_new (boots now : Z) : EngineClock := mkClock boots now.
Definition clock_time (c : EngineClock) (now : Z) : Z :=
  Z.min (as_secs (duration_since now (clk_started_at c))) (umax 32).
(** An atomic addition wraps. *)
Definition bump_boots (c : EngineClock) : EngineClock := mkClock (wrap 32 (clk_boots c + 1)) (clk_started_at c).

Definition check_time_window (c : EngineClock) (now peer_boots peer_time : Z) : Result BerError unit :=
  let local_boots := clk_boots c in
  let local_time := clock_time c now in
  if negb (peer_boots =? local_boots) then Err (Usm NotInTimeWindow)
  else if TIME_WINDOW_SECS <? Z.abs (local_time - peer_time) then Err (Usm NotInTimeWindow)
  else Ok tt.

(** ** Protocols and levels *)

Inductive AuthProtocol := HmacMd5 | HmacSha1 | HmacSha256.
Inductive PrivProtocol := Aes128 | Aes256 | Des.
Inductive SecurityLevel := NoAuthNoPriv | AuthNoPriv | AuthPriv.

#[export] Instance SecurityLevel_eq_dec : EqDecision SecurityLevel.
Proof. solve_decision. Defined.

Definition auth_key_len (p : AuthProtocol) : nat :=
  match p with HmacMd5 => 16 | HmacSha1 => 20 | HmacSha256 => 32 end.
Definition digest_len (p : AuthProtocol) : nat :=
  match p with HmacMd5 | HmacSha1 => 12 | HmacSha256 => 24 end.
Definition priv_key_len (p : PrivProtocol) : nat :=
  match p with Aes128 | Des => 16 | Aes256 => 32 end.

Definition flags_bits (l : SecurityLevel) : Z :=
  match l with NoAuthNoPriv => 0 | AuthNoPriv => 1 | AuthPriv => 3 end.

Definition from_flags (flags : Z) : Result BerError SecurityLevel :=
  let f := Z.land flags 3 in
  if f =? 0 then Ok NoAuthNoPriv
  else if f =? 1 then Ok AuthNoPriv
  else if f =? 3 then Ok AuthPriv
  else Err (Usm UnsupportedSecLevel).

(** A user; passwords are only used to derive the keys. *)
Record UsmUser := mkUser {
  u_name : list Z;
  u_auth : option AuthProtocol;
  u_priv : option PrivProtocol;
  u_writable : bool
}.

Definition no_auth (name : list Z) : UsmUser := mkUser name None None false.
Definition auth_only (name : list Z) (auth : AuthProtocol) : UsmUser := mkUser name (Some auth) None false.
Definition auth_priv (name : list Z) (auth : AuthProtocol) (priv : PrivProtocol) : UsmUser :=
  mkUser name (Some auth) (Some priv) false.
Definition set_writable (b : bool) (u : UsmUser) : UsmUser := mkUser (u_name u) (u_auth u) (u_priv u) b.

Definition security_level (u : UsmUser) : SecurityLevel :=
  match u_auth u, u_priv u with
  | None, _ => NoAuthNoPriv
  | Some _, None => AuthNoPriv
  | Some _, Some _ => AuthPriv
  end.

(** ** Counters *)

Record UsmCounters := mkCounters {
  unsupported_sec_levels : Z;
  not_in_time_windows : Z;
  unknown_user_names : Z;
  unknown_engine_ids : Z;
  wrong_digests : Z;
  decryption_errors : Z
}.

Definition UsmCounters_default : UsmCounters := mkCounters 0 0 0 0 0 0.

(** [+= 1] on a [u32]: the build checks for overflow. *)
Definition incr32 (n : Z) : Outcome Z := if n <? umax 32 then Return (n + 1) else Panic.

(** [UsmCounters::record]. *)
Definition record (c : UsmCounters) (e : UsmError) : Outcome UsmCounters :=
  let 'mkCounters a b u i w d := c in
  match e with
  | UnsupportedSecLevel => n ← incr32 a; Return (mkCounters n b u i w d)
  | NotInTimeWindow => n ← incr32 b; Return (mkCounters a n u i w d)
  | UnknownUserName => n ← incr32 u; Return (mkCounters a b n i w d)
  | UnknownEngineId => n ← incr32 i; Return (mkCounters a b u n w d)
  | WrongDigest => n ← incr32 w; Return (mkCounters a b u i n d)
  | DecryptionError => n ← incr32 d; Return (mkCounters a b u i w n)
  end.

Definition counter (c : UsmCounters) (e : UsmError) : Z :=
  match e with
  | UnsupportedSecLevel => unsupported_sec_levels c
  | NotInTimeWindow => not_in_time_windows c
  | UnknownUserName => unknown_user_names c
  | UnknownEngineId => unknown_engine_ids c
  | WrongDigest => wrong_digests c
  | DecryptionError => decryption_errors c
  end.

(** ** Cryptography *)

(** The [hmac], [md-5], [sha1], [sha2], [aes] and [cfb-mode] crates: a tag as
    long as the digest of its hash, and a stream cipher, which keeps lengths
    and decrypts what it encrypted under the same key and initialisation
    vector. *)
Class UsmCrypto : Type := {
  hmac : AuthProtocol -> list Z -> list Z -> list Z;
  hmac_length : forall p kul m, length (hmac p kul m) = auth_key_len p;
  cfb_encrypt : list Z -> list Z -> list Z -> list Z;
  cfb_decrypt : list Z -> list Z -> list Z -> list Z;
  cfb_inverse : forall k iv d, cfb_decrypt k iv (cfb_encrypt k iv d) = d;
  cfb_length : forall k iv d, length (cfb_encrypt k iv d) = length d
}.

(** A transparent instance, used by the witnesses. *)
#[export, program] Instance toy_crypto : UsmCrypto := {|
  hmac := fun p kul m => take (auth_key_len p) (kul ++ rev m ++ replicate (auth_key_len p) 0);
  cfb_encrypt := fun k iv d => rev d;
  cfb_decrypt := fun k iv d => rev d
|}.
Next Obligation. intros p kul m. cbv beta. rewrite length_take, !length_app, length_replicate. lia. Qed.
Next Obligation. intros k iv d. apply rev_involutive. Qed.
Next Obligation. intros k iv d. apply length_rev. Qed.

Section Crypto.
Context `{!UsmCrypto}.

Definition auth_digest (auth : AuthProtocol) (kul whole_message : list Z) : list Z :=
  take (digest_len auth) (hmac auth kul whole_message).

Definition digests_match (a b : list Z) : bool :=
  if negb (length a =? length b)%nat then false else bool_decide (a = b).

Definition aes_iv (engine_boots engine_time : Z) (salt : list Z) : list Z :=
  to_be_bytes 4 engine_boots ++ to_be_bytes 4 engine_time ++ salt.

(** [encrypt] and [decrypt]; the data is transformed in place. *)
Definition encrypt (proto : PrivProtocol) (priv_key : list Z) (engine_boots engine_time : Z) (salt data : list Z) :
    Result BerError (list Z) :=
  match proto with
  | Aes128 =>
      if (length priv_key <? 16)%nat then Err Privacy
      else Ok (cfb_encrypt (take 16 priv_key) (aes_iv engine_boots engine_time salt) data)
  | Aes256 =>
      if (length priv_key <? 32)%nat then Err Privacy
      else Ok (cfb_encrypt (take 32 priv_key) (aes_iv engine_boots engine_time salt) data)
  | Des => Err Privacy
  end.

Definition decrypt (proto : PrivProtocol) (priv_key : list Z) (engine_boots engine_time : Z) (salt data : list Z) :
    Result BerError (list Z) :=
  match proto with
  | Aes128 =>
      if (length priv_key <? 16)%nat then Err (Usm DecryptionError)
      else Ok (cfb_decrypt (take 16 priv_key) (aes_iv engine_boots engine_time salt) data)
  | Aes256 =>
      if (length priv_key <? 32)%nat then Err (Usm DecryptionError)
      else Ok (cfb_decrypt (take 32 priv_key) (aes_iv engine_boots engine_time salt) data)
  | Des => Err (Usm DecryptionError)
  end.
End Crypto.

(** ** Text *)

(** [String::from_utf8_lossy]: each maximal broken sequence becomes U+FFFD. *)
Definition REPLACEMENT : list Z := [0xEF; 0xBF; 0xBD].

Fixpoint from_utf8_lossy (l : list Z) : list Z :=
  match l with
  | [] => []
  | b0 :: r0 =>
      if between 0 0x7F b0 then b0 :: from_utf8_lossy r0
      else if between 0xC2 0xDF b0 then
        match r0 with
        | [] => REPLACEMENT
        | b1 :: r1 =>
            if continuation b1 then b0 :: b1 :: from_utf8_lossy r1
            else REPLACEMENT ++ from_utf8_lossy r0
        end
      else if between 0xE0 0xEF b0 then
        match r0 with
        | [] => REPLACEMENT
        | b1 :: r1 =>
            if between (if b0 =? 0xE0 then 0xA0 else 0x80) (if b0 =? 0xED then 0x9F else 0xBF) b1 then
              match r1 with
              | [] => REPLACEMENT
              | b2 :: r2 =>
                  if continuation b2 then b0 :: b1 :: b2 :: from_utf8_lossy r2
                  else REPLACEMENT ++ from_utf8_lossy r1
              end
            else REPLACEMENT ++ from_utf8_lossy r0
        end
      else if between 0xF0 0xF4 b0 then
        match r0 with
        | [] => REPLACEMENT
        | b1 :: r1 =>
            if between (if b0 =? 0xF0 then 0x90 else 0x80) (if b0 =? 0xF4 then 0x8F else 0xBF) b1 then
              match r1 with
              | [] => REPLACEMENT
              | b2 :: r2 =>
                  if continuation b2 then
                    match r2 with
                    | [] => REPLACEMENT
                    | b3 :: r3 =>
                        if continuation b3 then b0 :: b1 :: b2 :: b3 :: from_utf8_lossy r3
                        else REPLACEMENT ++ from_utf8_lossy r2
                    end
                  else REPLACEMENT ++ from_utf8_lossy r1
              end
            else REPLACEMENT ++ from_utf8_lossy r0
        end
      else REPLACEMENT ++ from_utf8_lossy r0
  end.

(** ** Lemmas *)

(** Valid text is left alone. *)
Lemma lossy_valid l : utf8_valid l = true -> from_utf8_lossy l = l.
Proof.
  induction l as [l IH] using (induction_ltof1 _ (@length Z)). unfold ltof in IH.
  destruct l as [|b0 r0]; [done|]. cbn [utf8_valid from_utf8_lossy].
  destruct (between 0 0x7F b0) eqn:E0; [intros H; f_equal; apply IH; [cbn; lia|done]|].
  destruct r0 as [|b1 r1]; [done|].
  destruct (between 0xC2 0xDF b0) eqn:E1.
  { intros [-> H]%andb_true_iff. do 2 f_equal. apply IH; [cbn; lia|done]. }
  destruct r1 as [|b2 r2]; [done|]. destruct (between 0xE0 0xEF b0) eqn:E2.
  { intros [[-> ->]%andb_true_iff H]%andb_true_iff. do 3 f_equal. apply IH; [cbn; lia|done]. }
  destruct r2 as [|b3 r3]; [done|].
  intros [[[[-> ->]%andb_true_iff ->]%andb_true_iff ->]%andb_true_iff H]%andb_true_iff.
  do 4 f_equal. apply IH; [cbn; lia|done].
Qed.

Section CryptoLemmas.
Context `{!UsmCrypto}.

Lemma auth_digest_length p kul m : length (auth_digest p kul m) = digest_len p.
Proof. unfold auth_digest. rewrite length_take, hmac_length. destruct p; cbn; lia. Qed.

Lemma digests_match_eq a b : digests_match a b = true <-> a = b.
Proof.
  unfold digests_match. split.
  - destruct (negb _); [done|]. by intros ?%bool_decide_eq_true.
  - intros ->. rewrite Nat.eqb_refl. cbn. by apply bool_decide_eq_true.
Qed.

Lemma decrypt_encrypt p k b t salt d c : encrypt p k b t salt d = Ok c -> decrypt p k b t salt c = Ok d.
Proof.
  unfold encrypt, decrypt. destruct p; [| |done]; destruct (_ <? _)%nat; [done| |done|];
    intros [= <-]; by rewrite cfb_inverse.
Qed.
End CryptoLemmas.

Lemma from_flags_bits l : from_flags (flags_bits l) = Ok l.
Proof. by destruct l. Qed.

(** The generated identity: nine bytes, the high bit and the format byte, the
    enterprise number in between. *)
Lemma engine_id_structure pen rnd :
  0 <= pen < 2 ^ 31 -> length rnd = 4%nat ->
  exists b0 b1 b2 b3, generate_engine_id pen rnd = Z.lor b0 0x80 :: b1 :: b2 :: b3 :: 5 :: rnd
  /\ b0 < 128 /\ from_be_bytes [b0; b1; b2; b3] = pen
  /\ EngineId_new (generate_engine_id pen rnd) = Some (generate_engine_id pen rnd).
Proof.
  intros Hp Hr. unfold generate_engine_id. change 0x7FFFFFFF with (Z.ones 31). rewrite Z.land_ones by lia.
  rewrite Z.mod_small by lia. pose proof (from_to_be_bytes 4 pen) as Hf. pose proof (to_be_bytes_ok 4 pen) as Hok.
  change (256 ^ Z.of_nat 4) with (2 ^ 32) in Hf. specialize (Hf ltac:(lia)).
  cbn [to_be_bytes] in *. do 4 eexists. split; [done|]. split_and!; [|done|].
  - change (256 ^ Z.of_nat 3) with (2 ^ 24). pose proof (Z.div_lt_upper_bound pen (2 ^ 24) 128).
    pose proof (Z.div_pos pen (2 ^ 24)). rewrite Z.mod_small; lia.
  - unfold EngineId_new. rewrite bool_decide_false by done. cbn [app length orb]. rewrite Hr. done.
Qed.
