(* ===== verification/Mib.v ===== *)
(** * The MIB of the SNMP agent

    Models [crates/spt-snmp/src/oid.rs] and [mib.rs]: identifiers with their
    order and their text, handlers, and the registry that answers [Get] and
    [GetNext].  A [BTreeMap] keyed by identifiers is its list of entries in
    ascending order.  Handlers are trait objects: records of functions over a
    state [W] they share, which reads leave alone and which stands still while
    one request is answered. *)

From S2P Require Import Prelude Text Bytes Ber Pdu.

(** ** Identifiers *)

(** [Ord for ObjectIdentifier]: the order of [Vec<u32>]. *)
Fixpoint oid_cmp (a b : list Z) : comparison :=
  match a, b with
  | [], [] => Eq
  | [], _ :: _ => Lt
  | _ :: _, [] => Gt
  | x :: a', y :: b' => match x ?= y with Eq => oid_cmp a' b' | c => c end
  end.

Definition oid_ltb (a b : list Z) : bool := match oid_cmp a b with Lt => true | _ => false end.

Fixpoint starts_with (o prefix : list Z) : bool :=
  match prefix, o with
  | [], _ => true
  | _ :: _, [] => false
  | y :: p, x :: o' => (x =? y) && starts_with o' p
  end.

Definition with_suffix (o : list Z) (arc : Z) : list Z := o ++ [arc].

(** [Display]. *)
Fixpoint oid_display (o : list Z) : string :=
  match o with
  | [] => ""
  | [a] => pretty a
  | a :: r => (pretty a +:+ "." +:+ oid_display r)%string
  end.

(** The loop of [from_str]. *)
Fixpoint parse_arcs (parts : list string) : Result BerError (list Z) :=
  match parts with
  | [] => Ok []
  | p :: r => v ← ok_or (BerDecode OutOfRange) (parse_uint 32 p); arcs ← parse_arcs r; Ok (v :: arcs)
  end.

(** [ObjectIdentifier::from_str]. *)
Definition oid_from_str (s : string) : Result BerError (list Z) :=
  arcs ← parse_arcs (split_on "." (trim_start_matches "." s));
  if (length arcs <? 2)%nat then Err (BerDecode OidTooShort) else Ok arcs.

(** ** Ordered maps *)

(** [BTreeMap::insert] and [BTreeMap::get]. *)
Fixpoint bt_insert {V} (k : list Z) (v : V) (l : list (list Z * V)) : list (list Z * V) :=
  match l with
  | [] => [(k, v)]
  | (k', v') :: r =>
      match oid_cmp k k' with
      | Lt => (k, v) :: l
      | Eq => (k', v) :: r
      | Gt => (k', v') :: bt_insert k v r
      end
  end.

Definition bt_get {V} (k : list Z) (l : list (list Z * V)) : option V :=
  snd <$> find (fun e => bool_decide (e.1 = k)) l.

(** ** Handlers *)

Inductive SetOutcome := SetOk | SetNotWritable | SetWrongValue | SetGenErr.

(** The values of [ErrorStatus] of [pdu.rs]. *)
Inductive ErrorStatus :=
| StNoError | StTooBig | StNoSuchName | StBadValue | StReadOnly | StGenErr | StNoAccess | StWrongType
| StWrongLength | StWrongEncoding | StWrongValue | StNoCreation | StInconsistentValue | StResourceUnavailable
| StCommitFailed | StUndoFailed | StAuthorizationError | StNotWritable | StInconsistentName.

Definition status_code (s : ErrorStatus) : Z :=
  match s with
  | StNoError => 0 | StTooBig => 1 | StNoSuchName => 2 | StBadValue => 3 | StReadOnly => 4 | StGenErr => 5
  | StNoAccess => 6 | StWrongType => 7 | StWrongLength => 8 | StWrongEncoding => 9 | StWrongValue => 10
  | StNoCreation => 11 | StInconsistentValue => 12 | StResourceUnavailable => 13 | StCommitFailed => 14
  | StUndoFailed => 15 | StAuthorizationError => 16 | StNotWritable => 17 | StInconsistentName => 18
  end.

Definition to_error_status (o : SetOutcome) : ErrorStatus :=
  match o with
  | SetOk => StNoError
  | SetNotWritable => StNotWritable
  | SetWrongValue => StWrongValue
  | SetGenErr => StGenErr
  end.

Section Mib.
Context {W : Type}.

Record Handler := mkHandler {
  h_get : W -> Result BerError Value;
  h_set : Value -> W -> SetOutcome * W
}.

(** A handler that keeps the default [set]. *)
Definition read_only (get : W -> Result BerError Value) : Handler :=
  mkHandler get (fun _ w => (SetNotWritable, w)).

Definition ConstScalar (v : Value) : Handler := read_only (fun _ => Ok v).

Definition Next : Type := option (list Z) -> W -> Result BerError (option (list Z * Value)).

Record TableHandler := mkTableHandler {
  t_next : Next;
  t_get : list Z -> W -> Result BerError (option Value)
}.

(** The default [TableHandler::get]: walk until the identifier or beyond.
    [None] when the rounds run out. *)
Fixpoint default_get (fuel : nat) (next : Next) (cur : option (list Z)) (oid : list Z) (w : W) :
    option (Result BerError (option Value)) :=
  match fuel with
  | O => None
  | S fuel' =>
      match next cur w with
      | Err e => Some (Err e)
      | Ok None => Some (Ok None)
      | Ok (Some (found, v)) =>
          if bool_decide (found = oid) then Some (Ok (Some v))
          else if oid_ltb oid found then Some (Ok None)
          else default_get fuel' next (Some found) oid w
      end
  end.

(** ** The registry *)

Record MibRegistry := mkRegistry {
  scalars : list (list Z * Handler);
  tables : list (list Z * TableHandler)
}.

Definition MibRegistry_new : MibRegistry := mkRegistry [] [].
Definition add_scalar (oid : list Z) (h : Handler) (r : MibRegistry) : MibRegistry :=
  mkRegistry (bt_insert oid h (scalars r)) (tables r).
Definition add_table (oid : list Z) (t : TableHandler) (r : MibRegistry) : MibRegistry :=
  mkRegistry (scalars r) (bt_insert oid t (tables r)).

Definition scalar (r : MibRegistry) (oid : list Z) : option Handler := bt_get oid (scalars r).

Definition table_for (r : MibRegistry) (oid : list Z) : option (list Z * TableHandler) :=
  find (fun e => starts_with oid e.1) (tables r).

(** [MibRegistry::get]. *)
Definition reg_get (r : MibRegistry) (oid : list Z) (w : W) : Result BerError (option Value) :=
  match scalar r oid with
  | Some h => v ← h_get h w; Ok (Some v)
  | None =>
      match table_for r oid with
      | Some (_, t) => t_get t oid w
      | None => Ok None
      end
  end.

(** The cursor [next] passes to a table, or [None] to skip it. *)
Definition table_cursor (after prefix : list Z) : option (option (list Z)) :=
  if starts_with after prefix || oid_ltb after prefix
  then Some (if oid_ltb after prefix then None else Some after)
  else None.

(** The loop of [next] over the tables. *)
Fixpoint tables_next (after : list Z) (w : W) (l : list (list Z * TableHandler)) (best : option (list Z * Value)) :
    Result BerError (option (list Z * Value)) :=
  match l with
  | [] => Ok best
  | (prefix, table) :: r =>
      match table_cursor after prefix with
      | None => tables_next after w r best
      | Some cursor =>
          found ← t_next table cursor w;
          let best :=
            match found with
            | Some (oid, v) =>
                if oid_ltb after oid then
                  match best with
                  | None => Some (oid, v)
                  | Some (b, _) => if oid_ltb oid b then Some (oid, v) else best
                  end
                else best
            | None => best
            end in
          tables_next after w r best
      end
  end.

(** [MibRegistry::next]. *)
Definition reg_next (r : MibRegistry) (after : list Z) (w : W) : Result BerError (option (list Z * Value)) :=
  let scalar_next := find (fun e => oid_ltb after e.1)
    (List.filter (fun e => negb (oid_ltb e.1 after)) (scalars r)) in
  best ← tables_next after w (tables r) None;
  scalar_resolved ← match scalar_next with
    | Some (oid, h) => v ← h_get h w; Ok (Some (oid, v))
    | None => Ok None
    end;
  Ok (match scalar_resolved, best with
      | Some (so, sv), Some (to, tv) => if oid_ltb to so then Some (to, tv) else Some (so, sv)
      | Some s, None => Some s
      | None, Some t => Some t
      | None, None => None
      end).
End Mib.
Arguments Handler : clear implicits.
Arguments TableHandler : clear implicits.
Arguments MibRegistry : clear implicits.
Arguments Next : clear implicits.

(** ** Lemmas: the order of identifiers *)

Definition oid_lt (a b : list Z) : Prop := oid_cmp a b = Lt.

Lemma oid_ltb_lt a b : oid_ltb a b = true <-> oid_lt a b.
Proof. unfold oid_ltb, oid_lt. by destruct (oid_cmp a b). Qed.

Lemma oid_ltb_ge a b : oid_ltb a b = false <-> ~ oid_lt a b.
Proof. rewrite <- oid_ltb_lt. by destruct (oid_ltb a b). Qed.

Lemma oid_cmp_eq a b : oid_cmp a b = Eq <-> a = b.
Proof.
  revert b. induction a as [|x a IH]; intros [|y b]; cbn; try done.
  destruct (Z.compare_spec x y) as [->|H|H]; [rewrite IH; split; [by intros ->|by intros [=]]| |];
    (split; [done|intros [= -> ->]; lia]).
Qed.

Lemma oid_cmp_antisym a b : oid_cmp b a = CompOpp (oid_cmp a b).
Proof.
  revert b. induction a as [|x a IH]; intros [|y b]; cbn; try done.
  rewrite (Z.compare_antisym x y). destruct (x ?= y); cbn; [apply IH|done|done].
Qed.

Lemma oid_lt_irrefl a : ~ oid_lt a a.
Proof. unfold oid_lt. by rewrite (proj2 (oid_cmp_eq a a) eq_refl). Qed.

Lemma oid_lt_trans a b c : oid_lt a b -> oid_lt b c -> oid_lt a c.
Proof.
  unfold oid_lt. revert b c. induction a as [|x a IH]; intros [|y b] [|z c]; cbn; try done.
  destruct (Z.compare_spec x y), (Z.compare_spec y z), (Z.compare_spec x z); try done; try lia. apply IH.
Qed.

Lemma oid_lt_total a b : oid_lt a b \/ a = b \/ oid_lt b a.
Proof.
  unfold oid_lt. rewrite (oid_cmp_antisym a b), <- (oid_cmp_eq a b). destruct (oid_cmp a b); cbn; tauto.
Qed.

Lemma oid_le_lt a b c : ~ oid_lt b a -> oid_lt b c -> oid_lt a c.
Proof. intros H1 H2. destruct (oid_lt_total a b) as [H|[->|H]]; [by eapply oid_lt_trans|done|done]. Qed.

(** What lies below a prefix lies on the same side of anything outside it. *)
Lemma prefix_above after p o : starts_with o p = true -> oid_lt after p -> oid_lt after o.
Proof.
  unfold oid_lt. revert after o. induction p as [|y p IH]; intros [|x after] [|z o]; cbn; try done.
  intros H. apply andb_true_iff in H as [->%Z.eqb_eq H].
  destruct (Z.compare_spec x y); [by apply IH|done|done].
Qed.

Lemma prefix_below after p o :
  starts_with o p = true -> starts_with after p = false -> ~ oid_lt after p -> oid_lt o after.
Proof.
  unfold oid_lt. revert after o. induction p as [|y p IH]; intros [|x after] [|z o]; cbn; try done.
  intros H Ha Hn. apply andb_true_iff in H as [->%Z.eqb_eq H]. apply andb_false_iff in Ha.
  destruct (Z.compare_spec x y) as [->|Hxy|Hxy]; [|done|].
  - destruct Ha as [Ha|Ha]; [by rewrite Z.eqb_refl in Ha|]. rewrite Z.compare_refl. by apply IH.
  - by rewrite (proj2 (Z.compare_lt_iff y x)).
Qed.

(** Two prefixes of one identifier are nested. *)
Lemma prefixes_nested o p q :
  starts_with o p = true -> starts_with o q = true -> starts_with p q = true \/ starts_with q p = true.
Proof.
  revert p q. induction o as [|x o IH]; intros [|y p] [|z q]; cbn; try tauto; try done.
  intros [->%Z.eqb_eq Hp]%andb_true_iff [->%Z.eqb_eq Hq]%andb_true_iff. rewrite Z.eqb_refl. cbn. by apply IH.
Qed.

(** ** Lemmas: ordered maps *)

Definition ascending {V} (l : list (list Z * V)) : Prop := StronglySorted (fun a b => oid_lt a.1 b.1) l.

Lemma above_head {V} k k' v' (l : list (list Z * V)) :
  Forall (fun b => oid_lt k b.1) l -> (k', v') ∈ l -> oid_lt k k'.
Proof. intros H Hin. exact (proj1 (Forall_forall _ _) H _ Hin). Qed.

Lemma ascending_lookup {V} (l : list (list Z * V)) k v : ascending l -> (k, v) ∈ l -> bt_get k l = Some v.
Proof.
  unfold bt_get. induction 1 as [|[k' v'] l Hl IH Hk]; [by intros ?%elem_of_nil|]. cbn.
  intros [E|Hin]%elem_of_cons.
  - injection E as <- <-. by rewrite bool_decide_true.
  - rewrite bool_decide_false; [by apply IH|]. intros ->. by apply (above_head _ _ _ _ Hk), oid_lt_irrefl in Hin.
Qed.

Lemma bt_get_in {V} (l : list (list Z * V)) k v : bt_get k l = Some v -> (k, v) ∈ l.
Proof.
  unfold bt_get. destruct (find _ l) as [[k' v']|] eqn:Hf; [|done]. intros [= ->].
  apply find_some in Hf as [Hin Hk]. apply bool_decide_eq_true in Hk. cbn in Hk. subst. by apply list_elem_of_In.
Qed.

Lemma bt_get_none {V} (l : list (list Z * V)) k : bt_get k l = None -> forall v, (k, v) ∉ l.
Proof.
  unfold bt_get. intros Hn v Hin. destruct (find _ l) eqn:E; [done|].
  pose proof (find_none _ _ E (k, v)) as Hc. cbn in Hc. rewrite bool_decide_true in Hc by done. by apply list_elem_of_In, Hc in Hin.
Qed.

(** Insertion keeps the order and changes one key. *)
Lemma bt_insert_spec {V} k v (l : list (list Z * V)) :
  ascending l ->
  ascending (bt_insert k v l)
  /\ forall k' v', (k', v') ∈ bt_insert k v l <-> (k' = k /\ v' = v) \/ (k' <> k /\ (k', v') ∈ l).
Proof.
  induction 1 as [|[k1 v1] l Hl [IH1 IH2] Hk]; cbn [bt_insert].
  { split; [repeat constructor|]. intros k' v'. rewrite list_elem_of_singleton, elem_of_nil. naive_solver. }
  assert (Hin : forall k' v', (k', v') ∈ l -> oid_lt k1 k') by (intros k' v'; by apply above_head).
  destruct (oid_cmp k k1) eqn:E.
  - apply oid_cmp_eq in E as ->. split; [by constructor|]. intros k' v'. rewrite !elem_of_cons. split; [|naive_solver].
    intros [[= -> ->]|H]; [by left|]. right. split; [|by right]. intros ->. by apply Hin, oid_lt_irrefl in H.
  - change (oid_lt k k1) in E. assert (Hlt : forall k' v', (k', v') ∈ (k1, v1) :: l -> oid_lt k k').
    { intros k' v' [[= -> ->]|H]%elem_of_cons; [done|]. eapply oid_lt_trans; [exact E|by eapply Hin]. }
    split; [constructor; [by constructor|]; apply Forall_forall; intros [] ?; by eapply Hlt|].
    intros k' v'. rewrite (elem_of_cons ((k1, v1) :: l)). split; [|naive_solver].
    intros [[= -> ->]|H]; [by left|]. right. split; [|done]. intros ->. by apply Hlt, oid_lt_irrefl in H.
  - assert (oid_lt k1 k) as Hgt by (unfold oid_lt; rewrite oid_cmp_antisym, E; done). split.
    + constructor; [done|]. apply Forall_forall. intros [k' v'] [[-> ->]|[_ H]]%IH2; [done|by eapply Hin].
    + intros k' v'. rewrite !elem_of_cons, IH2. split; [|naive_solver].
      intros [[= -> ->]|[H|[H1 H2]]]; [|by left|by right; split; [|right]].
      right. split; [|by left]. intros ->. by apply oid_lt_irrefl in Hgt.
Qed.

Lemma find_above {V} (l : list (list Z * V)) after :
  ascending l ->
  match find (fun e => oid_ltb after e.1) l with
  | Some (k, v) => (k, v) ∈ l /\ oid_lt after k /\ forall k' v', (k', v') ∈ l -> oid_lt after k' -> ~ oid_lt k' k
  | None => forall k v, (k, v) ∈ l -> ~ oid_lt after k
  end.
Proof.
  induction 1 as [|[k1 v1] l Hl IH Hk]; cbn [find fst]; [intros k v ?%elem_of_nil; done|].
  destruct (oid_ltb after k1) eqn:E.
  - apply oid_ltb_lt in E. split_and!; [by left|done|]. intros k' v' [[= -> ->]|H]%elem_of_cons _; [apply oid_lt_irrefl|].
    apply (above_head _ _ _ _ Hk) in H. intros Hc. by eapply oid_lt_irrefl, oid_lt_trans.
  - apply oid_ltb_ge in E. destruct (find _ l) as [[k v]|].
    + destruct IH as (H1 & H2 & H3). split_and!; [by right|done|]. intros k' v' [[= -> ->]|H]%elem_of_cons; [done|eauto].
    + intros k v [[= -> ->]|H]%elem_of_cons; [done|eauto].
Qed.

(** The [range] of the code starts at [after]; it loses nothing above it. *)
Lemma find_range {V} (l : list (list Z * V)) after :
  find (fun e => oid_ltb after e.1) (List.filter (fun e => negb (oid_ltb e.1 after)) l)
  = find (fun e => oid_ltb after e.1) l.
Proof.
  induction l as [|[k v] l IH]; [done|]. cbn. destruct (oid_ltb k after) eqn:E; cbn.
  - rewrite IH. destruct (oid_ltb after k) eqn:E2; [|done].
    apply oid_ltb_lt in E, E2. by destruct (oid_lt_irrefl k (oid_lt_trans _ _ _ E E2)).
  - by rewrite IH.
Qed.

(** ** Lemmas: the registry *)

Section Registry.
Context {W : Type} (w : W).

(** What a table promises, for the rows it holds in state [w]: it lies below
    its prefix, and [next] and [get] answer from the rows in order. *)
Record table_lawful (prefix : list Z) (t : TableHandler W) (rows : list (list Z * Value)) : Prop := {
  rows_ascending : ascending rows;
  rows_below : Forall (fun e => starts_with e.1 prefix = true) rows;
  next_first : t_next t None w = Ok (head rows);
  next_after : forall a, t_next t (Some a) w = Ok (find (fun e => oid_ltb a e.1) rows);
  get_exact : forall o, t_get t o w = Ok (bt_get o rows)
}.

Context (rows : list Z -> list (list Z * Value)).

Record registry_ok (r : MibRegistry W) : Prop := {
  scalars_ascending : ascending (scalars r);
  tables_ascending : ascending (tables r);
  tables_lawful : forall p t, (p, t) ∈ tables r -> table_lawful p t (rows p)
}.

(** The objects the registry manages, and their values. *)
Definition managed_oid (r : MibRegistry W) (o : list Z) : Prop :=
  (exists h, (o, h) ∈ scalars r) \/ exists p t v, (p, t) ∈ tables r /\ (o, v) ∈ rows p.

Definition managed (r : MibRegistry W) (o : list Z) (v : Value) : Prop :=
  (exists h, (o, h) ∈ scalars r /\ h_get h w = Ok v)
  \/ exists p t, (p, t) ∈ tables r /\ (o, v) ∈ rows p.

(** [x] is the least entry of [Q], or there is none. *)
Definition least {V} (Q : list Z * V -> Prop) (x : option (list Z * V)) : Prop :=
  match x with
  | Some e => Q e /\ forall e', Q e' -> ~ oid_lt e'.1 e.1
  | None => forall e, ~ Q e
  end.

(** The better of two candidates, the first unless the second is smaller. *)
Definition better {V} (x y : option (list Z * V)) : option (list Z * V) :=
  match x, y with
  | Some a, Some b => if oid_ltb b.1 a.1 then Some b else Some a
  | Some a, None => Some a
  | None, y => y
  end.

Lemma least_better {V} (Q R : list Z * V -> Prop) x y :
  least Q x -> least R y -> least (fun e => Q e \/ R e) (better x y).
Proof.
  destruct x as [a|], y as [b|]; cbn; [|naive_solver..]. intros [Ha Ha'] [Hb Hb'].
  destruct (oid_ltb b.1 a.1) eqn:E; cbn.
  - apply oid_ltb_lt in E. split; [by right|]. intros e [He|He]; [|by apply Hb'].
    intros Hlt. apply (Ha' e He). by eapply oid_lt_trans.
  - apply oid_ltb_ge in E. split; [by left|]. intros e [He|He]; [by apply Ha'|]. intros Hlt.
    apply (Hb' e He). destruct (oid_lt_total a.1 b.1) as [H|[H|H]]; [by eapply oid_lt_trans|by rewrite <- H|done].
Qed.

Lemma least_iff {V} (Q R : list Z * V -> Prop) x : (forall e, Q e <-> R e) -> least Q x -> least R x.
Proof. destruct x; cbn; naive_solver. Qed.

Lemma least_find {V} (l : list (list Z * V)) after :
  ascending l -> least (fun e => e ∈ l /\ oid_lt after e.1) (find (fun e => oid_ltb after e.1) l).
Proof.
  intros Hl. pose proof (find_above l after Hl) as H. destruct (find _ l) as [[k v]|]; cbn.
  - destruct H as (H1 & H2 & H3). split; [done|]. intros [k' v'] [Hin Hlt]. by eapply H3.
  - intros [k v] [Hin Hlt]. by eapply H.
Qed.

(** One table's answer is its least row above [after]. *)
Lemma table_candidate p t after cursor :
  table_lawful p t (rows p) -> table_cursor after p = Some cursor ->
  exists x, t_next t cursor w = Ok x
  /\ least (fun e => e ∈ rows p /\ oid_lt after e.1) x
  /\ match x with Some e => oid_ltb after e.1 = true | None => True end.
Proof.
  intros [Ha Hb Hf Hn _]. unfold table_cursor. destruct (_ || _) eqn:E; [|done]. intros [= <-].
  destruct (oid_ltb after p) eqn:Ep.
  - apply oid_ltb_lt in Ep. exists (head (rows p)). split; [done|].
    assert (Hall : forall e, e ∈ rows p -> oid_lt after e.1).
    { intros e He. rewrite Forall_forall in Hb. by eapply prefix_above; [apply Hb|]. }
    destruct (rows p) as [|[k v] l]; cbn; [split; [intros e [He _]; by apply elem_of_nil in He|done]|].
    split; [|apply oid_ltb_lt, (Hall (k, v)); by left]. split; [split; [by left|apply (Hall (k, v)); by left]|].
    intros [k' v'] [[[= -> ->]|Hin]%elem_of_cons _]; cbn; [apply oid_lt_irrefl|].
    inversion Ha as [|? ? ? Hk]; subst. apply (above_head _ _ _ _ Hk) in Hin. intros Hc. by eapply oid_lt_irrefl, oid_lt_trans.
  - eexists. split; [apply Hn|]. pose proof (least_find (rows p) after Ha) as Hl. split; [done|].
    destruct (find _ (rows p)) as [[k v]|]; [|done]. by apply oid_ltb_lt, Hl.
Qed.

(** A table that is skipped has nothing above [after]. *)
Lemma table_skipped p t after :
  table_lawful p t (rows p) -> table_cursor after p = None ->
  least (fun e => e ∈ rows p /\ oid_lt after e.1) None.
Proof.
  intros [_ Hb _ _ _]. unfold table_cursor. destruct (_ || _) eqn:E; [done|]. apply orb_false_iff in E as [E1 E2].
  intros _ e [He Hlt]. rewrite Forall_forall in Hb. apply oid_ltb_ge in E2.
  pose proof (prefix_below after p e.1 (Hb e He) E1 E2) as H. by eapply oid_lt_irrefl, oid_lt_trans.
Qed.

(** The loop over the tables finds the least row above [after]. *)
Lemma tables_next_least after l best Q :
  (forall p t, (p, t) ∈ l -> table_lawful p t (rows p)) -> least Q best ->
  exists x, tables_next after w l best = Ok x
  /\ least (fun e => Q e \/ exists p t, (p, t) ∈ l /\ e ∈ rows p /\ oid_lt after e.1) x.
Proof.
  revert best Q. induction l as [|[p t] l IH]; intros best Q Hl Hb; cbn [tables_next].
  { exists best. split; [done|]. eapply least_iff; [|exact Hb]. intros e. split; [by left|].
    intros [H|(p & t & H & _)]; [done|by apply elem_of_nil in H]. }
  assert (Hp : table_lawful p t (rows p)) by (apply Hl; by left).
  assert (Hl' : forall p t, (p, t) ∈ l -> table_lawful p t (rows p)) by (intros; apply Hl; by right).
  assert (Hstep : forall x, least (fun e => e ∈ rows p /\ oid_lt after e.1) x ->
    exists y, tables_next after w l (better best x) = Ok y
    /\ least (fun e => Q e \/ exists q u, (q, u) ∈ (p, t) :: l /\ e ∈ rows q /\ oid_lt after e.1) y).
  { intros x Hx. destruct (IH (better best x) _ Hl' (least_better _ _ _ _ Hb Hx)) as (y & E & Hy).
    exists y. split; [done|]. eapply least_iff; [|exact Hy]. intros e. setoid_rewrite elem_of_cons. naive_solver. }
  destruct (table_cursor after p) as [cursor|] eqn:Ec.
  - destruct (table_candidate p t after cursor Hp Ec) as (x & -> & Hx & Hgt). unfold mbind, result_bind.
    destruct (Hstep x Hx) as (y & E & Hy). exists y. split; [|done]. rewrite <- E. f_equal.
    destruct x as [[o v]|]; [cbn in Hgt; rewrite Hgt|]; destruct best as [[b u]|]; cbn; try done.
  - destruct (Hstep None (table_skipped p t after Hp Ec)) as (y & E & Hy). exists y. split; [|done].
    rewrite <- E. f_equal. by destruct best.
Qed.

(** [next] finds the least managed object above [after]; at equal identifiers
    a scalar hides a row. *)
Lemma reg_next_spec r after :
  registry_ok r ->
  match reg_next r after w with
  | Ok (Some (o, v)) =>
      oid_lt after o
      /\ ((exists h, (o, h) ∈ scalars r /\ h_get h w = Ok v)
          \/ (forall h, (o, h) ∉ scalars r) /\ exists p t, (p, t) ∈ tables r /\ (o, v) ∈ rows p)
      /\ forall o', managed_oid r o' -> oid_lt after o' -> ~ oid_lt o' o
  | Ok None => forall o, managed_oid r o -> ~ oid_lt after o
  | Err e => exists o h, (o, h) ∈ scalars r /\ h_get h w = Err e
  end.
Proof.
  intros [Hs _ Hl]. unfold reg_next. rewrite find_range. pose proof (least_find (scalars r) after Hs) as Hsc.
  destruct (tables_next_least after (tables r) None (fun _ => False) Hl) as (x & -> & Hx); [intros e []|].
  cbn [mbind result_bind]. assert (Htab : least (fun e => exists p t, (p, t) ∈ tables r /\ e ∈ rows p /\ oid_lt after e.1) x)
    by (eapply least_iff; [|exact Hx]; cbn; tauto). clear Hx.
  destruct (find _ (scalars r)) as [[so h]|]; cbn in Hsc.
  - destruct Hsc as [[Hin Hlt] Hmin]. destruct (h_get h w) as [sv|e] eqn:Eg; cbn; [|by exists so, h].
    assert (Hsmin : forall h' o', (o', h') ∈ scalars r -> oid_lt after o' -> ~ oid_lt o' so) by (intros h' o' H1 H2; by apply (Hmin (o', h'))).
    destruct x as [[to tv]|]; cbn in Htab.
    + destruct Htab as [(p & t & Hp & Hrow & Hto) Htmin].
      assert (Htm : forall p t o' v, (p, t) ∈ tables r -> (o', v) ∈ rows p -> oid_lt after o' -> ~ oid_lt o' to)
        by (intros q u o' v H1 H2 H3; apply (Htmin (o', v)); by exists q, u).
      destruct (oid_ltb to so) eqn:E.
      * apply oid_ltb_lt in E. split_and!; [done|right|].
        { split; [intros h' Hin'; by eapply Hsmin|by exists p, t]. }
        intros o' [[h' H]|(q & u & v & H1 & H2)] Ho; [|by eapply Htm]. intros Hc.
        eapply Hsmin; [exact H|done|by eapply oid_lt_trans].
      * apply oid_ltb_ge in E. split_and!; [done|left; by exists h|].
        intros o' [[h' H]|(q & u & v & H1 & H2)] Ho; [by eapply Hsmin|]. intros Hc.
        eapply Htm; [exact H1|exact H2|done|]. destruct (oid_lt_total to so) as [?|[->|?]]; [done|done|by eapply oid_lt_trans].
    + split_and!; [done|left; by exists h|]. intros o' [[h' H]|(q & u & v & H1 & H2)] Ho; [by eapply Hsmin|].
      exfalso. eapply (Htab (o', v)). by exists q, u.
  - assert (Hnone : forall o h, (o, h) ∈ scalars r -> ~ oid_lt after o) by (intros o h H Hlt; by apply (Hsc (o, h))).
    destruct x as [[to tv]|]; cbn in Htab |- *.
    + destruct Htab as [(p & t & Hp & Hrow & Hto) Htmin]. split_and!; [done|right|].
      { split; [intros h H; by eapply Hnone|by exists p, t]. }
      intros o' [[h H]|(q & u & v & H1 & H2)] Ho; [by destruct (Hnone _ _ H)|].
      apply (Htmin (o', v)). by exists q, u.
    + intros o [[h H]|(q & u & v & H1 & H2)]; [by eapply Hnone|]. intros Ho. apply (Htab (o, v)). by exists q, u.
Qed.

(** No table lies inside another. *)
Definition flat (r : MibRegistry W) : Prop :=
  forall p t q u, (p, t) ∈ tables r -> (q, u) ∈ tables r -> starts_with p q = true -> p = q.

(** [get] on a managed row that no scalar hides. *)
Lemma reg_get_row r p t o v :
  registry_ok r -> flat r -> (p, t) ∈ tables r -> (o, v) ∈ rows p -> (forall h, (o, h) ∉ scalars r) ->
  reg_get r o w = Ok (Some v).
Proof.
  intros [_ _ Hl] Hflat Hp Hrow Hns. pose proof (Hl p t Hp) as [Ha Hb _ _ _]. unfold reg_get, scalar.
  destruct (bt_get o (scalars r)) as [h|] eqn:E; [by apply bt_get_in, Hns in E|]. clear E.
  assert (starts_with o p = true) as Ho by (rewrite Forall_forall in Hb; apply (Hb (o, v) Hrow)).
  unfold table_for. destruct (find _ (tables r)) as [[q u]|] eqn:E.
  - apply find_some in E as [Hq Hoq]. apply list_elem_of_In in Hq. cbn in Hoq.
    assert (p = q) as <- by (destruct (prefixes_nested o p q) as [H|H]; [done|done|by eapply Hflat|symmetry; by eapply Hflat]).
    destruct (Hl p u Hq) as [_ _ _ _ ->]. f_equal. by apply ascending_lookup.
  - pose proof (find_none _ _ E (p, t)) as H. cbn in H. rewrite Ho in H. by apply list_elem_of_In, H in Hp.
Qed.

(** ** Walking *)

(** A manager's walk: [GetNext] from each answer on. *)
Fixpoint walk (fuel : nat) (r : MibRegistry W) (after : list Z) : option (Result BerError (list (list Z * Value))) :=
  match fuel with
  | O => None
  | S fuel' =>
      match reg_next r after w with
      | Err e => Some (Err e)
      | Ok None => Some (Ok [])
      | Ok (Some (o, v)) =>
          match walk fuel' r o with
          | Some (Ok l) => Some (Ok ((o, v) :: l))
          | x => x
          end
      end
  end.

(** The identifiers above [after], with repetitions. *)
Definition oids (r : MibRegistry W) : list (list Z) :=
  (scalars r).*1 ++ collect (fun e => (rows e.1).*1) (tables r).

Lemma elem_of_oids r o : o ∈ oids r <-> managed_oid r o.
Proof.
  unfold oids, managed_oid. rewrite elem_of_app, elem_of_collect, list_elem_of_fmap.
  setoid_rewrite list_elem_of_fmap. split.
  - intros [([o' h] & -> & H)|([p t] & H & ([o' v] & -> & H'))]; [left; by exists h|right; by exists p, t, v].
  - intros [[h H]|(p & t & v & H & H')]; [left; by exists (o, h)|right; exists (p, t); split; [|exists (o, v)]; done].
Qed.

Definition above (r : MibRegistry W) (after : list Z) : nat :=
  length (List.filter (oid_ltb after) (oids r)).

Lemma filter_shrinks {A} (P Q : A -> bool) l x :
  (forall y, Q y = true -> P y = true) -> x ∈ l -> P x = true -> Q x = false ->
  (length (List.filter Q l) < length (List.filter P l))%nat.
Proof.
  intros HPQ Hin Hx Hq. assert (Hle : forall l, (length (List.filter Q l) <= length (List.filter P l))%nat).
  { clear -HPQ. intros l. induction l as [|y l IH]; cbn; [done|]. destruct (Q y) eqn:E; [rewrite (HPQ y E); cbn; lia|].
    destruct (P y); cbn; lia. }
  induction Hin as [x l|x y l Hin IH]; cbn.
  - rewrite Hx, Hq. cbn. specialize (Hle l). lia.
  - specialize (IH Hx Hq). destruct (Q y) eqn:E; [rewrite (HPQ y E); cbn; lia|]. destruct (P y); cbn; lia.
Qed.

Lemma above_shrinks r after o : managed_oid r o -> oid_lt after o -> (above r o < above r after)%nat.
Proof.
  intros Hm Hlt. apply (filter_shrinks _ _ _ o).
  - intros y Hy%oid_ltb_lt. apply oid_ltb_lt. by eapply oid_lt_trans.
  - by apply elem_of_oids.
  - by apply oid_ltb_lt.
  - apply oid_ltb_ge, oid_lt_irrefl.
Qed.
End Registry.

(** ** Lemmas: text *)

Lemma parse_display o : o <> [] -> Forall (in_u 32) o -> parse_arcs (split_on "." (oid_display o)) = Ok o.
Proof.
  intros Hne Ho. induction Ho as [|a o Ha Ho IH]; [done|].
  assert (no_char "." (pretty a) = true) as Hd by (apply pretty_no_char; [done|by destruct Ha]).
  destruct o as [|b o].
  - cbn [oid_display]. rewrite split_on_no_char by done. cbn [parse_arcs]. by rewrite parse_uint_pretty.
  - change (oid_display (a :: b :: o)) with (pretty a +:+ String "." (oid_display (b :: o)))%string.
    rewrite split_on_app by done. cbn [parse_arcs]. rewrite parse_uint_pretty by done.
    cbn [ok_or mbind result_bind]. by rewrite IH.
Qed.

Lemma trim_display o : Forall (in_u 32) o -> o <> [] -> trim_start_matches "." (oid_display o) = oid_display o.
Proof.
  intros Ho Hne. destruct o as [|a o]; [done|]. inversion Ho as [|? ? Ha _]; subst.
  assert (exists x t, oid_display (a :: o) = String x t /\ Ascii.eqb x "." = false) as (x & t & -> & Hx); [|cbn [trim_start_matches]; by rewrite Hx].
  pose proof (parse_uint_pretty 32 a Ha) as Hp. pose proof (pretty_no_char "." a eq_refl (proj1 Ha)) as Hd.
  destruct (pretty a) as [|x t] eqn:E; [done|]. cbn [no_char] in Hd. apply andb_true_iff in Hd as [Hx%negb_true_iff _].
  destruct o as [|b o]; cbn [oid_display]; rewrite E; [by exists x, t|].
  exists x, (t +:+ "." +:+ oid_display (b :: o))%string. done.
Qed.

(** ** Lemmas: the default [get] of a table *)

Lemma ascending_app_r {V} (l1 l2 : list (list Z * V)) : ascending (l1 ++ l2) -> ascending l2.
Proof. induction l1 as [|e l1 IH]; [done|]. intros H. inversion H. by apply IH. Qed.

Lemma find_suffix {V} (l1 l2 : list (list Z * V)) k v :
  ascending (l1 ++ (k, v) :: l2) -> find (fun e => oid_ltb k e.1) (l1 ++ (k, v) :: l2) = head l2.
Proof.
  induction l1 as [|[k1 v1] l1 IH]; intros H; cbn.
  - inversion H as [|? ? ? Hk]; subst. rewrite (proj2 (oid_ltb_ge k k)) by apply oid_lt_irrefl.
    destruct l2 as [|[k2 v2] l2]; [done|]. inversion Hk as [|? ? Hlt _]; subst. cbn. by rewrite (proj2 (oid_ltb_lt k k2)).
  - inversion H as [|? ? Ha Hk]; subst. rewrite (proj2 (oid_ltb_ge k k1)); [by apply IH|].
    intros Hc. assert (oid_lt k1 k) as H1 by (eapply (above_head k1 k v); [exact Hk|]; set_solver).
    exact (oid_lt_irrefl k (oid_lt_trans _ _ _ Hc H1)).
Qed.

Lemma default_get_suffix {W} (w : W) (next : Next W) rows l1 l2 cur oid :
  ascending rows -> rows = l1 ++ l2 -> next cur w = Ok (head l2) ->
  (forall a, next (Some a) w = Ok (find (fun e => oid_ltb a e.1) rows)) ->
  default_get (S (length l2)) next cur oid w = Some (Ok (bt_get oid l2)).
Proof.
  intros Hr. revert l1 cur. induction l2 as [|[k v] l2 IH]; intros l1 cur E Hc Hn.
  - cbn. by rewrite Hc.
  - cbn [length]. remember (S (length l2)) as fuel. cbn [default_get]. rewrite Hc. cbn [head].
    unfold bt_get. cbn [find fst]. case_bool_decide as Ek; [done|].
    assert (ascending ((k, v) :: l2)) as Hs by (apply (ascending_app_r l1); by rewrite <- E).
    apply StronglySorted_inv in Hs as [_ Hk].
    destruct (oid_ltb oid k) eqn:El.
    + apply oid_ltb_lt in El. do 2 f_equal. symmetry. apply fmap_None.
      destruct (find _ l2) as [[k' v']|] eqn:Ef; [|done]. apply find_some in Ef as [Hin Hb].
      apply bool_decide_eq_true in Hb. cbn in Hb. subst k'. apply list_elem_of_In, (above_head _ _ _ _ Hk) in Hin.
      destruct (oid_lt_irrefl oid (oid_lt_trans _ _ _ El Hin)).
    + subst fuel. apply (IH (l1 ++ [(k, v)])); [by rewrite <- app_assoc| |done].
      rewrite Hn. f_equal. rewrite E. apply (find_suffix l1 l2 k v). by rewrite <- E.
Qed.

(** ** A table over a list of rows *)

Definition rows_next {W} (rows : list (list Z * Value)) : Next W := fun after _ =>
  Ok (match after with None => head rows | Some a => find (fun e => oid_ltb a e.1) rows end).

(** With the default [get]; the walk ends within the rows. *)
Definition rows_table {W} (rows : list (list Z * Value)) : TableHandler W :=
  mkTableHandler (rows_next rows)
    (fun o w => default (Ok None) (default_get (S (length rows)) (rows_next rows) None o w)).

(** The default [get] of a table is exact: a table whose [next] walks its rows
    in order answers every identifier from its rows. *)
Lemma rows_table_lawful {W} (w : W) prefix rows :
  ascending rows -> Forall (fun e => starts_with e.1 prefix = true) rows ->
  table_lawful w prefix (rows_table rows) rows.
Proof.
  intros Ha Hb. split; [done|done|done|done|]. intros o. cbn [t_get rows_table].
  by rewrite (default_get_suffix w (rows_next rows) rows [] rows None o).
Qed.

(** ** Properties *)

(** Identifiers survive their text, with or without leading dots. *)
Theorem oid_text_roundtrip o :
  Forall (in_u 32) o -> (2 <= length o)%nat ->
  oid_from_str (oid_display o) = Ok o /\ oid_from_str ("." +:+ oid_display o) = Ok o.
Proof.
  intros Ho Hlen. assert (o <> []) as Hne by (by destruct o; [cbn in Hlen; lia|]).
  assert (oid_from_str (oid_display o) = Ok o) as E.
  { unfold oid_from_str. rewrite trim_display, parse_display by done.
    cbn [mbind result_bind]. by rewrite (proj2 (Nat.ltb_ge _ _)). }
  split; [done|]. exact E.
Qed.

(** C24: [GetNext] is the successor of an ordered map.  Over lawful tables none
    of which lies inside another, [next] returns the least managed identifier
    strictly above its argument together with the value [get] reports for it,
    whichever of the scalars and tables holds it and whichever tables it
    skips; and it returns nothing exactly when no managed identifier is
    above. *)
Theorem mib_next_exact {W} (w : W) rows r after :
  registry_ok w rows r -> flat r ->
  (forall o h, (o, h) ∈ scalars r -> exists v, h_get h w = Ok v) ->
  match reg_next r after w with
  | Ok (Some (o, v)) =>
      managed_oid rows r o /\ oid_lt after o /\ reg_get r o w = Ok (Some v)
      /\ forall o', managed_oid rows r o' -> oid_lt after o' -> o' = o \/ oid_lt o o'
  | Ok None => forall o, managed_oid rows r o -> ~ oid_lt after o
  | Err _ => False
  end.
Proof.
  intros Hr Hf Hs. pose proof (reg_next_spec w rows r after Hr) as H.
  destruct (reg_next r after w) as [[[o v]|]|e]; [|done|destruct H as (o & h & Hin & He); destruct (Hs o h Hin); congruence].
  destruct H as (Hlt & Hfrom & Hmin). split_and!; [|done| |].
  - destruct Hfrom as [(h & Hin & _)|(_ & p & t & Hp & Hrow)]; [left; by exists h|right; by exists p, t, v].
  - destruct Hfrom as [(h & Hin & Hg)|(Hns & p & t & Hp & Hrow)]; [|by eapply reg_get_row].
    unfold reg_get, scalar. rewrite (ascending_lookup _ o h) by (done || apply Hr). by rewrite Hg.
  - intros o' Ho' Hlt'. destruct (oid_lt_total o' o) as [Hc|[->|Hc]]; [by destruct (Hmin o')|by left|by right].
Qed.

(** A scalar, and a table of two rows. *)
Definition demo_rows (p : list Z) : list (list Z * Value) :=
  if bool_decide (p = [1; 3; 6; 9]) then [([1; 3; 6; 9; 1], Integer 11); ([1; 3; 6; 9; 2], Integer 22)] else [].

Definition demo_registry : MibRegistry unit :=
  add_table [1; 3; 6; 9] (rows_table (demo_rows [1; 3; 6; 9]))
    (add_scalar [1; 3; 6; 5; 0] (ConstScalar (Integer 7)) MibRegistry_new).

Lemma demo_registry_ok : registry_ok tt demo_rows demo_registry.
Proof.
  split; [repeat constructor|repeat constructor|]. intros p t H.
  apply list_elem_of_singleton in H. injection H as -> ->. apply rows_table_lawful.
  - repeat constructor.
  - apply Forall_forall. intros e [->|[->|H]%elem_of_cons]%elem_of_cons; [done|done|by apply elem_of_nil in H].
Qed.

Lemma demo_scalars o h : (o, h) ∈ scalars demo_registry -> exists v, h_get h tt = Ok v.
Proof. intros H. apply list_elem_of_singleton in H. injection H as -> ->. by exists (Integer 7). Qed.

Lemma mib_next_exact_witness :
  reg_next demo_registry [1; 3; 6; 5; 0] tt = Ok (Some ([1; 3; 6; 9; 1], Integer 11))
  /\ managed_oid demo_rows demo_registry [1; 3; 6; 9; 1]
  /\ reg_get demo_registry [1; 3; 6; 9; 1] tt = Ok (Some (Integer 11)).
Proof.
  split; [reflexivity|].
  assert (flat demo_registry) as Hflat.
  { intros p t q u Hp Hq _. apply list_elem_of_singleton in Hp, Hq. congruence. }
  pose proof (mib_next_exact tt demo_rows demo_registry [1; 3; 6; 5; 0] demo_registry_ok Hflat demo_scalars) as H.
  change (reg_next demo_registry [1; 3; 6; 5; 0] tt) with (@Ok BerError _ (Some ([1; 3; 6; 9; 1], Integer 11))) in H.
  by destruct H as (H1 & _ & H2 & _).
Defined.

(** A walk visits everything once and ends.  Starting anywhere and asking
    [GetNext] from each answer on, a manager receives the managed identifiers
    above the start, each once and in ascending order, with values the
    registry manages, and after them the end: one request per identifier and
    one more are enough. *)
Theorem mib_walk_complete {W} (w : W) rows r after fuel :
  registry_ok w rows r -> (forall o h, (o, h) ∈ scalars r -> exists v, h_get h w = Ok v) ->
  (length (oids rows r) < fuel)%nat ->
  exists l, walk w fuel r after = Some (Ok l) /\ ascending l
  /\ (forall o, (exists v, (o, v) ∈ l) <-> managed_oid rows r o /\ oid_lt after o)
  /\ (forall o v, (o, v) ∈ l -> managed w rows r o v).
Proof.
  intros Hr Hs Hf. assert (above rows r after < fuel)%nat as Ha.
  { unfold above. pose proof (List.filter_length_le (oid_ltb after) (oids rows r)). lia. }
  clear Hf. revert after Ha. induction fuel as [|fuel IH]; intros after Ha; [lia|]. cbn [walk].
  pose proof (reg_next_spec w rows r after Hr) as H.
  destruct (reg_next r after w) as [[[o v]|]|e]; [| |destruct H as (o & h & Hin & He); destruct (Hs o h Hin); congruence].
  - destruct H as (Hlt & Hfrom & Hmin).
    assert (managed_oid rows r o) as Hm
      by (destruct Hfrom as [(h & Hin & _)|(_ & p & t & Hp & Hrow)]; [left; by exists h|right; by exists p, t, v]).
    destruct (IH o) as (l & -> & Hl & Hin & Hv); [pose proof (above_shrinks rows r after o Hm Hlt); lia|].
    exists ((o, v) :: l). split_and!; [done|constructor; [done|]| |].
    + apply Forall_forall. intros [o' v'] He. apply (Hin o'). by exists v'.
    + intros o'. setoid_rewrite elem_of_cons. split.
      * intros [v' [[= -> ->]|He]]; [done|]. destruct (proj1 (Hin o')) as [H1 H2]; [by exists v'|].
        split; [done|by eapply oid_lt_trans].
      * intros [H1 H2]. destruct (oid_lt_total o' o) as [Hc|[->|Hc]]; [by destruct (Hmin o')|exists v; by left|].
        destruct (proj2 (Hin o')) as [v' He]; [done|]. exists v'. by right.
    + intros o' v' [[= -> ->]|He]%elem_of_cons; [|by apply Hv].
      destruct Hfrom as [(h & ? & ?)|(_ & p & t & ? & ?)]; [left; by exists h|right; by exists p, t].
  - exists []. split_and!; [done|constructor| |by intros o v ?%elem_of_nil]. intros o. split; [by intros [v ?%elem_of_nil]|].
    intros [H1 H2]. by destruct (H o).
Qed.

Lemma mib_walk_complete_witness :
  exists l, walk tt 4 demo_registry [] = Some (Ok l) /\ ascending l
  /\ (forall o, (exists v, (o, v) ∈ l) <-> managed_oid demo_rows demo_registry o /\ oid_lt [] o)
  /\ (forall o v, (o, v) ∈ l -> managed tt demo_rows demo_registry o v).
Proof. apply (mib_walk_complete tt demo_rows demo_registry [] 4); [apply demo_registry_ok|apply demo_scalars|apply Nat.ltb_lt; vm_compute; reflexivity]. Defined.
