(* ===== verification/Dispatch.v ===== *)
(** * Answering SNMP requests

    Models the request handlers of [crates/spt-snmp/src/agent.rs]:
    [handle_get], [handle_get_next], [handle_get_bulk], [handle_set] and
    [dispatch_pdu], over the registry of [Mib], with the byte budget of a
    response.  Encoding a binding can panic (see [Ber]), so the handlers return
    an [Outcome]. *)

From S2P Require Import Prelude Bytes Ber Pdu Mib.

#[export] Instance Value_eq_dec : EqDecision Value.
Proof. solve_decision. Defined.
#[export] Instance VarBind_eq_dec : EqDecision VarBind.
Proof. solve_decision. Defined.

Definition MAX_DATAGRAM : Z := 65507.
Definition MAX_BULK_REPETITIONS : Z := 100.
Definition MAX_BULK_NON_REPEATERS : Z := 100.
Definition MAX_BULK_RESPONSE_BYTES : Z := MAX_DATAGRAM.
Definition BULK_RESPONSE_OVERHEAD : Z := 512.

Definition bulk_response_budget (peer_msg_max_size : Z) : Z :=
  let peer := Z.max peer_msg_max_size 0 in
  let cap := Z.min MAX_BULK_RESPONSE_BYTES (Z.max peer 484) in
  Z.max (sat_sub cap BULK_RESPONSE_OVERHEAD) 64.

Definition encoded_varbind_len (vb : VarBind) : Outcome Z :=
  match VarBind_encode vb [] with
  | Return (Ok enc) => Return (Z.of_nat (length enc))
  | Return (Err _) => Return 32
  | Panic => Panic
  end.

(** The bindings of the response so far, and the bytes they use. *)
Definition Acc : Type := list VarBind * Z.

(** The macro [try_push!]: whether the binding was added. *)
Definition try_push (budget : Z) (acc : Acc) (vb : VarBind) : Outcome (bool * Acc) :=
  let '(bindings, used) := acc in
  est ← encoded_varbind_len vb;
  if negb (bool_decide (bindings = [])) && (budget <? sat_add 64 used est) then Return (false, acc)
  else Return (true, (bindings ++ [vb], sat_add 64 used est)).

Definition response (req : Pdu) (status : ErrorStatus) (index : Z) (bindings : list VarBind) : Pdu :=
  mkPdu Response (request_id req) (status_code status) index bindings.

Section Handlers.
Context {W : Type} (reg : MibRegistry W) (w : W).

(** The binding [Get] answers with. *)
Definition get_binding (vb : VarBind) : VarBind :=
  mkVarBind (vb_name vb)
    (match reg_get reg (vb_name vb) w with
     | Ok (Some v) => v
     | Ok None => NoSuchObject
     | Err _ => NoSuchObject
     end).

(** The loop of [handle_get]; [None] when the response is too big. *)
Fixpoint get_loop (budget : Z) (vbs : list VarBind) (acc : Acc) : Outcome (option (list VarBind)) :=
  match vbs with
  | [] => Return (Some acc.1)
  | vb :: r =>
      '(ok, acc) ← try_push budget acc (get_binding vb);
      if negb ok then Return None else get_loop budget r acc
  end.

Definition handle_get (req : Pdu) (msg_max_size : Z) : Outcome Pdu :=
  let budget := bulk_response_budget msg_max_size in
  r ← get_loop budget (variable_bindings req) ([], 0);
  match r with
  | None => Return (response req StTooBig 0 [])
  | Some bindings => Return (response req StNoError 0 bindings)
  end.

(** The binding [GetNext] answers with for [name], and the identifier it moved
    to. *)
Definition next_binding (name : list Z) : VarBind * option (list Z) :=
  match reg_next reg name w with
  | Ok (Some (oid, v)) => (mkVarBind oid v, Some oid)
  | _ => (mkVarBind name EndOfMibView, None)
  end.

(** The loop of [handle_get_next] and of the non-repeating part of
    [handle_get_bulk]; the flag says that the budget was hit. *)
Fixpoint next_loop (budget : Z) (names : list (list Z)) (acc : Acc) : Outcome (bool * Acc) :=
  match names with
  | [] => Return (false, acc)
  | name :: r =>
      '(ok, acc) ← try_push budget acc (next_binding name).1;
      if negb ok then Return (true, acc) else next_loop budget r acc
  end.

Definition handle_get_next (req : Pdu) (msg_max_size : Z) : Outcome Pdu :=
  let budget := bulk_response_budget msg_max_size in
  '(_, acc) ← next_loop budget (vb_name <$> variable_bindings req) ([], 0);
  Return (response req StNoError 0 acc.1).

(** A cursor after its round, in front of the others. *)
Definition advance (cur : list Z) (moved : option (list Z)) (rest : option (list (list Z) * bool)) :
    option (list (list Z) * bool) :=
  match rest with
  | None => None
  | Some (cs, all_end) => Some (default cur moved :: cs, match moved with None => all_end | Some _ => false end)
  end.

(** One repetition: the cursors after it and whether all are at the end, or
    [None] when the budget was hit. *)
Fixpoint bulk_row (budget : Z) (cursors : list (list Z)) (acc : Acc) :
    Outcome (option (list (list Z) * bool) * Acc) :=
  match cursors with
  | [] => Return (Some ([], true), acc)
  | cur :: r =>
      let '(vb, moved) := next_binding cur in
      '(ok, acc) ← try_push budget acc vb;
      if negb ok then Return (None, acc)
      else
        '(rest, acc) ← bulk_row budget r acc;
        Return (advance cur moved rest, acc)
  end.

(** [for _ in 0..max_rep]. *)
Fixpoint bulk_rounds (max_rep : nat) (budget : Z) (cursors : list (list Z)) (acc : Acc) : Outcome Acc :=
  match max_rep with
  | O => Return acc
  | S k =>
      '(row, acc) ← bulk_row budget cursors acc;
      match row with
      | None => Return acc
      | Some (_, true) => Return acc
      | Some (cursors, false) => bulk_rounds k budget cursors acc
      end
  end.

Definition handle_get_bulk (req : Pdu) (msg_max_size : Z) : Outcome Pdu :=
  let names := vb_name <$> variable_bindings req in
  let total := Z.of_nat (length names) in
  let n := Z.min (Z.min (Z.max (error_status req) 0) MAX_BULK_NON_REPEATERS) total in
  let max_rep := Z.min (Z.max (error_index req) 0) MAX_BULK_REPETITIONS in
  let budget := bulk_response_budget msg_max_size in
  '(budget_hit, acc) ← next_loop budget (take (Z.to_nat n) names) ([], 0);
  acc ← (if negb budget_hit && (n <? total) && (0 <? max_rep)
         then bulk_rounds (Z.to_nat max_rep) budget (drop (Z.to_nat n) names) acc
         else Return acc);
  Return (response req StNoError 0 acc.1).
End Handlers.

Section Set_.
Context {W : Type} (reg : MibRegistry W).

(** The loop of [handle_set]: status, index and the new state. *)
Fixpoint set_loop (i : Z) (vbs : list VarBind) (w : W) : ErrorStatus * Z * W :=
  match vbs with
  | [] => (StNoError, 0, w)
  | vb :: r =>
      match scalar reg (vb_name vb) with
      | Some h =>
          match h_set h (vb_value vb) w with
          | (SetOk, w) => set_loop (i + 1) r w
          | (outcome, w) => (to_error_status outcome, i + 1, w)
          end
      | None => (StNotWritable, i + 1, w)
      end
  end.

Definition handle_set (req : Pdu) (writable : bool) (w : W) : Pdu * W :=
  if negb writable then
    (response req StNoAccess (if bool_decide (variable_bindings req = []) then 0 else 1) (variable_bindings req), w)
  else
    let '(status, index, w) := set_loop 0 (variable_bindings req) w in
    (response req status index (variable_bindings req), w).

(** [dispatch_pdu]. *)
Definition dispatch_pdu (req : Pdu) (writable : bool) (msg_max_size : Z) (w : W) : Outcome (Pdu * W) :=
  match kind req with
  | GetRequest => p ← handle_get reg w req msg_max_size; Return (p, w)
  | GetNextRequest => p ← handle_get_next reg w req msg_max_size; Return (p, w)
  | GetBulkRequest => p ← handle_get_bulk reg w req msg_max_size; Return (p, w)
  | SetRequest => Return (handle_set req writable w)
  | Response | Report => Return (response req StGenErr 0 [], w)
  | SnmpV2Trap | InformRequest => Return (response req StNoError 0 [], w)
  end.
End Set_.

(** ** Specification: the longest prefix that fits *)

Definition vb_size (vb : VarBind) : Z :=
  match encoded_varbind_len vb with Return n => n | Panic => 0 end.

(** The binding is encoded without a panic, to a size an address space holds. *)
Definition encodable (vb : VarBind) : Prop :=
  exists n, encoded_varbind_len vb = Return n /\ 0 <= n <= 2 ^ 62.

(** [bs] is the longest prefix of [l] that fits the budget, and never empty
    unless [l] is. *)
Definition longest_prefix (budget : Z) (l bs : list VarBind) : Prop :=
  bs `prefix_of` l
  /\ (sum_by vb_size bs <= budget \/ length bs = 1%nat)
  /\ (bs = l \/ exists vb, bs ++ [vb] `prefix_of` l /\ bs <> [] /\ budget < sum_by vb_size (bs ++ [vb])).

(** Pushing a list of bindings until the budget is hit. *)
Fixpoint fill (budget : Z) (l : list VarBind) (acc : Acc) : Outcome (bool * Acc) :=
  match l with
  | [] => Return (false, acc)
  | vb :: r => '(ok, acc) ← try_push budget acc vb; if negb ok then Return (true, acc) else fill budget r acc
  end.

Section Reference.
Context {W : Type} (reg : MibRegistry W) (w : W).

(** What [GetBulk] would answer without a budget: one row per repetition, each
    from where the last one ended, until all cursors are at the end. *)
Definition answer (name : list Z) : VarBind := (next_binding reg w name).1.
Definition at_end (name : list Z) : bool := match (next_binding reg w name).2 with None => true | Some _ => false end.
Definition moved (name : list Z) : list Z := default name (next_binding reg w name).2.

Fixpoint bulk_rows (k : nat) (cursors : list (list Z)) : list VarBind :=
  match k with
  | O => []
  | S k => (answer <$> cursors) ++ (if forallb at_end cursors then [] else bulk_rows k (moved <$> cursors))
  end.

Definition bulk_reference (req : Pdu) : list VarBind :=
  let names := vb_name <$> variable_bindings req in
  let n := Z.to_nat (Z.min (Z.max (error_status req) 0) 100) in
  let r := Z.to_nat (Z.min (Z.max (error_index req) 0) 100) in
  (answer <$> take n names) ++ bulk_rows r (drop n names).

(** ** Lemmas: the loops fill *)

Lemma get_loop_fill budget vbs acc :
  get_loop reg w budget vbs acc
  = ('(hit, acc) ← fill budget (get_binding reg w <$> vbs) acc; Return (if (hit : bool) then None else Some acc.1)).
Proof.
  revert acc. induction vbs as [|vb vbs IH]; intros acc; [done|]. cbn.
  destruct (try_push budget acc _) as [[[] acc']|]; cbn; [apply IH|done|done].
Qed.

Lemma next_loop_fill budget names acc : next_loop reg w budget names acc = fill budget (answer <$> names) acc.
Proof.
  revert acc. induction names as [|n names IH]; intros acc; [done|]. cbn. unfold answer.
  destruct (try_push budget acc _) as [[[] acc']|]; cbn; [apply IH|done|done].
Qed.

Lemma fill_app budget l1 l2 acc :
  fill budget (l1 ++ l2) acc
  = ('(hit, acc) ← fill budget l1 acc; if (hit : bool) then Return (true, acc) else fill budget l2 acc).
Proof.
  revert acc. induction l1 as [|vb l1 IH]; intros acc; [done|]. cbn.
  destruct (try_push budget acc vb) as [[[] acc']|]; cbn; [apply IH|done|done].
Qed.

Lemma bulk_row_fill budget cs acc :
  bulk_row reg w budget cs acc
  = ('(hit, acc) ← fill budget (answer <$> cs) acc;
     Return (if (hit : bool) then None else Some (moved <$> cs, forallb at_end cs), acc)).
Proof.
  revert acc. induction cs as [|c cs IH]; intros acc; [done|]. cbn.
  destruct (next_binding reg w c) as [vb m] eqn:E.
  replace (answer c) with vb by (unfold answer; by rewrite E). cbn.
  destruct (try_push budget acc vb) as [[[] acc']|]; cbn; [|done|done]. rewrite IH.
  destruct (fill budget (answer <$> cs) acc') as [[[] acc2]|]; cbn; [done| |done].
  replace (moved c) with (default c m) by (unfold moved; by rewrite E).
  replace (at_end c) with (match m with None => true | Some _ => false end) by (unfold at_end; by rewrite E).
  by destruct m.
Qed.

Lemma bulk_rounds_fill k budget cs acc :
  bulk_rounds reg w k budget cs acc = ('(_, acc) ← fill budget (bulk_rows k cs) acc; Return acc).
Proof.
  revert cs acc. induction k as [|k IH]; intros cs acc; [done|]. cbn [bulk_rounds bulk_rows].
  rewrite bulk_row_fill, fill_app. destruct (fill budget (answer <$> cs) acc) as [[[] acc1]|]; cbn; [done| |done].
  destruct (forallb at_end cs); [done|apply IH].
Qed.

Lemma bulk_rows_length k cs : (length (bulk_rows k cs) <= k * length cs)%nat.
Proof.
  revert cs. induction k as [|k IH]; intros cs; [done|]. cbn [bulk_rows]. rewrite length_app, length_fmap.
  destruct (forallb at_end cs); cbn; [lia|]. specialize (IH (moved <$> cs)). rewrite length_fmap in IH. lia.
Qed.

Lemma handle_get_bulk_fill req size :
  handle_get_bulk reg w req size
  = ('(_, acc) ← fill (bulk_response_budget size) (bulk_reference req) ([], 0);
     Return (response req StNoError 0 acc.1)).
Proof.
  unfold handle_get_bulk, bulk_reference, MAX_BULK_NON_REPEATERS, MAX_BULK_REPETITIONS. cbv zeta.
  set (names := vb_name <$> variable_bindings req). set (s := Z.min (Z.max (error_status req) 0) 100).
  set (r := Z.min (Z.max (error_index req) 0) 100). set (total := Z.of_nat (length names)).
  clearbody names s r.
  assert (take (Z.to_nat (Z.min s total)) names = take (Z.to_nat s) names
    /\ drop (Z.to_nat (Z.min s total)) names = drop (Z.to_nat s) names) as [-> ->].
  { destruct (Z.le_gt_cases s total); [by rewrite Z.min_l|]. rewrite Z.min_r by lia. unfold total in *.
    rewrite Nat2Z.id, !take_ge, !drop_ge by lia. done. }
  rewrite next_loop_fill, fill_app.
  destruct (fill _ (answer <$> take (Z.to_nat s) names) ([], 0)) as [[[] acc]|]; [done| |done].
  cbn [mbind outcome_bind negb andb]. destruct (Z.ltb_spec (Z.min s total) total) as [Hlt|Hge]; cbn [andb].
  - destruct (Z.ltb_spec 0 r) as [Hr|Hr]; [rewrite bulk_rounds_fill; by destruct (fill _ _ acc) as [[]|]|].
    by replace (Z.to_nat r) with O by lia.
  - rewrite (drop_ge names) by (unfold total in *; lia). by destruct (Z.to_nat r).
Qed.
End Reference.

(** ** Lemmas: filling takes the longest prefix *)

Lemma sum_by_cons {A} (f : A -> Z) x l : sum_by f (x :: l) = f x + sum_by f l.
Proof. done. Qed.

Lemma sum_by_split {A} (f : A -> Z) l1 l2 : sum_by f (l1 ++ l2) = sum_by f l1 + sum_by f l2.
Proof. unfold sum_by. induction l1 as [|x l1 IH]; cbn; [done|]. rewrite IH. lia. Qed.

Lemma encodable_sizes_nonneg l : Forall encodable l -> 0 <= sum_by vb_size l.
Proof.
  induction 1 as [|vb l (n & E & Hn) Hl IH]; [done|]. rewrite sum_by_cons. unfold vb_size at 1. rewrite E. lia.
Qed.

Lemma try_push_spec budget bs used vb n :
  encoded_varbind_len vb = Return n ->
  try_push budget (bs, used) vb
  = Return (if negb (bool_decide (bs = [])) && (budget <? sat_add 64 used n) then (false, (bs, used))
            else (true, (bs ++ [vb], sat_add 64 used n))).
Proof. intros E. unfold try_push. rewrite E. cbn. by destruct (_ && _). Qed.

Lemma fill_longest budget pre l :
  0 < budget <= 65507 -> Forall encodable l -> Forall encodable pre ->
  (sum_by vb_size pre <= budget \/ length pre = 1%nat) ->
  exists hit bs, fill budget l (pre, sum_by vb_size pre) = Return (hit, (bs, sum_by vb_size bs))
  /\ longest_prefix budget (pre ++ l) bs /\ (hit = false <-> bs = pre ++ l).
Proof.
  intros Hb Hl. revert pre. induction Hl as [|vb l (n & E & Hn) Hl IH]; intros pre Hp Hfit; cbn [fill].
  - exists false, pre. rewrite app_nil_r. split; [done|]. split; [split_and!; [done|done|by left]|done].
  - assert (vb_size vb = n) as Ev by (unfold vb_size; by rewrite E).
    assert (0 <= sum_by vb_size pre <= 2 ^ 62) as Hs.
    { pose proof (encodable_sizes_nonneg pre Hp). destruct Hfit as [?|Hlen]; [lia|].
      destruct pre as [|x [|y pre]]; try done. inversion Hp as [|? ? (m & Em & Hm) _]; subst. cbn. unfold vb_size. rewrite Em. lia. }
    rewrite (try_push_spec _ _ _ _ n E), sat_add_small by (unfold umax; lia).
    assert (sum_by vb_size pre + n = sum_by vb_size (pre ++ [vb])) as Es by (rewrite sum_by_split; cbn; lia).
    destruct (_ && _) eqn:Eg; cbn [mbind outcome_bind negb].
    + apply andb_true_iff in Eg as [Hne%negb_true_iff Hlt%Z.ltb_lt]. apply bool_decide_eq_false in Hne.
      exists true, pre. split; [done|]. split.
      * split_and!; [by apply prefix_app_r|done|]. right. exists vb. split_and!; [|done|lia].
        exists l. by rewrite <- app_assoc.
      * split; [done|]. intros Hc. apply (f_equal length) in Hc. rewrite length_app in Hc. cbn in Hc. lia.
    + rewrite Es. destruct (IH (pre ++ [vb])) as (hit & bs & -> & Hlp & Hh).
      * apply Forall_app. split; [done|]. apply Forall_singleton. by exists n.
      * apply andb_false_iff in Eg as [Hne%negb_false_iff|Hlt%Z.ltb_ge]; [|left; lia].
        apply bool_decide_eq_true in Hne as ->. by right.
      * rewrite <- app_assoc in Hlp, Hh. by exists hit, bs.
Qed.

Lemma bulk_response_budget_range s : 64 <= bulk_response_budget s <= 64995.
Proof.
  unfold bulk_response_budget, sat_sub, BULK_RESPONSE_OVERHEAD, MAX_BULK_RESPONSE_BYTES, MAX_DATAGRAM. lia.
Qed.

(** ** Lemmas: assignments *)

(** [SetRequest] bindings that were all accepted, in order. *)
Inductive assigned {W} (reg : MibRegistry W) : list VarBind -> W -> W -> Prop :=
| assigned_nil w : assigned reg [] w w
| assigned_cons vb r h w w1 w2 :
    scalar reg (vb_name vb) = Some h -> h_set h (vb_value vb) w = (SetOk, w1) ->
    assigned reg r w1 w2 -> assigned reg (vb :: r) w w2.

(** How [set_loop] ends, when [i] bindings went before. *)
Definition set_ended {W} (reg : MibRegistry W) (i : Z) (vbs : list VarBind) (w : W) (r : ErrorStatus * Z * W) : Prop :=
  let '(status, index, w') := r in
  (status = StNoError /\ index = 0 /\ assigned reg vbs w w')
  \/ exists ok vb rest w1,
       vbs = ok ++ vb :: rest /\ assigned reg ok w w1 /\ index = i + Z.of_nat (length ok) + 1
       /\ (status = StNotWritable /\ scalar reg (vb_name vb) = None /\ w' = w1
           \/ exists h o, scalar reg (vb_name vb) = Some h /\ h_set h (vb_value vb) w1 = (o, w')
              /\ o <> SetOk /\ status = to_error_status o).

Lemma set_loop_ended {W} (reg : MibRegistry W) i vbs w : set_ended reg i vbs w (set_loop reg i vbs w).
Proof.
  revert i w. induction vbs as [|vb vbs IH]; intros i w; cbn [set_loop].
  { left. split_and!; [done|done|constructor]. }
  destruct (scalar reg (vb_name vb)) as [h|] eqn:Es.
  2: { right. exists [], vb, vbs, w. split_and!; [done|constructor|cbn; lia|]. by left. }
  destruct (h_set h (vb_value vb) w) as [o w1] eqn:Eh. destruct o;
    try (right; exists [], vb, vbs, w; split_and!; [done|constructor|cbn; lia|]; right; do 2 eexists; split_and!; done).
  specialize (IH (i + 1) w1). destruct (set_loop reg (i + 1) vbs w1) as [[status index] w'].
  destruct IH as [(-> & -> & Ha)|(ok & vb' & rest & w2 & -> & Ha & -> & H)].
  - left. split_and!; [done|done|by econstructor].
  - right. exists (vb :: ok), vb', rest, w2. split_and!; [done|by econstructor|cbn; lia|done].
Qed.

(** ** Properties *)

(** Read responses are exact and bounded.  [Get] answers every binding in
    order, or [tooBig] with none when they do not fit the budget; [GetNext]
    and [GetBulk] answer the longest prefix that fits of what they would
    answer without a budget, and at least one binding.  For [GetBulk] that is
    the requested rows walked from where the last row ended, at most 100
    non-repeaters and 100 repetitions whatever the request says.  The budget
    never exceeds the datagram. *)
Theorem read_responses_exact {W} (reg : MibRegistry W) w req size :
  let budget := bulk_response_budget size in
  let gets := get_binding reg w <$> variable_bindings req in
  let nexts := answer reg w <$> (vb_name <$> variable_bindings req) in
  Forall encodable gets -> Forall encodable nexts -> Forall encodable (bulk_reference reg w req) ->
  (exists bs, longest_prefix budget gets bs
     /\ handle_get reg w req size
        = Return (if bool_decide (bs = gets) then response req StNoError 0 gets else response req StTooBig 0 []))
  /\ (exists bs, longest_prefix budget nexts bs /\ handle_get_next reg w req size = Return (response req StNoError 0 bs))
  /\ (exists bs, longest_prefix budget (bulk_reference reg w req) bs
        /\ handle_get_bulk reg w req size = Return (response req StNoError 0 bs)
        /\ (length bs <= 100 + 100 * length (variable_bindings req))%nat)
  /\ 0 < budget <= MAX_DATAGRAM - BULK_RESPONSE_OVERHEAD.
Proof.
  intros budget gets nexts Hg Hn Hr. pose proof (bulk_response_budget_range size) as Hb. fold budget in Hb.
  assert (Hfill : forall l, Forall encodable l -> exists hit bs, fill budget l ([], 0) = Return (hit, (bs, sum_by vb_size bs))
    /\ longest_prefix budget l bs /\ (hit = false <-> bs = l)).
  { intros l Hl. apply (fill_longest budget [] l); [lia|done|constructor|left; cbn; lia]. }
  split_and!.
  - destruct (Hfill gets Hg) as (hit & bs & E & Hl & Hh). exists bs. split; [done|].
    unfold handle_get. rewrite get_loop_fill. fold gets. fold budget. rewrite E. cbn.
    destruct hit; case_bool_decide as Hc; try done; [by apply Hh in Hc|by rewrite <- Hc|by destruct Hc; apply Hh].
  - destruct (Hfill nexts Hn) as (hit & bs & E & Hl & _). exists bs. split; [done|].
    unfold handle_get_next. rewrite next_loop_fill. fold budget. fold nexts. by rewrite E.
  - destruct (Hfill _ Hr) as (hit & bs & E & Hl & _). exists bs. split_and!; [done| |].
    + rewrite handle_get_bulk_fill. fold budget. by rewrite E.
    + destruct Hl as [Hp%prefix_length _]. etrans; [exact Hp|]. unfold bulk_reference. rewrite length_app, length_fmap, length_take, length_fmap.
      pose proof (bulk_rows_length reg w (Z.to_nat (Z.min (Z.max (error_index req) 0) 100))
        (drop (Z.to_nat (Z.min (Z.max (error_status req) 0) 100)) (vb_name <$> variable_bindings req))) as H.
      rewrite length_drop, length_fmap in H. nia.
  - unfold MAX_DATAGRAM, BULK_RESPONSE_OVERHEAD. lia.
  - unfold MAX_DATAGRAM, BULK_RESPONSE_OVERHEAD. lia.
Qed.

Definition demo_bulk : Pdu := mkPdu GetBulkRequest 7 1 1000000 [mkVarBind [1; 3] Null; mkVarBind [1; 3; 6; 9] Null].

(** A million repetitions asked for: one non-repeater, and rows to the end. *)
Lemma read_responses_exact_witness :
  exists bs, longest_prefix (bulk_response_budget 65507) (bulk_reference demo_registry tt demo_bulk) bs
  /\ handle_get_bulk demo_registry tt demo_bulk 65507 = Return (response demo_bulk StNoError 0 bs)
  /\ (length bs <= 100 + 100 * 2)%nat.
Proof.
  assert (Hall : forall l, forallb (fun vb => match encoded_varbind_len vb with Return n => (0 <=? n) && (n <=? 2 ^ 62) | Panic => false end) l = true ->
    Forall encodable l).
  { intros l Hl. apply Forall_forall. intros vb Hin. rewrite forallb_forall in Hl. apply list_elem_of_In, Hl in Hin.
    unfold encodable. destruct (encoded_varbind_len vb) as [n|]; [|done]. exists n. bool_prop. done. }
  apply (read_responses_exact demo_registry tt demo_bulk 65507); apply Hall; vm_compute; reflexivity.
Defined.

(** [Set] assigns in order and stops at the first refusal.  A user without
    the write grant changes nothing.  Otherwise the bindings are assigned one
    by one; either all are accepted, or the response names the first that is
    not, with its reason, and the assignments before it stay. *)
Theorem set_in_order {W} (reg : MibRegistry W) req w :
  (let '(p, w') := handle_set reg req false w in w' = w /\ error_status p = status_code StNoAccess)
  /\ let '(p, w') := handle_set reg req true w in
     (error_status p = 0 /\ error_index p = 0 /\ assigned reg (variable_bindings req) w w')
     \/ (exists ok vb rest w1,
          variable_bindings req = ok ++ vb :: rest /\ assigned reg ok w w1
          /\ error_index p = Z.of_nat (length ok) + 1 /\ error_status p <> 0
          /\ (scalar reg (vb_name vb) = None /\ w' = w1
              \/ exists h o, scalar reg (vb_name vb) = Some h /\ h_set h (vb_value vb) w1 = (o, w') /\ o <> SetOk)).
Proof.
  split; [done|]. unfold handle_set. cbn [negb]. pose proof (set_loop_ended reg 0 (variable_bindings req) w) as H.
  destruct (set_loop reg 0 (variable_bindings req) w) as [[status index] w']. cbn [response error_status error_index].
  destruct H as [(-> & -> & H)|(ok & vb & rest & w1 & E & Ha & -> & H)]; [by left|right].
  exists ok, vb, rest, w1. destruct H as [(-> & Hs & ->)|(h & o & Hs & Eh & Ho & ->)].
  - split_and!; [done|done|cbn; lia|done|by left].
  - split_and!; [done|done|cbn; lia|by destruct o|]. right. by exists h, o.
Qed.
