(* ===== verification/Discovery.v ===== *)
(** * The discovery rate limiter

    Models [DiscoveryRateLimiter] of [crates/spt-snmp/src/agent.rs], the token
    buckets in front of the replies the SNMP agent sends without
    authentication.  Tokens are [f64]: IEEE double precision as the Standard
    Library specifies it, executable. *)

From Stdlib Require Import SpecFloat.
From S2P Require Import Prelude.

(** ** Double precision *)

Definition b64 : Type := spec_float.
Definition b64_of_Z (n : Z) : b64 := binary_normalize 53 1024 n 0 false.
Definition b64_add : b64 -> b64 -> b64 := SFadd 53 1024.
Definition b64_sub : b64 -> b64 -> b64 := SFsub 53 1024.
Definition b64_mul : b64 -> b64 -> b64 := SFmul 53 1024.
Definition b64_div : b64 -> b64 -> b64 := SFdiv 53 1024.
(** [f64::min] ignores a NaN operand. *)
Definition b64_min (a b : b64) : b64 :=
  match a, b with
  | S754_nan, _ => b
  | _, S754_nan => a
  | _, _ => if SFltb b a then b else a
  end.

(** [Duration::as_secs_f64]. *)
Definition as_secs_f64 (d : Z) : b64 :=
  b64_add (b64_of_Z (as_secs d)) (b64_div (b64_of_Z (d mod 1000000000)) (b64_of_Z 1000000000)).

(** ** The limiter *)

Definition DISCOVERY_BURST : Z := 5.
Definition DISCOVERY_REFILL_PER_SEC : b64 := b64_of_Z 1.
Definition DISCOVERY_MAX_SOURCES : nat := 4096.

Record DiscoveryBucket := mkDBucket { d_tokens : b64; d_last : Z }.

Section Limiter.
(** Source addresses. *)
Context {Ip : Type} `{Countable Ip}.

(** [DiscoveryRateLimiter] is its map of buckets. *)
Definition DiscoveryRateLimiter_new : gmap Ip DiscoveryBucket := ∅.

(** The predicate of [retain]: the bucket is not fully refilled. *)
Definition still_limited (now : Z) (b : DiscoveryBucket) : bool :=
  SFltb (b64_add (d_tokens b) (b64_mul (as_secs_f64 (duration_since now (d_last b))) DISCOVERY_REFILL_PER_SEC))
    (b64_of_Z DISCOVERY_BURST).

(** The bucket of a source that is served at [now]. *)
Definition spend (now : Z) (b : DiscoveryBucket) : bool * DiscoveryBucket :=
  let elapsed := as_secs_f64 (duration_since now (d_last b)) in
  let tokens := b64_min (b64_add (d_tokens b) (b64_mul elapsed DISCOVERY_REFILL_PER_SEC)) (b64_of_Z DISCOVERY_BURST) in
  if SFleb (b64_of_Z 1) tokens then (true, mkDBucket (b64_sub tokens (b64_of_Z 1)) now)
  else (false, mkDBucket tokens now).

(** [DiscoveryRateLimiter::allow]. *)
Definition discovery_allow (src : Ip) (now : Z) (l : gmap Ip DiscoveryBucket) : bool * gmap Ip DiscoveryBucket :=
  let full := (DISCOVERY_MAX_SOURCES <=? size l)%nat && negb (bool_decide (is_Some (l !! src))) in
  let l := if full then filter (fun e => still_limited now e.2 = true) l else l in
  if full && (DISCOVERY_MAX_SOURCES <=? size l)%nat then (false, l)
  else
    let bucket := default (mkDBucket (b64_of_Z DISCOVERY_BURST) now) (l !! src) in
    let '(ok, bucket) := spend now bucket in
    (ok, <[src := bucket]> l).

(** [n] requests of one source at one instant: how many are answered. *)
Fixpoint flood (n : nat) (src : Ip) (now : Z) (l : gmap Ip DiscoveryBucket) : nat * gmap Ip DiscoveryBucket :=
  match n with
  | O => (O, l)
  | S n' =>
      let '(ok, l) := discovery_allow src now l in
      let '(k, l) := flood n' src now l in
      ((if ok then 1 else 0) + k, l)%nat
  end.

(** ** Lemmas *)

Lemma allow_size src now l :
  (size l <= DISCOVERY_MAX_SOURCES)%nat -> (size (discovery_allow src now l).2 <= DISCOVERY_MAX_SOURCES)%nat.
Proof.
  intros Hs. unfold discovery_allow. set (full := _ && negb _). destruct full eqn:Ef; cbn [andb].
  - set (l' := filter _ l). destruct (Nat.leb_spec DISCOVERY_MAX_SOURCES (size l')) as [Hl|Hl]; cbn [snd].
    + etrans; [apply map_size_filter|done].
    + destruct (spend _ _) as [ok b]. cbn [snd]. rewrite map_size_insert. destruct (l' !! src); unfold id; lia.
  - destruct (spend _ _) as [ok b]. cbn [snd]. rewrite map_size_insert. destruct (l !! src) eqn:E; unfold id; [lia|].
    unfold full in Ef. apply andb_false_iff in Ef as [Ef%Nat.leb_gt|Ef]; [lia|].
    by rewrite bool_decide_false in Ef by (by intros []).
Qed.

(** A bucket that holds [k] whole tokens. *)
Lemma spend_whole now k :
  (k <= 5)%nat ->
  spend now (mkDBucket (b64_of_Z (Z.of_nat k)) now)
  = (if (k =? 0)%nat then false else true, mkDBucket (b64_of_Z (Z.of_nat (Nat.pred k))) now).
Proof.
  intros Hk. unfold spend. cbn [d_tokens d_last]. unfold duration_since, sat_sub. rewrite Z.sub_diag.
  do 6 (destruct k as [|k]; [vm_compute; reflexivity|]). lia.
Qed.

Lemma spend_fresh now :
  spend now (mkDBucket (b64_of_Z DISCOVERY_BURST) now) = (true, mkDBucket (b64_of_Z 4) now).
Proof. apply (spend_whole now 5). lia. Qed.

Lemma flood_whole n src now k (l : gmap Ip DiscoveryBucket) :
  (k <= 5)%nat -> l !! src = Some (mkDBucket (b64_of_Z (Z.of_nat k)) now) ->
  (flood n src now l).1 = Nat.min n k.
Proof.
  revert k l. induction n as [|n IH]; intros k l Hk Hl; [done|]. cbn [flood].
  assert (discovery_allow src now l = (if (k =? 0)%nat then false else true,
            <[src := mkDBucket (b64_of_Z (Z.of_nat (Nat.pred k))) now]> l)) as ->.
  { unfold discovery_allow. rewrite (bool_decide_true (is_Some (l !! src))) by eauto. cbn [negb]. rewrite andb_false_r.
    cbn [andb]. rewrite Hl. cbn [from_option]. unfold id. by rewrite spend_whole. }
  specialize (IH (Nat.pred k) (<[src := mkDBucket (b64_of_Z (Z.of_nat (Nat.pred k))) now]> l)).
  destruct (flood n src now _) as [j l']. cbn [fst] in *. rewrite IH; [destruct k; cbn; lia|lia|].
  apply lookup_insert_eq.
Qed.

(** A new source is refused and left out, or served from a fresh bucket. *)
Lemma fresh_allow src now (l : gmap Ip DiscoveryBucket) :
  l !! src = None ->
  ((discovery_allow src now l).1 = false /\ (discovery_allow src now l).2 !! src = None)
  \/ ((discovery_allow src now l).1 = true /\ (discovery_allow src now l).2 !! src = Some (mkDBucket (b64_of_Z 4) now)).
Proof.
  intros Hn. unfold discovery_allow. set (full := _ && negb _). set (l' := if full then _ else l).
  assert (l' !! src = None) as Hl by (unfold l'; destruct full; [apply map_lookup_filter_None; by left|done]).
  destruct (full && _); [by left|]. right. rewrite Hl. cbn [from_option].
  unfold id. rewrite spend_fresh. split; [done|]. apply lookup_insert_eq.
Qed.
End Limiter.

(** ** Properties *)

(** The discovery limiter is bounded in memory and in bursts.  However many
    sources appear, the table never holds more than 4096 of them, sources that
    are in the table are always served from their own bucket, and a source
    that sends any number of requests at one instant, having been quiet, is
    answered at most five times, and exactly so when there is room for it. *)
Theorem discovery_bounded {Ip} `{Countable Ip} (l : gmap Ip DiscoveryBucket) src now n :
  (size l <= DISCOVERY_MAX_SOURCES)%nat ->
  (size (flood n src now l).2 <= DISCOVERY_MAX_SOURCES)%nat
  /\ (l !! src = None -> ((flood n src now l).1 <= 5)%nat)
  /\ (l !! src = None -> (size l < DISCOVERY_MAX_SOURCES)%nat -> (flood n src now l).1 = Nat.min n 5).
Proof.
  intros Hs. split_and!.
  - revert l Hs. induction n as [|n IH]; intros l Hs; [done|]. cbn [flood]. pose proof (allow_size src now l Hs) as Ha.
    destruct (discovery_allow src now l) as [ok l1]. cbn [snd] in Ha. specialize (IH l1 Ha). by destruct (flood n src now l1).
  - intros Hn. revert l Hs Hn. induction n as [|n IH]; intros l Hs Hn; [cbn; lia|].
    destruct (fresh_allow src now l Hn) as [[E1 E2]|E]; cbn [flood].
    + pose proof (allow_size src now l Hs) as Ha. destruct (discovery_allow src now l) as [ok l1]. cbn [fst snd] in *. subst ok.
      specialize (IH l1 Ha E2). destruct (flood n src now l1). cbn [fst] in *. lia.
    + destruct (discovery_allow src now l) as [ok l1]. cbn [fst snd] in *. destruct E as [-> El].
      pose proof (flood_whole n src now 4 l1 ltac:(lia) El) as Hf. destruct (flood n src now l1). cbn [fst] in *. lia.
  - intros Hn Hroom. destruct n as [|n]; [done|]. cbn [flood].
    assert (discovery_allow src now l = (true, <[src := mkDBucket (b64_of_Z 4) now]> l)) as ->.
    { unfold discovery_allow. rewrite (proj2 (Nat.leb_gt _ _)) by done. cbn [andb]. rewrite Hn. cbn [from_option].
      unfold id. by rewrite spend_fresh. }
    pose proof (flood_whole n src now 4 _ ltac:(lia) (lookup_insert_eq l src (mkDBucket (b64_of_Z 4) now))) as Hf.
    destruct (flood n src now _). cbn [fst] in *. lia.
Qed.

Lemma discovery_bounded_witness :
  (flood 8 10 777 (∅ : gmap Z DiscoveryBucket)).1 = 5%nat.
Proof.
  apply (discovery_bounded (∅ : gmap Z DiscoveryBucket) 10 777 8).
  - rewrite map_size_empty. unfold DISCOVERY_MAX_SOURCES. lia.
  - reflexivity.
  - rewrite map_size_empty. unfold DISCOVERY_MAX_SOURCES. lia.
Defined.
