(* ===== verification/Agent.v ===== *)
(** * The SNMP agent

    Models the agent of [crates/spt-snmp/src/agent.rs]: the verification of a
    message under the user-based security model, reports, the assembly of
    responses, and [handle_datagram], composed of [Message], [Usm],
    [Discovery] and [Dispatch] in the order the code calls them.  Sending is
    the value returned; the socket loop calls [handle_datagram] on each
    datagram.  The clock is read several times while a datagram is handled:
    the readings that matter are fields of [Env]. *)

From S2P Require Import Prelude Bytes Ber Pdu Message Usm Mib Dispatch Discovery.

(** ** Configuration *)

Definition DOCUMENTATION_ENTERPRISE_PEN : Z := 32473.
Definition OLD_PLACEHOLDER_ENTERPRISE_PEN : Z := 99999.
Definition is_reserved_enterprise_pen (pen : Z) : bool :=
  (pen =? DOCUMENTATION_ENTERPRISE_PEN) || (pen =? OLD_PLACEHOLDER_ENTERPRISE_PEN).

(** Whether [validate_production_enterprise_pen] accepts the number. *)
Definition validate_production_enterprise_pen (pen : Z) : bool :=
  if pen =? 0 then false else negb (is_reserved_enterprise_pen pen).

(** The engine identity [AgentBuilder::run] settles on, or [None] for a
    configuration error. *)
Definition builder_engine_id (engine_id : option (list Z)) (enterprise_pen : option Z)
    (allow_documentation_pen : bool) (rnd : list Z) : option (list Z) :=
  match engine_id with
  | Some id => Some id
  | None =>
      match enterprise_pen with
      | None => None
      | Some pen =>
          if (if allow_documentation_pen then negb (pen =? 0) else validate_production_enterprise_pen pen)
          then Some (generate_engine_id pen rnd) else None
      end
  end.

Record UserKeys := mkUserKeys { uk_user : UsmUser; auth_kul : list Z; priv_kul : list Z }.

Section Agent.
Context `{!UsmCrypto} {W Ip : Type} `{Countable Ip}.

(** What does not change while the agent runs. *)
Record Agent := mkAgent {
  engine_id : list Z;
  clock : EngineClock;
  users : gmap (list Z) UserKeys;
  registry : MibRegistry W
}.

(** What does: the counters, the discovery limiter, and what the handlers
    write to. *)
Record AgentState := mkState {
  counters : UsmCounters;
  discovery_limiter : gmap Ip DiscoveryBucket;
  world : W
}.

(** The clock when the message is checked, when a response is encrypted and
    when it is assembled, and the random salt. *)
Record Env := mkEnv { ev_now : Z; ev_encrypt : Z; ev_assemble : Z; ev_salt : list Z }.

Context (a : Agent).

(** ** Verification *)

Definition with_auth_params (tag : list Z) (m : Message) : Message :=
  let s := security m in
  mkMessage (global m)
    (mkSecurity (sec_engine_id s) (sec_engine_boots s) (sec_engine_time s) (sec_user_name s) tag (sec_priv_params s))
    (data m).

(** [usm_verify].  It zeroes the tag of the message while it computes the
    digest and restores it, so the message is not returned. *)
Definition usm_verify (now : Z) (m : Message) (level : SecurityLevel) : Result BerError ScopedPdu :=
  let s := security m in
  match users a !! from_utf8_lossy (sec_user_name s) with
  | None => Err (Usm UnknownUserName)
  | Some keys =>
      let configured := security_level (uk_user keys) in
      if negb (bool_decide (level = configured)) then Err (Usm UnsupportedSecLevel)
      else if bool_decide (level = NoAuthNoPriv) then
        match data m with
        | Plain b => scoped_from_bytes b
        | Encrypted _ => Err (Usm UnsupportedSecLevel)
        end
      else
        auth_proto ← ok_or (Usm UnsupportedSecLevel) (u_auth (uk_user keys));
        _ ← check_time_window (clock a) now (sec_engine_boots s) (sec_engine_time s);
        let received_tag := sec_auth_params s in
        if negb (length received_tag =? digest_len auth_proto)%nat then Err (Usm WrongDigest)
        else
          let serialized := message_to_bytes (with_auth_params (replicate (digest_len auth_proto) 0) m) in
          let computed := auth_digest auth_proto (auth_kul keys) serialized in
          if negb (digests_match received_tag computed) then Err (Usm WrongDigest)
          else if bool_decide (level = AuthPriv) then
            match data m with
            | Plain _ => Err (Usm DecryptionError)
            | Encrypted ciphertext =>
                priv_proto ← ok_or (Usm UnsupportedSecLevel) (u_priv (uk_user keys));
                if negb (length (sec_priv_params s) =? 8)%nat then Err (Usm DecryptionError)
                else
                  match decrypt priv_proto (priv_kul keys) (sec_engine_boots s) (sec_engine_time s) (sec_priv_params s) ciphertext with
                  | Err _ => Err (Usm DecryptionError)
                  | Ok buf => scoped_from_bytes buf
                  end
            end
          else
            match data m with
            | Plain b => scoped_from_bytes b
            | Encrypted _ => Err (Usm DecryptionError)
            end
  end.

(** ** Responses *)

Definition extract_request_id (m : Message) : option Z :=
  match data m with
  | Plain b =>
      match scoped_from_bytes b with
      | Ok scoped => Some (request_id (scoped_pdu scoped))
      | Err _ => None
      end
  | Encrypted _ => None
  end.

(** The identifier of the counter of an error. *)
Definition counter_oid (e : UsmError) : string :=
  match e with
  | UnsupportedSecLevel => "1.3.6.1.6.3.15.1.1.1.0"
  | NotInTimeWindow => "1.3.6.1.6.3.15.1.1.2.0"
  | UnknownUserName => "1.3.6.1.6.3.15.1.1.3.0"
  | UnknownEngineId => "1.3.6.1.6.3.15.1.1.4.0"
  | WrongDigest => "1.3.6.1.6.3.15.1.1.5.0"
  | DecryptionError => "1.3.6.1.6.3.15.1.1.6.0"
  end.

Definition build_report (c : UsmCounters) (m : Message) (e : UsmError) : Result BerError ScopedPdu :=
  oid ← oid_from_str (counter_oid e);
  Ok (mkScoped (engine_id a) []
        (mkPdu Report (default 0 (extract_request_id m)) 0 0 [mkVarBind oid (Counter32 (counter c e))])).

(** The header of a response. *)
Definition reply_global (request : Message) (flags : Z) : GlobalData :=
  mkGlobal (msg_id (global request)) (Z.max (msg_max_size (global request)) 484) flags SECURITY_MODEL_USM.

Definition assemble_auth (e : Env) (request : Message) (body user_name : list Z) (auth_proto : AuthProtocol)
    (kul : list Z) (salt : option (list Z)) : list Z :=
  let flags := match salt with Some _ => Z.lor FLAG_AUTH FLAG_PRIV | None => FLAG_AUTH end in
  let priv_params := default [] salt in
  let sec tag := mkSecurity (engine_id a) (clk_boots (clock a)) (clock_time (clock a) (ev_assemble e)) user_name tag priv_params in
  let data := match salt with Some _ => Encrypted body | None => Plain body end in
  let msg tag := mkMessage (reply_global request flags) (sec tag) data in
  let pre := message_to_bytes (msg (replicate (digest_len auth_proto) 0)) in
  let tag := auth_digest auth_proto kul pre in
  message_to_bytes (msg tag).

(** [build_response_message]. *)
Definition build_response_message (e : Env) (request : Message) (scoped : ScopedPdu) (level : SecurityLevel)
    (user_keys : option UserKeys) : Outcome (Result BerError (list Z)) :=
  and_then (scoped_to_bytes scoped) (fun scoped_bytes =>
  Return (
    match level with
    | NoAuthNoPriv =>
        let user_name := match user_keys with Some k => u_name (uk_user k) | None => [] end in
        Ok (message_to_bytes (mkMessage (reply_global request 0)
              (mkSecurity (engine_id a) (clk_boots (clock a)) (clock_time (clock a) (ev_assemble e)) user_name [] [])
              (Plain scoped_bytes)))
    | AuthNoPriv =>
        keys ← ok_or (Usm UnknownUserName) user_keys;
        auth_proto ← ok_or (Usm UnsupportedSecLevel) (u_auth (uk_user keys));
        Ok (assemble_auth e request scoped_bytes (u_name (uk_user keys)) auth_proto (auth_kul keys) None)
    | AuthPriv =>
        keys ← ok_or (Usm UnknownUserName) user_keys;
        auth_proto ← ok_or (Usm UnsupportedSecLevel) (u_auth (uk_user keys));
        priv_proto ← ok_or (Usm UnsupportedSecLevel) (u_priv (uk_user keys));
        ciphertext ← encrypt priv_proto (priv_kul keys) (clk_boots (clock a)) (clock_time (clock a) (ev_encrypt e))
                       (ev_salt e) scoped_bytes;
        Ok (assemble_auth e request ciphertext (u_name (uk_user keys)) auth_proto (auth_kul keys) (Some (ev_salt e)))
    end)).

(** ** A datagram *)

Definition set_counters (c : UsmCounters) (st : AgentState) : AgentState :=
  mkState c (discovery_limiter st) (world st).
Definition set_limiter (l : gmap Ip DiscoveryBucket) (st : AgentState) : AgentState :=
  mkState (counters st) l (world st).
Definition set_world (w : W) (st : AgentState) : AgentState := mkState (counters st) (discovery_limiter st) w.

Definition bump_counter (e : UsmError) (st : AgentState) : Outcome AgentState :=
  c ← record (counters st) e; Return (set_counters c st).

(** What becomes of the datagram: the reply, no reply, or an error that is
    logged. *)
Definition Handled : Type := Result BerError (option (list Z)).

(** A report of [err], sent in the clear. *)
Definition report_reply (e : Env) (m : Message) (err : UsmError) (st : AgentState) : Outcome Handled :=
  match build_report (counters st) m err with
  | Err e => Return (Err e)
  | Ok scoped => outcome_map (fun r => b ← r; Ok (Some b)) (build_response_message e m scoped NoAuthNoPriv None)
  end.

(** The engine-id discovery branch. *)
Definition handle_discovery (e : Env) (m : Message) (peer : Ip) (st : AgentState) : Outcome (AgentState * Handled) :=
  st ← bump_counter UnknownEngineId st;
  let '(allowed, l) := discovery_allow peer (ev_now e) (discovery_limiter st) in
  let st := set_limiter l st in
  if negb allowed then Return (st, Ok None)
  else h ← report_reply e m UnknownEngineId st; Return (st, h).

(** The branch for a message that failed verification. *)
Definition handle_rejected (e : Env) (m : Message) (err : UsmError) (st : AgentState) : Outcome (AgentState * Handled) :=
  st ← bump_counter err st;
  if reportable_bit (global m) then
    match build_report (counters st) m err with
    | Ok _ => h ← report_reply e m err st; Return (st, h)
    | Err _ => Return (st, Ok None)
    end
  else Return (st, Ok None).

(** The branch for a verified request. *)
Definition handle_request (e : Env) (m : Message) (scoped : ScopedPdu) (level : SecurityLevel) (st : AgentState) :
    Outcome (AgentState * Handled) :=
  let keys := users a !! from_utf8_lossy (sec_user_name (security m)) in
  let writable := match keys with Some k => u_writable (uk_user k) | None => false end in
  '(response, w) ← dispatch_pdu (registry a) (scoped_pdu scoped) writable (msg_max_size (global m)) (world st);
  let st := set_world w st in
  let resp_scoped := mkScoped (engine_id a) (context_name scoped) response in
  r ← build_response_message e m resp_scoped level keys;
  Return (st, b ← r; Ok (Some b)).

(** [handle_datagram]. *)
Definition handle_datagram (e : Env) (bytes : list Z) (peer : Ip) (st : AgentState) : Outcome (AgentState * Handled) :=
  match message_from_bytes bytes with
  | Err _ => Return (st, Ok None)
  | Ok m =>
      let level := match from_flags (msg_flags (global m)) with Ok l => l | Err _ => NoAuthNoPriv end in
      if bool_decide (sec_engine_id (security m) = []) then handle_discovery e m peer st
      else if negb (bool_decide (sec_engine_id (security m) = engine_id a)) then
        st ← bump_counter UnknownEngineId st; Return (st, Ok None)
      else
        match usm_verify (ev_now e) m level with
        | Err (Usm err) => handle_rejected e m err st
        | Err other => Return (st, Err other)
        | Ok scoped => handle_request e m scoped level st
        end
  end.
End Agent.
Arguments Agent : clear implicits.
Arguments AgentState W Ip {_ _}.

(** ** Lemmas: verification *)

Section Verify.
Context `{!UsmCrypto} {W Ip : Type} `{Countable Ip} (a : Agent W).

(** What makes a message of [keys]' user acceptable: its level is exactly the
    user's, in both directions; above the lowest level its clock is within the
    window and its tag is the digest, under the user's key, of the message
    itself with the tag zeroed; and the PDU is what its data holds, decrypted
    at the highest level. *)
Definition authentic (now : Z) (m : Message) (level : SecurityLevel) (keys : UserKeys) (sp : ScopedPdu) : Prop :=
  let s := security m in
  users a !! from_utf8_lossy (sec_user_name s) = Some keys
  /\ level = security_level (uk_user keys)
  /\ (level <> NoAuthNoPriv ->
      exists p, u_auth (uk_user keys) = Some p
      /\ sec_engine_boots s = clk_boots (clock a)
      /\ Z.abs (clock_time (clock a) now - sec_engine_time s) <= 150
      /\ sec_auth_params s
         = auth_digest p (auth_kul keys) (message_to_bytes (with_auth_params (replicate (digest_len p) 0) m)))
  /\ match level with
     | AuthPriv =>
         exists pr c buf, data m = Encrypted c /\ u_priv (uk_user keys) = Some pr /\ length (sec_priv_params s) = 8%nat
         /\ decrypt pr (priv_kul keys) (sec_engine_boots s) (sec_engine_time s) (sec_priv_params s) c = Ok buf
         /\ scoped_from_bytes buf = Ok sp
     | _ => exists b, data m = Plain b /\ scoped_from_bytes b = Ok sp
     end.

Lemma time_window_ok c now pb pt :
  check_time_window c now pb pt = Ok tt <-> pb = clk_boots c /\ Z.abs (clock_time c now - pt) <= 150.
Proof.
  unfold check_time_window, TIME_WINDOW_SECS. destruct (Z.eqb_spec pb (clk_boots c)); cbn [negb]; [|naive_solver].
  destruct (Z.ltb_spec 150 (Z.abs (clock_time c now - pt))); split; intros; try done; lia.
Qed.

Lemma verify_sound now m level sp :
  usm_verify a now m level = Ok sp -> exists keys, authentic now m level keys sp.
Proof.
  unfold usm_verify, authentic. destruct (users a !! _) as [keys|]; [|done].
  case_bool_decide as Hl; cbn [negb]; [|done]. intros E. exists keys. split; [done|]. split; [done|].
  case_bool_decide as Hn.
  { split; [done|]. rewrite Hn. destruct (data m) as [b|b]; [|done]. by exists b. }
  destruct (u_auth (uk_user keys)) as [p|]; [|done]. cbn [ok_or mbind result_bind] in E.
  destruct (check_time_window _ _ _ _) as [[]|err] eqn:Ew; [|done]. apply time_window_ok in Ew as [Hb Ht]. cbn [mbind result_bind] in E.
  destruct (negb (length _ =? _)%nat); [done|]. destruct (digests_match _ _) eqn:Ed; [|done]. apply digests_match_eq in Ed. cbn [negb] in E.
  split; [intros _; by exists p|]. destruct level; [done| |].
  - rewrite bool_decide_false in E by done. destruct (data m) as [b|b]; [|done]. by exists b.
  - destruct (data m) as [b|c]; [done|]. destruct (u_priv (uk_user keys)) as [pr|]; [|done]. rewrite bool_decide_true in E by done. cbn [ok_or mbind result_bind] in E.
    destruct (length (sec_priv_params (security m)) =? 8)%nat eqn:E8; [|done]. cbn [negb] in E. apply Nat.eqb_eq in E8.
    destruct (decrypt _ _ _ _ _ _) as [buf|] eqn:Edec; [|done]. by exists pr, c, buf.
Qed.

Lemma verify_complete now m level keys sp :
  authentic now m level keys sp -> usm_verify a now m level = Ok sp.
Proof.
  intros (Hu & Hl & Ha & Hd). unfold usm_verify. rewrite Hu, bool_decide_true by done. cbn [negb].
  case_bool_decide as Hn; [subst level; rewrite Hn in Hd; by destruct Hd as (b & -> & E)|].
  destruct (Ha Hn) as (p & -> & Hb & Ht & Et). cbn [ok_or mbind result_bind].
  rewrite (proj2 (time_window_ok _ _ _ _)) by done. cbn [mbind result_bind].
  rewrite Et at 1. rewrite auth_digest_length, Nat.eqb_refl. cbn [negb]. rewrite (proj2 (digests_match_eq _ _) Et). cbn [negb].
  destruct level; [done|rewrite bool_decide_false by done|rewrite bool_decide_true by done].
  - by destruct Hd as (b & -> & E).
  - destruct Hd as (pr & c & buf & -> & -> & -> & Edec & E). cbn. by rewrite Edec.
Qed.
End Verify.

(** ** Lemmas: responses *)

Section Reply.
Context `{!UsmCrypto} {W : Type} (a : Agent W).

Lemma clock_time_u32 c now : u32_ok (clock_time c now).
Proof.
  unfold clock_time, u32_ok, as_secs, duration_since, sat_sub, umax.
  pose proof (Z.div_pos (Z.max 0 (now - clk_started_at c)) 1000000000). lia.
Qed.

(** A user the agent knows, as configured. *)
Record known (keys : UserKeys) : Prop := {
  known_user : users a !! u_name (uk_user keys) = Some keys;
  known_name : utf8_valid (u_name (uk_user keys)) = true
}.

(** The numbers of the request and of the agent's clock are in range. *)
Definition reply_ok (e : Env) (m : Message) : Prop :=
  i32_ok (msg_id (global m)) /\ i32_ok (msg_max_size (global m)) /\ u32_ok (clk_boots (clock a))
  /\ length (ev_salt e) = 8%nat.

(** What the body of a reply becomes at the peer: encrypted at one reading of
    the clock, decrypted at the time the message carries. *)
Definition peer_body (e : Env) (keys : UserKeys) (body : list Z) : Result BerError (list Z) :=
  pr ← ok_or (Usm UnsupportedSecLevel) (u_priv (uk_user keys));
  c ← encrypt pr (priv_kul keys) (clk_boots (clock a)) (clock_time (clock a) (ev_encrypt e)) (ev_salt e) body;
  decrypt pr (priv_kul keys) (clk_boots (clock a)) (clock_time (clock a) (ev_assemble e)) (ev_salt e) c.

Lemma reply_global_ok m flags :
  i32_ok (msg_id (global m)) -> i32_ok (msg_max_size (global m)) -> byte_ok flags ->
  global_ok (reply_global m flags).
Proof.
  unfold global_ok, reply_global, i32_ok, byte_ok, SECURITY_MODEL_USM. cbn [msg_id msg_max_size msg_flags msg_security_model]. lia.
Qed.

Lemma encrypt_length p k b t salt d c : encrypt p k b t salt d = Ok c -> length c = length d.
Proof.
  unfold encrypt. destruct p; [| |done]; destruct (_ <? _)%nat; [done| |done|]; intros [= <-]; apply cfb_length.
Qed.

Lemma fits_data m : fits (message_to_bytes m) -> fits (data_tlv (data m)).
Proof.
  rewrite message_to_bytes_eq. intros Hf. rewrite <- (app_nil_r (tlv TAG_SEQUENCE _)) in Hf. apply (fits_inner []) in Hf. fits.
Qed.

(** The authenticated message the agent assembles is accepted by whoever holds
    the user's key, up to what the data decodes to. *)
Lemma assembled_accepted e m body keys p salt now sp :
  known keys -> reply_ok e m -> u_auth (uk_user keys) = Some p ->
  (salt = None \/ salt = Some (ev_salt e)) ->
  security_level (uk_user keys) = (match salt with Some _ => AuthPriv | None => AuthNoPriv end) ->
  (salt = None -> exists b, body = tlv TAG_SEQUENCE b) ->
  Z.abs (clock_time (clock a) now - clock_time (clock a) (ev_assemble e)) <= 150 ->
  (match salt with
   | None => scoped_from_bytes body = Ok sp
   | Some _ => exists pr buf, u_priv (uk_user keys) = Some pr
       /\ decrypt pr (priv_kul keys) (clk_boots (clock a)) (clock_time (clock a) (ev_assemble e)) (ev_salt e) body = Ok buf
       /\ scoped_from_bytes buf = Ok sp
   end) ->
  let bytes := assemble_auth a e m body (u_name (uk_user keys)) p (auth_kul keys) salt in
  fits bytes ->
  exists m', message_from_bytes bytes = Ok m' /\ msg_id (global m') = msg_id (global m)
  /\ from_flags (msg_flags (global m')) = Ok (security_level (uk_user keys))
  /\ usm_verify a now m' (security_level (uk_user keys)) = Ok sp.
Proof.
  intros [Hk Hname] (Hid & Hsize & Hboots & Hsalt) Hp Hs Hlevel Hbody Hwin Hdec bytes Hf.
  unfold assemble_auth in bytes. cbv zeta in bytes.

  eexists. split; [|split; [|split]].
  - subst bytes. rewrite <- (app_nil_r (message_to_bytes _)) in Hf |- *. apply message_codec; [| | |exact Hf]; cbn [global security data].
    + apply reply_global_ok; [done|done|]. destruct salt; [change (Z.lor FLAG_AUTH FLAG_PRIV) with 3|change FLAG_AUTH with 1]; unfold byte_ok; lia.
    + split; [done|apply clock_time_u32].
    + destruct salt; cbn; [done|]. split; [done|by apply Hbody].
  - done.
  - rewrite Hlevel. by destruct salt.
  - apply (verify_complete a now _ _ keys). unfold authentic. cbn [security sec_user_name sec_engine_boots sec_engine_time sec_auth_params sec_priv_params data].
    rewrite lossy_valid by done. split; [done|]. split; [done|]. split.
    + intros _. exists p. split_and!; done.
    + rewrite Hlevel. destruct Hs as [-> | ->]; [by exists body|].
      destruct Hdec as (pr & buf & H1 & H2 & H3). by exists pr, body, buf.
Qed.
End Reply.

(** ** Lemmas: nothing panics but a full counter *)

(** An identifier, a value, a binding whose encoding does not panic. *)
Definition oid_quiet (o : list Z) : Prop := encode_oid o <> Panic.
Definition value_quiet (v : Value) : Prop := match v with Oid o => oid_quiet o | _ => True end.
Definition vb_quiet (vb : VarBind) : Prop := oid_quiet (vb_name vb) /\ value_quiet (vb_value vb).

Lemma oid_ok_quiet o : oid_ok o -> oid_quiet o.
Proof. intros Ho. destruct (oid_codec o Ho) as (b & E & _). unfold oid_quiet. by rewrite E. Qed.

Lemma write_oid_quiet buf o : oid_quiet o -> exists r, write_oid buf o = Return r.
Proof. unfold oid_quiet, write_oid. destruct (encode_oid o) as [r|]; [|done]. intros _. by eexists. Qed.

Lemma varbind_quiet_encode vb enc : vb_quiet vb -> exists r, VarBind_encode vb enc = Return r.
Proof.
  intros [Hn Hv]. unfold VarBind_encode. destruct (write_oid_quiet [] _ Hn) as [[inner|e] ->]; cbn [and_then]; [|by eexists].
  assert (exists r, Value_encode (vb_value vb) inner = Return r) as [[x|e] ->]; cbn [and_then]; [|by eexists|by eexists].
  destruct (vb_value vb) as [| | |o| | | | | | | | |]; cbn [Value_encode value_quiet] in *; try (by eexists). by apply write_oid_quiet.
Qed.

Lemma bindings_quiet_encode vbs enc : Forall vb_quiet vbs -> exists r, encode_bindings vbs enc = Return r.
Proof.
  intros H. revert enc. induction H as [|vb vbs Hv Hvs IH]; intros enc; cbn; [by eexists|].
  destruct (varbind_quiet_encode vb enc Hv) as [[x|e] ->]; cbn [and_then]; [apply IH|by eexists].
Qed.

Lemma scoped_quiet_encode sp :
  Forall vb_quiet (variable_bindings (scoped_pdu sp)) -> exists r, scoped_to_bytes sp = Return r.
Proof.
  intros H. unfold scoped_to_bytes, Pdu_encode. destruct (bindings_quiet_encode _ [] H) as [[x|e] ->]; cbn [and_then]; by eexists.
Qed.

(** Filling with such bindings returns, and keeps only such bindings. *)
Lemma fill_quiet budget l acc :
  Forall vb_quiet l -> Forall vb_quiet acc.1 ->
  exists hit acc', fill budget l acc = Return (hit, acc') /\ Forall vb_quiet acc'.1.
Proof.
  intros Hl. revert acc. induction Hl as [|vb l Hv Hl IH]; intros [bs used] Ha; cbn [fill]; [by exists false, (bs, used)|].
  assert (exists n, encoded_varbind_len vb = Return n) as [n E].
  { unfold encoded_varbind_len. destruct (varbind_quiet_encode vb [] Hv) as [[x|e] ->]; by eexists. }
  rewrite (try_push_spec _ _ _ _ n E). destruct (_ && _); cbn [mbind outcome_bind negb]; [by exists true, (bs, used)|].
  apply IH. cbn. apply Forall_app. split; [done|by apply Forall_singleton].
Qed.

Lemma read_oid_quiet d o d' : read_oid d = Ok (o, d') -> oid_quiet o.
Proof.
  unfold read_oid. destruct (read_expected d TAG_OID) as [[v x]|]; [|done]. cbn. destruct (decode_oid v) as [arcs|] eqn:E; [|done].
  cbn. intros [= <- _]. by apply oid_ok_quiet, (decode_oid_ok v).
Qed.

Lemma value_of_tlv_quiet tag body v : value_of_tlv tag body = Ok v -> value_quiet v.
Proof.
  unfold value_of_tlv. intros H. destruct v as [| | |o| | | | | | | | |]; try done. cbn. revert H.
  destruct (tag =? TAG_INTEGER); [by destruct (decode_i64 body)|]. destruct (tag =? TAG_OCTET_STRING); [done|].
  destruct (tag =? TAG_NULL); [by destruct body|]. destruct (tag =? TAG_OID).
  { destruct (decode_oid body) as [arcs|] eqn:E; [|done]. cbn. intros [= <-]. by apply oid_ok_quiet, (decode_oid_ok body). }
  repeat match goal with
  | |- (if ?b then _ else _) = _ -> _ => destruct b; [unfold mbind, result_bind; by repeat split_goal|]
  end; done.
Qed.

Lemma varbind_decode_quiet d vb d' : VarBind_decode d = Ok (vb, d') -> vb_quiet vb.
Proof.
  unfold VarBind_decode. destruct (read_sequence d) as [[s x]|]; [|done]. cbn. destruct (read_oid s) as [[o s']|] eqn:Eo; [|done].
  cbn. unfold Value_decode. destruct (read_tlv s') as [[[tag body] y]|]; [|done]. cbn.
  destruct (value_of_tlv tag body) as [v|] eqn:Ev; [|done]. cbn. intros [= <- _]. split; cbn; [by eapply read_oid_quiet|by eapply value_of_tlv_quiet].
Qed.

Lemma bindings_decode_quiet fuel d vbs : decode_bindings fuel d = Ok vbs -> Forall vb_quiet vbs.
Proof.
  revert d vbs. induction fuel as [|fuel IH]; intros d vbs; cbn [decode_bindings]; destruct (dec_is_empty d); try done.
  1, 2: by intros [= <-].
  destruct (VarBind_decode d) as [[vb d']|] eqn:E; [|done]. cbn. destruct (decode_bindings fuel d') as [r|] eqn:Er; [|done].
  cbn. intros [= <-]. constructor; [by eapply varbind_decode_quiet|by eapply IH].
Qed.

(** Whatever arrives can be sent back. *)
Lemma scoped_decode_quiet bytes sp : scoped_from_bytes bytes = Ok sp -> Forall vb_quiet (variable_bindings (scoped_pdu sp)).
Proof.
  unfold scoped_from_bytes. destruct (read_sequence _) as [[s x]|]; [|done]. cbn. destruct (read_octet_string s) as [[eid s1]|]; [|done].
  cbn. destruct (read_octet_string s1) as [[nm s2]|]; [|done]. cbn. unfold Pdu_decode.
  destruct (read_tlv s2) as [[[tag body] y]|]; [|done]. unfold mbind, result_bind. destruct (from_tag tag) as [k|]; [|done].
  destruct (read_i64 _) as [[n1 b1]|]; [|done]. destruct (i32_try_from n1); [|done].
  destruct (read_i64 b1) as [[n2 b2]|]; [|done]. destruct (i32_try_from n2); [|done].
  destruct (read_i64 b2) as [[n3 b3]|]; [|done]. destruct (i32_try_from n3); [|done].
  destruct (read_sequence b3) as [[vs b4]|]; [|done]. destruct (decode_bindings _ vs) as [vbs|] eqn:E; [|done].
  intros [= <-]. cbn. by eapply bindings_decode_quiet.
Qed.

Section Quiet.
Context `{!UsmCrypto} {W Ip : Type} `{Countable Ip} (a : Agent W).

(** The registry answers with bindings that can be encoded. *)
Definition registry_quiet (r : MibRegistry W) : Prop :=
  forall name w,
    (forall v, reg_get r name w = Ok (Some v) -> value_quiet v)
    /\ (forall o v, reg_next r name w = Ok (Some (o, v)) -> oid_quiet o /\ value_quiet v).

Definition counters_room (c : UsmCounters) : Prop := forall e, counter c e < umax 32.

Lemma answers_quiet r w names :
  registry_quiet r -> Forall oid_quiet names ->
  Forall vb_quiet (answer r w <$> names) /\ Forall oid_quiet (moved r w <$> names).
Proof.
  intros Hr. induction 1 as [|n names Hn Hns [IH1 IH2]]; [by split; constructor|]. cbn.
  destruct (Hr n w) as [_ Hnext]. unfold answer at 1, moved at 1, next_binding.
  destruct (reg_next r n w) as [[[o v]|]|]; [|by split; constructor..]. destruct (Hnext o v eq_refl).
  by split; constructor.
Qed.

Lemma bulk_rows_quiet r w k names : registry_quiet r -> Forall oid_quiet names -> Forall vb_quiet (bulk_rows r w k names).
Proof.
  intros Hr. revert names. induction k as [|k IH]; intros names Hn; [constructor|]. cbn [bulk_rows].
  destruct (answers_quiet r w names Hr Hn) as [H1 H2]. apply Forall_app. split; [done|].
  destruct (forallb _ names); [constructor|by apply IH].
Qed.

Lemma dispatch_quiet r req writable size w :
  registry_quiet r -> Forall vb_quiet (variable_bindings req) ->
  exists p w', dispatch_pdu r req writable size w = Return (p, w') /\ Forall vb_quiet (variable_bindings p).
Proof.
  intros Hr Hv. assert (Forall oid_quiet (vb_name <$> variable_bindings req)) as Hn.
  { apply Forall_fmap. eapply Forall_impl; [exact Hv|]. by intros vb []. }
  unfold dispatch_pdu. destruct (kind req).
  - unfold handle_get. rewrite get_loop_fill.
    destruct (fill_quiet (bulk_response_budget size) (get_binding r w <$> variable_bindings req) ([], 0)) as (hit & acc & -> & Hq); [|constructor|].
    { apply Forall_fmap. eapply Forall_impl; [exact Hv|]. intros vb [H1 _]. split; [done|]. cbn.
      destruct (Hr (vb_name vb) w) as [Hg _]. destruct (reg_get r (vb_name vb) w) as [[v|]|]; [by apply Hg|done|done]. }
    cbn. destruct hit; do 2 eexists; split; [done|constructor|done|done].
  - unfold handle_get_next. rewrite next_loop_fill.
    destruct (fill_quiet (bulk_response_budget size) (answer r w <$> (vb_name <$> variable_bindings req)) ([], 0)) as (hit & acc & -> & Hq); [|constructor|].
    { by apply answers_quiet. }
    by do 2 eexists.
  - do 2 eexists. split; [done|constructor].
  - unfold handle_set. destruct (negb writable); [by do 2 eexists|].
    destruct (set_loop r 0 (variable_bindings req) w) as [[s i] w']. by do 2 eexists.
  - rewrite handle_get_bulk_fill.
    destruct (fill_quiet (bulk_response_budget size) (bulk_reference r w req) ([], 0)) as (hit & acc & -> & Hq); [|constructor|].
    { unfold bulk_reference. apply Forall_app. split; [apply answers_quiet; [done|by apply Forall_take]|].
      apply bulk_rows_quiet; [done|by apply Forall_drop]. }
    by do 2 eexists.
  - do 2 eexists. split; [done|constructor].
  - do 2 eexists. split; [done|constructor].
  - do 2 eexists. split; [done|constructor].
Qed.

Lemma verify_quiet now m level sp :
  usm_verify a now m level = Ok sp -> Forall vb_quiet (variable_bindings (scoped_pdu sp)).
Proof.
  intros (keys & _ & _ & _ & Hd)%verify_sound.
  destruct level; [destruct Hd as (b & _ & E)|destruct Hd as (b & _ & E)|destruct Hd as (pr & c & buf & _ & _ & _ & _ & E)];
    by eapply scoped_decode_quiet.
Qed.

Lemma response_quiet e m sp level keys :
  Forall vb_quiet (variable_bindings (scoped_pdu sp)) -> exists r, build_response_message a e m sp level keys = Return r.
Proof.
  intros Hq. unfold build_response_message. destruct (scoped_quiet_encode sp Hq) as [[b|err] ->]; cbn [and_then]; by eexists.
Qed.

Lemma bump_room err (st : AgentState W Ip) : counters_room (counters st) -> exists st', bump_counter err st = Return st'.
Proof.
  intros Hc. specialize (Hc err). unfold bump_counter, record. destruct (counters st) as [x1 x2 x3 x4 x5 x6].
  destruct err; cbn [counter unsupported_sec_levels not_in_time_windows unknown_user_names unknown_engine_ids wrong_digests decryption_errors] in Hc;
    unfold incr32; rewrite (proj2 (Z.ltb_lt _ _) Hc); by eexists.
Qed.

Lemma report_quiet e m err (st : AgentState W Ip) : exists h, report_reply a e m err st = Return h.
Proof.
  unfold report_reply. destruct (build_report a (counters st) m err) as [scoped|x] eqn:E; [|by eexists].
  destruct (response_quiet e m scoped NoAuthNoPriv None) as [r ->]; [|by eexists].
  unfold build_report in E. destruct (oid_from_str (counter_oid err)) as [o|] eqn:Eo; [|done]. injection E as <-.
  repeat constructor. destruct err; vm_compute in Eo; injection Eo as <-; by vm_compute.
Qed.
End Quiet.

(** ** Properties *)

(** C7: Verification admits exactly the authentic messages, at exactly the
    user's level.  A request is accepted if and only if its user is known, its
    level is the level the user is provisioned for, neither lower nor higher,
    and above [noAuthNoPriv] its clock is within 150 seconds at the same boot
    count and its tag is the digest of the message, with the tag zeroed, under
    the user's key; the PDU is then what the data holds. *)
Theorem usm_verify_exact `{!UsmCrypto} {W} (a : Agent W) now m level sp :
  usm_verify a now m level = Ok sp <-> exists keys, authentic a now m level keys sp.
Proof. split; [apply verify_sound|]. intros [keys Hk]. by eapply verify_complete. Qed.

(** C6: Only an authorised [SetRequest] changes anything.  If a datagram changes
    what the handlers manage, it carried a message for this engine that is
    authentic for a user with the write grant, at that user's own level, and
    its PDU is a [SetRequest]; the change is the one [Set] makes. *)
Theorem writes_authorised `{!UsmCrypto} {W Ip} `{Countable Ip} (a : Agent W) e bytes peer (st st' : AgentState W Ip) h :
  handle_datagram a e bytes peer st = Return (st', h) -> world st' <> world st ->
  exists m sp keys,
    message_from_bytes bytes = Ok m /\ sec_engine_id (security m) = engine_id a
    /\ authentic a (ev_now e) m (security_level (uk_user keys)) keys sp
    /\ u_writable (uk_user keys) = true /\ kind (scoped_pdu sp) = SetRequest
    /\ world st' = (handle_set (registry a) (scoped_pdu sp) true (world st)).2.
Proof.
  unfold handle_datagram. destruct (message_from_bytes bytes) as [m|]; [|by intros [= <- _]].
  assert (Hbump : forall err s s', bump_counter err s = Return s' -> world s' = world (s : AgentState W Ip)).
  { intros err s s'. unfold bump_counter. destruct (record _ _); [|done]. by intros [= <-]. }
  case_bool_decide as He.
  { unfold handle_discovery. destruct (bump_counter _ st) as [s|] eqn:Eb; [|done]. cbn. apply Hbump in Eb.
    destruct (discovery_allow _ _ _) as [ok l]. destruct (negb ok); cbn; [intros [= <- _]; done|].
    destruct (report_reply _ _ _ _ _); [|done]. by intros [= <- _]. }
  case_bool_decide as Hid; cbn [negb].
  2: { destruct (bump_counter _ st) as [s|] eqn:Eb; [|done]. cbn. intros [= <- _]. by apply Hbump in Eb. }
  set (level := match from_flags _ with Ok l => l | Err _ => _ end).
  destruct (usm_verify a (ev_now e) m level) as [sp|err] eqn:Ev.
  2: { destruct err; try by intros [= <- _]. unfold handle_rejected. destruct (bump_counter _ st) as [s|] eqn:Eb; [|done].
       cbn. apply Hbump in Eb. destruct (reportable_bit _); [|by intros [= <- _]].
       destruct (build_report _ _ _ _); [|by intros [= <- _]]. destruct (report_reply _ _ _ _ _); [|done]. by intros [= <- _]. }
  destruct (verify_sound a _ _ _ _ Ev) as (keys & Hauth). pose proof Hauth as (Hk & Hl & _).
  unfold handle_request. rewrite Hk. intros Hret Hw. exists m, sp, keys. rewrite <- Hl.
  destruct (dispatch_pdu _ _ _ _ _) as [[p w']|] eqn:Ed; [|done]. cbn in Hret.
  destruct (build_response_message _ _ _ _ _ _) as [r|]; [|done]. cbn in Hret. injection Hret as <- _. cbn [set_world world] in *.
  revert Ed. unfold dispatch_pdu. destruct (kind (scoped_pdu sp)) eqn:Ek;
    try (unfold mbind, outcome_bind; repeat split_goal; try done; by intros [= _ <-]).
  destruct (u_writable (uk_user keys)) eqn:Eu; [|by intros [= _ <-]]. intros [= Eset].
  split_and!; try done. by rewrite Eset.
Qed.

(** A writable integer, as the handlers of the tests: the state is the value. *)
Definition cell_registry : MibRegistry Z :=
  add_scalar [1; 3; 6; 5; 0]
    (mkHandler (fun w => Ok (Integer w))
       (fun v w => match v with Integer n => (SetOk, n) | _ => (SetWrongValue, w) end)) MibRegistry_new.

Definition demo_keys : UserKeys :=
  mkUserKeys (set_writable true (auth_priv [111; 112] HmacSha1 Aes128)) (replicate 20 7) (replicate 16 9).

Definition demo_agent : Agent Z :=
  mkAgent [128; 0; 0; 1] (EngineClock_new 1 0) {[ [111; 112] := demo_keys ]} cell_registry.

Definition demo_state : AgentState Z Z := mkState UsmCounters_default ∅ 3.
Definition demo_env : Env := mkEnv 5000000000 5000000000 5000000000 [1; 2; 3; 4; 5; 6; 7; 8].

Definition demo_set : ScopedPdu :=
  mkScoped [128; 0; 0; 1] [] (mkPdu SetRequest 9 0 0 [mkVarBind [1; 3; 6; 5; 0] (Integer 42)]).

Definition demo_request : Message := mkMessage demo_global demo_security (Plain []).

(** A manager with the same keys sends the request. *)
Definition demo_datagram : list Z :=
  match build_response_message demo_agent demo_env demo_request demo_set AuthPriv (Some demo_keys) with
  | Return (Ok b) => b
  | _ => []
  end.

Definition demo_result : AgentState Z Z :=
  match handle_datagram demo_agent demo_env demo_datagram 10 demo_state with
  | Return (st, _) => st
  | Panic => demo_state
  end.

Lemma writes_authorised_witness :
  world demo_result = 42
  /\ exists m sp keys,
    message_from_bytes demo_datagram = Ok m /\ sec_engine_id (security m) = engine_id demo_agent
    /\ authentic demo_agent (ev_now demo_env) m (security_level (uk_user keys)) keys sp
    /\ u_writable (uk_user keys) = true /\ kind (scoped_pdu sp) = SetRequest
    /\ world demo_result = (handle_set (registry demo_agent) (scoped_pdu sp) true (world demo_state)).2.
Proof.
  split; [vm_compute; reflexivity|].
  destruct (handle_datagram demo_agent demo_env demo_datagram 10 demo_state) as [[st h]|] eqn:E; [|vm_compute in E; discriminate E].
  assert (demo_result = st) as Es by (unfold demo_result; by rewrite E). rewrite Es.
  apply (writes_authorised demo_agent demo_env demo_datagram 10 demo_state st h E).
  rewrite <- Es. vm_compute. discriminate.
Defined.

(** No datagram makes the agent panic while its counters have room; the
    last error a counter can count does.  Whatever the bytes, the peer and the
    state, as long as the registry's own answers can be encoded and no counter
    is at [u32::MAX], [handle_datagram] returns; and at a full counter of
    unknown engines any well-formed message for another engine, from anyone,
    is a panic. *)
Theorem datagram_panics_only_on_counters `{!UsmCrypto} {W Ip} `{Countable Ip} (a : Agent W) e bytes peer (st : AgentState W Ip) :
  (registry_quiet (registry a) -> counters_room (counters st) ->
     exists st' h, handle_datagram a e bytes peer st = Return (st', h))
  /\ (forall m, message_from_bytes bytes = Ok m -> sec_engine_id (security m) <> engine_id a ->
        unknown_engine_ids (counters st) = umax 32 -> handle_datagram a e bytes peer st = Panic).
Proof.
  split.
  - intros Hr Hc. unfold handle_datagram. destruct (message_from_bytes bytes) as [m|]; [|by do 2 eexists].
    assert (Hb : forall err, exists s, bump_counter err st = Return s) by (intros err; by apply bump_room).
    case_bool_decide.
    { unfold handle_discovery. destruct (Hb UnknownEngineId) as [s ->]. cbn. destruct (discovery_allow _ _ _) as [ok l].
      destruct (negb ok); [by do 2 eexists|]. destruct (report_quiet a e m UnknownEngineId (set_limiter l s)) as [h ->]. by do 2 eexists. }
    case_bool_decide; cbn [negb]; [|destruct (Hb UnknownEngineId) as [s ->]; by do 2 eexists].
    set (level := match from_flags _ with Ok l => l | Err _ => _ end).
    destruct (usm_verify a (ev_now e) m level) as [sp|err] eqn:Ev.
    + pose proof (verify_quiet a _ _ _ _ Ev) as Hq. unfold handle_request.
      destruct (dispatch_quiet (registry a) (scoped_pdu sp)
        (match users a !! from_utf8_lossy (sec_user_name (security m)) with Some k => u_writable (uk_user k) | None => false end)
        (msg_max_size (global m)) (world st) Hr Hq) as (p & w' & -> & Hp). cbn.
      destruct (response_quiet a e m (mkScoped (engine_id a) (context_name sp) p) level
        (users a !! from_utf8_lossy (sec_user_name (security m))) Hp) as [r ->]. by do 2 eexists.
    + destruct err; try by do 2 eexists. unfold handle_rejected. destruct (Hb e0) as [s ->]. cbn.
      destruct (reportable_bit _); [|by do 2 eexists]. destruct (build_report _ _ _ _); [|by do 2 eexists].
      destruct (report_quiet a e m e0 s) as [h ->]. by do 2 eexists.
  - intros m Em Hid Hfull. assert (bump_counter UnknownEngineId st = Panic) as Hb.
    { unfold bump_counter, record. destruct (counters st) as [x1 x2 x3 x4 x5 x6]. cbn in Hfull. subst x4. done. }
    unfold handle_datagram. rewrite Em. case_bool_decide; [unfold handle_discovery; by rewrite Hb|].
    rewrite bool_decide_false by done. cbn [negb]. by rewrite Hb.
Qed.

Lemma datagram_panics_only_on_counters_witness :
  (exists st' h, handle_datagram demo_agent demo_env [1; 2; 3] 10 demo_state = Return (st', h))
  /\ handle_datagram demo_agent demo_env (message_to_bytes (mkMessage demo_global demo_security (Plain [48; 0]))) 10
       (mkState (mkCounters 0 0 0 (umax 32) 0 0) ∅ 3) = Panic.
Proof.
  split.
  - apply (proj1 (datagram_panics_only_on_counters demo_agent demo_env [1; 2; 3] 10 demo_state)).
    + intros name w. split.
      * intros v Hv. unfold reg_get, scalar, table_for, cell_registry in Hv. cbn in Hv.
        destruct (bool_decide _) in Hv; cbn in Hv; [|discriminate Hv]. injection Hv as <-. exact I.
      * intros o v Hv. unfold reg_next, cell_registry in Hv. cbn in Hv.
        destruct (negb _) in Hv; cbn in Hv; [|discriminate Hv]. destruct (oid_ltb name _) in Hv; cbn in Hv; [|discriminate Hv].
        injection Hv as <- <-. split; [vm_compute; discriminate|exact I].
    + intros err. destruct err; reflexivity.
  - apply (proj2 (datagram_panics_only_on_counters demo_agent demo_env
      (message_to_bytes (mkMessage demo_global demo_security (Plain [48; 0]))) 10
      (mkState (mkCounters 0 0 0 (umax 32) 0 0) ∅ 3)) (mkMessage demo_global demo_security (Plain [48; 0]))).
    + vm_compute. reflexivity.
    + vm_compute. discriminate.
    + reflexivity.
Defined.

(** What the agent sends, the holder of the user's keys accepts.  A response
    built for a known user at the user's level parses to a message of the same
    level and message id, and verification at a clock within the window of the
    sender's returns exactly the scoped PDU, decrypted at the highest level
    under a salt of its own; provided the clock shows the same second when the
    body is encrypted and when the message is assembled. *)
Theorem reply_verifies `{!UsmCrypto} {W} (a : Agent W) e m sp keys bytes now :
  build_response_message a e m sp (security_level (uk_user keys)) (Some keys) = Return (Ok bytes) ->
  known a keys -> reply_ok a e m -> pdu_ok (scoped_pdu sp) -> fits bytes ->
  clock_time (clock a) (ev_encrypt e) = clock_time (clock a) (ev_assemble e) ->
  Z.abs (clock_time (clock a) now - clock_time (clock a) (ev_assemble e)) <= 150 ->
  exists m', message_from_bytes bytes = Ok m' /\ msg_id (global m') = msg_id (global m)
  /\ from_flags (msg_flags (global m')) = Ok (security_level (uk_user keys))
  /\ usm_verify a now m' (security_level (uk_user keys)) = Ok sp.
Proof.
  intros Hb Hk Hr Hp Hf Hsec Hwin. destruct (scoped_codec sp Hp) as (body & Es & Hd).
  unfold build_response_message in Hb. rewrite Es in Hb. cbn [and_then] in Hb.
  destruct (security_level (uk_user keys)) eqn:El; pose proof El as Elv; unfold security_level in Elv; cbn [ok_or mbind result_bind] in Hb.
  - injection Hb as <-. destruct Hk as [Hu Hn], Hr as (Hid & Hsize & Hboots & _). eexists. split; [|split; [|split]].
    + rewrite <- (app_nil_r (message_to_bytes _)) in Hf |- *. apply message_codec; [| | |exact Hf]; cbn [global security data].
      * apply reply_global_ok; [done|done|]. unfold byte_ok. lia.
      * split; [done|apply clock_time_u32].
      * split; [done|by exists body].
    + done.
    + done.
    + apply fits_data in Hf. cbn [data data_tlv] in Hf. apply (verify_complete a now _ _ keys). unfold authentic.
      cbn [security sec_user_name data]. rewrite lossy_valid by done. split_and!; [done|by rewrite El|done|].
      exists (tlv TAG_SEQUENCE body). split; [done|by apply Hd].
  - destruct (u_auth (uk_user keys)) as [p|] eqn:Ea; [|done]. cbn [ok_or] in Hb. injection Hb as <-. rewrite <- El.
    apply (assembled_accepted a e m _ keys p None now sp); try done; [by left|intros _; by exists body|].
    apply Hd. unfold assemble_auth in Hf. apply fits_data in Hf. exact Hf.
  - destruct (u_auth (uk_user keys)) as [p|] eqn:Ea; [|done]. destruct (u_priv (uk_user keys)) as [pr|] eqn:Ep; [|done].
    cbn [ok_or mbind result_bind] in Hb. destruct (encrypt _ _ _ _ _ _) as [c|] eqn:Ec; [|done]. injection Hb as <-. rewrite <- El.
    apply (assembled_accepted a e m _ keys p (Some (ev_salt e)) now sp); try done; [by right|].
    exists pr, (tlv TAG_SEQUENCE body). split_and!; [done| |].
    + rewrite <- Hsec. by apply decrypt_encrypt.
    + apply Hd. unfold assemble_auth in Hf. apply fits_data in Hf. cbn [data data_tlv] in Hf.
      apply encrypt_length in Ec. pose proof (tlv_longer TAG_OCTET_STRING c). unfold fits in *. lia.
Qed.

Lemma reply_verifies_witness :
  exists m', message_from_bytes demo_datagram = Ok m' /\ msg_id (global m') = 42
  /\ from_flags (msg_flags (global m')) = Ok AuthPriv
  /\ usm_verify demo_agent 100000000000 m' AuthPriv = Ok demo_set.
Proof.
  apply (reply_verifies demo_agent demo_env demo_request demo_set demo_keys demo_datagram 100000000000).
  - vm_compute. reflexivity.
  - split; vm_compute; reflexivity.
  - unfold reply_ok, i32_ok, u32_ok. cbn. lia.
  - unfold pdu_ok, i32_ok. cbn [scoped_pdu demo_set request_id error_status error_index variable_bindings].
    split_and!; try lia. apply Forall_singleton. unfold varbind_ok, oid_ok, value_ok, i64_ok, umax.
    cbn [vb_name vb_value]. split_and!; try lia. repeat (apply Forall_cons; split; [unfold u32_ok; lia|]). constructor.
  - vm_compute. discriminate.
  - reflexivity.
  - vm_compute. discriminate.
Defined.

(** Verification of an encrypted message whose tag is right. *)
Lemma verify_priv_computes `{!UsmCrypto} {W} (a : Agent W) now m keys p pr c buf :
  let s := security m in
  users a !! from_utf8_lossy (sec_user_name s) = Some keys -> security_level (uk_user keys) = AuthPriv ->
  u_auth (uk_user keys) = Some p -> u_priv (uk_user keys) = Some pr ->
  sec_engine_boots s = clk_boots (clock a) -> Z.abs (clock_time (clock a) now - sec_engine_time s) <= 150 ->
  sec_auth_params s = auth_digest p (auth_kul keys) (message_to_bytes (with_auth_params (replicate (digest_len p) 0) m)) ->
  length (sec_priv_params s) = 8%nat -> data m = Encrypted c ->
  decrypt pr (priv_kul keys) (sec_engine_boots s) (sec_engine_time s) (sec_priv_params s) c = Ok buf ->
  usm_verify a now m AuthPriv = scoped_from_bytes buf.
Proof.
  intros s Hu Hl Hp Hpr Hb Ht Et H8 Hd Edec. unfold usm_verify. fold s. rewrite Hu, Hl.
  rewrite bool_decide_true by done. cbn [negb]. rewrite bool_decide_false by done. rewrite Hp. cbn [ok_or mbind result_bind].
  rewrite (proj2 (time_window_ok _ _ _ _)) by done. cbn [mbind result_bind].
  rewrite Et at 1. rewrite auth_digest_length, Nat.eqb_refl. cbn [negb]. rewrite (proj2 (digests_match_eq _ _) Et). cbn [negb].
  rewrite Hd, Hpr. cbn [ok_or mbind result_bind]. rewrite H8. cbn [Nat.eqb negb]. by rewrite Edec.
Qed.

(** An encrypted reply is lost when the second changes under it.  The body
    is encrypted with one reading of the engine clock and the message carries
    another; the peer, whose tag check succeeds, decrypts with the vector of
    the second reading what was encrypted with that of the first, and decodes
    the result, whatever it is. *)
Theorem reply_second_boundary `{!UsmCrypto} {W} (a : Agent W) e m sp keys bytes now body buf :
  build_response_message a e m sp AuthPriv (Some keys) = Return (Ok bytes) ->
  security_level (uk_user keys) = AuthPriv -> known a keys -> reply_ok a e m -> fits bytes ->
  Z.abs (clock_time (clock a) now - clock_time (clock a) (ev_assemble e)) <= 150 ->
  scoped_to_bytes sp = Return (Ok body) -> peer_body a e keys body = Ok buf ->
  exists m', message_from_bytes bytes = Ok m' /\ usm_verify a now m' AuthPriv = scoped_from_bytes buf.
Proof.
  intros Hb El [Hu Hn] (Hid & Hsize & Hboots & H8) Hf Hwin Es Hpb. unfold build_response_message in Hb. rewrite Es in Hb.
  cbn [and_then ok_or mbind result_bind] in Hb. unfold security_level in El.
  destruct (u_auth (uk_user keys)) as [p|] eqn:Ea; [|done]. destruct (u_priv (uk_user keys)) as [pr|] eqn:Ep; [|done].
  unfold peer_body in Hpb. rewrite Ep in Hpb. cbn [ok_or mbind result_bind] in Hb, Hpb.
  destruct (encrypt _ _ _ _ _ _) as [c|]; [|done]. cbn [mbind result_bind] in Hpb. injection Hb as <-.
  unfold assemble_auth in *. eexists. split.
  - rewrite <- (app_nil_r (message_to_bytes _)) in Hf |- *. apply message_codec; [| | |exact Hf]; cbn [global security data].
    + apply reply_global_ok; [done|done|]. change (Z.lor FLAG_AUTH FLAG_PRIV) with 3. unfold byte_ok. lia.
    + split; [done|apply clock_time_u32].
    + done.
  - apply (verify_priv_computes a now _ keys p pr c buf); try done; cbn [security sec_user_name].
    + by rewrite lossy_valid.
    + unfold security_level. by rewrite Ea, Ep.
Qed.

(** A cipher that mixes the initialisation vector into every byte. *)
Definition mix (iv d : list Z) : list Z := (fun b => Z.lxor b (wrap 8 (foldl Z.add 0 iv))) <$> d.

Program Definition mixing_crypto : UsmCrypto := {|
  hmac := @hmac toy_crypto;
  cfb_encrypt := fun _ iv d => mix iv d;
  cfb_decrypt := fun _ iv d => mix iv d
|}.
Next Obligation. intros p kul m. apply hmac_length. Qed.
Next Obligation.
  intros k iv d. unfold mix. rewrite <- list_fmap_compose. rewrite <- (list_fmap_id d) at 2. apply list_fmap_ext.
  intros i b _. cbn. by rewrite Z.lxor_assoc, Z.lxor_nilpotent, Z.lxor_0_r.
Qed.
Next Obligation. intros k iv d. apply length_fmap. Qed.

(** Encrypted in the fifth second, assembled in the sixth. *)
Definition late_env : Env := mkEnv 5999999999 5999999999 6000000000 [1; 2; 3; 4; 5; 6; 7; 8].

Definition late_datagram : list Z :=
  match @build_response_message mixing_crypto Z demo_agent late_env demo_request demo_set AuthPriv (Some demo_keys) with
  | Return (Ok b) => b
  | _ => []
  end.

(** The peer cannot decode the body. *)
Lemma reply_second_boundary_witness :
  exists m', message_from_bytes late_datagram = Ok m'
  /\ @usm_verify mixing_crypto Z demo_agent 6000000000 m' AuthPriv = Err (BerDecode Truncated).
Proof.
  destruct (scoped_to_bytes demo_set) as [[body|]|] eqn:Es; [|vm_compute in Es; discriminate Es|vm_compute in Es; discriminate Es].
  destruct (@peer_body mixing_crypto Z demo_agent late_env demo_keys body) as [buf|] eqn:Ep;
    [|vm_compute in Es; injection Es as <-; vm_compute in Ep; discriminate Ep].
  assert (scoped_from_bytes buf = Err (BerDecode Truncated)) as <-.
  { vm_compute in Es. injection Es as <-. vm_compute in Ep. injection Ep as <-. vm_compute. reflexivity. }
  apply (@reply_second_boundary mixing_crypto Z demo_agent late_env demo_request demo_set demo_keys late_datagram 6000000000 body buf).
  - vm_compute. reflexivity.
  - reflexivity.
  - split; vm_compute; reflexivity.
  - unfold reply_ok, i32_ok, u32_ok. cbn. lia.
  - vm_compute. discriminate.
  - vm_compute. discriminate.
  - exact Es.
  - exact Ep.
Defined.
