(* ===== verification/Schema.v ===== *)
(** * The configuration document

    The tables of [crates/spt-config/src/schema.rs] and
    [crates/spt-config/src/status_api.rs], field by field, and their derived
    [Default] values.  A field [x] of the table [RuntimeReload] is
    [runtime_reload_x].  Numbers of every width are [Z]; a [RedactedString] is
    its content; a path is its text; an address is what it parses to. *)

From S2P Require Import Prelude Float Endpoint Ip RoundRobin.

(** An [f64] as the document has it: [m * 2^e], an infinity, or NaN. *)
Inductive f64_value := F64 (m e : Z) | F64PosInf | F64NegInf | F64NaN.

(** [SecretRef] of [spt-secrets]: a validated [secret://ns/name]. *)
Record SecretRef := mkSecretRef { sr_ns : string; sr_name : string }.

Definition RedactedString : Type := string.

(** ** [status_api] *)

Inductive StatusApiAuthMode :=
| AuthNone
| Bearer (token_from : SecretRef)
| Basic (user : string) (password_from : SecretRef)
| MutualTls (ca_bundle : string) (allowed_subjects : list string).

Record StatusApiTlsConfig := mkStatusApiTlsConfig {
  status_api_tls_enabled : bool;
  status_api_tls_cert_file : string;
  status_api_tls_key_file : string
}.

Record StatusApiConfig := mkStatusApiConfig {
  status_api_enabled : bool;
  status_api_bind : IpAddr * Z;
  status_api_read_only : bool;
  status_api_expose_metrics : bool;
  status_api_rate_limit_rps : f32;
  status_api_tls : StatusApiTlsConfig;
  status_api_auth : StatusApiAuthMode
}.

Definition StatusApiTlsConfig_default : StatusApiTlsConfig := mkStatusApiTlsConfig false "" "".

(** [127.0.0.1:9617]; one request a second. *)
Definition StatusApiConfig_default : StatusApiConfig :=
  mkStatusApiConfig false (V4 2130706433, 9617) true true (F32 1 0) StatusApiTlsConfig_default AuthNone.

(** ** The enumerations of [schema.rs] *)

Inductive ObfsConfig :=
| Obfs4 (node_id public_key : string) (iat_mode : Z)
| MeekHttp (url : string) (front_host sni : option string)
| Websocket (url : string) (headers : list (string * string))
| Shadowsocks (method : string) (password : SecretRef).

Inductive HopKind := HopSsh | HopSocks5 | HopHttpConnect.
Inductive UdpMode := TcpFramed | UdsBridge.

(** ** The tables *)

Record RuntimeThreads := mkRuntimeThreads {
  runtime_threads_model : option string;
  runtime_threads_orchestrator_threads : option Z;
  runtime_threads_service_threads : option Z;
  runtime_threads_logging_threads : option Z;
  runtime_threads_dns_threads : option Z;
  runtime_threads_observability_threads : option Z;
  runtime_threads_blocking_worker_threads : option Z;
  runtime_threads_idle_tick : option string
}.

Record RuntimeReload := mkRuntimeReload {
  runtime_reload_mode : option string;
  runtime_reload_debounce : option string;
  runtime_reload_require_valid_config : option bool;
  runtime_reload_restart_changed_profiles : option bool
}.

Record RuntimeRemoteConfig := mkRuntimeRemoteConfig {
  runtime_remote_config_enabled : option bool;
  runtime_remote_config_url : option string;
  runtime_remote_config_fingerprint_sha256 : option string;
  runtime_remote_config_cache_file : option string;
  runtime_remote_config_allow_cached_on_failure : option bool;
  runtime_remote_config_poll_interval : option string;
  runtime_remote_config_pin_spki_sha256 : list string;
  runtime_remote_config_allow_self_signed : option bool;
  runtime_remote_config_max_cert_chain_depth : option Z;
  runtime_remote_config_encryption_key_from : option string;
  runtime_remote_config_require_encrypted : option bool;
  runtime_remote_config_signing_pubkey : option string;
  runtime_remote_config_require_signature : option bool
}.

Record Runtime := mkRuntime {
  runtime_state_dir : option string;
  runtime_required_profiles : option (list string);
  runtime_shutdown_grace : option string;
  runtime_profile_start_parallelism : option Z;
  runtime_file_lock : option bool;
  runtime_threads : option RuntimeThreads;
  runtime_reload : option RuntimeReload;
  runtime_remote_config : option RuntimeRemoteConfig
}.

Record LoggingRemote := mkLoggingRemote {
  logging_remote_name : string;
  logging_remote_kind : string;
  logging_remote_endpoint : option string;
  logging_remote_facility : option Z;
  logging_remote_app_name : option string;
  logging_remote_hostname : option string;
  logging_remote_enterprise_id : option Z;
  logging_remote_ca_file : option string;
  logging_remote_server_name : option string;
  logging_remote_client_cert : option string;
  logging_remote_client_key : option string;
  logging_remote_allow_invalid_certs : option bool;
  logging_remote_allow_self_signed : option bool;
  logging_remote_pin_spki_sha256 : list string;
  logging_remote_max_cert_chain_depth : option Z;
  logging_remote_auth : option string;
  logging_remote_timeout : option string;
  logging_remote_reconnect_backoff : option string;
  logging_remote_spool_dir : option string;
  logging_remote_spool_max_bytes : option string;
  logging_remote_queue_max_records : option Z;
  logging_remote_batch_size : option Z;
  logging_remote_required : option bool
}.

Record Logging := mkLogging {
  logging_level : option string;
  logging_format : option string;
  logging_destinations : option (list string);
  logging_file : option string;
  logging_rotate : option string;
  logging_max_size : option string;
  logging_max_files : option Z;
  logging_max_age : option string;
  logging_compress_rotated : option bool;
  logging_rotation_check_interval : option string;
  logging_redact : option (list string);
  logging_remote : list LoggingRemote
}.

Record SecretsFile := mkSecretsFile {
  secrets_file_root : option string
}.

Record Secrets := mkSecrets {
  secrets_backend : option string;
  secrets_vault_file : option string;
  secrets_encrypt_at_rest : option bool;
  secrets_memory_protection : option string;
  secrets_keychain_namespace : option string;
  secrets_file : option SecretsFile
}.

Record DnsRecord := mkDnsRecord {
  dns_record_name : string;
  dns_record_kind : string;
  dns_record_value : string;
  dns_record_ttl : option string;
  dns_record_priority : option Z;
  dns_record_weight : option Z;
  dns_record_port : option Z
}.

Record Dns := mkDns {
  dns_enabled : option bool;
  dns_mode : option string;
  dns_bind : option string;
  dns_zone : option string;
  dns_ttl : option string;
  dns_auto_records : option bool;
  dns_upstream : option (list string);
  dns_hosts_file : option string;
  dns_hosts_file_mode : option string;
  dns_records : list DnsRecord
}.

Record FirewallPlatform := mkFirewallPlatform {
  firewall_platform_linux : option string;
  firewall_platform_macos : option string;
  firewall_platform_windows : option string
}.

Record Firewall := mkFirewall {
  firewall_enabled : option bool;
  firewall_manager : option string;
  firewall_apply_rules : option bool;
  firewall_bind_policy : option string;
  firewall_default_interface : option string;
  firewall_allow_all_interfaces : option bool;
  firewall_platform : option FirewallPlatform
}.

Record NetworkInterface := mkNetworkInterface {
  network_interface_default_interface : option string;
  network_interface_allowed_interfaces : option (list string);
  network_interface_denied_interfaces : option (list string);
  network_interface_require_explicit_interface : option bool;
  network_interface_allow_all_interfaces : option bool;
  network_interface_bind_ipv6 : option string
}.

Record NetworkGateway := mkNetworkGateway {
  network_gateway_default_gateway : option string;
  network_gateway_interface : option string;
  network_gateway_route_check_target : option string;
  network_gateway_require_gateway_match : option bool;
  network_gateway_policy : option string
}.

Record NetworkOffload := mkNetworkOffload {
  network_offload_tcp_nodelay : option bool;
  network_offload_socket_keepalive : option bool;
  network_offload_tcp_fast_open : option bool;
  network_offload_reuse_port : option bool;
  network_offload_io_uring : option bool;
  network_offload_zerocopy : option bool;
  network_offload_sendfile : option bool;
  network_offload_checksum_offload : option bool;
  network_offload_large_send_offload : option bool
}.

Record NetworkLoadBalance := mkNetworkLoadBalance {
  network_load_balance_strategy : option string;
  network_load_balance_sticky_sessions : option bool;
  network_load_balance_health_check : option string;
  network_load_balance_fail_after : option Z;
  network_load_balance_restore_after : option string;
  network_load_balance_rebalance_interval : option string
}.

Record Network := mkNetwork {
  network_interface : option NetworkInterface;
  network_gateway : option NetworkGateway;
  network_offload : option NetworkOffload;
  network_load_balance : option NetworkLoadBalance
}.

Record ObservabilityMetrics := mkObservabilityMetrics {
  observability_metrics_enabled : option bool;
  observability_metrics_format : option string;
  observability_metrics_state_file : option string
}.

Record SnmpUser := mkSnmpUser {
  snmp_user_name : string;
  snmp_user_auth_protocol : option string;
  snmp_user_auth_secret : option RedactedString;
  snmp_user_priv_protocol : option string;
  snmp_user_privacy_secret : option RedactedString
}.

Record SnmpTrap := mkSnmpTrap {
  snmp_trap_name : string;
  snmp_trap_endpoint : string;
  snmp_trap_user : option string;
  snmp_trap_auth_secret : option RedactedString;
  snmp_trap_privacy_secret : option RedactedString
}.

Record ObservabilitySnmp := mkObservabilitySnmp {
  observability_snmp_enabled : option bool;
  observability_snmp_version : option string;
  observability_snmp_bind : option string;
  observability_snmp_engine_id : option string;
  observability_snmp_enterprise_id : option Z;
  observability_snmp_trap_sinks : option (list string);
  observability_snmp_traps : list SnmpTrap;
  observability_snmp_users : option (list SnmpUser)
}.

Record ObservabilityWindowsEvent := mkObservabilityWindowsEvent {
  observability_windows_event_enabled : option bool;
  observability_windows_event_source : option string;
  observability_windows_event_channel : option string;
  observability_windows_event_install_source : option bool
}.

Record Observability := mkObservability {
  observability_metrics : option ObservabilityMetrics;
  observability_snmp : option ObservabilitySnmp;
  observability_windows_event : option ObservabilityWindowsEvent
}.

Record EventDedupe := mkEventDedupe {
  event_dedupe_key : option string;
  event_dedupe_window : option string
}.

Record EventBinding := mkEventBinding {
  event_binding_name : string;
  event_binding_on : list string;
  event_binding_actions : list string;
  event_binding_min_level : option string;
  event_binding_throttle : option string;
  event_binding_dedupe : option EventDedupe
}.

Record EventSinkSubscription := mkEventSinkSubscription {
  event_sink_subscription_endpoint : string;
  event_sink_subscription_p256dh : string;
  event_sink_subscription_auth : RedactedString
}.

Record EventSink := mkEventSink {
  event_sink_name : string;
  event_sink_kind : string;
  event_sink_smtp : option string;
  event_sink_from : option string;
  event_sink_to : option (list string);
  event_sink_auth : option string;
  event_sink_provider : option string;
  event_sink_url : option string;
  event_sink_endpoint : option string;
  event_sink_method : option string;
  event_sink_content_type : option string;
  event_sink_timeout : option string;
  event_sink_vapid_private_key : option RedactedString;
  event_sink_vapid_subject : option string;
  event_sink_body_template : option string;
  event_sink_subject_template : option string;
  event_sink_subscriptions : option (list EventSinkSubscription);
  event_sink_pin_spki_sha256 : list string;
  event_sink_allow_self_signed : option bool;
  event_sink_max_cert_chain_depth : option Z
}.

Record EventCommand := mkEventCommand {
  event_command_name : string;
  event_command_command : string;
  event_command_args : option (list string);
  event_command_allow_exec : option bool;
  event_command_timeout : option string
}.

Record Events := mkEvents {
  events_ring_capacity : option Z;
  events_retry_interval : option string;
  events_spool_dir : option string;
  events_spool_max_bytes : option string;
  events_default_min_level : option string;
  events_bindings : list EventBinding;
  events_sinks : list EventSink;
  events_commands : list EventCommand
}.

Record Mcp := mkMcp {
  mcp_enabled : option bool;
  mcp_default_mode : option string;
  mcp_stdio : option bool;
  mcp_listen : option string;
  mcp_allow_secret_reveal : option bool;
  mcp_allow_write_tools : option (list string);
  mcp_audit_events : option bool;
  mcp_expose : option bool;
  mcp_pin_spki_sha256 : list string;
  mcp_allow_self_signed : option bool;
  mcp_max_cert_chain_depth : option Z
}.

Record MemHygiene := mkMemHygiene {
  mem_hygiene_enabled : option bool;
  mem_hygiene_interval : option string;
  mem_hygiene_window_samples : option Z;
  mem_hygiene_growth_threshold : option string;
  mem_hygiene_growth_rate_per_min : option string;
  mem_hygiene_min_rising_fraction : option f64_value;
  mem_hygiene_rss_high : option string;
  mem_hygiene_cgroup_pressure_pct : option f64_value;
  mem_hygiene_cgroup_watch : option bool
}.

Record UpdaterWindow := mkUpdaterWindow {
  updater_window_allow_from : option string;
  updater_window_allow_to : option string;
  updater_window_timezone : option string
}.

Record UpdaterStaging := mkUpdaterStaging {
  updater_staging_dir : option string;
  updater_staging_keep_last : option Z
}.

Record UpdaterVerify := mkUpdaterVerify {
  updater_verify_require_minisign : option bool;
  updater_verify_minisign_pubkey : option string;
  updater_verify_require_sha256sums : option bool;
  updater_verify_gpg_pubkey : option string
}.

Record UpdaterAction := mkUpdaterAction {
  updater_action_restart_supervisor : option bool;
  updater_action_notify_audit : option bool;
  updater_action_post_install_hook : option string
}.

Record Updater := mkUpdater {
  updater_enabled : option bool;
  updater_mode : option string;
  updater_schedule : option string;
  updater_interval : option string;
  updater_source : option string;
  updater_github_repo : option string;
  updater_github_channel : option string;
  updater_url : option string;
  updater_url_index : option string;
  updater_url_fingerprint : option string;
  updater_static_dir : option string;
  updater_window : option UpdaterWindow;
  updater_staging : option UpdaterStaging;
  updater_verify : option UpdaterVerify;
  updater_action : option UpdaterAction
}.

Record Diagnostics := mkDiagnostics {
  diagnostics_bundle_dir : option string;
  diagnostics_include_recent_logs : option bool;
  diagnostics_include_status : option bool;
  diagnostics_include_stats : option bool;
  diagnostics_include_sessions : option bool;
  diagnostics_include_service_definitions : option bool;
  diagnostics_redact : option bool;
  diagnostics_max_bundle_size : option string
}.

Record Benchmark := mkBenchmark {
  benchmark_enabled : option bool;
  benchmark_default_duration : option string;
  benchmark_max_duration : option string;
  benchmark_max_connections : option Z;
  benchmark_max_bytes_per_second : option string;
  benchmark_max_packets_per_second : option Z;
  benchmark_require_explicit_target : option bool;
  benchmark_allow_production_impact : option bool;
  benchmark_results_dir : option string
}.

Record Capabilities := mkCapabilities {
  capabilities_ssh2_backend : option string;
  capabilities_allow_libssh2 : option bool;
  capabilities_allow_gssapi : option bool;
  capabilities_allow_sspi : option bool;
  capabilities_allow_gssapi_delegation : option bool;
  capabilities_allow_ntlm_fallback : option bool;
  capabilities_allow_post_quantum_kex : option bool;
  capabilities_allow_ml_kem : option bool;
  capabilities_require_post_quantum_kex : option bool;
  capabilities_allow_dynamic_proxy : option bool;
  capabilities_allow_sftp : option bool;
  capabilities_allow_filesystem_mounts : option bool;
  capabilities_allow_windows_drive_mounts : option bool;
  capabilities_allow_writeback_cache : option bool;
  capabilities_allow_windows_event_log : option bool;
  capabilities_allow_gpo_policy_writes : option bool
}.

Record Service := mkService {
  service_description : option string;
  service_user : option string;
  service_group : option string;
  service_env : option (list (string * string));
  service_restart_policy : option string;
  service_sd_notify : option bool;
  service_stdout : option string;
  service_stderr : option string;
  service_watchdog_sec : option Z
}.

Record Transport := mkTransport {
  transport_obfuscation : option ObfsConfig
}.

Record ScriptHooks := mkScriptHooks {
  script_hooks_pre_connect : option string;
  script_hooks_post_connect : option string;
  script_hooks_on_forward_state : option string;
  script_hooks_on_disconnect : option string;
  script_hooks_on_event : option string
}.

Record ScriptLimits := mkScriptLimits {
  script_limits_max_operations : option Z;
  script_limits_max_call_levels : option Z;
  script_limits_max_string_size : option Z;
  script_limits_max_array_size : option Z;
  script_limits_max_modules : option Z
}.

Record ScriptConfig := mkScriptConfig {
  script_config_path : string;
  script_config_hooks : option ScriptHooks;
  script_config_limits : option ScriptLimits
}.

Record SftpMount := mkSftpMount {
  sftp_mount_name : string;
  sftp_mount_enabled : option bool;
  sftp_mount_remote_path : string;
  sftp_mount_mount_point : option string;
  sftp_mount_drive_letter : option string;
  sftp_mount_read_only : option bool;
  sftp_mount_cache : option string;
  sftp_mount_allow_other : option bool;
  sftp_mount_required : option bool
}.

Record Connection := mkConnection {
  connection_connect_timeout : option string;
  connection_auth_timeout : option string;
  connection_handshake_timeout : option string;
  connection_channel_open_timeout : option string;
  connection_channel_window_size : option string;
  connection_channel_max_packet_size : option string;
  connection_tcp_nodelay : option bool;
  connection_socket_keepalive : option bool;
  connection_keepalive_idle : option string;
  connection_keepalive_interval : option string;
  connection_keepalive_retries : option Z;
  connection_read_timeout : option string;
  connection_write_timeout : option string
}.

Record Crypto := mkCrypto {
  crypto_policy : option string;
  crypto_allow_deprecated : option bool;
  crypto_warn_on_deprecated : option bool;
  crypto_ciphers : option (list string);
  crypto_kex_algorithms : option (list string);
  crypto_macs : option (list string);
  crypto_host_key_algorithms : option (list string);
  crypto_compression : option (list string)
}.

Record Auth := mkAuth {
  auth_method : string;
  auth_identity_file : option string;
  auth_certificate_file : option string;
  auth_passphrase : option RedactedString;
  auth_password : option RedactedString;
  auth_token : option RedactedString;
  auth_agent : option bool;
  auth_identity_hint : option string;
  auth_keyboard_interactive : option bool;
  auth_gssapi_service : option string;
  auth_gssapi_principal : option string;
  auth_gssapi_delegate : option bool;
  auth_sspi_service : option string;
  auth_sspi_principal : option string;
  auth_sspi_delegate : option bool;
  auth_sspi_allow_ntlm_fallback : option bool;
  auth_oidc_issuer : option string;
  auth_oidc_client_id : option string
}.

Record Trust := mkTrust {
  trust_mode : option string;
  trust_known_hosts_file : option string;
  trust_strict : option bool;
  trust_accept_new : option bool;
  trust_pin_sha256 : option (list string)
}.

Record Tls := mkTls {
  tls_server_name : option string;
  tls_system_roots : option bool;
  tls_ca_file : option string;
  tls_pin_sha256 : option (list string);
  tls_allow_self_signed : option bool;
  tls_max_cert_chain_depth : option Z
}.

Record Ssh3 := mkSsh3 {
  ssh3_draft : option string;
  ssh3_protocol_token : option string;
  ssh3_enable_datagrams : option bool;
  ssh3_idle_timeout : option string;
  ssh3_keepalive : option string;
  ssh3_max_streams : option Z;
  ssh3_post_quantum : option bool
}.

Record Keepalive := mkKeepalive {
  keepalive_interval : option string;
  keepalive_timeout : option string;
  keepalive_max_missed : option Z
}.

Record Reconnect := mkReconnect {
  reconnect_initial_delay : option string;
  reconnect_max_delay : option string;
  reconnect_jitter : option string;
  reconnect_reset_after : option string;
  reconnect_max_attempts : option Z;
  reconnect_retry_auth_failures : option bool
}.

Record Instability := mkInstability {
  instability_enabled : option bool;
  instability_window : option string;
  instability_max_disconnects : option Z;
  instability_max_keepalive_misses : option Z;
  instability_max_latency_p95 : option string;
  instability_min_successful_uptime : option string;
  instability_action : option string
}.

Record Failover := mkFailover {
  failover_mode : option string;
  failover_health_check : option string;
  failover_fail_after : option Z;
  failover_restore_after : option string
}.

Record Limits := mkLimits {
  limits_max_active_connections : option Z;
  limits_max_new_connections_per_second : option Z;
  limits_max_bytes_per_second_in : option string;
  limits_max_bytes_per_second_out : option string;
  limits_max_bits_per_second_in : option string;
  limits_max_bits_per_second_out : option string;
  limits_throttle_algorithm : option string;
  limits_max_connection_lifetime : option string
}.

Record Endpoint := mkEndpoint {
  endpoint_name : string;
  endpoint_host : string;
  endpoint_port : Z;
  endpoint_priority : option Z;
  endpoint_weight : option Z;
  endpoint_user : option string;
  endpoint_auth : option Auth
}.

Record Hop := mkHop {
  hop_name : string;
  hop_protocol : string;
  hop_host : string;
  hop_port : Z;
  hop_user : option string;
  hop_auth : option Auth;
  hop_trust : option Trust;
  hop_target_resolve : option string;
  hop_kind : HopKind;
  hop_proxy_username : option RedactedString;
  hop_proxy_password_ref : option SecretRef
}.

Record Forward := mkForward {
  forward_name : string;
  forward_kind : string;
  forward_transport : string;
  forward_bind : option string;
  forward_bind_mode : option string;
  forward_bind_interface : option string;
  forward_bind_interface_preference : option (list string);
  forward_bind_ipv6 : option string;
  forward_expose : option bool;
  forward_target : option string;
  forward_listen : option string;
  forward_connect : option string;
  forward_dns_names : option (list string);
  forward_sni_name : option string;
  forward_target_resolve : option string;
  forward_required : option bool;
  forward_idle_timeout : option string;
  forward_max_connections : option Z;
  forward_proxy_protocols : option (list string);
  forward_allow_targets : option (list string);
  forward_deny_targets : option (list string);
  forward_on_bind_conflict : option string;
  forward_max_bytes_per_second_in : option string;
  forward_max_bytes_per_second_out : option string;
  forward_max_new_connections_per_second : option Z;
  forward_max_burst_bytes_in : option string;
  forward_max_burst_bytes_out : option string;
  forward_udp_idle_timeout : option string;
  forward_max_datagram_size : option Z;
  forward_max_packets_per_second : option Z;
  forward_udp_mode : option UdpMode;
  forward_link_kind : option string;
  forward_remote_socket_path : option string;
  forward_local_socket_path : option string
}.

Record Profile := mkProfile {
  profile_name : string;
  profile_description : option string;
  profile_enabled : option bool;
  profile_protocol : string;
  profile_host : option string;
  profile_port : option Z;
  profile_endpoint : option string;
  profile_acknowledge_experimental : option bool;
  profile_user : option string;
  profile_connect_timeout : option string;
  profile_dns_resolution : option string;
  profile_network_change_reconnect : option bool;
  profile_startup : option string;
  profile_failure_policy : option string;
  profile_tags : option (list string);
  profile_connection : option Connection;
  profile_crypto : option Crypto;
  profile_auth : option Auth;
  profile_trust : option Trust;
  profile_tls : option Tls;
  profile_ssh3 : option Ssh3;
  profile_keepalive : option Keepalive;
  profile_reconnect : option Reconnect;
  profile_instability : option Instability;
  profile_failover : option Failover;
  profile_limits : option Limits;
  profile_endpoints : list Endpoint;
  profile_hops : list Hop;
  profile_forwards : list Forward;
  profile_sftp_mounts : list SftpMount;
  profile_script : option ScriptConfig;
  profile_transport : option Transport
}.

Record Config := mkConfig {
  config_version : Z;
  config_runtime : option Runtime;
  config_logging : option Logging;
  config_secrets : option Secrets;
  config_dns : option Dns;
  config_firewall : option Firewall;
  config_network : option Network;
  config_observability : option Observability;
  config_events : option Events;
  config_mcp : option Mcp;
  config_mem_hygiene : option MemHygiene;
  config_updater : option Updater;
  config_diagnostics : option Diagnostics;
  config_benchmark : option Benchmark;
  config_capabilities : option Capabilities;
  config_service : option Service;
  config_round_robin : RoundRobinConfig;
  config_status_api : StatusApiConfig;
  config_profiles : list Profile
}.

Definition RuntimeThreads_default : RuntimeThreads :=
  mkRuntimeThreads None None None None None None None None.

Definition RuntimeReload_default : RuntimeReload :=
  mkRuntimeReload None None None None.

Definition RuntimeRemoteConfig_default : RuntimeRemoteConfig :=
  mkRuntimeRemoteConfig None None None None None None [] None None None None None None.

(** ** The derived defaults *)

Definition Runtime_default : Runtime :=
  mkRuntime None None None None None None None None.

Definition LoggingRemote_default : LoggingRemote :=
  mkLoggingRemote "" "" None None None None None None None None None None None [] None None None None None None None None None.

Definition Logging_default : Logging :=
  mkLogging None None None None None None None None None None None [].

Definition SecretsFile_default : SecretsFile :=
  mkSecretsFile None.

Definition Secrets_default : Secrets :=
  mkSecrets None None None None None None.

Definition DnsRecord_default : DnsRecord :=
  mkDnsRecord "" "" "" None None None None.

Definition Dns_default : Dns :=
  mkDns None None None None None None None None None [].

Definition FirewallPlatform_default : FirewallPlatform :=
  mkFirewallPlatform None None None.

Definition Firewall_default : Firewall :=
  mkFirewall None None None None None None None.

Definition NetworkInterface_default : NetworkInterface :=
  mkNetworkInterface None None None None None None.

Definition NetworkGateway_default : NetworkGateway :=
  mkNetworkGateway None None None None None.

Definition NetworkOffload_default : NetworkOffload :=
  mkNetworkOffload None None None None None None None None None.

Definition NetworkLoadBalance_default : NetworkLoadBalance :=
  mkNetworkLoadBalance None None None None None None.

Definition Network_default : Network :=
  mkNetwork None None None None.

Definition ObservabilityMetrics_default : ObservabilityMetrics :=
  mkObservabilityMetrics None None None.

Definition SnmpUser_default : SnmpUser :=
  mkSnmpUser "" None None None None.

Definition SnmpTrap_default : SnmpTrap :=
  mkSnmpTrap "" "" None None None.

Definition ObservabilitySnmp_default : ObservabilitySnmp :=
  mkObservabilitySnmp None None None None None None [] None.

Definition ObservabilityWindowsEvent_default : ObservabilityWindowsEvent :=
  mkObservabilityWindowsEvent None None None None.

Definition Observability_default : Observability :=
  mkObservability None None None.

Definition EventDedupe_default : EventDedupe :=
  mkEventDedupe None None.

Definition EventBinding_default : EventBinding :=
  mkEventBinding "" [] [] None None None.

Definition EventSinkSubscription_default : EventSinkSubscription :=
  mkEventSinkSubscription "" "" "".

Definition EventSink_default : EventSink :=
  mkEventSink "" "" None None None None None None None None None None None None None None None [] None None.

Definition EventCommand_default : EventCommand :=
  mkEventCommand "" "" None None None.

Definition Events_default : Events :=
  mkEvents None None None None None [] [] [].

Definition Mcp_default : Mcp :=
  mkMcp None None None None None None None None [] None None.

Definition MemHygiene_default : MemHygiene :=
  mkMemHygiene None None None None None None None None None.

Definition UpdaterWindow_default : UpdaterWindow :=
  mkUpdaterWindow None None None.

Definition UpdaterStaging_default : UpdaterStaging :=
  mkUpdaterStaging None None.

Definition UpdaterVerify_default : UpdaterVerify :=
  mkUpdaterVerify None None None None.

Definition UpdaterAction_default : UpdaterAction :=
  mkUpdaterAction None None None.

Definition Updater_default : Updater :=
  mkUpdater None None None None None None None None None None None None None None None.

Definition Diagnostics_default : Diagnostics :=
  mkDiagnostics None None None None None None None None.

Definition Benchmark_default : Benchmark :=
  mkBenchmark None None None None None None None None None.

Definition Capabilities_default : Capabilities :=
  mkCapabilities None None None None None None None None None None None None None None None None.

Definition Service_default : Service :=
  mkService None None None None None None None None None.

Definition Transport_default : Transport :=
  mkTransport None.

Definition ScriptHooks_default : ScriptHooks :=
  mkScriptHooks None None None None None.

Definition ScriptLimits_default : ScriptLimits :=
  mkScriptLimits None None None None None.

Definition ScriptConfig_default : ScriptConfig :=
  mkScriptConfig "" None None.

Definition SftpMount_default : SftpMount :=
  mkSftpMount "" None "" None None None None None None.

Definition Connection_default : Connection :=
  mkConnection None None None None None None None None None None None None None.

Definition Crypto_default : Crypto :=
  mkCrypto None None None None None None None None.

Definition Auth_default : Auth :=
  mkAuth "" None None None None None None None None None None None None None None None None None.

Definition Trust_default : Trust :=
  mkTrust None None None None None.

Definition Tls_default : Tls :=
  mkTls None None None None None None.

Definition Ssh3_default : Ssh3 :=
  mkSsh3 None None None None None None None.

Definition Keepalive_default : Keepalive :=
  mkKeepalive None None None.

Definition Reconnect_default : Reconnect :=
  mkReconnect None None None None None None.

Definition Instability_default : Instability :=
  mkInstability None None None None None None None.

Definition Failover_default : Failover :=
  mkFailover None None None None.

Definition Limits_default : Limits :=
  mkLimits None None None None None None None None.

Definition Endpoint_default : Endpoint :=
  mkEndpoint "" "" 0 None None None None.

Definition Hop_default : Hop :=
  mkHop "" "" "" 0 None None None None HopSsh None None.

Definition Forward_default : Forward :=
  mkForward "" "" "" None None None None None None None None None None None None None None None None None None None None None None None None None None None None None None None.

Definition Profile_default : Profile :=
  mkProfile "" None None "" None None None None None None None None None None None None None None None None None None None None None None [] [] [] [] None None.

Definition Config_default : Config :=
  mkConfig 0 None None None None None None None None None None None None None None None RoundRobinConfig_default StatusApiConfig_default [].

