(* ===== verification/Fields.v ===== *)
(** * Assignable fields

    A Rust place is a pair of functions: what it holds, and the value with the
    place assigned.  The places below are the fields the policy setters of
    [crates/spt-config/src/policy.rs] reach through [&mut]. *)

From S2P Require Import Prelude Schema.

Record Lens (S A : Type) := mkLens { view : S -> A; put : A -> S -> S }.
Arguments mkLens {S A}.
Arguments view {S A}.
Arguments put {S A}.

Definition lens_compose {S A B : Type} (l : Lens S A) (m : Lens A B) : Lens S B :=
  mkLens (fun s => view m (view l s)) (fun b s => put l (put m b (view l s)) s).

Declare Scope place_scope.
Delimit Scope place_scope with place.
Infix "∙" := lens_compose (at level 40, left associativity) : place_scope.
Open Scope place_scope.

(** [Option::get_or_insert_with(Default::default)]: reading an absent table
    reads the default one, and assigning through it makes it present. *)
Definition get_or_insert {S A : Type} (d : A) (l : Lens S (option A)) : Lens S A :=
  mkLens (fun s => default d (view l s)) (fun a s => put l (Some a) s).

(** What assignment to a place owes its reader. *)
Class Place {S A : Type} (l : Lens S A) := {
  view_put : forall a s, view l (put l a s) = a;
  put_put : forall a b s, put l a (put l b s) = put l a s
}.

#[export] Instance compose_place {S A B} (l : Lens S A) (m : Lens A B) : Place l -> Place m -> Place (l ∙ m).
Proof.
  intros [vp pp] [vp' pp']. split; cbn; intros; rewrite ?vp, ?vp', ?pp, ?pp'; done.
Qed.

#[export] Instance get_or_insert_place {S A} (d : A) (l : Lens S (option A)) : Place l -> Place (get_or_insert d l).
Proof. intros [vp pp]. split; cbn; intros; rewrite ?vp, ?pp; done. Qed.

(** ** The fields *)

Definition config_logging_l : Lens Config (option Logging) :=
  mkLens config_logging (fun a s => mkConfig (config_version s) (config_runtime s) a (config_secrets s) (config_dns s) (config_firewall s) (config_network s) (config_observability s) (config_events s) (config_mcp s) (config_mem_hygiene s) (config_updater s) (config_diagnostics s) (config_benchmark s) (config_capabilities s) (config_service s) (config_round_robin s) (config_status_api s) (config_profiles s)).

Definition config_runtime_l : Lens Config (option Runtime) :=
  mkLens config_runtime (fun a s => mkConfig (config_version s) a (config_logging s) (config_secrets s) (config_dns s) (config_firewall s) (config_network s) (config_observability s) (config_events s) (config_mcp s) (config_mem_hygiene s) (config_updater s) (config_diagnostics s) (config_benchmark s) (config_capabilities s) (config_service s) (config_round_robin s) (config_status_api s) (config_profiles s)).

Definition runtime_reload_l : Lens Runtime (option RuntimeReload) :=
  mkLens runtime_reload (fun a s => mkRuntime (runtime_state_dir s) (runtime_required_profiles s) (runtime_shutdown_grace s) (runtime_profile_start_parallelism s) (runtime_file_lock s) (runtime_threads s) a (runtime_remote_config s)).

Definition runtime_remote_config_l : Lens Runtime (option RuntimeRemoteConfig) :=
  mkLens runtime_remote_config (fun a s => mkRuntime (runtime_state_dir s) (runtime_required_profiles s) (runtime_shutdown_grace s) (runtime_profile_start_parallelism s) (runtime_file_lock s) (runtime_threads s) (runtime_reload s) a).

Definition config_secrets_l : Lens Config (option Secrets) :=
  mkLens config_secrets (fun a s => mkConfig (config_version s) (config_runtime s) (config_logging s) a (config_dns s) (config_firewall s) (config_network s) (config_observability s) (config_events s) (config_mcp s) (config_mem_hygiene s) (config_updater s) (config_diagnostics s) (config_benchmark s) (config_capabilities s) (config_service s) (config_round_robin s) (config_status_api s) (config_profiles s)).

Definition config_firewall_l : Lens Config (option Firewall) :=
  mkLens config_firewall (fun a s => mkConfig (config_version s) (config_runtime s) (config_logging s) (config_secrets s) (config_dns s) a (config_network s) (config_observability s) (config_events s) (config_mcp s) (config_mem_hygiene s) (config_updater s) (config_diagnostics s) (config_benchmark s) (config_capabilities s) (config_service s) (config_round_robin s) (config_status_api s) (config_profiles s)).

Definition config_network_l : Lens Config (option Network) :=
  mkLens config_network (fun a s => mkConfig (config_version s) (config_runtime s) (config_logging s) (config_secrets s) (config_dns s) (config_firewall s) a (config_observability s) (config_events s) (config_mcp s) (config_mem_hygiene s) (config_updater s) (config_diagnostics s) (config_benchmark s) (config_capabilities s) (config_service s) (config_round_robin s) (config_status_api s) (config_profiles s)).

Definition network_interface_l : Lens Network (option NetworkInterface) :=
  mkLens network_interface (fun a s => mkNetwork a (network_gateway s) (network_offload s) (network_load_balance s)).

Definition network_gateway_l : Lens Network (option NetworkGateway) :=
  mkLens network_gateway (fun a s => mkNetwork (network_interface s) a (network_offload s) (network_load_balance s)).

Definition network_offload_l : Lens Network (option NetworkOffload) :=
  mkLens network_offload (fun a s => mkNetwork (network_interface s) (network_gateway s) a (network_load_balance s)).

Definition network_load_balance_l : Lens Network (option NetworkLoadBalance) :=
  mkLens network_load_balance (fun a s => mkNetwork (network_interface s) (network_gateway s) (network_offload s) a).

Definition config_observability_l : Lens Config (option Observability) :=
  mkLens config_observability (fun a s => mkConfig (config_version s) (config_runtime s) (config_logging s) (config_secrets s) (config_dns s) (config_firewall s) (config_network s) a (config_events s) (config_mcp s) (config_mem_hygiene s) (config_updater s) (config_diagnostics s) (config_benchmark s) (config_capabilities s) (config_service s) (config_round_robin s) (config_status_api s) (config_profiles s)).

Definition observability_windows_event_l : Lens Observability (option ObservabilityWindowsEvent) :=
  mkLens observability_windows_event (fun a s => mkObservability (observability_metrics s) (observability_snmp s) a).

Definition observability_metrics_l : Lens Observability (option ObservabilityMetrics) :=
  mkLens observability_metrics (fun a s => mkObservability a (observability_snmp s) (observability_windows_event s)).

Definition config_mcp_l : Lens Config (option Mcp) :=
  mkLens config_mcp (fun a s => mkConfig (config_version s) (config_runtime s) (config_logging s) (config_secrets s) (config_dns s) (config_firewall s) (config_network s) (config_observability s) (config_events s) a (config_mem_hygiene s) (config_updater s) (config_diagnostics s) (config_benchmark s) (config_capabilities s) (config_service s) (config_round_robin s) (config_status_api s) (config_profiles s)).

Definition config_capabilities_l : Lens Config (option Capabilities) :=
  mkLens config_capabilities (fun a s => mkConfig (config_version s) (config_runtime s) (config_logging s) (config_secrets s) (config_dns s) (config_firewall s) (config_network s) (config_observability s) (config_events s) (config_mcp s) (config_mem_hygiene s) (config_updater s) (config_diagnostics s) (config_benchmark s) a (config_service s) (config_round_robin s) (config_status_api s) (config_profiles s)).

Definition logging_level_l : Lens Logging (option string) :=
  mkLens logging_level (fun a s => mkLogging a (logging_format s) (logging_destinations s) (logging_file s) (logging_rotate s) (logging_max_size s) (logging_max_files s) (logging_max_age s) (logging_compress_rotated s) (logging_rotation_check_interval s) (logging_redact s) (logging_remote s)).

Definition logging_format_l : Lens Logging (option string) :=
  mkLens logging_format (fun a s => mkLogging (logging_level s) a (logging_destinations s) (logging_file s) (logging_rotate s) (logging_max_size s) (logging_max_files s) (logging_max_age s) (logging_compress_rotated s) (logging_rotation_check_interval s) (logging_redact s) (logging_remote s)).

Definition logging_max_files_l : Lens Logging (option Z) :=
  mkLens logging_max_files (fun a s => mkLogging (logging_level s) (logging_format s) (logging_destinations s) (logging_file s) (logging_rotate s) (logging_max_size s) a (logging_max_age s) (logging_compress_rotated s) (logging_rotation_check_interval s) (logging_redact s) (logging_remote s)).

Definition logging_destinations_l : Lens Logging (option (list string)) :=
  mkLens logging_destinations (fun a s => mkLogging (logging_level s) (logging_format s) a (logging_file s) (logging_rotate s) (logging_max_size s) (logging_max_files s) (logging_max_age s) (logging_compress_rotated s) (logging_rotation_check_interval s) (logging_redact s) (logging_remote s)).

Definition runtime_profile_start_parallelism_l : Lens Runtime (option Z) :=
  mkLens runtime_profile_start_parallelism (fun a s => mkRuntime (runtime_state_dir s) (runtime_required_profiles s) (runtime_shutdown_grace s) a (runtime_file_lock s) (runtime_threads s) (runtime_reload s) (runtime_remote_config s)).

Definition runtime_reload_require_valid_config_l : Lens RuntimeReload (option bool) :=
  mkLens runtime_reload_require_valid_config (fun a s => mkRuntimeReload (runtime_reload_mode s) (runtime_reload_debounce s) a (runtime_reload_restart_changed_profiles s)).

Definition runtime_state_dir_l : Lens Runtime (option string) :=
  mkLens runtime_state_dir (fun a s => mkRuntime a (runtime_required_profiles s) (runtime_shutdown_grace s) (runtime_profile_start_parallelism s) (runtime_file_lock s) (runtime_threads s) (runtime_reload s) (runtime_remote_config s)).

Definition secrets_backend_l : Lens Secrets (option string) :=
  mkLens secrets_backend (fun a s => mkSecrets a (secrets_vault_file s) (secrets_encrypt_at_rest s) (secrets_memory_protection s) (secrets_keychain_namespace s) (secrets_file s)).

Definition secrets_memory_protection_l : Lens Secrets (option string) :=
  mkLens secrets_memory_protection (fun a s => mkSecrets (secrets_backend s) (secrets_vault_file s) (secrets_encrypt_at_rest s) a (secrets_keychain_namespace s) (secrets_file s)).

Definition firewall_manager_l : Lens Firewall (option string) :=
  mkLens firewall_manager (fun a s => mkFirewall (firewall_enabled s) a (firewall_apply_rules s) (firewall_bind_policy s) (firewall_default_interface s) (firewall_allow_all_interfaces s) (firewall_platform s)).

Definition firewall_apply_rules_l : Lens Firewall (option bool) :=
  mkLens firewall_apply_rules (fun a s => mkFirewall (firewall_enabled s) (firewall_manager s) a (firewall_bind_policy s) (firewall_default_interface s) (firewall_allow_all_interfaces s) (firewall_platform s)).

Definition firewall_bind_policy_l : Lens Firewall (option string) :=
  mkLens firewall_bind_policy (fun a s => mkFirewall (firewall_enabled s) (firewall_manager s) (firewall_apply_rules s) a (firewall_default_interface s) (firewall_allow_all_interfaces s) (firewall_platform s)).

Definition network_interface_default_interface_l : Lens NetworkInterface (option string) :=
  mkLens network_interface_default_interface (fun a s => mkNetworkInterface a (network_interface_allowed_interfaces s) (network_interface_denied_interfaces s) (network_interface_require_explicit_interface s) (network_interface_allow_all_interfaces s) (network_interface_bind_ipv6 s)).

Definition network_interface_allowed_interfaces_l : Lens NetworkInterface (option (list string)) :=
  mkLens network_interface_allowed_interfaces (fun a s => mkNetworkInterface (network_interface_default_interface s) a (network_interface_denied_interfaces s) (network_interface_require_explicit_interface s) (network_interface_allow_all_interfaces s) (network_interface_bind_ipv6 s)).

Definition network_interface_denied_interfaces_l : Lens NetworkInterface (option (list string)) :=
  mkLens network_interface_denied_interfaces (fun a s => mkNetworkInterface (network_interface_default_interface s) (network_interface_allowed_interfaces s) a (network_interface_require_explicit_interface s) (network_interface_allow_all_interfaces s) (network_interface_bind_ipv6 s)).

Definition network_interface_require_explicit_interface_l : Lens NetworkInterface (option bool) :=
  mkLens network_interface_require_explicit_interface (fun a s => mkNetworkInterface (network_interface_default_interface s) (network_interface_allowed_interfaces s) (network_interface_denied_interfaces s) a (network_interface_allow_all_interfaces s) (network_interface_bind_ipv6 s)).

Definition network_interface_allow_all_interfaces_l : Lens NetworkInterface (option bool) :=
  mkLens network_interface_allow_all_interfaces (fun a s => mkNetworkInterface (network_interface_default_interface s) (network_interface_allowed_interfaces s) (network_interface_denied_interfaces s) (network_interface_require_explicit_interface s) a (network_interface_bind_ipv6 s)).

Definition network_interface_bind_ipv6_l : Lens NetworkInterface (option string) :=
  mkLens network_interface_bind_ipv6 (fun a s => mkNetworkInterface (network_interface_default_interface s) (network_interface_allowed_interfaces s) (network_interface_denied_interfaces s) (network_interface_require_explicit_interface s) (network_interface_allow_all_interfaces s) a).

Definition network_gateway_default_gateway_l : Lens NetworkGateway (option string) :=
  mkLens network_gateway_default_gateway (fun a s => mkNetworkGateway a (network_gateway_interface s) (network_gateway_route_check_target s) (network_gateway_require_gateway_match s) (network_gateway_policy s)).

Definition network_gateway_interface_l : Lens NetworkGateway (option string) :=
  mkLens network_gateway_interface (fun a s => mkNetworkGateway (network_gateway_default_gateway s) a (network_gateway_route_check_target s) (network_gateway_require_gateway_match s) (network_gateway_policy s)).

Definition network_gateway_route_check_target_l : Lens NetworkGateway (option string) :=
  mkLens network_gateway_route_check_target (fun a s => mkNetworkGateway (network_gateway_default_gateway s) (network_gateway_interface s) a (network_gateway_require_gateway_match s) (network_gateway_policy s)).

Definition network_gateway_require_gateway_match_l : Lens NetworkGateway (option bool) :=
  mkLens network_gateway_require_gateway_match (fun a s => mkNetworkGateway (network_gateway_default_gateway s) (network_gateway_interface s) (network_gateway_route_check_target s) a (network_gateway_policy s)).

Definition network_gateway_policy_l : Lens NetworkGateway (option string) :=
  mkLens network_gateway_policy (fun a s => mkNetworkGateway (network_gateway_default_gateway s) (network_gateway_interface s) (network_gateway_route_check_target s) (network_gateway_require_gateway_match s) a).

Definition network_offload_zerocopy_l : Lens NetworkOffload (option bool) :=
  mkLens network_offload_zerocopy (fun a s => mkNetworkOffload (network_offload_tcp_nodelay s) (network_offload_socket_keepalive s) (network_offload_tcp_fast_open s) (network_offload_reuse_port s) (network_offload_io_uring s) a (network_offload_sendfile s) (network_offload_checksum_offload s) (network_offload_large_send_offload s)).

Definition network_offload_io_uring_l : Lens NetworkOffload (option bool) :=
  mkLens network_offload_io_uring (fun a s => mkNetworkOffload (network_offload_tcp_nodelay s) (network_offload_socket_keepalive s) (network_offload_tcp_fast_open s) (network_offload_reuse_port s) a (network_offload_zerocopy s) (network_offload_sendfile s) (network_offload_checksum_offload s) (network_offload_large_send_offload s)).

Definition network_load_balance_strategy_l : Lens NetworkLoadBalance (option string) :=
  mkLens network_load_balance_strategy (fun a s => mkNetworkLoadBalance a (network_load_balance_sticky_sessions s) (network_load_balance_health_check s) (network_load_balance_fail_after s) (network_load_balance_restore_after s) (network_load_balance_rebalance_interval s)).

Definition network_load_balance_sticky_sessions_l : Lens NetworkLoadBalance (option bool) :=
  mkLens network_load_balance_sticky_sessions (fun a s => mkNetworkLoadBalance (network_load_balance_strategy s) a (network_load_balance_health_check s) (network_load_balance_fail_after s) (network_load_balance_restore_after s) (network_load_balance_rebalance_interval s)).

Definition network_load_balance_health_check_l : Lens NetworkLoadBalance (option string) :=
  mkLens network_load_balance_health_check (fun a s => mkNetworkLoadBalance (network_load_balance_strategy s) (network_load_balance_sticky_sessions s) a (network_load_balance_fail_after s) (network_load_balance_restore_after s) (network_load_balance_rebalance_interval s)).

Definition network_load_balance_fail_after_l : Lens NetworkLoadBalance (option Z) :=
  mkLens network_load_balance_fail_after (fun a s => mkNetworkLoadBalance (network_load_balance_strategy s) (network_load_balance_sticky_sessions s) (network_load_balance_health_check s) a (network_load_balance_restore_after s) (network_load_balance_rebalance_interval s)).

Definition network_load_balance_restore_after_l : Lens NetworkLoadBalance (option string) :=
  mkLens network_load_balance_restore_after (fun a s => mkNetworkLoadBalance (network_load_balance_strategy s) (network_load_balance_sticky_sessions s) (network_load_balance_health_check s) (network_load_balance_fail_after s) a (network_load_balance_rebalance_interval s)).

Definition network_load_balance_rebalance_interval_l : Lens NetworkLoadBalance (option string) :=
  mkLens network_load_balance_rebalance_interval (fun a s => mkNetworkLoadBalance (network_load_balance_strategy s) (network_load_balance_sticky_sessions s) (network_load_balance_health_check s) (network_load_balance_fail_after s) (network_load_balance_restore_after s) a).

Definition observability_windows_event_enabled_l : Lens ObservabilityWindowsEvent (option bool) :=
  mkLens observability_windows_event_enabled (fun a s => mkObservabilityWindowsEvent a (observability_windows_event_source s) (observability_windows_event_channel s) (observability_windows_event_install_source s)).

Definition observability_windows_event_channel_l : Lens ObservabilityWindowsEvent (option string) :=
  mkLens observability_windows_event_channel (fun a s => mkObservabilityWindowsEvent (observability_windows_event_enabled s) (observability_windows_event_source s) a (observability_windows_event_install_source s)).

Definition observability_windows_event_source_l : Lens ObservabilityWindowsEvent (option string) :=
  mkLens observability_windows_event_source (fun a s => mkObservabilityWindowsEvent (observability_windows_event_enabled s) a (observability_windows_event_channel s) (observability_windows_event_install_source s)).

Definition observability_windows_event_install_source_l : Lens ObservabilityWindowsEvent (option bool) :=
  mkLens observability_windows_event_install_source (fun a s => mkObservabilityWindowsEvent (observability_windows_event_enabled s) (observability_windows_event_source s) (observability_windows_event_channel s) a).

Definition observability_metrics_enabled_l : Lens ObservabilityMetrics (option bool) :=
  mkLens observability_metrics_enabled (fun a s => mkObservabilityMetrics a (observability_metrics_format s) (observability_metrics_state_file s)).

Definition runtime_remote_config_enabled_l : Lens RuntimeRemoteConfig (option bool) :=
  mkLens runtime_remote_config_enabled (fun a s => mkRuntimeRemoteConfig a (runtime_remote_config_url s) (runtime_remote_config_fingerprint_sha256 s) (runtime_remote_config_cache_file s) (runtime_remote_config_allow_cached_on_failure s) (runtime_remote_config_poll_interval s) (runtime_remote_config_pin_spki_sha256 s) (runtime_remote_config_allow_self_signed s) (runtime_remote_config_max_cert_chain_depth s) (runtime_remote_config_encryption_key_from s) (runtime_remote_config_require_encrypted s) (runtime_remote_config_signing_pubkey s) (runtime_remote_config_require_signature s)).

Definition runtime_remote_config_url_l : Lens RuntimeRemoteConfig (option string) :=
  mkLens runtime_remote_config_url (fun a s => mkRuntimeRemoteConfig (runtime_remote_config_enabled s) a (runtime_remote_config_fingerprint_sha256 s) (runtime_remote_config_cache_file s) (runtime_remote_config_allow_cached_on_failure s) (runtime_remote_config_poll_interval s) (runtime_remote_config_pin_spki_sha256 s) (runtime_remote_config_allow_self_signed s) (runtime_remote_config_max_cert_chain_depth s) (runtime_remote_config_encryption_key_from s) (runtime_remote_config_require_encrypted s) (runtime_remote_config_signing_pubkey s) (runtime_remote_config_require_signature s)).

Definition runtime_remote_config_fingerprint_sha256_l : Lens RuntimeRemoteConfig (option string) :=
  mkLens runtime_remote_config_fingerprint_sha256 (fun a s => mkRuntimeRemoteConfig (runtime_remote_config_enabled s) (runtime_remote_config_url s) a (runtime_remote_config_cache_file s) (runtime_remote_config_allow_cached_on_failure s) (runtime_remote_config_poll_interval s) (runtime_remote_config_pin_spki_sha256 s) (runtime_remote_config_allow_self_signed s) (runtime_remote_config_max_cert_chain_depth s) (runtime_remote_config_encryption_key_from s) (runtime_remote_config_require_encrypted s) (runtime_remote_config_signing_pubkey s) (runtime_remote_config_require_signature s)).

Definition runtime_remote_config_allow_cached_on_failure_l : Lens RuntimeRemoteConfig (option bool) :=
  mkLens runtime_remote_config_allow_cached_on_failure (fun a s => mkRuntimeRemoteConfig (runtime_remote_config_enabled s) (runtime_remote_config_url s) (runtime_remote_config_fingerprint_sha256 s) (runtime_remote_config_cache_file s) a (runtime_remote_config_poll_interval s) (runtime_remote_config_pin_spki_sha256 s) (runtime_remote_config_allow_self_signed s) (runtime_remote_config_max_cert_chain_depth s) (runtime_remote_config_encryption_key_from s) (runtime_remote_config_require_encrypted s) (runtime_remote_config_signing_pubkey s) (runtime_remote_config_require_signature s)).

Definition mcp_enabled_l : Lens Mcp (option bool) :=
  mkLens mcp_enabled (fun a s => mkMcp a (mcp_default_mode s) (mcp_stdio s) (mcp_listen s) (mcp_allow_secret_reveal s) (mcp_allow_write_tools s) (mcp_audit_events s) (mcp_expose s) (mcp_pin_spki_sha256 s) (mcp_allow_self_signed s) (mcp_max_cert_chain_depth s)).

Definition mcp_listen_l : Lens Mcp (option string) :=
  mkLens mcp_listen (fun a s => mkMcp (mcp_enabled s) (mcp_default_mode s) (mcp_stdio s) a (mcp_allow_secret_reveal s) (mcp_allow_write_tools s) (mcp_audit_events s) (mcp_expose s) (mcp_pin_spki_sha256 s) (mcp_allow_self_signed s) (mcp_max_cert_chain_depth s)).

Definition capabilities_ssh2_backend_l : Lens Capabilities (option string) :=
  mkLens capabilities_ssh2_backend (fun a s => mkCapabilities a (capabilities_allow_libssh2 s) (capabilities_allow_gssapi s) (capabilities_allow_sspi s) (capabilities_allow_gssapi_delegation s) (capabilities_allow_ntlm_fallback s) (capabilities_allow_post_quantum_kex s) (capabilities_allow_ml_kem s) (capabilities_require_post_quantum_kex s) (capabilities_allow_dynamic_proxy s) (capabilities_allow_sftp s) (capabilities_allow_filesystem_mounts s) (capabilities_allow_windows_drive_mounts s) (capabilities_allow_writeback_cache s) (capabilities_allow_windows_event_log s) (capabilities_allow_gpo_policy_writes s)).

Definition network_offload_tcp_nodelay_l : Lens NetworkOffload (option bool) :=
  mkLens network_offload_tcp_nodelay (fun a s => mkNetworkOffload a (network_offload_socket_keepalive s) (network_offload_tcp_fast_open s) (network_offload_reuse_port s) (network_offload_io_uring s) (network_offload_zerocopy s) (network_offload_sendfile s) (network_offload_checksum_offload s) (network_offload_large_send_offload s)).

Definition network_offload_socket_keepalive_l : Lens NetworkOffload (option bool) :=
  mkLens network_offload_socket_keepalive (fun a s => mkNetworkOffload (network_offload_tcp_nodelay s) a (network_offload_tcp_fast_open s) (network_offload_reuse_port s) (network_offload_io_uring s) (network_offload_zerocopy s) (network_offload_sendfile s) (network_offload_checksum_offload s) (network_offload_large_send_offload s)).

Definition network_offload_tcp_fast_open_l : Lens NetworkOffload (option bool) :=
  mkLens network_offload_tcp_fast_open (fun a s => mkNetworkOffload (network_offload_tcp_nodelay s) (network_offload_socket_keepalive s) a (network_offload_reuse_port s) (network_offload_io_uring s) (network_offload_zerocopy s) (network_offload_sendfile s) (network_offload_checksum_offload s) (network_offload_large_send_offload s)).

Definition network_offload_reuse_port_l : Lens NetworkOffload (option bool) :=
  mkLens network_offload_reuse_port (fun a s => mkNetworkOffload (network_offload_tcp_nodelay s) (network_offload_socket_keepalive s) (network_offload_tcp_fast_open s) a (network_offload_io_uring s) (network_offload_zerocopy s) (network_offload_sendfile s) (network_offload_checksum_offload s) (network_offload_large_send_offload s)).

Definition network_offload_sendfile_l : Lens NetworkOffload (option bool) :=
  mkLens network_offload_sendfile (fun a s => mkNetworkOffload (network_offload_tcp_nodelay s) (network_offload_socket_keepalive s) (network_offload_tcp_fast_open s) (network_offload_reuse_port s) (network_offload_io_uring s) (network_offload_zerocopy s) a (network_offload_checksum_offload s) (network_offload_large_send_offload s)).

Definition network_offload_checksum_offload_l : Lens NetworkOffload (option bool) :=
  mkLens network_offload_checksum_offload (fun a s => mkNetworkOffload (network_offload_tcp_nodelay s) (network_offload_socket_keepalive s) (network_offload_tcp_fast_open s) (network_offload_reuse_port s) (network_offload_io_uring s) (network_offload_zerocopy s) (network_offload_sendfile s) a (network_offload_large_send_offload s)).

Definition network_offload_large_send_offload_l : Lens NetworkOffload (option bool) :=
  mkLens network_offload_large_send_offload (fun a s => mkNetworkOffload (network_offload_tcp_nodelay s) (network_offload_socket_keepalive s) (network_offload_tcp_fast_open s) (network_offload_reuse_port s) (network_offload_io_uring s) (network_offload_zerocopy s) (network_offload_sendfile s) (network_offload_checksum_offload s) a).

Definition capabilities_allow_libssh2_l : Lens Capabilities (option bool) :=
  mkLens capabilities_allow_libssh2 (fun a s => mkCapabilities (capabilities_ssh2_backend s) a (capabilities_allow_gssapi s) (capabilities_allow_sspi s) (capabilities_allow_gssapi_delegation s) (capabilities_allow_ntlm_fallback s) (capabilities_allow_post_quantum_kex s) (capabilities_allow_ml_kem s) (capabilities_require_post_quantum_kex s) (capabilities_allow_dynamic_proxy s) (capabilities_allow_sftp s) (capabilities_allow_filesystem_mounts s) (capabilities_allow_windows_drive_mounts s) (capabilities_allow_writeback_cache s) (capabilities_allow_windows_event_log s) (capabilities_allow_gpo_policy_writes s)).

Definition capabilities_allow_gssapi_l : Lens Capabilities (option bool) :=
  mkLens capabilities_allow_gssapi (fun a s => mkCapabilities (capabilities_ssh2_backend s) (capabilities_allow_libssh2 s) a (capabilities_allow_sspi s) (capabilities_allow_gssapi_delegation s) (capabilities_allow_ntlm_fallback s) (capabilities_allow_post_quantum_kex s) (capabilities_allow_ml_kem s) (capabilities_require_post_quantum_kex s) (capabilities_allow_dynamic_proxy s) (capabilities_allow_sftp s) (capabilities_allow_filesystem_mounts s) (capabilities_allow_windows_drive_mounts s) (capabilities_allow_writeback_cache s) (capabilities_allow_windows_event_log s) (capabilities_allow_gpo_policy_writes s)).

Definition capabilities_allow_sspi_l : Lens Capabilities (option bool) :=
  mkLens capabilities_allow_sspi (fun a s => mkCapabilities (capabilities_ssh2_backend s) (capabilities_allow_libssh2 s) (capabilities_allow_gssapi s) a (capabilities_allow_gssapi_delegation s) (capabilities_allow_ntlm_fallback s) (capabilities_allow_post_quantum_kex s) (capabilities_allow_ml_kem s) (capabilities_require_post_quantum_kex s) (capabilities_allow_dynamic_proxy s) (capabilities_allow_sftp s) (capabilities_allow_filesystem_mounts s) (capabilities_allow_windows_drive_mounts s) (capabilities_allow_writeback_cache s) (capabilities_allow_windows_event_log s) (capabilities_allow_gpo_policy_writes s)).

Definition capabilities_allow_gssapi_delegation_l : Lens Capabilities (option bool) :=
  mkLens capabilities_allow_gssapi_delegation (fun a s => mkCapabilities (capabilities_ssh2_backend s) (capabilities_allow_libssh2 s) (capabilities_allow_gssapi s) (capabilities_allow_sspi s) a (capabilities_allow_ntlm_fallback s) (capabilities_allow_post_quantum_kex s) (capabilities_allow_ml_kem s) (capabilities_require_post_quantum_kex s) (capabilities_allow_dynamic_proxy s) (capabilities_allow_sftp s) (capabilities_allow_filesystem_mounts s) (capabilities_allow_windows_drive_mounts s) (capabilities_allow_writeback_cache s) (capabilities_allow_windows_event_log s) (capabilities_allow_gpo_policy_writes s)).

Definition capabilities_allow_ntlm_fallback_l : Lens Capabilities (option bool) :=
  mkLens capabilities_allow_ntlm_fallback (fun a s => mkCapabilities (capabilities_ssh2_backend s) (capabilities_allow_libssh2 s) (capabilities_allow_gssapi s) (capabilities_allow_sspi s) (capabilities_allow_gssapi_delegation s) a (capabilities_allow_post_quantum_kex s) (capabilities_allow_ml_kem s) (capabilities_require_post_quantum_kex s) (capabilities_allow_dynamic_proxy s) (capabilities_allow_sftp s) (capabilities_allow_filesystem_mounts s) (capabilities_allow_windows_drive_mounts s) (capabilities_allow_writeback_cache s) (capabilities_allow_windows_event_log s) (capabilities_allow_gpo_policy_writes s)).

Definition capabilities_allow_post_quantum_kex_l : Lens Capabilities (option bool) :=
  mkLens capabilities_allow_post_quantum_kex (fun a s => mkCapabilities (capabilities_ssh2_backend s) (capabilities_allow_libssh2 s) (capabilities_allow_gssapi s) (capabilities_allow_sspi s) (capabilities_allow_gssapi_delegation s) (capabilities_allow_ntlm_fallback s) a (capabilities_allow_ml_kem s) (capabilities_require_post_quantum_kex s) (capabilities_allow_dynamic_proxy s) (capabilities_allow_sftp s) (capabilities_allow_filesystem_mounts s) (capabilities_allow_windows_drive_mounts s) (capabilities_allow_writeback_cache s) (capabilities_allow_windows_event_log s) (capabilities_allow_gpo_policy_writes s)).

Definition capabilities_allow_ml_kem_l : Lens Capabilities (option bool) :=
  mkLens capabilities_allow_ml_kem (fun a s => mkCapabilities (capabilities_ssh2_backend s) (capabilities_allow_libssh2 s) (capabilities_allow_gssapi s) (capabilities_allow_sspi s) (capabilities_allow_gssapi_delegation s) (capabilities_allow_ntlm_fallback s) (capabilities_allow_post_quantum_kex s) a (capabilities_require_post_quantum_kex s) (capabilities_allow_dynamic_proxy s) (capabilities_allow_sftp s) (capabilities_allow_filesystem_mounts s) (capabilities_allow_windows_drive_mounts s) (capabilities_allow_writeback_cache s) (capabilities_allow_windows_event_log s) (capabilities_allow_gpo_policy_writes s)).

Definition capabilities_require_post_quantum_kex_l : Lens Capabilities (option bool) :=
  mkLens capabilities_require_post_quantum_kex (fun a s => mkCapabilities (capabilities_ssh2_backend s) (capabilities_allow_libssh2 s) (capabilities_allow_gssapi s) (capabilities_allow_sspi s) (capabilities_allow_gssapi_delegation s) (capabilities_allow_ntlm_fallback s) (capabilities_allow_post_quantum_kex s) (capabilities_allow_ml_kem s) a (capabilities_allow_dynamic_proxy s) (capabilities_allow_sftp s) (capabilities_allow_filesystem_mounts s) (capabilities_allow_windows_drive_mounts s) (capabilities_allow_writeback_cache s) (capabilities_allow_windows_event_log s) (capabilities_allow_gpo_policy_writes s)).

Definition capabilities_allow_dynamic_proxy_l : Lens Capabilities (option bool) :=
  mkLens capabilities_allow_dynamic_proxy (fun a s => mkCapabilities (capabilities_ssh2_backend s) (capabilities_allow_libssh2 s) (capabilities_allow_gssapi s) (capabilities_allow_sspi s) (capabilities_allow_gssapi_delegation s) (capabilities_allow_ntlm_fallback s) (capabilities_allow_post_quantum_kex s) (capabilities_allow_ml_kem s) (capabilities_require_post_quantum_kex s) a (capabilities_allow_sftp s) (capabilities_allow_filesystem_mounts s) (capabilities_allow_windows_drive_mounts s) (capabilities_allow_writeback_cache s) (capabilities_allow_windows_event_log s) (capabilities_allow_gpo_policy_writes s)).

Definition capabilities_allow_sftp_l : Lens Capabilities (option bool) :=
  mkLens capabilities_allow_sftp (fun a s => mkCapabilities (capabilities_ssh2_backend s) (capabilities_allow_libssh2 s) (capabilities_allow_gssapi s) (capabilities_allow_sspi s) (capabilities_allow_gssapi_delegation s) (capabilities_allow_ntlm_fallback s) (capabilities_allow_post_quantum_kex s) (capabilities_allow_ml_kem s) (capabilities_require_post_quantum_kex s) (capabilities_allow_dynamic_proxy s) a (capabilities_allow_filesystem_mounts s) (capabilities_allow_windows_drive_mounts s) (capabilities_allow_writeback_cache s) (capabilities_allow_windows_event_log s) (capabilities_allow_gpo_policy_writes s)).

Definition capabilities_allow_filesystem_mounts_l : Lens Capabilities (option bool) :=
  mkLens capabilities_allow_filesystem_mounts (fun a s => mkCapabilities (capabilities_ssh2_backend s) (capabilities_allow_libssh2 s) (capabilities_allow_gssapi s) (capabilities_allow_sspi s) (capabilities_allow_gssapi_delegation s) (capabilities_allow_ntlm_fallback s) (capabilities_allow_post_quantum_kex s) (capabilities_allow_ml_kem s) (capabilities_require_post_quantum_kex s) (capabilities_allow_dynamic_proxy s) (capabilities_allow_sftp s) a (capabilities_allow_windows_drive_mounts s) (capabilities_allow_writeback_cache s) (capabilities_allow_windows_event_log s) (capabilities_allow_gpo_policy_writes s)).

Definition capabilities_allow_windows_drive_mounts_l : Lens Capabilities (option bool) :=
  mkLens capabilities_allow_windows_drive_mounts (fun a s => mkCapabilities (capabilities_ssh2_backend s) (capabilities_allow_libssh2 s) (capabilities_allow_gssapi s) (capabilities_allow_sspi s) (capabilities_allow_gssapi_delegation s) (capabilities_allow_ntlm_fallback s) (capabilities_allow_post_quantum_kex s) (capabilities_allow_ml_kem s) (capabilities_require_post_quantum_kex s) (capabilities_allow_dynamic_proxy s) (capabilities_allow_sftp s) (capabilities_allow_filesystem_mounts s) a (capabilities_allow_writeback_cache s) (capabilities_allow_windows_event_log s) (capabilities_allow_gpo_policy_writes s)).

Definition capabilities_allow_writeback_cache_l : Lens Capabilities (option bool) :=
  mkLens capabilities_allow_writeback_cache (fun a s => mkCapabilities (capabilities_ssh2_backend s) (capabilities_allow_libssh2 s) (capabilities_allow_gssapi s) (capabilities_allow_sspi s) (capabilities_allow_gssapi_delegation s) (capabilities_allow_ntlm_fallback s) (capabilities_allow_post_quantum_kex s) (capabilities_allow_ml_kem s) (capabilities_require_post_quantum_kex s) (capabilities_allow_dynamic_proxy s) (capabilities_allow_sftp s) (capabilities_allow_filesystem_mounts s) (capabilities_allow_windows_drive_mounts s) a (capabilities_allow_windows_event_log s) (capabilities_allow_gpo_policy_writes s)).

Definition capabilities_allow_windows_event_log_l : Lens Capabilities (option bool) :=
  mkLens capabilities_allow_windows_event_log (fun a s => mkCapabilities (capabilities_ssh2_backend s) (capabilities_allow_libssh2 s) (capabilities_allow_gssapi s) (capabilities_allow_sspi s) (capabilities_allow_gssapi_delegation s) (capabilities_allow_ntlm_fallback s) (capabilities_allow_post_quantum_kex s) (capabilities_allow_ml_kem s) (capabilities_require_post_quantum_kex s) (capabilities_allow_dynamic_proxy s) (capabilities_allow_sftp s) (capabilities_allow_filesystem_mounts s) (capabilities_allow_windows_drive_mounts s) (capabilities_allow_writeback_cache s) a (capabilities_allow_gpo_policy_writes s)).

Definition capabilities_allow_gpo_policy_writes_l : Lens Capabilities (option bool) :=
  mkLens capabilities_allow_gpo_policy_writes (fun a s => mkCapabilities (capabilities_ssh2_backend s) (capabilities_allow_libssh2 s) (capabilities_allow_gssapi s) (capabilities_allow_sspi s) (capabilities_allow_gssapi_delegation s) (capabilities_allow_ntlm_fallback s) (capabilities_allow_post_quantum_kex s) (capabilities_allow_ml_kem s) (capabilities_require_post_quantum_kex s) (capabilities_allow_dynamic_proxy s) (capabilities_allow_sftp s) (capabilities_allow_filesystem_mounts s) (capabilities_allow_windows_drive_mounts s) (capabilities_allow_writeback_cache s) (capabilities_allow_windows_event_log s) a).

(** ** Their laws *)

#[export] Instance config_logging_place : Place config_logging_l.
Proof. done. Qed.
#[export] Instance config_runtime_place : Place config_runtime_l.
Proof. done. Qed.
#[export] Instance runtime_reload_place : Place runtime_reload_l.
Proof. done. Qed.
#[export] Instance runtime_remote_config_place : Place runtime_remote_config_l.
Proof. done. Qed.
#[export] Instance config_secrets_place : Place config_secrets_l.
Proof. done. Qed.
#[export] Instance config_firewall_place : Place config_firewall_l.
Proof. done. Qed.
#[export] Instance config_network_place : Place config_network_l.
Proof. done. Qed.
#[export] Instance network_interface_place : Place network_interface_l.
Proof. done. Qed.
#[export] Instance network_gateway_place : Place network_gateway_l.
Proof. done. Qed.
#[export] Instance network_offload_place : Place network_offload_l.
Proof. done. Qed.
#[export] Instance network_load_balance_place : Place network_load_balance_l.
Proof. done. Qed.
#[export] Instance config_observability_place : Place config_observability_l.
Proof. done. Qed.
#[export] Instance observability_windows_event_place : Place observability_windows_event_l.
Proof. done. Qed.
#[export] Instance observability_metrics_place : Place observability_metrics_l.
Proof. done. Qed.
#[export] Instance config_mcp_place : Place config_mcp_l.
Proof. done. Qed.
#[export] Instance config_capabilities_place : Place config_capabilities_l.
Proof. done. Qed.
#[export] Instance logging_level_place : Place logging_level_l.
Proof. done. Qed.
#[export] Instance logging_format_place : Place logging_format_l.
Proof. done. Qed.
#[export] Instance logging_max_files_place : Place logging_max_files_l.
Proof. done. Qed.
#[export] Instance logging_destinations_place : Place logging_destinations_l.
Proof. done. Qed.
#[export] Instance runtime_profile_start_parallelism_place : Place runtime_profile_start_parallelism_l.
Proof. done. Qed.
#[export] Instance runtime_reload_require_valid_config_place : Place runtime_reload_require_valid_config_l.
Proof. done. Qed.
#[export] Instance runtime_state_dir_place : Place runtime_state_dir_l.
Proof. done. Qed.
#[export] Instance secrets_backend_place : Place secrets_backend_l.
Proof. done. Qed.
#[export] Instance secrets_memory_protection_place : Place secrets_memory_protection_l.
Proof. done. Qed.
#[export] Instance firewall_manager_place : Place firewall_manager_l.
Proof. done. Qed.
#[export] Instance firewall_apply_rules_place : Place firewall_apply_rules_l.
Proof. done. Qed.
#[export] Instance firewall_bind_policy_place : Place firewall_bind_policy_l.
Proof. done. Qed.
#[export] Instance network_interface_default_interface_place : Place network_interface_default_interface_l.
Proof. done. Qed.
#[export] Instance network_interface_allowed_interfaces_place : Place network_interface_allowed_interfaces_l.
Proof. done. Qed.
#[export] Instance network_interface_denied_interfaces_place : Place network_interface_denied_interfaces_l.
Proof. done. Qed.
#[export] Instance network_interface_require_explicit_interface_place : Place network_interface_require_explicit_interface_l.
Proof. done. Qed.
#[export] Instance network_interface_allow_all_interfaces_place : Place network_interface_allow_all_interfaces_l.
Proof. done. Qed.
#[export] Instance network_interface_bind_ipv6_place : Place network_interface_bind_ipv6_l.
Proof. done. Qed.
#[export] Instance network_gateway_default_gateway_place : Place network_gateway_default_gateway_l.
Proof. done. Qed.
#[export] Instance network_gateway_interface_place : Place network_gateway_interface_l.
Proof. done. Qed.
#[export] Instance network_gateway_route_check_target_place : Place network_gateway_route_check_target_l.
Proof. done. Qed.
#[export] Instance network_gateway_require_gateway_match_place : Place network_gateway_require_gateway_match_l.
Proof. done. Qed.
#[export] Instance network_gateway_policy_place : Place network_gateway_policy_l.
Proof. done. Qed.
#[export] Instance network_offload_zerocopy_place : Place network_offload_zerocopy_l.
Proof. done. Qed.
#[export] Instance network_offload_io_uring_place : Place network_offload_io_uring_l.
Proof. done. Qed.
#[export] Instance network_load_balance_strategy_place : Place network_load_balance_strategy_l.
Proof. done. Qed.
#[export] Instance network_load_balance_sticky_sessions_place : Place network_load_balance_sticky_sessions_l.
Proof. done. Qed.
#[export] Instance network_load_balance_health_check_place : Place network_load_balance_health_check_l.
Proof. done. Qed.
#[export] Instance network_load_balance_fail_after_place : Place network_load_balance_fail_after_l.
Proof. done. Qed.
#[export] Instance network_load_balance_restore_after_place : Place network_load_balance_restore_after_l.
Proof. done. Qed.
#[export] Instance network_load_balance_rebalance_interval_place : Place network_load_balance_rebalance_interval_l.
Proof. done. Qed.
#[export] Instance observability_windows_event_enabled_place : Place observability_windows_event_enabled_l.
Proof. done. Qed.
#[export] Instance observability_windows_event_channel_place : Place observability_windows_event_channel_l.
Proof. done. Qed.
#[export] Instance observability_windows_event_source_place : Place observability_windows_event_source_l.
Proof. done. Qed.
#[export] Instance observability_windows_event_install_source_place : Place observability_windows_event_install_source_l.
Proof. done. Qed.
#[export] Instance observability_metrics_enabled_place : Place observability_metrics_enabled_l.
Proof. done. Qed.
#[export] Instance runtime_remote_config_enabled_place : Place runtime_remote_config_enabled_l.
Proof. done. Qed.
#[export] Instance runtime_remote_config_url_place : Place runtime_remote_config_url_l.
Proof. done. Qed.
#[export] Instance runtime_remote_config_fingerprint_sha256_place : Place runtime_remote_config_fingerprint_sha256_l.
Proof. done. Qed.
#[export] Instance runtime_remote_config_allow_cached_on_failure_place : Place runtime_remote_config_allow_cached_on_failure_l.
Proof. done. Qed.
#[export] Instance mcp_enabled_place : Place mcp_enabled_l.
Proof. done. Qed.
#[export] Instance mcp_listen_place : Place mcp_listen_l.
Proof. done. Qed.
#[export] Instance capabilities_ssh2_backend_place : Place capabilities_ssh2_backend_l.
Proof. done. Qed.
#[export] Instance network_offload_tcp_nodelay_place : Place network_offload_tcp_nodelay_l.
Proof. done. Qed.
#[export] Instance network_offload_socket_keepalive_place : Place network_offload_socket_keepalive_l.
Proof. done. Qed.
#[export] Instance network_offload_tcp_fast_open_place : Place network_offload_tcp_fast_open_l.
Proof. done. Qed.
#[export] Instance network_offload_reuse_port_place : Place network_offload_reuse_port_l.
Proof. done. Qed.
#[export] Instance network_offload_sendfile_place : Place network_offload_sendfile_l.
Proof. done. Qed.
#[export] Instance network_offload_checksum_offload_place : Place network_offload_checksum_offload_l.
Proof. done. Qed.
#[export] Instance network_offload_large_send_offload_place : Place network_offload_large_send_offload_l.
Proof. done. Qed.
#[export] Instance capabilities_allow_libssh2_place : Place capabilities_allow_libssh2_l.
Proof. done. Qed.
#[export] Instance capabilities_allow_gssapi_place : Place capabilities_allow_gssapi_l.
Proof. done. Qed.
#[export] Instance capabilities_allow_sspi_place : Place capabilities_allow_sspi_l.
Proof. done. Qed.
#[export] Instance capabilities_allow_gssapi_delegation_place : Place capabilities_allow_gssapi_delegation_l.
Proof. done. Qed.
#[export] Instance capabilities_allow_ntlm_fallback_place : Place capabilities_allow_ntlm_fallback_l.
Proof. done. Qed.
#[export] Instance capabilities_allow_post_quantum_kex_place : Place capabilities_allow_post_quantum_kex_l.
Proof. done. Qed.
#[export] Instance capabilities_allow_ml_kem_place : Place capabilities_allow_ml_kem_l.
Proof. done. Qed.
#[export] Instance capabilities_require_post_quantum_kex_place : Place capabilities_require_post_quantum_kex_l.
Proof. done. Qed.
#[export] Instance capabilities_allow_dynamic_proxy_place : Place capabilities_allow_dynamic_proxy_l.
Proof. done. Qed.
#[export] Instance capabilities_allow_sftp_place : Place capabilities_allow_sftp_l.
Proof. done. Qed.
#[export] Instance capabilities_allow_filesystem_mounts_place : Place capabilities_allow_filesystem_mounts_l.
Proof. done. Qed.
#[export] Instance capabilities_allow_windows_drive_mounts_place : Place capabilities_allow_windows_drive_mounts_l.
Proof. done. Qed.
#[export] Instance capabilities_allow_writeback_cache_place : Place capabilities_allow_writeback_cache_l.
Proof. done. Qed.
#[export] Instance capabilities_allow_windows_event_log_place : Place capabilities_allow_windows_event_log_l.
Proof. done. Qed.
#[export] Instance capabilities_allow_gpo_policy_writes_place : Place capabilities_allow_gpo_policy_writes_l.
Proof. done. Qed.
