(* ===== verification/Policy.v ===== *)
(** * The policy overlay

    Models [crates/spt-config/src/policy.rs]: the values an administrator sets
    in the machine and the user registry hive, the table of bindings from
    policy keys to configuration fields, the setters, and
    [PolicyOverlay::apply], which merges a bundle of policies into a loaded
    configuration.  The hives are finite maps; the order in which a [HashMap]
    lists its keys is the one of [map_to_list]. *)

From S2P Require Import Prelude Text Schema Fields.

Inductive PolicyValue :=
| PString (s : string)
| PInteger (i : Z)
| PBool (b : bool)
| PMultiString (l : list string).

Record PolicyBundle := mkPolicyBundle {
  pb_machine : gmap string PolicyValue;
  pb_user : gmap string PolicyValue;
  pb_enforced : gset string
}.

Definition bundle_is_empty (b : PolicyBundle) : bool :=
  bool_decide (pb_machine b = ∅) && bool_decide (pb_user b = ∅).
Definition is_enforced (b : PolicyBundle) (key : string) : bool := bool_decide (key ∈ pb_enforced b).

Record OverlayReport := mkOverlayReport {
  or_applied : list string;
  or_locked : list string;
  or_unknown : list string;
  or_type_mismatch : list string
}.

Inductive BindingKind := KString | KBool | KU32 | KAllowlist.
Inductive ApplyMode := Enforced | Advisory.

#[export] Instance ApplyMode_eq_dec : EqDecision ApplyMode.
Proof. solve_decision. Defined.

Record Binding := mkBinding {
  b_section : string;
  b_name : string;
  b_kind : BindingKind;
  b_apply : Config -> PolicyValue -> ApplyMode -> Config * bool;
  b_is_unset : Config -> bool
}.

Definition backslash : string := String "092" "".
Definition binding_key (b : Binding) : string := (b_section b +:+ backslash +:+ b_name b)%string.

Definition BindingKind_as_str (k : BindingKind) : string :=
  match k with KString => "string" | KBool => "bool" | KU32 => "u32" | KAllowlist => "multi_string" end.

(** ** Reading a policy value *)

Definition as_string (v : PolicyValue) : option string :=
  match v with PString s => Some s | _ => None end.
Definition as_bool (v : PolicyValue) : option bool :=
  match v with PBool b => Some b | PInteger i => Some (negb (i =? 0)) | _ => None end.
Definition as_u32 (v : PolicyValue) : option Z :=
  match v with PInteger i => if (0 <=? i) && (i <=? umax 32) then Some i else None | _ => None end.
Definition as_multi (v : PolicyValue) : option (list string) :=
  match v with PMultiString l => Some l | _ => None end.

(** Entries of [a] that are in [b], in the order of [a]. *)
Definition intersect (a b : list string) : list string := filter (fun x => x ∈ b) a.

(** [a], then the entries of [b] not there yet. *)
Definition union_preserve (a b : list string) : list string :=
  foldl (fun out v => if decide (v ∈ out) then out else out ++ [v]) a b.

(** ** The tables the setters write to, made when absent *)

Definition ensure_logging : Lens Config Logging := get_or_insert Logging_default config_logging_l.
Definition ensure_runtime : Lens Config Runtime := get_or_insert Runtime_default config_runtime_l.
Definition ensure_runtime_reload : Lens Config RuntimeReload := get_or_insert RuntimeReload_default (ensure_runtime ∙ runtime_reload_l).
Definition ensure_runtime_remote : Lens Config RuntimeRemoteConfig := get_or_insert RuntimeRemoteConfig_default (ensure_runtime ∙ runtime_remote_config_l).
Definition ensure_secrets : Lens Config Secrets := get_or_insert Secrets_default config_secrets_l.
Definition ensure_firewall : Lens Config Firewall := get_or_insert Firewall_default config_firewall_l.
Definition ensure_network : Lens Config Network := get_or_insert Network_default config_network_l.
Definition ensure_network_interface : Lens Config NetworkInterface := get_or_insert NetworkInterface_default (ensure_network ∙ network_interface_l).
Definition ensure_network_gateway : Lens Config NetworkGateway := get_or_insert NetworkGateway_default (ensure_network ∙ network_gateway_l).
Definition ensure_network_offload : Lens Config NetworkOffload := get_or_insert NetworkOffload_default (ensure_network ∙ network_offload_l).
Definition ensure_network_load_balance : Lens Config NetworkLoadBalance := get_or_insert NetworkLoadBalance_default (ensure_network ∙ network_load_balance_l).
Definition ensure_obs : Lens Config Observability := get_or_insert Observability_default config_observability_l.
Definition ensure_winevent : Lens Config ObservabilityWindowsEvent := get_or_insert ObservabilityWindowsEvent_default (ensure_obs ∙ observability_windows_event_l).
Definition ensure_metrics : Lens Config ObservabilityMetrics := get_or_insert ObservabilityMetrics_default (ensure_obs ∙ observability_metrics_l).
Definition ensure_mcp : Lens Config Mcp := get_or_insert Mcp_default config_mcp_l.
Definition ensure_capabilities : Lens Config Capabilities := get_or_insert Capabilities_default config_capabilities_l.

(** ** The setters

    The two shapes all of them have: [let Some(x) = as_..(v) else { return
    false }], then an assignment, and whether it changed the field. *)

Definition set_to {A} `{!EqDecision A} (l : Lens Config (option A)) (x : option A) (c : Config) : Config * bool :=
  match x with
  | None => (c, false)
  | Some a => (put l (Some a) c, negb (bool_decide (view l c = Some a)))
  end.

Definition merge_to (merge : list string -> list string -> list string) (l : Lens Config (option (list string)))
    (x : option (list string)) (mode : ApplyMode) (c : Config) : Config * bool :=
  match x with
  | None => (c, false)
  | Some policy_list =>
      let new := match mode, view l c with
                 | Enforced, Some existing => merge existing policy_list
                 | _, _ => policy_list
                 end in
      (put l (Some new) c, negb (bool_decide (view l c = Some new)))
  end.

Definition apply_logging_level (c : Config) (v : PolicyValue) (_ : ApplyMode) : Config * bool :=
  set_to (ensure_logging ∙ logging_level_l) (as_string v) c.
Definition apply_logging_format (c : Config) (v : PolicyValue) (_ : ApplyMode) : Config * bool :=
  set_to (ensure_logging ∙ logging_format_l) (as_string v) c.
Definition apply_logging_max_files (c : Config) (v : PolicyValue) (_ : ApplyMode) : Config * bool :=
  set_to (ensure_logging ∙ logging_max_files_l) (as_u32 v) c.
Definition apply_logging_destinations (c : Config) (v : PolicyValue) (mode : ApplyMode) : Config * bool :=
  merge_to intersect (ensure_logging ∙ logging_destinations_l) (as_multi v) mode c.
Definition apply_runtime_parallelism (c : Config) (v : PolicyValue) (_ : ApplyMode) : Config * bool :=
  set_to (ensure_runtime ∙ runtime_profile_start_parallelism_l) (as_u32 v) c.
Definition apply_runtime_require_valid_config (c : Config) (v : PolicyValue) (_ : ApplyMode) : Config * bool :=
  set_to (ensure_runtime_reload ∙ runtime_reload_require_valid_config_l) (as_bool v) c.
Definition apply_runtime_state_dir (c : Config) (v : PolicyValue) (_ : ApplyMode) : Config * bool :=
  set_to (ensure_runtime ∙ runtime_state_dir_l) (as_string v) c.
Definition apply_secrets_backend (c : Config) (v : PolicyValue) (_ : ApplyMode) : Config * bool :=
  set_to (ensure_secrets ∙ secrets_backend_l) (as_string v) c.
Definition apply_secrets_mem (c : Config) (v : PolicyValue) (_ : ApplyMode) : Config * bool :=
  set_to (ensure_secrets ∙ secrets_memory_protection_l) (as_string v) c.
Definition apply_firewall_manager (c : Config) (v : PolicyValue) (_ : ApplyMode) : Config * bool :=
  set_to (ensure_firewall ∙ firewall_manager_l) (as_string v) c.
Definition apply_firewall_apply_rules (c : Config) (v : PolicyValue) (_ : ApplyMode) : Config * bool :=
  set_to (ensure_firewall ∙ firewall_apply_rules_l) (as_bool v) c.
Definition apply_firewall_bind_policy (c : Config) (v : PolicyValue) (_ : ApplyMode) : Config * bool :=
  set_to (ensure_firewall ∙ firewall_bind_policy_l) (as_string v) c.
Definition apply_network_default_interface (c : Config) (v : PolicyValue) (_ : ApplyMode) : Config * bool :=
  set_to (ensure_network_interface ∙ network_interface_default_interface_l) (as_string v) c.
Definition apply_network_allowed_interfaces (c : Config) (v : PolicyValue) (mode : ApplyMode) : Config * bool :=
  merge_to intersect (ensure_network_interface ∙ network_interface_allowed_interfaces_l) (as_multi v) mode c.
Definition apply_network_denied_interfaces (c : Config) (v : PolicyValue) (mode : ApplyMode) : Config * bool :=
  merge_to union_preserve (ensure_network_interface ∙ network_interface_denied_interfaces_l) (as_multi v) mode c.
Definition apply_network_require_explicit_interface (c : Config) (v : PolicyValue) (_ : ApplyMode) : Config * bool :=
  set_to (ensure_network_interface ∙ network_interface_require_explicit_interface_l) (as_bool v) c.
Definition apply_network_allow_all_interfaces (c : Config) (v : PolicyValue) (_ : ApplyMode) : Config * bool :=
  set_to (ensure_network_interface ∙ network_interface_allow_all_interfaces_l) (as_bool v) c.
Definition apply_network_bind_ipv6 (c : Config) (v : PolicyValue) (_ : ApplyMode) : Config * bool :=
  set_to (ensure_network_interface ∙ network_interface_bind_ipv6_l) (as_string v) c.
Definition apply_network_default_gateway (c : Config) (v : PolicyValue) (_ : ApplyMode) : Config * bool :=
  set_to (ensure_network_gateway ∙ network_gateway_default_gateway_l) (as_string v) c.
Definition apply_network_gateway_interface (c : Config) (v : PolicyValue) (_ : ApplyMode) : Config * bool :=
  set_to (ensure_network_gateway ∙ network_gateway_interface_l) (as_string v) c.
Definition apply_network_route_check_target (c : Config) (v : PolicyValue) (_ : ApplyMode) : Config * bool :=
  set_to (ensure_network_gateway ∙ network_gateway_route_check_target_l) (as_string v) c.
Definition apply_network_require_gateway_match (c : Config) (v : PolicyValue) (_ : ApplyMode) : Config * bool :=
  set_to (ensure_network_gateway ∙ network_gateway_require_gateway_match_l) (as_bool v) c.
Definition apply_network_gateway_policy (c : Config) (v : PolicyValue) (_ : ApplyMode) : Config * bool :=
  set_to (ensure_network_gateway ∙ network_gateway_policy_l) (as_string v) c.
Definition apply_network_offload_zerocopy (c : Config) (v : PolicyValue) (_ : ApplyMode) : Config * bool :=
  set_to (ensure_network_offload ∙ network_offload_zerocopy_l) (as_bool v) c.
Definition apply_network_offload_io_uring (c : Config) (v : PolicyValue) (_ : ApplyMode) : Config * bool :=
  set_to (ensure_network_offload ∙ network_offload_io_uring_l) (as_bool v) c.
Definition apply_network_load_balance_strategy (c : Config) (v : PolicyValue) (_ : ApplyMode) : Config * bool :=
  set_to (ensure_network_load_balance ∙ network_load_balance_strategy_l) (as_string v) c.
Definition apply_network_load_balance_sticky_sessions (c : Config) (v : PolicyValue) (_ : ApplyMode) : Config * bool :=
  set_to (ensure_network_load_balance ∙ network_load_balance_sticky_sessions_l) (as_bool v) c.
Definition apply_network_load_balance_health_check (c : Config) (v : PolicyValue) (_ : ApplyMode) : Config * bool :=
  set_to (ensure_network_load_balance ∙ network_load_balance_health_check_l) (as_string v) c.
Definition apply_network_load_balance_fail_after (c : Config) (v : PolicyValue) (_ : ApplyMode) : Config * bool :=
  set_to (ensure_network_load_balance ∙ network_load_balance_fail_after_l) (as_u32 v) c.
Definition apply_network_load_balance_restore_after (c : Config) (v : PolicyValue) (_ : ApplyMode) : Config * bool :=
  set_to (ensure_network_load_balance ∙ network_load_balance_restore_after_l) (as_string v) c.
Definition apply_network_load_balance_rebalance_interval (c : Config) (v : PolicyValue) (_ : ApplyMode) : Config * bool :=
  set_to (ensure_network_load_balance ∙ network_load_balance_rebalance_interval_l) (as_string v) c.
Definition apply_winevent_enabled (c : Config) (v : PolicyValue) (_ : ApplyMode) : Config * bool :=
  set_to (ensure_winevent ∙ observability_windows_event_enabled_l) (as_bool v) c.
Definition apply_winevent_channel (c : Config) (v : PolicyValue) (_ : ApplyMode) : Config * bool :=
  set_to (ensure_winevent ∙ observability_windows_event_channel_l) (as_string v) c.
Definition apply_winevent_source (c : Config) (v : PolicyValue) (_ : ApplyMode) : Config * bool :=
  set_to (ensure_winevent ∙ observability_windows_event_source_l) (as_string v) c.
Definition apply_winevent_install_source (c : Config) (v : PolicyValue) (_ : ApplyMode) : Config * bool :=
  set_to (ensure_winevent ∙ observability_windows_event_install_source_l) (as_bool v) c.
Definition apply_metrics_enabled (c : Config) (v : PolicyValue) (_ : ApplyMode) : Config * bool :=
  set_to (ensure_metrics ∙ observability_metrics_enabled_l) (as_bool v) c.
Definition apply_remote_cfg_enabled (c : Config) (v : PolicyValue) (_ : ApplyMode) : Config * bool :=
  set_to (ensure_runtime_remote ∙ runtime_remote_config_enabled_l) (as_bool v) c.
Definition apply_remote_cfg_url (c : Config) (v : PolicyValue) (_ : ApplyMode) : Config * bool :=
  set_to (ensure_runtime_remote ∙ runtime_remote_config_url_l) (as_string v) c.
Definition apply_remote_cfg_fingerprint (c : Config) (v : PolicyValue) (_ : ApplyMode) : Config * bool :=
  set_to (ensure_runtime_remote ∙ runtime_remote_config_fingerprint_sha256_l) (as_string v) c.
Definition apply_remote_cfg_cached (c : Config) (v : PolicyValue) (_ : ApplyMode) : Config * bool :=
  set_to (ensure_runtime_remote ∙ runtime_remote_config_allow_cached_on_failure_l) (as_bool v) c.
Definition apply_mcp_enabled (c : Config) (v : PolicyValue) (_ : ApplyMode) : Config * bool :=
  set_to (ensure_mcp ∙ mcp_enabled_l) (as_bool v) c.
Definition apply_mcp_listen (c : Config) (v : PolicyValue) (_ : ApplyMode) : Config * bool :=
  set_to (ensure_mcp ∙ mcp_listen_l) (as_string v) c.
Definition apply_cap_ssh2_backend (c : Config) (v : PolicyValue) (_ : ApplyMode) : Config * bool :=
  set_to (ensure_capabilities ∙ capabilities_ssh2_backend_l) (as_string v) c.
Definition apply_network_offload_tcp_nodelay (c : Config) (v : PolicyValue) (_ : ApplyMode) : Config * bool :=
  set_to (ensure_network_offload ∙ network_offload_tcp_nodelay_l) (as_bool v) c.
Definition apply_network_offload_socket_keepalive (c : Config) (v : PolicyValue) (_ : ApplyMode) : Config * bool :=
  set_to (ensure_network_offload ∙ network_offload_socket_keepalive_l) (as_bool v) c.
Definition apply_network_offload_tcp_fast_open (c : Config) (v : PolicyValue) (_ : ApplyMode) : Config * bool :=
  set_to (ensure_network_offload ∙ network_offload_tcp_fast_open_l) (as_bool v) c.
Definition apply_network_offload_reuse_port (c : Config) (v : PolicyValue) (_ : ApplyMode) : Config * bool :=
  set_to (ensure_network_offload ∙ network_offload_reuse_port_l) (as_bool v) c.
Definition apply_network_offload_sendfile (c : Config) (v : PolicyValue) (_ : ApplyMode) : Config * bool :=
  set_to (ensure_network_offload ∙ network_offload_sendfile_l) (as_bool v) c.
Definition apply_network_offload_checksum_offload (c : Config) (v : PolicyValue) (_ : ApplyMode) : Config * bool :=
  set_to (ensure_network_offload ∙ network_offload_checksum_offload_l) (as_bool v) c.
Definition apply_network_offload_large_send_offload (c : Config) (v : PolicyValue) (_ : ApplyMode) : Config * bool :=
  set_to (ensure_network_offload ∙ network_offload_large_send_offload_l) (as_bool v) c.
Definition apply_cap_allow_libssh2 (c : Config) (v : PolicyValue) (_ : ApplyMode) : Config * bool :=
  set_to (ensure_capabilities ∙ capabilities_allow_libssh2_l) (as_bool v) c.
Definition apply_cap_allow_gssapi (c : Config) (v : PolicyValue) (_ : ApplyMode) : Config * bool :=
  set_to (ensure_capabilities ∙ capabilities_allow_gssapi_l) (as_bool v) c.
Definition apply_cap_allow_sspi (c : Config) (v : PolicyValue) (_ : ApplyMode) : Config * bool :=
  set_to (ensure_capabilities ∙ capabilities_allow_sspi_l) (as_bool v) c.
Definition apply_cap_allow_gssapi_delegation (c : Config) (v : PolicyValue) (_ : ApplyMode) : Config * bool :=
  set_to (ensure_capabilities ∙ capabilities_allow_gssapi_delegation_l) (as_bool v) c.
Definition apply_cap_allow_ntlm_fallback (c : Config) (v : PolicyValue) (_ : ApplyMode) : Config * bool :=
  set_to (ensure_capabilities ∙ capabilities_allow_ntlm_fallback_l) (as_bool v) c.
Definition apply_cap_allow_post_quantum_kex (c : Config) (v : PolicyValue) (_ : ApplyMode) : Config * bool :=
  set_to (ensure_capabilities ∙ capabilities_allow_post_quantum_kex_l) (as_bool v) c.
Definition apply_cap_allow_ml_kem (c : Config) (v : PolicyValue) (_ : ApplyMode) : Config * bool :=
  set_to (ensure_capabilities ∙ capabilities_allow_ml_kem_l) (as_bool v) c.
Definition apply_cap_require_post_quantum_kex (c : Config) (v : PolicyValue) (_ : ApplyMode) : Config * bool :=
  set_to (ensure_capabilities ∙ capabilities_require_post_quantum_kex_l) (as_bool v) c.
Definition apply_cap_allow_dynamic_proxy (c : Config) (v : PolicyValue) (_ : ApplyMode) : Config * bool :=
  set_to (ensure_capabilities ∙ capabilities_allow_dynamic_proxy_l) (as_bool v) c.
Definition apply_cap_allow_sftp (c : Config) (v : PolicyValue) (_ : ApplyMode) : Config * bool :=
  set_to (ensure_capabilities ∙ capabilities_allow_sftp_l) (as_bool v) c.
Definition apply_cap_allow_filesystem_mounts (c : Config) (v : PolicyValue) (_ : ApplyMode) : Config * bool :=
  set_to (ensure_capabilities ∙ capabilities_allow_filesystem_mounts_l) (as_bool v) c.
Definition apply_cap_allow_windows_drive_mounts (c : Config) (v : PolicyValue) (_ : ApplyMode) : Config * bool :=
  set_to (ensure_capabilities ∙ capabilities_allow_windows_drive_mounts_l) (as_bool v) c.
Definition apply_cap_allow_writeback_cache (c : Config) (v : PolicyValue) (_ : ApplyMode) : Config * bool :=
  set_to (ensure_capabilities ∙ capabilities_allow_writeback_cache_l) (as_bool v) c.
Definition apply_cap_allow_windows_event_log (c : Config) (v : PolicyValue) (_ : ApplyMode) : Config * bool :=
  set_to (ensure_capabilities ∙ capabilities_allow_windows_event_log_l) (as_bool v) c.
Definition apply_cap_allow_gpo_policy_writes (c : Config) (v : PolicyValue) (_ : ApplyMode) : Config * bool :=
  set_to (ensure_capabilities ∙ capabilities_allow_gpo_policy_writes_l) (as_bool v) c.

(** ** The binding table *)

Definition is_none {A} (o : option A) : bool := match o with None => true | Some _ => false end.

(** [Option::and_then]. *)
Definition and_then {A B} (o : option A) (f : A -> option B) : option B :=
  match o with Some a => f a | None => None end.
#[local] Infix "?>" := and_then (at level 40, left associativity).

Definition BINDINGS_logging : list Binding := [
  mkBinding "Logging" "Level" KString apply_logging_level (fun c => is_none (config_logging c ?> logging_level));
  mkBinding "Logging" "Format" KString apply_logging_format (fun c => is_none (config_logging c ?> logging_format));
  mkBinding "Logging" "MaxFiles" KU32 apply_logging_max_files (fun c => is_none (config_logging c ?> logging_max_files));
  mkBinding "Logging" "AllowedDestinations" KAllowlist apply_logging_destinations (fun c => is_none (config_logging c ?> logging_destinations))
].

Definition BINDINGS_runtime : list Binding := [
  mkBinding "Runtime" "ProfileStartParallelism" KU32 apply_runtime_parallelism (fun c => is_none (config_runtime c ?> runtime_profile_start_parallelism));
  mkBinding "Runtime" "RequireValidConfig" KBool apply_runtime_require_valid_config (fun c => is_none (config_runtime c ?> runtime_reload ?> runtime_reload_require_valid_config));
  mkBinding "General" "StateDir" KString apply_runtime_state_dir (fun c => is_none (config_runtime c ?> runtime_state_dir))
].

Definition BINDINGS_secrets : list Binding := [
  mkBinding "Secrets" "Backend" KString apply_secrets_backend (fun c => is_none (config_secrets c ?> secrets_backend));
  mkBinding "Secrets" "MemoryProtection" KString apply_secrets_mem (fun c => is_none (config_secrets c ?> secrets_memory_protection));
  mkBinding "Security" "SecretBackend" KString apply_secrets_backend (fun c => is_none (config_secrets c ?> secrets_backend))
].

Definition BINDINGS_firewall : list Binding := [
  mkBinding "Firewall" "Manager" KString apply_firewall_manager (fun c => is_none (config_firewall c ?> firewall_manager));
  mkBinding "Firewall" "ApplyRules" KBool apply_firewall_apply_rules (fun c => is_none (config_firewall c ?> firewall_apply_rules));
  mkBinding "Firewall" "BindPolicy" KString apply_firewall_bind_policy (fun c => is_none (config_firewall c ?> firewall_bind_policy))
].

Definition BINDINGS_network_interface : list Binding := [
  mkBinding "Network" "DefaultInterface" KString apply_network_default_interface (fun c => is_none (config_network c ?> network_interface ?> network_interface_default_interface));
  mkBinding "Network" "AllowedInterfaces" KAllowlist apply_network_allowed_interfaces (fun c => is_none (config_network c ?> network_interface ?> network_interface_allowed_interfaces));
  mkBinding "Network" "DeniedInterfaces" KAllowlist apply_network_denied_interfaces (fun c => is_none (config_network c ?> network_interface ?> network_interface_denied_interfaces));
  mkBinding "Network" "RequireExplicitInterface" KBool apply_network_require_explicit_interface (fun c => is_none (config_network c ?> network_interface ?> network_interface_require_explicit_interface));
  mkBinding "Network" "AllowAllInterfaces" KBool apply_network_allow_all_interfaces (fun c => is_none (config_network c ?> network_interface ?> network_interface_allow_all_interfaces));
  mkBinding "Network" "BindIpv6" KString apply_network_bind_ipv6 (fun c => is_none (config_network c ?> network_interface ?> network_interface_bind_ipv6))
].

Definition BINDINGS_network_gateway : list Binding := [
  mkBinding "Network" "DefaultGateway" KString apply_network_default_gateway (fun c => is_none (config_network c ?> network_gateway ?> network_gateway_default_gateway));
  mkBinding "Network" "GatewayInterface" KString apply_network_gateway_interface (fun c => is_none (config_network c ?> network_gateway ?> network_gateway_interface));
  mkBinding "Network" "RouteCheckTarget" KString apply_network_route_check_target (fun c => is_none (config_network c ?> network_gateway ?> network_gateway_route_check_target));
  mkBinding "Network" "RequireGatewayMatch" KBool apply_network_require_gateway_match (fun c => is_none (config_network c ?> network_gateway ?> network_gateway_require_gateway_match));
  mkBinding "Network" "GatewayPolicy" KString apply_network_gateway_policy (fun c => is_none (config_network c ?> network_gateway ?> network_gateway_policy))
].

Definition BINDINGS_network_offload : list Binding := [
  mkBinding "Network" "OffloadZeroCopy" KBool apply_network_offload_zerocopy (fun c => is_none (config_network c ?> network_offload ?> network_offload_zerocopy));
  mkBinding "Network" "OffloadTcpNoDelay" KBool apply_network_offload_tcp_nodelay (fun c => is_none (config_network c ?> network_offload ?> network_offload_tcp_nodelay));
  mkBinding "Network" "OffloadSocketKeepalive" KBool apply_network_offload_socket_keepalive (fun c => is_none (config_network c ?> network_offload ?> network_offload_socket_keepalive));
  mkBinding "Network" "OffloadTcpFastOpen" KBool apply_network_offload_tcp_fast_open (fun c => is_none (config_network c ?> network_offload ?> network_offload_tcp_fast_open));
  mkBinding "Network" "OffloadReusePort" KBool apply_network_offload_reuse_port (fun c => is_none (config_network c ?> network_offload ?> network_offload_reuse_port));
  mkBinding "Network" "OffloadIoUring" KBool apply_network_offload_io_uring (fun c => is_none (config_network c ?> network_offload ?> network_offload_io_uring));
  mkBinding "Network" "OffloadSendfile" KBool apply_network_offload_sendfile (fun c => is_none (config_network c ?> network_offload ?> network_offload_sendfile));
  mkBinding "Network" "OffloadChecksumOffload" KBool apply_network_offload_checksum_offload (fun c => is_none (config_network c ?> network_offload ?> network_offload_checksum_offload));
  mkBinding "Network" "OffloadLargeSendOffload" KBool apply_network_offload_large_send_offload (fun c => is_none (config_network c ?> network_offload ?> network_offload_large_send_offload))
].

Definition BINDINGS_network_load_balance : list Binding := [
  mkBinding "Network" "LoadBalanceStrategy" KString apply_network_load_balance_strategy (fun c => is_none (config_network c ?> network_load_balance ?> network_load_balance_strategy));
  mkBinding "Network" "LoadBalanceStickySessions" KBool apply_network_load_balance_sticky_sessions (fun c => is_none (config_network c ?> network_load_balance ?> network_load_balance_sticky_sessions));
  mkBinding "Network" "LoadBalanceHealthCheck" KString apply_network_load_balance_health_check (fun c => is_none (config_network c ?> network_load_balance ?> network_load_balance_health_check));
  mkBinding "Network" "LoadBalanceFailAfter" KU32 apply_network_load_balance_fail_after (fun c => is_none (config_network c ?> network_load_balance ?> network_load_balance_fail_after));
  mkBinding "Network" "LoadBalanceRebalanceInterval" KString apply_network_load_balance_rebalance_interval (fun c => is_none (config_network c ?> network_load_balance ?> network_load_balance_rebalance_interval));
  mkBinding "Network" "LoadBalanceRestoreAfter" KString apply_network_load_balance_restore_after (fun c => is_none (config_network c ?> network_load_balance ?> network_load_balance_restore_after))
].

Definition BINDINGS_admx_alias : list Binding := [
  mkBinding "Network" "RemoteConfigUrlPin" KString apply_remote_cfg_url (fun c => is_none (config_runtime c ?> runtime_remote_config ?> runtime_remote_config_url));
  mkBinding "Network" "RemoteConfigFingerprintSha256" KString apply_remote_cfg_fingerprint (fun c => is_none (config_runtime c ?> runtime_remote_config ?> runtime_remote_config_fingerprint_sha256));
  mkBinding "Network" "McpEnabled" KBool apply_mcp_enabled (fun c => is_none (config_mcp c ?> mcp_enabled));
  mkBinding "Network" "McpListen" KString apply_mcp_listen (fun c => is_none (config_mcp c ?> mcp_listen))
].

Definition BINDINGS_observability : list Binding := [
  mkBinding "Observability" "LogLevel" KString apply_logging_level (fun c => is_none (config_logging c ?> logging_level));
  mkBinding "Observability" "LogDestinations" KAllowlist apply_logging_destinations (fun c => is_none (config_logging c ?> logging_destinations));
  mkBinding "Observability" "WindowsEvent_Enabled" KBool apply_winevent_enabled (fun c => is_none (config_observability c ?> observability_windows_event ?> observability_windows_event_enabled));
  mkBinding "Observability" "WindowsEvent_Channel" KString apply_winevent_channel (fun c => is_none (config_observability c ?> observability_windows_event ?> observability_windows_event_channel));
  mkBinding "Observability" "WindowsEvent_Source" KString apply_winevent_source (fun c => is_none (config_observability c ?> observability_windows_event ?> observability_windows_event_source));
  mkBinding "Observability" "WindowsEvent_InstallSource" KBool apply_winevent_install_source (fun c => is_none (config_observability c ?> observability_windows_event ?> observability_windows_event_install_source));
  mkBinding "Observability" "Metrics_Enabled" KBool apply_metrics_enabled (fun c => is_none (config_observability c ?> observability_metrics ?> observability_metrics_enabled))
].

Definition BINDINGS_capability_auth : list Binding := [
  mkBinding "Capabilities" "Ssh2Backend" KString apply_cap_ssh2_backend (fun c => is_none (config_capabilities c ?> capabilities_ssh2_backend));
  mkBinding "Capabilities" "AllowLibssh2" KBool apply_cap_allow_libssh2 (fun c => is_none (config_capabilities c ?> capabilities_allow_libssh2));
  mkBinding "Capabilities" "AllowGssapi" KBool apply_cap_allow_gssapi (fun c => is_none (config_capabilities c ?> capabilities_allow_gssapi));
  mkBinding "Capabilities" "AllowSspi" KBool apply_cap_allow_sspi (fun c => is_none (config_capabilities c ?> capabilities_allow_sspi));
  mkBinding "Capabilities" "AllowGssapiDelegation" KBool apply_cap_allow_gssapi_delegation (fun c => is_none (config_capabilities c ?> capabilities_allow_gssapi_delegation));
  mkBinding "Capabilities" "AllowNtlmFallback" KBool apply_cap_allow_ntlm_fallback (fun c => is_none (config_capabilities c ?> capabilities_allow_ntlm_fallback));
  mkBinding "Capabilities" "AllowPostQuantumKex" KBool apply_cap_allow_post_quantum_kex (fun c => is_none (config_capabilities c ?> capabilities_allow_post_quantum_kex));
  mkBinding "Capabilities" "AllowMlKem" KBool apply_cap_allow_ml_kem (fun c => is_none (config_capabilities c ?> capabilities_allow_ml_kem));
  mkBinding "Capabilities" "RequirePostQuantumKex" KBool apply_cap_require_post_quantum_kex (fun c => is_none (config_capabilities c ?> capabilities_require_post_quantum_kex))
].

Definition BINDINGS_capability_rest : list Binding := [
  mkBinding "Capabilities" "AllowDynamicProxy" KBool apply_cap_allow_dynamic_proxy (fun c => is_none (config_capabilities c ?> capabilities_allow_dynamic_proxy));
  mkBinding "Capabilities" "AllowSftp" KBool apply_cap_allow_sftp (fun c => is_none (config_capabilities c ?> capabilities_allow_sftp));
  mkBinding "Capabilities" "AllowFilesystemMounts" KBool apply_cap_allow_filesystem_mounts (fun c => is_none (config_capabilities c ?> capabilities_allow_filesystem_mounts));
  mkBinding "Capabilities" "AllowWindowsDriveMounts" KBool apply_cap_allow_windows_drive_mounts (fun c => is_none (config_capabilities c ?> capabilities_allow_windows_drive_mounts));
  mkBinding "Capabilities" "AllowWritebackCache" KBool apply_cap_allow_writeback_cache (fun c => is_none (config_capabilities c ?> capabilities_allow_writeback_cache));
  mkBinding "Capabilities" "AllowWindowsEventLog" KBool apply_cap_allow_windows_event_log (fun c => is_none (config_capabilities c ?> capabilities_allow_windows_event_log));
  mkBinding "Capabilities" "AllowGpoPolicyWrites" KBool apply_cap_allow_gpo_policy_writes (fun c => is_none (config_capabilities c ?> capabilities_allow_gpo_policy_writes))
].

Definition BINDINGS_remote_config : list Binding := [
  mkBinding "RemoteConfig" "Enabled" KBool apply_remote_cfg_enabled (fun c => is_none (config_runtime c ?> runtime_remote_config ?> runtime_remote_config_enabled));
  mkBinding "RemoteConfig" "Url" KString apply_remote_cfg_url (fun c => is_none (config_runtime c ?> runtime_remote_config ?> runtime_remote_config_url));
  mkBinding "RemoteConfig" "AllowCachedOnFailure" KBool apply_remote_cfg_cached (fun c => is_none (config_runtime c ?> runtime_remote_config ?> runtime_remote_config_allow_cached_on_failure))
].

Definition BINDINGS : list Binding :=
  BINDINGS_logging ++ BINDINGS_runtime ++ BINDINGS_secrets ++ BINDINGS_firewall ++ BINDINGS_network_interface ++ BINDINGS_network_gateway ++ BINDINGS_network_offload ++ BINDINGS_network_load_balance ++ BINDINGS_admx_alias ++ BINDINGS_observability ++ BINDINGS_capability_auth ++ BINDINGS_capability_rest ++ BINDINGS_remote_config.

Definition eq_str_ignore_ascii_case (a b : string) : bool :=
  (to_ascii_lowercase a =? to_ascii_lowercase b)%string.

Definition find_binding (section name : string) : option Binding :=
  find (fun b => eq_str_ignore_ascii_case (b_section b) section && eq_str_ignore_ascii_case (b_name b) name) BINDINGS.

Definition type_matches (kind : BindingKind) (v : PolicyValue) : bool :=
  match kind, v with
  | KString, PString _ | KBool, PBool _ | KBool, PInteger _ | KU32, PInteger _ | KAllowlist, PMultiString _ => true
  | _, _ => false
  end.

(** ** [PolicyOverlay::apply] *)

(** What the loops thread: the configuration, the report, the keys consumed. *)
Record Overlay := mkOverlay {
  ov_cfg : Config;
  ov_report : OverlayReport;
  ov_consumed : gset string
}.

Definition consume (key : string) (st : Overlay) : Overlay :=
  mkOverlay (ov_cfg st) (ov_report st) ({[key]} ∪ ov_consumed st).
Definition push_mismatch (key : string) (st : Overlay) : Overlay :=
  let r := ov_report st in
  mkOverlay (ov_cfg st) (mkOverlayReport (or_applied r) (or_locked r) (or_unknown r) (or_type_mismatch r ++ [key])) (ov_consumed st).
Definition push_applied (key : string) (st : Overlay) : Overlay :=
  let r := ov_report st in
  mkOverlay (ov_cfg st) (mkOverlayReport (or_applied r ++ [key]) (or_locked r) (or_unknown r) (or_type_mismatch r)) (ov_consumed st).
Definition push_locked (key : string) (st : Overlay) : Overlay :=
  let r := ov_report st in
  mkOverlay (ov_cfg st) (mkOverlayReport (or_applied r) (or_locked r ++ [key]) (or_unknown r) (or_type_mismatch r)) (ov_consumed st).
Definition push_unknown (key : string) (r : OverlayReport) : OverlayReport :=
  mkOverlayReport (or_applied r) (or_locked r) (or_unknown r ++ [key]) (or_type_mismatch r).
Definition with_cfg (c : Config) (st : Overlay) : Overlay := mkOverlay c (ov_report st) (ov_consumed st).

(** The body of the first loop. *)
Definition enforce_step (bundle : PolicyBundle) (st : Overlay) (binding : Binding) : Overlay :=
  let key := binding_key binding in
  if negb (is_enforced bundle key) then st
  else match pb_machine bundle !! key with
       | None => st
       | Some v =>
           if negb (type_matches (b_kind binding) v) then consume key (push_mismatch key st)
           else
             let (cfg, _) := b_apply binding (ov_cfg st) v Enforced in
             consume key (push_locked key (push_applied key (with_cfg cfg st)))
       end.

(** The body of the second and of the third loop, over one hive. *)
Definition advise_step (hive : gmap string PolicyValue) (st : Overlay) (binding : Binding) : Overlay :=
  let key := binding_key binding in
  if bool_decide (key ∈ ov_consumed st) then st
  else match hive !! key with
       | None => st
       | Some v =>
           if negb (type_matches (b_kind binding) v) then consume key (push_mismatch key st)
           else if negb (b_is_unset binding (ov_cfg st)) then consume key st
           else
             let (cfg, changed) := b_apply binding (ov_cfg st) v Advisory in
             let st := with_cfg cfg st in
             consume key (if changed then push_applied key st else st)
       end.

Definition known_keys : list string := binding_key <$> BINDINGS.

Definition note_unknown (r : OverlayReport) (k : string) : OverlayReport :=
  if bool_decide (k ∈ known_keys) || bool_decide (k ∈ or_unknown r) then r else push_unknown k r.

Definition hive_keys (hive : gmap string PolicyValue) : list string := (map_to_list hive).*1.

Definition overlay_apply (cfg : Config) (bundle : PolicyBundle) : Config * OverlayReport :=
  let st := mkOverlay cfg (mkOverlayReport [] [] [] []) ∅ in
  let st := foldl (enforce_step bundle) st BINDINGS in
  let st := foldl (advise_step (pb_machine bundle)) st BINDINGS in
  let st := foldl (advise_step (pb_user bundle)) st BINDINGS in
  (ov_cfg st, foldl note_unknown (ov_report st) (hive_keys (pb_machine bundle) ++ hive_keys (pb_user bundle))).

(** ** What the overlay is for

    Every policy key governs one field of the configuration.  [FIELDS] lists
    the governed fields and how to read them, an absent table reading as the
    default one; [ROW_SPEC] gives, for each row of [BINDINGS], the field it
    governs (by its position in [FIELDS]) and how an enforced value meets the
    one the file sets. *)

Inductive FieldValue := FStr (s : string) | FBool (b : bool) | FNum (n : Z) | FList (l : list string).

#[export] Instance FieldValue_eq_dec : EqDecision FieldValue.
Proof. solve_decision. Defined.

Record Field := mkField {
  fld_path : string;
  fld_read : Config -> option FieldValue;
  fld_clear : Config -> Config
}.

Definition field_at {A} (path : string) (F : A -> FieldValue) (l : Lens Config (option A)) : Field :=
  mkField path (fun c => F <$> view l c) (put l None).

Definition FIELDS : list Field := [
  field_at "logging.level" FStr (ensure_logging ∙ logging_level_l);
  field_at "logging.format" FStr (ensure_logging ∙ logging_format_l);
  field_at "logging.max_files" FNum (ensure_logging ∙ logging_max_files_l);
  field_at "logging.destinations" FList (ensure_logging ∙ logging_destinations_l);
  field_at "runtime.profile_start_parallelism" FNum (ensure_runtime ∙ runtime_profile_start_parallelism_l);
  field_at "runtime.reload.require_valid_config" FBool (ensure_runtime_reload ∙ runtime_reload_require_valid_config_l);
  field_at "runtime.state_dir" FStr (ensure_runtime ∙ runtime_state_dir_l);
  field_at "secrets.backend" FStr (ensure_secrets ∙ secrets_backend_l);
  field_at "secrets.memory_protection" FStr (ensure_secrets ∙ secrets_memory_protection_l);
  field_at "firewall.manager" FStr (ensure_firewall ∙ firewall_manager_l);
  field_at "firewall.apply_rules" FBool (ensure_firewall ∙ firewall_apply_rules_l);
  field_at "firewall.bind_policy" FStr (ensure_firewall ∙ firewall_bind_policy_l);
  field_at "network.interface.default_interface" FStr (ensure_network_interface ∙ network_interface_default_interface_l);
  field_at "network.interface.allowed_interfaces" FList (ensure_network_interface ∙ network_interface_allowed_interfaces_l);
  field_at "network.interface.denied_interfaces" FList (ensure_network_interface ∙ network_interface_denied_interfaces_l);
  field_at "network.interface.require_explicit_interface" FBool (ensure_network_interface ∙ network_interface_require_explicit_interface_l);
  field_at "network.interface.allow_all_interfaces" FBool (ensure_network_interface ∙ network_interface_allow_all_interfaces_l);
  field_at "network.interface.bind_ipv6" FStr (ensure_network_interface ∙ network_interface_bind_ipv6_l);
  field_at "network.gateway.default_gateway" FStr (ensure_network_gateway ∙ network_gateway_default_gateway_l);
  field_at "network.gateway.interface" FStr (ensure_network_gateway ∙ network_gateway_interface_l);
  field_at "network.gateway.route_check_target" FStr (ensure_network_gateway ∙ network_gateway_route_check_target_l);
  field_at "network.gateway.require_gateway_match" FBool (ensure_network_gateway ∙ network_gateway_require_gateway_match_l);
  field_at "network.gateway.policy" FStr (ensure_network_gateway ∙ network_gateway_policy_l);
  field_at "network.offload.zerocopy" FBool (ensure_network_offload ∙ network_offload_zerocopy_l);
  field_at "network.offload.io_uring" FBool (ensure_network_offload ∙ network_offload_io_uring_l);
  field_at "network.load_balance.strategy" FStr (ensure_network_load_balance ∙ network_load_balance_strategy_l);
  field_at "network.load_balance.sticky_sessions" FBool (ensure_network_load_balance ∙ network_load_balance_sticky_sessions_l);
  field_at "network.load_balance.health_check" FStr (ensure_network_load_balance ∙ network_load_balance_health_check_l);
  field_at "network.load_balance.fail_after" FNum (ensure_network_load_balance ∙ network_load_balance_fail_after_l);
  field_at "network.load_balance.restore_after" FStr (ensure_network_load_balance ∙ network_load_balance_restore_after_l);
  field_at "network.load_balance.rebalance_interval" FStr (ensure_network_load_balance ∙ network_load_balance_rebalance_interval_l);
  field_at "observability.windows_event.enabled" FBool (ensure_winevent ∙ observability_windows_event_enabled_l);
  field_at "observability.windows_event.channel" FStr (ensure_winevent ∙ observability_windows_event_channel_l);
  field_at "observability.windows_event.source" FStr (ensure_winevent ∙ observability_windows_event_source_l);
  field_at "observability.windows_event.install_source" FBool (ensure_winevent ∙ observability_windows_event_install_source_l);
  field_at "observability.metrics.enabled" FBool (ensure_metrics ∙ observability_metrics_enabled_l);
  field_at "runtime.remote_config.enabled" FBool (ensure_runtime_remote ∙ runtime_remote_config_enabled_l);
  field_at "runtime.remote_config.url" FStr (ensure_runtime_remote ∙ runtime_remote_config_url_l);
  field_at "runtime.remote_config.fingerprint_sha256" FStr (ensure_runtime_remote ∙ runtime_remote_config_fingerprint_sha256_l);
  field_at "runtime.remote_config.allow_cached_on_failure" FBool (ensure_runtime_remote ∙ runtime_remote_config_allow_cached_on_failure_l);
  field_at "mcp.enabled" FBool (ensure_mcp ∙ mcp_enabled_l);
  field_at "mcp.listen" FStr (ensure_mcp ∙ mcp_listen_l);
  field_at "capabilities.ssh2_backend" FStr (ensure_capabilities ∙ capabilities_ssh2_backend_l);
  field_at "network.offload.tcp_nodelay" FBool (ensure_network_offload ∙ network_offload_tcp_nodelay_l);
  field_at "network.offload.socket_keepalive" FBool (ensure_network_offload ∙ network_offload_socket_keepalive_l);
  field_at "network.offload.tcp_fast_open" FBool (ensure_network_offload ∙ network_offload_tcp_fast_open_l);
  field_at "network.offload.reuse_port" FBool (ensure_network_offload ∙ network_offload_reuse_port_l);
  field_at "network.offload.sendfile" FBool (ensure_network_offload ∙ network_offload_sendfile_l);
  field_at "network.offload.checksum_offload" FBool (ensure_network_offload ∙ network_offload_checksum_offload_l);
  field_at "network.offload.large_send_offload" FBool (ensure_network_offload ∙ network_offload_large_send_offload_l);
  field_at "capabilities.allow_libssh2" FBool (ensure_capabilities ∙ capabilities_allow_libssh2_l);
  field_at "capabilities.allow_gssapi" FBool (ensure_capabilities ∙ capabilities_allow_gssapi_l);
  field_at "capabilities.allow_sspi" FBool (ensure_capabilities ∙ capabilities_allow_sspi_l);
  field_at "capabilities.allow_gssapi_delegation" FBool (ensure_capabilities ∙ capabilities_allow_gssapi_delegation_l);
  field_at "capabilities.allow_ntlm_fallback" FBool (ensure_capabilities ∙ capabilities_allow_ntlm_fallback_l);
  field_at "capabilities.allow_post_quantum_kex" FBool (ensure_capabilities ∙ capabilities_allow_post_quantum_kex_l);
  field_at "capabilities.allow_ml_kem" FBool (ensure_capabilities ∙ capabilities_allow_ml_kem_l);
  field_at "capabilities.require_post_quantum_kex" FBool (ensure_capabilities ∙ capabilities_require_post_quantum_kex_l);
  field_at "capabilities.allow_dynamic_proxy" FBool (ensure_capabilities ∙ capabilities_allow_dynamic_proxy_l);
  field_at "capabilities.allow_sftp" FBool (ensure_capabilities ∙ capabilities_allow_sftp_l);
  field_at "capabilities.allow_filesystem_mounts" FBool (ensure_capabilities ∙ capabilities_allow_filesystem_mounts_l);
  field_at "capabilities.allow_windows_drive_mounts" FBool (ensure_capabilities ∙ capabilities_allow_windows_drive_mounts_l);
  field_at "capabilities.allow_writeback_cache" FBool (ensure_capabilities ∙ capabilities_allow_writeback_cache_l);
  field_at "capabilities.allow_windows_event_log" FBool (ensure_capabilities ∙ capabilities_allow_windows_event_log_l);
  field_at "capabilities.allow_gpo_policy_writes" FBool (ensure_capabilities ∙ capabilities_allow_gpo_policy_writes_l)
].

Inductive Rule := Replace | Intersect | Union.

Definition ROW_SPEC : list (nat * Rule) := [
  (0, Replace); (1, Replace); (2, Replace); (3, Intersect); (4, Replace); (5, Replace);
  (6, Replace); (7, Replace); (8, Replace); (7, Replace); (9, Replace); (10, Replace);
  (11, Replace); (12, Replace); (13, Intersect); (14, Union); (15, Replace); (16, Replace);
  (17, Replace); (18, Replace); (19, Replace); (20, Replace); (21, Replace); (22, Replace);
  (23, Replace); (43, Replace); (44, Replace); (45, Replace); (46, Replace); (24, Replace);
  (47, Replace); (48, Replace); (49, Replace); (25, Replace); (26, Replace); (27, Replace);
  (28, Replace); (30, Replace); (29, Replace); (37, Replace); (38, Replace); (40, Replace);
  (41, Replace); (0, Replace); (3, Intersect); (31, Replace); (32, Replace); (33, Replace);
  (34, Replace); (35, Replace); (42, Replace); (50, Replace); (51, Replace); (52, Replace);
  (53, Replace); (54, Replace); (55, Replace); (56, Replace); (57, Replace); (58, Replace);
  (59, Replace); (60, Replace); (61, Replace); (62, Replace); (63, Replace); (64, Replace);
  (36, Replace); (37, Replace); (39, Replace)
]%nat.

Definition Row : Type := Binding * (nat * Rule).
Definition row_binding (r : Row) : Binding := r.1.
Definition row_key (r : Row) : string := binding_key r.1.
Definition row_field (r : Row) : nat := r.2.1.
Definition row_rule (r : Row) : Rule := r.2.2.
Definition ROWS : list Row := zip BINDINGS ROW_SPEC.

Definition rule_merge (rule : Rule) (old : option FieldValue) (new : FieldValue) : FieldValue :=
  match rule, old, new with
  | Intersect, Some (FList e), FList p => FList (intersect e p)
  | Union, Some (FList e), FList p => FList (union_preserve e p)
  | _, _, _ => new
  end.

(** The value a policy gives a field of its kind, when its type is right and
    it is in range. *)
Definition convert (kind : BindingKind) (v : PolicyValue) : option FieldValue :=
  match kind with
  | KString => FStr <$> as_string v
  | KBool => FBool <$> as_bool v
  | KU32 => FNum <$> as_u32 v
  | KAllowlist => FList <$> as_multi v
  end.

(** What a hive says for a row whose key is not taken already. *)
Definition offered (hive : gmap string PolicyValue) (taken : string -> bool) (r : Row) : option FieldValue :=
  if taken (row_key r) then None else hive !! row_key r ≫= convert (b_kind (row_binding r)).

Definition enforced_value (b : PolicyBundle) (r : Row) : option FieldValue :=
  offered (pb_machine b) (fun key => negb (is_enforced b key)) r.
Definition machine_value (b : PolicyBundle) (r : Row) : option FieldValue :=
  offered (pb_machine b) (is_enforced b) r.
Definition user_value (b : PolicyBundle) (r : Row) : option FieldValue :=
  offered (pb_user b) (fun key => bool_decide (is_Some (pb_machine b !! key))) r.

Definition rows_for (k : nat) (l : list Row) : list Row := filter (fun r => row_field r = k) l.

Definition enforce_all (b : PolicyBundle) (l : list Row) (v0 : option FieldValue) : option FieldValue :=
  foldl (fun cur r => match enforced_value b r with
                      | Some v => Some (rule_merge (row_rule r) cur v)
                      | None => cur
                      end) v0 l.

(** The value of the field [k] after the overlay, from the one the file gave
    it: the enforced machine policies first, merged in table order; a field
    still unset takes the first advisory machine policy that fits, and failing
    that the first user policy whose key the machine hive does not have. *)
Definition overlay_value (k : nat) (b : PolicyBundle) (v0 : option FieldValue) : option FieldValue :=
  let rows := rows_for k ROWS in
  match enforce_all b rows v0 with
  | Some v => Some v
  | None => head (omap (machine_value b) rows ++ omap (user_value b) rows)
  end.

Definition snapshot (c : Config) : list (option FieldValue) := (fun f => fld_read f c) <$> FIELDS.
Definition read (k : nat) (c : Config) : option FieldValue := mjoin (snapshot c !! k).

(** The rest of the configuration: every governed field cleared. *)
Definition ungoverned : Config -> Config :=
  Eval cbv -[Capabilities_default Firewall_default Logging_default Mcp_default NetworkGateway_default NetworkInterface_default NetworkLoadBalance_default NetworkOffload_default Network_default ObservabilityMetrics_default ObservabilityWindowsEvent_default Observability_default RuntimeReload_default RuntimeRemoteConfig_default Runtime_default Secrets_default] in
  fun c => foldl (fun c f => fld_clear f c) c FIELDS.

(** ** The rows *)

Record row_ok (r : Row) : Prop := mkRowOk {
  ok_field : (row_field r < length FIELDS)%nat;
  ok_unset : forall c, b_is_unset (row_binding r) c = is_none (read (row_field r) c);
  ok_apply : forall c v m, snapshot (b_apply (row_binding r) c v m).1 =
    match convert (b_kind (row_binding r)) v with
    | None => snapshot c
    | Some x => <[row_field r := Some (match m with
                                       | Enforced => rule_merge (row_rule r) (read (row_field r) c) x
                                       | Advisory => x
                                       end)]> (snapshot c)
    end;
  ok_rest : forall c v m, ungoverned (b_apply (row_binding r) c v m).1 = ungoverned c
}.

Lemma is_none_fmap {A B} (f : A -> B) (o : option A) : is_none (f <$> o) = is_none o.
Proof. by destruct o. Qed.

Lemma negb_none {A} (o : option A) : negb (is_none o) = bool_decide (is_Some o).
Proof. by destruct o. Qed.

(** A place [l] is the field [k]: assigning it moves that entry of the snapshot
    and no other. *)
Record governs {A} (F : A -> FieldValue) (l : Lens Config (option A)) (k : nat) : Prop := mkGoverns {
  gov_field : (k < length FIELDS)%nat;
  gov_read : forall c, read k c = F <$> view l c;
  gov_put : forall a c, snapshot (put l (Some a) c) = <[k := Some (F a)]> (snapshot c);
  gov_rest : forall a c, ungoverned (put l (Some a) c) = ungoverned c
}.

Lemma scalar_row {A} `{!EqDecision A} (F : A -> FieldValue) (as_ : PolicyValue -> option A) l k section name kind unset :
  governs F l k ->
  (forall v, convert kind v = F <$> as_ v) ->
  (forall c, unset c = is_none (view l c)) ->
  row_ok (mkBinding section name kind (fun c v _ => set_to l (as_ v) c) unset, (k, Replace)).
Proof.
  intros [Hk Hr Hp Hg] Hc Hu. split; unfold row_binding, row_field, row_rule; cbn [fst snd b_is_unset b_apply b_kind].
  - done.
  - intros c. rewrite Hu, Hr. by rewrite is_none_fmap.
  - intros c v m. rewrite Hc. destruct (as_ v); cbn -[snapshot read]; [|done]. rewrite Hp. by destruct m.
  - intros c v m. by destruct (as_ v); cbn -[ungoverned].
Qed.

Lemma list_row (rule : Rule) (merge : list string -> list string -> list string) l k section name unset :
  governs FList l k ->
  (forall old p, rule_merge rule (FList <$> old) (FList p) = FList (match old with Some e => merge e p | None => p end)) ->
  (forall c, unset c = is_none (view l c)) ->
  row_ok (mkBinding section name KAllowlist (fun c v m => merge_to merge l (as_multi v) m c) unset, (k, rule)).
Proof.
  intros [Hk Hr Hp Hg] Hm Hu. split; unfold row_binding, row_field, row_rule; cbn [fst snd b_is_unset b_apply b_kind].
  - done.
  - intros c. rewrite Hu, Hr. by rewrite is_none_fmap.
  - intros c v m. cbn [convert]. destruct (as_multi v) as [p|]; cbn -[snapshot read rule_merge]; [|done].
    rewrite Hp, Hr, Hm. by destruct m, (view l c).
  - intros c v m. by destruct (as_multi v); cbn -[ungoverned].
Qed.

#[local] Ltac table_field :=
  match goal with
  | |- context [match ?x with Some _ => _ | None => _ end] =>
      lazymatch x with context [match _ with _ => _ end] => fail | _ => destruct x end
  end.
#[local] Ltac solve_governs := split; [apply Nat.ltb_lt; reflexivity|reflexivity|reflexivity|reflexivity].
#[local] Ltac solve_unset := intros c; cbn; unfold and_then, default, from_option; repeat (table_field; cbn); reflexivity.
#[local] Ltac solve_row :=
  match goal with
  | |- row_ok (mkBinding _ _ KString ?f _, _) => apply (scalar_row FStr as_string)
  | |- row_ok (mkBinding _ _ KBool ?f _, _) => apply (scalar_row FBool as_bool)
  | |- row_ok (mkBinding _ _ KU32 ?f _, _) => apply (scalar_row FNum as_u32)
  | |- row_ok (mkBinding _ _ KAllowlist ?f _, (_, Intersect)) => apply (list_row Intersect intersect)
  | |- row_ok (mkBinding _ _ KAllowlist ?f _, (_, Union)) => apply (list_row Union union_preserve)
  end; [solve_governs|first [by intros ?|by intros [] ?]|solve_unset].

Lemma rows_ok : Forall row_ok ROWS.
Proof. unfold ROWS. cbn -[FIELDS]. repeat (apply Forall_cons; split; [solve_row|]). by apply Forall_nil. Qed.

Lemma rows_bindings : row_binding <$> ROWS = BINDINGS.
Proof. reflexivity. Qed.

Lemma keys_unique : NoDup (row_key <$> ROWS).
Proof. refine (@bool_decide_unpack (NoDup (row_key <$> ROWS)) _ _). vm_compute. exact I. Qed.

(** ** Reading after a setter *)

Lemma length_snapshot c : length (snapshot c) = length FIELDS.
Proof. apply length_fmap. Qed.

Lemma read_insert c c' k x j :
  (k < length FIELDS)%nat -> snapshot c' = <[k := x]> (snapshot c) ->
  read j c' = if decide (j = k) then x else read j c.
Proof.
  intros Hk E. unfold read. rewrite E. destruct (decide (j = k)) as [->|Hne].
  - by rewrite list_lookup_insert_eq by (by rewrite length_snapshot).
  - by rewrite list_lookup_insert_ne by done.
Qed.

Lemma read_apply r c v m j :
  row_ok r ->
  read j (b_apply (row_binding r) c v m).1 =
    match convert (b_kind (row_binding r)) v with
    | Some x => if decide (j = row_field r)
                then Some (match m with Enforced => rule_merge (row_rule r) (read j c) x | Advisory => x end)
                else read j c
    | None => read j c
    end.
Proof.
  intros [Hk _ Ha _]. specialize (Ha c v m). destruct (convert _ v) as [x|]; [|by unfold read; rewrite Ha].
  rewrite (read_insert _ _ _ _ j Hk Ha). by destruct (decide _) as [->|].
Qed.

Lemma convert_typed k v : type_matches k v = false -> convert k v = None.
Proof. by destruct k, v. Qed.

Lemma rows_for_cons k r l :
  rows_for k (r :: l) = if decide (row_field r = k) then r :: rows_for k l else rows_for k l.
Proof. unfold rows_for. by rewrite filter_cons. Qed.

(** ** The enforced pass *)

Lemma enforce_step_read b st r k :
  row_ok r ->
  read k (ov_cfg (enforce_step b st (row_binding r))) =
    if decide (row_field r = k) then enforce_all b [r] (read k (ov_cfg st)) else read k (ov_cfg st).
Proof.
  intros Hok. unfold enforce_step, enforce_all, enforced_value, offered, row_key, row_binding in *. cbn [foldl].
  destruct (is_enforced b _); cbn [negb]; [|by destruct (decide _)].
  destruct (pb_machine b !! _) as [v|]; cbn; [|by destruct (decide _)].
  destruct (type_matches _ v) eqn:T; cbn.
  - pose proof (read_apply r (ov_cfg st) v Enforced k Hok) as E. unfold row_binding in E.
    destruct (b_apply _ _ _ _) as [cfg ch]. cbn in *. rewrite E.
    destruct (convert _ v); repeat case_decide; congruence.
  - rewrite (convert_typed _ _ T). by destruct (decide _).
Qed.

Lemma enforce_all_cons b r l v : enforce_all b (r :: l) v = enforce_all b l (enforce_all b [r] v).
Proof. done. Qed.

Lemma enforce_pass b k l : forall st,
  Forall row_ok l ->
  read k (ov_cfg (foldl (enforce_step b) st (row_binding <$> l))) = enforce_all b (rows_for k l) (read k (ov_cfg st)).
Proof.
  induction l as [|r l IH]; intros st Hok; [done|].
  apply Forall_cons in Hok as [Hr Hok]. cbn [fmap list_fmap foldl]. rewrite (IH _ Hok).
  rewrite (enforce_step_read _ _ _ _ Hr), rows_for_cons. by destruct (decide _).
Qed.

Lemma enforce_step_consumed b st r :
  ov_consumed (enforce_step b st (row_binding r)) =
    if is_enforced b (row_key r) && bool_decide (is_Some (pb_machine b !! row_key r))
    then {[row_key r]} ∪ ov_consumed st else ov_consumed st.
Proof.
  unfold enforce_step, row_key, row_binding. destruct (is_enforced b _); cbn [negb andb]; [|done].
  destruct (pb_machine b !! _); cbn; [|done].
  destruct (type_matches _ _); cbn; [|done]. by destruct (b_apply _ _ _ _).
Qed.

Lemma enforce_consumed b l : forall st key,
  key ∈ ov_consumed (foldl (enforce_step b) st (row_binding <$> l)) <->
  key ∈ ov_consumed st \/ (key ∈ (row_key <$> l) /\ is_enforced b key = true /\ is_Some (pb_machine b !! key)).
Proof.
  induction l as [|r l IH]; intros st key; cbn [fmap list_fmap foldl]; [set_solver|].
  rewrite IH, enforce_step_consumed, elem_of_cons. clear IH.
  destruct (is_enforced b (row_key r)) eqn:E; cbn [andb];
    [case_bool_decide as S; [rewrite elem_of_union, elem_of_singleton|]|];
    (split; [intros [?|(?&?&?)]; destruct_or?; subst; auto
            |intros [?|([->|?]&?&?)]; first [congruence|done|auto]]).
Qed.

(** ** The advisory passes *)

Lemma advise_step_consumed hive st r :
  ov_consumed (advise_step hive st (row_binding r)) =
    if bool_decide (is_Some (hive !! row_key r)) then {[row_key r]} ∪ ov_consumed st else ov_consumed st.
Proof.
  unfold advise_step. change (binding_key (row_binding r)) with (row_key r).
  case_bool_decide as C; [case_bool_decide; set_solver|].
  destruct (hive !! _); cbn; [|done].
  destruct (type_matches _ _); cbn; [|done]. destruct (b_is_unset _ _); cbn; [|done].
  destruct (b_apply _ _ _ _) as [? []]; done.
Qed.

Lemma advise_consumed hive l : forall st key,
  key ∈ ov_consumed (foldl (advise_step hive) st (row_binding <$> l)) <->
  key ∈ ov_consumed st \/ (key ∈ (row_key <$> l) /\ is_Some (hive !! key)).
Proof.
  induction l as [|r l IH]; intros st key; cbn [fmap list_fmap foldl]; [set_solver|].
  rewrite IH, advise_step_consumed, elem_of_cons. clear IH.
  case_bool_decide as S; [rewrite elem_of_union, elem_of_singleton|];
    (split; [intros [?|(?&?)]; destruct_or?; subst; auto
            |intros [?|([->|?]&?)]; first [congruence|done|auto]]).
Qed.

Section Advise.
Context (hive : gmap string PolicyValue) (taken : string -> bool).

Lemma advise_step_read st r k :
  row_ok r -> (row_key r ∈ ov_consumed st <-> taken (row_key r) = true) ->
  read k (ov_cfg (advise_step hive st (row_binding r))) =
    if decide (row_field r = k)
    then match read k (ov_cfg st) with Some v => Some v | None => offered hive taken r end
    else read k (ov_cfg st).
Proof.
  intros Hok Ht. unfold advise_step, offered. change (binding_key (row_binding r)) with (row_key r).
  case_bool_decide as C.
  { apply Ht in C. rewrite C. destruct (decide _); [|done]. by destruct (read _ _). }
  destruct (taken _); [by destruct C; apply Ht|].
  destruct (hive !! _) as [v|]; cbn [mbind option_bind]; [|destruct (decide _); [by destruct (read _ _)|done]].
  destruct (type_matches _ v) eqn:T; cbn [negb ov_cfg consume push_mismatch].
  2: { rewrite (convert_typed _ _ T). destruct (decide _); [by destruct (read _ _)|done]. }
  pose proof (ok_unset _ Hok (ov_cfg st)) as U. rewrite U, negb_none. case_bool_decide as R.
  - cbn [ov_cfg consume]. destruct (decide _) as [<-|]; [|done]. by destruct R as [? ->].
  - pose proof (read_apply r (ov_cfg st) v Advisory k Hok) as E.
    destruct (b_apply _ _ _ _) as [cfg ch]. cbn [fst] in E.
    assert (ov_cfg (consume (row_key r) (if ch then push_applied (row_key r) (with_cfg cfg st) else with_cfg cfg st)) = cfg) as ->
      by (by destruct ch).
    rewrite E. destruct (decide (row_field r = k)) as [<-|].
    + apply eq_None_not_Some in R. rewrite R. destruct (convert _ v); [by rewrite decide_True|done].
    + destruct (convert _ v); [by rewrite decide_False by congruence|done].
Qed.

Lemma advise_pass k l : forall st,
  Forall row_ok l -> NoDup (row_key <$> l) ->
  (forall key, key ∈ (row_key <$> l) -> (key ∈ ov_consumed st <-> taken key = true)) ->
  read k (ov_cfg (foldl (advise_step hive) st (row_binding <$> l))) =
    match read k (ov_cfg st) with
    | Some v => Some v
    | None => head (omap (offered hive taken) (rows_for k l))
    end.
Proof.
  induction l as [|r l IH]; intros st Hok Hnd Ht; [by cbn; destruct (read _ _)|].
  apply Forall_cons in Hok as [Hr Hok]. cbn [fmap list_fmap] in Hnd, Ht. apply NoDup_cons in Hnd as [Hnew Hnd].
  cbn [fmap list_fmap foldl]. rewrite IH; [|done|done|].
  - rewrite (advise_step_read _ _ _ Hr) by (apply Ht; left). rewrite rows_for_cons.
    destruct (decide _); [|done]. destruct (read _ _); [done|]. cbn [omap list_omap]. by destruct (offered _ _ _).
  - intros key Hkey. rewrite advise_step_consumed. rewrite <- (Ht key) by (by right).
    case_bool_decide; [|done]. rewrite elem_of_union, elem_of_singleton.
    split; [intros [->|]; done|by right].
Qed.
End Advise.

(** ** The whole overlay *)

Lemma enforce_step_rest b st r :
  row_ok r -> ungoverned (ov_cfg (enforce_step b st (row_binding r))) = ungoverned (ov_cfg st).
Proof.
  intros Hok. unfold enforce_step. destruct (negb _); [done|]. destruct (pb_machine b !! _) as [v|]; [|done].
  destruct (negb _); [done|]. rewrite <- (ok_rest _ Hok (ov_cfg st) v Enforced).
  by destruct (b_apply _ _ _ _).
Qed.

Lemma advise_step_rest hive st r :
  row_ok r -> ungoverned (ov_cfg (advise_step hive st (row_binding r))) = ungoverned (ov_cfg st).
Proof.
  intros Hok. unfold advise_step. destruct (bool_decide _); [done|]. destruct (hive !! _) as [v|]; [|done].
  destruct (negb _); [done|]. destruct (negb _); [done|]. rewrite <- (ok_rest _ Hok (ov_cfg st) v Advisory).
  by destruct (b_apply _ _ _ _) as [? []].
Qed.

Lemma foldl_rest (step : Overlay -> Binding -> Overlay) l :
  (forall st r, row_ok r -> ungoverned (ov_cfg (step st (row_binding r))) = ungoverned (ov_cfg st)) ->
  Forall row_ok l -> forall st, ungoverned (ov_cfg (foldl step st (row_binding <$> l))) = ungoverned (ov_cfg st).
Proof.
  intros Hs. induction 1 as [|r l Hr _ IH]; intros st; [done|]. cbn [fmap list_fmap foldl]. by rewrite IH, Hs.
Qed.

Lemma overlay_read cfg b k : read k (overlay_apply cfg b).1 = overlay_value k b (read k cfg).
Proof.
  unfold overlay_apply, overlay_value. cbn [fst]. rewrite <- rows_bindings.
  set (st0 := mkOverlay cfg _ _). set (st1 := foldl (enforce_step b) st0 _).
  set (st2 := foldl (advise_step (pb_machine b)) st1 _).
  assert (forall key, key ∈ (row_key <$> ROWS) ->
    key ∈ ov_consumed st1 <-> is_enforced b key = true /\ is_Some (pb_machine b !! key)) as H1.
  { intros key Hin. unfold st1. rewrite enforce_consumed. unfold st0. cbn [ov_consumed]. rewrite elem_of_empty. tauto. }
  rewrite (advise_pass (pb_user b) (fun key => bool_decide (is_Some (pb_machine b !! key)))
             k _ _ rows_ok keys_unique).
  2: { intros key Hin. unfold st2. rewrite advise_consumed, (H1 key Hin), bool_decide_eq_true. tauto. }
  unfold st2.
  rewrite (advise_pass (pb_machine b) (fun key => is_enforced b key && bool_decide (is_Some (pb_machine b !! key)))
             k _ _ rows_ok keys_unique).
  2: { intros key Hin. rewrite (H1 key Hin), andb_true_iff, bool_decide_eq_true. done. }
  unfold st1. rewrite (enforce_pass _ _ _ _ rows_ok). cbn [ov_cfg st0].
  destruct (enforce_all _ _ _); [done|]. rewrite head_app. unfold machine_value, user_value.
  assert (omap (offered (pb_machine b) (fun key => is_enforced b key && bool_decide (is_Some (pb_machine b !! key))))
            (rows_for k ROWS) = omap (offered (pb_machine b) (is_enforced b)) (rows_for k ROWS)) as ->.
  { apply list_omap_ext, Forall_Forall2_diag, Forall_true. intros r. unfold offered.
    destruct (is_enforced b _); cbn; [|done]. case_bool_decide as S; [done|]. by apply eq_None_not_Some in S as ->. }
  by destruct (head _).
Qed.

Lemma overlay_ungoverned cfg b : ungoverned (overlay_apply cfg b).1 = ungoverned cfg.
Proof.
  unfold overlay_apply. cbn [fst]. rewrite <- rows_bindings.
  by rewrite (foldl_rest _ _ (advise_step_rest _) rows_ok), (foldl_rest _ _ (advise_step_rest _) rows_ok),
    (foldl_rest _ _ (enforce_step_rest _) rows_ok).
Qed.

(** ** Lists under an enforced policy *)

#[export] Instance Rule_eq_dec : EqDecision Rule.
Proof. solve_decision. Defined.
#[export] Instance BindingKind_eq_dec : EqDecision BindingKind.
Proof. solve_decision. Defined.

(** The list [l] is at least as strict as [p]: an allow list admits no more, a
    deny list refuses no less. *)
Definition stricter (rule : Rule) (l p : list string) : Prop :=
  match rule with Intersect => l ⊆ p | Union => p ⊆ l | Replace => False end.

Definition list_rule (rule : Rule) : bool := negb (bool_decide (rule = Replace)).

Lemma stricter_refl rule l : list_rule rule = true -> stricter rule l l.
Proof. destruct rule; cbn; [by intros H|set_solver|set_solver]. Qed.

Lemma stricter_trans rule a b c : stricter rule a b -> stricter rule b c -> stricter rule a c.
Proof. destruct rule; cbn; set_solver. Qed.

Lemma elem_of_intersect a b x : x ∈ intersect a b <-> x ∈ a /\ x ∈ b.
Proof. unfold intersect. rewrite list_elem_of_filter. tauto. Qed.

Lemma elem_of_union_preserve b : forall a x, x ∈ union_preserve a b <-> x ∈ a \/ x ∈ b.
Proof.
  unfold union_preserve. induction b as [|v b IH]; intros a x; cbn; [set_solver|].
  rewrite IH. destruct (decide (v ∈ a)); set_solver.
Qed.

Lemma merge_stricter rule old p :
  list_rule rule = true ->
  exists l, rule_merge rule (FList <$> old) (FList p) = FList l /\ stricter rule l p /\
            (forall e, old = Some e -> stricter rule l e).
Proof.
  intros Hr. destruct rule, old as [e|]; try done; cbn; eexists; (split; [reflexivity|]).
  - split; [|intros ? [= <-]]; intros x; rewrite elem_of_intersect; tauto.
  - done.
  - split; [|intros ? [= <-]]; intros x; rewrite elem_of_union_preserve; tauto.
  - done.
Qed.

Lemma convert_list v x : convert KAllowlist v = Some x -> exists p, x = FList p.
Proof. destruct v; try done. intros [= <-]. eauto. Qed.

Lemma offered_list hive taken r x :
  b_kind (row_binding r) = KAllowlist -> offered hive taken r = Some x -> exists p, x = FList p.
Proof.
  intros Hk. unfold offered. destruct (taken _); [done|]. rewrite Hk. destruct (hive !! _); [|done].
  apply convert_list.
Qed.

Definition same_sort (rule : Rule) (r : Row) : Prop := row_rule r = rule /\ b_kind (row_binding r) = KAllowlist.

Lemma enforce_all_lists b rule l :
  list_rule rule = true -> Forall (same_sort rule) l -> forall old,
  exists new, enforce_all b l (FList <$> old) = FList <$> new /\
    (forall e, old = Some e -> exists n, new = Some n /\ stricter rule n e) /\
    (forall r p, r ∈ l -> enforced_value b r = Some (FList p) -> exists n, new = Some n /\ stricter rule n p).
Proof.
  intros Hr. induction 1 as [|r l [Hrule Hkind] _ IH]; intros old.
  { exists old. split; [done|]. split; [|by intros ?? ?%not_elem_of_nil].
    intros e ->. exists e. split; [done|]. by apply stricter_refl. }
  rewrite enforce_all_cons. unfold enforce_all at 2. cbn [foldl].
  destruct (enforced_value b r) as [x|] eqn:E.
  - destruct (offered_list _ _ _ _ Hkind E) as [p ->]. rewrite Hrule.
    destruct (merge_stricter rule old p Hr) as (m & -> & Hp & Hold).
    destruct (IH (Some m)) as (new & HE & Hn & Hrest). cbn in HE. rewrite HE. destruct (Hn m eq_refl) as (n & -> & Hnm).
    exists (Some n). split; [done|]. split.
    + intros e He. exists n. split; [done|]. eapply stricter_trans; [done|]. auto.
    + intros r' p' Hin Hv. apply elem_of_cons in Hin as [->|Hin].
      * exists n. split; [done|]. rewrite E in Hv. injection Hv as <-. by eapply stricter_trans.
      * by eapply Hrest.
  - destruct (IH old) as (new & -> & Hn & Hrest). exists new. split; [done|]. split; [done|].
    intros r' p' Hin Hv. apply elem_of_cons in Hin as [->|Hin]; [congruence|by eapply Hrest].
Qed.

(** Two keys of one field agree on how it is merged, and a list is only ever
    governed by list policies. *)
Lemma fields_agree r r' :
  r ∈ ROWS -> r' ∈ ROWS -> row_field r = row_field r' -> list_rule (row_rule r) = true -> same_sort (row_rule r) r'.
Proof.
  intros Hr Hr' Hf Hl.
  assert (Forall (fun r => Forall (fun r' =>
    row_field r = row_field r' -> list_rule (row_rule r) = true ->
    row_rule r' = row_rule r /\ b_kind (row_binding r') = KAllowlist) ROWS) ROWS) as H.
  { refine (@bool_decide_unpack _ _ _). vm_compute. exact I. }
  rewrite Forall_forall in H. specialize (H r Hr). rewrite Forall_forall in H. by apply H.
Qed.

Lemma list_field r c : r ∈ ROWS -> list_rule (row_rule r) = true -> exists o, read (row_field r) c = FList <$> o.
Proof.
  assert (Forall (fun r => list_rule (row_rule r) = true -> forall c, exists o, read (row_field r) c = FList <$> o) ROWS) as H.
  { unfold ROWS. cbn -[read]. repeat (apply Forall_cons; split; [first [done|intros _ c'; eexists; reflexivity]|]).
    by apply Forall_nil. }
  rewrite Forall_forall in H. intros Hr Hl. by apply (H r Hr Hl).
Qed.

(** ** The report *)

(** Whether the policy a hive has for a row is of the type the row expects. *)
Definition typed (hive : gmap string PolicyValue) (r : Row) : option bool :=
  type_matches (b_kind (row_binding r)) <$> hive !! row_key r.

Definition keys_where (P : Row -> bool) (l : list Row) : list string := row_key <$> filter (fun r => P r = true) l.

Lemma keys_where_cons P r l : keys_where P (r :: l) = (if P r then [row_key r] else []) ++ keys_where P l.
Proof.
  unfold keys_where. rewrite filter_cons. destruct (P r); [by rewrite decide_True|by rewrite decide_False].
Qed.

Lemma keys_where_ext P Q l : (forall r, r ∈ l -> P r = Q r) -> keys_where P l = keys_where Q l.
Proof.
  intros H. unfold keys_where. f_equal.
  induction l as [|r l IH]; [done|]. rewrite !filter_cons, (H r) by left. rewrite IH by (intros; apply H; by right). done.
Qed.

Definition locks (b : PolicyBundle) (r : Row) : bool :=
  is_enforced b (row_key r) && bool_decide (typed (pb_machine b) r = Some true).
Definition mistyped (hive : gmap string PolicyValue) (taken : string -> bool) (r : Row) : bool :=
  negb (taken (row_key r)) && bool_decide (typed hive r = Some false).

Lemma enforce_report b l : forall st,
  let rep := ov_report (foldl (enforce_step b) st (row_binding <$> l)) in
  or_locked rep = or_locked (ov_report st) ++ keys_where (locks b) l /\
  or_type_mismatch rep =
    or_type_mismatch (ov_report st) ++ keys_where (mistyped (pb_machine b) (fun key => negb (is_enforced b key))) l /\
  or_unknown rep = or_unknown (ov_report st).
Proof.
  induction l as [|r l IH]; intros st; cbn [fmap list_fmap foldl]; [by rewrite !app_nil_r|].
  destruct (IH (enforce_step b st (row_binding r))) as (-> & -> & ->). clear IH. rewrite !keys_where_cons.
  unfold enforce_step, locks, mistyped, typed. change (binding_key (row_binding r)) with (row_key r).
  destruct (is_enforced b (row_key r)); cbn [negb andb]; [|done].
  destruct (pb_machine b !! row_key r) as [v|]; cbn [fmap option_fmap option_map]; [|done].
  destruct (type_matches _ v); cbn [negb].
  - destruct (b_apply _ _ _ _). cbn. by rewrite <- !app_assoc.
  - cbn. by rewrite <- !app_assoc.
Qed.

Lemma advise_report hive taken l : forall st,
  NoDup (row_key <$> l) ->
  (forall key, key ∈ (row_key <$> l) -> (key ∈ ov_consumed st <-> taken key = true)) ->
  let rep := ov_report (foldl (advise_step hive) st (row_binding <$> l)) in
  or_locked rep = or_locked (ov_report st) /\
  or_type_mismatch rep = or_type_mismatch (ov_report st) ++ keys_where (mistyped hive taken) l /\
  or_unknown rep = or_unknown (ov_report st).
Proof.
  induction l as [|r l IH]; intros st Hnd Ht; cbn [fmap list_fmap foldl]; [by rewrite app_nil_r|].
  cbn [fmap list_fmap] in Hnd, Ht. apply NoDup_cons in Hnd as [Hnew Hnd].
  destruct (IH (advise_step hive st (row_binding r)) Hnd) as (-> & -> & ->).
  { intros key Hkey. rewrite advise_step_consumed, <- (Ht key) by (by right).
    case_bool_decide; [|done]. rewrite elem_of_union, elem_of_singleton. split; [intros [->|]; done|by right]. }
  clear IH. rewrite keys_where_cons. specialize (Ht (row_key r) ltac:(left)).
  unfold advise_step, mistyped, typed. change (binding_key (row_binding r)) with (row_key r).
  case_bool_decide as C; [by rewrite (proj1 Ht C)|].
  destruct (taken (row_key r)); [by destruct C; apply Ht|]. cbn [negb andb].
  destruct (hive !! row_key r) as [v|]; cbn [fmap option_fmap option_map]; [|done].
  destruct (type_matches _ v); cbn [negb].
  - destruct (negb _); [done|]. by destruct (b_apply _ _ _ _) as [? []].
  - cbn. by rewrite <- !app_assoc.
Qed.

Lemma note_unknown_spec l : forall r,
  NoDup (or_unknown r) ->
  let r' := foldl note_unknown r l in
  or_locked r' = or_locked r /\ or_type_mismatch r' = or_type_mismatch r /\ NoDup (or_unknown r') /\
  (forall k, k ∈ or_unknown r' <-> k ∈ or_unknown r \/ (k ∈ l /\ k ∉ known_keys)).
Proof.
  induction l as [|x l IH]; intros r Hnd; cbn [foldl].
  { split_and!; try done. intros k. rewrite elem_of_nil. tauto. }
  destruct (IH (note_unknown r x)) as (-> & -> & H & E).
  { unfold note_unknown. destruct (bool_decide (x ∈ known_keys)); [done|]. cbn. case_bool_decide; [done|].
    cbn. apply NoDup_app. split_and!; [done| |by apply NoDup_singleton]. intros y Hy ->%list_elem_of_singleton. done. }
  unfold note_unknown in *. case_bool_decide as K; cbn [orb] in *.
  { split_and!; try done. intros k. rewrite E, elem_of_cons. split; [tauto|]. intros [?|[[->|?] ?]]; tauto. }
  case_bool_decide as U; cbn [or_locked or_type_mismatch or_unknown push_unknown] in *.
  { split_and!; try done. intros k. rewrite E, elem_of_cons. split; [tauto|]. intros [?|[[->|?] ?]]; tauto. }
  split_and!; try done. intros k. rewrite E, elem_of_app, list_elem_of_singleton, elem_of_cons.
  split; [intros [[?| ->]|?]; tauto|tauto].
Qed.

(** ** Properties *)

(** C38: the overlay gives every governed field exactly the value the precedence
    rules prescribe: enforced machine policies, merged in table order, win over
    the file; the file wins over advisory policies; a field still unset takes
    the first machine policy that fits, else the first user policy whose key
    the machine hive lacks.  A policy of the wrong type or out of range never
    reaches the configuration, and nothing outside the governed fields
    changes.  A field counts as unset only when it is absent: an empty list in
    the file is a value.  This is the precedence of the code; the documents that
    give another one are refuted by [file_value_stays] and [enforced_wins_silently]. *)
Theorem overlay_exact (cfg : Config) (b : PolicyBundle) :
  let cfg' := (overlay_apply cfg b).1 in
  (forall k, read k cfg' = overlay_value k b (read k cfg)) /\
  ungoverned cfg' = ungoverned cfg.
Proof.
  split; [intros k; apply overlay_read|apply overlay_ungoverned].
Qed.

(** A value in the file, an empty list included, yields to enforced machine
    policies only: neither an advisory machine policy nor a user policy
    replaces it. *)
Theorem file_value_stays (cfg : Config) (b : PolicyBundle) (k : nat) (v : FieldValue) :
  read k cfg = Some v -> (forall r, r ∈ ROWS -> row_field r = k -> enforced_value b r = None) ->
  read k (overlay_apply cfg b).1 = Some v.
Proof.
  intros Hv Hn. rewrite overlay_read. unfold overlay_value. rewrite Hv.
  assert (enforce_all b (rows_for k ROWS) (Some v) = Some v) as ->; [|done]. unfold enforce_all.
  assert (forall l, Forall (fun r => enforced_value b r = None) l ->
    foldl (fun cur r => match enforced_value b r with Some v => Some (rule_merge (row_rule r) cur v) | None => cur end) (Some v) l = Some v) as Hf.
  { induction 1 as [|r l Hr Hl IH]; [done|]. cbn [foldl]. by rewrite Hr. }
  apply Hf, Forall_forall. intros r [Hk Hin]%list_elem_of_filter. by apply Hn.
Qed.

(** under an enforced list policy the list that results is at least as
    strict as the policy's, as every other enforced policy's on that field,
    and as the one the file had: an allow list admits nothing either of them
    leaves out, the deny list refuses all that either of them names.  The
    field is set, whatever the user hive says. *)
Theorem enforced_lists_tighten (cfg : Config) (b : PolicyBundle) (r : Row) (p : list string) :
  r ∈ ROWS -> list_rule (row_rule r) = true -> enforced_value b r = Some (FList p) ->
  exists l, read (row_field r) (overlay_apply cfg b).1 = Some (FList l) /\
    stricter (row_rule r) l p /\
    (forall e, read (row_field r) cfg = Some (FList e) -> stricter (row_rule r) l e).
Proof.
  intros Hr Hl Hp. rewrite overlay_read. unfold overlay_value.
  destruct (list_field r cfg Hr Hl) as [old Hold]. rewrite Hold.
  destruct (enforce_all_lists b (row_rule r) (rows_for (row_field r) ROWS) Hl) with (old := old)
    as (new & -> & He & Hall).
  { apply Forall_forall. intros r' [Hf Hin]%list_elem_of_filter. by apply fields_agree. }
  destruct (Hall r p) as (n & -> & Hn); [by apply list_elem_of_filter|done|].
  exists n. split; [done|]. split; [done|]. intros e E. destruct old as [o|]; [|done].
  injection E as <-. destruct (He o eq_refl) as (? & [= <-] & ?). done.
Qed.

(** the report is exact: the locked keys are the enforced ones whose type is
    right, in table order; a key is reported as mistyped when the hive that
    decides it holds a value of another type; and the unknown keys are, once
    each, those in either hive that no binding has. *)
Theorem overlay_report_exact (cfg : Config) (b : PolicyBundle) :
  let rep := (overlay_apply cfg b).2 in
  or_locked rep = keys_where (locks b) ROWS /\
  or_type_mismatch rep =
    keys_where (mistyped (pb_machine b) (fun key => negb (is_enforced b key))) ROWS ++
    keys_where (mistyped (pb_machine b) (is_enforced b)) ROWS ++
    keys_where (mistyped (pb_user b) (fun key => bool_decide (is_Some (pb_machine b !! key)))) ROWS /\
  NoDup (or_unknown rep) /\
  (forall k, k ∈ or_unknown rep <->
     (k ∉ known_keys) /\ (is_Some (pb_machine b !! k) \/ is_Some (pb_user b !! k))).
Proof.
  unfold overlay_apply. cbn [snd]. rewrite <- rows_bindings.
  set (st0 := mkOverlay cfg _ _). set (st1 := foldl (enforce_step b) st0 _).
  set (st2 := foldl (advise_step (pb_machine b)) st1 _).
  set (st3 := foldl (advise_step (pb_user b)) st2 _).
  destruct (enforce_report b ROWS st0) as (L1 & M1 & U1). fold st1 in L1, M1, U1.
  destruct (advise_report (pb_machine b) (fun key => is_enforced b key && bool_decide (is_Some (pb_machine b !! key)))
              ROWS st1 keys_unique) as (L2 & M2 & U2).
  { intros key Hin. unfold st1. rewrite enforce_consumed, andb_true_iff, bool_decide_eq_true.
    unfold st0. cbn [ov_consumed]. rewrite elem_of_empty. tauto. }
  destruct (advise_report (pb_user b) (fun key => bool_decide (is_Some (pb_machine b !! key)))
              ROWS st2 keys_unique) as (L3 & M3 & U3).
  { intros key Hin. unfold st2. rewrite advise_consumed. unfold st1. rewrite enforce_consumed, bool_decide_eq_true.
    unfold st0. cbn [ov_consumed]. rewrite elem_of_empty. tauto. }
  fold st2 in L2, M2, U2. fold st3 in L3, M3, U3.
  destruct (note_unknown_spec (hive_keys (pb_machine b) ++ hive_keys (pb_user b)) (ov_report st3)) as (-> & -> & Hnd & Hk).
  { rewrite U3, U2, U1. apply NoDup_nil_2. }
  rewrite L3, L2, L1, M3, M2, M1, <- app_assoc. split_and!; [done| |done|].
  - cbn [st0 ov_report or_type_mismatch app]. do 2 f_equal. apply keys_where_ext. intros r _. unfold mistyped, typed.
    destruct (is_enforced b _); cbn; [|done]. destruct (pb_machine b !! _); done.
  - intros k. rewrite Hk, U3, U2, U1. cbn [st0 ov_report or_unknown]. rewrite elem_of_nil, elem_of_app.
    unfold hive_keys. rewrite !list_elem_of_fmap. split.
    + intros [[]|[[([? v] & -> & H)|([? v] & -> & H)] Hn]]; apply elem_of_map_to_list in H; eauto.
    + intros [Hn [[v Hv]|[v Hv]]]; right; (split; [|done]); [left|right]; exists (k, v);
        (split; [done|by apply elem_of_map_to_list]).
Qed.

(** ** On concrete bundles *)

Definition demo_key (section name : string) : string := (section +:+ backslash +:+ name)%string.

(** An enforced list of log destinations, one under the alias, an enforced
    count that no [u32] holds, and a level in both hives. *)
Definition demo_bundle : PolicyBundle :=
  mkPolicyBundle
    {[ demo_key "Logging" "AllowedDestinations" := PMultiString ["stderr"; "file"];
       demo_key "Observability" "LogDestinations" := PMultiString ["file"; "syslog"];
       demo_key "Logging" "MaxFiles" := PInteger (2 ^ 32);
       demo_key "Logging" "Level" := PString "warn" ]}
    {[ demo_key "Logging" "Level" := PString "trace"; demo_key "Logging" "Format" := PString "json" ]}
    {[ demo_key "Logging" "AllowedDestinations"; demo_key "Observability" "LogDestinations"; demo_key "Logging" "MaxFiles" ]}.

Definition demo_config : Config :=
  put (ensure_logging ∙ logging_destinations_l) (Some ["file"; "stdout"; "stderr"]) Config_default.

Definition demo_row : Row := nth 3 ROWS (mkBinding "" "" KBool (fun c _ _ => (c, false)) (fun _ => true), (0%nat, Replace)).

Lemma enforced_lists_tighten_witness :
  exists l, read (row_field demo_row) (overlay_apply demo_config demo_bundle).1 = Some (FList l) /\
    stricter (row_rule demo_row) l ["stderr"; "file"] /\
    (forall e, read (row_field demo_row) demo_config = Some (FList e) -> stricter (row_rule demo_row) l e).
Proof.
  apply (enforced_lists_tighten demo_config demo_bundle demo_row).
  - refine (list_elem_of_lookup_2 _ 3 _ _). reflexivity.
  - reflexivity.
  - vm_compute. reflexivity.
Defined.

Example demo_overlay :
  let (cfg, rep) := overlay_apply demo_config demo_bundle in
  (fun k => read k cfg) <$> [0; 1; 2; 3]%nat =
    [Some (FStr "warn"); Some (FStr "json"); None; Some (FList ["file"])] /\
  or_locked rep = [demo_key "Logging" "MaxFiles"; demo_key "Logging" "AllowedDestinations"; demo_key "Observability" "LogDestinations"].
Proof. vm_compute. done. Qed.

(** An empty list in the file is not filled in by an advisory policy, and a
    level in the file stands against a user policy. *)
Theorem empty_list_is_a_value :
  let b := mkPolicyBundle {[ demo_key "Logging" "AllowedDestinations" := PMultiString ["stderr"] ]}
             {[ demo_key "Logging" "Level" := PString "trace" ]} ∅ in
  let file := put (ensure_logging ∙ logging_destinations_l) (Some [])
                (put (ensure_logging ∙ logging_level_l) (Some "error"%string) Config_default) in
  read 3 (overlay_apply file b).1 = Some (FList []) /\ read 0 (overlay_apply file b).1 = Some (FStr "error").
Proof. vm_compute. done. Qed.

(** A file that conflicts with an enforced policy is overridden; the only sign
    is the key among the locked ones. *)
Theorem enforced_wins_silently :
  let b := mkPolicyBundle {[ demo_key "Logging" "Level" := PString "warn" ]} ∅ {[ demo_key "Logging" "Level" ]} in
  let file := put (ensure_logging ∙ logging_level_l) (Some "trace"%string) Config_default in
  let (cfg, rep) := overlay_apply file b in
  read 0 cfg = Some (FStr "warn") /\ or_locked rep = [demo_key "Logging" "Level"] /\ or_type_mismatch rep = [].
Proof. vm_compute. done. Qed.

(** An enforced number out of the range of its field is reported as applied
    and as locked, and the field is left as it was: a [U32] binding checks the
    type only, and its setter then declines. *)
Theorem out_of_range_locked :
  let b := mkPolicyBundle {[ demo_key "Logging" "MaxFiles" := PInteger (-1) ]} ∅ {[ demo_key "Logging" "MaxFiles" ]} in
  let (cfg, rep) := overlay_apply Config_default b in
  cfg = Config_default /\ or_locked rep = [demo_key "Logging" "MaxFiles"] /\ or_applied rep = [demo_key "Logging" "MaxFiles"] /\
  or_type_mismatch rep = [].
Proof. vm_compute. done. Qed.

(** A binding is found whatever the case of its section and name. *)
Lemma find_by_key {A K} `{!EqDecision K} (key : A -> K) (test : A -> bool) (l : list A) x :
  NoDup (key <$> l) -> x ∈ l -> (forall y, y ∈ l -> test y = true <-> key y = key x) -> find test l = Some x.
Proof.
  induction l as [|y l IH]; intros Hnd Hin Ht; [by apply not_elem_of_nil in Hin|].
  cbn [fmap list_fmap] in Hnd. apply NoDup_cons in Hnd as [Hnew Hnd]. cbn [find].
  destruct (test y) eqn:E.
  - apply Ht in E; [|left]. apply elem_of_cons in Hin as [->|Hin]; [done|].
    destruct Hnew. rewrite E. by apply list_elem_of_fmap_2.
  - apply elem_of_cons in Hin as [->|Hin]; [by rewrite (proj2 (Ht y ltac:(left)) eq_refl) in E|].
    apply IH; [done|done|]. intros z Hz. apply Ht. by right.
Qed.

Definition folded_key (b : Binding) : string * string := (to_ascii_lowercase (b_section b), to_ascii_lowercase (b_name b)).

Theorem find_binding_found (b : Binding) (section name : string) :
  b ∈ BINDINGS -> folded_key b = (to_ascii_lowercase section, to_ascii_lowercase name) ->
  find_binding section name = Some b.
Proof.
  intros Hb Hk. unfold find_binding. apply (find_by_key folded_key); [|done|].
  - refine (@bool_decide_unpack _ _ _). vm_compute. exact I.
  - intros y _. unfold eq_str_ignore_ascii_case. rewrite Hk, andb_true_iff, !String.eqb_eq. unfold folded_key.
    split; [intros [-> ->]; done|intros [= -> ->]; done].
Qed.
