(* ===== verification/Address.v ===== *)
(** * Addresses, durations and sizes

    Models [crates/spt-core/src/address.rs], [parse_duration] of [duration.rs]
    and [parse_size] of [size.rs], with the socket-address parser and printer
    of the standard library.  The [humantime] and [bytesize] crates are
    parameters: what they read, in nanoseconds and bytes, or their message. *)

From S2P Require Import Prelude Bytes Text Errors Endpoint Ip.

(** ** Socket addresses *)

(** [SocketAddr]; only an IPv6 address has a scope, and it is [0] when absent. *)
Record SocketAddr := mkSocketAddr { sa_ip : IpAddr; sa_port : Z; sa_scope : Z }.

#[export] Instance SocketAddr_eq_dec : EqDecision SocketAddr.
Proof. solve_decision. Defined.

Definition ip_to_string (ip : IpAddr) : string :=
  match ip with V4 a => ipv4_to_string a | V6 a => ipv6_to_string a end.

Definition socket_to_string (s : SocketAddr) : string :=
  match sa_ip s with
  | V4 a => (ipv4_to_string a +:+ ":" +:+ pretty (sa_port s))%string
  | V6 a =>
      let scope := if sa_scope s =? 0 then EmptyString else ("%" +:+ pretty (sa_scope s))%string in
      ("[" +:+ ipv6_to_string a +:+ scope +:+ "]:" +:+ pretty (sa_port s))%string
  end.

(** [read_number(10, None, true)]: as many digits as there are. *)
Definition read_uint (max : Z) (s : string) : option (Z * string) := read_number 10 max (String.length s) true s.

Definition read_port (s : string) : option (Z * string) :=
  match strip_prefix ":" s with Some s' => read_uint (umax 16) s' | None => None end.

Definition read_scope_id (s : string) : option (Z * string) :=
  match strip_prefix "%" s with Some s' => read_uint (umax 32) s' | None => None end.

Definition read_socket_v4 (s : string) : option (SocketAddr * string) :=
  '(a, s) ← read_ipv4 s; '(port, s) ← read_port s; Some (mkSocketAddr (V4 a) port 0, s).

Definition read_socket_v6 (s : string) : option (SocketAddr * string) :=
  s ← strip_prefix "[" s;
  '(a, s) ← read_ipv6 s;
  let '(scope, s) := match read_scope_id s with Some r => r | None => (0, s) end in
  s ← strip_prefix "]" s;
  '(port, s) ← read_port s;
  Some (mkSocketAddr (V6 a) port scope, s).

(** [SocketAddr::from_str]. *)
Definition parse_socket (s : string) : option SocketAddr :=
  match (match read_socket_v4 s with Some r => Some r | None => read_socket_v6 s end) with
  | Some (a, r) => if (r =? "")%string then Some a else None
  | None => None
  end.

Definition is_loopback (ip : IpAddr) : bool :=
  match ip with V4 a => octet a 0 =? 127 | V6 a => a =? 1 end.
Definition is_unspecified (ip : IpAddr) : bool :=
  match ip with V4 a | V6 a => a =? 0 end.
Definition is_ipv4 (ip : IpAddr) : bool := match ip with V4 _ => true | V6 _ => false end.

(** ** [BindAddr] *)

Inductive BindAddr :=
| Tcp (sock : SocketAddr)
| Unix (path : string)
| TcpHostPort (host : string) (port : Z).

#[export] Instance BindAddr_eq_dec : EqDecision BindAddr.
Proof. solve_decision. Defined.

Definition BindAddr_parse (s : string) : Result Error BindAddr :=
  let s := trim s in
  if (s =? "")%string then Err (InvalidArgs "address must not be empty")
  else
    match strip_prefix "unix://" s with
    | Some path =>
        if (path =? "")%string then Err (InvalidArgs "unix:// address requires a path") else Ok (Unix path)
    | None =>
        match parse_socket s with
        | Some sock => Ok (Tcp sock)
        | None =>
            if starts_with "[" s then Err (InvalidArgs ("invalid bracketed IPv6 address `" +:+ s +:+ "`"))
            else
              match rsplit_once ":" s with
              | None => Err (InvalidArgs ("address `" +:+ s +:+ "` is missing `:port`"))
              | Some (host, port) =>
                  if (host =? "")%string then Err (InvalidArgs ("address `" +:+ s +:+ "` has empty host"))
                  else
                    match parse_uint 16 port with
                    | None => Err (InvalidArgs ("address `" +:+ s +:+ "` has invalid port `" +:+ port +:+ "`"))
                    | Some p => Ok (TcpHostPort host p)
                    end
              end
        end
    end.

Definition BindAddr_to_string (a : BindAddr) : string :=
  match a with
  | Tcp sock => socket_to_string sock
  | Unix path => ("unix://" +:+ path)%string
  | TcpHostPort host port => host_port host port
  end.

(** ** Durations and sizes *)

Class HumanTime := { humantime_parse : string -> Result string Z }.
Class ByteSizes := { bytesize_parse : string -> Result string Z }.

Definition parse_duration `{!HumanTime} (s : string) : Result Error Z :=
  let trimmed := trim s in
  if (trimmed =? "")%string then Err (InvalidArgs "duration must not be empty")
  else match humantime_parse trimmed with
       | Ok d => Ok d
       | Err e => Err (InvalidArgs ("invalid duration `" +:+ trimmed +:+ "`: " +:+ e))
       end.

Definition parse_size `{!ByteSizes} (s : string) : Result Error Z :=
  let trimmed := trim s in
  if (trimmed =? "")%string then Err (InvalidArgs "size must not be empty")
  else match bytesize_parse trimmed with
       | Ok n => Ok n
       | Err e => Err (InvalidArgs ("invalid size `" +:+ trimmed +:+ "`: " +:+ e))
       end.

(** ** Ranges *)

Lemma digit_nonneg radix a d : to_digit radix a = Some d -> 0 <= d.
Proof. unfold to_digit, between. intros H. repeat case_match; simplify_eq; lia. Qed.

Lemma read_number_range radix max n z s v r : 0 <= radix -> 0 <= max -> read_number radix max n z s = Some (v, r) -> 0 <= v <= max.
Proof.
  intros Hr Hm H. unfold read_number in H.
  assert (forall s acc count v c r, 0 <= acc <= max -> read_number_loop radix max n s acc count = Some (v, c, r) -> 0 <= v <= max) as Hl.
  { clear s v r H. induction s as [|a s IH]; cbn; intros acc count v c r Ha H; [by simplify_eq|].
    destruct (to_digit radix a) as [d|] eqn:Hd; [|by simplify_eq]. apply digit_nonneg in Hd.
    destruct (max <? acc * radix + d) eqn:E; [done|]. destruct (n <=? count)%nat; [done|]. eapply IH; [|done]. nia. }
  destruct (read_number_loop _ _ _ _ _ _) as [[[v' c] r']|] eqn:E; [|done]. apply Hl in E; [|lia].
  repeat case_match; by simplify_eq.
Qed.

Lemma read_ipv4_range s a r : read_ipv4 s = Some (a, r) -> in_u 32 a.
Proof.
  unfold read_ipv4, read_separator. cbn [Nat.eqb]. intros H.
  apply bind_Some in H as ([a1 s1] & H1 & H). apply bind_Some in H as ([a2 s2] & H2 & H).
  apply bind_Some in H as ([a3 s3] & H3 & H). apply bind_Some in H as ([a4 s4] & H4 & H). simplify_eq.
  destruct (strip_prefix _ s1); [|done]. destruct (strip_prefix _ s2); [|done]. destruct (strip_prefix _ s3); [|done].
  apply read_number_range in H1, H2, H3, H4; try lia. unfold in_u, umax. lia.
Qed.

Lemma BindAddr_parse_v4_range s a port scope : BindAddr_parse s = Ok (Tcp (mkSocketAddr (V4 a) port scope)) -> in_u 32 a.
Proof.
  unfold BindAddr_parse. cbv zeta. set (t := trim s). destruct (_ =? _)%string; [done|].
  destruct (strip_prefix _ t); [by destruct (_ =? _)%string|].
  destruct (parse_socket t) as [sock|] eqn:E.
  - intros [= ->]. unfold parse_socket in E. destruct (read_socket_v4 t) as [[x r]|] eqn:Hv.
    + destruct (_ =? _)%string; [|done]. injection E as ->. unfold read_socket_v4 in Hv.
      apply bind_Some in Hv as ([b s1] & H1 & Hv). apply bind_Some in Hv as ([q s2] & H2 & Hv). simplify_eq. by eapply read_ipv4_range.
    + destruct (read_socket_v6 t) as [[x r]|] eqn:Hv6; [|done]. destruct (_ =? _)%string; [|done]. injection E as ->. unfold read_socket_v6 in Hv6.
      apply bind_Some in Hv6 as (s1 & H1 & Hv6). apply bind_Some in Hv6 as ([q s2] & H2 & Hv6).
      destruct (match read_scope_id s2 with Some r => r | None => (0, s2) end).
      apply bind_Some in Hv6 as (s3 & H3 & Hv6). apply bind_Some in Hv6 as ([q' s4] & H4 & Hv6). simplify_eq.
  - destruct (starts_with _ t); [done|]. destruct (rsplit_once _ t) as [[h q]|]; [|done]. destruct (_ =? _)%string; [done|].
    by destruct (parse_uint 16 q).
Qed.
