(* ===== verification/Validate.v ===== *)
(** * Validation of the tables of a configuration

    Models [crates/spt-config/src/diagnostic.rs] and the checks of
    [crates/spt-config/src/validate.rs] on every table but the profiles, which
    are in [ValidateProfile].  A check returns the diagnostics it pushes, in
    order; a diagnostic is its severity, its stable code and its path, without
    the message and the hint meant for a person. *)

From S2P Require Import Prelude Text Errors Endpoint Ip RoundRobin Schema Address.

(** ** Diagnostics *)

Inductive Severity := SevError | SevWarning | SevInfo.

Record ConfigDiagnostic := mkConfigDiagnostic {
  cd_severity : Severity;
  cd_code : string;
  cd_path : option string
}.

Record Bundle := mkBundle { bn_errors : list ConfigDiagnostic; bn_warnings : list ConfigDiagnostic }.

(** [Diagnostics::push]. *)
Definition push (d : Bundle) (x : ConfigDiagnostic) : Bundle :=
  match cd_severity x with
  | SevError => mkBundle (bn_errors d ++ [x]) (bn_warnings d)
  | SevWarning | SevInfo => mkBundle (bn_errors d) (bn_warnings d ++ [x])
  end.

Definition push_all (d : Bundle) (l : list ConfigDiagnostic) : Bundle := foldl push d l.
Definition bundle_ok (d : Bundle) : bool := match bn_errors d with [] => true | _ => false end.
Definition bundle_total (d : Bundle) : Z := Z.of_nat (length (bn_errors d) + length (bn_warnings d)).

Definition err (code path : string) : list ConfigDiagnostic := [mkConfigDiagnostic SevError code (Some path)].
Definition warn (code path : string) : list ConfigDiagnostic := [mkConfigDiagnostic SevWarning code (Some path)].

(** ** Shapes of rules *)

Definition when {A} (b : bool) (l : list A) : list A := if b then l else [].
Definition on_some {A B} (o : option A) (f : A -> list B) : list B := match o with Some x => f x | None => [] end.

(** [matches!(s, "a" | "b" | ..)]. *)
Definition one_of (s : string) (l : list string) : bool := existsb (String.eqb s) l.

Definition some_true (o : option bool) : bool := match o with Some true => true | _ => false end.
Definition some_false (o : option bool) : bool := match o with Some false => true | _ => false end.
Definition is_zero (o : option Z) : bool := match o with Some n => n =? 0 | None => false end.
Definition is_some {A} (o : option A) : bool := match o with Some _ => true | None => false end.
Definition str_empty (s : string) : bool := (s =? "")%string.
Definition opt_is (o : option string) (s : string) : bool := match o with Some x => (x =? s)%string | None => false end.

(** [o.as_deref().unwrap_or("").is_empty()]. *)
Definition opt_empty (o : option string) : bool := str_empty (default "" o).

(** A value outside a closed vocabulary. *)
Definition vocabulary (o : option string) (words : list string) (code path : string) : list ConfigDiagnostic :=
  on_some o (fun s => when (negb (one_of s words)) (err code path)).

Definition idx (i : nat) : string := ("[" +:+ pretty i +:+ "]")%string.

(** [for (i, x) in l.iter().enumerate()]. *)
Definition each_indexed {A B} (l : list A) (f : nat -> A -> list B) : list B := mjoin (imap f l).

(** The loops that keep the names seen so far: the body learns whether the name
    of [x] was seen, and an unseen one is added. *)
Fixpoint each_named {A B} (name : A -> string) (seen : list string) (i : nat) (l : list A)
    (f : nat -> A -> bool -> list B) : list B :=
  match l with
  | [] => []
  | x :: r =>
      let dup := one_of (name x) seen in
      f i x dup ++ each_named name (if dup then seen else seen ++ [name x]) (S i) r f
  end.

(** ** Fields that hold durations, sizes and secret references *)

Section Fields.
Context `{!HumanTime, !ByteSizes}.

Definition check_duration_field (val : option string) (path : string) : list ConfigDiagnostic :=
  on_some val (fun s => when (negb (str_empty s) && negb (is_ok (parse_duration s))) (err "duration_invalid" path)).

Definition check_positive_duration_field (val : option string) (path : string) : list ConfigDiagnostic :=
  on_some val (fun s =>
    if str_empty s then []
    else match parse_duration s with
         | Err _ => err "duration_invalid" path
         | Ok dur => when (dur =? 0) (err "duration_must_be_positive" path)
         end).

Definition check_size_field (val : option string) (path : string) : list ConfigDiagnostic :=
  on_some val (fun s => when (negb (str_empty s) && negb (is_ok (parse_size s))) (err "size_invalid" path)).
End Fields.

(** [trim_start_matches("secret://")]: every copy of the scheme at the start. *)
Fixpoint trim_scheme (fuel : nat) (s : string) : string :=
  match fuel with
  | O => s
  | S fuel => match strip_prefix "secret://" s with Some r => trim_scheme fuel r | None => s end
  end.

Definition check_secret_ref_shape (value path : string) : list ConfigDiagnostic :=
  if negb (starts_with "secret://" value) then warn "inline_secret" path
  else
    let rest := trim_scheme (String.length value) value in
    let '(ns, name) := match split_once "/" rest with Some p => p | None => (rest, EmptyString) end in
    when (str_empty ns || str_empty name) (err "secret_ref_malformed" path).

Definition check_non_empty_string (value : option string) (path : string) : list ConfigDiagnostic :=
  when (opt_is value "") (err "empty_string" path).

(** ** The tables *)

Section Tables.
Context `{!HumanTime, !ByteSizes}.

Definition check_version (c : Config) : list ConfigDiagnostic :=
  when (negb (config_version c =? 1)) (err "version_unsupported" "version").

Definition MIN_REMOTE_POLL_INTERVAL : Z := from_secs 30.

Definition check_remote_config (rc : RuntimeRemoteConfig) : list ConfigDiagnostic :=
  when (some_true (runtime_remote_config_enabled rc))
    (match runtime_remote_config_url rc with
     | None => err "remote_config_missing_url" "runtime.remote_config.url"
     | Some url =>
         if str_empty url then err "remote_config_missing_url" "runtime.remote_config.url"
         else when (negb (starts_with "https://" url)) (err "remote_config_not_https" "runtime.remote_config.url")
     end
     ++ when (opt_empty (runtime_remote_config_fingerprint_sha256 rc))
          (warn "remote_config_no_pin" "runtime.remote_config.fingerprint_sha256")
     ++ check_duration_field (runtime_remote_config_poll_interval rc) "runtime.remote_config.poll_interval"
     ++ on_some (runtime_remote_config_poll_interval rc) (fun pi =>
          match parse_duration pi with
          | Ok parsed => when (parsed <? MIN_REMOTE_POLL_INTERVAL)
                           (err "remote_config_poll_too_frequent" "runtime.remote_config.poll_interval")
          | Err _ => []
          end)).

Definition check_runtime (c : Config) : list ConfigDiagnostic :=
  on_some (config_runtime c) (fun rt =>
    on_some (runtime_remote_config rt) check_remote_config
    ++ check_duration_field (runtime_shutdown_grace rt) "runtime.shutdown_grace"
    ++ on_some (runtime_threads rt) (fun threads =>
         vocabulary (runtime_threads_model threads) ["multi_thread"; "single_thread_for_tests"]
           "threads_model_invalid" "runtime.threads.model"
         ++ check_duration_field (runtime_threads_idle_tick threads) "runtime.threads.idle_tick")
    ++ on_some (runtime_reload rt) (fun reload =>
         vocabulary (runtime_reload_mode reload) ["none"; "signal"; "watch"; "service"]
           "reload_mode_invalid" "runtime.reload.mode"
         ++ check_duration_field (runtime_reload_debounce reload) "runtime.reload.debounce")).

Definition level_invalid (level : string) : bool :=
  let bare := trim level in
  negb (str_empty bare)
  && negb (contains_char "=" bare || contains_char "," bare || contains_char " " bare)
  && negb (one_of (to_ascii_lowercase bare) ["trace"; "debug"; "info"; "warn"; "error"; "off"]).

Definition remote_kinds : list string :=
  ["syslog_udp"; "syslog-udp"; "syslog_tcp"; "syslog-tcp"; "syslog_tls"; "syslog-tls"; "https_jsonl"; "https-jsonl"; "otlp"].

(** The loop over the spool directories. *)
Fixpoint check_spool_dirs (seen : list string) (l : list LoggingRemote) : list ConfigDiagnostic :=
  match l with
  | [] => []
  | remote :: r =>
      match logging_remote_spool_dir remote with
      | Some dir =>
          if str_empty dir then check_spool_dirs seen r
          else if one_of dir seen then err "remote_log_spool_dir_duplicate" "logging.remote.spool_dir" ++ check_spool_dirs seen r
          else check_spool_dirs (seen ++ [dir]) r
      | None => check_spool_dirs seen r
      end
  end.

Definition check_logging_remote (i : nat) (remote : LoggingRemote) (dup : bool) : list ConfigDiagnostic :=
  let prefix := ("logging.remote" +:+ idx i)%string in
  let at_ s := (prefix +:+ "." +:+ s)%string in
  when dup (err "duplicate_remote_log_sink" (at_ "name"))
  ++ when (negb (one_of (logging_remote_kind remote) remote_kinds)) (err "remote_log_kind_invalid" (at_ "type"))
  ++ when (opt_empty (logging_remote_endpoint remote)) (err "remote_log_missing_endpoint" (at_ "endpoint"))
  ++ on_some (logging_remote_facility remote) (fun f => when (23 <? f) (err "syslog_facility_invalid" (at_ "facility")))
  ++ when (is_some (logging_remote_allow_invalid_certs remote))
       (warn "remote_log_allow_invalid_certs_deprecated" (at_ "allow_invalid_certs"))
  ++ (let self_signed := match logging_remote_allow_self_signed remote with
                         | Some b => Some b
                         | None => logging_remote_allow_invalid_certs remote
                         end in
      when (some_true self_signed)
        ((if one_of (logging_remote_kind remote) ["syslog_tls"; "syslog-tls"]
          then warn "syslog_tls_invalid_certs_allowed" (at_ "allow_self_signed")
          else warn "remote_log_tls_option_ignored" (at_ "allow_self_signed"))
         ++ when (some_true (logging_remote_allow_self_signed remote)
                  && bool_decide (logging_remote_pin_spki_sha256 remote = []))
              (err "remote_log_allow_self_signed_without_pin" (at_ "allow_self_signed"))))
  ++ when (xorb (is_some (logging_remote_client_cert remote)) (is_some (logging_remote_client_key remote)))
       (err "syslog_tls_client_auth_incomplete" (at_ "client_cert"))
  ++ when (is_zero (logging_remote_queue_max_records remote)) (err "remote_log_queue_empty" (at_ "queue_max_records"))
  ++ check_duration_field (logging_remote_timeout remote) (at_ "timeout")
  ++ check_duration_field (logging_remote_reconnect_backoff remote) (at_ "reconnect_backoff")
  ++ check_size_field (logging_remote_spool_max_bytes remote) (at_ "spool_max_bytes").

Definition check_logging (c : Config) : list ConfigDiagnostic :=
  on_some (config_logging c) (fun logging =>
    on_some (logging_level logging) (fun level => when (level_invalid level) (err "logging_level_invalid" "logging.level"))
    ++ vocabulary (logging_format logging) ["compact"; "text"; "pretty"; "json"] "logging_format_invalid" "logging.format"
    ++ on_some (logging_destinations logging) (fun ds =>
         each_indexed ds (fun i dest =>
           when (negb (one_of dest ["stderr"; "console"; "file"; "journald"]))
             (err "logging_destination_invalid" ("logging.destinations" +:+ idx i)%string)))
    ++ vocabulary (logging_rotate logging) ["size"; "daily"; "hourly"; "none"; "never"] "logging_rotate_invalid" "logging.rotate"
    ++ check_size_field (logging_max_size logging) "logging.max_size"
    ++ check_duration_field (logging_max_age logging) "logging.max_age"
    ++ check_duration_field (logging_rotation_check_interval logging) "logging.rotation_check_interval"
    ++ check_spool_dirs [] (logging_remote logging)
    ++ each_named logging_remote_name [] 0 (logging_remote logging) check_logging_remote).

Definition check_secrets (c : Config) : list ConfigDiagnostic :=
  on_some (config_secrets c) (fun secrets =>
    vocabulary (secrets_backend secrets) ["auto"; "keychain"; "vault"; "env"] "secrets_backend_invalid" "secrets.backend"
    ++ vocabulary (secrets_memory_protection secrets) ["best_effort"; "strict"; "none"]
         "secrets_memory_protection_invalid" "secrets.memory_protection"
    ++ when (some_true (secrets_encrypt_at_rest secrets)
             && negb (one_of (default "auto" (secrets_backend secrets)) ["vault"; "keychain"]))
         (err "secrets_encrypt_at_rest_requires_encrypted_backend" "secrets.encrypt_at_rest")).

Definition is_valid_severity (s : string) : bool :=
  one_of (to_ascii_lowercase s) ["trace"; "debug"; "info"; "warn"; "warning"; "error"; "critical"; "crit"; "fatal"].

Definition sink_kinds : list string :=
  ["email"; "sms"; "push"; "webpush"; "http"; "webhook_post"; "snmp_trap"; "windows_event"; "mcp_notify"; "remote_log"; "command"].

Definition check_event_sink (i : nat) (sink : EventSink) (dup : bool) : list ConfigDiagnostic :=
  let prefix := ("events.sinks" +:+ idx i)%string in
  when dup (err "duplicate_event_sink" (prefix +:+ ".name")%string)
  ++ when (negb (one_of (event_sink_kind sink) sink_kinds)) (err "event_sink_kind_invalid" (prefix +:+ ".type")%string)
  ++ check_duration_field (event_sink_timeout sink) (prefix +:+ ".timeout")%string.

Definition check_event_command (i : nat) (cmd : EventCommand) (dup : bool) : list ConfigDiagnostic :=
  let prefix := ("events.commands" +:+ idx i)%string in
  when dup (err "duplicate_event_command" (prefix +:+ ".name")%string)
  ++ when (str_empty (trim (event_command_command cmd))) (err "event_command_missing_path" (prefix +:+ ".command")%string)
  ++ when (negb (some_true (event_command_allow_exec cmd))) (warn "event_command_exec_disabled" (prefix +:+ ".allow_exec")%string)
  ++ check_duration_field (event_command_timeout cmd) (prefix +:+ ".timeout")%string.

(** [min_level] or [default_min_level]. *)
Definition check_min_level (level : option string) (code path : string) : list ConfigDiagnostic :=
  on_some level (fun l => when (negb (str_empty l) && negb (is_valid_severity l)) (err code path)).

Definition check_event_binding (targets : list string) (i : nat) (b : EventBinding) (dup : bool) : list ConfigDiagnostic :=
  let prefix := ("events.bindings" +:+ idx i)%string in
  when dup (err "duplicate_event_binding" (prefix +:+ ".name")%string)
  ++ when (bool_decide (event_binding_on b = [])) (err "event_binding_no_categories" (prefix +:+ ".on")%string)
  ++ each_indexed (event_binding_on b) (fun j category =>
       when (str_empty (trim category)) (err "event_binding_empty_category" (prefix +:+ ".on" +:+ idx j)%string))
  ++ when (bool_decide (event_binding_actions b = [])) (err "event_binding_no_actions" (prefix +:+ ".actions")%string)
  ++ each_indexed (event_binding_actions b) (fun j action =>
       when (negb (one_of action targets)) (err "event_binding_unknown_action" (prefix +:+ ".actions" +:+ idx j)%string))
  ++ check_duration_field (event_binding_throttle b) (prefix +:+ ".throttle")%string
  ++ check_min_level (event_binding_min_level b) "event_binding_min_level_invalid" (prefix +:+ ".min_level")%string
  ++ on_some (event_binding_dedupe b) (fun dd =>
       check_duration_field (event_dedupe_window dd) (prefix +:+ ".dedupe.window")%string).

(** The names the three loops have seen are those of the sinks and commands. *)
Definition check_events (c : Config) : list ConfigDiagnostic :=
  on_some (config_events c) (fun events =>
    when (is_zero (events_ring_capacity events)) (err "events_ring_capacity_zero" "events.ring_capacity")
    ++ check_positive_duration_field (events_retry_interval events) "events.retry_interval"
    ++ check_size_field (events_spool_max_bytes events) "events.spool_max_bytes"
    ++ check_min_level (events_default_min_level events) "events_default_min_level_invalid" "events.default_min_level"
    ++ each_named event_sink_name [] 0 (events_sinks events) check_event_sink
    ++ each_named event_command_name [] 0 (events_commands events) check_event_command
    ++ each_named event_binding_name [] 0 (events_bindings events)
         (check_event_binding ((event_sink_name <$> events_sinks events) ++ (event_command_name <$> events_commands events)))).

Definition check_status_api (c : Config) : list ConfigDiagnostic :=
  let api := config_status_api c in
  if negb (status_api_enabled api) then []
  else
    let loopback := is_loopback (status_api_bind api).1 in
    let tls := status_api_tls api in
    when (status_api_tls_enabled tls)
      (when (str_empty (status_api_tls_cert_file tls)) (err "status_api_tls_missing_cert" "status_api.tls.cert_file")
       ++ when (str_empty (status_api_tls_key_file tls)) (err "status_api_tls_missing_key" "status_api.tls.key_file"))
    ++ match status_api_auth api with
       | AuthNone =>
           when (negb loopback) (warn "status_api_anonymous_non_loopback" "status_api.auth.mode")
           ++ when (negb loopback && negb (status_api_tls_enabled tls))
                (warn "status_api_plaintext_non_loopback" "status_api.tls.enabled")
       | MutualTls _ allowed_subjects =>
           when (negb (status_api_tls_enabled tls)) (err "status_api_mtls_requires_tls" "status_api.auth.mode")
           ++ when (bool_decide (allowed_subjects = [])) (err "status_api_mtls_no_subjects" "status_api.auth.allowed_subjects")
       | Bearer _ | Basic _ _ =>
           when (negb loopback && negb (status_api_tls_enabled tls))
             (warn "status_api_credentials_plaintext" "status_api.tls.enabled")
       end.

Definition check_dns (c : Config) : list ConfigDiagnostic :=
  on_some (config_dns c) (fun dns =>
    on_some (dns_bind dns) (fun bind =>
      match BindAddr_parse bind with
      | Ok (Tcp sock) => when (some_true (dns_enabled dns) && (sa_port sock <? 1024)) (warn "dns_privileged_port" "dns.bind")
      | Ok _ => []
      | Err _ => err "dns_bind_invalid" "dns.bind"
      end)
    ++ vocabulary (dns_mode dns) ["disabled"; "transparent_forwarder"; "synthetic_only"; "hosts_file"]
         "dns_mode_invalid" "dns.mode"
    ++ each_indexed (dns_records dns) (fun i rec =>
         when (negb (one_of (dns_record_kind rec) ["A"; "AAAA"; "SRV"; "TXT"]))
           (err "dns_record_kind_invalid" ("dns.records" +:+ idx i +:+ ".type")%string))).

(** The closure [mismatch]. *)
Definition firewall_mismatch (key : string) (val : option string) (expected : list string) : list ConfigDiagnostic :=
  on_some val (fun v =>
    if (v =? "auto")%string || str_empty v then []
    else when (negb (one_of v expected)) (warn "firewall_platform_mismatch" ("firewall.platform." +:+ key)%string)).

Definition check_firewall (c : Config) : list ConfigDiagnostic :=
  on_some (config_firewall c) (fun fw =>
    on_some (firewall_platform fw) (fun plat =>
      firewall_mismatch "linux" (firewall_platform_linux plat) ["auto"; "nftables"; "iptables"; "none"]
      ++ firewall_mismatch "macos" (firewall_platform_macos plat) ["pf"; "none"]
      ++ firewall_mismatch "windows" (firewall_platform_windows plat) ["windows_firewall"; "none"])).

Definition check_network_interface (i : NetworkInterface) : list ConfigDiagnostic :=
  vocabulary (network_interface_bind_ipv6 i) ["auto"; "prefer"; "disable"] "network_bind_ipv6_invalid" "network.interface.bind_ipv6"
  ++ match network_interface_allowed_interfaces i, network_interface_denied_interfaces i with
     | Some allowed, Some denied =>
         collect (fun name => when (one_of name denied)
           (err "network_interface_policy_conflict" "network.interface.allowed_interfaces")) allowed
     | _, _ => []
     end.

(** [!x.is_empty() && x.parse::<IpAddr>().is_err()]. *)
Definition not_an_ip (s : string) : bool := negb (str_empty s) && negb (is_some (parse_ip s)).

Definition check_network_gateway (g : NetworkGateway) : list ConfigDiagnostic :=
  on_some (network_gateway_default_gateway g) (fun dg =>
    when (not_an_ip dg) (warn "network_gateway_default_not_ip" "network.gateway.default_gateway"))
  ++ on_some (network_gateway_route_check_target g) (fun rt =>
       when (not_an_ip rt) (warn "network_gateway_route_target_not_ip" "network.gateway.route_check_target"))
  ++ vocabulary (network_gateway_policy g) ["disabled"; "default_route"; "interface_only"; "route_to_target"]
       "network_gateway_policy_invalid" "network.gateway.policy"
  ++ when (some_true (network_gateway_require_gateway_match g) && opt_empty (network_gateway_interface g))
       (err "network_gateway_interface_required" "network.gateway.interface").

Definition check_network_load_balance (lb : NetworkLoadBalance) : list ConfigDiagnostic :=
  on_some (network_load_balance_strategy lb) (fun strategy =>
    when (negb (one_of strategy ["priority"; "weighted"; "round_robin"; "least_connections"; "manual"]))
      (err "network_load_balance_strategy_invalid" "network.load_balance.strategy")
    ++ when (one_of strategy ["least_connections"; "least-connections"])
         (warn "network_load_balance_least_connections_inert" "network.load_balance.strategy"))
  ++ vocabulary (network_load_balance_health_check lb) ["tcp_connect"; "ssh_handshake"; "ssh_auth_preflight"; "ssh3_endpoint"]
       "network_load_balance_health_check_invalid" "network.load_balance.health_check"
  ++ when (is_zero (network_load_balance_fail_after lb))
       (err "network_load_balance_fail_after_zero" "network.load_balance.fail_after")
  ++ check_duration_field (network_load_balance_restore_after lb) "network.load_balance.restore_after"
  ++ check_duration_field (network_load_balance_rebalance_interval lb) "network.load_balance.rebalance_interval"
  ++ when (is_some (network_load_balance_rebalance_interval lb))
       (warn "network_load_balance_rebalance_interval_ignored" "network.load_balance.rebalance_interval")
  ++ when (is_some (network_load_balance_sticky_sessions lb))
       (warn "network_load_balance_sticky_sessions_ignored" "network.load_balance.sticky_sessions").

Definition check_network_offload (o : NetworkOffload) : list ConfigDiagnostic :=
  collect (fun '(field, requested) =>
    when (some_true requested) (warn "network_offload_flag_unsupported" ("network.offload." +:+ field)%string))
    [("tcp_fast_open", network_offload_tcp_fast_open o);
     ("reuse_port", network_offload_reuse_port o);
     ("io_uring", network_offload_io_uring o);
     ("zerocopy", network_offload_zerocopy o);
     ("sendfile", network_offload_sendfile o);
     ("checksum_offload", network_offload_checksum_offload o);
     ("large_send_offload", network_offload_large_send_offload o)]%string.

Definition check_network (c : Config) : list ConfigDiagnostic :=
  on_some (config_network c) (fun network =>
    on_some (network_interface network) check_network_interface
    ++ on_some (network_gateway network) check_network_gateway
    ++ on_some (network_load_balance network) check_network_load_balance
    ++ on_some (network_offload network) check_network_offload).

Definition is_hexdigit (a : ascii) : bool := is_some (to_digit 16 a).
Fixpoint all_hex (s : string) : bool :=
  match s with EmptyString => true | String a r => is_hexdigit a && all_hex r end.

Definition check_engine_id (engine_id : string) : list ConfigDiagnostic :=
  if str_empty engine_id then []
  else
    let hex := default engine_id (strip_prefix "0x" engine_id) in
    let n := Z.of_nat (String.length hex) in
    if negb (n mod 2 =? 0) || negb (all_hex hex) then err "snmp_engine_id_invalid" "observability.snmp.engine_id"
    else
      let octets := n / 2 in
      when (negb ((5 <=? octets) && (octets <=? 32))) (err "snmp_engine_id_length" "observability.snmp.engine_id").

(** The names that have been seen are not empty: the first rule comes first. *)
Definition check_snmp_user (prefix : string) (user : SnmpUser) : list ConfigDiagnostic :=
  let at_ s := (prefix +:+ "." +:+ s)%string in
  match snmp_user_auth_protocol user with
  | Some auth =>
      when (negb (one_of (to_ascii_lowercase auth)
              ["hmac_md5"; "hmac-md5"; "md5"; "hmac_sha1"; "hmac-sha1"; "sha1"; "hmac_sha256"; "hmac-sha256"; "sha256"]))
        (err "snmp_user_auth_protocol_invalid" (at_ "auth_protocol"))
      ++ when (negb (is_some (snmp_user_auth_secret user))) (err "snmp_user_auth_secret_required" (at_ "auth_secret"))
  | None => when (is_some (snmp_user_auth_secret user)) (warn "snmp_user_auth_secret_without_protocol" (at_ "auth_secret"))
  end
  ++ on_some (snmp_user_priv_protocol user) (fun privp =>
       when (negb (one_of (to_ascii_lowercase privp) ["aes128"; "aes-128"; "aes256"; "aes-256"; "des"]))
         (err "snmp_user_priv_protocol_invalid" (at_ "priv_protocol"))
       ++ when (negb (is_some (snmp_user_auth_protocol user))) (err "snmp_user_priv_requires_auth" (at_ "priv_protocol"))
       ++ when (negb (is_some (snmp_user_privacy_secret user))) (err "snmp_user_priv_secret_required" (at_ "privacy_secret")))
  ++ on_some (snmp_user_auth_secret user) (fun s => check_secret_ref_shape s (at_ "auth_secret"))
  ++ on_some (snmp_user_privacy_secret user) (fun s => check_secret_ref_shape s (at_ "privacy_secret")).

(** A blank name is neither compared nor remembered. *)
Fixpoint check_snmp_users (seen : list string) (i : nat) (l : list SnmpUser) : list ConfigDiagnostic :=
  match l with
  | [] => []
  | user :: r =>
      let prefix := ("observability.snmp.users" +:+ idx i)%string in
      let '(ds, seen') :=
        if str_empty (trim (snmp_user_name user)) then (err "snmp_user_missing_name" (prefix +:+ ".name")%string, seen)
        else if one_of (snmp_user_name user) seen then (err "snmp_user_duplicate" (prefix +:+ ".name")%string, seen)
        else ([], seen ++ [snmp_user_name user]) in
      ds ++ check_snmp_user prefix user ++ check_snmp_users seen' (S i) r
  end.

Definition check_snmp (snmp : ObservabilitySnmp) : list ConfigDiagnostic :=
  let enabled := default false (observability_snmp_enabled snmp) in
  let pen := "observability.snmp.enterprise_id" in
  let placeholder code := if enabled then err code pen else warn code pen in
  let is_pen n := match observability_snmp_enterprise_id snmp with Some x => x =? n | None => false end in
  when (enabled && negb (is_some (observability_snmp_enterprise_id snmp))) (err "snmp_enterprise_id_required" pen)
  ++ when (is_pen 0) (err "snmp_enterprise_id_invalid" pen)
  ++ when (is_pen 99999) (placeholder "snmp_enterprise_id_placeholder")
  ++ when (is_pen 32473) (placeholder "snmp_enterprise_id_documentation")
  ++ on_some (observability_snmp_version snmp) (fun v =>
       when (negb (str_empty v) && negb (one_of (to_ascii_lowercase v) ["v3"; "3"]))
         (err "snmp_version_invalid" "observability.snmp.version"))
  ++ on_some (observability_snmp_engine_id snmp) check_engine_id
  ++ on_some (observability_snmp_trap_sinks snmp) (fun sinks =>
       each_indexed sinks (fun i sink =>
         when (negb (one_of sink (snmp_trap_name <$> observability_snmp_traps snmp)))
           (warn "snmp_trap_sink_unknown" ("observability.snmp.trap_sinks" +:+ idx i)%string)))
  ++ on_some (observability_snmp_users snmp) (check_snmp_users [] 0).

Definition check_observability (c : Config) : list ConfigDiagnostic :=
  on_some (config_observability c) (fun obs => on_some (observability_snmp obs) check_snmp).

Definition check_mcp (c : Config) : list ConfigDiagnostic :=
  on_some (config_mcp c) (fun mcp =>
    on_some (mcp_listen mcp) (fun listen =>
      if str_empty listen then []
      else match BindAddr_parse listen with
           | Ok (Tcp sock) =>
               when (negb (is_loopback (sa_ip sock)) && negb (some_true (mcp_expose mcp)))
                 (err "mcp_non_loopback_requires_expose" "mcp.listen")
           | Ok _ => []
           | Err _ => err "mcp_listen_invalid" "mcp.listen"
           end)
    ++ when (some_true (mcp_allow_secret_reveal mcp)) (err "mcp_secret_reveal_disallowed" "mcp.allow_secret_reveal")).

(** [x > 0.0] and [x <= n] on an [f64]: no comparison holds of a NaN. *)
Definition f64_positive (x : f64_value) : bool :=
  match x with F64 m _ => 0 <? m | F64PosInf => true | F64NegInf | F64NaN => false end.
Definition f64_at_most (x : f64_value) (n : Z) : bool :=
  match x with
  | F64 m e => if 0 <=? e then m * 2 ^ e <=? n else m <=? n * 2 ^ (- e)
  | F64NegInf => true
  | F64PosInf | F64NaN => false
  end.

Definition check_mem_hygiene (c : Config) : list ConfigDiagnostic :=
  on_some (config_mem_hygiene c) (fun mh =>
    check_positive_duration_field (mem_hygiene_interval mh) "mem_hygiene.interval"
    ++ check_size_field (mem_hygiene_growth_threshold mh) "mem_hygiene.growth_threshold"
    ++ check_size_field (mem_hygiene_growth_rate_per_min mh) "mem_hygiene.growth_rate_per_min"
    ++ on_some (mem_hygiene_min_rising_fraction mh) (fun x =>
         when (negb (f64_positive x && f64_at_most x 1))
           (err "mem_hygiene_min_rising_fraction_range" "mem_hygiene.min_rising_fraction"))
    ++ when (is_zero (mem_hygiene_window_samples mh)) (err "mem_hygiene_window_samples_zero" "mem_hygiene.window_samples")
    ++ check_size_field (mem_hygiene_rss_high mh) "mem_hygiene.rss_high"
    ++ on_some (mem_hygiene_cgroup_pressure_pct mh) (fun x =>
         when (negb (f64_positive x && f64_at_most x 100))
           (err "mem_hygiene_cgroup_pressure_pct_range" "mem_hygiene.cgroup_pressure_pct"))
    ++ when (is_some (mem_hygiene_cgroup_pressure_pct mh) && negb (some_true (mem_hygiene_cgroup_watch mh)))
         (warn "mem_hygiene_cgroup_pressure_without_watch" "mem_hygiene.cgroup_watch")).

Definition check_updater (c : Config) : list ConfigDiagnostic :=
  on_some (config_updater c) (fun u =>
    vocabulary (updater_mode u) ["off"; "check"; "warn"; "auto"] "updater_unknown_mode" "updater.mode"
    ++ vocabulary (updater_source u) ["github"; "url"; "static"] "updater_unknown_source" "updater.source"
    ++ when (is_some (updater_schedule u) && is_some (updater_interval u)) (err "updater_schedule_and_interval" "updater.schedule")
    ++ when (opt_is (updater_source u) "url")
         (when (negb (is_some (updater_url u))) (err "updater_url_required" "updater.url")
          ++ when (negb (is_some (updater_url_fingerprint u))) (err "updater_url_fingerprint_required" "updater.url_fingerprint"))
    ++ when (opt_is (updater_source u) "static" && negb (is_some (updater_static_dir u)))
         (err "updater_static_dir_required" "updater.static_dir")
    ++ on_some (updater_verify u) (fun v =>
         when (default true (updater_verify_require_minisign v) && negb (is_some (updater_verify_minisign_pubkey v)))
           (err "updater_minisign_pubkey_required" "updater.verify.minisign_pubkey")
         ++ when (some_false (updater_verify_require_minisign v))
              (warn "updater_minisign_disabled" "updater.verify.require_minisign"))
    ++ when (opt_is (updater_mode u) "auto" && negb (some_true (updater_enabled u)))
         (warn "updater_auto_but_disabled" "updater.enabled")).

Definition check_capabilities (c : Config) : list ConfigDiagnostic :=
  on_some (config_capabilities c) (fun cap =>
    let on f := some_true (f cap) in
    on_some (capabilities_ssh2_backend cap) (fun _ =>
      warn "capabilities_ssh2_backend_deprecated_t7" "capabilities.ssh2_backend")
    ++ when (is_some (capabilities_allow_libssh2 cap))
         (warn "capabilities_ssh2_backend_deprecated_t7" "capabilities.allow_libssh2")
    ++ when (on capabilities_require_post_quantum_kex && negb (on capabilities_allow_post_quantum_kex))
         (err "capabilities_pq_required_but_disabled" "capabilities.require_post_quantum_kex")
    ++ when (on capabilities_allow_ml_kem && negb (on capabilities_allow_post_quantum_kex))
         (warn "capabilities_ml_kem_without_pq" "capabilities.allow_ml_kem")
    ++ when (on capabilities_allow_windows_drive_mounts && negb (on capabilities_allow_filesystem_mounts))
         (err "capabilities_windows_drive_mounts_require_fs_mounts" "capabilities.allow_windows_drive_mounts")
    ++ when (on capabilities_allow_writeback_cache && negb (on capabilities_allow_filesystem_mounts))
         (err "capabilities_writeback_requires_fs_mounts" "capabilities.allow_writeback_cache")
    ++ when (on capabilities_allow_gssapi_delegation && negb (on capabilities_allow_gssapi) && negb (on capabilities_allow_sspi))
         (err "capabilities_gssapi_delegation_requires_provider" "capabilities.allow_gssapi_delegation")
    ++ when (on capabilities_allow_ntlm_fallback && negb (on capabilities_allow_sspi))
         (err "capabilities_ntlm_requires_sspi" "capabilities.allow_ntlm_fallback")).

Definition check_service (c : Config) : list ConfigDiagnostic :=
  on_some (config_service c) (fun service =>
    on_some (service_restart_policy service) (fun policy =>
      when (negb (one_of (to_ascii_lowercase policy) ["always"; "on-failure"; "on_failure"; "never"; "no"]))
        (err "service_restart_policy_invalid" "service.restart_policy"))
    ++ when (is_zero (service_watchdog_sec service)) (warn "service_watchdog_sec_zero" "service.watchdog_sec")).

Definition check_round_robin (c : Config) : list ConfigDiagnostic :=
  when (rc_dns_round_robin (config_round_robin c)) (warn "dns_round_robin_not_active" "round_robin.dns_round_robin").
End Tables.

(** ** Lists without an error *)

Definition is_error (d : ConfigDiagnostic) : bool := match cd_severity d with SevError => true | _ => false end.
Definition clean (l : list ConfigDiagnostic) : Prop := Forall (fun d => is_error d = false) l.

Lemma push_all_errors l : forall d, bn_errors (push_all d l) = bn_errors d ++ filter (fun x => is_error x = true) l.
Proof.
  unfold push_all. induction l as [|x l IH]; intros d; cbn [foldl]; [by rewrite app_nil_r|].
  rewrite IH, filter_cons. unfold push, is_error.
  destruct (cd_severity x); cbn [bn_errors]; [rewrite decide_True by done|rewrite decide_False by done..]; [|done..].
  by rewrite <- app_assoc.
Qed.

Lemma push_all_ok l : bundle_ok (push_all (mkBundle [] []) l) = true <-> clean l.
Proof.
  unfold bundle_ok. rewrite push_all_errors. cbn [bn_errors app]. unfold clean.
  induction l as [|x l IH]; [done|]. rewrite filter_cons, Forall_cons.
  destruct (is_error x) eqn:E; [rewrite decide_True by done|rewrite decide_False by done; tauto].
  split; [done|]. by intros [].
Qed.

Lemma clean_app a b : clean (a ++ b) <-> clean a /\ clean b.
Proof. apply Forall_app. Qed.

Lemma clean_nil : clean [] <-> True.
Proof. split; [done|]. intros _. constructor. Qed.

Lemma clean_err c p : clean (err c p) <-> False.
Proof. split; [|done]. intros H. by apply Forall_inv in H. Qed.

Lemma clean_warn c p : clean (warn c p) <-> True.
Proof. split; [done|]. intros _. by repeat constructor. Qed.

Lemma clean_when b l : clean (when b l) <-> (b = true -> clean l).
Proof. unfold when. destruct b; split; try done; [auto|intros _; constructor]. Qed.

Lemma clean_on_some {A} (o : option A) f : clean (on_some o f) <-> (forall x, o = Some x -> clean (f x)).
Proof.
  unfold on_some. destruct o as [a|].
  - split; [by intros H x [= <-]|auto].
  - split; [done|intros _; constructor].
Qed.

Lemma clean_collect {A} (f : A -> list ConfigDiagnostic) l : clean (collect f l) <-> (forall x, x ∈ l -> clean (f x)).
Proof.
  unfold collect. induction l as [|x l IH]; cbn; [split; [intros _ x H; by apply not_elem_of_nil in H|intros _; constructor]|].
  rewrite clean_app, IH. split.
  - intros [? ?] y [->|?]%elem_of_cons; auto.
  - intros H. split; [apply H; left|intros y Hy; apply H; by right].
Qed.

Lemma clean_each_indexed {A} (f : nat -> A -> list ConfigDiagnostic) l :
  clean (each_indexed l f) <-> (forall i x, l !! i = Some x -> clean (f i x)).
Proof.
  unfold each_indexed. revert f. induction l as [|x l IH]; intros f; cbn; [split; [done|intros _; constructor]|].
  rewrite clean_app. specialize (IH (f ∘ S)). rewrite IH. split.
  - intros [H0 H] [|i] y; cbn; [by intros [= <-]|apply H].
  - intros H. split; [by apply (H 0%nat)|]. intros i y Hy. by apply (H (S i)).
Qed.

Lemma one_of_elem s l : one_of s l = true <-> s ∈ l.
Proof.
  unfold one_of. rewrite existsb_exists. split.
  - intros (x & Hin & E). apply String.eqb_eq in E as ->. by apply list_elem_of_In.
  - intros H. exists s. split; [by apply list_elem_of_In|apply String.eqb_refl].
Qed.

(** A loop over names that pushes an error at each repeated one. *)
Lemma clean_each_named {A} (name : A -> string) (f : nat -> A -> bool -> list ConfigDiagnostic) l : forall seen i,
  (forall j x, ~ clean (f j x true)) -> NoDup seen ->
  clean (each_named name seen i l f) ->
  NoDup (seen ++ (name <$> l)) /\ forall j x, l !! j = Some x -> clean (f (i + j)%nat x false).
Proof.
  induction l as [|x l IH]; intros seen i Hdup Hnd Hc; cbn [each_named fmap list_fmap] in *.
  { rewrite app_nil_r. split; [done|]. intros j y H. by rewrite lookup_nil in H. }
  apply clean_app in Hc as [Hx Hc]. destruct (one_of (name x) seen) eqn:E; [by apply Hdup in Hx|].
  assert (~ name x ∈ seen) as Hnew by (intros H; apply one_of_elem in H; congruence).
  destruct (IH (seen ++ [name x]) (S i) Hdup) as [H1 H2]; [|done|].
  { apply NoDup_app. split_and!; [done| |by apply NoDup_singleton]. by intros y Hy ->%list_elem_of_singleton. }
  rewrite <- app_assoc in H1. split; [done|]. intros [|j] y; cbn.
  - intros [= <-]. by rewrite Nat.add_0_r.
  - intros Hy. rewrite Nat.add_succ_r. by apply H2.
Qed.

(** [vocabulary] accepts exactly the words. *)
Lemma clean_vocabulary o words c p : clean (vocabulary o words c p) <-> (forall s, o = Some s -> s ∈ words).
Proof.
  unfold vocabulary. rewrite clean_on_some. apply forall_proper. intros s.
  apply forall_proper. intros _. rewrite clean_when, clean_err. rewrite <- one_of_elem.
  destruct (one_of s words); cbn; split; done || auto.
Qed.

Create Rewrite HintDb clean.
#[export] Hint Rewrite clean_app clean_nil clean_err clean_warn clean_when @clean_on_some @clean_collect
  @clean_each_indexed clean_vocabulary : clean.
