(* ===== verification/ValidateProfile.v ===== *)
(** * Validation of profiles and forwards

    Models the checks of [crates/spt-config/src/validate.rs] on profiles,
    authentication, SFTP mounts and forwards, and [validate] itself.  The
    target operating system ([cfg(windows)]) is a parameter. *)

From S2P Require Import Prelude Text Errors Endpoint Ip RoundRobin Schema Address Policy Validate.

#[local] Infix "?>" := and_then (at level 40, left associativity).

(** [capabilities.and_then(|c| c.field) == Some(true)]. *)
Definition allows (capabilities : option Capabilities) (f : Capabilities -> option bool) : bool :=
  some_true (capabilities ?> f).

(** ** Key exchange *)

Definition POST_QUANTUM_KEX : list string :=
  ["mlkem768x25519-sha256"; "mlkem768x25519-sha256@openssh.com"; "mlkem768nistp256-sha256"; "mlkem1024nistp384-sha384";
   "sntrup761x25519-sha512"; "sntrup761x25519-sha512@openssh.com"].
Definition ML_KEM_KEX : list string :=
  ["mlkem768x25519-sha256"; "mlkem768x25519-sha256@openssh.com"; "mlkem768nistp256-sha256"; "mlkem1024nistp384-sha384"].

Definition contains_any_algorithm (configured known : list string) : bool :=
  existsb (fun algorithm => existsb (fun k => eq_str_ignore_ascii_case k algorithm) known) configured.

Definition check_profile_crypto (p : Profile) (capabilities : option Capabilities) (prefix : string) : list ConfigDiagnostic :=
  let kex := profile_crypto p ?> crypto_kex_algorithms in
  let has known := match kex with Some l => contains_any_algorithm l known | None => false end in
  let has_pq := has POST_QUANTUM_KEX in
  let at_kex := (prefix +:+ ".crypto.kex_algorithms")%string in
  when (has_pq && negb (profile_protocol p =? "ssh2")%string) (err "post_quantum_kex_requires_ssh2" at_kex)
  ++ when (has_pq && negb (allows capabilities capabilities_allow_post_quantum_kex))
       (err "post_quantum_kex_capability_disabled" "capabilities.allow_post_quantum_kex")
  ++ when (has ML_KEM_KEX && negb (allows capabilities capabilities_allow_ml_kem))
       (err "ml_kem_capability_disabled" "capabilities.allow_ml_kem")
  ++ when (allows capabilities capabilities_require_post_quantum_kex && (profile_protocol p =? "ssh2")%string)
       (match kex with
        | Some algorithms => when (negb (contains_any_algorithm algorithms POST_QUANTUM_KEX))
                               (err "post_quantum_kex_required_but_absent" at_kex)
        | None => warn "post_quantum_kex_required_without_explicit_list" at_kex
        end).

(** ** Base64 pins *)

(** [val]: the six bits of a character. *)
Definition base64_val (a : ascii) : option Z :=
  let c := code a in
  if (65 <=? c) && (c <=? 90) then Some (c - 65)
  else if (97 <=? c) && (c <=? 122) then Some (c - 97 + 26)
  else if (48 <=? c) && (c <=? 57) then Some (c - 48 + 52)
  else if c =? 43 then Some 62
  else if c =? 47 then Some 63
  else None.

Definition pad_char : ascii := "=".

(** [rev().take_while(|c| c == '=').count()]. *)
Fixpoint trailing_pads (s : string) : nat * bool :=
  match s with
  | EmptyString => (0%nat, true)
  | String a r =>
      let '(n, all) := trailing_pads r in
      if all && Ascii.eqb a pad_char then (S n, true) else (n, false)
  end.

(** Bytes of one chunk of four characters: [u8] arithmetic. *)
Definition decode_chunk (a b c d : ascii) : option (list Z) :=
  c0 ← base64_val a;
  c1 ← base64_val b;
  let b0 := Z.lor (wrap 8 (Z.shiftl c0 2)) (Z.shiftr c1 4) in
  if Ascii.eqb c pad_char then Some [b0]
  else
    c2 ← base64_val c;
    let b1 := Z.lor (wrap 8 (Z.shiftl (Z.land c1 0x0f) 4)) (Z.shiftr c2 2) in
    if Ascii.eqb d pad_char then Some [b0; b1]
    else
      c3 ← base64_val d;
      Some [b0; b1; Z.lor (wrap 8 (Z.shiftl (Z.land c2 0x03) 6)) c3].

Fixpoint decode_chunks (s : string) : option (list Z) :=
  match s with
  | EmptyString => Some []
  | String a (String b (String c (String d r))) =>
      out ← decode_chunk a b c d; rest ← decode_chunks r; Some (out ++ rest)
  | _ => None
  end.

Definition decode_base64_standard (s : string) : option (list Z) :=
  if negb (Z.of_nat (String.length s) mod 4 =? 0) then None
  else if str_empty s then Some []
  else
    let pad := (trailing_pads s).1 in
    if (2 <? pad)%nat then None
    else if contains_char pad_char (substring 0 (String.length s - pad) s) then None
    else decode_chunks s.

Definition decode_sha256_pin (pin : string) : bool :=
  let trimmed := trim pin in
  let b64 := match strip_prefix "sha256:" trimmed with
             | Some r => r
             | None => default trimmed (strip_prefix "SHA256:" trimmed)
             end in
  match decode_base64_standard b64 with Some bytes => (length bytes =? 32)%nat | None => false end.

(** ** SSH3 and deferred fields *)

Section Profiles.
Context `{!HumanTime, !ByteSizes} (windows : bool).

Definition check_profile_ssh3_tls (p : Profile) (prefix : string) : list ConfigDiagnostic :=
  let at_ s := (prefix +:+ "." +:+ s)%string in
  if negb (profile_protocol p =? "ssh3")%string then
    when (is_some (profile_tls p)) (warn "profile_tls_ignored_for_protocol" (at_ "tls"))
    ++ when (is_some (profile_ssh3 p)) (warn "profile_ssh3_ignored_for_protocol" (at_ "ssh3"))
  else
    on_some (profile_tls p) (fun tls =>
      let has_ca := match tls_ca_file tls with Some s => negb (str_empty s) | None => false end in
      let has_pin := match tls_pin_sha256 tls with Some v => negb (bool_decide (v = [])) | None => false end in
      on_some (tls_pin_sha256 tls) (collect (fun pin =>
        when (negb (decode_sha256_pin pin)) (err "profile_tls_pin_invalid" (at_ "tls.pin_sha256"))))
      ++ when (some_false (tls_system_roots tls) && negb has_ca && negb has_pin)
           (err "profile_tls_no_trust_anchor" (at_ "tls.system_roots"))
      ++ when (some_true (tls_allow_self_signed tls) && negb has_ca && negb has_pin)
           (err "profile_tls_self_signed_no_anchor" (at_ "tls.allow_self_signed")))
    ++ on_some (profile_ssh3 p) (fun ssh3 =>
         check_duration_field (ssh3_idle_timeout ssh3) (at_ "ssh3.idle_timeout")
         ++ check_duration_field (ssh3_keepalive ssh3) (at_ "ssh3.keepalive")
         ++ when (is_some (ssh3_draft ssh3)) (warn "ssh3_draft_no_effect" (at_ "ssh3.draft"))
         ++ when (some_false (ssh3_post_quantum ssh3)) (warn "ssh3_post_quantum_disabled" (at_ "ssh3.post_quantum"))).

Definition check_profile_deferred (p : Profile) (prefix : string) : list ConfigDiagnostic :=
  let at_ s := (prefix +:+ "." +:+ s)%string in
  check_profile_ssh3_tls p prefix
  ++ on_some (profile_connection p) (fun conn =>
       when (is_some (connection_channel_open_timeout conn))
         (warn "profile_connection_channel_open_timeout_not_applied" (at_ "connection.channel_open_timeout")))
  ++ when (is_some (profile_connect_timeout p)) (warn "profile_connect_timeout_superseded" (at_ "connect_timeout"))
  ++ on_some (profile_limits p) (fun l =>
       collect (fun '(field, set) => when (set : bool) (warn "profile_limits_not_applied" (at_ ("limits." +:+ field)%string)))
         [("max_active_connections", is_some (limits_max_active_connections l));
          ("max_bits_per_second_in", is_some (limits_max_bits_per_second_in l));
          ("max_bits_per_second_out", is_some (limits_max_bits_per_second_out l));
          ("throttle_algorithm", is_some (limits_throttle_algorithm l));
          ("max_connection_lifetime", is_some (limits_max_connection_lifetime l))]%string)
  ++ vocabulary (profile_dns_resolution p) ["per_attempt"; "once"; ""] "profile_dns_resolution_invalid" (at_ "dns_resolution").

(** ** Authentication *)

Definition normalize_auth_method (method : string) : string :=
  let m := to_ascii_lowercase (trim method) in
  if one_of m ["publickey"; "public-key"; "ssh3_public_key"] then "public_key"
  else if one_of m ["bearer_token"] then "bearer"
  else if one_of m ["http_basic"] then "basic"
  else if one_of m ["oidc"] then "oidc_device_flow"
  else if one_of m ["kerberos"; "gssapi-with-mic"; "gssapi_with_mic"] then "gssapi"
  else if one_of m ["negotiate"] then "sspi"
  else m.

Definition auth_methods : list string :=
  ["public_key"; "agent"; "password"; "keyboard_interactive"; "certificate"; "bearer"; "basic"; "oidc_device_flow"; "gssapi"; "sspi"].

Definition check_gssapi (auth : Auth) (protocol : string) (capabilities : option Capabilities) (prefix : string) : list ConfigDiagnostic :=
  let at_ s := (prefix +:+ "." +:+ s)%string in
  warn "auth_gssapi_unsupported_backend" (at_ "method")
  ++ when (negb (protocol =? "ssh2")%string) (err "gssapi_requires_ssh2" (at_ "method"))
  ++ when (negb (allows capabilities capabilities_allow_gssapi)) (err "gssapi_capability_disabled" "capabilities.allow_gssapi")
  ++ when (some_true (auth_gssapi_delegate auth) && negb (allows capabilities capabilities_allow_gssapi_delegation))
       (err "gssapi_delegation_capability_disabled" "capabilities.allow_gssapi_delegation")
  ++ check_non_empty_string (auth_gssapi_service auth) (at_ "gssapi_service")
  ++ check_non_empty_string (auth_gssapi_principal auth) (at_ "gssapi_principal").

Definition check_sspi (auth : Auth) (protocol : string) (capabilities : option Capabilities) (prefix : string) : list ConfigDiagnostic :=
  let at_ s := (prefix +:+ "." +:+ s)%string in
  warn "auth_sspi_unsupported_backend" (at_ "method")
  ++ when (negb (protocol =? "ssh2")%string) (err "sspi_requires_ssh2" (at_ "method"))
  ++ when (negb (allows capabilities capabilities_allow_sspi)) (err "sspi_capability_disabled" "capabilities.allow_sspi")
  ++ when (some_true (auth_sspi_delegate auth) && negb (allows capabilities capabilities_allow_gssapi_delegation))
       (err "sspi_delegation_capability_disabled" "capabilities.allow_gssapi_delegation")
  ++ when (some_true (auth_sspi_allow_ntlm_fallback auth) && negb (allows capabilities capabilities_allow_ntlm_fallback))
       (err "sspi_ntlm_capability_disabled" "capabilities.allow_ntlm_fallback")
  ++ when (negb windows) (warn "sspi_windows_only" (at_ "method"))
  ++ check_non_empty_string (auth_sspi_service auth) (at_ "sspi_service")
  ++ check_non_empty_string (auth_sspi_principal auth) (at_ "sspi_principal").

Definition check_auth (auth : Auth) (protocol : string) (capabilities : option Capabilities) (prefix : string) : list ConfigDiagnostic :=
  let method := trim (auth_method auth) in
  let at_method := (prefix +:+ ".method")%string in
  (if str_empty method then err "auth_method_missing" at_method
   else when (negb (one_of (normalize_auth_method method) auth_methods)) (err "auth_method_invalid" at_method))
  ++ (if (normalize_auth_method method =? "gssapi")%string then check_gssapi auth protocol capabilities prefix
      else if (normalize_auth_method method =? "sspi")%string then check_sspi auth protocol capabilities prefix
      else [])
  ++ collect (fun '(label, val) => on_some val (fun s => check_secret_ref_shape s (prefix +:+ "." +:+ label)%string))
       [("passphrase", auth_passphrase auth); ("password", auth_password auth); ("token", auth_token auth)]%string.

(** ** SFTP mounts *)

Definition is_ascii_alphabetic (a : ascii) : bool :=
  let c := code a in ((65 <=? c) && (c <=? 90)) || ((97 <=? c) && (c <=? 122)).

(** [trimmed.len() != 1 || !trimmed.as_bytes()[0].is_ascii_alphabetic()]. *)
Definition drive_letter_invalid (letter : string) : bool :=
  match trim_end_matches ":" letter with String a EmptyString => negb (is_ascii_alphabetic a) | _ => true end.

(** [o.as_deref().is_some_and(|v| !v.trim().is_empty())]. *)
Definition opt_filled (o : option string) : bool := match o with Some v => negb (str_empty (trim v)) | None => false end.

Definition check_sftp_mount (protocol : string) (capabilities : option Capabilities) (mount : SftpMount) (i j : nat) : list ConfigDiagnostic :=
  let prefix := ("profiles" +:+ idx i +:+ ".sftp_mounts" +:+ idx j)%string in
  let at_ s := (prefix +:+ "." +:+ s)%string in
  let has_mount_point := opt_filled (sftp_mount_mount_point mount) in
  let has_drive_letter := opt_filled (sftp_mount_drive_letter mount) in
  when (str_empty (trim (sftp_mount_name mount))) (err "sftp_mount_missing_name" (at_ "name"))
  ++ when (str_empty (trim (sftp_mount_remote_path mount))) (err "sftp_mount_missing_remote_path" (at_ "remote_path"))
  ++ when (negb (protocol =? "ssh2")%string) (err "sftp_mount_requires_ssh2" (at_ "remote_path"))
  ++ when (negb (allows capabilities capabilities_allow_sftp)) (err "sftp_capability_disabled" "capabilities.allow_sftp")
  ++ when (negb (allows capabilities capabilities_allow_filesystem_mounts))
       (err "sftp_mount_capability_disabled" "capabilities.allow_filesystem_mounts")
  ++ match has_mount_point, has_drive_letter with
     | true, true => err "sftp_mount_single_local_target" (at_ "mount_point")
     | false, false => err "sftp_mount_missing_local_target" (at_ "mount_point")
     | _, _ => []
     end
  ++ when has_drive_letter
       (when (negb (allows capabilities capabilities_allow_windows_drive_mounts))
          (err "sftp_drive_capability_disabled" "capabilities.allow_windows_drive_mounts")
        ++ on_some (sftp_mount_drive_letter mount) (fun letter =>
             when (drive_letter_invalid letter) (err "sftp_drive_letter_invalid" (at_ "drive_letter"))))
  ++ on_some (sftp_mount_cache mount) (fun cache =>
       when (negb (one_of cache ["none"; "metadata"; "writeback"])) (err "sftp_mount_cache_invalid" (at_ "cache"))
       ++ when ((cache =? "writeback")%string && negb (allows capabilities capabilities_allow_writeback_cache))
            (err "sftp_writeback_capability_disabled" "capabilities.allow_writeback_cache")).

(** ** Dynamic forwards *)

(** [str::replace('-', "_")]. *)
Fixpoint dash_to_underscore (s : string) : string :=
  match s with
  | EmptyString => EmptyString
  | String a r => String (if Ascii.eqb a "-" then "_"%char else a) (dash_to_underscore r)
  end.

Definition normalize_dynamic_proxy_protocol (value : string) : option string :=
  let v := dash_to_underscore (to_ascii_lowercase (trim value)) in
  if (v =? "all")%string then Some "all"
  else if (v =? "socks4")%string then Some "socks4"
  else if (v =? "socks4a")%string then Some "socks4a"
  else if (v =? "socks5")%string then Some "socks5"
  else if one_of v ["http"; "http_connect"; "connect"] then Some "http_connect"
  else None.

(** The loop over the listed protocols, and the names it has seen. *)
Fixpoint check_protocols (prefix : string) (seen : list string) (i : nat) (l : list string) : list ConfigDiagnostic * list string :=
  match l with
  | [] => ([], seen)
  | value :: r =>
      let at_i := (prefix +:+ ".proxy_protocols" +:+ idx i)%string in
      let '(ds, seen') :=
        match normalize_dynamic_proxy_protocol value with
        | None => (err "dynamic_proxy_protocol_invalid" at_i, seen)
        | Some canonical =>
            if one_of canonical seen then (warn "dynamic_proxy_protocol_duplicate" at_i, seen)
            else ([], seen ++ [canonical])
        end in
      let '(rest, out) := check_protocols prefix seen' (S i) r in (ds ++ rest, out)
  end.

Definition check_dynamic_proxy_protocols (f : Forward) (prefix : string) : list ConfigDiagnostic :=
  on_some (forward_proxy_protocols f) (fun values =>
    match values with
    | [] => err "dynamic_proxy_protocols_empty" (prefix +:+ ".proxy_protocols")%string
    | _ =>
        let '(ds, seen) := check_protocols prefix [] 0 values in
        ds ++ when (one_of "all" seen && (1 <? length seen)%nat)
                (warn "dynamic_proxy_protocol_all_overrides" (prefix +:+ ".proxy_protocols")%string)
    end).

(** [check_target_acl_pattern]: whether the pattern is accepted. *)
Definition check_target_acl_pattern (pattern : string) : bool :=
  let p := trim pattern in
  if str_empty p then false
  else
    match split_once "/" p with
    | Some (addr, prefix) =>
        match parse_ip addr with
        | Some ip =>
            match parse_uint 8 prefix with
            | Some bits => bits <=? (if is_ipv4 ip then 32 else 128)
            | None => false
            end
        | None => true
        end
    | None => true
    end.

Definition check_dynamic_target_acl (f : Forward) (prefix : string) : list ConfigDiagnostic :=
  collect (fun '(field, list) =>
    on_some list (fun patterns =>
      each_indexed patterns (fun i raw =>
        when (negb (check_target_acl_pattern raw)) (err "target_acl_pattern_invalid" (prefix +:+ "." +:+ field +:+ idx i)%string))))
    [("allow_targets", forward_allow_targets f); ("deny_targets", forward_deny_targets f)]%string.

(** ** Forwards *)

Definition check_forward_interface_names_allowed (allowed names : list string) (prefix : string) : list ConfigDiagnostic :=
  collect (fun name => when (negb (str_empty (trim name)) && negb (one_of name allowed))
    (err "forward_interface_not_allowed" (prefix +:+ ".bind_interface")%string)) names.

Definition check_forward_interface_names_denied (denied names : list string) (prefix : string) : list ConfigDiagnostic :=
  collect (fun name => when (one_of name denied)
    (err "forward_interface_denied" (prefix +:+ ".bind_interface")%string)) names.

(** [bind_interface.iter()]: no name or one. *)
Definition option_names (o : option string) : list string := match o with Some n => [n] | None => [] end.

Definition check_forward_network_interface_policy (interface : option NetworkInterface) (f : Forward)
    (is_loopback_bind is_wildcard_bind : bool) (prefix : string) : list ConfigDiagnostic :=
  on_some interface (fun interface =>
    when (is_wildcard_bind && some_false (network_interface_allow_all_interfaces interface))
      (err "wildcard_bind_disallowed_by_network_policy" (prefix +:+ ".bind")%string)
    ++ when (negb is_loopback_bind
             && some_true (network_interface_require_explicit_interface interface)
             && str_empty (trim (default "" (forward_bind_interface f)))
             && match forward_bind_interface_preference f with
                | Some preference => forallb (fun name => str_empty (trim name)) preference
                | None => true
                end)
         (err "forward_requires_explicit_interface" (prefix +:+ ".bind_interface")%string)
    ++ on_some (network_interface_allowed_interfaces interface) (fun allowed =>
         check_forward_interface_names_allowed allowed (option_names (forward_bind_interface f)) prefix
         ++ on_some (forward_bind_interface_preference f) (fun preference =>
              check_forward_interface_names_allowed allowed preference prefix))
    ++ on_some (network_interface_denied_interfaces interface) (fun denied =>
         check_forward_interface_names_denied denied (option_names (forward_bind_interface f)) prefix
         ++ on_some (forward_bind_interface_preference f) (fun preference =>
              check_forward_interface_names_denied denied preference prefix))).

Definition check_forward_link_kind (f : Forward) (prefix : string) : list ConfigDiagnostic :=
  let at_ s := (prefix +:+ "." +:+ s)%string in
  let link_kind := forward_link_kind f in
  let link_is_udp := opt_is link_kind "udp" in
  let remote_empty := negb (opt_filled (forward_remote_socket_path f)) in
  vocabulary link_kind ["tcp"; "local_uds"; "remote_uds"; "udp"] "forward_link_kind_invalid" (at_ "kind")
  ++ when (link_is_udp && negb (is_some (forward_udp_mode f))) (err "forward_udp_link_requires_udp_mode" (at_ "udp_mode"))
  ++ when (is_some (forward_udp_mode f) && negb link_is_udp) (err "forward_udp_mode_requires_udp_link_kind" (at_ "udp_mode"))
  ++ when (opt_is link_kind "local_uds" && remote_empty)
       (err "forward_local_uds_requires_remote_socket_path" (at_ "remote_socket_path"))
  ++ when (opt_is link_kind "remote_uds")
       (when remote_empty (err "forward_remote_uds_requires_remote_socket_path" (at_ "remote_socket_path"))
        ++ (let local := trim (default "" (forward_local_socket_path f)) in
            if str_empty local then err "forward_remote_uds_requires_local_socket_path" (at_ "local_socket_path")
            else when (negb (starts_with "/" local))
                   (err "forward_remote_uds_local_socket_path_relative" (at_ "local_socket_path")))).

(** The branch of a dynamic forward, and the other one. *)
Definition check_forward_dynamic (protocol : string) (capabilities : option Capabilities) (f : Forward) (prefix : string) : list ConfigDiagnostic :=
  let at_ s := (prefix +:+ "." +:+ s)%string in
  if (forward_kind f =? "dynamic")%string then
    when (negb (forward_transport f =? "tcp")%string) (err "dynamic_forward_requires_tcp" (at_ "transport"))
    ++ when (negb (protocol =? "ssh2")%string) (err "dynamic_forward_requires_ssh2" (at_ "type"))
    ++ when (negb (allows capabilities capabilities_allow_dynamic_proxy))
         (err "dynamic_proxy_capability_disabled" "capabilities.allow_dynamic_proxy")
    ++ when (is_some (forward_target f) || is_some (forward_connect f)) (warn "dynamic_forward_ignores_target" (at_ "target"))
    ++ check_dynamic_proxy_protocols f prefix
    ++ check_dynamic_target_acl f prefix
  else
    when (is_some (forward_proxy_protocols f))
      (err "dynamic_proxy_protocols_require_dynamic_forward" (at_ "proxy_protocols"))
    ++ when (is_some (forward_allow_targets f) || is_some (forward_deny_targets f))
         (err "target_acl_requires_dynamic_forward" (at_ "allow_targets")).

Definition bind_str (f : Forward) : option string :=
  match forward_bind f with Some b => Some b | None => forward_listen f end.
Definition target_str (f : Forward) : option string :=
  match forward_target f with Some t => Some t | None => forward_connect f end.

Definition check_forward_bind (network_interface : option NetworkInterface) (f : Forward) (prefix : string) : list ConfigDiagnostic :=
  let at_bind := (prefix +:+ ".bind")%string in
  match bind_str f with
  | Some b =>
      match BindAddr_parse b with
      | Ok (Tcp sock) =>
          let exposed := some_true (forward_expose f) in
          let ip := sa_ip sock in
          (if negb (is_loopback ip) && negb (is_unspecified ip) && negb exposed
           then warn "non_loopback_bind_without_expose" at_bind
           else when (is_unspecified ip && negb exposed) (err "wildcard_bind_without_expose" at_bind))
          ++ check_forward_network_interface_policy network_interface f (is_loopback ip) (is_unspecified ip) prefix
      | Ok _ => []
      | Err _ => err "forward_bind_invalid" at_bind
      end
  | None => when (one_of (forward_kind f) ["local"; "dynamic"]) (err "local_forward_missing_bind" at_bind)
  end.

Definition check_forward_target (f : Forward) (prefix : string) : list ConfigDiagnostic :=
  if (forward_kind f =? "dynamic")%string then []
  else
    match target_str f with
    | Some t => when (negb (is_ok (BindAddr_parse t))) (err "forward_target_invalid" (prefix +:+ ".target")%string)
    | None => when (one_of (forward_kind f) ["local"; "remote"]) (err "local_forward_missing_target" (prefix +:+ ".target")%string)
    end.

Definition check_forward_bind_mode (f : Forward) (prefix : string) : list ConfigDiagnostic :=
  on_some (forward_bind_mode f) (fun mode =>
    if negb (one_of mode ["loopback"; "specific_ip"; "specific_interface"; "all_interfaces"; "auto_interface"])
    then err "forward_bind_mode_invalid" (prefix +:+ ".bind_mode")%string
    else when (one_of mode ["specific_interface"; "all_interfaces"; "auto_interface"] && negb (some_true (forward_expose f)))
           (err "forward_bind_mode_without_expose" (prefix +:+ ".bind_mode")%string)).

Definition check_forward (protocol : string) (capabilities : option Capabilities) (network_interface : option NetworkInterface)
    (f : Forward) (i j : nat) : list ConfigDiagnostic :=
  let prefix := ("profiles" +:+ idx i +:+ ".forwards" +:+ idx j)%string in
  let at_ s := (prefix +:+ "." +:+ s)%string in
  when (str_empty (trim (forward_name f))) (err "forward_name_empty" (at_ "name"))
  ++ when (negb (one_of (forward_kind f) ["local"; "remote"; "dynamic"])) (err "forward_type_invalid" (at_ "type"))
  ++ when (negb (one_of (forward_transport f) ["tcp"; "udp"])) (err "forward_transport_invalid" (at_ "transport"))
  ++ check_forward_dynamic protocol capabilities f prefix
  ++ when ((forward_transport f =? "udp")%string && negb (protocol =? "ssh3")%string) (err "udp_requires_ssh3" (at_ "transport"))
  ++ when (is_some (forward_udp_mode f) && (protocol =? "ssh3")%string) (warn "udp_mode_ignored_on_ssh3" (at_ "udp_mode"))
  ++ when (is_some (forward_max_datagram_size f) && negb (forward_transport f =? "udp")%string)
       (warn "forward_max_datagram_size_ignored_non_udp" (at_ "max_datagram_size"))
  ++ when ((forward_kind f =? "remote")%string && negb (is_some (bind_str f))) (err "remote_forward_missing_bind" (at_ "bind"))
  ++ check_forward_bind network_interface f prefix
  ++ check_forward_target f prefix
  ++ check_forward_bind_mode f prefix
  ++ vocabulary (forward_bind_ipv6 f) ["auto"; "prefer"; "disable"] "forward_bind_ipv6_invalid" (at_ "bind_ipv6")
  ++ vocabulary (forward_on_bind_conflict f) ["fail"; "retry"; "next_port"]
       "forward_on_bind_conflict_invalid" (at_ "on_bind_conflict")
  ++ check_size_field (forward_max_bytes_per_second_in f) (at_ "max_bytes_per_second_in")
  ++ check_size_field (forward_max_bytes_per_second_out f) (at_ "max_bytes_per_second_out")
  ++ check_duration_field (forward_idle_timeout f) (at_ "idle_timeout")
  ++ check_duration_field (forward_udp_idle_timeout f) (at_ "udp_idle_timeout")
  ++ check_forward_link_kind f prefix
  ++ vocabulary (forward_target_resolve f) ["local"; "remote"; "previous-hop"]
       "forward_target_resolve_invalid" (at_ "target_resolve")
  ++ when (is_some (forward_sni_name f)) (warn "forward_sni_name_no_effect" (at_ "sni_name")).

(** ** Profiles *)

Definition check_endpoint (p : Profile) (capabilities : option Capabilities) (prefix : string) (j : nat) (ep : Endpoint) (dup : bool)
    : list ConfigDiagnostic :=
  let at_ s := (prefix +:+ ".endpoints" +:+ idx j +:+ "." +:+ s)%string in
  when dup (err "duplicate_endpoint_id" (at_ "name"))
  ++ when (str_empty (endpoint_host ep)) (err "endpoint_missing_host" (at_ "host"))
  ++ on_some (endpoint_auth ep) (fun auth => check_auth auth (profile_protocol p) capabilities (at_ "auth")).

Definition check_hop (capabilities : option Capabilities) (prefix : string) (j : nat) (hop : Hop) : list ConfigDiagnostic :=
  let at_ s := (prefix +:+ ".hops" +:+ idx j +:+ "." +:+ s)%string in
  when (str_empty (hop_host hop)) (err "hop_missing_host" (at_ "host"))
  ++ when (negb (str_empty (hop_protocol hop)) && negb (one_of (hop_protocol hop) ["ssh2"; "ssh3"]))
       (err "hop_protocol_invalid" (at_ "protocol"))
  ++ vocabulary (hop_target_resolve hop) ["local"; "remote"; "previous-hop"] "hop_target_resolve_invalid" (at_ "target_resolve")
  ++ on_some (hop_auth hop) (fun auth => check_auth auth (hop_protocol hop) capabilities (at_ "auth")).

Definition check_protocol (p : Profile) (prefix : string) : list ConfigDiagnostic :=
  let at_ s := (prefix +:+ "." +:+ s)%string in
  if (profile_protocol p =? "ssh2")%string then
    when (opt_empty (profile_host p) && bool_decide (length (profile_endpoints p) = 0%nat)) (err "ssh2_missing_host" (at_ "host"))
  else if (profile_protocol p =? "ssh3")%string then
    when (opt_empty (profile_endpoint p)) (err "ssh3_missing_endpoint" (at_ "endpoint"))
    ++ when (negb (some_true (profile_acknowledge_experimental p))) (err "ssh3_experimental_unack" (at_ "acknowledge_experimental"))
  else err "protocol_invalid" (at_ "protocol").

Definition check_failover (p : Profile) (prefix : string) : list ConfigDiagnostic :=
  let at_ s := (prefix +:+ ".failover." +:+ s)%string in
  on_some (profile_failover p) (fun failover =>
    vocabulary (failover_mode failover) ["priority"; "weighted"; "manual"] "failover_mode_invalid" (at_ "mode")
    ++ when (is_zero (failover_fail_after failover)) (err "failover_fail_after_zero" (at_ "fail_after"))
    ++ on_some (failover_health_check failover) (fun style =>
         when (negb (one_of style ["tcp_connect"; "ssh_handshake"; "ssh_auth_preflight"; "ssh3_endpoint"]))
           (err "failover_health_check_unimplemented" (at_ "health_check"))
         ++ when ((style =? "ssh3_endpoint")%string && (profile_protocol p =? "ssh2")%string)
              (err "health_check_protocol_mismatch" (at_ "health_check")))
    ++ check_duration_field (failover_restore_after failover) (at_ "restore_after")).

Definition check_profile (i : nat) (p : Profile) (capabilities : option Capabilities) (network_interface : option NetworkInterface)
    : list ConfigDiagnostic :=
  let prefix := ("profiles" +:+ idx i)%string in
  let at_ s := (prefix +:+ "." +:+ s)%string in
  check_protocol p prefix
  ++ each_named endpoint_name [] 0 (profile_endpoints p) (check_endpoint p capabilities prefix)
  ++ on_some (profile_auth p) (fun auth => check_auth auth (profile_protocol p) capabilities (at_ "auth"))
  ++ check_profile_crypto p capabilities prefix
  ++ check_profile_deferred p prefix
  ++ each_indexed (profile_hops p) (check_hop capabilities prefix)
  ++ each_named forward_name [] 0 (profile_forwards p) (fun j f dup =>
       when dup (err "duplicate_forward_id" (prefix +:+ ".forwards" +:+ idx j +:+ ".name")%string)
       ++ check_forward (profile_protocol p) capabilities network_interface f i j)
  ++ each_named sftp_mount_name [] 0 (profile_sftp_mounts p) (fun j mount dup =>
       when dup (err "duplicate_sftp_mount_id" (prefix +:+ ".sftp_mounts" +:+ idx j +:+ ".name")%string)
       ++ check_sftp_mount (profile_protocol p) capabilities mount i j)
  ++ on_some (profile_limits p) (fun l =>
       check_size_field (limits_max_bytes_per_second_in l) (at_ "limits.max_bytes_per_second_in")
       ++ check_size_field (limits_max_bytes_per_second_out l) (at_ "limits.max_bytes_per_second_out"))
  ++ on_some (profile_reconnect p) (fun r =>
       check_duration_field (reconnect_initial_delay r) (at_ "reconnect.initial_delay")
       ++ check_duration_field (reconnect_max_delay r) (at_ "reconnect.max_delay")
       ++ check_duration_field (reconnect_reset_after r) (at_ "reconnect.reset_after"))
  ++ on_some (profile_keepalive p) (fun k =>
       check_positive_duration_field (keepalive_interval k) (at_ "keepalive.interval")
       ++ check_positive_duration_field (keepalive_timeout k) (at_ "keepalive.timeout"))
  ++ check_failover p prefix.

Definition check_profiles (c : Config) : list ConfigDiagnostic :=
  each_named profile_name [] 0 (config_profiles c) (fun i p dup =>
    when dup (err "duplicate_profile_id" ("profiles" +:+ idx i +:+ ".name")%string)
    ++ check_profile i p (config_capabilities c) (config_network c ?> network_interface)).

(** ** [validate] *)

Definition diagnostics (c : Config) : list ConfigDiagnostic :=
  check_version c ++ check_runtime c ++ check_logging c ++ check_secrets c ++ check_events c ++ check_dns c ++
  check_firewall c ++ check_network c ++ check_observability c ++ check_status_api c ++ check_mcp c ++
  check_mem_hygiene c ++ check_updater c ++ check_capabilities c ++ check_service c ++ check_profiles c ++
  check_round_robin c.

Definition validate (c : Config) : Bundle := push_all (mkBundle [] []) (diagnostics c).
End Profiles.
