(* ===== verification/Base64.v ===== *)
(** * Base64 pins

    The decoder of [validate.rs] against the encoding of RFC 4648, and what it
    makes of certificate pins. *)

From S2P Require Import Prelude Bytes Text Validate ValidateProfile.

(** ** The encoding *)

(** The character of six bits. *)
Definition enc_char (v : Z) : ascii :=
  ascii_of_nat (Z.to_nat (if v <? 26 then 65 + v else if v <? 52 then 71 + v else if v <? 62 then v - 4 else if v =? 62 then 43 else 47)).

(** Three bytes are four characters; what is left over is padded. *)
Fixpoint encode (l : list Z) : string :=
  match l with
  | [] => ""
  | [a] => String (enc_char (a / 4)) (String (enc_char (a mod 4 * 16)) "==")
  | [a; b] => String (enc_char (a / 4)) (String (enc_char (a mod 4 * 16 + b / 16)) (String (enc_char (b mod 16 * 4)) "="))
  | a :: b :: c :: r =>
      String (enc_char (a / 4)) (String (enc_char (a mod 4 * 16 + b / 16))
        (String (enc_char (b mod 16 * 4 + c / 64)) (String (enc_char (c mod 64)) (encode r))))
  end.

(** ** Six-bit arithmetic, by exhaustion *)

Definition sextets : list Z := zrange 64.

Lemma sextet_elem v : 0 <= v < 64 -> v ∈ sextets.
Proof. intros H. unfold sextets, zrange. apply list_elem_of_fmap. exists (Z.to_nat v). split; [lia|]. apply elem_of_seq. lia. Qed.

Lemma sextet_forall (f : Z -> bool) : forallb f sextets = true -> forall v, 0 <= v < 64 -> f v = true.
Proof. intros H v Hv. rewrite forallb_forall in H. apply H, list_elem_of_In, sextet_elem, Hv. Qed.

(** A character of the alphabet: its value, and what it is not. *)
Definition plain_char (v : Z) : bool :=
  match base64_val (enc_char v) with Some w => w =? v | None => false end
  && negb (Ascii.eqb (enc_char v) "=") && negb (Ascii.eqb (enc_char v) ":")
  && (code (enc_char v) <? 128) && negb (ascii_ws (enc_char v)).

Lemma enc_char_plain v : 0 <= v < 64 -> plain_char v = true.
Proof. apply (sextet_forall plain_char). vm_compute. reflexivity. Qed.

Lemma enc_char_val v : 0 <= v < 64 -> base64_val (enc_char v) = Some v.
Proof.
  intros H. apply enc_char_plain in H. unfold plain_char in H. destruct (base64_val (enc_char v)); [|done].
  f_equal. rewrite !andb_true_iff in H. lia.
Qed.

Lemma enc_char_not_pad v : 0 <= v < 64 -> Ascii.eqb (enc_char v) pad_char = false.
Proof. intros H. apply enc_char_plain in H. unfold plain_char in H. rewrite !andb_true_iff in H. apply negb_true_iff, H. Qed.

Lemma chunk_bits c d : 0 <= c < 64 -> 0 <= d < 64 ->
  Z.lor (wrap 8 (Z.shiftl c 2)) (Z.shiftr d 4) = c * 4 + d / 16 /\
  Z.lor (wrap 8 (Z.shiftl (Z.land c 0x0f) 4)) (Z.shiftr d 2) = c mod 16 * 16 + d / 4 /\
  Z.lor (wrap 8 (Z.shiftl (Z.land c 0x03) 6)) d = c mod 4 * 64 + d.
Proof.
  intros Hc Hd.
  pose proof (sextet_forall (fun c => forallb (fun d =>
    (Z.lor (wrap 8 (Z.shiftl c 2)) (Z.shiftr d 4) =? c * 4 + d / 16) &&
    (Z.lor (wrap 8 (Z.shiftl (Z.land c 0x0f) 4)) (Z.shiftr d 2) =? c mod 16 * 16 + d / 4) &&
    (Z.lor (wrap 8 (Z.shiftl (Z.land c 0x03) 6)) d =? c mod 4 * 64 + d)) sextets) ltac:(vm_compute; reflexivity) c Hc) as H.
  apply (sextet_forall _ H) in Hd. rewrite !andb_true_iff, !Z.eqb_eq in Hd. tauto.
Qed.

Lemma chunk_hi c d : 0 <= c < 64 -> 0 <= d < 64 -> Z.lor (wrap 8 (Z.shiftl c 2)) (Z.shiftr d 4) = c * 4 + d / 16.
Proof. apply chunk_bits. Qed.
Lemma chunk_mid c d : 0 <= c < 64 -> 0 <= d < 64 -> Z.lor (wrap 8 (Z.shiftl (Z.land c 0x0f) 4)) (Z.shiftr d 2) = c mod 16 * 16 + d / 4.
Proof. apply chunk_bits. Qed.
Lemma chunk_lo c d : 0 <= c < 64 -> 0 <= d < 64 -> Z.lor (wrap 8 (Z.shiftl (Z.land c 0x03) 6)) d = c mod 4 * 64 + d.
Proof. apply chunk_bits. Qed.

(** ** Decoding what was encoded *)

(** Three bytes at a time. *)
Lemma triple_ind (P : list Z -> Prop) :
  P [] -> (forall a, P [a]) -> (forall a b, P [a; b]) -> (forall a b c r, P r -> P (a :: b :: c :: r)) -> forall l, P l.
Proof.
  intros H0 H1 H2 H3. fix IH 1. intros [|a [|b [|c r]]]; [exact H0|apply H1|apply H2|apply H3, IH].
Qed.

#[local] Ltac in_range := Z.to_euclidean_division_equations; lia.

#[local] Ltac bytes_equal := apply f_equal; repeat (apply f_equal2; [in_range|]); done.

Lemma decode_chunk_3 a b c :
  byte_ok a -> byte_ok b -> byte_ok c ->
  decode_chunk (enc_char (a / 4)) (enc_char (a mod 4 * 16 + b / 16)) (enc_char (b mod 16 * 4 + c / 64)) (enc_char (c mod 64)) = Some [a; b; c].
Proof.
  unfold byte_ok. intros Ha Hb Hc.
  assert (0 <= a / 4 < 64) by in_range. assert (0 <= a mod 4 * 16 + b / 16 < 64) by in_range.
  assert (0 <= b mod 16 * 4 + c / 64 < 64) by in_range. assert (0 <= c mod 64 < 64) by in_range.
  unfold decode_chunk. rewrite !enc_char_val, !enc_char_not_pad by done. cbn [mbind option_bind].
  rewrite chunk_hi, chunk_mid, chunk_lo by done.
  bytes_equal.
Qed.

Lemma decode_chunk_2 a b :
  byte_ok a -> byte_ok b ->
  decode_chunk (enc_char (a / 4)) (enc_char (a mod 4 * 16 + b / 16)) (enc_char (b mod 16 * 4)) pad_char = Some [a; b].
Proof.
  unfold byte_ok. intros Ha Hb.
  assert (0 <= a / 4 < 64) by in_range. assert (0 <= a mod 4 * 16 + b / 16 < 64) by in_range. assert (0 <= b mod 16 * 4 < 64) by in_range.
  unfold decode_chunk. rewrite !enc_char_val, !enc_char_not_pad by done. cbn [mbind option_bind].
  rewrite chunk_hi, chunk_mid by done.
  change (Ascii.eqb pad_char pad_char) with true. cbv iota. bytes_equal.
Qed.

Lemma decode_chunk_1 a :
  byte_ok a -> decode_chunk (enc_char (a / 4)) (enc_char (a mod 4 * 16)) pad_char pad_char = Some [a].
Proof.
  unfold byte_ok. intros Ha. assert (0 <= a / 4 < 64) by in_range. assert (0 <= a mod 4 * 16 < 64) by in_range.
  unfold decode_chunk. rewrite !enc_char_val by done. cbn [mbind option_bind].
  rewrite chunk_hi by done.
  change (Ascii.eqb pad_char pad_char) with true. cbv iota. bytes_equal.
Qed.

Lemma decode_chunks_encode l : Forall byte_ok l -> decode_chunks (encode l) = Some l.
Proof.
  induction l as [|a|a b|a b c r IH] using triple_ind; intros H; [done| | |];
    repeat (apply Forall_cons in H as [? H]); cbn [encode decode_chunks].
  - change "="%char with pad_char. by rewrite decode_chunk_1.
  - change "="%char with pad_char. by rewrite decode_chunk_2.
  - rewrite decode_chunk_3 by done. cbn [mbind option_bind]. by rewrite IH.
Qed.

(** ** The shape of the text *)

Fixpoint pads (k : nat) : string := match k with O => "" | S k => String pad_char (pads k) end.

Lemma trailing_pads_app s t k :
  no_char pad_char s = true -> trailing_pads t = (k, true) -> trailing_pads (s +:+ t) = (k, str_empty s).
Proof.
  intros Hs Ht. induction s as [|a s IH]; [done|]. rewrite str_cons_app. cbn [trailing_pads no_char] in *.
  apply andb_true_iff in Hs as [Ha Hs]. rewrite (IH Hs). apply negb_true_iff in Ha.  by rewrite Ha, andb_false_r.
Qed.

Lemma trailing_pads_pads k : trailing_pads (pads k) = (k, true).
Proof. induction k as [|k IH]; [done|]. cbn. by rewrite IH. Qed.

Lemma substring_app s t : substring 0 (String.length s) (s +:+ t) = s.
Proof. induction s as [|a s IH]; [by destruct t|]. rewrite str_cons_app. cbn. by rewrite IH. Qed.

(** Characters of the alphabet, and at most two pads after them. *)
Lemma encode_shape l :
  Forall byte_ok l -> exists body k, encode l = (body +:+ pads k)%string /\ (k <= 2)%nat /\ no_char pad_char body = true.
Proof.
  induction l as [|a|a b|a b c r IH] using triple_ind; intros H; repeat (apply Forall_cons in H as [? H]); unfold byte_ok in *.
  - exists ""%string, 0%nat. split_and!; [done|lia|done].
  - exists (String (enc_char (a / 4)) (String (enc_char (a mod 4 * 16)) "")), 2%nat. split_and!; [done|lia|].
    cbn [no_char]. by rewrite !enc_char_not_pad by in_range.
  - exists (String (enc_char (a / 4)) (String (enc_char (a mod 4 * 16 + b / 16)) (String (enc_char (b mod 16 * 4)) ""))), 1%nat.
    split_and!; [done|lia|]. cbn [no_char]. by rewrite !enc_char_not_pad by in_range.
  - destruct (IH H) as (body & k & E & Hk & Hn). cbn [encode]. rewrite E.
    exists (String (enc_char (a / 4)) (String (enc_char (a mod 4 * 16 + b / 16))
      (String (enc_char (b mod 16 * 4 + c / 64)) (String (enc_char (c mod 64)) body)))), k.
    split_and!; [by rewrite !str_cons_app|done|]. cbn [no_char]. by rewrite !enc_char_not_pad, Hn by in_range.
Qed.

Lemma encode_length l : Z.of_nat (String.length (encode l)) mod 4 = 0.
Proof.
  induction l as [|a|a b|a b c r IH] using triple_ind; [done..|]. cbn [encode String.length].
  rewrite !Nat2Z.inj_succ. Z.to_euclidean_division_equations. lia.
Qed.

Lemma str_length_app s t : String.length (s +:+ t) = (String.length s + String.length t)%nat.
Proof. induction s as [|a s IH]; [done|]. rewrite str_cons_app. cbn. by rewrite IH. Qed.

Lemma pads_length k : String.length (pads k) = k.
Proof. induction k as [|k IH]; [done|]. cbn. by rewrite IH. Qed.

(** The decoder undoes the encoding. *)
Lemma decode_encode l : Forall byte_ok l -> decode_base64_standard (encode l) = Some l.
Proof.
  intros H. unfold decode_base64_standard. rewrite encode_length, Z.eqb_refl. cbn [negb].
  destruct (str_empty (encode l)) eqn:E.
  { destruct l as [|a [|b [|c r]]]; [done| | |]; by cbn in E. }
  destruct (encode_shape l H) as (body & k & Es & Hk & Hn).
  assert ((trailing_pads (encode l)).1 = k) as -> by (by rewrite Es, (trailing_pads_app _ _ k Hn (trailing_pads_pads k))).
  destruct (Nat.ltb_spec 2 k); [lia|].
  assert (substring 0 (String.length (encode l) - k) (encode l) = body) as ->.
  { rewrite Es, str_length_app, pads_length, Nat.add_sub. apply substring_app. }
  unfold contains_char. rewrite Hn. cbn [negb]. by apply decode_chunks_encode.
Qed.

(** No white space and no colon, so that trimming and the prefixes leave it alone. *)
Lemma encode_plain l : Forall byte_ok l -> ws_free (encode l) = true /\ no_char ":" (encode l) = true.
Proof.
  assert (forall v s, 0 <= v < 64 -> ws_free s = true /\ no_char ":" s = true ->
    ws_free (String (enc_char v) s) = true /\ no_char ":" (String (enc_char v) s) = true) as Hc.
  { intros v s Hv [Hw Hn]. apply enc_char_plain in Hv. unfold plain_char in Hv. rewrite !andb_true_iff in Hv.
    destruct Hv as [[[[_ _] Hcol] Hcode] Hws]. apply Z.ltb_lt in Hcode. apply negb_true_iff in Hws. split.
    - cbn [ws_free]. by rewrite strip_ws_ascii.
    - cbn [no_char]. by rewrite Hcol. }
  induction l as [|a|a b|a b c r IH] using triple_ind; intros H; repeat (apply Forall_cons in H as [? H]); unfold byte_ok in *;
    cbn [encode]; repeat (apply Hc; [in_range|]); [done..|]. by apply IH.
Qed.

Lemma no_colon_prefix p s : no_char ":" s = true -> strip_prefix (p +:+ ":") s = None.
Proof.
  revert s. induction p as [|a p IH]; intros s H; [by apply no_char_prefix|]. rewrite str_cons_app.
  destruct s as [|b s]; [done|]. cbn [strip_prefix no_char] in *. apply andb_true_iff in H as [_ H]. destruct (Ascii.eqb a b); [by apply IH|done].
Qed.

(** a certificate pin is accepted exactly when it is 32 bytes: for any bytes,
    their Base64 text, bare or after [sha256:] or [SHA256:], passes the check of
    [pin_sha256] if and only if there are 32 of them. *)
Theorem pin_accepts_digests (l : list Z) :
  Forall byte_ok l ->
  decode_sha256_pin (encode l) = (length l =? 32)%nat /\
  decode_sha256_pin ("sha256:" +:+ encode l) = (length l =? 32)%nat /\
  decode_sha256_pin ("SHA256:" +:+ encode l) = (length l =? 32)%nat.
Proof.
  intros H. destruct (encode_plain l H) as [Hw Hn]. unfold decode_sha256_pin.
  assert (forall a s, (code a <? 128) && negb (ascii_ws a) = true -> ws_free s = true -> ws_free (String a s) = true) as Ha.
  { intros a s [Hc%Z.ltb_lt Hs%negb_true_iff]%andb_true_iff Hf. cbn [ws_free]. by rewrite strip_ws_ascii. }
  split_and!; rewrite trim_free by (rewrite ?str_cons_app, ?str_nil_app; repeat (apply Ha; [vm_compute; reflexivity|]); exact Hw).
  - rewrite (no_colon_prefix "sha256"), (no_colon_prefix "SHA256") by done. cbn [default from_option]. by rewrite decode_encode.
  - rewrite strip_prefix_app. by rewrite decode_encode.
  - rewrite strip_prefix_app. change (strip_prefix "sha256:" ("SHA256:" +:+ encode l)) with (@None string).
    cbn [default from_option id]. by rewrite decode_encode.
Qed.

Lemma pin_accepts_digests_witness : decode_sha256_pin ("sha256:" +:+ encode (zrange 32)) = true.
Proof. apply (pin_accepts_digests (zrange 32)). apply (bool_decide_unpack _). vm_compute. exact I. Defined.
