(* ===== verification/Bind.v ===== *)
(** * Interfaces and bind modes

    Models [list] and [find_by_name] of [crates/spt-net/src/interfaces.rs] and
    [crates/spt-net/src/bind.rs]: how a bind mode becomes the socket addresses
    to listen on.  What [if-addrs] enumerates is an argument; networks of the
    [ipnet] crate are the parameter of [TargetAcl]. *)

From S2P Require Import Prelude Text Errors Endpoint Ip Address TargetAcl.

(** ** Interfaces *)

Record Interface := mkInterface {
  if_name : string;
  if_ipv4 : list Z;
  if_ipv6 : list Z;
  if_is_loopback : bool
}.

(** One record of [if-addrs]. *)
Record IfAddr := mkIfAddr { ia_name : string; ia_ip : IpAddr; ia_is_loopback : bool }.

Definition str_lt (a b : string) : bool := match String.compare a b with Lt => true | _ => false end.

Definition add_unique (x : Z) (l : list Z) : list Z := if bool_decide (x ∈ l) then l else l ++ [x].

Definition fold_entry (e : IfAddr) (i : Interface) : Interface :=
  let loopback := if_is_loopback i || ia_is_loopback e in
  match ia_ip e with
  | V4 a => mkInterface (if_name i) (add_unique a (if_ipv4 i)) (if_ipv6 i) loopback
  | V6 a => mkInterface (if_name i) (if_ipv4 i) (add_unique a (if_ipv6 i)) loopback
  end.

(** The [BTreeMap] by name, as the list of its values in key order. *)
Fixpoint upsert (e : IfAddr) (l : list Interface) : list Interface :=
  match l with
  | [] => [fold_entry e (mkInterface (ia_name e) [] [] false)]
  | i :: r =>
      if (if_name i =? ia_name e)%string then fold_entry e i :: r
      else if str_lt (ia_name e) (if_name i) then fold_entry e (mkInterface (ia_name e) [] [] false) :: l
      else i :: upsert e r
  end.

Definition interfaces_list (raw : list IfAddr) : list Interface := foldl (fun l e => upsert e l) [] raw.

Definition find_by_name (ifaces : list Interface) (name : string) : option Interface :=
  find (fun i => (if_name i =? name)%string) ifaces.

(** ** Bind modes *)

Inductive Family := Ipv4 | Ipv6 | Both.

Inductive AutoPrefer (N : Type) :=
| ByName (names : list string)
| ByPrefix (prefixes : list string)
| ByCidr (nets : list N)
| PlatformDefault
| ByFamily (family : Family).
Arguments ByName {N}.
Arguments ByPrefix {N}.
Arguments ByCidr {N}.
Arguments PlatformDefault {N}.
Arguments ByFamily {N}.

Inductive BindMode (N : Type) :=
| Loopback
| SpecificIp (ip : IpAddr)
| SpecificInterface (name : string) (family : Family)
| AllInterfaces
| AutoInterface (prefer : AutoPrefer N).
Arguments Loopback {N}.
Arguments SpecificIp {N}.
Arguments SpecificInterface {N}.
Arguments AllInterfaces {N}.
Arguments AutoInterface {N}.

Definition sock (port : Z) (ip : IpAddr) : SocketAddr := mkSocketAddr ip port 0.

Definition collect_for_family (i : Interface) (family : Family) (port : Z) : list SocketAddr :=
  (match family with Ipv4 | Both => (fun a => sock port (V4 a)) <$> if_ipv4 i | Ipv6 => [] end)
  ++ (match family with Ipv6 | Both => (fun a => sock port (V6 a)) <$> if_ipv6 i | Ipv4 => [] end).

(** The order of [sort_dedup]: IPv4 first, then the text of the address, then
    the port. *)
Definition sock_le (a b : SocketAddr) : bool :=
  match is_ipv4 (sa_ip a), is_ipv4 (sa_ip b) with
  | true, false => true
  | false, true => false
  | _, _ =>
      match String.compare (ip_to_string (sa_ip a)) (ip_to_string (sa_ip b)) with
      | Lt => true
      | Gt => false
      | Eq => sa_port a <=? sa_port b
      end
  end.

(** A stable sort. *)
Fixpoint sort_insert (x : SocketAddr) (l : list SocketAddr) : list SocketAddr :=
  match l with
  | [] => [x]
  | y :: r => if sock_le x y then x :: l else y :: sort_insert x r
  end.
Definition sort_socks (l : list SocketAddr) : list SocketAddr := foldr sort_insert [] l.

(** [Vec::dedup]: neighbours that are equal. *)
Fixpoint dedup (l : list SocketAddr) : list SocketAddr :=
  match l with
  | x :: (y :: _) as r => if bool_decide (x = y) then dedup r else x :: dedup r
  | _ => l
  end.

Definition sort_dedup (l : list SocketAddr) : list SocketAddr := dedup (sort_socks l).

Section Resolve.
Context {N : Type} `{!IpNets N}.

(** [requires_expose]. *)
Definition requires_expose (m : BindMode N) : bool :=
  match m with
  | Loopback => false
  | SpecificIp ip => negb (is_loopback ip) && negb (is_unspecified ip)
  | SpecificInterface _ _ | AutoInterface _ | AllInterfaces => true
  end.

Definition resolve_auto (ifaces : list Interface) (prefer : AutoPrefer N) (port : Z) : Result Error (list SocketAddr) :=
  let out :=
    match prefer with
    | ByName names =>
        collect (fun n => match find_by_name ifaces n with Some i => collect_for_family i Both port | None => [] end) names
    | ByPrefix prefixes =>
        collect (fun i => if existsb (fun p => starts_with p (if_name i)) prefixes
                          then collect_for_family i Both port else []) ifaces
    | ByCidr nets =>
        let inside ip := existsb (fun n => net_contains n ip) nets in
        collect (fun i => sock port <$> filter (fun ip => inside ip = true) ((V4 <$> if_ipv4 i) ++ (V6 <$> if_ipv6 i))) ifaces
    | PlatformDefault => collect (fun i => if if_is_loopback i then [] else collect_for_family i Both port) ifaces
    | ByFamily family => collect (fun i => if if_is_loopback i then [] else collect_for_family i family port) ifaces
    end in
  match out with
  | [] => Err (LocalBindFailed "auto" "no interface matched the auto preference")
  | _ => Ok out
  end.

Definition resolve_bind (enumerated : Result Error (list Interface)) (mode : BindMode N) (port : Z) : Result Error (list SocketAddr) :=
  ifaces ← enumerated;
  addrs ← match mode with
          | Loopback => Ok [sock port (V4 2130706433); sock port (V6 1)]
          | SpecificIp ip => Ok [sock port ip]
          | AllInterfaces => Ok [sock port (V4 0); sock port (V6 0)]
          | SpecificInterface name family =>
              match find_by_name ifaces name with
              | None => Err (LocalBindFailed name ("interface `" +:+ name +:+ "` not found"))
              | Some iface =>
                  match collect_for_family iface family port with
                  | [] => Err (LocalBindFailed name ("interface `" +:+ name +:+ "` has no addresses matching family"))
                  | out => Ok out
                  end
              end
          | AutoInterface prefer => resolve_auto ifaces prefer port
          end;
  Ok (sort_dedup addrs).
End Resolve.

(** ** Sorting keeps the addresses *)

Lemma sort_insert_elem x y l : y ∈ sort_insert x l <-> y = x \/ y ∈ l.
Proof.
  induction l as [|z l IH]; cbn [sort_insert]; [rewrite !elem_of_cons, elem_of_nil; tauto|]. destruct (sock_le x z).
  - by rewrite elem_of_cons.
  - rewrite !elem_of_cons, IH. tauto.
Qed.

Lemma sort_socks_elem y l : y ∈ sort_socks l <-> y ∈ l.
Proof. induction l as [|x l IH]; [done|]. cbn. by rewrite sort_insert_elem, IH, elem_of_cons. Qed.

Lemma dedup_elem y l : y ∈ dedup l <-> y ∈ l.
Proof.
  induction l as [|x [|z l] IH]; [done|done|]. change (dedup (x :: z :: l)) with
    (if bool_decide (x = z) then dedup (z :: l) else x :: dedup (z :: l)).
  case_bool_decide; [subst|]; rewrite !elem_of_cons, ?IH, !elem_of_cons; tauto.
Qed.

Lemma sort_dedup_elem y l : y ∈ sort_dedup l <-> y ∈ l.
Proof. unfold sort_dedup. by rewrite dedup_elem, sort_socks_elem. Qed.
