(* ===== verification/Runner.v ===== *)
(** * Starting a forward

    Models [crates/spt-forward/src/runner.rs]: how [ForwardRunner::start] turns
    a forward of the configuration into the specification it hands to the
    session ([crates/spt-protocol/src/forward.rs]), with
    [validate_local_path] of [uds_listener.rs].  The enumeration of interfaces
    and the system resolver are arguments.  A malformed forward is an error
    with its reason; texts meant for a person are left out. *)

From S2P Require Import Prelude Text Errors Endpoint Ip Address Schema TargetAcl Dynamic Bind Policy Validate ValidateProfile.

(** ** What the session is asked for *)

Record ForwardRateLimits := mkRateLimits {
  rl_rate_bps_up : Z;
  rl_rate_bps_down : Z;
  rl_burst_up : Z;
  rl_burst_down : Z;
  rl_max_new_conns_per_sec : Z;
  rl_max_packets_per_sec : Z;
  rl_max_datagram_size : Z
}.

Definition is_unlimited (l : ForwardRateLimits) : bool :=
  (rl_rate_bps_up l =? 0) && (rl_rate_bps_down l =? 0) && (rl_burst_up l =? 0) && (rl_burst_down l =? 0)
  && (rl_max_new_conns_per_sec l =? 0) && (rl_max_packets_per_sec l =? 0).

Inductive BindConflictPolicy := BcFail | BcRetry | BcNextPort.
Inductive ForwardDirection := DirLocal | DirRemote.
Inductive TargetResolve := ResolveRemote | ResolveLocal | ResolvePreviousHop.

Record TcpSpec := mkTcpSpec {
  tc_name : string;
  tc_listen : BindAddr;
  tc_target : TargetAddr;
  tc_max_connections : option Z;
  tc_limits : ForwardRateLimits;
  tc_idle_timeout : option Z;
  tc_on_bind_conflict : BindConflictPolicy;
  tc_required : bool
}.

Record DynamicForwardSpec := mkDynamicSpec {
  dn_name : string;
  dn_listen : BindAddr;
  dn_max_connections : option Z;
  dn_allow_socks4 : bool;
  dn_allow_socks4a : bool;
  dn_allow_socks5 : bool;
  dn_allow_http_connect : bool;
  dn_allow_targets : list string;
  dn_deny_targets : list string;
  dn_limits : ForwardRateLimits;
  dn_idle_timeout : option Z;
  dn_on_bind_conflict : BindConflictPolicy;
  dn_required : bool
}.

Record UdpForwardSpec := mkUdpSpec {
  ud_name : string;
  ud_direction : ForwardDirection;
  ud_listen : BindAddr;
  ud_target : TargetAddr;
  ud_idle_timeout_secs : Z;
  ud_max_flows : option Z;
  ud_limits : ForwardRateLimits
}.

Record UdsForwardSpec := mkUdsSpec {
  us_name : string;
  us_listen_path : string;
  us_remote_socket_path : string;
  us_limits : ForwardRateLimits;
  us_required : bool
}.

Record RemoteUdsForwardSpec := mkRemoteUdsSpec {
  ru_name : string;
  ru_remote_socket_path : string;
  ru_local_socket_path : string;
  ru_limits : ForwardRateLimits;
  ru_idle_timeout : option Z;
  ru_required : bool
}.

(** The method of [TunnelSession] called, with its argument.  The local and the
    remote TCP specification have the same fields. *)
Inductive SpecOpen :=
| OpenLocal (s : TcpSpec)
| OpenRemote (s : TcpSpec)
| OpenDynamic (s : DynamicForwardSpec)
| OpenUdp (s : UdpForwardSpec)
| OpenUds (s : UdsForwardSpec)
| OpenRemoteUds (s : RemoteUdsForwardSpec).

(** Why a forward is refused. *)
Inductive Reason :=
| MissingBind
| MissingTarget
| BadListen
| BadTarget
| UnixTarget
| BadSize (field : string)
| BadDuration (field : string)
| BadConflictPolicy
| BadDirection
| BadTransport
| UnixWithBindMode
| NotNumericHost
| Ipv6Disabled
| MissingInterface
| BadBindMode
| BindUnresolved
| NoCompatibleAddress
| BadTargetResolve
| Unresolvable
| MissingLocalPath
| MissingRemotePath
| BadLocalPath.

Inductive ForwardRunnerError := Malformed (name : string) (reason : Reason).

Record ForwardRunnerConfig := mkRunnerConfig { fr_default_udp_idle : option Z; fr_default_limits : ForwardRateLimits }.

(** ** Unix socket paths *)

Definition MAX_PATH_LEN : Z := 4096.

Definition nul : ascii := "000".

Definition validate_local_path (path : string) : bool :=
  if str_empty path then false
  else if negb (starts_with "/" path) then false
  else if contains_char nul path then false
  else Z.of_nat (String.length path) <=? MAX_PATH_LEN.

(** ** Fields *)

Record DynamicProxyProtocols := mkProtocols { dp_socks4 : bool; dp_socks4a : bool; dp_socks5 : bool; dp_http_connect : bool }.
Definition PROTOCOLS_ALL : DynamicProxyProtocols := mkProtocols true true true true.
Definition PROTOCOLS_NONE : DynamicProxyProtocols := mkProtocols false false false false.

Definition normalize_proxy_protocol (value : string) : option string :=
  let v := dash_to_underscore (to_ascii_lowercase (trim value)) in
  if (v =? "all")%string then Some "all"
  else if (v =? "socks4")%string then Some "socks4"
  else if (v =? "socks4a")%string then Some "socks4a"
  else if (v =? "socks5")%string then Some "socks5"
  else if one_of v ["http"; "http_connect"; "connect"] then Some "http_connect"
  else None.

Definition add_protocol (p : DynamicProxyProtocols) (value : string) : DynamicProxyProtocols :=
  match normalize_proxy_protocol value with
  | Some n =>
      if (n =? "socks4")%string then mkProtocols true (dp_socks4a p) (dp_socks5 p) (dp_http_connect p)
      else if (n =? "socks4a")%string then mkProtocols (dp_socks4 p) true (dp_socks5 p) (dp_http_connect p)
      else if (n =? "socks5")%string then mkProtocols (dp_socks4 p) (dp_socks4a p) true (dp_http_connect p)
      else if (n =? "http_connect")%string then mkProtocols (dp_socks4 p) (dp_socks4a p) (dp_socks5 p) true
      else p
  | None => p
  end.

Definition dynamic_proxy_protocols (cfg : Forward) : DynamicProxyProtocols :=
  match forward_proxy_protocols cfg with
  | None => PROTOCOLS_ALL
  | Some values =>
      if existsb (fun v => opt_is (normalize_proxy_protocol v) "all") values then PROTOCOLS_ALL
      else foldl add_protocol PROTOCOLS_NONE values
  end.

Definition from_config_str (s : string) : option TargetResolve :=
  if (s =? "remote")%string then Some ResolveRemote
  else if (s =? "local")%string then Some ResolveLocal
  else if one_of s ["previous-hop"; "previous_hop"] then Some ResolvePreviousHop
  else None.

Section Runner.
Context `{!HumanTime, !ByteSizes} {N : Type} `{!IpNets N}.
Context (enumerated : Result Error (list Interface)) (resolve_dns : string -> Z -> Result Error (list SocketAddr)).

Definition malformed {A} (cfg : Forward) (r : Reason) : Result ForwardRunnerError A := Err (Malformed (forward_name cfg) r).

Definition parse_size_field (cfg : Forward) (val : option string) (field : string) : Result ForwardRunnerError (option Z) :=
  match val with
  | None => Ok None
  | Some s =>
      if str_empty (trim s) then Ok None
      else match parse_size s with Ok n => Ok (Some n) | Err _ => malformed cfg (BadSize field) end
  end.

Definition parse_idle_timeout (cfg : Forward) : Result ForwardRunnerError (option Z) :=
  match forward_idle_timeout cfg with
  | None => Ok None
  | Some s =>
      if str_empty (trim s) then Ok None
      else match humantime_parse s with Ok d => Ok (Some d) | Err _ => malformed cfg (BadDuration "idle_timeout") end
  end.

Definition effective_limits (cfg : Forward) (rc : ForwardRunnerConfig) : Result ForwardRunnerError ForwardRateLimits :=
  let d := fr_default_limits rc in
  up ← parse_size_field cfg (forward_max_bytes_per_second_out cfg) "max_bytes_per_second_out";
  down ← parse_size_field cfg (forward_max_bytes_per_second_in cfg) "max_bytes_per_second_in";
  burst_up ← parse_size_field cfg (forward_max_burst_bytes_out cfg) "max_burst_bytes_out";
  burst_down ← parse_size_field cfg (forward_max_burst_bytes_in cfg) "max_burst_bytes_in";
  Ok (mkRateLimits (default (rl_rate_bps_up d) up) (default (rl_rate_bps_down d) down)
        (default (rl_burst_up d) burst_up) (default (rl_burst_down d) burst_down)
        (default (rl_max_new_conns_per_sec d) (forward_max_new_connections_per_second cfg))
        (default (rl_max_packets_per_sec d) (forward_max_packets_per_second cfg))
        (default (rl_max_datagram_size d) (forward_max_datagram_size cfg))).

Definition parse_bind_conflict (cfg : Forward) : Result ForwardRunnerError BindConflictPolicy :=
  match forward_on_bind_conflict cfg with
  | None => Ok BcFail
  | Some s =>
      let v := dash_to_underscore (to_ascii_lowercase (trim s)) in
      if one_of v [""; "fail"] then Ok BcFail
      else if (v =? "retry")%string then Ok BcRetry
      else if (v =? "next_port")%string then Ok BcNextPort
      else malformed cfg BadConflictPolicy
  end.

Definition parse_direction (cfg : Forward) (s : string) : Result ForwardRunnerError ForwardDirection :=
  if (s =? "local")%string then Ok DirLocal
  else if (s =? "remote")%string then Ok DirRemote
  else malformed cfg BadDirection.

(** ** Where to listen *)

Definition listen_host_port (addr : BindAddr) : option (string * Z) :=
  match addr with
  | Tcp s => Some (ip_to_string (sa_ip s), sa_port s)
  | TcpHostPort host port => Some (host, port)
  | Unix _ => None
  end.

Inductive ListenFamily := LfIpv4 | LfIpv6 | LfUnknown.

Definition ip_family (ip : IpAddr) : ListenFamily := if is_ipv4 ip then LfIpv4 else LfIpv6.

Definition listen_family (addr : BindAddr) : ListenFamily :=
  match addr with
  | Tcp s => ip_family (sa_ip s)
  | TcpHostPort host _ => match parse_ip host with Some ip => ip_family ip | None => LfUnknown end
  | Unix _ => LfUnknown
  end.

Definition family_from_forward (cfg : Forward) : Family :=
  if opt_is (forward_bind_ipv6 cfg) "disable" then Ipv4 else Both.

Definition auto_prefer_from_forward (cfg : Forward) (family : Family) : AutoPrefer N :=
  match forward_bind_interface_preference cfg with
  | Some ((_ :: _) as preferences) => ByName preferences
  | _ =>
      match forward_bind_interface cfg with
      | Some (String _ _ as name) => ByName [name]
      | _ => match family with Both => PlatformDefault | _ => ByFamily family end
      end
  end.

(** The [unreachable!] of an absent mode is the caller's guard. *)
Definition bind_mode_from_forward (cfg : Forward) (mode host : string) : Result ForwardRunnerError (BindMode N) :=
  let family := family_from_forward cfg in
  if (mode =? "loopback")%string then Ok Loopback
  else if (mode =? "specific_ip")%string then
    match parse_ip host with
    | None => malformed cfg NotNumericHost
    | Some ip =>
        match family, is_ipv4 ip with
        | Ipv4, false => malformed cfg Ipv6Disabled
        | _, _ => Ok (SpecificIp ip)
        end
    end
  else if (mode =? "specific_interface")%string then
    match forward_bind_interface cfg with
    | Some name => Ok (SpecificInterface name family)
    | None => malformed cfg MissingInterface
    end
  else if (mode =? "all_interfaces")%string then Ok AllInterfaces
  else if (mode =? "auto_interface")%string then Ok (AutoInterface (auto_prefer_from_forward cfg family))
  else malformed cfg BadBindMode.

Definition select_bind_addr (addrs : list SocketAddr) (bind_ipv6 : option string) (original : ListenFamily) : option SocketAddr :=
  let v4 a := is_ipv4 (sa_ip a) in
  let v6 a := negb (is_ipv4 (sa_ip a)) in
  let prefer_v6 := match find v6 addrs with Some a => Some a | None => head addrs end in
  if opt_is bind_ipv6 "disable" then find v4 addrs
  else if opt_is bind_ipv6 "prefer" then prefer_v6
  else match original with LfIpv6 => prefer_v6 | _ => head addrs end.

Definition resolve_listen (cfg : Forward) (listen_str : string) : Result ForwardRunnerError BindAddr :=
  match BindAddr_parse listen_str with
  | Err _ => malformed cfg BadListen
  | Ok parsed =>
      match forward_bind_mode cfg with
      | None => Ok parsed
      | Some mode_str =>
          match listen_host_port parsed with
          | None => malformed cfg UnixWithBindMode
          | Some (host, port) =>
              mode ← bind_mode_from_forward cfg mode_str host;
              match resolve_bind enumerated mode port with
              | Err _ => malformed cfg BindUnresolved
              | Ok addrs =>
                  match select_bind_addr addrs (forward_bind_ipv6 cfg) (listen_family parsed) with
                  | Some a => Ok (Tcp a)
                  | None => malformed cfg NoCompatibleAddress
                  end
              end
          end
      end
  end.

(** ** Targets *)

Definition parse_target (cfg : Forward) (s : string) : Result ForwardRunnerError TargetAddr :=
  match BindAddr_parse s with
  | Err _ => malformed cfg BadTarget
  | Ok (Tcp a) => Ok (mkTarget (ip_to_string (sa_ip a)) (sa_port a))
  | Ok (TcpHostPort host port) => Ok (mkTarget host port)
  | Ok (Unix _) => malformed cfg UnixTarget
  end.

Definition apply_target_resolve (cfg : Forward) (target : TargetAddr) : Result ForwardRunnerError TargetAddr :=
  policy ← match forward_target_resolve cfg with
           | None => Ok ResolveRemote
           | Some s => match from_config_str s with Some p => Ok p | None => malformed cfg BadTargetResolve end
           end;
  match policy with
  | ResolveLocal =>
      match resolve_dns (ta_host target) (ta_port target) with
      | Ok (a :: _) => Ok (mkTarget (ip_to_string (sa_ip a)) (ta_port target))
      | Ok [] | Err _ => malformed cfg Unresolvable
      end
  | ResolveRemote | ResolvePreviousHop => Ok target
  end.

(** ** [ForwardRunner::start] *)

(** [Duration::as_secs() as u32] keeps the low 32 bits. *)
Definition secs_u32 (d : Z) : Z := wrap 32 (as_secs d).

Definition udp_idle_secs (cfg : Forward) (rc : ForwardRunnerConfig) : Result ForwardRunnerError Z :=
  own ← match forward_udp_idle_timeout cfg with
        | None => Ok None
        | Some s => match humantime_parse s with
                    | Ok d => Ok (Some (secs_u32 d))
                    | Err _ => malformed cfg (BadDuration "udp_idle_timeout")
                    end
        end;
  Ok (match own with
      | Some n => n
      | None => match fr_default_udp_idle rc with Some d => secs_u32 d | None => 60 end
      end).

Definition uds_paths (cfg : Forward) : Result ForwardRunnerError (string * string) :=
  match forward_local_socket_path cfg with
  | None => malformed cfg MissingLocalPath
  | Some local =>
      match forward_remote_socket_path cfg with
      | None => malformed cfg MissingRemotePath
      | Some remote => if validate_local_path local then Ok (local, remote) else malformed cfg BadLocalPath
      end
  end.

Definition start_local_uds (cfg : Forward) (rc : ForwardRunnerConfig) : Result ForwardRunnerError SpecOpen :=
  paths ← uds_paths cfg;
  limits ← effective_limits cfg rc;
  Ok (OpenUds (mkUdsSpec (forward_name cfg) paths.1 paths.2 limits (default false (forward_required cfg)))).

Definition start_remote_uds (cfg : Forward) (rc : ForwardRunnerConfig) : Result ForwardRunnerError SpecOpen :=
  paths ← uds_paths cfg;
  limits ← effective_limits cfg rc;
  idle ← parse_idle_timeout cfg;
  Ok (OpenRemoteUds (mkRemoteUdsSpec (forward_name cfg) paths.2 paths.1 limits idle (default false (forward_required cfg)))).

Definition start_socket (cfg : Forward) (rc : ForwardRunnerConfig) : Result ForwardRunnerError SpecOpen :=
  let name := forward_name cfg in
  let required := default false (forward_required cfg) in
  limits ← effective_limits cfg rc;
  idle_timeout ← parse_idle_timeout cfg;
  on_bind_conflict ← parse_bind_conflict cfg;
  listen_str ← match bind_str cfg with Some s => Ok s | None => malformed cfg MissingBind end;
  listen ← resolve_listen cfg listen_str;
  if (forward_kind cfg =? "dynamic")%string then
    if (forward_transport cfg =? "tcp")%string then
      let protocols := dynamic_proxy_protocols cfg in
      Ok (OpenDynamic (mkDynamicSpec name listen (forward_max_connections cfg)
            (dp_socks4 protocols) (dp_socks4a protocols) (dp_socks5 protocols) (dp_http_connect protocols)
            (default [] (forward_allow_targets cfg)) (default [] (forward_deny_targets cfg))
            limits idle_timeout on_bind_conflict required))
    else malformed cfg BadTransport
  else if one_of (forward_kind cfg) ["local"; "remote"] then
    target_s ← match target_str cfg with Some s => Ok s | None => malformed cfg MissingTarget end;
    parsed ← parse_target cfg target_s;
    target ← apply_target_resolve cfg parsed;
    direction ← parse_direction cfg (forward_kind cfg);
    if (forward_transport cfg =? "tcp")%string then
      let spec := mkTcpSpec name listen target (forward_max_connections cfg) limits idle_timeout on_bind_conflict required in
      Ok (match direction with DirLocal => OpenLocal spec | DirRemote => OpenRemote spec end)
    else if (forward_transport cfg =? "udp")%string then
      idle_secs ← udp_idle_secs cfg rc;
      Ok (OpenUdp (mkUdpSpec name direction listen target idle_secs (forward_max_connections cfg) limits))
    else malformed cfg BadTransport
  else malformed cfg BadDirection.

(** Up to the call of the session. *)
Definition start_spec (cfg : Forward) (rc : ForwardRunnerConfig) : Result ForwardRunnerError SpecOpen :=
  if opt_is (forward_link_kind cfg) "local_uds" then start_local_uds cfg rc
  else if opt_is (forward_link_kind cfg) "remote_uds" then start_remote_uds cfg rc
  else start_socket cfg rc.
End Runner.
