(* ===== verification/Crypto.v ===== *)
(** * The algorithms a session offers

    Models [crates/spt-ssh2/src/crypto.rs], with [build_crypto_policy] and the
    post-quantum step of [crates/spt-bin/src/profile_factory.rs] and the list
    [build_preferred] of [crates/spt-ssh2/src/russh_backend.rs] hands to the SSH
    library: the presets, the resolution of a profile's [crypto] table, the
    deprecated algorithms, and what the capabilities make of the key exchange.
    The library's own default list and the names it knows are arguments; the
    texts of the errors are shortened, and the warnings are only logged. *)

From S2P Require Import Prelude Text Errors Schema Policy.

(** ** Names *)

Definition DEPRECATED : list string :=
  ["ssh-rsa"; "ssh-dss"; "diffie-hellman-group1-sha1"; "diffie-hellman-group14-sha1"; "diffie-hellman-group-exchange-sha1"; "hmac-sha1";
   "hmac-sha1-96"; "hmac-md5"; "hmac-md5-96"; "3des-cbc"; "aes128-cbc"; "aes192-cbc"; "aes256-cbc"; "blowfish-cbc"; "cast128-cbc";
   "arcfour"; "arcfour128"; "arcfour256"].

Definition SSH2_POST_QUANTUM_KEX : list string :=
  ["mlkem768x25519-sha256"; "mlkem768x25519-sha256@openssh.com"; "mlkem768nistp256-sha256"; "mlkem1024nistp384-sha384";
   "sntrup761x25519-sha512"; "sntrup761x25519-sha512@openssh.com"].
Definition UNSUPPORTED_HANDSHAKE_KEX : list string := ["sntrup761x25519-sha512"; "sntrup761x25519-sha512@openssh.com"].
Definition SUPPORTED_PQ_KEX : string := "mlkem768x25519-sha256".
Definition SSH2_ML_KEM_KEX : list string :=
  ["mlkem768x25519-sha256"; "mlkem768x25519-sha256@openssh.com"; "mlkem768nistp256-sha256"; "mlkem1024nistp384-sha384"].

Definition contains_ignore_ascii_case (values : list string) (needle : string) : bool := existsb (fun v => eq_str_ignore_ascii_case v needle) values.
Definition is_deprecated (algo : string) : bool := contains_ignore_ascii_case DEPRECATED algo.
Definition is_post_quantum_kex (algo : string) : bool := contains_ignore_ascii_case SSH2_POST_QUANTUM_KEX algo.
Definition is_supported_post_quantum_kex (algo : string) : bool := eq_str_ignore_ascii_case algo SUPPORTED_PQ_KEX.

Definition str_among (s : string) (l : list string) : bool := existsb (String.eqb s) l.

Definition safer_replacement (algo : string) : string :=
  let a := to_ascii_lowercase algo in
  if (a =? "ssh-rsa")%string then "rsa-sha2-256 / rsa-sha2-512"
  else if (a =? "ssh-dss")%string then "ssh-ed25519"
  else if str_among a ["diffie-hellman-group1-sha1"; "diffie-hellman-group14-sha1"; "diffie-hellman-group-exchange-sha1"] then "curve25519-sha256"
  else if str_among a ["hmac-sha1"; "hmac-sha1-96"; "hmac-md5"; "hmac-md5-96"] then "hmac-sha2-256-etm@openssh.com"
  else if str_among a ["3des-cbc"; "aes128-cbc"; "aes192-cbc"; "aes256-cbc"; "blowfish-cbc"; "cast128-cbc"]
       then "aes256-gcm@openssh.com / chacha20-poly1305@openssh.com"
  else if str_among a ["arcfour"; "arcfour128"; "arcfour256"] then "aes256-gcm@openssh.com"
  else "a modern algorithm (see spec §9.13.1)".

(** ** Policies and presets *)

Record CryptoPolicy := mkCryptoPolicy {
  cp_ciphers : list string;
  cp_kex : list string;
  cp_macs : list string;
  cp_host_keys : list string;
  cp_compression : list string
}.
Definition CryptoPolicy_default : CryptoPolicy := mkCryptoPolicy [] [] [] [] [].

(** [CryptoPreset]: the same five lists. *)
Definition MODERN : CryptoPolicy := mkCryptoPolicy
  ["chacha20-poly1305@openssh.com"; "aes256-gcm@openssh.com"; "aes128-gcm@openssh.com"]
  ["mlkem768x25519-sha256"; "curve25519-sha256"; "curve25519-sha256@libssh.org"; "diffie-hellman-group16-sha512"; "diffie-hellman-group18-sha512"]
  ["hmac-sha2-256-etm@openssh.com"; "hmac-sha2-512-etm@openssh.com"]
  ["ssh-ed25519"; "ecdsa-sha2-nistp256"; "rsa-sha2-512"; "rsa-sha2-256"]
  ["none"].
Definition INTEROP : CryptoPolicy := mkCryptoPolicy
  ["chacha20-poly1305@openssh.com"; "aes256-gcm@openssh.com"; "aes128-gcm@openssh.com"; "aes256-ctr"; "aes192-ctr"; "aes128-ctr"]
  ["mlkem768x25519-sha256"; "curve25519-sha256"; "curve25519-sha256@libssh.org"; "diffie-hellman-group16-sha512"; "diffie-hellman-group18-sha512";
   "diffie-hellman-group14-sha256"]
  ["hmac-sha2-256-etm@openssh.com"; "hmac-sha2-512-etm@openssh.com"; "hmac-sha2-256"; "hmac-sha2-512"]
  ["ssh-ed25519"; "ecdsa-sha2-nistp256"; "ecdsa-sha2-nistp384"; "rsa-sha2-512"; "rsa-sha2-256"]
  ["none"; "zlib@openssh.com"].
Definition LEGACY : CryptoPolicy := mkCryptoPolicy
  ["chacha20-poly1305@openssh.com"; "aes256-gcm@openssh.com"; "aes128-gcm@openssh.com"; "aes256-ctr"; "aes192-ctr"; "aes128-ctr"; "aes256-cbc";
   "aes128-cbc"; "3des-cbc"]
  ["mlkem768x25519-sha256"; "curve25519-sha256"; "diffie-hellman-group16-sha512"; "diffie-hellman-group14-sha256"; "diffie-hellman-group14-sha1";
   "diffie-hellman-group-exchange-sha1"]
  ["hmac-sha2-256-etm@openssh.com"; "hmac-sha2-512-etm@openssh.com"; "hmac-sha2-256"; "hmac-sha2-512"; "hmac-sha1"]
  ["ssh-ed25519"; "ecdsa-sha2-nistp256"; "rsa-sha2-512"; "rsa-sha2-256"; "ssh-rsa"]
  ["none"; "zlib@openssh.com"].

Definition preset_by_name (name : string) : option CryptoPolicy :=
  let n := to_ascii_lowercase name in
  if (n =? "modern")%string then Some MODERN else if (n =? "interop")%string then Some INTEROP
  else if (n =? "legacy")%string then Some LEGACY else None.

Definition fill (explicit preset : list string) : list string := match explicit with [] => preset | _ => explicit end.

(** The categories that are looked through, in order. *)
Definition categories (p : CryptoPolicy) : list (string * string) :=
  collect (fun '(cat, l) => pair cat <$> l) [("cipher", cp_ciphers p); ("kex", cp_kex p); ("mac", cp_macs p); ("hostkey", cp_host_keys p)].

Definition resolve_crypto_policy (preset : option string) (explicit : CryptoPolicy) (allow_deprecated : bool) : Result Error CryptoPolicy :=
  let preset_name := default "modern"%string preset in
  match preset_by_name preset_name with
  | None => Err (InvalidConfig ("unknown crypto.policy preset `" +:+ preset_name +:+ "`; valid presets are `modern`, `interop`, `legacy`"))
  | Some set =>
      let policy := mkCryptoPolicy (fill (cp_ciphers explicit) (cp_ciphers set)) (fill (cp_kex explicit) (cp_kex set)) (fill (cp_macs explicit) (cp_macs set))
                      (fill (cp_host_keys explicit) (cp_host_keys set)) (fill (cp_compression explicit) (cp_compression set)) in
      match find (contains_ignore_ascii_case UNSUPPORTED_HANDSHAKE_KEX) (cp_kex policy) with
      | Some algo => Err (InvalidConfig ("kex algorithm `" +:+ algo +:+ "` is recognized but not implemented by the russh SSH2 backend"))
      | None =>
          match (if allow_deprecated then None else find (fun x => is_deprecated x.2) (categories policy)) with
          | Some (cat, algo) =>
              Err (InvalidConfig ("deprecated " +:+ cat +:+ " algorithm `" +:+ algo +:+ "` selected; use " +:+ safer_replacement algo))
          | None => Ok policy
          end
      end
  end.

(** The algorithms a warning is written for at the load. *)
Definition deprecated_warnings (p : CryptoPolicy) : list (string * string) := filter (fun x => is_deprecated x.2 = true) (categories p).

Definition has_post_quantum_kex (p : CryptoPolicy) : bool := existsb is_post_quantum_kex (cp_kex p).
Definition has_ml_kem_kex (p : CryptoPolicy) : bool := existsb (contains_ignore_ascii_case SSH2_ML_KEM_KEX) (cp_kex p).

Definition with_kex (l : list string) (p : CryptoPolicy) : CryptoPolicy := mkCryptoPolicy (cp_ciphers p) l (cp_macs p) (cp_host_keys p) (cp_compression p).

Definition set_true (o : option bool) : bool := match o with Some b => b | None => false end.
Definition set_false (o : option bool) : bool := match o with Some b => negb b | None => false end.

(** What is left must not be empty. *)
Definition retain_kex (keep : string -> bool) (reason : string) (p : CryptoPolicy) : Result Error CryptoPolicy :=
  match List.filter keep (cp_kex p) with
  | [] => Err (InvalidConfig reason)
  | l => Ok (with_kex l p)
  end.

Definition apply_post_quantum_capability_policy (allow_post_quantum_kex allow_ml_kem require_post_quantum_kex : option bool) (p : CryptoPolicy)
  : Result Error CryptoPolicy :=
  if set_true require_post_quantum_kex then
    retain_kex is_supported_post_quantum_kex
      "capabilities.require_post_quantum_kex = true, but the resolved key-exchange list contains no supported post-quantum KEX" p
  else if set_false allow_post_quantum_kex || set_false allow_ml_kem then
    retain_kex (fun a => negb (is_post_quantum_kex a)) "post-quantum KEX is disabled, but that leaves no key-exchange algorithm" p
  else Ok p.

(** ** The factory *)

Definition build_crypto_policy (crypto : option Crypto) : Result Error CryptoPolicy :=
  match crypto with
  | Some c =>
      resolve_crypto_policy (crypto_policy c)
        (mkCryptoPolicy (default [] (crypto_ciphers c)) (default [] (crypto_kex_algorithms c)) (default [] (crypto_macs c))
           (default [] (crypto_host_key_algorithms c)) (default [] (crypto_compression c)))
        (default false (crypto_allow_deprecated c))
  | None => resolve_crypto_policy None CryptoPolicy_default false
  end.

(** The first step of [build_ssh2]. *)
Definition ssh2_crypto (p : Profile) (capabilities : option Capabilities) : Result Error CryptoPolicy :=
  match build_crypto_policy (profile_crypto p) with
  | Err e => Err e
  | Ok crypto =>
      let knob f := match capabilities with Some c => f c | None => None end in
      apply_post_quantum_capability_policy (knob capabilities_allow_post_quantum_kex) (knob capabilities_allow_ml_kem)
        (knob capabilities_require_post_quantum_kex) crypto
  end.

(** The key exchange [build_preferred] offers: the library's default list when the
    policy has none. *)
Definition preferred_kex (library_default : list string) (known : string -> bool) (p : CryptoPolicy) : Result Error (list string) :=
  match cp_kex p with
  | [] => Ok library_default
  | l => match find (fun a => negb (known a)) l with
         | Some a => Err (InvalidConfig ("russh SSH2 backend does not support kex algorithm `" +:+ a +:+ "`"))
         | None => Ok l
         end
  end.

(** [build_ssh3], the post-quantum switch: the default of [Ssh3TlsConfig] is on,
    and only the profile's own key changes it. *)
Definition ssh3_uses_post_quantum (p : Profile) : bool := match profile_ssh3 p with Some s => default true (ssh3_post_quantum s) | None => true end.

(** ** Lemmas *)

(** A name of the list, in any case. *)
Definition among (names : list string) (a : string) : Prop := to_ascii_lowercase a ∈ names.

Lemma contains_among names a : to_ascii_lowercase <$> names = names -> contains_ignore_ascii_case names a = true <-> among names a.
Proof.
  intros Hn. unfold contains_ignore_ascii_case, among, eq_str_ignore_ascii_case. rewrite existsb_exists. split.
  - intros (x & Hx & E%String.eqb_eq). rewrite <- E, <- Hn. apply list_elem_of_fmap. exists x. split; [done|]. by apply list_elem_of_In.
  - intros Hin. exists (to_ascii_lowercase a). split; [by apply list_elem_of_In|]. apply String.eqb_eq. rewrite <- Hn in Hin. apply list_elem_of_fmap in Hin as (x & -> & _).
    induction x as [|c x IH]; [done|]. cbn. rewrite IH. f_equal. destruct c as [[] [] [] [] [] [] [] []]; reflexivity.
Qed.

Lemma post_quantum_among a : is_post_quantum_kex a = true <-> among SSH2_POST_QUANTUM_KEX a.
Proof. by apply contains_among. Qed.

Lemma retain_kex_ok keep reason p p' : retain_kex keep reason p = Ok p' -> cp_kex p' <> [] /\ Forall (fun a => keep a = true /\ a ∈ cp_kex p) (cp_kex p').
Proof.
  unfold retain_kex. destruct (List.filter keep (cp_kex p)) as [|x l] eqn:E; [done|]. intros [= <-]. cbn [cp_kex with_kex]. split; [done|].
  rewrite <- E. apply Forall_forall. intros a Ha%list_elem_of_In%List.filter_In. destruct Ha as [Ha Hk]. split; [done|]. by apply list_elem_of_In.
Qed.

(** With post-quantum exchange off and not required, none is left, something is,
    and nothing was added. *)
Lemma stripped allow_ml_kem require p p' :
  set_true require = false -> apply_post_quantum_capability_policy (Some false) allow_ml_kem require p = Ok p' ->
  cp_kex p' <> [] /\ Forall (fun a => ~ among SSH2_POST_QUANTUM_KEX a /\ a ∈ cp_kex p) (cp_kex p').
Proof.
  intros Hr. unfold apply_post_quantum_capability_policy. rewrite Hr. cbn [set_false negb orb]. intros [Hne Hf]%retain_kex_ok. split; [done|].
  eapply Forall_impl; [exact Hf|]. intros a [Ha Hin]. split; [|done]. intros Hp%post_quantum_among. by rewrite Hp in Ha.
Qed.

(** A list that is not empty is offered as it is. *)
Lemma preferred_explicit dflt known p l : cp_kex p <> [] -> preferred_kex dflt known p = Ok l -> l = cp_kex p.
Proof. unfold preferred_kex. destruct (cp_kex p) as [|x r]; [done|]. intros _. destruct (find _ _); [done|]. by intros [= <-]. Qed.

(** Without a [crypto] table and without capabilities the post-quantum exchange
    leads the list. *)
Example post_quantum_by_default p :
  profile_crypto p = None -> match ssh2_crypto p None with Ok c => head (cp_kex c) = Some SUPPORTED_PQ_KEX | Err _ => False end.
Proof. intros E. unfold ssh2_crypto. rewrite E. vm_compute. reflexivity. Qed.

(** A policy that resolves has a list for every category, and no deprecated
    algorithm unless they are allowed. *)
Theorem resolved_policy_sound preset explicit allow p :
  resolve_crypto_policy preset explicit allow = Ok p ->
  cp_ciphers p <> [] /\ cp_kex p <> [] /\ cp_macs p <> [] /\ cp_host_keys p <> [] /\
  Forall (fun a => ~ among UNSUPPORTED_HANDSHAKE_KEX a) (cp_kex p) /\ (allow = false -> deprecated_warnings p = []).
Proof.
  unfold resolve_crypto_policy. destruct (preset_by_name _) as [set|] eqn:Es; [|done]. cbv zeta.
  destruct (find (contains_ignore_ascii_case UNSUPPORTED_HANDSHAKE_KEX) _) eqn:Eu; [done|].
  destruct (if allow then None else _) as [[cat algo]|] eqn:Ed; [done|]. intros [= <-]. cbn [cp_ciphers cp_kex cp_macs cp_host_keys] in *.
  assert (cp_ciphers set <> [] /\ cp_kex set <> [] /\ cp_macs set <> [] /\ cp_host_keys set <> []) as (H1 & H2 & H3 & H4).
  { unfold preset_by_name in Es. repeat (destruct (_ =? _)%string; [injection Es as <-; done|]). done. }
  assert (forall e d : list string, d <> [] -> fill e d <> []) as Hfill by (by intros [|? ?]). split_and!; try by apply Hfill.
  - apply Forall_forall. intros a Ha Hin. pose proof (List.find_none _ _ Eu a (proj1 (list_elem_of_In _ _) Ha)) as E. by rewrite (proj2 (contains_among _ _ eq_refl) Hin) in E.
  - intros ->. unfold deprecated_warnings.
    induction (categories _) as [|x l IH]; [done|]. cbn [find] in Ed. destruct (is_deprecated x.2) eqn:Ex; [done|]. rewrite filter_cons_False by congruence. by apply IH.
Qed.
