(* ===== verification/Gate.v ===== *)
(** * What a valid configuration guarantees

    The overlay, the validator and the runner together: what the code behind
    [validate] may rely on once it reports no error. *)

From S2P Require Import Prelude Text Errors Endpoint Ip RoundRobin Schema Fields Address.
From S2P Require Import TargetAcl Bind Policy Validate ValidateProfile Crypto Runner.

#[local] Infix "?>" := and_then (at level 40, left associativity).

(** Peel the first [n] parts off a clean concatenation [H], and keep the next. *)
#[local] Ltac nth_clean n H :=
  lazymatch n with
  | O => first [apply clean_app in H as [H _] | idtac]
  | S ?m => apply clean_app in H as [_ H]; nth_clean m H
  end.

Section Valid.
Context {HT : HumanTime} {BS : ByteSizes} (windows : bool).

(** [validate(c).is_ok()]. *)
Definition valid (c : Config) : Prop := bundle_ok (validate windows c) = true.

Lemma valid_clean c : valid c <-> clean (diagnostics windows c).
Proof. apply push_all_ok. Qed.

(** ** The parts of a valid configuration *)

Lemma valid_tables c :
  valid c -> clean (check_events c) /\ clean (check_mem_hygiene c) /\ clean (check_capabilities c) /\ clean (check_profiles windows c).
Proof.
  rewrite valid_clean. unfold diagnostics. intros H. split_and!; [nth_clean 4%nat H|nth_clean 11%nat H|nth_clean 13%nat H|nth_clean 15%nat H]; done.
Qed.

Lemma dup_unclean code path l : ~ clean (when true (err code path) ++ l).
Proof. rewrite clean_app. intros [He _]. by apply clean_err in He. Qed.

(** A loop over unique names: the names are unique and every turn is clean. *)
Lemma clean_unique_loop {A} (name : A -> string) (f : nat -> A -> bool -> list ConfigDiagnostic) l :
  (forall j x, ~ clean (f j x true)) -> clean (each_named name [] 0 l f) ->
  NoDup (name <$> l) /\ forall j x, l !! j = Some x -> clean (f j x false).
Proof. intros Hd H. by apply (clean_each_named name f l [] 0 Hd (NoDup_nil_2)) in H. Qed.

Definition profile_clean (c : Config) (p : Profile) : Prop :=
  exists i, clean (check_profile windows i p (config_capabilities c) (config_network c ?> network_interface)).

Lemma valid_profiles c :
  valid c -> NoDup (profile_name <$> config_profiles c) /\ forall p, p ∈ config_profiles c -> profile_clean c p.
Proof.
  intros H. apply valid_tables in H as (_ & _ & _ & H). apply clean_unique_loop in H as [Hn H].
  - split; [done|]. intros p [i Hi]%list_elem_of_lookup. exists i. apply H in Hi. by apply clean_app in Hi as [_ Hi].
  - intros j x. apply dup_unclean.
Qed.

Definition forward_clean (c : Config) (p : Profile) (f : Forward) : Prop :=
  exists i j, clean (check_forward (profile_protocol p) (config_capabilities c) (config_network c ?> network_interface) f i j).

Lemma profile_forwards_clean c p :
  profile_clean c p -> NoDup (forward_name <$> profile_forwards p) /\ forall f, f ∈ profile_forwards p -> forward_clean c p f.
Proof.
  intros [i H]. unfold check_profile in H. nth_clean 6%nat H.
  apply clean_unique_loop in H as [Hn H].
  - split; [done|]. intros f [j Hj]%list_elem_of_lookup. exists i, j. apply H in Hj. by apply clean_app in Hj as [_ Hj].
  - intros j x. apply dup_unclean.
Qed.

Lemma profile_mounts_clean c p :
  profile_clean c p -> NoDup (sftp_mount_name <$> profile_sftp_mounts p) /\
  forall m, m ∈ profile_sftp_mounts p -> exists i j, clean (check_sftp_mount (profile_protocol p) (config_capabilities c) m i j).
Proof.
  intros [i H]. unfold check_profile in H. nth_clean 7%nat H.
  apply clean_unique_loop in H as [Hn H].
  - split; [done|]. intros f [j Hj]%list_elem_of_lookup. exists i, j. apply H in Hj. by apply clean_app in Hj as [_ Hj].
  - intros j x. apply dup_unclean.
Qed.

Lemma profile_endpoints_clean c p : profile_clean c p -> NoDup (endpoint_name <$> profile_endpoints p).
Proof.
  intros [i H]. unfold check_profile in H. nth_clean 1%nat H.
  apply clean_unique_loop in H as [Hn _]; [done|]. intros j x. apply dup_unclean.
Qed.

Lemma valid_forward c p f :
  valid c -> p ∈ config_profiles c -> f ∈ profile_forwards p -> forward_clean c p f.
Proof. intros Hv Hp Hf. apply valid_profiles in Hv as [_ Hv]. by apply (profile_forwards_clean c p (Hv p Hp)). Qed.

(** ** Properties *)

(** in a valid configuration the profile names are unique, and so are, in
    each profile, the names of its endpoints, of its forwards and of its
    mounts: what the session registry, the reload planner and the orchestrator
    take names to be. *)
Theorem valid_names_unique (c : Config) :
  valid c ->
  NoDup (profile_name <$> config_profiles c) /\
  forall p, p ∈ config_profiles c ->
    NoDup (endpoint_name <$> profile_endpoints p) /\ NoDup (forward_name <$> profile_forwards p) /\
    NoDup (sftp_mount_name <$> profile_sftp_mounts p).
Proof.
  intros Hv. apply valid_profiles in Hv as [Hn Hp]. split; [done|]. intros p Hin. specialize (Hp p Hin).
  split_and!; [by eapply profile_endpoints_clean|by apply (profile_forwards_clean c p)|by apply (profile_mounts_clean c p)].
Qed.

(** A field that holds a positive duration, when it holds anything. *)
Definition positive_duration (o : option string) : Prop :=
  forall s, o = Some s -> s = "" \/ exists d, parse_duration s = Ok d /\ d <> 0.

Lemma positive_field o path : clean (check_positive_duration_field o path) -> positive_duration o.
Proof.
  intros H s ->. unfold check_positive_duration_field, on_some in H. unfold str_empty in H.
  destruct (String.eqb s "") eqn:E; [left; by apply String.eqb_eq|right].
  destruct (parse_duration s) as [d|]; [|by apply clean_err in H].
  exists d. split; [done|]. rewrite clean_when, clean_err in H. destruct (Z.eqb_spec d 0); [by destruct H|done].
Qed.

(** no interval of a valid configuration is zero: the keepalive interval and
    probe time-out of every profile, the retry interval of the event spool and
    the sampling interval of the memory monitor are absent, empty, or parse to
    a positive duration.  A zero interval would make the timers of the runtime
    panic. *)
Theorem valid_intervals_positive (c : Config) :
  valid c ->
  positive_duration (config_events c ?> events_retry_interval) /\
  positive_duration (config_mem_hygiene c ?> mem_hygiene_interval) /\
  forall p, p ∈ config_profiles c ->
    positive_duration (profile_keepalive p ?> keepalive_interval) /\
    positive_duration (profile_keepalive p ?> keepalive_timeout).
Proof.
  intros Hv. pose proof (valid_tables c Hv) as (He & Hm & _ & _). apply valid_profiles in Hv as [_ Hp]. split_and!.
  - unfold check_events, on_some in He. destruct (config_events c); [|done]. cbn [and_then].
    nth_clean 1%nat He. by eapply positive_field.
  - unfold check_mem_hygiene, on_some in Hm. destruct (config_mem_hygiene c); [|done]. cbn [and_then].
    nth_clean 0%nat Hm. by eapply positive_field.
  - intros p Hin. destruct (Hp p Hin) as [i H]. unfold check_profile in H.
    nth_clean 10%nat H. unfold on_some in H.
    destruct (profile_keepalive p); [|done]. cbn [and_then]. rewrite clean_app in H. destruct H.
    split; by eapply positive_field.
Qed.

(** ** Enforced gates *)

Lemma ungoverned_profiles c : config_profiles (ungoverned c) = config_profiles c.
Proof. reflexivity. Qed.

Lemma overlay_profiles cfg b : config_profiles (overlay_apply cfg b).1 = config_profiles cfg.
Proof.
  rewrite <- (ungoverned_profiles (overlay_apply cfg b).1), <- (ungoverned_profiles cfg). by rewrite overlay_ungoverned.
Qed.

Lemma overlay_sole_row cfg b r v x :
  rows_for (row_field r) ROWS = [r] -> row_rule r = Replace ->
  is_enforced b (row_key r) = true -> pb_machine b !! row_key r = Some v ->
  convert (b_kind (row_binding r)) v = Some x ->
  read (row_field r) (overlay_apply cfg b).1 = Some x.
Proof.
  intros Hrows Hrule He Hv Hx. rewrite overlay_read. unfold overlay_value. rewrite Hrows.
  unfold enforce_all, enforced_value, offered. cbn [foldl]. rewrite He, Hv. cbn [negb mbind option_bind].
  by rewrite Hx, Hrule.
Qed.

(** A row no other row shares its field with. *)
Definition sole (n : nat) : bool :=
  match (row_field <$> ROWS) !! n with
  | Some k => (length (filter (fun j => j = k) (row_field <$> ROWS)) =? 1)%nat
  | None => false
  end.

Lemma filter_row_field k l : length (filter (fun j => j = k) (row_field <$> l)) = length (rows_for k l).
Proof.
  induction l as [|r l IH]; [done|]. rewrite fmap_cons, filter_cons, rows_for_cons.
  destruct (decide (row_field r = k)); cbn [length]; by rewrite IH.
Qed.

Lemma sole_row n r : ROWS !! n = Some r -> sole n = true -> rows_for (row_field r) ROWS = [r].
Proof.
  intros Hr Hs. unfold sole in Hs. rewrite list_lookup_fmap, Hr in Hs. cbn [fmap option_fmap option_map] in Hs.
  apply Nat.eqb_eq in Hs. rewrite filter_row_field in Hs.
  assert (r ∈ rows_for (row_field r) ROWS) as Hin by (apply list_elem_of_filter; split; [done|by eapply list_elem_of_lookup_2]).
  destruct (rows_for _ _) as [|a [|? ?]]; [done| |done]. by apply list_elem_of_singleton in Hin as ->.
Qed.

(** The row of a capability gate, by its name. *)
Definition gate_key (name : string) : string := demo_key "Capabilities" name.

Definition enforced_off (b : PolicyBundle) (name : string) : Prop :=
  is_enforced b (gate_key name) = true /\
  exists v, pb_machine b !! gate_key name = Some v /\ as_bool v = Some false.

(** A gate the machine policy turns off is written off in the configuration. *)
Definition gate (name : string) (f : Capabilities -> option bool) : Prop :=
  forall cfg b, enforced_off b name -> exists cap, config_capabilities (overlay_apply cfg b).1 = Some cap /\ f cap = Some false.

Lemma gate_row (n k : nat) (name : string) (f : Capabilities -> option bool) :
  sole n = true ->
  (fun r => (row_key r, row_field r, row_rule r, b_kind (row_binding r))) <$> ROWS !! n = Some (gate_key name, k, Replace, KBool) ->
  f Capabilities_default = None ->
  (forall c, read k c = FBool <$> f (default Capabilities_default (config_capabilities c))) ->
  gate name f.
Proof.
  intros Hs Hrow Hdef Hread cfg b [He (v & Hv & Hb)].
  destruct (ROWS !! n) as [r|] eqn:Hr; [|done]. cbn [fmap option_fmap option_map] in Hrow.
  injection Hrow as Hkey Hk Hrule Hkind. rewrite <- Hkey in He, Hv.
  assert (convert (b_kind (row_binding r)) v = Some (FBool false)) as Hx by (rewrite Hkind; cbn; by rewrite Hb).
  pose proof (overlay_sole_row cfg b r v _ (sole_row n r Hr Hs) Hrule He Hv Hx) as H. rewrite Hk, Hread in H.
  destruct (config_capabilities _) as [cap|].
  - exists cap. split; [done|]. change (FBool <$> f cap = Some (FBool false)) in H. by destruct (f cap) as [[]|].
  - change (FBool <$> f Capabilities_default = Some (FBool false)) in H. by rewrite Hdef in H.
Qed.

Lemma gate_closed name f cfg b : gate name f -> enforced_off b name -> allows (config_capabilities (overlay_apply cfg b).1) f = false.
Proof. intros Hg Hoff. destruct (Hg cfg b Hoff) as (cap & -> & E). unfold allows, and_then. by rewrite E. Qed.

#[local] Ltac gate_at n := eapply (gate_row n); [vm_compute; reflexivity|vm_compute; reflexivity|reflexivity|reflexivity].

Lemma gate_dynamic_proxy : gate "AllowDynamicProxy" capabilities_allow_dynamic_proxy.
Proof. gate_at 59%nat. Qed.
Lemma gate_sftp : gate "AllowSftp" capabilities_allow_sftp.
Proof. gate_at 60%nat. Qed.
Lemma gate_mounts : gate "AllowFilesystemMounts" capabilities_allow_filesystem_mounts.
Proof. gate_at 61%nat. Qed.
Lemma gate_gssapi : gate "AllowGssapi" capabilities_allow_gssapi.
Proof. gate_at 52%nat. Qed.
Lemma gate_sspi : gate "AllowSspi" capabilities_allow_sspi.
Proof. gate_at 53%nat. Qed.
Lemma gate_post_quantum : gate "AllowPostQuantumKex" capabilities_allow_post_quantum_kex.
Proof. gate_at 56%nat. Qed.

Lemma clean_not_err b code path : clean (when b (err code path)) <-> b = false.
Proof. rewrite clean_when, clean_err. destruct b; split; (done || auto). Qed.

(** *** The logins of a profile *)

(** Every table that says how to log in: the profile's own, those of its
    endpoints and those of its hops. *)
Definition logins (p : Profile) : list Auth :=
  option_list (profile_auth p) ++ omap endpoint_auth (profile_endpoints p) ++ omap hop_auth (profile_hops p).

(** The method of a login, without blanks around it and in any case. *)
Definition logs_in_by (names : list string) (a : Auth) : Prop := to_ascii_lowercase (trim (auth_method a)) ∈ names.
Definition KERBEROS_METHODS : list string := ["gssapi"; "kerberos"; "gssapi-with-mic"; "gssapi_with_mic"].
Definition SSPI_METHODS : list string := ["sspi"; "negotiate"].

Lemma strip_ws_prefix x r y : strip_ws x = Some y -> strip_ws (x +:+ r) = Some (y +:+ r)%string.
Proof.
  destruct x as [|a [|b [|c x]]]; rewrite ?str_cons_app, ?str_nil_app; cbn [strip_ws]; [done| | |]; (destruct (ascii_ws a); [by intros [= <-]|]); [done| |].
  - destruct (_ && (_ || _)); [by intros [= <-]|done].
  - destruct (_ && (_ || _)); [by intros [= <-]|]. match goal with |- (if ?c then _ else _) = _ -> _ => destruct c end; [by intros [= <-]|done].
Qed.

Lemma blank_app x r : is_blank x = true -> is_blank (x +:+ r) = is_blank r.
Proof.
  unfold is_blank. remember (String.length x) as n eqn:En. revert x En. induction n as [n IH] using lt_wf_ind. intros x ->.
  rewrite (trim_start_step x). destruct (strip_ws x) as [y|] eqn:E.
  - intros Hy. rewrite (trim_start_step (x +:+ r)), (strip_ws_prefix x r y E). by apply (IH (String.length y)); [apply strip_ws_shorter|..].
  - intros ->%String.eqb_eq. by rewrite str_nil_app.
Qed.

Lemma trim_end_rest_blank s : exists r, s = (trim_end s +:+ r)%string /\ is_blank r = true.
Proof.
  induction s as [|a s IH]; [by exists ""%string|]. cbn [trim_end]. destruct (is_blank (String a s)) eqn:E; [by exists (String a s)|].
  destruct IH as (r & Es & Hr). exists r. split; [|done]. rewrite str_cons_app. by rewrite <- Es.
Qed.

Lemma trim_end_twice s : trim_end (trim_end s) = trim_end s.
Proof.
  induction s as [|a s IH]; [done|]. cbn [trim_end]. destruct (is_blank (String a s)) eqn:E; [done|]. cbn [trim_end]. rewrite IH.
  destruct (is_blank (String a (trim_end s))) eqn:E'; [|done]. destruct (trim_end_rest_blank s) as (r & Es & Hr).
  pose proof (blank_app _ r E') as Hb. rewrite str_cons_app, <- Es, E, Hr in Hb. done.
Qed.

Lemma trim_twice s : trim (trim s) = trim s.
Proof.
  unfold trim. destruct (strip_ws (trim_end (trim_start s))) as [y|] eqn:E; [|by rewrite trim_start_free, trim_end_twice].
  exfalso. destruct (trim_end_rest_blank (trim_start s)) as (r & Es & _). pose proof (strip_ws_prefix _ r _ E) as E'. rewrite <- Es in E'.
  assert (strip_ws (trim_start s) = None) as En; [|congruence]. clear. remember (String.length s) as n eqn:En. revert s En. induction n as [n IH] using lt_wf_ind.
  intros s ->. rewrite trim_start_step. destruct (strip_ws s) as [y|] eqn:E; [|done]. by apply (IH (String.length y)); [apply strip_ws_shorter|].
Qed.

Lemma kerberos_normal a : logs_in_by KERBEROS_METHODS a -> normalize_auth_method (trim (auth_method a)) = "gssapi".
Proof.
  unfold logs_in_by, normalize_auth_method, KERBEROS_METHODS. rewrite trim_twice. intros H. repeat (apply elem_of_cons in H as [->|H]; [reflexivity|]). by apply elem_of_nil in H.
Qed.

Lemma sspi_normal a : logs_in_by SSPI_METHODS a -> normalize_auth_method (trim (auth_method a)) = "sspi".
Proof.
  unfold logs_in_by, normalize_auth_method, SSPI_METHODS. rewrite trim_twice. intros H. repeat (apply elem_of_cons in H as [->|H]; [reflexivity|]). by apply elem_of_nil in H.
Qed.

(** A login that passed its checks. *)
Definition login_clean (c : Config) (a : Auth) : Prop := exists protocol prefix, clean (check_auth windows a protocol (config_capabilities c) prefix).

Lemma clean_auth_method c a :
  login_clean c a ->
  (logs_in_by KERBEROS_METHODS a -> allows (config_capabilities c) capabilities_allow_gssapi = true) /\
  (logs_in_by SSPI_METHODS a -> allows (config_capabilities c) capabilities_allow_sspi = true).
Proof.
  intros (protocol & prefix & H). unfold check_auth in H. nth_clean 1%nat H. split.
  - intros Hm%kerberos_normal. rewrite Hm in H. cbn [String.eqb Ascii.eqb Bool.eqb] in H. unfold check_gssapi in H. nth_clean 2%nat H.
    apply clean_not_err in H. by apply negb_false_iff in H.
  - intros Hm%sspi_normal. rewrite Hm in H. cbn [String.eqb Ascii.eqb Bool.eqb] in H. unfold check_sspi in H. nth_clean 2%nat H.
    apply clean_not_err in H. by apply negb_false_iff in H.
Qed.

Lemma profile_logins_clean c p : profile_clean c p -> forall a, a ∈ logins p -> login_clean c a.
Proof.
  intros [i H] a Ha. unfold logins in Ha. rewrite !elem_of_app in Ha. unfold check_profile in H. destruct Ha as [Ha|[Ha|Ha]].
  - nth_clean 2%nat H. destruct (profile_auth p) as [a'|]; [|by apply elem_of_nil in Ha]. apply list_elem_of_singleton in Ha as ->. by eexists _, _.
  - apply list_elem_of_omap in Ha as (ep & Hep & Ha). nth_clean 1%nat H. apply clean_unique_loop in H as [_ H]; [|intros j x; apply dup_unclean].
    apply list_elem_of_lookup in Hep as [j Hj]. specialize (H j ep Hj). unfold check_endpoint in H. nth_clean 2%nat H. rewrite Ha in H. by eexists _, _.
  - apply list_elem_of_omap in Ha as (hop & Hhop & Ha). nth_clean 5%nat H. apply list_elem_of_lookup in Hhop as [j Hj].
    pose proof (proj1 (clean_each_indexed _ _) H j hop Hj) as Hc. unfold check_hop in Hc. nth_clean 3%nat Hc. rewrite Ha in Hc. by eexists _, _.
Qed.

(** *** Post-quantum key exchange *)

Definition PQ_NAMES : list string :=
  ["mlkem768x25519-sha256"; "mlkem768x25519-sha256@openssh.com"; "mlkem768nistp256-sha256"; "mlkem1024nistp384-sha384";
   "sntrup761x25519-sha512"; "sntrup761x25519-sha512@openssh.com"].

(** A valid configuration does not require what it turns off. *)
Lemma not_required c cap :
  valid c -> config_capabilities c = Some cap -> capabilities_allow_post_quantum_kex cap = Some false -> set_true (capabilities_require_post_quantum_kex cap) = false.
Proof.
  intros Hv Hc Hoff. apply valid_tables in Hv as (_ & _ & H & _). unfold check_capabilities in H. rewrite Hc in H. cbn [on_some] in H. cbv zeta in H.
  nth_clean 2%nat H. apply clean_not_err in H. rewrite Hoff in H. destruct (capabilities_require_post_quantum_kex cap) as [[]|]; [|done|done]. done.
Qed.

(** What a closed gate keeps out of a clean profile. *)
Lemma closed_gates c p :
  profile_clean c p ->
  (allows (config_capabilities c) capabilities_allow_dynamic_proxy = false ->
     forall f, f ∈ profile_forwards p -> forward_kind f <> "dynamic") /\
  (allows (config_capabilities c) capabilities_allow_sftp = false \/
   allows (config_capabilities c) capabilities_allow_filesystem_mounts = false -> profile_sftp_mounts p = []) /\
  (allows (config_capabilities c) capabilities_allow_gssapi = false -> forall a, a ∈ logins p -> ~ logs_in_by KERBEROS_METHODS a) /\
  (allows (config_capabilities c) capabilities_allow_sspi = false -> forall a, a ∈ logins p -> ~ logs_in_by SSPI_METHODS a).
Proof.
  intros Hc. split_and!.
  - intros Hoff f Hf Hk.
    destruct (proj2 (profile_forwards_clean _ _ Hc) f Hf) as (i & j & H). unfold check_forward in H. nth_clean 3%nat H.
    unfold check_forward_dynamic in H. rewrite Hk in H. cbn [String.eqb Ascii.eqb Bool.eqb] in H. nth_clean 2%nat H. apply clean_not_err in H. by rewrite Hoff in H.
  - intros Hoff. destruct (profile_sftp_mounts p) as [|m l] eqn:E; [done|].
    destruct (proj2 (profile_mounts_clean _ _ Hc) m) as (i & j & H); [rewrite E; left|].
    unfold check_sftp_mount in H. cbv zeta in H. pose proof H as Hs. nth_clean 3%nat Hs. nth_clean 4%nat H. rename H into Hm.
    apply clean_not_err in Hs, Hm. by destruct Hoff as [Hoff|Hoff]; rewrite Hoff in *.
  - intros Hoff a Ha Hm. apply (proj1 (clean_auth_method c a (profile_logins_clean _ _ Hc a Ha))) in Hm. congruence.
  - intros Hoff a Ha Hm. apply (proj2 (clean_auth_method c a (profile_logins_clean _ _ Hc a Ha))) in Hm. congruence.
Qed.

(** C39: a capability the machine policy enforces as off stays off, whatever the
    file and the user hive say, once the overlaid configuration validates: no
    profile has a dynamic forward, none has an SFTP mount, no login of a
    profile, of one of its endpoints or of one of its hops is by Kerberos, none
    is by SSPI, and an SSH2 profile, with or without a list of its own and with
    every preset, offers a list of key exchanges that is not empty and has no
    post-quantum one in it.  (SSH3 profiles have a switch of their own, which
    the gate does not reach: [ssh3_ignores_the_gate].) *)
Theorem enforced_gates_hold (cfg : Config) (b : PolicyBundle) (p : Profile) :
  valid (overlay_apply cfg b).1 -> p ∈ config_profiles cfg ->
  (enforced_off b "AllowDynamicProxy" -> forall f, f ∈ profile_forwards p -> forward_kind f <> "dynamic") /\
  (enforced_off b "AllowSftp" \/ enforced_off b "AllowFilesystemMounts" -> profile_sftp_mounts p = []) /\
  (enforced_off b "AllowGssapi" -> forall a, a ∈ logins p -> ~ logs_in_by KERBEROS_METHODS a) /\
  (enforced_off b "AllowSspi" -> forall a, a ∈ logins p -> ~ logs_in_by SSPI_METHODS a) /\
  (enforced_off b "AllowPostQuantumKex" -> forall library_default known crypto offered,
     ssh2_crypto p (config_capabilities (overlay_apply cfg b).1) = Ok crypto -> preferred_kex library_default known crypto = Ok offered ->
     offered <> [] /\ Forall (fun a => ~ among PQ_NAMES a) offered).
Proof.
  intros Hv Hp. rewrite <- (overlay_profiles cfg b) in Hp.
  destruct (closed_gates _ _ (proj2 (valid_profiles _ Hv) p Hp)) as (Hd & Hm & Hg & Hs). split_and!; intros Hoff.
  - exact (Hd (gate_closed _ _ cfg b gate_dynamic_proxy Hoff)).
  - apply Hm. destruct Hoff as [Hoff|Hoff]; [left; exact (gate_closed _ _ cfg b gate_sftp Hoff)|right; exact (gate_closed _ _ cfg b gate_mounts Hoff)].
  - exact (Hg (gate_closed _ _ cfg b gate_gssapi Hoff)).
  - exact (Hs (gate_closed _ _ cfg b gate_sspi Hoff)).
  - intros dflt known crypto offered Hc Ho. destruct (gate_post_quantum cfg b Hoff) as (cap & Hcap & Eoff).
    unfold ssh2_crypto in Hc. destruct (build_crypto_policy _) as [policy|]; [|done]. rewrite Hcap, Eoff in Hc.
    apply stripped in Hc as [Hne Hf]; [|by eapply not_required]. rewrite (preferred_explicit _ _ _ _ Hne Ho). split; [done|].
    eapply Forall_impl; [exact Hf|]. by intros a [Ha _].
Qed.

(** ** The forwards of a valid configuration *)

Definition size_ok (o : option string) : Prop := forall s, o = Some s -> s = "" \/ is_ok (parse_size s) = true.
Definition duration_ok (o : option string) : Prop := forall s, o = Some s -> s = "" \/ is_ok (parse_duration s) = true.

Lemma clean_size o path : clean (check_size_field o path) -> size_ok o.
Proof.
  intros H s ->. unfold check_size_field, on_some, str_empty in H. apply clean_not_err in H.
  destruct (String.eqb s "") eqn:E; [left; by apply String.eqb_eq|right]. by apply negb_false_iff in H.
Qed.

Lemma clean_duration o path : clean (check_duration_field o path) -> duration_ok o.
Proof.
  intros H s ->. unfold check_duration_field, on_some, str_empty in H. apply clean_not_err in H.
  destruct (String.eqb s "") eqn:E; [left; by apply String.eqb_eq|right]. by apply negb_false_iff in H.
Qed.

(** What the checks of a forward establish. *)
Record forward_facts (c : Config) (p : Profile) (f : Forward) : Prop := mkForwardFacts {
  ff_kind : forward_kind f ∈ ["local"; "remote"; "dynamic"];
  ff_transport : forward_transport f ∈ ["tcp"; "udp"];
  ff_dynamic : exists prefix, clean (check_forward_dynamic (profile_protocol p) (config_capabilities c) f prefix);
  ff_remote : forward_kind f = "remote" -> is_some (bind_str f) = true;
  ff_bind : exists prefix, clean (check_forward_bind (config_network c ?> network_interface) f prefix);
  ff_target : exists prefix, clean (check_forward_target f prefix);
  ff_bind_mode : exists prefix, clean (check_forward_bind_mode f prefix);
  ff_conflict : forall s, forward_on_bind_conflict f = Some s -> s ∈ ["fail"; "retry"; "next_port"];
  ff_size_in : size_ok (forward_max_bytes_per_second_in f);
  ff_size_out : size_ok (forward_max_bytes_per_second_out f);
  ff_idle : duration_ok (forward_idle_timeout f);
  ff_udp_idle : duration_ok (forward_udp_idle_timeout f);
  ff_link : exists prefix, clean (check_forward_link_kind f prefix);
  ff_resolve : forall s, forward_target_resolve f = Some s -> s ∈ ["local"; "remote"; "previous-hop"]
}.

Lemma negb_elem s l : negb (one_of s l) = false -> s ∈ l.
Proof. intros H. apply one_of_elem. by apply negb_false_iff. Qed.

Lemma forward_clean_facts c p f : forward_clean c p f -> forward_facts c p f.
Proof.
  intros (i & j & H). unfold check_forward in H. cbv zeta in H. split.
  - nth_clean 1%nat H. apply clean_not_err in H. by apply negb_elem.
  - nth_clean 2%nat H. apply clean_not_err in H. by apply negb_elem.
  - nth_clean 3%nat H. eauto.
  - nth_clean 7%nat H. apply clean_not_err in H. intros Hk. rewrite Hk in H. cbn in H. by apply negb_false_iff in H.
  - nth_clean 8%nat H. eauto.
  - nth_clean 9%nat H. eauto.
  - nth_clean 10%nat H. eauto.
  - nth_clean 12%nat H. exact (proj1 (clean_vocabulary _ _ _ _) H).
  - nth_clean 13%nat H. by eapply clean_size.
  - nth_clean 14%nat H. by eapply clean_size.
  - nth_clean 15%nat H. by eapply clean_duration.
  - nth_clean 16%nat H. by eapply clean_duration.
  - nth_clean 17%nat H. eauto.
  - nth_clean 18%nat H. exact (proj1 (clean_vocabulary _ _ _ _) H).
Qed.

(** ** Why a forward of a valid configuration may still be refused *)

(** The reasons the validator leaves to the start of the forward, each with
    what it takes. *)
Definition late_reason (f : Forward) (r : Reason) : Prop :=
  match r with
  | BadSize field => field = "max_burst_bytes_out" \/ field = "max_burst_bytes_in"
  | BadDuration field =>
      (field = "idle_timeout" /\ exists s, forward_idle_timeout f = Some s /\ trim s <> s) \/
      (field = "udp_idle_timeout" /\ exists s, forward_udp_idle_timeout f = Some s /\ (s = "" \/ trim s <> s))
  | UnixTarget => exists t path, target_str f = Some t /\ BindAddr_parse t = Ok (Unix path)
  | UnixWithBindMode | NotNumericHost | Ipv6Disabled | MissingInterface | BindUnresolved | NoCompatibleAddress =>
      is_some (forward_bind_mode f) = true
  | Unresolvable => forward_target_resolve f = Some "local"
  | MissingLocalPath => forward_link_kind f = Some "local_uds" /\ forward_local_socket_path f = None
  | BadLocalPath => exists path, forward_local_socket_path f = Some path /\ validate_local_path path = false
  | _ => False
  end.

Definition refused {A} (f : Forward) (m : Result ForwardRunnerError A) : Prop :=
  forall e, m = Err e -> exists r, e = Malformed (forward_name f) r /\ late_reason f r.

Lemma refused_ok {A} f (a : A) : refused f (Ok a).
Proof. by intros e H. Qed.

Lemma refused_malformed {A} f r : late_reason f r -> refused f (malformed f r : Result ForwardRunnerError A).
Proof. intros Hr e [= <-]. eauto. Qed.

Lemma refused_bind {A B} f (m : Result ForwardRunnerError A) (k : A -> Result ForwardRunnerError B) :
  refused f m -> (forall a, m = Ok a -> refused f (k a)) -> refused f (m ≫= k).
Proof. intros Hm Hk e. destruct m as [a|e']; cbn; [by apply Hk|intros [= <-]; by apply Hm]. Qed.

#[local] Hint Resolve refused_ok refused_malformed : core.

(** Evaluate the outcome, and only the outcome. *)
#[local] Ltac refused_now :=
  lazymatch goal with
  | |- refused ?f ?m => let v := eval vm_compute in m in change (refused f v); apply refused_ok
  end.

Lemma refused_size f o field :
  size_ok o \/ field = "max_burst_bytes_out" \/ field = "max_burst_bytes_in" -> refused f (parse_size_field f o field).
Proof.
  intros H. unfold parse_size_field. destruct o as [s|]; [|auto]. destruct (str_empty (trim s)) eqn:E; [auto|].
  destruct (parse_size s) eqn:P; [auto|]. apply refused_malformed. cbn. destruct H as [H|H]; [|done].
  destruct (H s eq_refl) as [->|Hs]; [done|]. by rewrite P in Hs.
Qed.

Lemma refused_limits c p f rc : forward_facts c p f -> refused f (effective_limits f rc).
Proof.
  intros F. unfold effective_limits. cbv zeta.
  repeat (apply refused_bind; [apply refused_size|intros ? _]); [| | | |auto].
  - left. apply (ff_size_out _ _ _ F).
  - left. apply (ff_size_in _ _ _ F).
  - auto.
  - auto.
Qed.

Lemma refused_idle c p f : forward_facts c p f -> refused f (parse_idle_timeout f).
Proof.
  intros F. unfold parse_idle_timeout. destruct (forward_idle_timeout f) as [s|] eqn:E; [|auto].
  destruct (str_empty (trim s)) eqn:Hs; [auto|]. destruct (humantime_parse s) eqn:P; [auto|].
  apply refused_malformed. left. split; [done|]. exists s. split; [done|]. intros Ht.
  destruct (ff_idle _ _ _ F s E) as [->|Hd]; [done|]. unfold parse_duration in Hd. rewrite Ht, P in Hd.
  rewrite Ht in Hs. unfold str_empty in Hs. by rewrite Hs in Hd.
Qed.

Lemma refused_udp_idle c p f rc : forward_facts c p f -> refused f (udp_idle_secs f rc).
Proof.
  intros F. unfold udp_idle_secs. apply refused_bind; [|auto]. destruct (forward_udp_idle_timeout f) as [s|] eqn:E; [|auto].
  destruct (humantime_parse s) eqn:P; [auto|]. apply refused_malformed. right. split; [done|]. exists s. split; [done|].
  destruct (ff_udp_idle _ _ _ F s E) as [->|Hd]; [by left|right]. intros Ht. unfold parse_duration in Hd.
  rewrite Ht, P in Hd. by destruct (String.eqb s "").
Qed.

Lemma refused_conflict c p f : forward_facts c p f -> refused f (parse_bind_conflict f).
Proof.
  intros F. unfold parse_bind_conflict. destruct (forward_on_bind_conflict f) as [s|] eqn:E; [|auto].
  pose proof (ff_conflict _ _ _ F s E) as H. rewrite !elem_of_cons, elem_of_nil in H.
  destruct H as [->|[->|[->|[]]]]; refused_now.
Qed.

Section Start.
Context {N : Type} {NETS : IpNets N}.
Context (enumerated : Result Error (list Interface)) (resolve_dns : string -> Z -> Result Error (list SocketAddr)).

Lemma refused_listen c p f s :
  forward_facts c p f -> bind_str f = Some s -> refused f (resolve_listen (N := N) enumerated f s).
Proof.
  intros F Hs. unfold resolve_listen. destruct (ff_bind _ _ _ F) as [pre Hb]. unfold check_forward_bind in Hb. rewrite Hs in Hb.
  destruct (BindAddr_parse s) as [a|]; [|by apply clean_err in Hb].
  destruct (forward_bind_mode f) as [mode|] eqn:Hm; [|auto].
  assert (is_some (forward_bind_mode f) = true) as Hset by (by rewrite Hm).
  destruct (listen_host_port a) as [[host port]|]; [|by apply refused_malformed].
  apply refused_bind.
  - destruct (ff_bind_mode _ _ _ F) as [pre' Hbm]. unfold check_forward_bind_mode in Hbm. rewrite Hm in Hbm. cbn [on_some] in Hbm.
    destruct (negb (one_of mode _)) eqn:V; [by apply clean_err in Hbm|]. apply negb_elem in V.
    rewrite !elem_of_cons, elem_of_nil in V. unfold bind_mode_from_forward. cbv zeta.
    destruct V as [->|[->|[->|[->|[->|[]]]]]]; cbn [String.eqb Ascii.eqb Bool.eqb]; try by auto.
    + destruct (parse_ip host) as [ip|]; [|by apply refused_malformed].
      by destruct (family_from_forward f), (is_ipv4 ip); auto.
    + destruct (forward_bind_interface f); [auto|by apply refused_malformed].
  - intros m _. destruct (resolve_bind enumerated m port); [|by apply refused_malformed].
    destruct (select_bind_addr _ _ _); [auto|by apply refused_malformed].
Qed.

Lemma refused_target c p f t :
  forward_facts c p f -> forward_kind f <> "dynamic" -> target_str f = Some t -> refused f (parse_target f t).
Proof.
  intros F Hk Ht. destruct (ff_target _ _ _ F) as [pre H]. unfold check_forward_target in H. rewrite Ht in H.
  rewrite (proj2 (String.eqb_neq _ _) Hk) in H. apply clean_not_err in H. unfold parse_target.
  destruct (BindAddr_parse t) as [[| |]|] eqn:E; try by auto. apply refused_malformed. cbn. eauto.
Qed.

Lemma refused_resolve c p f t : forward_facts c p f -> refused f (apply_target_resolve resolve_dns f t).
Proof.
  intros F. unfold apply_target_resolve. apply refused_bind.
  - destruct (forward_target_resolve f) as [s|] eqn:E; [|auto]. pose proof (ff_resolve _ _ _ F s E) as H.
    rewrite !elem_of_cons, elem_of_nil in H. destruct H as [->|[->|[->|[]]]]; refused_now.
  - intros policy Hp. destruct policy; [auto| |auto].
    assert (late_reason f Unresolvable) as Hl.
    { cbn. destruct (forward_target_resolve f) as [s|] eqn:E; [|done]. pose proof (ff_resolve _ _ _ F s E) as H.
      rewrite !elem_of_cons, elem_of_nil in H. by destruct H as [->|[->|[->|[]]]]. }
    destruct (resolve_dns _ _) as [[|a l]|]; auto.
Qed.
(** The paths of a Unix socket forward: the remote one is there. *)
Lemma refused_uds c p f kind :
  forward_facts c p f -> forward_link_kind f = Some kind -> kind = "local_uds" \/ kind = "remote_uds" -> refused f (uds_paths f).
Proof.
  intros F Hk Hkind. destruct (ff_link _ _ _ F) as [pre H]. unfold check_forward_link_kind in H. cbv zeta in H. rewrite Hk in H.
  assert (opt_filled (forward_remote_socket_path f) = true /\ (kind = "local_uds" \/ is_some (forward_local_socket_path f) = true)) as [Hr Hl].
  { destruct Hkind as [-> | ->]; cbn [opt_is String.eqb Ascii.eqb Bool.eqb] in H.
    - nth_clean 3%nat H. apply clean_not_err in H. cbn [andb] in H. apply negb_false_iff in H. auto.
    - do 4 apply clean_app in H as [_ H]. apply clean_app in H as [Hr Hl]. apply clean_not_err in Hr. apply negb_false_iff in Hr.
      split; [done|right]. destruct (forward_local_socket_path f); [done|]. by apply clean_err in Hl. }
  unfold uds_paths. destruct (forward_local_socket_path f) as [path|] eqn:E.
  - destruct (forward_remote_socket_path f); [|done]. destruct (validate_local_path path) eqn:V; [auto|].
    apply refused_malformed. cbn. eauto.
  - apply refused_malformed. cbn. by destruct Hl as [->|].
Qed.

Lemma refused_socket c p f rc :
  forward_facts c p f -> refused f (start_socket (N := N) enumerated resolve_dns f rc).
Proof.
  intros F. unfold start_socket. cbv zeta.
  apply refused_bind; [by eapply refused_limits|intros limits _].
  apply refused_bind; [by eapply refused_idle|intros idle _].
  apply refused_bind; [by eapply refused_conflict|intros conflict _].
  pose proof (ff_kind _ _ _ F) as Hk. rewrite !elem_of_cons, elem_of_nil in Hk.
  destruct (bind_str f) as [s|] eqn:Hs; [|exfalso].
  2:{ destruct (ff_bind _ _ _ F) as [pre H]. unfold check_forward_bind in H. rewrite Hs in H. apply clean_not_err in H.
      pose proof (ff_remote _ _ _ F) as Hr. rewrite Hs in Hr. destruct Hk as [Hk|[Hk|[Hk|[]]]]; rewrite Hk in H, Hr; try done. by specialize (Hr eq_refl). }
  cbn [mbind result_bind]. apply refused_bind; [by eapply refused_listen|intros listen _].
  pose proof (ff_transport _ _ _ F) as Ht. rewrite !elem_of_cons, elem_of_nil in Ht.
  destruct (String.eqb_spec (forward_kind f) "dynamic") as [Hd|Hd].
  - destruct (ff_dynamic _ _ _ F) as [pre H]. unfold check_forward_dynamic in H. rewrite Hd in H. cbn [String.eqb Ascii.eqb Bool.eqb] in H.
    nth_clean 0%nat H. apply clean_not_err, negb_false_iff in H. rewrite H. auto.
  - destruct (target_str f) as [t|] eqn:E; [|exfalso].
    2:{ destruct (ff_target _ _ _ F) as [pre H]. unfold check_forward_target in H. rewrite E in H.
        rewrite (proj2 (String.eqb_neq _ _) Hd) in H. apply clean_not_err in H. by destruct Hk as [Hk|[Hk|[Hk|[]]]]; rewrite Hk in *. }
    assert (is_ok (parse_direction f (forward_kind f)) = true /\ one_of (forward_kind f) ["local"; "remote"] = true) as [Hdir ->].
    { destruct Hk as [Hk|[Hk|[Hk|[]]]]; rewrite Hk in *; done. }
    cbn [mbind result_bind]. apply refused_bind; [by eapply refused_target|intros parsed _].
    apply refused_bind; [by eapply refused_resolve|intros target _].
    destruct (parse_direction f (forward_kind f)) as [dir|]; [|done]. cbn [mbind result_bind].
    destruct Ht as [Ht|[Ht|[]]]; rewrite Ht; cbn [String.eqb Ascii.eqb Bool.eqb]; [auto|].
    apply refused_bind; [by eapply refused_udp_idle|auto].
Qed.

Lemma opt_is_some o s : opt_is o s = true -> o = Some s.
Proof. destruct o as [x|]; cbn; [|done]. by intros ->%String.eqb_eq. Qed.

(** every way a forward of a valid configuration can still fail before the
    session is asked for it: a burst size, an interval the run-time parser is
    stricter about, a Unix target, a local name that does not resolve, a bind
    mode that finds no address, or a bad local socket path.  A missing bind or
    target, an unknown kind, transport, bind mode, conflict or resolve policy,
    a bad rate and a missing remote socket path are all caught before. *)
Theorem valid_forward_refusals (c : Config) (p : Profile) (f : Forward) (rc : ForwardRunnerConfig) e :
  valid c -> p ∈ config_profiles c -> f ∈ profile_forwards p ->
  start_spec (N := N) enumerated resolve_dns f rc = Err e ->
  exists r, e = Malformed (forward_name f) r /\ late_reason f r.
Proof.
  intros Hv Hp Hf. pose proof (forward_clean_facts _ _ _ (valid_forward c p f Hv Hp Hf)) as F.
  revert e. unfold start_spec. destruct (opt_is (forward_link_kind f) "local_uds") eqn:L.
  { apply opt_is_some in L. apply refused_bind; [eapply refused_uds; eauto|intros paths _].
    apply refused_bind; [by eapply refused_limits|]. intros; apply refused_ok. }
  destruct (opt_is (forward_link_kind f) "remote_uds") eqn:R; [|by eapply refused_socket].
  apply opt_is_some in R. apply refused_bind; [eapply refused_uds; eauto|intros paths _].
  apply refused_bind; [by eapply refused_limits|intros limits _]. apply refused_bind; [by eapply refused_idle|].
  intros; apply refused_ok.
Qed.
(** ** Exposure *)

Lemma bind_ok {E A B} (m : Result E A) (k : A -> Result E B) b : m ≫= k = Ok b -> exists a, m = Ok a /\ k a = Ok b.
Proof. destruct m as [a|]; [|done]. cbn. eauto. Qed.

(** Where the session is asked to listen. *)
Definition spec_listen (s : SpecOpen) : option BindAddr :=
  match s with
  | OpenLocal t | OpenRemote t => Some (tc_listen t)
  | OpenDynamic d => Some (dn_listen d)
  | OpenUdp u => Some (ud_listen u)
  | OpenUds _ | OpenRemoteUds _ => None
  end.

Lemma start_spec_listen f rc spec l :
  start_spec (N := N) enumerated resolve_dns f rc = Ok spec -> spec_listen spec = Some l ->
  exists s, bind_str f = Some s /\ resolve_listen (N := N) enumerated f s = Ok l.
Proof.
  unfold start_spec, start_local_uds, start_remote_uds, start_socket. cbv zeta.
  destruct (opt_is _ "local_uds"); [intros H Hl; do 2 apply bind_ok in H as (? & _ & H); by injection H as <-|].
  destruct (opt_is _ "remote_uds"); [intros H Hl; do 3 apply bind_ok in H as (? & _ & H); by injection H as <-|].
  intros H Hl. do 3 apply bind_ok in H as (? & _ & H). apply bind_ok in H as (s & Hs & H). apply bind_ok in H as (l' & Hr & H).
  exists s. split; [destruct (bind_str f); by simplify_eq|].
  assert (spec_listen spec = Some l') as Hl'; [|rewrite Hl in Hl'; by injection Hl' as ->].
  destruct (forward_kind f =? "dynamic")%string.
  { destruct (forward_transport f =? "tcp")%string; [by injection H as <-|done]. }
  destruct (one_of _ _); [|done]. do 3 apply bind_ok in H as (? & _ & H). apply bind_ok in H as (dir & _ & H).
  destruct (forward_transport f =? "tcp")%string; [injection H as <-; by destruct dir|].
  destruct (forward_transport f =? "udp")%string; [|done]. apply bind_ok in H as (? & _ & H). by injection H as <-.
Qed.

Lemma select_bind_elem l o fam a : select_bind_addr l o fam = Some a -> a ∈ l.
Proof.
  assert (forall g, find g l = Some a -> a ∈ l) as Hf.
  { intros g H. apply list_elem_of_In. by eapply find_some. }
  assert (head l = Some a -> a ∈ l) as Hh by (destruct l; [done|intros [= ->]; left]).
  unfold select_bind_addr. cbv zeta. destruct (opt_is o "disable"); [apply Hf|].
  destruct (opt_is o "prefer"), fam; try exact Hh; (destruct (find _ l) eqn:E; [intros [= ->]; by eapply Hf|exact Hh]).
Qed.

(** The addresses of the modes that need no exposure. *)
Lemma resolve_bind_private mode port addrs a ip :
  resolve_bind (N := N) enumerated mode port = Ok addrs -> mode = Loopback \/ mode = SpecificIp ip -> a ∈ addrs ->
  is_loopback (sa_ip a) = true \/ sa_ip a = ip.
Proof.
  unfold resolve_bind. intros H Hm Ha. apply bind_ok in H as (ifs & _ & H). destruct Hm as [-> | ->]; apply bind_ok in H as (l & [= <-] & [= <-]);
    apply (proj1 (sort_dedup_elem a _)) in Ha; rewrite !elem_of_cons, elem_of_nil in Ha.
  - left. by destruct Ha as [->|[->|[]]].
  - right. by destruct Ha as [->|[]].
Qed.

Lemma loopback_specified ip : is_loopback ip = true -> is_unspecified ip = false.
Proof. destruct ip as [a|a]; cbn; [|lia]. intros H. destruct (Z.eqb_spec a 0) as [->|]; [done|lia]. Qed.
Lemma start_spec_uds f rc spec :
  start_spec (N := N) enumerated resolve_dns f rc = Ok spec -> spec_listen spec = None ->
  forward_link_kind f = Some "local_uds" \/ forward_link_kind f = Some "remote_uds".
Proof.
  unfold start_spec, start_socket. cbv zeta.
  destruct (opt_is _ "local_uds") eqn:L; [left; by apply opt_is_some|].
  destruct (opt_is _ "remote_uds") eqn:R; [right; by apply opt_is_some|].
  intros H Hl. exfalso. do 5 apply bind_ok in H as (? & _ & H).
  destruct (forward_kind f =? "dynamic")%string.
  { destruct (forward_transport f =? "tcp")%string; [by injection H as <-|done]. }
  destruct (one_of _ _); [|done]. do 3 apply bind_ok in H as (? & _ & H). apply bind_ok in H as (dir & _ & H).
  destruct (forward_transport f =? "tcp")%string; [injection H as <-; by destruct dir|].
  destruct (forward_transport f =? "udp")%string; [|done]. apply bind_ok in H as (? & _ & H). by injection H as <-.
Qed.

(** What the checks say of a socket address that is not exposed. *)
Lemma unexposed_facts c p f text sock :
  forward_facts c p f -> forward_expose f <> Some true -> bind_str f = Some text -> BindAddr_parse text = Ok (Tcp sock) ->
  is_unspecified (sa_ip sock) = false /\
  forall mode, forward_bind_mode f = Some mode -> mode = "loopback" \/ mode = "specific_ip".
Proof.
  intros F He Ht Hs. assert (some_true (forward_expose f) = false) as Hex by (by destruct (forward_expose f) as [[]|]). split.
  - destruct (ff_bind _ _ _ F) as [pre H]. unfold check_forward_bind in H. rewrite Ht, Hs in H. cbv zeta in H.
    apply clean_app in H as [H _]. rewrite Hex in H. destruct (is_unspecified (sa_ip sock)); [|done].
    destruct (is_loopback (sa_ip sock)); cbn [negb andb] in H; apply clean_err in H; destruct H.
  - intros mode Hm. destruct (ff_bind_mode _ _ _ F) as [pre H]. unfold check_forward_bind_mode in H. rewrite Hm, Hex in H. cbn [on_some] in H.
    destruct (negb _) eqn:V in H; [by apply clean_err in H|]. apply negb_elem in V. apply clean_not_err in H.
    rewrite !elem_of_cons, elem_of_nil in V. destruct V as [->|[->|[->|[->|[->|[]]]]]]; auto; done.
Qed.

Lemma unexposed_listen c p f text sock l :
  forward_facts c p f -> forward_expose f <> Some true -> bind_str f = Some text -> BindAddr_parse text = Ok (Tcp sock) ->
  forward_bind_mode f <> Some "specific_ip" \/ is_ipv4 (sa_ip sock) = true ->
  resolve_listen (N := N) enumerated f text = Ok l ->
  match l with Tcp a => is_unspecified (sa_ip a) = false | _ => False end.
Proof.
  intros F He Ht Hs Hm Hr. destruct (unexposed_facts _ _ _ _ _ F He Ht Hs) as [Hu Hmodes].
  unfold resolve_listen in Hr. rewrite Hs in Hr. destruct (forward_bind_mode f) as [mode|] eqn:E; [|by injection Hr as <-].
  cbn [listen_host_port] in Hr. apply bind_ok in Hr as (m & Hmode & Hr).
  destruct (resolve_bind _ _ _) as [addrs|] eqn:Hb; [|done]. destruct (select_bind_addr _ _ _) as [a|] eqn:Hsel; [|done].
  injection Hr as <-. apply select_bind_elem in Hsel.
  destruct (Hmodes mode eq_refl) as [-> | ->]; unfold bind_mode_from_forward in Hmode; cbn [String.eqb Ascii.eqb Bool.eqb] in Hmode.
  - injection Hmode as <-. destruct (resolve_bind_private _ _ _ _ (V4 1) Hb (or_introl eq_refl) Hsel) as [H| ->]; [by apply loopback_specified|done].
  - destruct Hm as [Hm|Hm]; [done|]. destruct sock as [[v|v] port scope]; [|done]. cbn [sa_ip ip_to_string sa_port] in *.
    rewrite parse_ipv4_printed in Hmode by (by eapply BindAddr_parse_v4_range). cbn [is_ipv4] in Hmode.
    assert (m = SpecificIp (V4 v)) as -> by (by destruct (family_from_forward f); injection Hmode as <-).
    destruct (resolve_bind_private _ _ _ _ (V4 v) Hb (or_intror eq_refl) Hsel) as [H| ->]; [by apply loopback_specified|done].
Qed.

(** a forward that is not exposed never listens on every interface: in a
    valid configuration, when the bind address is written as a socket address
    (an IPv4 one where [specific_ip] re-reads it), whatever the bind mode the
    listener is that of a specified address, or is a Unix socket. *)
Theorem unexposed_listens_narrow (c : Config) (p : Profile) (f : Forward) (rc : ForwardRunnerConfig) text sock spec :
  valid c -> p ∈ config_profiles c -> f ∈ profile_forwards p ->
  forward_expose f <> Some true ->
  bind_str f = Some text -> BindAddr_parse text = Ok (Tcp sock) ->
  (forward_bind_mode f <> Some "specific_ip" \/ is_ipv4 (sa_ip sock) = true) ->
  start_spec (N := N) enumerated resolve_dns f rc = Ok spec ->
  match spec_listen spec with
  | Some (Tcp a) => is_unspecified (sa_ip a) = false
  | Some _ => False
  | None => forward_link_kind f = Some "local_uds" \/ forward_link_kind f = Some "remote_uds"
  end.
Proof.
  intros Hv Hp Hf He Ht Hs Hmode Hok. pose proof (forward_clean_facts _ _ _ (valid_forward c p f Hv Hp Hf)) as F.
  destruct (spec_listen spec) as [l|] eqn:Hl; [|by eapply start_spec_uds].
  destruct (start_spec_listen _ _ _ _ Hok Hl) as (s & Hs' & Hr). rewrite Ht in Hs'. injection Hs' as <-.
  eapply unexposed_listen; eauto.
Qed.
End Start.
End Valid.

(** ** Examples *)

(** Whole seconds, and plain byte counts. *)
Definition demo_time : HumanTime := {|
  humantime_parse s :=
    match split_once "s" s with
    | Some (n, EmptyString) => match parse_uint 64 n with Some v => Ok (v * 10 ^ 9) | None => Err "invalid number" end
    | _ => Err "unknown unit"
    end |}.
Definition demo_sizes : ByteSizes := {|
  bytesize_parse s := match parse_uint 64 s with Some v => Ok v | None => Err "invalid size" end |}.
#[local] Existing Instances demo_time demo_sizes toy_nets.

(** A TCP forward with its bind address, its bind mode and its exposure. *)
Definition demo_forward (name kind bind : string) (mode : option string) (expose : option bool) (target : option string) : Forward :=
  mkForward name kind "tcp" (Some bind) mode None None None expose target None None None None None None (Some "30s") None None None None
    None (Some "1000") None None None None None None None None None None None.

Definition demo_profile (forwards : list Forward) : Profile :=
  mkProfile "office" None None "ssh2" (Some "gw.example.org") None None None (Some "ops") None None None None None None None None None None
    None None (Some (mkKeepalive (Some "15s") None None)) None None None None [] [] forwards [] None None.

Definition demo_valid_config (forwards : list Forward) : Config :=
  mkConfig 1 None None None None None None None None None None None None None None None RoundRobinConfig_default StatusApiConfig_default
    [demo_profile forwards].

Definition web : Forward := demo_forward "web" "local" "127.0.0.1:8080" None None (Some "intranet:80").
Definition lan : Forward := demo_forward "lan" "local" "192.168.1.10:8443" (Some "specific_ip") None (Some "10.0.0.5:443").
Definition socks : Forward := demo_forward "socks" "dynamic" "127.0.0.1:1080" (Some "loopback") None None.
Definition demo_office : Config := demo_valid_config [web; lan].

Lemma demo_office_valid : valid false demo_office.
Proof. vm_compute. reflexivity. Qed.

Lemma valid_names_unique_witness :
  NoDup (profile_name <$> config_profiles demo_office) /\ NoDup (forward_name <$> profile_forwards (demo_profile [web; lan])).
Proof.
  destruct (valid_names_unique false demo_office demo_office_valid) as [Hp Hf]. split; [exact Hp|].
  exact (proj1 (proj2 (Hf _ (list_elem_of_here _ _)))).
Defined.

Lemma valid_intervals_positive_witness : exists d, parse_duration "15s" = Ok d /\ d <> 0.
Proof.
  destruct (valid_intervals_positive false demo_office demo_office_valid) as (_ & _ & H).
  destruct (proj1 (H _ (list_elem_of_here _ _)) "15s" eq_refl) as [H0|H1]; [discriminate H0|exact H1].
Defined.

(** The machine policy turns dynamic forwards and post-quantum exchange off. *)
Definition no_socks : PolicyBundle :=
  mkPolicyBundle {[ gate_key "AllowDynamicProxy" := PBool false; gate_key "AllowPostQuantumKex" := PBool false ]} ∅
    {[ gate_key "AllowDynamicProxy"; gate_key "AllowPostQuantumKex" ]}.

Lemma enforced_gates_hold_witness :
  Forall (fun f => forward_kind f <> "dynamic") [web; lan] /\
  exists crypto, ssh2_crypto (demo_profile [web; lan]) (config_capabilities (overlay_apply demo_office no_socks).1) = Ok crypto /\
    Forall (fun a => ~ among PQ_NAMES a) (cp_kex crypto).
Proof.
  assert (valid false (overlay_apply demo_office no_socks).1) as Hv by (vm_compute; reflexivity).
  destruct (enforced_gates_hold false demo_office no_socks _ Hv (list_elem_of_here _ _)) as (Hd & _ & _ & _ & Hq). split.
  - apply Forall_forall, Hd. split; [vm_compute; reflexivity|]. exists (PBool false). split; vm_compute; reflexivity.
  - destruct (ssh2_crypto (demo_profile [web; lan]) (config_capabilities (overlay_apply demo_office no_socks).1)) as [crypto|] eqn:E; [|vm_compute in E; discriminate E].
    exists crypto. split; [reflexivity|]. apply (Hq (conj eq_refl (ex_intro _ (PBool false) (conj eq_refl eq_refl))) [] (fun _ => true) crypto (cp_kex crypto) eq_refl).
    vm_compute in E. injection E as <-. vm_compute. reflexivity.
Defined.

(** The same policy, and an SSH3 profile that says nothing about it: it is valid,
    and its handshake offers the post-quantum exchange. *)
Theorem ssh3_ignores_the_gate :
  let p := mkProfile "edge" None None "ssh3" None None (Some "https://gw.example.org/ssh3") (Some true) (Some "ops") None None None None None None None None None None
    None None None None None None None [] [] [] [] None None in
  let cfg := mkConfig 1 None None None None None None None None None None None None None None None RoundRobinConfig_default StatusApiConfig_default [p] in
  valid false (overlay_apply cfg no_socks).1 /\ enforced_off no_socks "AllowPostQuantumKex" /\ ssh3_uses_post_quantum p = true.
Proof. split; [vm_compute; reflexivity|]. split; [|reflexivity]. split; [vm_compute; reflexivity|]. exists (PBool false). split; vm_compute; reflexivity. Qed.

(** A file that asks for a dynamic forward and for its capability is accepted
    without the policy and refused with it. *)
Example policy_refuses_socks :
  let c := put (ensure_capabilities ∙ capabilities_allow_dynamic_proxy_l) (Some true) (demo_valid_config [socks]) in
  valid false c /\ ~ valid false (overlay_apply c no_socks).1.
Proof. split; vm_compute; [reflexivity|discriminate]. Qed.

Definition demo_limits : ForwardRunnerConfig := mkRunnerConfig None (mkRateLimits 0 0 0 0 0 0 0).
Definition no_dns (host : string) (port : Z) : Result Error (list SocketAddr) := Err (DnsFailed host).
Definition demo_start (f : Forward) : Result ForwardRunnerError SpecOpen := start_spec (Ok []) no_dns f demo_limits.

(** A forward to a Unix socket passes the checks and is refused at its start. *)
Definition pg : Forward := demo_forward "pg" "local" "127.0.0.1:5432" None None (Some "unix:///run/pg.sock").

Lemma valid_forward_refusals_witness :
  demo_start pg = Err (Malformed "pg" UnixTarget) /\ late_reason pg UnixTarget.
Proof.
  assert (demo_start pg = Err (Malformed "pg" UnixTarget)) as E by (vm_compute; reflexivity). split; [exact E|].
  assert (valid false (demo_valid_config [pg])) as Hv by (vm_compute; reflexivity).
  destruct (valid_forward_refusals false (Ok []) no_dns (demo_valid_config [pg]) (demo_profile [pg]) pg demo_limits _ Hv
    (list_elem_of_here _ _) (list_elem_of_here _ _) E) as (r & Hr & Hl).
  injection Hr as <-. exact Hl.
Defined.

Lemma unexposed_listens_narrow_witness :
  exists spec a, demo_start lan = Ok spec /\ spec_listen spec = Some (Tcp a) /\ is_unspecified (sa_ip a) = false.
Proof.
  destruct (demo_start lan) as [spec|] eqn:E; [|vm_compute in E; discriminate E].
  assert (exists a, spec_listen spec = Some (Tcp a)) as [a Ha] by (vm_compute in E; injection E as <-; eexists; reflexivity).
  exists spec, a. split; [reflexivity|]. split; [exact Ha|].
  pose proof (unexposed_listens_narrow false (Ok []) no_dns demo_office (demo_profile [web; lan]) lan demo_limits "192.168.1.10:8443"
    (mkSocketAddr (V4 3232235786) 8443 0) spec demo_office_valid (list_elem_of_here _ _)) as H.
  rewrite Ha in H. apply H; [right; left|discriminate|reflexivity|vm_compute; reflexivity|right; reflexivity|exact E].
Defined.

(** ** Where the checks stop short *)

(** A signed port makes the bind address a host name, which the exposure
    checks do not look at; [specific_ip] reads the host as an address again, and
    the forward listens on every interface without [expose]. *)
Theorem signed_port_hides_wildcard :
  let f := demo_forward "open" "local" "0.0.0.0:+8080" (Some "specific_ip") None (Some "intranet:80") in
  valid false (demo_valid_config [f]) /\
  exists spec, demo_start f = Ok spec /\ spec_listen spec = Some (Tcp (mkSocketAddr (V4 0) 8080 0)).
Proof. split; [vm_compute; reflexivity|]. eexists. split; vm_compute; reflexivity. Qed.

(** The same bind address without the sign is refused. *)
Example plain_wildcard_refused :
  ~ valid false (demo_valid_config [demo_forward "open" "local" "0.0.0.0:8080" (Some "specific_ip") None (Some "intranet:80")]).
Proof. vm_compute. discriminate. Qed.

(** [allow_all_interfaces = false] looks at the bind address and not at the
    bind mode: a loopback address with [all_interfaces] still listens on every
    interface. *)
Theorem all_interfaces_gate_misses_mode :
  let f := demo_forward "open" "local" "127.0.0.1:8080" (Some "all_interfaces") (Some true) (Some "intranet:80") in
  let c := put (ensure_network_interface ∙ network_interface_allow_all_interfaces_l) (Some false) (demo_valid_config [f]) in
  valid false c /\ exists spec, demo_start f = Ok spec /\ spec_listen spec = Some (Tcp (mkSocketAddr (V4 0) 8080 0)).
Proof. split; [vm_compute; reflexivity|]. eexists. split; vm_compute; reflexivity. Qed.
