(* ===== verification/McpPolicy.v ===== *)
(** * The policy of the management interface

    Models [crates/spt-mcp/src/policy.rs] with the JSON values of [serde_json]
    it walks: the enable bit, the list of tools that may write, the pins, and
    the redaction of every value sent out.  The table behind
    [str::to_lowercase] is an argument. *)

From S2P Require Import Prelude Bytes Text.

(** ** JSON *)

(** [Number]: a [u64], a negative [i64] or the bits of an [f64]. *)
Inductive Number := NPos (n : Z) | NNeg (n : Z) | NFloat (bits : Z).

(** [Value]; an object is its entries in key order ([Map] is a [BTreeMap]). *)
#[local] Unset Elimination Schemes.
Inductive Json :=
| JNull
| JBool (b : bool)
| JNumber (n : Number)
| JString (s : string)
| JArray (l : list Json)
| JObject (m : list (string * Json)).
#[local] Set Elimination Schemes.

(** The induction a nested type needs. *)
Section Json_ind.
Context (P : Json -> Prop).
Context (Hnull : P JNull) (Hbool : forall b, P (JBool b)) (Hnum : forall n, P (JNumber n)) (Hstr : forall s, P (JString s)).
Context (Harr : forall l, Forall P l -> P (JArray l)) (Hobj : forall m, Forall (fun kv => P kv.2) m -> P (JObject m)).
Definition Json_nested_ind : forall v, P v :=
  fix go v :=
    match v with
    | JNull => Hnull
    | JBool b => Hbool b
    | JNumber n => Hnum n
    | JString s => Hstr s
    | JArray l => Harr l ((fix all l := match l return Forall P l with
                                        | [] => Forall_nil_2 _
                                        | x :: r => Forall_cons_2 _ _ _ (go x) (all r)
                                        end) l)
    | JObject m => Hobj m ((fix all m := match m return Forall (fun kv => P kv.2) m with
                                         | [] => Forall_nil_2 _
                                         | kv :: r => Forall_cons_2 _ _ _ (go kv.2) (all r)
                                         end) m)
    end.
End Json_ind.

(** [Map::insert]. *)
Fixpoint map_insert (k : string) (v : Json) (m : list (string * Json)) : list (string * Json) :=
  match m with
  | [] => [(k, v)]
  | (k', v') :: r =>
      match String.compare k k' with
      | Lt => (k, v) :: m
      | Eq => (k, v) :: r
      | Gt => (k', v') :: map_insert k v r
      end
  end.

(** [json!({..})]. *)
Definition obj (l : list (string * Json)) : Json := JObject (foldl (fun m kv => map_insert kv.1 kv.2 m) [] l).

Fixpoint assoc (k : string) (m : list (string * Json)) : option Json :=
  match m with
  | [] => None
  | (k', v) :: r => if (k =? k')%string then Some v else assoc k r
  end.

(** [Value::get] with a key. *)
Definition json_get (k : string) (v : Json) : option Json := match v with JObject m => assoc k m | _ => None end.
Definition as_str (v : Json) : option string := match v with JString s => Some s | _ => None end.
Definition as_u64 (v : Json) : option Z := match v with JNumber (NPos n) => Some n | _ => None end.

(** [str::contains] with a pattern. *)
Fixpoint str_contains (p s : string) : bool :=
  starts_with p s || match s with EmptyString => false | String _ r => str_contains p r end.

(** ** Errors ([error.rs]) *)

Inductive McpError :=
| McpIo (e : string)
| McpJson (e : string)
| PolicyDenied (e : string)
| McpDisabled
| NotImplemented (e : string)
| ResourceNotFound (e : string)
| ToolNotFound (e : string)
| InvalidParams (e : string)
| MethodNotFound (e : string)
| McpInternal (e : string).

Definition McpError_to_string (e : McpError) : string :=
  match e with
  | McpIo e => "io: " +:+ e
  | McpJson e => "json: " +:+ e
  | PolicyDenied e => "policy denied: " +:+ e
  | McpDisabled => "mcp disabled"
  | NotImplemented e => "not implemented: " +:+ e
  | ResourceNotFound e => "resource not found: " +:+ e
  | ToolNotFound e => "tool not found: " +:+ e
  | InvalidParams e => "invalid params: " +:+ e
  | MethodNotFound e => "method not found: " +:+ e
  | McpInternal e => "internal: " +:+ e
  end%string.

Definition rpc_code (e : McpError) : Z :=
  match e with
  | McpJson _ => -32700
  | InvalidParams _ => -32602
  | MethodNotFound _ => -32601
  | PolicyDenied _ => -32001
  | McpDisabled => -32002
  | NotImplemented _ => -32003
  | ResourceNotFound _ => -32004
  | ToolNotFound _ => -32005
  | McpIo _ | McpInternal _ => -32603
  end.

(** ** The policy *)

Inductive McpMode := ReadOnly | ReadWrite.

Definition McpMode_from_config_str (s : option string) : McpMode :=
  match s with
  | Some s => if (trim s =? "read_write")%string then ReadWrite else ReadOnly
  | None => ReadOnly
  end.

Record TlsPinPolicy := mkTlsPinPolicy {
  pin_spki_sha256 : list string;
  tp_allow_self_signed : bool;
  tp_max_cert_chain_depth : option Z
}.

Definition is_pinning (p : TlsPinPolicy) : bool := existsb (fun pin => negb (trim pin =? "")%string) (pin_spki_sha256 p).

Definition TlsPinPolicy_validate (p : TlsPinPolicy) : Result McpError () :=
  if existsb (fun pin => (trim pin =? "")%string) (pin_spki_sha256 p)
  then Err (PolicyDenied "mcp.pin_spki_sha256 contains a blank pin")
  else if tp_allow_self_signed p && negb (is_pinning p)
  then Err (PolicyDenied ("mcp.allow_self_signed requires a non-empty mcp.pin_spki_sha256 set " +:+
                          "(refusing an unauthenticated TLS posture)"))
  else Ok tt.

Definition normalize_pin (s : string) : string :=
  let t := trim s in
  let t := match strip_prefix "SHA256:" t with Some r => r | None => default t (strip_prefix "sha256:" t) end in
  to_ascii_lowercase (trim t).

Definition verify_spki (p : TlsPinPolicy) (presented : string) : Result McpError () :=
  if negb (is_pinning p) then Ok tt
  else
    let want := normalize_pin presented in
    if existsb (fun pin => (normalize_pin pin =? want)%string) (pin_spki_sha256 p) then Ok tt
    else Err (PolicyDenied "MCP TLS pin mismatch: presented certificate SPKI not in pin set").

Definition verify_chain_depth (p : TlsPinPolicy) (depth : Z) : Result McpError () :=
  match tp_max_cert_chain_depth p with
  | Some cap =>
      if cap <? depth
      then Err (PolicyDenied ("MCP TLS chain depth " +:+ pretty depth +:+ " exceeds max_cert_chain_depth " +:+ pretty cap))
      else Ok tt
  | None => Ok tt
  end.

Record McpPolicy := mkMcpPolicy {
  mp_enabled : bool;
  mp_default_mode : McpMode;
  mp_allow_write_tools : list string;
  mp_allow_secret_reveal : bool;
  mp_listen : string;
  mp_stdio : bool;
  mp_tls_pins : TlsPinPolicy
}.

Definition McpPolicy_default : McpPolicy := mkMcpPolicy false ReadOnly [] false "" true (mkTlsPinPolicy [] false None).

Definition WRITE_TOOLS : list string :=
  ["profile_set"; "profile_stop"; "forward_add"; "forward_remove"; "tunnel_reload"; "tunnel_failover"; "diagnose_run";
   "diagnose_bundle"; "benchmark_run"; "benchmark_report_export"; "dns_record_add"; "dns_record_remove"; "event_test";
   "secret_set_ref"; "session_close"; "session_drain"; "stats_subscribe"; "events_subscribe"; "log_set_level"].

Definition ensure_enabled (p : McpPolicy) : Result McpError () := if mp_enabled p then Ok tt else Err McpDisabled.

Definition str_in (s : string) (l : list string) : bool := existsb (String.eqb s) l.

Definition ensure_write_allowed (p : McpPolicy) (tool : string) : Result McpError () :=
  if negb (str_in tool WRITE_TOOLS) then Ok tt
  else match mp_default_mode p with
       | ReadWrite => Ok tt
       | ReadOnly =>
           if str_in tool (mp_allow_write_tools p) then Ok tt
           else Err (PolicyDenied ("tool " +:+ tool +:+ " is not in allow_write_tools"))
       end.

(** ** Redaction *)

Definition SENSITIVE_KEY_HINTS : list string :=
  ["password"; "passphrase"; "secret"; "token"; "api_key"; "apikey"; "auth_key"; "private_key"; "privkey"; "bearer"; "credential"].

Definition looks_like_secret_uri (s : string) : bool := starts_with "secret://" s.

Definition redacted_token : Json := JString "***".

Section Redact.
Context (to_lowercase : string -> string).

Definition key_is_sensitive (key : string) : bool :=
  let lower := to_lowercase key in
  if (lower =? "secret_ref")%string || (lower =? "ref")%string then false
  else existsb (fun hint => str_contains hint lower) SENSITIVE_KEY_HINTS.

(** Inserting the entries of a map one by one gives them back in their order. *)
Fixpoint redact_value (sensitive_parent : bool) (v : Json) : Json :=
  match v with
  | JString s =>
      if sensitive_parent then (if looks_like_secret_uri s then v else redacted_token) else v
  | JNumber _ | JBool _ => if sensitive_parent then redacted_token else v
  | JObject m => JObject ((fun kv => (kv.1, redact_value (key_is_sensitive kv.1 || sensitive_parent) kv.2)) <$> m)
  | JArray l => JArray (redact_value sensitive_parent <$> l)
  | JNull => v
  end.

Definition redact (v : Json) : Json := redact_value false v.

(** ** Where a value is *)

Inductive Step := SKey (k : string) | SIndex (i : nat).

Fixpoint at_path (p : list Step) (v : Json) : option Json :=
  match p with
  | [] => Some v
  | s :: p =>
      match s, v with
      | SKey k, JObject m => x ← assoc k m; at_path p x
      | SIndex i, JArray l => x ← l !! i; at_path p x
      | _, _ => None
      end
  end.

(** Some key on the way is sensitive. *)
Definition path_sensitive (p : list Step) : bool :=
  existsb (fun s => match s with SKey k => key_is_sensitive k | SIndex _ => false end) p.

(** What may be shown of a scalar below a sensitive key. *)
Definition concealed (v : Json) : Prop :=
  match v with
  | JNull | JArray _ | JObject _ => True
  | JString s => s = "***" \/ looks_like_secret_uri s = true
  | JBool _ | JNumber _ => False
  end.

Definition is_scalar (v : Json) : bool := match v with JArray _ | JObject _ => false | _ => true end.

Lemma assoc_fmap k (f : string -> Json -> Json) m :
  assoc k ((fun kv => (kv.1, f kv.1 kv.2)) <$> m) = f k <$> assoc k m.
Proof.
  induction m as [|[k' v] m IH]; [done|]. cbn. destruct (String.eqb_spec k k') as [->|]; [done|exact IH].
Qed.

(** Redaction, at every path. *)
Lemma redact_at p v sens :
  at_path p (redact_value sens v) = redact_value (sens || path_sensitive p) <$> at_path p v.
Proof.
  revert v sens. induction p as [|s p IH]; intros v sens; [cbn; by rewrite orb_false_r|].
  destruct s as [k|i], v as [| | |t|l|m]; cbn [at_path redact_value];
    try (destruct sens; try destruct (looks_like_secret_uri _); done).
  - rewrite (assoc_fmap k (fun k v => redact_value (key_is_sensitive k || sens) v)). destruct (assoc k m) as [x|]; [|done].
    cbn [fmap option_fmap option_map mbind option_bind]. rewrite IH. do 2 f_equal.
    change (path_sensitive (SKey k :: p)) with (key_is_sensitive k || path_sensitive p). by destruct (key_is_sensitive k), sens.
  - rewrite list_lookup_fmap. destruct (l !! i) as [x|]; [|done]. cbn [fmap option_fmap option_map mbind option_bind]. by rewrite IH.
Qed.

Lemma redact_concealed v : concealed (redact_value true v).
Proof. destruct v as [| | |s| |]; cbn; auto. destruct (looks_like_secret_uri s) eqn:E; cbn; auto. Qed.

Lemma redact_plain v : is_scalar v = true -> redact_value false v = v.
Proof. by destruct v. Qed.

(** what leaves the management interface conceals its secrets and nothing
    else: a redacted value has the paths of the original, a scalar below a
    sensitive key is gone unless it is a reference, and every other scalar is
    as it was. *)
Theorem redaction_exact (v : Json) (p : list Step) :
  (at_path p (redact v) = None <-> at_path p v = None) /\
  (forall x, at_path p (redact v) = Some x -> path_sensitive p = true -> concealed x) /\
  (forall x, at_path p v = Some x -> is_scalar x = true -> path_sensitive p = false -> at_path p (redact v) = Some x).
Proof.
  unfold redact. rewrite redact_at. cbn [orb]. split_and!.
  - destruct (at_path p v); cbn; split; done.
  - intros x Hx Hp. rewrite Hp in Hx. destruct (at_path p v) as [y|]; [|done]. injection Hx as <-. apply redact_concealed.
  - intros x Hx Hs Hp. rewrite Hx, Hp. cbn. by rewrite redact_plain.
Qed.

(** Redacting again changes nothing. *)
Lemma redact_value_idem v sens : redact_value sens (redact_value sens v) = redact_value sens v.
Proof.
  revert sens. induction v as [| | |s|l IH|m IH] using Json_nested_ind; intros sens; cbn [redact_value]; try (by destruct sens).
  - destruct sens; [|done]. destruct (looks_like_secret_uri s) eqn:E; cbn [redact_value]; [by rewrite E|done].
  - f_equal. rewrite <- list_fmap_compose. apply list_fmap_ext. intros i x Hx. cbn.
    apply (Forall_lookup_1 _ _ _ _ IH Hx).
  - f_equal. rewrite <- list_fmap_compose. apply list_fmap_ext. intros i [k x] Hx. cbn. f_equal.
    apply (Forall_lookup_1 _ _ _ _ IH Hx).
Qed.
End Redact.
