(* ===== verification/McpTools.v ===== *)
(** * The tools of the management interface

    Models [crates/spt-mcp/src/tools.rs]: the tools, what each is called, what it
    says of itself, and what it does with its arguments, the sources
    ([sources.rs]) and the controller ([controller.rs]).  The sources only read
    the state of the program and the controller changes it; both are interfaces
    the binary implements, so they are classes over an abstract state [W]. *)

From S2P Require Import Prelude Bytes Text Schema McpPolicy.

(** ** What a tool may use *)

(** Code that may fail and may change the state. *)
Definition McpM (W A : Type) : Type := W -> Result McpError A * W.
#[export] Instance mcp_ret {W} : MRet (McpM W) := fun _ a w => (Ok a, w).
#[export] Instance mcp_bind {W} : MBind (McpM W) := fun _ _ k m w =>
  match m w with (Ok a, w') => k a w' | (Err e, w') => (Err e, w') end.

Definition lift {W A} (r : Result McpError A) : McpM W A := fun w => (r, w).

(** [ConfigSource] and [StateSource]. *)
Class ConfigSource (W : Type) := {
  cs_effective : W -> Result McpError Json;
  cs_redacted : W -> Result McpError Json;
  cs_profiles : W -> Result McpError Json;
  cs_forwards : W -> Result McpError Json;
  cs_dns_records : W -> Result McpError Json;
  cs_mcp_policy : W -> Result McpError Json;
  cs_service_definition : W -> Result McpError Json;
  cs_snmp_mib : W -> Result McpError Json
}.

Class StateSource (W : Type) := {
  ss_status : W -> Result McpError Json;
  ss_stats_summary : W -> Result McpError Json;
  ss_sessions_current : W -> Result McpError Json;
  ss_events_recent : W -> Result McpError Json;
  ss_logs_recent : W -> Result McpError Json;
  ss_metrics : W -> Result McpError Json;
  ss_diagnostics_recent : W -> Result McpError Json;
  ss_benchmarks_recent : W -> Result McpError Json
}.

Definition read_with {W} (f : W -> Result McpError Json) : McpM W Json := fun w => (f w, w).

(** [Controller]. *)
Class Controller (W : Type) := {
  ctl_reload : McpM W ();
  ctl_failover : string -> option string -> McpM W ();
  ctl_profile_start : string -> McpM W ();
  ctl_profile_stop : string -> McpM W ();
  ctl_forward_add : string -> Forward -> McpM W ();
  ctl_forward_remove : string -> string -> McpM W ();
  ctl_session_close : string -> McpM W ();
  ctl_session_drain : string -> Z -> McpM W Json;
  ctl_stats_subscribe : Z -> McpM W ();
  ctl_events_subscribe : McpM W ();
  ctl_run_benchmark : Json -> McpM W Json
}.

(** [ToolContext]: whether there is a notification sender, and the bridge to
    the log filter. *)
Record ToolContext (W : Type) := mkToolContext {
  notification_sender : bool;
  log_reload : option (string -> W -> Result string () * W)
}.
Arguments mkToolContext {W}.
Arguments notification_sender {W}.
Arguments log_reload {W}.

(** ** The tools *)

Definition quote_text : string := String quote "".

Definition empty_schema : Json :=
  obj [("type", JString "object"); ("properties", obj []); ("additionalProperties", JBool false)].

Inductive Tool :=
| ConfigValidate
| ConfigDoctor
| ConfigRender
| ProfileList
| ProfileShow
| ForwardList
| ForwardExplain
| TunnelStatus
| StatsSummary
| StatsExport
| SessionList
| SessionShow
| LogTail
| ObserveMetrics
| ServiceRender
| KeyInspect
| SecretList
| DnsQuery
| ProfileSet
| ProfileStop
| ForwardAdd
| ForwardRemove
| TunnelReload
| TunnelFailover
| DiagnoseRun
| DiagnoseBundle
| BenchmarkRun
| BenchmarkReportExport
| DnsRecordAdd
| DnsRecordRemove
| EventTest
| SecretSetRef
| SessionClose
| SessionDrain
| StatsSubscribe
| EventsSubscribe
| LogSetLevel.

Definition tool_name (t : Tool) : string :=
  match t with
  | ConfigValidate => "config_validate"
  | ConfigDoctor => "config_doctor"
  | ConfigRender => "config_render"
  | ProfileList => "profile_list"
  | ProfileShow => "profile_show"
  | ForwardList => "forward_list"
  | ForwardExplain => "forward_explain"
  | TunnelStatus => "tunnel_status"
  | StatsSummary => "stats_summary"
  | StatsExport => "stats_export"
  | SessionList => "session_list"
  | SessionShow => "session_show"
  | LogTail => "log_tail"
  | ObserveMetrics => "observe_metrics"
  | ServiceRender => "service_render"
  | KeyInspect => "key_inspect"
  | SecretList => "secret_list"
  | DnsQuery => "dns_query"
  | ProfileSet => "profile_set"
  | ProfileStop => "profile_stop"
  | ForwardAdd => "forward_add"
  | ForwardRemove => "forward_remove"
  | TunnelReload => "tunnel_reload"
  | TunnelFailover => "tunnel_failover"
  | DiagnoseRun => "diagnose_run"
  | DiagnoseBundle => "diagnose_bundle"
  | BenchmarkRun => "benchmark_run"
  | BenchmarkReportExport => "benchmark_report_export"
  | DnsRecordAdd => "dns_record_add"
  | DnsRecordRemove => "dns_record_remove"
  | EventTest => "event_test"
  | SecretSetRef => "secret_set_ref"
  | SessionClose => "session_close"
  | SessionDrain => "session_drain"
  | StatsSubscribe => "stats_subscribe"
  | EventsSubscribe => "events_subscribe"
  | LogSetLevel => "log_set_level"
  end.

Definition tool_description (t : Tool) : string :=
  match t with
  | ConfigValidate => "Validate the loaded config."
  | ConfigDoctor => "Run the config doctor and report findings."
  | ConfigRender => "Render the canonical (redacted) config."
  | ProfileList => "List configured profiles."
  | ProfileShow => "Show one profile (filter client-side)."
  | ForwardList => "List configured forwards."
  | ForwardExplain => "Explain one forward (filter client-side)."
  | TunnelStatus => "Return the runtime status snapshot."
  | StatsSummary => "Return the global + per-profile stats summary."
  | StatsExport => "Export the latest stats blob."
  | SessionList => "List currently open sessions."
  | SessionShow => "Show one session (filter client-side)."
  | LogTail => "Tail recent structured logs (redacted)."
  | ObserveMetrics => "Return the latest Prometheus metrics body."
  | ServiceRender => "Render the platform service definition."
  | KeyInspect => "Inspect configured key references."
  | SecretList => "List secret refs (never values)."
  | DnsQuery => "Inspect the configured DNS records."
  | ProfileSet => "Set a profile field (persisted via spt-config mutation path)."
  | ProfileStop => "Stop a single profile and tear down its forwards."
  | ForwardAdd => "Add a forward to a profile."
  | ForwardRemove => "Remove a forward from a profile."
  | TunnelReload => "Reload configuration and reconcile profile state."
  | TunnelFailover => "Force one failover step on a profile."
  | DiagnoseRun => "Run the diagnostic check framework."
  | DiagnoseBundle => "Build a redacted diagnostics bundle."
  | BenchmarkRun => "Run a benchmark driver against the live tunnel."
  | BenchmarkReportExport => "Export a benchmark report."
  | DnsRecordAdd => "Add a DNS record."
  | DnsRecordRemove => "Remove a DNS record."
  | EventTest => "Send a test event to bindings."
  | SecretSetRef => "Bind a secret reference (no values)."
  | SessionClose => "Close a single live session by id."
  | SessionDrain => "Drain all forwards of a profile within a grace window."
  | StatsSubscribe => "Subscribe to live StatsTick notifications. Frames are emitted as `notifications/stats/tick`."
  | EventsSubscribe => "Subscribe to live event notifications. Frames are emitted as `spt/event` JSON-RPC notifications carrying the serialized Event."
  | LogSetLevel => ("Set the tracing log filter for one target at runtime. Example: target="
      +:+ quote_text +:+ "spt_supervisor" +:+ quote_text +:+ ", level=" +:+ quote_text +:+ "debug" +:+ quote_text +:+ ". Privileged — gated by `allow_write_tools`.")%string
  end.

Definition tool_schema (t : Tool) : Json :=
  match t with
  | ProfileSet =>
      obj [("type", JString "object");
        ("properties", obj [("profile", obj [("type", JString "string")]); ("path", obj [("type", JString "string"); ("description", JString "Dotted config path.")]); ("value", obj [])]);
        ("required", JArray [JString "profile"; JString "path"; JString "value"])]
  | ProfileStop =>
      obj [("type", JString "object");
        ("properties", obj [("profile", obj [("type", JString "string")])]);
        ("required", JArray [JString "profile"])]
  | ForwardAdd =>
      obj [("type", JString "object");
        ("properties", obj [("profile", obj [("type", JString "string")]); ("forward", obj [("type", JString "object")])]);
        ("required", JArray [JString "profile"; JString "forward"])]
  | ForwardRemove =>
      obj [("type", JString "object");
        ("properties", obj [("profile", obj [("type", JString "string")]); ("forward_id", obj [("type", JString "string")])]);
        ("required", JArray [JString "profile"; JString "forward_id"])]
  | TunnelFailover =>
      obj [("type", JString "object");
        ("properties", obj [("profile", obj [("type", JString "string")]); ("endpoint", obj [("type", JString "string"); ("description", JString "Optional endpoint id to mark failed.")])]);
        ("required", JArray [JString "profile"]);
        ("additionalProperties", JBool true)]
  | BenchmarkRun =>
      obj [("type", JString "object");
        ("properties", obj [("driver", obj [("type", JString "string")]); ("profile", obj [("type", JString "string")]); ("forward", obj [("type", JString "string")]); ("count", obj [("type", JString "integer"); ("minimum", JNumber (NPos 1))]); ("duration_seconds", obj [("type", JString "integer"); ("minimum", JNumber (NPos 1))]); ("allow_production_impact", obj [("type", JString "boolean")])]);
        ("required", JArray [JString "driver"]);
        ("additionalProperties", JBool true)]
  | SessionClose =>
      obj [("type", JString "object");
        ("properties", obj [("id", obj [("type", JString "string")])]);
        ("required", JArray [JString "id"])]
  | SessionDrain =>
      obj [("type", JString "object");
        ("properties", obj [("profile", obj [("type", JString "string")]); ("grace_seconds", obj [("type", JString "integer"); ("minimum", JNumber (NPos 0))])]);
        ("required", JArray [JString "profile"])]
  | StatsSubscribe =>
      obj [("type", JString "object");
        ("properties", obj [("interval_ms", obj [("type", JString "integer"); ("minimum", JNumber (NPos 100))])]);
        ("additionalProperties", JBool true)]
  | EventsSubscribe =>
      obj [("type", JString "object");
        ("properties", obj []);
        ("additionalProperties", JBool true)]
  | LogSetLevel =>
      obj [("type", JString "object");
        ("properties", obj [("target", obj [("type", JString "string"); ("description", JString "Tracing target (Rust module path or identifier).")]); ("level", obj [("type", JString "string"); ("enum", JArray [JString "trace"; JString "debug"; JString "info"; JString "warn"; JString "error"; JString "off"]); ("description", JString "New level for the target.")])]);
        ("required", JArray [JString "target"; JString "level"]);
        ("additionalProperties", JBool false)]
  | _ => empty_schema
  end.

Definition tool_descriptor (t : Tool) : Json :=
  obj [("name", JString (tool_name t)); ("description", JString (tool_description t)); ("inputSchema", tool_schema t)].

(** ** Projections of the configuration *)

(** A [BTreeSet] of strings. *)
Fixpoint set_insert (s : string) (l : list string) : list string :=
  match l with
  | [] => [s]
  | x :: r => match String.compare s x with Lt => s :: l | Eq => l | Gt => x :: set_insert s r end
  end.

Fixpoint collect_secret_refs (v : Json) (out : list string) : list string :=
  match v with
  | JString s => if looks_like_secret_uri s then set_insert s out else out
  | JArray l => foldl (fun out x => collect_secret_refs x out) out l
  | JObject m => foldl (fun out kv => collect_secret_refs kv.2 out) out m
  | _ => out
  end.

Definition KEY_REF_HINTS : list string :=
  ["identity_file"; "identity"; "private_key"; "privkey"; "public_key"; "pubkey"; "key_file"; "keyfile"; "key_path"; "host_key";
   "cert"; "certificate"].

Definition classify_key_value (v : Json) : option string :=
  s ← as_str v;
  if starts_with "secret://" s then Some s
  else
    let looks_like_material :=
      str_contains "BEGIN" s || str_contains "PRIVATE KEY" s || contains_char newline s || contains_char carriage s
      || (200 <? Z.of_nat (String.length s)) in
    Some (if looks_like_material then "***" else s).

Section Tools.
Context (to_lowercase : string -> string).

Definition key_name_is_key_ref (key : string) : bool :=
  existsb (fun hint => str_contains hint (to_lowercase key)) KEY_REF_HINTS.

Fixpoint collect_key_refs (v : Json) (path : string) (out : list Json) : list Json :=
  match v with
  | JObject m =>
      foldl (fun out kv =>
        let child_path := (if (path =? "")%string then kv.1 else path +:+ "." +:+ kv.1)%string in
        let out := if key_name_is_key_ref kv.1 then
                     match classify_key_value kv.2 with
                     | Some reference => out ++ [obj [("path", JString child_path); ("key", JString kv.1); ("ref", JString reference)]]
                     | None => out
                     end
                   else out in
        collect_key_refs kv.2 child_path out) out m
  | JArray l =>
      snd (foldl (fun st x => (S st.1, collect_key_refs x (path +:+ "[" +:+ pretty st.1 +:+ "]")%string st.2)) (0%nat, out) l)
  | _ => out
  end.

(** ** The handlers *)

Context {W : Type} {CS : ConfigSource W} {SS : StateSource W} {CT : Controller W}.
Context (forward_of_json : Json -> Result string Forward).

Definition missing (kind field : string) : McpError := InvalidParams ("missing " +:+ kind +:+ " field '" +:+ field +:+ "'").

Definition str_arg (field : string) (args : Json) : McpM W string :=
  lift (ok_or (missing "string" field) (json_get field args ≫= as_str)).

Definition call_secret_list : McpM W Json :=
  cfg ← read_with cs_effective;
  mret (obj [("secret_refs", JArray (JString <$> collect_secret_refs cfg []))]).

Definition call_key_inspect : McpM W Json :=
  cfg ← read_with cs_effective;
  mret (obj [("keys", JArray (collect_key_refs cfg "" []))]).

(** [profile_set] and the tools of [planned_tool!]. *)
Definition planned (args : Json) : McpM W Json := mret (obj [("applied", JBool false); ("planned", args)]).

Definition call_profile_stop (args : Json) : McpM W Json :=
  profile ← str_arg "profile" args;
  _ ← ctl_profile_stop profile;
  mret (obj [("applied", JBool true); ("profile", JString profile)]).

Definition call_forward_add (args : Json) : McpM W Json :=
  profile ← str_arg "profile" args;
  forward_value ← lift (ok_or (missing "object" "forward") (json_get "forward" args));
  forward ← lift (match forward_of_json forward_value with
                  | Ok f => Ok f
                  | Err e => Err (InvalidParams ("invalid 'forward' object: " +:+ e))
                  end);
  _ ← ctl_forward_add profile forward;
  mret (obj [("applied", JBool true); ("profile", JString profile); ("forward", JString (forward_name forward))]).

Definition call_forward_remove (args : Json) : McpM W Json :=
  profile ← str_arg "profile" args;
  forward_id ← str_arg "forward_id" args;
  _ ← ctl_forward_remove profile forward_id;
  mret (obj [("applied", JBool true); ("profile", JString profile); ("forward", JString forward_id)]).

Definition call_tunnel_reload : McpM W Json := _ ← ctl_reload; mret (obj [("applied", JBool true)]).

Definition call_tunnel_failover (args : Json) : McpM W Json :=
  profile ← str_arg "profile" args;
  let endpoint := json_get "endpoint" args ≫= as_str in
  _ ← ctl_failover profile endpoint;
  mret (obj [("applied", JBool true); ("profile", JString profile);
             ("endpoint", match endpoint with Some e => JString e | None => JNull end)]).

Definition call_session_close (args : Json) : McpM W Json :=
  id ← str_arg "id" args;
  _ ← ctl_session_close id;
  mret (obj [("applied", JBool true); ("id", JString id)]).

Definition call_session_drain (args : Json) : McpM W Json :=
  profile ← str_arg "profile" args;
  let grace_seconds := default 5 (json_get "grace_seconds" args ≫= as_u64) in
  report ← ctl_session_drain profile grace_seconds;
  mret (obj [("applied", JBool true); ("profile", JString profile); ("report", report)]).

Definition need_sender (ctx : ToolContext W) (tool : string) : McpM W () :=
  lift (if notification_sender ctx then Ok tt
        else Err (InvalidParams (tool +:+ " requires a transport with notification support"))).

Definition call_stats_subscribe (ctx : ToolContext W) (args : Json) : McpM W Json :=
  let interval_ms := default 0 (json_get "interval_ms" args ≫= as_u64) in
  _ ← need_sender ctx "stats_subscribe";
  _ ← ctl_stats_subscribe interval_ms;
  mret (obj [("subscribed", JBool true); ("interval_ms", JNumber (NPos interval_ms));
             ("notification", JString "notifications/stats/tick")]).

Definition call_events_subscribe (ctx : ToolContext W) : McpM W Json :=
  _ ← need_sender ctx "events_subscribe";
  _ ← ctl_events_subscribe;
  mret (obj [("subscribed", JBool true); ("notification", JString "spt/event")]).

Definition VALID_LEVELS : list string := ["trace"; "debug"; "info"; "warn"; "error"; "off"].

Definition ascii_alpha (a : ascii) : bool := between 65 90 (code a) || between 97 122 (code a).
Definition ascii_alnum (a : ascii) : bool := ascii_alpha a || between 48 57 (code a).

Fixpoint str_all (f : ascii -> bool) (s : string) : bool :=
  match s with EmptyString => true | String a r => f a && str_all f r end.

Definition is_valid_target (s : string) : bool :=
  match s with
  | EmptyString => false
  | String first r =>
      if negb (ascii_alpha first || Ascii.eqb first "_") then false
      else str_all (fun c => ascii_alnum c || Ascii.eqb c "_" || Ascii.eqb c ":" || Ascii.eqb c "-" || Ascii.eqb c ".") r
  end.

(** [{VALID_LEVELS:?}]. *)
Definition levels_debug : string :=
  ("[" +:+ String.concat ", " ((fun l => quote_text +:+ l +:+ quote_text) <$> VALID_LEVELS) +:+ "]")%string.

Definition call_log_set_level (ctx : ToolContext W) (args : Json) : McpM W Json :=
  target ← str_arg "target" args;
  level_raw ← str_arg "level" args;
  let level := to_ascii_lowercase level_raw in
  if negb (str_in level VALID_LEVELS)
  then lift (Err (InvalidParams ("invalid level '" +:+ level_raw +:+ "'; expected one of " +:+ levels_debug)))
  else if negb (is_valid_target target) then lift (Err (InvalidParams ("invalid tracing target '" +:+ target +:+ "'")))
  else
    match log_reload ctx with
    | None => lift (Err (McpInternal "log reload bridge not wired into this MCP server"))
    | Some reload =>
        let directive := (target +:+ "=" +:+ level)%string in
        _ ← (fun w => match reload directive w with
                      | (Ok _, w') => (Ok tt, w')
                      | (Err e, w') => (Err (McpInternal ("log reload failed: " +:+ e)), w')
                      end : Result McpError () * W);
        mret (obj [("applied", JBool true); ("target", JString target); ("level", JString level); ("directive", JString directive)])
    end.

(** [ToolHandler::call]. *)
Definition tool_call (t : Tool) (ctx : ToolContext W) (args : Json) : McpM W Json :=
  match t with
  | ConfigValidate | ConfigDoctor => read_with cs_effective
  | ConfigRender => read_with cs_redacted
  | ProfileList | ProfileShow => read_with cs_profiles
  | ForwardList | ForwardExplain => read_with cs_forwards
  | TunnelStatus => read_with ss_status
  | StatsSummary | StatsExport => read_with ss_stats_summary
  | SessionList | SessionShow => read_with ss_sessions_current
  | LogTail => read_with ss_logs_recent
  | ObserveMetrics => read_with ss_metrics
  | ServiceRender => read_with cs_service_definition
  | DnsQuery => read_with cs_dns_records
  | SecretList => call_secret_list
  | KeyInspect => call_key_inspect
  | ProfileSet | DiagnoseRun | DiagnoseBundle | BenchmarkReportExport
  | DnsRecordAdd | DnsRecordRemove | EventTest | SecretSetRef => planned args
  | ProfileStop => call_profile_stop args
  | ForwardAdd => call_forward_add args
  | ForwardRemove => call_forward_remove args
  | TunnelReload => call_tunnel_reload
  | TunnelFailover => call_tunnel_failover args
  | BenchmarkRun => ctl_run_benchmark args
  | SessionClose => call_session_close args
  | SessionDrain => call_session_drain args
  | StatsSubscribe => call_stats_subscribe ctx args
  | EventsSubscribe => call_events_subscribe ctx
  | LogSetLevel => call_log_set_level ctx args
  end.

(** [ToolRegistry::new], in the order of registration. *)
Definition registry : list Tool :=
  [ConfigValidate; ConfigDoctor; ConfigRender; ProfileList; ProfileShow; ForwardList; ForwardExplain; TunnelStatus; StatsSummary; StatsExport; SessionList; SessionShow; LogTail; ObserveMetrics; ServiceRender; KeyInspect; SecretList; DnsQuery; ProfileSet; ProfileStop; ForwardAdd; ForwardRemove; TunnelReload; TunnelFailover; DiagnoseRun; DiagnoseBundle; BenchmarkRun; BenchmarkReportExport; DnsRecordAdd; DnsRecordRemove; EventTest; SecretSetRef; SessionClose; SessionDrain; StatsSubscribe; EventsSubscribe; LogSetLevel].

Definition tool_get (name : string) : option Tool := find (fun t => (tool_name t =? name)%string) registry.

(** The names of the specification. *)
Definition ALL_TOOL_NAMES : list string :=
  ["config_validate"; "config_doctor"; "config_render"; "profile_list"; "profile_show"; "profile_set"; "profile_stop"; "forward_list"; "forward_explain"; "forward_add"; "forward_remove"; "tunnel_status"; "tunnel_reload"; "tunnel_failover"; "stats_summary"; "stats_export"; "session_list"; "session_show"; "diagnose_run"; "diagnose_bundle"; "benchmark_run"; "benchmark_report_export"; "dns_query"; "dns_record_add"; "dns_record_remove"; "log_tail"; "observe_metrics"; "event_test"; "service_render"; "secret_list"; "secret_set_ref"; "key_inspect"; "session_close"; "session_drain"; "stats_subscribe"; "events_subscribe"; "log_set_level"].

(** ** Lemmas *)

(** The registry is the names of the specification, each once. *)
Lemma registry_names : NoDup (tool_name <$> registry) /\ tool_name <$> registry ≡ₚ ALL_TOOL_NAMES.
Proof. split; [apply (bool_decide_unpack _)|apply (bool_decide_unpack _)]; vm_compute; exact I. Qed.

Lemma registry_all t : t ∈ registry.
Proof. destruct t; vm_compute; repeat (apply list_elem_of_here || apply list_elem_of_further). Qed.

Lemma tool_get_name t : tool_get (tool_name t) = Some t.
Proof. destruct t; vm_compute; reflexivity. Qed.

Lemma tool_get_some name t : tool_get name = Some t -> tool_name t = name.
Proof. intros [_ H]%find_some. by apply String.eqb_eq. Qed.

(** A tool that is not on the list of the policy leaves the state alone. *)
Lemma read_tool_pure t ctx args w : str_in (tool_name t) WRITE_TOOLS = false -> (tool_call t ctx args w).2 = w.
Proof.
  destruct t; intros H; try discriminate H; try reflexivity.
  all: cbn [tool_call]; unfold call_key_inspect, call_secret_list, read_with, mbind, mcp_bind; by destruct (cs_effective w).
Qed.
End Tools.
