(* ===== verification/McpServer.v ===== *)
(** * The management server

    Models [crates/spt-mcp/src/server.rs], [resources.rs], [protocol.rs] and the
    connection loop of [transport.rs].  Reading and writing JSON text is
    [serde_json], a parameter.  The server answers one request at a time on a
    connection; the state it shares with other connections is [W]. *)

From S2P Require Import Prelude Bytes Text Schema McpPolicy McpTools.

(** ** Messages ([protocol.rs], [audit.rs]) *)

Inductive Id := IdNum (n : Z) | IdStr (s : string) | IdNull.

Record Request := mkRequest { rq_id : option Id; rq_method : string; rq_params : option Json }.

Definition is_notification (r : Request) : bool := match rq_id r with None => true | Some _ => false end.

Record RpcError := mkRpcError { re_code : Z; re_message : string }.

Record Response := mkResponse { rs_id : Id; rs_result : option Json; rs_error : option RpcError }.

Definition Response_ok (id : Id) (result : Json) : Response := mkResponse id (Some result) None.
Definition Response_err (id : Id) (code : Z) (message : string) : Response := mkResponse id None (Some (mkRpcError code message)).

Record AuditEvent := mkAuditEvent {
  ae_tool : string;
  ae_arguments : Json;
  ae_ok : bool;
  ae_client_id : option string;
  ae_error : option string;
  ae_timestamp_ms : Z
}.

(** [params.get(key).and_then(as_str)]. *)
Definition str_param (key : string) (params : option Json) : option string :=
  p ← params; v ← json_get key p; as_str v.

(** ** Resources ([resources.rs]) *)

Section Server.
Context {W : Type} {CS : ConfigSource W} {SS : StateSource W} {CT : Controller W}.
Context (to_lowercase : string -> string).
Context (forward_of_json : Json -> Result string Forward) (json_to_string : Json -> string).

Record Resource := mkResource { r_uri : string; r_name : string; r_description : string; r_read : W -> Result McpError Json }.

(** By URI, as the [BTreeMap] has them. *)
Definition RESOURCES : list Resource :=
  [mkResource "spt://benchmarks/recent" "Recent benchmarks" "Most recent benchmark report metadata." ss_benchmarks_recent;
   mkResource "spt://config/effective" "Effective config" "Effective merged config (redaction applied)." cs_effective;
   mkResource "spt://config/redacted" "Redacted config" "Config rendered with secrets replaced by references." cs_redacted;
   mkResource "spt://diagnostics/recent" "Recent diagnostics" "Most recent diagnostics bundle metadata." ss_diagnostics_recent;
   mkResource "spt://dns/records" "DNS records" "Configured `[[dns.records]]` entries." cs_dns_records;
   mkResource "spt://events/recent" "Recent events" "Recent events from the in-memory ring buffer." ss_events_recent;
   mkResource "spt://forwards" "Forwards" "Array of forward summaries." cs_forwards;
   mkResource "spt://logs/recent" "Recent logs" "Tail of the structured log buffer (redacted)." ss_logs_recent;
   mkResource "spt://metrics" "Prometheus metrics" "Latest Prometheus text-format exposition." ss_metrics;
   mkResource "spt://policy/mcp" "MCP policy" "Effective `[mcp]` policy (read-only view)." cs_mcp_policy;
   mkResource "spt://profiles" "Profiles" "Array of profile summaries." cs_profiles;
   mkResource "spt://service/definition" "Service definition" "Rendered systemd unit / plist / SCM definition." cs_service_definition;
   mkResource "spt://sessions/current" "Current sessions" "Currently open SSH sessions." ss_sessions_current;
   mkResource "spt://snmp/mib" "Project SNMP MIB" "Project enterprise MIB body." cs_snmp_mib;
   mkResource "spt://stats/summary" "Stats summary" "Per-profile and global counters." ss_stats_summary;
   mkResource "spt://status" "Status snapshot" "Live status snapshot per spec §13.5." ss_status].

Definition resource_get (uri : string) : option Resource := find (fun r => (r_uri r =? uri)%string) RESOURCES.

Definition MIME_TYPE : string := "application/json".

Definition resource_descriptor (r : Resource) : Json :=
  obj [("uri", JString (r_uri r)); ("name", JString (r_name r)); ("description", JString (r_description r)); ("mimeType", JString MIME_TYPE)].

(** ** The server ([server.rs]) *)

Definition SUPPORTED_PROTOCOL_VERSIONS : list string := ["2024-11-05"].

Record ServerCapabilities := mkCapabilities { sc_name : string; sc_version : string; sc_protocol_version : string }.

Record McpServer := mkMcpServer {
  sv_capabilities : ServerCapabilities;
  sv_policy : McpPolicy;
  sv_auth_token : option string;
  sv_log_reload : option (string -> W -> Result string () * W)
}.

(** What the server changes: the state of the program and the audit trail. *)
Record World := mkWorld { wd_state : W; wd_audit : list AuditEvent }.

Context (sv : McpServer).

Definition verify_init_token (params : option Json) : Result McpError () :=
  match sv_auth_token sv with
  | None => Ok tt
  | Some expected =>
      match str_param "token" params with
      | None => Err (PolicyDenied "initialize requires `params.token` for this MCP listener")
      | Some supplied => if (supplied =? expected)%string then Ok tt else Err (PolicyDenied "initialize token mismatch")
      end
  end.

Definition initialize_result (requested : option string) : Json :=
  let negotiated := match requested with
                    | Some v => if str_in v SUPPORTED_PROTOCOL_VERSIONS then v else sc_protocol_version (sv_capabilities sv)
                    | None => sc_protocol_version (sv_capabilities sv)
                    end in
  obj [("protocolVersion", JString negotiated);
       ("serverInfo", obj [("name", JString (sc_name (sv_capabilities sv))); ("version", JString (sc_version (sv_capabilities sv)))]);
       ("capabilities", obj [("resources", obj [("listChanged", JBool false)]); ("tools", obj [("listChanged", JBool false)]); ("logging", obj [])])].

Definition list_resources : Json := obj [("resources", JArray (resource_descriptor <$> RESOURCES))].

Definition read_resource (params : option Json) (w : W) : Result McpError Json :=
  uri ← ok_or (missing "string" "uri") (str_param "uri" params);
  handler ← ok_or (ResourceNotFound uri) (resource_get uri);
  raw ← r_read handler w;
  let redacted := redact to_lowercase raw in
  Ok (obj [("contents", JArray [obj [("uri", JString uri); ("mimeType", JString MIME_TYPE); ("text", JString (json_to_string redacted))]])]).

(** The descriptors in the order of their names. *)
Fixpoint insert_tool (t : Tool) (l : list Tool) : list Tool :=
  match l with
  | [] => [t]
  | x :: r => match String.compare (tool_name t) (tool_name x) with Lt | Eq => t :: l | Gt => x :: insert_tool t r end
  end.

Definition list_tools : Json := obj [("tools", JArray (tool_descriptor <$> foldr insert_tool [] registry))].

Definition dispatch_tool_with_notify (name : string) (arguments : Json) (notify : bool) : McpM W Json :=
  _ ← lift (ensure_enabled (sv_policy sv));
  _ ← lift (ensure_write_allowed (sv_policy sv) name);
  handler ← lift (ok_or (ToolNotFound name) (tool_get name));
  tool_call to_lowercase forward_of_json handler (mkToolContext notify (sv_log_reload sv)) arguments.

Definition record_audit (e : AuditEvent) (s : World) : World := mkWorld (wd_state s) (wd_audit s ++ [e]).

Definition call_tool_with_notify (params : option Json) (notify : bool) (now_ms : Z) (s : World) : Result McpError Json * World :=
  let params := default JNull params in
  match json_get "name" params ≫= as_str with
  | None => (Err (missing "string" "name"), s)
  | Some name =>
      let arguments := default (obj []) (json_get "arguments" params) in
      let client_id := json_get "clientId" params ≫= as_str in
      let (result, w) := dispatch_tool_with_notify name arguments notify (wd_state s) in
      let error_text := match result with Ok _ => None | Err e => Some (McpError_to_string e) end in
      let event := mkAuditEvent name (redact to_lowercase arguments) (is_ok result) client_id error_text now_ms in
      let s := record_audit event (mkWorld w (wd_audit s)) in
      match result with
      | Err e => (Err e, s)
      | Ok payload =>
          let redacted := redact to_lowercase payload in
          (Ok (obj [("content", JArray [obj [("type", JString "text"); ("text", JString (json_to_string redacted))]]); ("isError", JBool false)]), s)
      end
  end.

Definition handle_mcp (req : Request) (now_ms : Z) (s : World) : Result McpError Json * World :=
  let m := rq_method req in
  if (m =? "initialize")%string then
    (_ ← verify_init_token (rq_params req);
     Ok (initialize_result (str_param "protocolVersion" (rq_params req))), s)
  else if (m =? "resources/list")%string then (Ok list_resources, s)
  else if (m =? "resources/read")%string then (read_resource (rq_params req) (wd_state s), s)
  else if (m =? "tools/list")%string then (Ok list_tools, s)
  else if (m =? "tools/call")%string then call_tool_with_notify (rq_params req) false now_ms s
  else if (m =? "ping")%string then (Ok (obj [("pong", JBool true)]), s)
  else (Err (MethodNotFound m), s).

Definition dispatch_with_notify (req : Request) (notify : bool) (now_ms : Z) (s : World) : Response * World :=
  let id := default IdNull (rq_id req) in
  let (res, s) := if (rq_method req =? "tools/call")%string
                  then call_tool_with_notify (rq_params req) notify now_ms s
                  else handle_mcp req now_ms s in
  match res with
  | Ok value => (Response_ok id value, s)
  | Err e => (Response_err id (rpc_code e) (McpError_to_string e), s)
  end.

(** ** Reading a frame ([transport.rs]) *)

Definition MAX_LINE_BYTES : Z := 4 * 1024 * 1024.

(** The chunk up to its first newline, and what is behind it. *)
Fixpoint cut_line (s : string) : option (string * string) :=
  match s with
  | EmptyString => None
  | String a r =>
      if Ascii.eqb a newline then Some (String a "", r)
      else match cut_line r with Some (h, t) => Some (String a h, t) | None => None end
  end.

Definition push_chunk (c : string) (l : list string) : list string := if (c =? "")%string then l else c :: l.

Inductive LineRead := LineDone (line : string) | LineTooLong | LinePending.

(** [read_line_capped], polled: [buf] is what it holds of the line, [chunks] the
    reads that are ready, and after them the stream is at its end or not.  The
    second and third part of the result are what it holds and what is left. *)
Fixpoint read_line (max : Z) (eof : bool) (buf : string) (chunks : list string) : LineRead * string * list string :=
  match chunks with
  | [] => if eof then (LineDone buf, ""%string, []) else (LinePending, buf, [])
  | c :: r =>
      match cut_line c with
      | Some (h, rest) =>
          let buf := (buf +:+ h)%string in
          if max <? Z.of_nat (String.length buf) then (LineTooLong, buf, push_chunk rest r)
          else (LineDone buf, ""%string, push_chunk rest r)
      | None =>
          let buf := (buf +:+ c)%string in
          if max <? Z.of_nat (String.length buf) then (LineTooLong, buf, r) else read_line max eof buf r
      end
  end.

(** ** A connection ([run_connection_inner]) *)

Context (request_of_json : string -> Result string Request).

Definition MAX_FAILED_INITIALIZES : Z := 5.

Inductive Frame := FResponse (r : Response) | FNotification (v : Json).

(** [cn_subscribed]: a sender of this connection was handed to the controller, by
    one of the two subscribing tools.  [cn_log] is the requests read, kept for
    the statements below. *)
Record McpConn := mkConn {
  cn_chunks : list string;
  cn_eof : bool;
  cn_partial : string;
  cn_initialized : bool;
  cn_failed_initializes : Z;
  cn_world : World;
  cn_out : list Frame;
  cn_end : option (Result McpError ());
  cn_subscribed : bool;
  cn_log : list Request
}.

Definition with_reader (partial : string) (chunks : list string) (c : McpConn) : McpConn :=
  mkConn chunks (cn_eof c) partial (cn_initialized c) (cn_failed_initializes c) (cn_world c) (cn_out c) (cn_end c) (cn_subscribed c) (cn_log c).
Definition write (f : Frame) (c : McpConn) : McpConn :=
  mkConn (cn_chunks c) (cn_eof c) (cn_partial c) (cn_initialized c) (cn_failed_initializes c) (cn_world c) (cn_out c ++ [f]) (cn_end c) (cn_subscribed c) (cn_log c).
Definition close (r : Result McpError ()) (c : McpConn) : McpConn :=
  mkConn (cn_chunks c) (cn_eof c) (cn_partial c) (cn_initialized c) (cn_failed_initializes c) (cn_world c) (cn_out c) (Some r) (cn_subscribed c) (cn_log c).
Definition with_world (s : World) (c : McpConn) : McpConn :=
  mkConn (cn_chunks c) (cn_eof c) (cn_partial c) (cn_initialized c) (cn_failed_initializes c) s (cn_out c) (cn_end c) (cn_subscribed c) (cn_log c).
Definition with_init (i : bool) (n : Z) (c : McpConn) : McpConn :=
  mkConn (cn_chunks c) (cn_eof c) (cn_partial c) i n (cn_world c) (cn_out c) (cn_end c) (cn_subscribed c) (cn_log c).
Definition note (r : Request) (c : McpConn) : McpConn :=
  mkConn (cn_chunks c) (cn_eof c) (cn_partial c) (cn_initialized c) (cn_failed_initializes c) (cn_world c) (cn_out c) (cn_end c) (cn_subscribed c) (cn_log c ++ [r]).

Definition with_sub (b : bool) (c : McpConn) : McpConn :=
  mkConn (cn_chunks c) (cn_eof c) (cn_partial c) (cn_initialized c) (cn_failed_initializes c) (cn_world c) (cn_out c) (cn_end c) (cn_subscribed c || b) (cn_log c).

(** The tool a request calls. *)
Definition called (req : Request) : option string :=
  if (rq_method req =? "tools/call")%string then str_param "name" (rq_params req) else None.

(** The call gets past the policy to a tool that hands its sender on. *)
Definition hands_sender (req : Request) : bool :=
  match called req with
  | Some name => is_ok (ensure_enabled (sv_policy sv)) && is_ok (ensure_write_allowed (sv_policy sv) name) && str_in name ["stats_subscribe"; "events_subscribe"]
  | None => false
  end.

Definition needs_token : bool := match sv_auth_token sv with Some _ => true | None => false end.

(** A request with an identifier. *)
Definition serve_request (with_notify : bool) (now_ms : Z) (req : Request) (c : McpConn) : McpConn :=
  let is_init := (rq_method req =? "initialize")%string in
  if needs_token && negb (cn_initialized c) && negb is_init
  then close (Ok tt) (write (FResponse (Response_err (default IdNull (rq_id req)) (rpc_code (PolicyDenied "not initialized"))
                                          "MCP loopback requires authenticated initialize")) c)
  else
    let (response, s) := dispatch_with_notify req with_notify now_ms (cn_world c) in
    let c := write (FResponse response) (with_sub (with_notify && hands_sender req) (with_world s c)) in
    if is_init then
      match rs_error response with
      | None => with_init true (cn_failed_initializes c) c
      | Some _ =>
          let failed := cn_failed_initializes c + 1 in
          let c := with_init (cn_initialized c) failed c in
          if MAX_FAILED_INITIALIZES <=? failed then close (Ok tt) c else c
      end
    else c.

Definition serve_line (with_notify : bool) (now_ms : Z) (line : string) (c : McpConn) : McpConn :=
  match text_of (bytes_of line) with
  | None => close (Err (InvalidParams "invalid UTF-8 in request frame")) c
  | Some text =>
      if (text =? "")%string then close (Ok tt) c
      else
        let trimmed := trim text in
        if (trimmed =? "")%string then c
        else match request_of_json trimmed with
             | Err msg => write (FResponse (Response_err IdNull (-32700) ("parse error: " +:+ msg))) c
             | Ok req =>
                 if (rq_method req =? "")%string then c
                 else if is_notification req then c
                 else serve_request with_notify now_ms req (note req c)
             end
  end.

(** A value pushed by a subscription, wrapped unless it is a frame already. *)
Definition is_jsonrpc_notification (v : Json) : bool :=
  match json_get "jsonrpc" v, json_get "method" v with Some _, Some _ => true | _, _ => false end.

Definition notification_frame (payload : Json) : Json :=
  if is_jsonrpc_notification payload then payload
  else obj [("jsonrpc", JString "2.0"); ("method", JString "notifications/stats/tick"); ("params", payload)].

(** What happens to a connection: bytes arrive or the peer hangs up, the frame
    reader is polled, or a notification is ready, which takes a sender that was
    handed out.  The last drops the reader with what it holds of a line:
    [select!] starts a new one. *)
Inductive Event :=
| Arrive (chunk : string)
| HangUp
| Poll (now_ms : Z)
| Notify (payload : Json).

Definition mcp_step (with_notify : bool) (c : McpConn) (e : Event) : McpConn :=
  match cn_end c with
  | Some _ => c
  | None =>
      match e with
      | Arrive chunk =>
          if cn_eof c || (chunk =? "")%string then c else with_reader (cn_partial c) (cn_chunks c ++ [chunk]) c
      | HangUp => mkConn (cn_chunks c) true (cn_partial c) (cn_initialized c) (cn_failed_initializes c) (cn_world c) (cn_out c) (cn_end c) (cn_subscribed c) (cn_log c)
      | Poll now_ms =>
          let '(r, partial, chunks) := read_line MAX_LINE_BYTES (cn_eof c) (cn_partial c) (cn_chunks c) in
          let c := with_reader partial chunks c in
          match r with
          | LinePending => c
          | LineTooLong => close (Err (InvalidParams ("request frame exceeds maximum of " +:+ pretty MAX_LINE_BYTES +:+ " bytes"))) c
          | LineDone line => serve_line with_notify now_ms line c
          end
      | Notify payload =>
          if with_notify && cn_subscribed c then with_reader ""%string (cn_chunks c) (write (FNotification (notification_frame payload)) c) else c
      end
  end.

Definition mcp_run (with_notify : bool) (c : McpConn) (es : list Event) : McpConn := foldl (mcp_step with_notify) c es.

Definition mcp_new (s : World) : McpConn := mkConn [] false ""%string false 0 s [] None false [].

(** ** Who may change the state *)

(** The policy lets the tool change the state. *)
Definition may_write (name : string) : Prop :=
  mp_enabled (sv_policy sv) = true /\ name ∈ WRITE_TOOLS /\
  (mp_default_mode (sv_policy sv) = ReadWrite \/ name ∈ mp_allow_write_tools (sv_policy sv)).

Lemma str_in_elem s l : str_in s l = true <-> s ∈ l.
Proof.
  unfold str_in. rewrite existsb_exists. setoid_rewrite String.eqb_eq. rewrite list_elem_of_In. split; [by intros (x & ? & ->)|eauto].
Qed.

Lemma dispatch_tool_state name arguments notify w :
  (dispatch_tool_with_notify name arguments notify w).2 = w \/ may_write name.
Proof.
  unfold dispatch_tool_with_notify, mbind, mcp_bind, lift, ensure_enabled.
  destruct (mp_enabled (sv_policy sv)) eqn:He; [|by left].
  destruct (ensure_write_allowed (sv_policy sv) name) as [[]|] eqn:Ha; [|by left].
  destruct (tool_get name) as [t|] eqn:Ht; [|by left]. cbn [ok_or]. apply tool_get_some in Ht.
  destruct (str_in name WRITE_TOOLS) eqn:Hw; [right|left; subst name; by apply read_tool_pure].
  split; [done|]. split; [by apply str_in_elem|]. unfold ensure_write_allowed in Ha. rewrite Hw in Ha. cbn [negb] in Ha.
  destruct (mp_default_mode (sv_policy sv)); [right|by left].
  destruct (str_in name (mp_allow_write_tools (sv_policy sv))) eqn:E; [by apply str_in_elem|done].
Qed.

Lemma name_param params : str_param "name" params = json_get "name" (default JNull params) ≫= as_str.
Proof. by destruct params. Qed.

Lemma handle_request_world req now s : rq_method req <> "tools/call" -> (handle_mcp req now s).2 = s.
Proof.
  intros H. apply String.eqb_neq in H. unfold handle_mcp. rewrite H.
  repeat match goal with |- context [if ?c then _ else _] => destruct c; [done|] end. done.
Qed.

(** What a request does to the state and to the trail. *)
Lemma dispatch_world req notify now s :
  let (resp, s') := dispatch_with_notify req notify now s in
  (wd_state s' = wd_state s \/ exists name, called req = Some name /\ may_write name) /\
  match called req with
  | None => wd_audit s' = wd_audit s
  | Some name =>
      let arguments := default (obj []) (json_get "arguments" (default JNull (rq_params req))) in
      exists e, wd_audit s' = wd_audit s ++ [e] /\ ae_tool e = name /\ ae_arguments e = redact to_lowercase arguments /\
        ae_timestamp_ms e = now /\ ae_error e = re_message <$> rs_error resp /\ (ae_ok e = true <-> rs_error resp = None)
  end.
Proof.
  unfold dispatch_with_notify, called. destruct (String.eqb_spec (rq_method req) "tools/call") as [Hm|Hm].
  - rewrite name_param. unfold call_tool_with_notify. destruct (json_get "name" _ ≫= as_str) as [name|]; [|split; [by left|done]].
    cbv zeta. destruct (dispatch_tool_with_notify _ _ _ _) as [res w] eqn:E.
    pose proof (dispatch_tool_state name (default (obj []) (json_get "arguments" (default JNull (rq_params req)))) notify (wd_state s)) as Hw.
    rewrite E in Hw. cbn [snd] in Hw.
    destruct res as [payload|e]; cbn; (split; [destruct Hw; eauto|]); eexists; split_and!; try reflexivity; done.
  - pose proof (handle_request_world req now s Hm) as H. destruct (handle_mcp req now s) as [res s']. cbn [snd] in H. subst s'.
    destruct res; (split; [by left|done]).
Qed.

(** C40: every call of a tool leaves exactly one audit event, whatever its
    outcome: the event names the tool, has its arguments redacted and says what
    the client is told; a request that calls no tool leaves none, and only a
    call of a writing tool the policy permits changes the state. *)
Theorem tool_calls_audited (req : Request) (notify : bool) (now : Z) (s : World) :
  let (resp, s') := dispatch_with_notify req notify now s in
  (wd_state s' = wd_state s \/ exists name, called req = Some name /\ may_write name) /\
  match called req with
  | None => wd_audit s' = wd_audit s
  | Some name =>
      let arguments := default (obj []) (json_get "arguments" (default JNull (rq_params req))) in
      exists e, wd_audit s' = wd_audit s ++ [e] /\ ae_tool e = name /\ ae_arguments e = redact to_lowercase arguments /\
        ae_timestamp_ms e = now /\ ae_error e = re_message <$> rs_error resp /\ (ae_ok e = true <-> rs_error resp = None)
  end.
Proof. apply dispatch_world. Qed.

(** ** A connection with a token *)

Definition presents (tok : string) (r : Request) : Prop :=
  rq_method r = "initialize" /\ str_param "token" (rq_params r) = Some tok.

Definition attempts (l : list Request) : nat := length (filter (fun r => rq_method r = "initialize"%string) l).

#[local] Arguments attempts : simpl never.

(** What a peer without the token may be sent: answers that carry no result. *)
Definition refusal (f : Frame) : Prop := exists r, f = FResponse r /\ rs_result r = None.

(** What holds of a connection throughout. *)
Record gated (tok : string) (s0 : World) (c : McpConn) : Prop := mkGated {
  g_closed : cn_initialized c = false ->
    cn_world c = s0 /\ cn_subscribed c = false /\ Forall refusal (cn_out c) /\
    cn_failed_initializes c = Z.of_nat (attempts (cn_log c)) /\
    cn_failed_initializes c <= MAX_FAILED_INITIALIZES /\
    (cn_end c = None -> cn_failed_initializes c < MAX_FAILED_INITIALIZES);
  g_open : cn_initialized c = true -> exists r, r ∈ cn_log c /\ presents tok r
}.

Lemma attempts_snoc l r : attempts (l ++ [r]) = (attempts l + if (rq_method r =? "initialize")%string then 1 else 0)%nat.
Proof.
  unfold attempts. rewrite filter_app, length_app. f_equal. rewrite filter_cons, filter_nil.
  destruct (String.eqb_spec (rq_method r) "initialize") as [->|Hn]; [by rewrite decide_True|by rewrite decide_False].
Qed.

Lemma elem_snoc {A} (x y : A) l : x ∈ l ++ [y] <-> x ∈ l \/ x = y.
Proof. by rewrite elem_of_app, list_elem_of_singleton. Qed.

(** Answering [initialize]: no state, and success only with the token. *)
Lemma dispatch_init tok req notify now s :
  sv_auth_token sv = Some tok -> rq_method req = "initialize" ->
  let (resp, s') := dispatch_with_notify req notify now s in
  s' = s /\ match rs_error resp with None => presents tok req | Some _ => rs_result resp = None end.
Proof.
  intros Ht Hm. unfold dispatch_with_notify, handle_mcp. rewrite Hm. cbn [String.eqb Ascii.eqb Bool.eqb].
  unfold verify_init_token. rewrite Ht. destruct (str_param "token" (rq_params req)) as [x|] eqn:E; [|cbn; by split].
  destruct (String.eqb_spec x tok) as [->|]; cbn; split; done.
Qed.

Lemma init_hands_nothing req : rq_method req = "initialize" -> hands_sender req = false.
Proof. intros Hm. unfold hands_sender, called. by rewrite Hm. Qed.

Lemma open_log tok s0 req c : gated tok s0 c -> cn_initialized c = true -> exists r, r ∈ cn_log c ++ [req] /\ presents tok r.
Proof. intros G Hi. destruct (g_open _ _ _ G Hi) as (r & ? & ?). exists r. rewrite elem_snoc. auto. Qed.

Lemma refusals_snoc l r : Forall refusal l -> rs_result r = None -> Forall refusal (l ++ [FResponse r]).
Proof. intros Hl Hr. apply Forall_app. split; [done|]. constructor; [by exists r|constructor]. Qed.

(** The connection of a refused [initialize]. *)
Lemma serve_init_gated tok s0 wn now req c :
  sv_auth_token sv = Some tok -> cn_end c = None -> rq_method req = "initialize" -> gated tok s0 c ->
  gated tok s0 (serve_request wn now req (note req c)).
Proof.
  intros Ht Hend Hm G. unfold serve_request, needs_token. rewrite Ht, Hm. cbn [String.eqb Ascii.eqb Bool.eqb negb andb]. rewrite andb_false_r.
  pose proof (dispatch_init tok req wn now (cn_world c) Ht Hm) as H. cbn [cn_world note].
  destruct (dispatch_with_notify req wn now (cn_world c)) as [resp s']. destruct H as [-> Hr].
  pose proof (open_log tok s0 req c G) as Hp. destruct G as [Hc _]. rewrite init_hands_nothing, andb_false_r by done.
  destruct (rs_error resp) as [e|] eqn:E.
  - assert (cn_initialized c = false ->
      cn_world c = s0 /\ cn_subscribed c || false = false /\ Forall refusal (cn_out c ++ [FResponse resp]) /\
      cn_failed_initializes c + 1 = Z.of_nat (attempts (cn_log c ++ [req])) /\ cn_failed_initializes c + 1 <= MAX_FAILED_INITIALIZES) as Hn.
    { intros Hi. destruct (Hc Hi) as (Hw & Hsub & Hout & Hf & Hle & Hlt). specialize (Hlt Hend). rewrite attempts_snoc, Hm, Hsub.
      split_and!; [done|done|by apply refusals_snoc|cbn; lia|lia]. }
    cbn. destruct (_ <=? _) eqn:Hmax; split; cbn; auto; intros Hi; destruct (Hn Hi) as (? & ? & ? & ? & ?); split_and!; try done; lia.
  - split; cbn; [done|]. intros _. exists req. rewrite elem_snoc. auto.
Qed.

Lemma serve_request_gated tok s0 wn now req c :
  sv_auth_token sv = Some tok -> cn_end c = None -> gated tok s0 c -> gated tok s0 (serve_request wn now req (note req c)).
Proof.
  intros Ht Hend G. destruct (String.eqb_spec (rq_method req) "initialize") as [Hm|Hm]; [by apply serve_init_gated|].
  pose proof (open_log tok s0 req c G) as Hp. destruct G as [Hc _].
  apply String.eqb_neq in Hm. unfold serve_request, needs_token. rewrite Ht, Hm. cbn [note cn_initialized negb].
  destruct (cn_initialized c) eqn:Hi; cbn [negb andb].
  - destruct (dispatch_with_notify _ _ _ _) as [resp s']. split; cbn; [by rewrite Hi|by auto].
  - split; cbn; [|by rewrite Hi]. intros _. destruct (Hc eq_refl) as (Hw & Hsub & Hout & Hf & Hle & Hlt). rewrite attempts_snoc, Hm.
    split_and!; [done|done|by apply refusals_snoc|lia|done|done].
Qed.

(** Changes the gate does not look at. *)
Lemma gated_same tok s0 c c' :
  cn_initialized c' = cn_initialized c -> cn_world c' = cn_world c -> cn_failed_initializes c' = cn_failed_initializes c ->
  cn_subscribed c' = cn_subscribed c -> cn_log c' = cn_log c -> (cn_initialized c = false -> Forall refusal (cn_out c) -> Forall refusal (cn_out c')) ->
  (cn_end c' = None -> cn_end c = None) -> gated tok s0 c -> gated tok s0 c'.
Proof.
  intros Hi Hw Hf Hs Hl Hout Hend [Hc Ho]. split; rewrite ?Hi, ?Hw, ?Hf, ?Hl, ?Hs; [|done].
  intros H. destruct (Hc H) as (? & ? & ? & ? & ? & ?). split_and!; auto.
Qed.

Lemma serve_line_gated tok s0 wn now line c :
  sv_auth_token sv = Some tok -> cn_end c = None -> gated tok s0 c -> gated tok s0 (serve_line wn now line c).
Proof.
  intros Ht Hend G. unfold serve_line. cbv zeta.
  destruct (text_of _); [|by apply (gated_same _ _ c); cbn; auto].
  destruct (_ =? _)%string; [by apply (gated_same _ _ c); cbn; auto|].
  destruct (_ =? _)%string; [done|]. destruct (request_of_json _) as [req|msg].
  - destruct (_ =? _)%string; [done|]. destruct (is_notification req); [done|]. by apply serve_request_gated.
  - apply (gated_same _ _ c); cbn; auto. intros _ Hl. by apply refusals_snoc.
Qed.

Lemma mcp_step_gated tok s0 wn c e : sv_auth_token sv = Some tok -> gated tok s0 c -> gated tok s0 (mcp_step wn c e).
Proof.
  intros Ht G. unfold mcp_step. destruct (cn_end c) eqn:Hend; [done|]. destruct e as [chunk| |now|payload].
  - destruct (_ || _); [done|]. by apply (gated_same _ _ c); cbn; auto.
  - by apply (gated_same _ _ c); cbn; auto.
  - destruct (read_line _ _ _ _) as [[r partial] chunks]. cbv zeta.
    assert (gated tok s0 (with_reader partial chunks c)) as G' by (by apply (gated_same _ _ c); cbn; auto).
    destruct r as [line| |]; [by apply serve_line_gated| |done]. by apply (gated_same _ _ (with_reader partial chunks c)); cbn; auto.
  - destruct (wn && cn_subscribed c) eqn:Es; [|done]. apply andb_true_iff in Es as [_ Es]. apply (gated_same _ _ c); cbn; auto.
    intros Hi. destruct (g_closed _ _ _ G Hi) as (_ & Hsub & _). congruence.
Qed.

Lemma mcp_run_gated tok s0 wn es : sv_auth_token sv = Some tok -> gated tok s0 (mcp_run wn (mcp_new s0) es).
Proof.
  intros Ht. unfold mcp_run. assert (gated tok s0 (mcp_new s0)) as G by (split; cbn; [|done]; intros _; by split_and!).
  revert G. generalize (mcp_new s0) as c. induction es as [|e es IH]; intros c G; [done|]. cbn. by apply IH, mcp_step_gated.
Qed.

(** *** What a peer sees before it has shown the token does not depend on the state *)

Lemma dispatch_init_blind req wn now s s' :
  rq_method req = "initialize" -> dispatch_with_notify req wn now s' = ((dispatch_with_notify req wn now s).1, s').
Proof.
  intros Hm. unfold dispatch_with_notify, handle_mcp. rewrite Hm. cbn [String.eqb Ascii.eqb Bool.eqb].
  destruct (verify_init_token _); reflexivity.
Qed.

Lemma serve_request_blind wn now req c s' :
  needs_token = true -> cn_initialized c = false -> serve_request wn now req (with_world s' c) = with_world s' (serve_request wn now req c).
Proof.
  intros Hn Hi. unfold serve_request. rewrite Hn. cbn [cn_initialized with_world]. rewrite Hi. cbn [negb andb].
  destruct (String.eqb_spec (rq_method req) "initialize") as [Hm|Hm]; cbn [negb]; [|done]. cbn [cn_world with_world]. rewrite (dispatch_init_blind req wn now (cn_world c) s' Hm).
  cbn [cn_world]. destruct (dispatch_with_notify req wn now (cn_world c)) as [resp s1]. cbn. destruct (rs_error resp); [|done]. cbn. by destruct (_ <=? _).
Qed.

Lemma mcp_step_blind wn c e s' :
  needs_token = true -> cn_initialized c = false -> mcp_step wn (with_world s' c) e = with_world s' (mcp_step wn c e).
Proof.
  intros Hn Hi. unfold mcp_step. cbn [cn_end with_world]. destruct (cn_end c); [done|]. destruct e as [chunk| |now|payload]; [by destruct (_ || _)|done| |].
  - cbn [cn_eof cn_partial cn_chunks with_world]. destruct (read_line _ _ _ _) as [[r partial] chunks]. destruct r as [line| |]; [|done|done].
    change (with_reader partial chunks (with_world s' c)) with (with_world s' (with_reader partial chunks c)). set (c1 := with_reader partial chunks c).
    assert (cn_initialized c1 = false) as Hi1 by done. unfold serve_line. destruct (text_of _) as [text|]; [|done]. destruct (text =? "")%string; [done|].
    destruct (trim text =? "")%string; [done|]. destruct (request_of_json _) as [req|msg]; [|done]. destruct (_ =? _)%string; [done|]. destruct (is_notification req); [done|].
    by apply (serve_request_blind wn now req (note req c1) s').
  - cbn [cn_subscribed with_world]. by destruct (wn && cn_subscribed c).
Qed.

Lemma serve_request_stays wn now req c : cn_initialized c = true -> cn_initialized (serve_request wn now req c) = true.
Proof.
  intros Hi. unfold serve_request. destruct (_ && _ && _); [done|]. destruct (dispatch_with_notify _ _ _ _) as [resp s]. destruct (_ =? _)%string; [|done].
  destruct (rs_error resp); [|done]. by destruct (_ <=? _).
Qed.

Lemma mcp_step_stays wn c e : cn_initialized c = true -> cn_initialized (mcp_step wn c e) = true.
Proof.
  intros Hi. unfold mcp_step. destruct (cn_end c); [done|]. destruct e as [chunk| |now|payload]; [by destruct (_ || _)|done| |by destruct (_ && _)].
  destruct (read_line _ _ _ _) as [[r partial] chunks]. destruct r as [line| |]; [|done|done]. unfold serve_line. destruct (text_of _) as [text|]; [|done].
  destruct (text =? "")%string; [done|]. destruct (trim text =? "")%string; [done|]. destruct (request_of_json _) as [req|msg]; [|done].
  destruct (_ =? _)%string; [done|]. destruct (is_notification req); [done|]. by apply serve_request_stays.
Qed.

Lemma mcp_run_blind wn es s s' :
  needs_token = true -> cn_initialized (mcp_run wn (mcp_new s) es) = false -> mcp_run wn (mcp_new s') es = with_world s' (mcp_run wn (mcp_new s) es).
Proof.
  intros Hn. unfold mcp_run. induction es as [|e es IH] using rev_ind; [done|]. rewrite !foldl_app. cbn [foldl]. intros Hi.
  destruct (cn_initialized (foldl (mcp_step wn) (mcp_new s) es)) eqn:E; [by rewrite mcp_step_stays in Hi|]. rewrite IH by done. by apply mcp_step_blind.
Qed.

(** *** What a step of an open connection may do *)

Lemma serve_request_world tok wn now req c :
  sv_auth_token sv = Some tok ->
  let c' := serve_request wn now req (note req c) in
  cn_world c' = cn_world c \/ (cn_initialized c = true /\ cn_log c' = cn_log c ++ [req] /\ cn_world c' = (dispatch_with_notify req wn now (cn_world c)).2).
Proof.
  intros Ht. cbv zeta. unfold serve_request, needs_token. rewrite Ht. cbn [note cn_initialized cn_world andb].
  destruct (cn_initialized c) eqn:Hi; cbn [negb andb]; destruct (String.eqb_spec (rq_method req) "initialize") as [Hm|Hm]; cbn [negb]; try (by left).
  - pose proof (dispatch_init_blind req wn now (cn_world c) (cn_world c) Hm) as E. destruct (dispatch_with_notify req wn now (cn_world c)) as [resp s1]. injection E as ->.
    left. cbn. destruct (rs_error resp); [|done]. cbn. by destruct (_ <=? _).
  - right. split; [done|]. destruct (dispatch_with_notify _ _ _ _) as [resp s1]. done.
  - pose proof (dispatch_init_blind req wn now (cn_world c) (cn_world c) Hm) as E. destruct (dispatch_with_notify req wn now (cn_world c)) as [resp s1]. injection E as ->.
    left. cbn. destruct (rs_error resp); [|done]. cbn. by destruct (_ <=? _).
Qed.

Lemma mcp_step_world tok wn c e :
  sv_auth_token sv = Some tok ->
  let c' := mcp_step wn c e in
  cn_world c' = cn_world c \/
  exists now req, e = Poll now /\ cn_initialized c = true /\ cn_log c' = cn_log c ++ [req] /\ cn_world c' = (dispatch_with_notify req wn now (cn_world c)).2.
Proof.
  intros Ht. cbv zeta. unfold mcp_step. destruct (cn_end c); [by left|]. destruct e as [chunk| |now|payload]; [destruct (_ || _); by left|by left| |destruct (_ && _); by left].
  destruct (read_line _ _ _ _) as [[r partial] chunks]. destruct r as [line| |]; [|by left|by left]. cbv zeta. unfold serve_line. cbv zeta.
  destruct (text_of _) as [text|]; [|by left]. destruct (text =? "")%string; [by left|]. destruct (trim text =? "")%string; [by left|].
  destruct (request_of_json _) as [req|msg]; [|by left]. destruct (_ =? _)%string; [by left|]. destruct (is_notification req); [by left|].
  destruct (serve_request_world tok wn now req (with_reader partial chunks c) Ht) as [E|(Hi & Hl & Hw)]; [by left|]. right. by exists now, req.
Qed.

(** C36: on a listener with a token, nothing is done for a peer that has not
    shown it, whatever bytes arrive, however they are cut, and whatever the
    subscriptions of others push: the state and the audit trail are untouched,
    every frame it is sent is an answer without a result, what it is sent does
    not depend on the state, and at most five attempts are heard.  An open
    connection has shown the token.  And a step that changes anything is the
    reading of one request on an open connection, by which the state changes
    only if the request calls a tool the policy lets write. *)
Theorem token_gate (tok : string) (s0 : World) (wn : bool) (es : list Event) :
  sv_auth_token sv = Some tok ->
  let c := mcp_run wn (mcp_new s0) es in
  (cn_initialized c = false ->
     cn_world c = s0 /\ Forall refusal (cn_out c) /\ (forall s, cn_out (mcp_run wn (mcp_new s) es) = cn_out c) /\
     Z.of_nat (attempts (cn_log c)) <= MAX_FAILED_INITIALIZES) /\
  (cn_initialized c = true -> exists r, r ∈ cn_log c /\ presents tok r) /\
  (forall e, let c' := mcp_step wn c e in
     cn_world c' = cn_world c \/
     exists now req, e = Poll now /\ cn_initialized c = true /\ cn_log c' = cn_log c ++ [req] /\
       cn_world c' = (dispatch_with_notify req wn now (cn_world c)).2 /\
       (wd_state (cn_world c') = wd_state (cn_world c) \/ exists name, called req = Some name /\ may_write name)).
Proof.
  intros Ht. cbv zeta. destruct (mcp_run_gated tok s0 wn es Ht) as [Hc Ho]. split_and!; [|done|].
  - intros Hi. destruct (Hc Hi) as (? & _ & ? & <- & ? & ?). split_and!; [done|done| |done].
    intros s. rewrite (mcp_run_blind wn es s0 s); [done| |done]. unfold needs_token. by rewrite Ht.
  - intros e. destruct (mcp_step_world tok wn (mcp_run wn (mcp_new s0) es) e Ht) as [E|(now & req & He & Hi & Hl & Hw)]; [by left|]. right. exists now, req.
    split_and!; [done|done|done|done|]. pose proof (dispatch_world req wn now (cn_world (mcp_run wn (mcp_new s0) es))) as Hd.
    rewrite Hw. destruct (dispatch_with_notify _ _ _ _) as [resp s']. by destruct Hd as [Hd _].
Qed.
End Server.

(** ** Frames do not depend on how they arrive *)

(** Everything that is ready, as one text. *)
Fixpoint joined (chunks : list string) : string := match chunks with [] => "" | c :: r => (c +:+ joined r)%string end.

Lemma cut_line_app_some s t h r : cut_line s = Some (h, r) -> cut_line (s +:+ t) = Some (h, r +:+ t)%string.
Proof.
  revert h r. induction s as [|a s IH]; intros h r; [done|]. rewrite str_cons_app. cbn [cut_line].
  destruct (Ascii.eqb a newline); [by intros [= <- <-]|].
  destruct (cut_line s) as [[h' r']|]; [|done]. intros [= <- <-]. by rewrite (IH h' r' eq_refl).
Qed.

Lemma cut_line_app_none s t :
  cut_line s = None -> cut_line (s +:+ t) = match cut_line t with Some (h, r) => Some (s +:+ h, r)%string | None => None end.
Proof.
  induction s as [|a s IH]; [intros _; rewrite str_nil_app; by destruct (cut_line t) as [[h r]|]|].
  rewrite str_cons_app. cbn [cut_line]. destruct (Ascii.eqb a newline); [done|].
  destruct (cut_line s) as [[h' r']|]; [done|]. intros _. rewrite (IH eq_refl). destruct (cut_line t) as [[h r]|]; [|done]. by rewrite str_cons_app.
Qed.

Lemma joined_push c l : joined (push_chunk c l) = (c +:+ joined l)%string.
Proof. unfold push_chunk. by destruct (String.eqb_spec c "") as [->|]. Qed.

(** What a reader that has all the bytes at once would return. *)
Definition read_line_spec (max : Z) (eof : bool) (text : string) (got : LineRead * string * list string) : Prop :=
  match cut_line text with
  | Some (line, rest) =>
      if max <? Z.of_nat (String.length line) then got.1.1 = LineTooLong
      else exists left, got = (LineDone line, ""%string, left) /\ joined left = rest
  | None =>
      if max <? Z.of_nat (String.length text) then got.1.1 = LineTooLong
      else got = (if eof then (LineDone text, ""%string, []) else (LinePending, text, []))
  end.

Lemma str_len_app s t : Z.of_nat (String.length (s +:+ t)) = Z.of_nat (String.length s) + Z.of_nat (String.length t).
Proof. induction s as [|a s IH]; [done|]. rewrite str_cons_app. cbn [String.length]. lia. Qed.

Lemma cut_line_length s h r : cut_line s = Some (h, r) -> s = (h +:+ r)%string.
Proof.
  revert h r. induction s as [|a s IH]; intros h r; [done|]. cbn [cut_line].
  destruct (Ascii.eqb a newline); [by intros [= <- <-]|]. destruct (cut_line s) as [[h' r']|]; [|done]. intros [= <- <-].
  rewrite str_cons_app. by rewrite <- (IH h' r' eq_refl).
Qed.

(** the frame read does not depend on how the bytes are cut into reads: the
    reader returns the text up to the first newline, waits when there is none,
    and refuses exactly the lines longer than the limit, so that it never holds
    more than the limit between two reads. *)
Theorem read_line_exact (max : Z) (eof : bool) (buf : string) (chunks : list string) :
  cut_line buf = None -> Z.of_nat (String.length buf) <= max ->
  read_line_spec max eof (buf +:+ joined chunks) (read_line max eof buf chunks).
Proof.
  revert buf. induction chunks as [|c l IH]; intros buf Hb Hl; unfold read_line_spec; cbn [joined read_line].
  - rewrite str_app_nil, Hb. destruct (Z.ltb_spec max (Z.of_nat (String.length buf))); [lia|done].
  - rewrite cut_line_app_none by done. destruct (cut_line c) as [[h rest]|] eqn:Hc.
    + rewrite (cut_line_app_some _ _ _ _ Hc). destruct (max <? Z.of_nat (String.length (buf +:+ h))); [done|].
      eexists. split; [done|]. apply joined_push.
    + rewrite (cut_line_app_none c) by done.
      assert (cut_line (buf +:+ c) = None) as Hbc by (rewrite cut_line_app_none by done; by rewrite Hc).
      destruct (Z.ltb_spec max (Z.of_nat (String.length (buf +:+ c)))) as [Hlt|Hle].
      * rewrite str_len_app in Hlt. destruct (cut_line (joined l)) as [[h rest]|]; rewrite !str_len_app;
          (match goal with |- context [max <? ?n] => destruct (Z.ltb_spec max n); [done|lia] end).
      * specialize (IH (buf +:+ c)%string Hbc Hle). unfold read_line_spec in IH. rewrite cut_line_app_none in IH by done.
        rewrite !str_app_assoc in IH. destruct (cut_line (joined l)) as [[h rest]|]; rewrite ?str_app_assoc in IH; exact IH.
Qed.

Lemma read_line_exact_witness :
  read_line_spec 8 false ("pi" +:+ joined ["n"; String "g" (String newline "x")])%string (read_line 8 false "pi" ["n"; String "g" (String newline "x")]).
Proof. apply read_line_exact; [reflexivity|cbn; lia]. Defined.

(** ** Examples *)

(** A program whose state is its configuration; stopping a profile writes its
    name there. *)
Definition demo_config_source : ConfigSource Json :=
  Build_ConfigSource Json (fun w => Ok w) (fun w => Ok w) (fun w => Ok w) (fun w => Ok w) (fun w => Ok w) (fun w => Ok w) (fun w => Ok w) (fun w => Ok w).
Definition demo_state_source : StateSource Json :=
  Build_StateSource Json (fun w => Ok w) (fun w => Ok w) (fun w => Ok w) (fun w => Ok w) (fun w => Ok w) (fun w => Ok w) (fun w => Ok w) (fun w => Ok w).
Definition demo_controller : Controller Json :=
  Build_Controller Json (mret ()) (fun _ _ => mret ()) (fun _ => mret ()) (fun p _ => (Ok tt, JString p)) (fun _ _ => mret ()) (fun _ _ => mret ())
    (fun _ => mret ()) (fun _ _ => mret JNull) (fun _ => mret ()) (mret ()) (fun _ => mret JNull).
#[local] Existing Instances demo_config_source demo_state_source demo_controller.

Definition demo_server (tok : option string) : McpServer (W := Json) :=
  mkMcpServer (mkCapabilities "spt-mcp" "0" "2024-11-05") (mkMcpPolicy true ReadOnly ["profile_stop"; "stats_subscribe"] false "" true (mkTlsPinPolicy [] false None)) tok None.

(** The texts the client sends. *)
Definition demo_request (text : string) : Result string Request :=
  if (text =? "init")%string then Ok (mkRequest (Some (IdNum 1)) "initialize" (Some (obj [("token", JString "t0")])))
  else if (text =? "stop")%string then
    Ok (mkRequest (Some (IdNum 2)) "tools/call" (Some (obj [("name", JString "profile_stop"); ("arguments", obj [("profile", JString "office")])])))
  else if (text =? "keys")%string then Ok (mkRequest (Some (IdNum 3)) "tools/call" (Some (obj [("name", JString "key_inspect")])))
  else if (text =? "sub")%string then Ok (mkRequest (Some (IdNum 4)) "tools/call" (Some (obj [("name", JString "stats_subscribe")])))
  else Err "expected value".

Definition line (s : string) : string := (s +:+ String newline "")%string.

Definition demo_run (tok : option string) (s : Json) (es : list Event) : McpConn :=
  mcp_run to_ascii_lowercase (fun _ => Err "no forward"%string) (fun _ => "{}"%string) (demo_server tok) demo_request true
    (mcp_new (mkWorld s [])) es.

(** Without the token the profile is not stopped, with it it is. *)
Example token_demo :
  let stop := [Arrive (line "stop"); Poll 0] in
  wd_state (cn_world (demo_run (Some "t0"%string) JNull stop)) = JNull /\
  wd_state (cn_world (demo_run (Some "t0"%string) JNull ([Arrive (line "init"); Poll 0] ++ stop))) = JString "office".
Proof. split; vm_compute; reflexivity. Qed.

Lemma token_gate_witness :
  let es := [Arrive (line "sub"); Notify (JString "secret"); Poll 0; Notify (JString "secret")] in
  cn_world (demo_run (Some "t0"%string) JNull es) = mkWorld JNull [] /\ cn_out (demo_run (Some "t0"%string) (JString "x") es) = cn_out (demo_run (Some "t0"%string) JNull es).
Proof.
  destruct (token_gate to_ascii_lowercase (fun _ => Err "no forward"%string) (fun _ => "{}"%string) (demo_server (Some "t0"%string)) demo_request
    "t0" (mkWorld JNull []) true [Arrive (line "sub"); Notify (JString "secret"); Poll 0; Notify (JString "secret")] eq_refl) as [HT _].
  destruct HT as (Hw & _ & Hout & _); [vm_compute; reflexivity|]. split; [exact Hw|]. apply (Hout (mkWorld (JString "x") [])).
Defined.

(** A notification between two parts of a frame drops the first part: the same
    bytes that stop the profile are answered as malformed. *)
Theorem notification_loses_frame :
  let subscribed := [Arrive (line "sub"); Poll 0] in
  let whole := subscribed ++ [Arrive "st"; Poll 0; Arrive (line "op"); Poll 0]%string in
  let split := subscribed ++ [Arrive "st"; Poll 0; Notify JNull; Arrive (line "op"); Poll 0]%string in
  wd_state (cn_world (demo_run None JNull whole)) = JString "office" /\
  wd_state (cn_world (demo_run None JNull split)) = JNull /\
  last (cn_out (demo_run None JNull split)) = Some (FResponse (Response_err IdNull (-32700) "parse error: expected value")).
Proof. split_and!; vm_compute; reflexivity. Qed.

(** [key_inspect] hands out the value of a sensitive key: it moves it under
    [ref], a key that is never redacted. *)
Theorem key_inspect_reveals :
  let cfg := obj [("auth", obj [("private_key_passphrase", JString "hunter2")])] in
  let got := (call_key_inspect to_ascii_lowercase cfg).1 in
  let shown := [SKey "keys"; SIndex 0; SKey "ref"] in
  key_is_sensitive to_ascii_lowercase "private_key_passphrase" = true /\
  redact to_ascii_lowercase cfg = obj [("auth", obj [("private_key_passphrase", JString "***")])] /\
  exists v, got = Ok v /\ at_path shown (redact to_ascii_lowercase v) = Some (JString "hunter2").
Proof. split_and!; [vm_compute; reflexivity..|]. eexists. split; vm_compute; reflexivity. Qed.

(** A subscription's payload is sent as it is: redaction is for results. *)
Theorem notification_not_redacted :
  let tick := obj [("token", JString "hunter2")] in
  last (cn_out (demo_run None JNull [Arrive (line "sub"); Poll 0; Notify tick])) =
  Some (FNotification (obj [("jsonrpc", JString "2.0"); ("method", JString "notifications/stats/tick"); ("params", tick)])).
Proof. vm_compute. reflexivity. Qed.
