(* ===== verification/Spool.v ===== *)
(** * The disk spool

    Models [crates/spt-state/src/spool.rs]: a bounded first-in first-out queue of
    payloads, one file each, that survives a restart.  A directory is a map from
    file names to contents.  Every file operation can fail: those of a push, the
    listing of the directory at the start, and the reads, the sizes, the renames
    and the deletions whose failure the code ignores.  A file whose deletion
    failed stays in the directory behind the queue's back. *)

From S2P Require Import Prelude Bytes Text Errors.

(** ** File names *)

Definition SEQ_WIDTH : nat := 20.
Definition SUFFIX : string := ".bin".
Definition TMP_SUFFIX : string := ".bin.tmp".
Definition POISON_SUFFIX : string := ".bin.poison".

Fixpoint zeros (n : nat) : string := match n with O => "" | S n => String "0" (zeros n) end.

(** [{seq:0SEQ_WIDTH$}]. *)
Definition padded (seq : Z) : string := (zeros (SEQ_WIDTH - String.length (pretty seq)) +:+ pretty seq)%string.

Definition path_for (seq : Z) : string := (padded seq +:+ SUFFIX)%string.
Definition tmp_path_for (seq : Z) : string := (padded seq +:+ TMP_SUFFIX)%string.
Definition poison_path_for (seq : Z) : string := (padded seq +:+ POISON_SUFFIX)%string.

(** The sequence number of a file name that has one. *)
Definition seq_of (name : string) : option Z :=
  stem ← strip_suffix SUFFIX name;
  if (String.length stem =? SEQ_WIDTH)%nat then parse_uint 64 stem else None.

(** ** State *)

Record SpoolConfig := mkSpoolConfig { max_bytes : Z; max_files : Z }.
Definition SpoolConfig_default : SpoolConfig := mkSpoolConfig (64 * 1024 * 1024) 10000.

Abbreviation Dir := (gmap string (list Z)).

Record DiskSpool := mkDiskSpool {
  sp_dir : Dir;
  sp_cfg : SpoolConfig;
  sp_queue : list Z;
  sp_total_bytes : Z;
  sp_next_seq : Z
}.

Record SpoolEntry := mkSpoolEntry { se_payload : list Z; se_seq : Z }.

(** ** The file system *)

(** Which operations on the file of an entry succeed in one call: reading it,
    telling its size, moving it aside, deleting it. *)
Record FileOps := mkFileOps { reads : Z -> bool; stats : Z -> bool; renames : Z -> bool; removes : Z -> bool }.
Definition FileOps_ok : FileOps := mkFileOps (fun _ => true) (fun _ => true) (fun _ => true) (fun _ => true).

(** At the start: whether the directory can be made, which temporary files are
    found and deleted, which files the listing shows and of which it tells the
    size.  A directory that cannot be read shows nothing. *)
Record OpenOps := mkOpenOps { makes : bool; cleans : string -> bool; shows : string -> bool; sizes : string -> bool }.
Definition OpenOps_ok : OpenOps := mkOpenOps true (fun _ => true) (fun _ => true) (fun _ => true).

(** How far the file operations of a push get; the evictions before it have
    their own. *)
Inductive PushStep := IoDone | IoCreateFails | IoWriteFails (written : nat) | IoSyncFails | IoRenameFails.
Record PushIo := mkPushIo { io_files : FileOps; io_step : PushStep }.
Definition PushIo_ok : PushIo := mkPushIo FileOps_ok IoDone.

(** [metadata(path).map(len).unwrap_or(0)]. *)
Definition file_size (f : FileOps) (d : Dir) (seq : Z) : Z :=
  if stats f seq then match d !! path_for seq with Some c => Z.of_nat (length c) | None => 0 end else 0.

(** [let _ = remove_file(path)]. *)
Definition unlink_file (f : FileOps) (seq : Z) (d : Dir) : Dir := if removes f seq then delete (path_for seq) d else d.

(** ** Operations *)

(** The order of [sort_by_key]. *)
Definition seq_le {A} (a b : Z * A) : Prop := a.1 <= b.1.
#[export] Instance seq_le_dec {A} : RelDecision (@seq_le A).
Proof. intros a b. unfold seq_le. apply _. Defined.

(** The entries the listing shows by number, with their sizes. *)
Definition dir_entries (o : OpenOps) (d : Dir) : list (Z * Z) :=
  merge_sort seq_le
    (omap (fun kv => if shows o kv.1
                     then (fun n => (n, if sizes o kv.1 then Z.of_nat (length kv.2) else 0)) <$> seq_of kv.1
                     else None) (map_to_list d)).

Definition clean_tmp (o : OpenOps) (d : Dir) : Dir :=
  filter (fun kv => strip_suffix TMP_SUFFIX kv.1 = None \/ cleans o kv.1 = false) d.

(** The sum of the sizes and the successor of the last number are [u64]. *)
Definition spool_opened (o : OpenOps) (d : Dir) (cfg : SpoolConfig) : DiskSpool :=
  let d := clean_tmp o d in
  let entries := dir_entries o d in
  mkDiskSpool d cfg (fst <$> entries) (foldr (fun e n => e.2 + n) 0 entries)
    (match last entries with Some e => e.1 + 1 | None => 1 end).

Definition spool_open (o : OpenOps) (d : Dir) (cfg : SpoolConfig) : Result Error DiskSpool :=
  if makes o then Ok (spool_opened o d cfg) else Err (StateLockFailed "" "create spool dir").

Definition evict_oldest (f : FileOps) (s : DiskSpool) : option (Z * DiskSpool) :=
  match sp_queue s with
  | [] => None
  | seq :: q =>
      Some (seq, mkDiskSpool (unlink_file f seq (sp_dir s)) (sp_cfg s) q
                   (Z.max 0 (sp_total_bytes s - file_size f (sp_dir s) seq)) (sp_next_seq s))
  end.

(** The two loops of [evict_to_fit]; the queue bounds the number of turns. *)
Fixpoint evict_while (f : FileOps) (cond : DiskSpool -> bool) (fuel : nat) (s : DiskSpool) : DiskSpool :=
  match fuel with
  | O => s
  | S fuel =>
      if cond s then match evict_oldest f s with Some (_, s') => evict_while f cond fuel s' | None => s end
      else s
  end.

Definition too_many (s : DiskSpool) : bool := max_files (sp_cfg s) <=? Z.of_nat (length (sp_queue s)).
Definition too_large (incoming : Z) (s : DiskSpool) : bool :=
  (max_bytes (sp_cfg s) <? sp_total_bytes s + incoming) && negb (bool_decide (sp_queue s = [])).

Definition evict_to_fit (f : FileOps) (incoming : Z) (s : DiskSpool) : DiskSpool :=
  let s := if 0 <? max_files (sp_cfg s) then evict_while f too_many (length (sp_queue s)) s else s in
  if 0 <? max_bytes (sp_cfg s) then evict_while f (too_large incoming) (length (sp_queue s)) s else s.

Definition state_error (seq : Z) (reason : string) : Error := StateLockFailed (tmp_path_for seq) reason.

Definition push (io : PushIo) (payload : list Z) (s : DiskSpool) : Result Error Z * DiskSpool :=
  let size := Z.of_nat (length payload) in
  if (0 <? max_bytes (sp_cfg s)) && (max_bytes (sp_cfg s) <? size)
  then (Err (RuntimeFailure ("spool payload " +:+ pretty size +:+ " bytes exceeds max_bytes " +:+ pretty (max_bytes (sp_cfg s)) +:+ " cap")), s)
  else
    let s := evict_to_fit (io_files io) size s in
    let seq := sp_next_seq s in
    if umax 64 <? seq + 1 then (Err (RuntimeFailure "spool sequence number overflow"), s)
    else
      let with_dir d q total := mkDiskSpool d (sp_cfg s) q total (seq + 1) in
      let tmp := tmp_path_for seq in
      let failed d reason := (Err (state_error seq reason), with_dir d (sp_queue s) (sp_total_bytes s)) in
      match io_step io with
      | IoCreateFails => failed (sp_dir s) "spool create tmp"
      | IoWriteFails n => failed (<[tmp := take n payload]> (sp_dir s)) "spool write tmp"
      | IoSyncFails => failed (<[tmp := payload]> (sp_dir s)) "spool fsync tmp"
      | IoRenameFails =>
          (Err (StateLockFailed (path_for seq) "spool rename"), with_dir (<[tmp := payload]> (sp_dir s)) (sp_queue s) (sp_total_bytes s))
      | IoDone =>
          (Ok seq, with_dir (<[path_for seq := payload]> (delete tmp (sp_dir s))) (sp_queue s ++ [seq]) (sp_total_bytes s + size))
      end.

Definition read_error (seq : Z) (reason : string) : Error := StateLockFailed (path_for seq) reason.

(** [std::fs::read]. *)
Definition read_entry (f : FileOps) (seq : Z) (d : Dir) : option (list Z) := if reads f seq then d !! path_for seq else None.

Definition pop (f : FileOps) (s : DiskSpool) : Result Error (option SpoolEntry) * DiskSpool :=
  match sp_queue s with
  | [] => (Ok None, s)
  | seq :: q =>
      match read_entry f seq (sp_dir s) with
      | None => (Err (read_error seq "spool read"), mkDiskSpool (sp_dir s) (sp_cfg s) q (sp_total_bytes s) (sp_next_seq s))
      | Some payload =>
          (Ok (Some (mkSpoolEntry payload seq)),
           mkDiskSpool (unlink_file f seq (sp_dir s)) (sp_cfg s) q (Z.max 0 (sp_total_bytes s - Z.of_nat (length payload))) (sp_next_seq s))
      end
  end.

Definition peek (f : FileOps) (s : DiskSpool) : Result Error (option SpoolEntry) :=
  match sp_queue s with
  | [] => Ok None
  | seq :: _ =>
      match read_entry f seq (sp_dir s) with
      | None => Err (read_error seq "spool peek read")
      | Some payload => Ok (Some (mkSpoolEntry payload seq))
      end
  end.

Definition front_is (seq : Z) (s : DiskSpool) : bool := match sp_queue s with x :: _ => x =? seq | [] => false end.

Definition remove (f : FileOps) (seq : Z) (s : DiskSpool) : bool * DiskSpool :=
  if negb (front_is seq s) then (false, s)
  else
    (true, mkDiskSpool (unlink_file f seq (sp_dir s)) (sp_cfg s) (tail (sp_queue s))
             (Z.max 0 (sp_total_bytes s - file_size f (sp_dir s) seq)) (sp_next_seq s)).

(** A rename that fails is followed by a deletion. *)
Definition quarantine (f : FileOps) (seq : Z) (s : DiskSpool) : bool * DiskSpool :=
  if negb (front_is seq s) then (false, s)
  else
    let d := match sp_dir s !! path_for seq with
             | Some c => if renames f seq then <[poison_path_for seq := c]> (delete (path_for seq) (sp_dir s))
                         else unlink_file f seq (sp_dir s)
             | None => sp_dir s
             end in
    (true, mkDiskSpool d (sp_cfg s) (tail (sp_queue s)) (Z.max 0 (sp_total_bytes s - file_size f (sp_dir s) seq)) (sp_next_seq s)).

Definition spool_len (s : DiskSpool) : nat := length (sp_queue s).
Definition spool_is_empty (s : DiskSpool) : bool := bool_decide (sp_queue s = []).

(** ** Lemmas: names *)

Lemma digits_length x s k :
  (x < 10 ^ N.of_nat k)%N -> (String.length (pretty_N_go x s) <= k + String.length s)%nat.
Proof.
  revert x s. induction k as [|k IH]; intros x s Hx.
  - assert (x = 0%N) as -> by (cbn in Hx; lia). by rewrite pretty_N_go_0.
  - destruct (N.eq_dec x 0%N) as [->|Hz]; [rewrite pretty_N_go_0; lia|]. rewrite pretty_N_go_step by lia.
    etransitivity; [apply IH|cbn; lia]. apply N.Div0.div_lt_upper_bound.
    replace (10 ^ N.of_nat (S k))%N with (10 * 10 ^ N.of_nat k)%N in Hx by (rewrite Nat2N.inj_succ, N.pow_succ_r'; lia). done.
Qed.

Lemma pretty_length n : in_u 64 n -> (String.length (pretty n) <= 20)%nat.
Proof.
  intros [Hlo Hhi]. destruct n as [|p|p]; [cbn; lia| |lia]. change (pretty (Z.pos p)) with (pretty (N.pos p)).
  unfold pretty, pretty_N. case_decide; [done|]. pose proof (digits_length (N.pos p) "" 20) as Hl. cbn [String.length] in Hl.
  rewrite Nat.add_0_r in Hl. apply Hl. unfold umax in Hhi.
  change (10 ^ N.of_nat 20)%N with 100000000000000000000%N. change (2 ^ 64 - 1) with 18446744073709551615 in Hhi. lia.
Qed.

Lemma zeros_length k : String.length (zeros k) = k.
Proof. induction k as [|k IH]; [done|]. cbn. by rewrite IH. Qed.

Lemma padded_length n : in_u 64 n -> String.length (padded n) = SEQ_WIDTH.
Proof. intros Hn. unfold padded. rewrite string_length_app, zeros_length. pose proof (pretty_length n Hn). unfold SEQ_WIDTH. lia. Qed.

Lemma parse_digits_zeros k s : parse_digits 64 (zeros k +:+ s) 0 = parse_digits 64 s 0.
Proof. induction k as [|k IH]; [done|]. cbn [zeros]. rewrite str_cons_app. exact IH. Qed.

Lemma parse_padded n : in_u 64 n -> parse_uint 64 (padded n) = Some n.
Proof.
  intros Hn. pose proof (parse_uint_pretty 64 n Hn) as H. unfold padded. destruct (SEQ_WIDTH - _)%nat as [|k]; [by rewrite str_nil_app|].
  cbn [zeros]. rewrite str_cons_app.
  change (parse_uint 64 (String "0" (zeros k +:+ pretty n))) with (parse_digits 64 (zeros (S k) +:+ pretty n) 0). rewrite parse_digits_zeros.
  pose proof (pretty_no_char "+" n eq_refl ltac:(destruct Hn; lia)) as Hno. unfold parse_uint in H. destruct (pretty n) as [|a r]; [done|].
  cbn [no_char] in Hno. apply andb_true_iff in Hno as [Ha%negb_true_iff _]. by rewrite Ha in H.
Qed.

Lemma seq_of_path n : in_u 64 n -> seq_of (path_for n) = Some n.
Proof.
  intros Hn. unfold seq_of, path_for. rewrite (proj2 (strip_suffix_spec SUFFIX _ (padded n)) eq_refl). cbn [mbind option_bind].
  rewrite padded_length, Nat.eqb_refl by done. by apply parse_padded.
Qed.

Lemma path_for_inj m n : in_u 64 m -> in_u 64 n -> path_for m = path_for n -> m = n.
Proof. intros Hm Hn E. apply (f_equal seq_of) in E. rewrite !seq_of_path in E by done. by injection E. Qed.

(** A temporary or quarantined file is not an entry, an entry not a temporary. *)
Lemma seq_of_tmp n : seq_of (tmp_path_for n) = None.
Proof. unfold seq_of, tmp_path_for. rewrite strip_suffix_none; [done|reflexivity|unfold SUFFIX, TMP_SUFFIX, POISON_SUFFIX; cbn; lia]. Qed.

Lemma seq_of_poison n : seq_of (poison_path_for n) = None.
Proof. unfold seq_of, poison_path_for. rewrite strip_suffix_none; [done|reflexivity|unfold SUFFIX, TMP_SUFFIX, POISON_SUFFIX; cbn; lia]. Qed.

Lemma path_not_tmp n : strip_suffix TMP_SUFFIX (path_for n) = None.
Proof.
  destruct (strip_suffix TMP_SUFFIX (path_for n)) as [h|] eqn:E; [|done]. apply strip_suffix_spec in E. unfold path_for in E.
  change TMP_SUFFIX with (".bin" +:+ ".tmp")%string in E. rewrite <- str_app_assoc in E.
  destruct (app_suffix _ _ _ _ E) as [m Hm]; [unfold SUFFIX; cbn; lia|]. by apply (strip_suffix_spec ".tmp" SUFFIX m) in Hm.
Qed.

Lemma tmp_is_tmp n : strip_suffix TMP_SUFFIX (tmp_path_for n) = Some (padded n).
Proof. by apply strip_suffix_spec. Qed.

Lemma tmp_not_path m n : tmp_path_for m <> path_for n.
Proof. intros E. pose proof (path_not_tmp n) as H. by rewrite <- E, tmp_is_tmp in H. Qed.

Lemma poison_not_path m n : in_u 64 n -> poison_path_for m <> path_for n.
Proof. intros Hn E. apply (f_equal seq_of) in E. by rewrite seq_of_poison, seq_of_path in E. Qed.

(** ** The invariant *)

(** The entries of the directory have the names the spool gives them, and none
    has the last number there is. *)
Definition canonical (d : Dir) : Prop :=
  forall name n, is_Some (d !! name) -> seq_of name = Some n -> 0 <= n < umax 64 /\ name = path_for n.

Definition payload_at (d : Dir) (n : Z) : list Z := default [] (d !! path_for n).

Record wf (s : DiskSpool) : Prop := mkWf {
  wf_next : 1 <= sp_next_seq s <= umax 64;
  wf_range : Forall (fun n => 0 <= n < sp_next_seq s) (sp_queue s);
  wf_sorted : StronglySorted Z.lt (sp_queue s);
  wf_files : forall n, n ∈ sp_queue s -> is_Some (sp_dir s !! path_for n);
  wf_names : canonical (sp_dir s)
}.

Lemma wf_in_u s n : wf s -> n ∈ sp_queue s -> in_u 64 n.
Proof. intros H Hn. pose proof (wf_next s H). pose proof (proj1 (Forall_forall _ _) (wf_range s H) n Hn). unfold in_u in *. lia. Qed.

Lemma canonical_at d n : canonical d -> in_u 64 n -> is_Some (d !! path_for n) -> n < umax 64.
Proof. intros Hc Hn Hs. destruct (Hc _ n Hs (seq_of_path n Hn)). lia. Qed.

Lemma sorted_head_notin n q : StronglySorted Z.lt (n :: q) -> n ∉ q.
Proof. intros Hs Hin. apply StronglySorted_inv in Hs as [_ Hf]. pose proof (proj1 (Forall_forall _ _) Hf n Hin). lia. Qed.

(** ** Specification: a bounded queue of numbered payloads *)

(** The queue, the files on disk it no longer (or not yet) knows, the next
    number and the bytes counted. *)
Record Queue := mkQueue { q_entries : list (Z * list Z); q_left : gmap Z (list Z); q_next : Z; q_counted : Z }.

Definition bytes_of_all (l : list (list Z)) : Z := foldr (fun p n => Z.of_nat (length p) + n) 0 l.
Definition q_bytes (l : list (Z * list Z)) : Z := bytes_of_all l.*2.

(** The caps leave no room for a payload of this size. *)
Definition many (cfg : SpoolConfig) (len : nat) : bool := (0 <? max_files cfg) && (max_files cfg <=? Z.of_nat len).
Definition large (cfg : SpoolConfig) (incoming counted : Z) : bool := (0 <? max_bytes cfg) && (max_bytes cfg <? counted + incoming).
Definition over (cfg : SpoolConfig) (incoming : Z) (len : nat) (counted : Z) : bool := many cfg len || large cfg incoming counted.

(** What is left of an entry the queue lets go: its file, if that stays. *)
Definition keep_file (stays : bool) (n : Z) (p : list Z) (kept : gmap Z (list Z)) : gmap Z (list Z) :=
  if stays then <[n := p]> kept else kept.
Definition uncount (f : FileOps) (n : Z) (p : list Z) (counted : Z) : Z :=
  Z.max 0 (counted - if stats f n then Z.of_nat (length p) else 0).

(** Entries go from the front while [cond] holds of the length and the bytes. *)
Fixpoint fit_while (f : FileOps) (cond : nat -> Z -> bool) (l : list (Z * list Z)) (kept : gmap Z (list Z)) (counted : Z)
  : list (Z * list Z) * gmap Z (list Z) * Z :=
  match l with
  | [] => (l, kept, counted)
  | (n, p) :: r =>
      if cond (length l) counted
      then fit_while f cond r (keep_file (negb (removes f n)) n p kept) (uncount f n p counted)
      else (l, kept, counted)
  end.

Definition q_fit (cfg : SpoolConfig) (f : FileOps) (incoming : Z) (q : Queue) : Queue :=
  let '(l, kept, counted) := fit_while f (over cfg incoming) (q_entries q) (q_left q) (q_counted q) in
  mkQueue l kept (q_next q) counted.

(** A push that is not done leaves the queue the evictions left; one that is
    takes the place of a file that was there under its number. *)
Definition q_push (cfg : SpoolConfig) (io : PushIo) (payload : list Z) (q : Queue) : Queue :=
  let size := Z.of_nat (length payload) in
  if (0 <? max_bytes cfg) && (max_bytes cfg <? size) then q
  else
    let q := q_fit cfg (io_files io) size q in
    if umax 64 <=? q_next q then q
    else match io_step io with
         | IoDone => mkQueue (q_entries q ++ [(q_next q, payload)]) (delete (q_next q) (q_left q)) (q_next q + 1) (q_counted q + size)
         | _ => mkQueue (q_entries q) (q_left q) (q_next q + 1) (q_counted q)
         end.

(** The front goes; its file may stay. *)
Definition q_tail (stays : bool) (counted : Z) (q : Queue) : Queue :=
  match q_entries q with
  | (n, p) :: r => mkQueue r (keep_file stays n p (q_left q)) (q_next q) counted
  | [] => q
  end.

Definition q_drop (f : FileOps) (stays : bool) (seq : Z) (q : Queue) : Queue :=
  match q_entries q with
  | (n, p) :: _ => if n =? seq then q_tail stays (uncount f n p (q_counted q)) q else q
  | [] => q
  end.

Definition q_remove (f : FileOps) (seq : Z) : Queue -> Queue := q_drop f (negb (removes f seq)) seq.
Definition q_quarantine (f : FileOps) (seq : Z) : Queue -> Queue := q_drop f (negb (renames f seq) && negb (removes f seq)) seq.

(** An entry that cannot be read is given up and still counted. *)
Definition q_pop (f : FileOps) (q : Queue) : Queue :=
  match q_entries q with
  | (n, p) :: _ =>
      if reads f n then q_tail (negb (removes f n)) (Z.max 0 (q_counted q - Z.of_nat (length p))) q
      else q_tail true (q_counted q) q
  | [] => q
  end.

(** A start finds the files that are listed, in the order of their numbers. *)
Definition q_open (o : OpenOps) (files : gmap Z (list Z)) : Queue :=
  let shown := filter (fun e => shows o (path_for e.1) = true) files in
  let l := merge_sort seq_le (map_to_list shown) in
  mkQueue l (filter (fun e => shows o (path_for e.1) = false) files)
    (match last l with Some e => e.1 + 1 | None => 1 end)
    (foldr (fun e n => (if sizes o (path_for e.1) then Z.of_nat (length e.2) else 0) + n) 0 l).

Definition q_files (q : Queue) : gmap Z (list Z) := list_to_map (q_entries q) ∪ q_left q.

(** What a client does with a spool: a restart is one of its steps, and does
    nothing when the directory cannot be made. *)
Inductive SpoolOp :=
| OpPush (io : PushIo) (payload : list Z)
| OpPop (f : FileOps)
| OpRemove (f : FileOps) (seq : Z)
| OpQuarantine (f : FileOps) (seq : Z)
| OpRestart (o : OpenOps).

Definition spool_step (s : DiskSpool) (o : SpoolOp) : DiskSpool :=
  match o with
  | OpPush io p => (push io p s).2
  | OpPop f => (pop f s).2
  | OpRemove f seq => (remove f seq s).2
  | OpQuarantine f seq => (quarantine f seq s).2
  | OpRestart o => match spool_open o (sp_dir s) (sp_cfg s) with Ok s' => s' | Err _ => s end
  end.

Definition q_step (cfg : SpoolConfig) (q : Queue) (o : SpoolOp) : Queue :=
  match o with
  | OpPush io p => q_push cfg io p q
  | OpPop f => q_pop f q
  | OpRemove f seq => q_remove f seq q
  | OpQuarantine f seq => q_quarantine f seq q
  | OpRestart o => if makes o then q_open o (q_files q) else q
  end.

(** ** The abstraction *)

(** The entry files of a directory by number. *)
Definition entry_files (d : Dir) : gmap Z (list Z) :=
  list_to_map (omap (fun kv => (fun n => (n, kv.2)) <$> seq_of kv.1) (map_to_list d)).

Definition entry_of (d : Dir) (n : Z) : Z * list Z := (n, payload_at d n).
Definition abs (s : DiskSpool) : Queue :=
  mkQueue (entry_of (sp_dir s) <$> sp_queue s) (filter (fun e => e.1 ∉ sp_queue s) (entry_files (sp_dir s)))
    (sp_next_seq s) (sp_total_bytes s).

Lemma NoDup_fst_omap {A B} (f : string -> option Z) (g : string * A -> B) (l : list (string * A)) :
  NoDup l.*1 -> (forall a b n, a ∈ l.*1 -> b ∈ l.*1 -> f a = Some n -> f b = Some n -> a = b) ->
  NoDup (omap (fun kv => (fun n => (n, g kv)) <$> f kv.1) l).*1.
Proof.
  induction l as [|[a x] l IH]; [constructor|]. cbn [fmap list_fmap fst omap list_omap]. intros [Hna Hnd]%NoDup_cons Hinj.
  assert (NoDup (omap (fun kv => (fun n => (n, g kv)) <$> f kv.1) l).*1) as Hl.
  { apply IH; [done|]. intros b b' n Hb Hb'. apply Hinj; by right. }
  destruct (f a) as [n|] eqn:Ea; cbn [snd fmap option_fmap option_map]; [|done].
  apply NoDup_cons. split; [|done]. cbn [fst]. intros ([k z] & -> & Hin)%list_elem_of_fmap. apply list_elem_of_omap in Hin as [[b y] [Hb E]].
  cbn in E. destruct (f b) as [m|] eqn:Eb; [|done]. injection E as <- <-. apply Hna. rewrite (Hinj a b m); [|by left|right|done|done]; by apply (list_elem_of_fmap_2 fst) in Hb.
Qed.

Lemma seq_of_inj d : canonical d -> forall a b n, a ∈ (map_to_list d).*1 -> b ∈ (map_to_list d).*1 -> seq_of a = Some n -> seq_of b = Some n -> a = b.
Proof.
  intros Hc a b n Ha Hb Ea Eb. apply list_elem_of_fmap in Ha as ([a' x] & -> & Ha%elem_of_map_to_list).
  apply list_elem_of_fmap in Hb as ([b' y] & -> & Hb%elem_of_map_to_list). cbn in *.
  destruct (Hc a' n (mk_is_Some _ _ Ha) Ea) as [_ ->]. by destruct (Hc b' n (mk_is_Some _ _ Hb) Eb) as [_ ->].
Qed.

Lemma canonical_in_u d name n : canonical d -> is_Some (d !! name) -> seq_of name = Some n -> in_u 64 n.
Proof. intros Hc Hs E. destruct (Hc _ _ Hs E). unfold in_u. lia. Qed.

Lemma lookup_entry_files d n c : canonical d -> entry_files d !! n = Some c <-> in_u 64 n /\ d !! path_for n = Some c.
Proof.
  intros Hc. unfold entry_files. rewrite <- elem_of_list_to_map.
  2:{ apply (NoDup_fst_omap seq_of (fun kv => kv.2)); [apply NoDup_fst_map_to_list|by apply seq_of_inj]. }
  rewrite list_elem_of_omap. split.
  - intros [[name c'] [Hin%elem_of_map_to_list E]]. cbn [fst snd] in E. destruct (seq_of name) as [k|] eqn:Ek; [|done]. injection E as <- <-.
    destruct (Hc name k (mk_is_Some _ _ Hin) Ek) as [_ ->]. split; [|done]. eapply canonical_in_u; [done|by eexists|done].
  - intros [Hn Hl]. exists (path_for n, c). split; [by apply elem_of_map_to_list|]. cbn [fst snd]. by rewrite seq_of_path.
Qed.

Lemma lookup_left d (q : list Z) n c :
  canonical d -> filter (fun e => e.1 ∉ q) (entry_files d) !! n = Some c <-> n ∉ q /\ in_u 64 n /\ d !! path_for n = Some c.
Proof. intros Hc. rewrite map_lookup_filter_Some, lookup_entry_files by done. cbn. tauto. Qed.

(** Maps that agree. *)
Lemma map_same (m m' : gmap Z (list Z)) : (forall n c, m !! n = Some c <-> m' !! n = Some c) -> m = m'.
Proof. intros H. apply map_eq. intros n. apply option_eq. apply H. Qed.

Lemma entries_ext (d d' : Dir) (q : list Z) : (forall n, n ∈ q -> d' !! path_for n = d !! path_for n) -> entry_of d' <$> q = entry_of d <$> q.
Proof.
  intros H. apply list_fmap_ext. intros i n Hi. unfold entry_of, payload_at. rewrite H; [done|by eapply list_elem_of_lookup_2].
Qed.

Lemma abs_length s : length (q_entries (abs s)) = length (sp_queue s).
Proof. unfold abs. cbn. apply length_fmap. Qed.

Lemma abs_cons s n q : sp_queue s = n :: q -> q_entries (abs s) = entry_of (sp_dir s) n :: (entry_of (sp_dir s) <$> q).
Proof. intros E. unfold abs. by rewrite E. Qed.

Lemma front_present s n q : wf s -> sp_queue s = n :: q -> sp_dir s !! path_for n = Some (payload_at (sp_dir s) n).
Proof.
  intros W Eq. destruct (wf_files s W n) as [c Hc]; [rewrite Eq; by left|]. unfold payload_at. by rewrite Hc.
Qed.

(** *** The front leaves *)

Lemma drop_front s n q d' total stays :
  wf s -> sp_queue s = n :: q -> canonical d' ->
  (forall m, in_u 64 m -> d' !! path_for m = if decide (m = n) then (if stays : bool then sp_dir s !! path_for n else None) else sp_dir s !! path_for m) ->
  let s' := mkDiskSpool d' (sp_cfg s) q total (sp_next_seq s) in wf s' /\ abs s' = q_tail stays total (abs s).
Proof.
  intros W Eq Hc' Hd s'. pose proof (wf_sorted s W) as Hs. rewrite Eq in Hs. pose proof (sorted_head_notin _ _ Hs) as Hnq.
  assert (forall m, m ∈ q -> d' !! path_for m = sp_dir s !! path_for m) as Hold.
  { intros m Hm. rewrite Hd by (apply (wf_in_u s _ W); rewrite Eq; by right). rewrite decide_False; [done|]. by intros ->. }
  split; [split; cbn|].
  - apply W.
  - pose proof (wf_range s W) as Hr. rewrite Eq in Hr. by apply Forall_cons in Hr as [_ Hr].
  - by apply StronglySorted_inv in Hs as [? _].
  - intros m Hm. rewrite Hold by done. apply (wf_files s W). rewrite Eq. by right.
  - done.
  - unfold q_tail. rewrite (abs_cons s n q Eq). unfold entry_of at 1. unfold abs. cbn [sp_dir sp_queue sp_next_seq sp_total_bytes q_left q_next s'].
    f_equal; [by apply entries_ext|]. apply map_same. intros m c. rewrite (lookup_left d') by done.
    assert (in_u 64 n) as Hn by (apply (wf_in_u s _ W); rewrite Eq; by left). pose proof (front_present s n q W Eq) as Hfp.
    unfold keep_file. destruct stays; [rewrite lookup_insert_Some|]; rewrite (lookup_left (sp_dir s)) by apply W; rewrite Eq, elem_of_cons.
    + split.
      * intros (Hm & Hu & Hl). rewrite Hd in Hl by done. case_decide as E; [subst; left; rewrite Hfp in Hl; by injection Hl|right; naive_solver].
      * intros [[<- <-]|(Hne & Hm & Hu & Hl)]; [split_and!; [done|done|]; by rewrite Hd, decide_True|].
        split_and!; [tauto|done|]. by rewrite Hd, decide_False by done.
    + split.
      * intros (Hm & Hu & Hl). rewrite Hd in Hl by done. case_decide as E; [done|]. naive_solver.
      * intros (Hm & Hu & Hl). split_and!; [tauto|done|]. rewrite Hd, decide_False by naive_solver. done.
Qed.

Lemma lookup_delete_path (d : Dir) n m :
  in_u 64 n -> in_u 64 m -> delete (path_for n) d !! path_for m = if decide (m = n) then None else d !! path_for m.
Proof.
  intros Hn Hm. case_decide as E; [subst; apply lookup_delete_eq|]. apply lookup_delete_ne. intros H. by apply path_for_inj in H.
Qed.

Lemma canonical_delete d name : canonical d -> canonical (delete name d).
Proof. intros Hc name' n [c [_ H]%lookup_delete_Some]. apply Hc. by eexists. Qed.

Lemma remove_file_path f (d : Dir) n m :
  in_u 64 n -> in_u 64 m ->
  unlink_file f n d !! path_for m = if decide (m = n) then (if negb (removes f n) then d !! path_for n else None) else d !! path_for m.
Proof.
  intros Hn Hm. unfold unlink_file. destruct (removes f n); cbn [negb]; [by apply lookup_delete_path|]. by case_decide; subst.
Qed.

Lemma canonical_remove_file f n d : canonical d -> canonical (unlink_file f n d).
Proof. intros Hc. unfold unlink_file. destruct (removes f n); [by apply canonical_delete|done]. Qed.

Lemma front_in_u s n q : wf s -> sp_queue s = n :: q -> in_u 64 n.
Proof. intros W Eq. apply (wf_in_u s _ W). rewrite Eq. by left. Qed.

Lemma remove_front s f n q total :
  wf s -> sp_queue s = n :: q ->
  let s' := mkDiskSpool (unlink_file f n (sp_dir s)) (sp_cfg s) q total (sp_next_seq s) in wf s' /\ abs s' = q_tail (negb (removes f n)) total (abs s).
Proof.
  intros W Eq. pose proof (front_in_u s n q W Eq). apply (drop_front s n); [done|done|apply canonical_remove_file, W|]. intros m Hm. by apply remove_file_path.
Qed.

Lemma file_size_uncount s f n q :
  wf s -> sp_queue s = n :: q ->
  Z.max 0 (sp_total_bytes s - file_size f (sp_dir s) n) = uncount f n (payload_at (sp_dir s) n) (q_counted (abs s)).
Proof. intros W Eq. unfold file_size, uncount. cbn. by rewrite (front_present s n q W Eq). Qed.

Lemma pop_abs f s : wf s -> wf (pop f s).2 /\ abs (pop f s).2 = q_pop f (abs s).
Proof.
  intros W. unfold pop, q_pop. destruct (sp_queue s) as [|n q] eqn:Eq; [split; [done|]; cbn [snd]; unfold abs; by rewrite Eq|].
  rewrite (abs_cons s n q Eq). cbn [entry_of]. unfold read_entry. rewrite (front_present s n q W Eq). destruct (reads f n); cbn [snd].
  - by eapply remove_front.
  - eapply drop_front; [done|done|apply W|]. intros m Hm. by case_decide; subst.
Qed.

Lemma front_is_drop s seq n q f stays :
  sp_queue s = n :: q ->
  q_drop f stays seq (abs s) = if front_is seq s then q_tail stays (uncount f n (payload_at (sp_dir s) n) (q_counted (abs s))) (abs s) else abs s.
Proof. intros Eq. unfold q_drop, front_is. rewrite (abs_cons s n q Eq), Eq. done. Qed.

Lemma remove_abs f seq s : wf s -> wf (remove f seq s).2 /\ abs (remove f seq s).2 = q_remove f seq (abs s).
Proof.
  intros W. unfold remove, q_remove. destruct (sp_queue s) as [|n q] eqn:Eq.
  - unfold front_is. rewrite Eq. split; [done|]. unfold q_drop, abs. cbn. by rewrite Eq.
  - rewrite (front_is_drop s seq n q _ _ Eq). destruct (front_is seq s) eqn:Ef; [|done]. unfold front_is in Ef. rewrite Eq in Ef.
    apply Z.eqb_eq in Ef as ->. cbn [negb snd tail]. rewrite (file_size_uncount s f seq q W Eq). by eapply remove_front.
Qed.

Lemma quarantine_abs f seq s : wf s -> wf (quarantine f seq s).2 /\ abs (quarantine f seq s).2 = q_quarantine f seq (abs s).
Proof.
  intros W. unfold quarantine, q_quarantine. destruct (sp_queue s) as [|n q] eqn:Eq.
  - unfold front_is. rewrite Eq. split; [done|]. unfold q_drop, abs. cbn. by rewrite Eq.
  - rewrite (front_is_drop s seq n q _ _ Eq). destruct (front_is seq s) eqn:Ef; [|done]. unfold front_is in Ef. rewrite Eq in Ef.
    apply Z.eqb_eq in Ef as ->. cbn [negb snd tail]. rewrite (file_size_uncount s f seq q W Eq).
    pose proof (front_in_u s seq q W Eq) as Hn. rewrite (front_present s seq q W Eq). destruct (renames f seq); cbn [negb andb]; [|by eapply remove_front].
    eapply drop_front; [done|done| |].
    + intros name k H Hk. rewrite lookup_insert_ne in H by (intros <-; by rewrite seq_of_poison in Hk). eapply canonical_delete; [apply W|done|done].
    + intros m Hm. rewrite lookup_insert_ne by (by apply poison_not_path). by apply lookup_delete_path.
Qed.

(** *** Eviction *)

Definition as_queue (x : list (Z * list Z) * gmap Z (list Z) * Z) (next : Z) : Queue := mkQueue x.1.1 x.1.2 next x.2.

Lemma evict_while_abs f cond acond fuel s :
  (forall s', wf s' -> sp_cfg s' = sp_cfg s -> sp_queue s' <> [] -> cond s' = acond (length (sp_queue s')) (sp_total_bytes s')) ->
  wf s -> (length (sp_queue s) <= fuel)%nat ->
  let s' := evict_while f cond fuel s in
  wf s' /\ sp_cfg s' = sp_cfg s
  /\ abs s' = as_queue (fit_while f acond (q_entries (abs s)) (q_left (abs s)) (q_counted (abs s))) (sp_next_seq s).
Proof.
  revert s. induction fuel as [|fuel IH]; intros s Hcond W Hf; cbn [evict_while].
  - destruct (sp_queue s) as [|n q] eqn:Eq; [|cbn in Hf; lia]. split_and!; [done..|]. unfold abs. by rewrite Eq.
  - destruct (sp_queue s) as [|n q] eqn:Eq.
    + assert (abs s = as_queue (fit_while f acond (q_entries (abs s)) (q_left (abs s)) (q_counted (abs s))) (sp_next_seq s)) as Ha by (unfold abs; by rewrite Eq).
      unfold evict_oldest. rewrite Eq. by destruct (cond s).
    + assert (cond s = acond (length (n :: q)) (sp_total_bytes s)) as Hc by (rewrite (Hcond s), Eq; [done|done|done|by rewrite Eq]).
      rewrite (abs_cons s n q Eq). cbn [entry_of fit_while length]. rewrite length_fmap. change (q_counted (abs s)) with (sp_total_bytes s).
      cbn [length] in Hc. rewrite <- Hc. destruct (cond s).
      * unfold evict_oldest. rewrite Eq, (file_size_uncount s f n q W Eq).
        destruct (remove_front s f n q (uncount f n (payload_at (sp_dir s) n) (q_counted (abs s))) W Eq) as [W' Ha].
        set (s1 := mkDiskSpool _ _ _ _ _) in *. destruct (IH s1) as (W2 & Hcfg & Ha2); [by intros; apply Hcond|done|cbn in *; lia|].
        split_and!; [done|done|]. rewrite Ha2, Ha. unfold q_tail. rewrite (abs_cons s n q Eq). done.
      * split_and!; [done|done|]. unfold as_queue, abs. cbn. by rewrite Eq.
Qed.

(** A first loop over the lengths and a second are one loop. *)
Lemma fit_while_or f (c1 : nat -> bool) (c2 : nat -> Z -> bool) l :
  (forall n, c1 (S n) = false -> c1 n = false) -> forall kept counted,
  fit_while f (fun n z => c1 n || c2 n z) l kept counted
  = let '(l', k', z') := fit_while f (fun n _ => c1 n) l kept counted in fit_while f c2 l' k' z'.
Proof.
  intros Hmono. induction l as [|[n p] r IH]; intros kept counted; [done|]. cbn [fit_while]. cbn [length].
  destruct (c1 (S (length r))) eqn:E; cbn [orb]; [apply IH|]. cbn [fit_while length]. destruct (c2 _ _); [|done]. rewrite IH.
  apply Hmono in E. destruct r as [|[m p'] r]; [done|]. cbn [fit_while]. cbn [length] in E |- *. by rewrite E.
Qed.

Lemma fit_while_never f c l kept counted : (forall n z, c n z = false) -> fit_while f c l kept counted = (l, kept, counted).
Proof. intros H. destruct l as [|[n p] r]; [done|]. cbn [fit_while]. by rewrite H. Qed.

Lemma many_mono cfg n : many cfg (S n) = false -> many cfg n = false.
Proof. unfold many. destruct (0 <? max_files cfg); [|done]. cbn [andb]. rewrite !Z.leb_gt. lia. Qed.

(** The two eviction loops are the one of the specification. *)
Lemma evict_to_fit_abs f incoming s :
  wf s -> let s' := evict_to_fit f incoming s in
  wf s' /\ sp_cfg s' = sp_cfg s /\ abs s' = q_fit (sp_cfg s) f incoming (abs s).
Proof.
  intros W. unfold q_fit, over. rewrite (fit_while_or f (many (sp_cfg s)) (fun _ => large (sp_cfg s) incoming)) by apply many_mono.
  unfold evict_to_fit. set (s1 := if 0 <? max_files (sp_cfg s) then _ else s).
  assert (wf s1 /\ sp_cfg s1 = sp_cfg s
    /\ abs s1 = as_queue (fit_while f (fun n _ => many (sp_cfg s) n) (q_entries (abs s)) (q_left (abs s)) (q_counted (abs s))) (sp_next_seq s)) as (W1 & Hc1 & Ha1).
  { unfold s1. destruct (0 <? max_files (sp_cfg s)) eqn:E.
    - apply evict_while_abs; [|done|done]. intros s' _ Hc _. unfold too_many, many. by rewrite Hc, E.
    - rewrite fit_while_never by (intros; unfold many; by rewrite E). done. }
  destruct (fit_while f (fun n _ => many (sp_cfg s) n) _ _ _) as [[l1 k1] z1]. unfold as_queue in Ha1. cbn [fst snd] in Ha1. rewrite Hc1.
  assert (wf (if 0 <? max_bytes (sp_cfg s) then evict_while f (too_large incoming) (length (sp_queue s1)) s1 else s1)
    /\ sp_cfg (if 0 <? max_bytes (sp_cfg s) then evict_while f (too_large incoming) (length (sp_queue s1)) s1 else s1) = sp_cfg s
    /\ abs (if 0 <? max_bytes (sp_cfg s) then evict_while f (too_large incoming) (length (sp_queue s1)) s1 else s1)
       = as_queue (fit_while f (fun _ => large (sp_cfg s) incoming) (q_entries (abs s1)) (q_left (abs s1)) (q_counted (abs s1))) (sp_next_seq s1)) as (W2 & Hc2 & Ha2).
  { destruct (0 <? max_bytes (sp_cfg s)) eqn:E.
    - rewrite <- Hc1. apply evict_while_abs; [|done|done]. intros s' W' Hc Hne. unfold too_large, large. rewrite Hc, Hc1, E.
      rewrite (bool_decide_eq_false_2 _ Hne). by rewrite andb_true_r.
    - rewrite fit_while_never by (intros; unfold large; by rewrite E). done. }
  split_and!; [done|done|]. rewrite Ha2. assert (sp_next_seq s1 = sp_next_seq s) as -> by (apply (f_equal q_next) in Ha1; done).
  rewrite Ha1. cbn [q_entries q_left q_counted]. change (q_next (abs s)) with (sp_next_seq s).
  by destruct (fit_while _ _ l1 k1 z1) as [[? ?] ?].
Qed.

(** *** Push *)

(** A directory change outside the numbered entries. *)
Lemma other_files_abs s d' next :
  wf s -> sp_next_seq s <= next <= umax 64 ->
  (forall n, d' !! path_for n = sp_dir s !! path_for n) -> (forall name k, seq_of name = Some k -> d' !! name = sp_dir s !! name) ->
  let s' := mkDiskSpool d' (sp_cfg s) (sp_queue s) (sp_total_bytes s) next in
  wf s' /\ abs s' = mkQueue (q_entries (abs s)) (q_left (abs s)) next (q_counted (abs s)).
Proof.
  intros W Hnext Hp Hk s'. assert (canonical d') as Hc.
  { intros name k Hs Hname. rewrite (Hk name k Hname) in Hs. by apply (wf_names s W). }
  split.
  - pose proof (wf_next s W). split; [cbn; lia| |apply W| |done].
    + eapply Forall_impl; [apply (wf_range s W)|]. cbn. lia.
    + intros n Hn. cbn. rewrite Hp. by apply (wf_files s W).
  - unfold abs. cbn. f_equal; [apply entries_ext; intros; apply Hp|]. apply map_same. intros n c.
    rewrite !lookup_left by (done || apply W). by rewrite Hp.
Qed.

Lemma queue_snoc (q : list Z) n : StronglySorted Z.lt q -> Forall (fun m => m < n) q -> StronglySorted Z.lt (q ++ [n]).
Proof.
  induction q as [|m q IH]; intros Hs Hf; cbn; [repeat constructor|]. apply StronglySorted_inv in Hs as [Hs Hm]. apply Forall_cons in Hf as [Hmn Hf].
  constructor; [by apply IH|]. apply Forall_app. split; [done|by repeat constructor].
Qed.

Lemma push_done_abs s payload :
  wf s -> sp_next_seq s + 1 <= umax 64 ->
  let n := sp_next_seq s in
  let s' := mkDiskSpool (<[path_for n := payload]> (delete (tmp_path_for n) (sp_dir s))) (sp_cfg s) (sp_queue s ++ [n])
              (sp_total_bytes s + Z.of_nat (length payload)) (n + 1) in
  wf s' /\ abs s' = mkQueue (q_entries (abs s) ++ [(n, payload)]) (delete n (q_left (abs s))) (n + 1) (q_counted (abs s) + Z.of_nat (length payload)).
Proof.
  intros W Hmax n s'. pose proof (wf_next s W) as Hn. assert (in_u 64 n) as Hu by (unfold in_u; lia).
  pose proof (wf_range s W) as Hr. assert (Forall (fun m => m < n) (sp_queue s)) as Hlt by (eapply Forall_impl; [exact Hr|cbn; lia]).
  assert (n ∉ sp_queue s) as Hnq by (intros Hin; pose proof (proj1 (Forall_forall _ _) Hlt n Hin) as Hx; cbn in Hx; lia).
  assert (forall m, in_u 64 m -> sp_dir s' !! path_for m = if decide (m = n) then Some payload else sp_dir s !! path_for m) as Hd.
  { intros m Hm. cbn. case_decide as E; [subst m; apply lookup_insert_eq|].
    rewrite lookup_insert_ne by (intros H; by apply path_for_inj in H). apply lookup_delete_ne, tmp_not_path. }
  assert (forall m, m ∈ sp_queue s -> sp_dir s' !! path_for m = sp_dir s !! path_for m) as Hold.
  { intros m Hm. rewrite Hd by (by apply (wf_in_u s)). rewrite decide_False; [done|]. by intros ->. }
  assert (canonical (sp_dir s')) as Hc.
  { intros name k Hs Hname. cbn in Hs. destruct (decide (name = path_for n)) as [->|Hne].
    - rewrite seq_of_path in Hname by done. injection Hname as <-. split; [lia|done].
    - rewrite lookup_insert_ne in Hs by done. by apply (canonical_delete _ (tmp_path_for n) (wf_names s W) name k). }
  split; [split|].
  - cbn. lia.
  - cbn. apply Forall_app. split; [eapply Forall_impl; [exact Hr|cbn; lia]|]. repeat constructor; lia.
  - apply queue_snoc; [apply W|done].
  - intros m [Hm|Hm]%elem_of_app; [rewrite Hold by done; by apply (wf_files s W)|]. apply list_elem_of_singleton in Hm as ->.
    rewrite Hd, decide_True by done. by eexists.
  - done.
  - unfold abs. change (sp_queue s') with (sp_queue s ++ [n]). cbn [sp_next_seq sp_total_bytes s' q_entries q_left q_counted]. fold s'. f_equal.
    + rewrite fmap_app, (entries_ext _ _ _ Hold). cbn [fmap list_fmap]. unfold entry_of at 2, payload_at. by rewrite Hd, decide_True.
    + apply map_same. intros m c. rewrite lookup_left by done. rewrite lookup_delete_Some, lookup_left by apply W.
      rewrite elem_of_app, list_elem_of_singleton. split.
      * intros (Hm & Hmu & Hl). assert (m <> n) by tauto. rewrite Hd, decide_False in Hl by done. split_and!; [by intros <-|tauto|done|done].
      * intros (Hne & Hm & Hmu & Hl). split_and!; [intros [?| ->]; done|done|]. by rewrite Hd, decide_False by done.
Qed.

Lemma push_abs io payload s : wf s -> wf (push io payload s).2 /\ abs (push io payload s).2 = q_push (sp_cfg s) io payload (abs s).
Proof.
  intros W. unfold push, q_push. destruct (_ && _); [done|]. pose proof (evict_to_fit_abs (io_files io) (Z.of_nat (length payload)) s W) as (W1 & Hc & Ha).
  set (s1 := evict_to_fit (io_files io) (Z.of_nat (length payload)) s) in *. rewrite <- Ha. change (q_next (abs s1)) with (sp_next_seq s1).
  destruct (umax 64 <? sp_next_seq s1 + 1) eqn:Emax.
  - apply Z.ltb_lt in Emax. rewrite (proj2 (Z.leb_le _ _)) by lia. done.
  - apply Z.ltb_ge in Emax. rewrite (proj2 (Z.leb_gt _ _)) by lia. pose proof (wf_next s1 W1).
    assert (forall c n, <[tmp_path_for (sp_next_seq s1) := c]> (sp_dir s1) !! path_for n = sp_dir s1 !! path_for n) as Hp.
    { intros c n. apply lookup_insert_ne, tmp_not_path. }
    assert (forall c name k, seq_of name = Some k -> <[tmp_path_for (sp_next_seq s1) := c]> (sp_dir s1) !! name = sp_dir s1 !! name) as Hk.
    { intros c name k Hname. apply lookup_insert_ne. intros <-. by rewrite seq_of_tmp in Hname. }
    destruct (io_step io); [by apply push_done_abs|..]; cbn [snd]; apply other_files_abs; try done; try lia; intros; try (by apply Hp); by eapply Hk.
Qed.

(** *** Start *)

#[export] Instance seq_le_trans {A} : Transitive (@seq_le A).
Proof. intros a b c. unfold seq_le. lia. Qed.

#[export] Instance seq_le_total {A} : Total (@seq_le A).
Proof. intros a b. unfold seq_le. lia. Qed.

Lemma fst_sorted {A} (l : list (Z * A)) : StronglySorted seq_le l -> NoDup l.*1 -> StronglySorted Z.lt l.*1.
Proof.
  induction l as [|[n z] l IH]; intros Hs Hnd; [constructor|]. apply StronglySorted_inv in Hs as [Hs Hf]. cbn in Hnd |- *.
  apply NoDup_cons in Hnd as [Hn Hnd]. constructor; [by apply IH|]. apply Forall_forall. intros m Hm.
  pose proof Hm as Hm'. apply list_elem_of_fmap in Hm' as ([m' y] & -> & Hin). pose proof (proj1 (Forall_forall _ _) Hf _ Hin) as Hle.
  unfold seq_le in Hle. cbn in *. destruct (decide (n = m')) as [->|]; [done|lia].
Qed.

Lemma merge_sort_fst {A} (l : list (Z * A)) : NoDup l.*1 -> StronglySorted Z.lt (merge_sort seq_le l).*1.
Proof.
  intros Hnd. apply fst_sorted; [apply Sorted_StronglySorted; [exact seq_le_trans|apply (Sorted_merge_sort _)]|].
  by rewrite (merge_sort_Permutation seq_le).
Qed.

Lemma sorted_unique (l k : list Z) : StronglySorted Z.lt l -> StronglySorted Z.lt k -> (forall n, n ∈ l <-> n ∈ k) -> l = k.
Proof.
  intros Hl Hk Heq. assert (forall q, StronglySorted Z.lt q -> NoDup q) as Hnd.
  { intros q. induction 1 as [|n q Hs IH Hf]; constructor; [|done]. intros Hin. pose proof (proj1 (Forall_forall _ _) Hf n Hin). lia. }
  apply (StronglySorted_unique_strong Z.lt); [|done|done|by apply NoDup_Permutation; [apply Hnd|apply Hnd|]]. intros x y. lia.
Qed.

Lemma clean_tmp_path o d n : clean_tmp o d !! path_for n = d !! path_for n.
Proof.
  apply option_eq. intros c. split; intros H; [by apply map_lookup_filter_Some in H as [? _]|]. apply map_lookup_filter_Some.
  split; [done|left; apply path_not_tmp].
Qed.

Lemma clean_tmp_canonical o d : canonical d -> canonical (clean_tmp o d).
Proof. intros Hc name n [c Hl] Hs. apply map_lookup_filter_Some in Hl as [Hl _]. by eapply Hc. Qed.

Section Opening.
Context (o : OpenOps) (d : Dir) (Hc : canonical d).

Definition size_at (n : Z) (p : list Z) : Z := if sizes o (path_for n) then Z.of_nat (length p) else 0.

Lemma elem_of_dir_entries n z :
  (n, z) ∈ dir_entries o d <-> in_u 64 n /\ shows o (path_for n) = true /\ exists c, d !! path_for n = Some c /\ z = size_at n c.
Proof.
  unfold dir_entries, size_at. rewrite merge_sort_Permutation, list_elem_of_omap. split.
  - intros [[name c] [Hin%elem_of_map_to_list E]]. cbn [fst snd] in E. destruct (shows o name) eqn:Es; [|done].
    destruct (seq_of name) as [k|] eqn:Ek; [|done]. injection E as <- <-.
    pose proof (canonical_in_u d name k Hc (mk_is_Some _ _ Hin) Ek) as Hu. destruct (Hc name k (mk_is_Some _ _ Hin) Ek) as [_ ->]. eauto.
  - intros (Hn & Hs & c & Hl & ->). exists (path_for n, c). split; [by apply elem_of_map_to_list|]. cbn [fst snd]. by rewrite Hs, seq_of_path.
Qed.

Lemma dir_entries_sorted : StronglySorted Z.lt (dir_entries o d).*1.
Proof.
  apply merge_sort_fst.
  assert (forall l : list (string * list Z),
    omap (fun kv => if shows o kv.1 then (fun n => (n, if sizes o kv.1 then Z.of_nat (length kv.2) else 0)) <$> seq_of kv.1 else None) l
    = omap (fun kv => (fun n => (n, if sizes o kv.1 then Z.of_nat (length kv.2) else 0)) <$> (if shows o kv.1 then seq_of kv.1 else None)) l) as ->.
  { intros l. induction l as [|[a x] l IH]; [done|]. cbn. rewrite IH. by destruct (shows o a). }
  apply (NoDup_fst_omap (fun a => if shows o a then seq_of a else None) (fun kv => if sizes o kv.1 then Z.of_nat (length kv.2) else 0)); [apply NoDup_fst_map_to_list|].
  intros a b n Ha Hb Ea Eb. destruct (shows o a), (shows o b); try done. by eapply (seq_of_inj d Hc).
Qed.

Lemma elem_of_shown n : n ∈ (dir_entries o d).*1 <-> in_u 64 n /\ shows o (path_for n) = true /\ is_Some (d !! path_for n).
Proof.
  rewrite list_elem_of_fmap. split.
  - intros ([k z] & -> & (? & ? & c & ? & _)%elem_of_dir_entries). cbn. eauto.
  - intros (Hn & Hs & [c Hl]). exists (n, size_at n c). split; [done|]. apply elem_of_dir_entries. eauto.
Qed.

Lemma dir_entries_sizes : dir_entries o d = (fun n => (n, size_at n (payload_at d n))) <$> (dir_entries o d).*1.
Proof.
  rewrite <- list_fmap_compose. transitivity (id <$> dir_entries o d); [by rewrite list_fmap_id|]. apply list_fmap_ext. intros i [n z] Hi. cbn.
  apply list_elem_of_lookup_2, elem_of_dir_entries in Hi as (_ & _ & c & Hl & ->). unfold payload_at. by rewrite Hl.
Qed.

(** The listing of the specification. *)
Definition shown_files : list (Z * list Z) :=
  merge_sort seq_le (map_to_list (filter (fun e => shows o (path_for e.1) = true) (entry_files d))).

Lemma shown_files_eq : shown_files = entry_of d <$> (dir_entries o d).*1.
Proof.
  assert (forall n c, (n, c) ∈ shown_files <-> in_u 64 n /\ shows o (path_for n) = true /\ d !! path_for n = Some c) as Hel.
  { intros n c. unfold shown_files. rewrite merge_sort_Permutation, elem_of_map_to_list, map_lookup_filter_Some, lookup_entry_files by done. cbn. tauto. }
  assert (shown_files.*1 = (dir_entries o d).*1) as <-.
  { apply sorted_unique; [apply merge_sort_fst, NoDup_fst_map_to_list|apply dir_entries_sorted|]. intros n. rewrite elem_of_shown, list_elem_of_fmap. split.
    - intros ([k c] & -> & (? & ? & ?)%Hel). cbn. eauto.
    - intros (Hn & Hs & [c Hl]). exists (n, c). split; [done|]. by apply Hel. }
  rewrite <- list_fmap_compose. transitivity (id <$> shown_files); [by rewrite list_fmap_id|]. apply list_fmap_ext. intros i [n c] Hi. cbn.
  apply list_elem_of_lookup_2, Hel in Hi as (_ & _ & Hl). unfold entry_of, payload_at. by rewrite Hl.
Qed.
End Opening.

Lemma last_fmap_max (l : list Z) e : StronglySorted Z.lt l -> last l = Some e -> Forall (fun n => n <= e) l.
Proof.
  induction l as [|x l IH]; [done|]. intros Hs Hl. apply StronglySorted_inv in Hs as [Hs Hf]. destruct l as [|y l].
  - injection Hl as <-. by repeat constructor.
  - pose proof (IH Hs Hl) as Hall. constructor; [|done]. apply Forall_cons in Hf as [Hxy _]. apply Forall_cons in Hall as [Hy _]. lia.
Qed.

Lemma sizes_sum o d q :
  foldr (fun e n => e.2 + n) 0 ((fun n => (n, size_at o n (payload_at d n))) <$> q)
  = foldr (fun e n => (if sizes o (path_for e.1) then Z.of_nat (length e.2) else 0) + n) 0 (entry_of d <$> q).
Proof. induction q as [|n q IH]; [done|]. cbn [fmap list_fmap foldr fst snd entry_of]. by rewrite IH. Qed.

Lemma last_number {A} (f : Z -> Z * A) (q : list Z) (x : Z) :
  (forall n, (f n).1 = n) -> match last (f <$> q) with Some e => e.1 + 1 | None => x end = match last q with Some n => n + 1 | None => x end.
Proof. intros Hf. rewrite fmap_last. destruct (last q); cbn; [by rewrite Hf|done]. Qed.

(** A start on a directory of numbered files. *)
Lemma spool_opened_abs o d cfg : canonical d -> wf (spool_opened o d cfg) /\ abs (spool_opened o d cfg) = q_open o (entry_files d).
Proof.
  intros Hc. pose proof (clean_tmp_canonical o d Hc) as Hc'. pose proof (dir_entries_sorted o _ Hc') as Hs.
  assert (forall n, n ∈ (dir_entries o (clean_tmp o d)).*1 <-> in_u 64 n /\ shows o (path_for n) = true /\ is_Some (d !! path_for n)) as Hel.
  { intros n. by rewrite elem_of_shown, clean_tmp_path by done. }
  set (q := (dir_entries o (clean_tmp o d)).*1) in *.
  assert (sp_next_seq (spool_opened o d cfg) = match last q with Some n => n + 1 | None => 1 end) as Hnext.
  { cbn. unfold q. rewrite fmap_last. by destruct (last _). }
  assert (Forall (fun n => 0 <= n < sp_next_seq (spool_opened o d cfg)) q /\ 1 <= sp_next_seq (spool_opened o d cfg) <= umax 64) as [Hr Hn].
  { rewrite Hnext. destruct (last q) as [e|] eqn:El.
    - pose proof (last_fmap_max _ _ Hs El) as Hle. pose proof (last_Some_elem_of _ _ El) as He.
      apply Hel in He as (Hu & _ & He). pose proof (canonical_at d e Hc Hu He). unfold in_u in Hu. split; [|lia].
      apply Forall_forall. intros n Hin. pose proof (proj1 (Forall_forall _ _) Hle n Hin). apply Hel in Hin as [Hun _]. unfold in_u in Hun. cbn in *. lia.
    - apply last_None in El. rewrite El. split; [constructor|]. unfold umax. lia. }
  split.
  - split; [done|done|done| |done]. intros n Hin. cbn. rewrite clean_tmp_path. by apply Hel in Hin as (_ & _ & ?).
  - unfold abs, q_open. fold (shown_files o d).
    assert (entry_of (sp_dir (spool_opened o d cfg)) <$> sp_queue (spool_opened o d cfg) = shown_files o d) as El.
    { rewrite (shown_files_eq o d Hc). assert ((dir_entries o d).*1 = q) as ->.
      { apply sorted_unique; [by apply dir_entries_sorted|done|]. intros n. by rewrite Hel, elem_of_shown. }
      apply entries_ext. intros n _. apply clean_tmp_path. }
    rewrite El. f_equal.
    + apply map_same. intros n c. cbn [sp_dir sp_queue spool_opened]. fold q. rewrite lookup_left by done. rewrite clean_tmp_path.
      rewrite map_lookup_filter_Some, lookup_entry_files by done. cbn [fst]. rewrite Hel. destruct (shows o (path_for n)); split.
      * intros (Hno & Hu & Hl). destruct Hno. eauto.
      * by intros [_ ?].
      * by intros (_ & Hu & Hl).
      * intros [[Hu Hl] _]. split_and!; [by intros (_ & ? & _)|done|done].
    + rewrite Hnext, <- El. cbn [sp_queue spool_opened]. fold q. symmetry. by apply last_number.
    + rewrite <- El. cbn [sp_total_bytes sp_dir sp_queue spool_opened]. fold q. rewrite (dir_entries_sizes o _ Hc') at 1. apply sizes_sum.
Qed.

(** The files of a directory are the queue's and the others. *)
Lemma abs_files s : wf s -> entry_files (sp_dir s) = q_files (abs s).
Proof.
  intros W. apply map_same. intros n c. unfold q_files. rewrite lookup_entry_files by apply W.
  assert (NoDup (sp_queue s)) as Hnd.
  { pose proof (wf_sorted s W) as Hs. induction Hs as [|x l Hs IH Hf]; constructor; [|done]. intros Hin. pose proof (proj1 (Forall_forall _ _) Hf x Hin). lia. }
  assert (forall m, (list_to_map (q_entries (abs s)) : gmap Z (list Z)) !! m = Some c <-> m ∈ sp_queue s /\ c = payload_at (sp_dir s) m) as Hq.
  { intros m. rewrite <- elem_of_list_to_map by (unfold abs; cbn; rewrite <- list_fmap_compose; by rewrite list_fmap_id).
    unfold abs. cbn. rewrite list_elem_of_fmap. unfold entry_of. split; [by intros (? & [= -> ->] & ?)|intros [? ->]; eauto]. }
  assert (n ∉ sp_queue s -> (list_to_map (q_entries (abs s)) : gmap Z (list Z)) !! n = None) as Hq0.
  { intros Hn. apply not_elem_of_list_to_map_1. unfold abs. cbn. rewrite <- list_fmap_compose. by rewrite list_fmap_id. }
  rewrite lookup_union_Some_raw, Hq. change (q_left (abs s)) with (filter (fun e => e.1 ∉ sp_queue s) (entry_files (sp_dir s))).
  rewrite lookup_left by apply W. split.
  - intros [Hu Hl]. destruct (decide (n ∈ sp_queue s)) as [Hin|Hin]; [left|right; auto].
    split; [done|]. unfold payload_at. by rewrite Hl.
  - intros [[Hin ->]|[_ (_ & ? & ?)]]; [|done]. split; [by eapply wf_in_u|]. destruct (wf_files s W n Hin) as [x Hx]. unfold payload_at. by rewrite Hx.
Qed.

Lemma restart_abs o s : wf s -> wf (spool_opened o (sp_dir s) (sp_cfg s)) /\ abs (spool_opened o (sp_dir s) (sp_cfg s)) = q_open o (q_files (abs s)).
Proof. intros W. rewrite <- abs_files by done. apply spool_opened_abs, W. Qed.

Lemma step_cfg s o : sp_cfg (spool_step s o) = sp_cfg s.
Proof.
  assert (forall f c n s, sp_cfg (evict_while f c n s) = sp_cfg s) as He.
  { intros f c n. induction n as [|n IH]; intros x; cbn; [done|]. destruct (c x); [|done]. unfold evict_oldest. destruct (sp_queue x); [done|]. by rewrite IH. }
  assert (forall f z s, sp_cfg (evict_to_fit f z s) = sp_cfg s) as Hf.
  { intros f z x. unfold evict_to_fit. destruct (0 <? max_files _); rewrite ?He; (destruct (0 <? max_bytes _); by rewrite ?He). }
  destruct o as [io p|f|f seq|f seq|o]; cbn.
  - unfold push. destruct (_ && _); [done|]. destruct (_ <? _); [apply Hf|]. by destruct (io_step io); apply Hf.
  - unfold pop. destruct (sp_queue s); [done|]. by destruct (read_entry _ _ _).
  - unfold remove. by destruct (front_is seq s).
  - unfold quarantine. by destruct (front_is seq s).
  - unfold spool_open. by destruct (makes o).
Qed.

Lemma step_abs s o : wf s -> wf (spool_step s o) /\ abs (spool_step s o) = q_step (sp_cfg s) (abs s) o.
Proof.
  intros W. destruct o as [io p|f|f seq|f seq|o]; cbn [spool_step q_step].
  - by apply push_abs.
  - by apply pop_abs.
  - by apply remove_abs.
  - by apply quarantine_abs.
  - unfold spool_open. destruct (makes o); [by apply restart_abs|done].
Qed.

Lemma run_abs ops s : wf s -> wf (foldl spool_step s ops) /\ abs (foldl spool_step s ops) = foldl (q_step (sp_cfg s)) (abs s) ops.
Proof.
  revert s. induction ops as [|o ops IH]; intros s W; [done|]. cbn [foldl]. destruct (step_abs s o W) as [W' Ha].
  destruct (IH _ W') as [W2 Ha2]. split; [done|]. by rewrite Ha2, step_cfg, Ha.
Qed.

(** ** Main results *)

(** What a read of the front gives. *)
Definition q_read (f : FileOps) (why : string) (q : Queue) : Result Error (option SpoolEntry) :=
  match q_entries q with
  | [] => Ok None
  | (n, p) :: _ => if reads f n then Ok (Some (mkSpoolEntry p n)) else Err (read_error n why)
  end.

Lemma front_reads f s : wf s -> peek f s = q_read f "spool peek read" (abs s) /\ (pop f s).1 = q_read f "spool read" (abs s).
Proof.
  intros W. unfold peek, pop, q_read. destruct (sp_queue s) as [|n q] eqn:Eq; [unfold abs; by rewrite Eq|].
  rewrite (abs_cons s n q Eq). cbn [entry_of]. unfold read_entry. rewrite (front_present s n q W Eq). by destruct (reads f n).
Qed.

Lemma bytes_nonneg l : 0 <= bytes_of_all l.
Proof. unfold bytes_of_all. induction l as [|p l IH]; cbn [foldr]; lia. Qed.

Lemma bytes_snoc l p : bytes_of_all (l ++ [p]) = bytes_of_all l + Z.of_nat (length p).
Proof. unfold bytes_of_all. induction l as [|x l IH]; cbn [app foldr]; lia. Qed.

Lemma q_bytes_cons n p l : q_bytes ((n, p) :: l) = Z.of_nat (length p) + q_bytes l.
Proof. done. Qed.

(** At least the bytes that are there are counted. *)
Definition honest (q : Queue) : Prop := q_bytes (q_entries q) <= q_counted q.

Lemma uncount_honest f n p l z : q_bytes ((n, p) :: l) <= z -> q_bytes l <= uncount f n p z.
Proof. rewrite q_bytes_cons. unfold uncount. pose proof (bytes_nonneg l.*2). fold (q_bytes l) in *. destruct (stats f n); lia. Qed.

(** What the evictions leave: room in both caps, unless there is nothing left. *)
Lemma fit_room cfg f incoming l : forall kept counted,
  let '(l', _, z) := fit_while f (over cfg incoming) l kept counted in
  (0 < max_files cfg -> Z.of_nat (length l') < max_files cfg) /\ (0 < max_bytes cfg -> l' = [] \/ z + incoming <= max_bytes cfg)
  /\ (exists gone, l = gone ++ l') /\ (q_bytes l <= counted -> q_bytes l' <= z).
Proof.
  induction l as [|[n p] r IH]; intros kept counted; cbn [fit_while].
  { split_and!; [cbn; lia|by left|by exists []|done]. }
  destruct (over cfg incoming _ counted) eqn:E.
  - specialize (IH (keep_file (negb (removes f n)) n p kept) (uncount f n p counted)). destruct (fit_while _ _ r _ _) as [[l' k'] z].
    destruct IH as (H1 & H2 & [gone ->] & H4). split_and!; [done|done|by exists ((n, p) :: gone)|]. intros Hh. by eapply H4, uncount_honest.
  - unfold over, many, large in E. apply orb_false_iff in E as [Ef Eb]. split_and!.
    + intros Hp. rewrite (proj2 (Z.ltb_lt _ _) Hp) in Ef. by apply Z.leb_gt in Ef.
    + intros Hp. right. rewrite (proj2 (Z.ltb_lt _ _) Hp) in Eb. by apply Z.ltb_ge in Eb.
    + by exists [].
    + done.
Qed.

Lemma q_push_done cfg io p q :
  io_step io = IoDone -> (0 <? max_bytes cfg) && (max_bytes cfg <? Z.of_nat (length p)) = false -> q_next q < umax 64 ->
  let q' := q_push cfg io p q in
  (exists gone l, q_entries q = gone ++ l /\ q_entries q' = l ++ [(q_next q, p)])
  /\ (0 < max_files cfg -> Z.of_nat (length (q_entries q')) <= max_files cfg)
  /\ (honest q -> honest q' /\ (0 < max_bytes cfg -> q_bytes (q_entries q') <= max_bytes cfg)).
Proof.
  intros Hio Hcap Hmax. unfold q_push. rewrite Hcap, Hio. unfold q_fit.
  pose proof (fit_room cfg (io_files io) (Z.of_nat (length p)) (q_entries q) (q_left q) (q_counted q)) as Hfit.
  destruct (fit_while _ _ _ _ _) as [[l k] z]. destruct Hfit as (H1 & H2 & [gone Hg] & H4). cbn [q_next q_entries q_left q_counted].
  rewrite (proj2 (Z.leb_gt _ _)) by done. cbn [q_entries q_counted]. split_and!; [by exists gone, l|intros Hp; rewrite length_app; cbn [length]; specialize (H1 Hp); lia|].
  unfold honest. cbn [q_entries q_counted]. intros Hh. specialize (H4 Hh). unfold q_bytes in *. rewrite fmap_app. cbn [fmap list_fmap snd]. rewrite bytes_snoc.
  split; [lia|]. intros Hp. destruct (H2 Hp) as [->|Hz]; [|lia]. cbn. rewrite (proj2 (Z.ltb_lt _ _) Hp) in Hcap. by apply Z.ltb_ge in Hcap.
Qed.

(** The sizes at the starts of a history were told. *)
Definition told (o : OpenOps) : Prop := forall name, sizes o name = true.
Definition all_told (ops : list SpoolOp) : Prop := Forall (fun o => match o with OpRestart o => told o | _ => True end) ops.

Lemma open_honest o files : told o -> honest (q_open o files).
Proof.
  intros Ht. unfold honest, q_open. cbn [q_entries q_counted]. unfold q_bytes, bytes_of_all.
  generalize (merge_sort seq_le (map_to_list (filter (fun e => shows o (path_for e.1) = true) files))) as l.
  induction l as [|[n p] l IH]; [done|]. cbn [fmap list_fmap foldr fst snd]. rewrite Ht. lia.
Qed.

Lemma tail_honest stays z q : (forall n p l, q_entries q = (n, p) :: l -> q_bytes l <= z) -> honest q -> honest (q_tail stays z q).
Proof. intros Hz Hh. unfold q_tail. destruct (q_entries q) as [|[n p] l] eqn:E; [done|]. unfold honest. cbn. by eapply Hz. Qed.

Lemma drop_honest f stays seq q : honest q -> honest (q_drop f stays seq q).
Proof.
  intros Hh. unfold q_drop. destruct (q_entries q) as [|[n p] l] eqn:E; [done|]. destruct (n =? seq); [|done].
  apply tail_honest; [|done]. intros n' p' l' E'. rewrite E in E'. injection E' as <- <- <-. apply uncount_honest. unfold honest in Hh. by rewrite E in Hh.
Qed.

Lemma push_honest cfg io p q : honest q -> honest (q_push cfg io p q).
Proof.
  intros Hh. unfold q_push. destruct (_ && _); [done|]. unfold q_fit.
  pose proof (fit_room cfg (io_files io) (Z.of_nat (length p)) (q_entries q) (q_left q) (q_counted q)) as Hfit.
  destruct (fit_while _ _ _ _ _) as [[l k] z]. destruct Hfit as (_ & _ & _ & H4). specialize (H4 Hh). cbn [q_next q_entries q_left q_counted].
  destruct (_ <=? _); [done|]. unfold honest. destruct (io_step io); cbn [q_entries q_counted]; try done.
  unfold q_bytes in *. rewrite fmap_app. cbn [fmap list_fmap snd]. rewrite bytes_snoc. lia.
Qed.

Lemma step_honest cfg q o : honest q -> match o with OpRestart o => told o | _ => True end -> honest (q_step cfg q o).
Proof.
  intros Hh Ht. destruct o as [io p|f|f seq|f seq|o]; cbn [q_step]; try (by apply drop_honest); [by apply push_honest| |].
  - unfold q_pop. destruct (q_entries q) as [|[n p] l] eqn:E; [done|]. unfold honest in Hh. rewrite E, q_bytes_cons in Hh.
    pose proof (bytes_nonneg l.*2). fold (q_bytes l) in *.
    destruct (reads f n); apply tail_honest; try (unfold honest; by rewrite E); intros n' p' l' E'; rewrite E in E'; injection E' as <- <- <-; lia.
  - destruct (makes o); [by apply open_honest|done].
Qed.

Lemma run_honest cfg ops q : honest q -> all_told ops -> honest (foldl (q_step cfg) q ops).
Proof. intros Hh Ht. revert q Hh. induction Ht as [|o ops Ho _ IH]; intros q Hh; [done|]. cbn [foldl]. apply IH. by apply step_honest. Qed.

Lemma push_ok s io p n :
  wf s -> (push io p s).1 = Ok n ->
  io_step io = IoDone /\ n = sp_next_seq s /\ sp_next_seq s < umax 64 /\ (0 <? max_bytes (sp_cfg s)) && (max_bytes (sp_cfg s) <? Z.of_nat (length p)) = false.
Proof.
  intros W H. pose proof (evict_to_fit_abs (io_files io) (Z.of_nat (length p)) s W) as (_ & _ & Ha). apply (f_equal q_next) in Ha. unfold q_fit in Ha.
  destruct (fit_while _ _ _ _ _) as [[? ?] ?]. cbn in Ha. unfold push in H. destruct (_ && _) eqn:Ecap; [done|]. rewrite Ha in H.
  destruct (umax 64 <? sp_next_seq s + 1) eqn:Em; [done|]. apply Z.ltb_ge in Em. destruct (io_step io); try done. injection H as <-. split_and!; [done|done|lia|done].
Qed.

Lemma run_cfg ops s : sp_cfg (foldl spool_step s ops) = sp_cfg s.
Proof. revert s. induction ops as [|o ops IH]; intros s; [done|]. cbn [foldl]. by rewrite IH, step_cfg. Qed.

(** C26: A spool opened on a directory of numbered files behaves, under every
    sequence of pushes, reads, removals, quarantines and restarts in which any
    file operation may fail (those of the push, the reads, the sizes, the
    renames, the deletions whose failure is ignored, the listing of the
    directory), as the specified queue: its entries in the order of their
    numbers, the files it has lost sight of, the next number and the bytes
    counted.  A deletion that failed leaves a file behind, and a restart brings
    back every file it lists, in order.  A read returns the front or an error; a
    push that reports success drops entries from the front only, appends exactly
    its payload under the next number (in place of a file left under it), and
    leaves the cap on entries respected, and the cap on bytes unless a start
    could not tell a size; a push that failed, or was cut short by a crash,
    added nothing. *)
Theorem spool_refines o d cfg ops s0 :
  canonical d -> spool_open o d cfg = Ok s0 ->
  let s := foldl spool_step s0 ops in
  let q := foldl (q_step cfg) (q_open o (entry_files d)) ops in
  (forall n c, entry_files d !! n = Some c <-> in_u 64 n /\ d !! path_for n = Some c) /\
  abs s = q /\ StronglySorted Z.lt (q_entries q).*1 /\
  (forall f, peek f s = q_read f "spool peek read" q /\ (pop f s).1 = q_read f "spool read" q) /\
  (forall io p n, (push io p s).1 = Ok n ->
     let q' := q_push cfg io p q in
     io_step io = IoDone /\ n = q_next q /\
     (exists gone l, q_entries q = gone ++ l /\ q_entries q' = l ++ [(n, p)]) /\
     (0 < max_files cfg -> Z.of_nat (length (q_entries q')) <= max_files cfg) /\
     (told o -> all_told ops -> 0 < max_bytes cfg -> q_bytes (q_entries q') <= max_bytes cfg)).
Proof.
  intros Hc Ho s q. unfold spool_open in Ho. destruct (makes o); [|done]. injection Ho as <-.
  destruct (spool_opened_abs o d cfg Hc) as (W0 & Ha0). destruct (run_abs ops _ W0) as [W Ha]. fold s in W, Ha.
  change (sp_cfg (spool_opened o d cfg)) with cfg in Ha. rewrite Ha0 in Ha. fold q in Ha.
  split; [intros; by apply lookup_entry_files|]. split; [done|]. rewrite <- Ha. split; [|split].
  - unfold abs. cbn [q_entries]. rewrite <- list_fmap_compose, list_fmap_id. apply W.
  - intros f. by apply front_reads.
  - intros io p n H. assert (sp_cfg s = cfg) as Hcfg by apply run_cfg. destruct (push_ok s io p n W H) as (Hio & -> & Hmax & Hcap). rewrite Hcfg in Hcap.
    destruct (q_push_done cfg io p (abs s) Hio Hcap Hmax) as (H1 & H2 & H3). split_and!; [done|done|done|done|].
    intros Ht Hts. apply H3. rewrite Ha. by apply run_honest; [apply open_honest|].
Qed.

(** ** When no operation fails *)

Definition files_ok (f : FileOps) : Prop := forall n, reads f n = true /\ stats f n = true /\ renames f n = true /\ removes f n = true.
Definition open_ok (o : OpenOps) : Prop := makes o = true /\ forall name, shows o name = true /\ sizes o name = true.
Definition op_ok (o : SpoolOp) : Prop :=
  match o with
  | OpPush io _ => files_ok (io_files io)
  | OpPop f | OpRemove f _ | OpQuarantine f _ => files_ok f
  | OpRestart o => open_ok o
  end.

(** Nothing is left behind and the count is exact. *)
Definition tidy (q : Queue) : Prop := q_left q = ∅ /\ q_counted q = q_bytes (q_entries q).

Lemma uncount_exact f n p l z : stats f n = true -> z = q_bytes ((n, p) :: l) -> uncount f n p z = q_bytes l.
Proof. intros Hs ->. unfold uncount. rewrite Hs, q_bytes_cons. pose proof (bytes_nonneg l.*2). fold (q_bytes l) in *. lia. Qed.

Lemma fit_tidy cfg f incoming l : files_ok f -> forall z, z = q_bytes l ->
  let '(l', k', z') := fit_while f (over cfg incoming) l ∅ z in k' = ∅ /\ z' = q_bytes l'.
Proof.
  intros Hf. induction l as [|[n p] r IH]; intros z Hz; cbn [fit_while]; [done|]. destruct (Hf n) as (_ & Hs & _ & Hr).
  destruct (over _ _ _ _); [|done]. rewrite Hr. cbn [keep_file negb]. apply IH. by apply uncount_exact.
Qed.

Lemma drop_tidy f stays seq q : files_ok f -> stays = false -> tidy q -> tidy (q_drop f stays seq q).
Proof.
  intros Hf -> [Hl Hz]. unfold q_drop, q_tail. destruct (q_entries q) as [|[n p] r] eqn:E; [by split; rewrite ?E|]. destruct (n =? seq); [|by split; rewrite ?E].
  split; [done|]. cbn. rewrite Hz. destruct (Hf n) as (_ & Hs & _). by apply uncount_exact.
Qed.

Lemma step_tidy cfg q o : op_ok o -> tidy q -> tidy (q_step cfg q o).
Proof.
  intros Hok [Hl Hz]. destruct o as [io p|f|f seq|f seq|o]; cbn [q_step op_ok] in *.
  - unfold q_push, q_fit. destruct (_ && _); [done|]. rewrite Hl.
    pose proof (fit_tidy cfg (io_files io) (Z.of_nat (length p)) (q_entries q) Hok _ Hz) as Hfit. destruct (fit_while _ _ _ _ _) as [[l k] z].
    destruct Hfit as [-> ->]. cbn [q_next q_entries q_left q_counted]. destruct (_ <=? _); [done|]. destruct (io_step io); try done.
    split; cbn [q_left q_counted q_entries]; [by rewrite delete_empty|]. unfold q_bytes. rewrite fmap_app. cbn [fmap list_fmap snd]. by rewrite bytes_snoc.
  - unfold q_pop, q_tail. destruct (q_entries q) as [|[n p] r] eqn:E; [by split; rewrite ?E|]. destruct (Hok n) as (-> & _ & _ & ->). cbn [negb keep_file].
    split; [done|]. cbn [q_counted q_entries]. rewrite Hz, q_bytes_cons. pose proof (bytes_nonneg r.*2). fold (q_bytes r) in *. lia.
  - unfold q_remove. destruct (Hok seq) as (_ & _ & _ & ->). by apply drop_tidy.
  - unfold q_quarantine. destruct (Hok seq) as (_ & _ & -> & _). by apply drop_tidy.
  - destruct Hok as [-> Hs]. split; unfold q_open; cbn [q_left q_counted q_entries].
    + apply map_empty. intros n. apply map_lookup_filter_None. right. intros c _. cbn. by destruct (Hs (path_for n)) as [-> _].
    + unfold q_bytes, bytes_of_all. generalize (merge_sort seq_le (map_to_list (filter (fun e => shows o (path_for e.1) = true) (q_files q)))) as l.
      induction l as [|[n p] l IH]; [done|]. cbn [fmap list_fmap foldr fst snd]. destruct (Hs (path_for n)) as [_ ->]. lia.
Qed.

Lemma sorted_by_fst {A} (l : list (Z * A)) : StronglySorted Z.lt l.*1 -> StronglySorted (fun a b => a.1 < b.1) l.
Proof.
  induction l as [|x l IH]; intros Hl; [constructor|]. rewrite fmap_cons in Hl. apply StronglySorted_inv in Hl as [Hl Hf].
  constructor; [by apply IH|]. apply Forall_forall. intros y Hy. by apply (proj1 (Forall_forall _ _) Hf), list_elem_of_fmap_2.
Qed.

(** Then the directory is the queue: a restart finds the same entries. *)
Theorem faultless_restart cfg ops q o :
  tidy q -> StronglySorted Z.lt (q_entries q).*1 -> Forall op_ok ops -> open_ok o ->
  tidy (foldl (q_step cfg) q ops) /\
  q_entries (q_open o (q_files q)) = q_entries q.
Proof.
  intros Ht Hs Hops [_ Hok]. split.
  - clear Hs. revert q Ht. induction Hops as [|op ops Hop _ IH]; intros q Ht; [done|]. cbn [foldl]. apply IH. by apply step_tidy.
  - unfold q_open, q_files. cbn [q_entries]. destruct Ht as [-> _]. rewrite map_union_empty.
    assert (filter (fun e : Z * list Z => shows o (path_for e.1) = true) (list_to_map (q_entries q)) = (list_to_map (q_entries q) : gmap Z (list Z))) as ->.
    { apply map_filter_id. intros n c _. cbn. apply Hok. }
    assert (NoDup (q_entries q).*1) as Hnd.
    { induction Hs as [|n l Hs IH Hf]; constructor; [|done]. intros Hin. pose proof (proj1 (Forall_forall _ _) Hf n Hin). lia. }
    set (l := merge_sort _ _). assert (l ≡ₚ q_entries q) as Hp by (unfold l; rewrite (merge_sort_Permutation seq_le); by apply map_to_list_to_map).
    assert (StronglySorted Z.lt l.*1) as Hl by (apply merge_sort_fst; by rewrite map_to_list_to_map).
    apply (StronglySorted_unique_strong (fun a b : Z * list Z => a.1 < b.1)); [intros a b; lia|..|done].
    + by apply sorted_by_fst.
    + by apply sorted_by_fst.
Qed.

(** ** When operations fail *)

Definition demo_dir : Dir := <[path_for 7 := [1; 2]]> ∅.

(** The deletion of entry 7 fails. *)
Definition stuck : FileOps := mkFileOps (fun _ => true) (fun _ => true) (fun _ => true) (fun n => negb (n =? 7)).
Definition demo_ops : list SpoolOp :=
  [OpPush PushIo_ok [3]; OpRemove stuck 7; OpPush (mkPushIo FileOps_ok (IoWriteFails 1)) [4; 5]; OpRestart OpenOps_ok; OpPush (mkPushIo stuck IoDone) [6; 7; 8]].

Lemma demo_canonical : canonical demo_dir.
Proof.
  intros name n [c Hl] Hs. unfold demo_dir in Hl. apply lookup_insert_Some in Hl as [[<- _]|[_ Hl]]; [|by rewrite lookup_empty in Hl].
  rewrite seq_of_path in Hs by (split; [done|vm_compute; done]). injection Hs as <-. split; [|done]. split; [lia|]. vm_compute. reflexivity.
Qed.

Lemma spool_refines_witness :
  let s := foldl spool_step (spool_opened OpenOps_ok demo_dir (mkSpoolConfig 5 2)) demo_ops in
  q_entries (abs s) = [(8, [3]); (9, [6; 7; 8])] /\ q_left (abs s) = {[ 7 := [1; 2] ]}.
Proof.
  assert (foldl (q_step (mkSpoolConfig 5 2)) (q_open OpenOps_ok (entry_files demo_dir)) demo_ops
    = mkQueue [(8, [3]); (9, [6; 7; 8])] {[ 7 := [1; 2] ]} 10 4) as E by (vm_compute; reflexivity).
  destruct (spool_refines OpenOps_ok demo_dir (mkSpoolConfig 5 2) demo_ops _ demo_canonical eq_refl) as (_ & Ha & _).
  rewrite E in Ha. cbv zeta. rewrite Ha. split; reflexivity.
Defined.

(** An entry that was delivered and removed comes back at the restart if its
    file could not be deleted, and so do evicted ones: the spool is then over
    its cap. *)
Theorem undeleted_comes_back :
  let cfg := mkSpoolConfig 0 1 in
  let keeps := mkFileOps (fun _ => true) (fun _ => true) (fun _ => true) (fun _ => false) in
  let s0 := spool_opened OpenOps_ok ∅ cfg in
  let s := foldl spool_step s0 [OpPush PushIo_ok [1]; OpRemove keeps 1; OpPush PushIo_ok [2]; OpPush (mkPushIo keeps IoDone) [3]] in
  q_entries (abs s) = [(3, [3])] /\
  q_entries (abs (spool_step s (OpRestart OpenOps_ok))) = [(1, [1]); (2, [2]); (3, [3])].
Proof. vm_compute. done. Qed.

(** A directory that cannot be listed at the start counts as empty: the queue
    starts again at number 1, and the next push replaces the file that was
    there under it. *)
Theorem unlisted_is_overwritten :
  let blind := mkOpenOps true (fun _ => false) (fun _ => false) (fun _ => true) in
  let d : Dir := {[ path_for 1 := [1; 2] ]} in
  let s := spool_opened blind d SpoolConfig_default in
  q_entries (abs s) = [] /\ (push PushIo_ok [9] s).1 = Ok 1 /\ sp_dir (push PushIo_ok [9] s).2 = {[ path_for 1 := [9] ]}.
Proof. vm_compute. done. Qed.

(** The numbers of a spool that was drained start again after a restart, and
    the quarantine file of the second entry with a number replaces the first's,
    although the bytes are kept for later inspection. *)
Theorem quarantine_overwrites :
  let ops := [OpPush PushIo_ok [1]; OpQuarantine FileOps_ok 1; OpRestart OpenOps_ok; OpPush PushIo_ok [2]; OpQuarantine FileOps_ok 1] in
  let s := foldl spool_step (spool_opened OpenOps_ok ∅ SpoolConfig_default) ops in
  sp_dir s = {[ poison_path_for 1 := [2] ]}.
Proof. vm_compute. reflexivity. Qed.

(** A front entry whose file has gone is never read again: the read fails each
    time and the queue does not move. *)
Theorem missing_front_wedges f s n q :
  sp_queue s = n :: q -> sp_dir s !! path_for n = None -> peek f s = Err (read_error n "spool peek read").
Proof. intros Hq Hd. unfold peek, read_entry. rewrite Hq, Hd. by destruct (reads f n). Qed.
