(* ===== verification/Events.v ===== *)
(** * Events and their dispatch

    Models [crates/spt-events/src/event.rs], [binding.rs] and [dispatcher.rs]:
    events, the bindings that select them, the deduplication and throttle
    states, the dispatch of an event to its sinks with a spool behind each, and
    the drain of a spool.  The text of numbers, values and times
    ([serde_json], [chrono]), the encoding of a spooled event and the sinks
    themselves are interfaces. *)

From S2P Require Import Prelude Bytes Text Errors McpPolicy Spool.

(** ** Events ([event.rs]) *)

Inductive Severity := SevTrace | SevDebug | SevInfo | SevWarn | SevError | SevCritical.
#[export] Instance Severity_eq : EqDecision Severity.
Proof. solve_decision. Defined.

Definition Severity_parse (s : string) : option Severity :=
  let t := to_ascii_lowercase s in
  if (t =? "trace")%string then Some SevTrace
  else if (t =? "debug")%string then Some SevDebug
  else if (t =? "info")%string then Some SevInfo
  else if (t =? "warn")%string || (t =? "warning")%string then Some SevWarn
  else if (t =? "error")%string then Some SevError
  else if (t =? "critical")%string || (t =? "crit")%string || (t =? "fatal")%string then Some SevCritical
  else None.

Definition Severity_as_str (s : Severity) : string :=
  match s with
  | SevTrace => "trace" | SevDebug => "debug" | SevInfo => "info" | SevWarn => "warn" | SevError => "error" | SevCritical => "critical"
  end.

(** The derived order. *)
Definition severity_rank (s : Severity) : Z :=
  match s with SevTrace => 0 | SevDebug => 1 | SevInfo => 2 | SevWarn => 3 | SevError => 4 | SevCritical => 5 end.

Record Event := mkEvent {
  ev_id : string;
  ev_ts : Z;
  ev_kind : string;
  ev_severity : Severity;
  ev_profile_id : option string;
  ev_forward_id : option string;
  ev_session_id : option string;
  ev_connection_id : option string;
  ev_fields : list (string * Json);
  ev_message : string
}.

Definition matches_pattern (kind pat : string) : bool :=
  match strip_suffix "*" pat with
  | Some prefix => starts_with prefix kind
  | None => (kind =? pat)%string
  end.

(** The text of a time, of a number and of a JSON value. *)
Class EventText := {
  rfc3339 : Z -> string;
  number_text : Number -> string;
  json_text : Json -> string
}.

Section Event.
Context `{EventText}.

Definition lookup_field (e : Event) (path : string) : option Json :=
  if (path =? "id")%string then Some (JString (ev_id e))
  else if (path =? "ts")%string then Some (JString (rfc3339 (ev_ts e)))
  else if (path =? "kind")%string then Some (JString (ev_kind e))
  else if (path =? "severity")%string then Some (JString (Severity_as_str (ev_severity e)))
  else if (path =? "message")%string then Some (JString (ev_message e))
  else if (path =? "profile_id")%string then JString <$> ev_profile_id e
  else if (path =? "forward_id")%string then JString <$> ev_forward_id e
  else if (path =? "session_id")%string then JString <$> ev_session_id e
  else if (path =? "connection_id")%string then JString <$> ev_connection_id e
  else assoc path (ev_fields e).

Definition lookup_field_str (e : Event) (path : string) : option string :=
  if (path =? "id")%string then Some (ev_id e)
  else if (path =? "kind")%string then Some (ev_kind e)
  else if (path =? "severity")%string then Some (Severity_as_str (ev_severity e))
  else if (path =? "message")%string then Some (ev_message e)
  else if (path =? "ts")%string then Some (rfc3339 (ev_ts e))
  else if (path =? "profile_id")%string then ev_profile_id e
  else if (path =? "forward_id")%string then ev_forward_id e
  else if (path =? "session_id")%string then ev_session_id e
  else if (path =? "connection_id")%string then ev_connection_id e
  else v ← assoc path (ev_fields e); Some (match v with JString s => s | JNull => "" | v => json_text v end).

Definition field_is_string (e : Event) (path : string) : bool :=
  if (path =? "id")%string || (path =? "ts")%string || (path =? "kind")%string || (path =? "severity")%string || (path =? "message")%string
  then true
  else if (path =? "profile_id")%string then bool_decide (is_Some (ev_profile_id e))
  else if (path =? "forward_id")%string then bool_decide (is_Some (ev_forward_id e))
  else if (path =? "session_id")%string then bool_decide (is_Some (ev_session_id e))
  else if (path =? "connection_id")%string then bool_decide (is_Some (ev_connection_id e))
  else match assoc path (ev_fields e) with Some (JString _) => true | _ => false end.

(** [extra.entry(k).or_insert_with(..)]. *)
Definition entry_or_insert (k : string) (v : Json) (m : list (string * Json)) : list (string * Json) :=
  match assoc k m with Some _ => m | None => map_insert k v m end.

Definition insert_some (k : string) (v : option string) (m : list (string * Json)) : list (string * Json) :=
  match v with Some s => map_insert k (JString s) m | None => m end.

(** [spt_state::Event]. *)
Record StateEvent := mkStateEvent { st_ts : Z; st_kind : string; st_severity : string; st_extra : Json }.

Definition to_state_event (e : Event) : StateEvent :=
  let extra := map_insert "id" (JString (ev_id e)) [] in
  let extra := insert_some "profile_id" (ev_profile_id e) extra in
  let extra := insert_some "forward_id" (ev_forward_id e) extra in
  let extra := insert_some "session_id" (ev_session_id e) extra in
  let extra := insert_some "connection_id" (ev_connection_id e) extra in
  let extra := foldl (fun m kv => entry_or_insert kv.1 kv.2 m) extra (ev_fields e) in
  let extra := if (ev_message e =? "")%string then extra else entry_or_insert "message" (JString (ev_message e)) extra in
  mkStateEvent (ev_ts e) (ev_kind e) (Severity_as_str (ev_severity e)) (JObject extra).

(** ** Bindings ([binding.rs]) *)

Inductive ExprOp := OpEq | OpNeq | OpContains.
Record ExprFilter := mkExprFilter { ef_field : string; ef_op : ExprOp; ef_value : Json }.

(** Two floats are equal as [f64]: by their bits, the zeros apart. *)
Definition is_zero_bits (b : Z) : bool := (b =? 0) || (b =? 2 ^ 63).
Definition number_eq (a b : Number) : bool :=
  match a, b with
  | NPos m, NPos n | NNeg m, NNeg n => m =? n
  | NFloat m, NFloat n => (m =? n) || (is_zero_bits m && is_zero_bits n)
  | _, _ => false
  end.

(** [Value::eq]. *)
Fixpoint json_eq (a b : Json) : bool :=
  match a, b with
  | JNull, JNull => true
  | JBool x, JBool y => Bool.eqb x y
  | JNumber x, JNumber y => number_eq x y
  | JString x, JString y => (x =? y)%string
  | JArray l, JArray k =>
      (fix go l k := match l, k with
                     | [], [] => true
                     | x :: l, y :: k => json_eq x y && go l k
                     | _, _ => false
                     end) l k
  | JObject l, JObject k =>
      (fix go l k := match l, k with
                     | [], [] => true
                     | (i, x) :: l, (j, y) :: k => (i =? j)%string && json_eq x y && go l k
                     | _, _ => false
                     end) l k
  | _, _ => false
  end.

Definition json_loose_eq (a b : Json) : bool :=
  match a, b with
  | JString s1, JString s2 => (s1 =? s2)%string
  | JNumber n1, JNumber n2 => number_eq n1 n2
  | JBool b1, JBool b2 => Bool.eqb b1 b2
  | JString s, JNumber n | JNumber n, JString s => (number_text n =? s)%string
  | _, _ => json_eq a b
  end.

Definition ExprFilter_matches (f : ExprFilter) (e : Event) : bool :=
  match ef_op f with
  | OpContains =>
      match ef_value f with
      | JString needle =>
          if negb (field_is_string e (ef_field f)) then false
          else match lookup_field_str e (ef_field f) with Some h => str_contains needle h | None => false end
      | _ => false
      end
  | OpEq => match lookup_field e (ef_field f) with Some a => json_loose_eq a (ef_value f) | None => false end
  | OpNeq => match lookup_field e (ef_field f) with Some a => negb (json_loose_eq a (ef_value f)) | None => true end
  end.

Record BindingMatch := mkBindingMatch {
  bm_kinds : list string;
  bm_min_severity : option Severity;
  bm_profile_filter : list string;
  bm_forward_filter : list string;
  bm_exprs : list ExprFilter
}.

Definition id_listed (l : list string) (id : option string) : bool :=
  match l with
  | [] => true
  | _ => match id with Some p => bool_decide (p ∈ l) | None => false end
  end.

Definition BindingMatch_matches (b : BindingMatch) (e : Event) : bool :=
  (bool_decide (bm_kinds b = []) || existsb (matches_pattern (ev_kind e)) (bm_kinds b)) &&
  match bm_min_severity b with Some m => severity_rank m <=? severity_rank (ev_severity e) | None => true end &&
  id_listed (bm_profile_filter b) (ev_profile_id e) &&
  id_listed (bm_forward_filter b) (ev_forward_id e) &&
  forallb (fun f => ExprFilter_matches f e) (bm_exprs b).

Record Dedupe := mkDedupe { dd_key_fields : list string; dd_interval : Z }.
Definition Dedupe_default : Dedupe := mkDedupe ["kind"; "profile_id"; "forward_id"] (from_secs 60).
Definition Dedupe_new (key : option string) (window : Z) : Dedupe :=
  mkDedupe (match key with None => dd_key_fields Dedupe_default | Some k => [k] end) window.

(** U+2205 in UTF-8. *)
Definition empty_set_mark : string := string_of [0xE2; 0x88; 0x85].

Definition key_part (e : Event) (f : string) : string := match lookup_field_str e f with Some v => v | None => empty_set_mark end.
Definition key_for (d : Dedupe) (e : Event) : string :=
  match dd_key_fields d with
  | [] => ""
  | f :: fs => foldl (fun key f => key +:+ String "|" (key_part e f))%string (key_part e f) fs
  end.

Record Binding := mkBinding {
  bd_name : string;
  bd_match : BindingMatch;
  bd_sinks : list string;
  bd_dedupe : option Dedupe;
  bd_throttle : option Z
}.

Definition set_min (b : Binding) (l : Severity) : Binding :=
  let m := bd_match b in
  mkBinding (bd_name b) (mkBindingMatch (bm_kinds m) (Some l) (bm_profile_filter m) (bm_forward_filter m) (bm_exprs m)) (bd_sinks b) (bd_dedupe b) (bd_throttle b).
Definition with_min_level (l : Severity) (b : Binding) : Binding := set_min b l.
Definition min_severity_or (default : Severity) (b : Binding) : Binding :=
  match bm_min_severity (bd_match b) with None => set_min b default | Some _ => b end.

(** [DedupeState::should_suppress] at a time. *)
Definition should_suppress (now : Z) (d : Dedupe) (e : Event) (seen : gmap string Z) : bool * gmap string Z :=
  let key := key_for d e in
  let kept := filter (fun kv => duration_since now kv.2 < dd_interval d) seen in
  match kept !! key with
  | Some prev => if duration_since now prev <? dd_interval d then (true, kept) else (false, <[key := now]> kept)
  | None => (false, <[key := now]> kept)
  end.

(** [ThrottleState::allow] at a time. *)
Definition allow (now : Z) (binding : string) (interval : Z) (last : gmap string Z) : bool * gmap string Z :=
  match last !! binding with
  | Some prev => if duration_since now prev <? interval then (false, last) else (true, <[binding := now]> last)
  | None => (true, <[binding := now]> last)
  end.
End Event.

(** ** The dispatcher ([dispatcher.rs]) *)

Inductive SinkError := SinkTransient (e : string) | SinkPermanent (e : string) | SinkConfig (e : string).
Definition is_retryable (e : SinkError) : bool := match e with SinkTransient _ => true | _ => false end.

(** A registered sink is known to its spool by its own name. *)
Record Sink := mkSink { sink_name : string }.

(** The outside: the clock, the sinks and the file operations of a push and of
    the other calls of a spool; each use may change it. *)
Class Outside (W : Type) := {
  clock : W -> Z * W;
  deliver : Sink -> Event -> W -> Result SinkError unit * W;
  push_io : W -> PushIo * W;
  file_io : W -> FileOps * W
}.

(** [serde_json::to_vec] and [from_slice] on events. *)
Class EventCodec := {
  encode_event : Event -> option (list Z);
  decode_event : list Z -> option Event
}.

Record DispatcherInner := mkDispatcherInner {
  dp_bindings : list Binding;
  dp_sinks : gmap string Sink;
  dp_dedupe : gmap string Z;
  dp_throttle : gmap string Z;
  dp_spools : gmap string DiskSpool
}.

(** What a dispatch or a drain did, in order: the outcomes it acts on and logs. *)
Inductive Did :=
| DidSuppress (binding : string)
| DidThrottle (binding : string)
| DidDeliver (sink : string) (e : Event) (r : Result SinkError unit)
| DidSpool (sink : string) (io : PushIo) (payload : list Z)
| DidMiss (sink : string)
| DidUnread (sink : string)
| DidRemove (sink : string) (f : FileOps) (seq : Z)
| DidQuarantine (sink : string) (f : FileOps) (seq : Z).

(** The lock of a spool is free before an entry is looked at and until it is
    taken out: what others push meanwhile. *)
Abbreviation Gap := (list (PushIo * list Z)).

Section Dispatcher.
Context `{EventText} `{EventCodec} {W : Type} `{Outside W}.

Definition with_spool (n : string) (s : DiskSpool) (d : DispatcherInner) : DispatcherInner :=
  mkDispatcherInner (dp_bindings d) (dp_sinks d) (dp_dedupe d) (dp_throttle d) (<[n := s]> (dp_spools d)).
Definition with_dedupe_state (m : gmap string Z) (d : DispatcherInner) : DispatcherInner :=
  mkDispatcherInner (dp_bindings d) (dp_sinks d) m (dp_throttle d) (dp_spools d).
Definition with_throttle_state (m : gmap string Z) (d : DispatcherInner) : DispatcherInner :=
  mkDispatcherInner (dp_bindings d) (dp_sinks d) (dp_dedupe d) m (dp_spools d).

(** A computation of the dispatcher: its state and the outside in, both out, with
    what it did. *)
Definition Act : Type := DispatcherInner * W -> list Did * (DispatcherInner * W).
Definition seq_acts (l : list Act) : Act :=
  foldr (fun (f g : Act) st => let '(x, st) := f st in let '(y, st) := g st in (x ++ y, st)) (fun st => ([], st)) l.

Definition spool_one (n : string) (e : Event) : Act := fun st =>
  let '(d, w) := st in
  match dp_spools d !! n with
  | None => ([], (d, w))
  | Some s =>
      match encode_event e with
      | None => ([], (d, w))
      | Some bytes => let '(io, w) := push_io w in ([DidSpool n io bytes], (with_spool n (push io bytes s).2 d, w))
      end
  end.

(** One sink of a binding. *)
Definition dispatch_sink (e : Event) (sref : string) : Act := fun st =>
  let '(d, w) := st in
  match dp_sinks d !! sref with
  | None => ([DidMiss sref], (d, w))
  | Some sink =>
      let '(r, w) := deliver sink e w in
      let did := DidDeliver (sink_name sink) e r in
      match r with
      | Err x => if is_retryable x then let '(l, st) := spool_one (sink_name sink) e (d, w) in (did :: l, st) else ([did], (d, w))
      | Ok _ => ([did], (d, w))
      end
  end.

Definition dispatch_throttled (e : Event) (b : Binding) : Act := fun st =>
  let deliver_all := seq_acts (dispatch_sink e <$> bd_sinks b) in
  let '(d, w) := st in
  match bd_throttle b with
  | None => deliver_all (d, w)
  | Some interval =>
      let '(now, w) := clock w in
      let '(ok, m) := allow now (bd_name b) interval (dp_throttle d) in
      let d := with_throttle_state m d in
      if ok then deliver_all (d, w) else ([DidThrottle (bd_name b)], (d, w))
  end.

(** One binding of [dispatch]. *)
Definition dispatch_binding (e : Event) (b : Binding) : Act := fun st =>
  if negb (BindingMatch_matches (bd_match b) e) then ([], st)
  else
    let '(d, w) := st in
    match bd_dedupe b with
    | None => dispatch_throttled e b (d, w)
    | Some p =>
        let '(now, w) := clock w in
        let '(dup, m) := should_suppress now p e (dp_dedupe d) in
        let d := with_dedupe_state m d in
        if dup then ([DidSuppress (bd_name b)], (d, w)) else dispatch_throttled e b (d, w)
    end.

Definition dispatch (e : Event) : Act := fun st => seq_acts (dispatch_binding e <$> dp_bindings st.1) st.

(** [drain_buffered]: the events buffered in the receiver, a lag notice aside. *)
Definition drain_buffered (l : list Event) : Act := seq_acts (dispatch <$> l).

Definition pushes (g : Gap) (s : DiskSpool) : DiskSpool := foldl (fun s x => (push x.1 x.2 s).2) s g.
Definition did_pushes (n : string) (g : Gap) : list Did := (fun x => DidSpool n x.1 x.2) <$> g.

(** One pass of the loop of [drain_spool], with what others push before the look
    and until the entry is taken out; the last flag is whether the loop goes on. *)
Definition drain_pass (n : string) (sink : Sink) (gaps : Gap * Gap) (s : DiskSpool) (w : W) : list Did * W * DiskSpool * bool :=
  let s := pushes gaps.1 s in
  let '(f, w) := file_io w in
  match peek f s with
  | Ok None => (did_pushes n gaps.1, w, s, false)
  | Err _ => (did_pushes n gaps.1 ++ [DidUnread n], w, s, false)
  | Ok (Some entry) =>
      let s := pushes gaps.2 s in
      let did := did_pushes n gaps.1 ++ did_pushes n gaps.2 in
      match decode_event (se_payload entry) with
      | None =>
          let '(f, w) := file_io w in
          (did ++ [DidQuarantine n f (se_seq entry)], w, (quarantine f (se_seq entry) s).2, true)
      | Some e =>
          let '(r, w) := deliver sink e w in
          let did := did ++ [DidDeliver (sink_name sink) e r] in
          let '(f, w') := file_io w in
          let taken := (did ++ [DidRemove n f (se_seq entry)], w', (remove f (se_seq entry) s).2, true) in
          match r with
          | Ok _ => taken
          | Err x => if is_retryable x then (did, w, s, false) else taken
          end
      end
  end.

(** The loop.  A pass takes one entry out or finds it evicted, so the length of
    the queue and the number of pushes bound the passes. *)
Fixpoint drain_loop (n : string) (sink : Sink) (fuel : nat) (others : list (Gap * Gap)) (s : DiskSpool) (w : W) : list Did * (DiskSpool * W) :=
  match fuel with
  | O => ([], (s, w))
  | S fuel =>
      match drain_pass n sink (default ([], []) (head others)) s w with
      | (did, w, s, false) => (did, (s, w))
      | (did, w, s, true) => let '(l, st) := drain_loop n sink fuel (tail others) s w in (did ++ l, st)
      end
  end.

Definition gap_length (g : Gap * Gap) : nat := length g.1 + length g.2.
Definition others_length (others : list (Gap * Gap)) : nat := foldr (fun g n => gap_length g + n)%nat O others.

Definition drain_spool (others : list (Gap * Gap)) (n : string) : Act := fun st =>
  let '(d, w) := st in
  match dp_sinks d !! n, dp_spools d !! n with
  | Some sink, Some s =>
      let '(l, (s, w)) := drain_loop n sink (S (spool_len s + others_length others)) others s w in (l, (with_spool n s d, w))
  | _, _ => ([], (d, w))
  end.

(** The spools that hold something, in the order of the map. *)
Definition pending (d : DispatcherInner) : list string :=
  fst <$> filter (fun kv => spool_is_empty kv.2 = false) (map_to_list (dp_spools d)).

Definition drain_pending_spools (others : string -> list (Gap * Gap)) : Act :=
  fun st => seq_acts ((fun n => drain_spool (others n) n) <$> pending st.1) st.
End Dispatcher.

(** ** Deduplication and throttling against their history *)

(** An admission: when and for which key. *)
Definition Admission : Type := Z * string.

(** The key was admitted less than its interval ago. *)
Definition recent (iv : string -> Z) (hist : list Admission) (t : Z) (k : string) : bool :=
  existsb (fun h => (h.2 =? k)%string && (duration_since t h.1 <? iv k)) hist.

(** Suppress what is recent, admit the rest. *)
Fixpoint gate_ref (iv : string -> Z) (hist : list Admission) (calls : list Admission) : list bool :=
  match calls with
  | [] => []
  | (t, k) :: r => if recent iv hist t k then true :: gate_ref iv hist r else false :: gate_ref iv ((t, k) :: hist) r
  end.

(** A table of last admissions answers for a history from some time on. *)
Definition answers (iv : string -> Z) (m : gmap string Z) (hist : list Admission) (t0 : Z) : Prop :=
  forall k t, t0 <= t -> recent iv hist t k = match m !! k with Some prev => duration_since t prev <? iv k | None => false end.

Lemma answers_nil iv t0 : answers iv ∅ [] t0.
Proof. intros k t _. by rewrite lookup_empty. Qed.

Lemma answers_later iv m hist t0 t1 : answers iv m hist t0 -> t0 <= t1 -> answers iv m hist t1.
Proof. intros H Ht k t Hk. apply H. lia. Qed.

(** Admitting a key that is not recent. *)
Lemma answers_admit iv m hist t k :
  answers iv m hist t -> recent iv hist t k = false -> answers iv (<[k := t]> m) ((t, k) :: hist) t.
Proof.
  intros H Hr j u Hu. unfold recent. cbn [existsb fst snd]. change (existsb _ hist) with (recent iv hist u j).
  destruct (String.eqb_spec k j) as [<-|Hn]; cbn [andb].
  - rewrite lookup_insert_eq. rewrite H by lia. rewrite H in Hr by lia. destruct (m !! k) as [p|]; [|by rewrite orb_false_r].
    apply Z.ltb_ge in Hr. rewrite (proj2 (Z.ltb_ge (duration_since u p) (iv k))); [by rewrite orb_false_r|]. unfold duration_since, sat_sub in *. lia.
  - rewrite lookup_insert_ne by done. cbn [orb]. by apply H.
Qed.

(** Dropping keys that are not recent. *)
Lemma answers_retain i m hist t :
  answers (fun _ => i) m hist t -> answers (fun _ => i) (filter (fun kv => duration_since t kv.2 < i) m) hist t.
Proof.
  intros H k u Hu. rewrite H by done. destruct (filter _ m !! k) as [p|] eqn:Ef.
  - apply map_lookup_filter_Some in Ef as [-> _]. done.
  - destruct (m !! k) as [p|] eqn:Em; [|done]. apply map_lookup_filter_None in Ef as [Ef|Ef]; [congruence|]. specialize (Ef p Em). cbn in Ef.
    apply Z.ltb_ge. unfold duration_since, sat_sub in *. lia.
Qed.

Section Gates.
Context `{EventText}.

(** One policy over a sequence of events. *)
Fixpoint dedupe_run (d : Dedupe) (seen : gmap string Z) (calls : list (Z * Event)) : list bool :=
  match calls with
  | [] => []
  | (t, e) :: r => let '(dup, seen) := should_suppress t d e seen in dup :: dedupe_run d seen r
  end.

(** The bindings with a throttle over a sequence of deliveries. *)
Fixpoint throttle_run (iv : string -> Z) (last : gmap string Z) (calls : list (Z * string)) : list bool :=
  match calls with
  | [] => []
  | (t, n) :: r => let '(ok, last) := allow t n (iv n) last in ok :: throttle_run iv last r
  end.

Lemma suppress_step t d e seen hist :
  answers (fun _ => dd_interval d) seen hist t ->
  let k := key_for d e in
  (should_suppress t d e seen).1 = recent (fun _ => dd_interval d) hist t k /\
  answers (fun _ => dd_interval d) (should_suppress t d e seen).2 (if recent (fun _ => dd_interval d) hist t k then hist else (t, k) :: hist) t.
Proof.
  intros Ha k. pose proof (answers_retain _ _ _ _ Ha) as Hk. unfold should_suppress. fold k. rewrite (Hk k t) by lia.
  set (kept := filter _ seen) in *. destruct (kept !! k) as [p|] eqn:E.
  - destruct (duration_since t p <? dd_interval d) eqn:Ed; [done|]. split; [done|]. apply answers_admit; [done|]. by rewrite (Hk k t), E by lia.
  - split; [done|]. apply answers_admit; [done|]. by rewrite (Hk k t), E by lia.
Qed.

Lemma dedupe_run_ref d seen hist t0 calls :
  answers (fun _ => dd_interval d) seen hist t0 -> Sorted Z.le (t0 :: calls.*1) ->
  dedupe_run d seen calls = gate_ref (fun _ => dd_interval d) hist ((fun c => (c.1, key_for d c.2)) <$> calls).
Proof.
  revert seen hist t0. induction calls as [|[t e] r IH]; intros seen hist t0 Ha Hs; [done|]. cbn [fmap list_fmap dedupe_run gate_ref fst snd].
  apply Sorted_inv in Hs as [Hs Hh]. apply HdRel_inv in Hh. cbn [fmap list_fmap fst] in Hs, Hh. pose proof (suppress_step t d e seen hist (answers_later _ _ _ _ _ Ha Hh)) as [Hr Hm].
  destruct (should_suppress t d e seen) as [dup seen']. cbn [fst snd] in Hr, Hm. subst dup.
  destruct (recent _ hist t (key_for d e)); f_equal; by eapply IH.
Qed.

Lemma allow_step t n iv last hist :
  answers iv last hist t ->
  (allow t n (iv n) last).1 = negb (recent iv hist t n) /\
  answers iv (allow t n (iv n) last).2 (if recent iv hist t n then hist else (t, n) :: hist) t.
Proof.
  intros Ha. unfold allow. assert (recent iv hist t n = match last !! n with Some p => duration_since t p <? iv n | None => false end) as Hr by (apply Ha; lia).
  rewrite Hr. destruct (last !! n) as [p|]; [destruct (duration_since t p <? iv n); [done|]|]; (split; [done|]); by apply answers_admit.
Qed.

Lemma throttle_run_ref iv last hist t0 calls :
  answers iv last hist t0 -> Sorted Z.le (t0 :: calls.*1) -> throttle_run iv last calls = negb <$> gate_ref iv hist calls.
Proof.
  revert last hist t0. induction calls as [|[t n] r IH]; intros last hist t0 Ha Hs; [done|]. cbn [throttle_run gate_ref].
  apply Sorted_inv in Hs as [Hs Hh]. apply HdRel_inv in Hh. cbn [fmap list_fmap fst] in Hs, Hh. pose proof (allow_step t n iv last hist (answers_later _ _ _ _ _ Ha Hh)) as [Hr Hm].
  destruct (allow t n (iv n) last) as [ok last']. cbn [fst snd] in Hr, Hm. subst ok.
  destruct (recent iv hist t n); cbn [negb fmap list_fmap]; f_equal; by eapply IH.
Qed.

(** On a clock that does not run backwards, a deduplication policy
    suppresses an event exactly when an event with the same key was let through
    less than the interval before, however many other keys were seen and
    collected in between; and a throttle lets a delivery through exactly when
    its binding's last admitted delivery is at least that binding's interval
    old, the bindings being independent of each other. *)
Theorem gates_exact d devs iv dels :
  Sorted Z.le devs.*1 -> Sorted Z.le dels.*1 ->
  dedupe_run d ∅ devs = gate_ref (fun _ => dd_interval d) [] ((fun c => (c.1, key_for d c.2)) <$> devs) /\
  throttle_run iv ∅ dels = negb <$> gate_ref iv [] dels.
Proof.
  assert (forall l : list Z, Sorted Z.le l -> exists t0, Sorted Z.le (t0 :: l)) as Hs.
  { intros [|t l] Hl; [exists 0; repeat constructor|]. exists t. constructor; [done|]. constructor. lia. }
  intros [t0 H0]%Hs [t1 H1]%Hs. split; [eapply dedupe_run_ref|eapply throttle_run_ref]; first [apply answers_nil|eassumption].
Qed.

(** The state is one for all bindings: the policy of a second binding that
    computes the same key suppresses the event the first has just let through. *)
Theorem dedupe_state_shared t u d1 d2 e seen m :
  should_suppress t d1 e seen = (false, m) -> key_for d2 e = key_for d1 e -> duration_since u t < dd_interval d2 ->
  (should_suppress u d2 e m).1 = true.
Proof.
  intros Hs Hk Hu. assert (m !! key_for d1 e = Some t) as Hm.
  { unfold should_suppress in Hs. destruct (_ !! _); [destruct (_ <? _); [done|]|]; injection Hs as <-; apply lookup_insert_eq. }
  unfold should_suppress. rewrite Hk. assert (filter (fun kv => duration_since u kv.2 < dd_interval d2) m !! key_for d1 e = Some t) as ->.
  { apply map_lookup_filter_Some. done. }
  by rewrite (proj2 (Z.ltb_lt _ _) Hu).
Qed.
End Gates.

(** ** Delivery *)

Section Delivery.
Context `{EventText} `{EventCodec} {W : Type} `{Outside W}.

(** A result after which an entry is not tried again. *)
Definition settled (r : Result SinkError unit) : Prop := match r with Ok _ => True | Err x => is_retryable x = false end.

(** *** Drains against the queue of the specification *)

(** The entry with this number leaves the queue, wherever it stands, if it is
    still there. *)
Definition q_settle (f : FileOps) (stays : bool) (seq : Z) (q : Queue) : Queue :=
  match list_find (fun e => e.1 = seq) (q_entries q) with
  | Some (_, (_, p)) =>
      mkQueue (filter (fun e => e.1 <> seq) (q_entries q)) (keep_file stays seq p (q_left q)) (q_next q) (uncount f seq p (q_counted q))
  | None => q
  end.

Section Drains.
Context (n : string) (sink : Sink) (cfg : SpoolConfig).

Definition q_pushes (g : Gap) (q : Queue) : Queue := foldl (fun q x => q_push cfg x.1 x.2 q) q g.

(** What a drain may do to a queue that others push to: look at the front, let
    the sink have it, and take out exactly what it looked at; and when it may
    end. *)
Inductive drains : Queue -> list Did -> Queue -> Prop :=
| drains_push q io p did q' : drains (q_push cfg io p q) did q' -> drains q (DidSpool n io p :: did) q'
| drains_empty q : q_entries q = [] -> drains q [] q
| drains_unread q e r : q_entries q = e :: r -> drains q [DidUnread n] q
| drains_stop q seq p r e g x :
    q_entries q = (seq, p) :: r -> decode_event p = Some e -> is_retryable x = true ->
    drains q (did_pushes n g ++ [DidDeliver (sink_name sink) e (Err x)]) (q_pushes g q)
| drains_deliver q seq p r e g res f did q' :
    q_entries q = (seq, p) :: r -> decode_event p = Some e -> settled res ->
    drains (q_settle f (negb (removes f seq)) seq (q_pushes g q)) did q' ->
    drains q (did_pushes n g ++ DidDeliver (sink_name sink) e res :: DidRemove n f seq :: did) q'
| drains_quarantine q seq p r g f did q' :
    q_entries q = (seq, p) :: r -> decode_event p = None ->
    drains (q_settle f (negb (renames f seq) && negb (removes f seq)) seq (q_pushes g q)) did q' ->
    drains q (did_pushes n g ++ DidQuarantine n f seq :: did) q'.

(** The entries a drain takes out. *)
Definition taken (did : list Did) : list Z :=
  omap (fun x => match x with DidRemove _ _ seq | DidQuarantine _ _ seq => Some seq | _ => None end) did.

(** Numbers increase along the queue and are below the next. *)
Definition ordered (q : Queue) : Prop :=
  StronglySorted Z.lt (q_entries q).*1 /\ Forall (fun m => m < q_next q) (q_entries q).*1.

(** What pushes leave of a queue: a suffix of it, then new entries. *)
Definition grown (k : nat) (q q' : Queue) : Prop :=
  ordered q' /\ q_next q <= q_next q' /\
  exists gone l new, q_entries q = gone ++ l /\ q_entries q' = l ++ new /\ (length new <= k)%nat /\ Forall (fun m => q_next q <= m) new.*1.

Lemma sorted_suffix (a b : list Z) : StronglySorted Z.lt (a ++ b) -> StronglySorted Z.lt b.
Proof. induction a as [|x a IH]; [done|]. cbn. intros [Hs _]%StronglySorted_inv. by apply IH. Qed.

Lemma push_grown io p q : ordered q -> grown 1 q (q_push cfg io p q).
Proof.
  intros [Hs Hf]. unfold q_push. destruct (_ && _).
  { split_and!; [done|lia|]. exists [], (q_entries q), []. rewrite app_nil_r. split_and!; [done|done|cbn; lia|constructor]. }
  unfold q_fit. pose proof (fit_room cfg (io_files io) (Z.of_nat (length p)) (q_entries q) (q_left q) (q_counted q)) as Hfit.
  destruct (fit_while _ _ _ _ _) as [[l k] z]. destruct Hfit as (_ & _ & [gone Hg] & _). cbn [q_next q_entries q_left q_counted].
  rewrite Hg, fmap_app in Hs, Hf. apply sorted_suffix in Hs. apply Forall_app in Hf as [_ Hf].
  assert (forall z' k' nx, q_next q <= nx -> grown 1 q (mkQueue l k' nx z')) as Hsame.
  { intros z' k' nx Hnx. split_and!; cbn; [split; [done|]; eapply Forall_impl; [exact Hf|cbn; lia]|lia|].
    exists gone, l, []. rewrite app_nil_r. split_and!; [done|done|cbn; lia|constructor]. }
  destruct (_ <=? _); [apply Hsame; lia|]. destruct (io_step io); try (apply Hsame; lia).
  split_and!; cbn [q_entries q_next]; [split; cbn [q_entries q_next]; rewrite fmap_app; cbn [fmap list_fmap fst]|lia|].
  - by apply queue_snoc.
  - apply Forall_app. split; [eapply Forall_impl; [exact Hf|cbn; lia]|repeat constructor; cbn; lia].
  - exists gone, l, [(q_next q, p)]. split_and!; [done|done|done|]. repeat constructor. cbn. lia.
Qed.

Lemma grown_trans j k q q1 q2 : grown j q q1 -> grown k q1 q2 -> grown (j + k) q q2.
Proof.
  intros (_ & Hn1 & g1 & l1 & w1 & E1 & E1' & Hw1 & Hf1) (Ho & Hn2 & g2 & l2 & w2 & E2 & E2' & Hw2 & Hf2). split_and!; [done|lia|].
  rewrite E1' in E2. assert (Forall (fun m => q_next q <= m) w2.*1) as Hf2' by (eapply Forall_impl; [exact Hf2|cbn; lia]).
  apply app_eq_inv in E2 as [(k1 & -> & ->)|(k1 & -> & ->)].
  - exists (g1 ++ g2), k1, (w1 ++ w2). rewrite <- app_assoc, length_app, fmap_app. split_and!; [done|by rewrite E2', <- app_assoc|lia|by apply Forall_app].
  - exists (g1 ++ l1), [], (l2 ++ w2). rewrite length_app in *. rewrite fmap_app in Hf1 |- *. apply Forall_app in Hf1 as [_ Hf1].
    split_and!; [by rewrite app_nil_r|done|lia|by apply Forall_app].
Qed.

Lemma pushes_grown g q : ordered q -> grown (length g) q (q_pushes g q).
Proof.
  revert q. induction g as [|[io p] g IH]; intros q Ho.
  { split_and!; [done|cbn; lia|]. exists [], (q_entries q), []. rewrite app_nil_r. split_and!; [done|done|done|constructor]. }
  pose proof (push_grown io p q Ho) as Hp. change (length ((io, p) :: g)) with (1 + length g)%nat.
  eapply grown_trans; [exact Hp|]. apply IH. by destruct Hp.
Qed.

(** After pushes the entry that was in front is in front or gone. *)
Lemma front_after k q q' seq p r : ordered q -> q_entries q = (seq, p) :: r -> grown k q q' -> Forall (fun m => seq <= m) (q_entries q').*1.
Proof.
  intros [Hs Hf] E (_ & _ & gone & l & new & Eq & -> & _ & Hnew). rewrite fmap_app. apply Forall_app. split.
  - assert (Forall (fun m => seq <= m) (q_entries q).*1) as Hall.
    { rewrite E in *. cbn in Hs |- *. apply StronglySorted_inv in Hs as [_ Hx]. constructor; [lia|]. eapply Forall_impl; [exact Hx|cbn; lia]. }
    rewrite Eq, fmap_app in Hall. by apply Forall_app in Hall as [_ ?].
  - rewrite E in Hf. cbn in Hf. apply Forall_cons in Hf as [Hx _]. eapply Forall_impl; [exact Hnew|cbn; lia].
Qed.

Lemma above_rest seq (r : list (Z * list Z)) : Forall (Z.lt seq) r.*1 -> filter (fun e => e.1 <> seq) r = r /\ list_find (fun e => e.1 = seq) r = None.
Proof.
  intros Hf. split.
  - induction r as [|[m p] r IH]; [done|]. cbn in Hf. apply Forall_cons in Hf as [Hm Hf]. rewrite filter_cons_True by (cbn; lia). by rewrite IH.
  - apply list_find_None, Forall_forall. intros [m p] Hin. pose proof (proj1 (Forall_forall _ _) Hf m (list_elem_of_fmap_2 fst _ _ Hin)). cbn in *. lia.
Qed.

(** So the guard on the front takes out the right entry, and only that. *)
Lemma drop_settle f stays seq q : ordered q -> Forall (fun m => seq <= m) (q_entries q).*1 -> q_drop f stays seq q = q_settle f stays seq q.
Proof.
  intros [Hs _] Hge. unfold q_drop, q_settle, q_tail. destruct (q_entries q) as [|[m p] r] eqn:E; [done|].
  rewrite fmap_cons in Hs, Hge. apply StronglySorted_inv in Hs as [_ Hf]. apply Forall_cons in Hge as [Hm _]. cbn [fst] in *. destruct (Z.eqb_spec m seq) as [->|Hne].
  - cbn [list_find]. rewrite decide_True by done. rewrite filter_cons_False by (cbn; tauto). by destruct (above_rest seq r Hf) as [-> _].
  - assert (Forall (Z.lt seq) r.*1) as Hf' by (eapply Forall_impl; [exact Hf|cbn; lia]). destruct (above_rest seq r Hf') as [_ Hn].
    cbn [list_find]. rewrite decide_False by (cbn; lia). by rewrite Hn.
Qed.

(** What is left when an entry is taken out: all behind it, and one less. *)
Lemma settle_after k q q' f stays seq p r :
  ordered q -> q_entries q = (seq, p) :: r -> grown k q q' ->
  let q2 := q_settle f stays seq q' in
  ordered q2 /\ Forall (fun m => seq < m) (q_entries q2).*1 /\ seq < q_next q2 /\ (length (q_entries q2) < length (q_entries q) + k)%nat.
Proof.
  intros Ho E Hg q2. pose proof (front_after k q q' seq p r Ho E Hg) as Hge. destruct Hg as ([Hs Hb] & Hn & gone & l & new & Eq & Eq' & Hlen & _).
  assert (seq < q_next q) as Hseq by (destruct Ho as [_ Hf]; rewrite E in Hf; by apply Forall_cons in Hf as [? _]).
  assert (length (q_entries q) = length gone + length l)%nat as Hl by (by rewrite Eq, length_app).
  assert (length (q_entries q') = length l + length new)%nat as Hl' by (by rewrite Eq', length_app).
  subst q2. rewrite <- (drop_settle f stays seq q' (conj Hs Hb) Hge). unfold q_drop, q_tail.
  pose proof (conj Hs Hb : ordered q') as Ho'. destruct (q_entries q') as [|[m pm] r'] eqn:E'; [rewrite E'; cbn in *; split_and!; [done|constructor|lia|]|].
  { destruct gone; [|cbn in *; lia]. destruct l; [|done]. rewrite E in Eq. done. }
  rewrite fmap_cons in Hs, Hge, Hb. apply StronglySorted_inv in Hs as [Hs Hf]. apply Forall_cons in Hge as [Hm _]. apply Forall_cons in Hb as [Hmb Hb]. cbn [fst length] in *.
  destruct (Z.eqb_spec m seq) as [->|Hne]; cbn [q_entries q_next].
  - split_and!; [by split|eapply Forall_impl; [exact Hf|cbn; lia]|lia|lia].
  - rewrite E'. split_and!.
    + done.
    + rewrite fmap_cons. constructor; [cbn; lia|]. eapply Forall_impl; [exact Hf|cbn; lia].
    + lia.
    + destruct gone as [|x gone]; [|cbn in *; lia]. cbn in Eq. subst l. rewrite E in Eq'. injection Eq' as -> _ _. done.
Qed.

Lemma taken_pushes g did : taken (did_pushes n g ++ did) = taken did.
Proof. unfold taken. induction g as [|x g IH]; [done|]. cbn. exact IH. Qed.

(** Entries are taken out in order, each at most once. *)
Lemma drains_taken q did q' : drains q did q' -> ordered q -> StronglySorted Z.lt (taken did) /\ forall b, Forall (fun m => b < m) (q_entries q).*1 -> b < q_next q -> Forall (fun m => b < m) (taken did).
Proof.
  assert (forall g seq p r f stays did (q : Queue), ordered q -> q_entries q = (seq, p) :: r ->
    (ordered (q_settle f stays seq (q_pushes g q)) -> StronglySorted Z.lt (taken did) /\
       forall b, Forall (fun m => b < m) (q_entries (q_settle f stays seq (q_pushes g q))).*1 -> b < q_next (q_settle f stays seq (q_pushes g q)) -> Forall (fun m => b < m) (taken did)) ->
    StronglySorted Z.lt (seq :: taken did) /\ forall b, Forall (fun m => b < m) (q_entries q).*1 -> b < q_next q -> Forall (fun m => b < m) (seq :: taken did)) as Hstep.
  { intros g seq p r f stays l q0 Ho E IH. destruct (settle_after (length g) q0 (q_pushes g q0) f stays seq p r Ho E (pushes_grown g q0 Ho)) as (Ho2 & Hall & Hnext & _).
    destruct (IH Ho2) as [IHs IHb]. specialize (IHb seq Hall Hnext). split; [by constructor|]. intros b Hb _. rewrite E in Hb. cbn in Hb. apply Forall_cons in Hb as [Hb _].
    constructor; [done|]. eapply Forall_impl; [exact IHb|cbn; lia]. }
  induction 1 as [q io p did q' _ IH|q E|q e r E|q seq p r e g x E Ed Ex|q seq p r e g res f did q' E Ed Er _ IH|q seq p r g f did q' E Ed _ IH]; intros Ho.
  - pose proof (push_grown io p q Ho) as (Ho1 & Hn & gone & l & new & Eq & Eq' & _ & Hnew). destruct (IH Ho1) as [IHs IHb]. split; [done|].
    intros b Hb Hbn. apply (IHb b); [|lia]. rewrite Eq, fmap_app in Hb. rewrite Eq', fmap_app. apply Forall_app in Hb as [_ Hb].
    apply Forall_app. split; [done|]. eapply Forall_impl; [exact Hnew|cbn; lia].
  - split; constructor.
  - split; constructor.
  - rewrite taken_pushes. split; constructor.
  - rewrite taken_pushes. by apply (Hstep g seq p r f (negb (removes f seq))).
  - rewrite taken_pushes. by apply (Hstep g seq p r f (negb (renames f seq) && negb (removes f seq))).
Qed.

Lemma drains_pushes g did q q' : drains (q_pushes g q) did q' -> drains q (did_pushes n g ++ did) q'.
Proof. revert q. induction g as [|[io p] g IH]; intros q Hq; [done|]. cbn. apply drains_push. by apply IH. Qed.
End Drains.

Lemma abs_ordered s : wf s -> ordered (abs s).
Proof.
  intros W0. unfold ordered, abs. cbn [q_entries q_next]. rewrite <- list_fmap_compose, list_fmap_id. split; [apply W0|].
  eapply Forall_impl; [apply (wf_range s W0)|]. cbn. lia.
Qed.

Lemma pushes_abs g s : wf s -> wf (pushes g s) /\ abs (pushes g s) = q_pushes (sp_cfg s) g (abs s) /\ sp_cfg (pushes g s) = sp_cfg s.
Proof.
  revert s. induction g as [|[io p] g IH]; intros s W0; [done|]. destruct (push_abs io p s W0) as [W1 Ha]. pose proof (step_cfg s (OpPush io p)) as Hc. cbn in Hc.
  destruct (IH _ W1) as (W2 & Ha2 & Hc2). split_and!; [done| |by rewrite <- Hc]. change (pushes ((io, p) :: g) s) with (pushes g (push io p s).2). rewrite Ha2, Hc, Ha. done.
Qed.

Lemma drain_loop_spec n sink fuel others s w :
  wf s -> (spool_len s + others_length others < fuel)%nat ->
  let '(did, (s', _)) := drain_loop n sink fuel others s w in wf s' /\ drains n sink (sp_cfg s) (abs s) did (abs s').
Proof.
  revert others s w. induction fuel as [|fuel IH]; intros others s w W0 Hf; [lia|]. cbn [drain_loop]. unfold drain_pass.
  set (gaps := default ([], []) (head others)). destruct gaps as [g1 g2] eqn:Eg. cbn [fst snd].
  assert (others_length others = length g1 + length g2 + others_length (tail others))%nat as Hol.
  { subst gaps. destruct others as [|[a b] os]; [by injection Eg as <- <-|]. cbn in Eg. by injection Eg as <- <-. }
  destruct (pushes_abs g1 s W0) as (W1 & Ha1 & Hc1). set (s1 := pushes g1 s) in *. destruct (file_io w) as [f1 w1].
  assert (length (q_entries (abs s1)) <= length (sp_queue s) + length g1)%nat as Hlen1.
  { rewrite Ha1. destruct (pushes_grown (sp_cfg s) g1 (abs s) (abs_ordered s W0)) as (_ & _ & gone & l & new & Eq & -> & Hnew & _).
    rewrite <- abs_length, Eq, !length_app. lia. }
  assert (forall did q', drains n sink (sp_cfg s) (abs s1) did q' -> drains n sink (sp_cfg s) (abs s) (did_pushes n g1 ++ did) q') as Hpre.
  { intros did q' Hd. apply drains_pushes. by rewrite <- Ha1. }
  destruct (front_reads f1 s1 W1) as [-> _]. unfold q_read. destruct (q_entries (abs s1)) as [|[seq p] r] eqn:Eq.
  { split; [done|]. rewrite <- (app_nil_r (did_pushes n g1)). apply Hpre. by apply drains_empty. }
  destruct (reads f1 seq); [|split; [done|]; apply Hpre; by eapply drains_unread]. cbn [se_payload se_seq].
  destruct (pushes_abs g2 s1 W1) as (W2 & Ha2 & Hc2). set (s2 := pushes g2 s1) in *. rewrite Hc1 in Ha2.
  pose proof (abs_ordered s1 W1) as Ho1. pose proof (pushes_grown (sp_cfg s) g2 (abs s1) Ho1) as Hg2.
  pose proof (front_after _ _ _ _ _ _ Ho1 Eq Hg2) as Hge. pose proof (abs_ordered s2 W2) as Ho2.
  assert (forall s3 w3 f stays did, wf s3 -> sp_cfg s3 = sp_cfg s -> abs s3 = q_drop f stays seq (abs s2) ->
    (forall l q', drains n sink (sp_cfg s) (q_settle f stays seq (q_pushes (sp_cfg s) g2 (abs s1))) l q' -> drains n sink (sp_cfg s) (abs s1) (did_pushes n g2 ++ did ++ l) q') ->
    let '(l, (s', _)) := drain_loop n sink fuel (tail others) s3 w3 in wf s' /\ drains n sink (sp_cfg s) (abs s) ((did_pushes n g1 ++ did_pushes n g2 ++ did) ++ l) (abs s')) as Hgo.
  { intros s3 w3 f stays did W3 Hc3 Ha3 Hnext. assert (abs s3 = q_settle f stays seq (q_pushes (sp_cfg s) g2 (abs s1))) as Ha3'.
    { rewrite Ha3, <- Ha2. apply drop_settle; [done|by rewrite Ha2]. }
    destruct (settle_after (length g2) (abs s1) (q_pushes (sp_cfg s) g2 (abs s1)) f stays seq p r Ho1 Eq Hg2) as (_ & _ & _ & Hlen3). rewrite <- Ha3', Eq in Hlen3.
    specialize (IH (tail others) s3 w3 W3). destruct (drain_loop n sink fuel (tail others) s3 w3) as [l [s' w']].
    destruct IH as [W' Hd]. { unfold spool_len in *. rewrite <- abs_length. cbn [length] in *. lia. }
    split; [done|]. rewrite <- app_assoc. apply Hpre. rewrite <- app_assoc. apply Hnext. by rewrite <- Ha3', <- Hc3. }
  assert (sp_cfg s2 = sp_cfg s) as Hc2' by congruence.
  destruct (decode_event p) as [e|] eqn:Ed.
  - destruct (deliver sink e w1) as [r0 w2]. destruct (file_io w2) as [f3 w3]. destruct (remove_abs f3 seq s2 W2) as [W3 Ha3].
    pose proof (step_cfg s2 (OpRemove f3 seq)) as Hc3. cbn in Hc3. rewrite Hc2' in Hc3.
    assert (settled r0 -> let '(l, (s', _)) := drain_loop n sink fuel (tail others) (remove f3 seq s2).2 w3 in
      wf s' /\ drains n sink (sp_cfg s) (abs s) ((((did_pushes n g1 ++ did_pushes n g2) ++ [DidDeliver (sink_name sink) e r0]) ++ [DidRemove n f3 seq]) ++ l) (abs s')) as Htaken.
    { intros Hr0. specialize (Hgo _ w3 f3 (negb (removes f3 seq)) [DidDeliver (sink_name sink) e r0; DidRemove n f3 seq] W3 Hc3 Ha3).
      destruct (drain_loop n sink fuel (tail others) (remove f3 seq s2).2 w3) as [l [s' w']].
      destruct Hgo as [W' Hd]; [intros l' q' Hl; by eapply drains_deliver|]. split; [done|]. rewrite <- !app_assoc in Hd. rewrite <- !app_assoc. exact Hd. }
    destruct r0 as [u|x]; [|destruct (is_retryable x) eqn:Ex].
    + specialize (Htaken I). destruct (drain_loop n sink fuel (tail others) (remove f3 seq s2).2 w3) as [l [s' w']]. exact Htaken.
    + split; [done|]. rewrite <- app_assoc. apply Hpre. rewrite Ha2. by eapply drains_stop.
    + specialize (Htaken Ex). destruct (drain_loop n sink fuel (tail others) (remove f3 seq s2).2 w3) as [l [s' w']]. exact Htaken.
  - destruct (file_io w1) as [f3 w3]. destruct (quarantine_abs f3 seq s2 W2) as [W3 Ha3].
    pose proof (step_cfg s2 (OpQuarantine f3 seq)) as Hc3. cbn in Hc3. rewrite Hc2' in Hc3.
    specialize (Hgo _ w3 f3 (negb (renames f3 seq) && negb (removes f3 seq)) [DidQuarantine n f3 seq] W3 Hc3 Ha3).
    destruct (drain_loop n sink fuel (tail others) (quarantine f3 seq s2).2 w3) as [l [s' w']].
    destruct Hgo as [W' Hd]; [intros l' q' Hl; by eapply drains_quarantine|]. split; [done|]. rewrite <- !app_assoc in Hd. rewrite <- !app_assoc. exact Hd.
Qed.

(** C27: A drain beside others that push finitely often to the same spool, from
    the moment the lock is free, and evict from it, and whatever the file
    operations and the sink do: it ends, and all it does to the queue is to look
    at the front, to have it delivered, refused for good or, undecodable, put
    aside, and to take out that entry and no other (none when it was evicted
    meanwhile); what it takes out it takes in order and once.  It ends at an
    empty spool, at an entry that cannot be read, or at one whose delivery
    failed for the time being, and then leaves the queue as it is. *)
Theorem drain_exact (others : list (Gap * Gap)) n (d : DispatcherInner) (w : W) sink s :
  dp_sinks d !! n = Some sink -> dp_spools d !! n = Some s -> wf s ->
  let '(did, (d', _)) := drain_spool others n (d, w) in
  exists s', dp_spools d' = <[n := s']> (dp_spools d) /\ wf s' /\
  drains n sink (sp_cfg s) (abs s) did (abs s') /\ StronglySorted Z.lt (taken did).
Proof.
  intros Hk Hs W0. unfold drain_spool. rewrite Hk, Hs.
  pose proof (drain_loop_spec n sink (S (spool_len s + others_length others)) others s w W0 ltac:(lia)) as H2.
  destruct (drain_loop n sink (S (spool_len s + others_length others)) others s w) as [did [s' w']]. destruct H2 as [W' Hd].
  exists s'. split_and!; [done|done|done|]. by apply (drains_taken _ _ _ _ _ _ Hd), abs_ordered.
Qed.

(** A transient failure is followed at once by the push of the event to the
    spool of the sink. *)
Fixpoint failures_spooled (did : list Did) : Prop :=
  match did with
  | [] => True
  | DidDeliver n e (Err x) :: r =>
      (if is_retryable x then exists io p r', r = DidSpool n io p :: r' /\ encode_event e = Some p else True) /\ failures_spooled r
  | _ :: r => failures_spooled r
  end.

(** The pushes of a trace to one spool. *)
Definition replay (n : string) (did : list Did) (s : DiskSpool) : DiskSpool :=
  foldl (fun s x => match x with DidSpool m io p => if (m =? n)%string then (push io p s).2 else s | _ => s end) s did.

(** Every sink has a spool and every event an encoding. *)
Definition spooled_sinks (sinks : gmap string Sink) (spools : gmap string DiskSpool) : Prop :=
  forall k sink, sinks !! k = Some sink -> is_Some (spools !! sink_name sink).

(** What an act does to the dispatcher, as far as delivery goes. *)
Definition spools_right (f : Act) : Prop := forall (d : DispatcherInner) (w : W),
  spooled_sinks (dp_sinks d) (dp_spools d) ->
  let '(did, (d', _)) := f (d, w) in
  failures_spooled did /\ dp_bindings d' = dp_bindings d /\ dp_sinks d' = dp_sinks d /\ (forall n, dp_spools d' !! n = replay n did <$> dp_spools d !! n).

Lemma failures_spooled_app a b : failures_spooled a -> failures_spooled b -> failures_spooled (a ++ b).
Proof.
  induction a as [|x a IH]; [done|]. intros Ha Hb. destruct x as [| |n e [u|x]| | | | |]; cbn in *; try (by apply IH).
  destruct Ha as [Hx Ha]. split; [|by apply IH]. destruct (is_retryable x); [|done]. destruct Hx as (io & p & r & -> & He). cbn. eauto.
Qed.

Lemma replay_app n a b s : replay n (a ++ b) s = replay n b (replay n a s).
Proof. apply foldl_app. Qed.

Lemma spooled_sinks_replay k (m m' : gmap string DiskSpool) did :
  spooled_sinks k m -> (forall n, m' !! n = replay n did <$> m !! n) -> spooled_sinks k m'.
Proof. intros Hk Hm i sink Hi. rewrite Hm. apply fmap_is_Some. by eapply Hk. Qed.

Lemma spools_right_seq (l : list Act) : Forall spools_right l -> spools_right (seq_acts l).
Proof.
  induction 1 as [|f l Hf _ IH]; intros d w Hk.
  - cbn. do 3 (split; [done|]). intros n. by destruct (dp_spools d !! n).
  - cbn [seq_acts foldr]. specialize (Hf d w Hk). destruct (f (d, w)) as [x [d1 w1]]. destruct Hf as (Hx & Hb & Hs & Hm).
    assert (spooled_sinks (dp_sinks d1) (dp_spools d1)) as Hk1 by (rewrite Hs; by eapply spooled_sinks_replay).
    specialize (IH d1 w1 Hk1). change (foldr _ _ l) with (seq_acts l). destruct (seq_acts l (d1, w1)) as [y [d2 w2]]. destruct IH as (Hy & Hb2 & Hs2 & Hm2).
    split; [by apply failures_spooled_app|]. split; [congruence|]. split; [congruence|]. intros n. rewrite Hm2, Hm. destruct (dp_spools d !! n); [|done]. cbn. by rewrite replay_app.
Qed.
End Delivery.

Section NoLoss.
Context `{EventText} `{EventCodec} {W : Type} `{Outside W}.
Context (Hencodes : forall e, is_Some (encode_event e)).

Lemma dispatch_sink_right e sref : spools_right (W := W) (dispatch_sink e sref).
Proof.
  intros d w Hk. unfold dispatch_sink. destruct (dp_sinks d !! sref) as [sink|] eqn:Es.
  2:{ cbn. do 3 (split; [done|]). intros n. by destruct (dp_spools d !! n). }
  assert (forall r : Result SinkError unit, settled r -> let did := [DidDeliver (sink_name sink) e r] in
    failures_spooled did /\ dp_bindings d = dp_bindings d /\ dp_sinks d = dp_sinks d /\ (forall n, dp_spools d !! n = replay n did <$> dp_spools d !! n)) as Hsettled.
  { intros r Hr. split; [destruct r as [|x]; [done|]; cbn in *; by rewrite Hr|]. do 2 (split; [done|]). intros n. by destruct (dp_spools d !! n). }
  destruct (deliver sink e w) as [[u|x] w1]; [by apply Hsettled|]. destruct (is_retryable x) eqn:Ex; [|by apply Hsettled].
  destruct (Hk sref sink Es) as [s Hs]. destruct (Hencodes e) as [p Hp]. unfold spool_one. rewrite Hs, Hp. destruct (push_io w1) as [io w2].
  split; [cbn; rewrite Ex; split; [by exists io, p, []|done]|]. do 2 (split; [done|]). intros n. cbn [with_spool dp_spools replay foldl].
  destruct (decide (sink_name sink = n)) as [<-|Hn]; [rewrite lookup_insert_eq, Hs; cbn; by rewrite String.eqb_refl|].
  rewrite lookup_insert_ne by done. destruct (dp_spools d !! n); cbn; [by rewrite (proj2 (String.eqb_neq _ _) Hn)|done].
Qed.

(** Acts that change the tables and not the spools. *)
Lemma spools_right_tables (f : Act) (d d1 : DispatcherInner) (w : W) :
  spools_right f -> dp_bindings d1 = dp_bindings d -> dp_sinks d1 = dp_sinks d -> dp_spools d1 = dp_spools d ->
  spooled_sinks (dp_sinks d) (dp_spools d) ->
  let '(did, (d', _)) := f (d1, w) in
  failures_spooled did /\ dp_bindings d' = dp_bindings d /\ dp_sinks d' = dp_sinks d /\ (forall n, dp_spools d' !! n = replay n did <$> dp_spools d !! n).
Proof. intros Hf Hb Hs Hm Hk. rewrite <- Hb, <- Hs, <- Hm. apply Hf. by rewrite Hs, Hm. Qed.

Lemma quiet_right (d d1 : DispatcherInner) x :
  (x = [] \/ (exists b, x = [DidSuppress b]) \/ (exists b, x = [DidThrottle b])) ->
  dp_bindings d1 = dp_bindings d -> dp_sinks d1 = dp_sinks d -> dp_spools d1 = dp_spools d ->
  failures_spooled x /\ dp_bindings d1 = dp_bindings d /\ dp_sinks d1 = dp_sinks d /\ (forall n, dp_spools d1 !! n = replay n x <$> dp_spools d !! n).
Proof.
  intros Hx Hb Hs Hm. assert (failures_spooled x /\ forall n s, replay n x s = s) as [H1' H2'] by (by destruct Hx as [->|[[b ->]|[b ->]]]).
  do 3 (split; [done|]). intros n. rewrite Hm. destruct (dp_spools d !! n) as [s|]; cbn; [by rewrite H2'|done].
Qed.

Lemma dispatch_throttled_right e b : spools_right (W := W) (dispatch_throttled e b).
Proof.
  intros d w Hk. unfold dispatch_throttled.
  assert (spools_right (W := W) (seq_acts (dispatch_sink e <$> bd_sinks b))) as Hall.
  { apply spools_right_seq, Forall_fmap, Forall_forall. intros sref _. apply dispatch_sink_right. }
  destruct (bd_throttle b) as [i|]; [|by apply Hall]. destruct (clock w) as [now w1]. destruct (allow now (bd_name b) i (dp_throttle d)) as [[] m].
  - by apply spools_right_tables.
  - apply quiet_right; try done. by right; right; eexists.
Qed.

Lemma dispatch_binding_right e b : spools_right (W := W) (dispatch_binding e b).
Proof.
  intros d w Hk. unfold dispatch_binding. destruct (negb _); [apply quiet_right; try done; by left|].
  destruct (bd_dedupe b) as [p|]; [|by apply dispatch_throttled_right]. destruct (clock w) as [now w1].
  destruct (should_suppress now p e (dp_dedupe d)) as [[] m]; [apply quiet_right; try done; right; left; by eexists|].
  apply spools_right_tables; try done. apply dispatch_throttled_right.
Qed.

Lemma dispatch_right e : spools_right (W := W) (dispatch e).
Proof.
  intros d w Hk. unfold dispatch. apply (spools_right_seq (W := W)); [|done]. apply Forall_fmap, Forall_forall. intros b _. apply dispatch_binding_right.
Qed.

(** C28: Dispatching a sequence of events, whatever the bindings, the clock and
    the sinks do: every delivery that fails for the time being is followed at
    once by a push of that event to the spool of that sink, and the spools at
    the end are the spools at the start with exactly those pushes, in order. *)
Theorem dispatch_loses_nothing l (d : DispatcherInner) (w : W) :
  spooled_sinks (dp_sinks d) (dp_spools d) ->
  let '(did, (d', _)) := drain_buffered l (d, w) in
  failures_spooled did /\ dp_sinks d' = dp_sinks d /\ (forall n, dp_spools d' !! n = replay n did <$> dp_spools d !! n).
Proof.
  intros Hk. assert (spools_right (W := W) (drain_buffered l)) as Hr.
  { apply spools_right_seq, Forall_fmap, Forall_forall. intros e _. apply dispatch_right. }
  specialize (Hr d w Hk). destruct (drain_buffered l (d, w)) as [did [d' w']]. by destruct Hr as (? & _ & ? & ?).
Qed.
End NoLoss.

(** ** A concrete outside *)

(** Codes for the kinds, times as they are; deliveries answer from a script. *)
Definition demo_text : EventText := Build_EventText (fun _ => ""%string) (fun _ => ""%string) (fun _ => ""%string).
Definition demo_event (kind : string) : Event := mkEvent "e" 0 kind SevInfo None None None None [] "".
Definition demo_codec : EventCodec :=
  Build_EventCodec (fun e => Some (bytes_of (ev_kind e))) (fun p => if bool_decide (p = [0]) then None else Some (demo_event (string_of p))).
Definition demo_outside : Outside (list (Result SinkError unit)) :=
  Build_Outside _ (fun w => (0, w)) (fun _ _ w => match w with r :: w => (r, w) | [] => (Ok tt, []) end) (fun w => (PushIo_ok, w)) (fun w => (FileOps_ok, w)).

Definition demo_match : BindingMatch := mkBindingMatch ["profile.*"] None [] [] [].
Definition demo_binding (n sink : string) : Binding := mkBinding n demo_match [sink] (Some Dedupe_default) None.
Definition demo_dispatcher (bs : list Binding) : DispatcherInner :=
  mkDispatcherInner bs {[ "a" := mkSink "a"; "b" := mkSink "b" ]} ∅ ∅
    {[ "a" := spool_opened OpenOps_ok ∅ SpoolConfig_default; "b" := spool_opened OpenOps_ok ∅ SpoolConfig_default ]}.

(** Room for three entries. *)
Definition demo_spool : DiskSpool :=
  foldl spool_step (spool_opened OpenOps_ok ∅ (mkSpoolConfig 0 3)) [OpPush PushIo_ok [97]; OpPush PushIo_ok [0]; OpPush PushIo_ok [98]].

Lemma demo_spool_wf : wf demo_spool.
Proof. apply run_abs, spool_opened_abs. intros name n [c Hl]. by rewrite lookup_empty in Hl. Qed.

Definition demo_drain : DispatcherInner := mkDispatcherInner [] {[ "a" := mkSink "a" ]} ∅ ∅ {[ "a" := demo_spool ]}.
Definition demo_script : list (Result SinkError unit) := [Ok tt; Ok tt; Err (SinkTransient "down")].

(** While the first entry is being delivered another event is spooled and
    evicts it; the second entry, which is in front by then, stays. *)
Definition demo_others : list (Gap * Gap) := [([], [(PushIo_ok, [99])])].

Lemma drain_exact_witness :
  let '(did, (d', _)) := @drain_spool demo_codec _ demo_outside demo_others "a" (demo_drain, demo_script) in
  taken did = [1; 2; 3] /\
  exists s', dp_spools d' !! "a"%string = Some s' /\ wf s' /\ q_entries (abs s') = [(4, [99])].
Proof.
  pose proof (@drain_exact demo_codec _ demo_outside demo_others "a" demo_drain demo_script (mkSink "a") demo_spool eq_refl eq_refl demo_spool_wf) as HT.
  assert (taken (@drain_spool demo_codec _ demo_outside demo_others "a" (demo_drain, demo_script)).1 = [1; 2; 3]) as E1 by (vm_compute; reflexivity).
  assert ((fun s => q_entries (abs s)) <$> dp_spools (@drain_spool demo_codec _ demo_outside demo_others "a" (demo_drain, demo_script)).2.1 !! "a"%string = Some [(4, [99])])
    as E2 by (vm_compute; reflexivity).
  destruct (@drain_spool demo_codec _ demo_outside demo_others "a" (demo_drain, demo_script)) as [did [d' w']]. cbn [fst snd] in E1, E2. split; [exact E1|].
  destruct HT as (s' & Hs & Hw & _). exists s'. rewrite Hs, lookup_insert_eq in E2 |- *. split; [done|]. split; [done|]. apply (inj Some). exact E2.
Defined.

Lemma dispatch_loses_nothing_witness :
  let d := demo_dispatcher [demo_binding "one" "a"] in
  let '(did, (d', _)) := @drain_buffered demo_text demo_codec _ demo_outside [demo_event "profile.up"; demo_event "other"] (d, [Err (SinkTransient "down")]) in
  @failures_spooled demo_codec did /\ dp_spools d' !! "b"%string = replay "b" did <$> dp_spools d !! "b"%string.
Proof.
  pose proof (@dispatch_loses_nothing demo_text demo_codec _ demo_outside (fun e => mk_is_Some _ _ eq_refl) [demo_event "profile.up"; demo_event "other"]
    (demo_dispatcher [demo_binding "one" "a"]) [Err (SinkTransient "down")]) as HT.
  assert (spooled_sinks (dp_sinks (demo_dispatcher [demo_binding "one" "a"])) (dp_spools (demo_dispatcher [demo_binding "one" "a"]))) as Hk.
  { intros k sink Hs. cbn [dp_sinks demo_dispatcher] in Hs. apply lookup_insert_Some in Hs as [[<- <-]|[_ Hs]]; [by eexists|]. apply lookup_singleton_Some in Hs as [<- <-]. by eexists. }
  specialize (HT Hk). cbv zeta. destruct (@drain_buffered demo_text demo_codec _ demo_outside _ _) as [did [d' w']]. split; [apply HT|apply HT].
Defined.

(** An event that two bindings with the default policy select goes to the sink
    of the first only. *)
Theorem second_binding_starves :
  (@dispatch demo_text demo_codec _ demo_outside (demo_event "profile.up") (demo_dispatcher [demo_binding "one" "a"; demo_binding "two" "b"], [])).1 =
  [DidDeliver "a" (demo_event "profile.up") (Ok tt); DidSuppress "two"].
Proof. vm_compute. reflexivity. Qed.

(** A policy with a short interval collects the keys of a long one: the second
    event is let through by the long policy only because the short one ran in
    between. *)
Theorem short_window_forgets :
  let long := mkDedupe ["kind"] (from_secs 60) in
  let short := mkDedupe ["severity"] (from_secs 1) in
  let seen := (@should_suppress demo_text 0 long (demo_event "k") ∅).2 in
  let after := (@should_suppress demo_text (from_secs 5) short (demo_event "k") seen).2 in
  (@should_suppress demo_text (from_secs 6) long (demo_event "k") seen).1 = true /\
  (@should_suppress demo_text (from_secs 6) long (demo_event "k") after).1 = false.
Proof. vm_compute. done. Qed.

(** The witness of the gates: three events of a kind, a minute between the ends. *)
Lemma gates_exact_witness :
  @dedupe_run demo_text Dedupe_default ∅ [(0, demo_event "k"); (from_secs 1, demo_event "k"); (from_secs 60, demo_event "k")] = [false; true; false] /\
  throttle_run (fun _ => 10) ∅ [(0, "a"%string); (3, "b"%string); (5, "a"%string); (10, "a"%string)] = [true; true; false; true].
Proof.
  destruct (@gates_exact demo_text Dedupe_default [(0, demo_event "k"); (from_secs 1, demo_event "k"); (from_secs 60, demo_event "k")]
    (fun _ => 10) [(0, "a"%string); (3, "b"%string); (5, "a"%string); (10, "a"%string)]) as [-> ->].
  - repeat constructor; vm_compute; done.
  - repeat constructor; vm_compute; done.
  - vm_compute. done.
Defined.
