(* ===== verification/Template.v ===== *)
(** * Templates

    Models [crates/spt-events/src/template.rs]: the substitution of event fields
    into the text sent to a sink, with the escaping of each value for the place
    it lands in.  Text is its UTF-8 bytes. *)

From S2P Require Import Prelude Bytes Text McpPolicy Events.

(** ** Escaping *)

Inductive EscapeMode := EscNone | EscJsonString | EscUrl | EscForm.

Definition backslash : ascii := "092"%char.

Definition hex_lower (d : Z) : ascii := ascii_of_nat (Z.to_nat (if d <? 10 then 48 + d else 87 + d)).
Definition hex_upper (d : Z) : ascii := ascii_of_nat (Z.to_nat (if d <? 10 then 48 + d else 55 + d)).

(** [\u{:04x}] of a control character. *)
Definition u_escape (a : ascii) : string :=
  String backslash (String "u" (String "0" (String "0" (String (hex_lower (code a / 16)) (String (hex_lower (code a mod 16)) ""))))).

Definition json_escape_char (a : ascii) : string :=
  if Ascii.eqb a quote then String backslash (String quote "")
  else if Ascii.eqb a backslash then String backslash (String backslash "")
  else if Ascii.eqb a "010" then String backslash "n"
  else if Ascii.eqb a "013" then String backslash "r"
  else if Ascii.eqb a "009" then String backslash "t"
  else if Ascii.eqb a "008" then String backslash "b"
  else if Ascii.eqb a "012" then String backslash "f"
  else if code a <? 32 then u_escape a
  else String a "".

Fixpoint append_json_escaped (v : string) : string :=
  match v with EmptyString => "" | String a r => (json_escape_char a +:+ append_json_escaped r)%string end.

Definition unreserved (a : ascii) : bool :=
  between 65 90 (code a) || between 97 122 (code a) || between 48 57 (code a) ||
  (code a =? 45) || (code a =? 46) || (code a =? 95) || (code a =? 126).

Fixpoint append_percent_encoded (v : string) (space_as_plus : bool) : string :=
  match v with
  | EmptyString => ""
  | String a r =>
      let rest := append_percent_encoded r space_as_plus in
      if unreserved a then String a rest
      else if (code a =? 32) && space_as_plus then String "+" rest
      else String "%" (String (hex_upper (code a / 16)) (String (hex_upper (code a mod 16)) rest))
  end.

Definition append_escaped (v : string) (m : EscapeMode) : string :=
  match m with
  | EscNone => v
  | EscJsonString => append_json_escaped v
  | EscUrl => append_percent_encoded v false
  | EscForm => append_percent_encoded v true
  end.

(** ** Rendering *)

(** The text before the first two closing braces and the text after them. *)
Fixpoint find_close (s : string) : option (string * string) :=
  match s with
  | EmptyString => None
  | String a r =>
      match r with
      | String b r' => if Ascii.eqb a "}" && Ascii.eqb b "}" then Some (""%string, r')
                       else (fun p => (String a p.1, p.2)) <$> find_close r
      | EmptyString => None
      end
  end.

Section Render.
Context `{EventText}.

(** The loop; the length of the text bounds it. *)
Fixpoint render_go (fuel : nat) (e : Event) (m : EscapeMode) (t : string) : string * list string :=
  match fuel with
  | O => (t, [])
  | S fuel =>
      match t with
      | EmptyString => (""%string, [])
      | String a r =>
          let next := let '(o, l) := render_go fuel e m r in (String a o, l) in
          match r with
          | String b r' =>
              if Ascii.eqb a "{" && Ascii.eqb b "{" then
                match find_close r' with
                | Some (inner, after) =>
                    let raw := trim inner in
                    let '(o, l) := render_go fuel e m after in
                    match lookup_field_str e raw with
                    | Some v => ((append_escaped v m +:+ o)%string, l)
                    | None => (("{{" +:+ raw +:+ "}}" +:+ o)%string, raw :: l)
                    end
                | None => (t, [])
                end
              else next
          | EmptyString => next
          end
      end
  end.

Definition render_template_escaped (t : string) (e : Event) (m : EscapeMode) : string * list string := render_go (String.length t) e m t.
Definition render_template (t : string) (e : Event) : string * list string := render_template_escaped t e EscNone.

(** ** Specification: a template is literal text and holes *)

Inductive Piece := Lit (a : ascii) | Hole (inner : string).

Fixpoint pieces_go (fuel : nat) (t : string) : list Piece :=
  match fuel with
  | O => Lit <$> list_ascii_of_string t
  | S fuel =>
      match t with
      | EmptyString => []
      | String a r =>
          match r with
          | String b r' =>
              if Ascii.eqb a "{" && Ascii.eqb b "{" then
                match find_close r' with
                | Some (inner, after) => Hole inner :: pieces_go fuel after
                | None => Lit <$> list_ascii_of_string t
                end
              else Lit a :: pieces_go fuel r
          | EmptyString => Lit a :: pieces_go fuel r
          end
      end
  end.
Definition pieces (t : string) : list Piece := pieces_go (String.length t) t.

Definition piece_source (p : Piece) : string := match p with Lit a => String a "" | Hole i => ("{{" +:+ i +:+ "}}")%string end.
Definition piece_text (e : Event) (m : EscapeMode) (p : Piece) : string :=
  match p with
  | Lit a => String a ""
  | Hole i => match lookup_field_str e (trim i) with Some v => append_escaped v m | None => ("{{" +:+ trim i +:+ "}}")%string end
  end.
Definition piece_missing (e : Event) (p : Piece) : option string :=
  match p with
  | Lit _ => None
  | Hole i => match lookup_field_str e (trim i) with Some _ => None | None => Some (trim i) end
  end.

Fixpoint join (l : list string) : string := match l with [] => "" | s :: r => (s +:+ join r)%string end.
End Render.

(** ** Specification: readers of the escaped forms *)

Definition hex_val (a : ascii) : option Z :=
  if between 48 57 (code a) then Some (code a - 48)
  else if between 97 102 (code a) then Some (code a - 87)
  else if between 65 70 (code a) then Some (code a - 55)
  else None.

Definition char_of (n : Z) : ascii := ascii_of_nat (Z.to_nat n).

(** The one-letter escapes of RFC 8259. *)
Definition simple_escape (b : ascii) : option ascii :=
  if Ascii.eqb b quote then Some quote
  else if Ascii.eqb b backslash then Some backslash
  else if Ascii.eqb b "/" then Some "/"%char
  else if Ascii.eqb b "n" then Some "010"%char
  else if Ascii.eqb b "r" then Some "013"%char
  else if Ascii.eqb b "t" then Some "009"%char
  else if Ascii.eqb b "b" then Some "008"%char
  else if Ascii.eqb b "f" then Some "012"%char
  else None.

(** A JSON string from inside its quotes: its value and the text after the
    closing quote.  Four-digit escapes are read below U+0080 only. *)
Fixpoint json_string (s : string) : option (string * string) :=
  match s with
  | EmptyString => None
  | String a r =>
      if Ascii.eqb a quote then Some (""%string, r)
      else if code a <? 32 then None
      else if Ascii.eqb a backslash then
        match r with
        | String b r' =>
            match simple_escape b with
            | Some c => (fun p => (String c p.1, p.2)) <$> json_string r'
            | None =>
                if Ascii.eqb b "u" then
                  match r' with
                  | String d3 (String d2 (String d1 (String d0 r''))) =>
                      h3 ← hex_val d3; h2 ← hex_val d2; h1 ← hex_val d1; h0 ← hex_val d0;
                      let n := h3 * 4096 + h2 * 256 + h1 * 16 + h0 in
                      if n <? 128 then (fun p => (String (char_of n) p.1, p.2)) <$> json_string r'' else None
                  | _ => None
                  end
                else None
            end
        | EmptyString => None
        end
      else (fun p => (String a p.1, p.2)) <$> json_string r
  end.

(** Percent decoding, a plus as a space when asked. *)
Fixpoint percent_decode (plus : bool) (s : string) : option string :=
  match s with
  | EmptyString => Some ""%string
  | String a r =>
      if Ascii.eqb a "%" then
        match r with
        | String h (String l r') => x ← hex_val h; y ← hex_val l; String (char_of (x * 16 + y)) <$> percent_decode plus r'
        | _ => None
        end
      else if Ascii.eqb a "+" && plus then String " " <$> percent_decode plus r
      else String a <$> percent_decode plus r
  end.

(** The characters an escaped URL or form value is made of. *)
Definition encoded_char (plus : bool) (a : ascii) : bool := unreserved a || Ascii.eqb a "%" || (plus && Ascii.eqb a "+").

(** ** Lemmas: one character *)

Lemma json_string_char a s : json_string (json_escape_char a +:+ s) = (fun p => (String a p.1, p.2)) <$> json_string s.
Proof. destruct a as [[] [] [] [] [] [] [] []]; reflexivity. Qed.

Lemma percent_decode_char plus a r :
  percent_decode plus (append_percent_encoded (String a r) plus) = String a <$> percent_decode plus (append_percent_encoded r plus).
Proof. destruct a as [[] [] [] [] [] [] [] []], plus; reflexivity. Qed.

Lemma encoded_chars plus a r :
  forallb (encoded_char plus) (list_ascii_of_string (append_percent_encoded (String a r) plus)) =
  forallb (encoded_char plus) (list_ascii_of_string (append_percent_encoded r plus)).
Proof. destruct a as [[] [] [] [] [] [] [] []], plus; reflexivity. Qed.

(** An escaped value is data: whatever the value, a reader of the JSON string
    it was put into gets the value back and finds its closing quote exactly
    where the template has it; and an escaped URL or form value decodes to the
    value and consists of unreserved characters, percent signs and (in a form)
    plus signs, so it ends no component and starts no parameter. *)
Theorem escaped_is_data v :
  (forall rest, json_string (append_escaped v EscJsonString +:+ String quote rest) = Some (v, rest)) /\
  (forall plus : bool, let s := append_escaped v (if plus then EscForm else EscUrl) in
    percent_decode plus s = Some v /\ forallb (encoded_char plus) (list_ascii_of_string s) = true).
Proof.
  split; [|intros plus; split].
  - intros rest. cbn [append_escaped]. induction v as [|a v IH]; [reflexivity|]. cbn [append_json_escaped].
    rewrite str_app_assoc, json_string_char, IH. done.
  - destruct plus; cbn [append_escaped]; (induction v as [|a v IH]; [reflexivity|]; by rewrite percent_decode_char, IH).
  - destruct plus; cbn [append_escaped]; (induction v as [|a v IH]; [reflexivity|]; by rewrite encoded_chars, IH).
Qed.

(** ** Lemmas: rendering *)

Lemma find_close_source s i r : find_close s = Some (i, r) -> s = (i +:+ "}}" +:+ r)%string.
Proof.
  revert i. induction s as [|a s IH]; [done|]. intros i. cbn [find_close]. destruct s as [|b s']; [done|].
  destruct (Ascii.eqb_spec a "}") as [->|Ha], (Ascii.eqb_spec b "}") as [->|Hb]; cbn [andb]; try (intros [= <- <-]; by rewrite str_nil_app).
  all: destruct (find_close _) as [[j k]|] eqn:E; [|done]; intros [= <- <-]; cbn [fst snd]; rewrite str_cons_app; f_equal; by apply IH.
Qed.

Lemma find_close_shorter s i r : find_close s = Some (i, r) -> (String.length r < String.length s)%nat.
Proof. intros ->%find_close_source. rewrite !string_length_app. cbn. lia. Qed.

Lemma join_lits s : join (piece_source <$> (Lit <$> list_ascii_of_string s)) = s.
Proof. induction s as [|a s IH]; [done|]. cbn. by rewrite IH, str_cons_app. Qed.

Lemma pieces_go_source fuel t : join (piece_source <$> pieces_go fuel t) = t.
Proof.
  revert t. induction fuel as [|fuel IH]; intros t; [apply join_lits|]. cbn [pieces_go]. destruct t as [|a r]; [done|].
  assert (join (piece_source <$> Lit a :: pieces_go fuel r) = String a r) as Hn by (cbn; by rewrite IH, str_cons_app).
  destruct r as [|b r']; [done|]. destruct (Ascii.eqb_spec a "{") as [->|Ha], (Ascii.eqb_spec b "{") as [->|Hb]; cbn [andb]; try exact Hn.
  destruct (find_close r') as [[i k]|] eqn:E; [|apply join_lits]. apply find_close_source in E as ->. cbn [fmap list_fmap join piece_source].
  rewrite IH, !str_app_assoc. reflexivity.
Qed.

Section RenderProofs.
Context `{EventText}.

Lemma join_lits_text e m s : join (piece_text e m <$> (Lit <$> list_ascii_of_string s)) = s.
Proof. induction s as [|a s IH]; [done|]. cbn. by rewrite IH, str_cons_app. Qed.

Lemma missing_lits e (l : list ascii) : omap (piece_missing e) (Lit <$> l) = [].
Proof. by induction l. Qed.

Lemma render_go_pieces fuel e m t :
  (String.length t <= fuel)%nat -> render_go fuel e m t = (join (piece_text e m <$> pieces_go fuel t), omap (piece_missing e) (pieces_go fuel t)).
Proof.
  revert t. induction fuel as [|fuel IH]; intros t Hf; cbn [render_go pieces_go].
  - by rewrite join_lits_text, missing_lits.
  - destruct t as [|a r]; [done|]. cbn in Hf.
    assert ((let '(o, l) := render_go fuel e m r in (String a o, l)) =
      (join (piece_text e m <$> Lit a :: pieces_go fuel r), omap (piece_missing e) (Lit a :: pieces_go fuel r))) as Hn.
    { rewrite IH by lia. cbn. by rewrite str_cons_app. }
    destruct r as [|b r']; [exact Hn|]. destruct (Ascii.eqb a "{" && Ascii.eqb b "{"); [|exact Hn].
    destruct (find_close r') as [[i k]|] eqn:E; [|by rewrite join_lits_text, missing_lits].
    apply find_close_shorter in E. cbn in Hf. rewrite IH by lia. cbn [fmap list_fmap join piece_text omap list_omap piece_missing].
    destruct (lookup_field_str e (trim i)); [done|]. by rewrite !str_app_assoc.
Qed.

(** Rendering cuts a template into literal characters and holes without
    looking at the event, the cut pieces being the template again, and puts
    them back together with every literal character unchanged and every hole
    replaced by the escaped value of the field it names (by itself, trimmed,
    when there is none); the names of those are exactly the ones reported. *)
Theorem render_exact t e m :
  join (piece_source <$> pieces t) = t /\
  render_template_escaped t e m = (join (piece_text e m <$> pieces t), omap (piece_missing e) (pieces t)).
Proof. split; [apply pieces_go_source|]. by apply render_go_pieces. Qed.
End RenderProofs.

Example render_json :
  @render_template_escaped demo_text "{{ kind }}|{{nope}}|{{" (demo_event (String quote "x")) EscJsonString =
  ((String backslash (String quote "x")) +:+ "|{{nope}}|{{", ["nope"])%string.
Proof. vm_compute. reflexivity. Qed.
