(* ===== verification/Dns.v ===== *)
(** * The managed DNS zones

    Models [crates/spt-dns/src/zone.rs], [srv.rs], [mode.rs], [forward_acl.rs],
    [health.rs] and [split_horizon.rs]: managed records and their validation,
    the records synthesised for forwards, and what the split-horizon handler
    answers to a query.  The names and messages of the DNS library and the
    upstream resolver are arguments. *)

From S2P Require Import Prelude Bytes Text Endpoint Ip Address.

(** ** Records ([zone.rs]) *)

Inductive RecordKind := RkA | RkAAAA | RkSRV | RkTXT.
#[export] Instance RecordKind_eq : EqDecision RecordKind.
Proof. solve_decision. Defined.

Inductive AnswerPolicy := AlwaysAnswer | AnswerWhenListening | AnswerWhenHealthy.

Record DnsRecord := mkDnsRecord {
  rec_name : string;
  rec_kind : RecordKind;
  rec_value : string;
  rec_ttl : Z;
  rec_policy : AnswerPolicy;
  rec_forward_id : option string
}.

Inductive DnsError :=
| DnsIo (e : string)
| InvalidName (n : string)
| InvalidValue (kind : RecordKind) (value reason : string)
| DnsServerError (e : string)
| DnsUpstream (e : string)
| BackupMissing (p : string)
| DnsConfig (e : string).

Definition record_a (name : string) (addr ttl : Z) : DnsRecord := mkDnsRecord name RkA (ipv4_to_string addr) ttl AlwaysAnswer None.
Definition record_aaaa (name : string) (addr ttl : Z) : DnsRecord := mkDnsRecord name RkAAAA (ipv6_to_string addr) ttl AlwaysAnswer None.
Definition srv_value (priority weight port : Z) (target : string) : string :=
  (pretty priority +:+ " " +:+ pretty weight +:+ " " +:+ pretty port +:+ " " +:+ target)%string.
Definition record_srv (name : string) (priority weight port : Z) (target : string) (ttl : Z) : DnsRecord :=
  mkDnsRecord name RkSRV (srv_value priority weight port target) ttl AlwaysAnswer None.
Definition record_txt (name text : string) (ttl : Z) : DnsRecord := mkDnsRecord name RkTXT text ttl AlwaysAnswer None.
Definition with_policy (policy : AnswerPolicy) (forward_id : option string) (r : DnsRecord) : DnsRecord :=
  mkDnsRecord (rec_name r) (rec_kind r) (rec_value r) (rec_ttl r) policy forward_id.

(** [Ipv4Addr::from_str] and [Ipv6Addr::from_str]: the reader of one family,
    to the end of the text. *)
Definition parse_v4 (s : string) : option Z := match read_ipv4 s with Some (a, r) => if (r =? "")%string then Some a else None | None => None end.
Definition parse_v6 (s : string) : option Z := match read_ipv6 s with Some (a, r) => if (r =? "")%string then Some a else None | None => None end.

(** The text of [ParseIntError] for a part that is not empty. *)
Fixpoint int_error_digits (w : Z) (s : string) (acc : Z) : string :=
  match s with
  | EmptyString => ""
  | String a r =>
      match digit_val a with
      | None => "invalid digit found in string"
      | Some d => if acc * 10 + d <=? umax w then int_error_digits w r (acc * 10 + d) else "number too large to fit in target type"
      end
  end.
Definition int_error (w : Z) (s : string) : string :=
  match s with
  | String "+" EmptyString => "invalid digit found in string"
  | String "+" r => int_error_digits w r 0
  | _ => int_error_digits w s 0
  end.

Fixpoint check_numbers (value : string) (l : list (string * string)) : Result DnsError unit :=
  match l with
  | [] => Ok tt
  | (label, part) :: r =>
      match parse_uint 16 part with
      | Some _ => check_numbers value r
      | None => Err (InvalidValue RkSRV value ("invalid " +:+ label +:+ ": " +:+ int_error 16 part))
      end
  end.

Definition record_validate (r : DnsRecord) : Result DnsError unit :=
  match rec_kind r with
  | RkA => match parse_v4 (rec_value r) with Some _ => Ok tt | None => Err (InvalidValue RkA (rec_value r) "invalid IPv4 address syntax") end
  | RkAAAA => match parse_v6 (rec_value r) with Some _ => Ok tt | None => Err (InvalidValue RkAAAA (rec_value r) "invalid IPv6 address syntax") end
  | RkSRV =>
      match split_whitespace (rec_value r) with
      | [p; w; q; _] => check_numbers (rec_value r) [("priority", p); ("weight", w); ("port", q)]%string
      | _ => Err (InvalidValue RkSRV (rec_value r) "SRV value must be `priority weight port target`")
      end
  | RkTXT => Ok tt
  end.

Definition srv_parts (r : DnsRecord) : option (Z * Z * Z * string) :=
  match rec_kind r with
  | RkSRV =>
      match split_whitespace (rec_value r) with
      | [p; w; q; t] => p ← parse_uint 16 p; w ← parse_uint 16 w; q ← parse_uint 16 q; Some (p, w, q, t)
      | _ => None
      end
  | _ => None
  end.

(** ** Zones *)

Record ManagedZone := mkManagedZone { zone_suffix : string; zone_records : list DnsRecord }.
Definition ManagedZone_new (suffix : string) : ManagedZone := mkManagedZone suffix [].

Definition zone_add (r : DnsRecord) (z : ManagedZone) : Result DnsError ManagedZone :=
  match record_validate r with
  | Err e => Err e
  | Ok _ => Ok (mkManagedZone (zone_suffix z) (zone_records z ++ [r]))
  end.

Definition normalize_name (name : string) : string :=
  let s := to_ascii_lowercase (trim name) in
  if ends_with "." s then s else (s +:+ ".")%string.

(** A name under a suffix, both normalised. *)
Definition name_under (s n : string) : bool := (n =? s)%string || bool_decide (is_Some (strip_suffix (String "." s) n)).

Definition contains_name (z : ManagedZone) (name : string) : bool := name_under (normalize_name (zone_suffix z)) (normalize_name name).

Definition zone_lookup (z : ManagedZone) (name : string) (kind : RecordKind) : list DnsRecord :=
  let n := normalize_name name in
  filter (fun r => rec_kind r = kind /\ normalize_name (rec_name r) = n) (zone_records z).

(** ** Records of forwards ([srv.rs]) *)

Record SrvSource := mkSrvSource {
  src_service : string;
  src_transport : string;
  src_target : string;
  src_port : Z;
  src_priority : Z;
  src_weight : Z;
  src_ttl : Z;
  src_policy : AnswerPolicy;
  src_forward_id : option string
}.

Definition srv_record (zone : string) (s : SrvSource) : DnsRecord :=
  let owner := ("_" +:+ src_service s +:+ "._" +:+ src_transport s +:+ "." +:+ zone)%string in
  with_policy (src_policy s) (src_forward_id s) (record_srv owner (src_priority s) (src_weight s) (src_port s) (src_target s) (src_ttl s)).
Definition synthesize_srv_records (zone_suffix : string) (sources : list SrvSource) : list DnsRecord :=
  srv_record (normalize_name zone_suffix) <$> sources.

Record ForwardDnsSource := mkForwardDnsSource {
  fds_dns_names : list string;
  fds_addr : option IpAddr;
  fds_srv : option SrvSource;
  fds_ttl : Z;
  fds_policy : AnswerPolicy;
  fds_forward_id : option string
}.

Definition address_record (owner : string) (addr : IpAddr) (ttl : Z) : DnsRecord :=
  match addr with V4 a => record_a owner a ttl | V6 a => record_aaaa owner a ttl end.

Definition forward_records (zone_suffix : string) (f : ForwardDnsSource) : list DnsRecord :=
  let zone := normalize_name zone_suffix in
  match fds_addr f with
  | None => []
  | Some addr =>
      omap (fun name =>
        let owner := normalize_name name in
        if name_under zone owner then Some (with_policy (fds_policy f) (fds_forward_id f) (address_record owner addr (fds_ttl f))) else None)
        (fds_dns_names f)
  end ++
  match fds_srv f with Some srv => synthesize_srv_records zone_suffix [srv] | None => [] end.

Definition auto_records_from_forwards (zone_suffix : string) (forwards : list ForwardDnsSource) : list DnsRecord :=
  collect (forward_records zone_suffix) forwards.

(** ** Posture ([mode.rs], [forward_acl.rs]) *)

Inductive DnsMode := TransparentForwarder | SyntheticOnly.
#[export] Instance DnsMode_eq : EqDecision DnsMode.
Proof. solve_decision. Defined.

Definition DnsMode_from_config_str (s : string) : Result string (option DnsMode) :=
  let t := trim s in
  if (t =? "")%string || (t =? "transparent_forwarder")%string then Ok (Some TransparentForwarder)
  else if (t =? "synthetic_only")%string then Ok (Some SyntheticOnly)
  else if (t =? "disabled")%string || (t =? "hosts_file")%string then Ok None
  else Err t.

Inductive ForwardScope := LoopbackOnly | PrivateNetworks | ScopeAny.

(** [Ipv4Addr::is_private], [is_link_local]. *)
Definition v4_is_private (a : Z) : bool :=
  (octet a 0 =? 10) || ((octet a 0 =? 172) && between 16 31 (octet a 1)) || ((octet a 0 =? 192) && (octet a 1 =? 168)).
Definition v4_is_link_local (a : Z) : bool := (octet a 0 =? 169) && (octet a 1 =? 254).

Definition is_private (ip : IpAddr) : bool :=
  match ip with
  | V4 a => v4_is_private a || v4_is_link_local a
  | V6 a => (Z.land (group a 0) 0xfe00 =? 0xfc00) || (Z.land (group a 0) 0xffc0 =? 0xfe80)
  end.

Definition scope_allows (s : ForwardScope) (src : IpAddr) : bool :=
  match s with
  | ScopeAny => true
  | LoopbackOnly => is_loopback src
  | PrivateNetworks => is_loopback src || is_private src
  end.

(** ** The handler ([split_horizon.rs]) *)

Record ForwardHealth := mkForwardHealth { fh_listening : bool; fh_healthy : bool }.

(** A [HealthSource] at the time of a query. *)
Definition HealthSource : Type := string -> ForwardHealth.

Definition policy_passes (h : HealthSource) (r : DnsRecord) : bool :=
  match rec_policy r with
  | AlwaysAnswer => true
  | AnswerWhenListening => match rec_forward_id r with Some id => fh_listening (h id) | None => true end
  | AnswerWhenHealthy => match rec_forward_id r with Some id => fh_healthy (h id) | None => true end
  end.

Definition filter_by_policy (h : HealthSource) (l : list DnsRecord) : list DnsRecord := filter (fun r => policy_passes h r = true) l.

(** [String::from_utf8_lossy]: each maximal part of a sequence that cannot go on
    becomes U+FFFD. *)
Definition replacement : list Z := [0xEF; 0xBF; 0xBD].

Fixpoint utf8_lossy (l : list Z) : list Z :=
  match l with
  | [] => []
  | b :: r =>
      if b <? 0x80 then b :: utf8_lossy r
      else
        let bad := replacement ++ utf8_lossy r in
        if between 0xC2 0xDF b then
          match r with
          | c :: r' => if continuation c then b :: c :: utf8_lossy r' else bad
          | [] => bad
          end
        else if between 0xE0 0xEF b then
          match r with
          | c :: r' =>
              if between (if b =? 0xE0 then 0xA0 else 0x80) (if b =? 0xED then 0x9F else 0xBF) c then
                match r' with
                | d :: r'' => if continuation d then b :: c :: d :: utf8_lossy r'' else replacement ++ utf8_lossy r'
                | [] => replacement
                end
              else bad
          | [] => bad
          end
        else if between 0xF0 0xF4 b then
          match r with
          | c :: r' =>
              if between (if b =? 0xF0 then 0x90 else 0x80) (if b =? 0xF4 then 0x8F else 0xBF) c then
                match r' with
                | d :: r'' =>
                    if continuation d then
                      match r'' with
                      | e :: r3 => if continuation e then b :: c :: d :: e :: utf8_lossy r3 else replacement ++ utf8_lossy r''
                      | [] => replacement
                      end
                    else replacement ++ utf8_lossy r'
                | [] => replacement
                end
              else bad
          | [] => bad
          end
        else bad
  end.

(** [slice::chunks]. *)
Fixpoint chunks_fuel {A} (fuel n : nat) (l : list A) : list (list A) :=
  match fuel, l with
  | S fuel, _ :: _ => take n l :: chunks_fuel fuel n (drop n l)
  | _, _ => []
  end.
Definition chunks {A} (n : nat) (l : list A) : list (list A) := chunks_fuel (length l) n l.

Inductive RData := RdA (ip : Z) | RdAAAA (ip : Z) | RdSRV (priority weight port : Z) (target : string) | RdTXT (strings : list (list Z)) | RdOther (rtype : Z) (data : list Z).
Record ProtoRecord := mkProtoRecord { pr_name : string; pr_ttl : Z; pr_data : RData }.

Inductive ResponseCode := NoError | FormErr | ServFail | NXDomain | NotImp | Refused.

(** What is sent: a code alone, or answers with the authoritative bit. *)
Inductive Reply := SendSimple (c : ResponseCode) | SendAnswers (answers : list ProtoRecord) (authoritative : bool).

Record DnsRequest := mkDnsRequest { rq_is_query : bool; rq_query : option (string * Z); rq_src : IpAddr }.

(** The kind of a query type. *)
Definition kind_of_qtype (t : Z) : option RecordKind :=
  if t =? 1 then Some RkA else if t =? 28 then Some RkAAAA else if t =? 33 then Some RkSRV else if t =? 16 then Some RkTXT else None.

Section Handler.
(** [Name::from_utf8]. *)
Context (name_from_utf8 : string -> option string).

Record SplitHorizonHandler := mkSplitHorizonHandler {
  sh_zones : list ManagedZone;
  sh_upstream : option (string -> Z -> Result bool (list ProtoRecord));
  sh_health : HealthSource;
  sh_mode : DnsMode;
  sh_forward_scope : ForwardScope
}.

Definition matching_zone (h : SplitHorizonHandler) (name : string) : option ManagedZone := List.find (fun z => contains_name z name) (sh_zones h).

Definition build_answer (qname : string) (r : DnsRecord) : Result DnsError ProtoRecord :=
  let answer d := Ok (mkProtoRecord qname (wrap 32 (as_secs (rec_ttl r))) d) in
  match rec_kind r with
  | RkA => match parse_v4 (rec_value r) with Some ip => answer (RdA ip) | None => Err (InvalidValue RkA (rec_value r) "invalid IPv4 address syntax") end
  | RkAAAA => match parse_v6 (rec_value r) with Some ip => answer (RdAAAA ip) | None => Err (InvalidValue RkAAAA (rec_value r) "invalid IPv6 address syntax") end
  | RkSRV =>
      match srv_parts r with
      | None => Err (InvalidValue RkSRV (rec_value r) "malformed SRV value")
      | Some (p, w, port, target) =>
          match name_from_utf8 target with
          | None => Err (InvalidValue RkSRV (rec_value r) "invalid SRV target")
          | Some t => answer (RdSRV p w port t)
          end
      end
  | RkTXT => answer (RdTXT (utf8_lossy <$> chunks 255 (bytes_of (rec_value r))))
  end.

Fixpoint build_answers (qname : string) (l : list DnsRecord) : Result DnsError (list ProtoRecord) :=
  match l with
  | [] => Ok []
  | r :: l =>
      match build_answer qname r with
      | Err e => Err e
      | Ok a => match build_answers qname l with Err e => Err e | Ok out => Ok (a :: out) end
      end
  end.

(** The error of the upstream says whether it found no records. *)
Definition forward_to_upstream (up : string -> Z -> Result bool (list ProtoRecord)) (qname : string) (qtype : Z) : Reply :=
  match up qname qtype with
  | Ok records => SendAnswers records false
  | Err no_records => if no_records then SendSimple NXDomain else SendSimple ServFail
  end.

(** The reply, and whether the upstream was asked. *)
Definition handle_request (h : SplitHorizonHandler) (req : DnsRequest) : Reply * bool :=
  if negb (rq_is_query req) then (SendSimple NotImp, false)
  else
    match rq_query req with
    | None => (SendSimple FormErr, false)
    | Some (qname, qtype) =>
        match matching_zone h qname with
        | Some zone =>
            match kind_of_qtype qtype with
            | Some kind =>
                match filter_by_policy (sh_health h) (zone_lookup zone qname kind) with
                | [] => (SendSimple NXDomain, false)
                | filtered =>
                    match build_answers qname filtered with
                    | Ok answers => (SendAnswers answers true, false)
                    | Err _ => (SendSimple ServFail, false)
                    end
                end
            | None => (SendSimple NoError, false)
            end
        | None =>
            if bool_decide (sh_mode h = SyntheticOnly) then (SendSimple NXDomain, false)
            else
              match sh_upstream h with
              | Some up =>
                  if negb (scope_allows (sh_forward_scope h) (rq_src req)) then (SendSimple Refused, false)
                  else (forward_to_upstream up qname qtype, true)
              | None => (SendSimple Refused, false)
              end
        end
    end.
End Handler.

(** ** Lemmas: names *)

Lemma lower_cases a : lower a = a \/ (65 <= code a <= 90 /\ 97 <= code (lower a) <= 122).
Proof. destruct a as [[] [] [] [] [] [] [] []]; vm_compute; (by left) || (right; repeat split; congruence). Qed.

Lemma lower_lower a : lower (lower a) = lower a.
Proof. destruct a as [[] [] [] [] [] [] [] []]; reflexivity. Qed.

Lemma ascii_ws_lower a : ascii_ws (lower a) = ascii_ws a.
Proof. destruct a as [[] [] [] [] [] [] [] []]; reflexivity. Qed.

Lemma code_lower_eqb k a : 122 < k -> (code (lower a) =? k) = (code a =? k).
Proof. intros Hk. destruct (lower_cases a) as [->|[H1 H2]]; [done|]. rewrite (proj2 (Z.eqb_neq _ _)) by lia. symmetry. apply Z.eqb_neq. lia. Qed.

Lemma code_lower_leb k a : 122 < k -> (k <=? code (lower a)) = (k <=? code a).
Proof. intros Hk. destruct (lower_cases a) as [->|[H1 H2]]; [done|]. rewrite (proj2 (Z.leb_gt _ _)) by lia. symmetry. apply Z.leb_gt. lia. Qed.

Lemma code_lower_geb k a : 122 < k -> (code (lower a) <=? k) = (code a <=? k).
Proof. intros Hk. destruct (lower_cases a) as [->|[H1 H2]]; [done|]. rewrite (proj2 (Z.leb_le _ _)) by lia. symmetry. apply Z.leb_le. lia. Qed.

Lemma strip_ws_lower s : strip_ws (to_ascii_lowercase s) = to_ascii_lowercase <$> strip_ws s.
Proof.
  destruct s as [|a [|b [|c s]]]; cbn [to_ascii_lowercase strip_ws]; rewrite ?ascii_ws_lower, ?code_lower_eqb, ?code_lower_leb, ?code_lower_geb by lia;
    repeat (match goal with |- context [if ?x then _ else _] => destruct x end); done.
Qed.

Lemma ws_free_lower s : ws_free (to_ascii_lowercase s) = ws_free s.
Proof.
  induction s as [|a s IH]; [done|]. cbn [ws_free to_ascii_lowercase]. pose proof (strip_ws_lower (String a s)) as E. cbn [to_ascii_lowercase] in E.
  rewrite E. destruct (strip_ws (String a s)); [done|]. exact IH.
Qed.

Lemma lowercase_twice s : to_ascii_lowercase (to_ascii_lowercase s) = to_ascii_lowercase s.
Proof. induction s as [|a s IH]; [done|]. cbn. by rewrite lower_lower, IH. Qed.

Lemma ws_free_dot s : ws_free s = true -> ws_free (s +:+ ".") = true.
Proof.
  induction s as [|a s IH]; [done|]. intros Hs. apply ws_free_cons in Hs as [Ha Hs]. rewrite str_cons_app. cbn [ws_free].
  destruct (strip_ws (String a (s +:+ "."))) eqn:E; [|by apply IH]. exfalso. cbn [strip_ws] in Ha, E. destruct (ascii_ws a); [done|].
  destruct s as [|b s].
  - rewrite str_nil_app in E. cbn in E. rewrite andb_false_r in E. done.
  - rewrite str_cons_app in E. destruct ((code a =? 0xC2) && _); [done|]. destruct s as [|c s].
    + rewrite str_nil_app in E. vm_compute (code ".") in E. cbn in E. rewrite !andb_false_r in E. done.
    + rewrite str_cons_app in E. match type of Ha with (if ?x then _ else _) = _ => destruct x end; done.
Qed.

(** A name without blanks is normalised once. *)
Lemma normalize_free name : ws_free name = true ->
  normalize_name name = (if ends_with "." (to_ascii_lowercase name) then to_ascii_lowercase name else to_ascii_lowercase name +:+ ".")%string.
Proof. intros Hf. unfold normalize_name. by rewrite trim_free. Qed.

Lemma normalize_twice name : ws_free name = true -> normalize_name (normalize_name name) = normalize_name name.
Proof.
  intros Hf. assert (ws_free (normalize_name name) = true) as Hf'.
  { rewrite normalize_free by done. destruct (ends_with _ _); [by rewrite ws_free_lower|]. apply ws_free_dot. by rewrite ws_free_lower. }
  rewrite (normalize_free (normalize_name name) Hf'). rewrite normalize_free by done. destruct (ends_with "." (to_ascii_lowercase name)) eqn:E.
  - by rewrite lowercase_twice, E.
  - rewrite lowercase_app, lowercase_twice. cbn [to_ascii_lowercase]. change (lower ".") with "."%char. by rewrite ends_with_snoc.
Qed.

(** ** Lemmas: values *)

Lemma parse_v4_printed a : in_u 32 a -> parse_v4 (ipv4_to_string a) = Some a.
Proof.
  intros Ha. pose proof (parse_ipv4_printed a Ha) as H. unfold parse_ip, parse_v4 in *. destruct (read_ipv4 (ipv4_to_string a)) as [[x r]|].
  - destruct (r =? "")%string; [|done]. by injection H as ->.
  - destruct (read_ipv6 _) as [[x r]|]; [|done]. by destruct (r =? "")%string.
Qed.

Lemma split_ws_word s : ws_free s = true -> split_ws s = (s, None).
Proof.
  induction s as [|a s IH]; [done|]. intros Hs. apply ws_free_cons in Hs as [Ha Hs]. cbn [split_ws]. by rewrite Ha, (IH Hs).
Qed.

Lemma ws_pieces_app f h t : ws_free h = true -> ws_pieces (S f) (h +:+ String " " t) = h :: ws_pieces f t.
Proof. intros Hh. cbn [ws_pieces]. by rewrite split_ws_app. Qed.

(** The parts of a service record's value. *)
Lemma split_srv_value p w q t :
  in_u 16 p -> in_u 16 w -> in_u 16 q -> ws_free t = true -> t <> ""%string ->
  split_whitespace (srv_value p w q t) = [pretty p; pretty w; pretty q; t].
Proof.
  intros Hp Hw Hq Ht Hne. unfold split_whitespace.
  destruct (parse_uint_word _ _ _ (parse_uint_pretty 16 p Hp)) as [Fp Np], (parse_uint_word _ _ _ (parse_uint_pretty 16 w Hw)) as [Fw Nw],
    (parse_uint_word _ _ _ (parse_uint_pretty 16 q Hq)) as [Fq Nq].
  assert (exists f, S (String.length (srv_value p w q t)) = S (S (S (S f)))) as [f ->].
  { unfold srv_value. rewrite !string_length_app. cbn [String.length]. eexists. rewrite <- !plus_n_Sm. cbn [plus]. reflexivity. }
  unfold srv_value. rewrite !(str_cons_app " " ""), !str_nil_app. rewrite !ws_pieces_app by done.
  assert (ws_pieces (S f) t = [t]) as -> by (cbn [ws_pieces]; by rewrite split_ws_word).
  cbn [List.filter]. by rewrite !(proj2 (String.eqb_neq _ _)) by done.
Qed.

Lemma srv_round_trip name p w q t ttl :
  in_u 16 p -> in_u 16 w -> in_u 16 q -> ws_free t = true -> t <> ""%string ->
  srv_parts (record_srv name p w q t ttl) = Some (p, w, q, t) /\ record_validate (record_srv name p w q t ttl) = Ok tt.
Proof.
  intros Hp Hw Hq Ht Hne. unfold srv_parts, record_validate, record_srv. cbn [rec_kind rec_value]. rewrite split_srv_value by done.
  cbn [check_numbers]. by rewrite !parse_uint_pretty by done.
Qed.

(** ** Validity *)

Definition valid_zone (z : ManagedZone) : Prop := Forall (fun r => record_validate r = Ok tt) (zone_records z).

Lemma zone_add_valid r z z' : valid_zone z -> zone_add r z = Ok z' -> valid_zone z' /\ zone_records z' = zone_records z ++ [r].
Proof.
  intros Hz. unfold zone_add. destruct (record_validate r) as [[]|] eqn:E; [|done]. intros [= <-]. split; [|done]. apply Forall_app. split; [done|by constructor].
Qed.

(** The records a query selects in a zone. *)
Definition selected (h : SplitHorizonHandler) (z : ManagedZone) (qname : string) (kind : RecordKind) : list DnsRecord :=
  filter_by_policy (sh_health h) (zone_lookup z qname kind).

Lemma elem_of_selected h z qname kind r :
  r ∈ selected h z qname kind <->
  r ∈ zone_records z /\ rec_kind r = kind /\ normalize_name (rec_name r) = normalize_name qname /\ policy_passes (sh_health h) r = true.
Proof. unfold selected, filter_by_policy, zone_lookup. rewrite !list_elem_of_filter. naive_solver. Qed.

(** ** Specification of the horizon *)

(** The labels of a name; one dot at the end says nothing. *)
Definition without_dot (s : string) : string := default s (strip_suffix "." s).
Definition labels (name : string) : list string := split_on "." (without_dot (trim name)).

(** Labels are compared without regard to the case of ASCII letters. *)
Definition same_label (a b : string) : Prop := to_ascii_lowercase a = to_ascii_lowercase b.
Definition same_name (a b : string) : Prop := Forall2 same_label (labels a) (labels b).

(** A name belongs to a zone when its last labels are the labels of the zone. *)
Definition belongs (zone name : string) : Prop := exists host l, labels name = host ++ l /\ Forall2 same_label l (labels zone).

(** An address lies in a network given by the first [len] of its [w] bits. *)
Definition in_net (w len prefix a : Z) : Prop := a / 2 ^ (w - len) = prefix.

(** 127.0.0.0/8 and ::1; 10/8, 172.16/12, 192.168/16, 169.254/16, fc00::/7 and
    fe80::/10. *)
Definition loopback_client (ip : IpAddr) : Prop := match ip with V4 a => in_net 32 8 127 a | V6 a => a = 1 end.
Definition private_client (ip : IpAddr) : Prop :=
  match ip with
  | V4 a => in_net 32 8 10 a \/ in_net 32 12 0xAC1 a \/ in_net 32 16 0xC0A8 a \/ in_net 32 16 0xA9FE a
  | V6 a => in_net 128 7 0x7E a \/ in_net 128 10 0x3FA a
  end.
Definition in_scope (s : ForwardScope) (ip : IpAddr) : Prop :=
  match s with
  | LoopbackOnly => loopback_client ip
  | PrivateNetworks => loopback_client ip \/ private_client ip
  | ScopeAny => True
  end.
Definition ip_ok (ip : IpAddr) : Prop := match ip with V4 a => in_u 32 a | V6 a => in_u 128 a end.

(** A record is answered always, or while the forward it belongs to, if it
    belongs to one, listens or is healthy. *)
Definition answerable (h : HealthSource) (r : DnsRecord) : Prop :=
  forall id, rec_forward_id r = Some id ->
    (rec_policy r = AnswerWhenListening -> fh_listening (h id) = true) /\ (rec_policy r = AnswerWhenHealthy -> fh_healthy (h id) = true).

(** The elements of a list that satisfy a predicate, in order. *)
Inductive picks {A} (P : A -> Prop) : list A -> list A -> Prop :=
| picks_nil : picks P [] []
| picks_take x l l' : P x -> picks P l l' -> picks P (x :: l) (x :: l')
| picks_skip x l l' : ~ P x -> picks P l l' -> picks P (x :: l) l'.

Definition wanted (h : SplitHorizonHandler) (qname : string) (kind : RecordKind) (r : DnsRecord) : Prop :=
  rec_kind r = kind /\ same_name (rec_name r) qname /\ answerable (sh_health h) r.

(** The first zone a name belongs to. *)
Definition managed_by (h : SplitHorizonHandler) (qname : string) (z : ManagedZone) : Prop :=
  exists before after, sh_zones h = before ++ z :: after /\ belongs (zone_suffix z) qname /\ Forall (fun z => ~ belongs (zone_suffix z) qname) before.
Definition unmanaged (h : SplitHorizonHandler) (qname : string) : Prop := Forall (fun z => ~ belongs (zone_suffix z) qname) (sh_zones h).

(** *** The code's predicates are these *)

Lemma split_on_append c p x : split_on c (p +:+ String c x) = split_on c p ++ split_on c x.
Proof.
  induction p as [|a p IH]; [rewrite str_nil_app|rewrite str_cons_app]; cbn [split_on].
  - pose proof (split_on_nonempty c x). destruct (split_on c x); [done|]. by rewrite Ascii.eqb_refl.
  - rewrite IH. pose proof (split_on_nonempty c p). destruct (split_on c p) as [|h t]; [done|]. cbn. by destruct (Ascii.eqb a c).
Qed.

Lemma split_on_uncons c y h t : split_on c y = h :: t -> (t = [] /\ y = h) \/ exists y', y = (h +:+ String c y')%string /\ split_on c y' = t.
Proof.
  revert h t. induction y as [|a y IH]; intros h t; cbn [split_on]; [intros [= <- <-]; by left|].
  destruct (split_on c y) as [|h0 t0] eqn:E; [done|]. destruct (Ascii.eqb_spec a c) as [->|Hn].
  - intros [= <- <-]. right. by exists y.
  - intros [= <- <-]. destruct (IH _ _ eq_refl) as [[-> ->]|(y' & -> & E')]; [by left|]. right. exists y'. by rewrite str_cons_app.
Qed.

Lemma split_on_inj c x y : split_on c x = split_on c y -> x = y.
Proof.
  remember (split_on c x) as l eqn:E. revert x y E. induction l as [|h t IH]; intros x y E E'; [by destruct (split_on_nonempty c x)|].
  symmetry in E, E'. apply split_on_uncons in E as [[Ht ->]|(x' & -> & Ex)], E' as [[Ht' ->]|(y' & -> & Ey)]; try done.
  - subst t. by destruct (split_on_nonempty c y').
  - subst t. by destruct (split_on_nonempty c x').
  - by rewrite (IH x' y') by congruence.
Qed.

Lemma split_on_suffix c x y : (exists host, split_on c y = host ++ split_on c x) <-> y = x \/ exists p, y = (p +:+ String c x)%string.
Proof.
  split.
  - intros [host E]. revert y E. induction host as [|h host IH]; intros y E; [left; by apply (split_on_inj c)|]. cbn in E.
    apply split_on_uncons in E as [[E _]|(y' & -> & E)]; [pose proof (split_on_nonempty c x); by destruct host, (split_on c x)|]. right.
    apply IH in E as [->|[p ->]]; [by exists h|]. exists (h +:+ String c p)%string. by rewrite str_app_assoc, str_cons_app.
  - intros [->|[p ->]]; [by exists []|]. exists (split_on c p). apply split_on_append.
Qed.

Lemma split_on_lower s : split_on "." (to_ascii_lowercase s) = to_ascii_lowercase <$> split_on "." s.
Proof.
  induction s as [|a s IH]; [done|]. cbn [to_ascii_lowercase split_on]. rewrite IH. destruct (split_on "." s); [done|]. cbn [fmap list_fmap].
  destruct a as [[] [] [] [] [] [] [] []]; reflexivity.
Qed.

Lemma ends_with_lower s : ends_with "." (to_ascii_lowercase s) = ends_with "." s.
Proof.
  induction s as [|a s IH]; [done|]. destruct s as [|b s]; [|exact IH]. destruct a as [[] [] [] [] [] [] [] []]; reflexivity.
Qed.

Lemma ends_with_split c s : ends_with c s = true -> exists h, s = (h +:+ String c "")%string.
Proof.
  induction s as [|a s IH]; [done|]. destruct s as [|b s]; [intros ->%Ascii.eqb_eq; by exists ""%string|].
  intros [h Hh]%IH. exists (String a h). by rewrite Hh, str_cons_app.
Qed.

Lemma normalize_labels name : normalize_name name = (to_ascii_lowercase (without_dot (trim name)) +:+ ".")%string.
Proof.
  unfold normalize_name, without_dot. destruct (strip_suffix "." (trim name)) as [h|] eqn:E; cbn [default].
  - apply strip_suffix_spec in E. rewrite E, lowercase_app. cbn [to_ascii_lowercase]. change (lower ".") with "."%char. by rewrite ends_with_snoc.
  - destruct (ends_with "." (to_ascii_lowercase (trim name))) eqn:Ee; [|done]. exfalso. rewrite ends_with_lower in Ee. apply ends_with_split in Ee as [h Eh].
    apply strip_suffix_spec in Eh. congruence.
Qed.

Lemma same_labels l l' : Forall2 same_label l l' <-> to_ascii_lowercase <$> l = to_ascii_lowercase <$> l'.
Proof.
  revert l'. induction l as [|x l IH]; intros [|y l']; cbn; try (split; [by inversion 1|done]).
  rewrite Forall2_cons, IH. unfold same_label. split; [intros [-> ->]; done|by intros [= -> ->]].
Qed.

Lemma same_name_spec a b : same_name a b <-> normalize_name a = normalize_name b.
Proof.
  unfold same_name, labels. rewrite same_labels, <- !split_on_lower, !normalize_labels. split; [by intros ->%split_on_inj|].
  intros E. apply (f_equal (strip_suffix ".")) in E. rewrite !(proj2 (strip_suffix_spec "." _ _) eq_refl) in E. by injection E as ->.
Qed.

Lemma belongs_spec z name : belongs (zone_suffix z) name <-> contains_name z name = true.
Proof.
  set (x := to_ascii_lowercase (without_dot (trim (zone_suffix z)))). set (y := to_ascii_lowercase (without_dot (trim name))).
  assert (belongs (zone_suffix z) name <-> y = x \/ exists p, y = (p +:+ String "." x)%string) as ->.
  { rewrite <- (split_on_suffix "." x y). unfold belongs, labels, x, y. rewrite !split_on_lower. split.
    - intros (host & l & -> & Hl%same_labels). exists (to_ascii_lowercase <$> host). by rewrite fmap_app, Hl.
    - intros [host E]. apply fmap_app_inv in E as (h & l & -> & Hl & ->). exists h, l. split; [done|]. by apply same_labels. }
  unfold contains_name, name_under. rewrite !normalize_labels. fold x y. rewrite orb_true_iff, String.eqb_eq, bool_decide_eq_true. split.
  - intros [->|[p ->]]; [by left|]. right. exists p. apply strip_suffix_spec. by rewrite str_app_assoc, str_cons_app.
  - intros [E|[p E%strip_suffix_spec]].
    + left. apply (f_equal (strip_suffix ".")) in E. rewrite !(proj2 (strip_suffix_spec "." _ _) eq_refl) in E. by injection E.
    + right. exists p. change (String "." (x +:+ ".")) with (String "." x +:+ ".")%string in E. rewrite <- str_app_assoc in E.
      apply (f_equal (strip_suffix ".")) in E. rewrite !(proj2 (strip_suffix_spec "." _ _) eq_refl) in E. by injection E.
Qed.

Lemma belongs_not z name : ~ belongs (zone_suffix z) name <-> contains_name z name = false.
Proof. rewrite belongs_spec. apply not_true_iff_false. Qed.

Lemma matching_some h qname z : matching_zone h qname = Some z <-> managed_by h qname z.
Proof.
  unfold matching_zone, managed_by. induction (sh_zones h) as [|z0 l IH]; cbn [List.find].
  { split; [done|]. intros (b & a & E & _). by destruct b. }
  destruct (contains_name z0 qname) eqn:Ec.
  - split; [intros [= <-]; exists [], l; split; [done|]; split; [by apply belongs_spec|constructor]|].
    intros (b & a & E & _ & Hb). destruct b as [|z1 b]; [by injection E as <-|]. injection E as <- _. apply Forall_cons in Hb as [Hb%belongs_not _]. congruence.
  - rewrite IH. split.
    + intros (b & a & -> & Hz & Hb). exists (z0 :: b), a. split; [done|]. split; [done|]. constructor; [by apply belongs_not|done].
    + intros (b & a & E & Hz & Hb). destruct b as [|z1 b]; injection E as <- E; [apply belongs_spec in Hz; congruence|]. apply Forall_cons in Hb as [_ Hb]. by exists b, a.
Qed.

Lemma matching_none h qname : matching_zone h qname = None <-> unmanaged h qname.
Proof.
  unfold matching_zone, unmanaged. induction (sh_zones h) as [|z l IH]; cbn [List.find]; [done|]. rewrite Forall_cons, belongs_not, <- IH.
  destruct (contains_name z qname); [by split; [|intros []]|]. by split; [|intros []].
Qed.

(** A mask of the upper bits keeps what a division keeps. *)
Lemma land_high g w k : 0 <= k <= w -> 0 <= g < 2 ^ w -> Z.land g (Z.shiftl (Z.ones (w - k)) k) = Z.shiftl (g / 2 ^ k) k.
Proof.
  intros Hk Hg. rewrite <- Z.shiftr_div_pow2 by lia. apply Z.bits_inj'. intros i Hi. rewrite Z.land_spec, !Z.shiftl_spec by done.
  destruct (Z.lt_ge_cases i k) as [Hlt|Hge]; [rewrite !(Z.testbit_neg_r _ (i - k)) by lia; apply andb_false_r|].
  rewrite Z.shiftr_spec by lia. replace (i - k + k) with i by lia. destruct (Z.lt_ge_cases i w) as [Hlt|Hw].
  - rewrite Z.ones_spec_low by lia. apply andb_true_r.
  - rewrite <- (Z.mod_small g (2 ^ w)) by done. by rewrite Z.mod_pow2_bits_high by lia.
Qed.

Lemma high_bits g w k c : 0 <= k <= w -> 0 <= g < 2 ^ w -> (Z.land g (Z.shiftl (Z.ones (w - k)) k) =? Z.shiftl c k) = (g / 2 ^ k =? c).
Proof.
  intros Hk Hg. rewrite land_high by done. rewrite !Z.shiftl_mul_pow2 by lia. assert (0 < 2 ^ k) by (apply Z.pow_pos_nonneg; lia).
  destruct (Z.eqb_spec (g / 2 ^ k) c) as [->|Hn]; [apply Z.eqb_refl|]. apply Z.eqb_neq. nia.
Qed.

Lemma octet_div a i : i <= 3 -> octet a i = (a / 2 ^ (8 * (3 - i))) mod 2 ^ 8.
Proof. intros Hi. unfold octet. change 0xFF with (Z.ones 8). by rewrite Z.land_ones, Z.shiftr_div_pow2 by lia. Qed.

Lemma loopback_spec ip : ip_ok ip -> loopback_client ip <-> is_loopback ip = true.
Proof.
  destruct ip as [a|a]; cbn [ip_ok loopback_client is_loopback]; rewrite Z.eqb_eq; [|done]. unfold in_u, in_net, umax. intros Ha.
  rewrite octet_div by lia. change (8 * (3 - 0)) with 24. change (32 - 8) with 24. rewrite Z.mod_small; [done|]. split; [apply Z.div_pos; lia|]. apply Z.div_lt_upper_bound; lia.
Qed.

Lemma private_v4 a : in_u 32 a -> private_client (V4 a) <-> is_private (V4 a) = true.
Proof.
  unfold in_u, umax, private_client, is_private, v4_is_private, v4_is_link_local, in_net, between. intros Ha. rewrite !octet_div by lia.
  rewrite !orb_true_iff, !andb_true_iff, !Z.eqb_eq, !Z.leb_le.
  change (8 * (3 - 0)) with 24. change (8 * (3 - 1)) with 16. change (32 - 8) with 24. change (32 - 12) with 20. change (32 - 16) with 16.
  change (2 ^ 24) with 16777216. change (2 ^ 20) with 1048576. change (2 ^ 16) with 65536. change (2 ^ 8) with 256. change (2 ^ 32) with 4294967296 in Ha.
  Z.to_euclidean_division_equations. lia.
Qed.

Lemma private_v6 a : in_u 128 a -> private_client (V6 a) <-> is_private (V6 a) = true.
Proof.
  unfold in_u, umax, private_client, is_private, in_net. intros Ha. assert (group a 0 = a / 2 ^ 112) as ->.
  { unfold group. change 0xFFFF with (Z.ones 16). rewrite Z.land_ones, Z.shiftr_div_pow2 by lia. change (16 * (7 - 0)) with 112. apply Z.mod_small.
    split; [apply Z.div_pos; lia|]. apply Z.div_lt_upper_bound; lia. }
  assert (0 <= a / 2 ^ 112 < 2 ^ 16) as Hg. { split; [apply Z.div_pos; lia|]. apply Z.div_lt_upper_bound; lia. }
  rewrite orb_true_iff. change 0xfe00 with (Z.shiftl (Z.ones (16 - 9)) 9). change 0xfc00 with (Z.shiftl 0x7E 9). change 0xffc0 with (Z.shiftl (Z.ones (16 - 6)) 6).
  change 0xfe80 with (Z.shiftl 0x3FA 6). rewrite !high_bits, !Z.eqb_eq, !Z.div_div by lia. done.
Qed.

Lemma scope_spec s ip : ip_ok ip -> in_scope s ip <-> scope_allows s ip = true.
Proof.
  intros Hip. assert (private_client ip <-> is_private ip = true) as Hp by (destruct ip; [by apply private_v4|by apply private_v6]).
  destruct s; cbn [in_scope scope_allows]; rewrite ?orb_true_iff, ?(loopback_spec ip Hip), ?Hp; done.
Qed.

Lemma answerable_spec h r : answerable h r <-> policy_passes h r = true.
Proof.
  unfold answerable, policy_passes. destruct (rec_policy r), (rec_forward_id r) as [id|]; try naive_solver.
Qed.

(** A filter picks. *)
Lemma filter_picks {A} (P Q : A -> Prop) `{!forall x, Decision (Q x)} l : (forall x, P x <-> Q x) -> picks P l (filter Q l).
Proof.
  intros He. induction l as [|x l IH]; [constructor|]. destruct (decide (Q x)) as [Hq|Hq].
  - rewrite filter_cons_True by done. constructor; [by apply He|done].
  - rewrite filter_cons_False by done. constructor; [by rewrite He|done].
Qed.

Lemma picks_filter {A} (P : A -> Prop) (l l1 l2 : list A) : picks P l l1 -> picks P l l2 -> l1 = l2.
Proof. intros H1. revert l2. induction H1; intros l2 H2; inversion H2; subst; try done; f_equal; auto. Qed.

Lemma selected_picks h z qname kind : picks (wanted h qname kind) (zone_records z) (selected h z qname kind).
Proof.
  unfold selected, filter_by_policy, zone_lookup. rewrite list_filter_filter. apply filter_picks. intros r. unfold wanted. rewrite answerable_spec, same_name_spec. naive_solver.
Qed.

Section HandlerProofs.
Context (name_from_utf8 : string -> option string).

(** The only way a validated record has no answer. *)
Definition bad_target (r : DnsRecord) : Prop := exists p w q t, srv_parts r = Some (p, w, q, t) /\ name_from_utf8 t = None.

Lemma check_numbers_ok value l : check_numbers value l = Ok tt -> Forall (fun x => is_Some (parse_uint 16 x.2)) l.
Proof.
  induction l as [|[label part] l IH]; [constructor|]. cbn. destruct (parse_uint 16 part) eqn:E; [|done]. intros Hc. constructor; [by eexists|by apply IH].
Qed.

Lemma valid_answer qname r : record_validate r = Ok tt -> (exists a, build_answer name_from_utf8 qname r = Ok a) \/ bad_target r.
Proof.
  unfold record_validate, build_answer, bad_target, srv_parts. destruct (rec_kind r).
  - destruct (parse_v4 _); [|done]. eauto.
  - destruct (parse_v6 _); [|done]. eauto.
  - destruct (split_whitespace (rec_value r)) as [|p [|w [|q [|t [|? ?]]]]]; try done. intros Hc.
    apply check_numbers_ok in Hc. apply Forall_cons in Hc as [[np Hp] Hc]. apply Forall_cons in Hc as [[nw Hw] Hc]. apply Forall_cons in Hc as [[nq Hq] _].
    cbn [snd] in Hp, Hw, Hq. rewrite Hp, Hw, Hq. cbn [mbind option_bind]. destruct (name_from_utf8 t) eqn:Et; [left; eauto|]. right. by exists np, nw, nq, t.
  - eauto.
Qed.

Lemma build_answers_ok qname l out : build_answers name_from_utf8 qname l = Ok out <-> Forall2 (fun r a => build_answer name_from_utf8 qname r = Ok a) l out.
Proof.
  revert out. induction l as [|r l IH]; intros out; cbn [build_answers].
  - split; [intros [= <-]; constructor|by inversion 1].
  - destruct (build_answer name_from_utf8 qname r) as [a|e] eqn:Ea.
    + destruct (build_answers name_from_utf8 qname l) as [o|e].
      * split; [intros [= <-]; constructor; [done|by apply IH]|]. inversion 1 as [|? b ? o' Hb Ho]; subst. apply IH in Ho. congruence.
      * split; [done|]. inversion 1 as [|? b ? o' Hb Ho]; subst. by apply IH in Ho.
    + split; [done|]. inversion 1; subst. congruence.
Qed.

Lemma build_answers_err qname l e : build_answers name_from_utf8 qname l = Err e -> exists r, r ∈ l /\ exists e', build_answer name_from_utf8 qname r = Err e'.
Proof.
  induction l as [|r l IH]; [done|]. cbn [build_answers]. destruct (build_answer name_from_utf8 qname r) as [a|e'] eqn:Ea.
  - destruct (build_answers name_from_utf8 qname l); [done|]. intros H. destruct (IH H) as (x & Hx & He). exists x. split; [by right|done].
  - intros _. exists r. split; [by left|by eexists].
Qed.

(** What an answer says of a record: its name as it was asked, its lifetime in
    seconds and its value in the form of its type. *)
Definition says (qname : string) (r : DnsRecord) (a : ProtoRecord) : Prop :=
  pr_name a = qname /\ pr_ttl a = wrap 32 (as_secs (rec_ttl r)) /\
  match rec_kind r, pr_data a with
  | RkA, RdA ip => parse_v4 (rec_value r) = Some ip
  | RkAAAA, RdAAAA ip => parse_v6 (rec_value r) = Some ip
  | RkSRV, RdSRV p w port t => exists target, srv_parts r = Some (p, w, port, target) /\ name_from_utf8 target = Some t
  | RkTXT, RdTXT l => l = utf8_lossy <$> chunks 255 (bytes_of (rec_value r))
  | _, _ => False
  end.

Lemma build_says qname r a : build_answer name_from_utf8 qname r = Ok a -> says qname r a.
Proof.
  unfold build_answer, says. destruct (rec_kind r).
  - destruct (parse_v4 _); [|done]. by intros [= <-].
  - destruct (parse_v6 _); [|done]. by intros [= <-].
  - destruct (srv_parts r) as [[[[p w] q] t]|]; [|done]. destruct (name_from_utf8 t) eqn:Et; [|done]. intros [= <-]. cbn. eauto 6.
  - by intros [= <-].
Qed.

Lemma build_answers_says qname l out : build_answers name_from_utf8 qname l = Ok out -> Forall2 (says qname) l out.
Proof. intros Hb. eapply Forall2_impl; [by apply build_answers_ok|]. intros r a. apply build_says. Qed.

(** The answer to a query of a managed name. *)
Definition managed_reply (h : SplitHorizonHandler) (z : ManagedZone) (qname : string) (qtype : Z) (reply : Reply) : Prop :=
  match kind_of_qtype qtype with
  | None => reply = SendSimple NoError
  | Some kind =>
      exists l, picks (wanted h qname kind) (zone_records z) l /\
      ((l = [] /\ reply = SendSimple NXDomain) \/
       (l <> [] /\ exists answers, reply = SendAnswers answers true /\ Forall2 (says qname) l answers) \/
       (reply = SendSimple ServFail /\ (valid_zone z -> exists r, r ∈ l /\ bad_target r)))
  end.

Lemma managed_handled h qname qtype z src :
  matching_zone h qname = Some z ->
  exists reply, handle_request name_from_utf8 h (mkDnsRequest true (Some (qname, qtype)) src) = (reply, false) /\ managed_reply h z qname qtype reply.
Proof.
  intros Ez. unfold handle_request, managed_reply. cbn [rq_is_query rq_query negb]. rewrite Ez. destruct (kind_of_qtype qtype) as [kind|]; [|eauto].
  fold (selected h z qname kind). pose proof (selected_picks h z qname kind) as Hp. destruct (selected h z qname kind) as [|r0 l] eqn:Es; [eauto 10|].
  destruct (build_answers name_from_utf8 qname (r0 :: l)) as [out|e] eqn:Eb; (eexists; split; [done|]); exists (r0 :: l); (split; [done|]); right.
  - left. split; [done|]. exists out. split; [done|]. by apply build_answers_says.
  - right. split; [done|]. intros Hv. apply build_answers_err in Eb as (r & Hr & e' & He). exists r. split; [done|]. rewrite <- Es in Hr. apply elem_of_selected in Hr as (Hr & _).
    destruct (valid_answer qname r) as [[a Ha]|Hb]; [by apply (proj1 (Forall_forall _ _) Hv)|congruence|done].
Qed.

(** C29: Whatever the request, for a client with an IP address: the upstream
    resolver is asked exactly for queries of names that belong to no zone (their
    last labels, compared without case and without a final dot, are not those of
    a zone), in forwarding mode, with an upstream and from a client the scope
    covers (127/8 and ::1; for private networks also 10/8, 172.16/12, 192.168/16,
    169.254/16, fc00::/7 and fe80::/10), so the names of a managed zone never
    leave.  A query of a name that belongs to a zone is answered from the first
    such zone: with its records of that name and type whose policy passes now,
    in order, authoritatively; with NXDOMAIN when there is none; with a failure,
    if the records of the zone are valid, only because the target of a service
    record is not a name.  Nothing else is authoritative. *)
Theorem split_horizon_exact (h : SplitHorizonHandler) (req : DnsRequest) :
  ip_ok (rq_src req) ->
  let '(reply, asked) := handle_request name_from_utf8 h req in
  (asked = true <-> rq_is_query req = true /\ exists qname qtype up, rq_query req = Some (qname, qtype) /\ unmanaged h qname /\
                    sh_mode h = TransparentForwarder /\ sh_upstream h = Some up /\ in_scope (sh_forward_scope h) (rq_src req)) /\
  (forall qname qtype z, rq_is_query req = true -> rq_query req = Some (qname, qtype) -> managed_by h qname z -> managed_reply h z qname qtype reply) /\
  (forall answers, reply = SendAnswers answers true -> exists qname qtype z, rq_query req = Some (qname, qtype) /\ managed_by h qname z).
Proof.
  destruct req as [isq query src]. cbn [rq_src rq_is_query rq_query]. intros Hip. destruct isq; [|split; [naive_solver|split; naive_solver]].
  destruct query as [[qname qtype]|]; [|split; [naive_solver|split; naive_solver]].
  destruct (matching_zone h qname) as [z|] eqn:Ez.
  - destruct (managed_handled h qname qtype z src Ez) as (reply & -> & Hr). split_and!.
    + split; [done|]. intros (_ & q & t & up & [= <- <-] & Hu%matching_none & _). congruence.
    + intros q t z' _ [= <- <-] Hz%matching_some. by replace z' with z by congruence.
    + intros _ _. exists qname, qtype, z. split; [done|]. by apply matching_some.
  - assert (forall z, ~ managed_by h qname z) as Hno by (intros z Hz%matching_some; congruence). assert (unmanaged h qname) as Hu by by apply matching_none.
    unfold handle_request. cbn [rq_is_query rq_query rq_src negb]. rewrite Ez. pose proof (scope_spec (sh_forward_scope h) src Hip) as Hs.
    destruct (sh_mode h) eqn:Em; (rewrite bool_decide_eq_false_2 by done) || (rewrite bool_decide_eq_true_2 by done); [|split; [naive_solver|split; naive_solver]].
    destruct (sh_upstream h) as [up|]; [|split; [naive_solver|split; naive_solver]].
    destruct (scope_allows (sh_forward_scope h) src); cbn [negb]; [|split; [naive_solver|split; naive_solver]].
    split; [split; [|done]; intros _; split; [done|]; exists qname, qtype, up; naive_solver|]. unfold forward_to_upstream. split; [naive_solver|].
    intros answers. destruct (up qname qtype) as [?|[]]; naive_solver.
Qed.
End HandlerProofs.

(** ** Records of forwards are answered *)

Definition addr_ok (f : ForwardDnsSource) : Prop := match fds_addr f with Some (V4 a) => in_u 32 a | _ => True end.

(** An address record of a forward. *)
Definition auto_address (f : ForwardDnsSource) (name : string) (a : Z) : DnsRecord :=
  with_policy (fds_policy f) (fds_forward_id f) (record_a (normalize_name name) a (fds_ttl f)).

Lemma auto_address_in suffix fs f name a :
  f ∈ fs -> fds_addr f = Some (V4 a) -> name ∈ fds_dns_names f -> name_under (normalize_name suffix) (normalize_name name) = true ->
  auto_address f name a ∈ auto_records_from_forwards suffix fs.
Proof.
  intros Hf Ha Hn Hz. apply list_elem_of_bind. exists f. split; [|done]. unfold forward_records. rewrite Ha. apply elem_of_app. left.
  apply list_elem_of_omap. exists name. split; [done|]. cbn. by rewrite Hz.
Qed.

(** The synthesised address records of the first family are valid. *)
Lemma auto_records_a suffix fs r :
  Forall addr_ok fs -> r ∈ auto_records_from_forwards suffix fs -> rec_kind r = RkA -> record_validate r = Ok tt.
Proof.
  intros Hok Hr Hk. apply list_elem_of_bind in Hr as (f & Hr & Hf). pose proof (proj1 (Forall_forall _ _) Hok f Hf) as Ha. unfold addr_ok in Ha.
  unfold forward_records in Hr. apply elem_of_app in Hr as [Hr|Hr].
  - destruct (fds_addr f) as [[a|a]|]; [| |by apply list_elem_of_In in Hr].
    + apply list_elem_of_omap in Hr as (name & _ & E). destruct (name_under _ _); [|done]. injection E as <-. unfold record_validate. cbn. by rewrite parse_v4_printed.
    + apply list_elem_of_omap in Hr as (name & _ & E). destruct (name_under _ _); [|done]. injection E as <-. done.
  - destruct (fds_srv f); [|by apply list_elem_of_In in Hr]. apply list_elem_of_singleton in Hr as ->. done.
Qed.

Section AutoRecords.
Context (name_from_utf8 : string -> option string).

(** With automatic records, a name a forward declares inside the zone is
    answered with the address of the forward's listener whenever the record's
    policy passes, whatever other validated records the zone has and however the
    client writes the case and the final dot of the name. *)
Theorem auto_record_answered suffix own fs f name a (h : SplitHorizonHandler) src qname :
  Forall (fun r => record_validate r = Ok tt) own -> Forall addr_ok fs ->
  f ∈ fs -> fds_addr f = Some (V4 a) -> name ∈ fds_dns_names f -> ws_free name = true ->
  name_under (normalize_name suffix) (normalize_name name) = true ->
  sh_zones h = [mkManagedZone suffix (own ++ auto_records_from_forwards suffix fs)] ->
  policy_passes (sh_health h) (auto_address f name a) = true ->
  normalize_name qname = normalize_name name ->
  exists answers, handle_request name_from_utf8 h (mkDnsRequest true (Some (qname, 1)) src) = (SendAnswers answers true, false) /\
    mkProtoRecord qname (wrap 32 (as_secs (fds_ttl f))) (RdA a) ∈ answers.
Proof.
  intros Hown Hok Hf Ha Hname Hfree Hunder Hz Hpol Hq. set (z := mkManagedZone suffix (own ++ auto_records_from_forwards suffix fs)) in *.
  assert (matching_zone h qname = Some z) as Em. { unfold matching_zone. rewrite Hz. cbn. unfold contains_name. cbn. by rewrite Hq, Hunder. }
  assert (auto_address f name a ∈ selected h z qname RkA) as Hin.
  { apply elem_of_selected. split; [apply elem_of_app; right; by apply auto_address_in|]. split; [done|]. split; [|done].
    cbn [rec_name auto_address with_policy record_a]. rewrite Hq. by apply normalize_twice. }
  assert (forall r, r ∈ selected h z qname RkA -> exists x, build_answer name_from_utf8 qname r = Ok x) as Hall.
  { intros r Hr. apply elem_of_selected in Hr as (Hr & Hk & _). assert (record_validate r = Ok tt) as Hv.
    { apply elem_of_app in Hr as [Hr|Hr]; [by apply (proj1 (Forall_forall _ _) Hown)|by eapply auto_records_a]. }
    destruct (valid_answer name_from_utf8 qname r Hv) as [Hb|(p & w & q & t & Hs & _)]; [done|]. unfold srv_parts in Hs. by rewrite Hk in Hs. }
  unfold handle_request. cbn [rq_is_query rq_query negb]. rewrite Em. change (kind_of_qtype 1) with (Some RkA). cbn iota. fold (selected h z qname RkA).
  destruct (build_answers name_from_utf8 qname (selected h z qname RkA)) as [out|e] eqn:Eb.
  - exists out. split; [destruct (selected h z qname RkA) eqn:Es; [by apply not_elem_of_nil in Hin|by rewrite Eb]|].
    apply build_answers_ok in Eb. apply list_elem_of_lookup_1 in Hin as [i Hi]. destruct (Forall2_lookup_l _ _ _ _ _ Eb Hi) as (x & Hx & Hb).
    apply list_elem_of_lookup_2 in Hx. unfold build_answer in Hb. cbn [rec_kind auto_address with_policy record_a rec_value] in Hb.
    rewrite parse_v4_printed in Hb by (pose proof (proj1 (Forall_forall _ _) Hok f Hf) as H0; unfold addr_ok in H0; by rewrite Ha in H0). by injection Hb as <-.
  - apply build_answers_err in Eb as (r & Hr & e' & He). destruct (Hall r Hr) as [x Hx]. congruence.
Qed.
End AutoRecords.

(** ** Witnesses and examples *)

Definition demo_forward : ForwardDnsSource := mkForwardDnsSource ["Mail.Tunnel.Local"] (Some (V4 0x0A000001)) None (from_secs 30) AnswerWhenHealthy (Some "p/f").
Definition demo_handler : SplitHorizonHandler :=
  mkSplitHorizonHandler [mkManagedZone "tunnel.local" ([record_txt "mail.tunnel.local" "x" 0] ++ auto_records_from_forwards "tunnel.local" [demo_forward])] None
    (fun id => mkForwardHealth true (id =? "p/f")%string) TransparentForwarder LoopbackOnly.

Lemma auto_record_answered_witness :
  exists answers, handle_request (fun s => Some s) demo_handler (mkDnsRequest true (Some ("mail.tunnel.local."%string, 1)) (V4 0x7F000001)) = (SendAnswers answers true, false) /\
    mkProtoRecord "mail.tunnel.local." 30 (RdA 0x0A000001) ∈ answers.
Proof.
  apply (auto_record_answered (fun s => Some s) "tunnel.local" [record_txt "mail.tunnel.local" "x" 0] [demo_forward] demo_forward "Mail.Tunnel.Local" 0x0A000001 demo_handler).
  - by repeat constructor.
  - apply Forall_singleton. unfold addr_ok, in_u. cbn [fds_addr demo_forward]. split; vm_compute; done.
  - by left.
  - reflexivity.
  - by left.
  - vm_compute. reflexivity.
  - vm_compute. reflexivity.
  - reflexivity.
  - vm_compute. reflexivity.
  - vm_compute. reflexivity.
Defined.

(** A managed name with no record of the type asked is reported not to exist,
    although it has records of another type. *)
Theorem other_type_is_nxdomain :
  handle_request (fun s => Some s) demo_handler (mkDnsRequest true (Some ("mail.tunnel.local."%string, 28)) (V4 0x7F000001)) = (SendSimple NXDomain, false).
Proof. vm_compute. reflexivity. Qed.

(** A text record whose 255th byte falls inside a character: the character is
    replaced on both sides of the cut, and the first string is longer than the
    255 bytes it was cut to. *)
Theorem txt_cut_mangles :
  let value := string_of (replicate 254 97 ++ [0xC3; 0xA9]) in
  record_validate (record_txt "t" value 0) = Ok tt /\
  build_answer (fun s => Some s) "t" (record_txt "t" value 0) = Ok (mkProtoRecord "t" 0 (RdTXT [replicate 254 97 ++ replacement; replacement])).
Proof. vm_compute. done. Qed.

(** The witness of the horizon: a zone spelled in another case, a name that only
    ends in the same letters, and a client outside the scope. *)
Definition demo_forwarder (scope : ForwardScope) : SplitHorizonHandler :=
  mkSplitHorizonHandler (sh_zones demo_handler) (Some (fun _ _ => Ok [])) (sh_health demo_handler) TransparentForwarder scope.

Lemma split_horizon_exact_witness :
  let ask name src scope := handle_request (fun s => Some s) (demo_forwarder scope) (mkDnsRequest true (Some (name, 1)) src) in
  (ask "MAIL.tunnel.LOCAL"%string (V4 0x08080808) ScopeAny).2 = false /\ belongs "tunnel.local" "MAIL.tunnel.LOCAL" /\
  (ask "nottunnel.local"%string (V4 0x0A000002) PrivateNetworks).2 = true /\ ~ belongs "tunnel.local" "nottunnel.local" /\
  (ask "nottunnel.local"%string (V4 0x0A000002) LoopbackOnly).2 = false.
Proof.
  cbv zeta. split; [done|]. split.
  { exists ["MAIL"%string], ["tunnel"; "LOCAL"]%string. split; [reflexivity|]. repeat constructor. }
  assert (ip_ok (V4 0x0A000002)) as Hip by (split; vm_compute; done).
  pose proof (split_horizon_exact (fun s => Some s) (demo_forwarder PrivateNetworks) (mkDnsRequest true (Some ("nottunnel.local"%string, 1)) (V4 0x0A000002)) Hip) as [HT _].
  split; [done|]. split; [|done]. intros Hb. destruct (proj1 HT eq_refl) as (_ & q & t & up & [= <- <-] & Hu & _).
  apply Forall_cons in Hu as [Hu _]. by apply Hu.
Defined.
