(* ===== verification/Hosts.v ===== *)
(** * The managed block of the hosts file

    Models [crates/spt-dns/src/hosts.rs]: the block between two markers that
    lists the managed names, its replacement inside the text of the file, the
    backups, and the three modes of running it. *)

From S2P Require Import Prelude Bytes Text Endpoint Ip Dns.

Definition HOSTS_BEGIN_MARKER : string := "# >>> spt-managed >>>".
Definition HOSTS_END_MARKER : string := "# <<< spt-managed <<<".
Definition tab : ascii := "009"%char.

(** ** Entries *)

Record HostsEntry := mkHostsEntry { he_address : string; he_names : list string }.

(** The control characters: one byte below 32 or 127, or U+0080 to U+009F. *)
Fixpoint sanitize_hosts_field (s : string) : string :=
  match s with
  | EmptyString => ""
  | String a r =>
      if (code a <? 32) || (code a =? 127) then sanitize_hosts_field r
      else
        match r with
        | String b r' => if (code a =? 0xC2) && between 0x80 0x9F (code b) then sanitize_hosts_field r' else String a (sanitize_hosts_field r)
        | EmptyString => String a ""
        end
  end.

(** [join(" ")]. *)
Fixpoint join_space (l : list string) : string :=
  match l with [] => "" | [x] => x | x :: r => (x +:+ String " " (join_space r))%string end.

Definition render_line (e : HostsEntry) : string :=
  (sanitize_hosts_field (he_address e) +:+ String tab (join_space (sanitize_hosts_field <$> he_names e)))%string.

Definition from_records (l : list DnsRecord) : list HostsEntry :=
  (fun r => mkHostsEntry (rec_value r) [trim_end_matches "." (rec_name r)]) <$> filter (fun r => rec_kind r = RkA \/ rec_kind r = RkAAAA) l.

(** ** Text *)

(** Lines with their newlines. *)
Fixpoint unlines (l : list string) : string := match l with [] => "" | x :: r => (x +:+ String newline (unlines r))%string end.

(** [str::find] with a pattern: the text before its first occurrence and after. *)
Fixpoint find_str (p s : string) : option (string * string) :=
  match strip_prefix p s with
  | Some r => Some (""%string, r)
  | None => match s with EmptyString => None | String a s' => (fun x => (String a x.1, x.2)) <$> find_str p s' end
  end.

Definition render (entries : list HostsEntry) : string :=
  unlines ([HOSTS_BEGIN_MARKER] ++ (render_line <$> entries) ++ [HOSTS_END_MARKER]).

Definition split_managed_block (text : string) : option (string * string) :=
  '(before, rest) ← find_str HOSTS_BEGIN_MARKER text;
  '(_, after) ← find_str HOSTS_END_MARKER rest;
  Some (before, match after with String a r => if Ascii.eqb a newline then r else after | EmptyString => after end).

(** [trim_end_matches('\n')] of a rendered block and the newline put back are
    both written out. *)
Definition merge (entries : list HostsEntry) (current : string) : string :=
  let block := trim_end_matches newline (render entries) in
  match split_managed_block current with
  | Some (before, after) => (before +:+ block +:+ String newline after)%string
  | None =>
      let s := if negb (current =? "")%string && negb (ends_with newline current) then (current +:+ String newline "")%string else current in
      (s +:+ block +:+ String newline "")%string
  end.

Definition managed_entry_count (text : string) : nat :=
  match find_str HOSTS_BEGIN_MARKER text with
  | None => 0
  | Some (_, rest) =>
      match find_str HOSTS_END_MARKER rest with
      | None => 0
      | Some (inner, _) => length (List.filter (fun l => negb (trim l =? "")%string) (lines inner))
      end
  end.

(** ** Files *)

(** The hosts file and the directory of backups, its entries in some order. *)
Inductive HostsFile := Missing | Contents (s : string) | Unreadable (e : string).
Record HostsDisk := mkHostsDisk { hd_file : HostsFile; hd_backups : list (string * string) }.

(** How far the file operations of an [apply] get. *)
Inductive ApplyIo := ApplyDone | MkdirFails (e : string) | BackupFails (written : nat) (e : string) | WriteFails (e : string).

Record HostsApplyReport := mkHostsApplyReport {
  ar_changed : bool;
  ar_backed_up : bool;
  ar_backup : option string;
  ar_previous : string;
  ar_next : string
}.

Definition backup_name (ts : Z) : string := ("backup-" +:+ pretty ts)%string.

Fixpoint write_backup (name content : string) (l : list (string * string)) : list (string * string) :=
  match l with
  | [] => [(name, content)]
  | (n, c) :: r => if (n =? name)%string then (name, content) :: r else (n, c) :: write_backup name content r
  end.

Definition apply (entries : list HostsEntry) (dry_run : bool) (ts : Z) (io : ApplyIo) (d : HostsDisk) : Result DnsError HostsApplyReport * HostsDisk :=
  let run current :=
    let next := merge entries current in
    if (next =? current)%string then (Ok (mkHostsApplyReport false false None current next), d)
    else if dry_run then (Ok (mkHostsApplyReport true false None current next), d)
    else
      let name := backup_name ts in
      let saved := mkHostsDisk (hd_file d) (write_backup name current (hd_backups d)) in
      match io with
      | MkdirFails e => (Err (DnsIo e), d)
      | BackupFails n e => (Err (DnsIo e), mkHostsDisk (hd_file d) (write_backup name (String.substring 0 n current) (hd_backups d)))
      | WriteFails e => (Err (DnsIo e), saved)
      | ApplyDone => (Ok (mkHostsApplyReport true true (Some name) current next), mkHostsDisk (Contents next) (hd_backups saved))
      end in
  match hd_file d with
  | Contents s => run s
  | Missing => run ""%string
  | Unreadable e => (Err (DnsIo e), d)
  end.

(** The number of a backup's name. *)
Definition backup_number (name : string) : option Z := t ← strip_prefix "backup-" name; parse_uint 64 t.

Definition latest_backup (l : list (string * string)) : option (Z * string) :=
  foldl (fun best kv => match backup_number kv.1 with
                        | None => best
                        | Some n => match best with Some (b, _) => if b <? n then Some (n, kv.2) else best | None => Some (n, kv.2) end
                        end) None l.

(** [write_fails]: the error of the write, if it fails. *)
Definition restore (backup_dir : string) (write_fails : option string) (d : HostsDisk) : Result DnsError unit * HostsDisk :=
  match latest_backup (hd_backups d) with
  | None => (Err (BackupMissing backup_dir), d)
  | Some (_, contents) =>
      match write_fails with
      | Some e => (Err (DnsIo e), d)
      | None => (Ok tt, mkHostsDisk (Contents contents) (hd_backups d))
      end
  end.

Inductive HostsFileMode := RenderOnly | HostsApply | HostsRestore.

Definition HostsFileMode_from_config_str (s : string) : Result string HostsFileMode :=
  let t := trim s in
  if (t =? "")%string || (t =? "apply")%string then Ok HostsApply
  else if (t =? "render_only")%string then Ok RenderOnly
  else if (t =? "restore")%string then Ok HostsRestore
  else Err t.

Record HostsModeOutcome := mkHostsModeOutcome { mo_mode : HostsFileMode; mo_report : option HostsApplyReport; mo_restored : bool }.

Definition run_mode (entries : list HostsEntry) (mode : HostsFileMode) (dry_run : bool) (ts : Z) (io : ApplyIo) (backup_dir : string)
  (write_fails : option string) (d : HostsDisk)   : Result DnsError HostsModeOutcome * HostsDisk :=
  let applied dry :=
    let '(r, d) := apply entries dry ts io d in
    (match r with Ok report => Ok (mkHostsModeOutcome mode (Some report) false) | Err e => Err e end, d) in
  match mode with
  | RenderOnly => applied true
  | HostsApply => applied dry_run
  | HostsRestore =>
      if dry_run then (Ok (mkHostsModeOutcome mode None false), d)
      else let '(r, d) := restore backup_dir write_fails d in (match r with Ok _ => Ok (mkHostsModeOutcome mode None true) | Err e => Err e end, d)
  end.

(** ** Lemmas: searching *)

Lemma find_str_spec p s b a : find_str p s = Some (b, a) -> s = (b +:+ p +:+ a)%string.
Proof.
  revert b. induction s as [|x s IH]; intros b; cbn [find_str].
  - destruct (strip_prefix p "") as [r|] eqn:E; [|done]. intros [= <- <-]. rewrite str_nil_app. by apply strip_prefix_spec.
  - destruct (strip_prefix p (String x s)) as [r|] eqn:E.
    + intros [= <- <-]. rewrite str_nil_app. by apply strip_prefix_spec.
    + destruct (find_str p s) as [[b' a']|]; [|done]. intros [= <- <-]. rewrite str_cons_app. f_equal. by apply IH.
Qed.

Lemma strip_prefix_long p t x y :
  (String.length p <= String.length t)%nat -> is_Some (strip_prefix p (t +:+ x)) -> is_Some (strip_prefix p (t +:+ y)).
Proof.
  revert t. induction p as [|a p IH]; intros t Hl; [by eexists|]. destruct t as [|b t]; [cbn in Hl; lia|]. rewrite !str_cons_app. cbn.
  destruct (Ascii.eqb a b); [|by intros [? ?]]. apply IH. cbn in Hl. lia.
Qed.

(** The place of the first occurrence does not depend on what follows it. *)
Lemma find_str_local p b x y : find_str p (b +:+ p +:+ x) = Some (b, x) -> find_str p (b +:+ p +:+ y) = Some (b, y).
Proof.
  assert (forall t, find_str p (p +:+ t) = Some (""%string, t)) as Hhere.
  { intros t. pose proof (strip_prefix_app p t) as E. destruct (p +:+ t)%string; cbn [find_str]; by rewrite E. }
  induction b as [|a b IH]; [by rewrite !str_nil_app, Hhere|]. rewrite !str_cons_app. cbn [find_str].
  destruct (strip_prefix p (String a (b +:+ p +:+ x))) as [r|] eqn:Ex; [done|].
  destruct (strip_prefix p (String a (b +:+ p +:+ y))) as [r|] eqn:Ey.
  - intros _. exfalso. assert (is_Some (strip_prefix p ((String a b +:+ p) +:+ x))) as [z Hz].
    { apply (strip_prefix_long p _ y); [rewrite string_length_app; lia|]. rewrite str_app_assoc, str_cons_app. by eexists. }
    rewrite str_app_assoc, str_cons_app in Hz. congruence.
  - intros H. destruct (find_str p (b +:+ p +:+ x)) as [[b' x']|]; [|done]. injection H as -> ->. by rewrite IH.
Qed.

(** A pattern without a newline does not reach over one. *)
Lemma strip_prefix_line p s t : no_char newline p = true -> strip_prefix p s = None -> strip_prefix p (s +:+ String newline t) = None.
Proof.
  revert s. induction p as [|a p IH]; intros s Hp; [done|]. cbn [no_char] in Hp. apply andb_true_iff in Hp as [Ha Hp]. destruct s as [|b s].
  - intros _. rewrite str_nil_app. cbn. destruct (Ascii.eqb_spec a newline) as [->|]; [done|done].
  - rewrite str_cons_app. cbn. destruct (Ascii.eqb a b); [|done]. by apply IH.
Qed.

Lemma find_str_line p l t :
  no_char newline p = true -> find_str p l = None ->
  find_str p (l +:+ String newline t) = (fun x => (l +:+ String newline x.1, x.2)%string) <$> find_str p t.
Proof.
  intros Hp. induction l as [|a l IH]; cbn [find_str]; intros Hl.
  - destruct (strip_prefix p "") eqn:E; [done|]. rewrite str_nil_app. cbn [find_str].
    pose proof (strip_prefix_line p "" t Hp E) as E'. rewrite str_nil_app in E'. rewrite E'. done.
  - destruct (strip_prefix p (String a l)) eqn:E; [done|]. destruct (find_str p l) eqn:El; [done|].
    pose proof (strip_prefix_line p (String a l) t Hp E) as E'. rewrite str_cons_app in E' |- *. cbn [find_str]. rewrite E', IH by done.
    destruct (find_str p t) as [[b x]|]; [|done]. cbn. by rewrite str_cons_app.
Qed.

Lemma find_str_lines p ls t :
  no_char newline p = true -> Forall (fun l => find_str p l = None) ls ->
  find_str p (unlines ls +:+ t) = (fun x => (unlines ls +:+ x.1, x.2)%string) <$> find_str p t.
Proof.
  intros Hp. induction 1 as [|l ls Hl _ IH]; cbn [unlines].
  - rewrite str_nil_app. destruct (find_str p t) as [[b x]|]; [|done]. cbn. by rewrite str_nil_app.
  - rewrite str_app_assoc, str_cons_app, find_str_line, IH by done. destruct (find_str p t) as [[b x]|]; [|done]. cbn. by rewrite str_app_assoc, str_cons_app.
Qed.

Lemma find_str_none_app p l t : find_str p (l +:+ t) = None -> find_str p l = None.
Proof.
  induction l as [|a l IH]; cbn [find_str].
  - rewrite str_nil_app. intros Ht. destruct p as [|c p]; [|done]. destruct t; done.
  - rewrite str_cons_app. cbn [find_str]. destruct (strip_prefix p (String a l)) as [r|] eqn:E.
    + apply strip_prefix_spec in E. rewrite <- str_cons_app, E, str_app_assoc, strip_prefix_app. done.
    + intros Hn. destruct (strip_prefix p (String a (l +:+ t))); [done|]. destruct (find_str p (l +:+ t)) as [x|]; [discriminate Hn|]. by rewrite IH.
Qed.

(** ** Lemmas: the block *)

Definition body (entries : list HostsEntry) : string := unlines (HOSTS_BEGIN_MARKER :: (render_line <$> entries)).
Definition block (entries : list HostsEntry) : string := (body entries +:+ HOSTS_END_MARKER)%string.

Lemma unlines_app a b : unlines (a ++ b) = (unlines a +:+ unlines b)%string.
Proof. induction a as [|x a IH]; [done|]. cbn. by rewrite IH, str_app_assoc, str_cons_app. Qed.

Lemma trim_end_matches_app c x z w : trim_end_matches c z = w -> w <> ""%string -> trim_end_matches c (x +:+ z) = (x +:+ w)%string.
Proof.
  intros Hz Hw. induction x as [|a x IH]; [by rewrite !str_nil_app|]. rewrite !str_cons_app. cbn. rewrite IH.
  destruct x as [|b x]; [rewrite str_nil_app; by destruct w|]. by rewrite str_cons_app.
Qed.

Lemma block_text entries : trim_end_matches newline (render entries) = block entries.
Proof.
  unfold render, block, body. rewrite app_assoc, unlines_app. apply trim_end_matches_app; [by vm_compute|done].
Qed.

(** The markers of a block put after a text are where they were put. *)
Lemma split_block b entries a :
  Forall (fun e => find_str HOSTS_END_MARKER (render_line e) = None) entries ->
  (forall x, find_str HOSTS_BEGIN_MARKER (b +:+ HOSTS_BEGIN_MARKER +:+ x) = Some (b, x)) ->
  split_managed_block (b +:+ block entries +:+ String newline a) = Some (b, a).
Proof.
  intros He Hb. unfold split_managed_block, block, body. cbn [unlines]. rewrite !str_app_assoc, str_cons_app. rewrite Hb. cbn [mbind option_bind].
  assert (forall t, String newline (unlines (render_line <$> entries) +:+ t) = (unlines (""%string :: (render_line <$> entries)) +:+ t)%string) as -> .
  { intros t. cbn [unlines]. by rewrite str_nil_app, str_cons_app. }
  rewrite find_str_lines; [|reflexivity|constructor; [reflexivity|by apply Forall_fmap]].
  assert (find_str HOSTS_END_MARKER (HOSTS_END_MARKER +:+ String newline a) = Some (""%string, String newline a)) as E.
  { pose proof (strip_prefix_app HOSTS_END_MARKER (String newline a)) as E. destruct (HOSTS_END_MARKER +:+ String newline a)%string; cbn [find_str]; by rewrite E. }
  rewrite E. reflexivity.
Qed.

(** Where the code puts a block; the proofs below relate it to the text. *)
Definition place (current : string) : string * string :=
  match split_managed_block current with
  | Some (before, after) => (before, after)
  | None => ((if negb (current =? "")%string && negb (ends_with newline current) then current +:+ String newline "" else current)%string, ""%string)
  end.

Lemma merge_place entries current : merge entries current = ((place current).1 +:+ block entries +:+ String newline (place current).2)%string.
Proof. unfold merge, place. rewrite block_text. destruct (split_managed_block current) as [[b a]|]; [done|]. done. Qed.

Lemma place_first current x :
  is_Some (split_managed_block current) \/ find_str HOSTS_BEGIN_MARKER current = None ->
  find_str HOSTS_BEGIN_MARKER ((place current).1 +:+ HOSTS_BEGIN_MARKER +:+ x) = Some ((place current).1, x).
Proof.
  intros Hc. unfold place. destruct (split_managed_block current) as [[b a]|] eqn:E; cbn [fst].
  - unfold split_managed_block in E. destruct (find_str HOSTS_BEGIN_MARKER current) as [[b' r]|] eqn:Ef; [|done]. cbn [mbind option_bind] in E.
    destruct (find_str HOSTS_END_MARKER r) as [[i r']|]; [|done]. injection E as <- _. pose proof (find_str_spec _ _ _ _ Ef) as Hs. rewrite Hs in Ef.
    by eapply find_str_local.
  - destruct Hc as [[? ?]|Hc]; [done|].
    assert (forall l, find_str HOSTS_BEGIN_MARKER l = None -> find_str HOSTS_BEGIN_MARKER ((l +:+ String newline "") +:+ HOSTS_BEGIN_MARKER +:+ x) = Some ((l +:+ String newline "")%string, x)) as Hline.
    { intros l Hl. rewrite str_app_assoc, str_cons_app, str_nil_app, find_str_line by done.
      pose proof (strip_prefix_app HOSTS_BEGIN_MARKER x) as E1. destruct (HOSTS_BEGIN_MARKER +:+ x)%string; cbn [find_str]; by rewrite E1. }
    destruct (String.eqb_spec current "") as [->|Hne]; cbn [negb andb].
    + rewrite str_nil_app. pose proof (strip_prefix_app HOSTS_BEGIN_MARKER x) as E1. destruct (HOSTS_BEGIN_MARKER +:+ x)%string; cbn [find_str]; by rewrite E1.
    + destruct (ends_with newline current) eqn:El; cbn [negb]; [|by apply Hline].
      destruct (ends_with_split _ _ El) as [l ->]. apply Hline. by eapply find_str_none_app.
Qed.

Lemma place_merge entries current :
  Forall (fun e => find_str HOSTS_END_MARKER (render_line e) = None) entries ->
  is_Some (split_managed_block current) \/ find_str HOSTS_BEGIN_MARKER current = None ->
  split_managed_block (merge entries current) = Some (place current).
Proof. intros He Hc. rewrite merge_place, (surjective_pairing (place current)). apply split_block; [done|]. intros x. by apply place_first. Qed.

(** ** Lemmas: one line per entry *)

Lemma sanitize_no_control c s : (code c <? 32) || (code c =? 127) = true -> no_char c (sanitize_hosts_field s) = true.
Proof.
  intros Hc. assert (forall n s, (String.length s <= n)%nat -> no_char c (sanitize_hosts_field s) = true) as H; [|by apply (H (String.length s))].
  assert (forall a, (code a <? 32) || (code a =? 127) = false -> Ascii.eqb a c = false) as Hne.
  { intros a Ha. apply Ascii.eqb_neq. intros ->. congruence. }
  clear s. induction n as [|n IH]; intros s Hl; [by destruct s; [|cbn in Hl; lia]|]. destruct s as [|a s]; [done|]. cbn [sanitize_hosts_field]. cbn in Hl.
  destruct ((code a <? 32) || (code a =? 127)) eqn:Ea; [apply IH; lia|]. destruct s as [|b s]; [cbn; by rewrite Hne|]. cbn in Hl.
  destruct (_ && _); [apply IH; lia|]. cbn [no_char]. rewrite Hne by done. apply IH. cbn. lia.
Qed.

Lemma join_space_no_char c l : Ascii.eqb " " c = false -> Forall (fun x => no_char c x = true) l -> no_char c (join_space l) = true.
Proof.
  intros Hc. induction 1 as [|x l Hx Hl IH]; [done|]. cbn [join_space]. destruct l; [done|]. rewrite no_char_app, Hx. cbn [no_char]. by rewrite Hc, IH.
Qed.

Lemma render_line_single c e : (code c <? 32) || (code c =? 127) = true -> c <> tab -> no_char c (render_line e) = true.
Proof.
  intros Hc Ht. unfold render_line. rewrite no_char_app, sanitize_no_control by done. cbn [andb no_char]. rewrite (proj2 (Ascii.eqb_neq _ _)) by congruence.
  apply join_space_no_char; [apply Ascii.eqb_neq; by intros <-|]. apply Forall_fmap, Forall_forall. intros x _. by apply sanitize_no_control.
Qed.

Lemma strip_cr_free l : no_char carriage l = true -> strip_cr l = l.
Proof.
  induction l as [|a l IH]; [done|]. cbn [no_char]. intros [Ha%negb_true_iff Hl]%andb_true_iff. cbn [strip_cr]. destruct l as [|b l]; [by rewrite Ha|]. by rewrite IH.
Qed.

Lemma lines_unlines ls : Forall (fun l => no_char newline l = true /\ no_char carriage l = true) ls -> lines (unlines ls) = ls.
Proof.
  induction 1 as [|l ls [Hn Hc] _ IH]; [done|]. cbn [unlines]. rewrite lines_cons by done. by rewrite strip_cr_free, IH.
Qed.

(** ** Specification: what surrounds the block stays *)

Definition occurs (p s : string) : Prop := exists x y, s = (x +:+ p +:+ y)%string.

(** In [b] followed by [p], the first [p] is the one at the end. *)
Definition first_at (p b : string) : Prop := forall x y, (b +:+ p)%string = (x +:+ p +:+ y)%string -> x = b.

(** A text with a whole block: the first begin marker, the first end marker after
    it, and what is around them. *)
Definition has_block (current before inner tail : string) : Prop :=
  current = (before +:+ HOSTS_BEGIN_MARKER +:+ inner +:+ HOSTS_END_MARKER +:+ tail)%string /\ first_at HOSTS_BEGIN_MARKER before /\ first_at HOSTS_END_MARKER inner.

(** The newline that ended the line of the end marker belongs to the block. *)
Definition next_line (tail : string) : string :=
  match tail with String a r => if Ascii.eqb a newline then r else tail | EmptyString => "" end.

(** A text whose last line is ended. *)
Definition line_ended (s : string) : string := if (s =? "")%string || ends_with newline s then s else (s +:+ String newline "")%string.

Lemma find_str_none p s : find_str p s = None <-> ~ occurs p s.
Proof.
  split.
  - intros Hn [x [y ->]]. induction x as [|a x IH].
    + rewrite str_nil_app in Hn. pose proof (strip_prefix_app p y) as E. destruct (p +:+ y)%string; cbn [find_str] in Hn; by rewrite E in Hn.
    + rewrite str_cons_app in Hn. cbn [find_str] in Hn. destruct (strip_prefix _ _); [done|]. by destruct (find_str p _); [|apply IH].
  - intros Hn. destruct (find_str p s) as [[x y]|] eqn:E; [|done]. destruct Hn. exists x, y. by apply find_str_spec.
Qed.

Lemma str_app_inj_l a b c : (a +:+ b)%string = (a +:+ c)%string -> b = c.
Proof. induction a as [|x a IH]; [done|]. rewrite !str_cons_app. intros [= E]. by apply IH. Qed.

Lemma find_str_first p b a : first_at p b -> find_str p (b +:+ p +:+ a) = Some (b, a).
Proof.
  intros Hf. apply (find_str_local p b ""). destruct (find_str p (b +:+ p +:+ "")) as [[x y]|] eqn:E.
  - pose proof (find_str_spec _ _ _ _ E) as Es. rewrite str_app_nil in Es. rewrite (Hf x y Es) in Es |- *. apply str_app_inj_l in Es.
    rewrite <- (str_app_nil p) in Es at 1. by apply str_app_inj_l in Es as <-.
  - apply find_str_none in E. destruct E. by exists b, ""%string.
Qed.

Lemma find_str_min p x y b a : find_str p (x +:+ p +:+ y) = Some (b, a) -> (String.length b <= String.length x)%nat.
Proof.
  revert b. induction x as [|c x IH]; intros b.
  - rewrite str_nil_app. pose proof (strip_prefix_app p y) as E. destruct (p +:+ y)%string; cbn [find_str]; rewrite E; by intros [= <- _].
  - rewrite str_cons_app. cbn [find_str]. destruct (strip_prefix p _); [intros [= <- _]; cbn; lia|].
    destruct (find_str p _) as [[b' a']|]; [|done]. intros [= <- <-]. cbn. specialize (IH b' eq_refl). lia.
Qed.

Lemma find_first_at p b : find_str p (b +:+ p) = Some (b, ""%string) -> first_at p b.
Proof.
  intros Hf x y E. rewrite E in Hf. apply find_str_min in Hf. pose proof (f_equal String.length E) as El. rewrite !string_length_app in El.
  assert (y = ""%string) as -> by (destruct y; [done|cbn in El; lia]). rewrite str_app_nil in E. apply (f_equal (strip_suffix p)) in E.
  rewrite !(proj2 (strip_suffix_spec p _ _) eq_refl) in E. by injection E.
Qed.

Lemma has_block_split current before inner tail :
  has_block current before inner tail -> split_managed_block current = Some (before, next_line tail).
Proof.
  intros (-> & Hb & Hi). unfold split_managed_block. rewrite find_str_first by done. cbn [mbind option_bind]. rewrite find_str_first by done.
  by destruct tail as [|a r].
Qed.

Lemma no_begin_split current : ~ occurs HOSTS_BEGIN_MARKER current -> split_managed_block current = None.
Proof. intros Hn%find_str_none. unfold split_managed_block. by rewrite Hn. Qed.

Lemma ended_place current : split_managed_block current = None -> place current = (line_ended current, ""%string).
Proof. intros E. unfold place, line_ended. rewrite E. by destruct (current =? "")%string, (ends_with newline current). Qed.

Lemma block_lines entries : lines (block entries +:+ String newline "") = [HOSTS_BEGIN_MARKER] ++ (render_line <$> entries) ++ [HOSTS_END_MARKER].
Proof.
  assert (block entries +:+ String newline "" = unlines ([HOSTS_BEGIN_MARKER] ++ (render_line <$> entries) ++ [HOSTS_END_MARKER]))%string as ->.
  { rewrite app_assoc, unlines_app. unfold block, body. by rewrite str_app_assoc. }
  apply lines_unlines. constructor; [done|]. apply Forall_app. split; [|by repeat constructor]. apply Forall_fmap, Forall_forall. intros e _.
  split; by apply render_line_single.
Qed.

(** C30: Writing the managed block keeps everything outside it byte for byte.  In
    a file with a whole block, the text before its begin marker and the text
    after the line of its end marker stay, and the new block stands between
    them; in a file without a begin marker the whole file stays, its last line
    ended, and the block follows.  The block is one line per entry between the
    two markers, whatever characters the entries hold.  When no line written has
    the end marker in it, writing other entries later gives what writing them at
    first would have, so writing twice is writing once. *)
Theorem merge_exact entries current :
  Forall (fun e => ~ occurs HOSTS_END_MARKER (render_line e)) entries ->
  let next := merge entries current in
  (forall before inner tail, has_block current before inner tail -> next = (before +:+ block entries +:+ String newline (next_line tail))%string) /\
  (~ occurs HOSTS_BEGIN_MARKER current -> next = (line_ended current +:+ block entries +:+ String newline "")%string) /\
  lines (block entries +:+ String newline "") = [HOSTS_BEGIN_MARKER] ++ (render_line <$> entries) ++ [HOSTS_END_MARKER] /\
  ((exists before inner tail, has_block current before inner tail) \/ ~ occurs HOSTS_BEGIN_MARKER current ->
   forall entries', merge entries' next = merge entries' current).
Proof.
  intros He next. split; [|split; [|split; [apply block_lines|]]].
  - intros before inner tail Hb%has_block_split. subst next. rewrite merge_place. unfold place. by rewrite Hb.
  - intros Hn%no_begin_split. subst next. by rewrite merge_place, ended_place.
  - intros Hc entries'. assert (is_Some (split_managed_block current) \/ find_str HOSTS_BEGIN_MARKER current = None) as Hc'.
    { destruct Hc as [(b & i & t & Hb%has_block_split)|Hn]; [left; by eexists|right; by apply find_str_none]. }
    assert (Forall (fun e => find_str HOSTS_END_MARKER (render_line e) = None) entries) as He'.
    { eapply Forall_impl; [exact He|]. intros e. apply find_str_none. }
    rewrite !merge_place. assert (place next = place current) as ->; [|done]. unfold place at 1. subst next. rewrite place_merge by done. by destruct (place current).
Qed.

(** ** Backups *)

Lemma backup_number_name ts : in_u 64 ts -> backup_number (backup_name ts) = Some ts.
Proof. intros Hts. unfold backup_number, backup_name. rewrite strip_prefix_app. by apply parse_uint_pretty. Qed.

Lemma write_backup_new name content l : Forall (fun kv => kv.1 <> name) l -> write_backup name content l = l ++ [(name, content)].
Proof. induction 1 as [|[n c] l Hn _ IH]; [done|]. cbn. cbn in Hn. by rewrite (proj2 (String.eqb_neq _ _) Hn), IH. Qed.

Definition older (ts : Z) (kv : string * string) : Prop := match backup_number kv.1 with Some n => n < ts | None => True end.

Lemma latest_older ts l : Forall (older ts) l -> match latest_backup l with Some (n, _) => n < ts | None => True end.
Proof.
  unfold latest_backup. assert (forall best, match best with Some (n, _) => n < ts | None => True end -> Forall (older ts) l ->
    match foldl (fun best kv => match backup_number kv.1 with
                        | None => best
                        | Some n => match best with Some (b, _) => if b <? n then Some (n, kv.2) else best | None => Some (n, kv.2) end
                        end) best l with Some (n, _) => n < ts | None => True end) as H; [|by apply H].
  induction l as [|kv l IH]; intros best Hb Hl; [done|]. apply Forall_cons in Hl as [Hk Hl]. cbn [foldl]. apply IH; [|done]. unfold older in Hk.
  destruct (backup_number kv.1) as [n|]; [|done]. destruct best as [[b c]|]; [|done]. by destruct (b <? n).
Qed.

Lemma latest_snoc ts content l : in_u 64 ts -> Forall (older ts) l -> latest_backup (l ++ [(backup_name ts, content)]) = Some (ts, content).
Proof.
  intros Hts Hl. pose proof (latest_older ts l Hl) as Hm. unfold latest_backup in *. rewrite foldl_app. cbn [foldl fst snd].
  rewrite backup_number_name by done. destruct (foldl _ None l) as [[b c]|]; [|done]. by rewrite (proj2 (Z.ltb_lt _ _) Hm).
Qed.

Definition text_now (d : HostsDisk) : string := match hd_file d with Contents s => s | _ => "" end.

(** An apply that changes the file keeps what was there under a new backup,
    and a restore right after it gives that text back; an apply that changes
    nothing, or is a dry run, or whose file operations fail, leaves the hosts
    file as it was. *)
Theorem apply_then_restore entries dry ts io dir d :
  in_u 64 ts -> Forall (older ts) (hd_backups d) -> (forall e, hd_file d <> Unreadable e) ->
  let '(r, d') := apply entries dry ts io d in
  match r with
  | Ok rep =>
      ar_next rep = merge entries (text_now d) /\ ar_previous rep = text_now d /\
      (if ar_backed_up rep
       then hd_file d' = Contents (merge entries (text_now d)) /\ hd_file (restore dir None d').2 = Contents (text_now d)
       else d' = d)
  | Err _ => hd_file d' = hd_file d
  end.
Proof.
  intros Hts Hold Hread. unfold apply, text_now.
  assert (forall current, let next := merge entries current in
    let '(r, d') := (if (next =? current)%string then (Ok (mkHostsApplyReport false false None current next), d)
    else if dry then (Ok (mkHostsApplyReport true false None current next), d)
    else match io with
      | MkdirFails e => (Err (DnsIo e), d)
      | BackupFails n e => (Err (DnsIo e), mkHostsDisk (hd_file d) (write_backup (backup_name ts) (String.substring 0 n current) (hd_backups d)))
      | WriteFails e => (Err (DnsIo e), mkHostsDisk (hd_file d) (write_backup (backup_name ts) current (hd_backups d)))
      | ApplyDone => (Ok (mkHostsApplyReport true true (Some (backup_name ts)) current next), mkHostsDisk (Contents next) (write_backup (backup_name ts) current (hd_backups d)))
      end) in
    match r with
    | Ok rep => ar_next rep = next /\ ar_previous rep = current /\
        (if ar_backed_up rep then hd_file d' = Contents next /\ hd_file (restore dir None d').2 = Contents current else d' = d)
    | Err _ => hd_file d' = hd_file d
    end) as H.
  { intros current next. destruct (next =? current)%string; [done|]. destruct dry; [done|]. destruct io; try done. cbn. do 3 (split; [done|]).
    unfold restore. cbn [hd_backups]. rewrite write_backup_new, latest_snoc; [done|done|done|]. eapply Forall_impl; [exact Hold|]. intros [n c] Hn En. cbn in En. subst n.
    unfold older in Hn. cbn [fst] in Hn. rewrite backup_number_name in Hn by done. lia. }
  destruct (hd_file d) as [|s|e] eqn:Ef; [|apply (H s)|by destruct (Hread e)]. pose proof (H ""%string) as H0. exact H0.
Qed.

(** ** Witnesses and examples *)

Definition demo_entries : list HostsEntry := [mkHostsEntry "10.0.0.1" [String newline "mail"; "m"]].
Definition demo_hosts : string := unlines ["127.0.0.1 localhost"].

Lemma merge_exact_witness :
  let file := unlines ["127.0.0.1 localhost"; HOSTS_BEGIN_MARKER; "10.0.0.9 old"; HOSTS_END_MARKER; "::1 localhost"] in
  merge demo_entries file = unlines ["127.0.0.1 localhost"; HOSTS_BEGIN_MARKER; "10.0.0.1" +:+ String tab "mail m"; HOSTS_END_MARKER; "::1 localhost"]%string /\
  merge demo_entries (merge demo_entries demo_hosts) = merge demo_entries demo_hosts.
Proof.
  assert (Forall (fun e => ~ occurs HOSTS_END_MARKER (render_line e)) demo_entries) as He by (repeat constructor; by apply find_str_none).
  cbv zeta. split.
  - destruct (merge_exact demo_entries (unlines ["127.0.0.1 localhost"; HOSTS_BEGIN_MARKER; "10.0.0.9 old"; HOSTS_END_MARKER; "::1 localhost"]) He) as (Hb & _).
    rewrite (Hb (unlines ["127.0.0.1 localhost"]) (String newline (unlines ["10.0.0.9 old"])) (String newline (unlines ["::1 localhost"]))); [reflexivity|].
    split; [reflexivity|]. split; apply find_first_at; reflexivity.
  - destruct (merge_exact demo_entries demo_hosts He) as (_ & _ & _ & Hm). apply Hm. right. by apply find_str_none.
Defined.

Lemma apply_then_restore_witness :
  let d := mkHostsDisk (Contents demo_hosts) [("backup-7", "x")]%string in
  hd_file (restore "" None (apply demo_entries false 9 ApplyDone d).2).2 = Contents demo_hosts.
Proof.
  pose proof (apply_then_restore demo_entries false 9 ApplyDone "" (mkHostsDisk (Contents demo_hosts) [("backup-7", "x")]%string)) as HT.
  assert (ar_backed_up <$> (match (apply demo_entries false 9 ApplyDone (mkHostsDisk (Contents demo_hosts) [("backup-7", "x")]%string)).1 with Ok r => Some r | Err _ => None end) = Some true)
    as E by (vm_compute; reflexivity).
  cbv zeta. destruct (apply demo_entries false 9 ApplyDone _) as [r d']. cbn [fst snd] in *. destruct r as [rep|e]; [|done]. injection E as E. rewrite E in HT.
  destruct HT as (_ & _ & _ & H); [split; vm_compute; done|repeat constructor; vm_compute; done|done|exact H].
Defined.

(** A begin marker without an end: the first write appends a block, the second
    takes the lines between the stray marker and that block for its own. *)
Theorem stray_marker_swallows :
  let file := unlines ["a"; HOSTS_BEGIN_MARKER; "b"] in
  merge [] (merge [] file) = unlines ["a"; HOSTS_BEGIN_MARKER; HOSTS_END_MARKER].
Proof. vm_compute. reflexivity. Qed.

(** A backup is made at every change: after two of them a restore gives the first
    managed file back, not the original. *)
Theorem restore_not_original :
  let d := mkHostsDisk (Contents demo_hosts) [] in
  let d := (apply demo_entries false 1 ApplyDone d).2 in
  let d := (apply [] false 2 ApplyDone d).2 in
  hd_file (restore "" None d).2 = Contents (merge demo_entries demo_hosts) /\ merge demo_entries demo_hosts <> demo_hosts.
Proof. vm_compute. done. Qed.

(** Two changes within a second share a backup name: the original is gone. *)
Theorem same_second_loses_original :
  let d := mkHostsDisk (Contents demo_hosts) [] in
  let d := (apply demo_entries false 1 ApplyDone d).2 in
  let d := (apply [] false 1 ApplyDone d).2 in
  hd_backups d = [(backup_name 1, merge demo_entries demo_hosts)].
Proof. vm_compute. reflexivity. Qed.
