(* ===== verification/Updater.v ===== *)
(** * The updater

    Models [crates/spt-updater/src]: releases and their sources
    ([source.rs]), versions ([version.rs]), the choice and the bounded download
    of an artifact ([download.rs]), its verification ([verify.rs]), the swap of
    the binary ([install.rs]), the maintenance window ([window.rs]), the
    retention of staged files ([staging.rs]) and the update cycle ([lib.rs]).
    Semantic versions, hashes, signatures, HTTP and the case table of Unicode
    are arguments; messages leave out the text of system errors. *)

From S2P Require Import Prelude Bytes Text McpPolicy Dns.

(** ** Errors and configuration *)

Inductive UpdaterError :=
| SpawnFailed (e : string) | ThreadGone | UpSource (e : string) | UpVerify (e : string) | UpInstall (e : string) | UpConfig (e : string) | UpIo (e : string).

Inductive UpdateMode := ModeOff | ModeCheck | ModeWarn | ModeAuto.

Definition parse_mode (s : string) : Result UpdaterError UpdateMode :=
  if (s =? "off")%string then Ok ModeOff
  else if (s =? "check")%string then Ok ModeCheck
  else if (s =? "warn")%string then Ok ModeWarn
  else if (s =? "auto")%string then Ok ModeAuto
  else Err (UpConfig ("updater.mode `" +:+ s +:+ "` is not recognised")).

Record VerifyConfig := mkVerifyConfig { require_minisign : bool; minisign_pubkey : option string; require_sha256sums : bool; gpg_pubkey : option string }.
Record ActionConfig := mkActionConfig { restart_supervisor : bool; notify_audit : bool; post_install_hook : option string }.
Record StagingConfig := mkStagingConfig { staging_dir : option string; keep_last : Z }.
Record WindowConfig := mkWindowConfig { allow_from : string; allow_to : string; timezone : string }.

Record UpdaterConfig := mkUpdaterConfig {
  uc_enabled : bool;
  uc_mode : UpdateMode;
  uc_verify : VerifyConfig;
  uc_action : ActionConfig;
  uc_staging : StagingConfig;
  uc_window : option WindowConfig
}.

(** ** Releases ([source.rs]) *)

Record ReleaseArtifact := mkReleaseArtifact { ra_name : string; ra_url : string; ra_size : option Z; ra_sha256 : option string }.
Record ReleaseInfo := mkReleaseInfo {
  ri_tag : string;
  ri_cargo_version : string;
  ri_published_at : string;
  ri_artifacts : list ReleaseArtifact;
  ri_signatures : list ReleaseArtifact
}.

Record GhAsset := mkGhAsset { gh_name : string; gh_url : string; gh_size : option Z; gh_digest : option string }.
Record GhRelease := mkGhRelease { gh_tag_name : string; gh_published_at : option string; gh_assets : list GhAsset }.

(** [ends_with] with a text. *)
Definition ends_with_str (suf s : string) : bool := bool_decide (is_Some (strip_suffix suf s)).

Definition cargo_form (tag : string) : string := if (length (split_on "." tag) =? 2)%nat then ("0." +:+ tag)%string else tag.

(** [str::to_lowercase]. *)
Class Lowercase := to_lowercase : string -> string.

Section Sources.
Context `{Lowercase}.

Definition gh_artifact (a : GhAsset) : ReleaseArtifact :=
  let sha := (fun d => match strip_prefix "sha256:" d with Some h => to_lowercase h | None => to_lowercase d end) <$> gh_digest a in
  mkReleaseArtifact (gh_name a) (gh_url a) (gh_size a) sha.

Definition into_release_info (r : GhRelease) : ReleaseInfo :=
  let tag := trim_start_matches "v" (gh_tag_name r) in
  let signed a := ends_with_str ".minisig" (gh_name a) in
  mkReleaseInfo tag (cargo_form tag) (default ""%string (gh_published_at r))
    (gh_artifact <$> List.filter (fun a => negb (signed a)) (gh_assets r)) (gh_artifact <$> List.filter signed (gh_assets r)).

Record ManifestArtifact := mkManifestArtifact { ma_name : string; ma_url : option string; ma_size : option Z; ma_sha256 : option string }.
Record UrlManifest := mkUrlManifest { um_tag : string; um_published_at : option string; um_artifacts : list ManifestArtifact; um_signatures : list ManifestArtifact }.

(** A release from a manifest, given the address of an artifact without one. *)
Definition manifest_release (url_of : string -> string -> string) (man : UrlManifest) : ReleaseInfo :=
  let tag := trim_start_matches "v" (um_tag man) in
  let art a := mkReleaseArtifact (ma_name a) (default (url_of tag (ma_name a)) (ma_url a)) (ma_size a) (to_lowercase <$> ma_sha256 a) in
  mkReleaseInfo tag (cargo_form tag) (default ""%string (um_published_at man)) (art <$> um_artifacts man) (art <$> um_signatures man).

(** [UrlSource::latest] from the body of the manifest: nothing of it is read
    before the pin. *)
Definition url_latest (sha256_hex : list Z -> string) (parse : list Z -> option UrlManifest) (url_of : string -> string -> string) (fingerprint : string) (body : list Z)
  : Result UpdaterError ReleaseInfo :=
  let got := sha256_hex body in
  if negb (got =? to_lowercase fingerprint)%string
  then Err (UpSource ("manifest fingerprint mismatch: expected " +:+ to_lowercase fingerprint +:+ ", got " +:+ got))
  else match parse body with Some man => Ok (manifest_release url_of man) | None => Err (UpSource "parse manifest") end.
End Sources.

(** ** Versions ([version.rs]) *)

(** [semver::Version]. *)
Class SemVer (V : Type) := {
  sv_parse : string -> option V;
  sv_gt : V -> V -> bool;
  sv_text : V -> string
}.

Section Version.
Context {V : Type} `{SemVer V}.

Definition version_parse (s : string) : Result UpdaterError V := match sv_parse s with Some v => Ok v | None => Err (UpConfig ("version `" +:+ s +:+ "`")) end.
Definition parse_tag (s : string) : Result UpdaterError V := version_parse (cargo_form (trim_start_matches "v" s)).
Definition is_newer_than (a b : V) : bool := sv_gt a b.
Definition to_tag_string (v : V) : string := default (sv_text v) (strip_prefix "0." (sv_text v)).
End Version.

(** ** Download ([download.rs]) *)

Definition MAX_DOWNLOAD_BYTES : Z := 512 * 1024 * 1024.

(** The components of a path that are not empty or a dot, and its last one. *)
Definition path_parts (p : string) : list string := List.filter (fun x => negb (x =? "")%string && negb (x =? ".")%string) (split_on "/" p).
Definition file_name (p : string) : option string :=
  match last (path_parts p) with Some x => if (x =? "..")%string then None else Some x | None => None end.

Definition safe_staging_name (name : string) : Result UpdaterError string :=
  let reject reason := Err (UpSource ("refusing unsafe artifact name `" +:+ name +:+ "`: " +:+ reason)) in
  if (name =? "")%string then reject "empty"%string
  else if contains_char "/" name || contains_char "\" name || contains_char "000" name then reject "contains a path separator or NUL"%string
  else if contains_char ":" name then reject "contains a drive or stream separator"%string
  else match file_name name with
       | Some base => if (base =? name)%string && negb (base =? ".")%string && negb (base =? "..")%string then Ok base
                      else reject "does not reduce to a single safe filename component"%string
       | None => reject "does not reduce to a single safe filename component"%string
       end.

Definition select_artifact (rel : ReleaseInfo) (target : string) : option ReleaseArtifact :=
  match List.find (fun a => str_contains target (ra_name a)) (ri_artifacts rel) with
  | Some a => Some a
  | None => match ri_artifacts rel with [a] => Some a | _ => None end
  end.

Definition select_signature (rel : ReleaseInfo) (name : string) : option ReleaseArtifact :=
  List.find (fun s => (ra_name s =? name +:+ ".minisig")%string || str_contains name (ra_name s)) (ri_signatures rel).

Definition is_sums_name (n : string) : bool := (to_ascii_lowercase n =? to_ascii_lowercase "SHA256SUMS")%string || ends_with_str "SHA256SUMS" n.
Definition select_sha256sums (rel : ReleaseInfo) : option ReleaseArtifact := List.find (fun a => is_sums_name (ra_name a)) (ri_artifacts rel ++ ri_signatures rel).

Definition size_cap (advertised : option Z) : Z := match advertised with Some n => Z.min n MAX_DOWNLOAD_BYTES | None => MAX_DOWNLOAD_BYTES end.

(** A response: its status, the length it announces and the chunks of its body
    until it ends or fails. *)
Record HttpResponse := mkHttpResponse { hr_status : Z; hr_content_length : option Z; hr_chunks : list (option (list Z)) }.

(** What a URL gives: a local file, or a response if one comes. *)
Inductive Fetched := LocalFile (c : option (list Z)) | Http (r : option HttpResponse).

Fixpoint read_chunks (url : string) (cap : Z) (body : list Z) (l : list (option (list Z))) : Result UpdaterError (list Z) :=
  match l with
  | [] => Ok body
  | None :: _ => Err (UpSource ("read body " +:+ url))
  | Some chunk :: r =>
      if cap <? sat_add 64 (Z.of_nat (length body)) (Z.of_nat (length chunk))
      then Err (UpSource (url +:+ " body exceeds cap " +:+ pretty cap +:+ " bytes"))
      else read_chunks url cap (body ++ chunk) r
  end.

Definition fetch_bytes (get : string -> Fetched) (url : string) (cap : Z) : Result UpdaterError (list Z) :=
  match get url with
  | LocalFile None => Err (UpSource ("stat " +:+ url))
  | LocalFile (Some c) => if cap <? Z.of_nat (length c) then Err (UpSource (url +:+ " exceeds cap " +:+ pretty cap)) else Ok c
  | Http None => Err (UpSource ("GET " +:+ url))
  | Http (Some r) =>
      if negb (between 200 299 (hr_status r)) then Err (UpSource ("GET " +:+ url +:+ " returned HTTP " +:+ pretty (hr_status r)))
      else match hr_content_length r with
           | Some len => if cap <? len then Err (UpSource (url +:+ " advertises " +:+ pretty len +:+ " bytes, exceeds cap " +:+ pretty cap)) else read_chunks url cap [] (hr_chunks r)
           | None => read_chunks url cap [] (hr_chunks r)
           end
  end.

(** The staging directory by file name. *)
Abbreviation Staging := (gmap string (list Z)).

Record Staged := mkStaged {
  sg_artifact : string;
  sg_signature : option string;
  sg_sha256sums : option (list Z);
  sg_name : string;
  sg_expected_sha256 : option string
}.

(** The last step of a download: the checksums, if the release has them. *)
Definition with_sums (get : string -> Fetched) (rel : ReleaseInfo) (artifact : ReleaseArtifact) (sig : option string) : Result UpdaterError Staged :=
  match select_sha256sums rel with
  | None => Ok (mkStaged (ra_name artifact) sig None (ra_name artifact) (ra_sha256 artifact))
  | Some s =>
      match fetch_bytes get (ra_url s) MAX_DOWNLOAD_BYTES with
      | Err e => Err e
      | Ok b => Ok (mkStaged (ra_name artifact) sig (Some b) (ra_name artifact) (ra_sha256 artifact))
      end
  end.

(** Files are written one after the other: what was staged before a failure
    stays.  A safe name is the name itself. *)
Definition download_release (get : string -> Fetched) (rel : ReleaseInfo) (target : string) (st : Staging) : Result UpdaterError Staged * Staging :=
  match select_artifact rel target with
  | None => (Err (UpSource ("no artifact in release " +:+ ri_tag rel +:+ " matches target `" +:+ target +:+ "`")), st)
  | Some artifact =>
      match safe_staging_name (ra_name artifact) with
      | Err e => (Err e, st)
      | Ok base =>
          match fetch_bytes get (ra_url artifact) (size_cap (ra_size artifact)) with
          | Err e => (Err e, st)
          | Ok bytes =>
              let st := <[base := bytes]> st in
              match select_signature rel (ra_name artifact) with
              | None => (with_sums get rel artifact None, st)
              | Some sig =>
                  match safe_staging_name (ra_name sig) with
                  | Err e => (Err e, st)
                  | Ok sig_base =>
                      match fetch_bytes get (ra_url sig) MAX_DOWNLOAD_BYTES with
                      | Err e => (Err e, st)
                      | Ok b => (with_sums get rel artifact (Some sig_base), <[sig_base := b]> st)
                      end
                  end
              end
          end
      end
  end.

(** ** Verification ([verify.rs]) *)

(** The hash in lower-case hex, and a signature file against a key file. *)
Class Crypto := {
  sha256_hex : list Z -> string;
  minisign_verify : list Z -> list Z -> list Z -> bool
}.

Section Verify.
Context `{Lowercase} `{Crypto}.

Definition sums_line (filename line : string) : option string :=
  let line := trim line in
  if (line =? "")%string || starts_with "#" line then None
  else
    let '(hex_part, rest) := split_ws line in
    let name_part := trim_start_matches "*" (trim_start (default ""%string rest)) in
    let name_matches := (name_part =? filename)%string || bool_decide (file_name name_part = Some filename) in
    if name_matches && (String.length hex_part =? 64)%nat then Some (to_lowercase hex_part) else None.

Fixpoint first_some {A} (l : list (option A)) : option A := match l with [] => None | Some x :: _ => Some x | None :: r => first_some r end.

Definition lookup_in_sha256sums (sums_body filename : string) : option string := first_some (sums_line filename <$> lines sums_body).

(** [artifact] is what the read of the file gives here, if it succeeds. *)
Definition verify_checksum_against_digest (name : string) (artifact : option (list Z)) (expected : string) : Result UpdaterError unit :=
  match artifact with
  | None => Err (UpVerify ("read " +:+ name))
  | Some bytes =>
      let got := sha256_hex bytes in
      let expected := to_lowercase (trim expected) in
      if (got =? expected)%string then Ok tt else Err (UpVerify ("SHA-256 mismatch for " +:+ name +:+ ": expected " +:+ expected +:+ ", got " +:+ got))
  end.

Definition verify_checksum_against_sums (name : string) (artifact : option (list Z)) (sums_body filename : string) : Result UpdaterError bool :=
  match lookup_in_sha256sums sums_body filename with
  | None => Ok false
  | Some expected => match verify_checksum_against_digest name artifact expected with Ok _ => Ok true | Err e => Err e end
  end.

Record VerifyInputs := mkVerifyInputs { vi_expected_sha256 : option string; vi_sha256sums_body : option string; vi_artifact_name : option string }.

Definition run_checksum_check (name : string) (artifact : option (list Z)) (inputs : VerifyInputs) : Result UpdaterError bool :=
  let inline :=
    match vi_expected_sha256 inputs with
    | Some expected => match verify_checksum_against_digest name artifact expected with Ok _ => Ok true | Err e => Err e end
    | None => Ok false
    end in
  match vi_sha256sums_body inputs, vi_artifact_name inputs with
  | Some body, Some n =>
      match verify_checksum_against_sums name artifact body n with
      | Err e => Err e
      | Ok true => Ok true
      | Ok false => inline
      end
  | _, _ => inline
  end.

(** [verify_minisign]: the key, the signature and the artifact are files; one that
    cannot be read is refused. *)
Definition verify_minisign (name : string) (artifact signature : option (list Z)) (pubkey : string) (read_key : string -> option (list Z)) : Result UpdaterError unit :=
  match read_key pubkey with
  | None => Err (UpVerify ("load minisign pubkey " +:+ pubkey))
  | Some key =>
      match signature with
      | None => Err (UpVerify "load minisign signature")
      | Some sig =>
          match artifact with
          | None => Err (UpVerify ("read " +:+ name))
          | Some bytes => if minisign_verify key sig bytes then Ok tt else Err (UpVerify "minisign verification failed")
          end
      end
  end.

(** [signature]: the file of the signature, if one was downloaded, as it is read. *)
Definition run_minisign_check (cfg : VerifyConfig) (read_key : string -> option (list Z)) (name : string) (artifact : option (list Z)) (signature : option (option (list Z)))
  : Result UpdaterError bool :=
  match minisign_pubkey cfg, signature with
  | Some pubkey, Some sig => match verify_minisign name artifact sig pubkey read_key with Ok _ => Ok true | Err e => Err e end
  | _, _ => Ok false
  end.

(** The checks read the artifact one after the other: [for_checksum], then
    [for_signature]. *)
Definition verify_artifact (cfg : VerifyConfig) (read_key : string -> option (list Z)) (name : string) (for_checksum for_signature : option (list Z))
  (signature : option (option (list Z))) (inputs : VerifyInputs) : Result UpdaterError unit :=
  match gpg_pubkey cfg with
  | Some gpg => Err (UpVerify ("gpg_pubkey is set (" +:+ gpg +:+ ") but in-process GPG verification is not available"))
  | None =>
      match run_checksum_check name for_checksum inputs with
      | Err e => Err e
      | Ok checksum_ok =>
          if require_sha256sums cfg && negb checksum_ok then Err (UpVerify ("require_sha256sums = true but no SHA-256 digest was available for " +:+ name))
          else
            match run_minisign_check cfg read_key name for_signature signature with
            | Err e => Err e
            | Ok signature_ok =>
                if require_minisign cfg && negb signature_ok
                then Err (UpVerify ("require_minisign = true but no valid minisign material was available for " +:+ name))
                else Ok tt
            end
      end
  end.
End Verify.

(** ** The window ([window.rs]) *)

Definition parse_hhmm (s : string) : option Z :=
  '(h, m) ← split_once ":" (trim s);
  h ← parse_uint 32 (trim h); m ← parse_uint 32 (trim m);
  if (23 <? h) || (59 <? m) then None else Some (h * 60 + m).

(** [minute] is the minute of the day in UTC. *)
Definition is_within_window (w : WindowConfig) (minute : Z) : bool :=
  match parse_hhmm (allow_from w), parse_hhmm (allow_to w) with
  | Some from, Some to => if from <=? to then between from to minute else (from <=? minute) || (minute <=? to)
  | _, _ => true
  end.

Definition auto_install_allowed (cfg : UpdaterConfig) (minute : Z) : bool := match uc_window cfg with Some w => is_within_window w minute | None => true end.

(** ** Retention ([staging.rs]) *)

Definition SIG_SUFFIX : string := ".minisig".
Definition is_shared_name (name : string) : bool := is_sums_name name || (name =? "release-manifest.json")%string.
Definition prunable (name : string) : bool := negb (starts_with "." name || ends_with_str SIG_SUFFIX name || is_shared_name name).

(** A stable sort, newest first. *)
Fixpoint insert_newest (x : Z * string) (l : list (Z * string)) : list (Z * string) :=
  match l with [] => [x] | y :: r => if y.1 <=? x.1 then x :: l else y :: insert_newest x r end.
Definition newest_first (l : list (Z * string)) : list (Z * string) := foldr insert_newest [] l.

(** One archive and its signature, with the count of removed files. *)
Definition remove_staged (acc : Z * Staging) (e : Z * string) : Z * Staging :=
  let sig := (e.2 +:+ SIG_SUFFIX)%string in
  let st := delete e.2 acc.2 in
  match st !! sig with Some _ => (acc.1 + 2, delete sig st) | None => (acc.1 + 1, st) end.

(** [listing]: the files of the directory in its order, with their times; every
    removal of a file that is there succeeds. *)
Definition prune (keep_last : Z) (listing : list (Z * string)) (st : Staging) : Z * Staging :=
  let keep := Z.to_nat (Z.max keep_last 1) in
  let archives := List.filter (fun e => prunable e.2) listing in
  if (length archives <=? keep)%nat then (0, st)
  else foldl remove_staged (0, st) (drop keep (newest_first archives)).

(** ** The cycle ([lib.rs], [install.rs], [audit.rs]) *)

(** How far the swap gets. *)
Inductive SwapIo := SwapDone | CopyFails | PermsFail | FsyncFails | SwapRenameFails.

(** [artifact]: the file as the copy reads it; a file that is not there is
    noticed before. *)
Definition swap (io : SwapIo) (artifact : option (list Z)) (binary : list Z) : Result UpdaterError unit * list Z :=
  match artifact with
  | None => (Err (UpInstall "new binary does not exist"), binary)
  | Some artifact =>
  match io with
  | SwapDone => (Ok tt, artifact)
  | CopyFails => (Err (UpInstall "copy"), binary)
  | PermsFail => (Err (UpInstall "set perms"), binary)
  | FsyncFails => (Err (UpInstall "fsync"), binary)
  | SwapRenameFails => (Err (UpInstall "rename"), binary)
  end
  end.

Definition HISTORY_FILE : string := ".spt-update-history.jsonl".

(** The installed binary, the staging directory as the updater writes it, and the
    hooks that ran. *)
Record Machine := mkMachine { mc_binary : list Z; mc_staging : Staging; mc_hooks : list (string * string * string) }.

Record ApplyReport := mkApplyReport { ap_version : string; ap_installed_from : string; ap_restart_requested : bool }.

Section Cycle.
Context {V : Type} `{SemVer V} `{Lowercase} `{Crypto}.
Context (current : V) (target : string).

(** What a staged file is read for: its checksum, its signature (the file of the
    signature and the artifact) and the copy over the binary. *)
Inductive ReadFor := ForChecksum | ForSignatureFile | ForSignature | ForCopy.

(** What a cycle reads from outside: the release the source calls the latest when
    it is polled and again when it is applied, what its URLs give, what the reads
    of a staged file give (another process may have changed or removed it), the
    key files, the swap, the line of the history and the listing of the
    directory after the install. *)
Record Surroundings := mkSurroundings {
  so_polled : Result UpdaterError ReleaseInfo;
  so_latest : Result UpdaterError ReleaseInfo;
  so_reads : ReadFor -> string -> option (list Z) -> option (list Z);
  so_get : string -> Fetched;
  so_read_key : string -> option (list Z);
  so_swap : SwapIo;
  so_history_line : string -> string -> list Z;
  so_listing : list (Z * string)
}.

Record CheckOutcome := mkCheckOutcome { co_latest_tag : string; co_current_version : string; co_update_available : bool }.

Definition poll_once (s : Surroundings) : Result UpdaterError CheckOutcome :=
  match so_polled s with
  | Err e => Err e
  | Ok release =>
      match parse_tag (ri_tag release) with
      | Err e => Err e
      | Ok latest => Ok (mkCheckOutcome (to_tag_string latest) (to_tag_string current) (is_newer_than latest current))
      end
  end.

Definition staged_inputs (sg : Staged) : VerifyInputs :=
  mkVerifyInputs (sg_expected_sha256 sg) ((fun b => string_of (utf8_lossy b)) <$> sg_sha256sums sg) (Some (sg_name sg)).

(** A download and the verification of what it staged. *)
Definition stage_and_verify (cfg : UpdaterConfig) (s : Surroundings) (release : ReleaseInfo) (st : Staging) : Result UpdaterError Staged * Staging :=
  match download_release (so_get s) release target st with
  | (Err e, st) => (Err e, st)
  | (Ok sg, st) =>
      let read r n := so_reads s r n (st !! n) in
      match verify_artifact (uc_verify cfg) (so_read_key s) (sg_artifact sg) (read ForChecksum (sg_artifact sg)) (read ForSignature (sg_artifact sg))
              (read ForSignatureFile <$> sg_signature sg) (staged_inputs sg) with
      | Err e => (Err e, st)
      | Ok _ => (Ok sg, st)
      end
  end.

Definition post_install (cfg : UpdaterConfig) (s : Surroundings) (version artifact : string) (m : Machine) : Machine :=
  let hooks := match post_install_hook (uc_action cfg) with Some h => mc_hooks m ++ [(h, version, artifact)] | None => mc_hooks m end in
  let st := if notify_audit (uc_action cfg)
            then <[HISTORY_FILE := default [] (mc_staging m !! HISTORY_FILE) ++ so_history_line s version artifact]> (mc_staging m)
            else mc_staging m in
  mkMachine (mc_binary m) (prune (keep_last (uc_staging cfg)) (so_listing s) st).2 hooks.

Definition download_and_verify (cfg : UpdaterConfig) (s : Surroundings) (m : Machine) : Result UpdaterError Staged * Machine :=
  match so_latest s with
  | Err e => (Err e, m)
  | Ok release =>
      match stage_and_verify cfg s release (mc_staging m) with
      | (Err e, st) => (Err e, mkMachine (mc_binary m) st (mc_hooks m))
      | (Ok sg, st) => (Ok sg, mkMachine (mc_binary m) (prune (keep_last (uc_staging cfg)) (so_listing s) st).2 (mc_hooks m))
      end
  end.

Definition apply_update (cfg : UpdaterConfig) (s : Surroundings) (m : Machine) : Result UpdaterError ApplyReport * Machine :=
  match so_latest s with
  | Err e => (Err e, m)
  | Ok release =>
      match parse_tag (ri_tag release) with
      | Err e => (Err e, m)
      | Ok latest =>
          if negb (is_newer_than latest current)
          then (Err (UpInstall ("no newer release to apply (current " +:+ to_tag_string current +:+ " >= latest " +:+ to_tag_string latest +:+ ")")), m)
          else
            match stage_and_verify cfg s release (mc_staging m) with
            | (Err e, st) => (Err e, mkMachine (mc_binary m) st (mc_hooks m))
            | (Ok sg, st) =>
                match swap (so_swap s) (so_reads s ForCopy (sg_artifact sg) (st !! sg_artifact sg)) (mc_binary m) with
                | (Err e, b) => (Err e, mkMachine b st (mc_hooks m))
                | (Ok _, b) =>
                    let version := to_tag_string latest in
                    (Ok (mkApplyReport version (sg_artifact sg) (restart_supervisor (uc_action cfg))),
                     post_install cfg s version (sg_artifact sg) (mkMachine b st (mc_hooks m)))
                end
            end
      end
  end.

(** What the status shows, as far as a check writes it. *)
Record UpdaterStatus := mkUpdaterStatus {
  us_latest_version : option string;
  us_update_available : bool;
  us_staged_artifact : option string;
  us_last_error : option UpdaterError
}.

(** One check of the thread, at a minute of the day; the last component says
    whether a restart is asked for. *)
Definition run_check (cfg : UpdaterConfig) (s : Surroundings) (minute : Z) (us : UpdaterStatus) (m : Machine) : UpdaterStatus * Machine * bool :=
  match poll_once s with
  | Err e => (mkUpdaterStatus (us_latest_version us) (us_update_available us) (us_staged_artifact us) (Some e), m, false)
  | Ok outcome =>
      let us := mkUpdaterStatus (Some (co_latest_tag outcome)) (co_update_available outcome) (us_staged_artifact us) None in
      match uc_mode cfg with
      | ModeAuto =>
          if co_update_available outcome && auto_install_allowed cfg minute then
            match apply_update cfg s m with
            | (Ok report, m) => (mkUpdaterStatus (us_latest_version us) (us_update_available us) (Some (ap_installed_from report)) None, m, ap_restart_requested report)
            | (Err e, m) => (mkUpdaterStatus (us_latest_version us) (us_update_available us) (us_staged_artifact us) (Some e), m, false)
            end
          else (us, m, false)
      | _ => (us, m, false)
      end
  end.

(** The thread is not started when the updater is off. *)
Definition spawns (cfg : UpdaterConfig) : bool := uc_enabled cfg && match uc_mode cfg with ModeOff => false | _ => true end.
End Cycle.

(** ** Lemmas: downloads *)

Lemma read_chunks_cap url cap body l b :
  read_chunks url cap body l = Ok b -> Z.of_nat (length body) <= cap < umax 64 -> Z.of_nat (length b) <= cap.
Proof.
  revert body. induction l as [|[chunk|] l IH]; intros body; cbn [read_chunks]; [intros [= <-]; lia| |done].
  destruct (cap <? sat_add 64 (Z.of_nat (length body)) (Z.of_nat (length chunk))) eqn:E; [done|]. apply Z.ltb_ge in E. intros Hr Hc. apply (IH (body ++ chunk) Hr).
  rewrite length_app. unfold sat_add in E. lia.
Qed.

Lemma fetch_cap get url cap b : fetch_bytes get url cap = Ok b -> 0 <= cap <= MAX_DOWNLOAD_BYTES -> Z.of_nat (length b) <= cap.
Proof.
  assert (MAX_DOWNLOAD_BYTES < umax 64) as Hm by (vm_compute; done). unfold fetch_bytes. intros Hf Hc. destruct (get url) as [[c|]|[r|]]; try done.
  - destruct (cap <? _) eqn:E; [done|]. injection Hf as <-. by apply Z.ltb_ge in E.
  - destruct (negb _); [done|]. assert (read_chunks url cap [] (hr_chunks r) = Ok b) as Hr by (destruct (hr_content_length r); [by destruct (cap <? _)|done]).
    eapply read_chunks_cap; [done|]. cbn. lia.
Qed.

(** What a URL serves: the local file, or the whole body of a response that
    succeeds. *)
Definition served (get : string -> Fetched) (url : string) (b : list Z) : Prop :=
  get url = LocalFile (Some b) \/ exists r cs, get url = Http (Some r) /\ 200 <= hr_status r <= 299 /\ hr_chunks r = Some <$> cs /\ b = concat cs.

Lemma read_chunks_all url cap body l b : read_chunks url cap body l = Ok b -> exists cs, l = Some <$> cs /\ b = body ++ concat cs.
Proof.
  revert body. induction l as [|[chunk|] l IH]; intros body; cbn [read_chunks]; [intros [= <-]; exists []; by rewrite app_nil_r| |done].
  destruct (cap <? _); [done|]. intros (cs & -> & ->)%IH. exists (chunk :: cs). split; [done|]. by rewrite <- app_assoc.
Qed.

Lemma fetch_served get url cap b : fetch_bytes get url cap = Ok b -> served get url b.
Proof.
  unfold fetch_bytes, served. destruct (get url) as [[c|]|[r|]]; try done.
  - destruct (cap <? _); [done|]. intros [= <-]. by left.
  - destruct (between 200 299 (hr_status r)) eqn:Eb; cbn [negb]; [|done]. intros Hf. right.
    assert (read_chunks url cap [] (hr_chunks r) = Ok b) as (cs & Hc & ->)%read_chunks_all by (destruct (hr_content_length r); [by destruct (cap <? _)|done]).
    exists r, cs. split; [done|]. unfold between in Eb. split; [lia|]. done.
Qed.

(** A name that is one component of a path. *)
Definition one_component (n : string) : Prop := n <> ""%string /\ n <> "."%string /\ n <> ".."%string /\ no_char "/" n = true.

Lemma safe_staging_name_ok name base : safe_staging_name name = Ok base -> base = name /\ one_component name.
Proof.
  unfold safe_staging_name, one_component, contains_char. destruct (String.eqb_spec name "") as [|Hne]; [done|]. destruct (no_char "/" name) eqn:Hs; cbn [negb orb]; [|done].
  destruct (negb _ || negb _); [done|]. destruct (negb _); [done|]. destruct (file_name name) as [x|]; [|done].
  destruct (String.eqb_spec x name) as [->|]; [|done]. destruct (String.eqb_spec name "."), (String.eqb_spec name ".."); cbn; try done. by intros [= <-].
Qed.

(** What a download may write. *)
Definition staged_file (get : string -> Fetched) (rel : ReleaseInfo) (n : string) (b : list Z) : Prop :=
  one_component n /\ Z.of_nat (length b) <= MAX_DOWNLOAD_BYTES /\ exists a, a ∈ ri_artifacts rel ++ ri_signatures rel /\ ra_name a = n /\
  served get (ra_url a) b.

(** The artifact of a release for a target: its name has the triple in it, or it
    is the only one. *)
Definition for_target (rel : ReleaseInfo) (target : string) (a : ReleaseArtifact) : Prop :=
  a ∈ ri_artifacts rel /\ ((exists p q, ra_name a = p +:+ target +:+ q)%string \/ ri_artifacts rel = [a]).

(** A signature of a release for an artifact: its name has the artifact's in it. *)
Definition signature_for (rel : ReleaseInfo) (a sig : ReleaseArtifact) : Prop :=
  sig ∈ ri_signatures rel /\ exists p q, ra_name sig = (p +:+ ra_name a +:+ q)%string.

(** A checksum file of a release. *)
Definition sums_of (rel : ReleaseInfo) (x : ReleaseArtifact) : Prop :=
  x ∈ ri_artifacts rel ++ ri_signatures rel /\ (to_ascii_lowercase (ra_name x) = "sha256sums"%string \/ exists p, ra_name x = (p +:+ "SHA256SUMS")%string).

Lemma select_artifact_in rel target a : select_artifact rel target = Some a -> a ∈ ri_artifacts rel.
Proof.
  unfold select_artifact. destruct (List.find _ (ri_artifacts rel)) as [x|] eqn:E.
  - intros [= <-]. apply find_some in E as [E _]. by apply list_elem_of_In.
  - destruct (ri_artifacts rel) as [|x [|? ?]]; [done| |done]. intros [= <-]. by left.
Qed.

Lemma size_cap_range o : (forall n, o = Some n -> 0 <= n) -> 0 <= size_cap o <= MAX_DOWNLOAD_BYTES.
Proof. intros Ho. unfold size_cap, MAX_DOWNLOAD_BYTES. destruct o as [n|]; [|lia]. specialize (Ho n eq_refl). lia. Qed.

(** The staging directory before and after, as far as a download may change it. *)
Definition staged_over (get : string -> Fetched) (rel : ReleaseInfo) (st st' : Staging) : Prop :=
  forall n, st' !! n = st !! n \/ exists b, st' !! n = Some b /\ staged_file get rel n b.

Lemma staged_over_insert get rel st st' n b : staged_over get rel st st' -> staged_file get rel n b -> staged_over get rel st (<[n := b]> st').
Proof.
  intros Hst Hf k. destruct (decide (k = n)) as [->|Hk]; [right; exists b; by rewrite lookup_insert_eq|]. rewrite lookup_insert_ne by done. apply Hst.
Qed.

(** The checksum file of a release, as it is fetched. *)
Definition sums_text (get : string -> Fetched) (rel : ReleaseInfo) (body : list Z) : Prop :=
  exists x, sums_of rel x /\ served get (ra_url x) body.

Lemma select_sha256sums_of rel x : select_sha256sums rel = Some x -> sums_of rel x.
Proof.
  intros [Hin Hn]%find_some. split; [by apply list_elem_of_In|]. apply orb_true_iff in Hn as [Hn%String.eqb_eq|Hn%bool_decide_eq_true]; [by left|right].
  destruct Hn as [p Hp%strip_suffix_spec]. by exists p.
Qed.

Lemma str_contains_infix p s : str_contains p s = true -> exists a b, s = (a +:+ p +:+ b)%string.
Proof.
  induction s as [|c s IH]; cbn [str_contains]; intros [Hs%bool_decide_eq_true|Hs]%orb_true_iff; try done; [by destruct Hs as [b ->%strip_prefix_spec]; exists ""%string, b..|].
  destruct (IH Hs) as (a & b & ->). by exists (String c a), b.
Qed.

Lemma select_artifact_for rel target a : select_artifact rel target = Some a -> for_target rel target a.
Proof.
  intros Hs. split; [by eapply select_artifact_in|]. unfold select_artifact in Hs. destruct (List.find _ (ri_artifacts rel)) as [x|] eqn:E.
  - injection Hs as ->. apply find_some in E as [_ E]. left. by apply str_contains_infix.
  - right. destruct (ri_artifacts rel) as [|x [|? ?]]; [done|by injection Hs as ->|done].
Qed.

Lemma select_signature_for rel a sig : select_signature rel (ra_name a) = Some sig -> signature_for rel a sig.
Proof.
  intros [Hin Hn]%find_some. split; [by apply list_elem_of_In|]. apply orb_true_iff in Hn as [Hn%String.eqb_eq|Hn]; [|by apply str_contains_infix].
  by exists ""%string, ".minisig"%string.
Qed.

Lemma with_sums_ok get rel a sig sg :
  with_sums get rel a sig = Ok sg ->
  sg_artifact sg = ra_name a /\ sg_name sg = ra_name a /\ sg_expected_sha256 sg = ra_sha256 a /\ sg_signature sg = sig /\
  (forall body, sg_sha256sums sg = Some body -> sums_text get rel body).
Proof.
  unfold with_sums, sums_text. destruct (select_sha256sums rel) as [s|] eqn:Es; [destruct (fetch_bytes get (ra_url s) MAX_DOWNLOAD_BYTES) as [x|] eqn:E; [|done]|].
  - intros [= <-]. do 4 (split; [done|]). intros body [= <-]. exists s. split; [by apply select_sha256sums_of|by eapply fetch_served].
  - by intros [= <-].
Qed.

Lemma signature_file get rel name sig b :
  select_signature rel name = Some sig -> one_component (ra_name sig) -> fetch_bytes get (ra_url sig) MAX_DOWNLOAD_BYTES = Ok b -> staged_file get rel (ra_name sig) b.
Proof.
  intros Es Hone Hf. split; [done|]. split; [eapply fetch_cap; [done|]; vm_compute; done|]. exists sig. split; [|split; [done|by eapply fetch_served]]. apply elem_of_app. right.
  unfold select_signature in Es. apply find_some in Es as [Es _]. by apply list_elem_of_In.
Qed.

Lemma artifact_file get rel a b :
  (forall a n, a ∈ ri_artifacts rel -> ra_size a = Some n -> 0 <= n) -> a ∈ ri_artifacts rel -> one_component (ra_name a) ->
  fetch_bytes get (ra_url a) (size_cap (ra_size a)) = Ok b -> staged_file get rel (ra_name a) b.
Proof.
  intros Hsize Hin Hone Hf. split; [done|]. split; [|exists a; split; [apply elem_of_app; by left|split; [done|by eapply fetch_served]]].
  pose proof (size_cap_range (ra_size a) (fun n => Hsize a n Hin)) as Hr. pose proof (fetch_cap _ _ _ _ Hf Hr). lia.
Qed.

(** The signature a download staged beside the artifact. *)
Definition staged_signature (get : string -> Fetched) (rel : ReleaseInfo) (a : ReleaseArtifact) (st : Staging) (n : string) : Prop :=
  exists sig sb, signature_for rel a sig /\ n = ra_name sig /\ served get (ra_url sig) sb /\ st !! n = Some sb.

(** What a finished download leaves. *)
Definition staged_right (get : string -> Fetched) (rel : ReleaseInfo) (target : string) (st : Staging) (sg : Staged) : Prop :=
  exists a b, for_target rel target a /\ sg_artifact sg = ra_name a /\ sg_name sg = ra_name a /\ sg_expected_sha256 sg = ra_sha256 a /\
  st !! ra_name a = Some b /\ staged_file get rel (ra_name a) b /\
  (forall body, sg_sha256sums sg = Some body -> sums_text get rel body) /\ (forall n, sg_signature sg = Some n -> staged_signature get rel a st n).

Lemma with_sums_right get rel target st a b sig sg :
  for_target rel target a -> with_sums get rel a sig = Ok sg -> st !! ra_name a = Some b -> staged_file get rel (ra_name a) b ->
  (forall n, sig = Some n -> staged_signature get rel a st n) -> staged_right get rel target st sg.
Proof. intros Ha (H1 & H2 & H3 & H4 & H5)%with_sums_ok Hb Hf Hs. exists a, b. rewrite H4. by split_and!. Qed.

Lemma download_spec get rel target st :
  (forall a n, a ∈ ri_artifacts rel -> ra_size a = Some n -> 0 <= n) ->
  let '(r, st') := download_release get rel target st in
  staged_over get rel st st' /\ (forall sg, r = Ok sg -> staged_right get rel target st' sg).
Proof.
  intros Hsize. assert (staged_over get rel st st) as H0 by (by left). unfold download_release. destruct (select_artifact rel target) as [a|] eqn:Ea; [|done].
  pose proof (select_artifact_in _ _ _ Ea) as Hin. pose proof (select_artifact_for _ _ _ Ea) as Hat. destruct (safe_staging_name (ra_name a)) as [base|] eqn:Eb; [|done].
  apply safe_staging_name_ok in Eb as [-> Hone]. destruct (fetch_bytes get (ra_url a) (size_cap (ra_size a))) as [bytes|] eqn:Ef; [|done].
  pose proof (artifact_file get rel a bytes Hsize Hin Hone Ef) as Hfile. pose proof (staged_over_insert _ _ _ _ _ _ H0 Hfile) as H1.
  destruct (select_signature rel (ra_name a)) as [sig|] eqn:Es; [|split; [done|]; intros sg Hsg; by eapply with_sums_right; [done|done|apply lookup_insert_eq|done|]].
  destruct (safe_staging_name (ra_name sig)) as [sbase|] eqn:Esb; [|done]. apply safe_staging_name_ok in Esb as [-> Hsone].
  destruct (fetch_bytes get (ra_url sig) MAX_DOWNLOAD_BYTES) as [sb|] eqn:Esf; [|done]. pose proof (signature_file _ _ _ _ _ Es Hsone Esf) as Hsfile.
  split; [by apply staged_over_insert|]. intros sg Hsg.
  assert (forall n, Some (ra_name sig) = Some n -> staged_signature get rel a (<[ra_name sig:=sb]> (<[ra_name a:=bytes]> st)) n) as Hsig.
  { intros n [= <-]. exists sig, sb. split_and!; [by apply select_signature_for|done|by eapply fetch_served|apply lookup_insert_eq]. }
  destruct (decide (ra_name sig = ra_name a)) as [E|Hn].
  - eapply with_sums_right; [done|done|rewrite E; apply lookup_insert_eq|by rewrite <- E|done].
  - eapply with_sums_right; [done|done|rewrite lookup_insert_ne by done; apply lookup_insert_eq|done|done].
Qed.

(** ** Lemmas: verification *)

Section VerifyProofs.
Context `{Lowercase} `{Crypto}.

(** A line of a checksum file for a name, or for a path that ends in it: a digest
    of 64 characters and the name, after blanks and stars. *)
Definition listed_digest (body n e : string) : Prop :=
  exists line hex rest, line ∈ lines body /\ split_ws (trim line) = (hex, rest) /\ String.length hex = 64%nat /\ e = to_lowercase hex /\
  let name := trim_start_matches "*" (trim_start (default ""%string rest)) in name = n \/ file_name name = Some n.

Lemma first_some_in {A} (l : list (option A)) x : first_some l = Some x -> Some x ∈ l.
Proof. induction l as [|[y|] l IH]; [done|intros [= ->]; by left|]. intros H1. right. by apply IH. Qed.

Lemma lookup_listed body n e : lookup_in_sha256sums body n = Some e -> listed_digest body n e.
Proof.
  intros (line & E & Hl)%first_some_in%list_elem_of_fmap. unfold sums_line in E. destruct (_ || _); [done|]. destruct (split_ws (trim line)) as [hex rest] eqn:Es.
  destruct (_ && _) eqn:Ec; [|done]. injection E as ->. apply andb_true_iff in Ec as [Hn Hx%Nat.eqb_eq]. exists line, hex, rest. do 4 (split; [done|]).
  cbv zeta. by apply orb_true_iff in Hn as [Hn%String.eqb_eq|Hn%bool_decide_eq_true]; [left|right].
Qed.

(** A digest given for an artifact: by a line of the checksum file, or by the
    source. *)
Definition given (inputs : VerifyInputs) (d : string) : Prop :=
  exists e, d = to_lowercase (trim e) /\
  ((exists body n, vi_sha256sums_body inputs = Some body /\ vi_artifact_name inputs = Some n /\ listed_digest body n e) \/ vi_expected_sha256 inputs = Some e).

Lemma digest_ok name c e : verify_checksum_against_digest name c e = Ok tt -> exists b, c = Some b /\ sha256_hex b = to_lowercase (trim e).
Proof. unfold verify_checksum_against_digest. destruct c as [b|]; [|done]. destruct (String.eqb_spec (sha256_hex b) (to_lowercase (trim e))); [|done]. eauto. Qed.

Lemma checksum_ok name c inputs : run_checksum_check name c inputs = Ok true -> exists b, c = Some b /\ given inputs (sha256_hex b).
Proof.
  unfold run_checksum_check, verify_checksum_against_sums. intros Hc.
  assert (match vi_expected_sha256 inputs with Some expected => match verify_checksum_against_digest name c expected with Ok _ => Ok true | Err e => Err e end | None => Ok false end = Ok true ->
    exists b, c = Some b /\ given inputs (sha256_hex b)) as Hin.
  { destruct (vi_expected_sha256 inputs) as [e|] eqn:Ee; [|done]. destruct (verify_checksum_against_digest name c e) as [[]|] eqn:Ev; [|done]. intros _.
    apply digest_ok in Ev as (b & -> & Ev). exists b. split; [done|]. exists e. split; [done|]. by right. }
  destruct (vi_sha256sums_body inputs) as [body|] eqn:Eb; [|by apply Hin]. destruct (vi_artifact_name inputs) as [n|] eqn:En; [|by apply Hin].
  destruct (lookup_in_sha256sums body n) as [e|] eqn:El; [|by apply Hin]. destruct (verify_checksum_against_digest name c e) as [[]|] eqn:Ev; [|done].
  apply digest_ok in Ev as (b & -> & Ev). exists b. split; [done|]. exists e. split; [done|]. left. exists body, n. split_and!; [done|done|by apply lookup_listed].
Qed.

Lemma minisign_ok cfg read_key name c sig :
  run_minisign_check cfg read_key name c sig = Ok true ->
  exists path key sb b, minisign_pubkey cfg = Some path /\ read_key path = Some key /\ sig = Some (Some sb) /\ c = Some b /\ minisign_verify key sb b = true.
Proof.
  unfold run_minisign_check, verify_minisign. destruct (minisign_pubkey cfg) as [path|]; [|done]. destruct sig as [sb|]; [|done].
  destruct (read_key path) as [key|] eqn:Ek; [|done]. destruct sb as [sb|]; [|done]. destruct c as [b|]; [|done]. destruct (minisign_verify key sb b) eqn:Em; [|done].
  intros _. by exists path, key, sb, b.
Qed.

(** What passes meets the policy, each check of the bytes it read. *)
Lemma verify_meets cfg read_key name c1 c2 sig inputs :
  verify_artifact cfg read_key name c1 c2 sig inputs = Ok tt ->
  gpg_pubkey cfg = None /\
  (require_sha256sums cfg = true -> exists b, c1 = Some b /\ given inputs (sha256_hex b)) /\
  (require_minisign cfg = true -> exists path key sb b, minisign_pubkey cfg = Some path /\ read_key path = Some key /\ sig = Some (Some sb) /\ c2 = Some b /\ minisign_verify key sb b = true).
Proof.
  unfold verify_artifact. destruct (gpg_pubkey cfg); [done|]. destruct (run_checksum_check name c1 inputs) as [ok|] eqn:Ec; [|done].
  destruct (require_sha256sums cfg && negb ok) eqn:Es; [done|]. destruct (run_minisign_check cfg read_key name c2 sig) as [sok|] eqn:Em; [|done].
  destruct (require_minisign cfg && negb sok) eqn:Er; [done|]. intros _. split; [done|]. split; intros Hr; rewrite Hr in *.
  - destruct ok; [by eapply checksum_ok|done].
  - destruct sok; [by eapply minisign_ok|done].
Qed.
End VerifyProofs.

Section CycleProofs.
Context {V : Type} `{SemVer V} `{Lowercase} `{Crypto}.
Context (current : V) (target : string).

(** A digest the release publishes for its artifact. *)
Definition published (s : Surroundings) (release : ReleaseInfo) (a : ReleaseArtifact) (d : string) : Prop :=
  exists e, d = to_lowercase (trim e) /\
  ((exists body, sums_text (so_get s) release body /\ listed_digest (string_of (utf8_lossy body)) (ra_name a) e) \/ ra_sha256 a = Some e).

(** The policy is met by the bytes each check read of the files that were staged. *)
Definition checked (cfg : VerifyConfig) (s : Surroundings) (release : ReleaseInfo) (a : ReleaseArtifact) (st : Staging) : Prop :=
  let read r n := so_reads s r n (st !! n) in
  gpg_pubkey cfg = None /\
  (require_sha256sums cfg = true -> exists b, read ForChecksum (ra_name a) = Some b /\ published s release a (sha256_hex b)) /\
  (require_minisign cfg = true -> exists path key n sb b, minisign_pubkey cfg = Some path /\ so_read_key s path = Some key /\
     staged_signature (so_get s) release a st n /\ read ForSignatureFile n = Some sb /\ read ForSignature (ra_name a) = Some b /\ minisign_verify key sb b = true).

(** The bytes that replace the binary: of a release that was newer when it was
    applied, its artifact for the target was staged and checked, and they are
    what the copy read of it. *)
Definition installs (cfg : UpdaterConfig) (s : Surroundings) (b : list Z) : Prop :=
  exists release latest a st got, so_latest s = Ok release /\ parse_tag (ri_tag release) = Ok latest /\ sv_gt latest current = true /\
  for_target release target a /\ st !! ra_name a = Some got /\ staged_file (so_get s) release (ra_name a) got /\
  checked (uc_verify cfg) s release a st /\ so_reads s ForCopy (ra_name a) (st !! ra_name a) = Some b.

(** Nothing else changes the staged files between their download and the copy. *)
Definition undisturbed (s : Surroundings) : Prop := forall r n c, so_reads s r n c = c.

(** The same of the installed bytes themselves. *)
Definition verified (cfg : VerifyConfig) (s : Surroundings) (b : list Z) : Prop :=
  exists release latest a, so_latest s = Ok release /\ parse_tag (ri_tag release) = Ok latest /\ sv_gt latest current = true /\
  for_target release target a /\ staged_file (so_get s) release (ra_name a) b /\ gpg_pubkey cfg = None /\
  (require_sha256sums cfg = true -> published s release a (sha256_hex b)) /\
  (require_minisign cfg = true -> exists path key sig sb, minisign_pubkey cfg = Some path /\ so_read_key s path = Some key /\
     signature_for release a sig /\ served (so_get s) (ra_url sig) sb /\ minisign_verify key sb b = true).

Lemma undisturbed_verified cfg s b : undisturbed s -> installs cfg s b -> verified (uc_verify cfg) s b.
Proof.
  intros Hu (release & latest & a & st & got & Hl & Hp & Hn & Ha & Hg & Hf & (Hgpg & Hsum & Hsig) & Hc). rewrite Hu, Hg in Hc. injection Hc as ->.
  exists release, latest, a. split_and!; try done.
  - intros Hr. destruct (Hsum Hr) as (b' & Hb & Hd). rewrite Hu, Hg in Hb. by injection Hb as ->.
  - intros Hr. destruct (Hsig Hr) as (path & key & n & sb & b' & H1' & H2' & (sig & sb' & Hs & -> & Hfs & Hst) & Hsb & Hb & Hv).
    rewrite Hu, Hst in Hsb. injection Hsb as ->. rewrite Hu, Hg in Hb. injection Hb as ->. by exists path, key, sig, sb.
Qed.

Definition sizes_ok (s : Surroundings) : Prop :=
  forall release a n, so_latest s = Ok release -> a ∈ ri_artifacts release -> ra_size a = Some n -> 0 <= n.

Lemma given_published s release a sg :
  (forall body, sg_sha256sums sg = Some body -> sums_text (so_get s) release body) -> sg_name sg = ra_name a -> sg_expected_sha256 sg = ra_sha256 a ->
  forall d, given (staged_inputs sg) d -> published s release a d.
Proof.
  intros Hsums Hn He d (e & -> & Hor). exists e. split; [done|]. cbn in Hor. destruct Hor as [(body & n & Hb & [= <-] & Hl)|Hx]; [|right; congruence].
  left. destruct (sg_sha256sums sg) as [raw|]; [|done]. injection Hb as <-. exists raw. split; [by apply Hsums|]. by rewrite <- Hn.
Qed.

Lemma stage_and_verify_ok cfg s release st sg st' :
  (forall a n, a ∈ ri_artifacts release -> ra_size a = Some n -> 0 <= n) ->
  stage_and_verify target cfg s release st = (Ok sg, st') ->
  exists a got, for_target release target a /\ sg_artifact sg = ra_name a /\ st' !! ra_name a = Some got /\
  staged_file (so_get s) release (ra_name a) got /\ checked (uc_verify cfg) s release a st'.
Proof.
  intros Hsize. unfold stage_and_verify. pose proof (download_spec (so_get s) release target st Hsize) as Hd.
  destruct (download_release (so_get s) release target st) as [[g|] st1]; [|done]. destruct Hd as [_ Hd].
  destruct (Hd g eq_refl) as (a & c & Ha & Hn & Hn' & He & Hl & Hf & Hsums & Hsig). cbv zeta.
  destruct (verify_artifact _ _ _ _ _ _ _) as [[]|] eqn:Ev; [|done]. intros [= <- <-]. exists a, c. do 4 (split; [done|]).
  apply verify_meets in Ev as (Hgpg & Hsum & Hmini). rewrite Hn in Hsum, Hmini. split; [done|]. split.
  - intros Hr. destruct (Hsum Hr) as (b & Hb & Hg). exists b. split; [done|]. by eapply given_published.
  - intros Hr. destruct (Hmini Hr) as (path & key & sb & b & Hp & Hk & Hs & Hb & Hv). destruct (sg_signature g) as [n|]; [|done]. injection Hs as Hs.
    exists path, key, n, sb, b. split_and!; try done. by apply Hsig.
Qed.

Lemma apply_spec cfg s m :
  sizes_ok s ->
  let '(r, m') := apply_update current target cfg s m in
  match r with Ok rep => installs cfg s (mc_binary m') /\ ap_restart_requested rep = restart_supervisor (uc_action cfg) | Err _ => mc_binary m' = mc_binary m end.
Proof.
  intros Hsize. unfold apply_update, sizes_ok in *. destruct (so_latest s) as [release|] eqn:El; [|done]. destruct (parse_tag (ri_tag release)) as [latest|] eqn:Ep; [|done].
  destruct (is_newer_than latest current) eqn:En; cbn [negb]; [|done].
  destruct (stage_and_verify target cfg s release (mc_staging m)) as [[sg|] st] eqn:Es; [|done].
  destruct (stage_and_verify_ok cfg s release (mc_staging m) sg st (fun a n => Hsize release a n eq_refl) Es) as (a & got & Ha & Hn & Hg & Hf & Hm).
  rewrite Hn. destruct (so_reads s ForCopy (ra_name a) (st !! ra_name a)) as [b|] eqn:Eb; cbn [swap]; [|done].
  destruct (so_swap s); try done. split; [|done]. unfold post_install. cbn [mc_binary]. exists release, latest, a, st, got. by split_and!.
Qed.

(** The maintenance window, when its two times are well formed: a stretch of the
    day that may pass midnight. *)
Definition in_window (cfg : UpdaterConfig) (minute : Z) : Prop :=
  forall w from to, uc_window cfg = Some w -> parse_hhmm (allow_from w) = Some from -> parse_hhmm (allow_to w) = Some to ->
  from <= minute <= to \/ to < from /\ (from <= minute \/ minute <= to).

Lemma allowed_in_window cfg minute : auto_install_allowed cfg minute = true -> in_window cfg minute.
Proof.
  unfold auto_install_allowed, is_within_window. intros Ha w from to Hw Hf Ht. rewrite Hw, Hf, Ht in Ha. unfold between in Ha. destruct (Z.leb_spec from to); lia.
Qed.

(** C11: Whatever the source, the network and the file system do, a check of the
    updater changes the binary only in automatic mode, inside the maintenance
    window (if its times are well formed), and when the release the source gives at that moment (it is asked
    again after the poll) is newer than the running one; then to what the copy
    reads of that release's artifact for this target, staged within the size
    limit, after every required check passed on what it read of that file: the
    digest that the release's own checksum file or the source publishes for it,
    and the downloaded signature under the configured key.  When no other
    process changes the staging directory meanwhile, the installed bytes are
    the downloaded ones and are themselves those checked.  A restart is asked
    for only after such a change. *)
Theorem update_verified cfg s minute us m :
  sizes_ok s ->
  let '(_, m', restart) := run_check current target cfg s minute us m in
  (mc_binary m' = mc_binary m /\ restart = false) \/
  (uc_mode cfg = ModeAuto /\ in_window cfg minute /\ installs cfg s (mc_binary m') /\
   (undisturbed s -> verified (uc_verify cfg) s (mc_binary m')) /\
   (restart = true -> restart_supervisor (uc_action cfg) = true)).
Proof.
  intros Hsize. unfold run_check. destruct (poll_once current s) as [o|]; [|by left]. destruct (uc_mode cfg); [by left|by left|by left|].
  destruct (co_update_available o && auto_install_allowed cfg minute) eqn:Ea; [|by left]. apply andb_true_iff in Ea as [_ Ea%allowed_in_window].
  pose proof (apply_spec cfg s m Hsize) as Hs. destruct (apply_update current target cfg s m) as [[rep|e] m']; [|by left].
  destruct Hs as [Hi Hr]. right. do 3 (split; [done|]). split; [by intros Hu; apply undisturbed_verified|by rewrite Hr].
Qed.

Lemma prune_sub keep listing st n b : (prune keep listing st).2 !! n = Some b -> st !! n = Some b.
Proof.
  unfold prune. destruct (_ <=? _)%nat; [done|]. generalize (drop (Z.to_nat (Z.max keep 1)) (newest_first (List.filter (fun e => prunable e.2) listing))). generalize 0.
  intros acc l. revert acc st. induction l as [|e l IH]; intros acc st; [done|]. cbn [foldl]. unfold remove_staged at 2. cbn [fst snd].
  destruct (delete e.2 st !! (e.2 +:+ SIG_SUFFIX)%string) as [x|]; intros Hl; apply IH in Hl.
  - apply lookup_delete_Some in Hl as [_ Hl]. by apply lookup_delete_Some in Hl as [_ Hl].
  - by apply lookup_delete_Some in Hl as [_ Hl].
Qed.

Lemma stage_contained cfg s release st r st' n b :
  (forall a k, a ∈ ri_artifacts release -> ra_size a = Some k -> 0 <= k) -> stage_and_verify target cfg s release st = (r, st') ->
  st' !! n = Some b -> st !! n = None -> one_component n.
Proof.
  intros Hsize. unfold stage_and_verify. pose proof (download_spec (so_get s) release target st Hsize) as Hd.
  destruct (download_release (so_get s) release target st) as [[g|] st1]; destruct Hd as [Hd _].
  - intros Heq. assert (st' = st1) as -> by (cbv zeta in Heq; destruct (verify_artifact _ _ _ _ _ _ _); by injection Heq as _ ->).
    destruct (Hd n) as [->|(c & _ & (Hone & _))]; [congruence|done].
  - intros [= _ <-]. destruct (Hd n) as [->|(c & _ & (Hone & _))]; [congruence|done].
Qed.

(** Every file a cycle adds to the staging directory has a name of one
    component, whatever names the release carries. *)
Theorem staging_contained cfg s m n b :
  sizes_ok s -> mc_staging (apply_update current target cfg s m).2 !! n = Some b -> mc_staging m !! n = None -> one_component n.
Proof.
  intros Hsize. unfold apply_update, sizes_ok in *. destruct (so_latest s) as [release|] eqn:El; [|cbn; congruence].
  destruct (parse_tag (ri_tag release)) as [latest|]; [|cbn; congruence]. destruct (negb _); [cbn; congruence|].
  pose proof (fun r st => stage_contained cfg s release (mc_staging m) r st n b (fun a k => Hsize release a k eq_refl)) as Hst.
  destruct (stage_and_verify target cfg s release (mc_staging m)) as [[sg|] st]; [|cbn; by eapply Hst].
  destruct (so_reads s ForCopy (sg_artifact sg) (st !! sg_artifact sg)) as [x|]; [|cbn; by eapply Hst]. destruct (so_swap s); cbn [swap snd mc_staging]; try (by eapply Hst). unfold post_install. cbn [mc_staging]. intros Hl Hn. apply prune_sub in Hl.
  destruct (notify_audit (uc_action cfg)); [|by eapply Hst]. destruct (decide (n = HISTORY_FILE)) as [->|Hh]; [by vm_compute|].
  rewrite lookup_insert_ne in Hl by done. by eapply Hst.
Qed.
End CycleProofs.

(** ** Witnesses and examples *)

Fixpoint dots (n : nat) : string := match n with O => "" | S n => String "f" (dots n) end.

(** Versions of three numbers, a hash that is the sum, a signature that is the key
    and the bytes. *)
Definition demo_semver : SemVer (Z * Z * Z) :=
  Build_SemVer (Z * Z * Z)
    (fun s => match split_on "." s with [a; b; c] => a ← parse_uint 64 a; b ← parse_uint 64 b; c ← parse_uint 64 c; Some (a, b, c) | _ => None end)
    (fun '(a, b, c) '(x, y, z) => (x <? a) || ((x =? a) && ((y <? b) || ((y =? b) && (z <? c)))))
    (fun '(a, b, c) => pretty a +:+ "." +:+ pretty b +:+ "." +:+ pretty c)%string.
Definition demo_lower : Lowercase := to_ascii_lowercase.
Definition demo_crypto : Crypto :=
  Build_Crypto (fun b => let t := pretty (sum_by id b) in dots (64 - String.length t) +:+ t)%string (fun key sig b => bool_decide (sig = key ++ b)).

Definition demo_target : string := "x86_64-unknown-linux-gnu".
Definition demo_name : string := "spt-26.4-x86_64-unknown-linux-gnu.tar.gz".
Definition demo_release (tag name : string) (sha : option string) : ReleaseInfo :=
  mkReleaseInfo tag "" "" [mkReleaseArtifact name "artifact" (Some 8) sha] [mkReleaseArtifact (name +:+ ".minisig") "sig" None None].
Definition demo_get (url : string) : Fetched :=
  if (url =? "artifact")%string then Http (Some (mkHttpResponse 200 None [Some [1; 2]; Some [3]]))
  else if (url =? "sig")%string then LocalFile (Some [9; 1; 2; 3])
  else Http None.
Definition demo_around (rel : ReleaseInfo) : Surroundings :=
  mkSurroundings (Ok rel) (Ok rel) (fun _ _ c => c) demo_get (fun _ => Some [9]) SwapDone (fun _ _ => [0]) [].
Definition demo_policy : VerifyConfig := mkVerifyConfig true (Some "key") true None.
Definition demo_config (v : VerifyConfig) : UpdaterConfig :=
  mkUpdaterConfig true ModeAuto v (mkActionConfig true true None) (mkStagingConfig None 3) (Some (mkWindowConfig "22:00" "04:00" "UTC")).
Definition demo_status : UpdaterStatus := mkUpdaterStatus None false None None.
Definition demo_digest : string := (dots 63 +:+ "6")%string.

Lemma demo_sizes_ok tag name sha : sizes_ok (demo_around (demo_release tag name sha)).
Proof. intros release a n [= <-] Hin. cbn in Hin. apply list_elem_of_singleton in Hin as ->. by intros [= <-]. Qed.

Lemma update_verified_witness :
  let s := demo_around (demo_release "v26.4" demo_name (Some demo_digest)) in
  mc_binary (@run_check _ demo_semver demo_lower demo_crypto (0, 26, 3) demo_target (demo_config demo_policy) s 1380 demo_status (mkMachine [7] ∅ [])).1.2 = [1; 2; 3] /\
  @verified _ demo_semver demo_lower demo_crypto (0, 26, 3) demo_target demo_policy s [1; 2; 3].
Proof.
  pose proof (@update_verified _ demo_semver demo_lower demo_crypto (0, 26, 3) demo_target (demo_config demo_policy)
    (demo_around (demo_release "v26.4" demo_name (Some demo_digest))) 1380 demo_status (mkMachine [7] ∅ []) (demo_sizes_ok _ _ _)) as HT.
  assert (mc_binary (@run_check _ demo_semver demo_lower demo_crypto (0, 26, 3) demo_target (demo_config demo_policy)
    (demo_around (demo_release "v26.4" demo_name (Some demo_digest))) 1380 demo_status (mkMachine [7] ∅ [])).1.2 = [1; 2; 3]) as E by (vm_compute; reflexivity).
  cbv zeta. destruct (@run_check _ demo_semver demo_lower demo_crypto _ _ _ _ _ _ _) as [[us m'] restart]. cbn [fst snd] in *. split; [exact E|].
  rewrite E in HT. destruct HT as [[HB _]|(_ & _ & _ & HI & _)]; [discriminate HB|]. apply HI. intros r n c. reflexivity.
Defined.

(** The release is asked for again: one that is withdrawn, or replaced by an older
    one, between the poll and the install is not installed. *)
Theorem older_at_install_refused :
  let s rel := mkSurroundings (Ok (demo_release "26.4" demo_name (Some demo_digest))) (Ok rel) (fun _ _ c => c) demo_get (fun _ => Some [9]) SwapDone (fun _ _ => [0]) [] in
  let run rel := mc_binary (@run_check _ demo_semver demo_lower demo_crypto (0, 26, 3) demo_target (demo_config demo_policy) (s rel) 1380 demo_status (mkMachine [7] ∅ [])).1.2 in
  run (demo_release "26.4" demo_name (Some demo_digest)) = [1; 2; 3] /\ run (demo_release "26.2" demo_name (Some demo_digest)) = [7].
Proof. vm_compute. done. Qed.

(** A file that is replaced after the signature check and before the copy is
    installed unchecked. *)
Theorem replaced_before_copy :
  let rel := demo_release "26.4" demo_name (Some demo_digest) in
  let reads r n c := match r with ForCopy => Some [6; 6] | _ => c end in
  let s := mkSurroundings (Ok rel) (Ok rel) reads demo_get (fun _ => Some [9]) SwapDone (fun _ _ => [0]) [] in
  mc_binary (@run_check _ demo_semver demo_lower demo_crypto (0, 26, 3) demo_target (demo_config demo_policy) s 1380 demo_status (mkMachine [7] ∅ [])).1.2 = [6; 6].
Proof. vm_compute. reflexivity. Qed.

(** The archive a release ships is copied over the running binary as it is. *)
Theorem archive_becomes_binary :
  let s := demo_around (demo_release "26.4" demo_name (Some demo_digest)) in
  let '(r, m) := @apply_update _ demo_semver demo_lower demo_crypto (0, 26, 3) demo_target (demo_config demo_policy) s (mkMachine [7] ∅ []) in
  r = Ok (mkApplyReport "26.4" demo_name true) /\ mc_staging m !! demo_name = Some (mc_binary m).
Proof. vm_compute. done. Qed.

(** Nothing ties the signed bytes to the version: the same artifact is installed
    under any newer tag. *)
Theorem signature_not_versioned :
  let run tag := mc_binary (@apply_update _ demo_semver demo_lower demo_crypto (0, 26, 3) demo_target (demo_config demo_policy)
                             (demo_around (demo_release tag demo_name (Some demo_digest))) (mkMachine [7] ∅ [])).2 in
  run "26.4"%string = [1; 2; 3] /\ run "99.1"%string = [1; 2; 3].
Proof. vm_compute. done. Qed.

(** A digest from the source that does not match is not looked at when the
    checksum file has one that does. *)
Theorem wrong_inline_digest_passes :
  let inputs := mkVerifyInputs (Some "0000"%string) (Some (demo_digest +:+ "  a")%string) (Some "a"%string) in
  @run_checksum_check demo_lower demo_crypto "a" (Some [1; 2; 3]) inputs = Ok true.
Proof. vm_compute. reflexivity. Qed.

(** A checksum line whose digest has the wrong length counts as no line. *)
Theorem short_digest_is_no_digest :
  let inputs := mkVerifyInputs None (Some (dots 63 +:+ "  a")%string) (Some "a"%string) in
  @verify_artifact demo_lower demo_crypto (mkVerifyConfig false None false None) (fun _ => None) "a" (Some [1; 2; 3]) (Some [1; 2; 3]) None inputs = Ok tt.
Proof. vm_compute. reflexivity. Qed.

(** The first name that contains the target is taken, also when it is another
    target's. *)
Theorem longer_target_taken :
  let arts := [mkReleaseArtifact "spt-arm-unknown-linux-gnueabihf" "h" None None; mkReleaseArtifact "spt-arm-unknown-linux-gnueabi" "s" None None] in
  ra_url <$> select_artifact (mkReleaseInfo "1.2" "" "" arts []) "arm-unknown-linux-gnueabi" = Some "h"%string.
Proof. vm_compute. reflexivity. Qed.

(** A release whose only artifact bears the name of the history replaces it,
    before anything is verified. *)
Theorem history_overwritten :
  let s := demo_around (demo_release "26.4" HISTORY_FILE None) in
  let '(r, m) := @apply_update _ demo_semver demo_lower demo_crypto (0, 26, 3) demo_target (demo_config demo_policy) s (mkMachine [7] {[ HISTORY_FILE := [5; 5] ]} []) in
  is_ok r = false /\ mc_staging m !! HISTORY_FILE = Some [1; 2; 3].
Proof. vm_compute. done. Qed.

(** ** Retention *)

Lemma insert_newest_perm x l : insert_newest x l ≡ₚ x :: l.
Proof. induction l as [|y l IH]; [done|]. cbn. destruct (_ <=? _); [done|]. by rewrite IH, Permutation_swap. Qed.

Lemma newest_first_perm l : newest_first l ≡ₚ l.
Proof. induction l as [|x l IH]; [done|]. cbn. by rewrite insert_newest_perm, IH. Qed.

Definition newer_eq (a b : Z * string) : Prop := b.1 <= a.1.

Lemma insert_newest_sorted x l : StronglySorted newer_eq l -> StronglySorted newer_eq (insert_newest x l).
Proof.
  induction 1 as [|y l Hs IH Hf]; cbn; [repeat constructor|]. destruct (y.1 <=? x.1) eqn:E.
  - apply Z.leb_le in E. constructor; [by constructor|]. constructor; [done|]. eapply Forall_impl; [exact Hf|]. unfold newer_eq. lia.
  - apply Z.leb_gt in E. constructor; [done|]. rewrite insert_newest_perm. constructor; [unfold newer_eq; lia|done].
Qed.

Lemma newest_first_sorted l : StronglySorted newer_eq (newest_first l).
Proof. induction l as [|x l IH]; [constructor|]. by apply insert_newest_sorted. Qed.

Lemma remove_staged_other l acc n :
  Forall (fun e => e.2 <> n /\ (e.2 +:+ SIG_SUFFIX)%string <> n) l -> (foldl remove_staged acc l).2 !! n = acc.2 !! n.
Proof.
  intros Hl. revert acc. induction Hl as [|e l [H1 H2] _ IH]; intros acc; [done|]. cbn [foldl]. rewrite IH. unfold remove_staged.
  destruct (delete e.2 acc.2 !! (e.2 +:+ SIG_SUFFIX)%string); cbn [snd]; rewrite ?lookup_delete_ne by done; done.
Qed.

(** Pruning keeps the newest archives, at least one, and every file that is not
    an archive or the signature of a pruned one. *)
Theorem prune_keeps keep listing st n :
  let archives := newest_first (List.filter (fun e => prunable e.2) listing) in
  let kept := take (Z.to_nat (Z.max keep 1)) archives in
  let gone := drop (Z.to_nat (Z.max keep 1)) archives in
  (prune keep listing st).2 !! n = st !! n \/ (exists e, e ∈ gone /\ (n = e.2 \/ n = e.2 +:+ SIG_SUFFIX)%string /\ forall k, k ∈ kept -> e.1 <= k.1).
Proof.
  intros archives kept gone. assert (forall e k, e ∈ gone -> k ∈ kept -> e.1 <= k.1) as Hnew.
  { intros e k He Hk. pose proof (newest_first_sorted (List.filter (fun e => prunable e.2) listing)) as Hs. fold archives in Hs.
    rewrite <- (take_drop (Z.to_nat (Z.max keep 1)) archives) in Hs. fold kept gone in Hs. exact (StronglySorted_app_1_elem_of newer_eq kept gone k e Hs Hk He). }
  destruct (decide (Exists (fun e => e.2 = n \/ (e.2 +:+ SIG_SUFFIX)%string = n) gone)) as [(e & He & Hn)%Exists_exists|Hno].
  - right. exists e. split; [done|]. split; [naive_solver|]. intros k Hk. by apply Hnew.
  - left. unfold prune. destruct (_ <=? _)%nat; [done|]. fold archives. fold gone. apply not_Exists_Forall in Hno; [|solve_decision].
    apply remove_staged_other. eapply Forall_impl; [exact Hno|]. cbn. naive_solver.
Qed.
