(* ===== verification/Sftp.v ===== *)
(** * The SFTP client

    Models [crates/spt-sftp/src]: the errors ([error.rs]), the client
    ([client.rs]), the whole-file hashes ([checksum.rs]) and the recursive
    transfers ([recursive.rs]).  The [russh_sftp] session, the local file
    system and the hash are outside: the client is written over any monad that
    answers the session's calls, and the recursive transfers record every call
    they make, with the answers given by an arbitrary environment that sees all
    the calls before.

    A [Path] is the list of its components, which is what the library compares
    paths by; [components] is that of Unix. *)

From S2P Require Import Prelude Bytes Text Errors McpPolicy.

(** ** Errors ([error.rs]) *)

(** The status codes and the errors of [russh_sftp], as the code tells them
    apart; a code that is not told apart is known by its text. *)
Inductive StatusCode := ScNoSuchFile | ScPermissionDenied | ScFailure | ScOther (display : string).
Inductive RusshSftpError :=
| RStatus (status_code : StatusCode) (error_message : string)
| RIo (detail : string)
| RTimeout
| RLimited (detail : string)
| RUnexpectedPacket
| RUnexpectedBehavior (detail : string).

Inductive SftpError :=
| SNoSuchFile (op detail : string)
| SPermissionDenied (op detail : string)
| SNotADirectory (op detail : string)
| SNotEmpty (op detail : string)
| SNoSpace (op detail : string)
| SOther (op detail : string)
| SLocal (op detail : string)
| SUnsupportedPlatform (op detail : string).

Definition classify_failure (op detail : string) : SftpError :=
  let needle := to_ascii_lowercase detail in
  if str_contains "not a directory" needle || str_contains "notdir" needle then SNotADirectory op detail
  else if str_contains "not empty" needle || str_contains "notempty" needle then SNotEmpty op detail
  else if str_contains "no space" needle || str_contains "nospc" needle || str_contains "disk full" needle then SNoSpace op detail
  else SOther op detail.

Definition from_status (op : string) (c : StatusCode) (detail : string) : SftpError :=
  match c with
  | ScNoSuchFile => SNoSuchFile op detail
  | ScPermissionDenied => SPermissionDenied op detail
  | ScFailure => classify_failure op detail
  | ScOther other => SOther op (other +:+ ": " +:+ detail)
  end.

Definition from_russh (op : string) (e : RusshSftpError) : SftpError :=
  match e with
  | RStatus c m => from_status op c m
  | RIo detail => SOther op detail
  | RTimeout => SOther op "timeout waiting for sftp response"
  | RLimited detail => SOther op detail
  | RUnexpectedPacket => SOther op "unexpected sftp packet"
  | RUnexpectedBehavior detail => SOther op detail
  end.

(** [Display] of the error. *)
Definition sftp_error_text (e : SftpError) : string :=
  match e with
  | SNoSuchFile op d => "sftp " +:+ op +:+ ": no such file: " +:+ d
  | SPermissionDenied op d => "sftp " +:+ op +:+ ": permission denied: " +:+ d
  | SNotADirectory op d => "sftp " +:+ op +:+ ": not a directory: " +:+ d
  | SNotEmpty op d => "sftp " +:+ op +:+ ": directory not empty: " +:+ d
  | SNoSpace op d => "sftp " +:+ op +:+ ": no space left on device: " +:+ d
  | SOther op d => "sftp " +:+ op +:+ ": " +:+ d
  | SLocal op d => "sftp " +:+ op +:+ ": " +:+ d
  | SUnsupportedPlatform op d => "sftp " +:+ op +:+ ": unsupported platform: " +:+ d
  end.

(** [From<SftpError> for spt_core::Error]. *)
Definition core_of_sftp (e : SftpError) : Error :=
  match e with
  | SPermissionDenied _ _ => PermissionDenied (sftp_error_text e)
  | SUnsupportedPlatform _ _ => UnsupportedPlatform (sftp_error_text e)
  | _ => RuntimeFailure (sftp_error_text e)
  end.

(** ** The session's calls *)

(** [FileAttributes] by what its accessors say. *)
Record FileAttributes := mkFileAttributes {
  at_size : option Z; at_permissions : option Z; at_mtime : option Z; at_is_dir : bool; at_is_regular : bool; at_is_symlink : bool
}.

Record SftpMetadata := mkSftpMetadata {
  md_size : option Z;
  md_permissions : option Z;
  md_modified_unix : option Z;
  md_is_dir : bool;
  md_is_file : bool;
  md_is_symlink : bool
}.
Record SftpDirEntry := mkSftpDirEntry { de_file_name : string; de_metadata : SftpMetadata }.

Definition from_attrs (a : FileAttributes) : SftpMetadata :=
  mkSftpMetadata (at_size a) (at_permissions a) (at_mtime a) (at_is_dir a) (at_is_regular a) (at_is_symlink a).

(** A remote file handle. *)
Abbreviation RFile := nat.

(** The flags of [open_with_flags] the code uses besides [WRITE | CREATE]. *)
Inductive Raw :=
| RawCanonicalize (path : string)
| RawReadDir (path : string)
| RawReadWhole (path : string)
| RawOpen (path : string)
| RawOpenWrite (path : string) (truncate : bool)
| RawSeek (f : RFile) (offset : Z)
| RawReads (f : RFile)
| RawWrite (f : RFile) (data : list Z)
| RawShutdown (f : RFile)
| RawMetadata (path : string)
| RawSymlinkMetadata (path : string)
| RawSetMode (path : string) (mode : Z)
| RawReadLink (path : string)
| RawSymlink (linkpath target : string)
| RawCreateDir (path : string)
| RawRemoveFile (path : string)
| RawRemoveDir (path : string)
| RawRename (old_path new_path : string)
| RawTryExists (path : string)
| RawClose.

(** What the successive reads of a file or a socket give: the chunks, none of
    them empty, and then its end or the text of a failure. *)
Record Reads := mkReads { rd_chunks : list (list Z); rd_failure : option string }.

Definition RawResp (r : Raw) : Type :=
  match r with
  | RawCanonicalize _ | RawReadLink _ => Result RusshSftpError string
  | RawReadDir _ => Result RusshSftpError (list (string * FileAttributes))
  | RawReadWhole _ => Result RusshSftpError (list Z)
  | RawOpen _ | RawOpenWrite _ _ => Result RusshSftpError RFile
  | RawSeek _ _ | RawWrite _ _ | RawShutdown _ => Result string ()
  | RawReads _ => Reads
  | RawMetadata _ | RawSymlinkMetadata _ => Result RusshSftpError FileAttributes
  | RawTryExists _ => Result RusshSftpError bool
  | _ => Result RusshSftpError ()
  end.

(** What the client needs of the monad it runs in. *)
Class SftpIo (M : Type -> Type) : Type := raw : forall r : Raw, M (RawResp r).

(** [Result::map] and [Result::map_err]. *)
Definition map_ok {E A B} (f : A -> B) (r : Result E A) : Result E B := match r with Ok a => Ok (f a) | Err e => Err e end.
Definition map_err {E F A} (f : E -> F) (r : Result E A) : Result F A := match r with Ok a => Ok a | Err e => Err (f e) end.

(** [?] in a monad. *)
Definition try_bind {M : Type -> Type} `{MRet M, MBind M} {E A B} (m : M (Result E A)) (k : A -> M (Result E B)) : M (Result E B) :=
  r ← m; match r with Ok a => k a | Err e => mret (Err e) end.

(** ** The client ([client.rs]) *)

Definition DEFAULT_CAT_SIZE_CAP : Z := 4 * 1024 * 1024.
Definition STREAM_CHUNK : Z := 64 * 1024.

Inductive UploadError := UploadSource (e : string) | UploadRemote (e : SftpError).

Section client.
Context {M : Type -> Type} `{!MRet M, !MBind M, !SftpIo M}.

(** A call whose failure is tagged with the operation. *)
Definition tagged {A} (op : string) (m : M (Result RusshSftpError A)) : M (Result SftpError A) :=
  r ← m; mret (map_err (from_russh op) r).

(** An operation on an open file; its failures are local. *)
Definition on_file {A} (op path : string) (m : M (Result string A)) : M (Result SftpError A) :=
  r ← m; mret (map_err (fun e => SLocal op (path +:+ ": " +:+ e)) r).

Definition canonicalize (path : string) : M (Result SftpError string) := tagged "canonicalize" (raw (RawCanonicalize path)).

Definition read_dir (path : string) : M (Result SftpError (list SftpDirEntry)) :=
  r ← tagged (A := list (string * FileAttributes)) "read_dir" (raw (RawReadDir path));
  mret (map_ok (list_fmap _ _ (fun e : string * FileAttributes => mkSftpDirEntry e.1 (from_attrs e.2))) r).

Definition read_file (path : string) : M (Result SftpError (list Z)) := tagged "read_file" (raw (RawReadWhole path)).

Definition metadata (path : string) : M (Result SftpError SftpMetadata) :=
  r ← tagged "metadata" (raw (RawMetadata path)); mret (map_ok from_attrs r).

Definition lstat (path : string) : M (Result SftpError SftpMetadata) :=
  r ← tagged "lstat" (raw (RawSymlinkMetadata path)); mret (map_ok from_attrs r).

Definition open_for_read (path : string) : M (Result SftpError RFile) := tagged "open" (raw (RawOpen path)).

(** [cat]: a size the server reports is checked before the read. *)
Definition cat (path : string) (size_cap : Z) : M (Result SftpError (list Z)) :=
  try_bind (metadata path) (fun meta =>
    match md_size meta with
    | Some size =>
        if size_cap <? size
        then mret (Err (SLocal "cat" ("remote file size " +:+ pretty size +:+ " exceeds cap " +:+ pretty size_cap
                                      +:+ " bytes; pass --size-cap to override")))
        else read_file path
    | None => read_file path
    end).

(** [tail]: the loop fills a buffer of [want] bytes from what the reads give. *)
Definition tail (path : string) (last_n_bytes : Z) : M (Result SftpError (list Z)) :=
  try_bind (metadata path) (fun meta =>
    let size := default 0 (md_size meta) in
    if size =? 0 then mret (Ok [])
    else
      let offset := sat_sub size last_n_bytes in
      try_bind (tagged "tail-open" (raw (RawOpen path))) (fun file =>
        try_bind (if 0 <? offset then on_file "tail-seek" path (raw (RawSeek file offset)) else mret (Ok ())) (fun _ =>
          rs ← raw (RawReads file);
          let got := mjoin (rd_chunks rs) in
          let want := size - offset in
          if want <=? Z.of_nat (length got) then mret (Ok (take (Z.to_nat want) got))
          else match rd_failure rs with
               | Some e => mret (Err (SLocal "tail-read" (path +:+ ": " +:+ e)))
               | None => mret (Ok got)
               end))).

Definition open_for_resume_write (path : string) (start_offset : Z) : M (Result SftpError RFile) :=
  try_bind (tagged "open_for_resume" (raw (RawOpenWrite path (start_offset =? 0)))) (fun file =>
    if 0 <? start_offset
    then try_bind (on_file "open_for_resume_seek" path (raw (RawSeek file start_offset))) (fun _ => mret (Ok file))
    else mret (Ok file)).

(** [stream_upload]: [source] is what the reads of the reader give; [late] is
    how the caller's deadline cuts it off, when it does. *)
Fixpoint upload_chunks (file : RFile) (path : string) (chunks : list (list Z)) (total : Z)
    (finish : Z -> M (Result UploadError Z)) : M (Result UploadError Z) :=
  match chunks with
  | [] => finish total
  | c :: r =>
      w ← on_file "write_file_from-write" path (raw (RawWrite file c));
      match w with
      | Ok _ => upload_chunks file path r (total + Z.of_nat (length c)) finish
      | Err e => mret (Err (UploadRemote e))
      end
  end.

Inductive SourceEnd := SourceEof | SourceFailed (e : string) | SourceLate.
Record UploadStream := mkUploadStream { us_chunks : list (list Z); us_end : SourceEnd }.

Definition stream_upload (late : M (Result UploadError Z)) (file : RFile) (path : string) (source : UploadStream) : M (Result UploadError Z) :=
  upload_chunks file path (us_chunks source) 0 (fun total =>
    match us_end source with
    | SourceFailed e => mret (Err (UploadSource e))
    | SourceLate => late
    | SourceEof =>
        r ← on_file "write_file_from-close" path (raw (RawShutdown file));
        mret (match r with Ok _ => Ok total | Err e => Err (UploadRemote e) end)
    end).

Definition remote_half {A} (m : M (Result SftpError A)) : M (Result UploadError A) := r ← m; mret (map_err UploadRemote r).

Definition write_file_from (late : M (Result UploadError Z)) (path : string) (source : M UploadStream) : M (Result UploadError Z) :=
  try_bind (remote_half (open_for_resume_write path 0)) (fun file =>
    s ← source; stream_upload late file path s).

Definition append_file_from (late : M (Result UploadError Z)) (path : string) (source : M UploadStream) : M (Result UploadError Z) :=
  md ← metadata path;
  try_bind (mret match md with
                 | Ok md => Ok (default 0 (md_size md))
                 | Err (SNoSuchFile _ _) => Ok 0
                 | Err e => Err (UploadRemote e)
                 end) (fun start =>
    try_bind (remote_half (open_for_resume_write path start)) (fun file =>
      s ← source; stream_upload late file path s)).

Definition chmod (path : string) (mode : Z) : M (Result SftpError ()) := tagged "chmod" (raw (RawSetMode path mode)).
Definition readlink (path : string) : M (Result SftpError string) := tagged "readlink" (raw (RawReadLink path)).
Definition symlink (target linkpath : string) : M (Result SftpError ()) := tagged "symlink" (raw (RawSymlink linkpath target)).
Definition create_dir (path : string) : M (Result SftpError ()) := tagged "create_dir" (raw (RawCreateDir path)).
Definition remove_file (path : string) : M (Result SftpError ()) := tagged "remove_file" (raw (RawRemoveFile path)).
Definition remove_dir (path : string) : M (Result SftpError ()) := tagged "remove_dir" (raw (RawRemoveDir path)).
Definition rename (old_path new_path : string) : M (Result SftpError ()) := tagged "rename" (raw (RawRename old_path new_path)).
Definition try_exists (path : string) : M (Result SftpError bool) := tagged "try_exists" (raw (RawTryExists path)).

Definition create_dir_idem (path : string) : M (Result SftpError ()) :=
  r ← create_dir path;
  match r with
  | Err (SOther op detail) =>
      if str_contains "Failure" detail || str_contains "exists" (to_ascii_lowercase detail)
      then try_bind (metadata path) (fun meta =>
             mret (if md_is_dir meta then Ok ()
                   else Err (SNotADirectory "create_dir_idem" "target exists and is not a directory")))
      else mret r
  | _ => mret r
  end.

End client.

(** ** Paths *)

Inductive Component := RootDir | CurDir | ParentDir | Normal (s : string).
#[global] Instance component_eq_dec : EqDecision Component.
Proof. solve_decision. Defined.
Abbreviation Path := (list Component).

(** The components of the pieces after the first: [.] and empty ones vanish. *)
Definition later_component (p : string) : list Component :=
  if (p =? "")%string || (p =? ".")%string then []
  else if (p =? "..")%string then [ParentDir]
  else [Normal p].

(** [Path::components] on Unix. *)
Definition components (s : string) : Path :=
  match split_on "/" s with
  | [] => []
  | p :: r =>
      (if (s =? "")%string then []
       else if (p =? "")%string then [RootDir]
       else if (p =? ".")%string then [CurDir]
       else later_component p)
      ++ (r ≫= later_component)
  end.

Definition is_absolute (p : Path) : bool := match p with RootDir :: _ => true | _ => false end.

(** [Path::join]. *)
Definition path_join (p q : Path) : Path :=
  if is_absolute q then q
  else match p with [] => q | _ => p ++ match q with CurDir :: q' => q' | _ => q end end.

(** [PathBuf::pop] and [Path::parent]: the root and the empty path have no
    parent. *)
Definition path_pop (p : Path) : option Path :=
  match reverse p with
  | [] | RootDir :: _ => None
  | _ :: r => Some (reverse r)
  end.

Definition path_parent : Path -> option Path := path_pop.

(** The [normalise] of [is_within_root]. *)
Fixpoint lexical (out p : Path) : option Path :=
  match p with
  | [] => Some out
  | CurDir :: r => lexical out r
  | ParentDir :: r => match path_pop out with Some out' => lexical out' r | None => None end
  | c :: r => lexical (out ++ [c]) r
  end.

(** [Path::starts_with]. *)
Fixpoint path_starts_with (p base : Path) : bool :=
  match base, p with
  | [], _ => true
  | b :: base', c :: p' => bool_decide (b = c) && path_starts_with p' base'
  | _ :: _, [] => false
  end.

Definition is_within_root (root candidate : Path) : bool :=
  match lexical [] root, lexical [] candidate with
  | Some r, Some c => path_starts_with c r
  | _, _ => false
  end.

(** On Unix no path has a prefix component. *)
Definition symlink_target_within_root (local_root link_parent target : Path) : bool :=
  if is_absolute target then false else is_within_root local_root (path_join link_parent target).

(** ** Names *)

(** [u8::to_ascii_uppercase]. *)
Definition upper (a : ascii) : ascii :=
  if (97 <=? code a) && (code a <=? 122) then ascii_of_nat (nat_of_ascii a - 32) else a.
Fixpoint to_ascii_uppercase (s : string) : string :=
  match s with EmptyString => EmptyString | String a r => String (upper a) (to_ascii_uppercase r) end.

(** [trim_end_matches] with a set of characters. *)
Fixpoint trim_end_by (p : ascii -> bool) (s : string) : string :=
  match s with
  | EmptyString => EmptyString
  | String a s' =>
      match trim_end_by p s' with
      | EmptyString => if p a then EmptyString else String a EmptyString
      | r => String a r
      end
  end.

Definition one_of_text (s : string) (l : list string) : bool := existsb (String.eqb s) l.

Definition is_windows_reserved_name (name : string) : bool :=
  let trimmed := trim_end_by (fun c => Ascii.eqb c "." || Ascii.eqb c " ") name in
  let base := default trimmed (head (split_on "." trimmed)) in
  let base := trim_end_matches " " base in
  if (base =? "")%string then false
  else
    let upper := to_ascii_uppercase base in
    if one_of_text upper ["CON"; "PRN"; "AUX"; "NUL"] then true
    else
      match (match strip_prefix "COM" upper with Some r => Some r | None => strip_prefix "LPT" upper end) with
      | Some rest => one_of_text rest ["1"; "2"; "3"; "4"; "5"; "6"; "7"; "8"; "9"]
      | None => false
      end.

Definition control_byte (a : ascii) : bool := (code a <? 0x20) || (code a =? 0x7f).
Fixpoint any_char (p : ascii -> bool) (s : string) : bool :=
  match s with EmptyString => false | String a r => p a || any_char p r end.

Definition is_ascii_alphabetic (a : ascii) : bool :=
  ((65 <=? code a) && (code a <=? 90)) || ((97 <=? code a) && (code a <=? 122)).

Definition drive_prefix (name : string) : bool :=
  match name with String a (String b _) => Ascii.eqb b ":" && is_ascii_alphabetic a | _ => false end.

Definition sanitize_entry_name (name : string) : Result string () :=
  if (name =? "")%string then Err "empty entry name"
  else if (name =? ".")%string || (name =? "..")%string then Err ("traversal component `" +:+ name +:+ "`")
  else if contains_char "/" name || contains_char "\" name then Err "embedded path separator"
  else if any_char control_byte name then Err "embedded control/NUL byte"
  else if is_windows_reserved_name name then Err "windows reserved device name"
  else if drive_prefix name then Err "windows drive-letter prefix"
  else if bool_decide (components name = [Normal name]) then Ok ()
  else Err "not a single normal path component".

Definition join_remote (base child : string) : string :=
  if ends_with "/" base then base +:+ child
  else if (base =? "")%string then child
  else base +:+ "/" +:+ child.

(** ** Recursive transfers ([recursive.rs]) *)

Inductive ChecksumMode := CkNone | CkSha256.
Record RecursiveOptions := mkRecursiveOptions { ro_resume : bool; ro_bps : Z; ro_checksum : ChecksumMode; ro_follow_symlinks : bool }.
Record RecursiveReport := mkRecursiveReport { rp_files : Z; rp_directories : Z; rp_symlinks : Z; rp_bytes : Z }.

(** What [file_type] says of a local entry. *)
Inductive FileType := FtSymlink | FtDir | FtFile | FtOther.

(** A call to the server or to the local file system; a local file is known by
    the path it was opened with. *)
Inductive Step :=
| Remote (r : Raw)
| LCreateDirAll (p : Path)
| LSymlink (target : string) (p : Path)
| LLength (p : Path)
| LCreate (p : Path)
| LOpenAppend (p : Path)
| LWrite (p : Path) (data : list Z)
| LFlush (p : Path)
| LOpen (p : Path)
| LSeek (p : Path) (offset : Z)
| LReads (p : Path)
| LCanonicalize (p : Path)
| LReadDir (p : Path)
| LIsDir (p : Path)
| LReadLink (p : Path).

(** The answers.  [LLength] is [fs::metadata(..).len()], [LIsDir] is
    [fs::metadata(..).is_dir()], [LReadDir] the entries with their types, a
    failure to type one of them ending the listing; [LReads] what the reads of
    an open local file give. *)
Definition StepResp (s : Step) : Type :=
  match s with
  | Remote r => RawResp r
  | LLength _ => Result string Z
  | LReads _ => Reads
  | LCanonicalize _ => Result string Path
  | LReadDir _ => Result string (list (string * FileType))
  | LIsDir _ => Result string bool
  | LReadLink _ => Result string string
  | _ => Result string ()
  end.

(** The environment answers a call knowing all the calls made before. *)
Class Environment : Type := answer : forall s : Step, list Step -> StepResp s.

Record Walk := mkWalk { wk_trace : list Step; wk_report : RecursiveReport; wk_visited : list Path; wk_seen : list string }.

(** A computation that calls the environment.  [None] is a walk deeper than its
    fuel: a server may nest directories without end. *)
Definition W (A : Type) : Type := Walk -> option A * Walk.
#[global] Instance W_ret : MRet W := fun _ a w => (Some a, w).
#[global] Instance W_bind : MBind W := fun _ _ k m w =>
  match m w with (Some a, w') => k a w' | (None, w') => (None, w') end.

Definition set_trace (t : list Step) (w : Walk) : Walk := mkWalk t (wk_report w) (wk_visited w) (wk_seen w).

Section recursive.
Context `{!Environment}.

Definition issue (s : Step) : W (StepResp s) := fun w => (Some (answer s (wk_trace w)), set_trace (wk_trace w ++ [s]) w).
#[global] Instance W_sftp : SftpIo W := fun r => issue (Remote r).

Definition count (f : RecursiveReport -> RecursiveReport) : W (Result SftpError ()) := fun w =>
  (Some (Ok ()), mkWalk (wk_trace w) (f (wk_report w)) (wk_visited w) (wk_seen w)).
Definition one_file (r : RecursiveReport) : RecursiveReport := mkRecursiveReport (rp_files r + 1) (rp_directories r) (rp_symlinks r) (rp_bytes r).
Definition one_directory (r : RecursiveReport) : RecursiveReport := mkRecursiveReport (rp_files r) (rp_directories r + 1) (rp_symlinks r) (rp_bytes r).
Definition one_symlink (r : RecursiveReport) : RecursiveReport := mkRecursiveReport (rp_files r) (rp_directories r) (rp_symlinks r + 1) (rp_bytes r).
Definition more_bytes (n : Z) (r : RecursiveReport) : RecursiveReport := mkRecursiveReport (rp_files r) (rp_directories r) (rp_symlinks r) (rp_bytes r + n).

(** A local operation; its failure is tagged, the path being left out of the
    text. *)
Definition local {A} (op : string) (m : W (Result string A)) : W (Result SftpError A) := r ← m; mret (map_err (SLocal op) r).

Definition and_then {A} (m : W (Result SftpError ())) (k : W (Result SftpError A)) : W (Result SftpError A) := try_bind m (fun _ => k).

(** The hash of the bytes of a file and its hexadecimal text. *)
Context (sha256_hex : list Z -> string).

(** [sha256_local_file] and [sha256_remote_file]. *)
Definition hash_reads (op : string) (rs : Reads) : Result SftpError string :=
  match rd_failure rs with Some e => Err (SLocal op e) | None => Ok (sha256_hex (mjoin (rd_chunks rs))) end.

Definition sha256_local_file (p : Path) : W (Result SftpError string) :=
  and_then (local "checksum-local-open" (issue (LOpen p))) (rs ← issue (LReads p); mret (hash_reads "checksum-local-read" rs)).

Definition sha256_remote_file (path : string) : W (Result SftpError string) :=
  try_bind (open_for_read path) (fun f =>
    and_then (local "checksum-remote-seek" (issue (Remote (RawSeek f 0)))) (rs ← issue (Remote (RawReads f)); mret (hash_reads "checksum-remote-read" rs))).

Definition verify (op : string) (opts : RecursiveOptions) (p : Path) (remote : string) : W (Result SftpError ()) :=
  match ro_checksum opts with
  | CkNone => mret (Ok ())
  | CkSha256 =>
      try_bind (sha256_local_file p) (fun local_hash =>
        try_bind (sha256_remote_file remote) (fun remote_hash =>
          mret (if (local_hash =? remote_hash)%string then Ok ()
                else Err (SLocal op ("sha256 mismatch: local=" +:+ local_hash +:+ " remote=" +:+ remote_hash)))))
  end.

(** The copy loops: each chunk read is written and counted; [consume] of the
    bandwidth limit only waits. *)
Fixpoint copy_chunks (write : list Z -> W (Result SftpError ())) (chunks : list (list Z)) : W (Result SftpError ()) :=
  match chunks with
  | [] => mret (Ok ())
  | c :: r => and_then (write c) (and_then (count (more_bytes (Z.of_nat (length c)))) (copy_chunks write r))
  end.

Definition copy (op : string) (write : list Z -> W (Result SftpError ())) (rs : Reads) : W (Result SftpError ()) :=
  and_then (copy_chunks write (rd_chunks rs))
    (mret match rd_failure rs with Some e => Err (SLocal op e) | None => Ok () end).

Definition upload_file (p : Path) (remote : string) (opts : RecursiveOptions) : W (Result SftpError ()) :=
  start_offset ← (if ro_resume opts
                  then md ← metadata remote; mret (match md with Ok md => default 0 (md_size md) | Err _ => 0 end)
                  else mret 0);
  and_then (local "put-open-local" (issue (LOpen p)))
  (and_then (if 0 <? start_offset then local "put-seek-local" (issue (LSeek p start_offset)) else mret (Ok ()))
  (try_bind (open_for_resume_write remote start_offset) (fun f =>
    rs ← issue (LReads p);
    and_then (copy "put-read-local" (fun c => local "put-write-remote" (issue (Remote (RawWrite f c)))) rs)
    (and_then (local "put-shutdown-remote" (issue (Remote (RawShutdown f))))
    (and_then (count one_file)
    (verify "put-checksum" opts p remote)))))).

Definition download_file (remote : string) (p : Path) (opts : RecursiveOptions) : W (Result SftpError ()) :=
  start_offset ← (if ro_resume opts
                  then md ← issue (LLength p); mret (match md with Ok n => n | Err _ => 0 end)
                  else mret 0);
  try_bind (open_for_read remote) (fun f =>
    and_then (if 0 <? start_offset then local "get-seek-remote" (issue (Remote (RawSeek f start_offset))) else mret (Ok ()))
    (and_then (match path_parent p with
               | Some ((_ :: _) as parent) => local "get-mkdir-parent" (issue (LCreateDirAll parent))
               | _ => mret (Ok ())
               end)
    (and_then (if 0 <? start_offset then local "get-open-local-append" (issue (LOpenAppend p)) else local "get-create-local" (issue (LCreate p)))
    (rs ← issue (Remote (RawReads f));
     and_then (copy "get-read-remote" (fun c => local "get-write-local" (issue (LWrite p c))) rs)
     (and_then (local "get-flush-local" (issue (LFlush p)))
     (and_then (count one_file)
     (verify "get-checksum" opts p remote))))))).

(** *** Download *)

(** The work on one entry that is not a link, and on the target of a link. *)
Definition get_directory (recur : string -> Path -> W (Result SftpError ())) (remote_child : string) (local_child : Path) : W (Result SftpError ()) :=
  and_then (local "get-mkdir-local" (issue (LCreateDirAll local_child)))
  (and_then (count one_directory) (recur remote_child local_child)).

(** Recreating a link, as on Unix. *)
Definition get_link (local_root : Path) (remote_child : string) (local_child : Path) : W (Result SftpError ()) :=
  try_bind (readlink remote_child) (fun target =>
    let link_parent := default local_root (path_parent local_child) in
    if symlink_target_within_root local_root link_parent (components target)
    then and_then (local "get-symlink-local" (issue (LSymlink target local_child))) (count one_symlink)
    else mret (Ok ())).

Definition get_entry (recur : string -> Path -> W (Result SftpError ())) (remote_dir : string) (local_dir local_root : Path)
    (opts : RecursiveOptions) (entry : SftpDirEntry) : W (Result SftpError ()) :=
  let name := de_file_name entry in
  if (name =? ".")%string || (name =? "..")%string then mret (Ok ())
  else
    match sanitize_entry_name name with
    | Err _ => mret (Ok ())
    | Ok _ =>
        let remote_child := join_remote remote_dir name in
        let local_child := path_join local_dir (components name) in
        if negb (is_within_root local_root local_child) then mret (Ok ())
        else if md_is_symlink (de_metadata entry) then
          if ro_follow_symlinks opts then
            try_bind (metadata remote_child) (fun target_meta =>
              if md_is_dir target_meta then get_directory recur remote_child local_child
              else download_file remote_child local_child opts)
          else get_link local_root remote_child local_child
        else if md_is_dir (de_metadata entry) then get_directory recur remote_child local_child
        else download_file remote_child local_child opts
    end.

(** [for entry in entries], ended by the first failure. *)
Fixpoint for_each {A} (body : A -> W (Result SftpError ())) (l : list A) : W (Result SftpError ()) :=
  match l with [] => mret (Ok ()) | x :: r => and_then (body x) (for_each body r) end.

(** [visited.insert]: whether the name is new. *)
Definition insert_seen (s : string) : W bool := fun w =>
  (Some (negb (bool_decide (s ∈ wk_seen w))),
   mkWalk (wk_trace w) (wk_report w) (wk_visited w) (if bool_decide (s ∈ wk_seen w) then wk_seen w else s :: wk_seen w)).

Fixpoint get_dir_inner (fuel : nat) (local_root : Path) (opts : RecursiveOptions) (remote_dir : string) (local_dir : Path) : W (Result SftpError ()) :=
  match fuel with
  | O => fun w => (None, w)
  | S fuel' =>
      try_bind (canonicalize remote_dir) (fun canonical =>
        new ← insert_seen canonical;
        if negb new then mret (Err (SLocal "get-walk" ("symlink loop detected at `" +:+ remote_dir +:+ "`")))
        else
          try_bind (read_dir remote_dir) (fun entries =>
            for_each (get_entry (get_dir_inner fuel' local_root opts) remote_dir local_dir local_root opts) entries))
  end.

Definition report_of (m : W (Result SftpError ())) : W (Result SftpError RecursiveReport) :=
  try_bind m (fun _ w => (Some (Ok (wk_report w)), w)).

Definition get_recursive (fuel : nat) (remote_dir : string) (local_dir : Path) (opts : RecursiveOptions) : W (Result SftpError RecursiveReport) :=
  report_of
    (and_then (local "get-mkdir-local" (issue (LCreateDirAll local_dir)))
    (and_then (count one_directory)
    (get_dir_inner fuel local_dir opts remote_dir local_dir))).

(** *** Upload *)

Definition put_directory (recur : Path -> string -> W (Result SftpError ())) (local_child : Path) (remote_child : string) : W (Result SftpError ()) :=
  and_then (create_dir_idem remote_child) (and_then (count one_directory) (recur local_child remote_child)).

Definition put_entry (recur : Path -> string -> W (Result SftpError ())) (local_dir : Path) (remote_dir : string) (opts : RecursiveOptions)
    (entry : string * FileType) : W (Result SftpError ()) :=
  let '(name, file_type) := entry in
  let remote_child := join_remote remote_dir name in
  let local_child := path_join local_dir (components name) in
  match file_type with
  | FtSymlink =>
      if ro_follow_symlinks opts then
        try_bind (local "put-symlink-stat" (issue (LIsDir local_child))) (fun is_dir =>
          if is_dir then put_directory recur local_child remote_child else upload_file local_child remote_child opts)
      else
        try_bind (local "put-readlink" (issue (LReadLink local_child))) (fun target =>
          and_then (symlink target remote_child) (count one_symlink))
  | FtDir => put_directory recur local_child remote_child
  | FtFile => upload_file local_child remote_child opts
  | FtOther => mret (Ok ())
  end.

Definition insert_visited (p : Path) : W bool := fun w =>
  (Some (negb (bool_decide (p ∈ wk_visited w))),
   mkWalk (wk_trace w) (wk_report w) (if bool_decide (p ∈ wk_visited w) then wk_visited w else p :: wk_visited w) (wk_seen w)).

Fixpoint put_dir_inner (fuel : nat) (opts : RecursiveOptions) (local_dir : Path) (remote_dir : string) : W (Result SftpError ()) :=
  match fuel with
  | O => fun w => (None, w)
  | S fuel' =>
      try_bind (local "put-canonicalize" (issue (LCanonicalize local_dir))) (fun canonical =>
        new ← insert_visited canonical;
        if negb new then mret (Err (SLocal "put-walk" "symlink loop detected"))
        else
          try_bind (local "put-read_dir" (issue (LReadDir local_dir))) (fun entries =>
            for_each (put_entry (put_dir_inner fuel' opts) local_dir remote_dir opts) entries))
  end.

Definition put_recursive (fuel : nat) (local_dir : Path) (remote_dir : string) (opts : RecursiveOptions) : W (Result SftpError RecursiveReport) :=
  report_of
    (and_then (create_dir_idem remote_dir)
    (and_then (count one_directory)
    (put_dir_inner fuel opts local_dir remote_dir))).

End recursive.

Definition walk_new : Walk := mkWalk [] (mkRecursiveReport 0 0 0 0) [] [].

(** ** Where a download reaches

    A computation keeps [P] when every call it makes satisfies it. *)

Definition keeps {A} (P : Step -> Prop) (m : W A) : Prop :=
  forall w, Forall P (wk_trace w) -> Forall P (wk_trace (m w).2).

Section keeps.
Context (P : Step -> Prop).

Lemma keeps_ret {A} (a : A) : keeps P (mret a : W A).
Proof. by intros w H. Qed.

Lemma keeps_bind {A B} (m : W A) (k : A -> W B) : keeps P m -> (forall a, keeps P (k a)) -> keeps P (m ≫= k).
Proof.
  intros Hm Hk w Hw. unfold mbind, W_bind. specialize (Hm w Hw). destruct (m w) as [[a|] w']; cbn in *; [by apply Hk|done].
Qed.

Lemma keeps_try {E A B} (m : W (Result E A)) (k : A -> W (Result E B)) :
  keeps P m -> (forall a, keeps P (k a)) -> keeps P (try_bind m k).
Proof. intros Hm Hk. apply keeps_bind; [done|]. intros [a|e]; [apply Hk|apply keeps_ret]. Qed.

Lemma keeps_then {A} (m : W (Result SftpError ())) (k : W (Result SftpError A)) : keeps P m -> keeps P k -> keeps P (and_then m k).
Proof. intros Hm Hk. by apply keeps_try. Qed.

Lemma keeps_count f : keeps P (count f).
Proof. by intros w H. Qed.

Lemma keeps_seen s : keeps P (insert_seen s).
Proof. by intros w H. Qed.

Lemma keeps_for_each {A} (body : A -> W (Result SftpError ())) l : (forall x, keeps P (body x)) -> keeps P (for_each body l).
Proof. intros Hb. induction l as [|x l IH]; [apply keeps_ret|]. by apply keeps_then. Qed.

Context `{!Environment}.

Lemma keeps_step s : P s -> keeps P (issue s).
Proof. intros Hs w Hw. cbn. apply Forall_app_2; [done|by constructor]. Qed.

Lemma keeps_local {A} op (m : W (Result string A)) : keeps P m -> keeps P (local op m).
Proof. intros Hm. apply keeps_bind; [done|]. intros r. apply keeps_ret. Qed.

Lemma keeps_tagged {A} op (m : W (Result RusshSftpError A)) : keeps P m -> keeps P (tagged op m).
Proof. intros Hm. apply keeps_bind; [done|]. intros r. apply keeps_ret. Qed.

Lemma keeps_copy op write rs : (forall c, keeps P (write c)) -> keeps P (copy op write rs).
Proof.
  intros Hw. apply keeps_then; [|apply keeps_ret]. induction (rd_chunks rs) as [|c l IH]; [apply keeps_ret|].
  apply keeps_then; [apply Hw|]. by apply keeps_then; [apply keeps_count|].
Qed.
End keeps.

(** Take a computation apart along its binds and branches. *)
Ltac walk :=
  repeat match goal with
  | |- forall _, _ => intro
  | |- keeps _ (mret _) => apply keeps_ret
  | |- keeps _ (count _) => apply keeps_count
  | |- keeps _ (insert_seen _) => apply keeps_seen
  | |- keeps _ (local _ _) => apply keeps_local
  | |- keeps _ (tagged _ _) => apply keeps_tagged
  | |- keeps _ (copy _ _ _) => apply keeps_copy
  | |- keeps ?P (issue ?s) => refine (keeps_step P s _); cbn; try done
  | |- keeps ?P (raw ?r) => refine (keeps_step P (Remote r) _); cbn; try done
  | |- keeps _ (and_then _ _) => apply keeps_then
  | |- keeps _ (try_bind _ _) => apply keeps_try
  | |- keeps _ (mbind _ _) => apply keeps_bind
  | |- keeps _ (match _ with _ => _ end) => case_match
  end.

(** A plain name: not empty, no dots of its own, no separator of either system
    and no control byte in it. *)
Definition plain_name (name : string) : Prop :=
  name <> "" /\ name <> "." /\ name <> ".."
  /\ forall a, In a (list_ascii_of_string name) -> a <> "/"%char /\ a <> "\"%char /\ 32 <= code a /\ code a <> 127.

(** The path lies below [root] by plain names. *)
Definition below (root p : Path) : Prop := exists names, Forall plain_name names /\ p = root ++ (Normal <$> names).
Definition strictly_below (root p : Path) : Prop := exists names name, Forall plain_name (names ++ [name]) /\ p = root ++ (Normal <$> names ++ [name]).

(** Where a path leads from the directory [cur], in a tree without links: the
    walk of the kernel, with [..] of the top being the top. *)
Definition above (cur : list string) : list string := take (length cur - 1) cur.
Fixpoint leads (cur : list string) (p : Path) : list string :=
  match p with
  | [] => cur
  | RootDir :: r => leads [] r
  | CurDir :: r => leads cur r
  | ParentDir :: r => leads (above cur) r
  | Normal s :: r => leads (cur ++ [s]) r
  end.

(** The target of a link at [p], read from the link's directory, leads to the
    directory [root] names or to a place below it, whatever directory the
    process runs in. *)
Definition link_inside (root p : Path) (target : string) : Prop :=
  (RootDir ∉ components target) /\
  exists names name, Forall plain_name (names ++ [name]) /\ p = root ++ (Normal <$> names ++ [name])
    /\ forall cwd, exists d, leads (leads cwd (root ++ (Normal <$> names))) (components target) = leads cwd root ++ d.

(** What a download may do to the local file system. *)
Definition contained (root : Path) (s : Step) : Prop :=
  match s with
  | Remote _ => True
  | LCreateDirAll p => below root p
  | LLength p | LCreate p | LOpenAppend p | LWrite p _ | LFlush p | LOpen p | LReads p => strictly_below root p
  | LSymlink target p => link_inside root p target
  | LSeek _ _ | LCanonicalize _ | LReadDir _ | LIsDir _ | LReadLink _ => False
  end.

Lemma any_char_false f s : any_char f s = false -> forall a, In a (list_ascii_of_string s) -> f a = false.
Proof. induction s as [|b s IH]; cbn; [done|]. intros [? ?]%orb_false_iff a [<-|?]; auto. Qed.

Lemma contains_char_In c s : In c (list_ascii_of_string s) -> contains_char c s = true.
Proof.
  unfold contains_char. induction s as [|b s IH]; cbn; [done|]. intros [->|Hs]; [by rewrite Ascii.eqb_refl|].
  apply negb_true_iff, andb_false_iff. right. by apply negb_true_iff, IH.
Qed.

Lemma sanitized_plain name : sanitize_entry_name name = Ok () -> plain_name name /\ components name = [Normal name].
Proof.
  unfold sanitize_entry_name.
  destruct (String.eqb_spec name ""); [done|]. destruct (String.eqb_spec name "."); [done|]. destruct (String.eqb_spec name ".."); [done|].
  destruct (contains_char "/" name) eqn:Es; [done|]. destruct (contains_char "\" name) eqn:Eb; [done|].
  destruct (any_char control_byte name) eqn:Ec; [done|]. cbn. destruct (is_windows_reserved_name name), (drive_prefix name); try done.
  case_bool_decide as Hc; [|done]. intros _. split; [|done]. split_and!; try done. intros a Ha.
  pose proof (any_char_false _ _ Ec a Ha) as H1. unfold control_byte in H1. apply orb_false_iff in H1 as [?%Z.ltb_ge ?%Z.eqb_neq].
  split_and!; [|..|lia|done]; intros ->; [by rewrite (contains_char_In "/" name Ha) in Es|by rewrite (contains_char_In "\" name Ha) in Eb].
Qed.

Lemma join_below root dir name :
  below root dir -> sanitize_entry_name name = Ok () -> strictly_below root (path_join dir (components name)).
Proof.
  intros (names & Hn & ->) [Hb Hc]%sanitized_plain. exists names, name. split; [by apply Forall_app_2; [|constructor]|].
  rewrite Hc. unfold path_join; cbn [is_absolute].
  destruct (root ++ (Normal <$> names)) eqn:E.
  - apply app_eq_nil in E as [-> E]. by apply fmap_nil_inv in E as ->.
  - rewrite <- E. by rewrite fmap_app, app_assoc.
Qed.

Lemma strictly_below_below root p : strictly_below root p -> below root p.
Proof. intros (names & name & H & ->). by exists (names ++ [name]). Qed.

Lemma parent_of_entry root names name : path_parent (root ++ (Normal <$> names ++ [name])) = Some (root ++ (Normal <$> names)).
Proof.
  unfold path_parent, path_pop. rewrite fmap_app, app_assoc. change (Normal <$> [name]) with [Normal name]. rewrite reverse_snoc. cbn. by rewrite reverse_involutive.
Qed.

Lemma strictly_below_parent root p : strictly_below root p -> exists parent, path_parent p = Some parent /\ below root parent.
Proof.
  intros (names & name & H & ->). exists (root ++ (Normal <$> names)). split; [apply parent_of_entry|].
  exists names. split; [|done]. by apply Forall_app in H as [? _].
Qed.

(** *** The lexical test and the walk *)

Lemma leads_app p q cur : leads cur (p ++ q) = leads (leads cur p) q.
Proof. revert cur. induction p as [|[| | |s] p IH]; intros cur; cbn; auto. Qed.

Lemma above_snoc cur s : above (cur ++ [s]) = cur.
Proof. unfold above. rewrite length_app. cbn. replace (length cur + 1 - 1)%nat with (length cur) by lia. by rewrite take_app_length. Qed.

(** An anchor, if any, and names. *)
Definition stack (anchored : bool) (names : list string) : Path := (if anchored then [RootDir] else []) ++ (Normal <$> names).

Lemma pop_stack_snoc anchored names s : path_pop (stack anchored (names ++ [s])) = Some (stack anchored names).
Proof. apply parent_of_entry. Qed.

Lemma lexical_leads anchored p : forall names c,
  RootDir ∉ p -> lexical (stack anchored names) p = Some c ->
  exists names', c = stack anchored names' /\ forall base, leads (base ++ names) p = base ++ names'.
Proof.
  induction p as [|[| | |s] p IH]; intros names c Hn Hc; cbn in Hc.
  - injection Hc as <-. by exists names.
  - by destruct Hn; left.
  - apply IH; [|done]. intros ?. apply Hn. by right.
  - destruct names as [|s names _] using rev_ind; [by destruct anchored|]. rewrite pop_stack_snoc in Hc.
    apply IH in Hc as (names' & -> & Hl); [|intros ?; apply Hn; by right]. exists names'. split; [done|].
    intros base. cbn. by rewrite app_assoc, above_snoc.
  - replace (stack anchored names ++ [Normal s]) with (stack anchored (names ++ [s])) in Hc by (unfold stack; by rewrite fmap_app, app_assoc).
    apply IH in Hc as (names' & -> & Hl); [|intros ?; apply Hn; by right]. exists names'. split; [done|].
    intros base. cbn. by rewrite <- app_assoc.
Qed.

Lemma starts_with_stack anchored c r : path_starts_with (stack anchored c) (stack anchored r) = true -> exists d, c = r ++ d.
Proof.
  assert (path_starts_with (Normal <$> c) (Normal <$> r) = true -> exists d, c = r ++ d) as H.
  { revert c. induction r as [|s r IH]; intros c; [by exists c|]. destruct c as [|s' c]; cbn; [done|].
    intros [[= ->]%bool_decide_eq_true Hc]%andb_true_iff. destruct (IH _ Hc) as [d ->]. by exists d. }
  destruct anchored; cbn; [|exact H]. rewrite bool_decide_eq_true_2 by done. exact H.
Qed.

(** The lexical test is the walk: what passes it leads below the root. *)
Lemma within_root_leads anchored root cand :
  RootDir ∉ root -> RootDir ∉ cand ->
  is_within_root ((if anchored : bool then [RootDir] else []) ++ root) ((if anchored then [RootDir] else []) ++ cand) = true ->
  forall cwd, exists d, leads cwd ((if anchored then [RootDir] else []) ++ cand) = leads cwd ((if anchored then [RootDir] else []) ++ root) ++ d.
Proof.
  intros Hr Hc Hw cwd. unfold is_within_root in Hw.
  assert (forall p, lexical [] ((if anchored then [RootDir] else []) ++ p) = lexical (stack anchored []) p) as Hs by (by destruct anchored).
  rewrite !Hs in Hw. destruct (lexical _ root) as [r|] eqn:Er; [|done]. destruct (lexical _ cand) as [c|] eqn:Ec; [|done].
  apply lexical_leads in Er as (r' & -> & Hlr); [|done]. apply lexical_leads in Ec as (c' & -> & Hlc); [|done].
  apply starts_with_stack in Hw as [d ->]. exists d. rewrite !leads_app.
  pose proof (Hlr (leads cwd (if anchored then [RootDir] else []))) as E1. pose proof (Hlc (leads cwd (if anchored then [RootDir] else []))) as E2.
  rewrite app_nil_r in E1, E2. by rewrite E1, E2, app_assoc.
Qed.

(** A path has an anchor in front or not at all. *)
Lemma components_anchor s : exists (anchored : bool) p, components s = (if anchored then [RootDir] else []) ++ p /\ RootDir ∉ p.
Proof.
  assert (forall p, RootDir ∉ later_component p) as Hl.
  { intros p. unfold later_component. repeat case_match; set_solver. }
  assert (forall l : list string, RootDir ∉ l ≫= later_component) as Hb.
  { intros l (p & Hp & _)%list_elem_of_bind. by apply (Hl p). }
  unfold components. destruct (split_on "/" s) as [|p r]; [exists false, []; set_solver|].
  destruct (s =? "")%string; [exists false; eexists; split; [reflexivity|apply Hb]|].
  destruct (p =? "")%string; [exists true; eexists; split; [reflexivity|apply Hb]|].
  destruct (p =? ".")%string; exists false; eexists; (split; [reflexivity|]).
  - intros [?|H]%elem_of_cons; [done|by apply Hb in H].
  - intros [H|H]%elem_of_app; [by apply Hl in H|by apply Hb in H].
Qed.

Lemma leads_join p q cur : RootDir ∉ q -> leads cur (path_join p q) = leads (leads cur p) q.
Proof.
  intros Hq. unfold path_join. assert (is_absolute q = false) as -> by (destruct q as [|[]]; try done; by destruct Hq; left).
  destruct p as [|c p]; [done|]. rewrite leads_app. by destruct q as [|[]].
Qed.

Lemma checked_link_inside root names name target :
  Forall plain_name (names ++ [name]) ->
  symlink_target_within_root (components root) (components root ++ (Normal <$> names)) (components target) = true ->
  link_inside (components root) (components root ++ (Normal <$> names ++ [name])) target.
Proof.
  intros Hn. unfold symlink_target_within_root, link_inside. destruct (is_absolute (components target)) eqn:Ea; [done|]. intros Hw.
  destruct (components_anchor target) as ([] & t & Et & Ht); [by rewrite Et in Ea|]. cbn in Et. rewrite Et in *.
  split; [done|]. exists names, name. split_and!; [done..|]. intros cwd. rewrite <- leads_join by done.
  destruct (components_anchor root) as (anchored & r & Er & Hr). rewrite Er in *.
  assert (exists q, path_join (((if anchored then [RootDir] else []) ++ r) ++ (Normal <$> names)) t = (if anchored then [RootDir] else []) ++ q /\ RootDir ∉ q)
    as (q & Eq & Hq).
  { assert (RootDir ∉ r ++ (Normal <$> names)) as Hrn by (intros [?|(? & ? & _)%list_elem_of_fmap]%elem_of_app; done).
    assert (RootDir ∉ match t with CurDir :: t' => t' | _ => t end) as Ht' by (destruct t as [|[]]; try done; intros ?; apply Ht; by right).
    unfold path_join. rewrite Ea, <- app_assoc. destruct anchored; cbn [app].
    - eexists. split; [reflexivity|]. by intros [?|?]%elem_of_app.
    - destruct (r ++ _) as [|c l] eqn:E; [by exists t|]. eexists. split; [reflexivity|]. by intros [?|?]%elem_of_app. }
  rewrite Eq in Hw |- *. by apply within_root_leads.
Qed.

Section download.
Context `{!Environment} (sha256_hex : list Z -> string) (local_root : string) (opts : RecursiveOptions).
Abbreviation root := (components local_root).
Abbreviation K := (keeps (contained root)).

Lemma keeps_verify op p remote : strictly_below root p -> K (verify sha256_hex op opts p remote).
Proof. intros Hp. unfold verify, sha256_local_file, sha256_remote_file, open_for_read. walk. Qed.

Lemma keeps_download remote p : strictly_below root p -> K (download_file sha256_hex remote p opts).
Proof.
  intros Hp. destruct (strictly_below_parent root p Hp) as (parent & Hpar & Hb).
  unfold download_file, open_for_read. rewrite Hpar. walk; try done; by apply keeps_verify.
Qed.

Lemma keeps_directory recur remote p :
  (forall r q, below root q -> K (recur r q)) -> strictly_below root p -> K (get_directory recur remote p).
Proof. intros Hr Hp. unfold get_directory. walk; [by apply strictly_below_below|]. by apply Hr, strictly_below_below. Qed.

Lemma keeps_link remote p : strictly_below root p -> K (get_link root remote p).
Proof.
  intros (names & name & Hn & ->). unfold get_link, readlink. rewrite parent_of_entry. cbn [default]. walk. by apply checked_link_inside.
Qed.

Lemma keeps_entry recur remote_dir dir entry :
  (forall r q, below root q -> K (recur r q)) -> below root dir -> K (get_entry sha256_hex recur remote_dir dir root opts entry).
Proof.
  intros Hr Hd. unfold get_entry. destruct (_ || _); [walk|]. destruct (sanitize_entry_name _) as [[]|] eqn:Hn; [|walk].
  pose proof (join_below root dir (de_file_name entry) Hd Hn) as Hc.
  unfold metadata. repeat case_match; walk; auto using keeps_download, keeps_directory, keeps_link.
Qed.

Lemma keeps_get_dir fuel remote_dir dir : below root dir -> K (get_dir_inner sha256_hex fuel root opts remote_dir dir).
Proof.
  revert remote_dir dir. induction fuel as [|fuel IH]; intros remote_dir dir Hd; [by intros w Hw|]. cbn [get_dir_inner].
  unfold canonicalize, read_dir. walk. apply keeps_for_each. intros e. by apply keeps_entry.
Qed.
End download.

(** C15: Whatever the server answers, a recursive download into the directory
    [root] makes directories only at or below it, and creates, appends to,
    writes and links only below it, through plain names (not empty, not [.] or
    [..], without separators and control bytes).  A link it recreates has a
    relative target which, walked from the link's directory in a tree without
    other links, leads to the root or to a place below it, from whatever
    working directory.  With links among the directories the walk of the kernel
    can end elsewhere ([symlink_hop_escapes]). *)
Theorem download_contained `{!Environment} (sha256_hex : list Z -> string) (fuel : nat) (remote_dir : string) (root : string) (opts : RecursiveOptions) :
  Forall (contained (components root)) (wk_trace (get_recursive sha256_hex fuel remote_dir (components root) opts walk_new).2).
Proof.
  assert (keeps (contained (components root)) (get_recursive sha256_hex fuel remote_dir (components root) opts)) as Hk; [|by apply Hk; constructor].
  unfold get_recursive, report_of. apply keeps_try; [|by intros _ w Hw].
  assert (below (components root) (components root)) by (exists []; split; [constructor|by rewrite app_nil_r]).
  walk; try done. by apply keeps_get_dir.
Qed.

(** ** Behaviour worth knowing *)

(** The server calls of a listing, which touch nothing. *)
Definition listing (root : Path) (s : Step) : Prop :=
  match s with Remote (RawCanonicalize _) | Remote (RawReadDir _) => True | LCreateDirAll p => p = root | _ => False end.

Lemma keeps_outside (P : Step -> Prop) `{!Environment} sha256_hex recur remote_dir dir root opts entry :
  lexical [] root = None -> keeps P (get_entry sha256_hex recur remote_dir dir root opts entry).
Proof.
  intros Hr. unfold get_entry, is_within_root. rewrite Hr. cbn [negb]. by repeat case_match; apply keeps_ret.
Qed.

(** A download into a directory whose path climbs above where it starts, such
    as [../out], makes that directory and skips every entry. *)
Theorem parent_root_downloads_nothing `{!Environment} (sha256_hex : list Z -> string) (fuel : nat) (remote_dir : string) (root : Path) (opts : RecursiveOptions) :
  lexical [] root = None ->
  Forall (listing root) (wk_trace (get_recursive sha256_hex fuel remote_dir root opts walk_new).2).
Proof.
  intros Hr. assert (keeps (listing root) (get_recursive sha256_hex fuel remote_dir root opts)) as Hk; [|by apply Hk; constructor].
  unfold get_recursive, report_of. apply keeps_try; [|by intros _ w Hw]. walk. destruct fuel as [|fuel]; [by intros w Hw|].
  cbn [get_dir_inner]. unfold canonicalize, read_dir. walk. apply keeps_for_each. intros e. by apply keeps_outside.
Qed.

(** *** A file system with links

    Directories, files and symbolic links at physical paths, and the walk the
    kernel makes: a link is replaced by its target, [..] is the physical
    parent. *)

Inductive Node := NDir | NFile (data : list Z) | NLink (target : Path).
Abbreviation Fs := (gmap (list string) Node).

Definition parent_of (d : list string) : list string := reverse (list.tail (reverse d)).

Fixpoint resolve (fuel : nat) (fs : Fs) (cur : list string) (p : Path) : option (list string) :=
  match fuel, p with
  | O, _ => None
  | _, [] => Some cur
  | S n, RootDir :: r => resolve n fs [] r
  | S n, CurDir :: r => resolve n fs cur r
  | S n, ParentDir :: r => resolve n fs (parent_of cur) r
  | S n, Normal s :: r =>
      match fs !! (cur ++ [s]) with
      | Some (NLink t) => resolve n fs cur (t ++ r)
      | Some _ => resolve n fs (cur ++ [s]) r
      | None => match r with [] => Some (cur ++ [s]) | _ => None end
      end
  end.

Definition LINK_FUEL : nat := 64.
Definition physical (fs : Fs) (p : Path) : option (list string) := resolve LINK_FUEL fs [] p.

(** The physical place of a new entry: its directory is followed, its name is
    not. *)
Definition place (fs : Fs) (p : Path) : option (list string) :=
  match reverse p with
  | Normal s :: r => match physical fs (reverse r) with Some d => Some (d ++ [s]) | None => None end
  | _ => None
  end.

(** The effect of a local call, with whether it succeeds. *)
Definition effect (s : Step) (fs : Fs) : bool * Fs :=
  match s with
  | LCreateDirAll p =>
      match physical fs p with
      | Some d => match fs !! d with Some NDir => (true, fs) | None => (true, <[d := NDir]> fs) | _ => (false, fs) end
      | None => (false, fs)
      end
  | LSymlink target p =>
      match place fs p with
      | Some d => match fs !! d with None => (true, <[d := NLink (components target)]> fs) | _ => (false, fs) end
      | None => (false, fs)
      end
  | LCreate p =>
      match physical fs p with
      | Some d => match fs !! d with Some NDir => (false, fs) | _ => (true, <[d := NFile []]> fs) end
      | None => (false, fs)
      end
  | LWrite p data =>
      match physical fs p with
      | Some d => match fs !! d with Some (NFile old) => (true, <[d := NFile (old ++ data)]> fs) | _ => (false, fs) end
      | None => (false, fs)
      end
  | _ => (true, fs)
  end.

Definition replay (init : Fs) (tr : list Step) : Fs := foldl (fun fs s => (effect s fs).2) init tr.

Definition io_result (b : bool) : Result string () := if b then Ok () else Err "i/o error".

(** A server given by functions, beside a local disk that starts as [init]. *)
Record Server := mkServer { sv_dirs : string -> list (string * FileAttributes); sv_links : string -> string; sv_files : string -> list Z }.

Definition on_disk (sv : Server) (init : Fs) : Environment := fun s tr =>
  let local : Result string () := io_result (effect s (replay init tr)).1 in
  match s return StepResp s with
  | Remote r =>
      match r return RawResp r with
      | RawCanonicalize p => Ok p
      | RawReadDir p => Ok (sv_dirs sv p)
      | RawReadWhole p => Ok (sv_files sv p)
      | RawOpen p => Ok 0%nat
      | RawOpenWrite p t => Ok 0%nat
      | RawSeek _ _ | RawWrite _ _ | RawShutdown _ => Ok ()
      | RawReads _ => mkReads [sv_files sv ""] None
      | RawMetadata p | RawSymlinkMetadata p => Err RTimeout
      | RawReadLink p => Ok (sv_links sv p)
      | RawTryExists p => Ok true
      | RawSetMode _ _ | RawSymlink _ _ | RawCreateDir _ | RawRemoveFile _ | RawRemoveDir _ | RawRename _ _ | RawClose => Ok ()
      end
  | LLength _ => Err "none"
  | LReads _ => mkReads [] None
  | LCanonicalize p => Ok p
  | LReadDir _ => Ok []
  | LIsDir _ => Ok false
  | LReadLink _ => Err "none"
  | LCreateDirAll _ | LSymlink _ _ | LCreate _ | LOpenAppend _ | LWrite _ _ | LFlush _ | LOpen _ | LSeek _ _ => local
  end.

Definition link_attrs : FileAttributes := mkFileAttributes None None None false false true.
Definition dir_attrs : FileAttributes := mkFileAttributes None None None true false false.
Definition file_attrs : FileAttributes := mkFileAttributes (Some 5) None None false true false.

(** It lists each of two names twice, first as a link and then as a
    directory. *)
Definition hop_server : Server := mkServer
  (fun d =>
    if (d =? "/srv")%string then [("x", link_attrs); ("x", dir_attrs)]
    else if (d =? "/srv/x")%string then [("l", link_attrs); ("l", dir_attrs)]
    else if (d =? "/srv/x/l")%string then [("planted", file_attrs)]
    else [])
  (fun l => if (l =? "/srv/x")%string then "." else "..")
  (fun _ => [112; 119; 110; 101; 100]).

Definition home_disk : Fs := {[ ["home"] := NDir; ["home"; "me"] := NDir; ["home"; "me"; "dl"] := NDir ]}.
Definition plain_opts : RecursiveOptions := mkRecursiveOptions false 0 CkNone false.

(** The lexical check does not know the links made before: a link [x] to [.]
    and then a directory [x] put the lexical path one level below the physical
    one, so a link to [..] in it passes, and a file lands beside the root. *)
Theorem symlink_hop_escapes (sha256_hex : list Z -> string) :
  let w := @get_recursive (on_disk hop_server home_disk) sha256_hex 8 "/srv" (components "/home/me/dl") plain_opts walk_new in
  is_ok <$> w.1 = Some true
  /\ home_disk !! ["home"; "me"; "planted"] = None
  /\ replay home_disk (wk_trace w.2) !! ["home"; "me"; "planted"] = Some (NFile [112; 119; 110; 101; 100]).
Proof. vm_compute. auto. Qed.

(** Appending to a file whose size the server does not report opens it with
    truncation, whatever else the server answers. *)
Theorem unsized_append_truncates `{!Environment} path a :
  answer (Remote (RawMetadata path)) [] = Ok a -> at_size a = None ->
  exists rest, wk_trace (append_file_from (mret (Ok 0)) path (mret (mkUploadStream [] SourceEof)) walk_new).2
               = Remote (RawMetadata path) :: Remote (RawOpenWrite path true) :: rest.
Proof.
  intros Ha Hs. unfold append_file_from, metadata, remote_half, open_for_resume_write, stream_upload, on_file, tagged, try_bind, raw, W_sftp, issue, mbind, W_bind, mret, W_ret.
  cbn -[answer]. rewrite Ha. cbn -[answer]. rewrite Hs. cbn -[answer].
  change (Datatypes.app [] [Remote (RawMetadata path)]) with [Remote (RawMetadata path)].
  destruct (answer (Remote (RawOpenWrite path true)) [Remote (RawMetadata path)] : Result RusshSftpError RFile) as [f|e]; cbn -[answer]; by eexists.
Qed.
