(* ===== verification/Calendar.v ===== *)
(** * Calendar dates

    Models [civil_from_days] and [format_mdtm] of
    [crates/spt-ftp-translator/src/server.rs], the computation of a date from a
    number of days, against the calendar itself: the date [n] days after the
    first of January 1970 is [n] times the next day.

    The source computes in [i64], [u32] and [i32]; its argument is a [u32]
    number of seconds divided by 86,400, so no operation leaves its type. *)

From S2P Require Import Prelude Text.

Definition civil_from_days (z : Z) : Z * Z * Z :=
  let z := z + 719468 in
  let era := z / 146097 in
  let doe := z - era * 146097 in
  let yoe := (doe - doe / 1460 + doe / 36524 - doe / 146096) / 365 in
  let y := yoe + era * 400 in
  let doy := doe - (365 * yoe + yoe / 4 - yoe / 100) in
  let mp := (5 * doy + 2) / 153 in
  let d := doy - (153 * mp + 2) / 5 + 1 in
  let m := if mp <? 10 then mp + 3 else mp - 9 in
  let y := y + (if m <=? 2 then 1 else 0) in
  (y, m, d).

(** [{:0w}]. *)
Fixpoint zeros (n : nat) : string := match n with O => "" | S k => String "0" (zeros k) end.
Definition zero_padded (w : nat) (n : Z) : string := (zeros (w - String.length (pretty n)) +:+ pretty n)%string.

Lemma zero_padded_no_char c w n : digit_val c = None -> Ascii.eqb "-" c = false -> no_char c (zero_padded w n) = true.
Proof.
  intros Hd Hm. unfold zero_padded. rewrite no_char_app, pretty_z_no_char, andb_true_r by done.
  assert (Ascii.eqb "0" c = false) as H0 by (destruct (Ascii.eqb_spec "0" c) as [<-|]; [by vm_compute in Hd|done]).
  induction (w - String.length (pretty n))%nat as [|m IH]; [done|]. cbn [zeros no_char]. by rewrite H0, IH.
Qed.

Definition format_mdtm (secs : Z) : string :=
  let days_since_epoch := secs / 86400 in
  let secs_in_day := secs mod 86400 in
  let '(year, month, day) := civil_from_days days_since_epoch in
  let hour := secs_in_day / 3600 in
  let minute := (secs_in_day / 60) mod 60 in
  let second := secs_in_day mod 60 in
  (zero_padded 4 year +:+ zero_padded 2 month +:+ zero_padded 2 day
   +:+ zero_padded 2 hour +:+ zero_padded 2 minute +:+ zero_padded 2 second)%string.

(** ** The calendar *)

Definition is_leap (y : Z) : bool := (y mod 4 =? 0) && (negb (y mod 100 =? 0) || (y mod 400 =? 0)).

Definition days_in_month (y m : Z) : Z :=
  if m =? 2 then (if is_leap y then 29 else 28)
  else if (m =? 4) || (m =? 6) || (m =? 9) || (m =? 11) then 30
  else 31.

Definition next_day (date : Z * Z * Z) : Z * Z * Z :=
  let '(y, m, d) := date in
  if d <? days_in_month y m then (y, m, d + 1)
  else if m <? 12 then (y, m + 1, 1)
  else (y + 1, 1, 1).

(** ** Years that begin in March

    The code counts years from the first of March, so that the leap day is the
    last of its year; [start y] is the first day of year [y] of an era. *)

Definition yoe_of (doe : Z) : Z := (doe - doe / 1460 + doe / 36524 - doe / 146096) / 365.
Definition start (y : Z) : Z := 365 * y + y / 4 - y / 100.

(** The last year of an era ends in a leap day that [start] does not count. *)
Definition year_finish (y : Z) : Z := start (y + 1) + (if y =? 399 then 1 else 0).

Definition month_day (doy : Z) : Z * Z :=
  let mp := (5 * doy + 2) / 153 in
  (if mp <? 10 then mp + 3 else mp - 9, doy - (153 * mp + 2) / 5 + 1).

Definition civil_of (y doy : Z) : Z * Z * Z :=
  let '(m, d) := month_day doy in (y + (if m <=? 2 then 1 else 0), m, d).

Lemma civil_split z :
  let era := (z + 719468) / 146097 in
  let doe := z + 719468 - era * 146097 in
  civil_from_days z = civil_of (yoe_of doe + era * 400) (doe - start (yoe_of doe)).
Proof. reflexivity. Qed.

Lemma yoe_in_year doe : 0 <= doe < 146097 -> 0 <= yoe_of doe < 400 /\ start (yoe_of doe) <= doe < year_finish (yoe_of doe).
Proof.
  intros H. unfold year_finish, start, yoe_of.
  destruct (Z.eqb_spec ((doe - doe / 1460 + doe / 36524 - doe / 146096) / 365) 399); Z.to_euclidean_division_equations; lia.
Qed.

Lemma year_unique doe y : 0 <= doe < 146097 -> 0 <= y < 400 -> start y <= doe < year_finish y -> yoe_of doe = y.
Proof.
  intros Hd Hy Hs. pose proof (yoe_in_year doe Hd) as [Hr Hi]. revert Hr Hi Hs. generalize (yoe_of doe); intros y' Hr Hi Hs.
  unfold year_finish, start in *. destruct (Z.eqb_spec y 399), (Z.eqb_spec y' 399); Z.to_euclidean_division_equations; lia.
Qed.

Lemma year_length y era : 0 <= y < 400 -> year_finish y - start y = 365 + Z.b2z (is_leap (y + era * 400 + 1)).
Proof.
  intros Hy. unfold year_finish, start, is_leap.
  destruct (Z.eqb_spec y 399), (Z.eqb_spec ((y + era * 400 + 1) mod 4) 0), (Z.eqb_spec ((y + era * 400 + 1) mod 100) 0), (Z.eqb_spec ((y + era * 400 + 1) mod 400) 0);
    cbn; Z.to_euclidean_division_equations; lia.
Qed.

(** Within a year, by cases on the day. *)
Definition month_step_ok (leap : bool) (doy : Z) : bool :=
  let '(m, d) := month_day doy in
  let '(m', d') := month_day (doy + 1) in
  let len := if m =? 2 then (if leap then 29 else 28) else days_in_month 1 m in
  Bool.eqb (m' <=? 2) ((m <=? 2) || (m =? 12) && (d =? 31))
  && (if d <? len then (m' =? m) && (d' =? d + 1)
      else if m <? 12 then (m' =? m + 1) && (d' =? 1)
      else (m' =? 1) && (d' =? 1))
  && ((d <? len) || (m =? 12) || Bool.eqb (m <=? 2) (m' <=? 2)).

Lemma month_steps : forallb (fun doy => month_step_ok true doy) (zrange 365) && forallb (fun doy => month_step_ok false doy) (zrange 364) = true.
Proof. vm_compute. reflexivity. Qed.

Lemma forallb_zrange (f : Z -> bool) n x : forallb f (zrange n) = true -> 0 <= x < n -> f x = true.
Proof.
  intros H Hx. rewrite forallb_forall in H. apply H, in_map_iff. exists (Z.to_nat x).
  split; [lia|]. apply in_seq. lia.
Qed.

Lemma month_step_holds leap doy : 0 <= doy -> doy + 1 < 365 + Z.b2z leap -> month_step_ok leap doy = true.
Proof.
  intros H0 H1. pose proof month_steps as Hm. apply andb_true_iff in Hm as [Ht Hf].
  destruct leap; cbn [Z.b2z] in H1.
  - apply (forallb_zrange _ _ doy Ht). lia.
  - apply (forallb_zrange _ _ doy Hf). lia.
Qed.

Lemma day_in_year y doy :
  0 <= doy -> doy + 1 < 365 + Z.b2z (is_leap (y + 1)) -> next_day (civil_of y doy) = civil_of y (doy + 1).
Proof.
  intros H0 H1. pose proof (month_step_holds _ _ H0 H1) as H. unfold month_step_ok, civil_of in *.
  destruct (month_day doy) as [m d], (month_day (doy + 1)) as [m' d']. unfold next_day.
  assert (days_in_month (y + (if m <=? 2 then 1 else 0)) m = if m =? 2 then (if is_leap (y + 1) then 29 else 28) else days_in_month 1 m) as ->.
  { unfold days_in_month. destruct (Z.eqb_spec m 2) as [->|]; [done|]. done. }
  set (len := if m =? 2 then _ else _) in *. clearbody len.
  apply andb_true_iff in H as [[Ha Hb]%andb_true_iff Hc]. apply Bool.eqb_prop in Ha.
  destruct (Z.ltb_spec d len), (Z.ltb_spec m 12), (Z.leb_spec m 2), (Z.leb_spec m' 2), (Z.eqb_spec m 12); bool_prop; try lia; subst; cbn in *; try discriminate; f_equal; f_equal; lia.
Qed.

Lemma year_end y : next_day (civil_of y (364 + Z.b2z (is_leap (y + 1)))) = civil_of (y + 1) 0.
Proof.
  unfold civil_of, next_day, days_in_month. change (month_day 0) with (3, 1).
  destruct (is_leap (y + 1)) eqn:E; cbn [Z.b2z]; [change (month_day (364 + 1)) with (2, 29)|change (month_day (364 + 0)) with (2, 28)];
    cbv iota beta; change (2 <=? 2) with true; change (2 =? 2) with true; cbv iota beta; rewrite E; cbn -[Z.add]; f_equal; f_equal; lia.
Qed.

Lemma civil_step z : civil_from_days (z + 1) = next_day (civil_from_days z).
Proof.
  rewrite !civil_split. set (a := z + 719468). replace (z + 1 + 719468) with (a + 1) by lia. clearbody a. clear z.
  set (era := a / 146097). set (doe := a - era * 146097).
  assert (0 <= doe < 146097) as Hd by (subst doe era; Z.to_euclidean_division_equations; lia).
  pose proof (yoe_in_year doe Hd) as [Hy Hs]. pose proof (year_length (yoe_of doe) era Hy) as Hl.
  set (y := yoe_of doe) in *.
  destruct (decide (doe + 1 < year_finish y)) as [Hin|Hend].
  - assert (doe + 1 < 146097) as Hlt.
    { clear - Hin Hy. unfold year_finish, start in Hin. destruct (Z.eqb_spec y 399); Z.to_euclidean_division_equations; lia. }
    assert ((a + 1) / 146097 = era) as He by (subst doe era; Z.to_euclidean_division_equations; lia).
    rewrite He. replace (a + 1 - era * 146097) with (doe + 1) by lia.
    rewrite (year_unique (doe + 1) y) by lia. replace (doe + 1 - start y) with (doe - start y + 1) by lia.
    symmetry. apply day_in_year; lia.
  - replace (doe - start y) with (364 + Z.b2z (is_leap (y + era * 400 + 1))) by lia. rewrite year_end.
    destruct (decide (y = 399)) as [Hy9|Hy9].
    + assert (doe = 146096) as Hlast.
      { rewrite Hy9 in Hend. change (year_finish 399) with 146097 in Hend. lia. }
      assert ((a + 1) / 146097 = era + 1) as He by (subst doe era; Z.to_euclidean_division_equations; lia).
      rewrite He. replace (a + 1 - (era + 1) * 146097) with 0 by lia. change (yoe_of 0) with 0. change (start 0) with 0. f_equal; lia.
    + assert (doe + 1 < 146097 /\ doe + 1 = start (y + 1)) as [Hlt Hst].
      { clear - Hend Hs Hy Hy9. unfold year_finish, start in *. destruct (Z.eqb_spec y 399); Z.to_euclidean_division_equations; lia. }
      assert ((a + 1) / 146097 = era) as He by (subst doe era; Z.to_euclidean_division_equations; lia).
      rewrite He. replace (a + 1 - era * 146097) with (doe + 1) by lia.
      rewrite (year_unique (doe + 1) (y + 1)).
      * f_equal; lia.
      * lia.
      * lia.
      * rewrite Hst. clear - Hy Hy9. unfold year_finish, start. destruct (Z.eqb_spec (y + 1) 399); Z.to_euclidean_division_equations; lia.
Qed.

Lemma civil_days n : civil_from_days (Z.of_nat n) = Nat.iter n next_day (1970, 1, 1).
Proof.
  induction n as [|n IH]; [reflexivity|]. rewrite Nat2Z.inj_succ. unfold Z.succ. rewrite civil_step, IH. reflexivity.
Qed.

(** The date of a moment by the calendar. *)
Definition date_of (secs : Z) : Z * Z * Z := Nat.iter (Z.to_nat (secs / 86400)) next_day (1970, 1, 1).

(** The modification time the translator reports is the calendar's: the
    date is that many next days after the first of January 1970, with leap
    years by the Gregorian rule, and the time of day is what remains. *)
Theorem mdtm_exact (secs : Z) : 0 <= secs ->
  let '(y, m, d) := date_of secs in
  format_mdtm secs
  = (zero_padded 4 y +:+ zero_padded 2 m +:+ zero_padded 2 d
     +:+ zero_padded 2 (secs mod 86400 / 3600) +:+ zero_padded 2 (secs mod 3600 / 60) +:+ zero_padded 2 (secs mod 60))%string.
Proof.
  intros Hs. unfold date_of. rewrite <- civil_days, Z2Nat.id by (apply Z.div_pos; lia).
  unfold format_mdtm. destruct (civil_from_days (secs / 86400)) as [[y m] d].
  assert (secs mod 86400 / 60 mod 60 = secs mod 3600 / 60) as -> by (Z.to_euclidean_division_equations; lia).
  assert (secs mod 86400 mod 60 = secs mod 60) as -> by (Z.to_euclidean_division_equations; lia). done.
Qed.

Lemma mdtm_exact_witness : format_mdtm 1704067200 = "20240101000000"%string /\ (let '(y, m, d) := date_of 1704067200 in (y, m, d) = (2024, 1, 1)).
Proof.
  split; [|vm_compute; reflexivity]. pose proof (mdtm_exact 1704067200 ltac:(lia)) as H. vm_compute in H |- *. exact H.
Defined.
