(* ===== verification/Ftp.v ===== *)
(** * The FTP translator

    Models [crates/spt-ftp-translator/src]: the configuration and the login
    policy ([config.rs]), the replies ([reply.rs]), the commands ([verbs.rs]),
    the passive data channel ([data.rs]), the session state ([state.rs]) and the
    session itself ([server.rs]), over the SFTP client of [Sftp].

    A session is a computation that calls the network and the backend; every
    call is recorded, and an arbitrary environment that sees the calls made so
    far answers it.  A deadline shows as the missing answer of a call.  The
    texts of operating-system errors are part of the answers. *)

From S2P Require Import Prelude Bytes Text Endpoint Ip Sftp Calendar.

(** ** Errors and configuration *)

Inductive TranslatorError :=
| TIo (e : string)
| TBind (addr e : string)
| TNoPassivePort (low high : Z)
| TAtCapacity (max : Z)
| TSftp (e : string)
| TTls (e : string)
| TIdleTimeout
| TInvalidConfig (e : string).

(** [Display] of the error. *)
Definition translator_error_text (e : TranslatorError) : string :=
  match e with
  | TIo e => "ftp control I/O: " +:+ e
  | TBind addr e => "ftp bind " +:+ addr +:+ ": " +:+ e
  | TNoPassivePort low high => "no free passive port in range " +:+ pretty low +:+ "-" +:+ pretty high
  | TAtCapacity max => "ftp translator at capacity (" +:+ pretty max +:+ " clients)"
  | TSftp e => "sftp backend: " +:+ e
  | TTls e => "tls config: " +:+ e
  | TIdleTimeout => "ftp control channel idle timeout"
  | TInvalidConfig e => "ftp translator config: " +:+ e
  end.

Inductive AuthPolicy :=
| AuthDeny
| AuthStatic (username password : string)
| AuthAnonymous
| AuthCallback (cb : string -> string -> bool).

(** [str::eq_ignore_ascii_case]. *)
Definition same_ignoring_case (a b : string) : bool := (to_ascii_lowercase a =? to_ascii_lowercase b)%string.

Definition authorise (policy : AuthPolicy) (user password : string) : bool :=
  match policy with
  | AuthDeny => false
  | AuthStatic u p => (u =? user)%string && (p =? password)%string
  | AuthAnonymous => same_ignoring_case user "anonymous" || same_ignoring_case user "ftp"
  | AuthCallback cb => cb user password
  end.

Record TlsConfig := mkTlsConfig { cert_file : string; key_file : string; require_tls : bool }.

Record TranslatorConfig := mkTranslatorConfig {
  tc_bind_addr : IpAddr * Z;
  tc_passive_port_range : Z * Z;
  tc_external_addr : option IpAddr;
  tc_welcome_banner : string;
  tc_auth : AuthPolicy;
  tc_tls : option TlsConfig;
  tc_max_clients : Z;
  tc_idle_timeout : Z;
  tc_data_timeout : Z;
  tc_user_profiles : list (string * string)
}.

Definition validate (cfg : TranslatorConfig) : Result string () :=
  let '(lo, hi) := tc_passive_port_range cfg in
  if (lo =? 0) || (hi =? 0) || (hi <? lo)
  then Err ("passive_port_range " +:+ pretty lo +:+ "-" +:+ pretty hi +:+ " is invalid (require 0 < lo <= hi)")
  else if tc_max_clients cfg =? 0 then Err "max_clients must be >= 1"
  else if contains_char newline (tc_welcome_banner cfg) || contains_char carriage (tc_welcome_banner cfg)
  then Err "welcome_banner must be a single line"
  else Ok ().

(** ** Replies ([reply.rs]) *)

Record Reply := mkReply { rp_code : Z; rp_text : string }.

(** [text.replace(['\r', '\n'], " ")], which changes nothing in a text without
    them. *)
Fixpoint one_line (s : string) : string :=
  match s with
  | EmptyString => EmptyString
  | String a r => String (if Ascii.eqb a carriage || Ascii.eqb a newline then " "%char else a) (one_line r)
  end.

Definition Reply_new (code : Z) (text : string) : Reply := mkReply code (one_line text).

Definition crlf : string := String carriage (String newline "").
Definition wire (r : Reply) : string := pretty (rp_code r) +:+ " " +:+ rp_text r +:+ crlf.

Fixpoint feature_lines (l : list string) : string :=
  match l with [] => "" | f :: r => " " +:+ f +:+ crlf +:+ feature_lines r end.
Definition feat_block (features : list string) : string := "211-Features:" +:+ crlf +:+ feature_lines features +:+ "211 End" +:+ crlf.

(** ** Commands ([verbs.rs]) *)

Inductive Verb :=
| VUser (a : string) | VPass (a : string) | VAcct (a : string) | VCwd (a : string) | VCdup | VQuit | VRein | VPwd
| VList (a : option string) | VNlst (a : option string) | VMlsd (a : option string) | VMlst (a : option string)
| VMdtm (a : string) | VSize (a : string) | VType (a : string) | VMode (a : string) | VStru (a : string)
| VRetr (a : string) | VStor (a : string) | VStou (a : option string) | VAppe (a : string) | VDele (a : string)
| VRnfr (a : string) | VRnto (a : string) | VMkd (a : string) | VRmd (a : string)
| VPasv | VEpsv (a : option string) | VPort (a : string) | VEprt (a : string)
| VFeat | VOpts (a : string) | VAuth (a : string) | VPbsz (a : string) | VProt (a : string) | VNoop
| VUnknown (verb : string).

Definition opt (s : string) : option string := if (s =? "")%string then None else Some s.

(** [trim_start_matches] with a set of characters. *)
Fixpoint trim_start_by (p : ascii -> bool) (s : string) : string :=
  match s with String a r => if p a then trim_start_by p r else s | EmptyString => s end.
Definition line_end (a : ascii) : bool := Ascii.eqb a carriage || Ascii.eqb a newline.
Definition trim_line (s : string) : string := trim_end_by line_end (trim_start_by line_end s).

Definition parse_command (line : string) : Verb :=
  let trimmed := trim_line line in
  let '(head, rest) := match split_once " " trimmed with Some (h, t) => (h, t) | None => (trimmed, ""%string) end in
  let verb := to_ascii_uppercase head in
  let args := trim_start rest in
  let kw := String.eqb verb in
  if kw "" then VNoop
  else if kw "USER" then VUser args
  else if kw "PASS" then VPass args
  else if kw "ACCT" then VAcct args
  else if kw "CWD" then VCwd args
  else if kw "XCWD" then VCwd args
  else if kw "CDUP" || kw "XCUP" then VCdup
  else if kw "QUIT" then VQuit
  else if kw "REIN" then VRein
  else if kw "PWD" || kw "XPWD" then VPwd
  else if kw "LIST" then VList (opt args)
  else if kw "NLST" then VNlst (opt args)
  else if kw "MLSD" then VMlsd (opt args)
  else if kw "MLST" then VMlst (opt args)
  else if kw "MDTM" then VMdtm args
  else if kw "SIZE" then VSize args
  else if kw "TYPE" then VType (to_ascii_uppercase args)
  else if kw "MODE" then VMode (to_ascii_uppercase args)
  else if kw "STRU" then VStru (to_ascii_uppercase args)
  else if kw "RETR" then VRetr args
  else if kw "STOR" then VStor args
  else if kw "STOU" then VStou (opt args)
  else if kw "APPE" then VAppe args
  else if kw "DELE" then VDele args
  else if kw "RNFR" then VRnfr args
  else if kw "RNTO" then VRnto args
  else if kw "MKD" || kw "XMKD" then VMkd args
  else if kw "RMD" || kw "XRMD" then VRmd args
  else if kw "PASV" then VPasv
  else if kw "EPSV" then VEpsv (opt args)
  else if kw "PORT" then VPort args
  else if kw "EPRT" then VEprt args
  else if kw "FEAT" then VFeat
  else if kw "OPTS" then VOpts args
  else if kw "AUTH" then VAuth (to_ascii_uppercase args)
  else if kw "PBSZ" then VPbsz args
  else if kw "PROT" then VProt (to_ascii_uppercase args)
  else if kw "NOOP" then VNoop
  else VUnknown verb.

(** ** Session state ([state.rs]) *)

Inductive LoginPhase := Anonymous | AwaitingPass | LoggedIn.
Inductive TransferType := TAscii | TImage.
Inductive TransferMode := Stream.
Inductive ControlState := CPlain | CEncrypted.
#[global] Instance phase_eq_dec : EqDecision LoginPhase.
Proof. solve_decision. Defined.
#[global] Instance control_eq_dec : EqDecision ControlState.
Proof. solve_decision. Defined.

(** Clients, listeners and sockets are known by number. *)
Abbreviation Client := nat.
Abbreviation Listener := nat.
Abbreviation Sock := nat.

Record SessionState := mkSessionState {
  st_login : LoginPhase;
  st_pending_user : option string;
  st_user : option string;
  st_ttype : TransferType;
  st_mode : TransferMode;
  st_control : ControlState;
  st_pbsz_set : bool;
  st_prot_private : bool;
  st_cwd : string;
  st_rnfr : option string;
  st_sftp : option Client;
  st_pending_listener : option Listener
}.

Definition SessionState_new : SessionState :=
  mkSessionState Anonymous None None TImage Stream CPlain false false "/" None None None.

Definition is_logged_in (s : SessionState) : bool :=
  bool_decide (st_login s = LoggedIn) && match st_sftp s with Some _ => true | None => false end.

Definition set_login (l : LoginPhase) (pending : option string) (s : SessionState) : SessionState :=
  mkSessionState l pending (st_user s) (st_ttype s) (st_mode s) (st_control s) (st_pbsz_set s) (st_prot_private s) (st_cwd s) (st_rnfr s) (st_sftp s) (st_pending_listener s).
Definition set_session (user : string) (c : Client) (s : SessionState) : SessionState :=
  mkSessionState LoggedIn (st_pending_user s) (Some user) (st_ttype s) (st_mode s) (st_control s) (st_pbsz_set s) (st_prot_private s) (st_cwd s) (st_rnfr s) (Some c) (st_pending_listener s).
Definition set_ttype (t : TransferType) (s : SessionState) : SessionState :=
  mkSessionState (st_login s) (st_pending_user s) (st_user s) t (st_mode s) (st_control s) (st_pbsz_set s) (st_prot_private s) (st_cwd s) (st_rnfr s) (st_sftp s) (st_pending_listener s).
Definition set_control (c : ControlState) (s : SessionState) : SessionState :=
  mkSessionState (st_login s) (st_pending_user s) (st_user s) (st_ttype s) (st_mode s) c (st_pbsz_set s) (st_prot_private s) (st_cwd s) (st_rnfr s) (st_sftp s) (st_pending_listener s).
Definition set_protection (pbsz prot : bool) (s : SessionState) : SessionState :=
  mkSessionState (st_login s) (st_pending_user s) (st_user s) (st_ttype s) (st_mode s) (st_control s) pbsz prot (st_cwd s) (st_rnfr s) (st_sftp s) (st_pending_listener s).
Definition set_cwd (d : string) (s : SessionState) : SessionState :=
  mkSessionState (st_login s) (st_pending_user s) (st_user s) (st_ttype s) (st_mode s) (st_control s) (st_pbsz_set s) (st_prot_private s) d (st_rnfr s) (st_sftp s) (st_pending_listener s).
Definition set_rnfr (r : option string) (s : SessionState) : SessionState :=
  mkSessionState (st_login s) (st_pending_user s) (st_user s) (st_ttype s) (st_mode s) (st_control s) (st_pbsz_set s) (st_prot_private s) (st_cwd s) r (st_sftp s) (st_pending_listener s).
Definition set_listener (l : option Listener) (s : SessionState) : SessionState :=
  mkSessionState (st_login s) (st_pending_user s) (st_user s) (st_ttype s) (st_mode s) (st_control s) (st_pbsz_set s) (st_prot_private s) (st_cwd s) (st_rnfr s) (st_sftp s) l.

(** ** Paths of commands *)

Fixpoint split_by (p : ascii -> bool) (s : string) : list string :=
  match s with
  | EmptyString => [EmptyString]
  | String a s' =>
      match split_by p s' with
      | [] => []
      | h :: t => if p a then EmptyString :: h :: t else String a h :: t
      end
  end.

Definition separator (a : ascii) : bool := Ascii.eqb a "/" || Ascii.eqb a "\".

(** The loop over the segments: the first bad one decides. *)
Fixpoint check_segments (l : list string) : Result Reply () :=
  match l with
  | [] => Ok ()
  | segment :: r =>
      if (segment =? "..")%string then Err (Reply_new 550 "Path traversal `..` is not permitted.")
      else if contains_char "000" segment then Err (Reply_new 553 "File name not allowed (embedded NUL).")
      else check_segments r
  end.

Definition validate_path_argument (arg : string) : Result Reply () := check_segments (split_by separator arg).

(** The stack of [normalise], its top first. *)
Fixpoint push_parts (parts : list string) (out : list string) : list string :=
  match parts with
  | [] => out
  | p :: r =>
      if (p =? "")%string || (p =? ".")%string then push_parts r out
      else if (p =? "..")%string then push_parts r (list.tail out)
      else push_parts r (p :: out)
  end.

(** [join("/")]. *)
Fixpoint slashed (l : list string) : string :=
  match l with [] => "" | [p] => p | p :: r => p +:+ "/" +:+ slashed r end.

Definition normalise (p : string) : string := "/" +:+ slashed (reverse (push_parts (split_on "/" p) [])).

Definition join_cwd (cwd target : string) : string :=
  if starts_with "/" target then normalise target
  else normalise (trim_end_matches "/" cwd +:+ "/" +:+ target).

(** The parent of [CDUP]: the part before the last slash, or the root. *)
Definition cdup (cwd : string) : string :=
  match rsplit_once "/" (trim_end_matches "/" cwd) with
  | Some (h, _) => if (h =? "")%string then "/" else h
  | None => "/"
  end.

(** ** Listings *)

(** [{:>w}]. *)
Fixpoint blanks (n : nat) : string := match n with O => "" | S k => String " " (blanks k) end.
Definition right_aligned (w : nat) (n : Z) : string := blanks (w - String.length (pretty n)) +:+ pretty n.

Definition MODE_BITS : list (Z * ascii) :=
  [(256, "r"%char); (128, "w"%char); (64, "x"%char); (32, "r"%char); (16, "w"%char); (8, "x"%char); (4, "r"%char); (2, "w"%char); (1, "x"%char)].
Fixpoint mode_chars (l : list (Z * ascii)) (mode : Z) : string :=
  match l with
  | [] => ""
  | (mask, ch) :: r => String (if negb (Z.land mode mask =? 0) then ch else "-"%char) (mode_chars r mode)
  end.
Definition format_mode_bits (mode : Z) : string := mode_chars MODE_BITS mode.

Definition DEFAULT_MODE : Z := 420.

Definition format_unix_ls_line (name : string) (md : SftpMetadata) : string :=
  let kind := if md_is_dir md then "d" else if md_is_symlink md then "l" else "-" in
  kind +:+ format_mode_bits (default DEFAULT_MODE (md_permissions md)) +:+ " 1 owner group "
  +:+ right_aligned 12 (default 0 (md_size md)) +:+ " " +:+ right_aligned 10 (default 0 (md_modified_unix md)) +:+ " " +:+ name.

(** [{:o}] of nine bits. *)
Definition octal (n : Z) : string :=
  let d2 := n / 64 in let d1 := n / 8 mod 8 in let d0 := n mod 8 in
  if negb (d2 =? 0) then pretty d2 +:+ pretty d1 +:+ pretty d0
  else if negb (d1 =? 0) then pretty d1 +:+ pretty d0
  else pretty d0.

Definition mlsx_fact_line (name : string) (md : SftpMetadata) : string :=
  let type_fact := if md_is_dir md then "dir" else if md_is_symlink md then "OS.unix=symlink" else "file" in
  "type=" +:+ type_fact +:+ ";size=" +:+ pretty (default 0 (md_size md)) +:+ ";modify=" +:+ format_mdtm (default 0 (md_modified_unix md))
  +:+ ";perm=" +:+ octal (Z.land (default DEFAULT_MODE (md_permissions md)) 511) +:+ "; " +:+ name.

Inductive ListMode := LmList | LmNlst | LmMlsd.

Definition list_line (mode : ListMode) (e : SftpDirEntry) : string :=
  match mode with
  | LmList => format_unix_ls_line (de_file_name e) (de_metadata e)
  | LmNlst => de_file_name e
  | LmMlsd => mlsx_fact_line (de_file_name e) (de_metadata e)
  end +:+ crlf.

Fixpoint list_body (mode : ListMode) (l : list SftpDirEntry) : string :=
  match l with [] => "" | e :: r => list_line mode e +:+ list_body mode r end.

(** ** The data channel ([data.rs]) *)

Definition format_pasv_reply (ip port : Z) : string :=
  "227 Entering Passive Mode (" +:+ pretty (octet ip 0) +:+ "," +:+ pretty (octet ip 1) +:+ "," +:+ pretty (octet ip 2) +:+ ","
  +:+ pretty (octet ip 3) +:+ "," +:+ pretty (port / 256) +:+ "," +:+ pretty (port mod 256) +:+ ").".
Definition format_epsv_reply (port : Z) : string := "229 Entering Extended Passive Mode (|||" +:+ pretty port +:+ "|).".
Definition strip_leading_code (s : string) : string := match split_once " " s with Some (_, rest) => rest | None => s end.

Definition advertise_ip (cfg : TranslatorConfig) (local_addr : IpAddr) : IpAddr := default local_addr (tc_external_addr cfg).
Definition as_ipv4 (ip : IpAddr) : option Z := match ip with V4 a => Some a | V6 a => to_ipv4_mapped a end.
Definition is_ipv6 (ip : IpAddr) : bool := match ip with V6 _ => true | V4 _ => false end.

(** [canonical_ip] is the library's [to_canonical]. *)
Definition canonical_ip (ip : IpAddr) : IpAddr :=
  match ip with V6 a => match to_ipv4_mapped a with Some v4 => V4 v4 | None => V6 a end | V4 _ => ip end.
Definition data_peer_matches_control (control_ip data_ip : IpAddr) : bool := bool_decide (canonical_ip control_ip = canonical_ip data_ip).

(** ** Calls *)

Inductive FillAnswer := FillIdle | FillError (e : string) | FillBytes (l : list Z).
Inductive AcceptAnswer := AcceptOk (s : Sock) (peer : IpAddr) | AcceptError (e : string) | AcceptTimeout.
Inductive HandshakeAnswer := HandshakeOk | HandshakeError (e : string) | HandshakeTimeout.
Inductive DataStream := DPlain (s : Sock) | DTls (s : Sock).

Inductive Call :=
| CFill (enc : bool)
| CSend (enc : bool) (text : string)
| CVerb (v : Verb)
| CTls
| COpenFor (user : string)
| CSftp (c : Client) (r : Raw)
| CSftpTimed (c : Client) (r : Raw)
| CBind (ip : IpAddr) (port : Z)
| CAccept (l : Listener)
| CDataTls (s : Sock)
| CDataSend (d : DataStream) (data : list Z)
| CDataReads (d : DataStream)
| CDataShutdown (d : DataStream)
| CNow.

(** [CVerb] is the log line of a command.  [CBind] answers the listener and the
    port it reports; the last three data calls and [CSftpTimed] answer nothing
    when the deadline of the transfer falls on them; [CDataReads] answers what
    the client sends until it ends, fails or is late. *)
Definition Resp (c : Call) : Type :=
  match c with
  | CFill _ => FillAnswer
  | CSend _ _ => Result string ()
  | CVerb _ => ()
  | CTls | CDataTls _ => HandshakeAnswer
  | COpenFor _ => Result TranslatorError Client
  | CSftp _ r => RawResp r
  | CSftpTimed _ r => option (RawResp r)
  | CBind _ _ => option (Listener * option Z)
  | CAccept _ => AcceptAnswer
  | CDataSend _ _ => option (Result string ())
  | CDataReads _ => UploadStream
  | CDataShutdown _ => option ()
  | CNow => Z
  end.

Class Outside : Type := reply_to : forall c : Call, list Call -> Resp c.

(** A computation that calls the outside and may panic. *)
Definition Io (A : Type) : Type := list Call -> Outcome A * list Call.
#[global] Instance Io_ret : MRet Io := fun _ a tr => (Return a, tr).
#[global] Instance Io_bind : MBind Io := fun _ _ k m tr =>
  match m tr with (Return a, tr') => k a tr' | (Panic, tr') => (Panic, tr') end.

(** The same under a deadline. *)
Definition Timed (A : Type) : Type := list Call -> Outcome (option A) * list Call.
#[global] Instance Timed_ret : MRet Timed := fun _ a tr => (Return (Some a), tr).
#[global] Instance Timed_bind : MBind Timed := fun _ _ k m tr =>
  match m tr with (Return (Some a), tr') => k a tr' | (Return None, tr') => (Return None, tr') | (Panic, tr') => (Panic, tr') end.

Definition elapsed {A} : Timed A := fun tr => (Return None, tr).

Section session.
Context `{!Outside}.

Definition call (c : Call) : Io (Resp c) := fun tr => (Return (reply_to c tr), tr ++ [c]).
Definition late_call (c : Call) {A} (f : Resp c -> option A) : Timed A := fun tr => (Return (f (reply_to c tr)), tr ++ [c]).
Definition panic {A} : Io A := fun tr => (Panic, tr).

(** The SFTP client of a session, without and with a deadline. *)
Definition sftp_of (c : Client) : SftpIo Io := fun r => call (CSftp c r).
Definition sftp_timed (c : Client) : SftpIo Timed := fun r => late_call (CSftpTimed c r) (fun a => a).

(** [timeout(data_timeout, transfer)]. *)
Definition within (m : Timed Reply) (late : Reply) : Io Reply := fun tr =>
  match m tr with (Return (Some r), tr') => (Return r, tr') | (Return None, tr') => (Return late, tr') | (Panic, tr') => (Panic, tr') end.

(** [state.sftp.as_ref().unwrap()]. *)
Definition client (s : SessionState) : Io Client := match st_sftp s with Some c => mret c | None => panic end.

(** [bind_passive]: the first port of the range that binds. *)
Fixpoint bind_ports (ip : IpAddr) (ports : list Z) : Io (option (Listener * Z)) :=
  match ports with
  | [] => mret None
  | port :: r =>
      b ← call (CBind ip port);
      match b with
      | Some (l, reported) => mret (Some (l, default port reported))
      | None => bind_ports ip r
      end
  end.

Definition bind_passive (cfg : TranslatorConfig) (ip : IpAddr) : Io (Result TranslatorError (Listener * Z)) :=
  let '(lo, hi) := tc_passive_port_range cfg in
  b ← bind_ports ip ((fun i => lo + i) <$> zrange (hi - lo + 1));
  mret (match b with Some x => Ok x | None => Err (TNoPassivePort lo hi) end).

Definition accept_data_connection (listener : Listener) (control_peer_ip : IpAddr) : Io (Result Reply Sock) :=
  a ← call (CAccept listener);
  mret (match a with
        | AcceptOk data peer =>
            if data_peer_matches_control control_peer_ip peer then Ok data
            else Err (Reply_new 425 "Data connection source address does not match control connection.")
        | AcceptError e => Err (Reply_new 425 ("Can't open data connection: " +:+ e))
        | AcceptTimeout => Err (Reply_new 425 "Data connection timed out.")
        end).

Definition wrap_data (sock : Sock) (s : SessionState) (tls_acceptor : bool) : Io (Result string DataStream) :=
  if st_prot_private s && bool_decide (st_control s = CEncrypted) && tls_acceptor then
    h ← call (CDataTls sock);
    mret (match h with
          | HandshakeOk => Ok (DTls sock)
          | HandshakeError e => Err e
          | HandshakeTimeout => Err "data TLS handshake timed out"
          end)
  else mret (Ok (DPlain sock)).

(** The data connection of a transfer, checked and wrapped. *)
Definition with_data (s : SessionState) (listener : Listener) (control_peer_ip : IpAddr) (tls_acceptor : bool)
    (transfer : Client -> DataStream -> Io Reply) : Io Reply :=
  sftp ← client s;
  a ← accept_data_connection listener control_peer_ip;
  match a with
  | Err reply => mret reply
  | Ok sock =>
      d ← wrap_data sock s tls_acceptor;
      match d with
      | Err e => mret (Reply_new 425 ("Data TLS handshake failed: " +:+ e))
      | Ok data => transfer sftp data
      end
  end.

Definition run_list_transfer (s : SessionState) (listener : Listener) (target : string) (mode : ListMode)
    (control_peer_ip : IpAddr) (tls_acceptor : bool) : Io Reply :=
  with_data s listener control_peer_ip tls_acceptor (fun sftp data =>
    within
      (r ← read_dir (SftpIo0 := sftp_timed sftp) target;
       match r with
       | Err e => mret (Reply_new 550 ("LIST: " +:+ sftp_error_text e))
       | Ok entries =>
           w ← late_call (CDataSend data (bytes_of (list_body mode entries))) (fun a => a);
           match w with
           | Err e => mret (Reply_new 426 ("LIST aborted: " +:+ e))
           | Ok _ => _ ← late_call (CDataShutdown data) (fun a => a); mret (Reply_new 226 "Listing complete.")
           end
       end)
      (Reply_new 426 "LIST data transfer timed out.")).

(** The loop of [RETR]: what is read of the file is sent on. *)
Fixpoint send_chunks (data : DataStream) (chunks : list (list Z)) (finish : Timed Reply) : Timed Reply :=
  match chunks with
  | [] => finish
  | c :: r =>
      w ← late_call (CDataSend data c) (fun a => a);
      match w with
      | Err e => mret (Reply_new 426 ("RETR aborted: " +:+ e))
      | Ok _ => send_chunks data r finish
      end
  end.

Definition run_retr_transfer (s : SessionState) (listener : Listener) (target : string)
    (control_peer_ip : IpAddr) (tls_acceptor : bool) : Io Reply :=
  with_data s listener control_peer_ip tls_acceptor (fun sftp data =>
    within
      (r ← open_for_read (SftpIo0 := sftp_timed sftp) target;
       match r with
       | Err e => mret (Reply_new 550 ("RETR: " +:+ sftp_error_text e))
       | Ok remote =>
           rs ← late_call (CSftpTimed sftp (RawReads remote)) (fun a => a);
           send_chunks data (rd_chunks rs)
             (match rd_failure rs with
              | Some e => mret (Reply_new 550 ("RETR: " +:+ e))
              | None => _ ← late_call (CDataShutdown data) (fun a => a); mret (Reply_new 226 "Transfer complete.")
              end)
       end)
      (Reply_new 426 "RETR data transfer timed out.")).

Definition run_stor_transfer (s : SessionState) (listener : Listener) (target : string) (append : bool)
    (control_peer_ip : IpAddr) (tls_acceptor : bool) : Io Reply :=
  with_data s listener control_peer_ip tls_acceptor (fun sftp data =>
    let source : Timed UploadStream := late_call (CDataReads data) Some in
    within
      (r ← (if append then append_file_from (SftpIo0 := sftp_timed sftp) elapsed target source
            else write_file_from (SftpIo0 := sftp_timed sftp) elapsed target source);
       match r with
       | Ok _ => _ ← late_call (CDataShutdown data) (fun a => a); mret (Reply_new 226 "Transfer complete.")
       | Err (UploadSource e) => mret (Reply_new 426 ("STOR read: " +:+ e))
       | Err (UploadRemote e) => mret (Reply_new 550 ("STOR write: " +:+ sftp_error_text e))
       end)
      (Reply_new 426 "STOR data transfer timed out.")).

(** ** The dispatcher *)

Record Turn := mkTurn { tn_reply : Reply; tn_quit : bool; tn_tls : bool; tn_state : SessionState }.

(** The reply of most commands: the session goes on as [s]. *)
Definition answer_with (s : SessionState) (code : Z) (text : string) : Io Turn := mret (mkTurn (Reply_new code text) false false s).

(** A command with a path, refused before anything else when the path is. *)
Definition with_path (s : SessionState) (arg : string) (k : Io Turn) : Io Turn :=
  match validate_path_argument arg with Err r => mret (mkTurn r false false s) | Ok _ => k end.
Definition with_opt_path (s : SessionState) (arg : option string) (k : Io Turn) : Io Turn :=
  match arg with Some p => with_path s p k | None => k end.

(** The directory a listing names. *)
Definition list_target (s : SessionState) (arg : option string) : string :=
  match arg with Some p => if (p =? "")%string then st_cwd s else join_cwd (st_cwd s) p | None => st_cwd s end.

(** A transfer takes the pending listener, whatever becomes of it. *)
Definition with_listener (s : SessionState) (name : string) (k : SessionState -> Listener -> Io Reply) : Io Turn :=
  match st_pending_listener s with
  | None => answer_with s 503 ("Use PASV/EPSV before " +:+ name +:+ ".")
  | Some l => let s' := set_listener None s in r ← k s' l; mret (mkTurn r false false s')
  end.

(** One backend operation with a fixed reply. *)
Definition simple_op (s : SessionState) (name ok_text : string) (op : Client -> Io (Result SftpError ())) : Io Turn :=
  c ← client s;
  r ← op c;
  match r with
  | Ok _ => answer_with s 250 ok_text
  | Err e => answer_with s 550 (name +:+ " failed: " +:+ sftp_error_text e)
  end.

Definition pre_login_ok (v : Verb) : bool :=
  match v with
  | VUser _ | VPass _ | VAcct _ | VQuit | VNoop | VFeat | VOpts _ | VAuth _ | VPbsz _ | VProt _ => true
  | _ => false
  end.

Definition on_pass (cfg : TranslatorConfig) (s : SessionState) (p : string) : Io Turn :=
  if negb (bool_decide (st_login s = AwaitingPass)) then answer_with s 503 "Bad sequence: USER required before PASS."
  else
    let user := default ""%string (st_pending_user s) in
    let out := set_login Anonymous None s in
    if negb (authorise (tc_auth cfg) user p) then answer_with out 530 "Login incorrect."
    else if match tc_tls cfg with Some tls => require_tls tls && negb (bool_decide (st_control s = CEncrypted)) | None => false end
    then answer_with out 530 "AUTH TLS required before login."
    else
      o ← call (COpenFor user);
      match o with
      | Ok sftp => answer_with (set_session user sftp s) 230 ("User " +:+ user +:+ " logged in.")
      | Err e => answer_with out 530 ("SFTP backend unavailable: " +:+ translator_error_text e)
      end.

Definition on_prot (s : SessionState) (level : string) : Io Turn :=
  if (level =? "P")%string then
    if negb (st_pbsz_set s) then answer_with s 503 "PBSZ required before PROT."
    else if negb (bool_decide (st_control s = CEncrypted)) then answer_with s 503 "PROT P requires an encrypted control channel."
    else answer_with (set_protection (st_pbsz_set s) true s) 200 "PROT P accepted."
  else if (level =? "C")%string then answer_with (set_protection (st_pbsz_set s) false s) 200 "PROT C accepted."
  else answer_with s 504 ("PROT " +:+ level +:+ " unsupported.").

Definition on_pasv (cfg : TranslatorConfig) (s : SessionState) (local_ip : IpAddr) : Io Turn :=
  match as_ipv4 (advertise_ip cfg local_ip) with
  | None => answer_with s 502 "PASV requires IPv4; use EPSV."
  | Some v4 =>
      b ← bind_passive cfg (V4 0);
      match b with
      | Ok (l, port) => answer_with (set_listener (Some l) s) 227 (strip_leading_code (format_pasv_reply v4 port))
      | Err e => answer_with s 550 ("PASV: " +:+ translator_error_text e)
      end
  end.

Definition on_epsv (cfg : TranslatorConfig) (s : SessionState) (local_ip : IpAddr) : Io Turn :=
  b ← bind_passive cfg (if is_ipv6 local_ip then V6 0 else V4 0);
  match b with
  | Ok (l, port) => answer_with (set_listener (Some l) s) 229 (strip_leading_code (format_epsv_reply port))
  | Err e => answer_with s 550 ("EPSV: " +:+ translator_error_text e)
  end.

Definition state_has_utf8 (s : SessionState) : bool := true.

Definition on_type (s : SessionState) (t : string) : Io Turn :=
  if one_of_text t ["I"; "L 8"] then answer_with (set_ttype TImage s) 200 "TYPE I."
  else if one_of_text t ["A"; "A N"] then
    if negb (state_has_utf8 s) then answer_with s 504 "TYPE A rejected: client codepage incompatible."
    else answer_with (set_ttype TAscii s) 200 "TYPE A."
  else answer_with s 504 ("TYPE " +:+ t +:+ " unsupported.").

Definition on_auth (cfg : TranslatorConfig) (s : SessionState) (mech : string) : Io Turn :=
  match tc_tls cfg with
  | None => answer_with s 502 "AUTH TLS not configured."
  | Some _ =>
      if bool_decide (st_control s = CEncrypted) then answer_with s 503 "AUTH already negotiated."
      else if negb (one_of_text mech ["TLS"; "TLS-C"; "SSL"]) then answer_with s 504 ("AUTH " +:+ mech +:+ " unsupported.")
      else mret (mkTurn (Reply_new 234 "AUTH TLS OK; ready for handshake.") false true s)
  end.

Definition quoted (s : string) : string := String quote (s +:+ String quote "").

Definition dispatch (cfg : TranslatorConfig) (local_ip control_peer_ip : IpAddr) (tls_acceptor : bool) (v : Verb) (s : SessionState) : Io Turn :=
  let transfer name k := with_listener s name k in
  match v with
  | VPort _ | VEprt _ => answer_with s 502 "active mode disabled by security policy"
  | _ =>
  if negb (is_logged_in s) && negb (pre_login_ok v) then answer_with s 530 "Not logged in."
  else
  match v with
  | VUser u =>
      if (u =? "")%string then answer_with s 501 "USER requires a name."
      else answer_with (set_login AwaitingPass (Some u) s) 331 ("Password required for " +:+ u +:+ ".")
  | VPass p => on_pass cfg s p
  | VAcct _ => answer_with s 200 "ACCT accepted (no-op)."
  | VQuit => mret (mkTurn (Reply_new 221 "Goodbye.") true false s)
  | VRein => answer_with SessionState_new 220 "Service ready for new user."
  | VNoop => answer_with s 200 "NOOP ok."
  | VFeat => answer_with s 211 "ignored (multiline emitted)"
  | VOpts args =>
      if one_of_text (to_ascii_uppercase args) ["UTF8 ON"; "UTF8"] then answer_with s 200 "UTF8 set to on."
      else answer_with s 502 ("OPTS " +:+ args +:+ " unsupported.")
  | VAuth mech => on_auth cfg s mech
  | VPbsz b => answer_with (if (trim b =? "0")%string then set_protection true (st_prot_private s) s else s) 200 "PBSZ=0"
  | VProt level => on_prot s level
  | VType t => on_type s t
  | VMode m => if (m =? "S")%string then answer_with s 200 "MODE S." else answer_with s 504 ("MODE " +:+ m +:+ " unsupported.")
  | VStru t => if (t =? "F")%string then answer_with s 200 "STRU F." else answer_with s 504 ("STRU " +:+ t +:+ " unsupported.")
  | VPwd => answer_with s 257 (quoted (st_cwd s) +:+ " is current directory.")
  | VCwd target =>
      with_path s target
        (let new := join_cwd (st_cwd s) target in
         match st_sftp s with
         | None => answer_with s 530 "Not logged in."
         | Some c =>
             r ← metadata (SftpIo0 := sftp_of c) new;
             match r with
             | Ok _ => answer_with (set_cwd new s) 250 "CWD ok."
             | Err e => answer_with s 550 ("CWD failed: " +:+ sftp_error_text e)
             end
         end)
  | VCdup => if (st_cwd s =? "/")%string then answer_with s 250 "Already at root." else answer_with (set_cwd (cdup (st_cwd s)) s) 250 "CDUP ok."
  | VMkd p =>
      with_path s p
        (let target := join_cwd (st_cwd s) p in
         c ← client s;
         r ← create_dir (SftpIo0 := sftp_of c) target;
         match r with
         | Ok _ => answer_with s 257 (quoted target +:+ " created.")
         | Err e => answer_with s 550 ("MKD failed: " +:+ sftp_error_text e)
         end)
  | VRmd p => with_path s p (simple_op s "RMD" "RMD ok." (fun c => remove_dir (SftpIo0 := sftp_of c) (join_cwd (st_cwd s) p)))
  | VDele p => with_path s p (simple_op s "DELE" "DELE ok." (fun c => remove_file (SftpIo0 := sftp_of c) (join_cwd (st_cwd s) p)))
  | VRnfr p =>
      with_path s p
        (let target := join_cwd (st_cwd s) p in
         c ← client s;
         r ← metadata (SftpIo0 := sftp_of c) target;
         match r with
         | Ok _ => answer_with (set_rnfr (Some target) s) 350 "Ready for RNTO."
         | Err e => answer_with s 550 ("RNFR: " +:+ sftp_error_text e)
         end)
  | VRnto p =>
      with_path s p
        (match st_rnfr s with
         | None => answer_with s 503 "RNFR required before RNTO."
         | Some from => simple_op (set_rnfr None s) "RNTO" "RNTO ok." (fun c => rename (SftpIo0 := sftp_of c) from (join_cwd (st_cwd s) p))
         end)
  | VMdtm p =>
      with_path s p
        (c ← client s;
         r ← metadata (SftpIo0 := sftp_of c) (join_cwd (st_cwd s) p);
         match r with
         | Ok md => answer_with s 213 (format_mdtm (default 0 (md_modified_unix md)))
         | Err e => answer_with s 550 ("MDTM: " +:+ sftp_error_text e)
         end)
  | VSize p =>
      with_path s p
        (c ← client s;
         r ← metadata (SftpIo0 := sftp_of c) (join_cwd (st_cwd s) p);
         match r with
         | Ok md => match md_size md with Some n => answer_with s 213 (pretty n) | None => answer_with s 550 "SIZE: not a regular file" end
         | Err e => answer_with s 550 ("SIZE: " +:+ sftp_error_text e)
         end)
  | VPasv => on_pasv cfg s local_ip
  | VEpsv _ => on_epsv cfg s local_ip
  | VList a => with_opt_path s a (transfer "LIST"%string (fun s' l => run_list_transfer s' l (list_target s a) LmList control_peer_ip tls_acceptor))
  | VNlst a => with_opt_path s a (transfer "NLST"%string (fun s' l => run_list_transfer s' l (list_target s a) LmNlst control_peer_ip tls_acceptor))
  | VMlsd a => with_opt_path s a (transfer "MLSD"%string (fun s' l => run_list_transfer s' l (list_target s a) LmMlsd control_peer_ip tls_acceptor))
  | VMlst a =>
      with_opt_path s a
        (let target := list_target s a in
         c ← client s;
         r ← metadata (SftpIo0 := sftp_of c) target;
         match r with
         | Ok md => answer_with s 250 (mlsx_fact_line target md +:+ " (MLST)")
         | Err e => answer_with s 550 ("MLST: " +:+ sftp_error_text e)
         end)
  | VRetr p => with_path s p (transfer "RETR"%string (fun s' l => run_retr_transfer s' l (join_cwd (st_cwd s) p) control_peer_ip tls_acceptor))
  | VStor p => with_path s p (transfer "STOR"%string (fun s' l => run_stor_transfer s' l (join_cwd (st_cwd s) p) false control_peer_ip tls_acceptor))
  | VAppe p => with_path s p (transfer "APPE"%string (fun s' l => run_stor_transfer s' l (join_cwd (st_cwd s) p) true control_peer_ip tls_acceptor))
  | VStou _ =>
      nanos ← call CNow;
      let target := trim_end_matches "/" (st_cwd s) +:+ "/.stou-" +:+ pretty nanos in
      transfer "STOU"%string (fun s' l => run_stor_transfer s' l target false control_peer_ip tls_acceptor)
  | VPort _ | VEprt _ => panic
  | VUnknown verb => answer_with s 500 ("Unrecognised command: " +:+ verb)
  end
  end.

(** ** The session *)

Definition MAX_CONTROL_LINE : nat := N.to_nat 8192.

Inductive LineOutcome := LoLine (text : string) | LoEof | LoTooLong | LoError (e : string) | LoIdle.

Definition position (b : Z) (l : list Z) : option nat := fst <$> list_find (fun x => x = b) l.

Definition finish_line (raw : list Z) : LineOutcome :=
  match raw with
  | [] => LoEof
  | _ => match text_of raw with Some s => LoLine s | None => LoError "control line was not valid UTF-8" end
  end.

(** [read_capped_line] under the idle timeout: [buf] is what the reader holds,
    [raw] what it has taken.  Each round but the last takes a byte at least. *)
Fixpoint read_capped_line (fuel : nat) (enc : bool) (cap : nat) (raw buf : list Z) : Io (LineOutcome * list Z) :=
  match fuel with
  | O => mret (LoTooLong, buf)
  | S fuel' =>
      available ← (match buf with [] => call (CFill enc) | _ => mret (FillBytes buf) end);
      match available with
      | FillIdle => mret (LoIdle, buf)
      | FillError e => mret (LoError e, buf)
      | FillBytes [] => mret (finish_line raw, [])
      | FillBytes available =>
          match position 10 available with
          | Some pos =>
              if bool_decide (cap < length raw + pos + 1)%nat then mret (LoTooLong, available)
              else mret (finish_line (raw ++ take (S pos) available), drop (S pos) available)
          | None =>
              if bool_decide (cap < length raw + length available)%nat then mret (LoTooLong, available)
              else read_capped_line fuel' enc cap (raw ++ available) []
          end
      end
  end.

Definition advertised_features (cfg : TranslatorConfig) : list string :=
  ["UTF8"; "MLSD"; "MLST type*;size*;modify*;perm*;"; "SIZE"; "MDTM"; "EPSV"; "PASV"; "REST STREAM"]
  ++ match tc_tls cfg with Some _ => ["AUTH TLS"; "PBSZ"; "PROT"] | None => [] end.

(** The control channel ([ControlStream]) with the bytes its reader holds, and
    the state. *)
Record Session := mkSession { se_tls : bool; se_buffer : list Z; se_state : SessionState }.
Abbreviation End := (Result TranslatorError ()).

(** The upgrade after the 234 reply. *)
Definition upgrade (tls_acceptor : bool) (se : Session) : Io (Session + End) :=
  if negb tls_acceptor then mret (inr (Ok ()))
  else match se_buffer se with
       | _ :: _ => mret (inr (Ok ()))
       | [] =>
           if se_tls se then mret (inr (Ok ()))
           else
             h ← call CTls;
             match h with
             | HandshakeOk => mret (inl (mkSession true [] (set_control CEncrypted (se_state se))))
             | HandshakeError e => mret (inr (Err (TTls ("auth tls handshake: " +:+ e))))
             | HandshakeTimeout => mret (inr (Err TIdleTimeout))
             end
       end.

(** One turn of the loop of [run_session]. *)
Definition session_turn (cfg : TranslatorConfig) (local_ip peer : IpAddr) (tls_acceptor : bool) (se : Session) : Io (Session + End) :=
  '(outcome, buf) ← read_capped_line (MAX_CONTROL_LINE + 2) (se_tls se) MAX_CONTROL_LINE [] (se_buffer se);
  match outcome with
  | LoError e => mret (inr (Err (TIo e)))
  | LoIdle => _ ← call (CSend (se_tls se) (wire (Reply_new 421 "Idle timeout, closing control connection."))); mret (inr (Err TIdleTimeout))
  | LoEof => mret (inr (Ok ()))
  | LoTooLong => _ ← call (CSend (se_tls se) (wire (Reply_new 500 "Command line too long; closing control connection."))); mret (inr (Ok ()))
  | LoLine line =>
      let verb := parse_command line in
      _ ← call (CVerb verb);
      t ← dispatch cfg local_ip peer tls_acceptor verb (se_state se);
      let se' := mkSession (se_tls se) buf (tn_state t) in
      let text := match verb with
                  | VFeat => if rp_code (tn_reply t) =? 211 then feat_block (advertised_features cfg) else wire (tn_reply t)
                  | _ => wire (tn_reply t)
                  end in
      w ← call (CSend (se_tls se) text);
      match w with
      | Err e => mret (inr (Err (TIo e)))
      | Ok _ =>
          if tn_quit t then mret (inr (Ok ()))
          else if tn_tls t then upgrade tls_acceptor se'
          else mret (inl se')
      end
  end.

(** The first [n] turns. *)
Fixpoint session_turns (n : nat) (cfg : TranslatorConfig) (local_ip peer : IpAddr) (tls_acceptor : bool) (se : Session) : Io (Session + End) :=
  match n with
  | O => mret (inl se)
  | S k =>
      r ← session_turn cfg local_ip peer tls_acceptor se;
      match r with inl se' => session_turns k cfg local_ip peer tls_acceptor se' | inr e => mret (inr e) end
  end.

Definition run_session (n : nat) (cfg : TranslatorConfig) (local_ip peer : IpAddr) (tls_acceptor : bool) : Io (Session + End) :=
  w ← call (CSend false (wire (Reply_new 220 (tc_welcome_banner cfg))));
  match w with
  | Err e => mret (inr (Err (TIo e)))
  | Ok _ => session_turns n cfg local_ip peer tls_acceptor (mkSession false [] SessionState_new)
  end.

End session.

(** ** Paths stay contained *)

Definition good_seg (g : string) : Prop :=
  g <> ""%string /\ g <> "."%string /\ g <> ".."%string /\ no_char "/" g = true /\ no_char "000" g = true.

(** An absolute path of plain names: no empty, [.] or [..] part, no NUL. *)
Definition safe_path (p : string) : Prop := exists segs, p = ("/" +:+ slashed segs)%string /\ Forall good_seg segs.

Lemma split_by_nonempty p s : split_by p s <> [].
Proof. induction s as [|a s IH]; [done|]. cbn. destruct (split_by p s); [done|]. by destruct (p a). Qed.

(** Splitting at both separators splits the pieces at the second one. *)
Lemma split_by_pieces s : split_by separator s = split_on "/" s ≫= split_on "\".
Proof.
  induction s as [|a s IH]; [done|]. cbn [split_by split_on]. rewrite IH.
  destruct (split_on "/" s) as [|h t] eqn:E; [by destruct (split_on_nonempty "/" s)|]. cbn [mbind list_bind].
  destruct (split_on "\" h) as [|h' t'] eqn:E'; [by destruct (split_on_nonempty "\" h)|]. cbn [app].
  unfold separator. destruct (Ascii.eqb_spec a "/") as [->|Hs]; cbn [orb].
  - cbn [mbind list_bind]. change (split_on "\" "") with [""%string]. by rewrite E'.
  - cbn [mbind list_bind split_on]. rewrite E'. by destruct (Ascii.eqb a "\").
Qed.

Lemma check_segments_ok l : check_segments l = Ok () -> Forall (fun g => g <> ".."%string /\ no_char "000" g = true) l.
Proof.
  induction l as [|g l IH]; cbn; [constructor|]. destruct (String.eqb_spec g "..") as [|Hd]; [done|].
  unfold contains_char. destruct (no_char "000" g) eqn:Hn; cbn; [|done]. intros H. constructor; auto.
Qed.

Lemma no_char_pieces c d s : Ascii.eqb d c = false -> Forall (fun g => no_char c g = true) (split_on d s) -> no_char c s = true.
Proof.
  intros Hcd. induction s as [|a s IH]; [done|]. cbn [split_on no_char].
  destruct (split_on d s) as [|h t] eqn:E; [by destruct (split_on_nonempty d s)|].
  destruct (Ascii.eqb_spec a d) as [->|Had]; intros H.
  - inversion H as [|? ? _ H2]; subst. rewrite Hcd. cbn. by apply IH.
  - inversion H as [|? ? H1 H2]; subst. cbn in H1. apply andb_true_iff in H1 as [Ha Hh]. rewrite Ha. cbn. apply IH. by constructor.
Qed.

Lemma validated_pieces arg :
  validate_path_argument arg = Ok () ->
  Forall (fun g => g <> ".."%string /\ no_char "/" g = true /\ no_char "000" g = true) (split_on "/" arg).
Proof.
  unfold validate_path_argument. rewrite split_by_pieces. intros H%check_segments_ok.
  pose proof (split_on_pieces "/" arg) as Hs. rewrite Forall_forall in H. rewrite Forall_forall in Hs |- *. intros g Hg.
  assert (forall x, x ∈ split_on "\" g -> x <> ".."%string /\ no_char "000" x = true) as Hx.
  { intros x Hx. apply H, list_elem_of_bind. by exists g. }
  split; [|split; [by apply Hs|]].
  - intros ->. apply (Hx ".."%string); [|done]. cbn. set_solver.
  - apply (no_char_pieces "000" "\"); [done|]. apply Forall_forall. intros x Hxin. by apply Hx.
Qed.

Definition plain_piece (g : string) : Prop := g <> ".."%string /\ no_char "/" g = true /\ no_char "000" g = true.

Lemma push_parts_good parts out :
  Forall plain_piece parts -> Forall good_seg out -> Forall good_seg (push_parts parts out).
Proof.
  revert out. induction parts as [|p r IH]; intros out Hp Ho; [done|]. inversion Hp as [|? ? (Hd & Hs & Hz) Hr]; subst. cbn.
  destruct (String.eqb_spec p "") as [|H1]; [by apply IH|]. destruct (String.eqb_spec p ".") as [|H2]; [by apply IH|].
  destruct (String.eqb_spec p ".."); [done|]. cbn. apply IH; [done|]. constructor; [by repeat split|done].
Qed.

Lemma normalise_safe p : Forall plain_piece (split_on "/" p) -> safe_path (normalise p).
Proof. intros H. eexists. split; [reflexivity|]. apply Forall_reverse. by apply push_parts_good. Qed.

Lemma slashed_split segs : Forall good_seg segs -> segs <> [] -> split_on "/" (slashed segs) = segs.
Proof.
  induction segs as [|g segs IH]; intros H Hne; [done|]. inversion H as [|? ? (_ & _ & _ & Hs & _) Hr]; subst.
  destruct segs as [|g' segs]; [by apply split_on_no_char|].
  change (slashed (g :: g' :: segs)) with (g +:+ String "/" (slashed (g' :: segs)))%string.
  rewrite split_on_app by done. f_equal. by apply IH.
Qed.

Lemma good_seg_plain g : good_seg g -> plain_piece g.
Proof. intros (H1 & H2 & H3 & H4 & H5). by repeat split. Qed.

Lemma safe_path_pieces p : safe_path p -> Forall plain_piece (split_on "/" p).
Proof.
  intros (segs & -> & H). change ("/" +:+ slashed segs)%string with (String "/" (slashed segs)).
  destruct segs as [|g segs]; [by repeat constructor|].
  change (String "/" (slashed (g :: segs))) with ("" +:+ String "/" (slashed (g :: segs)))%string.
  rewrite split_on_app by done. constructor; [by repeat split|]. rewrite slashed_split by done.
  eapply Forall_impl; [exact H|]. apply good_seg_plain.
Qed.

Lemma trim_end_rest c s : exists t, s = (trim_end_matches c s +:+ t)%string /\ (t = ""%string \/ exists t', t = String c t').
Proof.
  induction s as [|a s (t & Hs & Ht)]; [exists ""%string; by split; [|left]|]. cbn [trim_end_matches].
  destruct (trim_end_matches c s) as [|b r] eqn:E.
  - rewrite str_nil_app in Hs. subst t. destruct (Ascii.eqb_spec a c) as [->|Ha].
    + exists (String c s). split; [done|]. right. by exists s.
    + exists s. split; [done|]. done.
  - exists t. split; [|done]. rewrite str_cons_app. by rewrite <- Hs.
Qed.

Lemma trim_slash_pieces p : Forall plain_piece (split_on "/" p) -> Forall plain_piece (split_on "/" (trim_end_matches "/" p)).
Proof.
  destruct (trim_end_rest "/" p) as (t & Hp & Ht). revert Hp. generalize (trim_end_matches "/" p). intros q -> H.
  destruct (split_on_join "/" q t) as (init & x & y & rest & Eq & Et & Eqt). rewrite Eqt in H. rewrite Eq.
  assert (y = ""%string) as ->.
  { destruct Ht as [->|[t' ->]]; [by inversion Et|]. change (String "/" t') with ("" +:+ String "/" t')%string in Et.
    rewrite split_on_app in Et by done. by inversion Et. }
  apply Forall_app in H as [Hi Hx]. apply Forall_app. split; [done|]. apply Forall_app in Hx as [Hx _].
  by rewrite str_app_nil in Hx.
Qed.

Lemma join_cwd_safe cwd arg : safe_path cwd -> validate_path_argument arg = Ok () -> safe_path (join_cwd cwd arg).
Proof.
  intros Hc Ha%validated_pieces. unfold join_cwd. destruct (starts_with "/" arg); apply normalise_safe; [done|].
  pose proof (trim_slash_pieces cwd (safe_path_pieces cwd Hc)) as Ht. revert Ht. generalize (trim_end_matches "/" cwd). intros b Hb.
  change ("/" +:+ arg)%string with (String "/" arg).
  destruct (split_on_join "/" b (String "/" arg)) as (init & x & y & rest & Eq & Et & Eqt). rewrite Eqt. rewrite Eq in Hb.
  change (String "/" arg) with ("" +:+ String "/" arg)%string in Et. rewrite split_on_app in Et by done. inversion Et; subst.
  rewrite str_app_nil. apply Forall_app in Hb as [Hi Hx]. apply Forall_app. split; [done|]. by apply Forall_app.
Qed.

Lemma root_safe : safe_path "/".
Proof. by exists []. Qed.

(** The text before the last name. *)
Definition dir_part (segs : list string) : string := match segs with [] => "" | _ => "/" +:+ slashed segs end.

Lemma slashed_snoc l g : ("/" +:+ slashed (l ++ [g]))%string = (dir_part l +:+ String "/" g)%string.
Proof.
  induction l as [|x l IH]; [done|]. destruct l as [|y l].
  - cbn. by rewrite ?str_cons_app, ?str_nil_app.
  - change (slashed ((x :: y :: l) ++ [g])) with (x +:+ ("/" +:+ slashed ((y :: l) ++ [g])))%string. rewrite IH.
    change (dir_part (x :: y :: l)) with ("/" +:+ (x +:+ dir_part (y :: l)))%string. by rewrite !str_app_assoc.
Qed.

Lemma trim_end_keeps_tail c s t : no_char c t = true -> t <> ""%string -> trim_end_matches c (s +:+ t) = (s +:+ t)%string.
Proof.
  intros Hc Ht. induction s as [|a s IH].
  - rewrite str_nil_app. induction t as [|b t IHt]; [done|]. cbn in Hc. apply andb_true_iff in Hc as [Hb%negb_true_iff Hr]. cbn.
    destruct t as [|b' t]; [by rewrite Hb|]. by rewrite IHt.
  - rewrite str_cons_app. cbn [trim_end_matches]. rewrite IH. destruct s; [|done]. rewrite str_nil_app. by destruct t.
Qed.

Lemma trim_safe segs : Forall good_seg segs -> trim_end_matches "/" ("/" +:+ slashed segs) = dir_part segs.
Proof.
  intros H. destruct segs as [|g l _] using rev_ind; [done|]. apply Forall_app in H as [_ H]. inversion H as [|? ? (Hne & _ & _ & Hs & _) _]; subst.
  assert (dir_part (l ++ [g]) = "/" +:+ slashed (l ++ [g]))%string as -> by (by destruct l).
  rewrite slashed_snoc. change (String "/" g) with (String "/" "" +:+ g)%string. rewrite <- str_app_assoc. by apply trim_end_keeps_tail.
Qed.

Lemma cdup_safe cwd : safe_path cwd -> safe_path (cdup cwd).
Proof.
  intros (segs & -> & H). unfold cdup. rewrite trim_safe by done.
  destruct segs as [|g l _] using rev_ind; [by exists []|]. apply Forall_app in H as [Hl H]. inversion H as [|? ? (Hne & _ & _ & Hs & _) _]; subst.
  assert (dir_part (l ++ [g]) = "/" +:+ slashed (l ++ [g]))%string as -> by (by destruct l).
  rewrite slashed_snoc, rsplit_once_app by done. destruct l as [|x l]; [apply root_safe|]. cbn [dir_part].
  change (("/" +:+ slashed (x :: l) =? "")%string) with false. by exists (x :: l).
Qed.

Lemma stou_safe cwd (n : Z) : safe_path cwd -> safe_path (trim_end_matches "/" cwd +:+ "/.stou-" +:+ pretty n).
Proof.
  intros (segs & -> & H). rewrite trim_safe by done.
  change ("/.stou-" +:+ pretty n)%string with (String "/" (".stou-" +:+ pretty n)). rewrite <- slashed_snoc.
  exists (segs ++ [(".stou-" +:+ pretty n)%string]). split; [done|]. apply Forall_app. split; [done|]. constructor; [|done].
  repeat split; try done; rewrite no_char_app; cbn; by apply pretty_z_no_char.
Qed.
