(* ===== verification/FtpSession.v ===== *)
(** * Sessions of the FTP translator

    What a session of [Ftp] may do, for every behaviour of the client, the
    network and the backend: a small logic of computations that record their
    calls, the invariant of the session, and the theorems about all its
    calls. *)

From S2P Require Import Prelude Bytes Text Endpoint Ip Sftp Calendar Ftp.

(** ** What a session may call

    [ext P tr tr']: the trace grew, each new call satisfying [P] after the
    calls before it.  [runs F P m Q]: from a trace with [F], [m] does not panic,
    makes only calls with [P], and ends with [Q]. *)

Definition ext (P : list Call -> Call -> Prop) (tr tr' : list Call) : Prop :=
  exists l, tr' = tr ++ l /\ forall l1 c l2, l = l1 ++ c :: l2 -> P (tr ++ l1) c.

Definition stable (F : list Call -> Prop) : Prop := forall tr l, F tr -> F (tr ++ l).

Definition runs {A} (F : list Call -> Prop) (P : list Call -> Call -> Prop) (m : Io A) (Q : A -> list Call -> Prop) : Prop :=
  forall tr, F tr -> match m tr with (Return a, tr') => ext P tr tr' /\ Q a tr' | (Panic, _) => False end.

Definition runs_timed {A} (F : list Call -> Prop) (P : list Call -> Call -> Prop) (m : Timed A) : Prop :=
  forall tr, F tr -> match m tr with (Return _, tr') => ext P tr tr' | (Panic, _) => False end.

Lemma ext_refl P tr : ext P tr tr.
Proof. exists []. split; [by rewrite app_nil_r|]. intros l1 c l2 H. by destruct l1. Qed.

Lemma ext_trans P t1 t2 t3 : ext P t1 t2 -> ext P t2 t3 -> ext P t1 t3.
Proof.
  intros (l & -> & H1) (l' & -> & H2). exists (l ++ l'). split; [by rewrite app_assoc|]. intros a c b E.
  apply app_eq_app in E as (k & [[-> E]|[-> E]]).
  - destruct k as [|c' k].
    + cbn in E. specialize (H2 [] c b (eq_sym E)). rewrite !app_nil_r in H2. done.
    + cbn in E. injection E as <- ->. by apply (H1 a c k).
  - rewrite app_assoc. by apply (H2 k c b).
Qed.

Lemma ext_one (P : list Call -> Call -> Prop) tr c : P tr c -> ext P tr (tr ++ [c]).
Proof.
  intros H. exists [c]. split; [done|]. intros l1 c' l2 E. destruct l1 as [|x l1]; [|by destruct l1].
  injection E as <- <-. by rewrite app_nil_r.
Qed.

Lemma ext_prefix P tr tr' : ext P tr tr' -> exists l, tr' = tr ++ l.
Proof. intros (l & -> & _). by exists l. Qed.

Lemma ext_weaken (P P' : list Call -> Call -> Prop) tr tr' : (forall t c, P t c -> P' t c) -> ext P tr tr' -> ext P' tr tr'.
Proof. intros Hp (l & -> & H). exists l. split; [done|]. intros. eapply Hp, H; eauto. Qed.

Section rules.
Context {O : Outside} (F : list Call -> Prop) (P : list Call -> Call -> Prop).

Lemma runs_ret {A} (a : A) (Q : A -> list Call -> Prop) : (forall tr, F tr -> Q a tr) -> runs F P (mret a) Q.
Proof. intros H tr Hf. split; [apply ext_refl|auto]. Qed.

Lemma runs_bind {A B} (m : Io A) (k : A -> Io B) Q :
  stable F -> runs F P m (fun _ _ => True) -> (forall a, runs F P (k a) Q) -> runs F P (m ≫= k) Q.
Proof.
  intros Hs Hm Hk tr Hf. unfold mbind, Io_bind. specialize (Hm tr Hf). destruct (m tr) as [[a|] tr1]; [|done].
  destruct Hm as [He _]. destruct (ext_prefix _ _ _ He) as [l ->]. specialize (Hk a (tr ++ l) (Hs _ _ Hf)).
  destruct (k a (tr ++ l)) as [[b|] tr2]; [|done]. destruct Hk as [He' HQ]. split; [by eapply ext_trans|done].
Qed.

Lemma runs_call c : (forall tr, F tr -> P tr c) -> runs F P (call c) (fun _ _ => True).
Proof. intros H tr Hf. split; [by apply ext_one, H|done]. Qed.

(** A call whose answer matters for what follows. *)
Definition answered (c : Call) (a : Resp c) (tr : list Call) : Prop :=
  F tr /\ exists tr1 tr2, tr = tr1 ++ c :: tr2 /\ F tr1 /\ reply_to c tr1 = a.

Lemma answered_stable c a : stable F -> stable (answered c a).
Proof.
  intros Hs tr l [Hf (t1 & t2 & -> & H1 & Ha)]. split; [by apply Hs|]. exists t1, (t2 ++ l). by rewrite <- app_assoc.
Qed.

Lemma runs_call_bind {B} c (k : Resp c -> Io B) Q :
  stable F -> (forall tr, F tr -> P tr c) -> (forall a, runs (answered c a) P (k a) Q) -> runs F P (call c ≫= k) Q.
Proof.
  intros Hs Hc Hk tr Hf. unfold mbind, Io_bind, call. specialize (Hk (reply_to c tr) (tr ++ [c])).
  assert (answered c (reply_to c tr) (tr ++ [c])) as Ha by (split; [by apply Hs|by exists tr, []]). specialize (Hk Ha).
  destruct (k (reply_to c tr) (tr ++ [c])) as [[b|] tr2]; [|done]. destruct Hk as [He HQ]. split; [|done].
  eapply ext_trans; [by apply ext_one, Hc|done].
Qed.

Lemma timed_ret {A} (a : A) : runs_timed F P (mret a).
Proof. intros tr Hf. apply ext_refl. Qed.

Lemma timed_elapsed {A} : runs_timed F P (elapsed : Timed A).
Proof. intros tr Hf. apply ext_refl. Qed.

Lemma timed_bind {A B} (m : Timed A) (k : A -> Timed B) :
  stable F -> runs_timed F P m -> (forall a, runs_timed F P (k a)) -> runs_timed F P (m ≫= k).
Proof.
  intros Hs Hm Hk tr Hf. unfold mbind, Timed_bind. specialize (Hm tr Hf). destruct (m tr) as [[[a|]|] tr1]; [|done|done].
  destruct (ext_prefix _ _ _ Hm) as [l ->]. specialize (Hk a (tr ++ l) (Hs _ _ Hf)).
  destruct (k a (tr ++ l)) as [[b|] tr2]; [|done]. by eapply ext_trans.
Qed.

Lemma timed_call c {A} (f : Resp c -> option A) : (forall tr, F tr -> P tr c) -> runs_timed F P (late_call c f).
Proof. intros H tr Hf. by apply ext_one, H. Qed.

Lemma runs_within m late : runs_timed F P m -> runs F P (within m late) (fun _ _ => True).
Proof. intros Hm tr Hf. unfold within. specialize (Hm tr Hf). destruct (m tr) as [[[a|]|] tr1]; by try split. Qed.

Lemma runs_weaken {A} (m : Io A) (Q Q' : A -> list Call -> Prop) : (forall a tr, Q a tr -> Q' a tr) -> runs F P m Q -> runs F P m Q'.
Proof. intros HQ Hm tr Hf. specialize (Hm tr Hf). destruct (m tr) as [[a|] tr1]; [|done]. destruct Hm. split; auto. Qed.
End rules.

(** Take a computation apart along its binds and branches; the calls remain. *)
Ltac runs_step :=
  match goal with
  | |- forall _, _ => intro
  | |- runs _ _ (mret _) _ => apply runs_ret
  | |- runs _ _ (within _ _) _ => apply runs_within
  | |- runs ?F ?P (call ?c) _ => refine (runs_call F P c _)
  | |- runs _ _ (mbind _ _) _ => apply runs_bind
  | |- runs _ _ (match _ with _ => _ end) _ => case_match
  | |- runs_timed _ _ (mret _) => apply timed_ret
  | |- runs_timed _ _ elapsed => apply timed_elapsed
  | |- runs_timed ?F ?P (late_call ?c ?f) => refine (timed_call F P c f _)
  | |- runs_timed _ _ (mbind _ _) => apply timed_bind
  | |- runs_timed _ _ (match _ with _ => _ end) => case_match
  end.

(** ** Sessions are guarded *)

Definition raw_paths (r : Raw) : list string :=
  match r with
  | RawCanonicalize p | RawReadDir p | RawReadWhole p | RawOpen p | RawOpenWrite p _ | RawMetadata p | RawSymlinkMetadata p
  | RawSetMode p _ | RawReadLink p | RawCreateDir p | RawRemoveFile p | RawRemoveDir p | RawTryExists p => [p]
  | RawSymlink a b | RawRename a b => [a; b]
  | RawSeek _ _ | RawReads _ | RawWrite _ _ | RawShutdown _ | RawClose => []
  end.

Definition sock_of (d : DataStream) : Sock := match d with DPlain k | DTls k => k end.

Section guarded.
Context {O : Outside} (cfg : TranslatorConfig) (local_ip peer : IpAddr) (acc : bool).

(** The control channel was upgraded. *)
Definition tls_done (tr : list Call) : Prop := exists t1 t2, tr = t1 ++ CTls :: t2 /\ reply_to CTls t1 = HandshakeOk.

(** The client [cl] was opened for a user who was named by [USER] and whose
    [PASS] the policy accepted, over TLS where the configuration requires
    it. *)
Definition granted (cl : Client) (tr : list Call) : Prop :=
  exists u p t1 t2,
    tr = t1 ++ CVerb (VPass p) :: COpenFor u :: t2
    /\ CVerb (VUser u) ∈ t1
    /\ authorise (tc_auth cfg) u p = true
    /\ reply_to (COpenFor u) (t1 ++ [CVerb (VPass p)]) = Ok cl
    /\ (forall tls, tc_tls cfg = Some tls -> require_tls tls = true -> tls_done t1).

(** The listener was bound by this session, in the configured range. *)
Definition bound (l : Listener) (tr : list Call) : Prop :=
  exists t1 t2 ip port rep,
    tr = t1 ++ CBind ip port :: t2 /\ reply_to (CBind ip port) t1 = Some (l, rep)
    /\ (tc_passive_port_range cfg).1 <= port <= (tc_passive_port_range cfg).2.

(** The socket was accepted on such a listener from the address of the control
    connection. *)
Definition accepted (k : Sock) (tr : list Call) : Prop :=
  exists l ip t1 t2,
    tr = t1 ++ CAccept l :: t2 /\ bound l t1 /\ reply_to (CAccept l) t1 = AcceptOk k ip
    /\ data_peer_matches_control peer ip = true.

(** What a turn from state [s] may call. *)
Definition allowed (s : SessionState) (tr : list Call) (c : Call) : Prop :=
  match c with
  | CFill _ | CSend _ _ | CVerb _ | CTls => False
  | CNow => True
  | COpenFor u => exists p t1, tr = t1 ++ [CVerb (VPass p)] /\ authorise (tc_auth cfg) u p = true
  | CSftp cl r | CSftpTimed cl r => st_sftp s = Some cl /\ granted cl tr /\ Forall safe_path (raw_paths r)
  | CBind _ port => (tc_passive_port_range cfg).1 <= port <= (tc_passive_port_range cfg).2
  | CAccept l => bound l tr
  | CDataTls k => accepted k tr
  | CDataSend d _ | CDataReads d | CDataShutdown d =>
      accepted (sock_of d) tr /\ (st_prot_private s = true -> exists k, d = DTls k)
  end.

Record Inv (tr : list Call) (s : SessionState) : Prop := mkInv {
  inv_pending : st_login s = AwaitingPass -> exists u, st_pending_user s = Some u /\ CVerb (VUser u) ∈ tr;
  inv_login : st_login s = LoggedIn -> exists cl, st_sftp s = Some cl /\ granted cl tr;
  inv_control : st_control s = CEncrypted -> tls_done tr /\ acc = true;
  inv_prot : st_prot_private s = true -> st_control s = CEncrypted;
  inv_cwd : safe_path (st_cwd s);
  inv_rnfr : forall p, st_rnfr s = Some p -> safe_path p;
  inv_listener : forall l, st_pending_listener s = Some l -> bound l tr
}.

Lemma tls_done_stable : stable tls_done.
Proof. intros tr l (t1 & t2 & -> & H). exists t1, (t2 ++ l). by rewrite <- app_assoc. Qed.
Lemma granted_stable cl : stable (granted cl).
Proof. intros tr l (u & p & t1 & t2 & -> & H). exists u, p, t1, (t2 ++ l). by rewrite <- app_assoc. Qed.
Lemma bound_stable k : stable (bound k).
Proof. intros tr l (t1 & t2 & ip & port & rep & -> & H). exists t1, (t2 ++ l), ip, port, rep. by rewrite <- app_assoc. Qed.
Lemma accepted_stable k : stable (accepted k).
Proof. intros tr l (ls & ip & t1 & t2 & -> & H). exists ls, ip, t1, (t2 ++ l). by rewrite <- app_assoc. Qed.

Lemma Inv_stable s : stable (fun tr => Inv tr s).
Proof.
  intros tr l [H1 H2 H3 H4 H5 H6 H7]. constructor; auto.
  - intros H. destruct (H1 H) as (u & Hu & Hin). exists u. split; [done|]. set_solver.
  - intros H. destruct (H2 H) as (cl & Hc & Hg). exists cl. split; [done|by apply granted_stable].
  - intros H. destruct (H3 H) as [Ht Ha]. split; [by apply tls_done_stable|done].
  - intros k H. by apply bound_stable, H7.
Qed.

Lemma Inv_new tr : Inv tr SessionState_new.
Proof. constructor; try done. apply root_safe. Qed.

(** The state of the session while a command [v] runs. *)
Definition During (v : Verb) (s : SessionState) (tr : list Call) : Prop := Inv tr s /\ CVerb v ∈ tr.
Lemma During_stable v s : stable (During v s).
Proof. intros tr l [H1 H2]. split; [by apply Inv_stable|set_solver]. Qed.

Definition Post (t : Turn) (tr : list Call) : Prop := Inv tr (tn_state t).

Lemma logged_in_granted v s tr : is_logged_in s = true -> During v s tr -> exists cl, st_sftp s = Some cl /\ granted cl tr.
Proof. unfold is_logged_in. intros [Hl _]%andb_true_iff [Hi _]. apply bool_decide_eq_true_1 in Hl. by apply (inv_login _ _ Hi). Qed.

Lemma Inv_setters tr s :
  Inv tr s ->
  Inv tr (set_listener None s) /\ Inv tr (set_rnfr None s) /\ (forall ty, Inv tr (set_ttype ty s)) /\ Inv tr (set_login Anonymous None s)
  /\ (forall d, safe_path d -> Inv tr (set_cwd d s)) /\ (forall d, safe_path d -> Inv tr (set_rnfr (Some d) s))
  /\ (forall l, bound l tr -> Inv tr (set_listener (Some l) s))
  /\ (forall b, Inv tr (set_protection b (st_prot_private s) s)) /\ (forall b, Inv tr (set_protection b false s))
  /\ (forall b, st_control s = CEncrypted -> Inv tr (set_protection b true s))
  /\ (forall u, CVerb (VUser u) ∈ tr -> Inv tr (set_login AwaitingPass (Some u) s)).
Proof.
  intros [H1 H2 H3 H4 H5 H6 H7].
  repeat split; cbn; intros; simplify_eq; auto; try discriminate; eauto; by apply H3.
Qed.

Section backend.
Context (v : Verb) (s : SessionState) (cl : Client) (Hlog : is_logged_in s = true) (Hcl : st_sftp s = Some cl).

Lemma sftp_granted tr : During v s tr -> granted cl tr.
Proof. intros H. destruct (logged_in_granted v s tr Hlog H) as (cl' & Hc & Hg). by simplify_eq. Qed.

Lemma sftp_allowed tr r : During v s tr -> Forall safe_path (raw_paths r) -> allowed s tr (CSftp cl r).
Proof. intros H Hp. repeat split; [done|by apply sftp_granted|done]. Qed.

Lemma timed_allowed tr r : During v s tr -> Forall safe_path (raw_paths r) -> allowed s tr (CSftpTimed cl r).
Proof. intros H Hp. repeat split; [done|by apply sftp_granted|done]. Qed.

Context (d : DataStream) (Hpriv : st_prot_private s = true -> exists k, d = DTls k).
Abbreviation F := (fun tr => During v s tr /\ accepted (sock_of d) tr).

Lemma F_stable : stable F.
Proof. intros tr l [H1 H2]. split; [by apply During_stable|by apply accepted_stable]. Qed.

(** The calls that remain: at the backend under safe paths, on the data
    connection. *)
Ltac calls :=
  repeat first [assumption | exact I | match goal with H : context [runs_timed] |- runs_timed _ _ _ => apply H end | runs_step | apply F_stable];
  try match goal with
  | Hf : During _ _ _ /\ accepted _ _ |- allowed _ _ (CSftpTimed _ _) => apply timed_allowed; [exact (proj1 Hf)|by repeat constructor]
  | Hf : During _ _ _ /\ accepted _ _ |- allowed _ _ _ => split; [exact (proj2 Hf)|exact Hpriv]
  end.

Lemma list_allowed target mode late : safe_path target ->
  runs F (allowed s)
    (within
      (r ← read_dir (SftpIo0 := sftp_timed cl) target;
       match r with
       | Err e => mret (Reply_new 550 ("LIST: " +:+ sftp_error_text e))
       | Ok entries =>
           w ← late_call (CDataSend d (bytes_of (list_body mode entries))) (fun a => a);
           match w with
           | Err e => mret (Reply_new 426 ("LIST aborted: " +:+ e))
           | Ok _ => _ ← late_call (CDataShutdown d) (fun a => a); mret (Reply_new 226 "Listing complete.")
           end
       end) late) (fun _ _ => True).
Proof. intros Ht. unfold read_dir, tagged, raw, sftp_timed. calls. Qed.

Lemma send_allowed chunks fin : runs_timed F (allowed s) fin -> runs_timed F (allowed s) (send_chunks d chunks fin).
Proof. intros Hf. induction chunks as [|c r IH]; [done|]. cbn [send_chunks]. calls. Qed.

Lemma upload_allowed f path chunks total fin :
  (forall n, runs_timed F (allowed s) (fin n)) ->
  runs_timed F (allowed s) (upload_chunks (SftpIo0 := sftp_timed cl) f path chunks total fin).
Proof.
  intros Hf. revert total. induction chunks as [|c r IH]; intros total; [apply Hf|]. cbn [upload_chunks]. unfold on_file, raw, sftp_timed in *. calls.
Qed.

Lemma stream_allowed f path source :
  runs_timed F (allowed s) (stream_upload (SftpIo0 := sftp_timed cl) elapsed f path source).
Proof. unfold stream_upload. apply upload_allowed. unfold on_file, raw, sftp_timed. calls. Qed.

Lemma resume_allowed path start :
  safe_path path -> runs_timed F (allowed s) (open_for_resume_write (SftpIo0 := sftp_timed cl) path start).
Proof. intros Hp. unfold open_for_resume_write, try_bind, tagged, on_file, raw, sftp_timed. calls. Qed.

Lemma write_allowed path : safe_path path ->
  runs_timed F (allowed s) (write_file_from (SftpIo0 := sftp_timed cl) elapsed path (late_call (CDataReads d) Some)).
Proof.
  intros Hp. unfold write_file_from, remote_half, try_bind. pose proof (resume_allowed path 0 Hp). pose proof (stream_allowed).
  calls.
Qed.

Lemma append_allowed path : safe_path path ->
  runs_timed F (allowed s) (append_file_from (SftpIo0 := sftp_timed cl) elapsed path (late_call (CDataReads d) Some)).
Proof.
  intros Hp. unfold append_file_from, metadata, remote_half, try_bind, tagged. pose proof (fun n => resume_allowed path n Hp). pose proof (stream_allowed).
  unfold raw, sftp_timed in *. calls.
Qed.
End backend.

Lemma runs_mret_bind {A B} F P (a : A) (k : A -> Io B) Q : runs F P (k a) Q -> runs F P (mret a ≫= k) Q.
Proof. intros H tr Hf. by apply H. Qed.

Lemma runs_bind_assoc {A B C} F P (m : Io A) (k : A -> Io B) (h : B -> Io C) Q :
  runs F P (m ≫= (fun a => k a ≫= h)) Q -> runs F P ((m ≫= k) ≫= h) Q.
Proof. intros H tr Hf. specialize (H tr Hf). unfold mbind, Io_bind in *. by destruct (m tr) as [[a|] tr1]. Qed.

Lemma runs_pre {A} (F F' : list Call -> Prop) P (m : Io A) Q : (forall tr, F' tr -> F tr) -> runs F P m Q -> runs F' P m Q.
Proof. intros Hf Hm tr H. by apply Hm, Hf. Qed.

(** A transfer: the data connection comes from the control peer and is private
    when it must be. *)
Lemma runs_with_data v s l transfer :
  is_logged_in s = true ->
  (forall cl d, st_sftp s = Some cl -> (st_prot_private s = true -> exists k, d = DTls k) ->
     runs (fun tr => During v s tr /\ accepted (sock_of d) tr) (allowed s) (transfer cl d) (fun _ _ => True)) ->
  runs (fun tr => During v s tr /\ bound l tr) (allowed s) (with_data (set_listener None s) l peer acc transfer) (fun _ _ => True).
Proof.
  intros Hlog Ht. unfold with_data, client. cbn [st_sftp set_listener].
  destruct (st_sftp s) as [cl|] eqn:Hcl; [|by unfold is_logged_in in Hlog; rewrite Hcl, andb_false_r in Hlog].
  assert (stable (fun tr => During v s tr /\ bound l tr)) as Hst.
  { intros tr k [H1 H2]. split; [by apply During_stable|by apply bound_stable]. }
  apply runs_mret_bind. unfold accept_data_connection. apply runs_bind_assoc.
  refine (runs_call_bind _ _ (CAccept l) _ _ Hst _ _); [by intros tr [_ H]|]. intros a. apply runs_mret_bind.
  destruct a as [sock ip|e|]; [|by apply runs_ret|by apply runs_ret].
  destruct (data_peer_matches_control peer ip) eqn:Hip; [|by apply runs_ret].
  apply (runs_pre (fun tr => During v s tr /\ accepted sock tr)).
  { intros tr [[Hd Hb] (t1 & t2 & -> & [Hd1 Hb1] & Ha)]. split; [done|]. by exists l, ip, t1, t2. }
  assert (stable (fun tr => During v s tr /\ accepted sock tr)) as Hst'.
  { intros tr k [H1 H2]. split; [by apply During_stable|by apply accepted_stable]. }
  unfold wrap_data. cbn [st_prot_private st_control set_listener].
  destruct (st_prot_private s && bool_decide (st_control s = CEncrypted) && acc) eqn:Hp.
  - apply runs_bind_assoc. apply runs_bind; [done| |].
    + refine (runs_call _ _ (CDataTls sock) _). by intros tr [_ H].
    + intros h. apply runs_mret_bind. destruct h; [|by apply runs_ret|by apply runs_ret]. apply (Ht cl (DTls sock)); [done|]. intros _. by exists sock.
  - apply runs_mret_bind. intros tr [Hd Ha]. apply (Ht cl (DPlain sock)); [done| |done].
    intros Hpp. exfalso. destruct Hd as [Hi _]. pose proof (inv_prot _ _ Hi Hpp) as Hc. destruct (inv_control _ _ Hi Hc) as [_ Hacc].
    rewrite Hpp, Hc, Hacc in Hp. by rewrite bool_decide_eq_true_2 in Hp.
Qed.

Lemma runs_with_listener v s name (k : SessionState -> Listener -> Io Reply) :
  (forall l, runs (fun tr => During v s tr /\ bound l tr) (allowed s) (k (set_listener None s) l) (fun _ _ => True)) ->
  runs (During v s) (allowed s) (with_listener s name k) Post.
Proof.
  intros Hk. unfold with_listener, answer_with. destruct (st_pending_listener s) as [l|] eqn:Hl.
  - apply (runs_pre (fun tr => During v s tr /\ bound l tr)); [intros tr H; split; [done|by apply (inv_listener _ _ (proj1 H))]|].
    apply runs_bind; [|by apply Hk|].
    + intros tr m [H1 H2]. split; [by apply During_stable|by apply bound_stable].
    + intros r. apply runs_ret. intros tr [[Hi _] _]. unfold Post. cbn [tn_state]. by apply Inv_setters.
  - apply runs_ret. by intros tr [Hi _].
Qed.

Lemma runs_with_path v s arg k :
  (validate_path_argument arg = Ok () -> runs (During v s) (allowed s) k Post) -> runs (During v s) (allowed s) (with_path s arg k) Post.
Proof.
  intros H. unfold with_path. destruct (validate_path_argument arg) as [[]|r]; [by apply H|]. apply runs_ret. by intros tr [Hi _].
Qed.

Definition valid_opt (a : option string) : Prop := match a with Some p => validate_path_argument p = Ok () | None => True end.

Lemma runs_with_opt_path v s a k :
  (valid_opt a -> runs (During v s) (allowed s) k Post) -> runs (During v s) (allowed s) (with_opt_path s a k) Post.
Proof. destruct a; intros H; [by apply runs_with_path|by apply H]. Qed.

Lemma list_target_safe s a : safe_path (st_cwd s) -> valid_opt a -> safe_path (list_target s a).
Proof. intros Hc Hv. destruct a as [p|]; cbn; [|done]. destruct (p =? "")%string; [done|by apply join_cwd_safe]. Qed.

(** The precondition gives a safe working directory, whatever the trace. *)
Lemma runs_cwd {A} v s (m : Io A) P Q : (safe_path (st_cwd s) -> runs (During v s) P m Q) -> runs (During v s) P m Q.
Proof. intros H tr Hd. apply H; [|done]. apply (inv_cwd _ _ (proj1 Hd)). Qed.

Lemma runs_inv {A} v s (m : Io A) P Q : (forall tr, Inv tr s -> runs (During v s) P m Q) -> runs (During v s) P m Q.
Proof. intros H tr Hd. by apply (H tr); [apply Hd|]. Qed.

(** Passive listeners are bound in the range. *)
Lemma runs_ports {A} v s ip ports (k : option (Listener * Z) -> Io A) Q :
  Forall (fun port => (tc_passive_port_range cfg).1 <= port <= (tc_passive_port_range cfg).2) ports ->
  (forall l port, runs (fun tr => During v s tr /\ bound l tr) (allowed s) (k (Some (l, port))) Q) ->
  runs (During v s) (allowed s) (k None) Q ->
  runs (During v s) (allowed s) (bind_ports ip ports ≫= k) Q.
Proof.
  intros Hp Hs Hn. induction Hp as [|port ports Hport Hp IH]; [by apply runs_mret_bind|]. cbn [bind_ports]. apply runs_bind_assoc.
  refine (runs_call_bind _ _ (CBind ip port) _ _ (During_stable v s) _ _); [by intros tr _|]. intros [[l rep]|].
  - apply runs_mret_bind. eapply runs_pre; [|apply Hs]. intros tr [Hd (t1 & t2 & -> & _ & Ha)]. split; [done|]. by exists t1, t2, ip, port, rep.
  - eapply runs_pre; [|apply IH]. by intros tr [Hd _].
Qed.

Lemma runs_passive v s ip k :
  (forall l port, runs (fun tr => During v s tr /\ bound l tr) (allowed s) (k (Ok (l, port))) Post) ->
  (forall e, runs (During v s) (allowed s) (k (Err e)) Post) ->
  runs (During v s) (allowed s) (bind_passive cfg ip ≫= k) Post.
Proof.
  intros Hok Herr. unfold bind_passive. destruct (tc_passive_port_range cfg) as [lo hi] eqn:Hr. apply runs_bind_assoc. apply runs_ports.
  - rewrite Hr. apply Forall_fmap, Forall_forall. intros i Hi. unfold zrange in Hi. apply list_elem_of_fmap in Hi as (n & -> & Hn). apply elem_of_seq in Hn. cbn. lia.
  - intros l port. by apply runs_mret_bind.
  - apply runs_mret_bind. apply Herr.
Qed.

Lemma runs_pass s p : runs (fun tr => exists t0, tr = t0 ++ [CVerb (VPass p)] /\ Inv t0 s) (allowed s) (on_pass cfg s p) Post.
Proof.
  assert (forall tr t0, tr = t0 ++ [CVerb (VPass p)] /\ Inv t0 s -> Inv tr s) as Hinv by (intros tr t0 [-> Hi]; by apply Inv_stable).
  unfold on_pass, answer_with. destruct (bool_decide (st_login s = AwaitingPass)) eqn:Hw; cbn [negb];
    [apply bool_decide_eq_true_1 in Hw|apply runs_ret; intros tr [t0 H]; by eapply Hinv].
  destruct (authorise _ _ _) eqn:Hau; cbn [negb]; [|apply runs_ret; intros tr [t0 H]; unfold Post; cbn [tn_state]; by eapply Inv_setters, Hinv].
  destruct (match tc_tls cfg with Some tls => _ | None => _ end) eqn:Htls; [apply runs_ret; intros tr [t0 H]; unfold Post; cbn [tn_state]; by eapply Inv_setters, Hinv|].
  intros tr (t0 & -> & Hi). destruct (inv_pending _ _ Hi Hw) as (u & Hu & Hin). rewrite Hu in *. change (default ""%string (Some u)) with u in *.
  assert (forall tls, tc_tls cfg = Some tls -> require_tls tls = true -> tls_done t0) as Hreq.
  { intros tls Ht Hr. rewrite Ht, Hr in Htls. cbn in Htls. apply negb_false_iff, bool_decide_eq_true_1 in Htls. by apply (inv_control _ _ Hi). }
  unfold mbind, Io_bind, call.
  assert (ext (allowed s) (t0 ++ [CVerb (VPass p)]) ((t0 ++ [CVerb (VPass p)]) ++ [COpenFor u])) as He by (apply ext_one; by exists p, t0).
  remember (reply_to (COpenFor u) (t0 ++ [CVerb (VPass p)])) as a eqn:Hr. unfold Resp in a. symmetry in Hr. destruct a as [cl|e]; cbn; (split; [exact He|]).
  - unfold Post; cbn [tn_state]. pose proof (Inv_stable s t0 ([CVerb (VPass p)] ++ [COpenFor u]) Hi) as Hi'. rewrite app_assoc in Hi'.
    destruct Hi' as [H1 H2 H3 H4 H5 H6 H7]. constructor; cbn; try done. intros _. exists cl. split; [done|].
    exists u, p, t0, []. split; [by rewrite <- app_assoc|]. done.
  - unfold Post; cbn [tn_state]. apply Inv_setters. rewrite <- app_assoc. by apply Inv_stable.
Qed.

(** The three transfers. *)
Section transfers.
Context (v : Verb) (s : SessionState) (l : Listener) (target : string) (Hlog : is_logged_in s = true) (Ht : safe_path target).
Abbreviation T := (fun tr => During v s tr /\ bound l tr).

Lemma runs_list mode : runs T (allowed s) (run_list_transfer (set_listener None s) l target mode peer acc) (fun _ _ => True).
Proof. apply runs_with_data; [done|]. intros cl d Hcl Hp. by eapply list_allowed. Qed.

Lemma runs_retr : runs T (allowed s) (run_retr_transfer (set_listener None s) l target peer acc) (fun _ _ => True).
Proof.
  apply runs_with_data; [done|]. intros cl d Hcl Hp. pose proof (send_allowed v s d Hp) as Hsend.
  assert (stable (fun tr => During v s tr /\ accepted (sock_of d) tr)) as Hst by apply F_stable.
  unfold open_for_read, tagged, raw, sftp_timed.
  repeat first [exact I | assumption | apply Hsend | runs_step];
    match goal with Hf : During _ _ _ /\ _ |- _ => destruct Hf as [Hd Ha] end;
    first [eapply timed_allowed; [eassumption|eassumption|eassumption|by repeat constructor] | by split].
Qed.

Lemma runs_stor append : runs T (allowed s) (run_stor_transfer (set_listener None s) l target append peer acc) (fun _ _ => True).
Proof.
  apply runs_with_data; [done|]. intros cl d Hcl Hp.
  assert (stable (fun tr => During v s tr /\ accepted (sock_of d) tr)) as Hst by apply F_stable.
  pose proof (write_allowed v s cl Hlog Hcl d Hp target Ht) as Hw. pose proof (append_allowed v s cl Hlog Hcl d Hp target Ht) as Ha. cbv beta zeta.
  repeat first [exact I | assumption | runs_step];
    match goal with Hf : During _ _ _ /\ _ |- _ => destruct Hf as [Hd Hk] end; by split.
Qed.
End transfers.

(** A reply that leaves a state the invariant allows. *)
Ltac replies :=
  unfold answer_with; apply runs_ret;
  let tr := fresh "tr" in let Hi := fresh "Hi" in let Hv := fresh "Hv" in
  intros tr [Hi Hv]; unfold Post; cbn [tn_state];
  first [exact Hi | apply Inv_new | apply Inv_setters; eauto using join_cwd_safe, cdup_safe; fail].

(** An operation of the session's client, and what follows it. *)
Lemma runs_client {X} v s (op : Client -> Io X) k :
  is_logged_in s = true ->
  (forall cl, st_sftp s = Some cl -> runs (During v s) (allowed s) (op cl) (fun _ _ => True)) ->
  (forall a, runs (During v s) (allowed s) (k a) Post) ->
  runs (During v s) (allowed s) (cl ← client s; op cl ≫= k) Post.
Proof.
  intros Hlog Hop Hk. unfold client.
  destruct (st_sftp s) as [cl|] eqn:Hcl; [|by unfold is_logged_in in Hlog; rewrite Hcl, andb_false_r in Hlog].
  apply runs_mret_bind. apply runs_bind; [apply During_stable|by apply Hop|exact Hk].
Qed.

(** Each operation makes one call at the paths it is given. *)
Ltac one_call :=
  let cl := fresh "cl" in let Hcl := fresh "Hcl" in
  intros cl Hcl; unfold metadata, create_dir, remove_dir, remove_file, rename, tagged, raw, sftp_of;
  repeat first [exact I | apply During_stable | runs_step];
  eapply sftp_allowed; [eassumption|eassumption|eassumption|cbn; repeat constructor; eauto using join_cwd_safe, list_target_safe];
  try (match goal with Hd : During _ _ _ |- _ => by eapply (inv_rnfr _ _ (proj1 Hd)) end).

Lemma runs_simple v s s' name text op :
  is_logged_in s = true -> st_sftp s' = st_sftp s -> (forall tr, Inv tr s -> Inv tr s') ->
  (forall cl, st_sftp s = Some cl -> runs (During v s) (allowed s) (op cl) (fun _ _ => True)) ->
  runs (During v s) (allowed s) (simple_op s' name text op) Post.
Proof.
  intros Hlog Hs Hi Hop. unfold simple_op. replace (client s') with (client s) by (unfold client; by rewrite Hs).
  apply runs_client; [done|done|]. intros [?|e]; unfold answer_with; apply runs_ret; intros tr [H _]; by apply Hi.
Qed.

(** Commands, by their shape. *)
Ltac command :=
  match goal with
  | |- runs _ _ (with_path _ _ _) _ => apply runs_with_path; intros ?
  | |- runs _ _ (with_opt_path _ _ _) _ => apply runs_with_opt_path; intros ?
  | |- runs _ _ (with_listener _ _ _) _ =>
      apply runs_with_listener; intros ?; first [apply runs_list | apply runs_retr | apply runs_stor];
      eauto using join_cwd_safe, list_target_safe, stou_safe
  | |- runs _ _ (mbind _ (client _)) _ => apply runs_client; [assumption|one_call|intros [?|?]]
  | |- runs _ _ (answer_with _ _ _) _ => replies
  | |- runs _ _ (mret _) _ => replies
  | |- runs _ _ (match _ with _ => _ end) _ => case_match
  end.

Lemma runs_dispatch v s :
  runs (fun tr => exists t0, tr = t0 ++ [CVerb v] /\ Inv t0 s) (allowed s) (dispatch cfg local_ip peer acc v s) Post.
Proof.
  destruct (match v with VPass _ => true | _ => false end) eqn:Hpass.
  { destruct v; try discriminate. unfold dispatch. cbn [pre_login_ok negb]. rewrite andb_false_r. apply runs_pass. }
  apply (runs_pre (During v s)).
  { intros tr (t0 & -> & Hi). split; [by apply Inv_stable|set_solver]. }
  apply runs_cwd. intros Hcwd. unfold dispatch.
  destruct (negb (is_logged_in s) && negb (pre_login_ok v)) eqn:Hgate; [destruct v; try discriminate Hpass; replies|].
  assert (pre_login_ok v = false -> is_logged_in s = true) as Hlog.
  { intros Hp. rewrite Hp, andb_true_r in Hgate. by apply negb_false_iff in Hgate. }
  destruct v; try discriminate Hpass; cbn [pre_login_ok] in Hlog; try specialize (Hlog eq_refl); repeat command.
  - (* CWD *) apply runs_bind; [apply During_stable|match goal with H : st_sftp s = Some ?c |- _ => revert c H end; one_call|intros [?|?]; command].
  - (* TYPE *) unfold on_type. repeat command.
  - (* STOU *) apply runs_bind; [apply During_stable|by refine (runs_call _ _ CNow _)|intros n; command].
  - (* DELE *) apply runs_simple; [done|done|done|one_call].
  - (* RNTO *) apply runs_simple; [done|done|intros tr Hi; by apply Inv_setters|one_call].
  - (* RMD *) apply runs_simple; [done|done|done|one_call].
  - (* PASV *) unfold on_pasv. case_match; [|command]. apply runs_passive; [intros l port|intros e; command].
    unfold answer_with. apply runs_ret. intros tr [[Hi _] Hb]. unfold Post; cbn [tn_state]. by apply Inv_setters.
  - (* EPSV *) unfold on_epsv. apply runs_passive; [intros l port|intros e; command].
    unfold answer_with. apply runs_ret. intros tr [[Hi _] Hb]. unfold Post; cbn [tn_state]. by apply Inv_setters.
  - (* AUTH *) unfold on_auth. repeat command.
  - (* PBSZ *) case_match; command.
  - (* PROT *) unfold on_prot. repeat command.
    match goal with H : negb (bool_decide _) = false |- _ => apply negb_false_iff, bool_decide_eq_true_1 in H end. command.
Qed.

(** *** Turns *)

Record SInv (tr : list Call) (se : Session) : Prop := mkSInv {
  sinv_state : Inv tr (se_state se);
  sinv_tls : se_tls se = true <-> tls_done tr
}.

(** What a turn calls before it may upgrade the channel, and over all. *)
Definition plain_allowed (se : Session) (tr : list Call) (c : Call) : Prop :=
  match c with
  | CFill enc | CSend enc _ => enc = se_tls se
  | CVerb _ => True
  | _ => allowed (se_state se) tr c
  end.
Definition turn_allowed (se : Session) (tr : list Call) (c : Call) : Prop :=
  match c with
  | CFill enc | CSend enc _ => enc = true <-> tls_done tr
  | CTls => ~ tls_done tr
  | _ => plain_allowed se tr c
  end.

Lemma no_handshake se tr l :
  (forall l1 c l2, l = l1 ++ c :: l2 -> plain_allowed se (tr ++ l1) c) -> tls_done (tr ++ l) <-> tls_done tr.
Proof.
  intros Hl. split; [|by apply tls_done_stable]. intros (t1 & t2 & E & Hr). apply app_eq_app in E as (k & [[-> E]|[-> E]]).
  - destruct k as [|c k].
    + exfalso. by apply (Hl [] CTls t2).
    + injection E as <- ->. by exists t1, k.
  - exfalso. by apply (Hl k CTls t2).
Qed.

Lemma plain_turn se tr tr' : SInv tr se -> ext (plain_allowed se) tr tr' -> ext (turn_allowed se) tr tr' /\ (tls_done tr' <-> tls_done tr).
Proof.
  intros [_ Ht] (l & -> & Hl). split; [|by apply (no_handshake se)]. exists l. split; [done|]. intros l1 c l2 E.
  pose proof (Hl l1 c l2 E) as Hc.
  assert (tls_done (tr ++ l1) <-> tls_done tr) as Hl1.
  { apply (no_handshake se). intros a c' b ->. apply (Hl a c' (b ++ c :: l2)). rewrite E. by rewrite <- app_assoc. }
  destruct c; try exact Hc; cbn in *; try done; subst; by rewrite Hl1.
Qed.

Lemma read_calls se fuel cap : forall rw buf tr,
  match read_capped_line fuel (se_tls se) cap rw buf tr with (Return _, tr') => ext (plain_allowed se) tr tr' | (Panic, _) => False end.
Proof.
  induction fuel as [|fuel IH]; intros rw buf tr; [apply ext_refl|]. cbn [read_capped_line].
  assert (forall a tr1, ext (plain_allowed se) tr tr1 ->
    match (match a with
      | FillIdle => mret (LoIdle, buf)
      | FillError e => mret (LoError e, buf)
      | FillBytes [] => mret (finish_line rw, [])
      | FillBytes available =>
          match position 10 available with
          | Some pos =>
              if bool_decide (cap < length rw + pos + 1)%nat then mret (LoTooLong, available)
              else mret (finish_line (rw ++ take (S pos) available), drop (S pos) available)
          | None =>
              if bool_decide (cap < length rw + length available)%nat then mret (LoTooLong, available)
              else read_capped_line fuel (se_tls se) cap (rw ++ available) []
          end
      end : Io (LineOutcome * list Z)) tr1 with (Return _, tr') => ext (plain_allowed se) tr tr' | (Panic, _) => False end) as Hk.
  { intros a tr1 He. destruct a as [|e|[|b l]]; [exact He|exact He|exact He|].
    destruct (position 10 (b :: l)) as [pos|]; [destruct (bool_decide _); exact He|]. destruct (bool_decide _); [exact He|].
    pose proof (IH (rw ++ b :: l) [] tr1). destruct (read_capped_line _ _ _ _ _ tr1) as [[?|] tr2]; [|done]. by eapply ext_trans. }
  destruct buf as [|b l].
  - apply (Hk (reply_to (CFill (se_tls se)) tr)). by apply ext_one.
  - apply (Hk (FillBytes (b :: l))). apply ext_refl.
Qed.

Definition turn_ok (se : Session) (tr : list Call) (r : Outcome (Session + Result TranslatorError ()) * list Call) : Prop :=
  match r with
  | (Return r, tr') => ext (turn_allowed se) tr tr' /\ forall se', r = inl se' -> SInv tr' se'
  | (Panic, _) => False
  end.

Lemma ended se tr tr' e : ext (turn_allowed se) tr tr' -> turn_ok se tr (Return (inr e), tr').
Proof. by split. Qed.

Lemma allowed_plain se tr tr' : ext (allowed (se_state se)) tr tr' -> ext (plain_allowed se) tr tr'.
Proof. apply ext_weaken. intros l []; cbn; tauto. Qed.

Lemma upgrade_ok se se' tr tr' : ext (turn_allowed se) tr tr' -> SInv tr' se' -> turn_ok se tr (upgrade acc se' tr').
Proof.
  intros He [Hi Ht]. unfold upgrade. destruct acc eqn:Hacc; cbn [negb]; [|by apply ended].
  destruct (se_buffer se'); [|by apply ended]. destruct (se_tls se') eqn:Hs; [by apply ended|].
  assert (~ tls_done tr') as Hn by (rewrite <- Ht; discriminate).
  assert (ext (turn_allowed se) tr (tr' ++ [CTls])) as He' by (eapply ext_trans; [exact He|by apply ext_one]).
  unfold mbind, Io_bind, call. remember (reply_to CTls tr') as h eqn:Hh. unfold Resp in h. symmetry in Hh.
  destruct h; [|by apply ended|by apply ended]. split; [done|]. intros se1 E. injection E as <-.
  assert (tls_done (tr' ++ [CTls])) as Hd by (by exists tr', []).
  constructor; cbn [se_tls se_state]; [|by split]. pose proof (Inv_stable _ _ [CTls] Hi) as [H1 H2 H3 H4 H5 H6 H7].
  by constructor.
Qed.

Lemma session_turn_ok se tr : SInv tr se -> turn_ok se tr (session_turn cfg local_ip peer acc se tr).
Proof.
  intros Hs. unfold session_turn, mbind at 1, Io_bind at 1. pose proof (read_calls se (MAX_CONTROL_LINE + 2) MAX_CONTROL_LINE [] (se_buffer se) tr) as Hr.
  destruct (read_capped_line _ _ _ _ _ tr) as [[[outcome buf]|] tr1]; [|done].
  assert (forall text e, turn_ok se tr ((_ ← call (CSend (se_tls se) text); mret (inr e)) tr1)) as Hlast.
  { intros text e. apply ended. eapply (plain_turn se); [exact Hs|]. eapply ext_trans; [exact Hr|by apply ext_one]. }
  destruct outcome as [line| | |e|]; try (apply ended; by eapply (plain_turn se)); try apply Hlast.
  set (verb := parse_command line). unfold mbind at 1, Io_bind at 1, call at 1.
  destruct (ext_prefix _ _ _ Hr) as [l1 E1].
  pose proof (runs_dispatch verb (se_state se) (tr1 ++ [CVerb verb])) as Hd.
  assert (exists t0, tr1 ++ [CVerb verb] = t0 ++ [CVerb verb] /\ Inv t0 (se_state se)) as Hpre.
  { exists tr1. split; [done|]. rewrite E1. by apply Inv_stable, Hs. }
  specialize (Hd Hpre). unfold mbind at 1, Io_bind at 1.
  destruct (dispatch cfg local_ip peer acc verb (se_state se) (tr1 ++ [CVerb verb])) as [[t|] tr3]; [|done]. destruct Hd as [He3 HP].
  set (text := match verb with VFeat => _ | _ => _ end). unfold mbind at 1, Io_bind at 1, call at 1.
  assert (ext (plain_allowed se) tr (tr3 ++ [CSend (se_tls se) text])) as He.
  { eapply ext_trans; [exact Hr|]. eapply ext_trans; [by apply (ext_one _ _ (CVerb verb))|]. eapply ext_trans; [by apply allowed_plain|by apply ext_one]. }
  destruct (plain_turn se tr _ Hs He) as [Hta Htd].
  assert (SInv (tr3 ++ [CSend (se_tls se) text]) (mkSession (se_tls se) buf (tn_state t))) as Hs'.
  { constructor; cbn [se_state se_tls]; [by apply Inv_stable|]. rewrite Htd. apply Hs. }
  remember (reply_to (CSend (se_tls se) text) tr3) as w eqn:Hw. unfold Resp in w. destruct w as [?|e]; [|by apply ended].
  destruct (tn_quit t); [by apply ended|]. destruct (tn_tls t); [by apply upgrade_ok|].
  split; [done|]. intros se1 E. by injection E as <-.
Qed.

(** What holds of each call of a session, given the calls before it. *)
Definition lawful (tr : list Call) (c : Call) : Prop :=
  match c with
  | CSftp cl r | CSftpTimed cl r => granted cl tr /\ Forall safe_path (raw_paths r)
  | COpenFor u => exists p t1, tr = t1 ++ [CVerb (VPass p)] /\ authorise (tc_auth cfg) u p = true
  | CBind _ port => (tc_passive_port_range cfg).1 <= port <= (tc_passive_port_range cfg).2
  | CAccept l => bound l tr
  | CDataTls k => accepted k tr
  | CDataSend d _ | CDataReads d | CDataShutdown d => accepted (sock_of d) tr
  | CFill enc | CSend enc _ => enc = true <-> tls_done tr
  | CTls => ~ tls_done tr
  | CVerb _ | CNow => True
  end.

Lemma turn_lawful se tr tr' : ext (turn_allowed se) tr tr' -> ext lawful tr tr'.
Proof. apply ext_weaken. intros l []; cbn; tauto. Qed.

Definition session_ok (tr : list Call) (r : Outcome (Session + Result TranslatorError ()) * list Call) : Prop :=
  match r with
  | (Return r, tr') => ext lawful tr tr' /\ forall se, r = inl se -> SInv tr' se
  | (Panic, _) => False
  end.

Lemma session_turns_ok n : forall se tr, SInv tr se -> session_ok tr (session_turns n cfg local_ip peer acc se tr).
Proof.
  induction n as [|n IH]; intros se tr Hs; cbn [session_turns].
  - split; [apply ext_refl|]. intros se' E. by injection E as <-.
  - unfold mbind, Io_bind. pose proof (session_turn_ok se tr Hs) as Ht. destruct (session_turn _ _ _ _ se tr) as [[[se1|e]|] tr1]; [| |done].
    + destruct Ht as [He Hs1]. specialize (IH se1 tr1 (Hs1 se1 eq_refl)). destruct (session_turns n _ _ _ _ se1 tr1) as [[r|] tr2]; [|done].
      destruct IH as [He2 Hs2]. split; [|done]. eapply ext_trans; [by apply (turn_lawful se)|done].
    + destruct Ht as [He _]. split; [by apply (turn_lawful se)|done].
Qed.

Lemma tls_done_nil : ~ tls_done [].
Proof. intros (t1 & t2 & E & _). by destruct t1. Qed.

Lemma run_session_ok n : session_ok [] (run_session n cfg local_ip peer acc []).
Proof.
  unfold run_session, mbind, Io_bind, call. set (text := wire _).
  assert (ext lawful [] [CSend false text]) as He by (apply (ext_one lawful [] (CSend false text)); split; [done|by intros ?%tls_done_nil]).
  remember (reply_to (CSend false text) []) as w eqn:Hw. unfold Resp in w. destruct w as [?|e]; [|by split].
  pose proof (session_turns_ok n (mkSession false [] SessionState_new) ([] ++ [CSend false text])) as H.
  destruct (session_turns n _ _ _ _ _ _) as [[r|] tr2].
  - destruct H as [He2 Hs]; [|split; [by eapply ext_trans|done]]. constructor; cbn; [apply Inv_new|]. split; [done|].
    intros (t1 & t2 & E & _). destruct t1 as [|x [|y t1]]; discriminate E.
  - apply H. constructor; cbn; [apply Inv_new|]. split; [done|]. intros (t1 & t2 & E & _). destruct t1 as [|x [|y t1]]; discriminate E.
Qed.
End guarded.

(** C13: Whatever a client sends and however the network and the backend answer,
    a session never panics and each call it makes is lawful: the backend is
    used only through a client opened for a user whom a USER command named and
    whose PASS the policy accepted, over TLS where the configuration requires
    it, and only at absolute paths without empty, dot, dot-dot or NUL parts;
    data connections are used only when they were accepted from the control
    peer's address on a listener this session bound in the configured range;
    and after a successful handshake the control channel is never read or
    written in the clear. *)
Theorem session_lawful `{!Outside} (n : nat) (cfg : TranslatorConfig) (local_ip peer : IpAddr) (tls_acceptor : bool) :
  let '(r, tr) := run_session n cfg local_ip peer tls_acceptor [] in
  r <> Panic /\ forall t1 c t2, tr = t1 ++ c :: t2 -> lawful cfg peer t1 c.
Proof.
  pose proof (run_session_ok cfg local_ip peer tls_acceptor n) as Hok. unfold session_ok in Hok.
  destruct (run_session n cfg local_ip peer tls_acceptor []) as [[r|] tr]; [|done]. split; [done|].
  destruct Hok as [(l & -> & Hl) _]. intros t1 c t2 E. by apply (Hl t1 c t2).
Qed.

(** The data connection a call uses. *)
Definition data_of (c : Call) : option DataStream :=
  match c with CDataSend d _ | CDataReads d | CDataShutdown d => Some d | _ => None end.

(** In a session whose client has been granted PROT P every data connection
    the next command uses is a TLS connection. *)
Theorem private_data_encrypted `{!Outside} (n : nat) (cfg : TranslatorConfig) (local_ip peer : IpAddr) (tls_acceptor : bool) (se : Session) (tr t1 t2 : list Call) (c : Call) (d : DataStream) :
  run_session n cfg local_ip peer tls_acceptor [] = (Return (inl se), tr) ->
  st_prot_private (se_state se) = true ->
  (session_turn cfg local_ip peer tls_acceptor se tr).2 = tr ++ t1 ++ c :: t2 ->
  data_of c = Some d ->
  exists k, d = DTls k.
Proof.
  intros Hrun Hp Ht Hd. pose proof (run_session_ok cfg local_ip peer tls_acceptor n) as Hok. rewrite Hrun in Hok. destruct Hok as [_ Hs].
  pose proof (session_turn_ok cfg local_ip peer tls_acceptor se tr (Hs se eq_refl)) as Hok.
  destruct (session_turn cfg local_ip peer tls_acceptor se tr) as [[r|] tr']; [|done]. cbn in Ht. subst tr'.
  destruct Hok as [(l & E & Hl) _]. apply app_inv_head in E. specialize (Hl t1 c t2 (eq_sym E)).
  destruct c; try discriminate Hd; injection Hd as <-; by apply Hl.
Qed.

(** The fuel of the line reader is enough: each round that goes on takes a byte,
    and it stops beyond the cap. *)
Lemma read_fuel_enough `{!Outside} enc cap k : forall fuel rw buf tr,
  (length rw <= cap)%nat -> (cap < length rw + fuel)%nat ->
  read_capped_line (fuel + k) enc cap rw buf tr = read_capped_line fuel enc cap rw buf tr.
Proof.
  induction fuel as [|fuel IH]; intros rw buf tr Hl Hf; [lia|].
  cbn [read_capped_line Nat.add]. unfold mbind, Io_bind.
  assert (forall a b (l : list Z) tr1, a = FillBytes (b :: l) ->
    (if bool_decide (cap < length rw + length (b :: l))%nat then mret (LoTooLong, b :: l) else read_capped_line (fuel + k) enc cap (rw ++ b :: l) []) tr1
    = (if bool_decide (cap < length rw + length (b :: l))%nat then mret (LoTooLong, b :: l) else read_capped_line fuel enc cap (rw ++ b :: l) []) tr1) as Hk.
  { intros a b l tr1 _. case_bool_decide as Hc; [done|]. apply IH; rewrite length_app; cbn in *; lia. }
  destruct buf as [|b l].
  - unfold call. remember (reply_to (CFill enc) tr) as a eqn:Ha. unfold Resp in a. destruct a as [|e|[|b l]]; try done.
    destruct (position 10 (b :: l)); [done|]. by eapply Hk.
  - unfold mret, Io_ret. cbv iota beta.
    destruct (position 10 (b :: l)); [done|]. by eapply Hk.
Qed.

(** ** Behaviour worth knowing *)

(** A backend that accepts everything, and a client that sends [cmds], one per
    read. *)
Definition ok_raw (r : Raw) : RawResp r :=
  match r return RawResp r with
  | RawCanonicalize p | RawReadLink p => Ok p
  | RawReadDir _ => Ok [("f"%string, file_attrs)]
  | RawReadWhole _ => Ok []
  | RawOpen _ | RawOpenWrite _ _ => Ok 0%nat
  | RawSeek _ _ | RawWrite _ _ | RawShutdown _ => Ok ()
  | RawReads _ => mkReads [] None
  | RawMetadata _ | RawSymlinkMetadata _ => Ok file_attrs
  | RawTryExists _ => Ok true
  | RawSetMode _ _ | RawSymlink _ _ | RawCreateDir _ | RawRemoveFile _ | RawRemoveDir _ | RawRename _ _ | RawClose => Ok ()
  end.

Fixpoint fills (tr : list Call) : nat := match tr with [] => O | CFill _ :: r => S (fills r) | _ :: r => fills r end.

Definition scripted (cmds : list string) : Outside := fun c tr =>
  match c return Resp c with
  | CFill _ => FillBytes (bytes_of (default ""%string (cmds !! fills tr)))
  | CSend _ _ => Ok ()
  | CVerb _ => ()
  | CTls | CDataTls _ => HandshakeOk
  | COpenFor u => Ok (if (u =? "alice")%string then 1%nat else 2%nat)
  | CSftp _ r => ok_raw r
  | CSftpTimed _ r => Some (ok_raw r)
  | CBind _ _ => Some (7%nat, None)
  | CAccept _ => AcceptOk 9%nat (V4 0x7F000001)
  | CDataSend _ _ => Some (Ok ())
  | CDataReads _ => mkUploadStream [] SourceEof
  | CDataShutdown _ => Some ()
  | CNow => 5
  end.

Definition line (s : string) : string := s +:+ crlf.
Definition localhost : IpAddr := V4 0x7F000001.
Definition demo_ftp (tls : option TlsConfig) : TranslatorConfig :=
  mkTranslatorConfig (localhost, 2121) (50000, 50100) None "ready" (AuthCallback (fun _ p => (p =? "pw")%string)) tls 32 300 300 [].
Definition strict_tls : option TlsConfig := Some (mkTlsConfig "cert" "key" true).

Definition private_commands : list string :=
  line <$> ["AUTH TLS"; "USER alice"; "PASS pw"; "PBSZ 0"; "PROT P"; "PASV"; "LIST"].

Definition after (n : nat) (tls : option TlsConfig) (cmds : list string) : Outcome (Session + Result TranslatorError ()) * list Call :=
  @run_session (scripted cmds) n (demo_ftp tls) localhost localhost true [].
Definition private_session : Session :=
  match (after 6 strict_tls private_commands).1 with Return (inl se) => se | _ => mkSession false [] SessionState_new end.

Lemma private_data_encrypted_witness : exists k, DTls 9 = DTls k.
Proof.
  refine (@private_data_encrypted (scripted private_commands) 6 (demo_ftp strict_tls) localhost localhost true private_session
    (after 6 strict_tls private_commands).2 [CFill true; CVerb (VList None); CAccept 7; CDataTls 9; CSftpTimed 1 (RawReadDir "/")]
    [CDataShutdown (DTls 9); CSend true (wire (Reply_new 226 "Listing complete."))]
    (CDataSend (DTls 9) (bytes_of (list_body LmList [mkSftpDirEntry "f" (from_attrs file_attrs)]))) (DTls 9) _ _ _ _); vm_compute; reflexivity.
Defined.

(** REIN resets the state to a plain channel while the channel stays encrypted:
    where TLS is required no later login succeeds, and another AUTH ends the
    session. *)
Theorem rein_locks_out :
  let cmds := line <$> ["AUTH TLS"; "USER alice"; "PASS pw"; "REIN"; "USER alice"; "PASS pw"; "AUTH TLS"] in
  (after 7 strict_tls cmds).1 = Return (inr (Ok ()))
  /\ CSend true (wire (Reply_new 230 "User alice logged in.")) ∈ (after 7 strict_tls cmds).2
  /\ CSend true (wire (Reply_new 530 "AUTH TLS required before login.")) ∈ (after 7 strict_tls cmds).2.
Proof.
  cbv zeta. split; [vm_compute; reflexivity|].
  split; [apply (list_elem_of_lookup_2 _ 11)|apply (list_elem_of_lookup_2 _ 20)]; vm_compute; reflexivity.
Qed.

(** A password sent in the clear where TLS is required is checked first, and
    the reply tells whether it is right. *)
Theorem plain_password_confirmed `{!Outside} (cfg : TranslatorConfig) (tls : TlsConfig) (s : SessionState) (u p : string) (tr : list Call) :
  tc_tls cfg = Some tls -> require_tls tls = true -> st_control s = CPlain -> st_login s = AwaitingPass -> st_pending_user s = Some u ->
  on_pass cfg s p tr
  = (Return (mkTurn (Reply_new 530 (if authorise (tc_auth cfg) u p then "AUTH TLS required before login." else "Login incorrect."))
               false false (set_login Anonymous None s)), tr).
Proof.
  intros Ht Hr Hc Hl Hu. unfold on_pass. rewrite Hl, Hu, Ht, Hr, Hc. cbn. by destruct (authorise _ _ _).
Qed.

(** A line that the end of the stream cuts off is carried out. *)
Theorem cut_command_runs :
  CSftp 1 (RawRemoveFile "/backup/2024") ∈ (after 3 None [line "USER alice"; line "PASS pw"; "DELE /backup/2024"%string]).2.
Proof. apply (list_elem_of_lookup_2 _ 11). vm_compute. reflexivity. Qed.

(** A pending rename outlives its user: the next user's RNTO moves the path the
    first one named. *)
Theorem rename_crosses_login :
  CSftp 2 (RawRename "/a" "/b")
  ∈ (after 6 None (line <$> ["USER alice"; "PASS pw"; "RNFR a"; "USER bob"; "PASS pw"; "RNTO b"])).2.
Proof. apply (list_elem_of_lookup_2 _ 21). vm_compute. reflexivity. Qed.

(** The feature list names REST, which is not a command of the translator. *)
Theorem rest_is_unknown (cfg : TranslatorConfig) :
  "REST STREAM"%string ∈ advertised_features cfg /\ parse_command ("REST " +:+ "100") = VUnknown "REST".
Proof. split; [|reflexivity]. unfold advertised_features. set_solver. Qed.
