(* ===== verification/StateLock.v ===== *)
(** * The lock of the state directory

    Models [crates/spt-state/src/lock.rs]: [StateLock::acquire], its [Drop] and
    the pid file they keep.  Several handles, of one or of several processes, go
    through the protocol at once; each call to the operating system is one step,
    and any of them may fail.  A handle may die at every step, which releases its
    lock and leaves the pid file as it is. *)

From S2P Require Import Prelude Text Errors.

Section Lock.
(** The process of a handle ([std::process::id]) and the paths of the directory. *)
Context (pid_of : nat -> Z) (lock_path pid_path : string).

(** ** The protocol *)

(** Where a handle stands: the lock file is open; it is locked; the old pid was
    read; the pid is written, which makes a [StateLock]; dropped as far as the
    removal of the pid file. *)
Inductive Phase :=
| Opened
| Locked
| PidRead (previous_unclean_pid : option Z)
| Held (previous_unclean_pid : option Z)
| PidRemoved.

#[export] Instance Phase_eq_dec : EqDecision Phase.
Proof. solve_decision. Defined.

(** The directory: who has the lock, the text of [spt.pid] and the handles. *)
Record Dir := mkDir {
  d_holder : option nat;
  d_pid : option string;
  d_at : gmap nat Phase
}.

(** An [io::Error]: its kind, as far as it is looked at, and its number. *)
Inductive ErrorKind := KWouldBlock | KPermissionDenied | KOther.
Record IoError := mkIoError { ie_kind : ErrorKind; ie_raw : option Z; ie_text : string }.

Definition is_contention_error (e : IoError) : bool :=
  match ie_kind e with
  | KWouldBlock | KPermissionDenied => true
  | KOther => match ie_raw e with Some n => (n =? 11) || (n =? 32) || (n =? 33) || (n =? 35) | None => false end
  end.

Definition read_pid_file (raw : option string) : option Z :=
  raw ← raw;
  pid ← parse_uint 32 (trim raw);
  if pid =? 0 then None else Some pid.

Inductive Act :=
| AOpen (h : nat) (fails : option string)
| ATryLock (h : nat) (fails : option IoError)
| ARead (h : nat) (readable : bool)
| AWrite (h : nat) (fails : option string)
| ARemove (h : nat) (removed : bool)
| AUnlock (h : nat)
| ACrash (h : nat).

(** What a step returns to the caller: nothing yet, an error of [acquire], or the
    lock with the pid it found. *)
Inductive Out := Silent | Refused (e : Error) | Acquired (previous_unclean_pid : option Z).

Definition already_running : Out := Refused (StateLockFailed lock_path "another spt instance is already running").

(** The handle is closed: it leaves, and its lock with it. *)
Definition close (h : nat) (d : Dir) : Dir :=
  mkDir (if decide (d_holder d = Some h) then None else d_holder d) (d_pid d) (delete h (d_at d)).

Definition at_phase (h : nat) (p : Phase) (d : Dir) : Dir := mkDir (d_holder d) (d_pid d) (<[h := p]> (d_at d)).

(** One step of a handle, where it can take it. *)
Definition lock_step (a : Act) (d : Dir) : option (Dir * Out) :=
  match a with
  | AOpen h fails =>
      match d_at d !! h, fails with
      | None, None => Some (at_phase h Opened d, Silent)
      | None, Some e => Some (d, Refused (StateLockFailed lock_path ("open lock file: " +:+ e)))
      | Some _, _ => None
      end
  | ATryLock h fails =>
      match d_at d !! h, fails, d_holder d with
      | Some Opened, Some e, _ =>
          Some (close h d, if is_contention_error e then already_running
                           else Refused (StateLockFailed lock_path ("file lock failed: " +:+ ie_text e)))
      | Some Opened, None, Some _ => Some (close h d, already_running)
      | Some Opened, None, None => Some (mkDir (Some h) (d_pid d) (<[h := Locked]> (d_at d)), Silent)
      | _, _, _ => None
      end
  | ARead h readable =>
      match d_at d !! h with
      | Some Locked => Some (at_phase h (PidRead (read_pid_file (if readable then d_pid d else None))) d, Silent)
      | _ => None
      end
  | AWrite h fails =>
      match d_at d !! h, fails with
      | Some (PidRead prev), None => Some (mkDir (d_holder d) (Some (pretty (pid_of h))) (<[h := Held prev]> (d_at d)), Acquired prev)
      | Some (PidRead _), Some e => Some (close h d, Refused (StateLockFailed pid_path ("atomic write failed: " +:+ e)))
      | _, _ => None
      end
  | ARemove h removed =>
      match d_at d !! h with
      | Some (Held _) => Some (mkDir (d_holder d) (if removed then None else d_pid d) (<[h := PidRemoved]> (d_at d)), Silent)
      | _ => None
      end
  | AUnlock h =>
      match d_at d !! h with
      | Some PidRemoved => Some (close h d, Silent)
      | _ => None
      end
  | ACrash h =>
      match d_at d !! h with
      | Some _ => Some (close h d, Silent)
      | None => None
      end
  end.

(** Before the first run. *)
Definition fresh : Dir := mkDir None None ∅.

(** The directories the handles can bring about, with the steps that led there. *)
Inductive reached : list Act -> Dir -> Prop :=
| reached_fresh : reached [] fresh
| reached_step t d a d' out : reached t d -> lock_step a d = Some (d', out) -> reached (t ++ [a]) d'.

(** The pid that was written last, unless it was removed since. *)
Definition last_left (t : list Act) : option Z :=
  foldl (fun left a => match a with
                       | AWrite h None => Some (pid_of h)
                       | ARemove _ true => None
                       | _ => left
                       end) None t.

(** The acts of a handle that leave its pid behind. *)
Definition left_behind (t : list Act) (pid : Z) : Prop :=
  exists h, pid_of h = pid /\ (ACrash h ∈ t \/ ARemove h false ∈ t).

(** ** The invariant *)

(** A handle that is past [Opened] has locked the file. *)
Definition past_lock (p : Phase) : Prop := p <> Opened.

Record inv (t : list Act) (d : Dir) : Prop := {
  inv_locked h p : d_at d !! h = Some p -> past_lock p -> d_holder d = Some h;
  inv_holder h : d_holder d = Some h -> exists p, d_at d !! h = Some p /\ past_lock p;
  inv_pid : d_pid d = pretty <$> last_left t;
  inv_held h prev : d_at d !! h = Some (Held prev) -> last_left t = Some (pid_of h);
  inv_left pid : last_left t = Some pid -> (exists h prev, pid_of h = pid /\ d_at d !! h = Some (Held prev)) \/ left_behind t pid;
  inv_read h prev : d_at d !! h = Some (PidRead prev) -> prev = last_left t \/ (prev = None /\ ARead h false ∈ t);
  inv_found h pid : d_at d !! h = Some (PidRead (Some pid)) -> left_behind t pid
}.

Lemma last_left_snoc t a :
  last_left (t ++ [a]) = match a with AWrite h None => Some (pid_of h) | ARemove _ true => None | _ => last_left t end.
Proof. unfold last_left. rewrite foldl_app. done. Qed.

Lemma left_behind_snoc t a pid : left_behind t pid -> left_behind (t ++ [a]) pid.
Proof. intros (h & ? & Ht). exists h. rewrite !elem_of_app. tauto. Qed.

Lemma inv_fresh : inv [] fresh.
Proof. split; intros; by try rewrite lookup_empty in *. Qed.

(** Closing a handle keeps what the others see.  A [Held] handle leaves its pid. *)
Lemma inv_close t a d h :
  inv t d -> last_left (t ++ [a]) = last_left t ->
  (forall prev, d_at d !! h = Some (Held prev) -> a = ACrash h) -> inv (t ++ [a]) (close h d).
Proof.
  intros I El Hh. assert (forall k p, d_at (close h d) !! k = Some p -> k <> h /\ d_at d !! k = Some p) as Hk.
  { cbn. intros k p Hl. by apply lookup_delete_Some in Hl as [? ?]. }
  split; rewrite ?El.
  - intros k p [Hn Hl]%Hk Hp. cbn. rewrite decide_False; [by eapply inv_locked|]. intros E. by rewrite (inv_locked _ _ I _ _ Hl Hp) in E; simplify_eq.
  - cbn. intros k. destruct (decide (d_holder d = Some h)) as [E|E]; [done|]. intros Ek. destruct (inv_holder _ _ I _ Ek) as (p & Hl & Hp).
    exists p. split; [|done]. rewrite lookup_delete_ne; [done|]. intros ->. done.
  - apply I.
  - intros k prev [_ Hl]%Hk. by eapply inv_held.
  - intros pid Hp. destruct (inv_left _ _ I _ Hp) as [(k & prev & Hpid & Hl)|Hl]; [|right; by apply left_behind_snoc].
    destruct (decide (k = h)) as [->|Hn].
    + right. exists h. split; [done|]. left. rewrite (Hh _ Hl). set_solver.
    + left. exists k, prev. split; [done|]. cbn. by rewrite lookup_delete_ne.
  - intros k prev [_ Hl]%Hk. destruct (inv_read _ _ I _ _ Hl) as [|[? ?]]; [by left|right]. set_solver.
  - intros k pid [_ Hl]%Hk. apply left_behind_snoc. by eapply inv_found.
Qed.

Hypothesis pids : forall h, 1 <= pid_of h <= umax 32.

Lemma read_written h : read_pid_file (Some (pretty (pid_of h))) = Some (pid_of h).
Proof.
  unfold read_pid_file. cbn [mbind option_bind]. pose proof (pids h) as Hp.
  assert (parse_uint 32 (pretty (pid_of h)) = Some (pid_of h)) as E by (apply parse_uint_pretty; unfold in_u; lia).
  destruct (parse_uint_word _ _ _ E) as [Hw _]. rewrite trim_free, E by done. cbn [mbind option_bind]. by rewrite (proj2 (Z.eqb_neq _ _)) by lia.
Qed.

(** What the pid file says is what was left. *)
Lemma read_left t d : inv t d -> read_pid_file (d_pid d) = last_left t.
Proof.
  intros I. rewrite (inv_pid _ _ I). destruct (last_left t) as [p|] eqn:E; [|done]. cbn [fmap option_fmap option_map].
  destruct (inv_left _ _ I _ E) as [(h & _ & <- & _)|(h & <- & _)]; apply read_written.
Qed.

(** While somebody has the lock without having written, nobody is [Held]. *)
Lemma nobody_else t d h p k q :
  inv t d -> d_at d !! h = Some p -> past_lock p -> d_at d !! k = Some q -> past_lock q -> k = h.
Proof. intros I Hh Hp Hk Hq. pose proof (inv_locked _ _ I _ _ Hh Hp). pose proof (inv_locked _ _ I _ _ Hk Hq). congruence. Qed.

Lemma others_opened t d h p k q :
  inv t d -> d_at d !! h = Some p -> past_lock p -> d_at d !! k = Some q -> k <> h -> q = Opened.
Proof. intros I Hh Hp Hk Hn. destruct (decide (q = Opened)) as [|Hq]; [done|]. by destruct Hn; eapply (nobody_else t d h p k q). Qed.

(** A step that moves a handle from [p] to [q] past the lock and keeps what is left. *)
Lemma inv_move t a d h p q :
  inv t d -> d_at d !! h = Some p -> past_lock p -> past_lock q -> last_left (t ++ [a]) = last_left t ->
  (forall prev, p <> Held prev) -> (forall prev, q <> Held prev) ->
  (forall prev, q = PidRead prev -> (prev = last_left t \/ (prev = None /\ ARead h false ∈ t ++ [a])) /\ (forall pid, prev = Some pid -> left_behind t pid)) ->
  inv (t ++ [a]) (at_phase h q d).
Proof.
  intros I Hl Hp Hq El Hnp Hnq Hr. split; rewrite ?El; cbn.
  - intros k r Hk Hpast. apply lookup_insert_Some in Hk as [[<- <-]|[_ Hk]]; by eapply inv_locked.
  - intros k Hk. destruct (decide (k = h)) as [->|Hn]; [exists q; by rewrite lookup_insert_eq|rewrite lookup_insert_ne by done; by apply (inv_holder _ _ I)].
  - apply I.
  - intros k prev Hk. apply lookup_insert_Some in Hk as [[<- Eq]|[_ Hk]]; [by destruct (Hnq prev)|by eapply inv_held].
  - intros pid E. destruct (inv_left _ _ I _ E) as [(k & prev & Hpid & Hk)|]; [|right; by apply left_behind_snoc].
    left. exists k, prev. split; [done|]. rewrite lookup_insert_ne; [done|]. intros <-. rewrite Hl in Hk. injection Hk as Ep. by destruct (Hnp prev).
  - intros k prev Hk. apply lookup_insert_Some in Hk as [[<- ->]|[_ Hk]]; [by apply Hr|]. destruct (inv_read _ _ I _ _ Hk) as [|[? ?]]; [by left|right]. set_solver.
  - intros k pid Hk. apply left_behind_snoc. apply lookup_insert_Some in Hk as [[<- ->]|[_ Hk]]; [by eapply Hr|by eapply inv_found].
Qed.

(** The handle opens the lock file. *)
Lemma inv_open t d h : inv t d -> d_at d !! h = None -> inv (t ++ [AOpen h None]) (at_phase h Opened d).
Proof.
  intros I Hn. split; rewrite ?last_left_snoc; cbn.
  - intros k p Hk Hp. apply lookup_insert_Some in Hk as [[<- <-]|[_ Hk]]; [done|by eapply inv_locked].
  - intros k Hk. destruct (inv_holder _ _ I _ Hk) as (p & Hl & Hp). exists p. split; [|done]. rewrite lookup_insert_ne; [done|]. intros <-. by rewrite Hn in Hl.
  - apply I.
  - intros k prev Hk. apply lookup_insert_Some in Hk as [[<- ?]|[_ Hk]]; [done|by eapply inv_held].
  - intros pid E. destruct (inv_left _ _ I _ E) as [(k & prev & Hpid & Hk)|]; [|right; by apply left_behind_snoc].
    left. exists k, prev. split; [done|]. rewrite lookup_insert_ne; [done|]. intros <-. by rewrite Hn in Hk.
  - intros k prev Hk. apply lookup_insert_Some in Hk as [[<- ?]|[_ Hk]]; [done|]. destruct (inv_read _ _ I _ _ Hk) as [|[? ?]]; [by left|right]. set_solver.
  - intros k pid Hk. apply left_behind_snoc. apply lookup_insert_Some in Hk as [[<- ?]|[_ Hk]]; [done|by eapply inv_found].
Qed.

(** A free lock is taken. *)
Lemma inv_lock t d h :
  inv t d -> d_at d !! h = Some Opened -> d_holder d = None ->
  inv (t ++ [ATryLock h None]) (mkDir (Some h) (d_pid d) (<[h := Locked]> (d_at d))).
Proof.
  intros I Hl Hfree. assert (forall k p, d_at d !! k = Some p -> p = Opened) as Hall.
  { intros k p Hk. destruct (decide (p = Opened)) as [|Hp]; [done|]. by rewrite (inv_locked _ _ I _ _ Hk Hp) in Hfree. }
  split; rewrite ?last_left_snoc; cbn.
  - intros k p Hk Hp. apply lookup_insert_Some in Hk as [[<- _]|[_ Hk]]; [done|]. by rewrite (Hall _ _ Hk) in Hp.
  - intros k [= <-]. exists Locked. by rewrite lookup_insert_eq.
  - apply I.
  - intros k prev Hk. apply lookup_insert_Some in Hk as [[<- ?]|[_ Hk]]; [done|by apply Hall in Hk].
  - intros pid E. destruct (inv_left _ _ I _ E) as [(k & prev & Hpid & Hk)|]; [by apply Hall in Hk|right; by apply left_behind_snoc].
  - intros k prev Hk. apply lookup_insert_Some in Hk as [[<- ?]|[_ Hk]]; [done|by apply Hall in Hk].
  - intros k pid Hk. apply lookup_insert_Some in Hk as [[<- ?]|[_ Hk]]; [done|by apply Hall in Hk].
Qed.

(** The pid is written: from now on it is this handle's. *)
Lemma inv_write t d h prev :
  inv t d -> d_at d !! h = Some (PidRead prev) ->
  inv (t ++ [AWrite h None]) (mkDir (d_holder d) (Some (pretty (pid_of h))) (<[h := Held prev]> (d_at d))).
Proof.
  intros I Hl. pose proof (fun k p => others_opened t d h (PidRead prev) k p I Hl ltac:(done)) as Hall.
  split; rewrite ?last_left_snoc; cbn.
  - intros k p Hk Hp. apply lookup_insert_Some in Hk as [[<- _]|[_ Hk]]; [by eapply inv_locked|by eapply inv_locked].
  - intros k Hk. destruct (decide (k = h)) as [->|Hn]; [exists (Held prev); by rewrite lookup_insert_eq|].
    rewrite lookup_insert_ne by done. by apply (inv_holder _ _ I).
  - done.
  - intros k p Hk. apply lookup_insert_Some in Hk as [[<- _]|[Hn Hk]]; [done|]. by apply Hall in Hk; [|done].
  - intros pid [= <-]. left. exists h, prev. by rewrite lookup_insert_eq.
  - intros k p Hk. apply lookup_insert_Some in Hk as [[<- ?]|[Hn Hk]]; [done|]. by apply Hall in Hk; [|done].
  - intros k pid Hk. apply lookup_insert_Some in Hk as [[<- ?]|[Hn Hk]]; [done|]. by apply Hall in Hk; [|done].
Qed.

(** The [Drop] of a lock begins: its pid goes, or stays behind. *)
Lemma inv_remove t d h prev removed :
  inv t d -> d_at d !! h = Some (Held prev) ->
  inv (t ++ [ARemove h removed]) (mkDir (d_holder d) (if removed then None else d_pid d) (<[h := PidRemoved]> (d_at d))).
Proof.
  intros I Hl. pose proof (fun k p => others_opened t d h (Held prev) k p I Hl ltac:(done)) as Hall.
  split; rewrite ?last_left_snoc; cbn.
  - intros k p Hk Hp. apply lookup_insert_Some in Hk as [[<- _]|[_ Hk]]; [by eapply inv_locked|by eapply inv_locked].
  - intros k Hk. destruct (decide (k = h)) as [->|Hn]; [exists PidRemoved; by rewrite lookup_insert_eq|].
    rewrite lookup_insert_ne by done. by apply (inv_holder _ _ I).
  - destruct removed; [done|apply I].
  - intros k p Hk. apply lookup_insert_Some in Hk as [[<- ?]|[Hn Hk]]; [done|]. by apply Hall in Hk; [|done].
  - intros pid E. right. destruct removed; [done|]. rewrite (inv_held _ _ I _ _ Hl) in E. injection E as <-. exists h. set_solver.
  - intros k p Hk. apply lookup_insert_Some in Hk as [[<- ?]|[Hn Hk]]; [done|]. by apply Hall in Hk; [|done].
  - intros k pid Hk. apply lookup_insert_Some in Hk as [[<- ?]|[Hn Hk]]; [done|]. by apply Hall in Hk; [|done].
Qed.

Lemma inv_step t d a d' out : inv t d -> lock_step a d = Some (d', out) -> inv (t ++ [a]) d'.
Proof.
  intros I. destruct a as [h fails|h fails|h readable|h fails|h removed|h|h]; cbn [lock_step].
  - destruct (d_at d !! h) eqn:Hl, fails; intros [= <- <-]; [|by apply inv_open].
    split; rewrite ?last_left_snoc; try apply I.
    + intros pid E. destruct (inv_left _ _ I _ E); [by left|right; by apply left_behind_snoc].
    + intros k prev Hk. destruct (inv_read _ _ I _ _ Hk) as [|[? ?]]; [by left|right]. set_solver.
    + intros k pid Hk. apply left_behind_snoc. by eapply inv_found.
  - destruct (d_at d !! h) as [[]|] eqn:Hl; try by destruct fails. destruct fails as [e|]; [|destruct (d_holder d) eqn:Hh].
    + intros [= <- _]. apply inv_close; [done|by rewrite last_left_snoc|congruence].
    + intros [= <- _]. apply inv_close; [done|by rewrite last_left_snoc|congruence].
    + intros [= <- _]. by apply inv_lock.
  - destruct (d_at d !! h) as [[]|] eqn:Hl; try done. intros [= <- _]. eapply inv_move; try done; [by rewrite last_left_snoc|].
    intros prev [= <-]. destruct readable; cbn [read_pid_file mbind option_bind]; [|split; [right|done]; split; [done|set_solver]].
    rewrite (read_left t d) by done. split; [by left|]. intros pid E.
    destruct (inv_left _ _ I _ E) as [(k & q & _ & Hk)|]; [|done].
    assert (k = h) as -> by (by eapply (nobody_else t d h Locked)). congruence.
  - destruct (d_at d !! h) as [[]|] eqn:Hl; try by destruct fails. destruct fails as [e|]; intros [= <- _]; [|by apply inv_write].
    apply inv_close; [done|by rewrite last_left_snoc|congruence].
  - destruct (d_at d !! h) as [[]|] eqn:Hl; try done. intros [= <- _]. by eapply inv_remove.
  - destruct (d_at d !! h) as [[]|] eqn:Hl; try done. intros [= <- _]. apply inv_close; [done|by rewrite last_left_snoc|congruence].
  - destruct (d_at d !! h) as [p|] eqn:Hl; [|done]. intros [= <- _]. apply inv_close; [done|by rewrite last_left_snoc|done].
Qed.

Lemma reached_inv t d : reached t d -> inv t d.
Proof. induction 1 as [|t d a d' out _ IH Hs]; [apply inv_fresh|by eapply inv_step]. Qed.

(** C16: whatever the processes that use a state directory do, in whatever order
    their calls happen, fail or are cut short by a crash: at most one of them has
    the lock; while it runs, the pid file names it; the lock is free when no
    holder is left, however the last one ended.  A lock that is acquired reports
    as unclean exactly the pid that was written last and not removed since
    (nothing, when the file could not be read), and what it reports is never the
    pid of a live holder but one whose process died or whose removal of the file
    failed. *)
Theorem lock_protocol t d :
  reached t d ->
  (forall h k p q, d_at d !! h = Some p -> d_at d !! k = Some q -> past_lock p -> past_lock q -> h = k) /\
  (forall h prev, d_at d !! h = Some (Held prev) -> d_pid d = Some (pretty (pid_of h))) /\
  ((forall h p, d_at d !! h = Some p -> p = Opened) -> d_holder d = None) /\
  (forall h d' prev, lock_step (AWrite h None) d = Some (d', Acquired prev) ->
    (prev = last_left t \/ (prev = None /\ ARead h false ∈ t)) /\ (forall pid, prev = Some pid -> left_behind t pid)).
Proof.
  intros I%reached_inv. split; [|split; [|split]].
  - intros h k p q Hh Hk Hp Hq. by eapply (nobody_else t d k q h p).
  - intros h prev Hl. by rewrite (inv_pid _ _ I), (inv_held _ _ I _ _ Hl).
  - intros Hall. destruct (d_holder d) as [h|] eqn:E; [|done]. destruct (inv_holder _ _ I _ E) as (p & Hl & Hp). by destruct Hp; eapply Hall.
  - intros h d' prev. cbn [lock_step]. destruct (d_at d !! h) as [[]|] eqn:Hl; try done. intros [= _ <-].
    split; [by eapply inv_read|]. intros pid ->. by eapply inv_found.
Qed.
End Lock.

(** ** Runs *)

Section Runs.
Context (pid_of : nat -> Z).

Definition run_acts (l : list Act) (d : Dir) : option Dir :=
  foldl (fun d a => d ← d; fst <$> lock_step pid_of "spt.lock" "spt.pid" a d) (Some d) l.

Lemma run_acts_reached l : forall t d d',
  reached pid_of "spt.lock" "spt.pid" t d -> run_acts l d = Some d' -> reached pid_of "spt.lock" "spt.pid" (t ++ l) d'.
Proof.
  induction l as [|a l IH]; intros t d d' Hr; [by intros [= <-]; rewrite app_nil_r|].
  unfold run_acts. cbn [foldl mbind option_bind]. destruct (lock_step _ _ _ a d) as [[d1 out]|] eqn:E; cbn [fmap option_fmap option_map fst].
  - intros Hf. rewrite (cons_middle a), app_assoc. eapply IH; [by eapply reached_step|done].
  - assert (forall k, foldl (fun d a => d ← d; fst <$> lock_step pid_of "spt.lock" "spt.pid" a d) (None : option Dir) k = None) as Hn by (induction k; done).
    by rewrite Hn.
Qed.
End Runs.

Definition demo_pid (h : nat) : Z := 100 + Z.of_nat h mod 1000.

(** The first holder is killed; the second reports it, while a third is turned
    away. *)
Definition demo_crash : list Act :=
  [AOpen 0 None; ATryLock 0 None; ARead 0 true; AWrite 0 None; ACrash 0;
   AOpen 1 None; AOpen 2 None; ATryLock 1 None; ATryLock 2 None; ARead 1 true].

Definition demo_crashed : Dir := default fresh (run_acts demo_pid demo_crash fresh).

Lemma demo_crashed_reached : reached demo_pid "spt.lock" "spt.pid" demo_crash demo_crashed.
Proof. apply (run_acts_reached demo_pid demo_crash [] fresh); [constructor|vm_compute; reflexivity]. Qed.

Lemma demo_pids h : 1 <= demo_pid h <= umax 32.
Proof. unfold demo_pid, umax. pose proof (Z.mod_pos_bound (Z.of_nat h) 1000 ltac:(lia)). lia. Qed.

Lemma lock_protocol_witness :
  (snd <$> lock_step demo_pid "spt.lock" "spt.pid" (AWrite 1 None) demo_crashed) = Some (Acquired (Some 100)) /\ left_behind demo_pid demo_crash 100.
Proof.
  destruct (lock_step demo_pid "spt.lock" "spt.pid" (AWrite 1 None) demo_crashed) as [[d' out]|] eqn:E; [|vm_compute in E; discriminate E].
  assert (out = Acquired (Some 100)) as -> by (vm_compute in E; congruence). split; [reflexivity|].
  exact (proj2 (proj2 (proj2 (proj2 (lock_protocol demo_pid "spt.lock" "spt.pid" demo_pids demo_crash demo_crashed demo_crashed_reached)))
    1%nat d' (Some 100) E) 100 eq_refl).
Defined.

(** A clean shutdown whose removal of the pid file fails is reported as an
    unclean one. *)
Example failed_removal_looks_unclean :
  let acts := [AOpen 0 None; ATryLock 0 None; ARead 0 true; AWrite 0 None; ARemove 0 false; AUnlock 0;
               AOpen 1 None; ATryLock 1 None; ARead 1 true] in
  (d ← run_acts demo_pid acts fresh; snd <$> lock_step demo_pid "spt.lock" "spt.pid" (AWrite 1 None) d) = Some (Acquired (Some 100)).
Proof. vm_compute. reflexivity. Qed.
