(* ===== verification/StateFiles.v ===== *)
(** * Files of the state directory

    What the writers of the state directory share: names and their order, a
    directory, the layout ([paths.rs]), atomic replacement ([atomic.rs]) and the
    loop that removes the oldest files ([events.rs], [status.rs]), all of
    [crates/spt-state/src].

    A directory maps names to files and a handle is a file: a file that was
    unlinked while a handle is open still takes what the handle writes, under no
    name.  The calls that may fail take their result as an argument. *)

From S2P Require Import Prelude Text Errors.

(** ** Names *)

(** The order of [str]: by bytes. *)
Fixpoint name_leb (a b : string) : bool :=
  match a, b with
  | EmptyString, _ => true
  | String _ _, EmptyString => false
  | String x a, String y b => if code x <? code y then true else if code x =? code y then name_leb a b else false
  end.

Definition name_le (a b : string) : Prop := name_leb a b = true.
#[export] Instance name_le_dec : RelDecision name_le.
Proof. intros a b. unfold name_le. apply _. Defined.
Definition name_ltb (a b : string) : bool := name_leb a b && negb (a =? b)%string.

(** [Path::extension] of a file name: what follows the last dot, if something
    precedes it. *)
Definition extension (name : string) : option string :=
  if (name =? "..")%string then None
  else '(stem, ext) ← rsplit_once "." name; if (stem =? "")%string then None else Some ext.

Definition has_extension (ext name : string) : bool :=
  match extension name with Some e => (to_ascii_lowercase e =? to_ascii_lowercase ext)%string | None => false end.

(** ** A directory *)

Record Disk := mkDisk {
  dk_names : gmap string nat;
  dk_files : gmap nat string;
  dk_next : nat
}.

Definition no_files : Disk := mkDisk ∅ ∅ 0.

(** What a reader finds under a name. *)
Definition view (k : Disk) (name : string) : option string := i ← dk_names k !! name; dk_files k !! i.

(** A new file takes the name. *)
Definition create (name text : string) (k : Disk) : Disk :=
  mkDisk (<[name := dk_next k]> (dk_names k)) (<[dk_next k := text]> (dk_files k)) (S (dk_next k)).

(** [OpenOptions::new().create(true).append(true).open]. *)
Definition open_append (name : string) (k : Disk) : Disk * nat :=
  match dk_names k !! name with
  | Some i => (k, i)
  | None => (create name "" k, dk_next k)
  end.

Definition append_to (i : nat) (text : string) (k : Disk) : Disk :=
  mkDisk (dk_names k) (alter (fun c => c +:+ text)%string i (dk_files k)) (dk_next k).

Definition unlink (name : string) (k : Disk) : Disk := mkDisk (delete name (dk_names k)) (dk_files k) (dk_next k).

(** [atomic::write_atomic]: the file is replaced as a whole, or not at all. *)
Definition write_atomic (path : string) (text : string) (fails : option string) (k : Disk) : Result Error unit * Disk :=
  match fails with
  | None => (Ok tt, create path text k)
  | Some e => (Err (StateLockFailed path ("atomic write failed: " +:+ e)), k)
  end.

(** [Path::join] of a relative name. *)
Definition join (dir name : string) : string := (dir +:+ "/" +:+ name)%string.

(** The name of an entry of [dir]. *)
Definition name_in (dir path : string) : option string :=
  name ← strip_prefix (dir +:+ "/") path; if contains_char "/" name then None else Some name.

(** The entries of [dir] that [mine] claims, by name. *)
Definition listed (dir : string) (mine : string -> bool) (k : Disk) : list string :=
  merge_sort name_le (List.filter mine (omap (fun e => name_in dir e.1) (map_to_list (dk_names k)))).

(** The first names go while more than [keep] are left. *)
Fixpoint prune_loop (dir : string) (keep : nat) (removable : string -> bool) (sorted : list string) (k : Disk) : Disk :=
  match sorted with
  | [] => k
  | p :: rest =>
      if (keep <? length sorted)%nat
      then prune_loop dir keep removable rest (if removable p then unlink (join dir p) k else k)
      else k
  end.

(** ** The layout ([paths.rs]) *)

Definition status_path (dir : string) : string := join dir "status.json".
Definition status_ring_path (dir ts : string) : string := join dir ("status." +:+ ts +:+ ".json").
Definition runtime_path (dir : string) : string := join dir "runtime.json".
Definition events_dir (dir : string) : string := join dir "events".
Definition events_file (dir date : string) : string := join (events_dir dir) (date +:+ ".jsonl").

(** ** The order of names *)

Lemma name_leb_refl a : name_leb a a = true.
Proof. induction a as [|x a IH]; [done|]. cbn [name_leb]. by rewrite Z.ltb_irrefl, Z.eqb_refl. Qed.

Lemma name_leb_antisym a b : name_leb a b = true -> name_leb b a = true -> a = b.
Proof.
  revert b. induction a as [|x a IH]; intros [|y b]; cbn [name_leb]; try done.
  destruct (Z.ltb_spec (code x) (code y)), (Z.ltb_spec (code y) (code x)), (Z.eqb_spec (code x) (code y)), (Z.eqb_spec (code y) (code x)); try lia; try done.
  intros H1 H2. f_equal; [|by apply IH]. unfold code in *. rewrite <- (ascii_nat_embedding x), <- (ascii_nat_embedding y). f_equal. lia.
Qed.

Lemma name_leb_trans a b c : name_leb a b = true -> name_leb b c = true -> name_leb a c = true.
Proof.
  revert b c. induction a as [|x a IH]; intros [|y b] [|z c]; cbn [name_leb]; try done.
  repeat case_match; try lia; try done. apply IH.
Qed.

Lemma name_leb_total a b : name_leb a b = true \/ name_leb b a = true.
Proof.
  revert b. induction a as [|x a IH]; intros [|y b]; cbn [name_leb]; [by left|by left|by right|].
  destruct (Z.ltb_spec (code x) (code y)); [by left|]. destruct (Z.ltb_spec (code y) (code x)); [by right|].
  rewrite !(proj2 (Z.eqb_eq _ _)) by lia. apply IH.
Qed.

#[export] Instance name_le_trans : Transitive name_le.
Proof. intros a b c. apply name_leb_trans. Qed.
#[export] Instance name_le_total : Total name_le.
Proof. intros a b. apply name_leb_total. Qed.

Lemma name_ltb_spec a b : name_ltb a b = true <-> name_le a b /\ a <> b.
Proof. unfold name_ltb. by rewrite andb_true_iff, negb_true_iff, String.eqb_neq. Qed.

Lemma name_ltb_not_le a b : name_ltb a b = false <-> name_le b a.
Proof.
  unfold name_ltb. destruct (name_leb a b) eqn:E, (String.eqb_spec a b) as [->|Hn]; cbn.
  - split; [intros _; apply name_leb_refl|done].
  - split; [done|]. intros H. by destruct Hn; apply name_leb_antisym.
  - by rewrite name_leb_refl in E.
  - split; [|done]. intros _. destruct (name_leb_total a b); [congruence|done].
Qed.

(** ** Pruning by name *)

(** How many of [l] come after [n]. *)
Definition after (l : list string) (n : string) : nat := length (List.filter (name_ltb n) l).

Lemma after_perm l l' n : Permutation l l' -> after l n = after l' n.
Proof. unfold after. induction 1; cbn [List.filter]; repeat case_match; cbn [length]; congruence. Qed.

(** In order and without repetition, the names before the last [keep] are those
    with [keep] or more names after them. *)
Lemma take_oldest keep l n :
  StronglySorted name_le l -> NoDup l -> n ∈ l -> n ∈ take (length l - keep) l <-> (keep <= after l n)%nat.
Proof.
  intros Hs. induction Hs as [|x l Hs IH Hx]; intros Hd Hn; [by apply elem_of_nil in Hn|].
  apply NoDup_cons in Hd as [Hnx Hd]. unfold after. cbn [List.filter]. apply elem_of_cons in Hn as [->|Hn].
  - assert (name_ltb x x = false) as -> by (apply name_ltb_not_le, name_leb_refl).
    rewrite (forallb_filter_id (name_ltb x) l); cbn [length].
    + split.
      * destruct (S (length l) - keep)%nat eqn:E; cbn [take]; [by intros ?%elem_of_nil|]. lia.
      * intros Hk. rewrite Nat.sub_succ_l by done. cbn [take]. apply list_elem_of_here.
    + apply forallb_forall. intros y Hy%list_elem_of_In. rewrite Forall_forall in Hx. apply name_ltb_spec. split; [by apply Hx|congruence].
  - rewrite Forall_forall in Hx. assert (name_ltb n x = false) as -> by (by apply name_ltb_not_le, Hx).
    fold (after l n). rewrite <- IH by done. cbn [length].
    destruct (decide (keep <= length l)%nat) as [Hk|Hk].
    + rewrite Nat.sub_succ_l by done. cbn [take]. rewrite elem_of_cons. split; [intros [->|]; done|by right].
    + replace (S (length l) - keep)%nat with 0%nat by lia. replace (length l - keep)%nat with 0%nat by lia. done.
Qed.

(** ** What a reader finds *)

(** Two names are two files, and every name has one. *)
Definition disk_ok (k : Disk) : Prop :=
  (forall a b i, dk_names k !! a = Some i -> dk_names k !! b = Some i -> a = b) /\
  (forall a i, dk_names k !! a = Some i -> (i < dk_next k)%nat /\ is_Some (dk_files k !! i)).

Lemma view_some k a : disk_ok k -> is_Some (view k a) <-> is_Some (dk_names k !! a).
Proof.
  intros [_ Hk]. unfold view. destruct (dk_names k !! a) as [i|] eqn:E; cbn; [|split; intros []; done]. destruct (Hk _ _ E) as [_ H]. split; [eauto|by intros _].
Qed.

Lemma create_ok name text k : disk_ok k -> disk_ok (create name text k).
Proof.
  intros [Hi Hk]. split; cbn.
  - intros a b i Ha Hb. apply lookup_insert_Some in Ha as [[<- <-]|[Hna Ha]]; apply lookup_insert_Some in Hb as [[<- ?]|[Hnb Hb]]; try done.
    + apply Hk in Hb as [Hb _]. lia.
    + subst. apply Hk in Ha as [Ha _]. lia.
    + by eapply Hi.
  - intros a i Ha. apply lookup_insert_Some in Ha as [[<- <-]|[Hna Ha]].
    + split; [lia|]. rewrite lookup_insert_eq. eauto.
    + apply Hk in Ha as [Hl Hs]. split; [lia|]. rewrite lookup_insert_ne by lia. done.
Qed.

Lemma view_create name text k a : disk_ok k -> view (create name text k) a = if (a =? name)%string then Some text else view k a.
Proof.
  intros [_ Hk]. unfold view. cbn. destruct (String.eqb_spec a name) as [->|Hn]; [by rewrite lookup_insert_eq; cbn; rewrite lookup_insert_eq|].
  rewrite lookup_insert_ne by done. destruct (dk_names k !! a) as [i|] eqn:E; [|done]. cbn. rewrite lookup_insert_ne; [done|]. apply Hk in E as [E _]. lia.
Qed.

Lemma append_ok i text k : disk_ok k -> disk_ok (append_to i text k).
Proof. intros [Hi Hk]. split; cbn; [done|]. intros a j Ha. destruct (Hk _ _ Ha) as [Hl Hs]. split; [done|]. by rewrite lookup_alter_is_Some. Qed.

Lemma view_append i text k name a :
  disk_ok k -> dk_names k !! name = Some i ->
  view (append_to i text k) a = if (a =? name)%string then (fun c => c +:+ text)%string <$> view k a else view k a.
Proof.
  intros [Hi Hk] Hn. unfold view. cbn. destruct (String.eqb_spec a name) as [->|Ha]; [rewrite Hn; cbn; by rewrite lookup_alter_eq|].
  destruct (dk_names k !! a) as [j|] eqn:E; [|done]. cbn. rewrite lookup_alter_ne; [done|]. intros <-. by destruct Ha; eapply Hi.
Qed.

Lemma unlink_ok name k : disk_ok k -> disk_ok (unlink name k).
Proof.
  intros [Hi Hk]. split; cbn.
  - intros a b i Ha Hb. apply lookup_delete_Some in Ha as [_ Ha]. apply lookup_delete_Some in Hb as [_ Hb]. by eapply Hi.
  - intros a i Ha. apply lookup_delete_Some in Ha as [_ Ha]. by eapply Hk.
Qed.

Lemma view_unlink name k a : view (unlink name k) a = if (a =? name)%string then None else view k a.
Proof.
  unfold view. cbn. destruct (String.eqb_spec a name) as [->|Hn]; [by rewrite lookup_delete_eq|by rewrite lookup_delete_ne].
Qed.

(** Opening to append creates at most an empty file. *)
Lemma open_append_spec name k :
  disk_ok k -> let '(k', i) := open_append name k in
  disk_ok k' /\ dk_names k' !! name = Some i /\ (forall a, dk_names k !! a = None -> a <> name -> dk_names k' !! a = None) /\
  (forall a, view k' a = if (a =? name)%string then Some (default "" (view k a)) else view k a).
Proof.
  intros Hk. unfold open_append. destruct (dk_names k !! name) as [i|] eqn:E.
  - split; [done|]. split; [done|]. split; [done|]. intros a. destruct (String.eqb_spec a name) as [->|]; [|done].
    unfold view. rewrite E. cbn. destruct (proj2 Hk _ _ E) as [_ [c ->]]. done.
  - split; [by apply create_ok|]. split; [cbn; apply lookup_insert_eq|]. split; [intros a Ha Hn; cbn; by rewrite lookup_insert_ne|].
    intros a. rewrite view_create by done. destruct (String.eqb_spec a name) as [->|]; [|done]. unfold view. by rewrite E.
Qed.

(** ** Directories *)

Lemma name_in_join dir n : no_char "/" n = true -> name_in dir (join dir n) = Some n.
Proof.
  intros Hn. unfold name_in, join. rewrite <- str_app_assoc, strip_prefix_app. cbn [mbind option_bind]. unfold contains_char. by rewrite Hn.
Qed.

Lemma name_in_some dir p n : name_in dir p = Some n <-> p = join dir n /\ no_char "/" n = true.
Proof.
  split; [|intros [-> Hn]; by apply name_in_join]. unfold name_in, join. destruct (strip_prefix (dir +:+ "/") p) as [m|] eqn:E; [|done]. cbn [mbind option_bind].
  unfold contains_char. destruct (no_char "/" m) eqn:Hm; [|done]. intros [= ->]. apply strip_prefix_spec in E. by rewrite E, <- str_app_assoc.
Qed.

Lemma join_inj dir a b : join dir a = join dir b -> a = b.
Proof. unfold join. intros H. rewrite <- !str_app_assoc in H. pose proof (strip_prefix_app (dir +:+ "/") a) as E. rewrite H, strip_prefix_app in E. congruence. Qed.

Lemma elem_of_listed dir mine k n :
  n ∈ listed dir mine k <-> mine n = true /\ no_char "/" n = true /\ is_Some (dk_names k !! join dir n).
Proof.
  unfold listed. rewrite merge_sort_Permutation, list_elem_of_In, filter_In, <- list_elem_of_In, list_elem_of_omap. split.
  - intros [((p & i) & Hp & Hn) Hm]. apply elem_of_map_to_list in Hp. cbn in Hn. apply name_in_some in Hn as [-> Hn]. eauto.
  - intros (Hm & Hn & i & Hi). split; [|done]. exists (join dir n, i). split; [by apply elem_of_map_to_list|]. by apply name_in_join.
Qed.

Lemma listed_sorted dir mine k : StronglySorted name_le (listed dir mine k).
Proof. apply Sorted_StronglySorted; [apply _|]. apply (Sorted_merge_sort name_le). Qed.

Lemma listed_nodup dir mine k : NoDup (listed dir mine k).
Proof.
  unfold listed. rewrite merge_sort_Permutation. apply NoDup_ListNoDup, List.NoDup_filter, NoDup_ListNoDup.
  pose proof (NoDup_fst_map_to_list (dk_names k)) as Hd. revert Hd. generalize (map_to_list (dk_names k)) as l.
  induction l as [|[p i] l IH]; intros Hd; [constructor|]. cbn in *. apply NoDup_cons in Hd as [Hp Hd].
  destruct (name_in dir p) as [n|] eqn:E; [|by apply IH]. apply NoDup_cons. split; [|by apply IH].
  rewrite list_elem_of_omap. intros ([q j] & Hq & En). cbn in En. apply name_in_some in E as [-> _]. apply name_in_some in En as [-> _].
  destruct Hp. apply list_elem_of_fmap. by exists (join dir n, j).
Qed.

(** ** The prune loop *)

Lemma prune_loop_take dir keep removable sorted k :
  prune_loop dir keep removable sorted k
  = foldl (fun k p => if removable p then unlink (join dir p) k else k) k (take (length sorted - keep) sorted).
Proof.
  revert k. induction sorted as [|p rest IH]; intros k; [done|]. cbn [prune_loop length].
  destruct (Nat.ltb_spec keep (S (length rest))) as [Hlt|Hge].
  - rewrite IH, Nat.sub_succ_l by lia. done.
  - by replace (S (length rest) - keep)%nat with 0%nat by lia.
Qed.

Lemma unlink_all_spec dir l k :
  disk_ok k -> let k' := foldl (fun k p => unlink (join dir p) k) k l in
  disk_ok k' /\ (forall a, view k' a = if decide (a ∈ join dir <$> l) then None else view k a) /\
  (forall a, dk_names k' !! a = if decide (a ∈ join dir <$> l) then None else dk_names k !! a).
Proof.
  revert k. induction l as [|p l IH]; intros k Hk k'.
  { split; [done|]. split; intros a; by rewrite decide_False by apply not_elem_of_nil. }
  destruct (IH (unlink (join dir p) k) (unlink_ok _ _ Hk)) as (Hk' & Hv & Hn). split; [done|]. split; intros a; subst k'; cbn [foldl].
  - rewrite Hv, view_unlink. destruct (String.eqb_spec a (join dir p)) as [->|Ha]; [by repeat case_decide; set_solver|].
    apply decide_ext. set_solver.
  - rewrite Hn. cbn. destruct (decide (a = join dir p)) as [->|Ha]; [rewrite lookup_delete_eq; by repeat case_decide; set_solver|].
    rewrite lookup_delete_ne by done. apply decide_ext. set_solver.
Qed.

(** Whatever can be removed is, from the oldest on, until [keep] are left. *)
Lemma prune_spec dir mine keep k :
  disk_ok k -> let k' := prune_loop dir keep (fun _ => true) (listed dir mine k) k in
  let gone a := exists n, name_in dir a = Some n /\ mine n = true /\ is_Some (dk_names k !! a) /\ (keep <= after (listed dir mine k) n)%nat in
  disk_ok k' /\ (forall a, gone a -> view k' a = None /\ dk_names k' !! a = None) /\
  (forall a, ~ gone a -> view k' a = view k a /\ dk_names k' !! a = dk_names k !! a).
Proof.
  intros Hk k' gone. subst k'. rewrite prune_loop_take. cbv beta iota.
  destruct (unlink_all_spec dir (take (length (listed dir mine k) - keep) (listed dir mine k)) k Hk) as (Hk' & Hv & Hn).
  assert (forall a, a ∈ join dir <$> take (length (listed dir mine k) - keep) (listed dir mine k) <-> gone a) as Hg.
  { intros a. rewrite list_elem_of_fmap. split.
    - intros (n & -> & Ht). pose proof (subseteq_take _ _ _ Ht) as Hl. pose proof (proj1 (elem_of_listed _ _ _ _) Hl) as (Hm & Hs & Hi).
      exists n. repeat split; [by apply name_in_join|done|done|]. by apply take_oldest; [apply listed_sorted|apply listed_nodup| |].
    - intros (n & Ha & Hm & Hi & Hc). apply name_in_some in Ha as [-> Hs]. exists n. split; [done|].
      apply take_oldest; [apply listed_sorted|apply listed_nodup|by apply elem_of_listed|done]. }
  split; [done|]. split; intros a Ha; rewrite Hv, Hn.
  - rewrite !decide_True by by apply Hg. done.
  - rewrite !decide_False by by rewrite Hg. done.
Qed.

(** ** What stays *)

(** The names of [l] that stay when [retain] may: all of them when it is zero. *)
Definition kept (retain : nat) (l : list string) (n : string) : Prop := n ∈ l /\ (retain = 0%nat \/ (after l n < retain)%nat).
#[export] Instance kept_dec retain l n : Decision (kept retain l n).
Proof. unfold kept. apply _. Defined.

Lemma after_le l l' n : NoDup l -> (forall m, m ∈ l -> name_ltb n m = true -> m ∈ l') -> (after l n <= after l' n)%nat.
Proof.
  intros Hd Hs. unfold after. apply NoDup_incl_length; [apply List.NoDup_filter, NoDup_ListNoDup, Hd|].
  intros m [Hm Hlt]%filter_In. apply filter_In. split; [|done]. apply list_elem_of_In, Hs; [by apply list_elem_of_In|done].
Qed.

Lemma after_anti l n m : NoDup l -> name_ltb n m = true -> (after l m <= after l n)%nat.
Proof.
  intros Hd [Hle Hne]%name_ltb_spec. unfold after. apply NoDup_incl_length; [apply List.NoDup_filter, NoDup_ListNoDup, Hd|].
  intros q [Hq [Hlt Hnq]%name_ltb_spec]%filter_In. apply filter_In. split; [done|]. apply name_ltb_spec. split; [by etrans|].
  intros ->. by destruct Hne; apply name_leb_antisym.
Qed.

Lemma after_max l n : (forall m, m ∈ l -> name_le m n) -> after l n = 0%nat.
Proof.
  intros Hm. unfold after. induction l as [|x l IH]; [done|]. cbn [List.filter].
  rewrite (proj2 (name_ltb_not_le n x)) by (apply Hm; set_solver). apply IH. set_solver.
Qed.

Lemma kept_same retain l l' n : NoDup l -> NoDup l' -> (forall m, m ∈ l <-> m ∈ l') -> kept retain l n <-> kept retain l' n.
Proof. intros Hd Hd' He. unfold kept. by rewrite He, (after_perm l l' n) by by apply NoDup_Permutation. Qed.

(** Keeping again after the newest name came is keeping once. *)
Lemma kept_again retain l l' x d n :
  NoDup l -> NoDup l' -> NoDup x -> (forall m, m ∈ l <-> m = d \/ kept retain x m) -> (forall m, m ∈ l' <-> m = d \/ m ∈ x) ->
  (forall m, m ∈ l' -> name_le m d) -> kept retain l n <-> kept retain l' n.
Proof.
  intros Hd Hd' Hx Hl Hl' Hmax. split; intros [Hn Hk].
  - split; [apply Hl'; apply Hl in Hn as [->|[Hn _]]; [by left|by right]|]. destruct Hk as [->|Hk]; [by left|right].
    apply Hl in Hn as [->|[Hn Hkx]]; [rewrite after_max by done; lia|]. eapply Nat.le_lt_trans; [|exact Hk]. apply after_le; [done|].
    intros m Hm Hlt. apply Hl. apply Hl' in Hm as [->|Hm]; [by left|right]. split; [done|]. destruct Hkx as [?|Hkx]; [by left|right].
    eapply Nat.le_lt_trans; [by apply after_anti, Hlt|exact Hkx].
  - assert (forall m, m ∈ l -> m ∈ l') as Hsub by (intros m Hm; apply Hl'; apply Hl in Hm as [->|[? _]]; [by left|by right]).
    split; [|destruct Hk as [->|Hk]; [by left|right; eapply Nat.le_lt_trans; [|exact Hk]; apply after_le; [done|]; intros m Hm _; by apply Hsub]].
    apply Hl. apply Hl' in Hn as [->|Hn]; [by left|right]. split; [done|]. destruct Hk as [?|Hk]; [by left|right].
    eapply Nat.le_lt_trans; [|exact Hk]. apply after_le; [done|]. intros m Hm _. apply Hl'. by right.
Qed.
