(* ===== verification/EventLog.v ===== *)
(** * The event log

    Models [crates/spt-state/src/events.rs]: the bounded channel, its writer and
    the daily files, with the removal of the oldest ones. *)

From S2P Require Import Prelude Text Calendar Errors StateFiles.

(** The day of an instant in nanoseconds; dates are those of the calendar
    ([civil_days]). *)
Abbreviation DayKey := (Z * Z * Z)%type.
Definition DayKey_from (ts : Z) : DayKey := civil_from_days (ts / 1000000000 / 86400).
Definition to_string_iso (d : DayKey) : string :=
  let '(y, m, d) := d in (zero_padded 4 y +:+ "-" +:+ zero_padded 2 m +:+ "-" +:+ zero_padded 2 d)%string.

(** The file of the current day. *)
Abbreviation Current := (option (DayKey * nat)).

Section EventLog.
(** The state directory, and the line [serde_json] makes of an event, if it can. *)
Context {Event : Type} (dir : string) (ev_ts : Event -> Z) (to_line : Event -> option string).

Record EventRingConfig := mkEventRingConfig { channel_capacity : nat; retain_days : nat }.
Definition EventRingConfig_default : EventRingConfig := mkEventRingConfig 1024 14.

(** What the calls of one write return: whether the file opens, whether the
    directory can be listed, which files can be removed, and where a write that
    fails breaks off. *)
Record EvIo := mkEvIo {
  io_open : option string;
  io_read_dir : bool;
  io_remove : string -> bool;
  io_write : option (nat * string)
}.

Definition is_log (name : string) : bool := has_extension "jsonl" name.

Definition prune_old (retain : nat) (io : EvIo) (k : Disk) : Disk :=
  if (retain =? 0)%nat then k
  else if io_read_dir io then
    let sorted := listed (events_dir dir) is_log k in
    if (length sorted <=? retain)%nat then k
    else prune_loop (events_dir dir) retain (io_remove io) sorted k
  else k.

Definition write_line (io : EvIo) (path : string) (i : nat) (ev : Event) (cur : Current) (k : Disk) : Result Error unit * Current * Disk :=
  match to_line ev with
  | None => (Err (RuntimeFailure "serialize event"), cur, k)
  | Some json =>
      let line := (json +:+ String newline "")%string in
      match io_write io with
      | None => (Ok tt, cur, append_to i line k)
      | Some (n, e) => (Err (StateLockFailed path ("event append: " +:+ e)), cur, append_to i (substring 0 n line) k)
      end
  end.

Definition write_one (cfg : EventRingConfig) (io : EvIo) (ev : Event) (cur : Current) (k : Disk) : Result Error unit * Current * Disk :=
  let day := DayKey_from (ev_ts ev) in
  let path := events_file dir (to_string_iso day) in
  let need_open := match cur with Some (cur_day, _) => negb (bool_decide (cur_day = day)) | None => true end in
  if need_open then
    match io_open io with
    | Some e => (Err (StateLockFailed path ("open event file: " +:+ e)), cur, k)
    | None => let '(k, i) := open_append path k in write_line io path i ev (Some (day, i)) (prune_old (retain_days cfg) io k)
    end
  else match cur with
       | Some (_, i) => write_line io path i ev cur k
       | None => (Ok tt, cur, k)
       end.

(** The ring: the channel, whether the end was signalled, and its writer. *)
Inductive Writer := Running | Draining | Drained | Gone.

Record Ring := mkRing {
  rg_queue : list Event;
  rg_signalled : bool;
  rg_writer : Writer;
  rg_current : Current;
  rg_disk : Disk
}.

Definition ring_spawn (k : Disk) : Ring := mkRing [] false Running None k.

(** [append]: the channel takes the event if the writer still has it and there is
    room. *)
Definition append (cfg : EventRingConfig) (ev : Event) (r : Ring) : bool * Ring :=
  match rg_writer r with
  | Gone => (false, r)
  | _ => if (length (rg_queue r) <? channel_capacity cfg)%nat
         then (true, mkRing (rg_queue r ++ [ev]) (rg_signalled r) (rg_writer r) (rg_current r) (rg_disk r))
         else (false, r)
  end.

Definition signal_shutdown (r : Ring) : Ring := mkRing (rg_queue r) true (rg_writer r) (rg_current r) (rg_disk r).

(** The next event of the channel is written; an error is only logged. *)
Definition take_one (cfg : EventRingConfig) (io : EvIo) (ev : Event) (queue : list Event) (r : Ring) : Ring :=
  let '(_, cur, k) := write_one cfg io ev (rg_current r) (rg_disk r) in mkRing queue (rg_signalled r) (rg_writer r) cur k.

Definition at_writer (w : Writer) (r : Ring) : Ring := mkRing (rg_queue r) (rg_signalled r) w (rg_current r) (rg_disk r).

(** One step of [run_writer]: the signal comes first; a drain ends when the
    channel is empty, and the channel closes after it. *)
Definition writer_step (cfg : EventRingConfig) (io : EvIo) (r : Ring) : Ring :=
  match rg_writer r, rg_signalled r, rg_queue r with
  | Running, true, _ => at_writer Draining r
  | Running, false, ev :: q => take_one cfg io ev q r
  | Running, false, [] => r
  | Draining, _, ev :: q => take_one cfg io ev q r
  | Draining, _, [] => at_writer Drained r
  | Drained, _, _ => at_writer Gone r
  | Gone, _, _ => r
  end.
End EventLog.

(** ** What the log holds *)

Section EventLogProofs.
Context {Event : Type} (dir : string) (ev_ts : Event -> Z) (to_line : Event -> option string) (cfg : EventRingConfig) (k0 : Disk).

Definition day_name (ev : Event) : string := (to_string_iso (DayKey_from (ev_ts ev)) +:+ ".jsonl")%string.
Definition log_names (k : Disk) : list string := listed (events_dir dir) is_log k.

(** The names that were or came, and what was written under one of them. *)
Definition seen (w : list Event) : list string := remove_dups (log_names k0 ++ (day_name <$> w)).
Definition line_text (ev : Event) : string := (default "" (to_line ev) +:+ String newline "")%string.
Fixpoint day_text (n : string) (w : list Event) : string :=
  match w with
  | [] => ""
  | ev :: w => if (day_name ev =? n)%string then (line_text ev +:+ day_text n w)%string else day_text n w
  end.

(** The log after the events [w]: of the newest days, what was there and their
    lines in order. *)
Definition log_spec (w : list Event) (n : string) : option string :=
  match w with
  | [] => view k0 (join (events_dir dir) n)
  | _ => if decide (kept (retain_days cfg) (seen w) n)
         then Some (default "" (view k0 (join (events_dir dir) n)) +:+ day_text n w)%string
         else None
  end.

(** Days come in order, and none before the files that are there. *)
Definition in_order (w : list Event) : Prop :=
  StronglySorted name_le (day_name <$> w) /\ Forall (fun ev => forall n, n ∈ log_names k0 -> name_le n (day_name ev)) w.

Record log_inv (w : list Event) (cur : Current) (k : Disk) : Prop := {
  li_ok : disk_ok k;
  li_log n : is_log n = true -> no_char "/" n = true -> view k (join (events_dir dir) n) = log_spec w n;
  li_other a : (forall n, name_in (events_dir dir) a = Some n -> is_log n = false) -> view k a = view k0 a;
  li_current : match cur with
               | None => w = []
               | Some (day, i) => exists ev, last w = Some ev /\ day = DayKey_from (ev_ts ev) /\ dk_names k !! join (events_dir dir) (day_name ev) = Some i
               end
}.

Lemma iso_no_char c d : digit_val c = None -> Ascii.eqb "-" c = false -> no_char c (to_string_iso d) = true.
Proof. intros Hd Hm. destruct d as [[y m] d]. cbn [to_string_iso]. rewrite !no_char_app, !zero_padded_no_char by done. cbn [no_char]. by rewrite Hm. Qed.

Lemma day_name_ok ev : is_log (day_name ev) = true /\ no_char "/" (day_name ev) = true.
Proof.
  unfold is_log, has_extension, extension, day_name. set (s := to_string_iso _).
  assert (no_char "." s = true) as Hd by by apply iso_no_char. assert (s <> ""%string) as Hne.
  { subst s. destruct (DayKey_from (ev_ts ev)) as [[y m] d]. cbn [to_string_iso]. intros E. apply (f_equal String.length) in E. rewrite !string_length_app in E. cbn in E. lia. }
  assert (no_char "/" s = true) as Hs by by apply iso_no_char. split.
  - destruct (String.eqb_spec (s +:+ ".jsonl") "..") as [E|_].
    { apply (f_equal String.length) in E. rewrite string_length_app in E. cbn in E. lia. }
    change ".jsonl"%string with (String "." "jsonl"). rewrite rsplit_once_app by done. cbn [mbind option_bind]. by rewrite (proj2 (String.eqb_neq _ _)) by done.
  - rewrite no_char_app, Hs. done.
Qed.

Lemma elem_of_seen w n : n ∈ seen w <-> n ∈ log_names k0 \/ n ∈ day_name <$> w.
Proof. unfold seen. by rewrite elem_of_remove_dups, elem_of_app. Qed.

Lemma seen_nodup w : NoDup (seen w).
Proof. apply NoDup_remove_dups. Qed.

Lemma in_order_snoc w ev : in_order (w ++ [ev]) -> in_order w /\ (forall m, m ∈ seen (w ++ [ev]) -> name_le m (day_name ev)).
Proof.
  intros [Hs Hb]. rewrite fmap_app in Hs. cbn in Hs. apply Forall_app in Hb as [Hb Hev].
  split; [split; [by apply StronglySorted_app_1_l in Hs|done]|]. intros m. rewrite elem_of_seen, fmap_app, elem_of_app. apply Forall_inv in Hev.
  intros [Hm|[Hm|Hm]]; [by apply Hev| |].
  - by eapply StronglySorted_app_1_elem_of; [exact Hs|done|set_solver].
  - apply list_elem_of_singleton in Hm as ->. apply name_leb_refl.
Qed.

Lemma day_text_snoc n w ev : day_text n (w ++ [ev]) = (day_text n w +:+ (if (day_name ev =? n)%string then line_text ev else ""))%string.
Proof.
  induction w as [|e w IH]; cbn [day_text app]; [destruct (_ =? _)%string; by rewrite ?str_app_nil|]. destruct (day_name e =? n)%string; [|done].
  by rewrite IH, str_app_assoc.
Qed.

Lemma day_text_unseen n w : n ∉ day_name <$> w -> day_text n w = ""%string.
Proof. induction w as [|e w IH]; [done|]. intros Hn. cbn [day_text]. rewrite (proj2 (String.eqb_neq _ _)) by set_solver. apply IH. set_solver. Qed.

(** Every call succeeds. *)
Definition io_good : EvIo := mkEvIo None true (fun _ => true) None.

Lemma prune_old_good retain k : retain <> 0%nat -> prune_old dir retain io_good k = prune_loop (events_dir dir) retain (fun _ => true) (log_names k) k.
Proof.
  intros Hr. unfold prune_old. rewrite (proj2 (Nat.eqb_neq _ _)) by done. cbn [io_read_dir io_good io_remove]. fold (log_names k).
  destruct (Nat.leb_spec (length (log_names k)) retain) as [Hle|]; [|done].
  rewrite prune_loop_take. by replace (length (log_names k) - retain)%nat with 0%nat by lia.
Qed.

(** Pruning leaves the newest days of the log and everything else. *)
Lemma prune_old_spec retain k :
  disk_ok k -> let k' := prune_old dir retain io_good k in
  disk_ok k' /\
  (forall n, is_log n = true -> no_char "/" n = true -> view k' (join (events_dir dir) n) = if decide (kept retain (log_names k) n) then view k (join (events_dir dir) n) else None) /\
  (forall n, kept retain (log_names k) n -> dk_names k' !! join (events_dir dir) n = dk_names k !! join (events_dir dir) n) /\
  (forall a, (forall n, name_in (events_dir dir) a = Some n -> is_log n = false) -> view k' a = view k a).
Proof.
  intros Hk. assert (forall n, is_log n = true -> no_char "/" n = true -> n ∉ log_names k -> view k (join (events_dir dir) n) = None) as Hno.
  { intros n Hl Hs Hn. apply eq_None_not_Some. rewrite view_some by done. contradict Hn. by apply elem_of_listed. }
  destruct (decide (retain = 0%nat)) as [->|Hr].
  - split; [done|]. cbn [prune_old Nat.eqb]. split; [|done]. intros n Hl Hs. case_decide as Hd; [done|]. apply Hno; [done|done|]. contradict Hd. split; [done|by left].
  - rewrite prune_old_good by done. destruct (prune_spec (events_dir dir) is_log retain k Hk) as (Hk' & Hg & Hs). fold (log_names k) in *.
    split; [done|]. split; [|split].
    + intros n Hl Hns. case_decide as Hd.
      * apply Hs. intros (m & Hm & _ & _ & Hc). rewrite name_in_join in Hm by done. injection Hm as <-. destruct Hd as [_ [?|?]]; [done|lia].
      * destruct (decide (n ∈ log_names k)) as [Hn|Hn].
        -- apply Hg. exists n. apply elem_of_listed in Hn as (_ & _ & Hi). repeat split; [by apply name_in_join|done|done|].
           destruct (decide (after (log_names k) n < retain)%nat) as [Hlt|]; [|lia]. destruct Hd. split; [|by right]. by apply elem_of_listed.
        -- destruct (Hs (join (events_dir dir) n)) as [-> _]; [|by apply Hno]. intros (m & Hm & Hl' & Hi & _). apply name_in_some in Hm as [Em _].
           apply join_inj in Em as <-. destruct Hn. by apply elem_of_listed.
    + intros n [Hn [?|Hc]]; [done|]. apply Hs. intros (m & Hm & _ & _ & Hc'). apply name_in_some in Hm as [Em _]. apply join_inj in Em as <-. fold (log_names k) in *. lia.
    + intros a Ha. apply Hs. intros (m & Hm & Hl & _). by rewrite (Ha _ Hm) in Hl.
Qed.

(** The names of the log are those the specification has. *)
Lemma log_names_inv w cur k n : log_inv w cur k -> n ∈ log_names k <-> is_log n = true /\ no_char "/" n = true /\ is_Some (log_spec w n).
Proof.
  intros I. unfold log_names. rewrite elem_of_listed. split; intros (Hl & Hs & Hi); (split; [done|split; [done|]]).
  - rewrite <- (li_log _ _ _ I) by done. by apply view_some; [apply I|].
  - apply view_some; [apply I|]. by rewrite (li_log _ _ _ I).
Qed.

Lemma log_names_log k n : n ∈ log_names k -> is_log n = true /\ no_char "/" n = true.
Proof. intros (? & ? & _)%elem_of_listed. done. Qed.

Lemma seen_log w n : n ∈ seen w -> is_log n = true /\ no_char "/" n = true.
Proof.
  intros [Hn|Hn]%elem_of_seen; [by eapply log_names_log|]. apply list_elem_of_fmap in Hn as (ev & -> & _). apply day_name_ok.
Qed.

(** When a day's file is opened, the names that stay are those of the specification. *)
Lemma opened_kept w ev cur k k1 n :
  disk_ok k0 -> log_inv w cur k -> in_order (w ++ [ev]) -> disk_ok k1 ->
  (forall a, view k1 a = if (a =? join (events_dir dir) (day_name ev))%string then Some (default "" (view k a)) else view k a) ->
  kept (retain_days cfg) (log_names k1) n <-> kept (retain_days cfg) (seen (w ++ [ev])) n.
Proof.
  intros H0 I Ho Hk1 Hv. destruct (in_order_snoc _ _ Ho) as [_ Hmax]. destruct (day_name_ok ev) as [Hlog Hslash].
  assert (forall m, m ∈ log_names k1 <-> m = day_name ev \/ m ∈ log_names k) as Hn1.
  { intros m. unfold log_names. rewrite !elem_of_listed, <- !view_some, Hv by (done || apply I). destruct (String.eqb_spec (join (events_dir dir) m) (join (events_dir dir) (day_name ev))) as [E|E].
    - apply join_inj in E as ->. split; [by left|]. intros _. repeat split; [done|done|eauto].
    - split; [by right|]. intros [->|]; done. }
  assert (forall m, m ∈ seen (w ++ [ev]) <-> m = day_name ev \/ m ∈ seen w) as Hsn.
  { intros m. rewrite !elem_of_seen, fmap_app, elem_of_app. cbn. rewrite list_elem_of_singleton. tauto. }
  destruct w as [|e w].
  - apply kept_same; [apply listed_nodup|apply seen_nodup|]. intros m. rewrite Hn1, Hsn, elem_of_seen. cbn [fmap list_fmap].
    rewrite (log_names_inv [] cur k) by done. cbn [log_spec]. rewrite elem_of_nil. unfold log_names. rewrite elem_of_listed, <- view_some by done. tauto.
  - apply (kept_again _ _ _ (seen (e :: w)) (day_name ev)); [apply listed_nodup|apply seen_nodup|apply seen_nodup| |done|done].
    intros m. rewrite Hn1, (log_names_inv (e :: w) cur k) by done. cbn [log_spec]. split; intros [->|Hm]; [by left| |by left|]; right.
    + destruct Hm as (_ & _ & [c Hc]). by case_decide.
    + destruct (seen_log _ _ (proj1 Hm)). repeat split; [done|done|]. rewrite decide_True by done. eauto.
Qed.

Lemma seen_known w ev n : day_name ev ∈ day_name <$> w -> n ∈ seen (w ++ [ev]) <-> n ∈ seen w.
Proof. intros Hd. rewrite !elem_of_seen, fmap_app, elem_of_app. cbn. rewrite list_elem_of_singleton. set_solver. Qed.

Lemma log_spec_snoc w ev n :
  log_spec (w ++ [ev]) n = if decide (kept (retain_days cfg) (seen (w ++ [ev])) n)
                           then Some (default "" (view k0 (join (events_dir dir) n)) +:+ day_text n (w ++ [ev]))%string else None.
Proof. by destruct w. Qed.

(** What a new day's file begins with: what the log had under its name. *)
Lemma opened_text w ev cur k :
  log_inv w cur k -> in_order (w ++ [ev]) ->
  (default "" (view k (join (events_dir dir) (day_name ev))) = default "" (view k0 (join (events_dir dir) (day_name ev))) +:+ day_text (day_name ev) w)%string.
Proof.
  intros I Ho. destruct (day_name_ok ev) as [Hl Hs], (in_order_snoc _ _ Ho) as [_ Hmax]. rewrite (li_log _ _ _ I) by done.
  destruct w as [|e w]; [cbn [log_spec day_text]; by rewrite str_app_nil|]. cbn [log_spec]. case_decide as Hk; [done|]. cbn [default option_map].
  assert (day_name ev ∉ seen (e :: w)) as Hn.
  { intros Hn. destruct Hk. split; [done|]. destruct (decide (retain_days cfg = 0%nat)); [by left|right]. rewrite after_max; [lia|].
    intros m Hm. apply Hmax. rewrite elem_of_seen, fmap_app, elem_of_app in *. tauto. }
  rewrite elem_of_seen in Hn. rewrite day_text_unseen by tauto.
  assert (view k0 (join (events_dir dir) (day_name ev)) = None) as ->; [|done].
  apply eq_None_not_Some. intros [c Hc]. apply Hn. left. apply elem_of_listed. split; [done|]. split; [done|].
  unfold view in Hc. destruct (dk_names k0 !! _); [eauto|done].
Qed.

(** The line goes to the file of the day. *)
Lemma appended w ev i k line :
  disk_ok k -> to_line ev = Some line -> dk_names k !! join (events_dir dir) (day_name ev) = Some i ->
  (forall n, is_log n = true -> no_char "/" n = true ->
    view k (join (events_dir dir) n) = if decide (kept (retain_days cfg) (seen (w ++ [ev])) n)
                                       then Some (default "" (view k0 (join (events_dir dir) n)) +:+ day_text n w)%string else None) ->
  (forall a, (forall n, name_in (events_dir dir) a = Some n -> is_log n = false) -> view k a = view k0 a) ->
  log_inv (w ++ [ev]) (Some (DayKey_from (ev_ts ev), i)) (append_to i (line +:+ String newline "") k).
Proof.
  intros Hk Hline Hi Hv Ho. destruct (day_name_ok ev) as [Hlog Hslash].
  assert (line_text ev = line +:+ String newline "")%string as Hlt by (unfold line_text; by rewrite Hline). split.
  - by apply append_ok.
  - intros n Hn Hs. rewrite (view_append i _ k (join (events_dir dir) (day_name ev))), Hv, log_spec_snoc, day_text_snoc by done.
    destruct (String.eqb_spec (join (events_dir dir) n) (join (events_dir dir) (day_name ev))) as [E|E].
    + apply join_inj in E as ->. rewrite String.eqb_refl, Hlt. case_decide; [|done]. cbn [fmap option_fmap option_map]. by rewrite str_app_assoc.
    + rewrite (proj2 (String.eqb_neq (day_name ev) n)), str_app_nil by congruence. done.
  - intros a Ha. rewrite (view_append i _ k (join (events_dir dir) (day_name ev))) by done.
    rewrite (proj2 (String.eqb_neq _ _)); [by apply Ho|]. intros ->. specialize (Ha _ (name_in_join _ _ Hslash)). congruence.
  - exists ev. by rewrite last_snoc.
Qed.

Lemma seen_other w ev n : n ∈ seen (w ++ [ev]) -> n <> day_name ev -> n ∈ seen w.
Proof. rewrite !elem_of_seen, fmap_app, elem_of_app. cbn. rewrite list_elem_of_singleton. tauto. Qed.

(** An older name that stays was in the log with its text. *)
Lemma kept_text w ev cur k n :
  disk_ok k0 -> log_inv w cur k -> kept (retain_days cfg) (seen (w ++ [ev])) n -> n <> day_name ev ->
  view k (join (events_dir dir) n) = Some (default "" (view k0 (join (events_dir dir) n)) +:+ day_text n w)%string.
Proof.
  intros H0 I Hk Hne. pose proof (seen_other w ev n (proj1 Hk) Hne) as Hsw. destruct (seen_log _ _ Hsw) as [Hl Hs].
  rewrite (li_log _ _ _ I) by done. destruct w as [|e w]; cbn [log_spec].
  - rewrite elem_of_seen in Hsw. destruct Hsw as [Hsw|Hsw]; [|by apply elem_of_nil in Hsw]. apply elem_of_listed in Hsw as (_ & _ & Hsw).
    apply view_some in Hsw as [c ->]; [|done]. cbn. by rewrite str_app_nil.
  - rewrite decide_True; [done|]. split; [done|]. destruct Hk as [_ [?|Hk]]; [by left|right]. eapply Nat.le_lt_trans; [|exact Hk].
    apply after_le; [apply seen_nodup|]. intros m Hm _. rewrite elem_of_seen, fmap_app, elem_of_app in *. tauto.
Qed.

Lemma write_inv w ev cur k line :
  disk_ok k0 -> log_inv w cur k -> in_order (w ++ [ev]) -> to_line ev = Some line ->
  exists cur' k', write_one dir ev_ts to_line cfg io_good ev cur k = (Ok tt, cur', k') /\ log_inv (w ++ [ev]) cur' k'.
Proof.
  intros H0 I Ho Hline. destruct (day_name_ok ev) as [Hlog Hslash], (in_order_snoc _ _ Ho) as [_ Hmax].
  unfold write_one, write_line. rewrite Hline. cbn [io_open io_good io_write].
  change (events_file dir (to_string_iso (DayKey_from (ev_ts ev)))) with (join (events_dir dir) (day_name ev)).
  destruct (match cur with Some (cur_day, _) => negb (bool_decide (cur_day = DayKey_from (ev_ts ev))) | None => true end) eqn:Eneed.
  - pose proof (open_append_spec (join (events_dir dir) (day_name ev)) k (li_ok _ _ _ I)) as Hop.
    destruct (open_append (join (events_dir dir) (day_name ev)) k) as [k1 i]. destruct Hop as (Hk1 & Hi & _ & Hv1).
    pose proof (fun n => opened_kept w ev cur k k1 n H0 I Ho Hk1 Hv1) as Hkept.
    destruct (prune_old_spec (retain_days cfg) k1 Hk1) as (Hk2 & Hl2 & Hn2 & Ho2). set (k2 := prune_old dir (retain_days cfg) io_good k1) in *.
    eexists _, _. split; [done|]. apply appended; [done|done| | |].
    + rewrite Hn2; [done|]. apply Hkept. split; [rewrite elem_of_seen, fmap_app; set_solver|].
      destruct (decide (retain_days cfg = 0%nat)); [by left|right]. rewrite after_max by done. lia.
    + intros n Hn Hs. rewrite Hl2, (decide_ext _ _ _ _ (Hkept n)), Hv1 by done. case_decide as Hk; [|done].
      destruct (String.eqb_spec (join (events_dir dir) n) (join (events_dir dir) (day_name ev))) as [E|E].
      * apply join_inj in E as ->. by rewrite (opened_text w ev cur k).
      * apply (kept_text w ev cur k); [done|done|done|congruence].
    + intros a Ha. assert (a <> join (events_dir dir) (day_name ev)) as Hne by (intros ->; specialize (Ha _ (name_in_join _ _ Hslash)); congruence).
      rewrite Ho2, Hv1, (proj2 (String.eqb_neq _ _)) by done. by apply (li_other _ _ _ I).
  - destruct cur as [[day i]|]; [|done]. destruct (li_current _ _ _ I) as (e & Hlast & -> & Hi).
    apply negb_false_iff, bool_decide_eq_true in Eneed. assert (day_name e = day_name ev) as Ed by (unfold day_name; by rewrite Eneed). rewrite Ed in Hi.
    assert (day_name ev ∈ day_name <$> w) as Hin by (rewrite <- Ed; apply list_elem_of_fmap; exists e; split; [done|by apply last_Some_elem_of]).
    eexists _, _. split; [done|]. rewrite Eneed. apply appended; [apply I|done|done| |apply I].
    intros n Hn Hs. rewrite (li_log _ _ _ I) by done. destruct w as [|e0 w]; [by apply elem_of_nil in Hin|]. cbn [log_spec].
    apply decide_ext, kept_same; [apply seen_nodup|apply seen_nodup|]. intros m. by rewrite seen_known.
Qed.

(** ** Runs of the ring *)

Inductive RingOp := OAppend (ev : Event) | OSignal | OWriter.

(** What callers and the writer do, in whatever order, with the events that were
    accepted. *)
Definition ring_op (s : list Event * Ring) (op : RingOp) : list Event * Ring :=
  match op with
  | OAppend ev => let '(ok, r) := append cfg ev s.2 in (if ok then s.1 ++ [ev] else s.1, r)
  | OSignal => (s.1, signal_shutdown s.2)
  | OWriter => (s.1, writer_step dir ev_ts to_line cfg io_good s.2)
  end.

Definition ring_run (ops : list RingOp) : list Event * Ring := foldl ring_op ([], ring_spawn k0) ops.

(** What was accepted is on disk or in the channel. *)
Definition ring_inv (acc : list Event) (r : Ring) : Prop := exists w, acc = w ++ rg_queue r /\ log_inv w (rg_current r) (rg_disk r).

Definition writable (acc : list Event) : Prop := in_order acc /\ Forall (fun ev => is_Some (to_line ev)) acc.

Lemma writable_app w q : writable (w ++ q) -> writable w.
Proof.
  intros [[Hs Hb] Hl]. rewrite fmap_app in Hs. apply Forall_app in Hb as [Hb _]. apply Forall_app in Hl as [Hl _].
  repeat split; [by apply StronglySorted_app_1_l in Hs|done|done].
Qed.

Lemma take_one_inv w ev q r :
  disk_ok k0 -> log_inv w (rg_current r) (rg_disk r) -> writable (w ++ [ev]) ->
  let r' := take_one dir ev_ts to_line cfg io_good ev q r in
  rg_queue r' = q /\ rg_writer r' = rg_writer r /\ rg_signalled r' = rg_signalled r /\ log_inv (w ++ [ev]) (rg_current r') (rg_disk r').
Proof.
  intros H0 I [Ho Hl]. apply Forall_app in Hl as [_ Hl]. apply Forall_inv in Hl as [line Hline].
  destruct (write_inv w ev _ _ line H0 I Ho Hline) as (cur & k & E & I'). unfold take_one. by rewrite E.
Qed.

Lemma writer_step_inv acc r : disk_ok k0 -> writable acc -> ring_inv acc r -> ring_inv acc (writer_step dir ev_ts to_line cfg io_good r).
Proof.
  intros H0 Hw (w & -> & I). assert (ring_inv (w ++ rg_queue r) r) as Hr by by exists w.
  unfold writer_step. destruct r as [queue sig wr cur k]. cbn [rg_writer rg_signalled rg_queue rg_current rg_disk] in *.
  assert (forall ev q, queue = ev :: q -> ring_inv (w ++ queue) (take_one dir ev_ts to_line cfg io_good ev q (mkRing queue sig wr cur k))) as Ht.
  { intros ev q ->. rewrite cons_middle, app_assoc in Hw. apply writable_app in Hw.
    destruct (take_one_inv w ev q (mkRing (ev :: q) sig wr cur k) H0 I Hw) as (Eq & _ & _ & I'). exists (w ++ [ev]).
    rewrite Eq. split; [by rewrite cons_middle, app_assoc|exact I']. }
  destruct wr, sig, queue as [|ev q]; try done; by apply Ht.
Qed.

Lemma ring_run_inv ops : disk_ok k0 -> writable (ring_run ops).1 -> ring_inv (ring_run ops).1 (ring_run ops).2.
Proof.
  intros H0. unfold ring_run. induction ops as [|op ops IH] using rev_ind.
  - intros _. exists []. split; [done|]. by split.
  - rewrite foldl_app. cbn [foldl]. destruct (foldl ring_op ([], ring_spawn k0) ops) as [acc r]. cbn [fst snd] in *. destruct op as [ev| |]; cbn [ring_op fst snd].
    + unfold append. destruct (rg_writer r) eqn:Ew; try (destruct (_ <? _)%nat); cbn [fst snd]; try apply IH;
        intros Hw; destruct (IH (writable_app _ _ Hw)) as (w & -> & I); exists w; split; try exact I; by rewrite <- app_assoc.
    + intros Hw. destruct (IH Hw) as (w & -> & I). by exists w.
    + intros Hw. apply writer_step_inv; [done|done|by apply IH].
Qed.

(** A drain comes to its end, one event at a time. *)
Lemma drain_ends n : forall acc r,
  disk_ok k0 -> writable acc -> ring_inv acc r -> rg_writer r = Draining -> length (rg_queue r) = n ->
  let r' := Nat.iter (n + 2) (writer_step dir ev_ts to_line cfg io_good) r in rg_writer r' = Gone /\ rg_queue r' = [] /\ ring_inv acc r'.
Proof.
  induction n as [|n IH]; intros acc r H0 Hw Hr Hd Hn.
  - apply nil_length_inv in Hn. change (Nat.iter (0 + 2) ?f r) with (f (f r)). cbv zeta.
    assert (writer_step dir ev_ts to_line cfg io_good r = at_writer Drained r) as -> by (unfold writer_step; by rewrite Hd, Hn).
    change (writer_step dir ev_ts to_line cfg io_good (at_writer Drained r)) with (at_writer Gone (at_writer Drained r)). cbn. done.
  - cbn [Nat.add]. rewrite Nat.iter_succ_r. destruct (rg_queue r) as [|ev q] eqn:Eq; [done|].
    pose proof (writer_step_inv acc r H0 Hw Hr) as Hr'. destruct Hr as (w & -> & I). rewrite Eq, cons_middle, app_assoc in Hw.
    destruct (take_one_inv w ev q r H0 I (writable_app _ _ Hw)) as (Eq' & Ew' & _ & _).
    assert (writer_step dir ev_ts to_line cfg io_good r = take_one dir ev_ts to_line cfg io_good ev q r) as Es by (unfold writer_step; by rewrite Hd, Eq).
    apply IH; [done| |done|by rewrite Es, Ew'|rewrite Es, Eq'; cbn in Hn; congruence]. by rewrite Eq, cons_middle, app_assoc.
Qed.

(** What the log files hold after the events [w], and that nothing else changed. *)
Definition log_holds (w : list Event) (k : Disk) : Prop :=
  (forall n, is_log n = true -> no_char "/" n = true -> view k (join (events_dir dir) n) = log_spec w n) /\
  (forall a, (forall n, name_in (events_dir dir) a = Some n -> is_log n = false) -> view k a = view k0 a).

Lemma inv_holds w cur k : log_inv w cur k -> log_holds w k.
Proof. intros I. split; apply I. Qed.

(** C32: what the event log accepts is written.  As long as every file operation
    succeeds, every event has a line, and the accepted events come in the order
    of their days and not before the days on disk: at every moment of every
    interleaving of appends, the signal and the writer, the accepted events are
    those written, in the order of acceptance, followed by those in the channel;
    what is written is in the file of its day, behind what that file held
    before; the files of the newest [retain_days] days remain, the older ones
    are gone, and no other file changed.  If no event is appended after the
    signal, a writer that was running or draining comes to its end after one
    step per event that is left, and then every accepted event is written.  (What
    is appended later, after the last look at the channel, stays in it.) *)
Theorem event_log_exact ops acc r :
  disk_ok k0 -> ring_run ops = (acc, r) -> writable acc ->
  (exists w, acc = w ++ rg_queue r /\ log_holds w (rg_disk r)) /\
  (rg_writer r = Running \/ rg_writer r = Draining ->
   let r' := Nat.iter (length (rg_queue r) + 3) (writer_step dir ev_ts to_line cfg io_good) (signal_shutdown r) in
   rg_writer r' = Gone /\ rg_queue r' = [] /\ log_holds acc (rg_disk r')).
Proof.
  intros H0 E Hw. pose proof (ring_run_inv ops H0) as Hr. rewrite E in Hr. specialize (Hr Hw). cbn [fst snd] in Hr.
  split; [destruct Hr as (w & -> & I); exists w; by split; [|eapply inv_holds]|]. intros Hst r'.
  assert (rg_writer r' = Gone /\ rg_queue r' = [] /\ ring_inv acc r') as (Hg & Hq & w & -> & I);
    [|rewrite Hq, app_nil_r; split_and!; [done|done|by eapply inv_holds]].
  subst r'. assert (ring_inv acc (signal_shutdown r)) as Hs by exact Hr. destruct Hst as [Hst|Hst].
  - rewrite Nat.add_succ_r, Nat.iter_succ_r. set (r1 := writer_step dir ev_ts to_line cfg io_good (signal_shutdown r)).
    assert (rg_writer r1 = Draining /\ rg_queue r1 = rg_queue r /\ ring_inv acc r1) as (Hd & Hq & Hr1).
    { subst r1. unfold writer_step. cbn [rg_writer rg_signalled signal_shutdown]. rewrite Hst. done. }
    apply (drain_ends (length (rg_queue r)) acc r1 H0 Hw Hr1 Hd (f_equal length Hq)).
  - rewrite Nat.add_succ_r. destruct (drain_ends (length (rg_queue r)) acc (signal_shutdown r) H0 Hw Hs Hst eq_refl) as (Hg & Hq & Hi).
    set (n := (length (rg_queue r) + 2)%nat) in *. change (Nat.iter (S n) ?f ?x) with (f (Nat.iter n f x)). cbv zeta in Hg, Hq, Hi.
    set (r1 := Nat.iter n _ _) in *. assert (writer_step dir ev_ts to_line cfg io_good r1 = r1) as ->; [|done]. unfold writer_step. by rewrite Hg.
Qed.
End EventLogProofs.

(** ** Names and time *)

(** [w] decimal digits. *)
Fixpoint dec (w : nat) (n : Z) : string :=
  match w with
  | O => ""
  | S w => String (ascii_of_nat (Z.to_nat (48 + n / 10 ^ Z.of_nat w))) (dec w (n mod 10 ^ Z.of_nat w))
  end.

Definition padded_is_dec (w : nat) (n : Z) : bool := (zero_padded w n =? dec w n)%string.

Lemma padded_dec w n : (w = 2 \/ w = 4)%nat -> 0 <= n < 10 ^ Z.of_nat w -> zero_padded w n = dec w n.
Proof.
  intros Hw Hn. apply String.eqb_eq. change (padded_is_dec w n = true).
  destruct Hw as [-> | ->]; [apply (forallb_zrange (padded_is_dec 2) 100)|apply (forallb_zrange (padded_is_dec 4) 10000)]; try exact Hn; vm_compute; reflexivity.
Qed.

Lemma digit_code q : 0 <= q < 10 -> code (ascii_of_nat (Z.to_nat (48 + q))) = 48 + q.
Proof. intros Hq. unfold code. rewrite nat_ascii_embedding by lia. lia. Qed.

(** Numbers of one width are in the order of their digits. *)
Lemma dec_order w a b s t :
  0 <= a < 10 ^ Z.of_nat w -> 0 <= b < 10 ^ Z.of_nat w ->
  name_leb (dec w a +:+ s) (dec w b +:+ t) = if a <? b then true else if a =? b then name_leb s t else false.
Proof.
  revert a b. induction w as [|w IH]; intros a b Ha Hb.
  - change (10 ^ Z.of_nat 0) with 1 in *. assert (a = 0) as -> by lia. assert (b = 0) as -> by lia. done.
  - rewrite Nat2Z.inj_succ, Z.pow_succ_r in Ha, Hb by lia. cbn [dec]. rewrite !str_cons_app. cbn [name_leb].
    assert (0 < 10 ^ Z.of_nat w) as Hp by lia. set (p := 10 ^ Z.of_nat w) in *.
    assert (0 <= a / p < 10) as Hqa by (split; [apply Z.div_pos; lia|apply Z.div_lt_upper_bound; lia]).
    assert (0 <= b / p < 10) as Hqb by (split; [apply Z.div_pos; lia|apply Z.div_lt_upper_bound; lia]).
    rewrite !digit_code, IH by (done || (apply Z.mod_pos_bound; lia)).
    pose proof (Z.div_mod a p ltac:(lia)) as Ea. pose proof (Z.div_mod b p ltac:(lia)) as Eb.
    pose proof (Z.mod_pos_bound a p Hp). pose proof (Z.mod_pos_bound b p Hp).
    destruct (Z.ltb_spec (48 + a / p) (48 + b / p)), (Z.ltb_spec a b); try done; try nia;
      destruct (Z.eqb_spec (48 + a / p) (48 + b / p)), (Z.eqb_spec a b), (Z.ltb_spec (a mod p) (b mod p)), (Z.eqb_spec (a mod p) (b mod p)); try done; nia.
Qed.

Definition date_ok (x : DayKey) : Prop := let '(y, m, d) := x in 0 <= y < 10000 /\ 1 <= m <= 12 /\ 1 <= d <= 31.
Definition date_key (x : DayKey) : Z := let '(y, m, d) := x in y * 10000 + m * 100 + d.

Lemma iso_order a b s : date_ok a -> date_ok b -> date_key a <= date_key b -> name_le (to_string_iso a +:+ s) (to_string_iso b +:+ s).
Proof.
  destruct a as [[y m] d], b as [[y' m'] d']. cbn [date_ok date_key to_string_iso]. intros (Hy & Hm & Hd) (Hy' & Hm' & Hd') Hk. unfold name_le.
  rewrite !padded_dec by (first [by left|by right|lia]). rewrite !str_app_assoc, dec_order by lia.
  destruct (Z.ltb_spec y y'); [done|]. rewrite (proj2 (Z.eqb_eq y y')) by lia.
  change (name_leb ("-" +:+ ?u) ("-" +:+ ?v)) with (name_leb u v). rewrite dec_order by lia.
  destruct (Z.ltb_spec m m'); [done|]. rewrite (proj2 (Z.eqb_eq m m')) by lia.
  change (name_leb ("-" +:+ ?u) ("-" +:+ ?v)) with (name_leb u v). rewrite dec_order by lia.
  destruct (Z.ltb_spec d d'); [done|]. rewrite (proj2 (Z.eqb_eq d d')) by lia. apply name_leb_refl.
Qed.

Lemma next_day_key x : let '(y, m, d) := x in 1 <= m <= 12 /\ 1 <= d <= 31 ->
  date_key x < date_key (next_day x) /\ let '(y', m', d') := next_day x in y <= y' /\ 1 <= m' <= 12 /\ 1 <= d' <= 31.
Proof.
  destruct x as [[y m] d]. intros [Hm Hd]. unfold next_day. assert (days_in_month y m <= 31) by (unfold days_in_month; repeat case_match; lia).
  destruct (Z.ltb_spec d (days_in_month y m)); [cbn [date_key]; lia|]. destruct (Z.ltb_spec m 12); cbn [date_key]; lia.
Qed.

Lemma civil_later n : 0 <= n -> let '(y, m, d) := civil_from_days n in 1970 <= y /\ 1 <= m <= 12 /\ 1 <= d <= 31.
Proof.
  revert n. apply natlike_ind; [vm_compute; intuition discriminate|]. intros n Hn IH. unfold Z.succ. rewrite civil_step.
  pose proof (next_day_key (civil_from_days n)) as Hk. destruct (civil_from_days n) as [[y m] d], (next_day (y, m, d)) as [[y' m'] d']. lia.
Qed.

Lemma civil_key_mono a b : 0 <= a <= b -> date_key (civil_from_days a) <= date_key (civil_from_days b).
Proof.
  intros [Ha Hab]. replace b with (a + (b - a)) by lia. assert (0 <= b - a) as Hd by lia. revert Hd. generalize (b - a). clear b Hab.
  apply natlike_ind; [by rewrite Z.add_0_r|]. intros k Hk IH. unfold Z.succ. rewrite Z.add_assoc, civil_step.
  pose proof (civil_later (a + k) ltac:(lia)) as Hl. pose proof (next_day_key (civil_from_days (a + k))) as Hn.
  destruct (civil_from_days (a + k)) as [[y m] d]. destruct (Hn (proj2 Hl)) as [Hlt _]. lia.
Qed.

(** The last instant of the year 9999, in nanoseconds. *)
Definition year_10000 : Z := 253402300800 * 1000000000.

Lemma day_key_ok ts : 0 <= ts < year_10000 -> date_ok (DayKey_from ts).
Proof.
  unfold year_10000, DayKey_from. intros Ht. assert (0 <= ts / 1000000000 / 86400 <= 2932896) as Hd by (Z.to_euclidean_division_equations; lia).
  pose proof (civil_later _ (proj1 Hd)) as Hl. pose proof (civil_key_mono _ _ Hd) as Hk. change (date_key (civil_from_days 2932896)) with 99991231 in Hk.
  destruct (civil_from_days (ts / 1000000000 / 86400)) as [[y m] d]. cbn [date_ok date_key] in *. lia.
Qed.

Section Time.
Context {Event : Type} (dir : string) (ev_ts : Event -> Z) (k0 : Disk).

Lemma day_name_order a b : 0 <= ev_ts a <= ev_ts b -> ev_ts b < year_10000 -> name_le (day_name ev_ts a) (day_name ev_ts b).
Proof.
  intros Hab Hb. apply iso_order; [apply day_key_ok; lia|apply day_key_ok; lia|]. apply civil_key_mono.
  split; [repeat apply Z.div_pos; lia|]. repeat (apply Z.div_le_mono; [lia|]). lia.
Qed.

(** Events in the order of time are in the order of their files until the year
    10000. *)
Lemma in_order_by_time w :
  StronglySorted (fun a b => ev_ts a <= ev_ts b) w -> Forall (fun ev => 0 <= ev_ts ev < year_10000) w ->
  (forall ev n, head w = Some ev -> n ∈ log_names dir k0 -> name_le n (day_name ev_ts ev)) -> in_order dir ev_ts k0 w.
Proof.
  intros Hs Hr Hb. assert (StronglySorted name_le (day_name ev_ts <$> w)) as Hn.
  { clear Hb. induction Hs as [|ev w Hs IH Hev]; [constructor|]. apply Forall_cons in Hr as [He Hr]. cbn. constructor; [by apply IH|].
    apply Forall_fmap. rewrite Forall_forall in *. intros e Hin. apply day_name_order; [split; [lia|by apply Hev]|by apply Hr]. }
  split; [done|]. destruct w as [|ev w]; [constructor|]. cbn in Hn. apply StronglySorted_inv in Hn as [_ Hn].
  constructor; [intros n; by apply Hb|]. rewrite Forall_fmap in Hn. eapply Forall_impl; [exact Hn|]. intros e He n Hn'. etrans; [by apply (Hb ev)|done].
Qed.
End Time.

(** ** Examples *)

Definition demo_ts (e : Z * string) : Z := e.1.
Definition demo_line (e : Z * string) : option string := Some e.2.

(** Noon of the fifth of May 2026, and of other days. *)
Definition may (d : Z) : Z := (1777982400 + (d - 5) * 86400) * 1000000000.

Definition demo_disk : Disk := create "s/events/2026-05-04.jsonl" "old" (create "s/status.json" "{}" no_files).
Definition demo_cfg : EventRingConfig := mkEventRingConfig 2 2.
Definition demo_ops : list (RingOp (Event := Z * string)) :=
  [OAppend (may 5, "a"%string); OWriter; OAppend (may 5, "b"%string); OAppend (may 6, "c"%string); OAppend (may 6, "full"%string)].
Definition demo_ring : list (Z * string) * Ring := ring_run "s" demo_ts demo_line demo_cfg demo_disk demo_ops.

Lemma demo_disk_ok : disk_ok demo_disk.
Proof. repeat apply create_ok. split; cbn; [intros a b i Ha|intros a i Ha]; by rewrite lookup_empty in Ha. Qed.

Lemma demo_writable : writable "s" demo_ts demo_line demo_disk demo_ring.1.
Proof.
  split; [|apply Forall_true; intros e; by eexists]. change demo_ring.1 with [(may 5, "a"); (may 5, "b"); (may 6, "c")]%string. apply in_order_by_time.
  - repeat constructor; vm_compute; congruence.
  - repeat constructor; vm_compute; congruence.
  - intros ev n [= <-]. replace (log_names "s" demo_disk) with ["2026-05-04.jsonl"%string] by (vm_compute; reflexivity). intros ->%list_elem_of_singleton. by vm_compute.
Qed.

Lemma event_log_exact_witness :
  let disk := rg_disk (Nat.iter (length (rg_queue demo_ring.2) + 3) (writer_step "s" demo_ts demo_line demo_cfg io_good) (signal_shutdown demo_ring.2)) in
  view disk "s/events/2026-05-05.jsonl" = Some ("a" +:+ String newline "" +:+ "b" +:+ String newline "")%string /\ view disk "s/events/2026-05-04.jsonl" = None.
Proof.
  destruct (event_log_exact "s" demo_ts demo_line demo_cfg demo_disk demo_ops demo_ring.1 demo_ring.2 demo_disk_ok eq_refl demo_writable) as [_ HT].
  destruct (HT (or_introl eq_refl)) as (_ & _ & Hv & _).
  cbv zeta in Hv. split.
  - etrans; [exact (Hv "2026-05-05.jsonl"%string eq_refl eq_refl)|]. vm_compute. reflexivity.
  - etrans; [exact (Hv "2026-05-04.jsonl"%string eq_refl eq_refl)|]. vm_compute. reflexivity.
Defined.

(** An event of a day before the ones that are kept: its file is opened, pruned
    and written to, without an error and without a name. *)
Example late_event_lost :
  let '(res, cur, k) := write_one "s" demo_ts demo_line (mkEventRingConfig 16 1) io_good (may 3, "late"%string) None demo_disk in
  res = Ok tt /\ view k "s/events/2026-05-03.jsonl" = None /\ view k "s/events/2026-05-04.jsonl" = Some "old"%string.
Proof. vm_compute. repeat split. Qed.

(** A write that breaks off leaves a piece without a newline: the next event
    continues its line. *)
Example torn_line_joins_next :
  let '(_, cur, k) := write_one "s" demo_ts demo_line demo_cfg (mkEvIo None true (fun _ => true) (Some (3%nat, "no space"%string))) (may 5, "first"%string) None no_files in
  let '(_, _, k) := write_one "s" demo_ts demo_line demo_cfg io_good (may 5, "second"%string) cur k in
  view k "s/events/2026-05-05.jsonl" = Some ("firsecond" +:+ String newline "")%string.
Proof. vm_compute. reflexivity. Qed.

(** An event that comes between the last look at the channel and its end is
    accepted and lost. *)
Example accepted_after_drain :
  let '(acc, r) := ring_run "s" demo_ts demo_line demo_cfg demo_disk [OSignal; OWriter; OWriter; OAppend (may 5, "a"%string); OWriter] in
  acc = [(may 5, "a"%string)] /\ rg_writer r = Gone /\ view (rg_disk r) "s/events/2026-05-05.jsonl" = None.
Proof. vm_compute. repeat split. Qed.
