(* ===== verification/Status.v ===== *)
(** * Status files

    Models [crates/spt-state/src/status.rs], the status snapshot with its writer
    and its ring of copies, and [runtime.rs], the runtime status of the daemon.
    The JSON encoder is [serde_json]'s and a parameter. *)

From S2P Require Import Prelude Text Calendar Errors StateFiles.

(** ** The schema ([status.rs]); instants are in nanoseconds *)

Record ProfileStatus := mkProfileStatus {
  ps_id : string;
  ps_state : string;
  ps_active_endpoint : option string;
  ps_reconnect_count : Z;
  ps_failover_count : Z;
  ps_last_successful_connection_at : option Z;
  ps_last_error_category : option string
}.

Record ForwardStatus := mkForwardStatus {
  fs_id : string;
  fs_profile : string;
  fs_state : string;
  fs_direction : string;
  fs_transport : string;
  fs_local_addr : option string;
  fs_remote_addr : option string;
  fs_assigned_remote_port : option Z;
  fs_current_connections : Z;
  fs_bytes_in : Z;
  fs_bytes_out : Z;
  fs_current_throughput_bps : Z;
  fs_rolling_throughput_bps : Z
}.

Record SessionStatus := mkSessionStatus {
  ss_id : string;
  ss_profile : string;
  ss_protocol : string;
  ss_endpoint : string;
  ss_user_redacted : option string;
  ss_state : string;
  ss_started_at : option Z;
  ss_last_activity_at : option Z;
  ss_keepalive_state : string;
  ss_reconnect_attempt : Z;
  ss_bytes_in : Z;
  ss_bytes_out : Z;
  ss_packets_in : Z;
  ss_packets_out : Z;
  ss_active_forwards : Z
}.

Record ConnectionStatus := mkConnectionStatus {
  cs_id : string;
  cs_profile : string;
  cs_forward : string;
  cs_direction : string;
  cs_transport : string;
  cs_local_peer : option string;
  cs_remote_target_redacted : option string;
  cs_started_at : option Z;
  cs_last_activity_at : option Z;
  cs_bytes_in : Z;
  cs_bytes_out : Z;
  cs_packets_in : Z;
  cs_packets_out : Z;
  cs_current_rate_bps : Z;
  cs_applied_throttle : option string;
  cs_close_reason : option string
}.

Record DnsRecordStatus := mkDnsRecordStatus { ds_name : string; ds_kind : string; ds_value : string; ds_healthy : bool }.

Record FailoverProfileEntry := mkFailoverProfileEntry {
  fp_profile : string;
  fp_current_endpoint : option string;
  fp_remaining_targets : Z;
  fp_cooldown_until : option Z
}.
Record FailoverState := mkFailoverState { per_profile : list FailoverProfileEntry }.

Record LastError := mkLastError { le_scope : string; le_category : string; le_message : string; le_at : option Z }.

Record Counters := mkCounters {
  ct_bytes_in : Z;
  ct_bytes_out : Z;
  ct_sessions_opened : Z;
  ct_sessions_closed : Z;
  ct_connections_opened : Z;
  ct_connections_closed : Z;
  ct_reconnects : Z;
  ct_failovers : Z
}.

Record StatusSnapshot := mkStatusSnapshot {
  sn_pid : Z;
  sn_version : string;
  sn_config_fingerprint_sha256 : string;
  sn_started_at : option Z;
  sn_written_at : option Z;
  sn_profiles : list ProfileStatus;
  sn_forwards : list ForwardStatus;
  sn_sessions : list SessionStatus;
  sn_connections : list ConnectionStatus;
  sn_dns_records : list DnsRecordStatus;
  sn_failover_state : FailoverState;
  sn_last_errors : list LastError;
  sn_counters : Counters
}.

Definition Counters_default : Counters := mkCounters 0 0 0 0 0 0 0 0.
Definition StatusSnapshot_default : StatusSnapshot :=
  mkStatusSnapshot 0 "" "" None None [] [] [] [] [] (mkFailoverState []) [] Counters_default.

(** [StatusSnapshot { written_at: Some(now), ..snap.clone() }]. *)
Definition stamped (now : Z) (s : StatusSnapshot) : StatusSnapshot :=
  mkStatusSnapshot (sn_pid s) (sn_version s) (sn_config_fingerprint_sha256 s) (sn_started_at s) (Some now) (sn_profiles s) (sn_forwards s)
    (sn_sessions s) (sn_connections s) (sn_dns_records s) (sn_failover_state s) (sn_last_errors s) (sn_counters s).

(** ** Staleness *)

Definition STALE_INTERVAL_MULTIPLIER : Z := 3.

(** The longest [Duration], in nanoseconds. *)
Definition duration_max : Z := umax 64 * 1000000000 + 999999999.

Definition is_stale_at (written_at : option Z) (interval now : Z) : bool :=
  match written_at with
  | None => true
  | Some written_at =>
      let max_age := Z.min (interval * STALE_INTERVAL_MULTIPLIER) duration_max in
      let age := now - written_at in
      if age <? 0 then false else max_age <? age
  end.

(** ** The writer *)

Record StatusWriterConfig := mkStatusWriterConfig { swc_interval : Z; ring_size : nat }.
Definition StatusWriterConfig_default : StatusWriterConfig := mkStatusWriterConfig (from_secs 5) 12.

(** [now.format("%Y%m%dT%H%M%S%.3fZ")]. *)
Definition ring_stamp (now : Z) : string :=
  let secs := now / 1000000000 in
  let '(y, m, d) := civil_from_days (secs / 86400) in
  (zero_padded 4 y +:+ zero_padded 2 m +:+ zero_padded 2 d +:+ "T"
   +:+ zero_padded 2 (secs mod 86400 / 3600) +:+ zero_padded 2 (secs mod 3600 / 60) +:+ zero_padded 2 (secs mod 60)
   +:+ "." +:+ zero_padded 3 (now mod 1000000000 / 1000000) +:+ "Z")%string.

Definition is_ring (name : string) : bool :=
  starts_with "status." name && has_extension "json" name && negb (name =? "status.json")%string.

(** What the calls of a flush return. *)
Record FlushIo := mkFlushIo {
  fi_status : option string;
  fi_ring : option string;
  fi_read_dir : bool;
  fi_remove : string -> bool
}.

Definition prune_ring (dir : string) (keep : nat) (io : FlushIo) (k : Disk) : Disk :=
  if fi_read_dir io then prune_loop dir keep (fi_remove io) (listed dir is_ring k) k else k.

Section Writer.
Context (to_json : StatusSnapshot -> option string) (dir : string).

Definition write_snapshot (snap : StatusSnapshot) (now : Z) (ring : nat) (io : FlushIo) (k : Disk) : Result Error unit * Disk :=
  match to_json (stamped now snap) with
  | None => (Err (RuntimeFailure "serialize status snapshot"), k)
  | Some bytes =>
      match write_atomic (status_path dir) bytes (fi_status io) k with
      | (Err e, k) => (Err e, k)
      | (Ok _, k) =>
          if (0 <? ring)%nat then
            match write_atomic (status_ring_path dir (ring_stamp now)) bytes (fi_ring io) k with
            | (Err e, k) => (Err e, k)
            | (Ok _, k) => (Ok tt, prune_ring dir ring io k)
            end
          else (Ok tt, k)
      end
  end.

Record StatusWriter := mkStatusWriter { sw_inner : StatusSnapshot; sw_cfg : StatusWriterConfig; sw_running : bool; sw_disk : Disk }.

(** What happens to a writer: a new snapshot, a change of it, a flush somebody
    asks for, a tick of its task and the signal that ends it. *)
Inductive WriterOp :=
| WSet (snap : StatusSnapshot)
| WUpdate (f : StatusSnapshot -> StatusSnapshot)
| WFlush (now : Z) (io : FlushIo)
| WTick (now : Z) (io : FlushIo)
| WStop (now : Z) (io : FlushIo).

(** The task flushes on every tick and once more before it ends; a failed flush
    is only logged. *)
Definition writer_op (w : StatusWriter) (op : WriterOp) : StatusWriter :=
  let flush now io running := mkStatusWriter (sw_inner w) (sw_cfg w) running (write_snapshot (sw_inner w) now (ring_size (sw_cfg w)) io (sw_disk w)).2 in
  match op with
  | WSet snap => mkStatusWriter snap (sw_cfg w) (sw_running w) (sw_disk w)
  | WUpdate f => mkStatusWriter (f (sw_inner w)) (sw_cfg w) (sw_running w) (sw_disk w)
  | WFlush now io => flush now io (sw_running w)
  | WTick now io => if sw_running w then flush now io true else w
  | WStop now io => if sw_running w then flush now io false else w
  end.

Definition StatusWriter_spawn (cfg : StatusWriterConfig) (k : Disk) : StatusWriter := mkStatusWriter StatusSnapshot_default cfg true k.
End Writer.

(** ** Runtime status ([runtime.rs]) *)

Record StatusApiStatus := mkStatusApiStatus { sas_enabled : bool; sas_bind : option string; sas_auth_mode : option string; sas_tls : bool }.
Record McpStatus := mkMcpStatus { mcs_bind : option string }.
Record DnsStatus := mkDnsStatus { dss_bind : option string; dss_mode : option string }.
Record MetricsStatus := mkMetricsStatus { mts_path : option string }.
Record RemoteConfigPollerStatus := mkRemoteConfigPollerStatus { rcp_enabled : bool; rcp_interval_secs : option Z }.
Record EventsStatus := mkEventsStatus { evs_sink_count : Z; evs_kinds : list string }.
Record MemoryMonitorStatus := mkMemoryMonitorStatus {
  mms_enabled : bool;
  mms_interval_secs : option Z;
  mms_last_rss_bytes : option Z;
  mms_samples : Z;
  mms_last_flagged : option Z
}.

Record Subsystems := mkSubsystems {
  sub_status_api : option StatusApiStatus;
  sub_mcp : option McpStatus;
  sub_dns : option DnsStatus;
  sub_metrics : option MetricsStatus;
  sub_remote_config_poller : option RemoteConfigPollerStatus;
  sub_events : option EventsStatus;
  sub_memory_monitor : option MemoryMonitorStatus
}.

Record RuntimeStatus := mkRuntimeStatus {
  rs_pid : Z;
  rs_version : string;
  rs_started_at : option Z;
  rs_config_path : string;
  rs_state_dir : string;
  rs_written_at : option Z;
  rs_subsystems : Subsystems
}.

Definition Subsystems_default : Subsystems := mkSubsystems None None None None None None None.
Definition RuntimeStatus_default : RuntimeStatus := mkRuntimeStatus 0 "" None "" "" None Subsystems_default.

Definition with_identity (pid : Z) (version : string) (started_at : Z) (config_path state_dir : string) (r : RuntimeStatus) : RuntimeStatus :=
  mkRuntimeStatus pid version (Some started_at) config_path state_dir (rs_written_at r) (rs_subsystems r).

(** The builders and setters of one subsystem each. *)
Definition on_subsystems (f : Subsystems -> Subsystems) (r : RuntimeStatus) : RuntimeStatus :=
  mkRuntimeStatus (rs_pid r) (rs_version r) (rs_started_at r) (rs_config_path r) (rs_state_dir r) (rs_written_at r) (f (rs_subsystems r)).

Definition set_status_api (x : StatusApiStatus) : RuntimeStatus -> RuntimeStatus :=
  on_subsystems (fun s => mkSubsystems (Some x) (sub_mcp s) (sub_dns s) (sub_metrics s) (sub_remote_config_poller s) (sub_events s) (sub_memory_monitor s)).
Definition set_mcp (x : McpStatus) : RuntimeStatus -> RuntimeStatus :=
  on_subsystems (fun s => mkSubsystems (sub_status_api s) (Some x) (sub_dns s) (sub_metrics s) (sub_remote_config_poller s) (sub_events s) (sub_memory_monitor s)).
Definition set_dns (x : DnsStatus) : RuntimeStatus -> RuntimeStatus :=
  on_subsystems (fun s => mkSubsystems (sub_status_api s) (sub_mcp s) (Some x) (sub_metrics s) (sub_remote_config_poller s) (sub_events s) (sub_memory_monitor s)).
Definition set_metrics (x : MetricsStatus) : RuntimeStatus -> RuntimeStatus :=
  on_subsystems (fun s => mkSubsystems (sub_status_api s) (sub_mcp s) (sub_dns s) (Some x) (sub_remote_config_poller s) (sub_events s) (sub_memory_monitor s)).
Definition set_remote_config_poller (x : RemoteConfigPollerStatus) : RuntimeStatus -> RuntimeStatus :=
  on_subsystems (fun s => mkSubsystems (sub_status_api s) (sub_mcp s) (sub_dns s) (sub_metrics s) (Some x) (sub_events s) (sub_memory_monitor s)).
Definition set_events_status (x : EventsStatus) : RuntimeStatus -> RuntimeStatus :=
  on_subsystems (fun s => mkSubsystems (sub_status_api s) (sub_mcp s) (sub_dns s) (sub_metrics s) (sub_remote_config_poller s) (Some x) (sub_memory_monitor s)).
Definition set_memory_monitor (x : MemoryMonitorStatus) : RuntimeStatus -> RuntimeStatus :=
  on_subsystems (fun s => mkSubsystems (sub_status_api s) (sub_mcp s) (sub_dns s) (sub_metrics s) (sub_remote_config_poller s) (sub_events s) (Some x)).

Definition runtime_stamped (now : Z) (r : RuntimeStatus) : RuntimeStatus :=
  mkRuntimeStatus (rs_pid r) (rs_version r) (rs_started_at r) (rs_config_path r) (rs_state_dir r) (Some now) (rs_subsystems r).

Section Runtime.
Context (to_json : RuntimeStatus -> option string) (from_json : string -> option RuntimeStatus) (dir : string).

Definition write_runtime_at (r : RuntimeStatus) (now : Z) (fails : option string) (k : Disk) : Result Error unit * Disk :=
  match to_json (runtime_stamped now r) with
  | None => (Err (RuntimeFailure "serialize runtime status"), k)
  | Some bytes => write_atomic (runtime_path dir) bytes fails k
  end.

(** A file that is not there means that no daemon runs. *)
Definition read_runtime (fails : option string) (k : Disk) : Result Error (option RuntimeStatus) :=
  match fails with
  | Some e => Err (RuntimeFailure ("read runtime status " +:+ runtime_path dir +:+ ": " +:+ e))
  | None =>
      match view k (runtime_path dir) with
      | None => Ok None
      | Some bytes => match from_json bytes with Some r => Ok (Some r) | None => Err (RuntimeFailure "parse runtime status") end
      end
  end.

Hypothesis json_roundtrip : forall r bytes, to_json r = Some bytes -> from_json bytes = Some r.

(** What is read is what was written last, stamped with the time of the write; a
    write that fails leaves what was there. *)
Theorem runtime_read_back r now fails k :
  disk_ok k -> is_Some (to_json (runtime_stamped now r)) ->
  let '(res, k') := write_runtime_at r now fails k in
  read_runtime None k' = match fails with None => Ok (Some (runtime_stamped now r)) | Some _ => read_runtime None k end /\
  (res = Ok tt <-> fails = None).
Proof.
  intros Hk [bytes Hb]. unfold write_runtime_at. rewrite Hb. destruct fails as [e|]; cbn [write_atomic]; [done|]. split; [|done].
  unfold read_runtime. rewrite view_create, String.eqb_refl by done. by rewrite (json_roundtrip _ _ Hb).
Qed.
End Runtime.

(** ** Proofs *)

(** Stale is never written, or older than three intervals; a snapshot from the
    future is not stale. *)
Theorem stale_exact w interval now :
  0 <= interval -> interval * 3 <= duration_max ->
  is_stale_at w interval now = true <-> w = None \/ exists t, w = Some t /\ interval * 3 < now - t.
Proof.
  intros Hi Hm. unfold is_stale_at, STALE_INTERVAL_MULTIPLIER. destruct w as [t|]; [|split; [by left|done]]. rewrite Z.min_l by done.
  split; [|intros [?|(t' & [= <-] & Ht)]; [done|]].
  - destruct (Z.ltb_spec (now - t) 0); [done|]. intros Hlt. right. exists t. split; [done|lia].
  - destruct (Z.ltb_spec (now - t) 0); lia.
Qed.

Definition ring_name (now : Z) : string := ("status." +:+ ring_stamp now +:+ ".json")%string.

Lemma ring_stamp_no_slash now : no_char "/" (ring_stamp now) = true.
Proof.
  unfold ring_stamp. destruct (civil_from_days _) as [[y m] d]. rewrite !no_char_app, !zero_padded_no_char by done. done.
Qed.

Lemma ring_name_ok now : is_ring (ring_name now) = true /\ no_char "/" (ring_name now) = true.
Proof.
  unfold ring_name. set (s := ring_stamp now). assert (s <> ""%string) as Hs.
  { subst s. unfold ring_stamp. destruct (civil_from_days _) as [[y m] d]. intros E. apply (f_equal String.length) in E. rewrite !string_length_app in E. cbn in E. lia. }
  split; [|rewrite !no_char_app; subst s; by rewrite ring_stamp_no_slash]. unfold is_ring. rewrite !andb_true_iff. split; [split|].
  - unfold starts_with. apply bool_decide_eq_true. rewrite strip_prefix_app. eauto.
  - unfold has_extension, extension. destruct (String.eqb_spec ("status." +:+ s +:+ ".json") "..") as [E|_]; [by injection E|].
    rewrite <- str_app_assoc. change ".json"%string with (String "." "json"). rewrite rsplit_once_app by done. done.
  - apply negb_true_iff, String.eqb_neq. intros E. apply (f_equal String.length) in E. rewrite !string_length_app in E. cbn in E. destruct s; [done|cbn in E; lia].
Qed.

(** Every call succeeds. *)
Definition flush_good : FlushIo := mkFlushIo None None true (fun _ => true).

Section Flush.
Context (to_json : StatusSnapshot -> option string) (dir : string).

Lemma status_not_ring now : status_path dir <> join dir (ring_name now) /\ (forall n, is_ring n = true -> join dir n <> status_path dir).
Proof.
  assert (forall n, is_ring n = true -> join dir n <> status_path dir) as Hn by (intros n Hn E; apply join_inj in E as ->; by vm_compute in Hn).
  split; [|done]. apply not_eq_sym, Hn, ring_name_ok.
Qed.

(** A flush leaves the stamped snapshot, and of the copies the newest by name,
    among them the new one unless [ring] others are newer; nothing else changes. *)
Theorem flush_exact snap now ring k bytes :
  disk_ok k -> (0 < ring)%nat -> to_json (stamped now snap) = Some bytes ->
  let '(res, k') := write_snapshot to_json dir snap now ring flush_good k in
  res = Ok tt /\ disk_ok k' /\ view k' (status_path dir) = Some bytes /\
  (forall n, is_ring n = true -> no_char "/" n = true ->
    view k' (join dir n) = if decide (kept ring (remove_dups (ring_name now :: listed dir is_ring k)) n)
                           then (if (n =? ring_name now)%string then Some bytes else view k (join dir n)) else None) /\
  (forall a, a <> status_path dir -> (forall n, name_in dir a = Some n -> is_ring n = false) -> view k' a = view k a).
Proof.
  intros Hk Hr Hb. unfold write_snapshot. rewrite Hb. cbn [write_atomic flush_good fi_status fi_ring]. rewrite (proj2 (Nat.ltb_lt _ _)) by done.
  change (status_ring_path dir (ring_stamp now)) with (join dir (ring_name now)).
  destruct (status_not_ring now) as [Hne Hnr], (ring_name_ok now) as [Hring Hslash]. set (k1 := create (status_path dir) bytes k). set (k2 := create (join dir (ring_name now)) bytes k1).
  assert (disk_ok k1) as Hk1 by by apply create_ok. assert (disk_ok k2) as Hk2 by by apply create_ok.
  assert (forall a, view k2 a = if (a =? join dir (ring_name now))%string then Some bytes else if (a =? status_path dir)%string then Some bytes else view k a) as Hv2.
  { intros a. subst k2 k1. by rewrite !view_create by done. }
  assert (forall n, n ∈ listed dir is_ring k2 <-> n ∈ remove_dups (ring_name now :: listed dir is_ring k)) as Hl.
  { intros n. rewrite elem_of_remove_dups, elem_of_cons, !elem_of_listed, <- !view_some, Hv2 by done. destruct (String.eqb_spec (join dir n) (join dir (ring_name now))) as [E|E].
    - apply join_inj in E as ->. split; [by left|]. intros _. repeat split; [done|done|eauto].
    - split; [intros (Hn & ? & Hs); right|intros [->|(Hn & ? & Hs)]; [done|]]; (split; [done|]; split; [done|]);
        by rewrite (proj2 (String.eqb_neq _ _) (Hnr n Hn)) in *. }
  destruct (prune_spec dir is_ring ring k2 Hk2) as (Hk3 & Hg & Hs). unfold prune_ring. cbn [fi_read_dir fi_remove flush_good].
  pose proof (fun n => kept_same ring _ _ n (listed_nodup dir is_ring k2) (NoDup_remove_dups _) Hl) as Hkept.
  split; [done|]. split; [done|]. split; [|split].
  - rewrite (proj1 (Hs (status_path dir) ltac:(intros (n & (E & _)%name_in_some & Hn & _); by apply (Hnr n)))), Hv2.
    rewrite (proj2 (String.eqb_neq _ _)), String.eqb_refl by done. done.
  - intros n Hn Hns. rewrite <- (decide_ext _ _ _ _ (Hkept n)). case_decide as Hd.
    + rewrite (proj1 (Hs (join dir n) ltac:(intros (m & (->%join_inj & _)%name_in_some & _ & _ & Hc); destruct Hd as [_ [?|?]]; lia))), Hv2.
      destruct (String.eqb_spec n (ring_name now)) as [->|En]; [by rewrite String.eqb_refl|].
      rewrite !(proj2 (String.eqb_neq _ _)); [done|by apply Hnr|]. by intros ?%join_inj.
    + destruct (decide (n ∈ listed dir is_ring k2)) as [Hin|Hin].
      * apply Hg. exists n. apply elem_of_listed in Hin as (? & ? & ?). repeat split; [by apply name_in_join|done|done|].
        destruct (decide (after (listed dir is_ring k2) n < ring)%nat); [|lia]. destruct Hd. split; [by apply elem_of_listed|by right].
      * destruct (Hs (join dir n)) as [-> _]; [intros (m & (->%join_inj & _)%name_in_some & ? & ? & _); destruct Hin; by apply elem_of_listed|].
        apply eq_None_not_Some. rewrite view_some by done. intros Hi. destruct Hin. by apply elem_of_listed.
  - intros a Ha Hno. destruct (Hs a) as [-> _]; [intros (n & Hn & Hm & _); by rewrite (Hno _ Hn) in Hm|].
    rewrite Hv2, !(proj2 (String.eqb_neq _ _)); [done|done|]. intros ->. specialize (Hno _ (name_in_join _ _ Hslash)). congruence.
Qed.
End Flush.

(** ** The writer's task *)

Section Task.
Context (to_json : StatusSnapshot -> option string) (dir : string) (cfg : StatusWriterConfig) (k0 : Disk).

Definition writer_run (ops : list WriterOp) : StatusWriter := foldl (writer_op to_json dir) (StatusWriter_spawn cfg k0) ops.

(** The snapshot a reader asks for. *)
Definition current_snapshot (ops : list WriterOp) : StatusSnapshot :=
  foldl (fun s op => match op with WSet snap => snap | WUpdate f => f s | _ => s end) StatusSnapshot_default ops.

Lemma writer_inner ops : sw_inner (writer_run ops) = current_snapshot ops.
Proof.
  unfold writer_run, current_snapshot. induction ops as [|op ops IH] using rev_ind; [done|]. rewrite !foldl_app. cbn [foldl]. rewrite <- IH.
  destruct op; cbn [writer_op]; try done; by destruct (sw_running _).
Qed.

Lemma write_atomic_ok path text fails k : disk_ok k -> disk_ok (write_atomic path text fails k).2.
Proof. intros Hk. destruct fails; cbn; [done|by apply create_ok]. Qed.

Lemma prune_ring_ok keep io k : disk_ok k -> disk_ok (prune_ring dir keep io k).
Proof.
  intros Hk. unfold prune_ring. destruct (fi_read_dir io); [|done]. rewrite prune_loop_take. revert Hk. generalize (take (length (listed dir is_ring k) - keep) (listed dir is_ring k)).
  intros l. revert k. induction l as [|p l IH]; intros k Hk; [done|]. cbn [foldl]. apply IH. destruct (fi_remove io p); [by apply unlink_ok|done].
Qed.

Lemma write_snapshot_ok snap now ring io k : disk_ok k -> disk_ok (write_snapshot to_json dir snap now ring io k).2.
Proof.
  intros Hk. unfold write_snapshot. destruct (to_json (stamped now snap)) as [bytes|]; [|done].
  pose proof (write_atomic_ok (status_path dir) bytes (fi_status io) k Hk) as H1. destruct (write_atomic _ _ _ k) as [[|] k1]; [|done]. cbn [snd] in H1.
  destruct (0 <? ring)%nat; [|done]. pose proof (write_atomic_ok (status_ring_path dir (ring_stamp now)) bytes (fi_ring io) k1 H1) as H2.
  destruct (write_atomic _ _ _ k1) as [[|] k2]; [by apply prune_ring_ok|done].
Qed.

Lemma writer_disk_ok ops : disk_ok k0 -> disk_ok (sw_disk (writer_run ops)).
Proof.
  intros H0. unfold writer_run. induction ops as [|op ops IH] using rev_ind; [done|]. rewrite foldl_app. cbn [foldl].
  destruct op; cbn [writer_op]; try done; try (destruct (sw_running _); [|done]); by apply write_snapshot_ok.
Qed.

(** Whatever was set, changed and flushed before, and whichever of those flushes
    failed: the stop writes the snapshot as it is then, with the time of the stop. *)
Theorem stop_writes_current ops now bytes :
  disk_ok k0 -> sw_running (writer_run ops) = true -> to_json (stamped now (current_snapshot ops)) = Some bytes ->
  let w := writer_run (ops ++ [WStop now flush_good]) in sw_running w = false /\ view (sw_disk w) (status_path dir) = Some bytes.
Proof.
  intros H0 Hr Hb. unfold writer_run. rewrite foldl_app. cbn [foldl]. fold (writer_run ops). cbn [writer_op]. rewrite Hr. cbn [sw_running sw_disk]. split; [done|].
  rewrite writer_inner. destruct (ring_size (sw_cfg (writer_run ops))) as [|r] eqn:Er.
  - unfold write_snapshot. rewrite Hb. cbn. rewrite view_create, String.eqb_refl by by apply writer_disk_ok. done.
  - pose proof (flush_exact to_json dir (current_snapshot ops) now (S r) (sw_disk (writer_run ops)) bytes (writer_disk_ok ops H0) ltac:(lia) Hb) as Hf.
    destruct (write_snapshot _ _ _ _ _ _ _) as [res k]. apply Hf.
Qed.
End Task.

(** ** Examples *)

Definition demo_json (s : StatusSnapshot) : option string := Some (pretty (default 0 (sn_written_at s))).

(** When the clock went back, the copy just written is the oldest by name and
    goes at once; the older snapshot stays. *)
Example clock_back_loses_copy :
  let s := (write_snapshot demo_json "s" StatusSnapshot_default (1777982400 * 1000000000) 1 flush_good no_files).2 in
  let '(res, k) := write_snapshot demo_json "s" StatusSnapshot_default (1777982300 * 1000000000) 1 flush_good s in
  res = Ok tt /\ view k "s/status.20260505T115820.000Z.json" = None /\ is_Some (view k "s/status.20260505T120000.000Z.json").
Proof. vm_compute. repeat split. eauto. Qed.

(** Any name of the form [status.*.json] counts as a copy, a backup too. *)
Example backup_counts_as_copy :
  let k := create "s/status.backup.json" "precious" no_files in
  view (write_snapshot demo_json "s" StatusSnapshot_default (1777982400 * 1000000000) 1 flush_good k).2 "s/status.20260505T120000.000Z.json" = None.
Proof. vm_compute. reflexivity. Qed.
