(* ===== verification/StatusApi.v ===== *)
(** * The status API

    Models [crates/spt-status-api/src] ([auth.rs], [error.rs], [crypto.rs],
    [rate_limit.rs], [handlers.rs], [lib.rs]) and its launch in
    [crates/spt-bin/src/status_api_tls.rs].  A request passes the body limit,
    the rate limit and the authentication, in this order, before a handler sees
    it.

    Parameters: the matching of paths to the table of routes (axum), the decoder
    of base64, the text of an instant (chrono), and the handshake with its
    certificates (rustls).  Single-precision arithmetic is IEEE 754's, from
    [SpecFloat]. *)

From Corelib Require Import SpecFloat.
From S2P Require Import Prelude Bytes Text Float Errors Endpoint Address Schema McpPolicy Status StateFiles.

(** ** Errors ([error.rs]) *)

Inductive StatusApiError :=
| Unauthorized
| Forbidden
| RateLimited
| Unavailable (what : string)
| Internal.

Definition http_status (e : StatusApiError) : Z :=
  match e with
  | Unauthorized => 401
  | Forbidden => 403
  | RateLimited => 429
  | Unavailable _ => 503
  | Internal => 500
  end.

Definition tag (e : StatusApiError) : string :=
  match e with
  | Unauthorized => "unauthorized"
  | Forbidden => "forbidden"
  | RateLimited => "rate_limited"
  | Unavailable _ => "unavailable"
  | Internal => "internal"
  end.

Definition message (e : StatusApiError) : string :=
  match e with
  | Unauthorized => "authentication required"
  | Forbidden => "forbidden"
  | RateLimited => "rate limit exceeded"
  | Unavailable what => "status unavailable: " +:+ what
  | Internal => "internal error"
  end.

Inductive Body := BJson (v : Json) | BText (content_type s : string).
Record HttpReply := mkResponse { rp_status : Z; rp_body : Body }.

Definition into_response (e : StatusApiError) : HttpReply :=
  mkResponse (http_status e) (BJson (obj [("error", JString (tag e)); ("message", JString (message e))])).

(** ** Authentication ([auth.rs]) *)

Inductive AuthMode :=
| ModeNone
| ModeBearer (token : list Z)
| ModeBasic (user : string) (password : list Z)
| ModeMutualTls (allowed_subjects : list string).

Record AuthContext := mkAuthContext { ac_mode : AuthMode }.

(** The resolver gives the bytes of a secret, or an error. *)
Definition from_config (resolve : SecretRef -> Result Error (list Z)) (mode : StatusApiAuthMode) : Result Error AuthContext :=
  match mode with
  | AuthNone => Ok (mkAuthContext ModeNone)
  | Bearer token_from => match resolve token_from with Ok b => Ok (mkAuthContext (ModeBearer b)) | Err e => Err e end
  | Basic user password_from => match resolve password_from with Ok b => Ok (mkAuthContext (ModeBasic user b)) | Err e => Err e end
  | MutualTls _ allowed => Ok (mkAuthContext (ModeMutualTls allowed))
  end.

(** Lengths first, then every byte. *)
Definition ct_eq (a b : list Z) : bool :=
  if negb (length a =? length b)%nat then false else bool_decide (a = b).

Section Api.
Context (b64_decode : string -> option (list Z)) (fmt_ts : Z -> string).

(** The label of the subject, or why there is none. *)
Definition verify (ctx : AuthContext) (authorization peer : option string) : Result StatusApiError string :=
  match ac_mode ctx with
  | ModeNone => Ok "anonymous"
  | ModeBearer token =>
      match authorization with
      | None => Err Unauthorized
      | Some header =>
          match strip_prefix "Bearer " header with
          | None => Err Unauthorized
          | Some presented => if ct_eq (bytes_of presented) token then Ok "bearer" else Err Unauthorized
          end
      end
  | ModeBasic user password =>
      match authorization with
      | None => Err Unauthorized
      | Some header =>
          match strip_prefix "Basic " header with
          | None => Err Unauthorized
          | Some encoded =>
              match b64_decode encoded with
              | None => Err Unauthorized
              | Some decoded =>
                  match text_of decoded with
                  | None => Err Unauthorized
                  | Some s =>
                      match split_once ":" s with
                      | None => Err Unauthorized
                      | Some (u, p) =>
                          let user_ok := ct_eq (bytes_of u) (bytes_of user) in
                          let pw_ok := ct_eq (bytes_of p) password in
                          if user_ok && pw_ok then Ok ("basic:" +:+ u) else Err Unauthorized
                      end
                  end
              end
          end
      end
  | ModeMutualTls allowed =>
      match peer with
      | None => Err Forbidden
      | Some subject_dn => if existsb (fun s => (s =? subject_dn)%string) allowed then Ok subject_dn else Err Forbidden
      end
  end.

(** ** Negotiated parameters ([crypto.rs]) *)

Record NegotiatedCrypto := mkNegotiatedCrypto {
  nc_transport : option string;
  nc_kex : option string;
  nc_host_key_algo : option string;
  nc_cipher : option string;
  nc_mac_c2s : option string;
  nc_mac_s2c : option string;
  nc_comp_c2s : option string;
  nc_comp_s2c : option string;
  nc_pq_offered : option bool;
  nc_tls_version : option string;
  nc_cipher_suite : option string;
  nc_kex_group : option string;
  nc_alpn : option string;
  nc_sni : option string
}.

Definition NegotiatedCrypto_default : NegotiatedCrypto :=
  mkNegotiatedCrypto None None None None None None None None None None None None None None.

(** One token of the text. *)
Definition parse_token (nc : NegotiatedCrypto) (token : string) : NegotiatedCrypto :=
  let '(mkNegotiatedCrypto tr kx hk ci m1 m2 c1 c2 pq tv cs kg al sn) := nc in
  match split_once "=" token with
  | None => nc
  | Some (key, value) =>
      if (key =? "transport")%string then mkNegotiatedCrypto (Some value) kx hk ci m1 m2 c1 c2 pq tv cs kg al sn
      else if (key =? "kex")%string then mkNegotiatedCrypto tr (Some value) hk ci m1 m2 c1 c2 pq tv cs kg al sn
      else if (key =? "hostkey")%string then mkNegotiatedCrypto tr kx (Some value) ci m1 m2 c1 c2 pq tv cs kg al sn
      else if (key =? "cipher")%string then mkNegotiatedCrypto tr kx hk (Some value) m1 m2 c1 c2 pq tv cs kg al sn
      else if (key =? "mac_c2s")%string then mkNegotiatedCrypto tr kx hk ci (Some value) m2 c1 c2 pq tv cs kg al sn
      else if (key =? "mac_s2c")%string then mkNegotiatedCrypto tr kx hk ci m1 (Some value) c1 c2 pq tv cs kg al sn
      else if (key =? "comp_c2s")%string then mkNegotiatedCrypto tr kx hk ci m1 m2 (Some value) c2 pq tv cs kg al sn
      else if (key =? "comp_s2c")%string then mkNegotiatedCrypto tr kx hk ci m1 m2 c1 (Some value) pq tv cs kg al sn
      else if (key =? "pq_offered")%string then mkNegotiatedCrypto tr kx hk ci m1 m2 c1 c2 (Some (to_ascii_lowercase value =? "true")%string) tv cs kg al sn
      else if (key =? "tls_version")%string then mkNegotiatedCrypto tr kx hk ci m1 m2 c1 c2 pq (Some value) cs kg al sn
      else if (key =? "cipher_suite")%string then mkNegotiatedCrypto tr kx hk ci m1 m2 c1 c2 pq tv (Some value) kg al sn
      else if (key =? "kex_group")%string then mkNegotiatedCrypto tr kx hk ci m1 m2 c1 c2 pq tv cs (Some value) al sn
      else if (key =? "alpn")%string then mkNegotiatedCrypto tr kx hk ci m1 m2 c1 c2 pq tv cs kg (Some value) sn
      else if (key =? "sni")%string then mkNegotiatedCrypto tr kx hk ci m1 m2 c1 c2 pq tv cs kg al (Some value)
      else nc
  end.

(** A text without a [transport] is not one of these. *)
Definition nc_parse (s : string) : option NegotiatedCrypto :=
  let nc := foldl parse_token NegotiatedCrypto_default (split_whitespace s) in
  match nc_transport nc with Some _ => Some nc | None => None end.

Definition bool_text (b : bool) : string := if b then "true" else "false".

Definition nc_fields (nc : NegotiatedCrypto) : list (string * string) :=
  omap (fun '(k, v) => (fun v => (k, v)) <$> v)
    [("transport", nc_transport nc); ("kex", nc_kex nc); ("host_key", nc_host_key_algo nc); ("cipher", nc_cipher nc);
     ("mac_c2s", nc_mac_c2s nc); ("mac_s2c", nc_mac_s2c nc); ("comp_c2s", nc_comp_c2s nc); ("comp_s2c", nc_comp_s2c nc);
     ("pq_offered", bool_text <$> nc_pq_offered nc); ("tls_version", nc_tls_version nc); ("cipher_suite", nc_cipher_suite nc);
     ("kex_group", nc_kex_group nc); ("alpn", nc_alpn nc); ("sni", nc_sni nc)]%string.

(** The derived encoding: fields that are not set are left out. *)
Definition nc_json (nc : NegotiatedCrypto) : Json :=
  obj (omap (fun '(k, v) => (fun v => (k, v)) <$> v)
    [("transport", JString <$> nc_transport nc); ("kex", JString <$> nc_kex nc); ("host_key_algo", JString <$> nc_host_key_algo nc);
     ("cipher", JString <$> nc_cipher nc); ("mac_c2s", JString <$> nc_mac_c2s nc); ("mac_s2c", JString <$> nc_mac_s2c nc);
     ("comp_c2s", JString <$> nc_comp_c2s nc); ("comp_s2c", JString <$> nc_comp_s2c nc); ("pq_offered", JBool <$> nc_pq_offered nc);
     ("tls_version", JString <$> nc_tls_version nc); ("cipher_suite", JString <$> nc_cipher_suite nc); ("kex_group", JString <$> nc_kex_group nc);
     ("alpn", JString <$> nc_alpn nc); ("sni", JString <$> nc_sni nc)]%string).

(** The side table, by session. *)
Abbreviation Registry := (gmap string NegotiatedCrypto).
Definition crypto_insert (session_id : string) (nc : NegotiatedCrypto) (r : Registry) : Registry := <[session_id := nc]> r.
Definition crypto_remove (session_id : string) (r : Registry) : Registry := delete session_id r.

(** ** The encoding of a snapshot *)

Definition jopt {A} (f : A -> Json) (o : option A) : Json := match o with Some x => f x | None => JNull end.
Definition jnum (n : Z) : Json := JNumber (NPos n).
Definition jts (t : Z) : Json := JString (fmt_ts t).

Definition profile_json (p : ProfileStatus) : Json :=
  obj [("id", JString (ps_id p)); ("state", JString (ps_state p)); ("active_endpoint", jopt JString (ps_active_endpoint p));
       ("reconnect_count", jnum (ps_reconnect_count p)); ("failover_count", jnum (ps_failover_count p));
       ("last_successful_connection_at", jopt jts (ps_last_successful_connection_at p));
       ("last_error_category", jopt JString (ps_last_error_category p))]%string.

Definition forward_json (f : ForwardStatus) : Json :=
  obj [("id", JString (fs_id f)); ("profile", JString (fs_profile f)); ("state", JString (fs_state f)); ("direction", JString (fs_direction f));
       ("transport", JString (fs_transport f)); ("local_addr", jopt JString (fs_local_addr f)); ("remote_addr", jopt JString (fs_remote_addr f));
       ("assigned_remote_port", jopt jnum (fs_assigned_remote_port f)); ("current_connections", jnum (fs_current_connections f));
       ("bytes_in", jnum (fs_bytes_in f)); ("bytes_out", jnum (fs_bytes_out f)); ("current_throughput_bps", jnum (fs_current_throughput_bps f));
       ("rolling_throughput_bps", jnum (fs_rolling_throughput_bps f))]%string.

Definition session_json (s : SessionStatus) : Json :=
  obj [("id", JString (ss_id s)); ("profile", JString (ss_profile s)); ("protocol", JString (ss_protocol s)); ("endpoint", JString (ss_endpoint s));
       ("user_redacted", jopt JString (ss_user_redacted s)); ("state", JString (ss_state s)); ("started_at", jopt jts (ss_started_at s));
       ("last_activity_at", jopt jts (ss_last_activity_at s)); ("keepalive_state", JString (ss_keepalive_state s));
       ("reconnect_attempt", jnum (ss_reconnect_attempt s)); ("bytes_in", jnum (ss_bytes_in s)); ("bytes_out", jnum (ss_bytes_out s));
       ("packets_in", jnum (ss_packets_in s)); ("packets_out", jnum (ss_packets_out s)); ("active_forwards", jnum (ss_active_forwards s))]%string.

Definition connection_json (c : ConnectionStatus) : Json :=
  obj [("id", JString (cs_id c)); ("profile", JString (cs_profile c)); ("forward", JString (cs_forward c)); ("direction", JString (cs_direction c));
       ("transport", JString (cs_transport c)); ("local_peer", jopt JString (cs_local_peer c));
       ("remote_target_redacted", jopt JString (cs_remote_target_redacted c)); ("started_at", jopt jts (cs_started_at c));
       ("last_activity_at", jopt jts (cs_last_activity_at c)); ("bytes_in", jnum (cs_bytes_in c)); ("bytes_out", jnum (cs_bytes_out c));
       ("packets_in", jnum (cs_packets_in c)); ("packets_out", jnum (cs_packets_out c)); ("current_rate_bps", jnum (cs_current_rate_bps c));
       ("applied_throttle", jopt JString (cs_applied_throttle c)); ("close_reason", jopt JString (cs_close_reason c))]%string.

Definition dns_json (d : DnsRecordStatus) : Json :=
  obj [("name", JString (ds_name d)); ("kind", JString (ds_kind d)); ("value", JString (ds_value d)); ("healthy", JBool (ds_healthy d))]%string.

Definition failover_json (f : FailoverState) : Json :=
  obj [("per_profile", JArray ((fun e => obj [("profile", JString (fp_profile e)); ("current_endpoint", jopt JString (fp_current_endpoint e));
                                              ("remaining_targets", jnum (fp_remaining_targets e)); ("cooldown_until", jopt jts (fp_cooldown_until e))]%string)
                               <$> per_profile f))]%string.

Definition error_json (e : LastError) : Json :=
  obj [("scope", JString (le_scope e)); ("category", JString (le_category e)); ("message", JString (le_message e)); ("at", jopt jts (le_at e))]%string.

Definition counters_json (c : Counters) : Json :=
  obj [("bytes_in", jnum (ct_bytes_in c)); ("bytes_out", jnum (ct_bytes_out c)); ("sessions_opened", jnum (ct_sessions_opened c));
       ("sessions_closed", jnum (ct_sessions_closed c)); ("connections_opened", jnum (ct_connections_opened c));
       ("connections_closed", jnum (ct_connections_closed c)); ("reconnects", jnum (ct_reconnects c)); ("failovers", jnum (ct_failovers c))]%string.

Definition snapshot_json (s : StatusSnapshot) : Json :=
  obj [("pid", jnum (sn_pid s)); ("version", JString (sn_version s)); ("config_fingerprint_sha256", JString (sn_config_fingerprint_sha256 s));
       ("started_at", jopt jts (sn_started_at s)); ("written_at", jopt jts (sn_written_at s)); ("profiles", JArray (profile_json <$> sn_profiles s));
       ("forwards", JArray (forward_json <$> sn_forwards s)); ("sessions", JArray (session_json <$> sn_sessions s));
       ("connections", JArray (connection_json <$> sn_connections s)); ("dns_records", JArray (dns_json <$> sn_dns_records s));
       ("failover_state", failover_json (sn_failover_state s)); ("last_errors", JArray (error_json <$> sn_last_errors s));
       ("counters", counters_json (sn_counters s))]%string.

(** ** Handlers ([handlers.rs]) *)

(** What the source gives at the time of a request, and the settings. *)
Record AppState := mkAppState {
  as_snapshot : StatusSnapshot;
  as_metrics_prom : string;
  as_expose_metrics : bool;
  as_failed_threshold_secs : Z;
  as_crypto_registry : Registry
}.

Definition AppState_new (snap : StatusSnapshot) (metrics : string) (expose_metrics : bool) : AppState :=
  mkAppState snap metrics expose_metrics 30 ∅.

(** A session with an entry gets it. *)
Definition enrich_session (table : Registry) (session : Json) : Json :=
  match session with
  | JObject m =>
      match assoc "id" m with
      | Some (JString id) => match table !! id with Some nc => JObject (map_insert "negotiated_crypto" (nc_json nc) m) | None => session end
      | _ => session
      end
  | _ => session
  end.

Definition enrich_sessions (table : Registry) (sessions : Json) : Json :=
  if decide (table = ∅) then sessions
  else match sessions with JArray arr => JArray (enrich_session table <$> arr) | _ => sessions end.

Definition ok_json (v : Json) : HttpReply := mkResponse 200 (BJson v).

(** The first profile that makes the answer degraded. *)
Definition degraded (now threshold : Z) (p : ProfileStatus) : bool :=
  let state_str := to_ascii_lowercase (ps_state p) in
  ((state_str =? "failed")%string || (state_str =? "reconnecting")%string)
  && match ps_last_successful_connection_at p with
     | None => true
     | Some t => threshold <? Z.quot (now - t) 1000000000
     end.

Definition health (st : AppState) (now : Z) : HttpReply :=
  match List.find (degraded now (as_failed_threshold_secs st)) (sn_profiles (as_snapshot st)) with
  | Some p => mkResponse 503 (BJson (obj [("status", JString "degraded"); ("reason", JString ("profile " +:+ ps_id p +:+ " in state `" +:+ ps_state p +:+ "`"))]%string))
  | None => ok_json (obj [("status", JString "ok")]%string)
  end.

(** [value.get_mut("sessions")]. *)
Fixpoint on_key (k : string) (f : Json -> Json) (m : list (string * Json)) : list (string * Json) :=
  match m with
  | [] => []
  | (k', v) :: r => if (k =? k')%string then (k', f v) :: r else (k', v) :: on_key k f r
  end.

Definition status (st : AppState) : HttpReply :=
  ok_json (match snapshot_json (as_snapshot st) with
           | JObject m => JObject (on_key "sessions" (enrich_sessions (as_crypto_registry st)) m)
           | v => v
           end).

Definition list_profiles (st : AppState) : HttpReply := ok_json (obj [("profiles", JArray (profile_json <$> sn_profiles (as_snapshot st)))]%string).
Definition get_profile (st : AppState) (id : string) : HttpReply :=
  match List.find (fun p => (ps_id p =? id)%string) (sn_profiles (as_snapshot st)) with
  | Some p => ok_json (profile_json p)
  | None => into_response (Unavailable ("no profile `" +:+ id +:+ "`"))
  end.

Definition list_forwards (st : AppState) : HttpReply := ok_json (obj [("forwards", JArray (forward_json <$> sn_forwards (as_snapshot st)))]%string).
Definition get_forward (st : AppState) (profile id : string) : HttpReply :=
  match List.find (fun f => (fs_profile f =? profile)%string && (fs_id f =? id)%string) (sn_forwards (as_snapshot st)) with
  | Some f => ok_json (forward_json f)
  | None => into_response (Unavailable ("no forward `" +:+ profile +:+ "/" +:+ id +:+ "`"))
  end.

Definition list_sessions (st : AppState) : HttpReply :=
  ok_json (obj [("sessions", enrich_sessions (as_crypto_registry st) (JArray (session_json <$> sn_sessions (as_snapshot st))))]%string).

Definition metrics (st : AppState) : HttpReply :=
  if as_expose_metrics st then mkResponse 200 (BText "text/plain; version=0.0.4" (as_metrics_prom st))
  else mkResponse 404 (BText "text/plain; charset=utf-8" "metrics disabled").

Definition version (cargo_version : string) (git_sha : option string) : HttpReply :=
  ok_json (obj [("version", JString cargo_version); ("git_sha", JString (default "unknown" git_sha)%string); ("msrv", JString "1.83")]%string).
End Api.

(** ** The rate limit ([rate_limit.rs]) *)

(** [f32] arithmetic. *)
Definition f32_add : spec_float -> spec_float -> spec_float := SFadd 24 128.
Definition f32_sub : spec_float -> spec_float -> spec_float := SFsub 24 128.
Definition f32_mul : spec_float -> spec_float -> spec_float := SFmul 24 128.
Definition f32_div : spec_float -> spec_float -> spec_float := SFdiv 24 128.
Definition f32_of_int (n : Z) : spec_float := binary_normalize 24 128 n 0 false.
Definition f32_of_config (x : f32) : spec_float :=
  match x with
  | F32 m e => binary_normalize 24 128 m e false
  | F32PosInf => S754_infinity false
  | F32NegInf => S754_infinity true
  | F32NaN => S754_nan
  end.
Definition f32_finite (x : spec_float) : bool := match x with S754_zero _ | S754_finite _ _ _ => true | _ => false end.
Definition f32_nan (x : spec_float) : bool := match x with S754_nan => true | _ => false end.
Definition f32_max (a b : spec_float) : spec_float := if f32_nan a then b else if f32_nan b then a else if SFltb a b then b else a.
Definition f32_min (a b : spec_float) : spec_float := if f32_nan a then b else if f32_nan b then a else if SFltb b a then b else a.
(** [Duration::as_secs_f32]. *)
Definition as_secs_f32 (d : Z) : spec_float :=
  f32_add (f32_of_int (d / 1000000000)) (f32_div (f32_of_int (d mod 1000000000)) (f32_of_int 1000000000)).

Record RateLimitConfig := mkRateLimitConfig { rl_rps : spec_float; rl_burst : spec_float; rl_idle_eviction : Z }.
Definition RateLimitConfig_default : RateLimitConfig := mkRateLimitConfig (f32_of_int 1) (f32_of_int 5) (from_secs 600).
Definition from_rps (rps : spec_float) : RateLimitConfig :=
  let rps := if f32_finite rps && SFltb (f32_of_int 0) rps then rps else f32_of_int 1 in
  mkRateLimitConfig rps (f32_max rps (f32_of_int 1)) (from_secs 600).

Record Bucket := mkBucket { bu_tokens : spec_float; bu_last_refill : Z }.

#[export] Instance IpAddr_countable : Countable IpAddr :=
  inj_countable' (fun ip => match ip with V4 a => inl a | V6 a => inr a end) (fun x => match x with inl a => V4 a | inr a => V6 a end)
    ltac:(by intros []).

Record RateLimiter := mkRateLimiter { li_cfg : RateLimitConfig; li_buckets : gmap IpAddr Bucket }.
Definition RateLimiter_new (cfg : RateLimitConfig) : RateLimiter := mkRateLimiter cfg ∅.

Definition refill (cfg : RateLimitConfig) (now : Z) (b : Bucket) : spec_float :=
  f32_min (f32_add (bu_tokens b) (f32_mul (as_secs_f32 (duration_since now (bu_last_refill b))) (rl_rps cfg))) (rl_burst cfg).

Definition allow_at (l : RateLimiter) (ip : IpAddr) (now : Z) : bool * RateLimiter :=
  let cfg := li_cfg l in
  let buckets := if (1024 <? size (li_buckets l))%nat
                 then filter (fun e => duration_since now (bu_last_refill e.2) < rl_idle_eviction cfg) (li_buckets l)
                 else li_buckets l in
  let bucket := default (mkBucket (rl_burst cfg) now) (buckets !! ip) in
  let tokens := refill cfg now bucket in
  if SFleb (f32_of_int 1) tokens
  then (true, mkRateLimiter cfg (<[ip := mkBucket (f32_sub tokens (f32_of_int 1)) now]> buckets))
  else (false, mkRateLimiter cfg (<[ip := mkBucket tokens now]> buckets)).

(** ** The server ([lib.rs], [status_api_tls.rs]) *)

Definition MAX_BODY_BYTES : Z := 1024 * 1024.

(** The routes of the table, as the router finds them. *)
Inductive Routed :=
| RHealth
| RStatus
| RListProfiles
| RGetProfile (id : string)
| RListForwards
| RGetForward (profile id : string)
| RListSessions
| RMetrics
| RVersion
| RNotFound
| RMethodNotAllowed.

Record HttpRequest := mkRequest {
  rq_method : string;
  rq_path : string;
  rq_authorization : option (list Z);
  rq_content_length : option Z
}.

(** A connection: its peer, and the subject of the client certificate the
    handshake verified. *)
Record HttpConnection := mkConnection { cn_ip : IpAddr; cn_subject : option string }.

(** [HeaderValue::to_str]: visible ASCII only. *)
Definition header_text (l : list Z) : option string :=
  if forallb (fun b => between 32 126 b || (b =? 9)) l then Some (string_of l) else None.

Section Server.
Context (b64_decode : string -> option (list Z)) (fmt_ts : Z -> string) (route : string -> string -> Routed).
Context (cargo_version : string) (git_sha : option string).

Definition dispatch (r : Routed) (st : AppState) (utc : Z) : HttpReply :=
  match r with
  | RHealth => health st utc
  | RStatus => status fmt_ts st
  | RListProfiles => list_profiles fmt_ts st
  | RGetProfile id => get_profile fmt_ts st id
  | RListForwards => list_forwards st
  | RGetForward profile id => get_forward st profile id
  | RListSessions => list_sessions fmt_ts st
  | RMetrics => metrics st
  | RVersion => version cargo_version git_sha
  | RNotFound => mkResponse 404 (BText "" "")
  | RMethodNotAllowed => mkResponse 405 (BText "" "")
  end.

(** [auth::middleware] around the routes. *)
Definition auth_middleware (ctx : AuthContext) (peer : option string) (req : HttpRequest) (next : HttpReply) : HttpReply :=
  match verify b64_decode ctx (h ← rq_authorization req; header_text h) peer with
  | Err e => into_response e
  | Ok _ => next
  end.

(** [rate_limit::middleware] around it; without a peer address it is the loopback's. *)
Definition rate_middleware (l : RateLimiter) (ip : option IpAddr) (now : Z) (next : HttpReply) : HttpReply * RateLimiter :=
  let '(allowed, l) := allow_at l (default (V4 2130706433) ip) now in
  (if allowed then next else into_response RateLimited, l).

(** [StatusApiServer::router]: the last layer is the outermost. *)
Definition respond (ctx : AuthContext) (l : RateLimiter) (st : AppState) (ip : option IpAddr) (peer : option string) (now utc : Z) (req : HttpRequest)
  : HttpReply * RateLimiter :=
  if match rq_content_length req with Some n => MAX_BODY_BYTES <? n | None => false end
  then (mkResponse 413 (BText "text/plain; charset=utf-8" "length limit exceeded"), l)
  else rate_middleware l ip now (auth_middleware ctx peer req (dispatch (route (rq_method req) (rq_path req)) st utc)).

Definition quoted (s : string) : string := String quote (s +:+ String quote "").

Definition reject_anonymous_non_loopback (cfg : StatusApiConfig) : Result Error unit :=
  match status_api_auth cfg with
  | AuthNone => if is_loopback (status_api_bind cfg).1 then Ok tt
                else Err (InvalidConfig ("status-api: refusing to start with auth.mode = " +:+ quoted "none" +:+ " on non-loopback bind "
                       +:+ socket_to_string (mkSocketAddr (status_api_bind cfg).1 (status_api_bind cfg).2 0)
                       +:+ "; set an authenticated [status_api.auth] mode (bearer/basic/mtls) or bind to loopback"))
  | _ => Ok tt
  end.

Record Server := mkServer { sv_tls : bool; sv_mtls : bool; sv_auth : AuthContext; sv_limiter : RateLimiter }.

Definition is_mtls (m : StatusApiAuthMode) : bool := match m with MutualTls _ _ => true | _ => false end.

(** What the certificates and the socket give. *)
Definition start (cfg : StatusApiConfig) (resolve : SecretRef -> Result Error (list Z)) (tls : bool) (bound : Result Error unit) : Result Error Server :=
  match from_config resolve (status_api_auth cfg) with
  | Err e => Err e
  | Ok ctx =>
      match bound with
      | Err e => Err e
      | Ok _ => Ok (mkServer tls (is_mtls (status_api_auth cfg)) ctx (RateLimiter_new (from_rps (f32_of_config (status_api_rate_limit_rps cfg)))))
      end
  end.

Definition launch_tls (cfg : StatusApiConfig) (resolve : SecretRef -> Result Error (list Z)) (tls_config bound : Result Error unit) : Result Error Server :=
  match tls_config with Err e => Err e | Ok _ => start cfg resolve true bound end.

Definition launch (cfg : StatusApiConfig) (resolve : SecretRef -> Result Error (list Z)) (tls_config bound : Result Error unit) : Result Error Server :=
  match reject_anonymous_non_loopback cfg with
  | Err e => Err e
  | Ok _ =>
      if negb (status_api_tls_enabled (status_api_tls cfg)) && is_mtls (status_api_auth cfg)
      then Err (InvalidConfig ("status_api: auth.mode = " +:+ quoted "mtls" +:+ " requires tls.enabled = true"))
      else if negb (status_api_tls_enabled (status_api_tls cfg)) then start cfg resolve false bound
      else launch_tls cfg resolve tls_config bound
  end.

(** A request on a connection: over TLS with the identity of the handshake, which
    a mutual configuration needs, over plain HTTP without one. *)
Definition serve (sv : Server) (l : RateLimiter) (conn : HttpConnection) (st : AppState) (now utc : Z) (req : HttpRequest) : option (HttpReply * RateLimiter) :=
  if sv_tls sv then
    if sv_mtls sv && negb (bool_decide (is_Some (cn_subject conn))) then None
    else Some (respond (sv_auth sv) l st (Some (cn_ip conn)) (cn_subject conn) now utc req)
  else Some (respond (sv_auth sv) l st (Some (cn_ip conn)) None now utc req).
End Server.

(** ** Who is answered *)

Lemma ct_eq_spec a b : ct_eq a b = true <-> a = b.
Proof.
  unfold ct_eq. destruct (Nat.eqb_spec (length a) (length b)) as [E|E]; cbn; [apply bool_decide_eq_true|]. split; [done|by intros ->].
Qed.

Section Guard.
Context (b64_decode : string -> option (list Z)) (fmt_ts : Z -> string) (route : string -> string -> Routed).
Context (cargo_version : string) (git_sha : option string).
Context (cfg : StatusApiConfig) (resolve : SecretRef -> Result Error (list Z)).

(** What a request must carry, by the configuration: nothing where everybody on
    the machine may ask; the token after [Bearer]; the encoding of the user, a
    colon and the password after [Basic]; a verified certificate with a subject
    of the list. *)
Definition credential (authorization : option (list Z)) (subject : option string) : Prop :=
  match status_api_auth cfg with
  | AuthNone => True
  | Bearer token_from =>
      exists token h, resolve token_from = Ok token /\ (l ← authorization; header_text l) = Some h /\
        exists t, h = ("Bearer " +:+ t)%string /\ bytes_of t = token
  | Basic user password_from =>
      exists password h, resolve password_from = Ok password /\ (l ← authorization; header_text l) = Some h /\
        exists e d s u p, h = ("Basic " +:+ e)%string /\ b64_decode e = Some d /\ text_of d = Some s /\ split_once ":" s = Some (u, p) /\
          bytes_of u = bytes_of user /\ bytes_of p = password
  | MutualTls _ allowed => exists dn, subject = Some dn /\ dn ∈ allowed
  end.

Lemma verify_exact ctx authorization subject :
  from_config resolve (status_api_auth cfg) = Ok ctx ->
  is_ok (verify b64_decode ctx (l ← authorization; header_text l) subject) = true <-> credential authorization subject.
Proof.
  unfold from_config, credential, verify. destruct (status_api_auth cfg) as [|r|user r|ca allowed].
  - by intros [= <-].
  - destruct (resolve r) as [token|e]; intros [= <-]. cbn [ac_mode]. split.
    + destruct (l ← authorization; header_text l) as [h|]; [|done]. destruct (strip_prefix "Bearer " h) as [t|] eqn:E; [|done].
      destruct (ct_eq (bytes_of t) token) eqn:Et; [|done]. intros _. apply ct_eq_spec in Et. apply strip_prefix_spec in E. naive_solver.
    + intros (token' & h & [= <-] & -> & t & -> & <-). rewrite strip_prefix_app. by rewrite (proj2 (ct_eq_spec _ _) eq_refl).
  - destruct (resolve r) as [pw|e]; intros [= <-]. cbn [ac_mode]. split.
    + destruct (l ← authorization; header_text l) as [h|]; [|done]. destruct (strip_prefix "Basic " h) as [t|] eqn:E; [|done].
      destruct (b64_decode t) as [d|] eqn:Ed; [|done]. destruct (text_of d) as [s|] eqn:Es; [|done]. destruct (split_once ":" s) as [[u p]|] eqn:Eu; [|done].
      destruct (ct_eq (bytes_of u) (bytes_of user)) eqn:E1, (ct_eq (bytes_of p) pw) eqn:E2; try done. intros _.
      apply ct_eq_spec in E1, E2. apply strip_prefix_spec in E. naive_solver.
    + intros (pw' & h & [= <-] & -> & e & d & s & u & p & -> & Hd & Hs & Hu & E1 & E2). rewrite strip_prefix_app, Hd, Hs, Hu.
      by rewrite (proj2 (ct_eq_spec _ _) E1), (proj2 (ct_eq_spec _ _) E2).
  - intros [= <-]. cbn [ac_mode]. split.
    + destruct subject as [dn|]; [|done]. destruct (existsb _ allowed) eqn:E; [|done]. intros _. exists dn. split; [done|].
      apply existsb_exists in E as (x & Hx & ->%String.eqb_eq). by apply list_elem_of_In.
    + intros (dn & -> & Hin). rewrite (proj2 (existsb_exists _ _)); [done|]. exists dn. split; [by apply list_elem_of_In|apply String.eqb_refl].
Qed.

Lemma launch_ok tls_config bound sv :
  launch cfg resolve tls_config bound = Ok sv ->
  from_config resolve (status_api_auth cfg) = Ok (sv_auth sv) /\ sv_mtls sv = is_mtls (status_api_auth cfg) /\
  sv_tls sv = status_api_tls_enabled (status_api_tls cfg) /\
  (is_mtls (status_api_auth cfg) = true -> sv_tls sv = true) /\
  (status_api_auth cfg = AuthNone -> is_loopback (status_api_bind cfg).1 = true).
Proof.
  unfold launch, launch_tls, reject_anonymous_non_loopback. intros H.
  assert (status_api_auth cfg = AuthNone -> is_loopback (status_api_bind cfg).1 = true) as Hl.
  { intros E. rewrite E in H. by destruct (is_loopback _). }
  assert (forall t, start cfg resolve t bound = Ok sv -> from_config resolve (status_api_auth cfg) = Ok (sv_auth sv) /\ sv_mtls sv = is_mtls (status_api_auth cfg) /\ sv_tls sv = t) as Hs.
  { intros t. unfold start. destruct (from_config _ _); [|done]. destruct bound; [|done]. by intros [= <-]. }
  destruct (match status_api_auth cfg with AuthNone => _ | _ => _ end); [|done].
  destruct (status_api_tls_enabled (status_api_tls cfg)), (is_mtls (status_api_auth cfg)); cbn [negb andb] in H; try done; try (destruct tls_config; [|done]);
    apply Hs in H as (? & ? & ?); by repeat split.
Qed.

Lemma verify_errors ctx a subject e : verify b64_decode ctx a subject = Err e -> e = Unauthorized \/ e = Forbidden.
Proof. unfold verify. intros H. repeat (case_match; try discriminate H); injection H as <-; eauto. Qed.

Abbreviation respond' := (respond b64_decode fmt_ts route cargo_version git_sha).

(** Without a subject the answer is a refusal, and the same for every state. *)
Lemma no_subject_refused ctx l st st' ip peer now utc req :
  is_ok (verify b64_decode ctx (h ← rq_authorization req; header_text h) peer) = false ->
  respond' ctx l st ip peer now utc req = respond' ctx l st' ip peer now utc req /\
  rp_status (respond' ctx l st ip peer now utc req).1 ∈ [401; 403; 413; 429].
Proof.
  unfold respond, rate_middleware, auth_middleware. destruct (match rq_content_length req with Some n => _ | None => _ end); [split; [done|cbn; set_solver]|].
  destruct (allow_at l _ now) as [allowed l1]. destruct (verify _ _ _ _) as [x|e] eqn:E; [done|]. intros _. split; [done|].
  destruct allowed; [|cbn; set_solver]. apply verify_errors in E as [-> | ->]; cbn; set_solver.
Qed.

(** With one, and within the limits, it is the handler's. *)
Lemma subject_answered ctx l st ip peer now utc req :
  is_ok (verify b64_decode ctx (h ← rq_authorization req; header_text h) peer) = true ->
  match rq_content_length req with Some n => MAX_BODY_BYTES <? n | None => false end = false -> (allow_at l ip now).1 = true ->
  (respond' ctx l st (Some ip) peer now utc req).1 = dispatch fmt_ts cargo_version git_sha (route (rq_method req) (rq_path req)) st utc.
Proof.
  intros Hv Hlen Ha. unfold respond, rate_middleware, auth_middleware. rewrite Hlen. change (default (V4 2130706433) (Some ip)) with ip. destruct (allow_at l ip now) as [[] l1]; [|done].
  revert Hv. by destruct (verify _ _ _ _).
Qed.

(** The identity counts over TLS only, where a mutual configuration needs one. *)
Lemma serve_eq sv l conn st now utc req :
  let subject := if sv_tls sv then cn_subject conn else None in
  serve b64_decode fmt_ts route cargo_version git_sha sv l conn st now utc req
  = if sv_tls sv && (sv_mtls sv && negb (bool_decide (is_Some (cn_subject conn)))) then None
    else Some (respond' (sv_auth sv) l st (Some (cn_ip conn)) subject now utc req).
Proof. unfold serve. by destruct (sv_tls sv), (sv_mtls sv && _). Qed.

(** C14: a request learns about the tunnels only with the configured credential.
    Whatever server starts, with TLS or without: a request without it is dropped
    or answered 401, 403, 413 or 429, and the answer is the same whatever the
    state is, so that nothing of the state shows; a request with it that is
    neither too large nor over its rate is answered by the handler.  A server
    that asks for no credential is bound to a loopback address. *)
Theorem status_api_guarded tls_config bound sv l conn now utc req :
  launch cfg resolve tls_config bound = Ok sv ->
  let answer st := serve b64_decode fmt_ts route cargo_version git_sha sv l conn st now utc req in
  (status_api_auth cfg = AuthNone -> is_loopback (status_api_bind cfg).1 = true) /\
  (~ credential (rq_authorization req) (cn_subject conn) ->
    (forall st st', answer st = answer st') /\ (forall st r l', answer st = Some (r, l') -> rp_status r ∈ [401; 403; 413; 429])) /\
  (credential (rq_authorization req) (cn_subject conn) ->
   match rq_content_length req with Some n => MAX_BODY_BYTES <? n | None => false end = false -> (allow_at l (cn_ip conn) now).1 = true ->
   forall st, fst <$> answer st = Some (dispatch fmt_ts cargo_version git_sha (route (rq_method req) (rq_path req)) st utc)).
Proof.
  intros H answer. destruct (launch_ok _ _ _ H) as (Hc & Hm & Ht & Hmt & Hl). split; [done|].
  set (subject := if sv_tls sv then cn_subject conn else None).
  assert (is_ok (verify b64_decode (sv_auth sv) (h ← rq_authorization req; header_text h) subject) = true <-> credential (rq_authorization req) (cn_subject conn)) as Hv.
  { rewrite verify_exact by done. subst subject. destruct (sv_tls sv); [done|]. unfold credential. destruct (status_api_auth cfg); try done. by specialize (Hmt eq_refl). }
  assert (forall st, answer st = if sv_tls sv && (sv_mtls sv && negb (bool_decide (is_Some (cn_subject conn)))) then None
    else Some (respond' (sv_auth sv) l st (Some (cn_ip conn)) subject now utc req)) as Hs by (intros st; apply serve_eq). split.
  - rewrite <- Hv, not_true_iff_false. intros Hno. pose proof (fun st st' => no_subject_refused (sv_auth sv) l st st' (Some (cn_ip conn)) subject now utc req Hno) as Hr.
    split; [intros st st'|intros st r l']; rewrite !Hs; (destruct (sv_tls sv && _); [done|]); [by rewrite (proj1 (Hr st st'))|].
    intros E. injection E as E. pose proof (proj2 (Hr st st)) as Hst. rewrite E in Hst. exact Hst.
  - intros Hyes Hlen Hallow st. rewrite Hs. destruct (sv_tls sv && _) eqn:E.
    + apply andb_true_iff in E as [_ [Em En]%andb_true_iff]. unfold credential in Hyes. rewrite Hm in Em. destruct (status_api_auth cfg); try done.
      destruct Hyes as (dn & Es & _). by rewrite Es in En.
    + cbn [fmap option_fmap option_map]. f_equal. apply subject_answered; [by apply Hv|done|done].
Qed.
End Guard.

(** A user name with a colon shuts everybody out: the name ends at the first
    colon of what is presented. *)
Lemma split_once_head c s h t : split_once c s = Some (h, t) -> no_char c h = true.
Proof.
  revert h. induction s as [|a s IH]; intros h; [done|]. cbn [split_once]. destruct (Ascii.eqb a c) eqn:E; [by intros [= <- _]|].
  destruct (split_once c s) as [[h' t']|]; [|done]. intros [= <- <-]. cbn [no_char]. by rewrite E, (IH h').
Qed.

Theorem colon_user_locked_out b64 cfg resolve user r authorization subject :
  status_api_auth cfg = Basic user r -> contains_char ":" user = true -> ~ credential b64 cfg resolve authorization subject.
Proof.
  intros E Hc Hcred. unfold credential in Hcred. rewrite E in Hcred. destruct Hcred as (pw & h & _ & _ & e & d & s & u & p & _ & _ & _ & Hs & Hu & _).
  apply (f_equal string_of) in Hu. rewrite !string_of_bytes in Hu. subst u. apply split_once_head in Hs. unfold contains_char in Hc. by rewrite Hs in Hc.
Qed.

(** ** Rates are per address *)

Theorem limiter_isolated l a b t now :
  a <> b -> (size (li_buckets l) < 1024)%nat -> (allow_at (allow_at l a t).2 b now).1 = (allow_at l b now).1.
Proof.
  intros Hab Hs. assert (li_cfg (allow_at l a t).2 = li_cfg l /\ exists x, li_buckets (allow_at l a t).2 = <[a := x]> (li_buckets l)) as (Ec & x & Eb).
  { unfold allow_at. rewrite (proj2 (Nat.ltb_ge 1024 _)) by lia. destruct (SFleb _ _); cbn; eauto. }
  unfold allow_at at 1 3. rewrite Ec, Eb.
  assert (size (<[a := x]> (li_buckets l)) <= 1024)%nat as Hsz.
  { rewrite map_size_insert. destruct (li_buckets l !! a); unfold id; lia. }
  rewrite (proj2 (Nat.ltb_ge 1024 _)) by done. rewrite (proj2 (Nat.ltb_ge 1024 (size (li_buckets l)))) by lia. rewrite lookup_insert_ne by done.
  by destruct (SFleb _ _).
Qed.

(** ** What the daemon writes ([cli_dispatch.rs]) *)

Definition on_profiles (f : list ProfileStatus -> list ProfileStatus) (s : StatusSnapshot) : StatusSnapshot :=
  mkStatusSnapshot (sn_pid s) (sn_version s) (sn_config_fingerprint_sha256 s) (sn_started_at s) (sn_written_at s) (f (sn_profiles s)) (sn_forwards s)
    (sn_sessions s) (sn_connections s) (sn_dns_records s) (sn_failover_state s) (sn_last_errors s) (sn_counters s).

Definition with_state (state : string) (p : ProfileStatus) : ProfileStatus :=
  mkProfileStatus (ps_id p) state (ps_active_endpoint p) (ps_reconnect_count p) (ps_failover_count p) (ps_last_successful_connection_at p) (ps_last_error_category p).
Definition with_error (category : string) (p : ProfileStatus) : ProfileStatus :=
  mkProfileStatus (ps_id p) (ps_state p) (ps_active_endpoint p) (ps_reconnect_count p) (ps_failover_count p) (ps_last_successful_connection_at p) (Some category).

(** The first profile of a name is changed. *)
Fixpoint on_first (name : string) (f : ProfileStatus -> ProfileStatus) (l : list ProfileStatus) : list ProfileStatus :=
  match l with
  | [] => []
  | p :: r => if (ps_id p =? name)%string then f p :: r else p :: on_first name f r
  end.

(** The updates of a run: identity and profiles at its start, a profile that
    cannot be built, the end of the start, a reload and the stop. *)
Inductive DaemonUpdate :=
| DStart (pid : Z) (version fingerprint : string) (now : Z) (selected : list string)
| DBuildFailed (profile category : string)
| DStarted
| DReloaded (fingerprint : string)
| DStopping.

Definition mark_start (pid : Z) (version fingerprint : string) (now : Z) (selected : list string) (s : StatusSnapshot) : StatusSnapshot :=
  mkStatusSnapshot pid version fingerprint (Some now) (sn_written_at s) ((fun n => mkProfileStatus n "starting" None 0 0 None None) <$> selected)
    (sn_forwards s) (sn_sessions s) (sn_connections s) (sn_dns_records s) (sn_failover_state s) (sn_last_errors s) (sn_counters s).
Definition mark_failed (profile category : string) : StatusSnapshot -> StatusSnapshot :=
  on_profiles (on_first profile (fun p => with_error category (with_state "failed" p))).
Definition mark_started : StatusSnapshot -> StatusSnapshot :=
  on_profiles (fmap (fun p => if (ps_state p =? "starting")%string then with_state "running" p else p)).
Definition mark_reloaded (fingerprint : string) (s : StatusSnapshot) : StatusSnapshot :=
  mkStatusSnapshot (sn_pid s) (sn_version s) fingerprint (sn_started_at s) (sn_written_at s) (sn_profiles s) (sn_forwards s)
    (sn_sessions s) (sn_connections s) (sn_dns_records s) (sn_failover_state s) (sn_last_errors s) (sn_counters s).
Definition mark_stopping : StatusSnapshot -> StatusSnapshot :=
  on_profiles (fmap (fun p => if (ps_state p =? "failed")%string then p else with_state "stopping" p)).

Definition daemon_update (s : StatusSnapshot) (u : DaemonUpdate) : StatusSnapshot :=
  match u with
  | DStart pid version fingerprint now selected => mark_start pid version fingerprint now selected s
  | DBuildFailed profile category => mark_failed profile category s
  | DStarted => mark_started s
  | DReloaded fingerprint => mark_reloaded fingerprint s
  | DStopping => mark_stopping s
  end.

Definition daemon_snapshot (us : list DaemonUpdate) : StatusSnapshot := foldl daemon_update StatusSnapshot_default us.

(** The states a profile shows, whatever its supervisor does. *)
Lemma daemon_states us :
  Forall (fun p => ps_state p ∈ ["starting"; "running"; "failed"; "stopping"]%string /\ ps_last_successful_connection_at p = None) (sn_profiles (daemon_snapshot us)).
Proof.
  unfold daemon_snapshot. induction us as [|u us IH] using rev_ind; [constructor|]. rewrite foldl_app. cbn [foldl].
  destruct u; cbn [daemon_update mark_start mark_failed mark_started mark_reloaded mark_stopping on_profiles sn_profiles].
  - apply Forall_fmap, Forall_true. intros n. split; [cbn; set_solver|done].
  - induction IH as [|p l [Hp Hl] Hr IH]; [constructor|]. cbn [on_first]. destruct (ps_id p =? profile)%string; constructor; try done. split; [cbn; set_solver|done].
  - apply Forall_fmap. eapply Forall_impl; [exact IH|]. intros p [Hp Hl]. cbn. destruct (ps_state p =? "starting")%string; [|done]. split; [cbn; set_solver|done].
  - exact IH.
  - apply Forall_fmap. eapply Forall_impl; [exact IH|]. intros p [Hp Hl]. cbn. destruct (ps_state p =? "failed")%string; [done|]. split; [cbn; set_solver|done].
Qed.

Lemma built_states us :
  Forall (fun u => match u with DBuildFailed _ _ => False | _ => True end) us ->
  Forall (fun p => ps_state p <> "failed"%string) (sn_profiles (daemon_snapshot us)).
Proof.
  unfold daemon_snapshot. induction us as [|u us IH] using rev_ind; [constructor|]. rewrite Forall_app, foldl_app. intros [Hus Hu]. apply Forall_inv in Hu. specialize (IH Hus). cbn [foldl].
  destruct u; cbn [daemon_update mark_start mark_failed mark_started mark_reloaded mark_stopping on_profiles sn_profiles]; try done.
  - by apply Forall_fmap, Forall_true.
  - apply Forall_fmap. eapply Forall_impl; [exact IH|]. intros p Hp. cbn. by destruct (ps_state p =? "starting")%string.
  - apply Forall_fmap. eapply Forall_impl; [exact IH|]. intros p Hp. cbn. by destruct (ps_state p =? "failed")%string.
Qed.

(** The health endpoint of the daemon sees only whether a profile could be built:
    as long as all could, it answers 200 at every time, however their tunnels
    fare. *)
Theorem health_blind us metrics_text expose now :
  Forall (fun u => match u with DBuildFailed _ _ => False | _ => True end) us ->
  rp_status (health (AppState_new (daemon_snapshot us) metrics_text expose) now) = 200.
Proof.
  intros Hu. unfold health. cbn [as_snapshot AppState_new]. destruct (List.find _ _) as [p|] eqn:E; [|done]. apply find_some in E as [Hp%list_elem_of_In Hd].
  pose proof (daemon_states us) as Hs. pose proof (built_states us Hu) as Hb. rewrite Forall_forall in Hs, Hb. destruct (Hs _ Hp) as [Hst _]. specialize (Hb _ Hp).
  unfold degraded in Hd. apply andb_true_iff in Hd as [Hd _]. set_unfold in Hst. destruct Hst as [E|[E|[E|[E|[]]]]]; rewrite E in Hd, Hb; vm_compute in Hd; done.
Qed.

(** ** Witnesses and examples *)

Definition demo_resolve (r : SecretRef) : Result Error (list Z) := Ok (bytes_of "s3cret").
Definition demo_api : StatusApiConfig :=
  mkStatusApiConfig true (V4 0, 9617) true true (F32 1 0) StatusApiTlsConfig_default (Bearer (mkSecretRef "api" "token")).
Definition demo_request (header : string) : HttpRequest := mkRequest "GET" "/v1/status" (Some (bytes_of header)) None.
Definition demo_route (m p : string) : Routed := if (p =? "/v1/status")%string then RStatus else RNotFound.
Definition demo_client : HttpConnection := mkConnection (V4 167772161) None.

Definition demo_server : Server := mkServer false false (mkAuthContext (ModeBearer (bytes_of "s3cret"))) (RateLimiter_new (from_rps (f32_of_config (F32 1 0)))).

Lemma demo_launch : launch demo_api demo_resolve (Ok tt) (Ok tt) = Ok demo_server.
Proof. vm_compute. reflexivity. Qed.

Lemma demo_wrong : ~ credential (fun _ => None) demo_api demo_resolve (Some (bytes_of "Bearer guess")) None.
Proof. unfold credential. cbn [status_api_auth demo_api]. intros (tok & h & Ht & Hh & t & -> & Hb).
  injection Ht as <-. assert (t = "guess"%string) as ->.
  { apply (f_equal (fmap (strip_prefix "Bearer "))) in Hh. cbn [fmap option_fmap option_map] in Hh. rewrite strip_prefix_app in Hh. vm_compute in Hh. by injection Hh. }
  vm_compute in Hb. discriminate Hb.
Qed.

Lemma status_api_guarded_witness :
  let answer st := serve (fun _ => None) pretty demo_route "1.0" None demo_server (sv_limiter demo_server) demo_client st 0 0 (demo_request "Bearer guess") in
  (forall st st', answer st = answer st') /\ rp_status <$> (fst <$> answer (AppState_new StatusSnapshot_default "" true)) = Some 401.
Proof.
  destruct (status_api_guarded (fun _ => None) pretty demo_route "1.0" None demo_api demo_resolve (Ok tt) (Ok tt) demo_server (sv_limiter demo_server) demo_client 0 0
    (demo_request "Bearer guess") demo_launch) as (_ & Hno & _).
  split; [exact (proj1 (Hno demo_wrong))|vm_compute; reflexivity].
Defined.

(** The keys of [fields] are not those of the contract: a host key that goes
    through them is lost. *)
Example fields_lose_host_key :
  let nc := default NegotiatedCrypto_default (nc_parse "transport=ssh2 kex=curve25519-sha256 hostkey=ssh-ed25519") in
  let text := foldr (fun '(k, v) s => (k +:+ "=" +:+ v +:+ " " +:+ s)%string) ""%string (nc_fields nc) in
  nc_host_key_algo nc = Some "ssh-ed25519"%string /\ (nc_host_key_algo <$> nc_parse text) = Some None.
Proof. vm_compute. split; reflexivity. Qed.

(** The burst is not rounded up: at one and a half requests a second the second
    one of a client is refused. *)
Example burst_not_rounded_up :
  let '(first, l) := allow_at (RateLimiter_new (from_rps (f32_of_config (F32 3 (-1))))) (V4 1) 0 in
  first = true /\ (allow_at l (V4 1) 0).1 = false.
Proof. vm_compute. split; reflexivity. Qed.

(** A profile that was up for an hour and has just begun to reconnect counts as
    reconnecting for too long. *)
Example health_measures_since_success :
  let p := mkProfileStatus "home" "reconnecting" None 1 0 (Some 0) None in
  degraded (from_secs 3600) 30 p = true.
Proof. vm_compute. reflexivity. Qed.
