(* ===== verification/SealedConfig.v ===== *)
(** * Sealed configuration files

    Models [crates/spt-config-crypt/src]: the framing of an [SPTENC1] envelope
    ([envelope.rs]), the derivation of keys ([kdf.rs], [keygen.rs]), sealing and
    unsealing ([sealing.rs]) and signatures ([signing.rs]).

    Parameters, with the laws the code relies on: base64, the TOML text of the
    three documents, AES-256-GCM, Argon2id, SHA-256, X25519, Ed25519, and the
    random generator, which fills buffers.  None of the laws says that something
    cannot be forged.  A byte is a [Z] in [0, 256), a key its bytes. *)

From S2P Require Import Prelude Bytes Text Ip Errors Dynamic ValidateProfile Base64.

Definition blen (l : list Z) : Z := Z.of_nat (length l).

(** [&buf[a..b]]. *)
Definition slice (buf : list Z) (a b : Z) : list Z := take (Z.to_nat (b - a)) (drop (Z.to_nat a) buf).

(** ** Documents ([envelope.rs]) *)

Definition MAGIC : list Z := bytes_of "SPTENC1" ++ [10].
Definition FORMAT_VERSION : Z := 1.
Definition MAX_SECTION_LEN : Z := 16 * 1024 * 1024.

Record PskParams := mkPskParams { ps_psk_id : option string }.
Record Argon2idParams := mkArgon2idParams {
  ar_memory_kib : Z;
  ar_iterations : Z;
  ar_parallelism : Z;
  ar_salt_b64 : string
}.
Record Recipient := mkRecipient {
  rc_pubkey_b64 : string;
  rc_ephemeral_b64 : string;
  rc_wrap_nonce_b64 : string;
  rc_wrapped_key_b64 : string
}.
Record VaultParams := mkVaultParams { va_salt_b64 : string }.
Record Meta := mkMeta {
  me_version : Z;
  me_aead : string;
  me_kdf : string;
  me_argon2id : option Argon2idParams;
  me_recipients : list Recipient;
  me_vault : option VaultParams;
  me_psk : option PskParams
}.
Record Body := mkBody { bo_nonce_b64 : string; bo_ciphertext_b64 : string }.
Record Signature := mkSignature { si_pubkey_b64 : string; si_sig_b64 : string }.

#[export] Instance PskParams_eq_dec : EqDecision PskParams.
Proof. solve_decision. Defined.
#[export] Instance Argon2idParams_eq_dec : EqDecision Argon2idParams.
Proof. solve_decision. Defined.
#[export] Instance Recipient_eq_dec : EqDecision Recipient.
Proof. solve_decision. Defined.
#[export] Instance VaultParams_eq_dec : EqDecision VaultParams.
Proof. solve_decision. Defined.
#[export] Instance Meta_eq_dec : EqDecision Meta.
Proof. solve_decision. Defined.
#[export] Instance Body_eq_dec : EqDecision Body.
Proof. solve_decision. Defined.
#[export] Instance Signature_eq_dec : EqDecision Signature.
Proof. solve_decision. Defined.

(** ** What the code is given *)

(** The [base64] crate's standard alphabet. *)
Class Base64Crate := {
  b64_encode : list Z -> string;
  b64_decode : string -> Result string (list Z);
  b64_back : forall l, Forall byte_ok l -> b64_decode (b64_encode l) = Ok l
}.

(** [toml] on a document type: what it writes is UTF-8 and reads back. *)
Class TomlDoc (A : Type) := {
  to_toml : A -> Result string string;
  from_toml : string -> Result string A;
  toml_utf8 : forall x s, to_toml x = Ok s -> text_of (bytes_of s) = Some s;
  toml_back : forall x s, to_toml x = Ok s -> from_toml s = Ok x
}.

(** The message of a failed [from_utf8]. *)
Class Utf8Message := utf8_error : list Z -> string.

(** The ciphers, hashes and curves. [x25519_agree] is Diffie-Hellman. *)
Class SealCrypto := {
  aes_encrypt : list Z -> list Z -> list Z -> list Z -> option (list Z);
  aes_decrypt : list Z -> list Z -> list Z -> list Z -> option (list Z);
  aead_error : string;
  argon2_params : Z -> Z -> Z -> Result string unit;
  argon2_hash : Z -> Z -> Z -> list Z -> list Z -> Result string (list Z);
  sha256 : list Z -> list Z;
  x25519_public : list Z -> list Z;
  x25519_shared : list Z -> list Z -> list Z;
  ed25519_public : list Z -> list Z;
  ed25519_sign : list Z -> list Z -> list Z;
  ed25519_key : list Z -> Result string unit;
  ed25519_verify : list Z -> list Z -> list Z -> Result string unit;
  aes_back : forall k n a m c, aes_encrypt k n a m = Some c -> aes_decrypt k n a c = Some m;
  aes_bytes : forall k n a m c, aes_encrypt k n a m = Some c -> Forall byte_ok c;
  sha256_size : forall m, length (sha256 m) = 32%nat /\ Forall byte_ok (sha256 m);
  x25519_size : forall s, length (x25519_public s) = 32%nat /\ Forall byte_ok (x25519_public s);
  x25519_agree : forall a b, x25519_shared a (x25519_public b) = x25519_shared b (x25519_public a);
  ed25519_size : forall sk, length (ed25519_public sk) = 32%nat /\ Forall byte_ok (ed25519_public sk);
  ed25519_sig_size : forall sk m, length (ed25519_sign sk m) = 64%nat /\ Forall byte_ok (ed25519_sign sk m);
  ed25519_own_key : forall sk, ed25519_key (ed25519_public sk) = Ok tt;
  ed25519_own : forall sk m, ed25519_verify (ed25519_public sk) m (ed25519_sign sk m) = Ok tt
}.

(** [fill_bytes] of a buffer of the given size. *)
Class ByteRng (R : Type) := {
  fill : R -> nat -> list Z * R;
  fill_size : forall r n, length (fill r n).1 = n /\ Forall byte_ok (fill r n).1
}.

Definition crypto_failed {A} (m : string) : Result Error A := Err (SecretCryptoFailed m).

(** [map_err]. *)
Definition map_err {E F A} (f : E -> F) (r : Result E A) : Result F A :=
  match r with Ok x => Ok x | Err e => Err (f e) end.

Definition crypto_err {A} (what : string) (r : Result string A) : Result Error A :=
  map_err (fun e => SecretCryptoFailed (what +:+ ": " +:+ e)) r.

(** ** Framing *)

Definition read_section (buf : list Z) (at_ : Z) (name : string) : Result Error (list Z * Z) :=
  if blen buf <? at_ + 4 then crypto_failed ("truncated envelope: missing " +:+ name +:+ " length prefix")
  else
    let len := from_be_bytes (slice buf at_ (at_ + 4)) in
    if MAX_SECTION_LEN <? len then
      crypto_failed (name +:+ " section length " +:+ pretty len +:+ " exceeds max " +:+ pretty MAX_SECTION_LEN)
    else
      let start := at_ + 4 in
      if umax 64 <? start + len then crypto_failed (name +:+ " length overflow")
      else
        let end_ := start + len in
        if blen buf <? end_ then
          crypto_failed ("truncated envelope: " +:+ name +:+ " section wants " +:+ pretty len +:+ " bytes, have "
                         +:+ pretty (sat_sub (blen buf) start))
        else Ok (slice buf start end_, end_).

Definition over_cap (s : list Z) : bool := MAX_SECTION_LEN <? blen s.

Definition section (s : list Z) : list Z := to_be_bytes 4 (blen s) ++ s.

Definition write_envelope (meta_bytes body_bytes : list Z) (sig_bytes : option (list Z)) : Result Error (list Z) :=
  if over_cap meta_bytes || over_cap body_bytes || match sig_bytes with Some s => over_cap s | None => false end
  then crypto_failed "envelope section exceeds 16 MiB cap"
  else Ok (MAGIC ++ section meta_bytes ++ section body_bytes ++ match sig_bytes with Some s => section s | None => [] end).

Record ParsedEnvelope := mkParsed {
  pe_meta_bytes : list Z;
  pe_body_bytes : list Z;
  pe_sig_bytes : option (list Z)
}.

(** The first half of [ParsedEnvelope::parse]: the three sections. *)
Definition parse_sections (sealed : list Z) : Result Error ParsedEnvelope :=
  if blen sealed <? blen MAGIC then crypto_failed "not sealed: too short"
  else if negb (bool_decide (slice sealed 0 (blen MAGIC) = MAGIC)) then crypto_failed "not sealed: magic mismatch"
  else
    '(meta_bytes, cur) ← read_section sealed (blen MAGIC) "meta";
    '(body_bytes, cur) ← read_section sealed cur "body";
    sig_bytes ← (if cur <? blen sealed then '(s, _) ← read_section sealed cur "signature"; Ok (Some s) else Ok None);
    Ok (mkParsed meta_bytes body_bytes sig_bytes).

Section Docs.
Context `{utf8 : Utf8Message}.

Definition read_doc {A} `{TomlDoc A} (name : string) (bytes : list Z) : Result Error A :=
  match text_of bytes with
  | None => crypto_failed (name +:+ " utf8: " +:+ utf8_error bytes)
  | Some s => crypto_err (name +:+ " toml") (from_toml s)
  end.

(** [meta_to_bytes], [body_to_bytes] and [signature_to_bytes]. *)
Definition write_doc {A} `{TomlDoc A} (name : string) (x : A) : Result Error (list Z) :=
  s ← crypto_err (name +:+ " serialize") (to_toml x); Ok (bytes_of s).

Context `{tmeta : TomlDoc Meta} `{tbody : TomlDoc Body} `{tsig : TomlDoc Signature}.

Definition meta_to_bytes (m : Meta) : Result Error (list Z) := write_doc "meta" m.
Definition body_to_bytes (b : Body) : Result Error (list Z) := write_doc "body" b.
Definition signature_to_bytes (s : Signature) : Result Error (list Z) := write_doc "signature" s.

Definition parse (sealed : list Z) : Result Error (ParsedEnvelope * Meta * Body * option Signature) :=
  p ← parse_sections sealed;
  meta ← read_doc "meta" (pe_meta_bytes p);
  body ← read_doc "body" (pe_body_bytes p);
  sig ← match pe_sig_bytes p with Some sb => s ← read_doc "signature" sb; Ok (Some s) | None => Ok None end;
  Ok (p, meta, body, sig).

End Docs.

(** ** Keys ([kdf.rs], [keygen.rs]) *)

(** Where the body key comes from. *)
Inductive KeySource :=
| Passphrase (pp : list Z)
| VaultMaster (master : list Z)
| X25519Recipients (keys : list (list Z))
| X25519Secrets (secrets : list (list Z))
| Psk (psk : list Z).

Definition variant_tag (k : KeySource) : string :=
  match k with
  | Passphrase _ => "argon2id"
  | VaultMaster _ => "vault"
  | X25519Recipients _ | X25519Secrets _ => "x25519"
  | Psk _ => "psk"
  end.

(** A record of the audit trail: [recipients_count] beside the key derivation. *)
Record CryptAudit := mkAudit { au_kind : string; au_kdf : string; au_recipients_count : Z }.

(** What a call records, and its result. *)
Definition Audited (A : Type) : Type := list CryptAudit * Result Error A.

Definition vault_info : list Z := bytes_of "spt-config-crypt/v1/vault".
Definition x25519_info : list Z := bytes_of "spt-config-crypt/v1/x25519".

Section Sealing.
Context `{base64 : Base64Crate} `{crypto : SealCrypto} `{utf8 : Utf8Message} `{tmeta : TomlDoc Meta} `{tbody : TomlDoc Body} `{tsig : TomlDoc Signature} {R : Type} `{rand : ByteRng R}.

Definition default_with_salt (salt : list Z) : Argon2idParams := mkArgon2idParams (64 * 1024) 3 4 (b64_encode salt).

Definition argon2id_salt (p : Argon2idParams) : Result Error (list Z) := crypto_err "argon2id salt b64" (b64_decode (ar_salt_b64 p)).

Definition vault_salt (v : VaultParams) : Result Error (list Z) := crypto_err "vault salt b64" (b64_decode (va_salt_b64 v)).

Definition VaultParams_new_random (rng : R) : VaultParams * R :=
  let '(salt, rng) := fill rng 16 in (mkVaultParams (b64_encode salt), rng).

Definition body_nonce (b : Body) : Result Error (list Z) :=
  raw ← crypto_err "body nonce b64" (b64_decode (bo_nonce_b64 b));
  if negb (blen raw =? 12) then crypto_failed ("body nonce must be 12 bytes, got " +:+ pretty (blen raw)) else Ok raw.

Definition body_ciphertext (b : Body) : Result Error (list Z) := crypto_err "body ciphertext b64" (b64_decode (bo_ciphertext_b64 b)).

Definition derive_argon2id (passphrase : list Z) (p : Argon2idParams) : Result Error (list Z) :=
  _ ← crypto_err "argon2id params" (argon2_params (ar_memory_kib p) (ar_iterations p) (ar_parallelism p));
  salt ← argon2id_salt p;
  crypto_err "argon2id derive" (argon2_hash (ar_memory_kib p) (ar_iterations p) (ar_parallelism p) passphrase salt).

(** The key fills a block of 64 bytes, hashed first where it is longer. *)
Definition hmac_sha256 (key msg : list Z) : list Z :=
  let k_block := if 64 <? blen key then sha256 key ++ replicate 32 0 else key ++ replicate (64 - length key) 0 in
  let ipad := Z.lxor 0x36 <$> k_block in
  let opad := Z.lxor 0x5c <$> k_block in
  sha256 (opad ++ sha256 (ipad ++ msg)).

Definition hkdf_sha256 (ikm salt info : list Z) : list Z :=
  let prk := hmac_sha256 salt ikm in
  hmac_sha256 prk (info ++ [0x01]).

Definition generate_x25519 (rng : R) : list Z * list Z := let '(scalar, _) := fill rng 32 in (scalar, x25519_public scalar).
Definition generate_psk (rng : R) : list Z := (fill rng 32).1.

Definition psk_id (psk : list Z) : string := foldr (fun b s => hex_byte b +:+ s) "" (take 4 (sha256 psk)).

(** ** Sealing ([sealing.rs]) *)

Definition is_sealed (bytes : list Z) : bool := (blen MAGIC <=? blen bytes) && bool_decide (slice bytes 0 (blen MAGIC) = MAGIC).

Definition peek_meta (bytes : list Z) : Result Error Meta := '(_, meta, _, _) ← parse bytes; Ok meta.

(** The key that wraps the body key for one recipient. *)
Definition wrap_key (shared eph_pub rec_pub : list Z) : list Z := hkdf_sha256 shared [] (x25519_info ++ eph_pub ++ rec_pub).

(** One round of the loop over the recipients. *)
Definition wrap_for (rng : R) (body_key pk : list Z) : Result Error (Recipient * R) :=
  let '(eph, rng) := fill rng 32 in
  let eph_pub := x25519_public eph in
  let key := wrap_key (x25519_shared eph pk) eph_pub pk in
  let '(wrap_nonce, rng) := fill rng 12 in
  match aes_encrypt key wrap_nonce [] body_key with
  | None => crypto_failed ("x25519 wrap: " +:+ aead_error)
  | Some wrapped => Ok (mkRecipient (b64_encode pk) (b64_encode eph_pub) (b64_encode wrap_nonce) (b64_encode wrapped), rng)
  end.

Fixpoint wrap_all (rng : R) (body_key : list Z) (recipients : list (list Z)) : Result Error (list Recipient * R) :=
  match recipients with
  | [] => Ok ([], rng)
  | pk :: rest =>
      '(r, rng) ← wrap_for rng body_key pk;
      '(rs, rng) ← wrap_all rng body_key rest;
      Ok (r :: rs, rng)
  end.

Definition meta_for (kdf : string) (argon : option Argon2idParams) (recs : list Recipient) (vault : option VaultParams) (psk : option PskParams) : Meta :=
  mkMeta FORMAT_VERSION "aes-256-gcm" kdf argon recs vault psk.

(** Step 1 of [seal]: the header and the body key. *)
Definition build_meta (rng : R) (key : KeySource) : Result Error (Meta * list Z * R) :=
  match key with
  | Passphrase pp =>
      let '(salt, rng) := fill rng 16 in
      let params := default_with_salt salt in
      k ← derive_argon2id pp params;
      Ok (meta_for "argon2id" (Some params) [] None None, k, rng)
  | VaultMaster master =>
      let '(vault, rng) := VaultParams_new_random rng in
      salt ← vault_salt vault;
      Ok (meta_for "vault" None [] (Some vault) None, hkdf_sha256 master salt vault_info, rng)
  | X25519Recipients [] => Err (InvalidArgs "x25519 seal requires at least one recipient")
  | X25519Recipients recipients =>
      let '(body_key, rng) := fill rng 32 in
      '(recs, rng) ← wrap_all rng body_key recipients;
      Ok (meta_for "x25519" None recs None None, body_key, rng)
  | Psk psk => Ok (meta_for "psk" None [] None (Some (mkPskParams (Some (psk_id psk)))), psk, rng)
  | X25519Secrets _ => Err (InvalidArgs "X25519Secrets is unseal-only; seal with X25519Recipients(public keys)")
  end.

(** Steps 2 and 3: the text of the header is authenticated with the body. *)
Definition seal_body (rng : R) (plaintext : list Z) (meta : Meta) (body_key : list Z) : Result Error (list Z) :=
  meta_bytes ← meta_to_bytes meta;
  let '(nonce, _) := fill rng 12 in
  match aes_encrypt body_key nonce (MAGIC ++ meta_bytes) plaintext with
  | None => crypto_failed ("body encrypt: " +:+ aead_error)
  | Some ciphertext =>
      body_bytes ← body_to_bytes (mkBody (b64_encode nonce) (b64_encode ciphertext));
      write_envelope meta_bytes body_bytes None
  end.

Definition seal (rng : R) (plaintext : list Z) (key : KeySource) : Audited (list Z) :=
  let recipients_count := match key with X25519Recipients r => Z.of_nat (length r) | _ => 0 end in
  ([mkAudit "audit.config_crypt.seal" (variant_tag key) recipients_count],
   '(meta, body_key, rng) ← build_meta rng key; seal_body rng plaintext meta body_key).

(** ** Unsealing *)

(** One candidate secret against one recipient. *)
Definition try_secret (eph_pub rec_pub wrap_nonce wrapped secret : list Z) : option (list Z) :=
  match aes_decrypt (wrap_key (x25519_shared secret eph_pub) eph_pub rec_pub) wrap_nonce [] wrapped with
  | Some body_key => if negb (blen body_key =? 32) then None else Some body_key
  | None => None
  end.

Fixpoint try_secrets (eph_pub rec_pub wrap_nonce wrapped : list Z) (secrets : list (list Z)) : option (list Z) :=
  match secrets with
  | [] => None
  | s :: rest =>
      match try_secret eph_pub rec_pub wrap_nonce wrapped s with
      | Some k => Some k
      | None => try_secrets eph_pub rec_pub wrap_nonce wrapped rest
      end
  end.

(** A recipient whose fields have the wrong size is passed over, one whose
    fields are no base64 ends the search. *)
Definition try_recipient (r : Recipient) (secrets : list (list Z)) : Result Error (option (list Z)) :=
  eph_pub ← crypto_err "recipient ephemeral b64" (b64_decode (rc_ephemeral_b64 r));
  if negb (blen eph_pub =? 32) then Ok None
  else
    rec_pub ← crypto_err "recipient pubkey b64" (b64_decode (rc_pubkey_b64 r));
    if negb (blen rec_pub =? 32) then Ok None
    else
      wrap_nonce ← crypto_err "recipient wrap_nonce b64" (b64_decode (rc_wrap_nonce_b64 r));
      if negb (blen wrap_nonce =? 12) then Ok None
      else
        wrapped ← crypto_err "recipient wrapped b64" (b64_decode (rc_wrapped_key_b64 r));
        Ok (try_secrets eph_pub rec_pub wrap_nonce wrapped secrets).

Fixpoint try_recipients (rs : list Recipient) (secrets : list (list Z)) : Result Error (list Z) :=
  match rs with
  | [] => Err (InvalidConfig "no supplied x25519 secret matched any recipient")
  | r :: rest =>
      o ← try_recipient r secrets;
      match o with Some k => Ok k | None => try_recipients rest secrets end
  end.

Definition x25519_unwrap_body_key (meta : Meta) (secrets : list (list Z)) : Result Error (list Z) :=
  if bool_decide (me_recipients meta = []) then crypto_failed "x25519 envelope without recipients"
  else if bool_decide (secrets = []) then Err (InvalidArgs "x25519 unseal requires at least one candidate secret")
  else try_recipients (me_recipients meta) secrets.

Definition argon_bounds (p : Argon2idParams) : bool :=
  (8 <=? ar_memory_kib p) && (ar_memory_kib p <=? 4 * 1024 * 1024) && (1 <=? ar_iterations p) && (ar_iterations p <=? 32)
  && (1 <=? ar_parallelism p) && (ar_parallelism p <=? 64).

Definition derive_body_key (meta : Meta) (key : KeySource) : Result Error (list Z) :=
  let kdf := me_kdf meta in
  let other := Err (InvalidConfig ("sealed config kdf `" +:+ kdf +:+ "` does not match supplied key variant")) in
  match key with
  | Passphrase pp =>
      if (kdf =? "argon2id")%string then
        match me_argon2id meta with
        | None => crypto_failed "argon2id kdf without [meta.argon2id]"
        | Some p =>
            if negb (argon_bounds p) then
              Err (InvalidConfig ("argon2id parameters out of accepted bounds: m=" +:+ pretty (ar_memory_kib p) +:+ " t="
                                  +:+ pretty (ar_iterations p) +:+ " p=" +:+ pretty (ar_parallelism p)))
            else derive_argon2id pp p
        end
      else other
  | VaultMaster master =>
      if (kdf =? "vault")%string then
        match me_vault meta with
        | None => crypto_failed "vault kdf without [meta.vault]"
        | Some v => salt ← vault_salt v; Ok (hkdf_sha256 master salt vault_info)
        end
      else other
  | X25519Secrets secrets => if (kdf =? "x25519")%string then x25519_unwrap_body_key meta secrets else other
  | Psk psk => if (kdf =? "psk")%string then Ok psk else other
  | X25519Recipients _ =>
      if (kdf =? "x25519")%string
      then Err (InvalidArgs "unsealing under X25519 requires private keys — use KeySource::X25519Secrets")
      else other
  end.

Definition decrypt_error (kdf : string) : Error :=
  if (kdf =? "argon2id")%string then InvalidConfig "decrypt failed: wrong passphrase or tampered envelope"
  else if (kdf =? "psk")%string then InvalidConfig "decrypt failed: wrong PSK or tampered envelope"
  else SecretCryptoFailed "aead decrypt failed".

(** [unseal] behind the framing. *)
Definition unseal_parsed (p : ParsedEnvelope) (meta : Meta) (body : Body) (key : KeySource) : Result Error (list Z) :=
  if negb (me_kdf meta =? variant_tag key)%string then
    Err (InvalidConfig ("sealed config uses kdf `" +:+ me_kdf meta +:+ "` but caller supplied `" +:+ variant_tag key +:+ "`"))
  else
    body_key ← derive_body_key meta key;
    nonce ← body_nonce body;
    ct ← body_ciphertext body;
    ok_or (decrypt_error (me_kdf meta)) (aes_decrypt body_key nonce (MAGIC ++ pe_meta_bytes p) ct).

Definition audit_of (kind : string) (meta : Meta) : CryptAudit := mkAudit kind (me_kdf meta) (Z.of_nat (length (me_recipients meta))).

Definition unseal (sealed : list Z) (key : KeySource) : Audited (list Z) :=
  match parse sealed with
  | Err e => ([], Err e)
  | Ok (p, meta, body, _) => ([audit_of "audit.config_crypt.unseal" meta], unseal_parsed p meta body key)
  end.

(** ** Signatures ([signing.rs]) *)

Definition signing_input (meta_bytes body_bytes : list Z) : list Z := MAGIC ++ meta_bytes ++ body_bytes.

Definition sign (sealed signing_key : list Z) : Audited (list Z) :=
  match parse sealed with
  | Err e => ([], Err e)
  | Ok (p, meta, _, _) =>
      ([audit_of "audit.config_crypt.sign" meta],
       let sig := ed25519_sign signing_key (signing_input (pe_meta_bytes p) (pe_body_bytes p)) in
       sig_bytes ← signature_to_bytes (mkSignature (b64_encode (ed25519_public signing_key)) (b64_encode sig));
       write_envelope (pe_meta_bytes p) (pe_body_bytes p) (Some sig_bytes))
  end.

Definition trust_err {A} (what : string) (r : Result string A) : Result Error A :=
  map_err (fun e => TrustFailed (what +:+ ": " +:+ e)) r.

(** [verify_with_options] behind the framing. *)
Definition check_signature (p : ParsedEnvelope) (sig_opt : option Signature) (allowed_keys : list (list Z)) : Result Error unit :=
  sig ← ok_or (TrustFailed "envelope is not signed") sig_opt;
  embedded ← trust_err "signature pubkey b64" (b64_decode (si_pubkey_b64 sig));
  if negb (blen embedded =? 32) then Err (TrustFailed ("signature pubkey must be 32 bytes, got " +:+ pretty (blen embedded)))
  else
    _ ← trust_err "signature pubkey parse" (ed25519_key embedded);
    if negb (bool_decide (allowed_keys = [])) && negb (existsb (fun k => bool_decide (k = embedded)) allowed_keys)
    then Err (TrustFailed "signature key not in allowed-keys list")
    else
      raw ← trust_err "signature b64" (b64_decode (si_sig_b64 sig));
      if negb (blen raw =? 64) then Err (TrustFailed ("signature must be 64 bytes, got " +:+ pretty (blen raw)))
      else trust_err "ed25519 verify" (ed25519_verify embedded (signing_input (pe_meta_bytes p) (pe_body_bytes p)) raw).

Definition verify_with_options (sealed : list Z) (allowed_keys : list (list Z)) (any_signed_ok : bool) : Audited unit :=
  if bool_decide (allowed_keys = []) && negb any_signed_ok
  then ([], Err (TrustFailed "no trust anchors configured (empty allowed-keys list)"))
  else
    match parse sealed with
    | Err e => ([], Err e)
    | Ok (p, meta, _, sig_opt) => ([audit_of "audit.config_crypt.verify" meta], check_signature p sig_opt allowed_keys)
    end.

Definition verify (sealed : list Z) (allowed_keys : list (list Z)) : Audited unit := verify_with_options sealed allowed_keys false.

(** ** Lemmas: framing *)

Lemma magic_length : blen MAGIC = 8.
Proof. done. Qed.

#[local] Opaque MAGIC.

Lemma blen_app a b : blen (a ++ b) = blen a + blen b.
Proof. unfold blen. rewrite length_app. lia. Qed.

Lemma blen_nonneg a : 0 <= blen a.
Proof. unfold blen. lia. Qed.

Lemma slice_between pre mid post : slice (pre ++ mid ++ post) (blen pre) (blen pre + blen mid) = mid.
Proof.
  unfold slice, blen. replace (Z.to_nat (Z.of_nat (length pre) + Z.of_nat (length mid) - Z.of_nat (length pre))) with (length mid) by lia.
  rewrite Nat2Z.id, drop_app_length. by rewrite take_app_length.
Qed.

Lemma section_length s : blen (section s) = 4 + blen s.
Proof. unfold section. rewrite blen_app. unfold blen at 1. rewrite to_be_bytes_length. lia. Qed.

Lemma read_section_app pre s post name :
  blen s <= MAX_SECTION_LEN -> blen pre + 4 + blen s <= umax 64 ->
  read_section (pre ++ section s ++ post) (blen pre) name = Ok (s, blen pre + 4 + blen s).
Proof.
  intros Hcap Hw. unfold read_section. rewrite !blen_app, section_length. pose proof (blen_nonneg post). pose proof (blen_nonneg s).
  assert (blen (to_be_bytes 4 (blen s)) = 4) as H4 by (unfold blen at 1; by rewrite to_be_bytes_length).
  assert (from_be_bytes (slice (pre ++ section s ++ post) (blen pre) (blen pre + 4)) = blen s) as ->.
  { unfold section. rewrite <- (app_assoc (to_be_bytes _ _)). rewrite <- H4 at 1. rewrite slice_between. apply from_to_be_bytes.
    unfold MAX_SECTION_LEN in Hcap. change (256 ^ Z.of_nat 4) with 4294967296. lia. }
  destruct (Z.ltb_spec (blen pre + (4 + blen s + blen post)) (blen pre + 4)); [lia|].
  destruct (Z.ltb_spec MAX_SECTION_LEN (blen s)); [lia|]. destruct (Z.ltb_spec (umax 64) (blen pre + 4 + blen s)); [lia|].
  destruct (Z.ltb_spec (blen pre + (4 + blen s + blen post)) (blen pre + 4 + blen s)); [lia|]. do 2 f_equal.
  unfold section. rewrite <- app_assoc, app_assoc.
  replace (blen pre + 4) with (blen (pre ++ to_be_bytes 4 (blen s))) by (rewrite blen_app; lia). apply slice_between.
Qed.

(** What a section that was read says of the bytes. *)
Lemma read_section_inv pre rest name s e :
  Forall byte_ok rest -> read_section (pre ++ rest) (blen pre) name = Ok (s, e) ->
  exists post, rest = section s ++ post /\ e = blen pre + 4 + blen s /\ blen s <= MAX_SECTION_LEN.
Proof.
  intros Hb. unfold read_section. rewrite blen_app.
  destruct (Z.ltb_spec (blen pre + blen rest) (blen pre + 4)) as [|H1]; [done|].
  set (len := from_be_bytes (slice (pre ++ rest) (blen pre) (blen pre + 4))).
  assert (slice (pre ++ rest) (blen pre) (blen pre + 4) = take 4 rest) as Hs.
  { unfold slice, blen. replace (Z.to_nat _) with 4%nat by lia. by rewrite Nat2Z.id, drop_app_length. }
  assert (length (take 4 rest) = 4%nat) as H4 by (rewrite length_take; unfold blen in H1; lia).
  assert (Forall byte_ok (take 4 rest)) as Hb4 by by apply Forall_take.
  assert (0 <= len) as Hlen by (unfold len; rewrite Hs; pose proof (foldl_addb_bound (take 4 rest) 0 Hb4); unfold from_be_bytes; lia).
  assert (to_be_bytes 4 len = take 4 rest) as Hbe by (unfold len; rewrite Hs; by apply be_bytes_from). clearbody len.
  destruct (Z.ltb_spec MAX_SECTION_LEN len) as [|H2]; [done|]. destruct (Z.ltb_spec (umax 64) (blen pre + 4 + len)); [done|].
  destruct (Z.ltb_spec (blen pre + blen rest) (blen pre + 4 + len)) as [|H3]; [done|]. intros [= Es Ee].
  exists (drop (Z.to_nat len) (drop 4 rest)).
  assert (s = take (Z.to_nat len) (drop 4 rest)) as Hst.
  { rewrite <- Es. unfold slice. f_equal; [lia|]. unfold blen. rewrite drop_app_ge by lia. f_equal. lia. }
  assert (blen s = len) as Hsl by (rewrite Hst; unfold blen in *; rewrite length_take, length_drop; lia).
  split; [|lia]. unfold section. rewrite Hsl, Hbe, Hst, <- app_assoc, take_drop. by rewrite take_drop.
Qed.

#[local] Opaque section.

(** The bytes of an envelope. *)
Definition envelope (p : ParsedEnvelope) : list Z :=
  MAGIC ++ section (pe_meta_bytes p) ++ section (pe_body_bytes p) ++ match pe_sig_bytes p with Some s => section s | None => [] end.

Definition fits (p : ParsedEnvelope) : Prop :=
  blen (pe_meta_bytes p) <= MAX_SECTION_LEN /\ blen (pe_body_bytes p) <= MAX_SECTION_LEN
  /\ match pe_sig_bytes p with Some s => blen s <= MAX_SECTION_LEN | None => True end.

Lemma write_envelope_ok m b s e : write_envelope m b s = Ok e <-> fits (mkParsed m b s) /\ e = envelope (mkParsed m b s).
Proof.
  unfold write_envelope, over_cap, fits, envelope. cbn [pe_meta_bytes pe_body_bytes pe_sig_bytes].
  destruct (Z.ltb_spec MAX_SECTION_LEN (blen m)); cbn [orb]; [split; [done|lia]|].
  destruct (Z.ltb_spec MAX_SECTION_LEN (blen b)); cbn [orb]; [split; [done|lia]|].
  destruct s as [s|]; [destruct (Z.ltb_spec MAX_SECTION_LEN (blen s)); [split; [done|lia]|]|]; split; try (by intros [= <-]); by intros [_ ->].
Qed.

(** Reading sections gives back what was framed; bytes behind a signature are
    not looked at. *)
Lemma parse_sections_envelope p trailing :
  fits p -> pe_sig_bytes p <> None \/ trailing = [] -> parse_sections (envelope p ++ trailing) = Ok p.
Proof.
  intros (Hm & Hb & Hs) Ht. destruct p as [m b s]. unfold envelope, parse_sections. cbn [pe_meta_bytes pe_body_bytes pe_sig_bytes] in *.
  rewrite <- !app_assoc, blen_app. pose proof magic_length as H8. pose proof (blen_nonneg m). pose proof (blen_nonneg b).
  match goal with |- context [?l <? blen MAGIC] => destruct (Z.ltb_spec l (blen MAGIC)) as [Hlt|] end.
  { pose proof (blen_nonneg (section m ++ section b ++ match s with Some s => section s | None => [] end ++ trailing)). lia. }
  pose proof (slice_between [] MAGIC (section m ++ section b ++ match s with Some s => section s | None => [] end ++ trailing)) as Hmag.
  change (blen []) with 0 in Hmag. rewrite Z.add_0_l in Hmag. cbn [app] in Hmag. rewrite Hmag, bool_decide_eq_true_2 by done. cbn [negb].
  rewrite read_section_app by (try rewrite H8; unfold MAX_SECTION_LEN, umax in *; lia). cbn [mbind result_bind].
  rewrite (app_assoc MAGIC (section m)). replace (blen MAGIC + 4 + blen m) with (blen (MAGIC ++ section m)) by (rewrite blen_app, section_length; lia).
  rewrite read_section_app by (rewrite ?blen_app, ?section_length, ?H8; unfold MAX_SECTION_LEN, umax in *; lia). cbn [mbind result_bind].
  rewrite (app_assoc (MAGIC ++ section m) (section b)). replace (blen (MAGIC ++ section m) + 4 + blen b) with (blen ((MAGIC ++ section m) ++ section b)) by (rewrite !blen_app, !section_length; lia).
  destruct s as [s|].
  - pose proof (blen_nonneg s). pose proof (blen_nonneg trailing). 
    match goal with |- context [?x <? ?y] => destruct (Z.ltb_spec x y) as [|Hge]; [|rewrite !blen_app, !section_length in Hge; lia] end.
    rewrite read_section_app by (rewrite ?blen_app, ?section_length, ?H8; unfold MAX_SECTION_LEN, umax in *; lia). done.
  - destruct Ht as [Ht| ->]; [done|]. rewrite !app_nil_r.
    match goal with |- context [?x <? ?y] => destruct (Z.ltb_spec x y) as [Hlt|]; [rewrite !blen_app in Hlt; lia|done] end.
Qed.

(** Whatever is read as an envelope is one, with nothing behind it unless it is
    signed. *)
Lemma parse_sections_inv sealed p :
  Forall byte_ok sealed -> parse_sections sealed = Ok p ->
  exists trailing, sealed = envelope p ++ trailing /\ fits p /\ (pe_sig_bytes p <> None \/ trailing = []).
Proof.
  intros Hbs. unfold parse_sections. destruct (Z.ltb_spec (blen sealed) (blen MAGIC)) as [|H8]; [done|].
  case_bool_decide as Hmag; [|done]. cbn [negb].
  assert (exists rest, sealed = MAGIC ++ rest) as [rest ->].
  { exists (drop 8 sealed). rewrite <- Hmag at 1. unfold slice. rewrite magic_length. change (Z.to_nat (8 - 0)) with 8%nat. cbn [Z.to_nat drop]. by rewrite take_drop. }
  apply Forall_app in Hbs as [_ Hbs].
  destruct (read_section (MAGIC ++ rest) (blen MAGIC) "meta") as [[m e1]|] eqn:E1; [|done]. cbn [mbind result_bind].
  apply read_section_inv in E1 as (r1 & -> & -> & Hm); [|done]. apply Forall_app in Hbs as [_ Hbs].
  rewrite (app_assoc MAGIC (section m)). replace (blen MAGIC + 4 + blen m) with (blen (MAGIC ++ section m)) by (rewrite blen_app, section_length; lia).
  destruct (read_section ((MAGIC ++ section m) ++ r1) _ "body") as [[b e2]|] eqn:E2; [|done]. cbn [mbind result_bind].
  apply read_section_inv in E2 as (r2 & -> & -> & Hb); [|done]. apply Forall_app in Hbs as [_ Hbs].
  rewrite (app_assoc (MAGIC ++ section m) (section b)). replace (blen (MAGIC ++ section m) + 4 + blen b) with (blen ((MAGIC ++ section m) ++ section b)) by (rewrite !blen_app, !section_length; lia).
  rewrite (blen_app _ r2). match goal with |- context [?x <? ?y] => destruct (Z.ltb_spec x y) as [Hlt|Hge] end.
  - destruct (read_section _ _ "signature") as [[s e3]|] eqn:E3; [|done]. cbn [mbind result_bind]. intros [= <-].
    apply read_section_inv in E3 as (r3 & -> & -> & Hs); [|done]. exists r3. unfold envelope, fits. cbn [pe_meta_bytes pe_body_bytes pe_sig_bytes].
    rewrite <- !app_assoc. auto.
  - cbn [mbind result_bind]. intros [= <-]. exists []. assert (r2 = []) as -> by (destruct r2; [done|unfold blen in Hge; cbn [length] in Hge; lia]).
    unfold envelope, fits. cbn [pe_meta_bytes pe_body_bytes pe_sig_bytes]. rewrite <- !app_assoc, !app_nil_r. auto.
Qed.

(** ** Lemmas: documents *)

Lemma read_write_doc {A} `{TomlDoc A} name name' (x : A) bytes : write_doc name x = Ok bytes -> read_doc name' bytes = Ok x.
Proof.
  unfold write_doc, read_doc, crypto_err. destruct (to_toml x) as [s|] eqn:E; [|done]. cbn. intros [= <-].
  rewrite (toml_utf8 _ _ E), (toml_back _ _ E). done.
Qed.

(** An envelope of readable documents parses to them. *)
Lemma parse_envelope p trailing meta body sig :
  fits p -> pe_sig_bytes p <> None \/ trailing = [] ->
  read_doc "meta" (pe_meta_bytes p) = Ok meta -> read_doc "body" (pe_body_bytes p) = Ok body ->
  match pe_sig_bytes p, sig with
  | Some sb, Some s => read_doc "signature" sb = Ok s
  | None, None => True
  | _, _ => False
  end ->
  parse (envelope p ++ trailing) = Ok (p, meta, body, sig).
Proof.
  intros Hf Ht Hm Hb Hs. unfold parse. rewrite parse_sections_envelope by done. cbn [mbind result_bind]. rewrite Hm. cbn [mbind result_bind].
  rewrite Hb. cbn [mbind result_bind]. destruct (pe_sig_bytes p), sig; try done. by rewrite Hs.
Qed.

Lemma parse_inv sealed p meta body sig :
  parse sealed = Ok (p, meta, body, sig) ->
  parse_sections sealed = Ok p /\ read_doc "meta" (pe_meta_bytes p) = Ok meta /\ read_doc "body" (pe_body_bytes p) = Ok body
  /\ match pe_sig_bytes p, sig with
     | Some sb, Some s => read_doc "signature" sb = Ok s
     | None, None => True
     | _, _ => False
     end.
Proof.
  unfold parse. destruct (parse_sections sealed) as [q|]; [|done]. cbn [mbind result_bind].
  destruct (read_doc "meta" (pe_meta_bytes q)) as [m|] eqn:Em; [|done]. cbn [mbind result_bind].
  destruct (read_doc "body" (pe_body_bytes q)) as [b|] eqn:Eb; [|done]. cbn [mbind result_bind].
  destruct (pe_sig_bytes q) as [sb|] eqn:Es.
  - destruct (read_doc "signature" sb) as [s|] eqn:Ed; [|done]. cbn [mbind result_bind]. intros [= <- <- <- <-]. rewrite Es. auto.
  - cbn [mbind result_bind]. intros [= <- <- <- <-]. rewrite Es. auto.
Qed.

Lemma slice_start mid post : slice (mid ++ post) 0 (blen mid) = mid.
Proof. pose proof (slice_between [] mid post) as H. by rewrite Z.add_0_l in H. Qed.

Lemma is_sealed_envelope p trailing : is_sealed (envelope p ++ trailing) = true.
Proof.
  unfold is_sealed, envelope. rewrite <- app_assoc, slice_start, bool_decide_eq_true_2 by done. rewrite blen_app.
  match goal with |- context [_ + blen ?l] => pose proof (blen_nonneg l) end. apply andb_true_iff. split; [apply Z.leb_le; lia|done].
Qed.

(** ** Lemmas: body keys *)

Definition key32 (k : list Z) : Prop := length k = 32%nat /\ Forall byte_ok k.

Lemma fill_key rng : key32 (fill rng 32).1.
Proof. apply fill_size. Qed.

Lemma b64_ok what l : Forall byte_ok l -> crypto_err what (b64_decode (b64_encode l)) = Ok l.
Proof. intros Hl. unfold crypto_err. by rewrite b64_back. Qed.

Lemma blen_eqb l p : length l = Z.to_nat (Z.pos p) -> (blen l =? Z.pos p) = true.
Proof. intros H. apply Z.eqb_eq. unfold blen. lia. Qed.

(** Candidates of which the recipient's own give [bk] and the others nothing. *)
Lemma try_secrets_own e r n w ss bk :
  (forall s, s ∈ ss -> x25519_public s = r -> try_secret e r n w s = Some bk) ->
  (forall s, s ∈ ss -> x25519_public s <> r -> try_secret e r n w s = None) ->
  (try_secrets e r n w ss = Some bk \/ try_secrets e r n w ss = None)
  /\ ((exists s, s ∈ ss /\ x25519_public s = r) -> try_secrets e r n w ss = Some bk).
Proof.
  intros Hown Hother. induction ss as [|s ss IH]; cbn [try_secrets].
  { split; [by right|]. intros (s & Hs & _). by apply not_elem_of_nil in Hs. }
  destruct (decide (x25519_public s = r)) as [E|E]; [rewrite (Hown s) by (done || left); by split; [left|]|].
  rewrite (Hother s) by (done || left). destruct IH as [H1 H2]; [intros s' ?; apply Hown; by right|intros s' ?; apply Hother; by right|].
  split; [done|]. intros (s' & [->|Hs']%elem_of_cons & Hp); [done|]. eauto.
Qed.

(** The wrapping for a recipient opens with its secret to the key that was
    wrapped; a candidate of somebody else must be turned away. *)
Lemma wrap_for_tried rng bk pk r rng' ss :
  key32 pk -> length bk = 32%nat -> wrap_for rng bk pk = Ok (r, rng') ->
  (forall s, s ∈ ss -> rc_pubkey_b64 r <> b64_encode (x25519_public s) -> try_recipient r [s] = Ok None) ->
  exists o, try_recipient r ss = Ok o /\ (o = Some bk \/ o = None)
    /\ ((exists s, s ∈ ss /\ x25519_public s = pk) -> o = Some bk).
Proof.
  intros [Hpk Hpb] Hbk. unfold wrap_for. destruct (fill rng 32) as [eph rng1] eqn:E1. destruct (fill rng1 12) as [wn rng2] eqn:E2.
  destruct (aes_encrypt _ _ _ bk) as [w|] eqn:Ew; [|done]. intros [= <- <-]. unfold try_recipient. cbn [rc_ephemeral_b64 rc_pubkey_b64 rc_wrap_nonce_b64 rc_wrapped_key_b64].
  destruct (x25519_size eph) as [He Heb]. pose proof (fill_size rng1 12) as [Hn Hnb]. rewrite E2 in Hn, Hnb. cbn [fst] in Hn, Hnb.
  rewrite (b64_ok _ (x25519_public eph)) by done. cbn [mbind result_bind]. rewrite (blen_eqb _ 32 He). cbn [negb].
  rewrite (b64_ok _ pk) by done. cbn [mbind result_bind]. rewrite (blen_eqb _ 32 Hpk). cbn [negb].
  rewrite (b64_ok _ wn) by done. cbn [mbind result_bind]. rewrite (blen_eqb _ 12 Hn). cbn [negb].
  rewrite b64_ok by by eapply aes_bytes. cbn [mbind result_bind]. intros Hother. eexists. split; [done|]. apply try_secrets_own.
  - intros s _ <-. unfold try_secret. by rewrite x25519_agree, (aes_back _ _ _ _ _ Ew), (blen_eqb _ 32 Hbk).
  - intros s Hs Hne. assert (b64_encode pk <> b64_encode (x25519_public s)) as Hb64.
    { intros E. apply (f_equal b64_decode) in E. destruct (x25519_size s) as [_ Hsb]. rewrite !b64_back in E by done. congruence. }
    specialize (Hother s Hs Hb64). cbn [try_secrets] in Hother. by destruct (try_secret _ _ _ _ s).
Qed.

Lemma wrap_all_tried rng bk pks rs rng' ss :
  Forall key32 pks -> wrap_all rng bk pks = Ok (rs, rng') ->
  length bk = 32%nat -> (exists s, s ∈ ss /\ x25519_public s ∈ pks) ->
  (forall r s, r ∈ rs -> s ∈ ss -> rc_pubkey_b64 r <> b64_encode (x25519_public s) -> try_recipient r [s] = Ok None) ->
  try_recipients rs ss = Ok bk.
Proof.
  intros Hpks Hw Hbk. revert rng rs rng' Hw. induction Hpks as [|pk pks Hpk Hpks IH]; intros rng rs rng' Hw (s & Hs & Hin) Hother.
  { by apply not_elem_of_nil in Hin. }
  cbn [wrap_all] in Hw. destruct (wrap_for rng bk pk) as [[r rng1]|] eqn:Er; [|done]. cbn [mbind result_bind] in Hw.
  destruct (wrap_all rng1 bk pks) as [[rs' rng2]|] eqn:Ers; [|done]. injection Hw as <- <-. cbn [try_recipients].
  destruct (wrap_for_tried _ _ _ _ _ ss Hpk Hbk Er) as (o & Ho & Hor & Hopen); [intros s'; apply Hother; left|].
  rewrite Ho. cbn [mbind result_bind]. destruct Hor as [->| ->]; [done|].
  apply (IH rng1 rs' rng2 Ers); [|intros r' s' Hr'; apply Hother; by right].
  exists s. split; [done|]. apply elem_of_cons in Hin as [Hin|Hin]; [|done]. by specialize (Hopen (ex_intro _ s (conj Hs Hin))).
Qed.

(** [ku] is the counterpart of [ks]: the same secret, or candidates among which
    is a secret key of a recipient.  In the second case the cipher has to turn
    away a candidate that meets the wrapping meant for somebody else; of the
    recipient's own wrapping nothing is assumed. *)
Definition opens (rng : R) (ks ku : KeySource) : Prop :=
  match ks, ku with
  | Passphrase a, Passphrase b | VaultMaster a, VaultMaster b | Psk a, Psk b => a = b
  | X25519Recipients pks, X25519Secrets ss =>
      Forall key32 pks /\ (exists s, s ∈ ss /\ x25519_public s ∈ pks)
      /\ forall meta k rng', build_meta rng ks = Ok (meta, k, rng') ->
         forall r s, r ∈ me_recipients meta -> s ∈ ss -> rc_pubkey_b64 r <> b64_encode (x25519_public s) -> try_recipient r [s] = Ok None
  | _, _ => False
  end.

Lemma body_key_back rng ks ku meta k rng' :
  build_meta rng ks = Ok (meta, k, rng') -> opens rng ks ku -> me_kdf meta = variant_tag ku /\ derive_body_key meta ku = Ok k.
Proof.
  intros Hb Ho. destruct ks as [pp|ms|[|pk pks]|ss|psk], ku as [pp'|ms'|pks'|ss'|psk']; try done; cbn [opens] in Ho; cbn [build_meta] in Hb.
  - subst pp'. destruct (fill rng 16) as [salt r1]. destruct (derive_argon2id pp (default_with_salt salt)) as [k1|] eqn:E; [|done].
    injection Hb as <- <- <-. split; [done|]. cbn. exact E.
  - subst ms'. unfold VaultParams_new_random in Hb. destruct (fill rng 16) as [salt r1] eqn:Ef. pose proof (fill_size rng 16) as [_ Hs]. rewrite Ef in Hs.
    unfold vault_salt in Hb. cbn [va_salt_b64 fst] in *. rewrite b64_ok in Hb by done. injection Hb as <- <- <-. split; [done|]. cbn.
    unfold vault_salt. cbn [va_salt_b64]. by rewrite b64_ok.
  - destruct Ho as (Hpks & (s & Hs & Hin) & Hacc). specialize (Hacc meta k rng' Hb). destruct (fill rng 32) as [bk r1] eqn:Ef.
    pose proof (fill_key rng) as [Hlen _]. rewrite Ef in Hlen. cbn [fst] in Hlen.
    destruct (wrap_all r1 bk (pk :: pks)) as [[rs r2]|] eqn:Ew; [|done]. cbn [mbind result_bind] in Hb. injection Hb as <- <- <-.
    split; [done|]. cbn [derive_body_key meta_for me_kdf]. unfold x25519_unwrap_body_key. cbn [me_recipients].
    assert (rs <> []) as Hne. { intros ->. cbn [wrap_all] in Ew. destruct (wrap_for r1 bk pk) as [[? ?]|]; [|done]. cbn [mbind result_bind] in Ew. by destruct (wrap_all _ _ pks) as [[? ?]|]. }
    rewrite bool_decide_eq_false_2 by done. rewrite bool_decide_eq_false_2 by (intros ->; by apply not_elem_of_nil in Hs).
    eapply wrap_all_tried; eauto.
  - subst psk'. injection Hb as <- <- <-. done.
Qed.

(** What [seal] wrote. *)
Lemma seal_inv rng pt ks e :
  (seal rng pt ks).2 = Ok e ->
  exists meta k rng' mb bb nonce ct,
    build_meta rng ks = Ok (meta, k, rng') /\ fits (mkParsed mb bb None) /\ e = envelope (mkParsed mb bb None)
    /\ read_doc "meta" mb = Ok meta /\ read_doc "body" bb = Ok (mkBody (b64_encode nonce) (b64_encode ct))
    /\ length nonce = 12%nat /\ Forall byte_ok nonce /\ Forall byte_ok ct /\ aes_decrypt k nonce (MAGIC ++ mb) ct = Some pt.
Proof.
  unfold seal. cbn [snd]. destruct (build_meta rng ks) as [[[meta k] rng1]|] eqn:Eb; [|done]. cbn [mbind result_bind]. unfold seal_body.
  destruct (meta_to_bytes meta) as [mb|] eqn:Em; [|done]. cbn [mbind result_bind]. destruct (fill rng1 12) as [nonce rng2] eqn:Ef.
  pose proof (fill_size rng1 12) as [Hn Hnb]. rewrite Ef in Hn, Hnb. destruct (aes_encrypt k nonce (MAGIC ++ mb) pt) as [ct|] eqn:Ec; [|done].
  destruct (body_to_bytes _) as [bb|] eqn:Ebb; [|done]. cbn [mbind result_bind]. intros [Hf ->]%write_envelope_ok.
  exists meta, k, rng1, mb, bb, nonce, ct. split_and!; try done; [by eapply read_write_doc..| |].
  - by eapply aes_bytes.
  - by apply aes_back.
Qed.

(** Unsealing looks at the header, the body and the header's bytes only. *)
Lemma unseal_parse sealed key p meta body sig :
  parse sealed = Ok (p, meta, body, sig) -> (unseal sealed key).2 = unseal_parsed p meta body key.
Proof. intros E. unfold unseal. by rewrite E. Qed.

Lemma unseal_own k nonce ct mb pt meta p ku :
  me_kdf meta = variant_tag ku -> derive_body_key meta ku = Ok k -> pe_meta_bytes p = mb ->
  length nonce = 12%nat -> Forall byte_ok nonce -> Forall byte_ok ct -> aes_decrypt k nonce (MAGIC ++ mb) ct = Some pt ->
  unseal_parsed p meta (mkBody (b64_encode nonce) (b64_encode ct)) ku = Ok pt.
Proof.
  intros Ht Hk <- Hn Hnb Hc Hd. unfold unseal_parsed. rewrite Ht, String.eqb_refl. cbn [negb]. rewrite Hk. cbn [mbind result_bind].
  unfold body_nonce, body_ciphertext. cbn [bo_nonce_b64 bo_ciphertext_b64]. rewrite (b64_ok _ nonce) by done. cbn [mbind result_bind].
  rewrite (blen_eqb _ 12 Hn). cbn [negb mbind result_bind]. rewrite b64_ok by done. cbn [mbind result_bind]. by rewrite Hd.
Qed.

(** ** Lemmas: signatures *)

Lemma sign_inv sealed sk e p meta body sig :
  parse sealed = Ok (p, meta, body, sig) -> (sign sealed sk).2 = Ok e ->
  exists sb, let p' := mkParsed (pe_meta_bytes p) (pe_body_bytes p) (Some sb) in
    fits p' /\ e = envelope p'
    /\ read_doc "signature" sb
       = Ok (mkSignature (b64_encode (ed25519_public sk)) (b64_encode (ed25519_sign sk (signing_input (pe_meta_bytes p) (pe_body_bytes p))))).
Proof.
  intros E. unfold sign. rewrite E. cbn [snd]. destruct (signature_to_bytes _) as [sb|] eqn:Es; [|done]. cbn [mbind result_bind].
  intros [Hf ->]%write_envelope_ok. exists sb. split_and!; [done|done|]. by eapply read_write_doc.
Qed.

(** A signed envelope parses to the old header and body, and to the signature. *)
Lemma sign_parse sealed sk e p meta body sig :
  parse sealed = Ok (p, meta, body, sig) -> (sign sealed sk).2 = Ok e ->
  exists sb, parse e = Ok (mkParsed (pe_meta_bytes p) (pe_body_bytes p) (Some sb), meta, body,
    Some (mkSignature (b64_encode (ed25519_public sk)) (b64_encode (ed25519_sign sk (signing_input (pe_meta_bytes p) (pe_body_bytes p)))))).
Proof.
  intros E Hs. destruct (sign_inv _ _ _ _ _ _ _ E Hs) as (sb & Hf & -> & Hd). apply parse_inv in E as (_ & Hm & Hb & _).
  exists sb. rewrite <- (app_nil_r (envelope _)). apply parse_envelope; auto.
Qed.

Lemma trust_ok {A} what (r : Result string A) x : trust_err what r = Ok x <-> r = Ok x.
Proof. destruct r; cbn; split; congruence. Qed.

(** A signature is accepted exactly when it is there, its key is listed and it
    is valid over the magic, the header and the body. *)
Lemma check_signature_ok p sig allowed :
  check_signature p sig allowed = Ok tt <->
  exists s pk raw, sig = Some s /\ b64_decode (si_pubkey_b64 s) = Ok pk /\ blen pk = 32 /\ ed25519_key pk = Ok tt
    /\ (allowed = [] \/ pk ∈ allowed) /\ b64_decode (si_sig_b64 s) = Ok raw /\ blen raw = 64
    /\ ed25519_verify pk (signing_input (pe_meta_bytes p) (pe_body_bytes p)) raw = Ok tt.
Proof.
  assert (forall pk, negb (bool_decide (allowed = [])) && negb (existsb (fun k => bool_decide (k = pk)) allowed) = false
          <-> allowed = [] \/ pk ∈ allowed) as Hin.
  { intros pk. rewrite andb_false_iff, !negb_false_iff, bool_decide_eq_true, existsb_exists. f_equiv. split.
    - intros (x & Hx & Ex). apply bool_decide_eq_true in Ex as ->. by apply list_elem_of_In.
    - intros Hx. exists pk. split; [by apply list_elem_of_In|by apply bool_decide_eq_true]. }
  unfold check_signature. destruct sig as [s|]; cbn [ok_or mbind result_bind]; [|split; [done|by intros (? & ? & ? & ? & _)]].
  destruct (b64_decode (si_pubkey_b64 s)) as [pk|] eqn:Ep; cbn [trust_err map_err mbind result_bind];
    [|split; [done|intros (s' & ? & ? & [= <-] & E & _); congruence]].
  destruct (Z.eqb_spec (blen pk) 32) as [Hl|Hl]; cbn [negb]; [|split; [done|intros (s' & ? & ? & [= <-] & E & ? & _); congruence]].
  destruct (ed25519_key pk) as [[]|] eqn:Ek; cbn [trust_err map_err mbind result_bind]; [|split; [done|intros (s' & ? & ? & [= <-] & E & ? & ? & _); congruence]].
  destruct (_ && _) eqn:El.
  { split; [done|]. intros (s' & pk' & ? & [= <-] & E & ? & ? & Ha & _). replace pk' with pk in Ha by congruence. apply Hin in Ha. congruence. }
  apply Hin in El. destruct (b64_decode (si_sig_b64 s)) as [raw|] eqn:Er; cbn [trust_err map_err mbind result_bind];
    [|split; [done|intros (s' & ? & ? & [= <-] & _ & _ & _ & _ & E & _); congruence]].
  destruct (Z.eqb_spec (blen raw) 64) as [H6|H6]; cbn [negb];
    [|split; [done|intros (s' & ? & ? & [= <-] & _ & _ & _ & _ & E & ? & _); congruence]].
  split.
  - destruct (ed25519_verify _ _ _) as [[]|] eqn:Ev; [|done]. intros _. exists s, pk, raw. auto 10.
  - intros (s' & pk' & raw' & [= <-] & E1 & _ & _ & _ & E2 & _ & E3). replace pk' with pk in E3 by congruence. replace raw' with raw in E3 by congruence. by rewrite E3.
Qed.

(** ** What is sealed comes back, and what is signed verifies *)

(** C22: a configuration that was sealed is recognised, unseals to the same bytes
    with the counterpart of the key (the passphrase, the vault's master key, the
    pre-shared key, or any list of secret keys that has one of a recipient, if
    the cipher turns the others away), and does so after it was signed; the signed file passes verification under every list of keys that
    has the signer's. *)
Theorem sealed_roundtrip rng pt ks ku e :
  (seal rng pt ks).2 = Ok e -> opens rng ks ku ->
  is_sealed e = true /\ (unseal e ku).2 = Ok pt
  /\ forall sk e', (sign e sk).2 = Ok e' ->
      (unseal e' ku).2 = Ok pt /\ forall allowed, ed25519_public sk ∈ allowed -> (verify e' allowed).2 = Ok tt.
Proof.
  intros Hs Ho. destruct (seal_inv _ _ _ _ Hs) as (meta & k & rng' & mb & bb & nonce & ct & Hb & Hf & -> & Hm & Hbd & Hn & Hnb & Hc & Hd).
  destruct (body_key_back _ _ _ _ _ _ Hb Ho) as [Ht Hk].
  assert (parse (envelope (mkParsed mb bb None)) = Ok (mkParsed mb bb None, meta, mkBody (b64_encode nonce) (b64_encode ct), None)) as Hp.
  { rewrite <- (app_nil_r (envelope _)). apply parse_envelope; cbn; auto. }
  split_and!.
  - rewrite <- (app_nil_r (envelope _)). apply is_sealed_envelope.
  - rewrite (unseal_parse _ _ _ _ _ _ Hp). by eapply unseal_own.
  - intros sk e' Hsg. destruct (sign_parse _ _ _ _ _ _ _ Hp Hsg) as (sb & Hp'). split.
    + rewrite (unseal_parse _ _ _ _ _ _ Hp'). by eapply unseal_own.
    + intros allowed Ha. unfold verify, verify_with_options. rewrite bool_decide_eq_false_2 by (intros ->; by apply not_elem_of_nil in Ha).
      cbn [andb]. rewrite Hp'. cbn [snd]. apply check_signature_ok. destruct (ed25519_size sk), (ed25519_sig_size sk (signing_input mb bb)).
      do 3 eexists. cbn [si_pubkey_b64 si_sig_b64 pe_meta_bytes pe_body_bytes]. split_and!; try done; try (by apply b64_back); try (unfold blen; lia); auto.
      * apply ed25519_own_key.
      * apply ed25519_own.
Qed.

(** Verification without keys fails, whatever the file. *)
Lemma verify_fail_closed sealed : (verify sealed []).2 = Err (TrustFailed "no trust anchors configured (empty allowed-keys list)").
Proof. done. Qed.

(** What a file that verifies is: an envelope whose signature is of a listed key
    and valid over header and body; what follows it is not covered. *)
Lemma verify_inv sealed allowed :
  Forall byte_ok sealed -> (verify sealed allowed).2 = Ok tt ->
  exists p meta body s pk raw trailing,
    sealed = envelope p ++ trailing /\ parse sealed = Ok (p, meta, body, Some s)
    /\ b64_decode (si_pubkey_b64 s) = Ok pk /\ pk ∈ allowed /\ b64_decode (si_sig_b64 s) = Ok raw
    /\ ed25519_verify pk (MAGIC ++ pe_meta_bytes p ++ pe_body_bytes p) raw = Ok tt.
Proof.
  intros Hb. unfold verify, verify_with_options. case_bool_decide as Ha; [done|]. cbn [andb].
  destruct (parse sealed) as [[[[p meta] body] sig]|] eqn:E; [|done]. cbn [snd].
  intros (s & pk & raw & -> & H1 & _ & _ & [?|H2] & H3 & _ & H4)%check_signature_ok; [done|].
  pose proof (parse_inv _ _ _ _ _ E) as (Hs & _). destruct (parse_sections_inv _ _ Hb Hs) as (t & -> & _).
  exists p, meta, body, s, pk, raw, t. auto 10.
Qed.

(** What a file that unseals is. *)
Lemma unseal_inv sealed key pt :
  (unseal sealed key).2 = Ok pt ->
  exists p meta body sig k nonce ct,
    parse sealed = Ok (p, meta, body, sig) /\ me_kdf meta = variant_tag key /\ derive_body_key meta key = Ok k
    /\ body_nonce body = Ok nonce /\ body_ciphertext body = Ok ct /\ aes_decrypt k nonce (MAGIC ++ pe_meta_bytes p) ct = Some pt.
Proof.
  unfold unseal. destruct (parse sealed) as [[[[p meta] body] sig]|] eqn:E; [|done]. cbn [snd]. unfold unseal_parsed.
  destruct (String.eqb_spec (me_kdf meta) (variant_tag key)) as [Hk|]; cbn [negb]; [|done].
  destruct (derive_body_key meta key) as [k|] eqn:Ek; [|done]. cbn [mbind result_bind].
  destruct (body_nonce body) as [n|] eqn:En; [|done]. cbn [mbind result_bind]. destruct (body_ciphertext body) as [ct|] eqn:Ec; [|done].
  cbn [mbind result_bind]. destruct (aes_decrypt k n _ ct) as [x|] eqn:Ed; [|done]. intros [= ->].
  exists p, meta, body, sig, k, n, ct. auto 10.
Qed.

(** ** Observations *)

(** Bytes appended to a signed file change nothing: they are neither signed nor
    refused. *)
Lemma trailing_ignored p trailing sb :
  fits p -> pe_sig_bytes p = Some sb -> parse (envelope p ++ trailing) = parse (envelope p).
Proof.
  intros Hf Hs. unfold parse. rewrite parse_sections_envelope by (rewrite ?Hs; auto).
  pose proof (parse_sections_envelope p [] Hf (or_intror eq_refl)) as E. rewrite app_nil_r in E. by rewrite E.
Qed.

(** The signed text has no mark between header and body: moving the boundary
    keeps the signature valid. *)
Lemma boundary_not_signed p q sig allowed :
  pe_meta_bytes p ++ pe_body_bytes p = pe_meta_bytes q ++ pe_body_bytes q -> check_signature p sig allowed = check_signature q sig allowed.
Proof. intros E. unfold check_signature, signing_input. by rewrite E. Qed.

(** The version and the cipher the header names play no part in unsealing. *)
Lemma version_ignored p body key v a meta :
  let meta' := mkMeta v a (me_kdf meta) (me_argon2id meta) (me_recipients meta) (me_vault meta) (me_psk meta) in
  unseal_parsed p meta' body key = unseal_parsed p meta body key.
Proof. by destruct key. Qed.

(** HKDF with no salt is HKDF with a salt of zeros, as RFC 5869 defines it. *)
Lemma hkdf_empty_salt ikm info : hkdf_sha256 ikm [] info = hkdf_sha256 ikm (replicate 32 0) info.
Proof. done. Qed.

End Sealing.

(** ** An instance

    Stand-ins that satisfy the laws and can be evaluated: a cipher that writes
    the key, the nonce and the associated data before the message, a checksum
    for a hash, multiplication modulo 251 for the curve. *)

Module Toy.

Definition byteb (b : Z) : bool := (0 <=? b) && (b <? 256).

Lemma byteb_ok l : forallb byteb l = true -> Forall byte_ok l.
Proof.
  intros H. apply Forall_forall. intros b Hb. rewrite forallb_forall in H. apply list_elem_of_In in Hb. specialize (H b Hb).
  unfold byteb, byte_ok in *. bool_prop. lia.
Qed.

Definition digest (m : list Z) : list Z := let h := foldl (fun h b => (h * 31 + b) mod 65521) 7 m in (fun i => (h * (i + 1)) mod 256) <$> zrange 32.

Lemma digest_size m : length (digest m) = 32%nat /\ Forall byte_ok (digest m).
Proof.
  unfold digest. split; [by rewrite length_fmap|]. apply Forall_fmap, Forall_true. intros i. cbn. apply Z.mod_pos_bound. lia.
Qed.

Definition total (s : list Z) : Z := foldr Z.add 0 s.
Definition point (n : Z) : list Z := replicate 32 (n mod 251).

Lemma point_size n : length (point n) = 32%nat /\ Forall byte_ok (point n).
Proof.
  unfold point. split; [apply length_replicate|]. apply Forall_replicate. pose proof (Z.mod_pos_bound n 251). unfold byte_ok. lia.
Qed.

#[export, program] Instance base64 : Base64Crate := {|
  b64_encode := encode;
  b64_decode s := ok_or "Invalid byte"%string (decode_base64_standard s)
|}.
Next Obligation. intros l Hl. cbv beta. by rewrite decode_encode. Qed.

#[export, program] Instance crypto : SealCrypto := {|
  aes_encrypt k n a m := let c := k ++ n ++ a ++ m in if forallb byteb c then Some c else None;
  aes_decrypt k n a c := let h := k ++ n ++ a in if bool_decide (take (length h) c = h) then Some (drop (length h) c) else None;
  aead_error := "aead::Error";
  argon2_params m t p := Ok tt;
  argon2_hash m t p pass salt := Ok (digest (pass ++ salt ++ [m; t; p]));
  sha256 := digest;
  x25519_public s := point (total s * 5);
  x25519_shared s p := point (total s * default 0 (head p));
  ed25519_public := digest;
  ed25519_sign sk m := digest sk ++ digest m;
  ed25519_key pk := Ok tt;
  ed25519_verify pk m s := if bool_decide (s = pk ++ digest m) then Ok tt else Err "signature error"%string
|}.
Next Obligation.
  intros k n a m c. cbv beta zeta. destruct (forallb byteb _); [|done]. intros [= <-].
  assert (k ++ n ++ a ++ m = (k ++ n ++ a) ++ m) as -> by (by rewrite <- !app_assoc).
  rewrite take_app_length, bool_decide_eq_true_2 by done. by rewrite drop_app_length.
Qed.
Next Obligation. intros k n a m c. cbv beta zeta. destruct (forallb byteb _) eqn:E; [|done]. intros [= <-]. by apply byteb_ok. Qed.
Next Obligation. apply digest_size. Qed.
Next Obligation. intros. apply point_size. Qed.
Next Obligation.
  intros a b. cbv beta. set (x := total a). set (y := total b).
  change (head (point (y * 5))) with (Some ((y * 5) mod 251)). change (head (point (x * 5))) with (Some ((x * 5) mod 251)).
  cbn [from_option id]. unfold point, id. rewrite !Z.mul_mod_idemp_r by lia. do 2 f_equal. lia.
Qed.
Next Obligation. apply digest_size. Qed.
Next Obligation. intros sk m. cbv beta. destruct (digest_size sk), (digest_size m). rewrite length_app. split; [lia|]. by apply Forall_app. Qed.
Next Obligation. done. Qed.
Next Obligation. intros sk m. cbv beta. by rewrite bool_decide_eq_true_2. Qed.

#[export] Instance utf8 : Utf8Message := fun _ => "invalid utf-8 sequence"%string.

#[export, program] Instance rng : ByteRng Z := {| fill r n := ((fun i => (r + 7 * Z.of_nat i) mod 256) <$> seq 0 n, r + 1) |}.
Next Obligation.
  intros r n. cbn [fst]. split; [by rewrite length_fmap, length_seq|]. apply Forall_fmap, Forall_true. intros i. cbn. apply Z.mod_pos_bound. lia.
Qed.

(** One document and its text. *)
Definition one_doc {A} `{EqDecision A} (x : A) (t : string) (utf8 : text_of (bytes_of t) = Some t) : TomlDoc A.
Proof.
  refine {| to_toml y := if decide (y = x) then Ok t else Err "unsupported"%string;
            from_toml s := if (s =? t)%string then Ok x else Err "expected a table"%string |}; intros y s; destruct (decide (y = x)) as [->|]; try done; intros [= <-].
  - done.
  - by rewrite String.eqb_refl.
Defined.

Definition secret1 : list Z := replicate 32 3.
Definition secret2 : list Z := replicate 32 9.
Definition recipients : KeySource := X25519Recipients [x25519_public secret1; x25519_public secret2].
Definition header : Meta := match build_meta 1 recipients with Ok (m, _, _) => m | Err _ => meta_for "" None [] None None end.
Definition text : list Z := bytes_of "version = 1".
Definition sealed_body : Body :=
  match build_meta 1 recipients with
  | Ok (_, k, r) => let n := (fill r 12).1 in mkBody (b64_encode n) (b64_encode (default [] (aes_encrypt k n (MAGIC ++ bytes_of "[meta]") text)))
  | Err _ => mkBody "" ""
  end.
Definition signer : list Z := replicate 32 5.
Definition signature : Signature :=
  mkSignature (b64_encode (ed25519_public signer)) (b64_encode (ed25519_sign signer (signing_input (bytes_of "[meta]") (bytes_of "[body]")))).

#[export] Instance meta_doc : TomlDoc Meta := one_doc header "[meta]" eq_refl.
#[export] Instance body_doc : TomlDoc Body := one_doc sealed_body "[body]" eq_refl.
#[export] Instance signature_doc : TomlDoc Signature := one_doc signature "[signature]" eq_refl.

Definition file_of (r : Audited (list Z)) : list Z := match r.2 with Ok e => e | Err _ => [] end.
Definition sealed_file : list Z := file_of (seal 1 text recipients).
Definition signed_file : list Z := file_of (sign sealed_file signer).

Lemma opens_second : opens 1 recipients (X25519Secrets [secret2]).
Proof.
  split_and!.
  - apply Forall_cons. split; [apply x25519_size|]. apply Forall_cons. split; [apply x25519_size|apply Forall_nil_2].
  - exists secret2. split; [left|]. right. left.
  - intros meta k r E. vm_compute in E. injection E as <- <- <-. intros rc s Hr Hs. apply list_elem_of_singleton in Hs as ->.
    repeat (apply elem_of_cons in Hr as [->|Hr]; [intros Hne; vm_compute in Hne |- *; congruence|]). by apply not_elem_of_nil in Hr.
Qed.

Lemma sealed_ok : (seal 1 text recipients).2 = Ok sealed_file.
Proof. vm_compute. reflexivity. Qed.

Lemma signed_ok : (sign sealed_file signer).2 = Ok signed_file.
Proof. vm_compute. reflexivity. Qed.

(** The round trip for the second of two recipients, and a file that is signed. *)
Lemma sealed_roundtrip_witness :
  (unseal sealed_file (X25519Secrets [secret2])).2 = Ok text
  /\ (verify signed_file [secret1; ed25519_public signer]).2 = Ok tt.
Proof.
  destruct (sealed_roundtrip 1 text recipients (X25519Secrets [secret2]) sealed_file sealed_ok opens_second) as (_ & H & Hs).
  split; [exact H|]. apply (Hs signer signed_file signed_ok). right. left.
Defined.

End Toy.
