(* ===== verification/RemoteConfig.v ===== *)
(** * Remote configuration

    Models the retrieval of a configuration from a server: the descriptor
    ([crates/spt-config/src/remote.rs]), the pinned fetch with its cache and the
    polling task ([crates/spt-remote-config/src]), references to secrets
    ([crates/spt-auth/src/secret_ref.rs]), the checks of signature and
    encryption ([crates/spt-bin/src/cli/config_ops.rs]) and the three places of
    [crates/spt-bin/src/cli_dispatch.rs] that use them: [config pull],
    [--config-url] and the poller of the daemon.

    A fetcher is any function from the request to a response; a disk may fail at
    every access.  Parameters: the cryptography of [SealedConfig], the JSON of
    the cache's side file, the environment, files and vault that secrets come
    from, the TOML reader of a configuration and the reload it is handed to. *)

From S2P Require Import Prelude Bytes Text Ip Errors Dynamic Schema Address Validate Hosts SealedConfig.

(** ** Descriptors ([remote.rs]) *)

Record RemoteConfigSpec := mkRemoteConfigSpec {
  sp_url : string;
  sp_fingerprint_sha256 : string;
  sp_allow_cached_on_failure : bool;
  sp_max_size_bytes : option Z;
  sp_etag_cache : option string
}.

Record RemoteConfigPlan := mkRemoteConfigPlan {
  pl_spec : RemoteConfigSpec;
  pl_pin_spki_sha256 : list string;
  pl_allow_self_signed : bool;
  pl_max_cert_chain_depth : option Z
}.

Inductive PlanError := PlanUrlMissing | FingerprintMissing.

Definition plan_error_text (e : PlanError) : string :=
  match e with
  | PlanUrlMissing => "[runtime.remote_config].url is required"
  | FingerprintMissing => "[runtime.remote_config].fingerprint_sha256 is required"
  end.

(** [o.or_else(...).filter(|s| !s.is_empty())]. *)
Definition or_nonempty (o d : option string) : option string :=
  match (match o with Some s => Some s | None => d end) with
  | Some s => if (s =? "")%string then None else Some s
  | None => None
  end.

Definition plan_from_runtime (rc : RuntimeRemoteConfig) (url_override fingerprint_override : option string) (max_size_bytes : option Z) : Result PlanError RemoteConfigPlan :=
  url ← ok_or PlanUrlMissing (or_nonempty url_override (runtime_remote_config_url rc));
  fingerprint ← ok_or FingerprintMissing (or_nonempty fingerprint_override (runtime_remote_config_fingerprint_sha256 rc));
  Ok (mkRemoteConfigPlan
    (mkRemoteConfigSpec url fingerprint (default false (runtime_remote_config_allow_cached_on_failure rc)) max_size_bytes
       (runtime_remote_config_cache_file rc))
    (runtime_remote_config_pin_spki_sha256 rc) (default false (runtime_remote_config_allow_self_signed rc))
    (runtime_remote_config_max_cert_chain_depth rc)).

Inductive SpecCheck := SpecOk | UrlMissing | UrlNotHttps | FingerprintMalformed.

Definition spec_check (s : RemoteConfigSpec) : SpecCheck :=
  if (sp_url s =? "")%string then UrlMissing
  else if negb (starts_with "https://" (sp_url s)) then UrlNotHttps
  else if negb (String.length (sp_fingerprint_sha256 s) =? 64)%nat || negb (all_hex (sp_fingerprint_sha256 s)) then FingerprintMalformed
  else SpecOk.

(** ** Requests ([http.rs]) *)

Record HttpResponse := mkHttpResponse { hr_status : Z; hr_etag : option string; hr_body : list Z }.

Inductive HttpError :=
| Transport (m : string)
| BodyTooLarge (cap : Z)
| Redirect (m : string)
| InvalidUrl (m : string).

Definition http_error_text (e : HttpError) : string :=
  match e with
  | Transport m => "transport error: " +:+ m
  | BodyTooLarge n => "body exceeded " +:+ pretty n +:+ " bytes"
  | Redirect m => "disallowed redirect: " +:+ m
  | InvalidUrl m => "invalid url: " +:+ m
  end.

(** URL, [If-None-Match], cap. *)
Definition HttpFetcher : Type := string -> option string -> Z -> Result HttpError HttpResponse.

Definition redact_query (url : string) : string :=
  match split_once "?" url with Some (base, _) => base +:+ "?<redacted>" | None => url end.

(** [str::replace] of a pattern that is not empty. *)
Fixpoint replace_fuel (fuel : nat) (from to s : string) : string :=
  match fuel with
  | O => s
  | S n => match find_str from s with Some (before, rest) => before +:+ to +:+ replace_fuel n from to rest | None => s end
  end.
Definition str_replace (from to s : string) : string := replace_fuel (String.length s) from to s.

Definition scrub_url (msg url : string) : string :=
  match split_once "?" url with
  | None => msg
  | Some (_, query) =>
      let out := str_replace url (redact_query url) msg in
      if negb (query =? "")%string then str_replace query "<redacted>" out else out
  end.

(** What the client library gives: a status, a header and the body in pieces. *)
Record RawResponse := mkRawResponse { rr_status : Z; rr_etag : option string; rr_chunks : list (Result string (list Z)) }.

Fixpoint read_capped (url : string) (max_bytes : Z) (body : list Z) (chunks : list (Result string (list Z))) : Result HttpError (list Z) :=
  match chunks with
  | [] => Ok body
  | Err e :: _ => Err (Transport (scrub_url e url))
  | Ok chunk :: rest =>
      if max_bytes <? sat_add 64 (blen body) (blen chunk) then Err (BodyTooLarge max_bytes)
      else read_capped url max_bytes (body ++ chunk) rest
  end.

Definition reqwest_get (send : string -> option string -> Result string RawResponse) : HttpFetcher := fun url if_none_match max_bytes =>
  if negb (starts_with "https://" url) then Err (InvalidUrl ("not https: " +:+ redact_query url))
  else
    match send url if_none_match with
    | Err e => Err (Transport (scrub_url e url))
    | Ok resp =>
        if rr_status resp =? 304 then Ok (mkHttpResponse (rr_status resp) (rr_etag resp) [])
        else body ← read_capped url max_bytes [] (rr_chunks resp); Ok (mkHttpResponse (rr_status resp) (rr_etag resp) body)
    end.

(** ** The cache ([cache.rs]) *)

Record CacheDir := mkCacheDir { cd_path : string; cd_body : option (list Z); cd_sidecar : option (list Z) }.

Definition cache_path (state_dir : string) : string := state_dir +:+ "/remote-config-cache.toml".
Definition fingerprint_sidecar_path (state_dir : string) : string := state_dir +:+ "/remote-config-cache.sha256".

(** Which accesses to the directory fail, and with which message. *)
Record DiskFaults := mkDiskFaults {
  df_read_body : option string;
  df_read_sidecar : option string;
  df_write_body : option string;
  df_write_sidecar : option string
}.
Definition no_faults : DiskFaults := mkDiskFaults None None None None.

Record CachedEntry := mkCachedEntry { ce_body : list Z; ce_etag : option string; ce_recorded_sha256 : option string }.

(** The JSON of the side file: the digest and the ETag. *)
Class SidecarJson := {
  sidecar_text : string -> option string -> string;
  sidecar_read : string -> option (option string * option string);
  sidecar_utf8 : forall sha etag, text_of (bytes_of (sidecar_text sha etag)) = Some (sidecar_text sha etag);
  sidecar_back : forall sha etag, sidecar_read (sidecar_text sha etag) = Some (etag, Some sha)
}.

(** ** Fetching ([fetch.rs]) *)

Inductive RemoteConfigError :=
| InvalidSpec (c : SpecCheck)
| Fetch (e : HttpError)
| BadStatus (status : Z)
| FingerprintMismatch (expected actual : string)
| NotModifiedWithoutCache
| NoCacheFallback (reason : string)
| CacheIo (m : string).

Definition spec_check_text (c : SpecCheck) : string :=
  match c with SpecOk => "Ok" | UrlMissing => "UrlMissing" | UrlNotHttps => "UrlNotHttps" | FingerprintMalformed => "FingerprintMalformed" end.

Definition remote_error_text (e : RemoteConfigError) : string :=
  match e with
  | InvalidSpec c => "invalid remote-config spec: " +:+ spec_check_text c
  | Fetch h => "fetch failed: " +:+ http_error_text h
  | BadStatus s => "unexpected http status: " +:+ pretty s
  | FingerprintMismatch expected actual => "fingerprint mismatch: expected " +:+ expected +:+ ", got " +:+ actual
  | NotModifiedWithoutCache => "server returned 304 but no cache is available"
  | NoCacheFallback r => "fetch failed and no usable cache: " +:+ r
  | CacheIo m => "cache io error: " +:+ m
  end.

Inductive FetchOutcome := Fresh | NotModified | StaleFromCache.

Record FetchResult := mkFetchResult { fr_outcome : FetchOutcome; fr_body : list Z; fr_etag : option string }.

Definition DEFAULT_MAX_BYTES : Z := 4 * 1024 * 1024.

Section Remote.
Context `{base64 : Base64Crate} `{crypto : SealCrypto} `{utf8 : Utf8Message}.
Context `{tmeta : TomlDoc Meta} `{tbody : TomlDoc Body} `{tsig : TomlDoc Signature} `{side : SidecarJson} `{human : !HumanTime}.

Definition hex_sha256 (bytes : list Z) : string := foldr (fun b s => hex_byte b +:+ s) "" (sha256 bytes).

Definition fault (path what : string) (e : string) : string := "state lock failed at `" +:+ path +:+ "`: " +:+ what +:+ e.

(** [load_cached]; the errors are their texts. *)
Definition load_cached (f : DiskFaults) (d : CacheDir) : Result string (option CachedEntry) :=
  match cd_body d with
  | None => Ok None
  | Some body =>
      match df_read_body f with
      | Some e => Err (fault (cache_path (cd_path d)) "read cache: " e)
      | None =>
          match cd_sidecar d with
          | None => Ok (Some (mkCachedEntry body None None))
          | Some raw =>
              match df_read_sidecar f, text_of raw with
              | Some e, _ => Err (fault (fingerprint_sidecar_path (cd_path d)) "read sidecar: " e)
              | None, None => Err (fault (fingerprint_sidecar_path (cd_path d)) "read sidecar: " "stream did not contain valid UTF-8")
              | None, Some s =>
                  match sidecar_read s with
                  | Some (etag, sha) => Ok (Some (mkCachedEntry body etag sha))
                  | None => Ok (Some (mkCachedEntry body None None))
                  end
              end
          end
      end
  end.

(** [save_atomic]: the body first, then the side file. *)
Definition save_atomic (f : DiskFaults) (d : CacheDir) (body : list Z) (etag : option string) : Result string unit * CacheDir :=
  match df_write_body f with
  | Some e => (Err e, d)
  | None =>
      let d := mkCacheDir (cd_path d) (Some body) (cd_sidecar d) in
      match df_write_sidecar f with
      | Some e => (Err e, d)
      | None => (Ok tt, mkCacheDir (cd_path d) (Some body) (Some (bytes_of (sidecar_text (hex_sha256 body) etag))))
      end
  end.

(** Lengths, then every byte. *)
Definition hex_eq (a b : string) : bool := (a =? b)%string.

Definition verify_cache_against_pin (c : CachedEntry) (pin : string) : Result RemoteConfigError unit :=
  let actual := hex_sha256 (ce_body c) in
  if hex_eq actual (to_ascii_lowercase pin) then Ok tt else Err (FingerprintMismatch pin actual).

Definition cache_fallback_or (cached : option CachedEntry) (spec : RemoteConfigSpec) (on_no_cache : RemoteConfigError) : Result RemoteConfigError FetchResult :=
  match cached with
  | Some c =>
      if is_ok (verify_cache_against_pin c (sp_fingerprint_sha256 spec))
      then Ok (mkFetchResult StaleFromCache (ce_body c) (ce_etag c)) else Err on_no_cache
  | None => Err on_no_cache
  end.

Definition fetch (spec : RemoteConfigSpec) (f : DiskFaults) (d : CacheDir) (get : HttpFetcher) : Result RemoteConfigError FetchResult * CacheDir :=
  match spec_check spec with
  | SpecOk =>
      let cap := default DEFAULT_MAX_BYTES (sp_max_size_bytes spec) in
      match load_cached f d with
      | Err e => (Err (CacheIo e), d)
      | Ok cached =>
          match get (sp_url spec) (c ← cached; ce_etag c) cap with
          | Ok resp =>
              if hr_status resp =? 200 then
                let actual := hex_sha256 (hr_body resp) in
                if negb (hex_eq actual (to_ascii_lowercase (sp_fingerprint_sha256 spec)))
                then (Err (FingerprintMismatch (sp_fingerprint_sha256 spec) actual), d)
                else
                  match save_atomic f d (hr_body resp) (hr_etag resp) with
                  | (Err e, d) => (Err (CacheIo e), d)
                  | (Ok _, d) => (Ok (mkFetchResult Fresh (hr_body resp) (hr_etag resp)), d)
                  end
              else if hr_status resp =? 304 then
                (match cached with
                 | None => Err NotModifiedWithoutCache
                 | Some c =>
                     _ ← verify_cache_against_pin c (sp_fingerprint_sha256 spec);
                     Ok (mkFetchResult NotModified (ce_body c) (ce_etag c))
                 end, d)
              else if (500 <=? hr_status resp) && sp_allow_cached_on_failure spec
              then (cache_fallback_or cached spec (BadStatus (hr_status resp)), d)
              else (Err (BadStatus (hr_status resp)), d)
          | Err e =>
              if sp_allow_cached_on_failure spec
              then (cache_fallback_or cached spec (NoCacheFallback (http_error_text e)), d)
              else (Err (Fetch e), d)
          end
      end
  | c => (Err (InvalidSpec c), d)
  end.

(** ** Polling ([poll.rs]) *)

(** [x >> 33] of the 64-bit product. *)
Definition lcg_jitter (seed : Z) : Z :=
  Z.shiftr (wrap 64 (wrap 64 (seed * 6364136223846793005) + 1442695040888963407)) 33.

Definition poll_delay (interval failures : Z) : Z :=
  if failures =? 0 then interval
  else
    let cap_ms := wrap 64 (Z.max (as_millis interval) 1) in
    let base_ms := Z.min 1000 cap_ms in
    let shift := Z.min (failures - 1) 20 in
    let grown_ms := sat_mul 64 base_ms (Z.shiftl 1 shift) in
    let bounded_ms := Z.min grown_ms cap_ms in
    let jitter_span := Z.max (bounded_ms / 4) 1 in
    let jitter := lcg_jitter failures mod jitter_span in
    from_millis (sat_sub bounded_ms jitter).

Record PollState := mkPollState { po_last_body_sha : option string; po_failures : Z; po_last_error : option string }.
Definition poll_init : PollState := mkPollState None 0 None.

(** One turn of [run_loop] once its sleep is over: the state, the directory, and
    the body given to the callback with the callback's answer. *)
Definition poll_round (spec : RemoteConfigSpec) (f : DiskFaults) (get : HttpFetcher) (apply_cb : list Z -> bool) (p : PollState) (d : CacheDir)
  : PollState * CacheDir * option (list Z * bool) :=
  match fetch spec f d get with
  | (Ok res, d) =>
      let healthy := mkPollState (po_last_body_sha p) 0 None in
      match fr_outcome res with
      | NotModified => (healthy, d, None)
      | Fresh | StaleFromCache =>
          let sha := hex_sha256 (fr_body res) in
          if bool_decide (po_last_body_sha p = Some sha) then (healthy, d, None)
          else if apply_cb (fr_body res) then (mkPollState (Some sha) 0 None, d, Some (fr_body res, true))
          else (healthy, d, Some (fr_body res, false))
      end
  | (Err e, d) => (mkPollState (po_last_body_sha p) (sat_add 32 (po_failures p) 1) (Some (remote_error_text e)), d, None)
  end.

(** What a round meets: the disk, the server, and what the callback would do. *)
Record Weather := mkWeather { we_faults : DiskFaults; we_get : HttpFetcher; we_apply : list Z -> bool }.

(** The loop until the shutdown: its state, the directory and the calls. *)
Fixpoint poll_run (spec : RemoteConfigSpec) (ws : list Weather) (p : PollState) (d : CacheDir) : PollState * CacheDir * list (list Z * bool) :=
  match ws with
  | [] => (p, d, [])
  | w :: rest =>
      let '(p, d, call) := poll_round spec (we_faults w) (we_get w) (we_apply w) p d in
      let '(p, d, calls) := poll_run spec rest p d in
      (p, d, match call with Some c => c :: calls | None => calls end)
  end.

(** ** References to secrets ([secret_ref.rs]) *)

Inductive AuthRef := RefVault (namespace name : string) | RefEnv (name : string) | RefFile (path : string).

Inductive SecretRefError :=
| UnknownScheme (s : string)
| MissingNameSeparator (s : string)
| EmptyPart (field input : string)
| EmptyEnvName (s : string)
| BadFileUri (s : string).

Definition secret_ref_error_text (e : SecretRefError) : string :=
  match e with
  | UnknownScheme s => "secret reference must start with `secret://`, `env:`, or `file:///`; got `" +:+ s +:+ "`"
  | MissingNameSeparator s => "secret://<ns>/<name>: missing `/` between namespace and name in `" +:+ s +:+ "`"
  | EmptyPart field input => "secret reference has empty " +:+ field +:+ " in `" +:+ input +:+ "`"
  | EmptyEnvName s => "env: reference has empty variable name in `" +:+ s +:+ "`"
  | BadFileUri s => "file:// reference is malformed: `" +:+ s +:+ "`"
  end.

(** What follows the first character. *)
Fixpoint skip_continuation (s : string) : string :=
  match s with String a r => if continuation (code a) then skip_continuation r else s | EmptyString => s end.
Definition after_first (s : string) : string := match s with String _ r => skip_continuation r | EmptyString => s end.

Definition AuthRef_parse (s : string) : Result SecretRefError AuthRef :=
  let s := trim s in
  match strip_prefix "secret://" s with
  | Some rest =>
      '(ns, name) ← ok_or (MissingNameSeparator s) (split_once "/" rest);
      if (ns =? "")%string then Err (EmptyPart "namespace" s)
      else if (name =? "")%string then Err (EmptyPart "name" s)
      else Ok (RefVault ns name)
  | None =>
      match strip_prefix "env:" s with
      | Some name => if (name =? "")%string then Err (EmptyEnvName s) else Ok (RefEnv name)
      | None =>
          match strip_prefix "file://" s with
          | Some rest =>
              let path := default rest (strip_prefix "/" rest) in
              if (path =? "")%string then Err (BadFileUri s)
              else if starts_with ":" (after_first path) then Ok (RefFile path) else Ok (RefFile ("/" +:+ path))
          | None => Err (UnknownScheme s)
          end
      end
  end.

(** ** Keys behind references ([config_ops.rs]) *)

(** Where secrets are: the environment, files, the vault. *)
Record World := mkWorld {
  wo_env : string -> Result string string;
  wo_read : string -> Result string (list Z);
  wo_vault : string -> string -> Result Error (list Z)
}.

Fixpoint strip_trailing_newlines (v : list Z) : list Z :=
  match v with
  | [] => []
  | b :: r =>
      match strip_trailing_newlines r with
      | [] => if (b =? 10) || (b =? 13) then [] else [b]
      | r' => b :: r'
      end
  end.

Definition read_env_source (w : World) (name : string) : Result Error (list Z) :=
  match wo_env w name with Ok v => Ok (bytes_of v) | Err e => Err (SecretUnavailable ("env:" +:+ name) e) end.

Definition read_file_source (w : World) (path : string) : Result Error (list Z) :=
  match wo_read w path with Ok v => Ok (strip_trailing_newlines v) | Err e => Err (SecretUnavailable ("file:" +:+ path) e) end.

Definition resolve_ref_to_bytes (w : World) (reference : string) : Result Error (list Z) :=
  match AuthRef_parse reference with
  | Err e => Err (InvalidArgs ("invalid passphrase ref `" +:+ reference +:+ "`: " +:+ secret_ref_error_text e))
  | Ok (RefEnv name) => read_env_source w name
  | Ok (RefFile p) => read_file_source w p
  | Ok (RefVault ns name) => wo_vault w ns name
  end.

Definition decode_x25519_secret_bytes (label : string) (raw : list Z) : Result Error (list Z) :=
  if blen raw =? 32 then Ok raw
  else
    match text_of raw with
    | None => Err (InvalidConfig ("x25519 key `" +:+ label +:+ "` not UTF-8: " +:+ utf8_error raw))
    | Some text =>
        decoded ← map_err (fun e => InvalidConfig ("x25519 key `" +:+ label +:+ "` b64 decode: " +:+ e)) (b64_decode (trim text));
        if negb (blen decoded =? 32)
        then Err (InvalidConfig ("x25519 key `" +:+ label +:+ "` must decode to 32 bytes, got " +:+ pretty (blen decoded)))
        else Ok decoded
    end.

Fixpoint decode_pairs (s : string) : option (list Z) :=
  match s with
  | String a (String b r) => x ← to_digit 16 a; y ← to_digit 16 b; l ← decode_pairs r; Some (Z.lor (wrap 8 (Z.shiftl x 4)) y :: l)
  | String _ EmptyString => None
  | EmptyString => Some []
  end.

(** The callers do not look at the error. *)
Definition decode_hex (s : string) : option (list Z) := if (Z.of_nat (String.length s) mod 2 =? 0) then decode_pairs s else None.

Definition encode_hex (bytes : list Z) : string := foldr (fun b s => hex_byte b +:+ s) "" bytes.

Definition decode_psk_bytes (reference : string) (raw : list Z) : Result Error (list Z) :=
  if blen raw =? 32 then Ok raw
  else
    match text_of raw with
    | None => Err (InvalidArgs ("PSK `" +:+ reference +:+ "` is not UTF-8: " +:+ utf8_error raw))
    | Some t =>
        let text := trim t in
        let refused := Err (InvalidArgs ("PSK `" +:+ reference +:+ "` must be exactly 32 raw bytes, base64, or 64 hex chars")) in
        let as_hex :=
          if (String.length text =? 64)%nat then
            match decode_hex text with Some decoded => if blen decoded =? 32 then Ok decoded else refused | None => refused end
          else refused in
        match b64_decode text with
        | Ok decoded => if blen decoded =? 32 then Ok decoded else as_hex
        | Err _ => as_hex
        end
    end.

Definition build_psk_key_source (w : World) (psk_from : string) : Result Error KeySource :=
  raw ← resolve_ref_to_bytes w psk_from; key ← decode_psk_bytes psk_from raw; Ok (Psk key).

(** What [config gen-key] writes to its files, for the key [k]. *)
Inductive KeyKind := KindX25519 | KindPsk (hex : bool).
Definition gen_key_file (kind : KeyKind) (k : list Z) : list Z :=
  match kind with
  | KindX25519 => k
  | KindPsk hex => bytes_of (if hex then encode_hex k else b64_encode k) ++ [10]
  end.

(** ** The checks of a fetched body *)

Definition decrypt_if_sealed (w : World) (body : list Z) (key_ref : option string) (require_encrypted : bool) : Result Error (list Z) :=
  if is_sealed body then
    key_ref ← ok_or (InvalidConfig "fetched config is a sealed SPTENC1 envelope but no [runtime.remote_config].encryption_key_from is configured") key_ref;
    meta ← peek_meta body;
    key ← (if (me_kdf meta =? "psk")%string then build_psk_key_source w key_ref
           else if (me_kdf meta =? "x25519")%string then
             raw ← resolve_ref_to_bytes w key_ref; scalar ← decode_x25519_secret_bytes key_ref raw; Ok (X25519Secrets [scalar])
           else Err (InvalidConfig ("remote config is sealed with kdf `" +:+ me_kdf meta +:+ "`, which [runtime.remote_config].encryption_key_from cannot supply (only `psk` and `x25519` are decryptable via a key ref)")));
    (unseal body key).2
  else if require_encrypted then Err (InvalidConfig "fetched config is cleartext but [runtime.remote_config].require_encrypted = true")
  else Ok body.

Definition decode_ed25519_pubkey (label b64 : string) : Result Error (list Z) :=
  let pre := "[runtime.remote_config].signing_pubkey `" +:+ label +:+ "` " in
  raw ← map_err (fun e => InvalidConfig (pre +:+ "is not valid base64: " +:+ e)) (b64_decode (trim b64));
  if negb (blen raw =? 32) then Err (InvalidConfig (pre +:+ "must decode to 32 bytes, got " +:+ pretty (blen raw)))
  else _ ← map_err (fun e => InvalidConfig (pre +:+ "is not a valid Ed25519 key: " +:+ e)) (ed25519_key raw); Ok raw.

Definition resolve_signing_pubkey (w : World) (value : string) : Result Error (list Z) :=
  match AuthRef_parse value with
  | Ok _ =>
      raw ← resolve_ref_to_bytes w value;
      match text_of raw with
      | None => Err (InvalidConfig ("[runtime.remote_config].signing_pubkey ref `" +:+ value +:+ "` did not resolve to UTF-8 base64: " +:+ utf8_error raw))
      | Some text => decode_ed25519_pubkey value (trim text)
      end
  | Err _ => decode_ed25519_pubkey value value
  end.

Definition verify_sigverify_anchor (w : World) (body : list Z) (signing_pubkey : option string) (require_signature : bool) : Result Error unit :=
  anchor ← match signing_pubkey with
           | Some p => if negb (trim p =? "")%string then a ← resolve_signing_pubkey w p; Ok (Some a) else Ok None
           | None => Ok None
           end;
  match anchor with
  | None =>
      if require_signature
      then Err (TrustFailed "[runtime.remote_config].require_signature = true but no signing_pubkey trust anchor is configured (fail-closed)")
      else Ok tt
  | Some anchor =>
      if negb (is_sealed body) then
        if require_signature
        then Err (TrustFailed "[runtime.remote_config].require_signature = true but the fetched config is not a signed SPTENC1 envelope")
        else Ok tt
      else (verify_with_options body [anchor] false).2
  end.

(** ** The callers ([cli_dispatch.rs]) *)

Definition requires_signature (rc : RuntimeRemoteConfig) : bool := default false (runtime_remote_config_require_signature rc).
Definition requires_encrypted (rc : RuntimeRemoteConfig) : bool := default false (runtime_remote_config_require_encrypted rc).

(** The signature, then the decryption. *)
Definition open_body (w : World) (rc : RuntimeRemoteConfig) (body : list Z) : Result Error (list Z) :=
  _ ← verify_sigverify_anchor w body (runtime_remote_config_signing_pubkey rc) (requires_signature rc);
  decrypt_if_sealed w body (runtime_remote_config_encryption_key_from rc) (requires_encrypted rc).

Definition map_remote_config_err (e : RemoteConfigError) : Error :=
  match e with
  | FingerprintMismatch _ _ => TrustFailed ("remote-config pin mismatch: " +:+ remote_error_text e)
  | Fetch _ | BadStatus _ | NotModifiedWithoutCache | NoCacheFallback _ => NetworkUnreachable ("remote-config fetch: " +:+ remote_error_text e)
  | InvalidSpec _ | CacheIo _ => InvalidConfig ("remote-config: " +:+ remote_error_text e)
  end.

(** [config pull]: the plaintext it writes. The fetcher is built from the plan's
    pins. *)
Definition config_pull (w : World) (fetcher_for : RemoteConfigPlan -> Result HttpError HttpFetcher) (rc : RuntimeRemoteConfig)
    (url : string) (fingerprint : option string) (f : DiskFaults) (d : CacheDir) : Result Error (list Z) * CacheDir :=
  match plan_from_runtime rc (if negb (url =? "")%string then Some url else None) fingerprint None with
  | Err FingerprintMissing => (Err (InvalidArgs "--fingerprint <SHA256> is required (remote-config pull is pin-only per spec §14.3)"), d)
  | Err PlanUrlMissing => (Err (InvalidArgs "remote config: a URL is required"), d)
  | Ok plan =>
      match fetcher_for plan with
      | Err e => (Err (map_remote_config_err (Fetch e)), d)
      | Ok get =>
          match fetch (pl_spec plan) f d get with
          | (Err e, d) => (Err (map_remote_config_err e), d)
          | (Ok res, d) => (open_body w rc (fr_body res), d)
          end
      end
  end.

(** [--config-url]: the body that becomes the configuration file. *)
Definition config_url_body (fetcher_for : RemoteConfigPlan -> Result HttpError HttpFetcher) (rc : RuntimeRemoteConfig)
    (url : string) (fingerprint : option string) (f : DiskFaults) (d : CacheDir) : Result Error (list Z) * CacheDir :=
  match plan_from_runtime rc (Some url) fingerprint None with
  | Err e => (Err (InvalidArgs ("remote config: " +:+ plan_error_text e)), d)
  | Ok plan =>
      match fetcher_for plan with
      | Err e => (Err (map_remote_config_err (Fetch e)), d)
      | Ok get =>
          match fetch (pl_spec plan) f d get with
          | (Err e, d) => (Err (map_remote_config_err e), d)
          | (Ok res, d) => (Ok (fr_body res), d)
          end
      end
  end.

Section Daemon.
Context {C : Type} (load_str : string -> Result Error C).

(** The configuration that a body is reloaded as, if it gets that far. *)
Definition admit_body (w : World) (rc : RuntimeRemoteConfig) (body : list Z) : option C :=
  match open_body w rc body with
  | Err _ => None
  | Ok plaintext =>
      match text_of plaintext with
      | None => None
      | Some text => match load_str text with Ok c => Some c | Err _ => None end
      end
  end.

(** The callback of the poller. *)
Definition apply_cb (w : World) (rc : RuntimeRemoteConfig) (reload : C -> bool) (body : list Z) : bool :=
  match admit_body w rc body with Some c => reload c | None => false end.

End Daemon.

(** Whether a poller starts, with which interval and plan. *)
Definition poller_start (rc : option RuntimeRemoteConfig) : option (Z * RemoteConfigPlan) :=
  rc ← rc;
  if negb (bool_decide (runtime_remote_config_enabled rc = Some true)) then None
  else
    s ← runtime_remote_config_poll_interval rc;
    match parse_duration s with
    | Err _ => None
    | Ok interval =>
        if interval =? 0 then None
        else match plan_from_runtime rc None None None with Ok plan => Some (interval, plan) | Err _ => None end
    end.

(** ** Lemmas: fetching *)

Lemma read_capped_bounded url cap body chunks r :
  0 <= cap < umax 64 -> blen body <= cap -> read_capped url cap body chunks = Ok r -> blen r <= cap.
Proof.
  intros Hc. revert body. induction chunks as [|[c|e] chunks IH]; intros body Hb; cbn [read_capped]; [by intros [= <-]| |done].
  destruct (Z.ltb_spec cap (sat_add 64 (blen body) (blen c))) as [|Hs]; [done|]. apply IH. rewrite blen_app. unfold sat_add in Hs. lia.
Qed.

(** The client never hands on more than the cap. *)
Lemma reqwest_bounded send url inm cap resp : 0 <= cap < umax 64 -> reqwest_get send url inm cap = Ok resp -> blen (hr_body resp) <= cap.
Proof.
  intros Hc. unfold reqwest_get. destruct (negb _); [done|]. destruct (send url inm) as [raw|]; [|done]. destruct (_ =? 304); [intros [= <-]; unfold blen; cbn; lia|].
  destruct (read_capped _ _ _ _) as [b|] eqn:E; [|done]. intros [= <-]. eapply read_capped_bounded; [done| |exact E]. unfold blen. cbn. lia.
Qed.

Lemma load_cached_body f d c : load_cached f d = Ok (Some c) -> cd_body d = Some (ce_body c).
Proof.
  unfold load_cached. destruct (cd_body d) as [b|]; [|done]. destruct (df_read_body f); [done|].
  destruct (cd_sidecar d) as [raw|]; [|by intros [= <-]]. destruct (df_read_sidecar f); [done|]. destruct (text_of raw) as [s|]; [|done].
  destruct (sidecar_read s) as [[? ?]|]; by intros [= <-].
Qed.

Definition pinned (spec : RemoteConfigSpec) (b : list Z) : Prop := hex_sha256 b = to_ascii_lowercase (sp_fingerprint_sha256 spec).

Lemma cache_verified c spec : verify_cache_against_pin c (sp_fingerprint_sha256 spec) = Ok tt -> pinned spec (ce_body c).
Proof. unfold verify_cache_against_pin, hex_eq, pinned. destruct (String.eqb_spec (hex_sha256 (ce_body c)) (to_ascii_lowercase (sp_fingerprint_sha256 spec))); done. Qed.

Lemma fallback_pinned cached spec e r : cache_fallback_or cached spec e = Ok r -> pinned spec (fr_body r).
Proof.
  unfold cache_fallback_or. destruct cached as [c|]; [|done]. destruct (verify_cache_against_pin c _) as [[]|] eqn:E; [|done].
  intros [= <-]. by apply cache_verified.
Qed.

(** The cached body stays as it was, or becomes a pinned one. *)
Definition cache_sound (spec : RemoteConfigSpec) (d d' : CacheDir) : Prop :=
  cd_body d' = cd_body d \/ exists b, cd_body d' = Some b /\ pinned spec b.

#[local] Instance cache_sound_refl spec : Reflexive (cache_sound spec).
Proof. by left. Qed.
#[local] Instance cache_sound_trans spec : Transitive (cache_sound spec).
Proof. intros a b c [E|H] [E'|H']; unfold cache_sound; rewrite ?E', ?E; eauto. Qed.

Lemma save_sound spec f d b etag : pinned spec b -> cache_sound spec d (save_atomic f d b etag).2.
Proof. intros Hp. unfold save_atomic. destruct (df_write_body f); [done|]. right. destruct (df_write_sidecar f); cbn; eauto. Qed.

(** Whatever a fetch returns has the pinned digest, and the cache stays sound. *)
Lemma fetch_pinned spec f d get : let '(r, d') := fetch spec f d get in
  (forall res, r = Ok res -> pinned spec (fr_body res)) /\ cache_sound spec d d'.
Proof.
  unfold fetch. destruct (spec_check spec); try (split; [done|reflexivity]).
  destruct (load_cached f d) as [cached|e]; [|split; [done|reflexivity]].
  destruct (get _ _ _) as [resp|e].
  - destruct (hr_status resp =? 200).
    + unfold hex_eq. destruct (String.eqb_spec (hex_sha256 (hr_body resp)) (to_ascii_lowercase (sp_fingerprint_sha256 spec))) as [Hp|]; cbn [negb]; [|split; [done|reflexivity]].
      pose proof (save_sound spec f d (hr_body resp) (hr_etag resp) Hp) as Hs. destruct (save_atomic _ _ _ _) as [[[]|e] d'].
      * split; [by intros res [= <-]|done].
      * split; [done|done].
    + destruct (hr_status resp =? 304).
      * split; [|reflexivity]. destruct cached as [c|]; [|done]. destruct (verify_cache_against_pin c _) as [[]|] eqn:E; [|done].
        intros res [= <-]. by apply cache_verified.
      * destruct (_ && _); (split; [|reflexivity]); [by intros res; apply fallback_pinned|done].
  - destruct (sp_allow_cached_on_failure spec); (split; [|reflexivity]); [by intros res; apply fallback_pinned|done].
Qed.

(** ** Lemmas: polling *)

(** A call has a pinned body and is made only while no call succeeded. *)
Lemma poll_round_spec spec f get cb p d : let '(p', d', call) := poll_round spec f get cb p d in
  cache_sound spec d d'
  /\ match call with
     | None => po_last_body_sha p' = po_last_body_sha p
     | Some (b, ok) =>
         pinned spec b /\ ok = cb b /\ po_last_body_sha p <> Some (to_ascii_lowercase (sp_fingerprint_sha256 spec))
         /\ po_last_body_sha p' = if ok then Some (to_ascii_lowercase (sp_fingerprint_sha256 spec)) else po_last_body_sha p
     end.
Proof.
  unfold poll_round. pose proof (fetch_pinned spec f d get) as H. destruct (fetch spec f d get) as [[res|e] d']; destruct H as [Hp Hc]; [|done].
  specialize (Hp res eq_refl). destruct (fr_outcome res); [|done|]; rewrite <- Hp; case_bool_decide as Hl; try done;
    destruct (cb (fr_body res)) eqn:Ecb; (split; [done|]); split_and!; done.
Qed.

(** All but the last. *)
Fixpoint butlast {A} (l : list A) : list A := match l with [] => [] | [_] => [] | x :: r => x :: butlast r end.

Lemma poll_run_spec spec ws p d : let '(_, d', calls) := poll_run spec ws p d in
  cache_sound spec d d' /\ Forall (fun c => pinned spec c.1) calls /\ Forall (fun c => c.2 = false) (butlast calls)
  /\ (po_last_body_sha p = Some (to_ascii_lowercase (sp_fingerprint_sha256 spec)) -> calls = []).
Proof.
  revert p d. induction ws as [|w ws IH]; intros p d; cbn [poll_run]; [by split_and!|].
  pose proof (poll_round_spec spec (we_faults w) (we_get w) (we_apply w) p d) as Hr.
  destruct (poll_round _ _ _ _ p d) as [[p1 d1] call]. destruct Hr as [Hd Hr]. specialize (IH p1 d1).
  destruct (poll_run spec ws p1 d1) as [[p2 d2] calls]. destruct IH as (Hd' & Hpin & Hf & Hend). destruct call as [[b ok]|].
  - destruct Hr as (Hb & -> & Hno & Hl). split_and!; [by etrans|by constructor| |done]. cbn [butlast].
    destruct calls as [|c calls]; [done|]. constructor; [|done]. cbn [snd]. destruct (we_apply w b); [|done]. discriminate (Hend Hl).
  - split_and!; [by etrans|done|done|]. rewrite <- Hr. done.
Qed.

(** C17: however servers, disks and callbacks behave in whatever sequence of
    rounds, every body the poller hands to its callback has the pinned digest,
    only the last of these calls can have succeeded (a poller applies one body
    at most in its life), and the cache holds the body it held before or one
    with the pinned digest. *)
Theorem poll_applies_once spec ws d : let '(_, d', calls) := poll_run spec ws poll_init d in
  Forall (fun c => hex_sha256 c.1 = to_ascii_lowercase (sp_fingerprint_sha256 spec)) calls
  /\ Forall (fun c => c.2 = false) (butlast calls)
  /\ (cd_body d' = cd_body d \/ exists b, cd_body d' = Some b /\ hex_sha256 b = to_ascii_lowercase (sp_fingerprint_sha256 spec)).
Proof.
  pose proof (poll_run_spec spec ws poll_init d) as H. destruct (poll_run spec ws poll_init d) as [[p d'] calls]. by destruct H as (Hd & Hp & Hf & _).
Qed.

(** ** The delay *)

(** After failures the next attempt comes within the interval, and not before
    three quarters of the grown delay. *)
Lemma poll_delay_range interval failures :
  0 < failures < 2 ^ 32 -> from_millis 1 <= interval -> as_millis interval < 2 ^ 64 ->
  let cap := as_millis interval in
  let bounded := Z.min (Z.min 1000 cap * 2 ^ Z.min (failures - 1) 20) cap in
  3 * from_millis bounded <= 4 * poll_delay interval failures /\ 0 < poll_delay interval failures <= interval.
Proof.
  intros Hf Hi Hu. unfold poll_delay, from_millis, as_millis, NANOS_PER_MS in *. destruct (Z.eqb_spec failures 0); [lia|].
  assert (1 <= interval / 1000000) as H1 by (apply Z.div_le_lower_bound; lia). set (cap := interval / 1000000) in *.
  assert (cap * 1000000 <= interval) as Hcap by (unfold cap; pose proof (Z.mul_div_le interval 1000000 ltac:(lia)); lia).
  rewrite (Z.max_l cap 1) by lia. rewrite wrap_small by (unfold in_u, umax; lia). clearbody cap.
  assert (1 <= 2 ^ Z.min (failures - 1) 20 <= 2 ^ 20) as Hp.
  { split; [pose proof (Z.pow_pos_nonneg 2 (Z.min (failures - 1) 20)); lia|apply Z.pow_le_mono_r; lia]. }
  rewrite Z.shiftl_1_l. set (pw := 2 ^ Z.min (failures - 1) 20) in *. clearbody pw. change (2 ^ 20) with 1048576 in Hp.
  assert (sat_mul 64 (Z.min 1000 cap) pw = Z.min 1000 cap * pw) as -> by (unfold sat_mul, umax; change (2 ^ 64) with 18446744073709551616; nia).
  set (b := Z.min (Z.min 1000 cap * pw) cap). assert (1 <= b <= cap) as Hb by (unfold b; nia). clearbody b.
  pose proof (Z.mod_pos_bound (lcg_jitter failures) (Z.max (b / 4) 1) ltac:(lia)) as Hj. set (j := _ mod _) in *. clearbody j.
  pose proof (Z.mul_div_le b 4 ltac:(lia)). unfold sat_sub. destruct (Z.le_gt_cases (b / 4) 1); lia.
Qed.

(** ** What a fetched body must be *)

Definition signed_by (anchor b : list Z) : Prop :=
  exists p meta body s raw trailing,
    b = envelope p ++ trailing /\ parse b = Ok (p, meta, body, Some s) /\ b64_decode (si_pubkey_b64 s) = Ok anchor
    /\ b64_decode (si_sig_b64 s) = Ok raw /\ ed25519_verify anchor (MAGIC ++ pe_meta_bytes p ++ pe_body_bytes p) raw = Ok tt.

(** The key behind the configured reference, for the envelope's kind of key. *)
Definition configured_key (w : World) (ref : string) (key : KeySource) : Prop :=
  build_psk_key_source w ref = Ok key
  \/ exists raw s, resolve_ref_to_bytes w ref = Ok raw /\ decode_x25519_secret_bytes ref raw = Ok s /\ key = X25519Secrets [s].

Definition decrypts_to (w : World) (rc : RuntimeRemoteConfig) (b plain : list Z) : Prop :=
  exists ref key p meta body sig k nonce ct,
    runtime_remote_config_encryption_key_from rc = Some ref /\ configured_key w ref key /\ parse b = Ok (p, meta, body, sig)
    /\ derive_body_key meta key = Ok k /\ body_nonce body = Ok nonce /\ body_ciphertext body = Ok ct
    /\ aes_decrypt k nonce (MAGIC ++ pe_meta_bytes p) ct = Some plain.

Lemma verify_signed_by b anchor : Forall byte_ok b -> (verify_with_options b [anchor] false).2 = Ok tt -> signed_by anchor b.
Proof.
  intros Hb H. destruct (verify_inv b [anchor] Hb H) as (p & meta & body & s & pk & raw & t & E & Hp & H1 & Hin & H2 & H3).
  apply list_elem_of_singleton in Hin as ->. exists p, meta, body, s, raw, t. auto 10.
Qed.

Lemma anchor_checked w b sp req :
  Forall byte_ok b -> verify_sigverify_anchor w b sp req = Ok tt ->
  (req = true -> is_sealed b = true /\ exists pk anchor, sp = Some pk /\ resolve_signing_pubkey w pk = Ok anchor /\ signed_by anchor b)
  /\ (is_sealed b = true -> forall pk, sp = Some pk -> trim pk <> ""%string -> exists anchor, resolve_signing_pubkey w pk = Ok anchor /\ signed_by anchor b).
Proof.
  intros Hb. unfold verify_sigverify_anchor. destruct sp as [pk|]; cbn [mbind result_bind]; [|by destruct req].
  destruct (String.eqb_spec (trim pk) "") as [Ht|Ht]; cbn [negb mbind result_bind].
  { destruct req; [done|]. intros _. split; [done|]. by intros _ ? [= <-]. }
  destruct (resolve_signing_pubkey w pk) as [a|] eqn:Er; [|done]. cbn [mbind result_bind]. destruct (is_sealed b); cbn [negb].
  - intros Hv%verify_signed_by; [|done]. split; [intros _; eauto 6|]. intros _ pk' [= <-] _. eauto.
  - by destruct req.
Qed.

Lemma decrypted w rc b plain :
  decrypt_if_sealed w b (runtime_remote_config_encryption_key_from rc) (requires_encrypted rc) = Ok plain ->
  (requires_encrypted rc = true -> is_sealed b = true) /\ if is_sealed b then decrypts_to w rc b plain else plain = b.
Proof.
  unfold decrypt_if_sealed. destruct (is_sealed b); [|destruct (requires_encrypted rc); [done|by intros [= <-]]].
  destruct (runtime_remote_config_encryption_key_from rc) as [ref|] eqn:Er; [|done]. cbn [ok_or mbind result_bind].
  destruct (peek_meta b) as [meta0|]; [|done]. cbn [mbind result_bind]. intros H. split; [done|].
  assert (exists key, configured_key w ref key /\ (unseal b key).2 = Ok plain) as (key & Hk & Hu).
  { revert H. destruct (_ =? "psk")%string; [destruct (build_psk_key_source w ref) as [key|] eqn:E; [|done]; cbn [mbind result_bind]; unfold configured_key; eauto|].
    destruct (_ =? "x25519")%string; [|done]. destruct (resolve_ref_to_bytes w ref) as [raw|] eqn:E1; [|done]. cbn [mbind result_bind].
    destruct (decode_x25519_secret_bytes ref raw) as [s|] eqn:E2; [|done]. cbn [mbind result_bind]. unfold configured_key. eauto 8. }
  destruct (unseal_inv _ _ _ Hu) as (p & meta & body & sig & k & nonce & ct & H1 & _ & H2 & H3 & H4 & H5).
  exists ref, key, p, meta, body, sig, k, nonce, ct. auto 10.
Qed.

(** Every call is the callback's of some round. *)
Lemma poll_call_of spec ws p d b ok : (b, ok) ∈ (poll_run spec ws p d).2 -> exists w, w ∈ ws /\ ok = we_apply w b.
Proof.
  revert p d. induction ws as [|w ws IH]; intros p d; cbn [poll_run]; [by intros ?%not_elem_of_nil|].
  pose proof (poll_round_spec spec (we_faults w) (we_get w) (we_apply w) p d) as Hr.
  destruct (poll_round _ _ _ _ p d) as [[p1 d1] call]. specialize (IH p1 d1). destruct (poll_run spec ws p1 d1) as [[p2 d2] calls].
  destruct Hr as [_ Hr]. cbn [snd] in *. intros Hin.
  assert ((b, ok) ∈ calls -> exists w', w' ∈ w :: ws /\ ok = we_apply w' b) as Hrest.
  { intros (w' & Hw' & E)%IH. exists w'. split; [by right|done]. }
  destruct call as [[b' ok']|]; [|by apply Hrest]. apply elem_of_cons in Hin as [[= -> ->]|Hin]; [|by apply Hrest].
  exists w. split; [left|]. by destruct Hr as (_ & ? & _).
Qed.

(** What [config pull] writes is a pinned body that passed the checks. *)
Lemma pull_opened w fetcher_for rc url fp f d plain d' :
  config_pull w fetcher_for rc url fp f d = (Ok plain, d') ->
  exists plan body, plan_from_runtime rc (if negb (url =? "")%string then Some url else None) fp None = Ok plan
    /\ pinned (pl_spec plan) body /\ open_body w rc body = Ok plain /\ cache_sound (pl_spec plan) d d'.
Proof.
  unfold config_pull. destruct (plan_from_runtime _ _ _ _) as [plan|[]] eqn:Ep; [|done|done]. destruct (fetcher_for plan) as [get|]; [|done].
  pose proof (fetch_pinned (pl_spec plan) f d get) as H. destruct (fetch _ f d get) as [[res|] d1]; [|done]. destruct H as [Hp Hc].
  intros [= Ho <-]. exists plan, (fr_body res). auto.
Qed.

Section Gate.
Context {C : Type} (load_str : string -> Result Error C) (w : World) (rc : RuntimeRemoteConfig).

(** The rounds of the daemon's poller: a disk, a server and a reload each. *)
Definition daemon_rounds (l : list (DiskFaults * HttpFetcher * (C -> bool))) : list Weather :=
  (fun x => mkWeather x.1.1 x.1.2 (apply_cb load_str w rc x.2)) <$> l.

(** C12: a remote configuration that the daemon has applied, in any run of its
    poller, came as a body with the pinned digest; where a signature is required
    that body is an envelope signed by the configured key over header and body,
    and so is any envelope where a key is configured; where encryption is
    required it is an envelope; and the text read as the configuration is what
    the envelope decrypts to under the configured key with its header
    authenticated, or the body itself when it is no envelope. *)
Theorem remote_config_guarded spec l d b :
  (b, true) ∈ (poll_run spec (daemon_rounds l) poll_init d).2 -> Forall byte_ok b ->
  hex_sha256 b = to_ascii_lowercase (sp_fingerprint_sha256 spec)
  /\ exists plain text c, text_of plain = Some text /\ load_str text = Ok c /\ (exists x, x ∈ l /\ x.2 c = true)
  /\ (requires_signature rc = true -> is_sealed b = true
       /\ exists pk anchor, runtime_remote_config_signing_pubkey rc = Some pk /\ resolve_signing_pubkey w pk = Ok anchor /\ signed_by anchor b)
  /\ (is_sealed b = true -> forall pk, runtime_remote_config_signing_pubkey rc = Some pk -> trim pk <> ""%string ->
       exists anchor, resolve_signing_pubkey w pk = Ok anchor /\ signed_by anchor b)
  /\ (requires_encrypted rc = true -> is_sealed b = true)
  /\ (if is_sealed b then decrypts_to w rc b plain else plain = b).
Proof.
  intros Hin Hb. split.
  { pose proof (poll_run_spec spec (daemon_rounds l) poll_init d) as H. destruct (poll_run _ _ _ _) as [[p' d'] calls]. cbn [snd] in Hin.
    destruct H as (_ & Hp & _). rewrite Forall_forall in Hp. exact (Hp _ Hin). }
  apply poll_call_of in Hin as (wt & Hw & E). apply list_elem_of_fmap in Hw as (x & -> & Hx). cbn [we_apply] in E. unfold apply_cb, admit_body, open_body in E.
  destruct (verify_sigverify_anchor w b _ _) as [[]|] eqn:Ev; [|done]. cbn [mbind result_bind] in E.
  destruct (decrypt_if_sealed w b _ _) as [plain|] eqn:Ed; [|done]. destruct (text_of plain) as [text|] eqn:Et; [|done].
  destruct (load_str text) as [c|] eqn:El; [|done]. destruct (anchor_checked _ _ _ _ Hb Ev) as [Hs1 Hs2]. destruct (decrypted _ _ _ _ Ed) as [He1 He2].
  exists plain, text, c. split_and!; eauto.
Qed.

End Gate.

(** ** Retrying *)

(** A server that has the body [b] and compares the ETag. *)
Definition conditional_server (b : list Z) (etag : string) : HttpFetcher := fun _ if_none_match _ =>
  if bool_decide (if_none_match = Some etag) then Ok (mkHttpResponse 304 (Some etag) []) else Ok (mkHttpResponse 200 (Some etag) b).

(** A server that sends the body every time. *)
Definition plain_server (b : list Z) : HttpFetcher := fun _ _ _ => Ok (mkHttpResponse 200 None b).

(** Up to the first call that succeeds. *)
Fixpoint until_applied (calls : list (list Z * bool)) : list (list Z * bool) :=
  match calls with [] => [] | (b, true) :: _ => [(b, true)] | c :: r => c :: until_applied r end.

Lemma fetch_plain spec d b : spec_check spec = SpecOk -> pinned spec b -> is_ok (load_cached no_faults d) = true ->
  exists d', fetch spec no_faults d (plain_server b) = (Ok (mkFetchResult Fresh b None), d') /\ is_ok (load_cached no_faults d') = true.
Proof.
  intros Hs Hp Hl. unfold fetch. rewrite Hs. destruct (load_cached no_faults d) as [c|]; [|done].
  change (hr_status (mkHttpResponse 200 None b) =? 200) with true. cbn [plain_server hr_status hr_body hr_etag]. unfold hex_eq. rewrite Hp, String.eqb_refl. cbn. eexists. split; [done|].
  unfold load_cached. cbn. rewrite sidecar_utf8, sidecar_back. done.
Qed.

(** From a server without ETags the callback gets the body in every round until
    it succeeds, and then no more. *)
Lemma retried_until_applied spec b ws d :
  spec_check spec = SpecOk -> pinned spec b -> is_ok (load_cached no_faults d) = true ->
  (poll_run spec ((fun cb => mkWeather no_faults (plain_server b) cb) <$> ws) poll_init d).2 = until_applied ((fun cb : list Z -> bool => (b, cb b)) <$> ws).
Proof.
  intros Hs Hp. assert (po_last_body_sha poll_init <> Some (to_ascii_lowercase (sp_fingerprint_sha256 spec))) as Hn by done. revert Hn.
  generalize poll_init as p. revert d. induction ws as [|cb ws IH]; intros d p Hn Hl; [done|].
  cbn [fmap list_fmap poll_run we_faults we_get we_apply]. destruct (fetch_plain spec d b Hs Hp Hl) as (d1 & Ef & Hl1). unfold poll_round. rewrite Ef.
  cbn [fr_outcome fr_body]. rewrite Hp, bool_decide_eq_false_2 by done. cbn [until_applied]. destruct (cb b) eqn:Ecb.
  - pose proof (poll_run_spec spec ((fun cb => mkWeather no_faults (plain_server b) cb) <$> ws) (mkPollState (Some (to_ascii_lowercase (sp_fingerprint_sha256 spec))) 0 None) d1) as H.
    destruct (poll_run spec _ _ d1) as [[p2 d2] calls]. destruct H as (_ & _ & _ & H). by rewrite H.
  - specialize (IH d1 (mkPollState (po_last_body_sha p) 0 None) Hn Hl1). destruct (poll_run spec _ _ d1) as [[p2 d2] calls]. cbn [snd] in *. by rewrite IH.
Qed.

(** ** Observations *)

(** The directory after the body was saved with its ETag. *)
Definition cached_dir (path : string) (b : list Z) (etag : string) : CacheDir :=
  mkCacheDir path (Some b) (Some (bytes_of (sidecar_text (hex_sha256 b) (Some etag)))).

Lemma load_cached_dir path b etag : load_cached no_faults (cached_dir path b etag) = Ok (Some (mkCachedEntry b (Some etag) (Some (hex_sha256 b)))).
Proof. unfold load_cached. cbn. by rewrite sidecar_utf8, sidecar_back. Qed.

Lemma poll_not_modified spec path b etag cb p :
  spec_check spec = SpecOk -> pinned spec b ->
  poll_round spec no_faults (conditional_server b etag) cb p (cached_dir path b etag) = (mkPollState (po_last_body_sha p) 0 None, cached_dir path b etag, None).
Proof.
  intros Hs Hp. unfold poll_round, fetch. rewrite Hs, load_cached_dir. unfold conditional_server. cbn [mbind option_bind ce_etag].
  rewrite bool_decide_eq_true_2 by done. cbn [hr_status]. change (304 =? 200) with false. change (304 =? 304) with true. cbv iota.
  unfold verify_cache_against_pin, hex_eq. cbn [ce_body]. by rewrite Hp, String.eqb_refl.
Qed.

(** With a server that compares ETags, a poller that starts with the body in its
    cache never hands it to its callback: after a restart the remote
    configuration is not applied. *)
Theorem restart_never_applies spec path b etag ws :
  spec_check spec = SpecOk -> pinned spec b ->
  (poll_run spec ((fun cb => mkWeather no_faults (conditional_server b etag) cb) <$> ws) poll_init (cached_dir path b etag)).2 = [].
Proof.
  intros Hs Hp. generalize poll_init as p. induction ws as [|cb ws IH]; intros p; [done|]. cbn [fmap list_fmap poll_run we_faults we_get we_apply].
  rewrite poll_not_modified by done. specialize (IH (mkPollState (po_last_body_sha p) 0 None)). by destruct (poll_run _ _ _ _) as [[p2 d2] calls].
Qed.

(** And a body whose first application failed is not tried again, whatever the
    callback would say later. *)
Theorem failed_apply_not_retried spec path b etag cb ws :
  spec_check spec = SpecOk -> pinned spec b ->
  (poll_run spec ((fun cb => mkWeather no_faults (conditional_server b etag) cb) <$> cb :: ws) poll_init (mkCacheDir path None None)).2 = [(b, cb b)].
Proof.
  intros Hs Hp. rewrite fmap_cons. cbn [poll_run we_faults we_get we_apply]. unfold poll_round at 1, fetch. rewrite Hs. cbn [load_cached cd_body].
  unfold conditional_server at 1. cbn [mbind option_bind]. rewrite bool_decide_eq_false_2 by done. cbn [hr_status hr_body hr_etag]. change (200 =? 200) with true. cbv iota.
  unfold hex_eq. rewrite Hp, String.eqb_refl. cbn [negb save_atomic no_faults df_write_body df_write_sidecar cd_path cd_sidecar fr_outcome fr_body po_last_body_sha poll_init].
  rewrite bool_decide_eq_false_2 by done. change (mkCacheDir path (Some b) _) with (cached_dir path b etag).
  assert (forall p, (poll_run spec ((fun cb => mkWeather no_faults (conditional_server b etag) cb) <$> ws) p (cached_dir path b etag)).2 = []) as Hrest.
  { induction ws as [|cb' ws' IH]; intros p; [done|]. cbn [fmap list_fmap poll_run we_faults we_get we_apply].
    rewrite poll_not_modified by done. specialize (IH (mkPollState (po_last_body_sha p) 0 None)). by destruct (poll_run _ _ _ _) as [[p2 d2] calls]. }
  destruct (cb b);
    match goal with |- context [poll_run spec ?l ?p ?d0] =>
      pose proof (Hrest p : (poll_run spec l p d0).2 = []) as Hr; destruct (poll_run spec l p d0) as [[p2 d2] calls]; cbn [snd] in *; by rewrite Hr end.
Qed.

(** Opening a body is no part of [--config-url]: what is required of signatures
    and encryption does not matter there. *)
Lemma config_url_unchecked fetcher_for rc url fp f d ek re sk rs :
  config_url_body fetcher_for (mkRuntimeRemoteConfig (runtime_remote_config_enabled rc) (runtime_remote_config_url rc) (runtime_remote_config_fingerprint_sha256 rc)
    (runtime_remote_config_cache_file rc) (runtime_remote_config_allow_cached_on_failure rc) (runtime_remote_config_poll_interval rc)
    (runtime_remote_config_pin_spki_sha256 rc) (runtime_remote_config_allow_self_signed rc) (runtime_remote_config_max_cert_chain_depth rc) ek re sk rs) url fp f d
  = config_url_body fetcher_for rc url fp f d.
Proof. done. Qed.

(** The configured cache file changes nothing. *)
Lemma cache_file_ignored spec file f d get :
  fetch (mkRemoteConfigSpec (sp_url spec) (sp_fingerprint_sha256 spec) (sp_allow_cached_on_failure spec) (sp_max_size_bytes spec) file) f d get = fetch spec f d get.
Proof. done. Qed.

End Remote.

(** ** Hexadecimal *)

Lemma byte_forall (f : Z -> bool) : forallb f (zrange 256) = true -> forall b, byte_ok b -> f b = true.
Proof.
  intros H b Hb. rewrite forallb_forall in H. apply H, list_elem_of_In. unfold zrange, byte_ok in *. apply list_elem_of_fmap. exists (Z.to_nat b).
  split; [lia|]. apply elem_of_seq. lia.
Qed.

Definition plain_digit (a : ascii) : bool := (code a <? 128) && negb (Ascii.eqb a ":").

Definition hex_pair_ok (b : Z) : bool :=
  match to_digit 16 (hex_char (b / 16)), to_digit 16 (hex_char (b mod 16)) with
  | Some x, Some y => Z.lor (wrap 8 (Z.shiftl x 4)) y =? b
  | _, _ => false
  end && plain_digit (hex_char (b / 16)) && plain_digit (hex_char (b mod 16)).

Lemma hex_pair b : byte_ok b -> hex_pair_ok b = true.
Proof. apply byte_forall. vm_compute. reflexivity. Qed.

Lemma encode_hex_cons b l : encode_hex (b :: l) = String (hex_char (b / 16)) (String (hex_char (b mod 16)) (encode_hex l)).
Proof. unfold encode_hex, hex_byte. cbn [foldr]. by rewrite !str_cons_app, str_nil_app. Qed.

Lemma decode_pairs_encode l : Forall byte_ok l -> decode_pairs (encode_hex l) = Some l.
Proof.
  induction 1 as [|b l Hb Hl IH]; [done|]. rewrite encode_hex_cons. cbn [decode_pairs]. apply hex_pair in Hb. unfold hex_pair_ok in Hb.
  destruct (to_digit 16 (hex_char (b / 16))) as [x|]; [|done]. destruct (to_digit 16 (hex_char (b mod 16))) as [y|]; [|done].
  rewrite !andb_true_iff in Hb. destruct Hb as [[E%Z.eqb_eq _] _]. cbn [mbind option_bind]. rewrite IH. cbn [mbind option_bind]. by rewrite E.
Qed.

Lemma encode_hex_length l : String.length (encode_hex l) = (2 * length l)%nat.
Proof. induction l as [|b l IH]; [done|]. rewrite encode_hex_cons. cbn [String.length length]. lia. Qed.

(** [decode_hex] reads what [encode_hex] writes. *)
Lemma hex_roundtrip l : Forall byte_ok l -> decode_hex (encode_hex l) = Some l.
Proof.
  intros Hl. unfold decode_hex. rewrite encode_hex_length. replace (Z.of_nat (2 * length l)) with (Z.of_nat (length l) * 2) by lia.
  rewrite Z.mod_mul by lia. cbn [Z.eqb]. by apply decode_pairs_encode.
Qed.

Fixpoint all_plain (s : string) : bool := match s with EmptyString => true | String a r => plain_digit a && all_plain r end.

Lemma encode_hex_plain l : Forall byte_ok l -> all_plain (encode_hex l) = true.
Proof.
  induction 1 as [|b l Hb Hl IH]; [done|]. rewrite encode_hex_cons. cbn [all_plain]. apply hex_pair in Hb. unfold hex_pair_ok in Hb.
  rewrite !andb_true_iff in Hb. destruct Hb as [[_ ->] ->]. by rewrite IH.
Qed.

Lemma plain_no_colon s : all_plain s = true -> no_char ":" s = true.
Proof. induction s as [|a s IH]; [done|]. cbn [all_plain no_char]. unfold plain_digit. rewrite !andb_true_iff. intros [[_ ->] H]. auto. Qed.

(** Below 128 every byte is a character. *)
Fixpoint all_ascii (s : string) : bool := match s with EmptyString => true | String a r => (code a <? 128) && all_ascii r end.

Lemma ascii_text s : all_ascii s = true -> text_of (bytes_of s) = Some s.
Proof.
  intros H. unfold text_of, from_utf8. assert (utf8_valid (bytes_of s) = true) as ->; [|cbn; by rewrite string_of_bytes].
  induction s as [|a s IH]; [done|]. cbn [all_ascii] in H. apply andb_true_iff in H as [Ha%Z.ltb_lt Hs].
  change (bytes_of (String a s)) with (code a :: bytes_of s). cbn [utf8_valid].
  assert (between 0 127 (code a) = true) as -> by (unfold between, code in *; apply andb_true_iff; split; apply Z.leb_le; lia). by apply IH.
Qed.

Lemma all_ascii_app s t : all_ascii (s +:+ t) = all_ascii s && all_ascii t.
Proof. induction s as [|a s IH]; [done|]. rewrite str_cons_app. cbn [all_ascii]. by rewrite IH, andb_assoc. Qed.

Lemma plain_ascii s : all_plain s = true -> all_ascii s = true.
Proof. induction s as [|a s IH]; [done|]. cbn [all_plain all_ascii]. unfold plain_digit. rewrite !andb_true_iff. intros [[-> _] H]. auto. Qed.

Lemma bytes_of_ok s : Forall byte_ok (bytes_of s).
Proof.
  apply Forall_fmap, Forall_true. intros a. unfold byte_ok, code. cbn. pose proof (nat_ascii_bounded a). lia.
Qed.

(** ** Concrete runs *)

Module Sample.
Import Toy.

(** A side file of hexadecimal digits. *)
Definition side_text (sha : string) (etag : option string) : string :=
  String (match etag with Some _ => "+" | None => "-" end)%char (encode_hex (bytes_of (default ""%string etag)) +:+ ":" +:+ encode_hex (bytes_of sha)).
Definition side_read (s : string) : option (option string * option string) :=
  match s with
  | EmptyString => None
  | String c r =>
      '(a, b) ← split_once ":" r;
      x ← decode_pairs a;
      y ← decode_pairs b;
      Some (if Ascii.eqb c "+" then Some (string_of x) else None, Some (string_of y))
  end.

#[export, program] Instance sidecar : SidecarJson := {| sidecar_text := side_text; sidecar_read := side_read |}.
Next Obligation.
  intros sha etag. apply ascii_text. unfold side_text. cbn [all_ascii]. rewrite !all_ascii_app. rewrite !(plain_ascii (encode_hex _)) by apply encode_hex_plain, bytes_of_ok.
  by destruct etag.
Qed.
Next Obligation.
  intros sha etag. unfold side_text, side_read. change (":" +:+ encode_hex (bytes_of sha))%string with (String ":" (encode_hex (bytes_of sha))).
  rewrite split_once_app by apply plain_no_colon, encode_hex_plain, bytes_of_ok. cbn [mbind option_bind].
  rewrite !decode_pairs_encode by apply bytes_of_ok. cbn [mbind option_bind]. rewrite !string_of_bytes. by destruct etag.
Qed.

(** A configuration that requires a signature and encryption. *)
Definition rc (fp : string) : RuntimeRemoteConfig :=
  mkRuntimeRemoteConfig (Some true) (Some "https://origin/spt.toml") (Some fp) None None (Some "60s") [] None None
    (Some "env:KEY") (Some true) (Some (b64_encode (ed25519_public signer))) (Some true).
Definition world : World :=
  mkWorld (fun n => if (n =? "KEY")%string then Ok (b64_encode secret2) else Err "environment variable not found"%string)
    (fun _ => Err "not found"%string) (fun _ _ => Err (InvalidArgs "no vault")).
Definition spec (b : list Z) : RemoteConfigSpec := mkRemoteConfigSpec "https://origin/spt.toml" (hex_sha256 b) false None None.
Definition load (s : string) : Result Error string := Ok s.
Definition rounds (b : list Z) : list (DiskFaults * HttpFetcher * (string -> bool)) := [(no_faults, conditional_server b "v1", fun _ => true)].
Definition empty_dir : CacheDir := mkCacheDir "/state" None None.

Lemma applied : (signed_file, true) ∈ (poll_run (spec signed_file) (daemon_rounds load world (rc (hex_sha256 signed_file)) (rounds signed_file)) poll_init empty_dir).2.
Proof.
  assert ((poll_run (spec signed_file) (daemon_rounds load world (rc (hex_sha256 signed_file)) (rounds signed_file)) poll_init empty_dir).2
          = [(signed_file, true)]) as -> by (vm_compute; reflexivity). left.
Qed.

(** The signed envelope is applied; so it is one. *)
Lemma remote_config_guarded_witness :
  is_sealed signed_file = true /\ hex_sha256 signed_file = to_ascii_lowercase (hex_sha256 signed_file).
Proof.
  destruct (remote_config_guarded load world (rc (hex_sha256 signed_file)) (spec signed_file) (rounds signed_file) empty_dir signed_file applied
              (byteb_ok signed_file ltac:(vm_compute; reflexivity))) as [Hp (plain & t & c & _ & _ & _ & _ & _ & He & _)].
  split; [apply He; reflexivity|exact Hp].
Defined.

(** The same requirements: [config pull] refuses a body in the clear, and with
    [--config-url] it becomes the configuration. *)
Lemma config_url_skips_signature :
  let fetcher_for := fun _ : RemoteConfigPlan => Ok (plain_server text) in
  (config_url_body fetcher_for (rc (hex_sha256 text)) "https://origin/spt.toml" None no_faults empty_dir).1 = Ok text
  /\ is_ok (config_pull world fetcher_for (rc (hex_sha256 text)) "https://origin/spt.toml" None no_faults empty_dir).1 = false.
Proof. vm_compute. split; reflexivity. Qed.

(** A secret key whose last byte is a newline does not survive the way from its
    file through a reference. *)
Definition unlucky : list Z := replicate 31 7 ++ [10].
Lemma raw_key_newline_lost :
  let w := mkWorld (fun _ => Err ""%string) (fun _ => Ok (gen_key_file KindX25519 unlucky)) (fun _ _ => Err (InvalidArgs "")) in
  is_ok (raw ← resolve_ref_to_bytes w "file:///etc/spt/key"; decode_x25519_secret_bytes "file:///etc/spt/key" raw) = false
  /\ decode_x25519_secret_bytes "/etc/spt/key" (gen_key_file KindX25519 unlucky) = Ok unlucky.
Proof. vm_compute. split; reflexivity. Qed.

(** A pre-shared key written as text is read back, in both encodings. *)
Lemma psk_file_read_back :
  Forall (fun kind => decode_psk_bytes "k" (strip_trailing_newlines (gen_key_file kind unlucky)) = Ok unlucky) [KindPsk true; KindPsk false].
Proof. repeat constructor; vm_compute; reflexivity. Qed.

(** The form [file:PATH] of the schema's documentation is no reference. *)
Lemma file_path_form_refused : AuthRef_parse "file:/etc/spt/key" = Err (UnknownScheme "file:/etc/spt/key").
Proof. vm_compute. reflexivity. Qed.

End Sample.
